(* ===== verification/_CoqProject ===== *)
-Q . S2P
Prelude.v
LList.v
Bitmap.v
CString.v
Heapsort.v
Printf.v
PageAlloc.v
E820.v
Slab.v
Virt.v
Vmm.v
Mmap.v
Timer.v
Sched.v
SchedLive.v
Fat.v
BCache.v
RamDisk.v
FileIO.v
VCache.v
FileTable.v
Namei.v
Ext3.v
Ext3INode.v
KFs.v
Ext3Dir.v
Journal.v
JournalCommit.v
Socket.v
ShMem.v
Modules.v
IcFs.v
KeObject.v
Process.v
ExitThreads.v
Load.v
Pipe.v
