(* ===== verification/Prelude.v ===== *)
(** * A verification of the Whitix kernel

    Whitix is an operating system kernel for the i386, written in C.  This
    library models the parts of it that carry its own logic, function by
    function, and proves what makes them correct.  Where the code does not
    do what it means to, the model keeps what it does and a theorem records
    it.

    ** The program and the files that model it

    - Prelude: machine integers (a w-bit integer is a [Z] with the
      wrap-around of each assignment written out by [u8] ... [s64]), the
      error codes, page arithmetic, the result type [outcome] and its
      monad, [zlookup]/[zupdate] for array accesses, shared lemmas and
      tactics.
    - LList: the circular doubly linked lists of include/llist.h on a heap
      of [next] and [prev] fields, and the interface [ListOps]/[ListLaws]
      under which the other components use them.
    - Bitmap: lib/bitmap.c and BitFindFirstZero of include/bitmap.h.
    - CString: lib/string.c on byte memory.
    - Heapsort: Sort of lib/heapsort.c, with its int and size_t conversions.
    - Printf: lib/vsprintf.c (vsnprintf, number, do_div, vasprintf).
    - PageAlloc: the physical page allocator memory/pg_alloc.c: two stacks
      of free page frames over the list interface.
    - E820: the memory map of arch/i386/mm/init.c: sorting the change
      points of the boot loader's ranges and sweeping over them; GetMaxPfn
      and PhysInit.
    - Slab: the slab allocator memory/slab.c (MemCacheCreate,
      MemCacheAlloc, MemCacheFree, MemAlloc, MemFree), over the interface
      [PageMapper].
    - Virt: the page tables of arch/i386/mm/virt.c in a model of physical
      memory with the processor's page walk; it uses pages from the
      interface [PageSource], which PageAlloc implements, and implements
      [PageMapper] for Slab.
    - Vmm: memory areas, VirtCheckArea and page faults of memory/vmm.c and
      MmapHandleFault of memory/mmap.c.
    - Mmap: mmap, munmap and mprotect of memory/mmap.c.
    - Timer: the timer list of kernel/timer.c.
    - Sched: threads, the scheduler, wait queues and preemption of
      kernel/thread.c, sched.c, wait.c, preempt.c and the timer interrupt
      of arch/i386/kernel/pit.c, with a step relation for the invariant.
    - SchedLive: the bound on the timer interrupts a running thread waits.
    - Fat: the allocation table of the FAT file system, fs/fat/fat.c, and
      FatBlockMap of fs/fat/file.c, on a disk of sectors.
    - BCache: the block cache fs/vfs/bcache.c and the request queue of
      devices/kedev/sdevice.c, over the interface [StorageDriver] of a
      driver; RamDisk (devices/storage/ramdisk.c) implements it.
    - FileIO: FileGenericRead, FileGenericWrite and seeking of
      fs/vfs/file.c on the block cache, over the interface [BlockMap] of a
      file system; IsoBlockMap of fs/isofs/dir.c implements it.
    - VCache: the vNode cache fs/vfs/vcache.c, over the interface
      [NodeStore] of a file system.
    - FileTable: file descriptors, fs/vfs/file_table.c and SysOpen, SysClose
      and GetName of fs/vfs/file.c.
    - Namei: path lookup of fs/vfs/vnode.c and what fs/vfs/dir.c and file.c
      build on it, over the interface [NodeTree] of the file systems.
    - Ext3: allocation of blocks and inodes, the block map and truncation
      of fs/ext3/balloc.c and ialloc.c, on the bitmaps of Bitmap.
    - Ext3INode: the inode table, Ext3ReadVNode and Ext3DirtyVNode of
      fs/ext3/inode.c.
    - Ext3Dir: the directories of fs/ext3/inode.c and FillDir of
      fs/vfs/dir.c.
    - Journal, JournalCommit: the journal fs/journal/*.c over a model of
      the block cache in which a crash keeps any set of written buffers;
      JournalCommit proves what a committed transaction leaves on the disk.
    - Socket: the socket calls of net/socket.c and the local sockets of
      net/local.c.
    - ShMem: the segments of shared memory, memory/shmem.c, on Mmap and the
      page source of Virt.
    - Modules: linking kernel modules and looking up symbols,
      kernel/module.c and kernel/symbols.c, in the byte memory of CString.
    - KFs: the trees of the kernel's own file systems, fs/kfs/dir.c.
    - IcFs: the files of fs/icfs/info.c that show variables, and the
      configuration calls of fs/icfs/config.c, on KFs.
    - KeObject: kernel objects and their sets, lib/keobject.c, on IcFs.
    - Process: kernel/process.c, on KeObject; the abstract specification is
      a tree of processes.
    - ExitThreads: ThrProcessExit as a whole, which joins Process, Sched and
      Timer and gives back the rest over the interface [ProcessResources].
    - Load: the arguments of a program and the line of a script,
      fs/vfs/load.c, over the byte memory of CString.
    - Pipe: the ring buffer of fs/vfs/pipe.c.

    ** How the code is represented

    A C structure is a [Record] with the fields the code uses, a global
    variable is a field of the component's state record, and a function is
    a function from the state to an [outcome] of the result and the new
    state.  [Ret] is a normal return; [Fault] an access outside memory or a
    trap (a division that overflows, a null pointer); [Panic] a call of
    KernelPanic; [NoFuel] says that the iteration budget of a loop is used
    up, which stands for a loop or a wait that does not end.  Error codes
    are returned as the code returns them, as negative numbers.  Locks
    that only disable interrupts are left out: the model is of one
    processor on which the critical sections run undivided; where threads
    interleave (Sched) the operations are the steps of a relation.  What
    is not in the repository or is passed as a pointer (comparison and
    constructor functions, a device driver) is a parameter with its
    documented behaviour as hypotheses, and every theorem with hypotheses
    has a lemma [<theorem>_witness] that applies it to a concrete state.

    ** What the theorems show

    - Lists, bitmaps, strings, sorting and printing: the routines implement
      operations on sequences, sets of bits, strings and permutations; the
      printing routines give the text of the format, cut off at the end of
      their buffer, and write nothing else, for texts that end before the
      end of the address space.
    - Memory: the page allocator refines two sequences of frames and never
      hands out a frame twice; the memory map of the boot loader is made
      disjoint without changing the type of an address; mapping a page
      changes the translation of that page and of no other in any address
      space (the first directory entry, which the kernel makes the same as
      that of its first table, apart); the slab allocator returns objects that are fresh and inside
      their slab and frees exactly the object it is given; a user range
      that VirtCheckArea accepts is covered by areas with the right
      access; a page fault is satisfied only where an area allows it; a
      new mapping adds exactly its range.
    - Threads: the scheduler picks a running thread with the most quantums,
      the bookkeeping of the thread code is invariant under every
      interleaving of its operations, the end of a thread included, no running thread starves, wake-ups
      are first in, first out; deadlines of timers are kept by removal and
      by ticks.
    - Files: a table access of FAT reads and writes one entry in all copies
      of the table that can be read, cluster chains grow and shrink as asked, a block of a
      file is found in its chain; a pipe is a queue of bytes.  The block
      cache cannot be told from an array of blocks nor the vNode cache from
      a table of nodes, and synchronising makes the disk agree with them; a
      file is a sequence of bytes in which what is written is read back;
      descriptors are a finite map that hands out the lowest free number; a
      path is followed component by component.  ext3 hands out the lowest
      free block, keeps bitmaps and counts consistent, and extends the
      block map of a file at one block only, marking what it changes for
      writing but for a table of tables; a first journal transaction of
      one buffer survives a crash.  An ext3 directory is a
      finite map from names to inodes, as long as the first name of a block
      is not removed, what is written to an inode is read
      back, and reading a directory in pieces gives its entries once.
    - Sockets: the calls keep peers, parents, queues and descriptors in
      agreement and never use a freed socket when they are used as
      Socket.proper says, which leaves out what the faults below concern; messages of one size arrive
      whole and in order; polling tells what the next call does.
    - Modules and shared memory: a module file is linked as ELF says, every
      relocated word and every other byte of the image accounted for; the
      symbol printed for an address is the nearest function before it; page
      faults of two processes get the same frame exactly when they are for
      the same page of a segment, as long as segments differ in size.
    - Kernel file systems, objects and processes: a tree of kernel files is
      a tree of finite maps, read and walked as such; a variable published
      in it can be read; processes are created, exit, are waited for and
      freed as a tree of processes says, the only structures
      used after they were freed are the children that exited before their
      parent, with the writes that are recorded, and an exit takes the threads and
      the timers of the process with it.  A program finds its name and its
      arguments on the stack it starts with.
    - Faults found in the code, as theorems: a third timer gets a wrong
      deadline (Timer), unmapping the start of an area leaves areas that
      overlap (Mmap), a mapping can reach kernel space (Mmap), shortening a
      FAT file leaves its last cluster pointing to a free one (Fat), a
      large write overruns a pipe (Pipe), strncpy overruns and strrchr
      never finds (CString), page frame 4096 is lost when freed
      (PageAlloc), a node that cannot be read makes later lookups hang
      (VCache), a lookup keeps references to the directories it passes
      (Namei), closing one of two shared descriptors frees the file and an
      unterminated path overruns its copy (FileTable), the last block of a
      RAM disk is refused (RamDisk), a transaction of several buffers loses
      its last one (JournalCommit), a name removed from the start of a
      directory block is still found (Ext3Dir), receiving overruns the
      buffer and repeats what was read, and a socket closed by its
      descriptor stays on the list of its server (Socket), of two segments
      of shared memory of one size the second is never found (ShMem), an
      information file stops after its first read and can overrun the
      buffer (IcFs), a wake-up between a scan and a sleep is lost
      (Process), an argument across the end of a page is garbled and the
      arguments of scripts are lost or merged (Load), a write to a full pipe is refused although there are readers
      (Pipe), a new file whose name begins another is refused (KFs).

    ** Bounds and fuel

    Loops whose number of iterations is not given by the data take a
    number [fuel].  The theorems state how much is enough: the length of
    the list or chain walked, of the strings or buffers copied, 1024 for
    the at most 32 change points of the memory map (a bubble sort of them
    needs fewer passes than there are inversions), 2^20 for a loop over the
    pages of the address space, and a nesting depth of three for the mutual
    recursion of VirtMemMapPage and VirtAllocateTemp.

    ** What is not modelled

    Device drivers, consoles and video, interrupt and exception entry
    code, the mapping of ELF files, mounting, the other file systems
    and all user-space programs and libraries.  Threads that wait for a buffer or a vNode another thread
    has locked are not interleaved: such a wait is [NoFuel], and the
    theorems show that the operations leave nothing locked.  The
    translation cache of the processor is not part of Virt (every access
    walks the tables).  In the modelled files: SysMoreCore and
    MMapFreePage's write-back (mmap.c), VirtDestroyMemManager and the
    fault display (virt.c), SysPipe (pipe.c), Sleep (timer.c). *)

From Stdlib Require Export ZArith Lia Bool.
From stdpp Require Export base gmap list.

Declare Scope whitix_scope.
Delimit Scope whitix_scope with whitix.
Open Scope Z_scope.

(** ** Machine integers

    A w-bit integer of the C code is a [Z]; the conversions below write
    out the wrap-around of each assignment or cast. *)

Definition u8 (z : Z) : Z := z mod 2 ^ 8.
Definition u16 (z : Z) : Z := z mod 2 ^ 16.
Definition u32 (z : Z) : Z := z mod 2 ^ 32.
Definition u64 (z : Z) : Z := z mod 2 ^ 64.

Definition s8 (z : Z) : Z := (z + 2 ^ 7) mod 2 ^ 8 - 2 ^ 7.
Definition s32 (z : Z) : Z := (z + 2 ^ 31) mod 2 ^ 32 - 2 ^ 31.
Definition s64 (z : Z) : Z := (z + 2 ^ 63) mod 2 ^ 64 - 2 ^ 63.

(** A stored byte. *)
Definition is_byte (b : Z) : Prop := 0 <= b < 256.

(** The truth value a C condition gives to an integer. *)
Definition c_true (z : Z) : bool := negb (z =? 0).

(** ** Error codes (include/error.h); the code returns their negation. *)

Definition ESUCCESS : Z := 0.
Definition EPERM : Z := 1.
Definition ENOENT : Z := 2.
Definition EIO : Z := 3.
Definition EBADF : Z := 4.
Definition ENOMEM : Z := 5.
Definition EACCES : Z := 6.
Definition EBUSY : Z := 7.
Definition EFAULT : Z := 8.
Definition EEXIST : Z := 9.
Definition EMFILE : Z := 10.
Definition ENOSPC : Z := 11.
Definition EROFS : Z := 12.
Definition ENOSYS : Z := 13.
Definition ENOTIMPL : Z := 14.
Definition ENOTDIR : Z := 15.
Definition EISDIR : Z := 17.
Definition EINVAL : Z := 18.
Definition EPIPE : Z := 20.

(** ** Page geometry (include/i386/i386.h) *)

Definition PAGE_SIZE : Z := 4096.
Definition PAGE_SHIFT : Z := 12.
Definition PAGE_MASK : Z := Z.lnot (PAGE_SIZE - 1).
Definition PAGE_ALIGN_UP (a : Z) : Z := u32 (Z.land (u32 (a + PAGE_SIZE - 1)) PAGE_MASK).
Definition PAGE_ALIGN (a : Z) : Z := u32 (Z.land a PAGE_MASK).
Definition PAGE_OFFSET (a : Z) : Z := Z.land a (PAGE_SIZE - 1).

(** Page permissions (include/i386/virtual.h). *)
Definition PAGE_PRESENT : Z := 1.
Definition PAGE_RW : Z := 2.
Definition PAGE_USER : Z := 4.
Definition PAGE_ACCESSED : Z := 32.
Definition PAGE_SHARED : Z := 256.

(** ** Outcomes of a C computation

    [Ret] is a normal return; [Fault] an access outside every mapped
    object; [Panic] a call of KernelPanic or a halt of the processor
    (cli; hlt); [NoFuel] an iteration budget that was too small. *)

Inductive outcome (A : Type) : Type :=
| Ret (a : A)
| Fault
| Panic
| NoFuel.
Arguments Ret {A} a.
Arguments Fault {A}.
Arguments Panic {A}.
Arguments NoFuel {A}.

Definition bindO {A B} (c : outcome A) (k : A -> outcome B) : outcome B :=
  match c with
  | Ret a => k a
  | Fault => Fault
  | Panic => Panic
  | NoFuel => NoFuel
  end.

Notation "'let*' x ':=' c 'in' k" := (bindO c (fun x => k))
  (at level 10, x pattern, c at level 100, k at level 200)
  : whitix_scope.
Open Scope whitix_scope.

(** A read or a write that may miss every object. *)
Definition of_option {A} (o : option A) : outcome A :=
  match o with Some a => Ret a | None => Fault end.

(** C array access at a [Z] index. *)
Definition zlookup {A} (l : list A) (i : Z) : option A :=
  if 0 <=? i then l !! Z.to_nat i else None.
Definition zupdate {A} (l : list A) (i : Z) (a : A) : option (list A) :=
  if (0 <=? i) && (i <? Z.of_nat (length l)) then Some (<[Z.to_nat i := a]> l) else None.

(** ** Automation *)

Create HintDb whitix.

(** Turn every boolean comparison of the context and of the goal into a
    case split with its arithmetic meaning. *)
Ltac zcases :=
  repeat match goal with
  | |- context [?a <=? ?b] => destruct (Z.leb_spec a b)
  | |- context [?a <? ?b] => destruct (Z.ltb_spec a b)
  | |- context [?a =? ?b] => destruct (Z.eqb_spec a b)
  | H : context [?a <=? ?b] |- _ => destruct (Z.leb_spec a b)
  | H : context [?a <? ?b] |- _ => destruct (Z.ltb_spec a b)
  | H : context [?a =? ?b] |- _ => destruct (Z.eqb_spec a b)
  end.

(** Invert the equations a successful run of [bindO] gives. *)
Ltac inv_outcome :=
  repeat match goal with
  | H : bindO ?c _ = Ret _ |- _ =>
      let E := fresh "E" in destruct c eqn:E; simpl in H; try discriminate H
  | H : of_option ?o = Ret _ |- _ =>
      let E := fresh "E" in destruct o eqn:E; simpl in H; try discriminate H
  | H : Ret _ = Ret _ |- _ => injection H as H; subst
  | H : Some _ = Some _ |- _ => injection H as H; subst
  end.

(** ** Machine-integer lemmas *)

Lemma u32_id z : 0 <= z < 2 ^ 32 -> u32 z = z.
Proof. intros; unfold u32; now apply Z.mod_small. Qed.

Lemma u32_range z : 0 <= u32 z < 2 ^ 32.
Proof. unfold u32; apply Z.mod_pos_bound; lia. Qed.

Lemma u8_id z : 0 <= z < 256 -> u8 z = z.
Proof. intros; unfold u8; now apply Z.mod_small. Qed.

Lemma u8_range z : 0 <= u8 z < 256.
Proof. unfold u8; apply Z.mod_pos_bound; lia. Qed.

Lemma u64_id z : 0 <= z < 2 ^ 64 -> u64 z = z.
Proof. intros; unfold u64; now apply Z.mod_small. Qed.

Lemma s32_id z : - 2 ^ 31 <= z < 2 ^ 31 -> s32 z = z.
Proof. intros; unfold s32; rewrite Z.mod_small; lia. Qed.

Lemma s32_u32 z : 0 <= z < 2 ^ 31 -> s32 (u32 z) = z.
Proof. intros; rewrite u32_id by lia; apply s32_id; lia. Qed.

Lemma c_true_spec z : c_true z = true <-> z <> 0.
Proof. unfold c_true; destruct (Z.eqb_spec z 0); simpl; intuition congruence. Qed.

Lemma c_true_false z : c_true z = false <-> z = 0.
Proof. unfold c_true; destruct (Z.eqb_spec z 0); simpl; intuition congruence. Qed.

#[export] Hint Resolve u32_range u8_range : whitix.

(** ** Page alignment in arithmetic form *)

Lemma land_page_mask a : Z.land a PAGE_MASK = a - a mod PAGE_SIZE.
Proof.
  unfold PAGE_MASK, PAGE_SIZE.
  rewrite <- Z.ldiff_land.
  change (4096 - 1) with (Z.ones 12).
  rewrite Z.ldiff_ones_r by lia.
  rewrite Z.shiftl_mul_pow2, Z.shiftr_div_pow2 by lia.
  change (2 ^ 12) with 4096. pose proof (Z.div_mod a 4096). lia.
Qed.

Lemma PAGE_OFFSET_mod a : PAGE_OFFSET a = a mod PAGE_SIZE.
Proof.
  unfold PAGE_OFFSET, PAGE_SIZE. change (4096 - 1) with (Z.ones 12).
  now rewrite Z.land_ones by lia.
Qed.

Lemma PAGE_ALIGN_eq a : 0 <= a < 2 ^ 32 -> PAGE_ALIGN a = a - a mod PAGE_SIZE.
Proof.
  intros H. unfold PAGE_ALIGN. rewrite land_page_mask. apply u32_id.
  unfold PAGE_SIZE. pose proof (Z.mod_pos_bound a 4096). pose proof (Z.mod_le a 4096). lia.
Qed.

Lemma PAGE_ALIGN_UP_eq a : 0 <= a <= 2 ^ 32 - PAGE_SIZE ->
  PAGE_ALIGN_UP a = (a + PAGE_SIZE - 1) / PAGE_SIZE * PAGE_SIZE.
Proof.
  unfold PAGE_SIZE. intros H. unfold PAGE_ALIGN_UP. rewrite land_page_mask. unfold PAGE_SIZE.
  rewrite !(u32_id (a + 4096 - 1)) by lia.
  pose proof (Z.div_mod (a + 4096 - 1) 4096).
  pose proof (Z.mod_pos_bound (a + 4096 - 1) 4096).
  rewrite u32_id; lia.
Qed.

(** ** Arrays at integer indices *)

Lemma zlookup_lt {A} (l : list A) i : 0 <= i < Z.of_nat (length l) ->
  exists a, zlookup l i = Some a.
Proof.
  intros H. unfold zlookup. zcases; [|lia].
  apply lookup_lt_is_Some_2. lia.
Qed.

Lemma zlookup_Some {A} (l : list A) i a : zlookup l i = Some a ->
  0 <= i < Z.of_nat (length l) /\ l !! Z.to_nat i = Some a.
Proof.
  unfold zlookup. zcases; [|discriminate]. intros E. split; [|done].
  apply lookup_lt_Some in E. lia.
Qed.

Lemma zupdate_Some {A} (l l' : list A) i a : zupdate l i a = Some l' ->
  0 <= i < Z.of_nat (length l) /\ l' = <[Z.to_nat i := a]> l.
Proof. unfold zupdate. zcases; simpl; naive_solver. Qed.

Lemma zupdate_lt {A} (l : list A) i a : 0 <= i < Z.of_nat (length l) ->
  zupdate l i a = Some (<[Z.to_nat i := a]> l).
Proof. intros. unfold zupdate. zcases; simpl; done || lia. Qed.

Lemma zlookup_zupdate {A} (l l' : list A) i j a : zupdate l i a = Some l' -> 0 <= j ->
  zlookup l' j = if j =? i then Some a else zlookup l j.
Proof.
  intros [Hi ->]%zupdate_Some Hj. unfold zlookup. destruct (Z.leb_spec 0 j); [|lia].
  zcases.
  - subst. apply list_lookup_insert_eq. lia.
  - apply list_lookup_insert_ne. lia.
Qed.

Lemma zupdate_length {A} (l l' : list A) i a : zupdate l i a = Some l' -> length l' = length l.
Proof. intros [_ ->]%zupdate_Some. apply length_insert. Qed.

(** ** Bit fields in arithmetic form *)

Lemma lor_shiftl_add a b k : 0 <= k -> 0 <= a < 2 ^ k -> Z.lor a (Z.shiftl b k) = a + b * 2 ^ k.
Proof.
  intros Hk Ha. rewrite <- Z.shiftl_mul_pow2 by done.
  assert (D : Z.land a (Z.shiftl b k) = 0).
  { apply Z.bits_inj'. intros n Hn. rewrite Z.land_spec, Z.testbit_0_l.
    destruct (decide (n < k)) as [H|H].
    - rewrite Z.shiftl_spec_low by done. apply andb_false_r.
    - rewrite <- (Z.mod_small a (2 ^ k)) by done. rewrite Z.mod_pow2_bits_high by lia. done. }
  by rewrite Z.add_nocarry_lxor, Z.lxor_lor by done.
Qed.

Lemma land_ones_mod a n m : 0 <= n -> m = Z.ones n -> Z.land a m = a mod 2 ^ n.
Proof. intros ? ->. by apply Z.land_ones. Qed.

Lemma land_1_odd c : c_true (Z.land c 1) = Z.odd c.
Proof.
  rewrite (land_ones_mod c 1) by done. change (2 ^ 1) with 2. rewrite Zmod_odd.
  by destruct (Z.odd c).
Qed.

(** The test for a power of two. *)
Lemma land_pred_pow2 n : 0 < n -> Z.land n (n - 1) = 0 <-> exists k, 0 <= k /\ n = 2 ^ k.
Proof.
  intros Hn. pose proof (Z.log2_spec n Hn) as [L1 L2]. pose proof (Z.log2_nonneg n) as L0.
  set (k := Z.log2 n) in *. rewrite Z.pow_succ_r in L2 by lia. split.
  - intros E. exists k. split; [done|]. destruct (Z.eq_dec n (2 ^ k)); [done|].
    assert (Z.testbit (Z.land n (n - 1)) k = true) as T; [|rewrite E, Z.bits_0 in T; discriminate].
    rewrite Z.land_spec, !Z.testbit_odd, !Z.shiftr_div_pow2 by lia.
    assert (n / 2 ^ k = 1) as -> by (symmetry; apply (Z.div_unique _ _ _ (n - 2 ^ k)); lia).
    assert ((n - 1) / 2 ^ k = 1) as -> by (symmetry; apply (Z.div_unique _ _ _ (n - 1 - 2 ^ k)); lia).
    done.
  - intros (j & Hj & ->). replace (2 ^ j - 1) with (Z.ones j) by (rewrite Z.ones_equiv; lia).
    rewrite Z.land_ones by lia. apply Z.mod_same. lia.
Qed.
