(* ===== verification/LList.v ===== *)
(** * Intrusive doubly linked lists (include/llist.h)

    Every queue of the kernel (page stacks, slab lists, thread list,
    timers, wait queues, memory areas) is a circular list of [ListHead]
    structures threaded through the objects.  Memory is modelled field by
    field: one finite map for the [next] fields and one for the [prev]
    fields of every [ListHead] that exists.  [clist h hd xs] says that the
    ring starting at the head [hd] holds exactly the entries [xs], in
    order, in both directions; each operation of llist.h is shown to
    implement the corresponding operation on sequences.  The class
    [ListOps] is the interface the other components are verified
    against. *)

From S2P Require Import Prelude.

(** ** Model *)

Notation ptr := Z (only parsing).

Record heap := { hnext : gmap Z ptr; hprev : gmap Z ptr }.

(** [p->next = v] and [p->prev = v]: a store to an existing structure. *)
Definition set_next (p v : ptr) (h : heap) : outcome heap :=
  match hnext h !! p with
  | Some _ => Ret {| hnext := <[p := v]> (hnext h); hprev := hprev h |}
  | None => Fault
  end.
Definition set_prev (p v : ptr) (h : heap) : outcome heap :=
  match hprev h !! p with
  | Some _ => Ret {| hnext := hnext h; hprev := <[p := v]> (hprev h) |}
  | None => Fault
  end.
Definition get_next (p : ptr) (h : heap) : outcome ptr := of_option (hnext h !! p).
Definition get_prev (p : ptr) (h : heap) : outcome ptr := of_option (hprev h !! p).

Definition INIT_LIST_HEAD (p : ptr) (h : heap) : outcome heap :=
  let* h := set_next p p h in set_prev p p h.

Definition DoListAdd (new prev next : ptr) (h : heap) : outcome heap :=
  let* h := set_prev next new h in
  let* h := set_next new next h in
  let* h := set_prev new prev h in
  set_next prev new h.

Definition ListAdd (new head : ptr) (h : heap) : outcome heap :=
  let* n := get_next head h in DoListAdd new head n h.

Definition ListAddTail (new head : ptr) (h : heap) : outcome heap :=
  let* p := get_prev head h in DoListAdd new p head h.

Definition DoListRemove (prev next : ptr) (h : heap) : outcome heap :=
  let* h := set_prev next prev h in
  set_next prev next h.

Definition ListRemove (entry : ptr) (h : heap) : outcome heap :=
  let* p := get_prev entry h in
  let* n := get_next entry h in
  DoListRemove p n h.

Definition ListRemoveInit (entry : ptr) (h : heap) : outcome heap :=
  let* h := ListRemove entry h in INIT_LIST_HEAD entry h.

Definition ListEmpty (head : ptr) (h : heap) : outcome bool :=
  let* n := get_next head h in Ret (n =? head).

Definition DoListSpliceTail (list head : ptr) (h : heap) : outcome heap :=
  let* first := get_next list h in
  let* last := get_prev list h in
  let* at_ := get_prev head h in
  let* h := set_prev first at_ h in
  let* h := set_next at_ first h in
  let* h := set_next last head h in
  set_prev head last h.

Definition ListSpliceTail (list head : ptr) (h : heap) : outcome heap :=
  let* e := ListEmpty list h in
  if e then Ret h else DoListSpliceTail list head h.

Definition ListSpliceTailInit (list head : ptr) (h : heap) : outcome heap :=
  let* e := ListEmpty list h in
  if e then Ret h
  else let* h := DoListSpliceTail list head h in INIT_LIST_HEAD list h.

(** The structure a member pointer belongs to, [off] being OffsetOf. *)
Definition ListEntry (p : ptr) (off : Z) : ptr := u32 (p - off).

(** The entries a loop visits that starts at [pos], as member pointers, with
    an iteration budget. *)
Fixpoint visit (fuel : nat) (pos head : ptr) (h : heap) : outcome (list ptr) :=
  match fuel with
  | O => NoFuel
  | S fuel =>
      if pos =? head then Ret []
      else let* n := get_next pos h in
           let* rest := visit fuel n head h in
           Ret (pos :: rest)
  end.
Definition ListForEachEntry (fuel : nat) (head : ptr) (h : heap) : outcome (list ptr) :=
  let* n := get_next head h in visit fuel n head h.
(** This one starts at the head, where it also ends: it visits nothing. *)
Definition ListForEach (fuel : nat) (head : ptr) (h : heap) : outcome (list ptr) := visit fuel head head h.

(** ** Representation *)

(** [a] and [b] are neighbours: each points at the other. *)
Definition linked (h : heap) (a b : ptr) : Prop :=
  hnext h !! a = Some b /\ hprev h !! b = Some a.

Fixpoint chain (h : heap) (a : ptr) (l : list ptr) : Prop :=
  match l with
  | [] => True
  | b :: l => linked h a b /\ chain h b l
  end.

(** The ring at [hd] holds the entries [xs]. *)
Definition clist (h : heap) (hd : ptr) (xs : list ptr) : Prop :=
  NoDup (hd :: xs) /\ chain h hd (xs ++ [hd]).

(** A [ListHead] structure exists at [p]. *)
Definition allocated (h : heap) (p : ptr) : Prop :=
  is_Some (hnext h !! p) /\ is_Some (hprev h !! p).

(** Nothing outside the pointers of [S] changed. *)
Definition frame (S : list ptr) (h h' : heap) : Prop :=
  (forall p, p ∉ S -> hnext h' !! p = hnext h !! p /\ hprev h' !! p = hprev h !! p) /\
  (forall p, allocated h p -> allocated h' p).

(** ** Programs over one list

    A client's sequence of operations on the list at [hd], run on the
    pointers and run on the sequence it stands for.  The sequence machine
    refuses an operation llist.h does not support: adding an entry that is
    already linked (or the head itself), removing one that is not. *)

Inductive list_op :=
| OpAdd (new : ptr)
| OpAddTail (new : ptr)
| OpRemove (x : ptr).

Definition run_op (hd : ptr) (o : list_op) (h : heap) : outcome heap :=
  match o with
  | OpAdd x => ListAdd x hd h
  | OpAddTail x => ListAddTail x hd h
  | OpRemove x => ListRemove x h
  end.

Fixpoint run_ops (hd : ptr) (os : list list_op) (h : heap) : outcome heap :=
  match os with
  | [] => Ret h
  | o :: os => let* h := run_op hd o h in run_ops hd os h
  end.

Fixpoint seq_remove (x : ptr) (xs : list ptr) : list ptr :=
  match xs with
  | [] => []
  | y :: ys => if y =? x then ys else y :: seq_remove x ys
  end.

Definition seq_op (hd : ptr) (o : list_op) (xs : list ptr) : option (list ptr) :=
  match o with
  | OpAdd x => if decide (x ∈ hd :: xs) then None else Some (x :: xs)
  | OpAddTail x => if decide (x ∈ hd :: xs) then None else Some (xs ++ [x])
  | OpRemove x => if decide (x ∈ xs) then Some (seq_remove x xs) else None
  end.

Fixpoint seq_ops (hd : ptr) (os : list list_op) (xs : list ptr) : option (list ptr) :=
  match os with
  | [] => Some xs
  | o :: os => match seq_op hd o xs with Some xs => seq_ops hd os xs | None => None end
  end.

Definition op_entry (o : list_op) : ptr :=
  match o with OpAdd x | OpAddTail x | OpRemove x => x end.

(** ** Interface

    What a client of the lists may rely on: a store [M] with a
    representation predicate and the operations, each of which succeeds on
    a well-formed ring, computes the sequence operation and leaves every
    disjoint ring alone. *)
Class ListOps (M : Type) := {
  lrep : M -> ptr -> list ptr -> Prop;
  lnode : M -> ptr -> Prop;
  lframe : list ptr -> M -> M -> Prop;
  l_init : ptr -> M -> outcome M;
  l_add : ptr -> ptr -> M -> outcome M;
  l_add_tail : ptr -> ptr -> M -> outcome M;
  l_remove : ptr -> M -> outcome M;
  l_first : ptr -> M -> outcome ptr;
}.

Class ListLaws (M : Type) `{ListOps M} := {
  lrep_nodup m hd xs : lrep m hd xs -> NoDup (hd :: xs);
  lrep_frame S m m' hd xs : lframe S m m' -> lrep m hd xs ->
    (forall p, p ∈ hd :: xs -> p ∉ S) -> lrep m' hd xs;
  lnode_frame S m m' p : lframe S m m' -> lnode m p -> lnode m' p;
  l_init_spec m hd : lnode m hd ->
    exists m', l_init hd m = Ret m' /\ lrep m' hd [] /\ lframe [hd] m m';
  l_add_spec m new hd xs : lrep m hd xs -> lnode m new -> new ∉ hd :: xs ->
    exists m', l_add new hd m = Ret m' /\ lrep m' hd (new :: xs)
      /\ lframe (new :: hd :: xs) m m';
  l_add_tail_spec m new hd xs : lrep m hd xs -> lnode m new -> new ∉ hd :: xs ->
    exists m', l_add_tail new hd m = Ret m' /\ lrep m' hd (xs ++ [new])
      /\ lframe (new :: hd :: xs) m m';
  l_remove_spec m x hd xs ys : lrep m hd (xs ++ x :: ys) ->
    exists m', l_remove x m = Ret m' /\ lrep m' hd (xs ++ ys)
      /\ lframe (hd :: xs ++ x :: ys) m m';
  l_first_spec m x hd xs : lrep m hd (x :: xs) -> l_first hd m = Ret x;
}.

#[export] Instance heap_ListOps : ListOps heap := {|
  lrep := clist;
  lnode := allocated;
  lframe := frame;
  l_init := INIT_LIST_HEAD;
  l_add := ListAdd;
  l_add_tail := ListAddTail;
  l_remove := ListRemove;
  l_first := get_next;
|}.

(** ** Lemmas on chains *)

Lemma chain_app h a l b l' :
  chain h a (l ++ b :: l') <-> chain h a (l ++ [b]) /\ chain h b l'.
Proof.
  revert a; induction l as [|c l IH]; intros a; simpl; [tauto|].
  rewrite IH. tauto.
Qed.

Lemma chain_agree h h' a l :
  (forall p, p ∈ a :: removelast l -> hnext h' !! p = hnext h !! p) ->
  (forall p, p ∈ l -> hprev h' !! p = hprev h !! p) ->
  chain h a l -> chain h' a l.
Proof.
  revert a; induction l as [|b l IH]; intros a Hn Hp; simpl; [done|].
  intros [[L1 L2] C]. split.
  - split; [rewrite Hn|rewrite Hp]; set_solver.
  - destruct l as [|c l]; [done|]. apply IH; [|set_solver|done].
    intros p Hin. apply Hn. simpl in *. set_solver.
Qed.

Lemma removelast_snoc {A} (l : list A) x : removelast (l ++ [x]) = l.
Proof. apply removelast_last. Qed.

(** A chain is untouched by stores to pointers it does not use. *)
Lemma chain_frame h h' a l b :
  (forall p, p ∈ a :: l -> hnext h' !! p = hnext h !! p) ->
  (forall p, p ∈ l ++ [b] -> hprev h' !! p = hprev h !! p) ->
  chain h a (l ++ [b]) -> chain h' a (l ++ [b]).
Proof. intros Hn Hp. apply chain_agree; [now rewrite removelast_snoc|done]. Qed.

Lemma last_cons (x a : ptr) l : List.last (x :: l) a = List.last l x.
Proof.
  destruct l as [|d l _] using rev_ind; [done|].
  by rewrite app_comm_cons, !List.last_last.
Qed.

Lemma chain_snoc h a l b : chain h a (l ++ [b]) <-> chain h a l /\ linked h (List.last l a) b.
Proof.
  revert a; induction l as [|c l IH]; intros a; [simpl; tauto|].
  change (chain h a (c :: l ++ [b]) <-> chain h a (c :: l) /\ linked h (List.last (c :: l) a) b).
  rewrite last_cons.
  simpl. rewrite IH. tauto.
Qed.

Lemma last_in (l : list ptr) a : List.last l a ∈ a :: l.
Proof.
  destruct l as [|x l _] using rev_ind; [simpl; set_solver|].
  rewrite List.last_last. set_solver.
Qed.

Lemma chain_prev_alloc h a l p : chain h a l -> p ∈ l -> is_Some (hprev h !! p).
Proof.
  revert a; induction l as [|b l IH]; intros a; simpl; [set_solver|].
  intros [[_ L] C] [->|Hin]%elem_of_cons; eauto.
Qed.

Lemma chain_next_alloc h a l b p : chain h a (l ++ [b]) -> p ∈ a :: l -> is_Some (hnext h !! p).
Proof.
  revert a; induction l as [|c l IH]; intros a; simpl.
  - intros [[L _] _] ->%list_elem_of_singleton. eauto.
  - intros [[L _] C] [->|Hin]%elem_of_cons; eauto.
Qed.

Lemma clist_allocated h hd xs p : clist h hd xs -> p ∈ hd :: xs -> allocated h p.
Proof.
  intros [_ C] Hp. split; [eapply chain_next_alloc; eauto|].
  eapply chain_prev_alloc; eauto. set_solver.
Qed.

(** ** Explicit results of the pointer operations *)

Definition added (new prev next : ptr) (h : heap) : heap :=
  {| hnext := <[prev := new]> (<[new := next]> (hnext h));
     hprev := <[new := prev]> (<[next := new]> (hprev h)) |}.

Definition removed (prev next : ptr) (h : heap) : heap :=
  {| hnext := <[prev := next]> (hnext h); hprev := <[next := prev]> (hprev h) |}.

Lemma is_Some_insert (m : gmap Z ptr) i v p : is_Some (m !! p) -> is_Some (<[i := v]> m !! p).
Proof. rewrite lookup_insert. case_decide; [by eexists|done]. Qed.

Lemma DoListAdd_eq h new prev next :
  allocated h new -> is_Some (hprev h !! next) -> is_Some (hnext h !! prev) ->
  DoListAdd new prev next h = Ret (added new prev next h).
Proof.
  intros [Hn1 Hn2] Hnx Hpv. unfold DoListAdd, set_prev at 2, set_next at 2.
  unfold set_prev, set_next. destruct Hnx as [? ->]; simpl.
  destruct Hn1 as [? ->]; simpl.
  destruct (is_Some_insert (hprev h) next new new Hn2) as [? ->]; simpl.
  destruct (is_Some_insert (hnext h) new next prev Hpv) as [? ->]; simpl. done.
Qed.

Lemma DoListRemove_eq h prev next :
  is_Some (hprev h !! next) -> is_Some (hnext h !! prev) ->
  DoListRemove prev next h = Ret (removed prev next h).
Proof.
  intros [? Hp] [? Hn]. unfold DoListRemove, set_prev, set_next.
  rewrite Hp; simpl. rewrite Hn. done.
Qed.

Lemma INIT_LIST_HEAD_eq h p : allocated h p ->
  INIT_LIST_HEAD p h =
    Ret {| hnext := <[p := p]> (hnext h); hprev := <[p := p]> (hprev h) |}.
Proof.
  intros [[? H1] [? H2]]. unfold INIT_LIST_HEAD, set_next, set_prev.
  rewrite H1; simpl. rewrite H2. done.
Qed.

Lemma frame_added S h new prev next :
  new ∈ S -> prev ∈ S -> next ∈ S -> frame S h (added new prev next h).
Proof.
  intros Hn Hp Hx. split; simpl.
  - intros p Hni. rewrite !lookup_insert_ne by set_solver. done.
  - intros p [H1 H2]. split; simpl; by repeat apply is_Some_insert.
Qed.

Lemma frame_removed S h prev next :
  prev ∈ S -> next ∈ S -> frame S h (removed prev next h).
Proof.
  intros Hp Hx. split; simpl.
  - intros p Hni. rewrite !lookup_insert_ne by set_solver. done.
  - intros p [H1 H2]. split; simpl; by apply is_Some_insert.
Qed.

(** ** Inserting and removing in the middle of a ring *)

(** The neighbours of a position of the ring: the last entry before it and
    the first one after it, the head standing in at both ends. *)
Lemma clist_split_linked h hd xs ys : clist h hd (xs ++ ys) ->
  linked h (List.last xs hd) (List.hd hd ys).
Proof.
  intros [_ C]. rewrite <- app_assoc in C.
  destruct ys as [|y ys]; simpl in *.
  - apply chain_snoc in C. tauto.
  - apply chain_app in C as [C _]. apply chain_snoc in C. tauto.
Qed.

Lemma added_clist h hd xs ys new :
  clist h hd (xs ++ ys) -> new ∉ hd :: xs ++ ys ->
  clist (added new (List.last xs hd) (List.hd hd ys) h) hd (xs ++ new :: ys).
Proof.
  intros [ND C] Hnew. split.
  { apply NoDup_cons in ND as [Hh ND]. apply NoDup_cons. split; [set_solver|].
    rewrite <- Permutation_middle. constructor; [set_solver|done]. }
  rewrite <- app_assoc in C. rewrite <- app_assoc. simpl.
  pose proof (last_in xs hd) as Hlast.
  apply chain_app. rewrite chain_snoc.
  assert (Hout : chain h hd xs /\ chain h (List.hd hd ys) (tail (ys ++ [hd]))).
  { destruct ys as [|y ys]; simpl in *.
    - apply chain_snoc in C. tauto.
    - apply chain_app in C as [C1 C2]. apply chain_snoc in C1. tauto. }
  destruct Hout as [C1 C2].
  assert (Hp : List.last xs hd <> new) by set_solver.
  assert (Hx : List.hd hd ys <> new) by (destruct ys; set_solver).
  repeat split; simpl; try (by rewrite lookup_insert_eq).
  - destruct xs as [|z xs _] using rev_ind; [done|]. rewrite List.last_last in *.
    apply NoDup_cons in ND as [Hh ND]. apply NoDup_app in ND as (NDx & ND & _).
    revert C1. apply chain_agree; intros p Hin; simpl.
    + rewrite removelast_snoc in Hin. apply NoDup_app in NDx as (_ & NDx & _).
      rewrite !lookup_insert_ne; [done|set_solver|].
      intros <-. apply elem_of_cons in Hin as [->|Hin]; set_solver.
    + rewrite !lookup_insert_ne; [done| |set_solver].
      intros <-. destruct ys; set_solver.
  - destruct ys as [|y ys]; simpl in *.
    + split; [|done]. split; simpl.
      * rewrite lookup_insert_ne by done. by rewrite lookup_insert_eq.
      * rewrite lookup_insert_ne by done. by rewrite lookup_insert_eq.
    + split; [split; simpl; (rewrite lookup_insert_ne by done); by rewrite lookup_insert_eq|].
      apply NoDup_cons in ND as [Hh ND]. apply NoDup_app in ND as (ND1 & ND & ND2).
      apply NoDup_cons in ND2 as [Hy ND2].
      revert C2. apply chain_frame; intros p Hin; simpl.
      * rewrite !lookup_insert_ne; [done|set_solver|].
        intros <-. apply elem_of_cons in Hlast as [E|Hl]; [rewrite E in *; set_solver|].
        apply (ND _ Hl Hin).
      * rewrite !lookup_insert_ne; [done| |set_solver].
        intros <-. set_solver.
Qed.

Lemma removed_clist h hd xs x ys :
  clist h hd (xs ++ x :: ys) ->
  clist (removed (List.last xs hd) (List.hd hd ys) h) hd (xs ++ ys).
Proof.
  intros [ND C]. split.
  { apply NoDup_cons in ND as [Hh ND]. apply NoDup_cons. split; [set_solver|].
    rewrite <- Permutation_middle in ND. by apply NoDup_cons in ND as [_ ND]. }
  rewrite <- app_assoc in C |- *. simpl in C.
  pose proof (last_in xs hd) as Hlast.
  apply chain_app in C as [C1 C2]. apply chain_snoc in C1 as [C1 _].
  apply NoDup_cons in ND as [Hh ND]. apply NoDup_app in ND as (NDx & ND & NDy).
  apply NoDup_cons in NDy as [Hx NDy].
  assert (C1' : chain (removed (List.last xs hd) (List.hd hd ys) h) hd xs).
  { destruct xs as [|z xs _] using rev_ind; [done|]. rewrite List.last_last in *.
    revert C1. apply chain_agree; intros p Hin; simpl.
    - rewrite removelast_snoc in Hin. apply NoDup_app in NDx as (_ & NDx & _).
      rewrite lookup_insert_ne; [done|].
      intros <-. apply elem_of_cons in Hin as [->|Hin]; set_solver.
    - rewrite lookup_insert_ne; [done|]. intros <-. destruct ys; set_solver. }
  destruct ys as [|y ys]; simpl in *.
  - apply chain_snoc. split; [done|]. split; simpl; by rewrite lookup_insert_eq.
  - apply chain_app. rewrite chain_snoc. split; [split; [done|]|].
    { split; simpl; by rewrite lookup_insert_eq. }
    destruct C2 as [_ C2]. apply NoDup_cons in NDy as [Hy NDy].
    revert C2. apply chain_frame; intros p Hin; simpl.
    + rewrite lookup_insert_ne; [done|]. intros E.
      rewrite E in Hlast. apply elem_of_cons in Hlast as [->|Hl]; set_solver.
    + rewrite lookup_insert_ne; [done|]. set_solver.
Qed.

(** ** Specifications of the operations *)

Lemma ListAdd_clist h hd xs new : clist h hd xs -> allocated h new -> new ∉ hd :: xs ->
  exists h', ListAdd new hd h = Ret h' /\ clist h' hd (new :: xs)
    /\ frame (new :: hd :: xs) h h'.
Proof.
  intros C Ha Hn. pose proof (clist_split_linked h hd [] xs C) as [L1 L2]; simpl in *.
  assert (List.hd hd xs ∈ hd :: xs) by (destruct xs; set_solver).
  unfold ListAdd, get_next. rewrite L1; simpl.
  rewrite DoListAdd_eq by (done || by eexists). eexists; split_and!; [done|..].
  - by apply (added_clist h hd [] xs new).
  - apply frame_added; set_solver.
Qed.

Lemma ListAddTail_clist h hd xs new : clist h hd xs -> allocated h new -> new ∉ hd :: xs ->
  exists h', ListAddTail new hd h = Ret h' /\ clist h' hd (xs ++ [new])
    /\ frame (new :: hd :: xs) h h'.
Proof.
  intros C Ha Hn.
  pose proof (clist_split_linked h hd xs []) as L. rewrite app_nil_r in L.
  destruct (L C) as [L1 L2]; simpl in *. pose proof (last_in xs hd).
  unfold ListAddTail, get_prev. rewrite L2; simpl.
  rewrite DoListAdd_eq by (done || by eexists). eexists; split_and!; [done|..].
  - apply (added_clist h hd xs [] new); by rewrite app_nil_r.
  - apply frame_added; set_solver.
Qed.

Lemma clist_entry h hd xs x ys : clist h hd (xs ++ x :: ys) ->
  hnext h !! x = Some (List.hd hd ys) /\ hprev h !! x = Some (List.last xs hd)
  /\ is_Some (hprev h !! List.hd hd ys) /\ is_Some (hnext h !! List.last xs hd).
Proof.
  intros C. pose proof (clist_split_linked h hd xs (x :: ys) C) as [L1 L2]; simpl in *.
  replace (xs ++ x :: ys) with ((xs ++ [x]) ++ ys) in C by by rewrite <- app_assoc.
  pose proof (clist_split_linked _ _ _ _ C) as [L3 L4]. rewrite List.last_last in *.
  split_and!; eauto.
Qed.

Lemma ListRemove_clist h x hd xs ys : clist h hd (xs ++ x :: ys) ->
  exists h', ListRemove x h = Ret h' /\ clist h' hd (xs ++ ys)
    /\ frame (hd :: xs ++ x :: ys) h h'.
Proof.
  intros C. destruct (clist_entry _ _ _ _ _ C) as (L1 & L2 & L3 & L4).
  unfold ListRemove, get_prev, get_next. rewrite L2; simpl. rewrite L1; simpl.
  rewrite DoListRemove_eq by done. eexists; split_and!; [done|by eapply removed_clist|].
  pose proof (last_in xs hd). apply frame_removed; destruct ys; set_solver.
Qed.

Lemma INIT_LIST_HEAD_clist h hd : allocated h hd ->
  exists h', INIT_LIST_HEAD hd h = Ret h' /\ clist h' hd [] /\ frame [hd] h h'.
Proof.
  intros Ha. rewrite INIT_LIST_HEAD_eq by done. eexists; split_and!; [done|..].
  - split; [apply NoDup_singleton|]. split; [|done].
    split; simpl; by rewrite lookup_insert_eq.
  - split; simpl.
    + intros p Hp. rewrite !lookup_insert_ne by set_solver. done.
    + intros p [? ?]; split; simpl; by apply is_Some_insert.
Qed.

Lemma clist_frame S h h' hd xs : frame S h h' -> clist h hd xs ->
  (forall p, p ∈ hd :: xs -> p ∉ S) -> clist h' hd xs.
Proof.
  intros [F _] [ND C] HS. split; [done|]. revert C. apply chain_frame; intros p Hp.
  - by apply F, HS.
  - apply F, HS. set_solver.
Qed.

#[export] Instance heap_ListLaws : ListLaws heap.
Proof.
  split; simpl.
  - by intros m hd xs [? _].
  - apply clist_frame.
  - intros S m m' p [_ F]. apply F.
  - apply INIT_LIST_HEAD_clist.
  - intros; by apply ListAdd_clist.
  - intros; by apply ListAddTail_clist.
  - apply ListRemove_clist.
  - intros m x hd xs C. pose proof (clist_split_linked m hd [] (x :: xs) C) as [L _].
    unfold get_next. simpl in L. by rewrite L.
Qed.

(** A removed and re-initialised entry is an empty ring of its own. *)
Lemma ListRemoveInit_clist h x hd xs ys : clist h hd (xs ++ x :: ys) ->
  exists h', ListRemoveInit x h = Ret h' /\ clist h' hd (xs ++ ys) /\ clist h' x [].
Proof.
  intros C. destruct (ListRemove_clist _ _ _ _ _ C) as (h1 & E & C1 & F1).
  assert (allocated h1 x).
  { apply F1. eapply clist_allocated; [exact C|]. set_solver. }
  destruct (INIT_LIST_HEAD_clist h1 x) as (h2 & E2 & C2 & F2); [done|].
  exists h2. unfold ListRemoveInit. rewrite E; simpl. split_and!; [done| |done].
  eapply clist_frame; [exact F2|done|].
  destruct C as [ND _]. apply NoDup_cons in ND as [Hh ND].
  rewrite <- Permutation_middle in ND. apply NoDup_cons in ND as [Hx ND].
  intros p Hp ->%list_elem_of_singleton. set_solver.
Qed.

Lemma ListEmpty_clist h hd xs : clist h hd xs ->
  ListEmpty hd h = Ret (match xs with [] => true | _ => false end).
Proof.
  intros C. pose proof (clist_split_linked h hd [] xs C) as [L _]; simpl in L.
  unfold ListEmpty, get_next. rewrite L; simpl. f_equal.
  destruct C as [ND _]. destruct xs as [|x xs]; simpl; zcases; try done.
  subst. apply NoDup_cons in ND as [Hh _]. set_solver.
Qed.

Lemma ListForEachEntry_chain fuel h hd a xs :
  hd ∉ xs -> chain h a (xs ++ [hd]) -> (length xs < fuel)%nat ->
  visit fuel (List.hd hd xs) hd h = Ret xs.
Proof.
  revert a xs; induction fuel as [|fuel IH]; intros a xs Hn C Hf; [lia|].
  destruct xs as [|x xs]; simpl.
  - by rewrite Z.eqb_refl.
  - zcases; [set_solver|]. simpl in C. destruct C as [_ C].
    assert (hnext h !! x = Some (List.hd hd xs)) as E.
    { destruct xs; simpl in C; [apply C|apply C]. }
    unfold get_next. rewrite E. simpl. rewrite (IH x xs); [done|set_solver|done|simpl in Hf; lia].
Qed.

(** ListForEach is of no use; nothing calls it. *)
Lemma ListForEach_nothing fuel head h : ListForEach (S fuel) head h = Ret [].
Proof. unfold ListForEach. cbn [visit]. by rewrite Z.eqb_refl. Qed.

Lemma ListForEachEntry_clist fuel h hd xs : clist h hd xs -> (length xs < fuel)%nat ->
  ListForEachEntry fuel hd h = Ret xs.
Proof.
  intros C Hf. pose proof (clist_split_linked h hd [] xs C) as [L _]; simpl in L.
  unfold ListForEachEntry, get_next. rewrite L; simpl. destruct C as [ND C].
  apply NoDup_cons in ND as [Hh ND]. by eapply ListForEachEntry_chain.
Qed.

(** The head of a non-empty list holds its two ends. *)
Lemma clist_ends h hd x xs : clist h hd (x :: xs) ->
  hnext h !! hd = Some x /\ hprev h !! hd = Some (List.last (x :: xs) hd).
Proof.
  intros C. pose proof (clist_split_linked h hd [] (x :: xs) C) as [L1 _].
  pose proof (clist_split_linked h hd (x :: xs) []) as L. rewrite app_nil_r in L.
  by destruct (L C) as [_ L2].
Qed.

Definition spliced (list head first last at_ : ptr) (h : heap) : heap :=
  {| hnext := <[last := head]> (<[at_ := first]> (hnext h));
     hprev := <[head := last]> (<[first := at_]> (hprev h)) |}.

Lemma DoListSpliceTail_eq h list head first last at_ :
  hnext h !! list = Some first -> hprev h !! list = Some last -> hprev h !! head = Some at_ ->
  is_Some (hprev h !! first) -> is_Some (hnext h !! at_) -> is_Some (hnext h !! last) ->
  DoListSpliceTail list head h = Ret (spliced list head first last at_ h).
Proof.
  intros H1 H2 H3 H4 H5 H6. unfold DoListSpliceTail, get_next, get_prev.
  rewrite H1; simpl. rewrite H2; simpl. rewrite H3; simpl.
  unfold set_prev, set_next. destruct H4 as [? ->]; simpl. destruct H5 as [? ->]; simpl.
  destruct (is_Some_insert (hnext h) at_ first last H6) as [? ->]; simpl.
  destruct (is_Some_insert (hprev h) first at_ head) as [? ->]; simpl; [by eexists|done].
Qed.

(** Splicing moves the entries of one ring to the end of another. *)
Lemma spliced_clist h l hd x xs ys :
  clist h l (x :: xs) -> clist h hd ys ->
  (forall p, p ∈ l :: x :: xs -> p ∉ hd :: ys) ->
  clist (spliced l hd x (List.last (x :: xs) l) (List.last ys hd) h) hd (ys ++ x :: xs).
Proof.
  intros [ND1 C1] [ND2 C2] Hd.
  apply NoDup_cons in ND1 as [Hl ND1]. apply NoDup_cons in ND2 as [Hh ND2].
  rewrite last_cons. rewrite chain_snoc in C2. destruct C2 as [C2 _].
  simpl in C1. destruct C1 as [_ C1]. rewrite chain_snoc in C1. destruct C1 as [C1 _].
  pose proof (last_in ys hd) as Ly. pose proof (last_in xs x) as Lx.
  assert (Hne : List.last xs x <> List.last ys hd)
    by (intros E; rewrite E in Lx; eapply Hd; [|exact Ly]; set_solver).
  split.
  { apply NoDup_cons; split; [set_solver|]. apply NoDup_app; split_and!; set_solver. }
  rewrite <- app_assoc. simpl. apply chain_app. rewrite chain_snoc. rewrite chain_snoc.
  split_and!.
  - destruct ys as [|z ys _] using rev_ind; [done|]. rewrite List.last_last in *.
    apply NoDup_app in ND2 as (_ & ND2 & _).
    revert C2. apply chain_agree; intros p Hp; simpl.
    + rewrite removelast_snoc in Hp. rewrite !lookup_insert_ne; [done|set_solver|].
      intros <-. apply (Hd (List.last xs x)); set_solver.
    + rewrite !lookup_insert_ne; [done| |set_solver]. intros <-. apply (Hd x); set_solver.
  - split; simpl.
    + rewrite lookup_insert_ne by done. by rewrite lookup_insert_eq.
    + rewrite lookup_insert_ne by set_solver. by rewrite lookup_insert_eq.
  - destruct xs as [|z xs _] using rev_ind; [done|]. rewrite List.last_last in *.
    apply NoDup_cons in ND1 as [Hx ND1]. apply NoDup_app in ND1 as (_ & ND1 & _).
    revert C1. apply chain_agree; intros p Hp; simpl.
    + rewrite removelast_snoc in Hp. rewrite !lookup_insert_ne; [done| |set_solver].
      intros <-. apply (Hd (List.last ys hd)); set_solver.
    + rewrite !lookup_insert_ne; [done|by intros <-|].
      intros <-. apply (Hd hd); [by right; right|left].
  - split; simpl; by rewrite lookup_insert_eq.
Qed.

Lemma ListSpliceTailInit_clist h l hd xs ys :
  clist h l xs -> clist h hd ys -> (forall p, p ∈ l :: xs -> p ∉ hd :: ys) ->
  exists h', ListSpliceTailInit l hd h = Ret h'
    /\ clist h' hd (ys ++ xs) /\ clist h' l [].
Proof.
  intros C1 C2 Hd. unfold ListSpliceTailInit. rewrite (ListEmpty_clist _ _ _ C1); simpl.
  destruct xs as [|x xs]; [exists h; by rewrite app_nil_r|].
  destruct (clist_ends _ _ _ _ C1) as [E1 E2].
  pose proof (clist_split_linked h hd ys []) as L. rewrite app_nil_r in L.
  destruct (L C2) as [L1 L2]; simpl in L1, L2.
  pose proof (last_in (x :: xs) l) as Lx.
  rewrite (DoListSpliceTail_eq h l hd x (List.last (x :: xs) l) (List.last ys hd));
    [simpl|done|done|done| |by eexists|].
  2: { eapply clist_allocated; [exact C1|set_solver]. }
  2: { eapply clist_allocated; [exact C1|set_solver]. }
  assert (Hl : allocated h l) by (eapply clist_allocated; [exact C1|set_solver]).
  assert (allocated (spliced l hd x (List.last (x :: xs) l) (List.last ys hd) h) l).
  { destruct Hl. split; cbn; by repeat apply is_Some_insert. }
  destruct (INIT_LIST_HEAD_clist _ _ H) as (h' & E & C' & F). exists h'.
  split_and!; [done| |done]. eapply clist_frame; [exact F|by apply spliced_clist|].
  intros p Hp ->%list_elem_of_singleton. destruct C1 as [ND _].
  apply NoDup_cons in ND as [Hn _]. apply (Hd l); set_solver.
Qed.

(** ** Simulation of client programs *)

Lemma seq_remove_split x xs ys : x ∉ xs -> seq_remove x (xs ++ x :: ys) = xs ++ ys.
Proof.
  induction xs as [|y xs IH]; simpl; intros Hn; [by rewrite Z.eqb_refl|].
  zcases; [set_solver|]. rewrite IH; set_solver.
Qed.

Lemma run_op_simulates hd o h xs xs' :
  clist h hd xs -> allocated h (op_entry o) -> seq_op hd o xs = Some xs' ->
  exists h', run_op hd o h = Ret h' /\ clist h' hd xs'
    /\ (forall p, allocated h p -> allocated h' p).
Proof.
  intros C Ha. destruct o as [x|x|x]; simpl in *; case_decide as Hx; intros; simplify_eq.
  - destruct (ListAdd_clist h hd xs x) as (h' & E & C' & [_ F]); eauto.
  - destruct (ListAddTail_clist h hd xs x) as (h' & E & C' & [_ F]); eauto.
  - apply list_elem_of_split in Hx as (l1 & l2 & ->).
    destruct (ListRemove_clist h x hd l1 l2) as (h' & E & C' & [_ F]); [done|].
    rewrite seq_remove_split; eauto.
    destruct C as [ND _]. apply NoDup_cons in ND as [_ ND].
    apply NoDup_app in ND as (_ & ND & _). intros Hin. apply (ND x Hin). left.
Qed.

Lemma run_ops_simulates hd os h xs xs' :
  clist h hd xs -> Forall (fun o => allocated h (op_entry o)) os ->
  seq_ops hd os xs = Some xs' ->
  exists h', run_ops hd os h = Ret h' /\ clist h' hd xs'.
Proof.
  revert h xs; induction os as [|o os IH]; intros h xs C Ha; simpl.
  - intros [= <-]. eauto.
  - apply Forall_cons in Ha as [Ho Ha]. destruct (seq_op hd o xs) eqn:E; [|done].
    destruct (run_op_simulates hd o h xs l C Ho E) as (h1 & E1 & C1 & F). intros Hs.
    rewrite E1; simpl. eapply IH; [exact C1| |done].
    eapply Forall_impl; [exact Ha|]. eauto.
Qed.

(** C22: any program of ListAdd, ListAddTail and ListRemove calls that is
    legal for sequences runs without a fault on the pointers, starting
    from a well-formed list, and a ListForEachEntry loop over the final
    heap visits exactly the entries of the final sequence, in order. *)
Theorem llist_refines_sequences hd os h xs xs' :
  clist h hd xs -> Forall (fun o => allocated h (op_entry o)) os ->
  seq_ops hd os xs = Some xs' ->
  exists h', run_ops hd os h = Ret h' /\ clist h' hd xs'
    /\ ListForEachEntry (S (length xs')) hd h' = Ret xs'.
Proof.
  intros C Ha Hs. destruct (run_ops_simulates hd os h xs xs' C Ha Hs) as (h' & E & C').
  exists h'. split_and!; [done|done|]. apply ListForEachEntry_clist; [done|lia].
Qed.

(** Four structures; the head at 100 is an empty ring. *)
Definition demo_heap : heap :=
  {| hnext := {[100 := 100; 1 := 0; 2 := 0; 3 := 0]};
     hprev := {[100 := 100; 1 := 0; 2 := 0; 3 := 0]} |}.

Lemma llist_refines_sequences_witness :
  exists h', run_ops 100 [OpAdd 1; OpAddTail 2; OpAdd 3; OpRemove 1] demo_heap = Ret h'
    /\ clist h' 100 [3; 2] /\ ListForEachEntry 3 100 h' = Ret [3; 2].
Proof.
  apply (llist_refines_sequences 100 _ demo_heap [] [3; 2]).
  - split; [apply NoDup_singleton|]. repeat split; reflexivity.
  - repeat constructor; by eexists.
  - vm_compute. reflexivity.
Defined.

(** ListSpliceTailInit appends the entries of one list to another and
    leaves the first one empty, whatever the two lists hold, provided they
    share no entry. *)
Theorem splice_appends_and_empties h l hd xs ys :
  clist h l xs -> clist h hd ys -> (forall p, p ∈ l :: xs -> p ∉ hd :: ys) ->
  exists h', ListSpliceTailInit l hd h = Ret h'
    /\ clist h' hd (ys ++ xs) /\ clist h' l [].
Proof. apply ListSpliceTailInit_clist. Qed.

(** Two rings: 10 holds entry 1, 20 holds entry 2. *)
Definition demo_heap2 : heap :=
  {| hnext := {[10 := 1; 1 := 10; 20 := 2; 2 := 20]};
     hprev := {[10 := 1; 1 := 10; 20 := 2; 2 := 20]} |}.

Lemma splice_appends_and_empties_witness :
  exists h', ListSpliceTailInit 10 20 demo_heap2 = Ret h'
    /\ clist h' 20 ([2] ++ [1]) /\ clist h' 10 [].
Proof.
  apply (splice_appends_and_empties demo_heap2 10 20 [1] [2]).
  - split; [by apply (bool_decide_unpack _)|]. repeat split; reflexivity.
  - split; [by apply (bool_decide_unpack _)|]. repeat split; reflexivity.
  - intros p Hp Hq. set_solver.
Defined.
