(* ===== verification/Bitmap.v ===== *)
(** * Bitmaps (lib/bitmap.c, include/bitmap.h)

    The bit arrays of the page and slab allocators and of the ext3 block
    and inode maps.  An array is the list of its bytes.  [bit] is the
    abstraction: the array as a function from bit indices to booleans;
    BmapSetBit is function update, BmapGetBit is application (up to the C
    convention that any non-zero value is true) and BitFindFirstZero is the
    least index whose bit is clear. *)

From S2P Require Import Prelude.

(** ** Model *)

Definition bMasks : list (list Z) :=
  [[0xFE; 0xFD; 0xFB; 0xF7; 0xEF; 0xDF; 0xBF; 0x7F];
   [0x01; 0x02; 0x04; 0x08; 0x10; 0x20; 0x40; 0x80]].

(** [index] is a DWORD, [value] an int that selects a row of the table. *)
Definition BmapSetBit (array : list Z) (index value : Z) : outcome (list Z) :=
  let offset := index / 8 in
  let* row := of_option (zlookup bMasks value) in
  let* mask := of_option (zlookup row (Z.land index 7)) in
  let* b := of_option (zlookup array offset) in
  if c_true value
  then of_option (zupdate array offset (u8 (Z.lor b mask)))
  else of_option (zupdate array offset (u8 (Z.land b mask))).

Definition BmapGetBit (array : list Z) (index : Z) : outcome Z :=
  let* b := of_option (zlookup array (index / 8)) in
  Ret (Z.land b (Z.shiftl 1 (Z.land index 7))).

(** [bsfl]: the index of the lowest set bit of a non-zero double word. *)
Fixpoint bsf (fuel : nat) (i : Z) (w : Z) : Z :=
  match fuel with
  | O => i
  | S fuel => if Z.testbit w i then i else bsf fuel (i + 1) w
  end.

(** [repe scasl]: compare EAX = -1 with successive double words while they
    are equal and ECX is not exhausted; the result is the number of words
    passed and whether the last comparison was equal (ZF). *)
Fixpoint scasl (ecx : nat) (edi : Z) (words : list Z) : outcome (Z * bool) :=
  match ecx with
  | O => Ret (edi, true)
  | S ecx =>
      match words with
      | [] => Fault
      | w :: words =>
          if w =? 2 ^ 32 - 1 then scasl ecx (edi + 1) words else Ret (edi + 1, false)
      end
  end.

(** The array is given as its double words; [size] is in bits. *)
Definition BitFindFirstZero (words : list Z) (size : Z) : outcome Z :=
  if size =? 0 then Ret 0
  else
    let* (edi, zf) := scasl (Z.to_nat (Z.shiftr (size + 31) 5)) 0 words in
    if zf then Ret (Z.shiftl (4 * edi) 3)
    else
      let* w := of_option (zlookup words (edi - 1)) in
      Ret (bsf 32 0 (Z.lxor w (2 ^ 32 - 1)) + Z.shiftl (4 * (edi - 1)) 3).

(** ** Abstraction *)

Definition bit (array : list Z) (i : Z) : bool :=
  match zlookup array (i / 8) with
  | Some b => Z.testbit b (i mod 8)
  | None => false
  end.

Definition in_bitmap (array : list Z) (i : Z) : Prop :=
  0 <= i < 8 * Z.of_nat (length array).

Definition wf_bytes (array : list Z) : Prop := Forall is_byte array.

(** The bit of an array of double words. *)
Definition wbit (words : list Z) (i : Z) : bool :=
  match zlookup words (i / 32) with
  | Some w => Z.testbit w (i mod 32)
  | None => true
  end.

(** ** Lemmas *)

Lemma land_7 i : Z.land i 7 = i mod 8.
Proof. change 7 with (Z.ones 3). by rewrite Z.land_ones by lia. Qed.

Lemma index_div_range array i : in_bitmap array i -> 0 <= i / 8 < Z.of_nat (length array).
Proof.
  unfold in_bitmap. intros H. split; [apply Z.div_pos; lia|].
  apply Z.div_lt_upper_bound; lia.
Qed.

Lemma bit_index_eq i j : i / 8 = j / 8 -> i mod 8 = j mod 8 -> i = j.
Proof. intros. rewrite (Z.div_mod i 8), (Z.div_mod j 8) by lia. lia. Qed.

Lemma byte_testbit_high b k : is_byte b -> 8 <= k -> Z.testbit b k = false.
Proof.
  intros Hb Hk. destruct (Z.eq_dec b 0) as [->|]; [apply Z.testbit_0_l|].
  apply Z.bits_above_log2; unfold is_byte in Hb; [lia|].
  assert (Z.log2 b < 8); [|lia]. apply Z.log2_lt_pow2; lia.
Qed.

(** The eight entries of each row of the mask table. *)
Lemma bMasks_set k : 0 <= k < 8 ->
  exists row, zlookup bMasks 1 = Some row /\ zlookup row k = Some (Z.shiftl 1 k).
Proof.
  intros H. eexists; split; [reflexivity|].
  assert (k = 0 \/ k = 1 \/ k = 2 \/ k = 3 \/ k = 4 \/ k = 5 \/ k = 6 \/ k = 7) by lia.
  naive_solver.
Qed.

Lemma bMasks_clear k : 0 <= k < 8 ->
  exists row, zlookup bMasks 0 = Some row /\ zlookup row k = Some (255 - Z.shiftl 1 k).
Proof.
  intros H. eexists; split; [reflexivity|].
  assert (k = 0 \/ k = 1 \/ k = 2 \/ k = 3 \/ k = 4 \/ k = 5 \/ k = 6 \/ k = 7) by lia.
  naive_solver.
Qed.

Lemma shiftl_1_testbit k j : 0 <= k -> 0 <= j -> Z.testbit (Z.shiftl 1 k) j = (j =? k).
Proof.
  intros. rewrite Z.shiftl_1_l. rewrite Z.pow2_bits_eqb by done.
  apply Z.eqb_sym.
Qed.

Lemma u8_testbit z j : 0 <= j < 8 -> Z.testbit (u8 z) j = Z.testbit z j.
Proof. intros. unfold u8. rewrite Z.mod_pow2_bits_low by lia; done. Qed.

Lemma clear_mask_testbit k j : 0 <= k < 8 -> 0 <= j < 8 ->
  Z.testbit (255 - Z.shiftl 1 k) j = negb (j =? k).
Proof.
  intros.
  assert (k = 0 \/ k = 1 \/ k = 2 \/ k = 3 \/ k = 4 \/ k = 5 \/ k = 6 \/ k = 7) as Hk by lia.
  assert (j = 0 \/ j = 1 \/ j = 2 \/ j = 3 \/ j = 4 \/ j = 5 \/ j = 6 \/ j = 7) as Hj by lia.
  naive_solver.
Qed.

Definition bool_value (v : bool) : Z := if v then 1 else 0.

(** BmapSetBit succeeds inside the array and is function update there. *)
Lemma BmapSetBit_spec array i v : wf_bytes array -> in_bitmap array i ->
  exists array', BmapSetBit array i (bool_value v) = Ret array'
    /\ length array' = length array /\ wf_bytes array'
    /\ forall j, 0 <= j -> bit array' j = if j =? i then v else bit array j.
Proof.
  intros Hw Hi. pose proof (index_div_range _ _ Hi) as Hd.
  destruct (zlookup_lt array (i / 8) Hd) as [b Hb].
  pose proof (Z.mod_pos_bound i 8 ltac:(lia)) as Hm.
  set (nb := if v then u8 (Z.lor b (Z.shiftl 1 (i mod 8)))
             else u8 (Z.land b (255 - Z.shiftl 1 (i mod 8)))).
  exists (<[Z.to_nat (i / 8) := nb]> array).
  assert (Hu : zupdate array (i / 8) nb = Some (<[Z.to_nat (i / 8) := nb]> array))
    by by apply zupdate_lt.
  assert (Hnb : is_byte nb) by (unfold nb, is_byte; destruct v; apply u8_range).
  split_and!.
  - unfold BmapSetBit. rewrite land_7. destruct v; simpl bool_value.
    + destruct (bMasks_set (i mod 8)) as (row & -> & Hr); [lia|]. cbn [of_option bindO].
      rewrite Hr. cbn [of_option bindO]. rewrite Hb. cbn [of_option bindO c_true].
      simpl. unfold nb in Hu. by rewrite Hu.
    + destruct (bMasks_clear (i mod 8)) as (row & -> & Hr); [lia|]. cbn [of_option bindO].
      rewrite Hr. cbn [of_option bindO]. rewrite Hb. cbn [of_option bindO c_true].
      simpl. unfold nb in Hu. by rewrite Hu.
  - apply length_insert.
  - by apply Forall_insert.
  - intros j Hj. unfold bit.
    rewrite (zlookup_zupdate _ _ _ _ _ Hu) by (apply Z.div_pos; lia).
    destruct (Z.eqb_spec (j / 8) (i / 8)) as [E|E].
    + pose proof (Z.mod_pos_bound j 8 ltac:(lia)) as Hmj. rewrite E, Hb. unfold nb.
      assert (j = i <-> j mod 8 = i mod 8) as Hiff
        by (split; [by intros ->|]; intros; by apply bit_index_eq).
      destruct v; rewrite u8_testbit by lia.
      * rewrite Z.lor_spec, shiftl_1_testbit by lia.
        zcases; zcases; try tauto; by rewrite ?orb_true_r, ?orb_false_r.
      * rewrite Z.land_spec, clear_mask_testbit by lia.
        zcases; zcases; try tauto; by rewrite ?andb_true_r, ?andb_false_r.
    + zcases; [by subst|done].
Qed.

Lemma BmapGetBit_spec array i : in_bitmap array i ->
  exists r, BmapGetBit array i = Ret r /\ c_true r = bit array i.
Proof.
  intros Hi. pose proof (index_div_range _ _ Hi) as Hd.
  destruct (zlookup_lt array (i / 8) Hd) as [b Hb].
  pose proof (Z.mod_pos_bound i 8 ltac:(lia)) as Hm.
  unfold BmapGetBit, bit. rewrite Hb, land_7. simpl. eexists; split; [done|].
  destruct (Z.testbit b (i mod 8)) eqn:E.
  - apply c_true_spec. intros H0. apply (f_equal (fun z => Z.testbit z (i mod 8))) in H0.
    rewrite Z.land_spec, E, shiftl_1_testbit, Z.eqb_refl, Z.testbit_0_l in H0 by lia. done.
  - apply c_true_false. apply Z.bits_inj'. intros k Hk.
    rewrite Z.land_spec, shiftl_1_testbit, Z.testbit_0_l by lia.
    zcases; [subst; by rewrite E|by rewrite andb_false_r].
Qed.

#[export] Hint Resolve BmapGetBit_spec : whitix.

Lemma bsf_spec fuel i w k :
  0 <= i -> i <= k < i + Z.of_nat fuel -> Z.testbit w k = true ->
  (i <= bsf fuel i w <= k) /\ Z.testbit w (bsf fuel i w) = true
  /\ forall j, i <= j < bsf fuel i w -> Z.testbit w j = false.
Proof.
  revert i; induction fuel as [|fuel IH]; intros i Hi Hk Hb; [lia|]. simpl.
  destruct (Z.testbit w i) eqn:E.
  - split_and!; [lia|lia|done|lia].
  - assert (i <> k) by congruence.
    destruct (IH (i + 1)) as (H1 & H2 & H3); [lia|lia|done|].
    split_and!; [lia|lia|done|]. intros j Hj.
    destruct (Z.eq_dec j i) as [->|]; [done|]. apply H3. lia.
Qed.

Lemma scasl_spec n edi words : (n <= length words)%nat ->
  exists k zf, scasl n edi words = Ret (edi + Z.of_nat k, zf) /\ (k <= n)%nat
    /\ (forall j w, (j < k - (if zf then 0 else 1))%nat -> words !! j = Some w -> w = 2 ^ 32 - 1)
    /\ (zf = true -> k = n)
    /\ (zf = false -> exists w, (0 < k)%nat /\ words !! (k - 1)%nat = Some w /\ w <> 2 ^ 32 - 1).
Proof.
  revert edi words; induction n as [|n IH]; intros edi words Hn.
  - exists 0%nat, true. simpl. rewrite Z.add_0_r. split_and!; done || lia.
  - destruct words as [|w words]; simpl in Hn; [lia|]. simpl. zcases.
    + destruct (IH (edi + 1) words ltac:(lia)) as (k & zf & E & Hk & H1 & H2 & H3).
      exists (S k), zf. split_and!; [rewrite E; do 2 f_equal; lia|lia| | |].
      * intros [|j] w' Hj Hw; simpl in Hw; [congruence|].
        apply (H1 j); [|done]. destruct zf; lia.
      * intros Hz. rewrite (H2 Hz). done.
      * intros Hz. destruct (H3 Hz) as (w' & Hk' & Hw & Hne). exists w'.
        split_and!; [lia| |done]. by replace (S k - 1)%nat with (S (k - 1)) by lia.
    + exists 1%nat, false. split_and!; [done|lia|lia|done|].
      intros _. exists w. split_and!; [lia|done|done].
Qed.

Lemma xor_ones_testbit w k : 0 <= k < 32 ->
  Z.testbit (Z.lxor w (2 ^ 32 - 1)) k = negb (Z.testbit w k).
Proof.
  intros. rewrite Z.lxor_spec. change (2 ^ 32 - 1) with (Z.ones 32).
  rewrite Z.ones_spec_low by lia. by rewrite xorb_true_r.
Qed.

Lemma not_all_ones w : 0 <= w < 2 ^ 32 -> w <> 2 ^ 32 - 1 ->
  exists k, 0 <= k < 32 /\ Z.testbit w k = false.
Proof.
  intros Hw Hne. destruct (decide (Exists (fun k => Z.testbit w (Z.of_nat k) = false) (seq 0 32)))
    as [He|Hn].
  - apply Exists_exists in He as (k & Hk & E). apply elem_of_seq in Hk.
    exists (Z.of_nat k). split; [lia|done].
  - exfalso. apply Hne. change (2 ^ 32 - 1) with (Z.ones 32). apply Z.bits_inj'. intros k Hk.
    destruct (Z.lt_ge_cases k 32).
    + rewrite Z.ones_spec_low by lia. apply not_Exists_Forall in Hn; [|apply _].
      rewrite Forall_forall in Hn. specialize (Hn (Z.to_nat k)).
      destruct (Z.testbit w k) eqn:E; [done|]. exfalso. apply Hn.
      * apply elem_of_seq. lia.
      * by rewrite Z2Nat.id by lia.
    + rewrite Z.ones_spec_high by lia.
      rewrite <- (Z.mod_small w (2 ^ 32)) by done. by apply Z.mod_pow2_bits_high.
Qed.

(** ** Properties *)

(** BmapSetBit with value 0 or 1 never leaves the array for an index
    inside it, keeps its length and keeps it an array of bytes, and
    afterwards BmapGetBit of any index of the array is non-zero exactly
    when that index was set by the call or was set before and not cleared
    by it. *)
Theorem bitmap_set_get array i j v :
  wf_bytes array -> in_bitmap array i -> in_bitmap array j ->
  exists array' r, BmapSetBit array i (bool_value v) = Ret array'
    /\ length array' = length array /\ wf_bytes array'
    /\ BmapGetBit array' j = Ret r
    /\ c_true r = if j =? i then v else bit array j.
Proof.
  intros Hw Hi Hj. destruct (BmapSetBit_spec array i v Hw Hi) as (a' & E & Hl & Hw' & Hb).
  assert (Hj' : in_bitmap a' j) by by (unfold in_bitmap in *; rewrite Hl).
  destruct (BmapGetBit_spec a' j Hj') as (r & Er & Hr).
  exists a', r. rewrite <- Hb by apply Hj. done.
Qed.

Lemma bitmap_set_get_witness :
  exists array' r, BmapSetBit [1; 0x80; 3] 10 1 = Ret array'
    /\ length array' = length [1; 0x80; 3] /\ wf_bytes array'
    /\ BmapGetBit array' 15 = Ret r /\ c_true r = true.
Proof.
  apply (bitmap_set_get [1; 0x80; 3] 10 15 true).
  - repeat constructor; by vm_compute.
  - by vm_compute.
  - by vm_compute.
Defined.

Lemma wbit_lookup words k w i : words !! k = Some w -> 0 <= i < 32 ->
  wbit words (32 * Z.of_nat k + i) = Z.testbit w i.
Proof.
  intros Hw Hi. unfold wbit.
  assert ((32 * Z.of_nat k + i) / 32 = Z.of_nat k) as ->
    by (rewrite Z.add_comm, Z.mul_comm, Z.div_add by lia; rewrite Z.div_small; lia).
  assert ((32 * Z.of_nat k + i) mod 32 = i) as ->
    by (rewrite Z.add_comm, Z.mul_comm, Z_mod_plus_full; apply Z.mod_small; lia).
  unfold zlookup. destruct (Z.leb_spec 0 (Z.of_nat k)); [|lia]. by rewrite Nat2Z.id, Hw.
Qed.

Lemma wbit_all_ones words n i :
  (forall j w, (j < n)%nat -> words !! j = Some w -> w = 2 ^ 32 - 1) ->
  0 <= i < 32 * Z.of_nat n -> wbit words i = true.
Proof.
  intros H Hi. unfold wbit. destruct (zlookup words (i / 32)) as [w|] eqn:E; [|done].
  apply zlookup_Some in E as [Hr E].
  assert (i / 32 < Z.of_nat n) by (apply Z.div_lt_upper_bound; lia).
  rewrite (H (Z.to_nat (i / 32)) w ltac:(lia) E). change (2 ^ 32 - 1) with (Z.ones 32).
  apply Z.ones_spec_low. apply Z.mod_pos_bound. lia.
Qed.

(** For a positive [size] whose double words are mapped,
    BitFindFirstZero returns the least index whose bit is clear among the
    bits of the (size+31)/32 double words it scans; when there is none it
    returns the number of bits it scanned. *)
Theorem find_first_zero_least words size :
  Forall (fun w => 0 <= w < 2 ^ 32) words -> 0 < size ->
  let n := (size + 31) / 32 in n <= Z.of_nat (length words) ->
  exists r, BitFindFirstZero words size = Ret r /\ 0 <= r <= 32 * n
    /\ (forall j, 0 <= j < r -> wbit words j = true)
    /\ (r < 32 * n -> wbit words r = false).
Proof.
  intros Hw Hs n Hn. assert (0 < n) by (apply Z.div_str_pos; lia).
  unfold BitFindFirstZero. zcases; [lia|].
  rewrite Z.shiftr_div_pow2 by lia. change (2 ^ 5) with 32. fold n.
  destruct (scasl_spec (Z.to_nat n) 0 words) as (k & zf & -> & Hk & H1 & H2 & H3); [lia|].
  cbn [bindO]. rewrite !Z.shiftl_mul_pow2 by lia. change (2 ^ 3) with 8. destruct zf.
  - rewrite (H2 eq_refl), Z2Nat.id, Z.add_0_l by lia. eexists; split; [done|].
    split_and!; [lia|lia| |lia]. intros j Hj. apply (wbit_all_ones words k).
    + intros. eapply H1; [|done]. lia.
    + rewrite (H2 eq_refl). lia.
  - destruct (H3 eq_refl) as (w & Hk0 & Hlk & Hne).
    assert (Hz : zlookup words (0 + Z.of_nat k - 1) = Some w).
    { unfold zlookup. zcases; [|lia].
      by replace (Z.to_nat (0 + Z.of_nat k - 1)) with (k - 1)%nat by lia. }
    rewrite Hz. cbn [of_option bindO]. eexists; split; [done|].
    rewrite Forall_lookup in Hw. destruct (not_all_ones w) as (b & Hb & Eb); [by eapply Hw|done|].
    destruct (bsf_spec 32 0 (Z.lxor w (2 ^ 32 - 1)) b) as (B1 & B2 & B3); [lia|lia| |].
    { by rewrite xor_ones_testbit, Eb by lia. }
    set (r := bsf 32 0 (Z.lxor w (2 ^ 32 - 1))) in *.
    replace (r + 4 * (0 + Z.of_nat k - 1) * 8) with (32 * Z.of_nat (k - 1) + r) by lia.
    split_and!; [lia|lia| |].
    + intros j Hj. destruct (Z.lt_ge_cases j (32 * Z.of_nat (k - 1))).
      * apply (wbit_all_ones words (k - 1)); [|lia]. intros. eapply H1; [|done]. lia.
      * replace j with (32 * Z.of_nat (k - 1) + (j - 32 * Z.of_nat (k - 1))) by lia.
        rewrite (wbit_lookup _ _ w) by (done || lia).
        specialize (B3 (j - 32 * Z.of_nat (k - 1)) ltac:(lia)).
        rewrite xor_ones_testbit in B3 by lia. by apply negb_false_iff in B3.
    + intros _. rewrite (wbit_lookup _ _ w) by (done || lia).
      rewrite xor_ones_testbit in B2 by lia. by apply negb_true_iff in B2.
Qed.

Lemma find_first_zero_least_witness :
  exists r, BitFindFirstZero [2 ^ 32 - 1; 7; 0] 70 = Ret r /\ 0 <= r <= 32 * 3
    /\ (forall j, 0 <= j < r -> wbit [2 ^ 32 - 1; 7; 0] j = true)
    /\ (r < 32 * 3 -> wbit [2 ^ 32 - 1; 7; 0] r = false).
Proof.
  apply (find_first_zero_least [2 ^ 32 - 1; 7; 0] 70).
  - repeat constructor; lia.
  - lia.
  - by vm_compute.
Defined.
