(* ===== verification/CString.v ===== *)
(** * String and memory routines (lib/string.c, include/string.h)

    Memory is a finite map from addresses to bytes; an access outside it is
    a [Fault].  [char] is signed on i386, so a byte is sign-extended with
    [s8] where the code compares or subtracts characters.  Every loop takes
    an iteration budget; the theorems give a budget that is enough.
    [cstr m p s] says that the NUL-terminated string [s] starts at [p]. *)

From S2P Require Import Prelude.

(** ** Model *)

Notation mem := (gmap Z Z) (only parsing).

Definition load (m : mem) (p : Z) : outcome Z := of_option (m !! p).
Definition store (m : mem) (p v : Z) : outcome mem :=
  match m !! p with Some _ => Ret (<[p := u8 v]> m) | None => Fault end.

(** A 32-bit load and store, low byte first. *)
Definition load32 (m : mem) (p : Z) : outcome Z :=
  let* b0 := load m p in
  let* b1 := load m (p + 1) in
  let* b2 := load m (p + 2) in
  let* b3 := load m (p + 3) in
  Ret (b0 + 256 * b1 + 65536 * b2 + 16777216 * b3).
Definition store32 (m : mem) (p v : Z) : outcome mem :=
  let* m := store m p v in
  let* m := store m (p + 1) (v / 256) in
  let* m := store m (p + 2) (v / 65536) in
  store m (p + 3) (v / 16777216).

(** First loop of strncpy: [while ( *src && len--)]; [len] is an int. *)
Fixpoint strncpy_copy (fuel : nat) (dest src len : Z) (m : mem) : outcome (Z * Z * mem) :=
  match fuel with
  | O => NoFuel
  | S fuel =>
      let* c := load m src in
      if negb (c_true c) then Ret (dest, len, m)
      else if negb (c_true len) then Ret (dest, s32 (len - 1), m)
      else let* m := store m dest c in
           strncpy_copy fuel (dest + 1) (src + 1) (s32 (len - 1)) m
  end.

(** Second loop: [while (len--) *dest++ = 0]. *)
Fixpoint strncpy_pad (fuel : nat) (dest len : Z) (m : mem) : outcome mem :=
  match fuel with
  | O => NoFuel
  | S fuel =>
      if negb (c_true len) then Ret m
      else let* m := store m dest 0 in strncpy_pad fuel (dest + 1) (s32 (len - 1)) m
  end.

Definition strncpy (fuel : nat) (dest src len : Z) (m : mem) : outcome (Z * mem) :=
  let* (dest, len, m) := strncpy_copy fuel dest src len m in
  let* m := strncpy_pad fuel dest len m in
  Ret (0, m).

Fixpoint strncmp_loop (fuel : nat) (s1 s2 num : Z) (res : Z) (m : mem) : outcome Z :=
  match fuel with
  | O => NoFuel
  | S fuel =>
      if negb (c_true num) then Ret res
      else
        let* a := load m s1 in
        let* b := load m s2 in
        let res := u8 (s8 a - s8 b) in
        if c_true res then Ret res
        else if negb (c_true a) then Ret res
        else strncmp_loop fuel (s1 + 1) (s2 + 1) (s32 (num - 1)) res m
  end.
Definition strncmp (fuel : nat) (s1 s2 num : Z) (m : mem) : outcome Z :=
  strncmp_loop fuel s1 s2 num 0 m.

(** The same comparison when the bytes from the two pointers on are given
    as lists; the result where they end before the comparison is [Fault]. *)
Fixpoint strncmp_bytes (n : nat) (a b : list Z) : outcome Z :=
  match n with
  | O => Ret 0
  | S n =>
      match a, b with
      | x :: a, y :: b =>
          let res := u8 (s8 x - s8 y) in
          if c_true res then Ret res
          else if negb (c_true x) then Ret res
          else strncmp_bytes n a b
      | _, _ => Fault
      end
  end.

Definition strcmp (fuel : nat) (s1 s2 : Z) (m : mem) : outcome Z :=
  strncmp fuel s1 s2 (s32 0xFFFFFFFF) m.

(** [ch] is a signed char. *)
Definition toupper (ch : Z) : Z :=
  if (97 <=? ch) && (ch <=? 122) then s8 (ch - 0x20) else ch.

Fixpoint strnicmp_loop (fuel : nat) (s1 s2 num : Z) (res : Z) (m : mem) : outcome Z :=
  match fuel with
  | O => NoFuel
  | S fuel =>
      if negb (c_true num) then Ret res
      else
        let* x := load m s1 in
        let* y := load m s2 in
        let a := s8 (toupper (s8 x)) in
        let b := s8 (toupper (s8 y)) in
        let res := u8 (a - b) in
        if c_true res then Ret res
        else strnicmp_loop fuel (s1 + 1) (s2 + 1) (s32 (num - 1)) res m
  end.
Definition strnicmp (fuel : nat) (s1 s2 num : Z) (m : mem) : outcome Z :=
  strnicmp_loop fuel s1 s2 num 0 m.

Fixpoint stricmp (fuel : nat) (s1 s2 : Z) (m : mem) : outcome Z :=
  match fuel with
  | O => NoFuel
  | S fuel =>
      let* x := load m s1 in
      let* y := load m s2 in
      let a := s8 (toupper (s8 x)) in
      let b := s8 (toupper (s8 y)) in
      let res := u8 (a - b) in
      if c_true res then Ret res else stricmp fuel (s1 + 1) (s2 + 1) m
  end.

Fixpoint strlen_loop (fuel : nat) (str ret : Z) (m : mem) : outcome Z :=
  match fuel with
  | O => NoFuel
  | S fuel =>
      let* c := load m str in
      if c_true c then strlen_loop fuel (str + 1) (s32 (ret + 1)) m else Ret ret
  end.
Definition strlen (fuel : nat) (str : Z) (m : mem) : outcome Z := strlen_loop fuel str 0 m.

(** [while ( *target) target++]. *)
Fixpoint seek_nul (fuel : nat) (p : Z) (m : mem) : outcome Z :=
  match fuel with
  | O => NoFuel
  | S fuel => let* c := load m p in if c_true c then seek_nul fuel (p + 1) m else Ret p
  end.

(** [while (( *target++ = *src++) != 0)]. *)
Fixpoint copy_nul (fuel : nat) (target src : Z) (m : mem) : outcome mem :=
  match fuel with
  | O => NoFuel
  | S fuel =>
      let* c := load m src in
      let* m := store m target c in
      if c_true c then copy_nul fuel (target + 1) (src + 1) m else Ret m
  end.

Definition strcat (fuel : nat) (str1 str2 : Z) (m : mem) : outcome (Z * mem) :=
  let* target := seek_nul fuel str1 m in
  let* m := copy_nul fuel target str2 m in
  Ret (str1, m).

(** The copying loop of strncat; [count] is a size_t. *)
Fixpoint strncat_copy (fuel : nat) (dest src count : Z) (m : mem) : outcome mem :=
  match fuel with
  | O => NoFuel
  | S fuel =>
      let* c := load m src in
      let* m := store m dest c in
      if negb (c_true c) then Ret m
      else
        let count := u32 (count - 1) in
        if negb (c_true count) then store m (dest + 1) 0
        else strncat_copy fuel (dest + 1) (src + 1) count m
  end.

Definition strncat (fuel : nat) (dest src count : Z) (m : mem) : outcome (Z * mem) :=
  if c_true count then
    let* d := seek_nul fuel dest m in
    let* m := strncat_copy fuel d src count m in
    Ret (dest, m)
  else Ret (dest, m).

Fixpoint strchr (fuel : nat) (string c : Z) (m : mem) : outcome Z :=
  match fuel with
  | O => NoFuel
  | S fuel =>
      let* ch := load m string in
      if negb (c_true ch) then Ret 0
      else if s8 ch =? s8 c then Ret string
      else strchr fuel (string + 1) c m
  end.

(** [for (string += strlen(string); *string; string--)]. *)
Fixpoint strrchr_loop (fuel : nat) (string c : Z) (m : mem) : outcome Z :=
  match fuel with
  | O => NoFuel
  | S fuel =>
      let* ch := load m string in
      if negb (c_true ch) then Ret 0
      else if s8 ch =? s8 c then Ret string
      else strrchr_loop fuel (string - 1) c m
  end.
Definition strrchr (fuel : nat) (string c : Z) (m : mem) : outcome Z :=
  let* n := strlen fuel string m in strrchr_loop fuel (string + n) c m.

(** [while (size--) *iterate++ = value]; [size] is unsigned. *)
Fixpoint memset_loop (fuel : nat) (p size value : Z) (m : mem) : outcome mem :=
  match fuel with
  | O => NoFuel
  | S fuel =>
      if negb (c_true size) then Ret m
      else let* m := store m p value in memset_loop fuel (p + 1) (u32 (size - 1)) value m
  end.
Definition memset (fuel : nat) (p size value : Z) (m : mem) : outcome (Z * mem) :=
  let* m := memset_loop fuel p size value m in Ret (p, m).

(** A WORD store writes the low byte first. *)
Fixpoint memsetw_loop (fuel : nat) (p size value : Z) (m : mem) : outcome mem :=
  match fuel with
  | O => NoFuel
  | S fuel =>
      if negb (c_true size) then Ret m
      else
        let* m := store m p value in
        let* m := store m (p + 1) (Z.shiftr (u16 value) 8) in
        memsetw_loop fuel (p + 2) (s32 (size - 1)) value m
  end.
Definition memsetw (fuel : nat) (p size value : Z) (m : mem) : outcome (Z * mem) :=
  let* m := memsetw_loop fuel p size value m in Ret (p, m).

Fixpoint memcmp_loop (fuel : nat) (c1 c2 n res : Z) (m : mem) : outcome Z :=
  match fuel with
  | O => NoFuel
  | S fuel =>
      if negb (c_true n) then Ret res
      else
        let* a := load m c1 in
        let* b := load m c2 in
        let res := a - b in
        if c_true res then Ret res else memcmp_loop fuel (c1 + 1) (c2 + 1) (s32 (n - 1)) res m
  end.
Definition memcmp (fuel : nat) (s1 s2 n : Z) (m : mem) : outcome Z :=
  memcmp_loop fuel s1 s2 n 0 m.

Fixpoint strcpy_loop (fuel : nat) (dest src : Z) (m : mem) : outcome (Z * mem) :=
  match fuel with
  | O => NoFuel
  | S fuel =>
      let* c := load m src in
      if negb (c_true c) then Ret (dest, m)
      else let* m := store m dest c in strcpy_loop fuel (dest + 1) (src + 1) m
  end.
Definition strcpy (fuel : nat) (dest src : Z) (m : mem) : outcome (Z * mem) :=
  let* (d, m) := strcpy_loop fuel dest src m in
  let* m := store m d 0 in
  Ret (dest, m).

(** strdup, with the allocator (MemAlloc) as a parameter. *)
Definition strdup (MemAlloc : Z -> mem -> outcome (Z * mem)) (fuel : nat) (name : Z) (m : mem)
  : outcome (Z * mem) :=
  let* n := strlen fuel name m in
  let* (ret, m) := MemAlloc (n + 1) m in
  let* n := strlen fuel name m in
  let* (_, m) := strncpy fuel ret name n m in
  Ret (ret, m).

(** memcpy(dest, src, n) (include/string.h). *)
Fixpoint memcpy (n : nat) (dest src : Z) (m : mem) : outcome mem :=
  match n with
  | O => Ret m
  | S n => let* c := load m src in let* m := store m dest c in memcpy n (dest + 1) (src + 1) m
  end.

Definition isupper (c : Z) : bool := (65 <=? c) && (c <=? 90).
Definition tolower (c : Z) : Z := if isupper c then s8 (Z.lor c 0x20) else c.

(** ** Abstraction *)

Fixpoint bytes_at (m : mem) (p : Z) (l : list Z) : Prop :=
  match l with
  | [] => True
  | b :: l => m !! p = Some b /\ bytes_at m (p + 1) l
  end.

Definition cstr (m : mem) (p : Z) (s : list Z) : Prop :=
  Forall (fun b => 0 < b < 256) s /\ bytes_at m p (s ++ [0]).

Definition mapped (m : mem) (p n : Z) : Prop :=
  forall i, 0 <= i < n -> is_Some (m !! (p + i)).

Fixpoint write (m : mem) (p : Z) (l : list Z) : mem :=
  match l with
  | [] => m
  | b :: l => write (<[p := b]> m) (p + 1) l
  end.

(** The regions [p, p+n) and [q, q+k) do not meet. *)
Definition disjoint_regions (p n q k : Z) : Prop := p + n <= q \/ q + k <= p.

Definition zlen {A} (l : list A) : Z := Z.of_nat (length l).

(** ** Lemmas on memory *)

Lemma zlen_nonneg {A} (l : list A) : 0 <= zlen l.
Proof. unfold zlen; lia. Qed.

Lemma zlen_cons {A} (x : A) l : zlen (x :: l) = zlen l + 1.
Proof. unfold zlen; simpl; lia. Qed.

Lemma zlen_app {A} (l k : list A) : zlen (l ++ k) = zlen l + zlen k.
Proof. unfold zlen; rewrite length_app; lia. Qed.

Lemma bytes_at_app m p l k : bytes_at m p (l ++ k) <-> bytes_at m p l /\ bytes_at m (p + zlen l) k.
Proof.
  revert p; induction l as [|b l IH]; intros p; simpl.
  - unfold zlen; simpl. rewrite Z.add_0_r. tauto.
  - rewrite IH, zlen_cons. replace (p + 1 + zlen l) with (p + (zlen l + 1)) by lia. tauto.
Qed.

Lemma bytes_at_agree m m' p l :
  (forall a, p <= a < p + zlen l -> m' !! a = m !! a) -> bytes_at m p l -> bytes_at m' p l.
Proof.
  revert p; induction l as [|b l IH]; intros p Ha; simpl; [done|].
  rewrite zlen_cons in Ha. pose proof (zlen_nonneg l). intros [H1 H2]. split.
  - rewrite Ha by lia. done.
  - apply IH; [|done]. intros a Hr. apply Ha. lia.
Qed.

Lemma write_other m p l a : ~ (p <= a < p + zlen l) -> write m p l !! a = m !! a.
Proof.
  revert m p; induction l as [|b l IH]; intros m p Ha; simpl; [done|].
  rewrite zlen_cons in Ha. pose proof (zlen_nonneg l).
  rewrite IH by lia. apply lookup_insert_ne. lia.
Qed.

Lemma write_bytes m p l : bytes_at (write m p l) p l.
Proof.
  revert m p; induction l as [|b l IH]; intros m p; simpl; [done|].
  split; [|apply IH]. rewrite write_other by lia. apply lookup_insert_eq.
Qed.

Lemma write_app m p l k : write m p (l ++ k) = write (write m p l) (p + zlen l) k.
Proof.
  revert m p; induction l as [|b l IH]; intros m p; simpl.
  - unfold zlen; simpl. by rewrite Z.add_0_r.
  - rewrite IH, zlen_cons. f_equal. lia.
Qed.

Lemma bytes_at_write_disjoint m p l q k :
  disjoint_regions p (zlen l) q (zlen k) -> bytes_at m q k -> bytes_at (write m p l) q k.
Proof.
  intros D. apply bytes_at_agree. intros a Ha. apply write_other. unfold disjoint_regions in D. lia.
Qed.

Lemma mapped_write m p l q n : mapped m q n -> mapped (write m p l) q n.
Proof.
  revert m p; induction l as [|b l IH]; intros m p Hm; simpl; [done|].
  apply IH. intros i Hi. rewrite lookup_insert. case_decide; [by eexists|by apply Hm].
Qed.

Lemma mapped_sub m p n q k : mapped m p n -> p <= q -> q + k <= p + n -> mapped m q k.
Proof.
  intros Hm H1 H2 i Hi. specialize (Hm (q - p + i)).
  replace (q + i) with (p + (q - p + i)) by lia. apply Hm. lia.
Qed.

Lemma store_ok m p v n : mapped m p n -> 0 < n -> store m p v = Ret (<[p := u8 v]> m).
Proof.
  intros Hm Hn. unfold store. destruct (Hm 0) as [x Hx]; [lia|].
  rewrite Z.add_0_r in Hx. by rewrite Hx.
Qed.

Lemma store_byte m p b n : mapped m p n -> 0 < n -> 0 <= b < 256 ->
  store m p b = Ret (write m p [b]).
Proof. intros. rewrite (store_ok _ _ _ n) by done. simpl. by rewrite u8_id. Qed.

Lemma memcpy_spec d : forall dest src m, Forall is_byte d -> bytes_at m src d -> mapped m dest (zlen d) -> disjoint_regions dest (zlen d) src (zlen d) ->
  memcpy (length d) dest src m = Ret (write m dest d).
Proof.
  induction d as [|c d IH]; intros dest src m F B M D; cbn [length memcpy write]; [done|]. apply Forall_cons in F as [Fc F]. destruct B as [Ec B].
  rewrite zlen_cons in *. pose proof (zlen_nonneg d). unfold load. rewrite Ec. cbn [of_option bindO]. rewrite (store_ok _ _ _ (zlen d + 1)) by (done || lia). cbn [bindO].
  rewrite u8_id by done. unfold disjoint_regions in D. apply IH; [done| | |unfold disjoint_regions; lia].
  - apply (bytes_at_write_disjoint m dest [c] (src + 1) d); [|done]. unfold disjoint_regions. change (zlen [c]) with 1. lia.
  - apply (mapped_write m dest [c]). apply (mapped_sub m dest (zlen d + 1)); [done|lia|lia].
Qed.

Lemma u8_bytes b0 b1 b2 b3 : is_byte b0 -> is_byte b1 -> is_byte b2 -> is_byte b3 ->
  let v := b0 + 256 * b1 + 65536 * b2 + 16777216 * b3 in
  u8 v = b0 /\ u8 (v / 256) = b1 /\ u8 (v / 65536) = b2 /\ u8 (v / 16777216) = b3.
Proof.
  unfold is_byte, u8. cbv zeta. change (2 ^ 8) with 256. intros.
  split_and!; Z.div_mod_to_equations; lia.
Qed.

Lemma store32_bytes m p b0 b1 b2 b3 : is_byte b0 -> is_byte b1 -> is_byte b2 -> is_byte b3 ->
  mapped m p 4 ->
  store32 m p (b0 + 256 * b1 + 65536 * b2 + 16777216 * b3) = Ret (write m p [b0; b1; b2; b3]).
Proof.
  intros H0 H1 H2 H3 Hm. destruct (u8_bytes _ _ _ _ H0 H1 H2 H3) as (E0 & E1 & E2 & E3).
  unfold store32. rewrite (store_ok _ _ _ 4) by done. cbn [bindO].
  assert (M : forall q v m, mapped m p 4 -> mapped (<[q := v]> m) p 4)
    by (intros q v m' Hm'; apply (mapped_write m' q [v]), Hm').
  rewrite (store_ok _ _ _ 3) by (lia || (eapply mapped_sub; [by apply M, Hm|lia|lia])). cbn [bindO].
  rewrite (store_ok _ _ _ 2) by (lia || (eapply mapped_sub; [by do 2 apply M; apply Hm|lia|lia])). cbn [bindO].
  rewrite (store_ok _ _ _ 1) by (lia || (eapply mapped_sub; [by do 3 apply M; apply Hm|lia|lia])).
  rewrite E0, E1, E2, E3. cbn [write].
  by replace (p + 1 + 1) with (p + 2) by lia; replace (p + 2 + 1) with (p + 3) by lia.
Qed.

Lemma load32_bytes m p b0 b1 b2 b3 : bytes_at m p [b0; b1; b2; b3] ->
  load32 m p = Ret (b0 + 256 * b1 + 65536 * b2 + 16777216 * b3).
Proof.
  simpl. replace (p + 1 + 1) with (p + 2) by lia. replace (p + 2 + 1) with (p + 3) by lia.
  intros (E0 & E1 & E2 & E3 & _). unfold load32, load. by rewrite E0, E1, E2, E3.
Qed.

Lemma cstr_cons m p b s : cstr m p (b :: s) <-> 0 < b < 256 /\ m !! p = Some b /\ cstr m (p + 1) s.
Proof. unfold cstr. rewrite Forall_cons. simpl. tauto. Qed.

Lemma cstr_nil m p : cstr m p [] <-> m !! p = Some 0.
Proof. unfold cstr. simpl. rewrite Forall_nil. tauto. Qed.

Lemma cstr_write_disjoint m p l q s :
  disjoint_regions p (zlen l) q (zlen s + 1) -> cstr m q s -> cstr (write m p l) q s.
Proof.
  intros D [F B]. split; [done|]. apply bytes_at_write_disjoint; [|done].
  rewrite zlen_app. exact D.
Qed.

Lemma load_cstr_nil m p : cstr m p [] -> load m p = Ret 0.
Proof. rewrite cstr_nil. unfold load. by intros ->. Qed.

Lemma load_cstr_cons m p b s : cstr m p (b :: s) -> load m p = Ret b /\ c_true b = true.
Proof.
  rewrite cstr_cons. intros (Hb & E & _). unfold load. rewrite E.
  split; [done|]. apply c_true_spec. lia.
Qed.

Lemma cstr_tail m p b s : cstr m p (b :: s) -> cstr m (p + 1) s.
Proof. rewrite cstr_cons. tauto. Qed.

#[export] Hint Resolve cstr_tail zlen_nonneg : whitix.

(** ** Characters *)

Lemma s8_mod z : s8 z mod 256 = z mod 256.
Proof.
  unfold s8. change (2 ^ 8) with 256. change (2 ^ 7) with 128.
  rewrite Zminus_mod, Zmod_mod, <- Zminus_mod. f_equal. lia.
Qed.

Lemma u8_sub_s8 a b : u8 (s8 a - s8 b) = u8 (a - b).
Proof. unfold u8. change (2 ^ 8) with 256. by rewrite Zminus_mod, !s8_mod, <- Zminus_mod. Qed.

Lemma u8_sub_zero a b : is_byte a -> is_byte b -> u8 (s8 a - s8 b) = 0 <-> a = b.
Proof.
  unfold is_byte. intros. rewrite u8_sub_s8. unfold u8. change (2 ^ 8) with 256. split.
  - intros H1. destruct (Z.le_gt_cases b a).
    + rewrite Z.mod_small in H1; lia.
    + rewrite <- (Z_mod_plus_full (a - b) 1), Z.mod_small in H1; lia.
  - intros ->. by rewrite Z.sub_diag.
Qed.

Lemma s8_inj a b : is_byte a -> is_byte b -> s8 a = s8 b -> a = b.
Proof. intros Ha Hb E. apply u8_sub_zero; [done..|]. by rewrite E, Z.sub_diag. Qed.

(** ** The routines on well-formed strings *)

Lemma strlen_loop_cstr fuel p r s m :
  cstr m p s -> (length s < fuel)%nat -> 0 <= r -> r + zlen s < 2 ^ 31 ->
  strlen_loop fuel p r m = Ret (r + zlen s).
Proof.
  revert p r s; induction fuel as [|fuel IH]; intros p r s C Hf Hr Hb; [lia|]. simpl.
  destruct s as [|b s].
  - rewrite (load_cstr_nil _ _ C); simpl. f_equal. unfold zlen; simpl; lia.
  - destruct (load_cstr_cons _ _ _ _ C) as [-> Hc]. simpl. rewrite Hc.
    rewrite zlen_cons in *. pose proof (zlen_nonneg s).
    rewrite s32_id by lia. rewrite (IH _ _ s); [f_equal; lia|eauto with whitix|simpl in Hf; lia|lia|lia].
Qed.

Lemma strlen_cstr fuel p s m : cstr m p s -> (length s < fuel)%nat -> zlen s < 2 ^ 31 ->
  strlen fuel p m = Ret (zlen s).
Proof. intros. unfold strlen. by rewrite (strlen_loop_cstr _ _ _ s). Qed.

Lemma seek_nul_cstr fuel p s m : cstr m p s -> (length s < fuel)%nat ->
  seek_nul fuel p m = Ret (p + zlen s).
Proof.
  revert p s; induction fuel as [|fuel IH]; intros p s C Hf; [lia|]. simpl.
  destruct s as [|b s].
  - rewrite (load_cstr_nil _ _ C); simpl. f_equal. unfold zlen; simpl; lia.
  - destruct (load_cstr_cons _ _ _ _ C) as [-> Hc]. simpl. rewrite Hc.
    rewrite (IH _ s); [f_equal; rewrite zlen_cons; lia|eauto with whitix|simpl in Hf; lia].
Qed.

Lemma copy_nul_cstr fuel t p s m :
  cstr m p s -> mapped m t (zlen s + 1) -> disjoint_regions t (zlen s + 1) p (zlen s + 1) ->
  (length s < fuel)%nat -> copy_nul fuel t p m = Ret (write m t (s ++ [0])).
Proof.
  revert t p s m; induction fuel as [|fuel IH]; intros t p s m C Hm D Hf; [lia|].
  pose proof (zlen_nonneg s). cbn [copy_nul]. destruct s as [|b s].
  - rewrite (load_cstr_nil _ _ C); simpl. rewrite (store_ok _ _ _ _ Hm) by lia. done.
  - destruct (load_cstr_cons _ _ _ _ C) as [-> Hc]. cbn [bindO].
    apply cstr_cons in C as (Hb & _ & C). rewrite zlen_cons in *. pose proof (zlen_nonneg s).
    rewrite (store_byte _ _ _ _ Hm) by lia. cbn [bindO]. rewrite Hc.
    unfold disjoint_regions in D. rewrite (IH _ _ s); [done|..].
    + apply cstr_write_disjoint; [|done]. unfold disjoint_regions. change (zlen [b]) with 1. lia.
    + apply mapped_write. eapply mapped_sub; [exact Hm|lia|lia].
    + unfold disjoint_regions. lia.
    + simpl in Hf; lia.
Qed.

(** strcpy is the copy loop of strcat. *)
Lemma strcpy_loop_copy_nul fuel d p m :
  (let* (d, m) := strcpy_loop fuel d p m in store m d 0) = copy_nul fuel d p m.
Proof.
  revert d p m; induction fuel as [|fuel IH]; intros d p m; simpl; [done|].
  destruct (load m p) as [c| | |]; simpl; try done. destruct (c_true c) eqn:E; simpl.
  - destruct (store m d c); simpl; [|done..]. apply IH.
  - apply c_true_false in E as ->. by destruct (store m d 0).
Qed.

Lemma s32_pred k : s32 (s32 k - 1) = s32 (k - 1).
Proof.
  unfold s32. f_equal. change (2 ^ 32) with 4294967296. change (2 ^ 31) with 2147483648.
  replace ((k + 2147483648) mod 4294967296 - 2147483648 - 1 + 2147483648)
    with ((k + 2147483648) mod 4294967296 - 1) by lia.
  rewrite Zminus_mod, Zmod_mod, <- Zminus_mod. f_equal. lia.
Qed.

Lemma c_true_s32 k : 0 <= k < 2 ^ 32 -> c_true (s32 k) = negb (k =? 0).
Proof.
  intros Hk. unfold c_true, s32. f_equal.
  change (2 ^ 32) with 4294967296 in *. change (2 ^ 31) with 2147483648.
  destruct (Z.lt_ge_cases k 2147483648).
  - rewrite Z.mod_small by lia. zcases; lia.
  - rewrite <- (Z_mod_plus_full _ (-1)), Z.mod_small by lia. zcases; lia.
Qed.

Lemma strncmp_loop_spec fuel p q k s t m :
  cstr m p s -> cstr m q t -> 0 <= k < 2 ^ 32 -> (length s < fuel)%nat ->
  exists r, strncmp_loop fuel p q (s32 k) 0 m = Ret r
    /\ (r = 0 <-> take (Z.to_nat k) s = take (Z.to_nat k) t).
Proof.
  revert p q k s t; induction fuel as [|fuel IH]; intros p q k s t Cs Ct Hk Hf; [lia|].
  cbn [strncmp_loop]. rewrite c_true_s32 by done. destruct (Z.eqb_spec k 0) as [->|Hk0]; simpl.
  { exists 0. done. }
  assert (Hka : Z.to_nat k = S (Z.to_nat (k - 1))) by lia. rewrite Hka.
  assert (Hby : forall b, 0 < b < 256 -> u8 (s8 0 - s8 b) <> 0 /\ u8 (s8 b - s8 0) <> 0).
  { intros b Hb. rewrite !u8_sub_zero by (unfold is_byte; lia). lia. }
  destruct s as [|a s], t as [|b t].
  - rewrite (load_cstr_nil _ _ Cs), (load_cstr_nil _ _ Ct); simpl. exists 0. done.
  - rewrite (load_cstr_nil _ _ Cs), (proj1 (load_cstr_cons _ _ _ _ Ct)). cbn [bindO].
    apply cstr_cons in Ct as (Hb & _). destruct (Hby b Hb) as [H1 _].
    rewrite (proj2 (c_true_spec _) H1). eexists; split; [done|]. done.
  - rewrite (load_cstr_nil _ _ Ct), (proj1 (load_cstr_cons _ _ _ _ Cs)). cbn [bindO].
    apply cstr_cons in Cs as (Ha & _). destruct (Hby a Ha) as [_ H1].
    rewrite (proj2 (c_true_spec _) H1). eexists; split; [done|]. done.
  - destruct (load_cstr_cons _ _ _ _ Cs) as [-> Ha]. rewrite (proj1 (load_cstr_cons _ _ _ _ Ct)).
    cbn [bindO]. rewrite Ha. simpl. apply cstr_cons in Cs as (Hba & _ & Cs).
    apply cstr_cons in Ct as (Hbb & _ & Ct).
    pose proof (u8_sub_zero a b ltac:(unfold is_byte; lia) ltac:(unfold is_byte; lia)) as Hz.
    destruct (Z.eq_dec a b) as [->|Hne].
    + rewrite (proj2 Hz eq_refl). simpl. rewrite s32_pred.
      destruct (IH (p + 1) (q + 1) (k - 1) s t Cs Ct) as (r & E & Hr); [lia|simpl in Hf; lia|].
      exists r. split; [done|]. rewrite Hr. split; [by intros ->|]. by intros [= ->].
    + assert (Hnz : u8 (s8 a - s8 b) <> 0) by tauto.
      rewrite (proj2 (c_true_spec _) Hnz). eexists; split; [done|].
      split; [done|]. intros [= ->]. done.
Qed.

Lemma strncpy_copy_fits fuel d p len s m :
  cstr m p s -> mapped m d (zlen s) -> disjoint_regions d (zlen s) p (zlen s + 1) ->
  zlen s <= len < 2 ^ 31 -> (length s < fuel)%nat ->
  strncpy_copy fuel d p len m = Ret (d + zlen s, len - zlen s, write m d s).
Proof.
  revert d p len s m; induction fuel as [|fuel IH]; intros d p len s m C Hm D Hl Hf; [lia|].
  pose proof (zlen_nonneg s). cbn [strncpy_copy]. destruct s as [|b s].
  - rewrite (load_cstr_nil _ _ C); simpl. rewrite Z.add_0_r, Z.sub_0_r. done.
  - destruct (load_cstr_cons _ _ _ _ C) as [-> Hc]. cbn [bindO]. rewrite Hc. simpl.
    apply cstr_cons in C as (Hb & _ & C). rewrite zlen_cons in *. pose proof (zlen_nonneg s).
    rewrite (proj2 (c_true_spec len)) by lia. simpl.
    rewrite (store_byte _ _ _ _ Hm) by lia. cbn [bindO]. rewrite s32_id by lia.
    unfold disjoint_regions in D. rewrite (IH _ _ _ s).
    + do 2 f_equal; [f_equal; lia].
    + apply cstr_write_disjoint; [|done]. unfold disjoint_regions. change (zlen [b]) with 1. lia.
    + apply mapped_write. eapply mapped_sub; [exact Hm|lia|lia].
    + unfold disjoint_regions. lia.
    + lia.
    + simpl in Hf; lia.
Qed.

Lemma strncpy_pad_spec fuel d len m :
  mapped m d len -> 0 <= len < 2 ^ 31 -> (Z.to_nat len < fuel)%nat ->
  strncpy_pad fuel d len m = Ret (write m d (replicate (Z.to_nat len) 0)).
Proof.
  revert d len m; induction fuel as [|fuel IH]; intros d len m Hm Hl Hf; [lia|].
  cbn [strncpy_pad]. unfold c_true. destruct (Z.eqb_spec len 0) as [->|Hn]; [done|]. simpl.
  rewrite (store_ok _ _ _ _ Hm) by lia. simpl. rewrite s32_id by lia. rewrite IH.
  - replace (Z.to_nat len) with (S (Z.to_nat (len - 1))) by lia. done.
  - apply (mapped_write m d [0]). eapply mapped_sub; [exact Hm|lia|lia].
  - lia.
  - lia.
Qed.

(** The copying loop on a string longer than [len]: [len] bytes are copied
    and the counter is left at -1. *)
Lemma strncpy_copy_truncates fuel d p len s m :
  cstr m p s -> mapped m d len -> disjoint_regions d len p (zlen s + 1) ->
  0 <= len < zlen s -> len < 2 ^ 31 -> (Z.to_nat len < fuel)%nat ->
  strncpy_copy fuel d p len m = Ret (d + len, -1, write m d (take (Z.to_nat len) s)).
Proof.
  revert d p len s m; induction fuel as [|fuel IH]; intros d p len s m C Hm D Hl Hb Hf; [lia|].
  cbn [strncpy_copy]. destruct s as [|b s]; [by unfold zlen in Hl; simpl in Hl; lia|].
  destruct (load_cstr_cons _ _ _ _ C) as [-> Hc]. cbn [bindO]. rewrite Hc. simpl.
  apply cstr_cons in C as (Hbb & _ & C). rewrite zlen_cons in *. pose proof (zlen_nonneg s).
  unfold c_true. destruct (Z.eqb_spec len 0) as [->|Hn]; simpl; [by rewrite Z.add_0_r|].
  rewrite (store_byte _ _ _ _ Hm) by lia. cbn [bindO]. rewrite s32_id by lia.
  replace (Z.to_nat len) with (S (Z.to_nat (len - 1))) by lia. simpl.
  unfold disjoint_regions in D. rewrite (IH _ _ _ s).
  - do 2 f_equal; f_equal; lia.
  - apply (cstr_write_disjoint m d [b]); [|done]. unfold disjoint_regions. change (zlen [b]) with 1. lia.
  - apply (mapped_write m d [b]). eapply mapped_sub; [exact Hm|lia|lia].
  - unfold disjoint_regions. lia.
  - lia.
  - lia.
  - lia.
Qed.

(** The padding loop entered with -1 walks until it hits unmapped memory. *)
Lemma strncpy_pad_runs_away fuel d k j m :
  mapped m d j -> m !! (d + j) = None -> 0 <= j < k -> k < 2 ^ 32 -> (Z.to_nat j < fuel)%nat ->
  strncpy_pad fuel d (s32 k) m = Fault.
Proof.
  revert d k j m; induction fuel as [|fuel IH]; intros d k j m Hm Hn Hj Hk Hf; [lia|].
  cbn [strncpy_pad]. rewrite c_true_s32 by lia. zcases; [lia|]. simpl.
  destruct (Z.eq_dec j 0) as [->|Hj0].
  - rewrite Z.add_0_r in Hn. unfold store. by rewrite Hn.
  - rewrite (store_ok _ _ _ _ Hm) by lia. cbn [bindO]. rewrite s32_pred.
    apply (IH (d + 1) (k - 1) (j - 1)); [|..|lia|lia|lia].
    + apply (mapped_write m d [u8 0]). eapply mapped_sub; [exact Hm|lia|lia].
    + replace (d + 1 + (j - 1)) with (d + j) by lia. rewrite lookup_insert_ne by lia. done.
Qed.

Lemma memset_loop_spec fuel p size v m :
  mapped m p size -> 0 <= size < 2 ^ 32 -> (Z.to_nat size < fuel)%nat ->
  memset_loop fuel p size v m = Ret (write m p (replicate (Z.to_nat size) (u8 v))).
Proof.
  revert p size m; induction fuel as [|fuel IH]; intros p size m Hm Hl Hf; [lia|].
  cbn [memset_loop]. unfold c_true. destruct (Z.eqb_spec size 0) as [->|Hn]; [done|]. simpl.
  rewrite (store_ok _ _ _ _ Hm) by lia. simpl. rewrite u32_id by lia. rewrite IH.
  - replace (Z.to_nat size) with (S (Z.to_nat (size - 1))) by lia. done.
  - apply (mapped_write m p [u8 v]). eapply mapped_sub; [exact Hm|lia|lia].
  - lia.
  - lia.
Qed.

Lemma memcmp_loop_spec fuel p q s t m :
  bytes_at m p s -> bytes_at m q t -> length s = length t ->
  zlen s < 2 ^ 31 -> (length s < fuel)%nat ->
  exists r, memcmp_loop fuel p q (zlen s) 0 m = Ret r /\ (r = 0 <-> s = t).
Proof.
  revert p q s t; induction fuel as [|fuel IH]; intros p q s t Bs Bt Hl Hb Hf; [lia|].
  destruct s as [|a s], t as [|b t]; simpl in Hl; try lia; cbn [memcmp_loop].
  - exists 0. done.
  - rewrite (proj2 (c_true_spec (zlen (a :: s)))) by (rewrite zlen_cons; pose proof (zlen_nonneg s); lia).
    destruct Bs as [Ea Bs], Bt as [Eb Bt]. unfold load. rewrite Ea, Eb. simpl.
    rewrite zlen_cons in *. pose proof (zlen_nonneg s).
    replace (zlen s + 1 - 1) with (zlen s) by lia. rewrite s32_id by lia.
    destruct (Z.eq_dec a b) as [->|Hne].
    + rewrite Z.sub_diag. simpl. destruct (IH (p + 1) (q + 1) s t) as (r & E & Hr); [done|done|lia|lia|simpl in Hf; lia|].
      exists r. split; [done|]. rewrite Hr. split; [by intros ->|by intros [= ->]].
    + rewrite (proj2 (c_true_spec (a - b))) by lia. eexists; split; [done|]. split; [lia|]. by intros [= ->].
Qed.

Lemma strchr_spec fuel p s c m : cstr m p s -> is_byte c -> (length s < fuel)%nat ->
  strchr fuel p c m = Ret (match list_find (fun b => b = c) s with
                           | Some (i, _) => p + Z.of_nat i | None => 0 end).
Proof.
  revert p s; induction fuel as [|fuel IH]; intros p s C Hc Hf; [lia|]. cbn [strchr].
  destruct s as [|b s]; [by rewrite (load_cstr_nil _ _ C)|].
  destruct (load_cstr_cons _ _ _ _ C) as [-> Hb]. cbn [bindO]. rewrite Hb. simpl.
  apply cstr_cons in C as (Hbb & _ & C). case_decide as Hd.
  - subst. rewrite Z.eqb_refl, Z.add_0_r. done.
  - destruct (Z.eqb_spec (s8 b) (s8 c)) as [E|_].
    { exfalso. apply Hd, s8_inj; unfold is_byte in *; lia || done. }
    rewrite (IH _ s C Hc) by (simpl in Hf; lia).
    destruct (list_find _ s) as [[i x]|]; simpl; [|done]. f_equal. lia.
Qed.

Lemma stricmp_nonzero fuel p q m r : stricmp fuel p q m = Ret r -> r <> 0.
Proof.
  revert p q; induction fuel as [|fuel IH]; intros p q; [done|]. simpl.
  destruct (load m p) as [x| | |]; simpl; try done.
  destruct (load m q) as [y| | |]; simpl; try done.
  destruct (c_true _) eqn:E; [|apply IH]. intros [= <-]. by apply c_true_spec.
Qed.

(** ** Properties *)

(** Strcat on two NUL-terminated strings with room for the result
    returns its first argument, leaves the concatenation there and changes
    no byte outside the appended part. *)
Theorem strcat_concatenates fuel p q s t m :
  cstr m p s -> cstr m q t -> mapped m (p + zlen s) (zlen t + 1) ->
  disjoint_regions (p + zlen s) (zlen t + 1) q (zlen t + 1) ->
  (length s < fuel)%nat -> (length t < fuel)%nat ->
  exists m', strcat fuel p q m = Ret (p, m') /\ cstr m' p (s ++ t)
    /\ forall a, ~ (p + zlen s <= a <= p + zlen s + zlen t) -> m' !! a = m !! a.
Proof.
  intros Cs Ct Hm D Hf1 Hf2. exists (write m (p + zlen s) (t ++ [0])).
  unfold strcat. rewrite (seek_nul_cstr _ _ s) by done. cbn [bindO].
  rewrite (copy_nul_cstr _ _ _ t) by done. split_and!; [done| |].
  - destruct Cs as [Fs Bs], Ct as [Ft Bt]. split; [by apply Forall_app|].
    rewrite <- app_assoc. apply bytes_at_app. split; [|apply write_bytes].
    apply bytes_at_app in Bs as [Bs _]. apply bytes_at_write_disjoint; [|done].
    unfold disjoint_regions. lia.
  - intros a Ha. apply write_other. rewrite zlen_app. change (zlen [0]) with 1. lia.
Qed.

(** "ab" at 100 with room for five bytes, "xy" at 200. *)
Definition demo_strings : mem :=
  {[100 := 97; 101 := 98; 102 := 0; 103 := 7; 104 := 7; 200 := 120; 201 := 121; 202 := 0]}.

Lemma demo_strings_ab : cstr demo_strings 100 [97; 98].
Proof. split; [repeat constructor; lia|]. repeat split; reflexivity. Qed.

Lemma demo_strings_xy : cstr demo_strings 200 [120; 121].
Proof. split; [repeat constructor; lia|]. repeat split; reflexivity. Qed.

Lemma demo_mapped p n : forallb (fun k => bool_decide (is_Some (demo_strings !! (p + Z.of_nat k))))
    (seq 0 (Z.to_nat n)) = true -> mapped demo_strings p n.
Proof.
  intros H i Hi. rewrite forallb_forall in H.
  specialize (H (Z.to_nat i)). rewrite Z2Nat.id in H by lia.
  apply bool_decide_eq_true in H; [done|]. apply in_seq. lia.
Qed.

Lemma strcat_concatenates_witness :
  exists m', strcat 5 100 200 demo_strings = Ret (100, m') /\ cstr m' 100 ([97; 98] ++ [120; 121])
    /\ forall a, ~ (100 + 2 <= a <= 100 + 2 + 2) -> m' !! a = demo_strings !! a.
Proof.
  apply (strcat_concatenates 5 100 200 [97; 98] [120; 121] demo_strings).
  - apply demo_strings_ab.
  - apply demo_strings_xy.
  - by apply demo_mapped.
  - left. by vm_compute.
  - simpl; lia.
  - simpl; lia.
Defined.

(** Bytes without a NUL compare equal when they are. *)
Lemma strncmp_bytes_spec n : forall a b, (n <= length a)%nat -> (n <= length b)%nat -> Forall (fun x => 0 < x < 256) (take n a) ->
  Forall (fun x => 0 < x < 256) (take n b) ->
  exists r, strncmp_bytes n a b = Ret r /\ (r =? 0) = bool_decide (take n a = take n b).
Proof.
  induction n as [|n IH]; intros a b La Lb Fa Fb; cbn [strncmp_bytes].
  { exists 0. by rewrite bool_decide_eq_true_2. }
  destruct a as [|x a], b as [|y b]; cbn [length take] in *; try lia.
  apply Forall_cons in Fa as [Hx Fa]. apply Forall_cons in Fb as [Hy Fb].
  assert (R : u8 (s8 x - s8 y) = 0 <-> x = y).
  { unfold u8, s8. split; [|intros ->; by rewrite Z.sub_diag]. Z.div_mod_to_equations. lia. }
  unfold c_true. destruct (Z.eqb_spec (u8 (s8 x - s8 y)) 0) as [E|E]; cbn [negb].
  - apply R in E as ->. destruct (Z.eqb_spec y 0); [lia|]. cbn [negb].
    destruct (IH a b) as (r & Er & Q); [lia|lia|done|done|]. exists r. split; [done|]. rewrite Q.
    apply bool_decide_ext. split; congruence.
  - eexists. split; [done|]. rewrite bool_decide_eq_false_2 by (intros [= ? _]; by apply E, R). by apply Z.eqb_neq.
Qed.

(** [strncmp] on memory that holds the two lists gives what the comparison of the lists gives. *)
Lemma strncmp_loop_bytes n : forall fuel p q m a b res, (n < fuel)%nat -> Z.of_nat n < 2 ^ 31 -> (n <= length a)%nat -> (n <= length b)%nat ->
  (forall i x, a !! i = Some x -> load m (p + Z.of_nat i) = Ret x) -> (forall i x, b !! i = Some x -> load m (q + Z.of_nat i) = Ret x) ->
  (n = O -> res = 0) -> strncmp_loop fuel p q (Z.of_nat n) res m = strncmp_bytes n a b.
Proof.
  induction n as [|n IH]; intros [|fuel] p q m a b res Hf Hn La Lb Ha Hb Hr; try lia; cbn [strncmp_loop strncmp_bytes].
  - by rewrite Hr.
  - replace (c_true (Z.of_nat (S n))) with true by (symmetry; apply c_true_spec; lia). cbn [negb].
    destruct a as [|x a], b as [|y b]; cbn [length] in *; try lia.
    pose proof (Ha O x eq_refl) as E1. pose proof (Hb O y eq_refl) as E2. rewrite Z.add_0_r in E1, E2. rewrite E1, E2. cbn [bindO].
    destruct (c_true (u8 (s8 x - s8 y))) eqn:C; [done|]. destruct (negb (c_true x)); [done|].
    replace (s32 (Z.of_nat (S n) - 1)) with (Z.of_nat n) by (rewrite s32_id; lia).
    apply IH; try lia.
    + intros i z E. specialize (Ha (S i) z E). by replace (p + 1 + Z.of_nat i) with (p + Z.of_nat (S i)) by lia.
    + intros i z E. specialize (Hb (S i) z E). by replace (q + 1 + Z.of_nat i) with (q + Z.of_nat (S i)) by lia.
    + intros _. by apply c_true_false in C.
Qed.

Lemma bytes_at_load m l : forall p i x, bytes_at m p l -> l !! i = Some x -> load m (p + Z.of_nat i) = Ret x.
Proof.
  induction l as [|y l IH]; intros p i x H E; [done|]. destruct H as [Hy Hl], i as [|i].
  - injection E as <-. unfold load. by rewrite Z.add_0_r, Hy.
  - rewrite <- (IH (p + 1) i x Hl E). f_equal. lia.
Qed.

(** Strncmp on memory is the comparison of lists of bytes that the searches of names in directories and of servers use,
    with the count as it is and the sign of the bytes, whatever follows the terminators. *)
Theorem strncmp_is_bytes n fuel p q m a b : (n < fuel)%nat -> Z.of_nat n < 2 ^ 31 -> (n <= length a)%nat -> (n <= length b)%nat ->
  bytes_at m p a -> bytes_at m q b -> strncmp fuel p q (Z.of_nat n) m = strncmp_bytes n a b.
Proof.
  intros Hf Hn La Lb Ha Hb. apply strncmp_loop_bytes; try done; intros i x; by apply bytes_at_load.
Qed.
Lemma strncmp_is_bytes_witness : strncmp 4 100 200 (Z.of_nat 3) demo_strings = strncmp_bytes 3 [97; 98; 0; 7] [120; 121; 0].
Proof.
  apply (strncmp_is_bytes 3 4 100 200 demo_strings); try (cbn; lia); repeat split; reflexivity.
Defined.

(** Strcmp (strncmp with the count 0xFFFFFFFF) returns on any two
    NUL-terminated strings shorter than the count, and its result is 0
    exactly when the strings are equal. *)
Theorem strcmp_decides_equality fuel p q s t m :
  cstr m p s -> cstr m q t -> zlen s < 2 ^ 32 - 1 -> zlen t < 2 ^ 32 - 1 ->
  (length s < fuel)%nat ->
  exists r, strcmp fuel p q m = Ret r /\ (r = 0 <-> s = t).
Proof.
  intros Cs Ct Hs Ht Hf. unfold strcmp, strncmp.
  destruct (strncmp_loop_spec fuel p q 0xFFFFFFFF s t m Cs Ct ltac:(lia) Hf) as (r & E & Hr).
  exists r. split; [done|]. rewrite Hr. unfold zlen in *.
  by rewrite !take_ge by lia.
Qed.

Lemma strcmp_decides_equality_witness :
  exists r, strcmp 3 100 200 demo_strings = Ret r /\ (r = 0 <-> [97; 98] = [120; 121]).
Proof.
  apply (strcmp_decides_equality 3 100 200 [97; 98] [120; 121] demo_strings).
  - apply demo_strings_ab.
  - apply demo_strings_xy.
  - by vm_compute.
  - by vm_compute.
  - simpl; lia.
Defined.

(** Strdup, given an allocator that returns a fresh zeroed block of the
    size asked for, returns a copy of the string and leaves the original
    and all other memory as they were.  It relies on strncpy being called
    with exactly the length of the source. *)
Theorem strdup_copies MemAlloc fuel p s m ret m1 :
  cstr m p s -> zlen s < 2 ^ 31 -> (length s < fuel)%nat ->
  MemAlloc (zlen s + 1) m = Ret (ret, m1) ->
  (forall a, p <= a <= p + zlen s -> m1 !! a = m !! a) ->
  bytes_at m1 ret (replicate (S (length s)) 0) ->
  disjoint_regions ret (zlen s + 1) p (zlen s + 1) ->
  exists m', strdup MemAlloc fuel p m = Ret (ret, m') /\ cstr m' ret s
    /\ forall a, ~ (ret <= a < ret + zlen s) -> m' !! a = m1 !! a.
Proof.
  intros C Hs Hf EA Hsame Hz D. pose proof (zlen_nonneg s) as Hpos.
  assert (C1 : cstr m1 p s).
  { destruct C as [F B]. split; [done|]. eapply bytes_at_agree; [|exact B].
    intros a Ha. apply Hsame. rewrite zlen_app in Ha. change (zlen [0]) with 1 in Ha. lia. }
  assert (Hr : replicate (S (length s)) 0 = replicate (length s) 0 ++ [0])
    by by rewrite <- replicate_S_end.
  rewrite Hr in Hz. apply bytes_at_app in Hz as [Hz0 Hz1].
  assert (El : zlen (replicate (length s) 0) = zlen s) by (unfold zlen; by rewrite length_replicate).
  rewrite El in Hz1.
  assert (Hm : mapped m1 ret (zlen s)).
  { clear -Hz0. unfold mapped, zlen. revert ret Hz0. induction (length s) as [|n IH]; intros ret B i Hi; [lia|].
    simpl in B. destruct B as [E B]. destruct (Z.eq_dec i 0) as [->|]; [rewrite Z.add_0_r; by eexists|].
    specialize (IH (ret + 1) B (i - 1)). replace (ret + i) with (ret + 1 + (i - 1)) by lia. apply IH. lia. }
  exists (write m1 ret s). unfold strdup.
  rewrite (strlen_cstr _ _ s) by done. cbn [bindO]. rewrite EA. cbn [bindO].
  rewrite (strlen_cstr _ _ s) by done. cbn [bindO]. unfold strncpy.
  rewrite (strncpy_copy_fits _ _ _ _ s) by (done || unfold disjoint_regions in *; lia).
  cbn [bindO]. rewrite Z.sub_diag.
  assert (strncpy_pad fuel (ret + zlen s) 0 (write m1 ret s) = Ret (write m1 ret s)) as ->
    by (destruct fuel; [lia|done]).
  cbn [bindO]. split_and!; [done| |intros a Ha; by apply write_other].
  split; [apply C|]. apply bytes_at_app. split; [apply write_bytes|].
  eapply bytes_at_agree; [|exact Hz1]. change (zlen [0]) with 1. intros a Ha. apply write_other. lia.
Qed.

(** An allocator handing out a zeroed block at 300. *)
Definition demo_alloc (size : Z) (m : mem) : outcome (Z * mem) :=
  Ret (300, write m 300 (replicate (Z.to_nat size) 0)).

Lemma strdup_copies_witness :
  exists m', strdup demo_alloc 5 100 demo_strings = Ret (300, m') /\ cstr m' 300 [97; 98]
    /\ forall a, ~ (300 <= a < 300 + 2) -> m' !! a = write demo_strings 300 [0; 0; 0] !! a.
Proof.
  apply (strdup_copies demo_alloc 5 100 [97; 98] demo_strings 300 (write demo_strings 300 [0; 0; 0])).
  - apply demo_strings_ab.
  - by vm_compute.
  - simpl; lia.
  - reflexivity.
  - intros a Ha. apply write_other. change (zlen [97; 98]) with 2 in Ha. lia.
  - apply write_bytes.
  - right. by vm_compute.
Defined.

(** Strncpy with a source longer than [len] does not stop after [len]
    bytes: the counter of its padding loop starts at -1, so the loop writes
    zeros from [dest + len] on until it reaches memory that is not mapped
    (here after [j] bytes), whatever [j] is. *)
Theorem strncpy_truncation_overruns fuel d p len s m j :
  cstr m p s -> mapped m d (len + j) -> m !! (d + len + j) = None ->
  disjoint_regions d len p (zlen s + 1) ->
  0 <= len < zlen s -> len < 2 ^ 31 -> 0 <= j < 2 ^ 32 - 1 ->
  (Z.to_nat len < fuel)%nat -> (Z.to_nat j < fuel)%nat ->
  strncpy fuel d p len m = Fault.
Proof.
  intros C Hm Hn D Hl Hb Hj Hf1 Hf2. unfold strncpy.
  rewrite (strncpy_copy_truncates _ _ _ _ s); try done.
  2: { eapply mapped_sub; [exact Hm|lia|lia]. }
  cbn [bindO]. change (-1) with (s32 (2 ^ 32 - 1)).
  rewrite (strncpy_pad_runs_away _ _ _ j); try done.
  - apply mapped_write. eapply mapped_sub; [exact Hm|lia|lia].
  - rewrite write_other; [done|]. unfold zlen. rewrite length_take. lia.
Qed.

Lemma strncpy_truncation_overruns_witness : strncpy 10 103 200 1 demo_strings = Fault.
Proof.
  apply (strncpy_truncation_overruns 10 103 200 1 [120; 121] demo_strings 1).
  - apply demo_strings_xy.
  - by apply demo_mapped.
  - reflexivity.
  - left. by vm_compute.
  - by vm_compute.
  - by vm_compute.
  - by vm_compute.
  - simpl; lia.
  - simpl; lia.
Defined.

(** Strrchr returns NULL for every string and every character, also
    when the character occurs: its loop starts on the terminator, where
    its condition is already false. *)
Theorem strrchr_always_null fuel p s c m :
  cstr m p s -> zlen s < 2 ^ 31 -> (length s < fuel)%nat -> strrchr fuel p c m = Ret 0.
Proof.
  intros C Hs Hf. unfold strrchr. rewrite (strlen_cstr _ _ s) by done. cbn [bindO].
  destruct fuel as [|fuel]; [lia|]. cbn [strrchr_loop].
  destruct C as [_ B]. apply bytes_at_app in B as [_ [E _]]. unfold load. by rewrite E.
Qed.

(** The character 'a' does occur in "ab". *)
Lemma strrchr_always_null_witness : strrchr 5 100 97 demo_strings = Ret 0.
Proof.
  apply (strrchr_always_null 5 100 [97; 98]).
  - apply demo_strings_ab.
  - by vm_compute.
  - simpl; lia.
Defined.
