(* ===== verification/Heapsort.v ===== *)
(** * Heap sort (lib/heapsort.c)

    Sort works on byte offsets into an array of [num] elements of [size]
    bytes; the offsets and limits are ints compared with size_t values, and
    the model keeps those conversions.  The array is the list of its
    elements, so an offset that is not a multiple of [size] is a [Fault].
    The comparison callback is a parameter; a NULL swap callback selects
    one of the two byte-level exchanges, which are modelled on memory. *)

From S2P Require Import Prelude CString.

(** ** Byte-level exchanges *)

(** The do-while loop of genericSwap; [size] is an int. *)
Fixpoint genericSwap (fuel : nat) (a b size : Z) (m : mem) : outcome mem :=
  match fuel with
  | O => NoFuel
  | S fuel =>
      let* t := load m a in
      let* y := load m b in
      let* m := store m a y in
      let* m := store m b t in
      let size := s32 (size - 1) in
      if 0 <? size then genericSwap fuel (a + 1) (b + 1) size m else Ret m
  end.

Definition u32Swap (a b : Z) (m : mem) : outcome mem :=
  let* t := load32 m a in
  let* y := load32 m b in
  let* m := store32 m a y in
  store32 m b t.

(** ** Sort *)

Section Sort.
Context {A : Type} (size : Z) (compare : A -> A -> Z).

Definition elem_at (base : list A) (off : Z) : outcome A :=
  if off mod size =? 0 then of_option (zlookup base (off / size)) else Fault.

(** Exchange of the elements at two offsets, what u32Swap and genericSwap
    do to the array. *)
Definition default_swap (base : list A) (a b : Z) : outcome (list A) :=
  let* x := elem_at base a in
  let* y := elem_at base b in
  let* base := of_option (zupdate base (a / size) y) in
  of_option (zupdate base (b / size) x).

Context (swap : list A -> Z -> Z -> outcome (list A)).

(** The inner loops of both phases: [lim] is [n] in the first and [i] in
    the second. *)
Fixpoint sift (fuel : nat) (lim r : Z) (base : list A) : outcome (list A) :=
  match fuel with
  | O => NoFuel
  | S fuel =>
      if u32 (r * 2 + size) <? u32 lim then
        let c := s32 (u32 (r * 2 + size)) in
        let* c :=
          if u32 c <? u32 (lim - size) then
            let* x := elem_at base c in
            let* y := elem_at base (c + size) in
            Ret (if compare x y <? 0 then s32 (c + size) else c)
          else Ret c in
        let* x := elem_at base r in
        let* y := elem_at base c in
        if 0 <=? compare x y then Ret base
        else let* base := swap base r c in sift fuel lim c base
      else Ret base
  end.

Fixpoint heapify (fuel : nat) (sfuel : nat) (n i : Z) (base : list A) : outcome (list A) :=
  match fuel with
  | O => NoFuel
  | S fuel =>
      if 0 <=? i then
        let* base := sift sfuel n i base in heapify fuel sfuel n (s32 (i - size)) base
      else Ret base
  end.

Fixpoint sort_loop (fuel : nat) (sfuel : nat) (i : Z) (base : list A) : outcome (list A) :=
  match fuel with
  | O => NoFuel
  | S fuel =>
      if 0 <? i then
        let* base := swap base 0 i in
        let* base := sift sfuel i 0 base in
        sort_loop fuel sfuel (s32 (i - size)) base
      else Ret base
  end.

End Sort.

(** [num] and [size] are size_t. *)
Definition Sort {A} (fuel : nat) (base : list A) (num size : Z) (compare : A -> A -> Z)
    (swap : option (list A -> Z -> Z -> outcome (list A))) : outcome (list A) :=
  let i := s32 (u32 (u32 (num / 2 - 1) * size)) in
  let n := s32 (u32 (num * size)) in
  let swap := match swap with Some f => f | None => default_swap size end in
  let* base := heapify size compare swap fuel fuel n i base in
  sort_loop size compare swap fuel fuel (s32 (n - size)) base.

(** ** Index-level reference *)

Definition swap_nth {A} (l : list A) (a b : nat) : list A :=
  match l !! a, l !! b with
  | Some x, Some y => <[b := x]> (<[a := y]> l)
  | _, _ => l
  end.

Section Reference.
Context {A : Type} (compare : A -> A -> Z).

(** The child of [r] that sift compares with: the right one when it exists
    and the left one is smaller. *)
Definition big_child (lim r : nat) (l : list A) : nat :=
  let c := (2 * r + 1)%nat in
  match l !! c, l !! S c with
  | Some x, Some y => if decide (S c < lim)%nat then if compare x y <? 0 then S c else c else c
  | _, _ => c
  end.

Fixpoint siftI (fuel : nat) (lim r : nat) (l : list A) : list A :=
  match fuel with
  | O => l
  | S fuel =>
      if decide (2 * r + 1 < lim)%nat then
        let c := big_child lim r l in
        match l !! r, l !! c with
        | Some x, Some y =>
            if 0 <=? compare x y then l else siftI fuel lim c (swap_nth l r c)
        | _, _ => l
        end
      else l
  end.

Definition child (p c : nat) : Prop := (c = 2 * p + 1 \/ c = 2 * p + 2)%nat.

(** The element at [p] is at least the one at [c]. *)
Definition geL (l : list A) (p c : nat) : Prop :=
  forall x y, l !! p = Some x -> l !! c = Some y -> 0 <= compare x y.

(** Every parent at or after [k] dominates its children below [lim]. *)
Definition heap_from (k lim : nat) (l : list A) : Prop :=
  forall p c, (k <= p)%nat -> child p c -> (c < lim)%nat -> geL l p c.

(** Elements from [i] on are in their final place. *)
Definition suffix_done (i : nat) (l : list A) : Prop :=
  forall j k, (i <= j)%nat -> (k <= j)%nat -> geL l j k.

(** Ascending order. *)
Definition ascending (l : list A) : Prop :=
  forall i j, (i <= j)%nat -> geL l j i.

End Reference.

(** What Sort relies on from its callback: it never orders two elements
    both ways round as "less", and "not less" is transitive. *)
Class CompareLaws {A} (compare : A -> A -> Z) := {
  compare_total x y : compare x y < 0 -> 0 <= compare y x;
  compare_trans x y z : 0 <= compare x y -> 0 <= compare y z -> 0 <= compare x z;
}.

(** ** Exchanges *)

Lemma swap_nth_lookup {A} (l : list A) a b k : (a < length l)%nat -> (b < length l)%nat ->
  swap_nth l a b !! k = if decide (k = b) then l !! a else if decide (k = a) then l !! b else l !! k.
Proof.
  intros Ha Hb. unfold swap_nth.
  destruct (lookup_lt_is_Some_2 l a Ha) as [x Hx], (lookup_lt_is_Some_2 l b Hb) as [y Hy].
  rewrite Hx, Hy. case_decide; [subst|].
  - rewrite list_lookup_insert_eq; [done|]. by rewrite length_insert.
  - rewrite list_lookup_insert_ne by done. case_decide; [subst|].
    + by rewrite list_lookup_insert_eq.
    + by rewrite list_lookup_insert_ne.
Qed.

Lemma swap_nth_length {A} (l : list A) a b : length (swap_nth l a b) = length l.
Proof. unfold swap_nth. repeat case_match; by rewrite ?length_insert. Qed.

Lemma swap_nth_perm {A} (l : list A) a b : (a < length l)%nat -> (b < length l)%nat ->
  swap_nth l a b ≡ₚ l.
Proof.
  intros Ha Hb. apply Permutation_inj. split; [apply swap_nth_length|].
  exists (fun k => if decide (k = b) then a else if decide (k = a) then b else k). split.
  - intros i j. repeat case_decide; congruence.
  - intros k. rewrite swap_nth_lookup by done. by repeat case_decide.
Qed.

(** A property of every element of a prefix survives an exchange inside it. *)
Lemma swap_nth_prefix {A} (P : A -> Prop) (l : list A) a b lim :
  (a < lim)%nat -> (b < lim)%nat -> (lim <= length l)%nat ->
  (forall k x, (k < lim)%nat -> l !! k = Some x -> P x) ->
  forall k x, (k < lim)%nat -> swap_nth l a b !! k = Some x -> P x.
Proof.
  intros Ha Hb Hl H k x Hk. rewrite swap_nth_lookup by lia.
  repeat case_decide; intros E; eapply H; [| exact E | | exact E| | exact E]; lia.
Qed.

(** ** The reference sift restores the heap *)

Section SiftCorrect.
Context {A : Type} (compare : A -> A -> Z) `{!CompareLaws compare}.

Lemma compare_refl x : 0 <= compare x x.
Proof. destruct (Z.lt_ge_cases (compare x x) 0) as [H|H]; [by apply compare_total|lia]. Qed.

Lemma big_child_spec lim r l :
  (2 * r + 1 < lim)%nat -> (lim <= length l)%nat ->
  child r (big_child compare lim r l) /\ (big_child compare lim r l < lim)%nat
  /\ forall c, child r c -> (c < lim)%nat -> geL compare l (big_child compare lim r l) c.
Proof.
  intros Hr Hl. unfold big_child, child.
  destruct (lookup_lt_is_Some_2 l (2 * r + 1)) as [x Hx]; [lia|]. rewrite Hx.
  destruct (l !! S (2 * r + 1)) as [y|] eqn:Hy.
  - case_decide.
    + destruct (Z.ltb_spec (compare x y) 0) as [Hc|Hc].
      * split_and!; [lia|lia|]. intros c [->| ->] Hlt; intros u v Hu Hv.
        -- simplify_eq. by apply compare_total.
        -- replace (2 * r + 2)%nat with (S (2 * r + 1)) in Hv by lia. simplify_eq. apply compare_refl.
      * split_and!; [lia|lia|]. intros c [->| ->] Hlt; intros u v Hu Hv.
        -- simplify_eq. apply compare_refl.
        -- replace (2 * r + 2)%nat with (S (2 * r + 1)) in Hv by lia. by simplify_eq.
    + split_and!; [lia|lia|]. intros c [->| ->] Hlt; [|lia].
      intros u v Hu Hv. simplify_eq. apply compare_refl.
  - split_and!; [lia|lia|]. intros c [->| ->] Hlt.
    + intros u v Hu Hv. simplify_eq. apply compare_refl.
    + intros u v Hu Hv. replace (2 * r + 2)%nat with (S (2 * r + 1)) in Hv by lia. congruence.
Qed.

(** Invariant of the sifting loop started at [r0], now at [r]. *)
Definition sift_inv (r0 lim r : nat) (l : list A) : Prop :=
  (forall p c, (r0 <= p)%nat -> p <> r -> child p c -> (c < lim)%nat -> geL compare l p c) /\
  (forall p c, (r0 <= p)%nat -> child p r -> child r c -> (c < lim)%nat -> geL compare l p c).

Lemma sift_inv_done r0 lim r l :
  sift_inv r0 lim r l -> (forall c, child r c -> (c < lim)%nat -> geL compare l r c) ->
  heap_from compare r0 lim l.
Proof.
  intros [H _] Hr p c Hp Hc Hlt. destruct (decide (p = r)) as [->|]; [by apply Hr|by apply H].
Qed.

Lemma sift_inv_step r0 lim r c l : (r0 <= r)%nat -> (lim <= length l)%nat ->
  child r c -> (c < lim)%nat -> (forall d, child r d -> (d < lim)%nat -> geL compare l c d) ->
  geL compare l c r -> sift_inv r0 lim r l -> sift_inv r0 lim c (swap_nth l r c).
Proof.
  intros Hr0 Hl Hc Hlt Hbig Hcr [H1 H2]. unfold child in *.
  split; intros p d Hp; [intros Hpc Hd Hdl|intros Hpc Hd Hdl]; intros x y;
    unfold child in *; rewrite !swap_nth_lookup by lia.
  - destruct (decide (p = c)) as [->|]; [done|]. destruct (decide (p = r)) as [->|Hpr].
    + case_decide as Hdc; [subst; intros; by eapply Hcr|].
      case_decide; [lia|]. intros; by eapply (Hbig d).
    + case_decide as Hdc; [lia|]. case_decide as Hdr; [subst d|].
      * intros Hx Hy. by eapply (H2 p c).
      * intros Hx Hy. by eapply (H1 p d).
  - assert (p = r) as -> by lia. case_decide; [lia|]. case_decide as E; [|lia]. clear E.
    case_decide; [lia|]. case_decide; [lia|]. intros Hx Hy. by eapply (H1 c d); try lia.
Qed.

Lemma siftI_spec fuel r0 lim r l : (r0 <= r)%nat -> (lim <= length l)%nat ->
  (lim < r + fuel)%nat -> sift_inv r0 lim r l ->
  let l' := siftI compare fuel lim r l in
  heap_from compare r0 lim l' /\ l' ≡ₚ l
  /\ (forall k, (lim <= k)%nat -> l' !! k = l !! k)
  /\ (forall P : A -> Prop, (forall k x, (k < lim)%nat -> l !! k = Some x -> P x) ->
       forall k x, (k < lim)%nat -> l' !! k = Some x -> P x).
Proof.
  revert r l; induction fuel as [|fuel IH]; intros r l Hr Hl Hf Hinv; simpl.
  - split_and!; [|done|done|done]. apply (sift_inv_done _ _ r); [done|].
    intros c Hc Hlt. unfold child in Hc. lia.
  - case_decide as Hlim.
    2: { split_and!; [|done|done|done]. apply (sift_inv_done _ _ r); [done|].
         intros c Hc Hlt. unfold child in Hc. lia. }
    destruct (big_child_spec lim r l Hlim Hl) as (Hc & Hclt & Hbig).
    set (c := big_child compare lim r l) in *. unfold child in Hc.
    destruct (lookup_lt_is_Some_2 l r) as [x Hx]; [lia|].
    destruct (lookup_lt_is_Some_2 l c) as [y Hy]; [lia|]. rewrite Hx, Hy.
    destruct (Z.leb_spec 0 (compare x y)) as [Hxy|Hxy].
    + split_and!; [|done|done|done]. apply (sift_inv_done _ _ r); [done|].
      intros d Hd Hdl u v Hu Hv. simplify_eq.
      eapply compare_trans; [exact Hxy|]. by eapply Hbig.
    + destruct (IH c (swap_nth l r c)) as (I1 & I2 & I3 & I4).
      * lia.
      * by rewrite swap_nth_length.
      * lia.
      * apply sift_inv_step; try done. intros u v Hu Hv. simplify_eq. by apply compare_total.
      * split_and!; [done| | |].
        -- rewrite I2. apply swap_nth_perm; lia.
        -- intros k Hk. rewrite I3 by lia. rewrite swap_nth_lookup by lia.
           case_decide; [lia|]. case_decide; [lia|done].
        -- intros P HP. apply I4. apply swap_nth_prefix; [lia|lia|done|done].
Qed.

Lemma heap_from_S_inv r lim l : heap_from compare (S r) lim l -> sift_inv r lim r l.
Proof.
  intros H. split.
  - intros p c Hp Hne Hc Hlt. apply H; [lia|done|done].
  - intros p c Hp Hpr Hrc Hlt. unfold child in Hpr. lia.
Qed.

(** The root of a heap dominates it. *)
Lemma heap_root_max lim l k : heap_from compare 0 lim l -> (lim <= length l)%nat ->
  (k < lim)%nat -> geL compare l 0 k.
Proof.
  intros H Hl. induction k as [k IH] using lt_wf_ind. intros Hk.
  destruct (decide (k = 0)%nat) as [->|Hk0].
  { intros x y Hx Hy. simplify_eq. apply compare_refl. }
  set (p := ((k - 1) / 2)%nat).
  assert (Hp : child p k).
  { unfold child, p. pose proof (Nat.div_mod_eq (k - 1) 2).
    pose proof (Nat.mod_upper_bound (k - 1) 2). lia. }
  assert (p < k)%nat by (unfold child in Hp; lia).
  destruct (lookup_lt_is_Some_2 l p) as [z Hz]; [lia|].
  intros x y Hx Hy. eapply compare_trans; [apply (IH p); [lia|lia|done|exact Hz]|].
  by eapply (H p k); [lia|..].
Qed.

End SiftCorrect.

(** ** From byte offsets to indices *)

Section Offsets.
Context {A : Type} (size : Z) (compare : A -> A -> Z) `{!CompareLaws compare}.
Hypothesis size_pos : 0 < size.

Lemma elem_at_index (l : list A) k x : l !! k = Some x -> elem_at size l (size * Z.of_nat k) = Ret x.
Proof.
  intros H. unfold elem_at. rewrite Z.mul_comm, Z.mod_mul, Z.div_mul by lia. simpl.
  unfold zlookup. destruct (Z.leb_spec 0 (Z.of_nat k)); [|lia]. by rewrite Nat2Z.id, H.
Qed.

Lemma default_swap_index (l : list A) a b : (a < length l)%nat -> (b < length l)%nat ->
  default_swap size l (size * Z.of_nat a) (size * Z.of_nat b) = Ret (swap_nth l a b).
Proof.
  intros Ha Hb. unfold default_swap, swap_nth.
  destruct (lookup_lt_is_Some_2 l a Ha) as [x Hx], (lookup_lt_is_Some_2 l b Hb) as [y Hy].
  rewrite (elem_at_index _ _ _ Hx). cbn [bindO]. rewrite (elem_at_index _ _ _ Hy), Hx, Hy. cbn [bindO].
  rewrite !(Z.mul_comm size), !Z.div_mul by lia.
  rewrite zupdate_lt by lia. cbn [of_option bindO]. rewrite zupdate_lt by (rewrite length_insert; lia).
  simpl. by rewrite !Nat2Z.id.
Qed.

Lemma sift_siftI fuel lim r (l : list A) :
  (r < lim)%nat -> (lim <= length l)%nat -> size * Z.of_nat (length l) < 2 ^ 31 ->
  (lim < r + fuel)%nat ->
  sift size compare (default_swap size) fuel (size * Z.of_nat lim) (size * Z.of_nat r) l
  = Ret (siftI compare fuel lim r l).
Proof.
  revert r l; induction fuel as [|fuel IH]; intros r l Hr Hl Hb Hf; [lia|].
  cbn [sift siftI].
  assert (size * Z.of_nat lim <= size * Z.of_nat (length l)) by nia.
  assert (size * (Z.of_nat r + 1) <= size * Z.of_nat lim) by nia.
  replace (size * Z.of_nat r * 2 + size) with (size * Z.of_nat (2 * r + 1)) by lia.
  rewrite (u32_id (size * Z.of_nat lim)), (u32_id (size * Z.of_nat (2 * r + 1))) by nia.
  destruct (Z.ltb_spec (size * Z.of_nat (2 * r + 1)) (size * Z.of_nat lim)) as [Hc|Hc];
    case_decide as Hd; [|nia|nia|done].
  rewrite (s32_id (size * Z.of_nat (2 * r + 1))) by nia.
  destruct (lookup_lt_is_Some_2 l (2 * r + 1)) as [x Hx]; [lia|].
  set (c := big_child compare lim r l).
  assert (Hchild : (if u32 (size * Z.of_nat (2 * r + 1)) <? u32 (size * Z.of_nat lim - size)
      then let* x := elem_at size l (size * Z.of_nat (2 * r + 1)) in
           let* y := elem_at size l (size * Z.of_nat (2 * r + 1) + size) in
           Ret (if compare x y <? 0 then s32 (size * Z.of_nat (2 * r + 1) + size)
                else size * Z.of_nat (2 * r + 1))
      else Ret (size * Z.of_nat (2 * r + 1))) = Ret (size * Z.of_nat c)).
  { rewrite (u32_id (size * Z.of_nat (2 * r + 1))), (u32_id (size * Z.of_nat lim - size)) by nia.
    replace (size * Z.of_nat (2 * r + 1) + size) with (size * Z.of_nat (S (2 * r + 1))) by lia.
    unfold c, big_child. rewrite Hx.
    destruct (Z.ltb_spec (size * Z.of_nat (2 * r + 1)) (size * Z.of_nat lim - size)).
    - assert (S (2 * r + 1) < lim)%nat by nia.
      destruct (lookup_lt_is_Some_2 l (S (2 * r + 1))) as [y Hy]; [lia|].
      rewrite (elem_at_index _ _ _ Hx). cbn [bindO]. rewrite (elem_at_index _ _ _ Hy), Hy. cbn [bindO].
      rewrite decide_True by done. rewrite s32_id by nia. by destruct (compare x y <? 0).
    - destruct (l !! S (2 * r + 1)); [|done]. rewrite decide_False; [done|nia]. }
  rewrite Hchild. cbn [bindO]. clear Hchild Hc.
  destruct (big_child_spec compare lim r l Hd Hl) as (Hch & Hclt & _). fold c in Hch, Hclt.
  unfold child in Hch.
  destruct (lookup_lt_is_Some_2 l r) as [u Hu]; [lia|].
  destruct (lookup_lt_is_Some_2 l c) as [v Hv]; [lia|].
  rewrite (elem_at_index _ _ _ Hu), Hu. cbn [bindO]. rewrite (elem_at_index _ _ _ Hv), Hv. cbn [bindO].
  destruct (0 <=? compare u v); [done|].
  rewrite default_swap_index by lia. cbn [bindO].
  apply IH; rewrite ?swap_nth_length; lia.
Qed.

Lemma heapify_spec fuel sfuel lim k (l : list A) :
  lim = length l -> size * Z.of_nat lim < 2 ^ 31 -> (k <= lim)%nat -> (lim < sfuel)%nat ->
  (k < fuel)%nat -> heap_from compare k lim l ->
  exists l', heapify size compare (default_swap size) fuel sfuel (size * Z.of_nat lim)
      (size * (Z.of_nat k - 1)) l = Ret l'
    /\ heap_from compare 0 lim l' /\ l' ≡ₚ l.
Proof.
  revert k l; induction fuel as [|fuel IH]; intros k l El Hb Hk Hs Hf Hh; [lia|].
  cbn [heapify]. destruct k as [|k].
  - destruct (Z.leb_spec 0 (size * (Z.of_nat 0 - 1))); [lia|]. eauto.
  - replace (Z.of_nat (S k) - 1) with (Z.of_nat k) by lia.
    destruct (Z.leb_spec 0 (size * Z.of_nat k)); [|nia].
    rewrite sift_siftI by lia. cbn [bindO].
    destruct (siftI_spec compare sfuel k lim k l) as (S1 & S2 & _); [lia|lia|lia|by apply heap_from_S_inv|].
    rewrite s32_id by nia.
    replace (size * Z.of_nat k - size) with (size * (Z.of_nat k - 1)) by lia.
    pose proof (Permutation_length S2).
    destruct (IH k (siftI compare sfuel lim k l)) as (l' & E & H1 & H2); [lia|lia|lia|lia|lia|done|].
    exists l'. split_and!; [done|done|]. by rewrite H2.
Qed.

(** One round of the second phase: the maximum goes to place [i] and the
    rest is a heap again. *)
Lemma sort_round sfuel i (l : list A) :
  (0 < i)%nat -> (i < length l)%nat -> (length l < sfuel)%nat ->
  heap_from compare 0 (S i) l -> suffix_done compare (S i) l ->
  let l' := siftI compare sfuel i 0 (swap_nth l 0 i) in
  heap_from compare 0 i l' /\ suffix_done compare i l' /\ l' ≡ₚ l.
Proof.
  intros Hi Hl Hs Hh Hd l'.
  destruct (siftI_spec compare sfuel 0 i 0 (swap_nth l 0 i)) as (S1 & S2 & S3 & S4).
  { lia. } { rewrite swap_nth_length; lia. } { lia. }
  { apply heap_from_S_inv. intros p c Hp Hc Hlt x y. unfold child in Hc.
    rewrite !swap_nth_lookup by lia.
    destruct (decide (p = i)); [lia|]. destruct (decide (p = 0%nat)); [lia|].
    destruct (decide (c = i)); [lia|]. destruct (decide (c = 0%nat)); [lia|].
    intros Hx Hy. eapply (Hh p c); [lia|done|lia|done|done]. }
  fold l' in S1, S2, S3, S4. split_and!; [done| |].
  2: { rewrite S2. apply swap_nth_perm; lia. }
  destruct (lookup_lt_is_Some_2 l 0) as [top Htop]; [lia|].
  intros j k Hj Hk x y Hx Hy.
  (* every element of the prefix and the one at [i] is at most the old root *)
  assert (Hpre : forall v, l' !! k = Some v -> (k <= i)%nat -> 0 <= compare top v).
  { intros v Hv Hki. destruct (decide (k = i)) as [->|].
    - rewrite S3, swap_nth_lookup in Hv by lia. rewrite decide_True in Hv by done.
      rewrite Htop in Hv. simplify_eq. by apply compare_refl.
    - eapply (S4 (fun v => 0 <= compare top v)); [|assert (k < i)%nat by lia; done|exact Hv].
      intros q w Hq Hw. rewrite swap_nth_lookup in Hw by lia.
      destruct (decide (q = i)); [lia|]. case_decide as E; eapply (heap_root_max compare (S i) l);
        try done; lia. }
  rewrite S3, swap_nth_lookup in Hx by lia.
  destruct (decide (j = i)) as [->|Hji].
  - rewrite Htop in Hx. simplify_eq. apply Hpre; [done|lia].
  - destruct (decide (j = 0%nat)); [lia|].
    destruct (decide (k <= i)%nat) as [Hki|Hki].
    + eapply compare_trans; [|by apply Hpre].
      eapply (Hd j 0%nat); [lia|lia|exact Hx|exact Htop].
    + rewrite S3, swap_nth_lookup in Hy by lia. destruct (decide (k = i)); [lia|].
      destruct (decide (k = 0%nat)); [lia|]. by eapply (Hd j k); [lia|lia|..].
Qed.

Lemma sort_loop_spec fuel sfuel i (l : list A) :
  (i < length l)%nat -> size * Z.of_nat (length l) < 2 ^ 31 -> (length l < sfuel)%nat ->
  (i < fuel)%nat -> heap_from compare 0 (S i) l -> suffix_done compare (S i) l ->
  exists l', sort_loop size compare (default_swap size) fuel sfuel (size * Z.of_nat i) l = Ret l'
    /\ ascending compare l' /\ l' ≡ₚ l.
Proof.
  revert i l; induction fuel as [|fuel IH]; intros i l Hi Hb Hs Hf Hh Hd; [lia|].
  cbn [sort_loop]. destruct i as [|i].
  - destruct (Z.ltb_spec 0 (size * Z.of_nat 0)); [lia|]. exists l. split_and!; [done| |done].
    intros a b Hab x y Hx Hy. destruct (decide (b = 0%nat)) as [->|].
    + assert (a = 0%nat) as -> by lia. simplify_eq. by apply compare_refl.
    + by eapply (Hd b a); [lia|lia|..].
  - destruct (Z.ltb_spec 0 (size * Z.of_nat (S i))); [|nia].
    pose proof (default_swap_index l 0 (S i) ltac:(lia) ltac:(lia)) as Hsw.
    replace (size * Z.of_nat 0) with 0 in Hsw by lia. rewrite Hsw. cbn [bindO].
    pose proof (sift_siftI sfuel (S i) 0 (swap_nth l 0 (S i))) as Hsi.
    rewrite swap_nth_length in Hsi. replace (size * Z.of_nat 0) with 0 in Hsi by lia.
    rewrite Hsi by lia. cbn [bindO].
    destruct (sort_round sfuel (S i) l) as (R1 & R2 & R3); [lia|lia|lia|done|done|].
    pose proof (Permutation_length R3) as Hlen. rewrite s32_id by nia.
    replace (size * Z.of_nat (S i) - size) with (size * Z.of_nat i) by lia.
    destruct (IH i (siftI compare sfuel (S i) 0 (swap_nth l 0 (S i)))) as (l' & E & H1 & H2);
      [lia|by rewrite Hlen|lia|lia|done|done|].
    exists l'. split_and!; [done|done|]. by rewrite H2.
Qed.

End Offsets.

(** ** The byte-level exchanges do exchange *)

Lemma mapped_bytes_at m p l : bytes_at m p l -> mapped m p (zlen l).
Proof.
  revert p; induction l as [|b l IH]; intros p; simpl.
  - intros _ i Hi. unfold zlen in Hi; simpl in Hi; lia.
  - intros [E B] i Hi. rewrite zlen_cons in Hi.
    destruct (Z.eq_dec i 0) as [->|]; [rewrite Z.add_0_r; by eexists|].
    specialize (IH (p + 1) B (i - 1)). replace (p + i) with (p + 1 + (i - 1)) by lia. apply IH. lia.
Qed.

(** [m'] is [m] with the blocks at [a] and [b] holding [ys] and [xs]. *)
Definition exchanged (m m' : mem) (a b : Z) (xs ys : list Z) : Prop :=
  bytes_at m' a ys /\ bytes_at m' b xs /\
  forall p, ~ (a <= p < a + zlen ys) -> ~ (b <= p < b + zlen xs) -> m' !! p = m !! p.

Lemma genericSwap_exchanges fuel a b xs ys m :
  bytes_at m a xs -> bytes_at m b ys -> length xs = length ys -> xs <> [] ->
  Forall is_byte xs -> Forall is_byte ys -> disjoint_regions a (zlen xs) b (zlen xs) ->
  zlen xs < 2 ^ 31 -> (length xs <= fuel)%nat ->
  exists m', genericSwap fuel a b (zlen xs) m = Ret m' /\ exchanged m m' a b xs ys.
Proof.
  revert a b xs ys m; induction fuel as [|fuel IH];
    intros a b xs ys m Bx By El Hn Fx Fy D Hs Hf; [destruct xs; [done|simpl in Hf; lia]|].
  destruct xs as [|x xs], ys as [|y ys]; try done. cbn [genericSwap].
  pose proof (mapped_bytes_at _ _ _ Bx) as Mx. pose proof (mapped_bytes_at _ _ _ By) as My.
  destruct Bx as [Ex Bx], By as [Ey By].
  apply Forall_cons in Fx as [Hx Fx]. apply Forall_cons in Fy as [Hy Fy].
  unfold load. rewrite Ex, Ey. cbn [of_option bindO]. rewrite !zlen_cons in *.
  pose proof (zlen_nonneg xs). simpl in El.
  assert (Eyl : zlen ys = zlen xs) by (unfold zlen; lia).
  rewrite (store_byte _ _ _ _ Mx) by (done || lia). cbn [bindO].
  rewrite (store_byte _ _ _ (zlen ys + 1)) by (done || lia || by apply mapped_write). cbn [bindO].
  rewrite s32_id by lia. replace (zlen xs + 1 - 1) with (zlen xs) by lia.
  unfold disjoint_regions in D. cbn [write].
  set (m1 := <[b := x]> (<[a := y]> m)).
  assert (Ea : m1 !! a = Some y) by (unfold m1; rewrite lookup_insert_ne by lia; apply lookup_insert_eq).
  assert (Eb : m1 !! b = Some x) by apply lookup_insert_eq.
  assert (Eo : forall p, p <> a -> p <> b -> m1 !! p = m !! p)
    by (intros; unfold m1; by rewrite !lookup_insert_ne).
  assert (Bx1 : bytes_at m1 (a + 1) xs)
    by (eapply bytes_at_agree; [|exact Bx]; intros; apply Eo; lia).
  assert (By1 : bytes_at m1 (b + 1) ys)
    by (eapply bytes_at_agree; [|exact By]; intros; apply Eo; lia).
  destruct (Z.ltb_spec 0 (zlen xs)) as [Hp|Hp].
  - destruct (IH (a + 1) (b + 1) xs ys m1) as (m' & E & G1 & G2 & G3); try done.
    { lia. } { by intros ->. } { unfold disjoint_regions; lia. } { lia. } { simpl in Hf; lia. }
    exists m'. split; [done|]. split_and!; simpl; rewrite ?zlen_cons.
    + split; [|done]. rewrite G3 by lia. done.
    + split; [|done]. rewrite G3 by lia. done.
    + intros p H1 H2. rewrite G3 by lia. apply Eo; lia.
  - assert (xs = []) as -> by (destruct xs; [done|rewrite zlen_cons in Hp; pose proof (zlen_nonneg xs); lia]).
    destruct ys; [|done]. exists m1. split; [done|]. split_and!; simpl; [done|done|].
    change (zlen [y]) with 1. change (zlen [x]) with 1. intros. apply Eo; lia.
Qed.

Lemma u32Swap_exchanges a b x0 x1 x2 x3 y0 y1 y2 y3 m :
  bytes_at m a [x0; x1; x2; x3] -> bytes_at m b [y0; y1; y2; y3] ->
  Forall is_byte [x0; x1; x2; x3] -> Forall is_byte [y0; y1; y2; y3] ->
  disjoint_regions a 4 b 4 ->
  exists m', u32Swap a b m = Ret m' /\ exchanged m m' a b [x0; x1; x2; x3] [y0; y1; y2; y3].
Proof.
  intros Bx By Fx Fy D. rewrite !Forall_cons in Fx, Fy. destruct_and!.
  pose proof (mapped_bytes_at _ _ _ Bx) as Mx. pose proof (mapped_bytes_at _ _ _ By) as My.
  change (mapped m a 4) in Mx. change (mapped m b 4) in My.
  unfold u32Swap. rewrite (load32_bytes _ _ _ _ _ _ Bx). cbn [bindO].
  rewrite (load32_bytes _ _ _ _ _ _ By). cbn [bindO]. rewrite store32_bytes by done. cbn [bindO].
  rewrite store32_bytes by (done || by apply mapped_write).
  unfold disjoint_regions in D. eexists; split; [done|]. split_and!.
  - apply bytes_at_write_disjoint; [unfold disjoint_regions, zlen; simpl; lia|apply write_bytes].
  - apply write_bytes.
  - intros p H1' H2'. rewrite !write_other; done.
Qed.

(** ** Property *)

Lemma heap_from_leaves {A} (compare : A -> A -> Z) n (l : list A) :
  heap_from compare (n / 2) n l.
Proof.
  intros p c Hp Hc Hlt. unfold child in Hc.
  pose proof (Nat.div_mod_eq n 2). pose proof (Nat.mod_upper_bound n 2). lia.
Qed.

(** The offset of the last parent, with the wrap-around of the code when
    there is none. *)
Lemma first_parent_offset num size : 0 <= num -> 0 < size < 2 ^ 31 -> num * size < 2 ^ 31 ->
  s32 (u32 (u32 (num / 2 - 1) * size)) = size * (num / 2 - 1).
Proof.
  intros Hn Hs Hb. assert (0 <= num / 2) by (apply Z.div_pos; lia).
  assert (2 * (num / 2) <= num) by (apply Z.mul_div_le; lia).
  destruct (Z.eq_dec (num / 2) 0) as [E|E].
  - rewrite E. change (u32 (0 - 1)) with (2 ^ 32 - 1). unfold u32.
    replace ((2 ^ 32 - 1) * size) with (2 ^ 32 - size + (size - 1) * 2 ^ 32) by lia.
    rewrite Z_mod_plus_full, Z.mod_small by lia. unfold s32.
    replace (2 ^ 32 - size + 2 ^ 31) with (2 ^ 31 - size + 1 * 2 ^ 32) by lia.
    rewrite Z_mod_plus_full, Z.mod_small by lia. lia.
  - assert (size * (num / 2 - 1) <= size * num) by nia.
    rewrite (u32_id (num / 2 - 1)) by nia. rewrite u32_id by nia. rewrite s32_id by nia. lia.
Qed.

(** C30: Sort with a NULL swap callback returns a permutation of its array
    in ascending order of the comparison callback, for every array whose
    byte size is below 2^31 (the offsets are ints), whenever the callback is
    a total preorder; [num + 1] iterations of each loop are enough. *)
Theorem Sort_sorts {A} fuel (l : list A) size compare :
  CompareLaws compare -> 0 < size < 2 ^ 31 ->
  Z.of_nat (length l) * size < 2 ^ 31 -> (length l < fuel)%nat ->
  exists l', Sort fuel l (Z.of_nat (length l)) size compare None = Ret l'
    /\ ascending compare l' /\ l' ≡ₚ l.
Proof.
  intros Hc Hs Hb Hf. unfold Sort.
  rewrite first_parent_offset by lia. rewrite u32_id by lia. rewrite (s32_id (_ * size)) by lia.
  assert (Hdiv : (length l / 2 <= length l)%nat) by (apply Nat.Div0.div_le_upper_bound; lia).
  destruct (heapify_spec size compare ltac:(lia) fuel fuel (length l) (length l / 2) l)
    as (l1 & E1 & H1 & P1); try done; [lia|lia|apply heap_from_leaves|].
  rewrite (Z.mul_comm _ size). rewrite Nat2Z.inj_div in E1. change (Z.of_nat 2) with 2 in E1. rewrite E1. cbn [bindO].
  pose proof (Permutation_length P1) as El. destruct (length l) as [|n] eqn:En.
  - apply nil_length_inv in El as ->. exists []. split_and!; [|by intros ? ? ? ? ?|done].
    destruct fuel as [|fuel]; [lia|]. cbn [sort_loop]. rewrite s32_id by lia.
    destruct (Z.ltb_spec 0 (size * Z.of_nat 0 - size)); [lia|done].
  - rewrite s32_id by nia. replace (size * Z.of_nat (S n) - size) with (size * Z.of_nat n) by lia.
    destruct (sort_loop_spec size compare ltac:(lia) fuel fuel n l1) as (l' & E2 & A2 & P2);
      [lia|lia|lia|lia|done| |].
    { intros j k Hj _ x y Hx _. apply lookup_lt_Some in Hx. lia. }
    exists l'. split_and!; [done|done|]. by rewrite P2.
Qed.

#[export] Instance Z_sub_CompareLaws : CompareLaws Z.sub.
Proof. split; lia. Qed.

Lemma Sort_sorts_witness :
  exists l', Sort 6 [3; 9; 1; 4; 4] 5 4 Z.sub None = Ret l'
    /\ ascending Z.sub l' /\ l' ≡ₚ [3; 9; 1; 4; 4].
Proof.
  apply (Sort_sorts 6 [3; 9; 1; 4; 4] 4 Z.sub).
  - apply _.
  - lia.
  - by vm_compute.
  - simpl; lia.
Defined.

Example Sort_runs : Sort 6 [3; 9; 1; 4; 4] 5 4 Z.sub None = Ret [1; 3; 4; 4; 9].
Proof. vm_compute. reflexivity. Qed.
