(* ===== verification/Printf.v ===== *)
(** * Formatted printing (lib/vsprintf.c)

    vsnprintf and its helpers write through a pointer [str] that is
    compared with the end of the buffer before every store and advanced in
    any case, so that the return value is meant to be the length of the
    whole text whatever the size of the buffer; vasprintf relies on that.
    The state of a run is the pair of [str] and memory.  The format is the
    list of its characters (a NUL reads as the end of the list) and the
    variable arguments are the list of 32-bit words on the stack. *)

From S2P Require Import Prelude CString.

(** ** Model *)

Definition SIGN : Z := 1.
Definition ZEROPAD : Z := 2.
Definition PLUS : Z := 4.
Definition SPACE : Z := 8.
Definition LEFT : Z := 16.
Definition SPECIAL : Z := 32.
Definition SMALL : Z := 64.

Definition flag (type f : Z) : bool := c_true (Z.land type f).

Definition is_digit (c : Z) : bool := (48 <=? c) && (c <=? 57).

(** [divl]: the 64-bit value [hi:lo] divided by [d]; it traps when the
    quotient does not fit. *)
Definition divl (hi lo d : Z) : outcome (Z * Z) :=
  if d =? 0 then Fault
  else let n := hi * 2 ^ 32 + lo in
       if n / d <? 2 ^ 32 then Ret (n / d, n mod d) else Fault.

(** The do_div macro: the new value of [n] and the remainder. *)
Definition do_div (n base : Z) : outcome (Z * Z) :=
  let low := n mod 2 ^ 32 in
  let high := n / 2 ^ 32 in
  let '(upper, high) := if c_true high then (high mod base, high / base) else (high, high) in
  let* (low, rem) := divl upper low base in
  Ret (high * 2 ^ 32 + low, rem).

(** The characters of the two digit strings. *)
Definition upper_digits : list Z :=
  [48; 49; 50; 51; 52; 53; 54; 55; 56; 57; 65; 66; 67; 68; 69; 70; 71; 72; 73; 74; 75; 76; 77;
   78; 79; 80; 81; 82; 83; 84; 85; 86; 87; 88; 89; 90].
Definition lower_digits : list Z :=
  [48; 49; 50; 51; 52; 53; 54; 55; 56; 57; 97; 98; 99; 100; 101; 102; 103; 104; 105; 106; 107;
   108; 109; 110; 111; 112; 113; 114; 115; 116; 117; 118; 119; 120; 121; 122].

(** [if (str < end) *str = c; str++]; the pointer wraps at the end of the
    address space. *)
Definition put (end_ c : Z) (st : Z * mem) : outcome (Z * mem) :=
  let '(str, m) := st in
  if str <? end_ then let* m := store m str c in Ret (u32 (str + 1), m) else Ret (u32 (str + 1), m).

(** [while (size-- > 0) put(c)]; the final value of [size] is returned. *)
Fixpoint pad_loop (fuel : nat) (end_ size c : Z) (st : Z * mem) : outcome (Z * (Z * mem)) :=
  match fuel with
  | O => NoFuel
  | S fuel =>
      if 0 <? size then let* st := put end_ c st in pad_loop fuel end_ (size - 1) c st
      else Ret (size - 1, st)
  end.

(** [while (i < precision--) put('0')]. *)
Fixpoint zeros_loop (fuel : nat) (end_ i precision : Z) (st : Z * mem) : outcome (Z * mem) :=
  match fuel with
  | O => NoFuel
  | S fuel =>
      if i <? precision then let* st := put end_ 48 st in zeros_loop fuel end_ i (precision - 1) st
      else Ret st
  end.

(** [while (num != 0) tmp[i++] = digits[do_div(num, base)]]; the digits are
    returned in the order they are stored and the array has 36 entries. *)
Fixpoint digits_loop (fuel : nat) (digits : list Z) (num base i : Z) : outcome (list Z) :=
  match fuel with
  | O => NoFuel
  | S fuel =>
      if num =? 0 then Ret []
      else
        let* (num, rem) := do_div num base in
        let* d := of_option (zlookup digits rem) in
        if i <? 36 then let* tmp := digits_loop fuel digits num base (i + 1) in Ret (d :: tmp)
        else Fault
  end.

(** [while (i-- > 0) put(tmp[i])]. *)
Fixpoint tmp_loop (i : nat) (end_ : Z) (tmp : list Z) (st : Z * mem) : outcome (Z * mem) :=
  match i with
  | O => Ret st
  | S i => let* d := of_option (tmp !! i) in
           let* st := put end_ d st in tmp_loop i end_ tmp st
  end.

(** [number]; a return of NULL is address 0.  [fuel] bounds the padding
    loops (65 rounds are enough for the digits of a 64-bit value). *)
Definition number (fuel : nat) (end_ num base size precision type : Z) (st : Z * mem)
    : outcome (Z * mem) :=
  let digits := if flag type SMALL then lower_digits else upper_digits in
  let type := if flag type LEFT then Z.land type (Z.lnot ZEROPAD) else type in
  if (base <? 2) || (36 <? base) then Ret (0, snd st)
  else
    let c := if flag type ZEROPAD then 48 else 32 in
    let '(sign, num) :=
      if flag type SIGN && (s64 num <? 0) then (45, u64 (- s64 num))
      else ((if flag type PLUS then 43 else if flag type SPACE then 32 else 0), num) in
    let size := if c_true sign then size - 1 else size in
    let size := if flag type SPECIAL
                then if base =? 16 then size - 2 else if base =? 8 then size - 1 else size
                else size in
    let* tmp := if num =? 0 then Ret [48] else digits_loop 65 digits num base 0 in
    let i := Z.of_nat (length tmp) in
    let precision := if precision <? i then i else precision in
    let size := size - precision in
    let* (size, st) := if negb (flag type (ZEROPAD + LEFT)) then pad_loop fuel end_ size 32 st
                       else Ret (size, st) in
    let* st := if c_true sign then put end_ sign st else Ret st in
    let* st := if flag type SPECIAL && (fst st <? end_) then
                 if base =? 8 then put end_ 48 st
                 else if base =? 16 then
                   let* st := put end_ 48 st in
                   let* x := of_option (zlookup digits 33) in put end_ x st
                 else Ret st
               else Ret st in
    let* (size, st) := if negb (flag type LEFT) then pad_loop fuel end_ size c st
                       else Ret (size, st) in
    let* st := zeros_loop fuel end_ i precision st in
    let* st := tmp_loop (length tmp) end_ tmp st in
    let* (_, st) := pad_loop fuel end_ size 32 st in
    Ret st.

(** skip_atoi: the value and the rest of the format. *)
Fixpoint skip_atoi (i : Z) (s : list Z) : Z * list Z :=
  match s with
  | c :: s' => if is_digit c then skip_atoi (s32 (i * 10 + c - 48)) s' else (i, s)
  | [] => (i, s)
  end.

(** VaArg: the next word. *)
Definition VaArg (args : list Z) : outcome (Z * list Z) :=
  match args with a :: args => Ret (a, args) | [] => Fault end.

Definition cur (fmt : list Z) : Z := match fmt with c :: _ => c | [] => 0 end.

(** The flag characters after a percent sign (the [repeat] label). *)
Fixpoint scan_flags (flags : Z) (fmt : list Z) : Z * list Z :=
  match fmt with
  | c :: rest =>
      if c =? 45 then scan_flags (Z.lor flags LEFT) rest
      else if c =? 43 then scan_flags (Z.lor flags PLUS) rest
      else if c =? 32 then scan_flags (Z.lor flags SPACE) rest
      else if c =? 35 then scan_flags (Z.lor flags SPECIAL) rest
      else if c =? 48 then scan_flags (Z.lor flags ZEROPAD) rest
      else (flags, fmt)
  | [] => (flags, fmt)
  end.

(** The field width. *)
Definition scan_width (flags : Z) (fmt args : list Z) : outcome (Z * Z * list Z * list Z) :=
  if is_digit (cur fmt) then
    let '(w, fmt) := skip_atoi 0 fmt in Ret (flags, w, fmt, args)
  else if cur fmt =? 42 then
    let* (a, args) := VaArg args in
    let w := s32 a in
    if w <? 0 then Ret (Z.lor flags LEFT, s32 (- w), fmt, args) else Ret (flags, w, fmt, args)
  else Ret (flags, -1, fmt, args).

(** The precision. *)
Definition scan_precision (fmt args : list Z) : outcome (Z * list Z * list Z) :=
  if cur fmt =? 46 then
    let fmt := tail fmt in
    let* (p, fmt, args) :=
      if is_digit (cur fmt) then let '(p, fmt) := skip_atoi 0 fmt in Ret (p, fmt, args)
      else if cur fmt =? 42 then let* (a, args) := VaArg args in Ret (s32 a, fmt, args)
      else Ret (-1, fmt, args) in
    Ret ((if p <? 0 then 0 else p), fmt, args)
  else Ret (-1, fmt, args).

(** The length qualifier, which is read and ignored. *)
Definition scan_qualifier (fmt : list Z) : list Z :=
  let c := cur fmt in
  if (c =? 104) || (c =? 108) || (c =? 76) then tail fmt else fmt.

(** [while (--fieldWidth > 0) put(' ')]. *)
Fixpoint pre_pad_loop (fuel : nat) (end_ w : Z) (st : Z * mem) : outcome (Z * (Z * mem)) :=
  match fuel with
  | O => NoFuel
  | S fuel =>
      let w := w - 1 in
      if 0 <? w then let* st := put end_ 32 st in pre_pad_loop fuel end_ w st else Ret (w, st)
  end.

(** [while (len < fieldWidth--) put(' ')]. *)
Fixpoint width_loop (fuel : nat) (end_ len w : Z) (st : Z * mem) : outcome (Z * (Z * mem)) :=
  match fuel with
  | O => NoFuel
  | S fuel =>
      if len <? w then let* st := put end_ 32 st in width_loop fuel end_ len (w - 1) st
      else Ret (w - 1, st)
  end.

(** [while (len < fieldWidth--) if (str < end) *str++ = ' ']: unlike the
    other loops, this one advances [str] only while it is inside. *)
Fixpoint left_width_loop (fuel : nat) (end_ len w : Z) (st : Z * mem) : outcome (Z * mem) :=
  match fuel with
  | O => NoFuel
  | S fuel =>
      if len <? w then
        let '(str, m) := st in
        let* st := if str <? end_ then let* m := store m str 32 in Ret (u32 (str + 1), m)
                   else Ret (str, m) in
        left_width_loop fuel end_ len (w - 1) st
      else Ret st
  end.

(** The literal printed for a null string argument. *)
Definition null_text : list Z := [60; 78; 85; 76; 76; 62].

(** The characters of a string argument; the loop copies [len] of them. *)
Fixpoint copy_arg (n : nat) (end_ s i : Z) (st : Z * mem) : outcome (Z * mem) :=
  match n with
  | O => Ret st
  | S n =>
      let* c := if s =? 0 then of_option (zlookup (null_text ++ [0]) i) else load (snd st) (s + i) in
      let* st := put end_ c st in copy_arg n end_ s (i + 1) st
  end.

(** case 'c': the argument is fetched only when there is room to store it. *)
Definition format_c (fuel : nat) (end_ flags w : Z) (args : list Z) (st : Z * mem)
    : outcome (list Z * (Z * mem)) :=
  let* (w, st) := if negb (flag flags LEFT) then pre_pad_loop fuel end_ w st else Ret (w, st) in
  let '(str, m) := st in
  let* (args, m) := if str <? end_ then
                      let* (a, args) := VaArg args in
                      let* m := store m str (u8 a) in Ret (args, m)
                    else Ret (args, m) in
  let* (_, st) := pre_pad_loop fuel end_ w (u32 (str + 1), m) in
  Ret (args, st).

(** case 's'. *)
Definition format_s (fuel : nat) (end_ flags w precision : Z) (args : list Z) (st : Z * mem)
    : outcome (list Z * (Z * mem)) :=
  let* (s, args) := VaArg args in
  let* len := if s =? 0 then Ret (Z.of_nat (length null_text)) else strlen fuel s (snd st) in
  let len := if precision <? 0 then len else if precision <? len then precision else len in
  let* (w, st) := if negb (flag flags LEFT) then width_loop fuel end_ len w st else Ret (w, st) in
  let* st := copy_arg (Z.to_nat len) end_ s 0 st in
  let* st := left_width_loop fuel end_ len w st in
  Ret (args, st).

(** The conversion switch; [fmt] starts at the conversion character.  The
    default case stores '%' without advancing and then the character. *)
Definition convert (fuel : nat) (end_ flags w precision : Z) (fmt args : list Z) (st : Z * mem)
    : outcome (list Z * list Z * (Z * mem)) :=
  match fmt with
  | [] =>
      let '(str, m) := st in
      let* m := if str <? end_ then store m str 37 else Ret m in
      Ret ([], args, (str, m))
  | c :: rest =>
      let num base flags w :=
        let* (a, args) := VaArg args in
        let* st := number fuel end_ a base w precision flags st in
        Ret (rest, args, st) in
      if c =? 99 then let* (args, st) := format_c fuel end_ flags w args st in Ret (rest, args, st)
      else if c =? 115 then
        let* (args, st) := format_s fuel end_ flags w precision args st in Ret (rest, args, st)
      else if c =? 111 then num 8 flags w
      else if c =? 112 then
        if w =? -1 then num 16 (Z.lor flags ZEROPAD) 8 else num 16 flags w
      else if c =? 120 then num 16 (Z.lor flags SMALL) w
      else if c =? 88 then num 16 flags w
      else if (c =? 100) || (c =? 105) || (c =? 117) then
        let flags := if c =? 117 then flags else Z.lor flags SIGN in
        let* (a, args) := VaArg args in
        let n := if flag flags SIGN then u64 (s32 a) else a in
        let* st := number fuel end_ n 10 w precision flags st in
        Ret (rest, args, st)
      else
        let '(str, m) := st in
        let* m := if str <? end_ then store m str 37 else Ret m in
        let* m := if str <? end_ then store m str c else Ret m in
        Ret (rest, args, (u32 (str + 1), m))
  end.

(** The loop over the format. *)
Fixpoint format_loop (ffuel fuel : nat) (end_ : Z) (fmt args : list Z) (st : Z * mem)
    : outcome (Z * mem) :=
  match ffuel with
  | O => NoFuel
  | S ffuel =>
      match fmt with
      | [] => Ret st
      | c :: rest =>
          if negb (c =? 37) then
            let* st := put end_ c st in format_loop ffuel fuel end_ rest args st
          else
            let '(flags, fmt) := scan_flags 0 rest in
            let* (flags, w, fmt, args) := scan_width flags fmt args in
            let* (precision, fmt, args) := scan_precision fmt args in
            let fmt := scan_qualifier fmt in
            let* (fmt, args, st) := convert fuel end_ flags w precision fmt args st in
            format_loop ffuel fuel end_ fmt args st
      end
  end.

(** [buf] is an address, [size] an int. *)
Definition vsnprintf (fuel : nat) (buf size : Z) (fmt args : list Z) (m : mem)
    : outcome (Z * mem) :=
  let end_ := u32 (buf + size) in
  let '(end_, size) :=
    if end_ <? buf then (2 ^ 32 - 1, s32 (2 ^ 32 - 1 - buf)) else (end_, size) in
  let* (str, m) := format_loop (S (length fmt)) fuel end_ fmt args (buf, m) in
  let* m := if 0 <? size
            then if str <? end_ then store m str 0 else store m (end_ - 1) 0
            else Ret m in
  Ret (s32 (str - buf), m).

Definition vsprintf (fuel : nat) (buf : Z) (fmt args : list Z) (m : mem) : outcome (Z * mem) :=
  vsnprintf fuel buf 0x7fffffff fmt args m.

Definition snprintf (fuel : nat) (buf size : Z) (fmt args : list Z) (m : mem) : outcome (Z * mem) :=
  vsnprintf fuel buf (s32 size) fmt args m.

(** vasprintf, with the allocator as a parameter: one pass to measure, one
    to print. *)
Definition vasprintf (MemAlloc : Z -> mem -> outcome (Z * mem)) (fuel : nat) (fmt args : list Z)
    (m : mem) : outcome (Z * mem) :=
  let* (length, m) := vsnprintf fuel 0 0 fmt args m in
  let* (ret, m) := MemAlloc (length + 1) m in
  if ret =? 0 then Ret (0, m)
  else let* (_, m) := vsnprintf fuel ret (length + 1) fmt args m in Ret (ret, m).

(** ** Specification of the text of a number *)

(** Emitting a list of characters one by one. *)
Fixpoint emits (end_ : Z) (l : list Z) (st : Z * mem) : outcome (Z * mem) :=
  match l with
  | [] => Ret st
  | c :: l => let* st := put end_ c st in emits end_ l st
  end.

(** The digits of a positive value, least significant first. *)
Fixpoint digit_values (fuel : nat) (num base : Z) : list Z :=
  match fuel with
  | O => []
  | S fuel => if num =? 0 then [] else num mod base :: digit_values fuel (num / base) base
  end.

Fixpoint value_of (base : Z) (ds : list Z) : Z :=
  match ds with [] => 0 | d :: ds => d + base * value_of base ds end.

Definition digit_char (small : bool) (d : Z) : Z :=
  if d <? 10 then 48 + d else if small then 87 + d else 55 + d.

(** The digits of [num], most significant first. *)
Definition numeral (small : bool) (num base : Z) : list Z :=
  if num =? 0 then [48] else rev (map (digit_char small) (digit_values 65 num base)).

Definition repeatZ (n : Z) (c : Z) : list Z := replicate (Z.to_nat n) c.

(** The whole text [number] prints; [room] tells whether the position of
    the radix prefix is inside the buffer. *)
Definition number_lead (num base size precision type : Z) : list Z * list Z * Z :=
  let neg := flag type SIGN && (s64 num <? 0) in
  let sign := if neg then [45] else if flag type PLUS then [43]
              else if flag type SPACE then [32] else [] in
  let abs := if neg then u64 (- s64 num) else num in
  let prefix_len := if flag type SPECIAL then if base =? 16 then 2 else if base =? 8 then 1 else 0 else 0 in
  let ds := numeral (flag type SMALL) abs base in
  let zeros := precision - zlen ds in
  let room := size - zlen sign - prefix_len - Z.max precision (zlen ds) in
  let left := flag type LEFT in
  let zpad := flag type ZEROPAD && negb left in
  (repeatZ (if negb left && negb zpad then room else 0) 32 ++ sign,
   repeatZ (if negb left && zpad then room else 0) 48 ++ repeatZ zeros 48 ++ ds
     ++ repeatZ (if left then room else 0) 32,
   abs).

Definition radix_prefix (base type : Z) : list Z :=
  if flag type SPECIAL then
    if base =? 8 then [48] else if base =? 16 then [48; if flag type SMALL then 120 else 88] else []
  else [].

Definition number_text (room : bool) (num base size precision type : Z) : list Z :=
  let '(before, after, _) := number_lead num base size precision type in
  before ++ (if room then radix_prefix base type else []) ++ after.

(** ** The 64-bit division *)

Lemma divl_ok hi lo d : 0 <= hi < d -> 0 <= lo < 2 ^ 32 ->
  divl hi lo d = Ret ((hi * 2 ^ 32 + lo) / d, (hi * 2 ^ 32 + lo) mod d).
Proof.
  intros Hh Hl. unfold divl. zcases; try lia; [done|].
  exfalso. assert ((hi * 2 ^ 32 + lo) / d < 2 ^ 32); [|lia].
  apply Z.div_lt_upper_bound; nia.
Qed.

Lemma do_div_ok n base : 0 <= n < 2 ^ 64 -> 0 < base ->
  do_div n base = Ret (n / base, n mod base).
Proof.
  intros Hn Hb. unfold do_div.
  pose proof (Z.div_mod n (2 ^ 32) ltac:(lia)) as Hd.
  pose proof (Z.mod_pos_bound n (2 ^ 32) ltac:(lia)) as Hm.
  set (lo := n mod 2 ^ 32) in *. set (hi := n / 2 ^ 32) in *.
  assert (0 <= hi) by (apply Z.div_pos; lia).
  unfold c_true. destruct (Z.eqb_spec hi 0) as [E|E]; simpl.
  - rewrite E in *. rewrite divl_ok by lia. cbn [bindO].
    replace (0 * 2 ^ 32 + lo) with n by lia. by replace (0 * 2 ^ 32 + n / base) with (n / base) by lia.
  - pose proof (Z.mod_pos_bound hi base Hb). rewrite divl_ok by lia. cbn [bindO].
    pose proof (Z.div_mod hi base ltac:(lia)) as Hq.
    assert (En : n = hi mod base * 2 ^ 32 + lo + (hi / base * 2 ^ 32) * base) by nia.
    do 2 f_equal.
    + rewrite En, Z.div_add by lia. lia.
    + by rewrite En, Z_mod_plus_full.
Qed.

(** ** The loops emit lists *)

Lemma emits_app end_ l k st :
  emits end_ (l ++ k) st = let* st := emits end_ l st in emits end_ k st.
Proof.
  revert st; induction l as [|c l IH]; intros st; simpl; [done|].
  destruct (put end_ c st); simpl; done.
Qed.

Lemma emits_one end_ c st : emits end_ [c] st = put end_ c st.
Proof. simpl. by destruct (put end_ c st). Qed.

Lemma put_fst end_ c st st' : put end_ c st = Ret st' -> 0 <= fst st -> fst st + 1 < 2 ^ 32 -> fst st' = fst st + 1.
Proof.
  destruct st as [s m]. cbn [fst]. unfold put. intros E H0 H1. assert (u32 (s + 1) = s + 1) as Eu by (apply u32_id; lia). rewrite Eu in E.
  destruct (s <? end_); [destruct (store m s c); simpl in E; [|done..]|]; by injection E as <-.
Qed.

Lemma emits_fst end_ l st st' : emits end_ l st = Ret st' -> 0 <= fst st -> fst st + zlen l < 2 ^ 32 -> fst st' = fst st + zlen l.
Proof.
  revert st; induction l as [|c l IH]; intros st; simpl.
  - intros [= ->]. unfold zlen; simpl; lia.
  - destruct (put end_ c st) as [s1| | |] eqn:E; simpl; try done. rewrite zlen_cons. pose proof (zlen_nonneg l). intros E' H0 H1.
    apply put_fst in E; [|lia..]. apply IH in E'; lia.
Qed.

Lemma repeatZ_pos n c : 0 < n -> repeatZ n c = c :: repeatZ (n - 1) c.
Proof. intros. unfold repeatZ. by replace (Z.to_nat n) with (S (Z.to_nat (n - 1))) by lia. Qed.

Lemma repeatZ_neg n c : n <= 0 -> repeatZ n c = [].
Proof. intros. unfold repeatZ. by replace (Z.to_nat n) with 0%nat by lia. Qed.

Lemma pad_loop_emits fuel end_ size c st : (Z.to_nat size < fuel)%nat ->
  pad_loop fuel end_ size c st
  = let* st := emits end_ (repeatZ size c) st in Ret ((if 0 <? size then -1 else size - 1), st).
Proof.
  revert size st; induction fuel as [|fuel IH]; intros size st Hf; [lia|]. cbn [pad_loop].
  destruct (Z.ltb_spec 0 size).
  - rewrite repeatZ_pos by done. simpl. destruct (put end_ c st) as [s1| | |]; simpl; try done.
    rewrite IH by lia. destruct (emits _ _ s1); simpl; [|done..]. f_equal. f_equal. zcases; lia.
  - rewrite repeatZ_neg by done. done.
Qed.

Lemma zeros_loop_emits fuel end_ i p st : (Z.to_nat (p - i) < fuel)%nat ->
  zeros_loop fuel end_ i p st = emits end_ (repeatZ (p - i) 48) st.
Proof.
  revert p st; induction fuel as [|fuel IH]; intros p st Hf; [lia|]. cbn [zeros_loop].
  destruct (Z.ltb_spec i p).
  - rewrite repeatZ_pos by lia. simpl. destruct (put end_ 48 st); simpl; try done.
    rewrite IH by lia. by replace (p - 1 - i) with (p - i - 1) by lia.
  - by rewrite repeatZ_neg by lia.
Qed.

Lemma tmp_loop_emits i end_ tmp st : (i <= length tmp)%nat ->
  tmp_loop i end_ tmp st = emits end_ (rev (take i tmp)) st.
Proof.
  revert st; induction i as [|i IH]; intros st Hi; [done|]. cbn [tmp_loop].
  destruct (lookup_lt_is_Some_2 tmp i) as [d Hd]; [lia|]. rewrite Hd. cbn [of_option bindO].
  rewrite (take_S_r _ _ _ Hd), rev_app_distr. simpl.
  destruct (put end_ d st); simpl; [|done..]. apply IH. lia.
Qed.

(** ** The digits *)

Lemma digits_lookup (small : bool) d : 0 <= d < 36 ->
  zlookup (if small then lower_digits else upper_digits) d = Some (digit_char small d).
Proof.
  intros Hd. replace d with (Z.of_nat (Z.to_nat d)) by lia.
  assert (Hn : (Z.to_nat d < 36)%nat) by lia. revert Hn. generalize (Z.to_nat d) as n. clear.
  intros n Hn. do 36 (destruct n as [|n]; [destruct small; reflexivity|]). lia.
Qed.

(** Each division takes the value below the next lower power of the base,
    so the array of 36 digits is large enough for bases from 8 on. *)
Lemma digits_loop_ok fuel (small : bool) num base i k :
  8 <= base <= 36 -> 0 <= num < 8 ^ Z.of_nat k -> num < 2 ^ 64 -> (k < fuel)%nat ->
  0 <= i -> i + Z.of_nat k <= 36 ->
  digits_loop fuel (if small then lower_digits else upper_digits) num base i
  = Ret (map (digit_char small) (digit_values fuel num base)).
Proof.
  revert num i k; induction fuel as [|fuel IH]; intros num i k Hb Hn H64 Hk Hi Hik; [lia|].
  cbn [digits_loop digit_values]. destruct (Z.eqb_spec num 0) as [|Hn0]; [done|].
  rewrite do_div_ok by lia. cbn [bindO].
  pose proof (Z.mod_pos_bound num base ltac:(lia)). rewrite digits_lookup by lia. cbn [of_option bindO].
  destruct k as [|k]; [simpl in Hn; lia|].
  destruct (Z.ltb_spec i 36); [|lia].
  assert (Hq : 0 <= num / base < 8 ^ Z.of_nat k).
  { split; [apply Z.div_pos; lia|]. apply Z.div_lt_upper_bound; [lia|].
    rewrite Nat2Z.inj_succ, Z.pow_succ_r in Hn by lia.
    assert (0 <= 8 ^ Z.of_nat k) by (apply Z.pow_nonneg; lia). nia. }
  assert (num / base <= num) by (apply Z.div_le_upper_bound; nia).
  rewrite (IH _ _ k) by lia. done.
Qed.

Lemma digit_values_value fuel num base : 2 <= base -> 0 <= num < 2 ^ Z.of_nat fuel ->
  value_of base (digit_values fuel num base) = num.
Proof.
  revert num; induction fuel as [|fuel IH]; intros num Hb Hn; simpl; [simpl in Hn; lia|].
  destruct (Z.eqb_spec num 0) as [|Hn0]; [done|]. simpl. rewrite IH.
  - pose proof (Z.div_mod num base). lia.
  - done.
  - split; [apply Z.div_pos; lia|]. apply Z.div_lt_upper_bound; [lia|].
    rewrite Nat2Z.inj_succ, Z.pow_succ_r in Hn by lia.
    assert (0 <= 2 ^ Z.of_nat fuel) by (apply Z.pow_nonneg; lia). nia.
Qed.

Lemma numeral_tmp type num base : 8 <= base <= 36 -> 0 <= num < 2 ^ 64 ->
  exists tmp, (if num =? 0 then Ret [48]
      else digits_loop 65 (if flag type SMALL then lower_digits else upper_digits) num base 0) = Ret tmp
    /\ rev tmp = numeral (flag type SMALL) num base.
Proof.
  intros Hb Hn. unfold numeral. destruct (Z.eqb_spec num 0); [by exists [48]|].
  rewrite (digits_loop_ok _ _ _ _ _ 22); [by eexists|done| |lia|lia|lia|lia].
  split; [lia|]. apply Z.lt_trans with (2 ^ 64); [lia|]. vm_compute. done.
Qed.

(** ** Flags *)

Lemma flag_testbit t k : 0 <= k -> flag t (2 ^ k) = Z.testbit t k.
Proof.
  intros Hk. unfold flag. destruct (Z.testbit t k) eqn:E.
  - apply c_true_spec. intros H. apply (f_equal (fun z => Z.testbit z k)) in H.
    rewrite Z.land_spec, E, Z.pow2_bits_true, Z.testbit_0_l in H by done. done.
  - apply c_true_false. apply Z.bits_inj'. intros j Hj.
    rewrite Z.land_spec, Z.pow2_bits_eqb, Z.testbit_0_l by done.
    zcases; [subst; by rewrite E|by rewrite andb_false_r].
Qed.

Lemma flag_or t f g : flag t (Z.lor f g) = flag t f || flag t g.
Proof.
  unfold flag. rewrite Z.land_lor_distr_r. unfold c_true. rewrite <- negb_andb. f_equal.
  destruct (Z.eqb_spec (Z.lor (Z.land t f) (Z.land t g)) 0) as [E|E].
  - apply Z.lor_eq_0_iff in E as [-> ->]. done.
  - destruct (Z.eqb_spec (Z.land t f) 0) as [E1|]; [|done].
    destruct (Z.eqb_spec (Z.land t g) 0) as [E2|]; [|done]. by rewrite E1, E2 in E.
Qed.

(** Removing ZEROPAD changes no other flag. *)
Lemma flag_no_zeropad t k : 0 <= k -> flag (Z.land t (Z.lnot ZEROPAD)) (2 ^ k)
  = flag t (2 ^ k) && negb (k =? 1).
Proof.
  intros Hk. rewrite !flag_testbit, Z.land_spec by done. f_equal.
  change ZEROPAD with (2 ^ 1). rewrite Z.lnot_spec, Z.pow2_bits_eqb by lia. by rewrite Z.eqb_sym.
Qed.

(** ** number prints number_text *)

Lemma put_sign end_ sign st :
  (if c_true sign then put end_ sign st else Ret st)
  = emits end_ (if c_true sign then [sign] else []) st.
Proof. destruct (c_true sign); [by rewrite emits_one|done]. Qed.

Lemma put_prefix end_ base type st :
  (if flag type SPECIAL && (fst st <? end_) then
     if base =? 8 then put end_ 48 st
     else if base =? 16 then
       let* st := put end_ 48 st in
       let* x := of_option (zlookup (if flag type SMALL then lower_digits else upper_digits) 33) in
       put end_ x st
     else Ret st
   else Ret st)
  = emits end_ (if fst st <? end_ then radix_prefix base type else []) st.
Proof.
  unfold radix_prefix. destruct (flag type SPECIAL), (fst st <? end_); simpl; try done.
  destruct (base =? 8); [by rewrite emits_one|]. destruct (base =? 16); [|done]. simpl.
  destruct (put end_ 48 st) as [s1| | |]; simpl; [|done..].
  destruct (flag type SMALL); simpl; by destruct (put end_ _ s1).
Qed.

(** The three padding loops print the padding once, on the side the flags
    select. *)
Definition three_pads (fuel : nat) (end_ size : Z) (left zpad : bool)
    (mid1 mid2 : Z * mem -> outcome (Z * mem)) (st : Z * mem) : outcome (Z * mem) :=
  let* (size, st) := if negb (zpad || left) then pad_loop fuel end_ size 32 st else Ret (size, st) in
  let* st := mid1 st in
  let* (size, st) := if negb left then pad_loop fuel end_ size (if zpad then 48 else 32) st
                     else Ret (size, st) in
  let* st := mid2 st in
  let* (_, st) := pad_loop fuel end_ size 32 st in
  Ret st.

Lemma three_pads_emits fuel end_ size left zpad mid1 mid2 st :
  (Z.to_nat size < fuel)%nat -> (left = true -> zpad = false) ->
  three_pads fuel end_ size left zpad mid1 mid2 st
  = let* st := emits end_ (repeatZ (if negb left && negb zpad then size else 0) 32) st in
    let* st := mid1 st in
    let* st := emits end_ (repeatZ (if negb left && zpad then size else 0) 48) st in
    let* st := mid2 st in
    emits end_ (repeatZ (if left then size else 0) 32) st.
Proof.
  intros Hf Hlz. unfold three_pads.
  assert (Hneg : forall s c st, s < 0 -> pad_loop fuel end_ s c st = Ret (s - 1, st)).
  { intros s c st' Hs. destruct fuel; [lia|]. cbn [pad_loop]. zcases; [lia|done]. }
  assert (Hz0 : forall c st, emits end_ (repeatZ 0 c) st = Ret st) by done.
  assert (Hfin : (if 0 <? size then -1 else size - 1) < 0) by (zcases; lia).
  destruct left; [rewrite (Hlz eq_refl)|]; destruct zpad; cbn [negb orb andb]; try (by specialize (Hlz eq_refl)).
  - rewrite ?Hz0. cbn [bindO]. destruct (mid1 st) as [s1| | |]; cbn [bindO]; try done.
    rewrite ?Hz0. cbn [bindO]. destruct (mid2 s1) as [s2| | |]; cbn [bindO]; try done.
    rewrite pad_loop_emits by done. by destruct (emits end_ (repeatZ size 32) s2).
  - rewrite ?Hz0. cbn [bindO]. destruct (mid1 st) as [s1| | |]; cbn [bindO]; try done.
    rewrite pad_loop_emits by done.
    destruct (emits end_ (repeatZ size 48) s1) as [s2| | |]; cbn [bindO]; try done.
    destruct (mid2 s2) as [s3| | |]; cbn [bindO]; try done. by rewrite Hneg.
  - rewrite pad_loop_emits by done.
    destruct (emits end_ (repeatZ size 32) st) as [s1| | |]; cbn [bindO]; try done.
    destruct (mid1 s1) as [s2| | |]; cbn [bindO]; try done. rewrite Hneg by done. rewrite ?Hz0.
    cbn [bindO]. destruct (mid2 s2) as [s3| | |]; cbn [bindO]; try done. rewrite Hneg; [done|lia].
Qed.

Lemma bindO_assoc {A B C} (c : outcome A) (f : A -> outcome B) (g : B -> outcome C) :
  (let* y := (let* x := c in f x) in g y) = let* x := c in let* y := f x in g y.
Proof. by destruct c. Qed.

Lemma bindO_ext {A B} (c : outcome A) (f g : A -> outcome B) :
  (forall a, c = Ret a -> f a = g a) -> bindO c f = bindO c g.
Proof. intros H. destruct c; simpl; auto. Qed.

(** ** The equation between [number] and its text *)

Definition before_prefix (num base size precision type : Z) : Z :=
  zlen (fst (fst (number_lead num base size precision type))).

(** The flags after LEFT has switched ZEROPAD off. *)
Lemma padding_flags type : let left := flag type LEFT in
  let t := if left then Z.land type (Z.lnot ZEROPAD) else type in
  flag t ZEROPAD = flag type ZEROPAD && negb left /\ flag t LEFT = left /\ flag t SIGN = flag type SIGN
  /\ flag t PLUS = flag type PLUS /\ flag t SPACE = flag type SPACE /\ flag t SPECIAL = flag type SPECIAL.
Proof.
  intros left t.
  assert (Ht : forall k, 0 <= k -> k <> 1 -> flag t (2 ^ k) = flag type (2 ^ k)).
  { intros k Hk Hk1. unfold t. destruct left; [|done]. rewrite flag_no_zeropad by done.
    destruct (Z.eqb_spec k 1); [done|]. apply andb_true_r. }
  split_and!; [|apply (Ht 4); lia|apply (Ht 0); lia|apply (Ht 2); lia|apply (Ht 3); lia|apply (Ht 5); lia].
  unfold t. destruct left; [|by rewrite andb_true_r].
  change ZEROPAD with (2 ^ 1) at 2. rewrite flag_no_zeropad by lia. by rewrite !andb_false_r.
Qed.
(** What is left of the width after the sign, the prefix and the digits. *)
Lemma width_left (special : bool) base size sign m :
  (if special then
      if base =? 16 then (if c_true sign then size - 1 else size) - 2
      else if base =? 8 then (if c_true sign then size - 1 else size) - 1
      else (if c_true sign then size - 1 else size)
    else (if c_true sign then size - 1 else size)) - m
  = size - zlen (if c_true sign then [sign] else []) - (if special then if base =? 16 then 2 else if base =? 8 then 1 else 0 else 0) - m.
Proof.
  destruct (c_true sign); [change (zlen [sign]) with 1|change (zlen []) with 0];
    destruct special; try lia; destruct (base =? 16); try lia; destruct (base =? 8); lia.
Qed.
Lemma number_emits fuel end_ num base size precision type st :
  8 <= base <= 36 -> 0 <= num < 2 ^ 64 ->
  (Z.to_nat size < fuel)%nat -> (Z.to_nat precision < fuel)%nat ->
  0 <= fst st -> fst st + before_prefix num base size precision type < 2 ^ 32 ->
  number fuel end_ num base size precision type st
  = emits end_ (number_text (fst st + before_prefix num base size precision type <? end_)
                  num base size precision type) st.
Proof.
  intros Hb Hn Hf1 Hf2 Hs0. unfold number, number_text, before_prefix, number_lead.
  destruct (Z.ltb_spec base 2); [lia|]. destruct (Z.ltb_spec 36 base); [lia|]. cbn [orb].
  set (left := flag type LEFT). set (zpad := flag type ZEROPAD && negb left).
  set (t := if left then Z.land type (Z.lnot ZEROPAD) else type).
  destruct (padding_flags type : _ /\ _) as (Hz & Hl & Hsg & Hpl & Hsp & Hx). fold left t zpad in Hz, Hl, Hsg, Hpl, Hsp, Hx.
  change (ZEROPAD + LEFT) with (Z.lor ZEROPAD LEFT). rewrite flag_or, Hz, Hl, Hsg, Hpl, Hsp, Hx.
  clearbody t. clear Hz Hl Hsg Hpl Hsp Hx t.
  set (neg := flag type SIGN && (s64 num <? 0)).
  set (abs := if neg then u64 (- s64 num) else num).
  set (sign := if neg then 45 else if flag type PLUS then 43 else if flag type SPACE then 32 else 0).
  replace (if neg then (45, u64 (- s64 num))
           else (if flag type PLUS then 43 else if flag type SPACE then 32 else 0, num))
    with (sign, abs) by (unfold sign, abs; by destruct neg).
  assert (Habs : 0 <= abs < 2 ^ 64).
  { unfold abs, u64. destruct neg; [apply Z.mod_pos_bound; lia|done]. }
  replace (if neg then [45] else if flag type PLUS then [43] else if flag type SPACE then [32] else [])
    with (if c_true sign then [sign] else [])
    by (unfold sign; destruct neg; [done|]; destruct (flag type PLUS); [done|]; by destruct (flag type SPACE)).
  clearbody sign abs neg.
  destruct (numeral_tmp type abs base) as (tmp & -> & Etmp); [lia|done|]. cbn [bindO].
  set (ds := numeral (flag type SMALL) abs base) in *.
  assert (Elen : Z.of_nat (length tmp) = zlen ds)
    by (unfold zlen; rewrite <- Etmp; by rewrite length_rev).
  rewrite Elen. pose proof (zlen_nonneg ds).
  replace (if precision <? zlen ds then zlen ds else precision) with (Z.max precision (zlen ds))
    by (zcases; lia).
  set (sl := if c_true sign then [sign] else []).
  set (pl := if flag type SPECIAL then if base =? 16 then 2 else if base =? 8 then 1 else 0 else 0).
  rewrite width_left. fold sl pl. set (sz := size - zlen sl - pl - Z.max precision (zlen ds)).
  assert (0 <= pl) by (unfold pl; repeat case_match; lia).
  assert (Hszf : (Z.to_nat sz < fuel)%nat) by (pose proof (zlen_nonneg sl); unfold sz; lia).
  clearbody sz pl.
  cbn [fst snd]. intros Hs1. rewrite zlen_app in Hs1.
  transitivity (three_pads fuel end_ sz left zpad
    (fun st => let* st := emits end_ sl st in
               emits end_ (if fst st <? end_ then radix_prefix base type else []) st)
    (fun st => emits end_ (repeatZ (precision - zlen ds) 48 ++ ds) st) st).
  { unfold three_pads. apply bindO_ext. intros [s1 t1] _. rewrite put_sign, bindO_assoc.
    apply bindO_ext. intros t2 _. rewrite put_prefix. apply bindO_ext. intros t3 _.
    apply bindO_ext. intros [s2 t4] _.
    rewrite zeros_loop_emits by lia. rewrite emits_app, bindO_assoc.
    replace (repeatZ (Z.max precision (zlen ds) - zlen ds) 48) with (repeatZ (precision - zlen ds) 48)
      by (unfold repeatZ; f_equal; lia).
    apply bindO_ext. intros t5 _. rewrite tmp_loop_emits by done.
    by rewrite firstn_all, Etmp. }
  rewrite three_pads_emits; [|done|by unfold zpad; intros ->; rewrite andb_false_r].
  cbn [fst snd]. rewrite !emits_app, !bindO_assoc. apply bindO_ext. intros t1 E1.
  rewrite !bindO_assoc. apply bindO_ext. intros t2 E2. pose proof (zlen_nonneg sl). pose proof (zlen_nonneg (repeatZ (if negb left && negb zpad then sz else 0) 32)).
  apply emits_fst in E1; [|lia..]. apply emits_fst in E2; [|lia..]. rewrite zlen_app.
  replace (fst st + (zlen (repeatZ (if negb left && negb zpad then sz else 0) 32) + zlen sl))
    with (fst t2) by lia.
  rewrite ?emits_app, ?bindO_assoc. apply bindO_ext. intros t3 _.
  rewrite ?emits_app, ?bindO_assoc. apply bindO_ext. intros t4 _.
  rewrite ?emits_app, ?bindO_assoc. apply bindO_ext. intros t5 _.
  by rewrite ?emits_app.
Qed.

(** ** What emitting does to memory *)

Lemma mapped_tail (m : mem) p v n : mapped m p n -> mapped (<[p := v]> m) (p + 1) (n - 1).
Proof. intros Hm. apply (mapped_write m p [v]). eapply mapped_sub; [exact Hm|lia|lia]. Qed.

Lemma emits_write end_ l str m : Forall is_byte l -> mapped m str (end_ - str) -> 0 <= str -> str + zlen l < 2 ^ 32 ->
  emits end_ l (str, m) = Ret (str + zlen l, write m str (take (Z.to_nat (end_ - str)) l)).
Proof.
  revert str m; induction l as [|c l IH]; intros str m Hl Hm H0 H1.
  - rewrite take_nil. simpl. by rewrite Z.add_0_r.
  - apply Forall_cons in Hl as [Hc Hl]. rewrite zlen_cons in *. pose proof (zlen_nonneg l). cbn [emits put]. rewrite (u32_id (str + 1)) by lia. destruct (Z.ltb_spec str end_).
    + rewrite (store_byte _ _ _ _ Hm) by (done || lia). cbn [bindO write].
      rewrite IH; [|done| |lia..].
      * replace (Z.to_nat (end_ - str)) with (S (Z.to_nat (end_ - (str + 1)))) by lia.
        cbn [take write]. do 2 f_equal. lia.
      * replace (end_ - (str + 1)) with (end_ - str - 1) by lia. by apply mapped_tail.
    + cbn [bindO]. rewrite IH; [|done|intros i Hi; lia|lia..].
      replace (Z.to_nat (end_ - str)) with 0%nat by lia.
      replace (Z.to_nat (end_ - (str + 1))) with 0%nat by lia. cbn [take write]. do 2 f_equal. lia.
Qed.

Lemma repeatZ_bytes n c : is_byte c -> Forall is_byte (repeatZ n c).
Proof. intros. by apply Forall_replicate. Qed.

Lemma digit_values_range fuel num base : 0 < base -> 0 <= num ->
  Forall (fun d => 0 <= d < base) (digit_values fuel num base).
Proof.
  revert num; induction fuel as [|fuel IH]; intros num Hb Hn; simpl; [constructor|].
  destruct (num =? 0); [constructor|]. constructor.
  - apply Z.mod_pos_bound; lia.
  - apply IH; [done|]. apply Z.div_pos; lia.
Qed.

(** The value of a digit character. *)
Definition char_value (c : Z) : Z := if c <? 58 then c - 48 else if c <? 91 then c - 55 else c - 87.

Lemma char_value_digit small d : 0 <= d < 36 -> char_value (digit_char small d) = d.
Proof. intros. unfold char_value, digit_char. destruct small; zcases; lia. Qed.

Lemma digit_char_byte small d : 0 <= d < 36 -> is_byte (digit_char small d).
Proof. intros. unfold is_byte, digit_char. destruct small; zcases; lia. Qed.

Lemma numeral_bytes small num base : 0 < base <= 36 -> 0 <= num -> Forall is_byte (numeral small num base).
Proof.
  intros. unfold numeral. destruct (num =? 0); [by repeat constructor|].
  apply Forall_rev, Forall_fmap. eapply Forall_impl; [apply digit_values_range; lia|].
  intros d Hd. apply digit_char_byte. simpl in Hd; lia.
Qed.

(** Reading the numeral back gives the number. *)
Lemma numeral_value small num base : 2 <= base <= 36 -> 0 <= num < 2 ^ 64 ->
  value_of base (map char_value (rev (numeral small num base))) = num.
Proof.
  intros Hb Hn. unfold numeral. destruct (Z.eqb_spec num 0) as [->|]; [unfold char_value; simpl; lia|].
  rewrite rev_involutive, map_map.
  rewrite <- (digit_values_value 65 num base) at 2 by lia. f_equal.
  transitivity (map (fun d => d) (digit_values 65 num base)); [|apply map_id].
  apply map_ext_Forall. eapply Forall_impl; [apply digit_values_range; lia|].
  intros d Hd. apply char_value_digit. simpl in Hd. lia.
Qed.

Lemma number_text_bytes room num base size precision type :
  8 <= base <= 36 -> 0 <= num < 2 ^ 64 ->
  Forall is_byte (number_text room num base size precision type).
Proof.
  intros Hb Hn. unfold number_text, number_lead, radix_prefix.
  set (abs := if flag type SIGN && (s64 num <? 0) then u64 (- s64 num) else num).
  assert (0 <= abs) by (unfold abs, u64; case_match; [apply Z.mod_pos_bound|]; lia).
  repeat (apply Forall_app; split); try (apply repeatZ_bytes; by unfold is_byte);
    [| |apply numeral_bytes; lia];
    repeat case_match; by repeat constructor.
Qed.

Lemma lead_short room num base size precision type : before_prefix num base size precision type <= zlen (number_text room num base size precision type).
Proof.
  unfold before_prefix, number_text. destruct (number_lead _ _ _ _ _) as [[before after] abs]. cbn [fst]. rewrite !zlen_app.
  pose proof (zlen_nonneg after). pose proof (zlen_nonneg (if room then radix_prefix base type else [])). lia.
Qed.

(** ** Properties *)

(** [number] in any base from 8 to 36, with any flags, field width
    and precision, advances the output pointer by the length of the text of
    the number and stores exactly the part of it that lies before the end
    of the buffer, as long as the text ends before the end of the address
    space; the digits of that text read back as the (absolute) value
    printed. *)
Theorem number_prints fuel end_ num base size precision type str m :
  8 <= base <= 36 -> 0 <= num < 2 ^ 64 ->
  (Z.to_nat size < fuel)%nat -> (Z.to_nat precision < fuel)%nat ->
  mapped m str (end_ - str) -> 0 <= str ->
  let text := number_text (str + before_prefix num base size precision type <? end_)
                num base size precision type in
  let abs := snd (number_lead num base size precision type) in
  str + zlen text < 2 ^ 32 ->
  number fuel end_ num base size precision type (str, m)
    = Ret (str + zlen text, write m str (take (Z.to_nat (end_ - str)) text))
  /\ value_of base (map char_value (rev (numeral (flag type SMALL) abs base))) = abs.
Proof.
  intros Hb Hn Hf1 Hf2 Hm H0 text abs H1. split.
  - rewrite number_emits; [apply emits_write; [by apply number_text_bytes|done..]|done..|].
    pose proof (lead_short (str + before_prefix num base size precision type <? end_) num base size precision type). cbn [fst]. unfold text in H1. lia.
  - apply numeral_value; [lia|]. unfold abs, number_lead, u64; simpl.
    case_match; [apply Z.mod_pos_bound; lia|done].
Qed.

(** Six bytes of buffer at 16. *)
Definition demo_buffer : mem :=
  {[16 := 0; 17 := 0; 18 := 0; 19 := 0; 20 := 0; 21 := 0]}.

(** "%+05d" of 42 prints +0042. *)
Lemma number_prints_witness :
  number 10 22 42 10 5 (-1) (Z.lor PLUS (Z.lor ZEROPAD SIGN)) (16, demo_buffer)
    = Ret (16 + 5, write demo_buffer 16 [43; 48; 48; 52; 50])
  /\ value_of 10 (map char_value (rev (numeral false 42 10))) = 42.
Proof.
  apply (number_prints 10 22 42 10 5 (-1) (Z.lor PLUS (Z.lor ZEROPAD SIGN)) 16 demo_buffer); [lia|lia|simpl; lia|simpl; lia| |lia|by vm_compute].
  intros i Hi. assert (i = 0 \/ i = 1 \/ i = 2 \/ i = 3 \/ i = 4 \/ i = 5) as Hc by lia.
  repeat (destruct Hc as [->|Hc]; [by eexists|]). subst. by eexists.
Defined.

(** The do_div macro, built from two 32-bit divisions, is 64-bit
    division: it never traps and yields quotient and remainder. *)
Theorem do_div_correct n base : 0 <= n < 2 ^ 64 -> 0 < base < 2 ^ 32 ->
  do_div n base = Ret (n / base, n mod base).
Proof. intros. apply do_div_ok; lia. Qed.

Lemma do_div_correct_witness : do_div (2 ^ 64 - 1) 10 = Ret (1844674407370955161, 5).
Proof. apply (do_div_correct (2 ^ 64 - 1) 10); lia. Defined.

(** ** The text of a whole format

    What is printed, as a list of characters, without the output pointer
    stores: [m] is memory at the call and [lo] to [hi] the buffer.  [pos] is
    where the text begins, which matters in three places: the prefix of a
    number is printed only when it begins inside the buffer, an argument
    of %c is taken only when its place is inside, and the padding after a
    string stops at the end.  A character outside the buffer that is not
    known is 0.  There is no text ([None]) when an argument is missing, a
    string argument lies in the buffer or does not end, or [fuel] does not
    bound a width, a precision or a string. *)

Section Text.
Context (fuel : nat) (lo hi : Z) (m : mem).

(** The string at an address. *)
Fixpoint string_at (n : nat) (p : Z) : option (list Z) :=
  match n with
  | O => None
  | S n =>
      match m !! p with
      | Some c =>
          if (lo <=? p) && (p <? hi) then None
          else if c =? 0 then Some []
          else if (0 <? c) && (c <? 256) then option_map (cons c) (string_at n (p + 1)) else None
      | None => None
      end
  end.

Definition short (n : Z) : bool := n <? Z.of_nat fuel.
Definition word (a : Z) : bool := (0 <=? a) && (a <? 2 ^ 32).

Definition c_text (pos flags w : Z) (args : list Z) : option (list Z * list Z) :=
  let pad := repeatZ (w - 1) 32 in
  let before := if flag flags LEFT then [] else pad in
  let after := if flag flags LEFT then pad else [] in
  if negb (short w) then None
  else if pos + zlen before <? hi then
    match args with a :: args => Some (before ++ [u8 a] ++ after, args) | [] => None end
  else Some (before ++ [0] ++ after, args).

Definition s_text (pos flags w precision : Z) (args : list Z) : option (list Z * list Z) :=
  match args with
  | [] => None
  | s :: args =>
      match (if s =? 0 then Some null_text else string_at fuel s) with
      | None => None
      | Some cs =>
          if negb (short w && (zlen cs <? 2 ^ 31)) then None
          else
          let cs := if precision <? 0 then cs else take (Z.to_nat precision) cs in
          let room := w - zlen cs in
          if flag flags LEFT
          then Some (cs ++ repeatZ (Z.min room (hi - (pos + zlen cs))) 32, args)
          else Some (repeatZ room 32 ++ cs, args)
      end
  end.

Definition n_text (pos num base w precision flags : Z) : option (list Z) :=
  if short w && short precision
  then Some (number_text (pos + before_prefix num base w precision flags <? hi) num base w precision flags)
  else None.

Definition convert_text (pos flags w precision : Z) (fmt args : list Z) : option (list Z * list Z * list Z) :=
  match fmt with
  | [] => Some ([], [], args)
  | c :: rest =>
      let num n base flags w args := option_map (fun t => (t, rest, args)) (n_text pos n base w precision flags) in
      if c =? 99 then option_map (fun ta => (ta.1, rest, ta.2)) (c_text pos flags w args)
      else if c =? 115 then option_map (fun ta => (ta.1, rest, ta.2)) (s_text pos flags w precision args)
      else if (c =? 111) || (c =? 112) || (c =? 120) || (c =? 88) || (c =? 100) || (c =? 105) || (c =? 117) then
        match args with
        | [] => None
        | a :: args =>
            if negb (word a) then None
            else if c =? 111 then num a 8 flags w args
            else if c =? 112 then if w =? -1 then num a 16 (Z.lor flags ZEROPAD) 8 args else num a 16 flags w args
            else if c =? 120 then num a 16 (Z.lor flags SMALL) w args
            else if c =? 88 then num a 16 flags w args
            else
              let flags := if c =? 117 then flags else Z.lor flags SIGN in
              num (if flag flags SIGN then u64 (s32 a) else a) 10 flags w args
        end
      else Some ([c], rest, args)
  end.

(** [n] bounds the conversions. *)
Fixpoint format_text (n : nat) (pos : Z) (fmt args : list Z) : option (list Z) :=
  match n with
  | O => None
  | S n =>
      match fmt with
      | [] => Some []
      | c :: rest =>
          if negb (c =? 37) then option_map (cons c) (format_text n (pos + 1) rest args)
          else
            let '(flags, fmt) := scan_flags 0 rest in
            match scan_width flags fmt args with
            | Ret (flags, w, fmt, args) =>
                match scan_precision fmt args with
                | Ret (precision, fmt, args) =>
                    match convert_text pos flags w precision (scan_qualifier fmt) args with
                    | Some (t, fmt, args) => option_map (app t) (format_text n (pos + zlen t) fmt args)
                    | None => None
                    end
                | _ => None
                end
            | _ => None
            end
      end
  end.

(** *** States of a run *)

(** The bytes outside the buffer are those of the call, and the buffer is there. *)
Record good (st : Z * mem) : Prop := {
  gd_lo : lo <= fst st;
  gd_same : forall a, ~ (lo <= a < hi) -> snd st !! a = m !! a;
  gd_mapped : mapped (snd st) lo (hi - lo);
}.

Lemma put_good c st : good st -> 0 <= fst st -> fst st + 1 < 2 ^ 32 -> exists st', put hi c st = Ret st' /\ good st' /\ fst st' = fst st + 1.
Proof.
  intros [G1 G2 G3] H0 H1. destruct st as [s mm]. cbn [fst snd] in *. unfold put. rewrite u32_id by lia. destruct (Z.ltb_spec s hi) as [L|L].
  - destruct (G3 (s - lo)) as [x Ex]; [lia|]. replace (lo + (s - lo)) with s in Ex by lia. unfold store. rewrite Ex. cbn [bindO]. eexists. split; [done|]. split; [|done].
    split; cbn [fst snd]; [lia| |].
    + intros a Ha. rewrite lookup_insert_ne by lia. by apply G2.
    + exact (mapped_write mm s [u8 c] lo _ G3).
  - eexists. split; [done|]. split; [|done]. split; cbn [fst snd]; [lia|done|done].
Qed.
Lemma emits_good l : forall st, good st -> 0 <= fst st -> fst st + zlen l < 2 ^ 32 -> exists st', emits hi l st = Ret st' /\ good st' /\ fst st' = fst st + zlen l.
Proof.
  induction l as [|c l IH]; intros st G H0 H1; cbn [emits]; [exists st; change (zlen []) with 0; by rewrite Z.add_0_r|].
  rewrite zlen_cons in *. pose proof (zlen_nonneg l). destruct (put_good c st G H0) as (st1 & -> & G1 & E1); [lia|]. cbn [bindO].
  destruct (IH st1 G1) as (st2 & -> & G2 & E2); [lia..|]. exists st2. split; [done|]. split; [done|]. lia.
Qed.
(** Two parts of a text. *)
Lemma emits_then {A} l (st : Z * mem) (k k' : Z * mem -> outcome A) : good st -> 0 <= fst st -> fst st + zlen l < 2 ^ 32 ->
  (forall st', good st' -> fst st' = fst st + zlen l -> k st' = k' st') -> (let* st := emits hi l st in k st) = let* st := emits hi l st in k' st.
Proof. intros G H0 H1 H. destruct (emits_good l st G H0 H1) as (st' & -> & G' & E). cbn [bindO]. by apply H. Qed.

(** *** The loops *)

Lemma pre_pad_emits n w st : (Z.to_nat w < n)%nat -> pre_pad_loop n hi w st = let* st := emits hi (repeatZ (w - 1) 32) st in Ret (Z.min 0 (w - 1), st).
Proof.
  revert w st. induction n as [|n IH]; intros w st Hf; [lia|]. cbn [pre_pad_loop]. destruct (Z.ltb_spec 0 (w - 1)).
  - rewrite repeatZ_pos by done. cbn [emits]. destruct (put hi 32 st) as [s1| | |]; cbn [bindO]; try done. rewrite IH by lia. by replace (Z.min 0 (w - 1 - 1)) with (Z.min 0 (w - 1)) by lia.
  - rewrite repeatZ_neg by lia. cbn [emits bindO]. by replace (Z.min 0 (w - 1)) with (w - 1) by lia.
Qed.
Lemma width_emits n len w st : (Z.to_nat (w - len) < n)%nat -> width_loop n hi len w st = let* st := emits hi (repeatZ (w - len) 32) st in Ret (Z.min (len - 1) (w - 1), st).
Proof.
  revert w st. induction n as [|n IH]; intros w st Hf; [lia|]. cbn [width_loop]. destruct (Z.ltb_spec len w).
  - rewrite (repeatZ_pos (w - len)) by lia. cbn [emits]. destruct (put hi 32 st) as [s1| | |]; cbn [bindO]; try done. rewrite IH by lia.
    replace (w - 1 - len) with (w - len - 1) by lia. by replace (Z.min (len - 1) (w - 1 - 1)) with (Z.min (len - 1) (w - 1)) by lia.
  - rewrite repeatZ_neg by lia. cbn [emits bindO]. by replace (Z.min (len - 1) (w - 1)) with (w - 1) by lia.
Qed.
(** This one stops at the end of the buffer. *)
Lemma left_width_emits n len w : forall st, (Z.to_nat (w - len) < n)%nat -> 0 <= fst st -> hi < 2 ^ 32 ->
  left_width_loop n hi len w st = emits hi (repeatZ (Z.min (w - len) (hi - fst st)) 32) st.
Proof.
  revert w. induction n as [|n IH]; intros w [s mm] Hf H0 Hh; [lia|]. cbn [left_width_loop fst] in *. destruct (Z.ltb_spec len w); [|by rewrite repeatZ_neg by lia].
  destruct (Z.ltb_spec s hi) as [L|L].
  - rewrite (repeatZ_pos (Z.min _ _)) by lia. cbn [emits put]. rewrite (proj2 (Z.ltb_lt s hi) L). destruct (store mm s 32) as [m1| | |]; cbn [bindO]; try done.
    rewrite u32_id by lia. rewrite IH by (cbn [fst]; lia). cbn [fst]. do 2 f_equal. lia.
  - cbn [bindO]. rewrite IH by (cbn [fst]; lia). cbn [fst]. by rewrite !repeatZ_neg by lia.
Qed.

Lemma string_at_ok n : forall p S, string_at n p = Some S -> cstr m p S /\ (length S < n)%nat /\ forall i, 0 <= i <= zlen S -> ~ (lo <= p + i < hi).
Proof.
  induction n as [|n IH]; intros p S E; [done|]. cbn [string_at] in E. destruct (m !! p) as [c|] eqn:Ec; [|done].
  destruct ((lo <=? p) && (p <? hi)) eqn:B; [done|]. destruct (Z.eqb_spec c 0) as [->|C0].
  - injection E as <-. split; [by repeat split|]. split; [cbn; lia|]. change (zlen []) with 0. intros i Hi. replace (p + i) with p by lia. lia.
  - destruct ((0 <? c) && (c <? 256)) eqn:Bc; [|done]. destruct (string_at n (p + 1)) as [S'|] eqn:Es; [|done]. injection E as <-. destruct (IH _ _ Es) as ([F By] & Ln & Out).
    split; [split; [constructor; [lia|done]|by split]|]. split; [cbn; lia|]. rewrite zlen_cons. intros i Hi. destruct (Z.eq_dec i 0) as [->|]; [lia|]. replace (p + i) with (p + 1 + (i - 1)) by lia. apply Out. lia.
Qed.
Lemma copy_arg_emits s S st : forall k i, good st -> 0 <= fst st -> fst st + zlen (take k (drop i S)) < 2 ^ 32 -> (i + k <= length S)%nat ->
  (if s =? 0 then S = null_text else bytes_at m s S /\ forall j, 0 <= j < zlen S -> ~ (lo <= s + j < hi)) ->
  copy_arg k hi s (Z.of_nat i) st = emits hi (take k (drop i S)) st.
Proof.
  intros k. revert st. induction k as [|k IH]; intros st i G H0 H1 Hk Hs; cbn [copy_arg]; [done|].
  destruct (lookup_lt_is_Some_2 S i) as [c Ec]; [lia|]. rewrite (drop_S _ _ _ Ec) in *. cbn [take emits] in *. rewrite zlen_cons in H1. pose proof (zlen_nonneg (take k (drop (Datatypes.S i) S))).
  assert (Ld : (if s =? 0 then of_option (zlookup (null_text ++ [0]) (Z.of_nat i)) else load (snd st) (s + Z.of_nat i)) = Ret c).
  { destruct (s =? 0).
    - subst S. unfold zlookup. rewrite (proj2 (Z.leb_le 0 _)), Nat2Z.id by lia. by rewrite (lookup_app_l_Some _ _ _ _ Ec).
    - destruct Hs as [By Out]. rewrite <- (bytes_at_load m S s i c By Ec). unfold load. rewrite (gd_same _ G); [done|]. apply Out. unfold zlen. lia. }
  rewrite Ld. cbn [bindO]. destruct (put_good c st G H0) as (st1 & -> & G1 & E1); [lia|]. cbn [bindO]. replace (Z.of_nat i + 1) with (Z.of_nat (Datatypes.S i)) by lia. apply IH; try done; lia.
Qed.
End Text.

(** *** The conversions *)

Section Conversions.
Context (fuel : nat) (lo hi : Z) (m : mem).
Context (Fu : (0 < fuel)%nat) (Lo : 0 <= lo) (Hi : hi < 2 ^ 32).

Lemma short_fuel n : short fuel n = true -> (Z.to_nat n < fuel)%nat.
Proof using Fu. unfold short. lia. Qed.

Lemma format_c_emits flags w args st t args' : good lo hi m st -> c_text fuel hi (fst st) flags w args = Some (t, args') -> fst st + zlen t < 2 ^ 32 ->
  format_c fuel hi flags w args st = let* st := emits hi t st in Ret (args', st).
Proof using All.
  intros G E H1. pose proof (gd_lo _ _ _ _ G) as H0. unfold c_text in E. destruct (short fuel w) eqn:Sw; [|done]. cbn [negb] in E. apply short_fuel in Sw. unfold format_c.
  set (before := if flag flags LEFT then [] else repeatZ (w - 1) 32) in *. set (after := if flag flags LEFT then repeatZ (w - 1) 32 else []) in *.
  assert (E1 : (if negb (flag flags LEFT) then pre_pad_loop fuel hi w st else Ret (w, st)) = let* st := emits hi before st in Ret (if flag flags LEFT then w else Z.min 0 (w - 1), st)).
  { unfold before. destruct (flag flags LEFT); cbn [negb]; [done|]. by apply pre_pad_emits. }
  assert (E2 : forall st, pre_pad_loop fuel hi (if flag flags LEFT then w else Z.min 0 (w - 1)) st = let* st := emits hi after st in Ret ((if flag flags LEFT then Z.min 0 (w - 1) else Z.min 0 (w - 1) - 1), st)).
  { intros s. unfold after. destruct (flag flags LEFT); [by apply pre_pad_emits|]. rewrite pre_pad_emits by lia. rewrite repeatZ_neg by lia. cbn [emits bindO]. by replace (Z.min 0 (Z.min 0 (w - 1) - 1)) with (Z.min 0 (w - 1) - 1) by lia. }
  rewrite E1, bindO_assoc. assert (exists c, t = before ++ [c] ++ after /\ (if fst st + zlen before <? hi then exists a, args = a :: args' /\ c = u8 a else c = 0 /\ args' = args)) as (c & -> & Ec).
  { destruct (fst st + zlen before <? hi); [destruct args as [|a args]; [done|]; injection E as <- <-; exists (u8 a); split; [done|by exists a]|injection E as <- <-; by exists 0]. }
  rewrite !zlen_app in H1. change (zlen [c]) with 1 in H1. pose proof (zlen_nonneg before). pose proof (zlen_nonneg after).
  rewrite !emits_app, !bindO_assoc. apply (emits_then lo hi m); [done|lia|lia|]. intros [s mm] Gs Es. cbn [fst snd] in *. cbn [bindO]. rewrite <- Es in Ec. rewrite emits_app, emits_one, bindO_assoc. unfold put.
  destruct (s <? hi).
  - destruct Ec as (a & -> & ->). cbn [VaArg bindO]. destruct (store mm s (u8 a)); cbn [bindO]; [|done..]. rewrite E2, bindO_assoc. done.
  - destruct Ec as [-> ->]. cbn [bindO]. rewrite E2, bindO_assoc. done.
Qed.

Lemma format_s_emits flags w precision args st t args' : good lo hi m st -> s_text fuel lo hi m (fst st) flags w precision args = Some (t, args') -> fst st + zlen t < 2 ^ 32 ->
  format_s fuel hi flags w precision args st = let* st := emits hi t st in Ret (args', st).
Proof using All.
  intros G E H1. pose proof (gd_lo _ _ _ _ G) as H0. destruct args as [|s args]; [done|]. cbn [s_text] in E. unfold format_s. cbn [VaArg bindO].
  destruct (if s =? 0 then _ else _) as [cs|] eqn:Es; [|done]. destruct (short fuel w) eqn:Sw; [|done]. cbn [andb negb] in E. apply short_fuel in Sw. destruct (Z.ltb_spec (zlen cs) (2 ^ 31)) as [L31|]; [|done]. cbn [negb] in E.
  assert (Hs : (if s =? 0 then Ret (Z.of_nat (length null_text)) else strlen fuel s (snd st)) = Ret (zlen cs)
    /\ (if s =? 0 then cs = null_text else bytes_at m s cs /\ forall j, 0 <= j < zlen cs -> ~ (lo <= s + j < hi))).
  { destruct (s =? 0); [by injection Es as <-|]. apply string_at_ok in Es as (Cs & Ln & Out). split.
    - apply strlen_cstr; [|done|done]. destruct Cs as [F By]. split; [done|]. clear -G By Out. assert (O : forall j, 0 <= j < zlen (cs ++ [0]) -> ~ (lo <= s + j < hi)) by (intros j Hj; apply Out; rewrite zlen_app in Hj; change (zlen [0]) with 1 in Hj; lia).
      revert By O. generalize (cs ++ [0]) as l. intros l. revert s Out. intros s _. revert s. induction l as [|c l IH]; intros s By O; [done|]. destruct By as [B1 By]. rewrite zlen_cons in O. pose proof (zlen_nonneg l). split.
      + rewrite (gd_same _ _ _ _ G); [done|]. specialize (O 0 ltac:(lia)). by rewrite Z.add_0_r in O.
      + apply IH; [done|]. intros j Hj. replace (s + 1 + j) with (s + (1 + j)) by lia. apply O. lia.
    - destruct Cs as [_ By]. apply bytes_at_app in By as [By _]. split; [done|]. intros j Hj. apply Out. lia. }
  destruct Hs as [-> Hs]. cbn [bindO]. set (cs' := if precision <? 0 then cs else take (Z.to_nat precision) cs) in *.
  assert (Ln : (if precision <? 0 then zlen cs else if precision <? zlen cs then precision else zlen cs) = zlen cs').
  { unfold cs'. destruct (Z.ltb_spec precision 0); [done|]. unfold zlen. rewrite length_take. destruct (Z.ltb_spec precision (Z.of_nat (length cs))); lia. }
  rewrite Ln. pose proof (zlen_nonneg cs').
  assert (Cp : forall st', good lo hi m st' -> fst st' + zlen cs' < 2 ^ 32 -> copy_arg (Z.to_nat (zlen cs')) hi s 0 st' = emits hi cs' st').
  { intros st' G' H'. pose proof (gd_lo _ _ _ _ G'). assert (Tk : cs' = take (Z.to_nat (zlen cs')) (drop 0 cs)).
    { rewrite drop_0. unfold cs'. destruct (precision <? 0); [by rewrite take_ge by (unfold zlen; lia)|]. unfold zlen. rewrite length_take, Nat2Z.id. destruct (Nat.min_spec (Z.to_nat precision) (length cs)) as [[? ->]|[? ->]]; [done|]. by rewrite !take_ge by lia. }
    assert (Le : (Z.to_nat (zlen cs') <= length cs)%nat) by (unfold cs', zlen; destruct (precision <? 0); rewrite ?length_take; lia).
    rewrite Tk at 2. apply (copy_arg_emits lo hi m s cs st' _ 0%nat); [done|lia|by rewrite <- Tk|lia|done]. }
  destruct (flag flags LEFT); cbn [negb bindO].
  - injection E as <- <-. rewrite zlen_app in H1. pose proof (zlen_nonneg (repeatZ (Z.min (w - zlen cs') (hi - (fst st + zlen cs'))) 32)).
    rewrite Cp, emits_app, !bindO_assoc by (done || lia). apply (emits_then lo hi m); [done|lia|lia|]. intros st1 G1 E1. pose proof (gd_lo _ _ _ _ G1).
    by rewrite left_width_emits, E1 by lia.
  - injection E as <- <-. rewrite zlen_app in H1. pose proof (zlen_nonneg (repeatZ (w - zlen cs') 32)).
    rewrite width_emits, emits_app, !bindO_assoc by lia. apply (emits_then lo hi m); [done|lia|lia|]. intros st1 G1 E1. cbn [bindO].
    rewrite Cp by (done || lia). destruct (emits_good lo hi m cs' st1 G1) as (st2 & -> & G2 & E2); [pose proof (gd_lo _ _ _ _ G1); lia|lia|]. cbn [bindO]. pose proof (gd_lo _ _ _ _ G2).
    rewrite left_width_emits by lia. by rewrite repeatZ_neg by lia.
Qed.

Lemma number_emits_text num base w precision flags st t : good lo hi m st -> 8 <= base <= 36 -> 0 <= num < 2 ^ 64 ->
  n_text fuel hi (fst st) num base w precision flags = Some t -> fst st + zlen t < 2 ^ 32 -> number fuel hi num base w precision flags st = emits hi t st.
Proof using All.
  intros G Hb Hn E H1. pose proof (gd_lo _ _ _ _ G). unfold n_text in E. destruct (short fuel w) eqn:S1; [|done]. destruct (short fuel precision) eqn:S2; [|done]. injection E as <-. apply short_fuel in S1, S2.
  pose proof (lead_short (fst st + before_prefix num base w precision flags <? hi) num base w precision flags). apply number_emits; done || lia.
Qed.

(** A percent sign at the end of the format is stored at the place of the
    terminator. *)
Definition dangling (st : Z * mem) : outcome (Z * mem) := let* m := if fst st <? hi then store (snd st) (fst st) 37 else Ret (snd st) in Ret (fst st, m).

Lemma convert_emits flags w precision fmt args st t fmt' args' : good lo hi m st -> convert_text fuel lo hi m (fst st) flags w precision fmt args = Some (t, fmt', args') ->
  fst st + zlen t < 2 ^ 32 ->
  convert fuel hi flags w precision fmt args st = match fmt with
    | [] => let* st := dangling st in Ret ([], args, st)
    | _ => let* st := emits hi t st in Ret (fmt', args', st)
    end.
Proof using All.
  intros G E H1. destruct fmt as [|c rest]; [destruct st as [s mm]; unfold convert, dangling; cbn [fst snd]; by rewrite !bindO_assoc|]. cbn [convert convert_text] in *.
  destruct (c =? 99).
  { destruct (c_text _ _ _ _ _ _) as [[t0 a0]|] eqn:Ec; [|done]. injection E as <- <- <-. rewrite (format_c_emits flags w args st t0 a0 G Ec H1), !bindO_assoc. done. }
  destruct (c =? 115).
  { destruct (s_text _ _ _ _ _ _ _ _ _) as [[t0 a0]|] eqn:Ec; [|done]. injection E as <- <- <-. rewrite (format_s_emits flags w precision args st t0 a0 G Ec H1), !bindO_assoc. done. }
  assert (N : forall num base fl w' t0 args0, 8 <= base <= 36 -> 0 <= num < 2 ^ 64 -> option_map (fun t => (t, rest, args0)) (n_text fuel hi (fst st) num base w' precision fl) = Some (t, fmt', args') ->
     n_text fuel hi (fst st) num base w' precision fl = t0 -> (let* st := number fuel hi num base w' precision fl st in Ret (rest, args0, st)) = let* st := emits hi t st in Ret (fmt', args', st)).
  { intros num base fl w' t0 args0 Hb Hn E0 Et. destruct t0 as [t0|]; rewrite Et in E0; [|done]. injection E0 as <- <- <-. by rewrite (number_emits_text num base w' precision fl st t0 G Hb Hn Et H1). }
  assert (W : forall a, word a = true -> 0 <= a < 2 ^ 32) by (unfold word; lia).
  destruct (c =? 111) eqn:C1; cbn [orb] in E.
  { destruct args as [|a args0]; [done|]. cbn [VaArg bindO]. destruct (word a) eqn:Wa; [|done]. cbn [negb] in E. apply W in Wa. eapply N; [lia|lia|exact E|done]. }
  destruct (c =? 112) eqn:C2; cbn [orb] in E.
  { destruct args as [|a args0]; [done|]. cbn [VaArg bindO]. destruct (word a) eqn:Wa; [|done]. cbn [negb] in E. apply W in Wa. destruct (w =? -1); (eapply N; [lia|lia|exact E|done]). }
  destruct (c =? 120) eqn:C3; cbn [orb] in E.
  { destruct args as [|a args0]; [done|]. cbn [VaArg bindO]. destruct (word a) eqn:Wa; [|done]. cbn [negb] in E. apply W in Wa. eapply N; [lia|lia|exact E|done]. }
  destruct (c =? 88) eqn:C4; cbn [orb] in E.
  { destruct args as [|a args0]; [done|]. cbn [VaArg bindO]. destruct (word a) eqn:Wa; [|done]. cbn [negb] in E. apply W in Wa. eapply N; [lia|lia|exact E|done]. }
  destruct ((c =? 100) || (c =? 105) || (c =? 117)) eqn:C5.
  { destruct args as [|a args0]; [done|]. cbn [VaArg bindO]. destruct (word a) eqn:Wa; [|done]. cbn [negb] in E. apply W in Wa. eapply N; [lia| |exact E|done].
    case_match; [apply Z.mod_pos_bound; lia|lia]. }
  injection E as <- <- <-. destruct st as [s mm]. rewrite emits_one. unfold put. cbn [fst snd] in *. destruct (s <? hi); cbn [bindO]; [|done]. unfold store. destruct (mm !! s); cbn [bindO]; [|done].
  rewrite lookup_insert_eq. cbn [bindO]. by rewrite insert_insert_eq.
Qed.

Lemma format_loop_emits n : forall fmt args st T, good lo hi m st -> format_text fuel lo hi m n (fst st) fmt args = Some T -> fst st + zlen T < 2 ^ 32 ->
  exists b : bool, format_loop n fuel hi fmt args st = let* st := emits hi T st in if b then dangling st else Ret st.
Proof using All.
  induction n as [|n IH]; intros fmt args st T G E H1; [done|]. pose proof (gd_lo _ _ _ _ G) as H0. cbn [format_loop format_text] in *. destruct fmt as [|c rest]; [injection E as <-; by exists false|].
  destruct (negb (c =? 37)).
  - destruct (format_text _ _ _ _ n _ _ _) as [T'|] eqn:E'; [|done]. injection E as <-. rewrite zlen_cons in H1. pose proof (zlen_nonneg T').
    destruct (put_good lo hi m c st G) as (st1 & E1 & G1 & F1); [lia..|]. rewrite <- F1 in E'. destruct (IH rest args st1 T' G1 E') as (b & Eb); [lia|]. exists b. cbn [emits]. rewrite E1. exact Eb.
  - destruct (scan_flags 0 rest) as [flags fmt]. destruct (scan_width flags fmt args) as [[[[fl w] fmt1] args1]| | |]; try done. cbn [bindO].
    destruct (scan_precision fmt1 args1) as [[[pr fmt2] args2]| | |]; try done. cbn [bindO].
    destruct (convert_text _ _ _ _ _ _ _ _ _ _) as [[[t fmt3] args3]|] eqn:Ec; [|done]. destruct (format_text _ _ _ _ n _ _ _) as [T'|] eqn:E'; [|done]. injection E as <-.
    rewrite zlen_app in H1. pose proof (zlen_nonneg T'). pose proof (zlen_nonneg t). rewrite (convert_emits _ _ _ _ _ _ _ _ _ G Ec) by lia. destruct (scan_qualifier fmt2) as [|c' rest'].
    + cbn [convert_text] in Ec. injection Ec as <- <- <-. destruct n as [|n]; [done|]. cbn [format_text] in E'. injection E' as <-. exists true. cbn [emits app bindO]. destruct (dangling st); done.
    + destruct (emits_good lo hi m t st G) as (st1 & E1 & G1 & F1); [lia..|]. rewrite <- F1 in E'. destruct (IH fmt3 args3 st1 T' G1 E') as (b & Eb); [lia|]. exists b. rewrite emits_app, E1. cbn [bindO]. exact Eb.
Qed.
End Conversions.

(** What a text leaves in the buffer. *)
Lemma emits_stores hi l : forall str m, mapped m str (hi - str) -> 0 <= str -> str + zlen l < 2 ^ 32 ->
  emits hi l (str, m) = Ret (str + zlen l, write m str (map u8 (take (Z.to_nat (hi - str)) l))).
Proof.
  induction l as [|c l IH]; intros str m Hm H0 H1; [rewrite take_nil; simpl; by rewrite Z.add_0_r|].
  rewrite zlen_cons in *. pose proof (zlen_nonneg l). cbn [emits put]. rewrite (u32_id (str + 1)) by lia. destruct (Z.ltb_spec str hi).
  - rewrite (store_ok _ _ _ _ Hm) by lia. cbn [bindO write]. rewrite IH; [| |lia..].
    + replace (Z.to_nat (hi - str)) with (S (Z.to_nat (hi - (str + 1)))) by lia. cbn [take map write]. do 2 f_equal. lia.
    + replace (hi - (str + 1)) with (hi - str - 1) by lia. by apply mapped_tail.
  - cbn [bindO]. rewrite IH; [|intros i Hi; lia|lia..]. replace (Z.to_nat (hi - str)) with 0%nat by lia. replace (Z.to_nat (hi - (str + 1))) with 0%nat by lia. cbn [take map write]. do 2 f_equal. lia.
Qed.
Lemma write_last (m : mem) l p x : <[p + zlen l := x]> (write m p l) = write m p (l ++ [x]).
Proof. by rewrite write_app. Qed.

(** The terminator, at the end of the text or of the buffer; a percent sign
    that was stored in its place is overwritten. *)
Lemma terminate (m : mem) buf n T (b : bool) : 0 <= n -> mapped m buf n -> 0 <= buf -> buf + zlen T < 2 ^ 32 ->
  (let* (str, m) := (let* st := emits (buf + n) T (buf, m) in if b then dangling (buf + n) st else Ret st) in
   let* m := if 0 <? n then if str <? buf + n then store m str 0 else store m (buf + n - 1) 0 else Ret m in Ret (str, m))
  = Ret (buf + zlen T, if 0 <? n then write m buf (map u8 (take (Z.to_nat (n - 1)) T) ++ [0]) else m).
Proof.
  intros N0 Hm B0 B1. pose proof (zlen_nonneg T). replace n with (buf + n - buf) in Hm at 1 by lia. rewrite emits_stores by done. cbn [bindO]. replace (buf + n - buf) with n in * by lia.
  set (mT := write m buf _). assert (Mm : mapped mT buf n) by by apply mapped_write. destruct (Z.ltb_spec 0 n) as [Np|Np].
  2: { assert (mT = m) as -> by (unfold mT; by replace (Z.to_nat n) with 0%nat by lia). destruct b; unfold dangling; cbn [fst snd bindO]; [|done]. by destruct (Z.ltb_spec (buf + zlen T) (buf + n)); [lia|]. }
  destruct (Z.ltb_spec (buf + zlen T) (buf + n)) as [L|L].
  - assert (Tk : forall k, n - 1 <= k -> take (Z.to_nat k) T = T) by (intros k Hk; apply take_ge; unfold zlen in L; lia). rewrite Tk by lia.
    assert (Em : mT = write m buf (map u8 T)) by (unfold mT; by rewrite Tk by lia). assert (Lm : zlen (map u8 T) = zlen T) by (unfold zlen; by rewrite length_map).
    assert (Fin : forall m1, (m1 = mT \/ m1 = <[buf + zlen T := 37]> mT) -> mapped m1 buf n -> store m1 (buf + zlen T) 0 = Ret (write m buf (map u8 T ++ [0]))).
    { intros m1 H1 Hm1. destruct (Hm1 (zlen T)) as [x Ex]; [lia|]. unfold store. rewrite Ex. change (u8 0) with 0. f_equal. rewrite <- write_last, Lm, <- Em. destruct H1 as [->| ->]; [done|apply insert_insert_eq]. }
    destruct b; unfold dangling; cbn [fst snd bindO].
    + rewrite (proj2 (Z.ltb_lt _ _) L). destruct (Mm (zlen T)) as [x Ex]; [lia|]. unfold store at 1. rewrite Ex. cbn [bindO]. rewrite (proj2 (Z.ltb_lt _ _) L), Fin; [done|by right|].
      exact (mapped_write mT (buf + zlen T) [u8 37] buf n Mm).
    + rewrite (proj2 (Z.ltb_lt _ _) L), Fin; [done|by left|done].
  - assert (Db : (if b then dangling (buf + n) (buf + zlen T, mT) else Ret (buf + zlen T, mT)) = Ret (buf + zlen T, mT)) by (destruct b; unfold dangling; cbn [fst snd]; [rewrite (proj2 (Z.ltb_ge _ _) L)|]; done).
    rewrite Db. cbn [bindO]. rewrite (proj2 (Z.ltb_ge _ _) L). destruct (Mm (n - 1)) as [x Ex]; [lia|]. replace (buf + (n - 1)) with (buf + n - 1) in Ex by lia. unfold store. rewrite Ex. cbn [bindO]. change (u8 0) with 0. do 2 f_equal.
    destruct (lookup_lt_is_Some_2 T (Z.to_nat (n - 1))) as [c Ec]; [unfold zlen in L; lia|]. unfold mT. replace (Z.to_nat n) with (S (Z.to_nat (n - 1))) by lia. rewrite (take_S_r _ _ _ Ec), map_app. cbn [map].
    set (l := map u8 (take (Z.to_nat (n - 1)) T)). assert (Ll : zlen l = n - 1) by (unfold l, zlen; rewrite length_map, length_take; unfold zlen in L; lia).
    rewrite <- !write_last. replace (buf + zlen l) with (buf + n - 1) by lia. apply insert_insert_eq.
Qed.


(** "%s%5d" of "hi" and -42 in a buffer of six bytes. *)
Definition demo_print : mem := write demo_buffer 100 [104; 105; 0].

(** The output pointer wraps: after the last address a character is stored
    at the first. *)
Example put_wraps : (let* st := put (2 ^ 32 - 1) 65 (2 ^ 32 - 1, {[0 := 0]}) in put (2 ^ 32 - 1) 66 st) = Ret (1, {[0 := 66]}).
Proof. reflexivity. Qed.
