(* ===== verification/PageAlloc.v ===== *)
(** * The physical page allocator (memory/pg_alloc.c, include/pg_alloc.h)

    Two stacks of free pages: [isa] for the first 16 MB and [normal] for
    the rest.  Every page frame has a [PhysPage] structure in one array at
    PSTACK_START_ADDRESS; the free pages of a stack are linked through
    their [list] field.  At boot a bitmap records the reserved frames
    (PageReserveArea), PageInit pushes every other frame, and from then on
    PageAlloc and PageFree pop and push.

    The stacks are lists behind the interface [ListOps] of LList: the
    lemmas are proved for every implementation of the list laws, and the
    pointer implementation is an instance.  The abstract specification is
    a pair of sequences of frame numbers. *)

From S2P Require Import Prelude LList Bitmap.

(** ** Model *)

Definition BITMAP_START_ADDRESS : Z := 0xC0180000.
Definition PSTACK_START_ADDRESS : Z := 0xC0200000.
Definition KERNEL_ADDRESS_BASE : Z := 0xC0000000.
Definition VA_TO_PA (addr : Z) : Z := u32 (addr - KERNEL_ADDRESS_BASE).

(** sizeof(struct PhysPage) and the offset of its [list] field;
    sizeof(WaitQueue). *)
Definition SIZEOF_PhysPage : Z := 16.
Definition OFFSET_list : Z := 8.
Definition SIZEOF_WaitQueue : Z := 12.

(** [stack_list] is the address of the stack's list head. *)
Record PageStack := {
  numPages : Z;
  maxPages : Z;
  stack_list : ptr;
}.

Definition set_numPages (n : Z) (s : PageStack) : PageStack :=
  {| numPages := n; maxPages := maxPages s; stack_list := stack_list s |}.
Definition set_maxPages (n : Z) (s : PageStack) : PageStack :=
  {| numPages := numPages s; maxPages := n; stack_list := stack_list s |}.

Inductive stack_id := Isa | Normal.

#[export] Instance stack_id_eq_dec : EqDecision stack_id.
Proof. solve_decision. Defined.

(** The globals of pg_alloc.c.  [physAddr] and [refs] are the fields of
    the [PhysPage] structures by address of the structure; [lists] is the
    store of every [ListHead]; [wait_flags] the spin-lock words of the
    wait queues. *)
Record pgstate (M : Type) := {
  maxPfn : Z;
  allocatedBitmap : option (list Z);
  isa : PageStack;
  normal : PageStack;
  physAddr : gmap Z Z;
  refs : gmap Z Z;
  lists : M;
  waitQueues : Z;
  wait_flags : gmap Z Z;
}.
Arguments maxPfn {M} _.
Arguments allocatedBitmap {M} _.
Arguments isa {M} _.
Arguments normal {M} _.
Arguments physAddr {M} _.
Arguments refs {M} _.
Arguments lists {M} _.
Arguments waitQueues {M} _.
Arguments wait_flags {M} _.

Section Operations.
Context {M : Type} `{LO : ListOps M}.
Implicit Types st : pgstate M.

Definition with_maxPfn v st : pgstate M :=
  {| maxPfn := v; allocatedBitmap := allocatedBitmap st; isa := isa st; normal := normal st;
     physAddr := physAddr st; refs := refs st; lists := lists st;
     waitQueues := waitQueues st; wait_flags := wait_flags st |}.
Definition with_bitmap v st : pgstate M :=
  {| maxPfn := maxPfn st; allocatedBitmap := v; isa := isa st; normal := normal st;
     physAddr := physAddr st; refs := refs st; lists := lists st;
     waitQueues := waitQueues st; wait_flags := wait_flags st |}.
Definition with_lists v st : pgstate M :=
  {| maxPfn := maxPfn st; allocatedBitmap := allocatedBitmap st; isa := isa st; normal := normal st;
     physAddr := physAddr st; refs := refs st; lists := v;
     waitQueues := waitQueues st; wait_flags := wait_flags st |}.
Definition with_physAddr v st : pgstate M :=
  {| maxPfn := maxPfn st; allocatedBitmap := allocatedBitmap st; isa := isa st; normal := normal st;
     physAddr := v; refs := refs st; lists := lists st;
     waitQueues := waitQueues st; wait_flags := wait_flags st |}.
Definition with_refs v st : pgstate M :=
  {| maxPfn := maxPfn st; allocatedBitmap := allocatedBitmap st; isa := isa st; normal := normal st;
     physAddr := physAddr st; refs := v; lists := lists st;
     waitQueues := waitQueues st; wait_flags := wait_flags st |}.
Definition with_waitQueues v f st : pgstate M :=
  {| maxPfn := maxPfn st; allocatedBitmap := allocatedBitmap st; isa := isa st; normal := normal st;
     physAddr := physAddr st; refs := refs st; lists := lists st;
     waitQueues := v; wait_flags := f |}.

Definition get_stack (k : stack_id) st : PageStack :=
  match k with Isa => isa st | Normal => normal st end.
Definition with_stack (k : stack_id) (s : PageStack) st : pgstate M :=
  match k with
  | Isa =>
      {| maxPfn := maxPfn st; allocatedBitmap := allocatedBitmap st; isa := s;
         normal := normal st; physAddr := physAddr st; refs := refs st; lists := lists st;
         waitQueues := waitQueues st; wait_flags := wait_flags st |}
  | Normal =>
      {| maxPfn := maxPfn st; allocatedBitmap := allocatedBitmap st; isa := isa st;
         normal := s; physAddr := physAddr st; refs := refs st; lists := lists st;
         waitQueues := waitQueues st; wait_flags := wait_flags st |}
  end.

(** [&pageArrayPtr[i]] and [&pageArrayPtr[i].list]. *)
Definition page_struct (i : Z) : ptr := PSTACK_START_ADDRESS + SIZEOF_PhysPage * i.
Definition page_list (page : ptr) : ptr := page + OFFSET_list.

(** The body of PageReserveArea's loop; [n] is size / PAGE_SIZE. *)
Fixpoint reserve_loop (n : nat) (bitmap : list Z) (start : Z) : outcome (list Z) :=
  match n with
  | O => Ret bitmap
  | S n =>
      let* bitmap := BmapSetBit bitmap (Z.shiftr start 12) 1 in
      reserve_loop n bitmap (u32 (start + PAGE_SIZE))
  end.

Definition PageReserveArea (start size : Z) st : outcome (pgstate M) :=
  let start := PAGE_ALIGN start in
  let size := PAGE_ALIGN_UP size in
  match allocatedBitmap st with
  | None => Panic
  | Some bitmap =>
      let* bitmap := reserve_loop (Z.to_nat (size / PAGE_SIZE)) bitmap start in
      Ret (with_bitmap (Some bitmap) st)
  end.

(** [code] and [end_] are the addresses of the linker symbols. *)
Definition PageEarlyInit (code end_ endPfn : Z) st : outcome (pgstate M) :=
  let st := with_maxPfn endPfn st in
  let st := with_bitmap (Some (replicate (Z.to_nat (Z.shiftl 2 20 / 8)) 0)) st in
  let* st := PageReserveArea 0 PAGE_SIZE st in
  let* st := PageReserveArea (VA_TO_PA code) (u32 (end_ - code)) st in
  let* st := PageReserveArea (VA_TO_PA PSTACK_START_ADDRESS)
                             (u32 (endPfn * SIZEOF_PhysPage)) st in
  PageReserveArea
    (VA_TO_PA (PAGE_ALIGN_UP (u32 (PSTACK_START_ADDRESS + u32 (endPfn * SIZEOF_PhysPage)))))
    (u32 (Z.shiftr (u32 (endPfn + 1023)) 10 * SIZEOF_WaitQueue)) st.

Definition PageListPutPage (k : stack_id) (page : ptr) st : outcome (pgstate M) :=
  let s := get_stack k st in
  let st := with_stack k (set_numPages (u32 (numPages s + 1)) s) st in
  let* l := l_add (page_list page) (stack_list s) (lists st) in
  Ret (with_lists l st).

(** One pass of either loop of PageInit: record the frame's address and
    push it when [free] says so. *)
Definition init_page (k : stack_id) (free : Z -> list Z -> outcome bool) (i : Z) st
  : outcome (pgstate M) :=
  let page := page_struct i in
  let st := with_physAddr (<[page := u32 (Z.shiftl i 12)]> (physAddr st)) st in
  let* bitmap := of_option (allocatedBitmap st) in
  let* f := free i bitmap in
  if f : bool then
    let s := get_stack k st in
    let* l := l_add (page_list page) (stack_list s) (lists st) in
    Ret (with_stack k (set_numPages (u32 (numPages s + 1)) s) (with_lists l st))
  else Ret st.

Fixpoint init_pages (n : nat) (k : stack_id) (free : Z -> list Z -> outcome bool) (i : Z) st
  : outcome (pgstate M) :=
  match n with
  | O => Ret st
  | S n => let* st := init_page k free i st in init_pages n k free (i + 1) st
  end.

(** [!BmapGetBit(allocatedBitmap, i)] *)
Definition isa_free (i : Z) (bitmap : list Z) : outcome bool :=
  let* b := BmapGetBit bitmap i in Ret (negb (c_true b)).

(** [i >= 5120 || (i < 5120 && !BmapGetBit(allocatedBitmap, i))] *)
Definition normal_free (i : Z) (bitmap : list Z) : outcome bool :=
  if 5120 <=? i then Ret true else isa_free i bitmap.

Fixpoint init_waitqueues (n : nat) (i base : Z) (flags : gmap Z Z) (l : M)
  : outcome (gmap Z Z * M) :=
  match n with
  | O => Ret (flags, l)
  | S n =>
      let wq := base + SIZEOF_WaitQueue * i in
      let* l := l_init wq l in
      init_waitqueues n (i + 1) base (<[wq := 0]> flags) l
  end.

Definition init_stack (k : stack_id) st : outcome (pgstate M) :=
  let s := set_numPages 0 (get_stack k st) in
  let st := with_stack k s st in
  let* l := l_init (stack_list s) (lists st) in
  Ret (with_lists l st).

Definition PageInit st : outcome (pgstate M) :=
  let isaMax := if 4096 <? maxPfn st then 4096 else maxPfn st in
  let st := with_stack Isa (set_maxPages isaMax (isa st)) st in
  let* st := init_stack Isa st in
  let* st := init_pages (Z.to_nat isaMax) Isa isa_free 0 st in
  let* st := init_stack Normal st in
  let* st :=
    if maxPages (isa st) <? maxPfn st then
      let st := with_stack Normal (set_maxPages (maxPfn st - 4096) (normal st)) st in
      init_pages (Z.to_nat (maxPfn st - 4096)) Normal normal_free 4096 st
    else Ret st in
  let st := with_bitmap None st in
  let base := PAGE_ALIGN_UP (u32 (PSTACK_START_ADDRESS + u32 (maxPfn st * SIZEOF_PhysPage))) in
  let* (flags, l) := init_waitqueues (Z.to_nat (Z.shiftr (u32 (maxPfn st + 1023)) 10)) 0 base
                                     (wait_flags st) (lists st) in
  Ret (with_waitQueues base flags (with_lists l st)).

Definition PageListGetHead (k : stack_id) st : outcome (ptr * pgstate M) :=
  let s := get_stack k st in
  let* first := l_first (stack_list s) (lists st) in
  let page := ListEntry first OFFSET_list in
  let st := with_stack k (set_numPages (u32 (numPages s - 1)) s) st in
  let* l := l_remove first (lists st) in
  Ret (page, with_lists l st).

Definition PageGetStruct (address : Z) : ptr := page_struct (Z.shiftr address 12).

Definition PageAllocLow st : outcome (ptr * pgstate M) :=
  if numPages (isa st) <? 5 then Panic else PageListGetHead Isa st.

Definition PageAlloc st : outcome (ptr * pgstate M) :=
  if c_true (numPages (normal st)) then PageListGetHead Normal st else PageAllocLow st.

Definition PageFree (page : ptr) st : outcome (pgstate M) :=
  let* addr := of_option (physAddr st !! page) in
  let pagePfn := Z.shiftr addr 12 in
  if 4096 <? pagePfn then
    if u32 (maxPages (normal st) + 4096) <=? pagePfn then Ret st
    else PageListPutPage Normal page st
  else
    if maxPages (isa st) <=? pagePfn then Ret st
    else PageListPutPage Isa page st.

Definition PageFreeAddr (addr : Z) st : outcome (pgstate M) :=
  let page := PageGetStruct addr in
  if c_true page then PageFree page st else Ret st.

Definition PageGet (page : ptr) st : outcome (pgstate M) :=
  let* r := of_option (refs st !! page) in
  Ret (with_refs (<[page := s32 (r + 1)]> (refs st)) st).

Definition PagePut (page : ptr) st : outcome (pgstate M) :=
  let* r := of_option (refs st !! page) in
  let st := with_refs (<[page := s32 (r - 1)]> (refs st)) st in
  if s32 (r - 1) <=? 0 then PageFree page st else Ret st.

Definition PageGetWaitQueue (page : ptr) st : outcome ptr :=
  let* addr := of_option (physAddr st !! page) in
  Ret (waitQueues st + SIZEOF_WaitQueue * Z.shiftr addr 22).

End Operations.

(** ** Abstract specification: two sequences of free frame numbers *)

Record free_lists := { isa_pages : list Z; normal_pages : list Z }.

Definition spec_alloc (f : free_lists) : outcome (Z * free_lists) :=
  match normal_pages f, isa_pages f with
  | y :: ys, _ => Ret (y, {| isa_pages := isa_pages f; normal_pages := ys |})
  | [], xs =>
      if (length xs <? 5)%nat then Panic
      else match xs with
           | x :: xs => Ret (x, {| isa_pages := xs; normal_pages := [] |})
           | [] => Panic
           end
  end.

(** Frame 4096, the first one above 16 MB, is in neither stack's range as
    PageFree tests it: the call is ignored. *)
Definition spec_free (i : Z) (f : free_lists) : free_lists :=
  if 4096 <? i then {| isa_pages := isa_pages f; normal_pages := i :: normal_pages f |}
  else if i =? 4096 then f
  else {| isa_pages := i :: isa_pages f; normal_pages := normal_pages f |}.

Definition free_pages (f : free_lists) : list Z := normal_pages f ++ isa_pages f.

(** A client's calls; [OpFreePage i] frees the structure of frame [i]. *)
Inductive page_op := OpAllocPage | OpFreePage (i : Z).

Section Programs.
Context {M : Type} `{LO : ListOps M}.

Fixpoint run_page_ops (os : list page_op) (st : pgstate M) : outcome (list ptr * pgstate M) :=
  match os with
  | [] => Ret ([], st)
  | OpAllocPage :: os =>
      let* (p, st) := PageAlloc st in
      let* (ps, st) := run_page_ops os st in
      Ret (p :: ps, st)
  | OpFreePage i :: os =>
      let* st := PageFree (page_struct i) st in run_page_ops os st
  end.
End Programs.

(** The same program on the specification; [None] when the client frees a
    frame that does not exist or is already free. *)
Fixpoint spec_page_ops (maxpfn : Z) (os : list page_op) (f : free_lists)
  : option (outcome (list Z * free_lists)) :=
  match os with
  | [] => Some (Ret ([], f))
  | OpAllocPage :: os =>
      match spec_alloc f with
      | Ret (i, f) =>
          match spec_page_ops maxpfn os f with
          | Some (Ret (l, f)) => Some (Ret (i :: l, f))
          | r => r
          end
      | _ => Some Panic
      end
  | OpFreePage i :: os =>
      if (0 <=? i) && (i <? maxpfn) && negb (bool_decide (i ∈ free_pages f))
      then spec_page_ops maxpfn os (spec_free i f)
      else None
  end.

(** ** The invariant *)

Definition node (i : Z) : ptr := page_list (page_struct i).

(** The frames a stack may hold. *)
Definition stack_lo (k : stack_id) : Z := match k with Isa => 0 | Normal => 4096 end.
Definition stack_hi (k : stack_id) (maxpfn : Z) : Z :=
  match k with Isa => Z.min 4096 maxpfn | Normal => maxpfn end.

Definition pages (k : stack_id) (f : free_lists) : list Z :=
  match k with Isa => isa_pages f | Normal => normal_pages f end.
Definition with_pages (k : stack_id) (xs : list Z) (f : free_lists) : free_lists :=
  match k with
  | Isa => {| isa_pages := xs; normal_pages := normal_pages f |}
  | Normal => {| isa_pages := isa_pages f; normal_pages := xs |}
  end.

Section Invariant.
Context {M : Type} `{LO : ListOps M}.

(** What never changes after PageInit. *)
Record pg_static (st : pgstate M) : Prop := {
  st_pfn : 0 <= maxPfn st < 2 ^ 20;
  st_isa_max : maxPages (isa st) = Z.min 4096 (maxPfn st);
  st_normal_max : maxPages (normal st) = Z.max 0 (maxPfn st - 4096);
  st_phys : forall i, 0 <= i < maxPfn st ->
    physAddr st !! page_struct i = Some (Z.shiftl i 12);
  st_nodes : forall i, 0 <= i < maxPfn st -> lnode (lists st) (node i);
  st_heads : stack_list (isa st) <> stack_list (normal st);
  st_head : forall k i, 0 <= i < maxPfn st -> node i <> stack_list (get_stack k st);
}.

(** One stack represents a sequence of frames of [lo, hi). *)
Record stack_rep (s : PageStack) (l : M) (lo hi : Z) (xs : list Z) : Prop := {
  sr_list : lrep l (stack_list s) (node <$> xs);
  sr_num : numPages s = Z.of_nat (length xs);
  sr_range : Forall (fun i => lo <= i < hi) xs;
}.

Record pg_inv (st : pgstate M) (f : free_lists) : Prop := {
  inv_static : pg_static st;
  inv_stack : forall k, stack_rep (get_stack k st) (lists st) (stack_lo k)
                                  (stack_hi k (maxPfn st)) (pages k f);
}.
End Invariant.

(** ** Lemmas *)

Lemma node_inj i j : node i = node j -> i = j.
Proof. unfold node, page_list, page_struct, SIZEOF_PhysPage. lia. Qed.

#[export] Instance node_Inj : Inj (=) (=) node.
Proof. intros i j. apply node_inj. Qed.

Lemma ListEntry_node i : 0 <= i < 2 ^ 20 -> ListEntry (node i) OFFSET_list = page_struct i.
Proof.
  intros H. unfold ListEntry, node, page_list.
  replace (page_struct i + OFFSET_list - OFFSET_list) with (page_struct i) by lia.
  apply u32_id. unfold page_struct, PSTACK_START_ADDRESS, SIZEOF_PhysPage. lia.
Qed.

Lemma shiftr_shiftl_12 i : 0 <= i -> Z.shiftr (Z.shiftl i 12) 12 = i.
Proof. intros. rewrite Z.shiftr_shiftl_l by lia. apply Z.shiftl_0_r. Qed.

Lemma shiftl_12_range i : 0 <= i < 2 ^ 20 -> 0 <= Z.shiftl i 12 < 2 ^ 32.
Proof. intros. rewrite Z.shiftl_mul_pow2 by lia. lia. Qed.

(** Distinct integers of an interval are no more than its width. *)
Lemma range_length lo hi (xs : list Z) : lo <= hi -> NoDup xs ->
  Forall (fun i => lo <= i < hi) xs -> Z.of_nat (length xs) <= hi - lo.
Proof.
  intros Hl N B. rewrite Forall_forall in B.
  assert (xs ⊆+ seqZ lo (hi - lo)) as L%submseteq_length.
  { apply NoDup_submseteq; [done|]. intros i Hi. apply elem_of_seqZ.
    specialize (B i Hi). lia. }
  rewrite length_seqZ in L. lia.
Qed.

Section Proofs.
Context {M : Type} `{LO : ListOps M} `{LL : !ListLaws M}.
Implicit Types st : pgstate M.

Lemma stack_rep_frame s l l' lo hi xs S :
  lframe S l l' -> (forall p, p ∈ stack_list s :: (node <$> xs) -> p ∉ S) ->
  stack_rep s l lo hi xs -> stack_rep s l' lo hi xs.
Proof. intros F D [R N B]. split; [|done..]. eapply lrep_frame; eauto. Qed.

Lemma stack_frames st f k i : pg_inv st f -> i ∈ pages k f ->
  stack_lo k <= i < stack_hi k (maxPfn st).
Proof.
  intros I Hi. pose proof (sr_range _ _ _ _ _ (inv_stack _ _ I k)) as R.
  rewrite Forall_forall in R. auto.
Qed.

Lemma stack_frame_range k i n : stack_lo k <= i < stack_hi k n -> 0 <= i < n.
Proof. destruct k; simpl; lia. Qed.

(** The two stacks share no list node. *)
Lemma stacks_disjoint st f k k' p : pg_inv st f -> k <> k' ->
  p ∈ stack_list (get_stack k st) :: (node <$> pages k f) ->
  p ∉ stack_list (get_stack k' st) :: (node <$> pages k' f).
Proof.
  intros I Hk. pose proof (inv_static _ _ I) as St.
  rewrite !elem_of_cons, !list_elem_of_fmap.
  intros [->|(i & -> & Hi)] [E|(j & E & Hj)].
  - pose proof (st_heads _ St). destruct k, k'; simpl in *; congruence.
  - eapply st_head; [exact St| |exact (eq_sym E)].
    eapply stack_frame_range, stack_frames; eauto.
  - eapply st_head; [exact St| |exact E].
    eapply stack_frame_range, stack_frames; eauto.
  - apply node_inj in E as ->.
    pose proof (stack_frames _ _ _ _ I Hi). pose proof (stack_frames _ _ _ _ I Hj).
    destruct k, k'; simpl in *; congruence || lia.
Qed.

(** A stack never holds more frames than there are. *)
Lemma stack_length st f k : pg_inv st f -> Z.of_nat (length (pages k f)) <= maxPfn st.
Proof.
  intros I. destruct (inv_stack _ _ I k) as [R N B].
  apply lrep_nodup in R. apply NoDup_cons in R as [_ R]. apply NoDup_fmap_1 in R.
  pose proof (st_pfn _ (inv_static _ _ I)).
  enough (Z.of_nat (length (pages k f)) <= maxPfn st - 0) by lia.
  apply range_length; [lia|done|].
  eapply Forall_impl; [exact B|]. intros i Hi. exact (stack_frame_range k i _ Hi).
Qed.

(** Replace the contents of stack [k]; the list store changes inside [S],
    which does not meet the other stack. *)
Lemma inv_update st f k l n xs S : pg_inv st f ->
  lframe S (lists st) l ->
  (forall k' p, k' <> k -> p ∈ stack_list (get_stack k' st) :: (node <$> pages k' f) -> p ∉ S) ->
  lrep l (stack_list (get_stack k st)) (node <$> xs) ->
  n = Z.of_nat (length xs) ->
  Forall (fun i => stack_lo k <= i < stack_hi k (maxPfn st)) xs ->
  pg_inv (with_lists l (with_stack k (set_numPages n (get_stack k st)) st)) (with_pages k xs f).
Proof.
  intros I F D R N B. destruct I as [St Sk]. split.
  - destruct St. split; destruct k; simpl in *; eauto using lnode_frame.
    all: intros [] i Hi; simpl; [apply (st_head0 Isa)|apply (st_head0 Normal)]; done.
  - intros k'. destruct (decide (k' = k)) as [->|Hk].
    + destruct k; split; simpl in *; done.
    + pose proof (stack_rep_frame _ _ _ _ _ _ _ F (fun p => D k' p Hk) (Sk k')) as Hs.
      destruct k, k'; simpl in *; congruence || done.
Qed.

Lemma PageListGetHead_spec st f k x xs : pg_inv st f -> pages k f = x :: xs ->
  exists st', PageListGetHead k st = Ret (page_struct x, st')
    /\ pg_inv st' (with_pages k xs f).
Proof.
  intros I E. pose proof (inv_stack _ _ I k) as [R N B]. rewrite E in *.
  unfold PageListGetHead. rewrite (l_first_spec _ _ _ _ R). simpl.
  destruct (l_remove_spec (lists st) (node x) _ [] _ R) as (l & El & Rl & Fl).
  apply Forall_cons in B as [Bx B]. pose proof (st_pfn _ (inv_static _ _ I)) as Hp.
  rewrite ListEntry_node by (pose proof (stack_frame_range _ _ _ Bx); lia).
  replace (lists (with_stack _ _ st)) with (lists st) by (by destruct k).
  rewrite El. simpl. eexists; split; [reflexivity|].
  eapply inv_update; [done|exact Fl| |exact Rl| |exact B].
  - intros k' p Hk Hin. pose proof (stacks_disjoint _ _ _ _ _ I Hk Hin) as D.
    by rewrite E in D.
  - rewrite N. simpl. rewrite u32_id; simpl in *; [lia|].
    pose proof (stack_length _ _ k I) as L. rewrite E in L. simpl in L. lia.
Qed.

Lemma PageListPutPage_spec st f k i : pg_inv st f ->
  stack_lo k <= i < stack_hi k (maxPfn st) -> i ∉ pages k f ->
  exists st', PageListPutPage k (page_struct i) st = Ret st'
    /\ pg_inv st' (with_pages k (i :: pages k f) f).
Proof.
  intros I Hi Ni. pose proof (inv_stack _ _ I k) as [R N B].
  pose proof (inv_static _ _ I) as St. pose proof (stack_frame_range _ _ _ Hi) as Hi'.
  unfold PageListPutPage. rewrite N.
  replace (lists (with_stack _ _ st)) with (lists st) by (by destruct k).
  change (page_list (page_struct i)) with (node i).
  destruct (l_add_spec _ (node i) _ _ R (st_nodes _ St i Hi')) as (l & El & Rl & Fl).
  { rewrite not_elem_of_cons. split; [by apply st_head|].
    intros Hin. apply Ni. by apply (list_elem_of_fmap_inj_2 node). }
  rewrite El. simpl. eexists; split; [reflexivity|].
  eapply inv_update; [done|exact Fl| |exact Rl| |by constructor].
  - intros k' p Hk Hin. pose proof (stacks_disjoint _ _ _ _ _ I Hk Hin) as D.
    rewrite not_elem_of_cons. split; [|done]. intros ->.
    apply elem_of_cons in Hin as [Eh|Hn].
    + exact (st_head _ St k' i Hi' Eh).
    + apply (list_elem_of_fmap_inj_2 node) in Hn.
      pose proof (stack_frames _ _ _ _ I Hn). destruct k, k'; simpl in *; congruence || lia.
  - pose proof (stack_length _ _ k I). pose proof (st_pfn _ St).
    simpl. rewrite u32_id; lia.
Qed.

Lemma PageAlloc_spec st f : pg_inv st f ->
  match spec_alloc f with
  | Ret (i, f') => exists st', PageAlloc st = Ret (page_struct i, st') /\ pg_inv st' f'
  | _ => PageAlloc st = Panic
  end.
Proof.
  intros I. unfold PageAlloc, PageAllocLow, spec_alloc.
  pose proof (sr_num _ _ _ _ _ (inv_stack _ _ I Normal)) as Nn.
  pose proof (sr_num _ _ _ _ _ (inv_stack _ _ I Isa)) as Ni.
  simpl in *. rewrite Nn, Ni.
  destruct f as [xs [|y ys]]; simpl in *.
  - destruct xs as [|x xs]; [done|].
    destruct (Z.ltb_spec (Z.of_nat (length (x :: xs))) 5), (Nat.ltb_spec (length (x :: xs)) 5);
      [done|lia..|].
    apply (PageListGetHead_spec st _ Isa x xs I eq_refl).
  - apply (PageListGetHead_spec st _ Normal y ys I eq_refl).
Qed.

Lemma PageFree_spec st f i : pg_inv st f -> 0 <= i < maxPfn st -> i ∉ free_pages f ->
  exists st', PageFree (page_struct i) st = Ret st' /\ pg_inv st' (spec_free i f).
Proof.
  intros I Hi Nf. pose proof (inv_static _ _ I) as St. pose proof (st_pfn _ St) as Hp.
  unfold free_pages in Nf. rewrite not_elem_of_app in Nf. destruct Nf as [Nn Ni].
  unfold PageFree, spec_free. rewrite (st_phys _ St i Hi). simpl.
  rewrite shiftr_shiftl_12 by lia. rewrite (st_isa_max _ St), (st_normal_max _ St).
  destruct (Z.ltb_spec 4096 i).
  - rewrite u32_id by lia. destruct (Z.leb_spec (Z.max 0 (maxPfn st - 4096) + 4096) i); [lia|].
    apply (PageListPutPage_spec st f Normal); simpl; [done|lia|done].
  - destruct (Z.eqb_spec i 4096), (Z.leb_spec (Z.min 4096 (maxPfn st)) i); try lia.
    + eauto.
    + apply (PageListPutPage_spec st f Isa); simpl; [done|lia|done].
Qed.

Lemma PageListGetHead_maxPfn st k p st' :
  PageListGetHead k st = Ret (p, st') -> maxPfn st' = maxPfn st.
Proof. unfold PageListGetHead. intros E. inv_outcome. by destruct k. Qed.

Lemma PageAlloc_maxPfn st p st' : PageAlloc st = Ret (p, st') -> maxPfn st' = maxPfn st.
Proof.
  unfold PageAlloc, PageAllocLow. intros E.
  destruct (c_true _); [|destruct (_ <? _); [done|]]; by eapply PageListGetHead_maxPfn.
Qed.

Lemma PageListPutPage_maxPfn st k p st' :
  PageListPutPage k p st = Ret st' -> maxPfn st' = maxPfn st.
Proof. unfold PageListPutPage. intros E. inv_outcome. by destruct k. Qed.

Lemma PageFree_maxPfn st p st' : PageFree p st = Ret st' -> maxPfn st' = maxPfn st.
Proof.
  unfold PageFree. intros E. inv_outcome.
  destruct (_ <? _), (_ <=? _); inv_outcome; eauto using PageListPutPage_maxPfn.
Qed.

(** The trace refinement, for every implementation of the lists. *)
Lemma run_page_ops_spec os : forall st f r, pg_inv st f ->
  spec_page_ops (maxPfn st) os f = Some r ->
  match r with
  | Ret (is_, f') => exists st', run_page_ops os st = Ret (page_struct <$> is_, st')
                                 /\ pg_inv st' f'
  | _ => run_page_ops os st = Panic
  end.
Proof.
  induction os as [|[|i] os IH]; intros st f r I E; simpl in E.
  - injection E as <-. simpl. eauto.
  - pose proof (PageAlloc_spec st f I) as A. simpl.
    destruct (spec_alloc f) as [[i f']| | |]; [|injection E as <-; by rewrite A..].
    destruct A as (st1 & A & I1). rewrite A. simpl.
    pose proof (PageAlloc_maxPfn _ _ _ A) as Em.
    destruct (spec_page_ops (maxPfn st) os f') as [r'|] eqn:Er; [|done].
    rewrite <- Em in Er. specialize (IH _ _ _ I1 Er).
    destruct r' as [[l f2]| | |]; injection E as <-; [|by rewrite IH..].
    destruct IH as (st2 & -> & I2). simpl. eauto.
  - destruct ((0 <=? i) && (i <? maxPfn st) && negb (bool_decide (i ∈ free_pages f))) eqn:G;
      [|done].
    apply andb_prop in G as [G Gn]. apply andb_prop in G as [G0 G1].
    apply Z.leb_le in G0. apply Z.ltb_lt in G1. apply negb_true_iff, bool_decide_eq_false in Gn.
    destruct (PageFree_spec st f i I (conj G0 G1) Gn) as (st1 & A & I1).
    simpl. rewrite A. simpl. apply (IH st1 _ _ I1). by rewrite (PageFree_maxPfn _ _ _ A).
Qed.

(** ** Reserving an area *)

Lemma reserve_loop_spec n : forall bitmap start, wf_bytes bitmap ->
  0 <= start -> start mod PAGE_SIZE = 0 -> start + PAGE_SIZE * Z.of_nat n <= 2 ^ 32 ->
  start / PAGE_SIZE + Z.of_nat n <= 8 * Z.of_nat (length bitmap) ->
  exists bitmap', reserve_loop n bitmap start = Ret bitmap' /\ wf_bytes bitmap' /\
    length bitmap' = length bitmap /\
    forall i, 0 <= i -> bit bitmap' i
      = bit bitmap i || (start / PAGE_SIZE <=? i) && (i <? start / PAGE_SIZE + Z.of_nat n).
Proof.
  unfold PAGE_SIZE. induction n as [|n IH]; intros bm start W H0 Hm Hb Hl.
  - exists bm. split_and!; [done..|]. intros i Hi. zcases; simpl; try lia; by rewrite ?orb_false_r.
  - cbn [reserve_loop]. rewrite Z.shiftr_div_pow2 by lia. change (2 ^ 12) with 4096.
    assert (0 <= start / 4096) by (apply Z.div_pos; lia).
    destruct (BmapSetBit_spec bm (start / 4096) true W) as (bm1 & E1 & L1 & W1 & B1).
    { unfold in_bitmap. lia. }
    change (bool_value true) with 1 in E1. rewrite E1. cbn [bindO].
    destruct (decide (n = 0%nat)) as [->|Hn].
    { cbn [reserve_loop]. exists bm1. split_and!; [done..|]. intros i Hi. rewrite B1 by done.
      zcases; simpl; try lia; by rewrite ?orb_true_r, ?orb_false_r. }
    unfold PAGE_SIZE. rewrite u32_id by lia.
    assert (Hd : (start + 4096) / 4096 = start / 4096 + 1).
    { replace (start + 4096) with (start + 1 * 4096) by lia. by rewrite Z.div_add by lia. }
    destruct (IH bm1 (start + 4096) W1) as (bm2 & E2 & W2 & L2 & B2).
    { lia. }
    { replace (start + 4096) with (start + 1 * 4096) by lia. by rewrite Z.mod_add by lia. }
    { lia. }
    { rewrite Hd, L1. lia. }
    exists bm2. rewrite E2. split_and!; [done|done|congruence|]. intros i Hi.
    rewrite B2, B1, Hd by done.
    zcases; simpl; try lia; by rewrite ?orb_true_r, ?orb_false_r.
Qed.

(** ** Building the stacks *)

(** The list store changed only at nodes of [A]. *)
Definition keeps (A : ptr -> Prop) (l l' : M) : Prop :=
  (forall p, lnode l p -> lnode l' p) /\
  (forall hd ys, lrep l hd ys -> (forall p, p ∈ hd :: ys -> ~ A p) -> lrep l' hd ys).

Lemma keeps_frame S l l' : lframe S l l' -> keeps (fun p => p ∈ S) l l'.
Proof. split; intros; [eapply lnode_frame|eapply lrep_frame]; eauto. Qed.

Lemma keeps_refl A l : keeps A l l.
Proof. by split. Qed.

Lemma keeps_trans A B l l' l'' : keeps A l l' -> keeps B l' l'' ->
  keeps (fun p => A p \/ B p) l l''.
Proof.
  intros [N1 R1] [N2 R2]. split; [auto|]. intros hd ys R D.
  apply R2; [apply R1; [done|]|]; intros p Hp; specialize (D p Hp); tauto.
Qed.

Lemma keeps_weaken (A B : ptr -> Prop) l l' :
  (forall p, A p -> B p) -> keeps A l l' -> keeps B l l'.
Proof. intros W [N R]. split; [auto|]. intros hd ys Hr D. apply R; [done|]. firstorder. Qed.

(** Everything an init loop over stack [k] leaves alone. *)
Record same_globals (k : stack_id) st st' : Prop := {
  sg_pfn : maxPfn st' = maxPfn st;
  sg_bitmap : allocatedBitmap st' = allocatedBitmap st;
  sg_other : forall k', k' <> k -> get_stack k' st' = get_stack k' st;
  sg_max : maxPages (get_stack k st') = maxPages (get_stack k st);
  sg_head : stack_list (get_stack k st') = stack_list (get_stack k st);
}.

Lemma same_globals_trans k st st' st'' :
  same_globals k st st' -> same_globals k st' st'' -> same_globals k st st''.
Proof.
  intros [] []. split; try congruence. intros k' Hk. rewrite sg_other1 by done. auto.
Qed.

(** The frames of [i, i+n) that [fr] accepts, last first: the order in
    which a loop of PageInit leaves them on the stack. *)
Definition frames_where (fr : Z -> bool) (i n : Z) : list Z :=
  reverse (filter (fun j => Is_true (fr j)) (seqZ i n)).

Lemma frames_where_S fr i n : 0 <= n ->
  frames_where fr i (n + 1) = frames_where fr (i + 1) n ++ (if fr i then [i] else []).
Proof.
  intros Hn. unfold frames_where. rewrite seqZ_cons by lia. rewrite filter_cons.
  replace (Z.pred (n + 1)) with n by lia. change (Z.succ i) with (i + 1).
  destruct (decide (Is_true (fr i))) as [H|H]; destruct (fr i); try done.
  - by rewrite reverse_cons.
  - by rewrite app_nil_r.
Qed.

Lemma frames_where_range fr i n : Forall (fun j => i <= j < i + n) (frames_where fr i n).
Proof.
  apply Forall_forall. intros j. unfold frames_where.
  rewrite elem_of_reverse, list_elem_of_filter, elem_of_seqZ. tauto.
Qed.

(** A push inside an init loop. *)
Lemma init_page_spec k free fr i st xs bm :
  let s := get_stack k st in
  lrep (lists st) (stack_list s) (node <$> xs) -> numPages s = Z.of_nat (length xs) ->
  Z.of_nat (length xs) < 2 ^ 20 -> 0 <= i < 2 ^ 20 ->
  i ∉ xs -> node i <> stack_list s -> lnode (lists st) (node i) ->
  allocatedBitmap st = Some bm -> free i bm = Ret (fr i) ->
  let xs' := if fr i : bool then i :: xs else xs in
  exists st', init_page k free i st = Ret st' /\ same_globals k st st'
    /\ lrep (lists st') (stack_list s) (node <$> xs')
    /\ numPages (get_stack k st') = Z.of_nat (length xs')
    /\ physAddr st' = <[page_struct i := Z.shiftl i 12]> (physAddr st)
    /\ keeps (fun p => p ∈ node i :: stack_list s :: (node <$> xs)) (lists st) (lists st').
Proof.
  intros s R N Lx Hi Ni Nh Al Eb Ef. unfold init_page. simpl. rewrite Eb. simpl. rewrite Ef. simpl.
  rewrite u32_id by by apply shiftl_12_range.
  destruct (fr i).
  - change (page_list (page_struct i)) with (node i).
    destruct (l_add_spec (lists st) (node i) _ _ R Al) as (l & El & Rl & Fl).
    { rewrite not_elem_of_cons. split; [done|]. intros Hin. apply Ni.
      by apply (list_elem_of_fmap_inj_2 node). }
    subst s.
    destruct k; simpl in *; rewrite El; simpl; (eexists; split; [reflexivity|]);
      split_and!; try done; try (by apply keeps_frame); try (split; try done; by intros []);
      simpl; rewrite N, u32_id; lia.
  - eexists; split; [reflexivity|]. subst s.
    destruct k; simpl; split_and!; try done; try (by apply keeps_refl).
Qed.

(** The nodes an init loop over the frames [i, i+n) of a stack touches. *)
Definition loop_nodes (s : PageStack) (lo hi : Z) (p : ptr) : Prop :=
  p = stack_list s \/ exists j, lo <= j < hi /\ p = node j.

Lemma init_pages_spec k free fr bm lo n : forall i st xs,
  let s := get_stack k st in
  lrep (lists st) (stack_list s) (node <$> xs) -> numPages s = Z.of_nat (length xs) ->
  Z.of_nat (length xs) <= i - lo -> 0 <= lo <= i -> i + Z.of_nat n < 2 ^ 20 ->
  Forall (fun j => lo <= j < i) xs ->
  (forall j, i <= j < i + Z.of_nat n ->
     node j <> stack_list s /\ lnode (lists st) (node j) /\ free j bm = Ret (fr j)) ->
  allocatedBitmap st = Some bm ->
  let xs' := frames_where fr i (Z.of_nat n) ++ xs in
  exists st', init_pages n k free i st = Ret st' /\ same_globals k st st'
    /\ lrep (lists st') (stack_list s) (node <$> xs')
    /\ numPages (get_stack k st') = Z.of_nat (length xs')
    /\ (forall j, i <= j < i + Z.of_nat n -> physAddr st' !! page_struct j = Some (Z.shiftl j 12))
    /\ (forall j, j < i -> physAddr st' !! page_struct j = physAddr st !! page_struct j)
    /\ keeps (loop_nodes s lo (i + Z.of_nat n)) (lists st) (lists st').
Proof.
  induction n as [|n IH]; intros i st xs s R N L Hlo Hi B Hj Eb xs'.
  - exists st. simpl. split_and!; try done; intros; lia.
  - destruct (Hj i ltac:(lia)) as (Nh & Al & Ef). rewrite Forall_forall in B.
    destruct (init_page_spec k free fr i st xs bm R N) as
      (st1 & E1 & G1 & R1 & N1 & P1 & K1); try done; [lia..| |].
    { intros Hin. specialize (B i Hin). lia. }
    cbn [init_pages]. rewrite E1. cbn [bindO].
    set (xs1 := if fr i then i :: xs else xs) in *.
    assert (Hs : stack_list (get_stack k st1) = stack_list s) by apply G1.
    destruct (IH (i + 1) st1 xs1) as (st2 & E2 & G2 & R2 & N2 & P2 & P2' & K2).
    { by rewrite Hs. }
    { done. }
    { subst xs1. destruct (fr i); simpl; lia. }
    { lia. }
    { lia. }
    { apply Forall_forall. intros j Hin. subst xs1.
      destruct (fr i); [apply elem_of_cons in Hin as [->|Hin]|];
        try specialize (B j Hin); lia. }
    { intros j Hjj. rewrite Hs. destruct (Hj j ltac:(lia)) as (? & ? & ?).
      split_and!; try done. by apply K1. }
    { rewrite <- Eb. apply G1. }
    assert (Ex : xs' = frames_where fr (i + 1) (Z.of_nat n) ++ xs1).
    { subst xs' xs1. replace (Z.of_nat (S n)) with (Z.of_nat n + 1) by lia.
      rewrite frames_where_S, <- app_assoc by lia. by destruct (fr i). }
    exists st2. rewrite Ex. rewrite Hs in R2. split_and!; try done.
    + by eapply same_globals_trans.
    + intros j Hjj. destruct (decide (j = i)) as [->|]; [|apply P2; lia].
      rewrite P2' by lia. rewrite P1. apply lookup_insert_eq.
    + intros j Hjj. rewrite P2' by lia. rewrite P1. apply lookup_insert_ne.
      unfold page_struct, SIZEOF_PhysPage. lia.
    + eapply keeps_weaken; [|exact (keeps_trans _ _ _ _ _ K1 K2)].
      unfold loop_nodes. rewrite Hs. intros q [Hq|[Hq|(j & Hjj & Hq)]].
      * apply elem_of_cons in Hq as [->|Hq]; [right; exists i; split; [lia|done]|].
        apply elem_of_cons in Hq as [->|Hq]; [by left|].
        apply list_elem_of_fmap in Hq as (j & -> & Hin). specialize (B j Hin).
        right. exists j. split; [lia|done].
      * by left.
      * right. exists j. split; [lia|done].
Qed.

Lemma init_waitqueues_spec n : forall i base flags l, 0 <= i ->
  (forall j, i <= j < i + Z.of_nat n -> lnode l (base + SIZEOF_WaitQueue * j)) ->
  exists flags' l', init_waitqueues n i base flags l = Ret (flags', l')
    /\ keeps (fun p => exists j, i <= j < i + Z.of_nat n /\ p = base + SIZEOF_WaitQueue * j) l l'.
Proof.
  induction n as [|n IH]; intros i base flags l Hi Hn.
  - do 2 eexists. split; [reflexivity|]. apply keeps_refl.
  - cbn [init_waitqueues].
    destruct (l_init_spec l _ (Hn i ltac:(lia))) as (l1 & E1 & R1 & F1).
    rewrite E1. cbn [bindO]. apply keeps_frame in F1.
    destruct (IH (i + 1) base (<[base + SIZEOF_WaitQueue * i := 0]> flags) l1)
      as (fl & l2 & E2 & K2); [lia| |].
    { intros j Hj. apply F1, Hn. lia. }
    exists fl, l2. split; [done|].
    eapply keeps_weaken; [|exact (keeps_trans _ _ _ _ _ F1 K2)].
    intros q [Hq|(j & Hj & ->)].
    + apply list_elem_of_singleton in Hq as ->. exists i. split; [lia|done].
    + exists j. split; [lia|done].
Qed.

Lemma init_stack_spec k st : lnode (lists st) (stack_list (get_stack k st)) ->
  exists st', init_stack k st = Ret st' /\ same_globals k st st'
    /\ lrep (lists st') (stack_list (get_stack k st)) []
    /\ numPages (get_stack k st') = 0 /\ physAddr st' = physAddr st
    /\ keeps (fun p => p = stack_list (get_stack k st)) (lists st) (lists st').
Proof.
  intros A. destruct (l_init_spec _ _ A) as (l & E & R & F). apply keeps_frame in F.
  assert (F' : keeps (fun p => p = stack_list (get_stack k st)) (lists st) l).
  { eapply keeps_weaken; [|exact F]. intros q Hq. by apply list_elem_of_singleton in Hq. }
  unfold init_stack. destruct k; simpl in *; rewrite E; simpl;
    (eexists; split; [reflexivity|]); split_and!; try done;
    (split; try done; by intros []).
Qed.

Lemma isa_free_spec bm i : in_bitmap bm i -> isa_free i bm = Ret (negb (bit bm i)).
Proof.
  intros H. unfold isa_free. destruct (BmapGetBit_spec bm i H) as (r & -> & Hr).
  simpl. by rewrite Hr.
Qed.

Lemma normal_free_spec bm i : (i < 5120 -> in_bitmap bm i) ->
  normal_free i bm = Ret ((5120 <=? i) || negb (bit bm i)).
Proof.
  intros H. unfold normal_free. destruct (Z.leb_spec 5120 i); simpl; [done|].
  apply isa_free_spec. auto.
Qed.

(** A stack emptied and then filled with the accepted frames of [lo, lo+n);
    PageInit sets [maxPages] of the normal stack in between. *)
Lemma build_stack_spec k free fr bm lo n (m : Z) st st0 :
  init_stack k st = Ret st0 ->
  lnode (lists st) (stack_list (get_stack k st)) ->
  0 <= lo -> 0 <= n -> lo + n < 2 ^ 20 -> allocatedBitmap st = Some bm ->
  (forall j, lo <= j < lo + n ->
     node j <> stack_list (get_stack k st) /\ lnode (lists st) (node j) /\ free j bm = Ret (fr j)) ->
  exists st',
    init_pages (Z.to_nat n) k free lo (with_stack k (set_maxPages m (get_stack k st0)) st0) = Ret st'
    /\ maxPfn st' = maxPfn st /\ allocatedBitmap st' = Some bm
    /\ (forall k', k' <> k -> get_stack k' st' = get_stack k' st)
    /\ maxPages (get_stack k st') = m
    /\ stack_list (get_stack k st') = stack_list (get_stack k st)
    /\ stack_rep (get_stack k st') (lists st') lo (lo + n) (frames_where fr lo n)
    /\ (forall j, lo <= j < lo + n -> physAddr st' !! page_struct j = Some (Z.shiftl j 12))
    /\ (forall j, j < lo -> physAddr st' !! page_struct j = physAddr st !! page_struct j)
    /\ keeps (loop_nodes (get_stack k st) lo (lo + n)) (lists st) (lists st').
Proof.
  intros E0 A Hlo Hn Hb Eb Hj.
  destruct (init_stack_spec k st A) as (st0' & E0' & G0 & R0 & N0 & P0 & K0).
  rewrite E0 in E0'. injection E0' as <-.
  set (st1 := with_stack k (set_maxPages m (get_stack k st0)) st0).
  assert (H1 : get_stack k st1 = set_maxPages m (get_stack k st0)) by (by destruct k).
  assert (H1o : forall k', k' <> k -> get_stack k' st1 = get_stack k' st0)
    by (intros [] ?; destruct k; simpl; congruence).
  assert (H1l : lists st1 = lists st0) by (by destruct k).
  assert (H1p : physAddr st1 = physAddr st0) by (by destruct k).
  assert (H1b : allocatedBitmap st1 = allocatedBitmap st0) by (by destruct k).
  assert (H1m : maxPfn st1 = maxPfn st0) by (by destruct k).
  assert (H1s : stack_list (get_stack k st1) = stack_list (get_stack k st)).
  { rewrite H1. simpl. apply G0. }
  destruct (init_pages_spec k free fr bm lo (Z.to_nat n) lo st1 []) as
    (st' & E & G & R & N & P & P' & K); rewrite ?H1l, ?H1s, ?Z2Nat.id in * by lia.
  { done. }
  { by rewrite H1. }
  { simpl; lia. }
  { lia. }
  { lia. }
  { constructor. }
  { intros j Hjj. destruct (Hj j Hjj) as (? & ? & ?). split_and!; try done. by apply K0. }
  { rewrite H1b, <- Eb. apply G0. }
  rewrite !app_nil_r in *.
  exists st'. split; [done|]. destruct G as [Gp Gb Go Gm Gh], G0 as [Gp0 Gb0 Go0 Gm0 Gh0].
  split_and!; try congruence.
  - intros k' Hk. rewrite Go, H1o by done. auto.
  - rewrite Gm, H1. done.
  - split; [by rewrite Gh, H1s|done|apply frames_where_range].
  - intros j Hjj. by apply P.
  - intros j Hjj. by rewrite P', H1p, P0.
  - eapply keeps_weaken; [|exact (keeps_trans _ _ _ _ _ K0 K)].
    unfold loop_nodes. rewrite H1s. intros q [->|Hq]; [by left|exact Hq].
Qed.

Definition wq_base (maxpfn : Z) : Z :=
  PAGE_ALIGN_UP (u32 (PSTACK_START_ADDRESS + u32 (maxpfn * SIZEOF_PhysPage))).
Definition wq_addr (maxpfn i : Z) : ptr := wq_base maxpfn + SIZEOF_WaitQueue * i.
Definition wq_count (maxpfn : Z) : Z := Z.shiftr (u32 (maxpfn + 1023)) 10.

(** The wait queues lie after the page structures. *)
Lemma wq_not_node n i j : 0 <= n < 2 ^ 20 -> 0 <= j < n -> 0 <= i -> node j <> wq_addr n i.
Proof.
  intros Hn Hj Hi. unfold wq_addr, wq_base, node, page_list, page_struct, OFFSET_list,
    PSTACK_START_ADDRESS, SIZEOF_PhysPage, SIZEOF_WaitQueue in *.
  rewrite (u32_id (n * 16)), u32_id by lia.
  rewrite PAGE_ALIGN_UP_eq by (unfold PAGE_SIZE; lia). unfold PAGE_SIZE.
  pose proof (Z.div_mod (3223322624 + n * 16 + 4096 - 1) 4096).
  pose proof (Z.mod_pos_bound (3223322624 + n * 16 + 4096 - 1) 4096). lia.
Qed.

(** The state PageInit starts from: the reservation bitmap, the static
    list heads, and memory behind every structure it links. *)
Record boot_state st (bm : list Z) : Prop := {
  b_pfn : 0 <= maxPfn st < 2 ^ 20;
  b_bitmap : allocatedBitmap st = Some bm;
  b_len : Z.min 5120 (maxPfn st) <= 8 * Z.of_nat (length bm);
  b_normal : maxPages (normal st) = 0;
  b_nodes : forall i, 0 <= i < maxPfn st -> lnode (lists st) (node i);
  b_head_nodes : forall k, lnode (lists st) (stack_list (get_stack k st));
  b_heads : stack_list (isa st) <> stack_list (normal st);
  b_head : forall k i, 0 <= i < maxPfn st -> node i <> stack_list (get_stack k st);
  b_wq : forall i, 0 <= i < wq_count (maxPfn st) -> lnode (lists st) (wq_addr (maxPfn st) i);
  b_wq_head : forall k i, 0 <= i < wq_count (maxPfn st) ->
    wq_addr (maxPfn st) i <> stack_list (get_stack k st);
}.

(** What PageInit leaves on the stacks. *)
Definition boot_free (bm : list Z) (n : Z) : free_lists := {|
  isa_pages := frames_where (fun i => negb (bit bm i)) 0 (Z.min 4096 n);
  normal_pages := frames_where (fun i => (5120 <=? i) || negb (bit bm i)) 4096 (n - 4096);
|}.

Lemma stack_rep_keeps A s l l' lo hi xs : keeps A l l' ->
  (forall p, p ∈ stack_list s :: (node <$> xs) -> ~ A p) ->
  stack_rep s l lo hi xs -> stack_rep s l' lo hi xs.
Proof. intros K D [R N B]. split; [|done..]. by apply K. Qed.

(** The wait-queue loop keeps an established pair of stacks. *)
Lemma finish_init st f : pg_inv st f ->
  (forall i, 0 <= i < wq_count (maxPfn st) -> lnode (lists st) (wq_addr (maxPfn st) i)) ->
  (forall k i, 0 <= i < wq_count (maxPfn st) ->
     wq_addr (maxPfn st) i <> stack_list (get_stack k st)) ->
  exists flags l, init_waitqueues (Z.to_nat (wq_count (maxPfn st))) 0 (wq_base (maxPfn st))
                                  (wait_flags st) (lists st) = Ret (flags, l)
    /\ pg_inv (with_waitQueues (wq_base (maxPfn st)) flags (with_lists l st)) f.
Proof.
  intros [St Sk] Hw Hh. pose proof (st_pfn _ St) as Hp.
  assert (0 <= wq_count (maxPfn st)) by (apply Z.shiftr_nonneg, u32_range).
  destruct (init_waitqueues_spec (Z.to_nat (wq_count (maxPfn st))) 0 (wq_base (maxPfn st))
              (wait_flags st) (lists st)) as (fl & l & E & K); [done| |].
  { intros j Hj. rewrite Z2Nat.id in Hj by done. by apply Hw. }
  rewrite Z2Nat.id in K by done.
  exists fl, l. split; [done|]. split.
  - destruct St. split; try done. simpl. intros i Hi. apply K. auto.
  - intros k. apply (stack_rep_keeps _ _ (lists st) l _ _ _ K); [|destruct k; [exact (Sk Isa)|exact (Sk Normal)]].
    intros q Hq (j & Hj & ->). change (wq_base _ + _) with (wq_addr (maxPfn st) j) in Hq.
    apply elem_of_cons in Hq as [Hq|Hq].
    + apply (Hh k j); [lia|]. by destruct k.
    + apply list_elem_of_fmap in Hq as (i & Eq & Hi).
      pose proof (sr_range _ _ _ _ _ (Sk k)) as R. rewrite Forall_forall in R.
      specialize (R i Hi). apply stack_frame_range in R.
      symmetry in Eq. revert Eq. apply wq_not_node; lia.
Qed.

Lemma init_stack_eta k st st' : init_stack k st = Ret st' ->
  with_stack k (set_maxPages (maxPages (get_stack k st)) (get_stack k st')) st' = st'.
Proof. unfold init_stack. intros E. inv_outcome. by destruct k. Qed.

Lemma frames_where_empty fr i n : n <= 0 -> frames_where fr i n = [].
Proof. intros. unfold frames_where. by rewrite seqZ_nil. Qed.

(** The second half of PageInit: the normal stack. *)
Lemma init_normal_spec st bm : 0 <= maxPfn st < 2 ^ 20 -> allocatedBitmap st = Some bm ->
  Z.min 5120 (maxPfn st) <= 8 * Z.of_nat (length bm) ->
  maxPages (isa st) = Z.min 4096 (maxPfn st) -> maxPages (normal st) = 0 ->
  (forall i, 0 <= i < maxPfn st -> lnode (lists st) (node i)) ->
  lnode (lists st) (stack_list (normal st)) ->
  (forall i, 0 <= i < maxPfn st -> node i <> stack_list (normal st)) ->
  exists st0 st', init_stack Normal st = Ret st0 /\
    (if maxPages (isa st0) <? maxPfn st0 then
      let st := with_stack Normal (set_maxPages (maxPfn st0 - 4096) (normal st0)) st0 in
      init_pages (Z.to_nat (maxPfn st - 4096)) Normal normal_free 4096 st
     else Ret st0) = Ret st'
    /\ maxPfn st' = maxPfn st /\ isa st' = isa st
    /\ maxPages (normal st') = Z.max 0 (maxPfn st - 4096)
    /\ stack_list (normal st') = stack_list (normal st)
    /\ stack_rep (normal st') (lists st') 4096 (maxPfn st)
         (frames_where (fun i => (5120 <=? i) || negb (bit bm i)) 4096 (maxPfn st - 4096))
    /\ (forall j, 4096 <= j < maxPfn st -> physAddr st' !! page_struct j = Some (Z.shiftl j 12))
    /\ (forall j, j < 4096 -> physAddr st' !! page_struct j = physAddr st !! page_struct j)
    /\ keeps (loop_nodes (normal st) 4096 (maxPfn st)) (lists st) (lists st').
Proof.
  intros Hp Hb Hl Hi Hn Hnd Hhn Hhd.
  destruct (init_stack_spec Normal st Hhn) as (st0 & E0 & [Gp _ Go Gm Gh] & R & N & P & K).
  exists st0. pose proof (Go Isa ltac:(done)) as Gi. simpl in *. rewrite Gi, Gp, Hi.
  destruct (Z.ltb_spec (Z.min 4096 (maxPfn st)) (maxPfn st)).
  - destruct (build_stack_spec Normal normal_free (fun i => (5120 <=? i) || negb (bit bm i)) bm
      4096 (maxPfn st - 4096) (maxPfn st - 4096) st st0 E0 Hhn)
      as (st' & E & P' & _ & O & M' & H' & R' & F & F' & K'); [lia..|done| |].
    { intros j Hj. split_and!; [apply Hhd; lia|apply Hnd; lia|].
      apply normal_free_spec. unfold in_bitmap. lia. }
    simpl in *. rewrite Gi in E. rewrite <- ?Gp in *. exists st'.
    replace (4096 + (maxPfn st0 - 4096)) with (maxPfn st0) in * by lia.
    split_and!; try done; [exact (O Isa ltac:(done))|lia].
  - exists st0. rewrite frames_where_empty by lia. split_and!; try done; try lia.
    + by split; [rewrite Gh| |constructor].
    + by rewrite P.
    + eapply keeps_weaken; [|exact K]. intros q ->. by left.
Qed.

Lemma PageInit_spec st bm : boot_state st bm ->
  exists st', PageInit st = Ret st' /\ pg_inv st' (boot_free bm (maxPfn st))
    /\ allocatedBitmap st' = None /\ maxPfn st' = maxPfn st.
Proof.
  intros [Hp Hb Hl Hn Hnd Hhn Hh Hhd Hw Hwh]. unfold PageInit.
  set (m := if 4096 <? maxPfn st then 4096 else maxPfn st).
  assert (Hm : m = Z.min 4096 (maxPfn st)) by (subst m; zcases; lia).
  set (st0 := with_stack Isa (set_maxPages m (isa st)) st).
  destruct (init_stack_spec Isa st0 (Hhn Isa)) as (st1 & E1 & _). rewrite E1. cbn [bindO].
  destruct (build_stack_spec Isa isa_free (fun i => negb (bit bm i)) bm 0 m m st0 st1 E1
    (Hhn Isa)) as (st2 & E2 & P2 & B2 & O2 & M2 & H2 & R2 & F2 & _ & K2); [lia..|done| |].
  { intros j Hj. split_and!; [by apply (Hhd Isa); lia|by apply Hnd; lia|].
    apply isa_free_spec. unfold in_bitmap. lia. }
  assert (Eta := init_stack_eta Isa st0 st1 E1). simpl in Eta. simpl in E2.
  rewrite Eta in E2. rewrite E2. cbn [bindO].
  assert (On : normal st2 = normal st) by exact (O2 Normal ltac:(done)).
  cbn [get_stack] in *. simpl in P2, H2, K2.
  destruct (init_normal_spec st2 bm) as
    (st3 & st4 & E3 & E4 & P4 & I4 & M4 & H4 & R4 & F4 & F4' & K4);
    rewrite ?On, ?P2; try done; try (intros; apply K2; auto; exact (Hhn Normal)).
  { congruence. }
  { apply (Hhd Normal). }
  rewrite E3. cbn [bindO]. cbv zeta in E4 |- *. rewrite E4. cbn [bindO].
  rewrite On, P2 in *.
  destruct (finish_init (with_bitmap None st4) (boot_free bm (maxPfn st))) as (fl & l & E5 & I5).
  { split.
    - split; simpl; rewrite ?P4, ?I4, ?M4, ?H4, ?H2; try done; try congruence.
      + intros i Hi. destruct (decide (i < 4096)); [|apply F4; lia].
        rewrite F4' by done. apply F2. lia.
      + intros i Hi. by apply K4, K2, Hnd.
      + intros k i Hi. destruct k; simpl; rewrite ?I4, ?H2, ?H4;
          [by apply (Hhd Isa)|by apply (Hhd Normal)].
    - intros k. simpl. rewrite P4.
      destruct k; simpl; [rewrite I4|exact R4]. simpl in R2. rewrite <- Hm.
      apply (stack_rep_keeps _ _ _ _ _ _ _ K4); [|exact R2].
      rewrite H2. intros q Hq [->|(j & Hj & ->)]; apply elem_of_cons in Hq as [Hq|Hq].
      + by symmetry in Hq.
      + apply list_elem_of_fmap in Hq as (j & Eq & Hj). pose proof (sr_range _ _ _ _ _ R2) as B.
        rewrite Forall_forall in B. specialize (B j Hj).
        symmetry in Eq. revert Eq. apply (Hhd Normal). lia.
      + revert Hq. apply (Hhd Isa). lia.
      + apply list_elem_of_fmap in Hq as (i & Eq & Hi). apply node_inj in Eq as <-.
        pose proof (sr_range _ _ _ _ _ R2) as B.
        rewrite Forall_forall in B. specialize (B j Hi). lia. }
  { simpl. rewrite P4. intros i Hi. by apply K4, K2, Hw. }
  { simpl. rewrite P4. intros k i Hi.
    destruct k; simpl; rewrite ?I4, ?H2, ?H4; [by apply (Hwh Isa)|by apply (Hwh Normal)]. }
  unfold wq_count, wq_base in E5. rewrite E5. cbn [bindO].
  eexists; split_and!; [reflexivity|exact I5|done|exact P4].
Qed.

(** ** The free frames as one collection *)

Lemma free_pages_nodup st f : pg_inv st f -> NoDup (free_pages f).
Proof.
  intros I. assert (N : forall k, NoDup (pages k f)).
  { intros k. pose proof (sr_list _ _ _ _ _ (inv_stack _ _ I k)) as R.
    apply lrep_nodup in R. apply NoDup_cons in R as [_ R]. by apply NoDup_fmap_1 in R. }
  apply NoDup_app. split_and!; [exact (N Normal)| |exact (N Isa)].
  intros i H1 H2. pose proof (stack_frames _ _ Normal _ I H1).
  pose proof (stack_frames _ _ Isa _ I H2). simpl in *. lia.
Qed.

Lemma spec_alloc_perm f i f' : spec_alloc f = Ret (i, f') ->
  exists k, i ∈ pages k f /\ free_pages f ≡ₚ i :: free_pages f'.
Proof.
  destruct f as [xs [|y ys]]; unfold spec_alloc, free_pages; simpl.
  - destruct (_ <? _)%nat; [done|]. destruct xs; [done|]. intros [= <- <-].
    exists Isa. simpl. split; [left|done].
  - intros [= <- <-]. exists Normal. simpl. split; [left|done].
Qed.
End Proofs.

(** ** Properties *)

(** C1: From boot on, the allocator implements its specification: PageInit
    followed by any sequence of PageAlloc and PageFree calls that never
    frees a free frame returns the frames the two-stack specification
    returns, in the same order, panics exactly when the specification runs
    out of memory, and leaves stacks that hold the specified frames,
    whatever implementation of the list interface is used. *)
Theorem page_allocator_refines {M} `{LL : ListLaws M} (st : pgstate M) bm os r :
  boot_state st bm ->
  spec_page_ops (maxPfn st) os (boot_free bm (maxPfn st)) = Some r ->
  match r with
  | Ret (frames, f) => exists st',
      (let* st := PageInit st in run_page_ops os st) = Ret (page_struct <$> frames, st')
      /\ pg_inv st' f
  | _ => (let* st := PageInit st in run_page_ops os st) = Panic
  end.
Proof.
  intros B E. destruct (PageInit_spec st bm B) as (st1 & E1 & I1 & _ & P1).
  rewrite E1. cbn [bindO]. eapply (run_page_ops_spec os st1 _ r I1). by rewrite P1.
Qed.

(** A machine with [n] page frames, the first of them reserved. *)
Definition demo_heads (n : Z) : list ptr :=
  [0x100; 0x200] ++ (wq_addr n <$> seqZ 0 (wq_count n)) ++ (node <$> seqZ 0 n).
Definition demo_store (n : Z) : heap :=
  let m := list_to_map ((fun p => (p, p)) <$> demo_heads n) in {| hnext := m; hprev := m |}.
Definition demo_state (n : Z) : pgstate heap := {|
  maxPfn := n;
  allocatedBitmap := Some (1 :: replicate 639 0);
  isa := {| numPages := 0; maxPages := 0; stack_list := 0x100 |};
  normal := {| numPages := 0; maxPages := 0; stack_list := 0x200 |};
  physAddr := ∅; refs := ∅; lists := demo_store n; waitQueues := 0; wait_flags := ∅;
|}.

Lemma self_map_lookup (l : list ptr) p : p ∈ l ->
  (list_to_map ((fun p => (p, p)) <$> l) : gmap Z Z) !! p = Some p.
Proof.
  induction l as [|q l IH]; intros H; [by apply not_elem_of_nil in H|]. simpl.
  destruct (decide (q = p)) as [->|N]; [apply lookup_insert_eq|].
  rewrite lookup_insert_ne by done. apply IH. apply elem_of_cons in H as [->|H]; done.
Qed.

Lemma demo_allocated n p : p ∈ demo_heads n -> allocated (demo_store n) p.
Proof. intros H. split; exists p; by apply self_map_lookup. Qed.

Lemma demo_boot n : 0 <= n < 2 ^ 20 -> boot_state (demo_state n) (1 :: replicate 639 0).
Proof.
  intros Hn.
  assert (Hw : forall i, 0 <= i -> 0xC0200000 <= wq_addr n i).
  { intros i Hi. unfold wq_addr, wq_base, PSTACK_START_ADDRESS, SIZEOF_PhysPage, SIZEOF_WaitQueue.
    rewrite (u32_id (n * 16)), u32_id by lia.
    rewrite PAGE_ALIGN_UP_eq by (unfold PAGE_SIZE; lia). unfold PAGE_SIZE.
    pose proof (Z.div_le_mono 3223322624 (3223322624 + n * 16 + 4096 - 1) 4096).
    change (3223322624 / 4096) with 786944 in *. lia. }
  split; simpl; try done.
  - lia.
  - intros i Hi. apply demo_allocated. do 2 right. apply elem_of_app. right.
    apply list_elem_of_fmap_2, elem_of_seqZ. lia.
  - intros []; apply demo_allocated; [left|right; left].
  - intros [] i Hi; unfold node, page_list, page_struct, PSTACK_START_ADDRESS, OFFSET_list,
      SIZEOF_PhysPage; simpl; lia.
  - intros i Hi. apply demo_allocated. do 2 right. apply elem_of_app. left.
    apply list_elem_of_fmap_2, elem_of_seqZ. lia.
  - intros [] i Hi; specialize (Hw i); simpl; lia.
Qed.

(** Such a machine after PageInit. *)
Definition demo_booted (n : Z) : pgstate heap :=
  match PageInit (demo_state n) with Ret st => st | _ => demo_state n end.

Lemma demo_booted_inv n : 0 <= n < 2 ^ 20 ->
  pg_inv (demo_booted n) (boot_free (1 :: replicate 639 0) n)
  /\ maxPfn (demo_booted n) = n.
Proof.
  intros Hn. destruct (PageInit_spec _ _ (demo_boot n Hn)) as (st & E & I & _ & P).
  unfold demo_booted. by rewrite E.
Qed.

Lemma page_allocator_refines_witness : exists st',
  (let* st := PageInit (demo_state 8) in
   run_page_ops [OpAllocPage; OpAllocPage; OpFreePage 7; OpAllocPage] st)
  = Ret (page_struct <$> [7; 6; 7], st').
Proof.
  destruct (page_allocator_refines (demo_state 8) (1 :: replicate 639 0)
    [OpAllocPage; OpAllocPage; OpFreePage 7; OpAllocPage]
    (Ret ([7; 6; 7], {| isa_pages := [5; 4; 3; 2; 1]; normal_pages := [] |}))
    (demo_boot 8 ltac:(lia)) ltac:(vm_compute; reflexivity)) as (st' & E & _).
  exists st'. exact E.
Defined.

(** A page is handed out once: the frame PageAlloc returns was free,
    is not free afterwards, and no other frame leaves or joins the free
    stacks. *)
Theorem PageAlloc_exclusive {M} `{LL : ListLaws M} (st st' : pgstate M) f p :
  pg_inv st f -> PageAlloc st = Ret (p, st') ->
  exists i f', p = page_struct i /\ 0 <= i < maxPfn st /\ pg_inv st' f'
    /\ free_pages f ≡ₚ i :: free_pages f' /\ i ∉ free_pages f'.
Proof.
  intros I E. pose proof (PageAlloc_spec st f I) as A.
  pose proof (free_pages_nodup st f I) as N.
  destruct (spec_alloc f) as [[i f']| | |] eqn:Es; try congruence.
  destruct A as (st1 & E1 & I1). rewrite E in E1. injection E1 as -> <-.
  destruct (spec_alloc_perm _ _ _ Es) as (k & Hk & Hp).
  exists i, f'. rewrite Hp in N. apply NoDup_cons in N as [Ni _].
  pose proof (stack_frame_range _ _ _ (stack_frames _ _ _ _ I Hk)).
  split_and!; done || lia.
Qed.

Lemma PageAlloc_exclusive_witness : exists i f', page_struct 7 = page_struct i
    /\ free_pages (boot_free (1 :: replicate 639 0) 8) ≡ₚ i :: free_pages f'.
Proof.
  destruct (PageAlloc (demo_booted 8)) as [[p st']| | |] eqn:E;
    [|exfalso; vm_compute in E; congruence..].
  destruct (PageAlloc_exclusive (demo_booted 8) st' _ p (proj1 (demo_booted_inv 8 ltac:(lia))) E)
    as (i & f' & Hp & _ & _ & Hf & _).
  exists i, f'. split; [|exact Hf]. rewrite <- Hp. vm_compute in E. injection E as <- _. reflexivity.
Defined.

(** PageReserveArea marks exactly the page frames from the one that
    holds [start], as many as [size] rounded up to pages, and no other. *)
Theorem PageReserveArea_exact {M} (st : pgstate M) bm start size :
  allocatedBitmap st = Some bm -> wf_bytes bm ->
  0 <= start < 2 ^ 32 -> 0 <= size <= 2 ^ 32 - PAGE_SIZE ->
  let first := start / PAGE_SIZE in
  let count := (size + PAGE_SIZE - 1) / PAGE_SIZE in
  first + count <= Z.min (2 ^ 20) (8 * Z.of_nat (length bm)) ->
  exists bm', PageReserveArea start size st = Ret (with_bitmap (Some bm') st)
    /\ wf_bytes bm' /\ length bm' = length bm
    /\ forall i, 0 <= i -> bit bm' i = bit bm i || (first <=? i) && (i <? first + count).
Proof.
  intros Eb W Hs Hz first count Hc. unfold PageReserveArea.
  rewrite Eb, PAGE_ALIGN_eq, PAGE_ALIGN_UP_eq by done.
  rewrite Z.div_mul by done. fold count.
  assert (Ha : start - start mod PAGE_SIZE = first * PAGE_SIZE)
    by (subst first; unfold PAGE_SIZE; pose proof (Z.div_mod start 4096); lia).
  assert (0 <= first) by (apply Z.div_pos; unfold PAGE_SIZE in *; lia).
  assert (0 <= count) by (apply Z.div_pos; unfold PAGE_SIZE in *; lia).
  rewrite Ha.
  destruct (reserve_loop_spec (Z.to_nat count) bm (first * PAGE_SIZE) W)
    as (bm' & E & W' & L & B).
  1-4: rewrite ?Z.div_mul, ?Z.mod_mul, ?Z2Nat.id by done; unfold PAGE_SIZE in *; lia.
  rewrite Z.div_mul, Z2Nat.id in B by done. rewrite E. exists bm'. split_and!; done.
Qed.

Lemma PageReserveArea_exact_witness :
  exists bm', PageReserveArea 4096 8192 (demo_state 8) = Ret (with_bitmap (Some bm') (demo_state 8))
    /\ bit bm' 2 = true /\ bit bm' 3 = false.
Proof.
  destruct (PageReserveArea_exact (demo_state 8) (1 :: replicate 639 0) 4096 8192)
    as (bm' & E & _ & _ & B);
    [reflexivity|repeat constructor; done|done|done|vm_compute; congruence|].
  exists bm'. split_and!; [exact E|rewrite B by done; reflexivity|rewrite B by done; reflexivity].
Defined.

(** Page frame 4096, the first above 16 MB, can never be given back:
    PageFree takes it for an ISA page, finds it out of range and returns
    without pushing it on either stack. *)
Theorem PageFree_loses_4096 {M} `{LL : ListLaws M} (st : pgstate M) f :
  pg_inv st f -> 4096 < maxPfn st -> PageFree (page_struct 4096) st = Ret st.
Proof.
  intros I Hm. pose proof (inv_static _ _ I) as St. unfold PageFree.
  rewrite (st_phys _ St 4096 ltac:(lia)). cbn [of_option bindO].
  rewrite shiftr_shiftl_12, (st_isa_max _ St) by lia. change (4096 <? 4096) with false. cbv iota.
  destruct (Z.leb_spec (Z.min 4096 (maxPfn st)) 4096); [done|lia].
Qed.

Lemma PageFree_loses_4096_witness :
  PageFree (page_struct 4096) (demo_booted 5000) = Ret (demo_booted 5000).
Proof.
  destruct (demo_booted_inv 5000 ltac:(lia)) as [I P].
  apply (PageFree_loses_4096 (demo_booted 5000) _ I). rewrite P. lia.
Defined.
