(* ===== verification/E820.v ===== *)
(** * Physical memory detection (arch/i386/mm/init.c)

    The boot loader passes a list of address ranges with a type (1 free,
    2 reserved, 3 ACPI reclaim, 4 ACPI NVS), possibly unsorted and
    overlapping.  PhysReadMemoryMap turns it into a list of disjoint
    entries in which an overlap has the highest of the types involved:
    every range gives two change points, the change points are bubble
    sorted, and a sweep over them keeps the set of ranges it is inside.
    GetMaxPfn then finds the end of usable memory and PhysInit sets up the
    page allocator with it. *)

From Stdlib Require Import Sorted.
From S2P Require Import Prelude LList Bitmap PageAlloc.

(** ** Model *)

Definition E820_FREE : Z := 1.
Definition E820_ACPI_RECLAIM : Z := 3.
Definition PFN_MAX : Z := Z.shiftr 0x100000000 12.

Record MbMemoryMap := { baseAddr : Z; map_length : Z; map_type : Z }.
Record E820Entry := { ent_base : Z; ent_length : Z; rangeType : Z }.

(** [pBios] points at an entry of the boot loader's list: its index.  The
    members never change once they are set up, and the array of pointers
    to them is only permuted, so a pointer is the member it points at. *)
Record ChangeMember := { pBios : Z; addr : Z }.

(** The two members of entry number [i]. *)
Fixpoint setup_members (i : Z) (memEntries : list MbMemoryMap) : list ChangeMember :=
  match memEntries with
  | [] => []
  | e :: es =>
      (if c_true (map_length e)
       then [{| pBios := i; addr := baseAddr e |};
             {| pBios := i; addr := u64 (baseAddr e + map_length e) |}]
       else []) ++ setup_members (i + 1) es
  end.

(** Both arrays have 64 elements. *)
Definition SetupE820Sort (memEntries : list MbMemoryMap) : outcome (list ChangeMember) :=
  if 64 <? 2 * Z.of_nat (length memEntries) then Fault
  else Ret (setup_members 0 memEntries).

Section Sort.
Variable memEntries : list MbMemoryMap.

(** [c->addr == c->pBios->baseAddr] *)
Definition at_base (c : ChangeMember) : bool :=
  match zlookup memEntries (pBios c) with
  | Some e => addr c =? baseAddr e
  | None => false
  end.

(** The condition under which changePoint[i] moves before changePoint[i-1]. *)
Definition out_of_order (prev cur : ChangeMember) : bool :=
  (addr cur <? addr prev)
  || ((addr cur =? addr prev) && at_base cur && negb (at_base prev)).

(** One run of the for loop: [prev] is changePoint[i-1], the list the
    elements from i on; the second result is stillChanging. *)
Fixpoint sort_pass (prev : ChangeMember) (l : list ChangeMember) : list ChangeMember * bool :=
  match l with
  | [] => ([prev], false)
  | cur :: l =>
      if out_of_order prev cur
      then let (r, _) := sort_pass prev l in (cur :: r, true)
      else let (r, b) := sort_pass cur l in (prev :: r, b)
  end.

Definition sort_once (l : list ChangeMember) : list ChangeMember * bool :=
  match l with [] => ([], false) | c :: l => sort_pass c l end.

Fixpoint E820Sort (fuel : nat) (l : list ChangeMember) : outcome (list ChangeMember) :=
  match fuel with
  | O => NoFuel
  | S fuel =>
      let (r, stillChanging) := sort_once l in
      if stillChanging then E820Sort fuel r else Ret r
  end.

(** *** E820CreateMap *)

(** [overlapList] as the list of its first overlapCount elements. *)
Definition overlap_remove (i : Z) (ov : list Z) : list Z :=
  let lst := List.last ov 0 in
  removelast ((fun j => if j =? i then lst else j) <$> ov).

Fixpoint overlap_type (ov : list Z) (currentType : Z) : outcome Z :=
  match ov with
  | [] => Ret currentType
  | i :: ov =>
      let* e := of_option (zlookup memEntries i) in
      overlap_type ov (if currentType <? map_type e then map_type e else currentType)
  end.

(** The locals of E820CreateMap with the globals entries and entryCount:
    [done_] holds the completed entries, [cur] the fields base and
    rangeType of entries[entryCount]. *)
Record sweep := {
  overlapList : list Z;
  lastType : Z;
  lastAddr : Z;
  done_ : list E820Entry;
  cur_base : Z;
  cur_type : Z;
}.

(** One iteration; [inr] leaves the loop. *)
Definition sweep_step (c : ChangeMember) (s : sweep) : outcome (sweep + sweep) :=
  let* ov :=
    if at_base c then
      if Z.of_nat (length (overlapList s)) <? 32 then Ret (overlapList s ++ [pBios c]) else Fault
    else match overlapList s with
         | [] => Fault
         | ov => Ret (overlap_remove (pBios c) ov)
         end in
  let* currentType := overlap_type ov 0 in
  if currentType =? lastType s
  then Ret (inl {| overlapList := ov; lastType := lastType s; lastAddr := lastAddr s;
                   done_ := done_ s; cur_base := cur_base s; cur_type := cur_type s |})
  else
    let len := u64 (addr c - lastAddr s) in
    let closed := c_true (lastType s) && c_true len in
    let dn := if closed
              then done_ s ++ [{| ent_base := cur_base s; ent_length := len;
                                  rangeType := cur_type s |}]
              else done_ s in
    if closed && (32 <=? Z.of_nat (length dn))
    then Ret (inr {| overlapList := ov; lastType := lastType s; lastAddr := lastAddr s;
                     done_ := dn; cur_base := cur_base s; cur_type := cur_type s |})
    else
      let opened := c_true currentType in
      Ret (inl {| overlapList := ov; lastType := currentType;
                  lastAddr := if opened then u32 (addr c) else lastAddr s;
                  done_ := dn;
                  cur_base := if opened then addr c else cur_base s;
                  cur_type := if opened then currentType else cur_type s |}).

Fixpoint sweep_loop (cs : list ChangeMember) (s : sweep) : outcome sweep :=
  match cs with
  | [] => Ret s
  | c :: cs =>
      let* r := sweep_step c s in
      match r with inl s => sweep_loop cs s | inr s => Ret s end
  end.

Definition E820CreateMap (cs : list ChangeMember) : outcome (list E820Entry) :=
  let* s := sweep_loop cs {| overlapList := []; lastType := 0; lastAddr := 0;
                             done_ := []; cur_base := 0; cur_type := 0 |} in
  Ret (done_ s).
End Sort.

(** 1 when some entry wraps around the address space. *)
Fixpoint E820CheckEntries (memEntries : list MbMemoryMap) : Z :=
  match memEntries with
  | [] => 0
  | e :: es => if u64 (baseAddr e + map_length e) <? baseAddr e then 1 else E820CheckEntries es
  end.

(** The entries the rest of the kernel sees (none when the map is refused). *)
Definition PhysReadMemoryMap (fuel : nat) (memEntries : list MbMemoryMap)
  : outcome (list E820Entry) :=
  if Z.of_nat (length memEntries) <=? 1 then Ret []
  else if c_true (E820CheckEntries memEntries) then Ret []
  else
    let* cs := SetupE820Sort memEntries in
    let* cs := E820Sort memEntries fuel cs in
    E820CreateMap memEntries cs.

(** [PAGE_ALIGN_UP] and [PAGE_ALIGN] on a QWORD. *)
Definition PAGE_ALIGN_UP64 (a : Z) : Z := Z.land (u64 (a + PAGE_SIZE - 1)) PAGE_MASK.
Definition PAGE_ALIGN64 (a : Z) : Z := Z.land a PAGE_MASK.

Fixpoint max_pfn (entries : list E820Entry) (retVal : Z) : Z :=
  match entries with
  | [] => retVal
  | e :: es =>
      if negb (rangeType e =? E820_FREE) && negb (rangeType e =? E820_ACPI_RECLAIM)
      then max_pfn es retVal
      else
        let start := PAGE_ALIGN_UP64 (ent_base e) in
        let end_ := PAGE_ALIGN64 (u64 (ent_base e + ent_length e)) in
        if 0x100000000 <? end_ then max_pfn es retVal
        else if end_ <=? start then max_pfn es retVal
        else
          let currEndPfn := u32 (Z.shiftr end_ 12) in
          max_pfn es (if retVal <? currEndPfn then currEndPfn else retVal)
  end.

Definition GetMaxPfn (entries : list E820Entry) : Z := max_pfn entries 0.

Section Phys.
Context {M : Type} `{LO : ListOps M}.

Definition DoReserveAreas (st : pgstate M) : outcome (pgstate M) :=
  let* st := PageReserveArea 0 PAGE_SIZE st in
  PageReserveArea 0xA0000 (0x100000 - 0xA0000) st.

(** [code] and [end_] are the addresses of the linker symbols. *)
Definition PhysInit (fuel : nat) (memEntries : list MbMemoryMap) (code end_ : Z) (st : pgstate M)
  : outcome (pgstate M) :=
  let* entries := PhysReadMemoryMap fuel memEntries in
  let maxPfn := GetMaxPfn entries in
  let maxPfn := if PFN_MAX <=? maxPfn then PFN_MAX - 1 else maxPfn in
  let* st := PageEarlyInit code end_ maxPfn st in
  let memSize := Z.shiftr maxPfn 8 in
  if memSize <? 8 then Panic
  else
    let* st := DoReserveAreas st in
    PageInit st.
End Phys.

(** ** The sort *)

Section SortProofs.
Variable es : list MbMemoryMap.

(** Order by address, range starts before range ends. *)
Definition key (c : ChangeMember) : Z := 2 * addr c + (if at_base es c then 0 else 1).

Lemma out_of_order_key a b : out_of_order es a b = (key b <? key a).
Proof. unfold out_of_order, key. destruct (at_base es a), (at_base es b); simpl; zcases; simpl; lia. Qed.

(** The number of pairs in the wrong order. *)
Definition below (c : ChangeMember) (l : list ChangeMember) : nat :=
  length (filter (fun d => key d < key c) l).

Fixpoint inversions (l : list ChangeMember) : nat :=
  match l with [] => O | c :: l => (below c l + inversions l)%nat end.

Lemma below_perm c l l' : l ≡ₚ l' -> below c l = below c l'.
Proof. intros H. unfold below. by rewrite H. Qed.

Lemma below_cons c d l : below c (d :: l) = ((if decide (key d < key c)%Z then 1 else 0) + below c l)%nat.
Proof. unfold below. rewrite filter_cons. by destruct (decide _). Qed.

Lemma inversions_bound l : (inversions l <= length l * length l)%nat.
Proof.
  induction l as [|c l IH]; simpl; [lia|].
  assert (below c l <= length l)%nat by apply length_filter. lia.
Qed.

Lemma sort_pass_spec l : forall prev r b, sort_pass es prev l = (r, b) ->
  r ≡ₚ prev :: l /\ (inversions r <= inversions (prev :: l))%nat
  /\ (b = true -> (inversions r < inversions (prev :: l))%nat)
  /\ (b = false -> r = prev :: l /\ Sorted (fun c d => key c <= key d) r).
Proof.
  induction l as [|cur l IH]; intros prev r b E; simpl in E.
  - injection E as <- <-. split_and!; try done. intros _. split; [done|repeat constructor].
  - rewrite out_of_order_key in E. destruct (Z.ltb_spec (key cur) (key prev)) as [Hk|Hk].
    + destruct (sort_pass es prev l) as [r' b'] eqn:E'. injection E as <- <-.
      destruct (IH _ _ _ E') as (P & I & _ & _).
      assert (inversions (cur :: r') < inversions (prev :: cur :: l))%nat.
      { simpl in *. rewrite (below_perm _ _ _ P), !below_cons.
        destruct (decide (key prev < key cur)), (decide (key cur < key prev)); lia. }
      split_and!; [|lia|done|done]. rewrite P. apply perm_swap.
    + destruct (sort_pass es cur l) as [r' b'] eqn:E'. injection E as <- <-.
      destruct (IH _ _ _ E') as (P & I & Ht & Hf).
      assert (below prev r' = below prev (cur :: l)) by by apply below_perm.
      split_and!.
      * by rewrite P.
      * simpl in *. lia.
      * intros ->. specialize (Ht eq_refl). simpl in *. lia.
      * intros ->. destruct (Hf eq_refl) as [-> S]. split; [done|].
        constructor; [done|]. by constructor.
Qed.

(** The sort terminates and sorts: fuel above the square of the length is
    always enough. *)
Lemma E820Sort_spec fuel : forall l, (inversions l < fuel)%nat ->
  exists r, E820Sort es fuel l = Ret r /\ r ≡ₚ l /\ Sorted (fun c d => key c <= key d) r.
Proof.
  induction fuel as [|fuel IH]; intros l Hf; [lia|]. simpl.
  destruct l as [|c l]; simpl.
  - exists []. split_and!; [done..|constructor].
  - destruct (sort_pass es c l) as [r b] eqn:E.
    destruct (sort_pass_spec _ _ _ _ E) as (P & _ & Ht & Hs). destruct b.
    + destruct (IH r) as (r' & E' & P' & S'); [specialize (Ht eq_refl); lia|].
      exists r'. split_and!; [done|by rewrite P'|done].
    + exists r. split_and!; [done|done|]. by apply Hs.
Qed.
End SortProofs.

(** ** The sweep *)

(** [m] is the highest type among the ranges of [P], 0 if there are none. *)
Definition is_max (P : MbMemoryMap -> Prop) (m : Z) : Prop :=
  (forall e, P e -> map_type e <= m) /\ 0 <= m /\ (m = 0 \/ exists e, P e /\ map_type e = m).

Lemma is_max_unique P Q m m' : (forall e, P e <-> Q e) -> is_max P m -> is_max Q m' -> m = m'.
Proof.
  intros H (L & N & A) (L' & N' & A').
  assert (m <= m') by (destruct A as [->|(e & He & <-)]; [done|apply L', H, He]).
  assert (m' <= m) by (destruct A' as [->|(e & He & <-)]; [done|apply L, H, He]). lia.
Qed.

Definition covers (e : MbMemoryMap) (x : Z) : Prop :=
  baseAddr e <= x < baseAddr e + map_length e.
#[export] Instance covers_dec e x : Decision (covers e x).
Proof. unfold covers. apply _. Defined.

(** The type of address [x] according to the boot loader: the highest type
    of a range around it. *)
Fixpoint spec_type (es : list MbMemoryMap) (x : Z) : Z :=
  match es with
  | [] => 0
  | e :: es => if decide (covers e x) then Z.max (map_type e) (spec_type es x) else spec_type es x
  end.

(** The type of [x] in a list of disjoint entries. *)
Fixpoint type_at (out : list E820Entry) (x : Z) : Z :=
  match out with
  | [] => 0
  | e :: out =>
      if (ent_base e <=? x) && (x <? ent_base e + ent_length e)
      then Z.max (rangeType e) (type_at out x) else type_at out x
  end.

Lemma spec_type_max es x : is_max (fun e => e ∈ es /\ covers e x) (spec_type es x).
Proof.
  induction es as [|e es (L & N & A)]; simpl.
  - split_and!; [|lia|by left]. intros e [H _]. by apply not_elem_of_nil in H.
  - destruct (decide (covers e x)) as [C|C]; split_and!; try lia.
    + intros d [H C']. apply elem_of_cons in H as [->|H]; [lia|].
      specialize (L d (conj H C')). lia.
    + destruct (Z.max_spec (map_type e) (spec_type es x)) as [[_ ->]|[_ ->]].
      * destruct A as [->|(d & [Hd Cd] & <-)]; [by left|right].
        exists d. split; [|done]. split; [by right|done].
      * right. exists e. split; [|done]. split; [left|done].
    + intros d [H C']. apply elem_of_cons in H as [->|H]; [done|]. auto.
    + destruct A as [->|(d & [Hd Cd] & <-)]; [by left|right].
      exists d. split; [|done]. split; [by right|done].
Qed.

Lemma type_at_nonneg out x : 0 <= type_at out x.
Proof. induction out as [|d out IH]; simpl; [lia|]. destruct (_ && _); lia. Qed.

Lemma type_at_snoc out e x : type_at (out ++ [e]) x =
  Z.max (type_at out x)
        (if (ent_base e <=? x) && (x <? ent_base e + ent_length e) then Z.max (rangeType e) 0 else 0).
Proof.
  induction out as [|d out IH]; simpl.
  - destruct (_ && _); lia.
  - rewrite IH. pose proof (type_at_nonneg out x). destruct ((ent_base d <=? x) && _); lia.
Qed.

(** No entry reaches [x]. *)
Lemma type_at_after out x :
  Forall (fun e => ent_base e + ent_length e <= x) out -> type_at out x = 0.
Proof. induction 1 as [|e l He _ IH]; [done|]. simpl. rewrite IH. zcases; simpl; try done; lia. Qed.

Lemma overlap_remove_spec i ov : NoDup ov -> i ∈ ov ->
  NoDup (overlap_remove i ov) /\ (forall j, j ∈ overlap_remove i ov <-> j ∈ ov /\ j <> i)
  /\ length ov = S (length (overlap_remove i ov)).
Proof.
  intros N Hi. destruct ov as [|l pre _] using rev_ind; [by apply not_elem_of_nil in Hi|].
  unfold overlap_remove. rewrite List.last_last, fmap_app. simpl.
  rewrite removelast_last, length_fmap, length_app. simpl.
  apply NoDup_app in N as (Np & D & _).
  assert (Hl : l ∉ pre) by (intros H; apply (D l H); left).
  split_and!; [| |lia].
  - apply NoDup_fmap_2_strong; [|done]. intros a b Ha Hb. zcases; subst; congruence.
  - intros j. rewrite list_elem_of_fmap. split.
    + intros (a & -> & Ha). zcases.
      * subst a. split; [apply elem_of_app; right; left|congruence].
      * split; [by apply elem_of_app; left|done].
    + intros [Hj Hn]. apply elem_of_app in Hj as [Hj|Hj].
      * exists j. zcases; [done|]. by split.
      * apply list_elem_of_singleton in Hj as ->.
        apply elem_of_app in Hi as [Hi|Hi]; [|by apply list_elem_of_singleton in Hi].
        exists i. zcases; [by split|done].
Qed.

(** Ranges the sweep handles exactly: below 4 GB and typed. *)
Definition range_ok (e : MbMemoryMap) : Prop :=
  0 <= baseAddr e /\ 0 <= map_length e /\ baseAddr e + map_length e < 2 ^ 32 /\ 0 < map_type e.

Definition entries_disjoint (out : list E820Entry) : Prop :=
  StronglySorted (fun a b => ent_base a + ent_length a <= ent_base b) out
  /\ Forall (fun e => 0 < ent_length e) out.

Lemma entries_disjoint_snoc out e : entries_disjoint out -> 0 < ent_length e ->
  Forall (fun d => ent_base d + ent_length d <= ent_base e) out ->
  entries_disjoint (out ++ [e]).
Proof.
  intros [S P] He B. split; [|by apply Forall_app; split; [|constructor]].
  clear P. induction S as [|d out S IH F]; [repeat constructor|].
  apply Forall_cons in B as [Bd B]. constructor; [auto|].
  apply Forall_app. split; [done|by constructor].
Qed.

Section SweepProofs.
Variable es : list MbMemoryMap.
Hypothesis es_ok : Forall range_ok es.

(** The change points of the ranges. *)
Definition is_point (c : ChangeMember) : Prop :=
  exists e, zlookup es (pBios c) = Some e /\ 0 < map_length e
    /\ (addr c = baseAddr e \/ addr c = baseAddr e + map_length e).

Variable cs : list ChangeMember.
Hypothesis cs_points : forall c, c ∈ cs <-> is_point c.
Hypothesis cs_nodup : NoDup cs.
Hypothesis cs_few : (length cs <= 32)%nat.

Definition start_of (i : Z) (e : MbMemoryMap) := {| pBios := i; addr := baseAddr e |}.
Definition end_of (i : Z) (e : MbMemoryMap) :=
  {| pBios := i; addr := baseAddr e + map_length e |}.

(** Range [i] is open after the change points [P]. *)
Definition open_in (P : list ChangeMember) (i : Z) : Prop :=
  exists e, zlookup es i = Some e /\ 0 < map_length e /\ start_of i e ∈ P /\ end_of i e ∉ P.

Lemma zlookup_range i e : zlookup es i = Some e -> range_ok e /\ e ∈ es.
Proof.
  intros E. apply zlookup_Some in E as [_ E]. apply list_elem_of_lookup_2 in E.
  rewrite Forall_forall in es_ok. auto.
Qed.

Lemma point_cases c : is_point c -> exists e, zlookup es (pBios c) = Some e /\ 0 < map_length e
  /\ ((at_base es c = true /\ c = start_of (pBios c) e)
      \/ (at_base es c = false /\ c = end_of (pBios c) e)).
Proof.
  intros (e & E & L & H). exists e. split_and!; [done..|]. unfold at_base. rewrite E.
  destruct c as [i a]; simpl in *. destruct H as [-> | ->]; [left|right]; zcases; done || lia.
Qed.

Lemma overlap_type_spec ov : Forall (fun i => is_Some (zlookup es i)) ov -> forall m0, 0 <= m0 ->
  exists m, overlap_type es ov m0 = Ret m /\ m0 <= m
    /\ (forall i e, i ∈ ov -> zlookup es i = Some e -> map_type e <= m)
    /\ (m = m0 \/ exists i e, i ∈ ov /\ zlookup es i = Some e /\ map_type e = m).
Proof.
  induction 1 as [|i ov [e E] _ IH]; intros m0 H0; simpl.
  - exists m0. split_and!; [done|lia| |by left]. intros i e H. by apply not_elem_of_nil in H.
  - rewrite E. simpl.
    destruct (IH (if m0 <? map_type e then map_type e else m0)) as (m & Em & Hm & Hl & Ha);
      [zcases; lia|].
    exists m. rewrite Em. split_and!; [done|zcases; lia| |].
    + intros j d Hj Ej. apply elem_of_cons in Hj as [->|Hj]; [|eauto].
      assert (d = e) as -> by congruence. zcases; lia.
    + destruct Ha as [Ha|(j & d & Hj & Ej & Hd)].
      * zcases; [|by left]. right. exists i, e. split_and!; [left|done|lia].
      * right. exists j, d. split_and!; [by right|done|done].
Qed.

(** The state of the sweep after the points [P], the last of them at
    address [a]. *)
Record sweep_inv (P : list ChangeMember) (a : Z) (s : sweep) : Prop := {
  sw_nodup : NoDup (overlapList s);
  sw_open : forall i, i ∈ overlapList s <-> open_in P i;
  sw_type : is_max (fun e => exists i, i ∈ overlapList s /\ zlookup es i = Some e) (lastType s);
  sw_cur : lastType s <> 0 ->
    cur_type s = lastType s /\ cur_base s = lastAddr s /\ 0 <= lastAddr s <= a;
  sw_disj : entries_disjoint (done_ s);
  sw_ends : Forall (fun e => ent_base e + ent_length e
                             <= (if c_true (lastType s) then lastAddr s else a)) (done_ s);
  sw_count : Z.of_nat (length (done_ s)) + (if c_true (lastType s) then 1 else 0)
             <= Z.of_nat (length P);
  sw_ov : (length (overlapList s) <= length P)%nat;
  sw_spec : forall x, x < a ->
    Z.max (type_at (done_ s) x) (if lastAddr s <=? x then lastType s else 0) = spec_type es x;
}.

(** Between two consecutive change points the open ranges are those around
    every address. *)
Lemma open_covers P R a a' i e x : cs = P ++ R ->
  (forall c, c ∈ P -> addr c <= a) -> (forall c, c ∈ R -> a' <= addr c) ->
  a <= x < a' -> zlookup es i = Some e -> open_in P i <-> covers e x.
Proof.
  intros Ec HP HR Hx E. unfold open_in, covers.
  assert (Hin : forall c, is_point c -> c ∈ P \/ c ∈ R).
  { intros c Hc. apply cs_points in Hc. rewrite Ec in Hc. by apply elem_of_app in Hc. }
  split.
  - intros (e' & E' & L & Hs & He). assert (e' = e) as -> by congruence.
    pose proof (HP _ Hs) as H1. simpl in H1. split; [lia|].
    destruct (Hin (end_of i e)) as [?|H2]; [exists e; simpl; auto|done|].
    apply HR in H2. simpl in H2. lia.
  - intros [H1 H2]. exists e. assert (0 < map_length e) by lia. split_and!; try done.
    + destruct (Hin (start_of i e)) as [?|H3]; [exists e; simpl; auto|done|].
      apply HR in H3. simpl in H3. lia.
    + intros H3. apply HP in H3. simpl in H3. lia.
Qed.

(** So the sweep's current type is right up to the next change point. *)
Lemma sweep_extend P R a a' s : cs = P ++ R -> sweep_inv P a s -> a <= a' ->
  (forall c, c ∈ P -> addr c <= a) -> (forall c, c ∈ R -> a' <= addr c) ->
  forall x, x < a' ->
    Z.max (type_at (done_ s) x) (if lastAddr s <=? x then lastType s else 0) = spec_type es x.
Proof.
  intros Ec I Ha HP HR x Hx.
  destruct (decide (x < a)) as [?|Hxa]; [by apply (sw_spec _ _ _ I)|].
  assert (El : lastType s = spec_type es x).
  { eapply is_max_unique; [|apply (sw_type _ _ _ I)|apply spec_type_max].
    intros e. simpl. split.
    - intros (i & Hi & E). apply (sw_open _ _ _ I) in Hi. split; [by apply (zlookup_range i)|].
      eapply open_covers in Hi; eauto. lia.
    - intros [He C]. apply list_elem_of_lookup_1 in He as [i Ei].
      exists (Z.of_nat i). assert (E : zlookup es (Z.of_nat i) = Some e).
      { unfold zlookup. zcases; [|lia]. by rewrite Nat2Z.id. }
      split; [|done]. apply (sw_open _ _ _ I). eapply open_covers; eauto. lia. }
  assert (Hd : type_at (done_ s) x = 0).
  { apply type_at_after. eapply Forall_impl; [exact (sw_ends _ _ _ I)|]. simpl. intros e He.
    pose proof (sw_cur _ _ _ I). destruct (c_true (lastType s)) eqn:Ct; [|lia].
    apply c_true_spec in Ct. lia. }
  destruct (sw_type _ _ _ I) as (_ & N & _).
  destruct (c_true (lastType s)) eqn:Ct.
  - apply c_true_spec in Ct. pose proof (sw_cur _ _ _ I Ct). zcases; lia.
  - apply c_true_false in Ct. zcases; lia.
Qed.

(** The overlap list after one more change point. *)
Lemma overlap_step P c R s a : cs = P ++ c :: R -> sweep_inv P a s ->
  (forall d, d ∈ P -> addr d <= addr c) -> (forall d, d ∈ R -> addr c <= addr d) ->
  exists ov,
    (if at_base es c then
       if Z.of_nat (length (overlapList s)) <? 32 then Ret (overlapList s ++ [pBios c]) else Fault
     else match overlapList s with
          | [] => Fault
          | ov => Ret (overlap_remove (pBios c) ov)
          end) = Ret ov
    /\ NoDup ov /\ (forall i, i ∈ ov <-> open_in (P ++ [c]) i)
    /\ (length ov <= length (P ++ [c]))%nat.
Proof.
  intros Ec I HP HR. rewrite length_app. simpl.
  assert (Nc : c ∉ P /\ c ∉ R).
  { rewrite Ec in cs_nodup. apply NoDup_app in cs_nodup as (_ & D & N).
    apply NoDup_cons in N as [N _]. split; [|done]. intros H. apply (D c H). left. }
  assert (Hc : is_point c) by (apply cs_points; rewrite Ec; apply elem_of_app; right; left).
  assert (Hlen : (length P < 32)%nat) by (rewrite Ec, length_app in cs_few; simpl in *; lia).
  pose proof (sw_ov _ _ _ I) as Lo.
  destruct (point_cases c Hc) as (e & E & L & [[Hb Es]|[Hb Es]]); rewrite Hb.
  - destruct (Z.ltb_spec (Z.of_nat (length (overlapList s))) 32); [|lia].
    eexists. split; [reflexivity|]. rewrite length_app. simpl.
    assert (Ni : ~ open_in P (pBios c)).
    { intros (e' & E' & _ & Hs & _). assert (e' = e) as -> by congruence.
      rewrite Es in Nc. tauto. }
    split_and!; [| |lia].
    + apply NoDup_app. split_and!; [apply I| |apply NoDup_singleton].
      intros j Hj Hj'. apply list_elem_of_singleton in Hj' as ->.
      by apply (sw_open _ _ _ I) in Hj.
    + intros j. rewrite elem_of_app, list_elem_of_singleton, (sw_open _ _ _ I).
      unfold open_in. setoid_rewrite elem_of_app. setoid_rewrite list_elem_of_singleton. split.
      * intros [(d & Ed & Ld & H1 & H2)| ->].
        -- exists d. split_and!; try done; [by left|]. intros [?|Hx]; [done|].
           rewrite Es in Hx. unfold end_of, start_of in Hx. injection Hx as Hj Ha. subst j.
           assert (d = e) as -> by congruence. lia.
        -- exists e. split_and!; try done; [by right|]. intros [Hx|Hx].
           ++ apply HP in Hx. rewrite Es in Hx. simpl in Hx. lia.
           ++ rewrite Es in Hx. unfold end_of, start_of in Hx. injection Hx as Ha. lia.
      * intros (d & Ed & Ld & [H1|H1] & H2); [left|right].
        -- exists d. split_and!; try done. tauto.
        -- rewrite <- H1. done.
  - assert (Hs : start_of (pBios c) e ∈ P).
    { assert (Hin : start_of (pBios c) e ∈ cs) by (apply cs_points; exists e; simpl; auto).
      rewrite Ec in Hin. apply elem_of_app in Hin as [?|Hin]; [done|].
      apply elem_of_cons in Hin as [Hx|Hin].
      - rewrite Es in Hx. unfold end_of, start_of in Hx. injection Hx as Ha. lia.
      - apply HR in Hin. rewrite Es in Hin. simpl in Hin. lia. }
    assert (Hi : pBios c ∈ overlapList s).
    { apply (sw_open _ _ _ I). exists e. split_and!; try done. rewrite <- Es. tauto. }
    destruct (overlap_remove_spec _ _ (sw_nodup _ _ _ I) Hi) as (N & Hin & Hl).
    exists (overlap_remove (pBios c) (overlapList s)).
    split_and!; [by destruct (overlapList s); [apply not_elem_of_nil in Hi|]|done| |lia].
    intros j. rewrite Hin, (sw_open _ _ _ I).
    unfold open_in. setoid_rewrite elem_of_app. setoid_rewrite list_elem_of_singleton. split.
    + intros [(d & Ed & Ld & H1 & H2) Hj]. exists d. split_and!; try done; [by left|].
      intros [?|Hx]; [done|]. rewrite Es in Hx. unfold end_of in Hx. injection Hx as Ha. done.
    + intros (d & Ed & Ld & [H1|H1] & H2).
      * split; [exists d; split_and!; try done; tauto|]. intros ->.
        assert (d = e) as -> by congruence. rewrite <- Es in H2. tauto.
      * rewrite Es in H1. unfold end_of, start_of in H1. injection H1 as Hj Ha. subst j.
        assert (d = e) as -> by congruence. lia.
Qed.

Lemma open_lookup P i : open_in P i -> is_Some (zlookup es i).
Proof. intros (e & E & _). eauto. Qed.

(** Closing the pending entry at the next change point. *)
Lemma close_spec P a s a' : sweep_inv P a s -> a <= a' -> 0 <= a' < 2 ^ 32 ->
  (forall x, x < a' ->
    Z.max (type_at (done_ s) x) (if lastAddr s <=? x then lastType s else 0) = spec_type es x) ->
  exists dn,
    (if c_true (lastType s) && c_true (u64 (a' - lastAddr s))
     then done_ s ++ [{| ent_base := cur_base s; ent_length := u64 (a' - lastAddr s);
                         rangeType := cur_type s |}]
     else done_ s) = dn
    /\ entries_disjoint dn /\ Forall (fun e => ent_base e + ent_length e <= a') dn
    /\ Z.of_nat (length dn) <= Z.of_nat (length P)
    /\ forall x, x < a' -> type_at dn x = spec_type es x.
Proof.
  intros [_ _ It Ic Id Ie In _ _] Ha Hr X. eexists. split; [reflexivity|].
  destruct It as (_ & Nt & _).
  destruct (c_true (lastType s)) eqn:Ct; simpl.
  - apply c_true_spec in Ct. destruct (Ic Ct) as (Et & Eb & Hl).
    rewrite u64_id by lia.
    assert (Fe : Forall (fun e => ent_base e + ent_length e <= a') (done_ s)).
    { eapply Forall_impl; [exact Ie|]. simpl. intros; lia. }
    destruct (c_true (a' - lastAddr s)) eqn:Cl.
    + apply c_true_spec in Cl. split_and!.
      * apply entries_disjoint_snoc; simpl; [done|lia|by rewrite Eb].
      * apply Forall_app. split; [done|]. constructor; simpl; [lia|constructor].
      * rewrite length_app. simpl. lia.
      * intros x Hx. rewrite type_at_snoc. simpl.
        pose proof (type_at_nonneg (done_ s) x). rewrite Et, Eb, <- X by done. zcases; simpl; lia.
    + apply c_true_false in Cl. split_and!; [done|done|lia|].
      intros x Hx. rewrite <- X by done. pose proof (type_at_nonneg (done_ s) x). zcases; lia.
  - apply c_true_false in Ct. split_and!; [done| |lia|].
    + eapply Forall_impl; [exact Ie|]. simpl. intros; lia.
    + intros x Hx. rewrite <- X, Ct by done.
      pose proof (type_at_nonneg (done_ s) x). zcases; lia.
Qed.

Lemma sweep_step_spec P c R a s : cs = P ++ c :: R -> sweep_inv P a s -> a <= addr c ->
  (forall d, d ∈ P -> addr d <= a) -> (forall d, d ∈ R -> addr c <= addr d) ->
  exists s', sweep_step es c s = Ret (inl s') /\ sweep_inv (P ++ [c]) (addr c) s'.
Proof.
  intros Ec I Ha HP HR.
  pose proof (sweep_extend P (c :: R) a (addr c) s Ec I Ha HP) as X.
  specialize (X ltac:(intros d Hd; apply elem_of_cons in Hd as [->|Hd]; [done|auto])).
  assert (HP' : forall d, d ∈ P -> addr d <= addr c) by (intros d Hd; specialize (HP d Hd); lia).
  destruct (overlap_step P c R s a Ec I HP' HR) as (ov & Eov & Nov & Oov & Lov).
  assert (Hc : 0 <= addr c < 2 ^ 32).
  { assert (Hc : is_point c) by (apply cs_points; rewrite Ec; apply elem_of_app; right; left).
    destruct Hc as (e & E & L & He). apply zlookup_range in E as [(? & ? & ? & ?) _]. lia. }
  destruct (overlap_type_spec ov) with (m0 := 0) as (m & Em & Hm & Hl & Hat);
    [apply Forall_forall; intros i Hi; by eapply open_lookup, Oov|lia|].
  assert (Hmax : is_max (fun e => exists i, i ∈ ov /\ zlookup es i = Some e) m).
  { split_and!; [naive_solver|done|]. destruct Hat as [->|(i & e & ? & ? & ?)]; [by left|].
    right. eauto. }
  unfold sweep_step. rewrite Eov. cbn [bindO]. rewrite Em. cbn [bindO].
  destruct (close_spec P a s (addr c) I Ha Hc X) as (dn & -> & Dd & De & Dl & Ds).
  destruct I as [_ _ It Ic Id Ie In _ _].
  destruct (Z.eqb_spec m (lastType s)) as [->|Hne].
  { eexists; split; [reflexivity|]. split; simpl; try done.
    - intros H0. specialize (Ic H0). lia.
    - eapply Forall_impl; [exact Ie|]. simpl. intros e. destruct (c_true (lastType s)); lia.
    - rewrite length_app. simpl. lia. }
  assert (Hlen : (length P < 32)%nat) by (rewrite Ec, length_app in cs_few; simpl in *; lia).
  destruct (Z.leb_spec 32 (Z.of_nat (length dn))); [lia|]. rewrite andb_false_r.
  eexists; split; [reflexivity|].
  assert (Cm : c_true m = true <-> m <> 0) by apply c_true_spec.
  split; simpl; try done; rewrite ?length_app; simpl.
  - intros H0. apply Cm in H0. rewrite H0. rewrite u32_id by lia. lia.
  - eapply Forall_impl; [exact De|]. simpl. intros e. rewrite u32_id by lia.
    destruct (c_true m); lia.
  - destruct (c_true m); lia.
  - intros x Hx. rewrite <- Ds by done. pose proof (type_at_nonneg dn x). rewrite u32_id by lia.
    destruct (c_true m) eqn:E0; [zcases; lia|]. apply c_true_false in E0 as ->. zcases; lia.
Qed.

(** The whole sweep. *)
Lemma sweep_loop_spec R : forall P a s, cs = P ++ R -> sweep_inv P a s ->
  (forall d, d ∈ P -> addr d <= a) -> (forall d, d ∈ R -> a <= addr d) ->
  StronglySorted (fun c d => addr c <= addr d) R ->
  exists s' a', sweep_loop es R s = Ret s' /\ sweep_inv cs a' s' /\ (forall d, d ∈ cs -> addr d <= a').
Proof.
  induction R as [|c R IH]; intros P a s Ec I HP HR S; simpl.
  - exists s, a. rewrite app_nil_r in Ec. subst P. done.
  - apply StronglySorted_inv in S as [S F]. rewrite Forall_forall in F.
    destruct (sweep_step_spec P c R a s Ec I) as (s1 & E1 & I1); try done.
    { apply HR. left. }
    rewrite E1. cbn [bindO]. assert (a <= addr c) by (apply HR; left).
    apply (IH (P ++ [c]) (addr c)); try done.
    + rewrite <- app_assoc. done.
    + intros d Hd. apply elem_of_app in Hd as [Hd|Hd]; [specialize (HP d Hd); lia|].
      apply list_elem_of_singleton in Hd as ->. lia.
Qed.
End SweepProofs.

Lemma spec_type_outside es x :
  (forall i e, zlookup es i = Some e -> ~ covers e x) -> spec_type es x = 0.
Proof.
  intros H. symmetry. eapply is_max_unique; [|split_and!; [|lia|by left]|apply spec_type_max].
  - instantiate (1 := fun _ => False). intros e. split; [done|]. intros [He C].
    apply list_elem_of_lookup_1 in He as [i Ei].
    apply (H (Z.of_nat i) e); [|done]. unfold zlookup. zcases; [|lia]. by rewrite Nat2Z.id.
  - done.
Qed.

(** After the last change point nothing is open. *)
Lemma sweep_final es cs a s : Forall range_ok es -> (forall c, c ∈ cs <-> is_point es c) ->
  sweep_inv es cs a s -> (forall d, d ∈ cs -> addr d <= a) ->
  forall x, type_at (done_ s) x = spec_type es x.
Proof.
  intros Hok Hp I Ha x.
  assert (El : lastType s = 0).
  { destruct (sw_type _ _ _ _ I) as (_ & _ & [?|(e & (i & Hi & _) & _)]); [done|].
    apply (sw_open _ _ _ _ I) in Hi as (d & Ed & Ld & _ & He). exfalso. apply He, Hp.
    exists d. simpl. auto. }
  destruct (decide (x < a)) as [Hx|Hx].
  - rewrite <- (sw_spec _ _ _ _ I) by done. rewrite El.
    pose proof (type_at_nonneg (done_ s) x). zcases; lia.
  - rewrite type_at_after, spec_type_outside; [done| |].
    + intros i e E [C1 C2]. specialize (Ha (end_of i e)). simpl in Ha.
      assert (Hin : end_of i e ∈ cs) by (apply Hp; exists e; simpl; split_and!; [done|lia|by right]).
      specialize (Ha Hin). lia.
    + eapply Forall_impl; [exact (sw_ends _ _ _ _ I)|]. simpl. rewrite El. simpl. intros; lia.
Qed.

(** ** The change points of the setup loop *)

Lemma setup_members_elem es : Forall range_ok es -> forall i0 c,
  c ∈ setup_members i0 es <-> exists k e, es !! k = Some e /\ pBios c = i0 + Z.of_nat k
    /\ 0 < map_length e /\ (addr c = baseAddr e \/ addr c = baseAddr e + map_length e).
Proof.
  induction 1 as [|e es (B & L & R & _) _ IH]; intros i0 c; simpl.
  - split; [intros H; by apply not_elem_of_nil in H|]. by intros (k & e & ? & _).
  - rewrite elem_of_app, IH. rewrite u64_id by lia. split.
    + intros [H|(k & d & E & Ep & Hd)].
      * exists 0%nat, e. destruct (c_true (map_length e)) eqn:C; [|by apply not_elem_of_nil in H].
        apply c_true_spec in C.
        apply elem_of_cons in H as [->|H]; [|apply list_elem_of_singleton in H as ->]; simpl;
          split_and!; try done; lia || auto.
      * exists (S k), d. simpl. split_and!; try done; lia.
    + intros ([|k] & d & E & Ep & Ld & Hd); simpl in E.
      * injection E as ->. left. destruct (c_true (map_length d)) eqn:C;
          [|apply c_true_false in C; lia].
        rewrite elem_of_cons, list_elem_of_singleton. destruct c as [p a]. simpl in *.
        replace p with i0 by lia. destruct Hd as [->| ->]; [by left|by right].
      * right. exists k, d. split_and!; try done; lia.
Qed.

Lemma setup_members_points es : Forall range_ok es -> forall c,
  c ∈ setup_members 0 es <-> is_point es c.
Proof.
  intros H c. rewrite setup_members_elem by done. unfold is_point. split.
  - intros (k & e & E & -> & Hd). exists e. split; [|done].
    unfold zlookup. zcases; [|lia]. by replace (Z.to_nat (0 + Z.of_nat k)) with k by lia.
  - intros (e & E & Hd). apply zlookup_Some in E as [? E].
    exists (Z.to_nat (pBios c)), e. split_and!; try done; try lia; apply Hd.
Qed.

Lemma setup_members_nodup es : Forall range_ok es -> forall i0, NoDup (setup_members i0 es).
Proof.
  induction 1 as [|e es (B & L & R & _) F IH]; intros i0; simpl; [constructor|].
  apply NoDup_app. split_and!; [| |apply IH].
  - destruct (c_true (map_length e)) eqn:C; [|constructor]. apply c_true_spec in C.
    rewrite u64_id by lia. apply NoDup_cons. split; [|apply NoDup_singleton].
    intros H. apply list_elem_of_singleton in H. injection H as H. lia.
  - intros c H1 H2. apply setup_members_elem in H2 as (k & d & _ & Ep & _); [|done].
    assert (pBios c = i0); [|lia].
    destruct (c_true (map_length e)); [|by apply not_elem_of_nil in H1].
    apply elem_of_cons in H1 as [->|H1]; [done|]. by apply list_elem_of_singleton in H1 as ->.
Qed.

Lemma setup_members_length es i0 : (length (setup_members i0 es) <= 2 * length es)%nat.
Proof.
  revert i0. induction es as [|e es IH]; intros i0; simpl; [lia|].
  rewrite length_app. specialize (IH (i0 + 1)). destruct (c_true _); simpl; lia.
Qed.

Lemma key_sorted_addr es l : Sorted (fun c d => key es c <= key es d) l ->
  StronglySorted (fun c d => addr c <= addr d) l.
Proof.
  intros S. apply Sorted_StronglySorted in S; [|intros a b c; lia].
  induction S as [|c l S IH F]; constructor; [done|].
  eapply Forall_impl; [exact F|]. unfold key. intros d.
  destruct (at_base es c), (at_base es d); lia.
Qed.

Lemma sweep_init es : Forall range_ok es ->
  sweep_inv es [] 0 {| overlapList := []; lastType := 0; lastAddr := 0;
                       done_ := []; cur_base := 0; cur_type := 0 |}.
Proof.
  intros H. split; simpl; try done; try by constructor.
  - intros i. split; [intros Hi; by apply not_elem_of_nil in Hi|].
    intros (e & _ & _ & Hi & _). by apply not_elem_of_nil in Hi.
  - split_and!; [|lia|by left]. intros e (i & Hi & _). by apply not_elem_of_nil in Hi.
  - split; constructor.
  - intros x Hx. zcases; [lia|]. symmetry. apply spec_type_outside. intros i e E C.
    apply zlookup_range in E as [(? & _) _]; [|done]. unfold covers in C. lia.
Qed.

(** ** Properties *)

(** C29: For 2 to 16 well-formed ranges that all end below 4 GB, PhysReadMemoryMap
    terminates and normalises the memory map: the resulting entries are disjoint
    and in increasing order, and every address has in them exactly the
    highest type of a range around it (no type if there is none). *)
Theorem PhysReadMemoryMap_correct es fuel :
  (2 <= length es <= 16)%nat -> Forall range_ok es -> (1024 < fuel)%nat ->
  exists out, PhysReadMemoryMap fuel es = Ret out /\ entries_disjoint out
    /\ forall x, type_at out x = spec_type es x.
Proof.
  intros Hn Hok Hf. unfold PhysReadMemoryMap.
  destruct (Z.leb_spec (Z.of_nat (length es)) 1); [lia|].
  replace (E820CheckEntries es) with 0.
  2: { clear -Hok. induction Hok as [|e es (? & ? & ? & _) _ IH]; [done|]. simpl.
       rewrite u64_id by lia. zcases; [lia|done]. }
  cbn [c_true]. simpl. unfold SetupE820Sort. destruct (Z.ltb_spec 64 (2 * Z.of_nat (length es))); [lia|].
  cbn [bindO]. set (cs0 := setup_members 0 es).
  pose proof (setup_members_length es 0) as L0. fold cs0 in L0.
  destruct (E820Sort_spec es fuel cs0) as (cs & E & P & S).
  { pose proof (inversions_bound es cs0). nia. }
  rewrite E. cbn [bindO]. unfold E820CreateMap.
  assert (Hp : forall c, c ∈ cs <-> is_point es c)
    by (intros c; rewrite P; by apply setup_members_points).
  assert (Hl : (length cs <= 32)%nat) by (rewrite P; lia).
  destruct (sweep_loop_spec es Hok cs Hp) with (R := cs) (P := @nil ChangeMember) (a := 0)
    (s := {| overlapList := []; lastType := 0; lastAddr := 0;
             done_ := []; cur_base := 0; cur_type := 0 |}) as (s & a & Es & I & Ha); try done.
  { rewrite P. by apply setup_members_nodup. }
  { by apply sweep_init. }
  { intros d Hd. by apply not_elem_of_nil in Hd. }
  { intros d Hd. apply Hp in Hd as (e & Ee & _ & He).
    apply zlookup_range in Ee as [(? & ? & _) _]; [lia|done]. }
  { by eapply key_sorted_addr. }
  rewrite Es. cbn [bindO]. exists (done_ s). split; [done|]. split; [apply I|].
  by apply (sweep_final es cs a).
Qed.

Lemma PhysReadMemoryMap_correct_witness : exists out,
  PhysReadMemoryMap 1025 [{| baseAddr := 0x100000; map_length := 0x700000; map_type := 1 |};
                          {| baseAddr := 0x200000; map_length := 0x1000; map_type := 2 |}] = Ret out
  /\ type_at out 0x200800 = 2 /\ type_at out 0x201000 = 1.
Proof.
  destruct (PhysReadMemoryMap_correct
    [{| baseAddr := 0x100000; map_length := 0x700000; map_type := 1 |};
     {| baseAddr := 0x200000; map_length := 0x1000; map_type := 2 |}] 1025)
    as (out & E & _ & T); [simpl; lia|repeat constructor; simpl; lia|lia|].
  exists out. split; [exact E|]. rewrite !T. split; reflexivity.
Defined.
