(* ===== verification/Slab.v ===== *)
(** * The slab allocator (memory/slab.c, include/slab.h, include/malloc.h)

    A [Cache] hands out objects of one size from its slabs; a [Slab] is a
    run of pages with a bitmap of the objects in use.  The slabs of a cache
    form a ring without a separate head, entered at the oldest slab and
    walked through the [prev] pointers.  Small objects keep the [Slab]
    structure at the start of the run, large ones take it from the cache
    [slabCache].  MemAlloc and MemFree are built on caches of the sizes 16
    to 128 KB.

    The pages come from the virtual memory code through the interface
    [PageMapper]. *)

From S2P Require Import Prelude LList Bitmap.

(** ** What the allocator needs from arch/i386/mm/virt.c

    [vm_map_page] and [vm_map_range] are VirtMapPhysPage and
    VirtMapPhysRange: the address of newly mapped pages, or 0; they panic
    when no page is left. *)
Class PageMapper (W : Type) := {
  vm_map_page : Z -> Z -> Z -> W -> outcome (Z * W);
  vm_map_range : Z -> Z -> Z -> Z -> W -> outcome (Z * W);
  vm_mapped : W -> Z -> Prop;
  vm_ok : W -> Prop;
}.

(** A successful call returns page-aligned addresses of the range asked for
    that were not mapped, and maps nothing else. *)
Definition fresh_range {W} `{PageMapper W} (virt endVirt n : Z) (w : W) (v : Z) (w' : W) : Prop :=
  v <> 0 -> v mod PAGE_SIZE = 0 /\ virt <= v /\ v + n * PAGE_SIZE <= endVirt
    /\ (forall a, v <= a < v + n * PAGE_SIZE -> ~ vm_mapped w a)
    /\ (forall a, vm_mapped w' a <-> vm_mapped w a \/ v <= a < v + n * PAGE_SIZE).

(** The requests the interface is used with: whole pages between the user
    part's first table and the window of temporary mappings, present, with
    flag bits only. *)
Definition page_request (virt endVirt perms : Z) : Prop :=
  virt mod PAGE_SIZE = 0 /\ endVirt mod PAGE_SIZE = 0 /\ 0x400000 <= virt /\ endVirt <= 0xF0000000
  /\ 0 <= perms < PAGE_SIZE /\ Z.odd perms = true.

Class PageMapperLaws (W : Type) `{PageMapper W} := {
  vm_map_page_fresh virt endVirt perms w v w' : vm_ok w -> page_request virt endVirt perms ->
    vm_map_page virt endVirt perms w = Ret (v, w') -> vm_ok w' /\ fresh_range virt endVirt 1 w v w';
  vm_map_range_fresh virt endVirt n perms w v w' : vm_ok w -> page_request virt endVirt perms ->
    0 < n < 2 ^ 20 -> vm_map_range virt endVirt n perms w = Ret (v, w') ->
    vm_ok w' /\ fresh_range virt endVirt n w v w';
}.

(** ** Model *)

Definition SLAB_START : Z := 0xC0000000.
Definition SLAB_END : Z := 0xD0000000.
Definition SLAB_MIN_OBJECT_SIZE : Z := 16.
Definition SLAB_OFFSLAB : Z := 1.
Definition MAX_OBJECTS_PER_SLAB : Z := PAGE_SIZE / SLAB_MIN_OBJECT_SIZE.
Definition PAGE_KERNEL : Z := 0.

(** sizeof(struct Slab), the offset of its [list] field, sizeof(struct
    Cache). *)
Definition SIZEOF_Slab : Z := 48.
Definition OFFSET_slab_list : Z := 4.
Definition SIZEOF_Cache : Z := 68.

Record Slab := {
  page : Z;
  isFull : Z;
  bitmap : list Z;
}.

(** [ctor] and [dtor] are function pointers, 0 when there is none. *)
Record Cache := {
  ctor : Z;
  dtor : Z;
  cache_name : Z;
  options : Z;
  numObjs : Z;
  offset : Z;
  size : Z;
  slabs : ptr;
  numPagesPerSlab : Z;
}.

Definition set_slabs (s : ptr) (c : Cache) : Cache :=
  {| ctor := ctor c; dtor := dtor c; cache_name := cache_name c; options := options c;
     numObjs := numObjs c; offset := offset c; size := size c; slabs := s;
     numPagesPerSlab := numPagesPerSlab c |}.

(** The structures by address, the [ListHead]s in them, the bytes of the
    objects, the state behind [PageMapper], the globals. *)
Record slabst (W : Type) := {
  slab_at : gmap Z Slab;
  cache_at : gmap Z Cache;
  rings : heap;
  bytes : Z -> Z;
  vm : W;
  slabCache : ptr;
  slabInfoSetup : Z;
  cacheSizes : list (Z * ptr);
}.
Arguments slab_at {W} _.
Arguments cache_at {W} _.
Arguments rings {W} _.
Arguments bytes {W} _ _.
Arguments vm {W} _.
Arguments slabCache {W} _.
Arguments slabInfoSetup {W} _.
Arguments cacheSizes {W} _.

(** The addresses of the static variables cacheCache and cacheList. *)
Definition cacheCache : ptr := 0xC0100000.
Definition cacheList : ptr := 0xC0100100.

Definition slab_node (s : ptr) : ptr := s + OFFSET_slab_list.

Section Operations.
Context {W : Type} `{PM : PageMapper W}.
(** The effect of a constructor on memory, and of registering a cache with
    the information filesystem (lib/keobject.c). *)
Variable call_ctor : Z -> Z -> (Z -> Z) -> (Z -> Z).
Variable KeObjectCreate : ptr -> W -> W.
Implicit Types st : slabst W.

Definition upd_slab (s : ptr) (v : Slab) st : slabst W :=
  {| slab_at := <[s := v]> (slab_at st); cache_at := cache_at st; rings := rings st;
     bytes := bytes st; vm := vm st; slabCache := slabCache st;
     slabInfoSetup := slabInfoSetup st; cacheSizes := cacheSizes st |}.
Definition upd_cache (c : ptr) (v : Cache) st : slabst W :=
  {| slab_at := slab_at st; cache_at := <[c := v]> (cache_at st); rings := rings st;
     bytes := bytes st; vm := vm st; slabCache := slabCache st;
     slabInfoSetup := slabInfoSetup st; cacheSizes := cacheSizes st |}.
Definition upd_rings (h : heap) st : slabst W :=
  {| slab_at := slab_at st; cache_at := cache_at st; rings := h;
     bytes := bytes st; vm := vm st; slabCache := slabCache st;
     slabInfoSetup := slabInfoSetup st; cacheSizes := cacheSizes st |}.
Definition upd_bytes (m : Z -> Z) st : slabst W :=
  {| slab_at := slab_at st; cache_at := cache_at st; rings := rings st;
     bytes := m; vm := vm st; slabCache := slabCache st;
     slabInfoSetup := slabInfoSetup st; cacheSizes := cacheSizes st |}.
Definition upd_vm (w : W) st : slabst W :=
  {| slab_at := slab_at st; cache_at := cache_at st; rings := rings st;
     bytes := bytes st; vm := w; slabCache := slabCache st;
     slabInfoSetup := slabInfoSetup st; cacheSizes := cacheSizes st |}.
Definition upd_slabCache (c : ptr) st : slabst W :=
  {| slab_at := slab_at st; cache_at := cache_at st; rings := rings st;
     bytes := bytes st; vm := vm st; slabCache := c;
     slabInfoSetup := slabInfoSetup st; cacheSizes := cacheSizes st |}.
Definition upd_cacheSizes (l : list (Z * ptr)) st : slabst W :=
  {| slab_at := slab_at st; cache_at := cache_at st; rings := rings st;
     bytes := bytes st; vm := vm st; slabCache := slabCache st;
     slabInfoSetup := slabInfoSetup st; cacheSizes := l |}.

(** A [ListHead] comes into being with zeroed pointers. *)
Definition zero_node (p : ptr) (h : heap) : heap :=
  {| hnext := <[p := 0]> (hnext h); hprev := <[p := 0]> (hprev h) |}.

Definition ZeroMemory (p n : Z) (m : Z -> Z) : Z -> Z :=
  fun a => if (p <=? a) && (a <? p + n) then 0 else m a.

Definition SLAB_TOTAL_BYTES (numPages off : Z) : Z := numPages * PAGE_SIZE - off.

Section Recursion.
(** The recursive call of MemCacheAlloc, for an off-slab [Slab]. *)
Variable alloc : ptr -> slabst W -> outcome (Z * slabst W).

(** The address of the new slab, 0 on failure. *)
Definition MemCacheAllocSlab (cache : ptr) st : outcome (ptr * slabst W) :=
  let* c := of_option (cache_at st !! cache) in
  let perms := Z.lor (Z.lor PAGE_KERNEL PAGE_RW) PAGE_PRESENT in
  let* (virtAddr, w) :=
    if PAGE_SIZE <? size c
    then vm_map_range SLAB_START SLAB_END (Z.shiftr (PAGE_ALIGN_UP (size c)) PAGE_SHIFT) perms (vm st)
    else vm_map_page SLAB_START SLAB_END perms (vm st) in
  let st := upd_vm w st in
  if virtAddr =? 0 then Ret (0, st)
  else
    let* (slab, st) :=
      if c_true (Z.land (options c) SLAB_OFFSLAB) then alloc (slabCache st) st
      else Ret (virtAddr, st) in
    if slab =? 0 then Fault
    else
      let st := upd_slab slab {| page := virtAddr; isFull := 0; bitmap := replicate 32 0 |} st in
      Ret (slab, upd_rings (zero_node (slab_node slab) (rings st)) st).

Fixpoint construct_objects (n : nat) (i : Z) (c : Cache) (pg : Z) (m : Z -> Z) : Z -> Z :=
  match n with
  | O => m
  | S n => construct_objects n (i + 1) c pg (call_ctor (ctor c) (pg + i * size c + offset c) m)
  end.

Definition MemCacheConstructSlab (cache slab : ptr) st : outcome (slabst W) :=
  let* c := of_option (cache_at st !! cache) in
  let* s := of_option (slab_at st !! slab) in
  let m := if c_true (ctor c)
           then construct_objects (Z.to_nat (numObjs c)) 0 c (page s) (bytes st)
           else ZeroMemory (page s + offset c)
                           (numPagesPerSlab c * PAGE_SIZE - offset c) (bytes st) in
  let st := upd_bytes m st in
  if slabs c =? 0 then
    let* h := INIT_LIST_HEAD (slab_node slab) (rings st) in
    Ret (upd_cache cache (set_slabs slab c) (upd_rings h st))
  else
    let* h := ListAdd (slab_node slab) (slab_node (slabs c)) (rings st) in
    Ret (upd_rings h st).

Definition MemCacheAddSlab (cache : ptr) st : outcome (Z * slabst W) :=
  let* (slab, st) := MemCacheAllocSlab cache st in
  if slab =? 0 then Ret (- ENOMEM, st)
  else
    let* st := MemCacheConstructSlab cache slab st in
    Ret (0, st).

(** The search of one bitmap, from object [i] with [n] to go. *)
Fixpoint find_free (n : nat) (i : Z) (bm : list Z) : outcome (option Z) :=
  match n with
  | O => Ret None
  | S n =>
      let* b := BmapGetBit bm i in
      if c_true b then find_free n (i + 1) bm else Ret (Some i)
  end.

(** Take object [i] of the slab. *)
Definition take_object (c : Cache) (slab : ptr) (s : Slab) (i : Z) st : outcome (Z * slabst W) :=
  let* bm := BmapSetBit (bitmap s) i 1 in
  let full := if i =? numObjs c - 1 then 1 else isFull s in
  let st := upd_slab slab {| page := page s; isFull := full; bitmap := bm |} st in
  let obj := u32 (page s + offset c + i * size c) in
  let st := if c_true (ctor c) then st else upd_bytes (ZeroMemory obj (size c) (bytes st)) st in
  Ret (obj, st).

Fixpoint alloc_loop (fuel : nat) (cache currSlab : ptr) st : outcome (Z * slabst W) :=
  match fuel with
  | O => NoFuel
  | S fuel =>
      if currSlab =? 0 then Ret (0, st)
      else
        let* c := of_option (cache_at st !! cache) in
        let* s := of_option (slab_at st !! currSlab) in
        let* found := if isFull s =? 0
                      then find_free (Z.to_nat (numObjs c)) 0 (bitmap s) else Ret None in
        match found with
        | Some i => take_object c currSlab s i st
        | None =>
            let* prev := get_prev (slab_node currSlab) (rings st) in
            let* (_, st) := if prev =? slab_node (slabs c) then MemCacheAddSlab cache st
                            else Ret (0, st) in
            let* prev := get_prev (slab_node currSlab) (rings st) in
            alloc_loop fuel cache (ListEntry prev OFFSET_slab_list) st
        end
  end.

Definition MemCacheAlloc_body (fuel : nat) (cache : ptr) st : outcome (Z * slabst W) :=
  if cache =? 0 then Ret (0, st)
  else
    let* c := of_option (cache_at st !! cache) in
    let* (_, st) := if slabs c =? 0 then MemCacheAddSlab cache st else Ret (0, st) in
    let* c := of_option (cache_at st !! cache) in
    alloc_loop fuel cache (slabs c) st.
End Recursion.

(** [depth] bounds the nesting of off-slab allocations (two levels: the
    cache [slabCache] keeps its own [Slab]s on the slab), [fuel] the walk
    over the slabs. *)
Fixpoint MemCacheAlloc (depth fuel : nat) (cache : ptr) st : outcome (Z * slabst W) :=
  match depth with
  | O => NoFuel
  | S depth => MemCacheAlloc_body (MemCacheAlloc depth fuel) fuel cache st
  end.

Definition SlabFree (c : Cache) (slab : ptr) (p : Z) st : outcome (slabst W) :=
  let* s := of_option (slab_at st !! slab) in
  let i := s32 (u32 (p - (page s + offset c)) / size c) in
  let* bm := BmapSetBit (bitmap s) i 0 in
  let st := upd_slab slab {| page := page s; isFull := 0; bitmap := bm |} st in
  Ret (upd_bytes (if c_true (ctor c) then call_ctor (ctor c) p (bytes st)
                  else ZeroMemory p (size c) (bytes st)) st).

Fixpoint free_loop (fuel : nat) (c : Cache) (currSlab : ptr) (addr : Z) st
  : outcome (Z * slabst W) :=
  match fuel with
  | O => NoFuel
  | S fuel =>
      if currSlab =? 0 then Ret (- EFAULT, st)
      else
        let* s := of_option (slab_at st !! currSlab) in
        if (page s + offset c <=? addr) && (addr <? page s + numPagesPerSlab c * PAGE_SIZE)
        then
          let* st := SlabFree c currSlab addr st in Ret (0, st)
        else
          let* prev := get_prev (slab_node currSlab) (rings st) in
          if prev =? slab_node (slabs c) then Ret (- EFAULT, st)
          else free_loop fuel c (ListEntry prev OFFSET_slab_list) addr st
  end.

Definition MemCacheFree (fuel : nat) (cache : ptr) (obj : Z) st : outcome (Z * slabst W) :=
  if obj =? 0 then Ret (- EFAULT, st)
  else
    let* c := of_option (cache_at st !! cache) in
    free_loop fuel c (slabs c) obj st.

(** The first malloc cache whose objects are large enough. *)
Fixpoint pick_cache (sz : Z) (l : list (Z * ptr)) : option ptr :=
  match l with
  | [] => None
  | (csize, cache) :: l => if sz <=? csize then Some cache else pick_cache sz l
  end.

Definition MemAlloc (depth fuel : nat) (sz : Z) st : outcome (Z * slabst W) :=
  match pick_cache sz (cacheSizes st) with
  | None => Ret (0, st)
  | Some cache => MemCacheAlloc depth fuel cache st
  end.

(** A pointer no malloc cache owns halts the machine. *)
Fixpoint free_in (fuel : nat) (l : list (Z * ptr)) (p : Z) st : outcome (slabst W) :=
  match l with
  | [] => Panic
  | (_, cache) :: l =>
      let* (r, st) := MemCacheFree fuel cache p st in
      if r =? 0 then Ret st else free_in fuel l p st
  end.

Definition MemFree (fuel : nat) (p : Z) st : outcome (slabst W) :=
  if p =? 0 then Ret st else free_in fuel (cacheSizes st) p st.

(** The fields MemCacheCreate computes from the size asked for. *)
Definition cache_geometry (name sz ctor_ dtor_ options_ : Z) : Cache :=
  let sz := if sz <? SLAB_MIN_OBJECT_SIZE then SLAB_MIN_OBJECT_SIZE else sz in
  let sz := Z.land (u32 (sz + 3)) (Z.lnot 3) in
  let np := if PAGE_SIZE <? sz then Z.shiftr sz PAGE_SHIFT else 1 in
  let opts := if PAGE_SIZE / 4 <=? sz then Z.lor options_ SLAB_OFFSLAB else options_ in
  let off := if c_true (Z.land opts SLAB_OFFSLAB) then 0 else SIZEOF_Slab in
  {| ctor := ctor_; dtor := dtor_; cache_name := name; options := opts;
     numObjs := u32 (SLAB_TOTAL_BYTES np off) / sz; offset := off; size := sz; slabs := 0;
     numPagesPerSlab := np |}.

Definition MemCacheCreate (depth fuel : nat) (name sz ctor_ dtor_ options_ : Z) st
  : outcome (ptr * slabst W) :=
  if sz =? 0 then Ret (0, st)
  else
    let* (retVal, st) := MemCacheAlloc depth fuel cacheCache st in
    if retVal =? 0 then Fault
    else
      let st := upd_cache retVal (cache_geometry name sz ctor_ dtor_ options_) st in
      let st := if c_true (slabInfoSetup st) then upd_vm (KeObjectCreate retVal (vm st)) st else st in
      let* h := ListAddTail retVal cacheList (zero_node retVal (rings st)) in
      Ret (retVal, upd_rings h st).

(** The loop of SlabInit from entry [i] of cacheSizes on; [names] holds the
    addresses of the strings of mallocNames. *)
Fixpoint init_sizes (depth fuel : nat) (names : list Z) (i : Z) st : outcome (Z * slabst W) :=
  match names with
  | [] => Ret (0, st)
  | name :: names =>
      let* (sz, _) := of_option (zlookup (cacheSizes st) i) in
      let* (c, st) := MemCacheCreate depth fuel name sz 0 0 0 st in
      let* l := of_option (zupdate (cacheSizes st) i (sz, c)) in
      let st := upd_cacheSizes l st in
      if c =? 0 then Ret (- ENOMEM, st) else init_sizes depth fuel names (i + 1) st
  end.

(** [slabsName] and [mallocNames] are the addresses of the name strings. *)
Definition SlabInit (depth fuel : nat) (slabsName : Z) (mallocNames : list Z) st
  : outcome (Z * slabst W) :=
  let* h := ListAddTail cacheCache cacheList (rings st) in
  let st := upd_rings h st in
  let* (c, st) := MemCacheCreate depth fuel slabsName SIZEOF_Slab 0 0 0 st in
  let st := upd_slabCache c st in
  init_sizes depth fuel mallocNames 0 st.
End Operations.

(** The static initialisers: cacheSizes and cacheCache. *)
Definition cacheSizes_init : list (Z * ptr) :=
  (fun sz => (sz, 0)) <$>
  [16; 32; 64; 128; 256; 512; 1024; 2048; 4096; 8192; 16384; 32768; 65536; 131072].
Definition cacheCache_init : Cache := {|
  ctor := 0; dtor := 0; cache_name := 0; options := 0;
  numObjs := (PAGE_SIZE - SIZEOF_Slab) / SIZEOF_Cache; offset := SIZEOF_Slab;
  size := SIZEOF_Cache; slabs := 0; numPagesPerSlab := 1;
|}.

(** ** Geometry *)

(** What a cache's fields must satisfy for its bitmaps and pages to be
    large enough. *)
Definition geometry_ok (c : Cache) : Prop :=
  0 < numObjs c <= MAX_OBJECTS_PER_SLAB /\ 0 < size c /\ 0 <= offset c
  /\ offset c + numObjs c * size c <= numPagesPerSlab c * PAGE_SIZE
  /\ (size c <= PAGE_SIZE -> numPagesPerSlab c = 1)
  /\ (PAGE_SIZE < size c -> numPagesPerSlab c * PAGE_SIZE <= size c).

Lemma round4 z : Z.land z (Z.lnot 3) = z - z mod 4.
Proof.
  rewrite <- Z.ldiff_land. change 3 with (Z.ones 2). rewrite Z.ldiff_ones_r by lia.
  rewrite Z.shiftl_mul_pow2, Z.shiftr_div_pow2 by lia.
  change (2 ^ 2) with 4. pose proof (Z.div_mod z 4). lia.
Qed.

(** MemCacheCreate computes a usable geometry for every object size up
    to a page and for every whole number of pages: objects are at least as
    large as asked for, a slab has at least one object and no more than
    its bitmap has bits, and the objects fit behind the slab header. *)
Theorem cache_geometry_ok name sz ct dt :
  (0 < sz <= PAGE_SIZE \/ (PAGE_SIZE < sz < 2 ^ 31 /\ sz mod PAGE_SIZE = 0)) ->
  geometry_ok (cache_geometry name sz ct dt 0) /\ sz <= size (cache_geometry name sz ct dt 0).
Proof.
  unfold PAGE_SIZE. intros Hsz. unfold cache_geometry. rewrite round4.
  set (s0 := if sz <? SLAB_MIN_OBJECT_SIZE then SLAB_MIN_OBJECT_SIZE else sz).
  assert (H0 : 16 <= s0 < 2 ^ 31 /\ sz <= s0 /\ (16 <= sz -> s0 = sz) /\ (sz < 16 -> s0 = 16))
    by (subst s0; unfold SLAB_MIN_OBJECT_SIZE; zcases; lia).
  rewrite u32_id by lia. set (s4 := s0 + 3 - (s0 + 3) mod 4).
  assert (H4 : s0 <= s4 <= s0 + 3 /\ s4 mod 4 = 0).
  { subst s4. pose proof (Z.mod_pos_bound (s0 + 3) 4). split; [lia|].
    rewrite Zminus_mod_idemp_r. replace (s0 + 3 - (s0 + 3)) with 0 by lia. done. }
  unfold geometry_ok, PAGE_SIZE, PAGE_SHIFT, MAX_OBJECTS_PER_SLAB, SLAB_TOTAL_BYTES, SIZEOF_Slab,
    SLAB_OFFSLAB. simpl. change (4096 / 4) with 1024. change (PAGE_SIZE / SLAB_MIN_OBJECT_SIZE) with 256.
  set (off := if c_true _ then 0 else 48).
  assert (Ho : off = if 1024 <=? s4 then 0 else 48) by (subst off; by destruct (1024 <=? s4)).
  clearbody off. destruct H4 as [H4 M4]. destruct (Z.ltb_spec 4096 s4) as [Hb|Hb].
  - assert (s4 = sz) as E by (Z.to_euclidean_division_equations; lia).
    assert (Es : Z.shiftr s4 12 * 4096 = s4).
    { rewrite Z.shiftr_div_pow2 by lia. change (2 ^ 12) with 4096.
      Z.to_euclidean_division_equations; lia. }
    destruct (Z.leb_spec 1024 s4); [|lia]. subst off.
    unfold PAGE_SIZE. rewrite Es, Z.sub_0_r, u32_id, Z.div_same by lia. lia.
  - assert (s4 <= 4096 - off) by (destruct (Z.leb_spec 1024 s4); lia).
    assert (0 <= off <= 48) by (destruct (Z.leb_spec 1024 s4); lia).
    unfold PAGE_SIZE. rewrite u32_id by lia.
    pose proof (Z.mul_div_le (1 * 4096 - off) s4). pose proof (Z.div_str_pos (1 * 4096 - off) s4).
    pose proof (Z.div_le_compat_l (1 * 4096 - off) 16 s4).
    pose proof (Z.div_le_mono (1 * 4096 - off) 4096 16). change (4096 / 16) with 256 in *.
    lia.
Qed.

Lemma cache_geometry_ok_witness : geometry_ok (cache_geometry 0 100 0 0 0).
Proof. apply (cache_geometry_ok 0 100 0 0). left. unfold PAGE_SIZE. lia. Defined.

(** ** The ring of slabs *)

Lemma chain_prev h : forall l a k b, chain h a l -> l !! k = Some b ->
  hprev h !! b = (a :: l) !! k.
Proof.
  induction l as [|c l IH]; intros a k b C E; [done|]. destruct C as [[_ L] C].
  destruct k as [|k]; simpl in E; [injection E as <-; done|]. by apply (IH c k).
Qed.

(** [ts] are the slabs of a ring in the order of the walk, oldest first. *)
Definition ring (h : heap) (ts : list ptr) : Prop :=
  match ts with
  | [] => False
  | t :: ts => clist h (slab_node t) (slab_node <$> reverse ts)
  end.

(** The slab after position [k] of the walk; the last one closes the ring. *)
Definition next_slab (ts : list ptr) (k : nat) : ptr :=
  match ts !! S k with Some t => t | None => default 0 (head ts) end.

Lemma ring_prev h ts k s : ring h ts -> ts !! k = Some s ->
  get_prev (slab_node s) h = Ret (slab_node (next_slab ts k)).
Proof.
  destruct ts as [|t ts]; [done|]. intros [_ C] E. unfold get_prev, next_slab.
  assert (L : length (slab_node <$> reverse ts) = length ts)
    by (by rewrite length_fmap, length_reverse).
  assert (G : hprev h !! slab_node s = Some (slab_node (default t (ts !! k)))).
  2: { rewrite G. simpl. by destruct (ts !! k). }
  destruct k as [|k]; simpl in E.
  - injection E as ->. rewrite (chain_prev _ _ _ (length ts) _ C).
    2: { rewrite lookup_app_r by lia. by rewrite L, Nat.sub_diag. }
    destruct ts as [|u ts]; [done|].
    rewrite app_comm_cons, lookup_app_l by (simpl in *; lia).
    change (length (u :: ts)) with (S (length ts)). simpl.
    rewrite list_lookup_fmap, reverse_lookup by (simpl; lia).
    simpl. by rewrite Nat.sub_diag.
  - assert (Hk : (k < length ts)%nat) by by apply lookup_lt_Some in E.
    rewrite (chain_prev _ _ _ (length ts - 1 - k) _ C).
    2: { rewrite lookup_app_l by lia. rewrite list_lookup_fmap, reverse_lookup by lia.
         replace (length ts - S (length ts - 1 - k))%nat with k by lia. by rewrite E. }
    destruct (decide (S k = length ts)) as [Ek|Ek].
    + replace (length ts - 1 - k)%nat with 0%nat by lia. simpl.
      by rewrite (lookup_ge_None_2 ts (S k)) by lia.
    + replace (length ts - 1 - k)%nat with (S (length ts - 2 - k)) by lia. simpl.
      rewrite lookup_app_l by lia. rewrite list_lookup_fmap, reverse_lookup by lia.
      replace (length ts - S (length ts - 2 - k))%nat with (S k) by lia.
      destruct (lookup_lt_is_Some_2 ts (S k)) as [u Eu]; [lia|]. by rewrite Eu.
Qed.

#[export] Instance slab_node_Inj : Inj (=) (=) slab_node.
Proof. intros a b. unfold slab_node. lia. Qed.

Lemma ring_nodup h ts : ring h ts -> NoDup ts.
Proof.
  destruct ts as [|t ts]; [done|]. intros [N _]. rewrite <- fmap_cons in N.
  apply NoDup_fmap_1 in N. apply NoDup_cons in N as [Nt N]. apply NoDup_cons.
  rewrite elem_of_reverse in Nt. split; [done|]. by rewrite reverse_Permutation in N.
Qed.

(** Adding a slab: the new one is the last of the walk. *)
Lemma ring_add h t ts n : ring h (t :: ts) -> allocated h (slab_node n) -> n ∉ t :: ts ->
  exists h', ListAdd (slab_node n) (slab_node t) h = Ret h' /\ ring h' (t :: ts ++ [n])
    /\ frame (slab_node n :: (slab_node <$> t :: ts)) h h'.
Proof.
  intros R A N. destruct (ListAdd_clist h (slab_node t) (slab_node <$> reverse ts) (slab_node n) R A)
    as (h' & E & R' & F).
  { rewrite <- fmap_cons. intros H. apply (list_elem_of_fmap_inj_2 slab_node) in H.
    apply N. rewrite elem_of_cons in *. by rewrite elem_of_reverse in H. }
  exists h'. split; [done|]. split.
  - simpl. rewrite reverse_app. done.
  - destruct F as [F1 F2]. split; [|done]. intros p Hp. apply F1.
    rewrite !not_elem_of_cons in *. destruct Hp as (? & Hp).
    rewrite fmap_cons, not_elem_of_cons in Hp. destruct Hp as [? Hp]. split_and!; try done.
    rewrite fmap_reverse, elem_of_reverse. done.
Qed.

(** ** The invariant of a cache *)

Section Invariant.
Context {W : Type} `{PM : PageMapper W}.
Implicit Types st : slabst W.

Record slab_ok (c : Cache) (sl : Slab) : Prop := {
  so_len : length (bitmap sl) = 32%nat;
  so_wf : wf_bytes (bitmap sl);
  so_full : isFull sl <> 0 -> forall i, 0 <= i < numObjs c -> bit (bitmap sl) i = true;
  so_page : 0 < page sl /\ page sl + numPagesPerSlab c * PAGE_SIZE < 2 ^ 32;
}.

(** Address [a] is in the pages of the slab. *)
Definition in_pages (c : Cache) (sl : Slab) (a : Z) : Prop :=
  page sl <= a < page sl + numPagesPerSlab c * PAGE_SIZE.

(** The cache at [cache] has the record [c] and the slabs [ts]. *)
Record cache_inv st (cache : ptr) (c : Cache) (ts : list ptr) : Prop := {
  ci_cache : cache_at st !! cache = Some c;
  ci_geom : geometry_ok c;
  ci_slabs : slabs c = default 0 (head ts);
  ci_addr : forall s, s ∈ ts -> 0 < s < 2 ^ 32;
  ci_ring : ts <> [] -> ring (rings st) ts;
  ci_each : forall s, s ∈ ts -> exists sl, slab_at st !! s = Some sl /\ slab_ok c sl
    /\ (forall a, in_pages c sl a -> vm_mapped (vm st) a);
  ci_disj : forall s t sl tl a, s ∈ ts -> t ∈ ts ->
    slab_at st !! s = Some sl -> slab_at st !! t = Some tl ->
    in_pages c sl a -> in_pages c tl a -> s = t;
  ci_mapped : forall s, s ∈ ts -> vm_mapped (vm st) s;
  ci_vm : vm_ok (vm st);
}.

(** The objects in use. *)
Definition is_live st (c : Cache) (ts : list ptr) (a : Z) : Prop :=
  exists s sl i, s ∈ ts /\ slab_at st !! s = Some sl /\ 0 <= i < numObjs c
    /\ bit (bitmap sl) i = true /\ a = page sl + offset c + i * size c.

(** A new slab has been taken for the cache but is not on its ring yet. *)
Record slab_added st (cache : ptr) (c : Cache) (ts : list ptr) (slab : ptr) st1 : Prop := {
  sa_addr : 0 < slab < 2 ^ 32;
  sa_new : slab ∉ ts;
  sa_cache : cache_at st1 !! cache = Some c;
  sa_slab : exists v, slab_at st1 !! slab
      = Some {| page := v; isFull := 0; bitmap := replicate 32 0 |}
    /\ 0 < v /\ v + numPagesPerSlab c * PAGE_SIZE < 2 ^ 32
    /\ forall a, v <= a < v + numPagesPerSlab c * PAGE_SIZE ->
         ~ vm_mapped (vm st) a /\ vm_mapped (vm st1) a;
  sa_keep : forall s, s ∈ ts -> slab_at st1 !! s = slab_at st !! s;
  sa_ring : ts <> [] -> ring (rings st1) ts;
  sa_node : allocated (rings st1) (slab_node slab);
  sa_vm : forall a, vm_mapped (vm st) a -> vm_mapped (vm st1) a;
  sa_mapped : vm_mapped (vm st1) slab;
  sa_ok : vm_ok (vm st1);
}.

(** What an allocation of [obj] promises. *)
Record alloc_post st (c : Cache) (ts : list ptr) (obj : Z) (cache : ptr) st' : Prop := {
  ap_inv : exists c' ts', cache_inv st' cache c' ts' /\ ts `prefix_of` ts'
    /\ (exists x, c' = set_slabs x c)
    /\ (exists s sl, s ∈ ts' /\ slab_at st' !! s = Some sl
          /\ page sl + offset c <= obj
          /\ obj + size c <= page sl + numPagesPerSlab c * PAGE_SIZE)
    /\ forall a, is_live st' c ts' a <-> is_live st c ts a \/ a = obj;
  ap_new : ~ is_live st c ts obj;
  ap_zero : ctor c = 0 -> forall a, obj <= a < obj + size c -> bytes st' a = 0;
}.
End Invariant.

(** ** Lemmas *)

Lemma find_free_spec bm : length bm = 32%nat -> forall n i, 0 <= i -> i + Z.of_nat n <= 256 ->
  exists r, find_free n i bm = Ret r /\
    match r with
    | Some j => i <= j < i + Z.of_nat n /\ bit bm j = false
                /\ forall k, i <= k < j -> bit bm k = true
    | None => forall k, i <= k < i + Z.of_nat n -> bit bm k = true
    end.
Proof.
  intros L. induction n as [|n IH]; intros i Hi Hn; cbn [find_free].
  - eexists; split; [reflexivity|]. simpl. intros; lia.
  - destruct (BmapGetBit_spec bm i) as (r & Er & Hr); [unfold in_bitmap; lia|].
    rewrite Er. cbn [bindO]. rewrite Hr. destruct (bit bm i) eqn:B.
    + destruct (IH (i + 1)) as (r' & Er' & P); [lia..|]. exists r'. split; [done|].
      destruct r' as [j|].
      * destruct P as (? & ? & P). split_and!; try done; try lia. intros k Hk.
        destruct (decide (k = i)) as [->|]; [done|]. apply P. lia.
      * intros k Hk. destruct (decide (k = i)) as [->|]; [done|]. apply P. lia.
    + eexists; split; [reflexivity|]. simpl. split_and!; try done; lia || (intros; lia).
Qed.

Section Proofs.
Context {W : Type} `{PM : PageMapper W}.
Implicit Types st : slabst W.

Lemma cache_inv_bytes st cache c ts m :
  cache_inv st cache c ts -> cache_inv (upd_bytes m st) cache c ts.
Proof. intros []. by split. Qed.

Lemma cache_inv_upd_slab st cache c ts s sl sl' : cache_inv st cache c ts -> s ∈ ts ->
  slab_at st !! s = Some sl -> slab_ok c sl' -> page sl' = page sl ->
  cache_inv (upd_slab s sl' st) cache c ts.
Proof.
  intros I Hs El Ok Ep. destruct I. split; simpl; try done.
  - intros t Ht. destruct (decide (t = s)) as [->|N].
    + exists sl'. rewrite lookup_insert_eq. split_and!; try done.
      destruct (ci_each0 s Hs) as (x & Ex & _ & M). assert (x = sl) as -> by congruence.
      unfold in_pages in *. by rewrite Ep.
    + rewrite lookup_insert_ne by done. auto.
  - intros t u tl ul a Ht Hu. destruct (decide (t = s)) as [->|Nt], (decide (u = s)) as [->|Nu];
      rewrite ?lookup_insert_eq, ?lookup_insert_ne by done; try done.
    + intros [= <-] Eu. unfold in_pages. rewrite Ep. by apply (ci_disj0 s u sl ul a).
    + intros Et [= <-]. unfold in_pages. rewrite Ep. by apply (ci_disj0 t s tl sl a).
    + by apply ci_disj0.
Qed.

(** Object addresses identify slab and index. *)
Lemma object_in_pages c sl i : geometry_ok c -> slab_ok c sl -> 0 <= i < numObjs c ->
  in_pages c sl (page sl + offset c + i * size c)
  /\ page sl + offset c + i * size c + size c <= page sl + numPagesPerSlab c * PAGE_SIZE.
Proof. intros (? & ? & ? & ? & _) [] Hi. unfold in_pages. nia. Qed.

Lemma object_inj st cache c ts s t sl tl i j : cache_inv st cache c ts ->
  s ∈ ts -> t ∈ ts -> slab_at st !! s = Some sl -> slab_at st !! t = Some tl ->
  0 <= i < numObjs c -> 0 <= j < numObjs c ->
  page sl + offset c + i * size c = page tl + offset c + j * size c -> s = t /\ i = j.
Proof.
  intros I Hs Ht Es Et Hi Hj E. pose proof (ci_geom _ _ _ _ I) as G.
  destruct (ci_each _ _ _ _ I s Hs) as (x & Ex & Ok & _). assert (x = sl) as -> by congruence.
  destruct (ci_each _ _ _ _ I t Ht) as (x & Ex' & Ok' & _). assert (x = tl) as -> by congruence.
  destruct (object_in_pages c sl i G Ok Hi) as [P1 _].
  destruct (object_in_pages c tl j G Ok' Hj) as [P2 _]. rewrite <- E in P2.
  assert (s = t) as -> by (eapply (ci_disj _ _ _ _ I s t); eauto).
  split; [done|]. assert (sl = tl) as -> by congruence.
  destruct G as (_ & ? & _). nia.
Qed.

(** Setting or clearing one bit of one slab. *)
Lemma live_upd st cache c ts s sl i sl' a (v : bool) : cache_inv st cache c ts -> s ∈ ts ->
  slab_at st !! s = Some sl -> 0 <= i < numObjs c -> page sl' = page sl ->
  (forall j, 0 <= j -> bit (bitmap sl') j = if j =? i then v else bit (bitmap sl) j) ->
  is_live (upd_slab s sl' st) c ts a <->
    (if v then is_live st c ts a \/ a = page sl + offset c + i * size c
     else is_live st c ts a /\ a <> page sl + offset c + i * size c).
Proof.
  intros I Hs Es Hi Ep Hb. unfold is_live. simpl.
  assert (X : forall t tl j, t ∈ ts -> slab_at st !! t = Some tl -> 0 <= j < numObjs c ->
    page tl + offset c + j * size c = page sl + offset c + i * size c -> t = s /\ j = i)
    by (intros; eapply (object_inj st cache c ts); eauto).
  split.
  - intros (t & tl & j & Ht & Et & Hj & B & ->).
    destruct (decide (t = s)) as [->|Nt].
    + rewrite lookup_insert_eq in Et. injection Et as <-. rewrite Hb in B by lia.
      rewrite Ep. destruct (Z.eqb_spec j i) as [->|Nj].
      * subst v. by right.
      * assert (L : exists s0 sl0 i0, s0 ∈ ts /\ slab_at st !! s0 = Some sl0 /\ 0 <= i0 < numObjs c
          /\ bit (bitmap sl0) i0 = true
          /\ page sl + offset c + j * size c = page sl0 + offset c + i0 * size c)
          by (exists s, sl, j; done).
        destruct v; [by left|]. split; [done|]. intros E.
        destruct (X s sl j Hs Es Hj E) as [_ ?]. done.
    + rewrite lookup_insert_ne in Et by done.
      destruct v; [left; exists t, tl, j; done|]. split; [exists t, tl, j; done|].
      intros E. destruct (X t tl j Ht Et Hj E). done.
  - intros H.
    assert (L : (exists t tl j, t ∈ ts /\ slab_at st !! t = Some tl /\ 0 <= j < numObjs c
        /\ bit (bitmap tl) j = true /\ a = page tl + offset c + j * size c
        /\ (t = s -> j <> i)) \/ (v = true /\ a = page sl + offset c + i * size c)).
    { destruct v.
      - destruct H as [(t & tl & j & Ht & Et & Hj & B & ->)| ->]; [|by right].
        destruct (decide (t = s /\ j = i)) as [[-> ->]|N].
        + right. split; [done|]. assert (tl = sl) as -> by congruence. done.
        + left. exists t, tl, j. split_and!; done || lia.
      - destruct H as [(t & tl & j & Ht & Et & Hj & B & ->) N]. left.
        exists t, tl, j. split_and!; try done; try lia. intros -> ->.
        assert (tl = sl) as -> by congruence. done. }
    destruct L as [(t & tl & j & Ht & Et & Hj & B & -> & N)|[-> ->]].
    + destruct (decide (t = s)) as [->|Nt].
      * exists s, sl', j. rewrite lookup_insert_eq, Ep. rewrite (Hb j (proj1 Hj)).
        assert (tl = sl) as -> by congruence.
        destruct (Z.eqb_spec j i) as [Eji|]; [destruct (N eq_refl Eji)|done].
      * exists t, tl, j. by rewrite lookup_insert_ne.
    + exists s, sl', i. rewrite lookup_insert_eq, Ep, (Hb i (proj1 Hi)), Z.eqb_refl. done.
Qed.

Lemma take_object_spec st cache c ts s sl i : cache_inv st cache c ts -> s ∈ ts ->
  slab_at st !! s = Some sl -> 0 <= i < numObjs c -> bit (bitmap sl) i = false ->
  (forall k, 0 <= k < i -> bit (bitmap sl) k = true) ->
  exists obj st', take_object c s sl i st = Ret (obj, st')
    /\ obj = page sl + offset c + i * size c /\ cache_inv st' cache c ts
    /\ (forall a, is_live st' c ts a <-> is_live st c ts a \/ a = obj)
    /\ (exists sl', slab_at st' !! s = Some sl' /\ page sl' = page sl)
    /\ (ctor c = 0 -> forall a, obj <= a < obj + size c -> bytes st' a = 0).
Proof.
  intros I Hs Es Hi B Hlow. pose proof (ci_geom _ _ _ _ I) as G.
  destruct (ci_each _ _ _ _ I s Hs) as (x & Ex & Ok & _). assert (x = sl) as -> by congruence.
  destruct (object_in_pages c sl i G Ok Hi) as [P1 P2].
  destruct G as ((? & Gn) & _). destruct Ok as [L Wf F Pg].
  unfold take_object.
  destruct (BmapSetBit_spec (bitmap sl) i true Wf) as (bm & Eb & Lb & Wb & Hb).
  { unfold in_bitmap. rewrite L. unfold MAX_OBJECTS_PER_SLAB in Gn.
    change (PAGE_SIZE / SLAB_MIN_OBJECT_SIZE) with 256 in Gn. lia. }
  change (bool_value true) with 1 in Eb. rewrite Eb. cbn [bindO].
  rewrite u32_id by (unfold in_pages in P1; lia).
  set (sl' := {| page := page sl; isFull := _; bitmap := bm |}).
  assert (I' : cache_inv (upd_slab s sl' st) cache c ts).
  { apply (cache_inv_upd_slab _ _ _ _ _ sl); try done.
    split; simpl; [congruence|done| |done]. intros Hf k Hk. rewrite Hb by lia.
    destruct (Z.eqb_spec k i) as [->|Nk]; [done|].
    destruct (Z.eqb_spec i (numObjs c - 1)) as [->|]; [apply Hlow; lia|by apply F]. }
  assert (Lv : forall a, is_live (upd_slab s sl' st) c ts a
            <-> is_live st c ts a \/ a = page sl + offset c + i * size c).
  { intros a. exact (live_upd st cache c ts s sl i sl' a true I Hs Es Hi eq_refl Hb). }
  do 2 eexists. split; [reflexivity|]. split; [reflexivity|].
  destruct (c_true (ctor c)) eqn:Ct.
  - split_and!; try done.
    + exists sl'. simpl. by rewrite lookup_insert_eq.
    + intros E0. apply c_true_spec in Ct. done.
  - split_and!; [by apply cache_inv_bytes|exact Lv| |].
    + exists sl'. simpl. by rewrite lookup_insert_eq.
    + intros _ a Ha. simpl. unfold ZeroMemory. zcases; simpl; done || lia.
Qed.

(** A slab with a free object serves the request. *)
Lemma take_step alloc ctorf fuel st cache c ts s sl : cache_inv st cache c ts -> s ∈ ts ->
  slab_at st !! s = Some sl -> isFull sl = 0 ->
  (exists i, 0 <= i < numObjs c /\ bit (bitmap sl) i = false) ->
  exists obj st', alloc_loop ctorf alloc (S fuel) cache s st = Ret (obj, st')
    /\ ~ is_live st c ts obj /\ cache_inv st' cache c ts
    /\ (forall a, is_live st' c ts a <-> is_live st c ts a \/ a = obj)
    /\ (exists sl', slab_at st' !! s = Some sl' /\ page sl' + offset c <= obj
         /\ obj + size c <= page sl' + numPagesPerSlab c * PAGE_SIZE)
    /\ (ctor c = 0 -> forall a, obj <= a < obj + size c -> bytes st' a = 0).
Proof.
  intros I Hs Es Hf (i0 & Hi0 & B0). pose proof (ci_geom _ _ _ _ I) as G.
  destruct (ci_each _ _ _ _ I s Hs) as (x & Ex & Ok & _). assert (x = sl) as -> by congruence.
  pose proof (ci_addr _ _ _ _ I s Hs). cbn [alloc_loop].
  destruct (Z.eqb_spec s 0); [lia|]. rewrite (ci_cache _ _ _ _ I), Es. cbn [of_option bindO].
  rewrite Hf. cbn [Z.eqb].
  assert (Gn : 0 < numObjs c <= 256) by (destruct G as (Gn & _); exact Gn).
  destruct (find_free_spec (bitmap sl) (so_len _ _ Ok) (Z.to_nat (numObjs c)) 0)
    as (r & Er & Hr); [lia..|]. rewrite Er. cbn [bindO]. rewrite Z2Nat.id in Hr by lia.
  destruct r as [i|]; [|rewrite Hr in B0 by lia; done].
  destruct Hr as (Hi & Bi & Hlow).
  destruct (take_object_spec st cache c ts s sl i I Hs Es ltac:(lia) Bi Hlow)
    as (obj & st' & E & Eo & I' & Lv & (sl' & Es' & Ep) & Z0).
  exists obj, st'. split; [done|]. split_and!; try done.
  - intros (t & tl & j & Ht & Et & Hj & Bj & Ea). rewrite Eo in Ea.
    destruct (object_inj st cache c ts s t sl tl i j I Hs Ht Es Et) as [<- <-]; try done.
    assert (tl = sl) as -> by congruence. congruence.
  - exists sl'. rewrite Ep, Eo. split; [done|].
    destruct (object_in_pages c sl i G Ok ltac:(lia)) as [_ ?]. destruct G as (_ & ? & _). nia.
Qed.

Lemma zero_bit i : bit (replicate 32 0) i = false.
Proof.
  unfold bit. destruct (zlookup _ _) as [b|] eqn:E; [|done].
  apply zlookup_Some in E as [_ E]. apply lookup_replicate in E as [-> _]. apply Z.testbit_0_l.
Qed.

Lemma new_slab_ok c v : 0 < v -> v + numPagesPerSlab c * PAGE_SIZE < 2 ^ 32 ->
  slab_ok c {| page := v; isFull := 0; bitmap := replicate 32 0 |}.
Proof.
  intros. split; [apply length_replicate|by apply (Forall_replicate is_byte)|done|].
  cbn [page]. lia.
Qed.

(** The invariant with one more slab on the ring. *)
Lemma inv_extend st cache c ts slab st1 st2 : cache_inv st cache c ts ->
  slab_added st cache c ts slab st1 ->
  let c' := if decide (ts = []) then set_slabs slab c else c in
  cache_at st2 !! cache = Some c' -> slab_at st2 = slab_at st1 -> vm st2 = vm st1 ->
  ring (rings st2) (ts ++ [slab]) -> cache_inv st2 cache c' (ts ++ [slab]).
Proof.
  intros I A c' Ec Es Ew R. destruct (sa_slab _ _ _ _ _ _ A) as (v & Ev & Hv & Hv' & Hm).
  assert (Ns : slab_ok c {| page := v; isFull := 0; bitmap := replicate 32 0 |}).
  { by apply new_slab_ok. }
  assert (X : forall t, t ∈ ts ++ [slab] -> t ∈ ts \/ t = slab)
    by (intros t; rewrite elem_of_app, list_elem_of_singleton; tauto).
  assert (K := sa_keep _ _ _ _ _ _ A).
  assert (D : forall t tl a, t ∈ ts -> slab_at st1 !! t = Some tl -> in_pages c tl a ->
    v <= a < v + numPagesPerSlab c * PAGE_SIZE -> False).
  { intros t tl a Ht Et Hp Ha. rewrite K in Et by done.
    destruct (ci_each _ _ _ _ I t Ht) as (x & Ex & _ & M). assert (x = tl) as -> by congruence.
    by apply (Hm a Ha), M. }
  destruct I as [I1 I2 I3 I4 I5 I6 I7 I8 I9].
  assert (Gc : numObjs c' = numObjs c /\ numPagesPerSlab c' = numPagesPerSlab c
    /\ geometry_ok c' /\ slabs c' = default 0 (head (ts ++ [slab]))).
  { subst c'. destruct (decide (ts = [])) as [->|N]; [done|]. by destruct ts. }
  destruct Gc as (Gn & Gp & Gg & Gs).
  assert (Ok' : forall sl, slab_ok c sl -> slab_ok c' sl)
    by (intros sl [? ? ? ?]; split; rewrite ?Gn, ?Gp; done).
  unfold in_pages in *.
  split; rewrite ?Es, ?Ew; unfold in_pages; try done.
  - intros t [Ht| ->]%X; [auto|apply A].
  - intros t [Ht| ->]%X.
    + rewrite K by done. destruct (I6 t Ht) as (sl & El & Ok & M). exists sl.
      split_and!; [done|auto|]. intros a Ha. apply A, M. by rewrite <- Gp.
    + rewrite Ev. eexists. split_and!; [done|auto|]. simpl. rewrite Gp. apply Hm.
  - rewrite Gp. intros s t sl tl a [Hs| ->]%X [Ht| ->]%X E1 E2 P1 P2; [| | |done].
    + rewrite K in E1, E2 by done. by apply (I7 s t sl tl a).
    + rewrite Ev in E2. injection E2 as <-. exfalso. by apply (D s sl a).
    + rewrite Ev in E1. injection E1 as <-. exfalso. by apply (D t tl a).
  - intros t [Ht| ->]%X; [apply (sa_vm _ _ _ _ _ _ A); auto|apply (sa_mapped _ _ _ _ _ _ A)].
  - apply (sa_ok _ _ _ _ _ _ A).
Qed.

(** Putting a new slab on the ring. *)
Lemma construct_spec ctorf st cache c ts slab st1 : cache_inv st cache c ts ->
  slab_added st cache c ts slab st1 ->
  let c' := if decide (ts = []) then set_slabs slab c else c in
  exists st2, MemCacheConstructSlab ctorf cache slab st1 = Ret st2
    /\ cache_inv st2 cache c' (ts ++ [slab])
    /\ slab_at st2 = slab_at st1 /\ vm st2 = vm st1
    /\ (forall a, is_live st2 c (ts ++ [slab]) a <-> is_live st c ts a).
Proof.
  intros I A c'. pose proof (ci_geom _ _ _ _ I) as G.
  destruct (sa_slab _ _ _ _ _ _ A) as (v & Ev & Hv & Hv' & Hm).
  unfold MemCacheConstructSlab. rewrite (sa_cache _ _ _ _ _ _ A). cbn [of_option bindO].
  rewrite Ev. cbn [of_option bindO].
  set (st1' := upd_bytes _ st1). pose proof (ci_slabs _ _ _ _ I) as Hsl.
  assert (R : exists h, (if slabs c =? 0 then
      let* h := INIT_LIST_HEAD (slab_node slab) (rings st1') in
      Ret (upd_cache cache (set_slabs slab c) (upd_rings h st1'))
    else
      let* h := ListAdd (slab_node slab) (slab_node (slabs c)) (rings st1') in
      Ret (upd_rings h st1')) = Ret (upd_cache cache c' (upd_rings h st1'))
    /\ ring h (ts ++ [slab])).
  { destruct ts as [|t ts]; simpl in Hsl; rewrite Hsl.
    - destruct (INIT_LIST_HEAD_clist (rings st1') (slab_node slab)) as (h & Eh & Rh & _);
        [apply A|]. rewrite Eh. exists h. split; [done|exact Rh].
    - pose proof (ci_addr _ _ _ _ I t ltac:(left)). destruct (Z.eqb_spec t 0); [lia|].
      destruct (ring_add (rings st1') t ts slab) as (h & Eh & Rh & _);
        [by apply (sa_ring _ _ _ _ _ _ A)|apply A|apply A|].
      rewrite Eh. exists h. split; [|exact Rh]. simpl. unfold upd_cache, upd_rings. simpl.
      by rewrite insert_id by apply A. }
  destruct R as (h & -> & Rh). eexists. split; [reflexivity|]. subst st1'. simpl.
  split_and!; [|done|done|].
  - apply (inv_extend st cache c ts slab st1 _ I A).
    + simpl. by rewrite lookup_insert_eq.
    + done.
    + done.
    + exact Rh.
  - intros a. unfold is_live. simpl. split.
    + intros (t & tl & j & Ht & Et & Hj & B & ->). apply elem_of_app in Ht as [Ht|Ht].
      * exists t, tl, j. rewrite <- (sa_keep _ _ _ _ _ _ A t Ht). done.
      * apply list_elem_of_singleton in Ht as ->. rewrite Ev in Et. injection Et as <-.
        simpl in B. by rewrite zero_bit in B.
    + intros (t & tl & j & Ht & Et & Hj & B & ->). exists t, tl, j.
      rewrite (sa_keep _ _ _ _ _ _ A t Ht), elem_of_app. tauto.
Qed.

Lemma ListEntry_slab t : 0 < t < 2 ^ 32 -> ListEntry (slab_node t) OFFSET_slab_list = t.
Proof.
  intros. unfold ListEntry, slab_node. replace (t + _ - _) with t by lia. apply u32_id. lia.
Qed.

Section Alloc.
Variable ctorf : Z -> Z -> (Z -> Z) -> Z -> Z.
Variable alloc : ptr -> slabst W -> outcome (Z * slabst W).
Variables (st : slabst W) (cache : ptr) (c : Cache) (ts : list ptr).
Hypothesis inv : cache_inv st cache c ts.
(** The pages and the structure of a new slab can be had. *)
Hypothesis can_add : exists slab st1, MemCacheAllocSlab alloc cache st = Ret (slab, st1)
  /\ slab_added st cache c ts slab st1.

(** Adding a slab and allocating from it. *)
Lemma alloc_from_new : exists slab st2,
  MemCacheAddSlab ctorf alloc cache st = Ret (0, st2) /\ 0 < slab < 2 ^ 32
  /\ cache_at st2 !! cache = Some (if decide (ts = []) then set_slabs slab c else c)
  /\ ring (rings st2) (ts ++ [slab])
  /\ forall fuel, exists obj st', alloc_loop ctorf alloc (S fuel) cache slab st2 = Ret (obj, st')
     /\ alloc_post st c ts obj cache st'.
Proof.
  destruct can_add as (slab & st1 & E1 & A).
  destruct (construct_spec ctorf st cache c ts slab st1 inv A) as (st2 & E2 & I2 & S2 & V2 & L2).
  pose proof (sa_addr _ _ _ _ _ _ A).
  exists slab, st2. split_and!; try lia.
  - unfold MemCacheAddSlab. rewrite E1. cbn [bindO]. destruct (Z.eqb_spec slab 0); [lia|].
    by rewrite E2.
  - apply I2.
  - apply I2. by destruct ts.
  - intros fuel. destruct (sa_slab _ _ _ _ _ _ A) as (v & Ev & _). rewrite <- S2 in Ev.
    set (c' := if decide (ts = []) then set_slabs slab c else c) in *.
    assert (Hc : exists x, c' = set_slabs x c).
    { subst c'. destruct (decide _); [eauto|]. exists (slabs c). by destruct c. }
    destruct Hc as [x Hc]. rewrite Hc in I2.
    assert (Gn : 0 < numObjs c) by (pose proof (ci_geom _ _ _ _ inv) as (? & _); lia).
    assert (Hin : slab ∈ ts ++ [slab]) by (apply elem_of_app; right; left).
    destruct (take_step alloc ctorf fuel st2 cache (set_slabs x c) (ts ++ [slab]) slab _ I2
      Hin Ev eq_refl) as (obj & st' & E' & N' & I' & L' & (sl' & P') & Z').
    { exists 0. cbn [bitmap]. rewrite zero_bit. simpl. lia. }
    exists obj, st'. split; [done|]. split.
    + exists (set_slabs x c), (ts ++ [slab]). split_and!; try done.
      * by exists [slab].
      * by exists x.
      * exists slab, sl'. by split.
      * intros a. rewrite <- (L2 a). apply L'.
    + intros N. apply N', L2, N.
    + exact Z'.
Qed.

(** The walk from position [k]. *)
Lemma alloc_loop_spec fuel : forall k cur, ts !! k = Some cur ->
  (S (length ts) - k < fuel)%nat ->
  exists obj st', alloc_loop ctorf alloc fuel cache cur st = Ret (obj, st')
    /\ alloc_post st c ts obj cache st'.
Proof.
  induction fuel as [|fuel IH]; intros k cur Ek Hf; [lia|].
  assert (Hin : cur ∈ ts) by by eapply list_elem_of_lookup_2.
  assert (Hk : (k < length ts)%nat) by by eapply lookup_lt_Some.
  assert (Hne : ts <> []) by (intros ->; simpl in Hk; lia).
  destruct (ci_each _ _ _ _ inv cur Hin) as (sl & Es & Ok & _).
  pose proof (ci_addr _ _ _ _ inv cur Hin) as Ha.
  pose proof (ci_ring _ _ _ _ inv Hne) as R.
  assert (F : exists r, (if isFull sl =? 0 then find_free (Z.to_nat (numObjs c)) 0 (bitmap sl)
                         else Ret None) = Ret r
    /\ (r <> None -> isFull sl = 0 /\ exists i, 0 <= i < numObjs c /\ bit (bitmap sl) i = false)).
  { destruct (Z.eqb_spec (isFull sl) 0); [|by exists None].
    assert (Gn : 0 < numObjs c <= 256) by (destruct (ci_geom _ _ _ _ inv) as (Gn & _); exact Gn).
    destruct (find_free_spec (bitmap sl) (so_len _ _ Ok) (Z.to_nat (numObjs c)) 0)
      as (r & Er & Hr); [lia..|]. exists r. split; [done|]. intros N. split; [done|].
    rewrite Z2Nat.id in Hr by lia. destruct r as [i|]; [|done].
    destruct Hr as (? & ? & _). exists i. split; [lia|done]. }
  destruct F as ([i|] & Er & Hfree).
  - destruct Hfree as [Hf0 Hfree]; [done|].
    destruct (take_step alloc ctorf fuel st cache c ts cur sl inv Hin Es Hf0 Hfree)
      as (obj & st' & E & N & I' & L & (sl' & P') & Z').
    exists obj, st'. split; [done|]. split; [|done|done].
    exists c, ts. split_and!; try done.
    + exists (slabs c). by destruct c.
    + exists cur, sl'. by split.
  - cbn [alloc_loop]. destruct (Z.eqb_spec cur 0); [lia|].
    rewrite (ci_cache _ _ _ _ inv), Es. cbn [of_option bindO]. rewrite Er. cbn [bindO].
    rewrite (ring_prev _ _ _ _ R Ek). cbn [bindO].
    pose proof (ci_slabs _ _ _ _ inv) as Hsl.
    destruct (ts !! S k) as [nxt|] eqn:En.
    + assert (Ex : next_slab ts k = nxt) by (unfold next_slab; by rewrite En).
      rewrite Ex. destruct (Z.eqb_spec (slab_node nxt) (slab_node (slabs c))) as [Eq|Nq].
      * exfalso. apply (inj slab_node) in Eq. pose proof (ring_nodup _ _ R) as Nd.
        assert (E0 : ts !! 0%nat = Some nxt) by (rewrite Eq, Hsl; destruct ts; done).
        pose proof (NoDup_lookup _ _ _ _ Nd E0 En). lia.
      * cbn [bindO]. rewrite (ring_prev _ _ _ _ R Ek), Ex. cbn [bindO].
        rewrite ListEntry_slab by (apply (ci_addr _ _ _ _ inv); by eapply list_elem_of_lookup_2).
        apply (IH (S k)); [done|lia].
    + assert (Hlast : S k = length ts) by (apply lookup_ge_None_1 in En; lia).
      assert (Ex : next_slab ts k = slabs c) by (unfold next_slab; by rewrite En, Hsl).
      rewrite Ex, Z.eqb_refl.
      destruct alloc_from_new as (slab & st2 & E2 & Ha2 & _ & R2 & P2).
      rewrite E2. cbn [bindO].
      rewrite (ring_prev _ (ts ++ [slab]) k cur R2) by (by rewrite lookup_app_l).
      cbn [bindO]. replace (next_slab (ts ++ [slab]) k) with slab.
      2: { unfold next_slab. rewrite lookup_app_r by lia. by rewrite Hlast, Nat.sub_diag. }
      rewrite ListEntry_slab by done. destruct fuel as [|fuel]; [lia|]. apply P2.
Qed.

Lemma MemCacheAlloc_body_spec fuel : cache <> 0 -> (S (length ts) < fuel)%nat ->
  exists obj st', MemCacheAlloc_body ctorf alloc fuel cache st = Ret (obj, st')
    /\ alloc_post st c ts obj cache st'.
Proof.
  intros Hc Hf. unfold MemCacheAlloc_body. destruct (Z.eqb_spec cache 0); [done|].
  pose proof (ci_slabs _ _ _ _ inv) as Hsl.
  rewrite (ci_cache _ _ _ _ inv). cbn [of_option bindO].
  destruct (ts !! 0%nat) as [t|] eqn:Et.
  - assert (Ht : t ∈ ts) by by eapply list_elem_of_lookup_2.
    assert (Ec : slabs c = t) by (rewrite Hsl; destruct ts; [done|by injection Et as ->]).
    pose proof (ci_addr _ _ _ _ inv t Ht). rewrite Ec.
    destruct (Z.eqb_spec t 0); [lia|]. cbn [bindO]. rewrite (ci_cache _ _ _ _ inv).
    cbn [of_option bindO]. rewrite Ec. apply (alloc_loop_spec fuel 0); [done|lia].
  - assert (En : ts = []) by (by destruct ts).
    assert (Ec : slabs c = 0) by (by rewrite Hsl, En).
    rewrite Ec. cbn [Z.eqb]. destruct alloc_from_new as (slab & st2 & E2 & Ha2 & C2 & R2 & P2).
    rewrite E2. cbn [bindO]. rewrite C2. cbn [of_option bindO].
    destruct (decide _); [|done]. simpl. destruct fuel as [|fuel]; [lia|]. apply P2.
Qed.
End Alloc.

(** ** Taking the pages of an on-slab cache *)

Lemma zero_node_frame p h : frame [p] h (zero_node p h).
Proof.
  split; simpl.
  - intros q Hq. rewrite list_elem_of_singleton in Hq.
    by rewrite !lookup_insert_ne by congruence.
  - intros q [H1 H2]. split; simpl; by apply is_Some_insert.
Qed.

Lemma ring_frame S h h' ts : frame S h h' -> ring h ts ->
  (forall t, t ∈ ts -> slab_node t ∉ S) -> ring h' ts.
Proof.
  destruct ts as [|t ts]; [done|]. intros F R D. eapply clist_frame; [exact F|exact R|].
  intros p Hp. rewrite <- fmap_cons in Hp. apply list_elem_of_fmap in Hp as (u & -> & Hu).
  apply D. rewrite elem_of_cons in *. by rewrite elem_of_reverse in Hu.
Qed.

Lemma slab_request : page_request SLAB_START SLAB_END 3.
Proof. by vm_compute. Qed.

Lemma on_slab_added `{!PageMapperLaws W} alloc st cache c ts v w : cache_inv st cache c ts ->
  Z.land (options c) SLAB_OFFSLAB = 0 -> size c <= PAGE_SIZE ->
  vm_map_page SLAB_START SLAB_END 3 (vm st) = Ret (v, w) -> v <> 0 ->
  exists slab st1, MemCacheAllocSlab alloc cache st = Ret (slab, st1)
    /\ slab_added st cache c ts slab st1.
Proof.
  intros I Ho Hs Ev Nv. 
  destruct (vm_map_page_fresh _ _ _ _ _ _ (ci_vm _ _ _ _ I) slab_request Ev) as [Okw Fresh].
  destruct (Fresh Nv) as (_ & Hlo & Hhi & Hf & Hm).
  unfold SLAB_START, SLAB_END, PAGE_SIZE in Hlo, Hhi.
  assert (Hp : numPagesPerSlab c = 1) by by apply (ci_geom _ _ _ _ I).
  assert (Nts : v ∉ ts).
  { intros H. apply (Hf v); [unfold PAGE_SIZE; lia|]. by apply (ci_mapped _ _ _ _ I). }
  unfold MemCacheAllocSlab. rewrite (ci_cache _ _ _ _ I). cbn [of_option bindO].
  destruct (Z.ltb_spec PAGE_SIZE (size c)); [lia|].
  change (Z.lor (Z.lor PAGE_KERNEL PAGE_RW) PAGE_PRESENT) with 3. rewrite Ev. cbn [bindO].
  destruct (Z.eqb_spec v 0); [done|]. rewrite Ho. cbn [c_true Z.eqb negb bindO].
  destruct (Z.eqb_spec v 0); [done|]. do 2 eexists. split; [reflexivity|].
  split; simpl; try done.
  - lia.
  - apply I.
  - exists v. rewrite lookup_insert_eq, Hp. split_and!; [done|lia|unfold PAGE_SIZE; lia|].
    intros a Ha. split; [by apply Hf|]. apply Hm. by right.
  - intros s Hs'. apply lookup_insert_ne. congruence.
  - intros Hne. eapply ring_frame; [apply zero_node_frame|by apply (ci_ring _ _ _ _ I)|].
    intros t Ht. rewrite list_elem_of_singleton. intros Eq. apply (inj slab_node) in Eq. congruence.
  - split; simpl; rewrite lookup_insert_eq; by eexists.
  - intros a Ha. apply Hm. by left.
  - apply Hm. right. unfold PAGE_SIZE. lia.
Qed.

(** ** Freeing *)

Lemma SlabFree_spec ctorf st cache c ts s sl i : cache_inv st cache c ts -> s ∈ ts ->
  slab_at st !! s = Some sl -> 0 <= i < numObjs c ->
  let obj := page sl + offset c + i * size c in
  exists st', SlabFree ctorf c s obj st = Ret st' /\ cache_inv st' cache c ts
    /\ forall a, is_live st' c ts a <-> is_live st c ts a /\ a <> obj.
Proof.
  intros I Hs Es Hi obj. pose proof (ci_geom _ _ _ _ I) as G.
  destruct (ci_each _ _ _ _ I s Hs) as (x & Ex & Ok & _). assert (x = sl) as -> by congruence.
  destruct (object_in_pages c sl i G Ok Hi) as [P1 P2]. fold obj in P1, P2.
  destruct G as ((? & Gn) & Gs & Go & _). destruct Ok as [L Wf F Pg].
  unfold MAX_OBJECTS_PER_SLAB in Gn. change (PAGE_SIZE / SLAB_MIN_OBJECT_SIZE) with 256 in Gn.
  unfold SlabFree. rewrite Es. cbn [of_option bindO].
  assert (Ei : s32 (u32 (obj - (page sl + offset c)) / size c) = i).
  { subst obj. replace (page sl + offset c + i * size c - (page sl + offset c)) with (i * size c)
      by lia. unfold in_pages in P1.
    rewrite u32_id by lia. rewrite Z.div_mul by lia. apply s32_id. lia. }
  rewrite Ei. destruct (BmapSetBit_spec (bitmap sl) i false Wf) as (bm & Eb & Lb & Wb & Hb).
  { unfold in_bitmap. rewrite L. lia. }
  change (bool_value false) with 0 in Eb. rewrite Eb. cbn [bindO].
  eexists. split; [reflexivity|]. split.
  - apply cache_inv_bytes, (cache_inv_upd_slab _ _ _ _ _ sl); try done.
    split; simpl; [congruence|done|done|done].
  - intros a. exact (live_upd st cache c ts s sl i {| page := page sl; isFull := 0; bitmap := bm |}
      a false I Hs Es Hi eq_refl Hb).
Qed.

Lemma free_loop_spec ctorf st cache c ts obj : cache_inv st cache c ts ->
  forall fuel k cur, ts !! k = Some cur -> (length ts - k < fuel)%nat ->
  (* no slab before [k] holds the object *)
  (forall j s sl, (j < k)%nat -> ts !! j = Some s -> slab_at st !! s = Some sl ->
     ~ (page sl + offset c <= obj < page sl + numPagesPerSlab c * PAGE_SIZE)) ->
  (is_live st c ts obj -> exists st', free_loop ctorf fuel c cur obj st = Ret (0, st')
     /\ cache_inv st' cache c ts /\ forall a, is_live st' c ts a <-> is_live st c ts a /\ a <> obj)
  /\ ((forall s sl, s ∈ ts -> slab_at st !! s = Some sl ->
        ~ (page sl + offset c <= obj < page sl + numPagesPerSlab c * PAGE_SIZE)) ->
      free_loop ctorf fuel c cur obj st = Ret (- EFAULT, st)).
Proof.
  intros I. pose proof (ci_geom _ _ _ _ I) as G. pose proof (ci_slabs _ _ _ _ I) as Hsl.
  induction fuel as [|fuel IH]; intros k cur Ek Hf Hb; [lia|].
  assert (Hin : cur ∈ ts) by by eapply list_elem_of_lookup_2.
  assert (Hk : (k < length ts)%nat) by by eapply lookup_lt_Some.
  assert (R : ring (rings st) ts) by (apply I; intros ->; simpl in Hk; lia).
  destruct (ci_each _ _ _ _ I cur Hin) as (sl & Es & Ok & _).
  pose proof (ci_addr _ _ _ _ I cur Hin) as Ha. cbn [free_loop].
  destruct (Z.eqb_spec cur 0); [lia|]. rewrite Es. cbn [of_option bindO].
  destruct (decide (page sl + offset c <= obj < page sl + numPagesPerSlab c * PAGE_SIZE))
    as [Hit|Miss].
  - rewrite (proj2 (Z.leb_le _ _) (proj1 Hit)), (proj2 (Z.ltb_lt _ _) (proj2 Hit)).
    cbn [andb]. split; [|intros N; exfalso; by apply (N cur sl)].
    intros (s & sl' & i & Hs & Es' & Hi & B & Eo).
    destruct (ci_each _ _ _ _ I s Hs) as (x & Ex & Ok' & _). assert (x = sl') as -> by congruence.
    destruct (object_in_pages c sl' i G Ok' Hi) as [P1 _]. rewrite <- Eo in P1.
    assert (s = cur) as ->.
    { eapply (ci_disj _ _ _ _ I s cur sl' sl obj); try done.
      unfold in_pages. destruct G as (_ & _ & ? & _). lia. }
    assert (sl' = sl) as -> by congruence.
    destruct (SlabFree_spec ctorf st cache c ts cur sl i I Hin Es Hi) as (st' & E & I' & L').
    rewrite Eo, E. cbn [bindO]. exists st'. split_and!; done.
  - replace (((page sl + offset c <=? obj) && (obj <? page sl + numPagesPerSlab c * PAGE_SIZE)))
      with false by (symmetry; apply andb_false_iff; rewrite Z.leb_gt, Z.ltb_ge; lia).
    rewrite (ring_prev _ _ _ _ R Ek). cbn [bindO].
    destruct (ts !! S k) as [nxt|] eqn:En.
    + assert (Ex : next_slab ts k = nxt) by (unfold next_slab; by rewrite En).
      rewrite Ex. destruct (Z.eqb_spec (slab_node nxt) (slab_node (slabs c))) as [Eq|Nq].
      * exfalso. apply (inj slab_node) in Eq. pose proof (ring_nodup _ _ R) as Nd.
        assert (E0 : ts !! 0%nat = Some nxt) by (rewrite Eq, Hsl; destruct ts; done).
        pose proof (NoDup_lookup _ _ _ _ Nd E0 En). lia.
      * rewrite ListEntry_slab by (apply (ci_addr _ _ _ _ I); by eapply list_elem_of_lookup_2).
        apply (IH (S k)); [done|lia|]. intros j s sj Hj Ej Esj.
        destruct (decide (j = k)) as [->|]; [|apply (Hb j s sj); [lia|done|done]].
        assert (s = cur) as -> by congruence. assert (sj = sl) as -> by congruence. done.
    + assert (Ex : next_slab ts k = slabs c) by (unfold next_slab; by rewrite En, Hsl).
      rewrite Ex, Z.eqb_refl. split; [|done].
      intros (s & sl' & i & Hs & Es' & Hi & B & Eo). exfalso.
      destruct (ci_each _ _ _ _ I s Hs) as (x & Ex' & Ok' & _). assert (x = sl') as -> by congruence.
      destruct (object_in_pages c sl' i G Ok' Hi) as [P1 P2]. rewrite <- Eo in P1, P2.
      assert (Hr : page sl' + offset c <= obj < page sl' + numPagesPerSlab c * PAGE_SIZE)
        by (unfold in_pages in P1; destruct G as (_ & ? & ? & _); nia).
      apply list_elem_of_lookup_1 in Hs as [j Ej].
      apply lookup_ge_None_1 in En. pose proof (lookup_lt_Some _ _ _ Ej).
      destruct (decide (j = k)) as [->|]; [|by apply (Hb j s sl'); [lia|..]].
      assert (s = cur) as -> by congruence. assert (sl' = sl) as -> by congruence. done.
Qed.
End Proofs.

(** ** Properties *)

(** C7: On a cache that keeps the slab structure on the slab (the option
    SLAB_OFFSLAB is not set), with objects of at most a page, MemCacheAlloc
    returns when a page can be mapped for a new slab: the walk over the slabs
    terminates and the object is fresh, that is, it was not in use, it lies
    inside the pages of one slab of the cache and behind the slab header, it
    is zeroed when the cache has no constructor, and afterwards the objects
    in use are the earlier ones and it; the cache's invariant is kept. *)
Theorem MemCacheAlloc_fresh {W} `{PL : PageMapperLaws W} ctorf depth fuel (st : slabst W)
    cache c ts v w :
  cache_inv st cache c ts -> cache <> 0 ->
  Z.land (options c) SLAB_OFFSLAB = 0 -> size c <= PAGE_SIZE ->
  vm_map_page SLAB_START SLAB_END 3 (vm st) = Ret (v, w) -> v <> 0 ->
  (S (length ts) < fuel)%nat ->
  exists obj st', MemCacheAlloc ctorf (S depth) fuel cache st = Ret (obj, st')
    /\ alloc_post st c ts obj cache st'.
Proof.
  intros I Hc Ho Hs Ev Nv Hf. apply MemCacheAlloc_body_spec; [done| |done|done].
  by apply (on_slab_added _ _ _ _ _ v w).
Qed.

(** A mapper that hands out consecutive pages. *)
#[export] Instance bump_mapper : PageMapper Z := {|
  vm_map_page virt endVirt _ w :=
    if (0 <? virt) && (virt <=? w) && (w mod PAGE_SIZE =? 0) && (w + PAGE_SIZE <=? endVirt)
    then Ret (w, w + PAGE_SIZE) else Ret (0, w);
  vm_map_range virt endVirt n _ w :=
    if (0 <? virt) && (virt <=? w) && (w mod PAGE_SIZE =? 0) && (0 <=? n)
       && (w + n * PAGE_SIZE <=? endVirt)
    then Ret (w, w + n * PAGE_SIZE) else Ret (0, w);
  vm_mapped w a := a < w;
  vm_ok w := True;
|}.

#[export] Instance bump_mapper_laws : PageMapperLaws Z.
Proof.
  split; unfold fresh_range, vm_map_page, vm_map_range; simpl; unfold PAGE_SIZE.
  - intros virt endVirt perms w v w' _ _ E. split; [done|]. intros Hv. zcases; simpl in E; injection E as <- <-; try done.
    split_and!; lia || (intros; lia).
  - intros virt endVirt n perms w v w' _ _ _ E. split; [done|]. intros Hv. zcases; simpl in E; injection E as <- <-; try done.
    split_and!; lia || (intros; nia).
Qed.

(** A cache of 1000-byte objects without slabs. *)
Definition demo_cache : Cache := Eval vm_compute in cache_geometry 0 1000 0 0 0.
Definition demo_slabst : slabst Z := {|
  slab_at := ∅; cache_at := {[ 0x500 := demo_cache ]}; rings := {| hnext := ∅; hprev := ∅ |};
  bytes := fun _ => 7; vm := SLAB_START; slabCache := 0; slabInfoSetup := 0; cacheSizes := [];
|}.

Lemma demo_cache_inv : cache_inv demo_slabst 0x500 demo_cache [].
Proof.
  split; simpl; try done.
  all: intros; match goal with H : _ ∈ [] |- _ => by apply not_elem_of_nil in H end.
Qed.

Lemma MemCacheAlloc_fresh_witness : exists obj st',
  MemCacheAlloc (fun _ _ m => m) 1 2 0x500 demo_slabst = Ret (obj, st')
  /\ ~ is_live demo_slabst demo_cache [] obj.
Proof.
  destruct (MemCacheAlloc_fresh (fun _ _ m => m) 0 2 demo_slabst 0x500 demo_cache []
    SLAB_START (SLAB_START + PAGE_SIZE) demo_cache_inv) as (obj & st' & E & P);
    [lia|reflexivity|vm_compute; congruence|reflexivity|vm_compute; congruence|simpl; lia|].
  exists obj, st'. split; [exact E|apply P].
Defined.

(** MemCacheFree releases exactly the object it is given: for an object
    in use it returns 0 and afterwards the objects in use are all the
    others; for an address in no slab of the cache it returns -EFAULT and
    changes nothing. *)
Theorem MemCacheFree_exact {W} `{PM : PageMapper W} ctorf fuel (st : slabst W) cache c ts obj :
  cache_inv st cache c ts -> obj <> 0 -> (length ts < fuel)%nat ->
  (is_live st c ts obj ->
     exists st', MemCacheFree ctorf fuel cache obj st = Ret (0, st') /\ cache_inv st' cache c ts
       /\ forall a, is_live st' c ts a <-> is_live st c ts a /\ a <> obj)
  /\ ((forall s sl, s ∈ ts -> slab_at st !! s = Some sl ->
        ~ (page sl + offset c <= obj < page sl + numPagesPerSlab c * PAGE_SIZE)) ->
      MemCacheFree ctorf fuel cache obj st = Ret (- EFAULT, st)).
Proof.
  intros I Ho Hf. unfold MemCacheFree. destruct (Z.eqb_spec obj 0); [done|].
  rewrite (ci_cache _ _ _ _ I). cbn [of_option bindO]. pose proof (ci_slabs _ _ _ _ I) as Hsl.
  destruct ts as [|t l].
  - simpl in Hsl. rewrite Hsl. destruct fuel as [|fuel]; [simpl in *; lia|].
    split; [|done]. intros (s & _ & _ & Hs & _). by apply not_elem_of_nil in Hs.
  - simpl in Hsl. rewrite Hsl.
    apply (free_loop_spec ctorf st cache c (t :: l) obj I fuel 0%nat); [done|lia|].
    intros j s sl Hj. lia.
Qed.

(** Allocate, then free: the object is no longer in use. *)
Lemma MemCacheFree_exact_witness : exists fuel obj st1 st2,
  MemCacheAlloc (fun _ _ m => m) 1 2 0x500 demo_slabst = Ret (obj, st1)
  /\ MemCacheFree (fun _ _ m => m) fuel 0x500 obj st1 = Ret (0, st2).
Proof.
  destruct (MemCacheAlloc_body_spec (fun _ _ m => m)
    (MemCacheAlloc (fun _ _ m => m) 0 2) demo_slabst 0x500 demo_cache [] demo_cache_inv
    (on_slab_added _ _ _ _ _ SLAB_START (SLAB_START + PAGE_SIZE) demo_cache_inv eq_refl
      ltac:(vm_compute; congruence) eq_refl ltac:(vm_compute; congruence)) 2 ltac:(lia)
    ltac:(simpl; lia)) as (obj & st1 & E & [(c' & ts' & I & _ & (x & ->) & (s & sl & Hs & Es & P & _) & L) _ _]).
  change (MemCacheAlloc (fun _ _ m => m) 1 2 0x500 demo_slabst = Ret (obj, st1)) in E.
  destruct (MemCacheFree_exact (fun _ _ m => m) (S (length ts')) st1 0x500 _ ts' obj I) as [F _].
  { destruct (ci_each _ _ _ _ I s Hs) as (sl' & Es' & [_ _ _ Hp] & _).
    assert (sl' = sl) as -> by congruence. destruct (ci_geom _ _ _ _ I) as (_ & _ & Ho & _).
    simpl in *. lia. }
  { lia. }
  destruct F as (st2 & F & _); [by apply L; right|].
  exists (S (length ts')), obj, st1, st2. split; [exact E|exact F].
Defined.
