(* ===== verification/Virt.v ===== *)
(** * Page tables (arch/i386/mm/virt.c, include/i386/virtual.h)

    An address space is a page directory in a physical frame; its last
    entry names the directory itself, so that the directory and all page
    tables appear as the arrays pageDir and pageTable at the top of the
    address space.  The model keeps physical memory and translates every
    access of those arrays through the tables they describe.

    The invariant [vm_inv] says that the tables of all address spaces lie
    in distinct frames that are neither directories nor free, apart from
    the kernel's tables, which all address spaces share.  Under it
    VirtMemMapPage changes exactly one page of one address space (or one
    page of the kernel in all of them), and VirtMapPhysPage and
    VirtMapPhysRange implement the interface [PageMapper] of the slab
    allocator.  The pages come from the interface [PageSource], which
    memory/pg_alloc.c implements. *)

From S2P Require Import Prelude LList PageAlloc Slab.

(** ** What the paging code needs from memory/pg_alloc.c

    [page_alloc] is PageAlloc()->physAddr; it panics when no page is left. *)
Class PageSource (W : Type) := {
  page_alloc : W -> outcome (Z * W);
  page_ok : W -> Prop;
  page_free : W -> Z -> Prop;
  page_count : W -> nat;
}.

Definition frame_ok (p : Z) : Prop := p mod PAGE_SIZE = 0 /\ 0 <= p < 2 ^ 32.

Class PageSourceLaws (W : Type) `{PageSource W} := {
  page_free_frame w p : page_ok w -> page_free w p -> frame_ok p;
  page_alloc_spec w : page_ok w ->
    match page_alloc w with
    | Ret (p, w') => page_ok w' /\ page_free w p
        /\ (forall q, page_free w' q <-> page_free w q /\ q <> p)
        /\ page_count w = S (page_count w')
    | Panic => page_count w = 0%nat
    | _ => False
    end;
}.

(** ** Model *)

Definition PGDIR_SELF : Z := 1023.
Definition PGDIR_ENT (addr : Z) : Z := Z.shiftr addr 22.
Definition PGTABLE_ENT (addr : Z) : Z := Z.shiftr addr 12.
Definition PAGE_TABLES_VA : Z := Z.shiftl PGDIR_SELF 22.
Definition PAGE_DIR_VA : Z := Z.lor PAGE_TABLES_VA (Z.shiftl PGDIR_SELF 12).
(** The window of VirtAllocateTemp. *)
Definition TEMP_START : Z := 0xF0080000.
Definition TEMP_END : Z := 0xF8000000.

(** The processor's translation in the address space [dir]. *)
Definition walk (dir : Z) (m : Z -> Z) (va : Z) : option Z :=
  let pde := m (dir + 4 * PGDIR_ENT va) in
  if c_true (Z.land pde PAGE_PRESENT) then
    let pte := m (PAGE_ALIGN pde + 4 * Z.land (PGTABLE_ENT va) 1023) in
    if c_true (Z.land pte PAGE_PRESENT) then Some (PAGE_ALIGN pte + PAGE_OFFSET va) else None
  else None.

(** [pmem] holds the DWORD at each physical address, [managers] the page
    directories on managerList, [kernelDir] kernelMem.pageDir. *)
Record vmem (W : Type) := {
  cr3 : Z;
  pmem : Z -> Z;
  managers : list Z;
  kernelDir : Z;
  source : W;
}.
Arguments cr3 {W} _.
Arguments pmem {W} _ _.
Arguments managers {W} _.
Arguments kernelDir {W} _.
Arguments source {W} _.

Definition mset (m : Z -> Z) (a v : Z) : Z -> Z := fun x => if x =? a then v else m x.

Section Model.
Context {W : Type} `{PageSource W}.
Implicit Types st : vmem W.

Definition set_cr3 v st : vmem W :=
  {| cr3 := v; pmem := pmem st; managers := managers st; kernelDir := kernelDir st; source := source st |}.
Definition set_pmem m st : vmem W :=
  {| cr3 := cr3 st; pmem := m; managers := managers st; kernelDir := kernelDir st; source := source st |}.
Definition set_managers l st : vmem W :=
  {| cr3 := cr3 st; pmem := pmem st; managers := l; kernelDir := kernelDir st; source := source st |}.
Definition set_source w st : vmem W :=
  {| cr3 := cr3 st; pmem := pmem st; managers := managers st; kernelDir := kernelDir st; source := w |}.

(** A DWORD access of the kernel at a virtual address. *)
Definition vload st (va : Z) : outcome Z :=
  match walk (cr3 st) (pmem st) va with Some pa => Ret (pmem st pa) | None => Fault end.
Definition vstore st (va v : Z) : outcome (vmem W) :=
  match walk (cr3 st) (pmem st) va with
  | Some pa => Ret (set_pmem (mset (pmem st) pa v) st)
  | None => Fault
  end.
(** ZeroMemory of one page. *)
Definition vzero st (va : Z) : outcome (vmem W) :=
  match walk (cr3 st) (pmem st) va with
  | Some pa => Ret (set_pmem (fun x => if (pa <=? x) && (x <? pa + PAGE_SIZE) then 0 else pmem st x) st)
  | None => Fault
  end.

Definition pageDir (i : Z) : Z := PAGE_DIR_VA + 4 * i.
Definition pageTable (i : Z) : Z := PAGE_TABLES_VA + 4 * i.

(** [!pageDir[PGDIR_ENT(i)] || !pageTable[PGTABLE_ENT(i)]] *)
Definition unused st (virt : Z) : outcome bool :=
  let* pde := vload st (pageDir (PGDIR_ENT virt)) in
  if pde =? 0 then Ret true
  else let* pte := vload st (pageTable (PGTABLE_ENT virt)) in Ret (pte =? 0).

Definition VirtUnmapPhysPage (virt : Z) st : outcome (vmem W) :=
  let* u := unused st virt in
  if u then Ret st else vstore st (pageTable (PGTABLE_ENT virt)) 0.

Section Recursion.
(** The calls VirtMemMapPage makes to VirtAllocateTemp. *)
Variable AllocTemp : Z -> vmem W -> outcome (Z * vmem W).

(** The new table becomes visible in every address space. *)
Fixpoint share_table (l : list Z) (virtEnt : Z) st : outcome (vmem W) :=
  match l with
  | [] => Ret st
  | m :: l =>
      let* (virtDir, st) := AllocTemp m st in
      let* pde := vload st (pageDir virtEnt) in
      let* st := vstore st (virtDir + 4 * virtEnt) pde in
      let* st := VirtUnmapPhysPage virtDir st in
      share_table l virtEnt st
  end.

(** The page table of a directory entry is made when there is none. *)
Definition ensure_table (virtEnt perms : Z) st : outcome (vmem W) :=
  let* pde := vload st (pageDir virtEnt) in
  if pde =? 0 then
    let* (p, w) := page_alloc (source st) in
    let st := set_source w st in
    let* st := vstore st (pageDir virtEnt) (u32 (Z.lor (Z.lor p perms) PAGE_RW)) in
    let* st := vzero st (pageTable (virtEnt * 1024)) in
    if 768 <=? virtEnt then share_table (managers st) virtEnt st else Ret st
  else Ret st.

Definition VirtMemMapPage_body (virt phys perms : Z) st : outcome (Z * vmem W) :=
  if PAGE_TABLES_VA <=? virt then Ret (- EFAULT, st)
  else
    let* st := ensure_table (PGDIR_ENT virt) perms st in
    let* st := vstore st (pageTable (PGTABLE_ENT virt)) (u32 (Z.lor phys perms)) in
    Ret (0, st).

(** The search of VirtAllocateTemp; [map] is VirtMemMapPage. *)
Fixpoint temp_loop (map : Z -> Z -> Z -> vmem W -> outcome (Z * vmem W)) (n : nat) (i phys : Z) st
  : outcome (Z * vmem W) :=
  match n with
  | O => Ret (0, st)
  | S n =>
      let* u := unused st i in
      if u then
        let* (_, st) := map i phys (Z.lor (Z.lor PAGE_PRESENT PAGE_KERNEL) PAGE_RW) st in
        Ret (i, st)
      else temp_loop map n (i + PAGE_SIZE) phys st
  end.
End Recursion.

(** VirtMemMapPage and VirtAllocateTemp call each other; [depth] bounds the
    nesting. *)
Fixpoint VirtMemMapPage (depth : nat) (virt phys perms : Z) st : outcome (Z * vmem W) :=
  match depth with
  | O => NoFuel
  | S depth =>
      VirtMemMapPage_body
        (temp_loop (VirtMemMapPage depth) (Z.to_nat ((TEMP_END - TEMP_START) / PAGE_SIZE)) TEMP_START)
        virt phys perms st
  end.

Definition VirtAllocateTemp (depth : nat) (phys : Z) st : outcome (Z * vmem W) :=
  temp_loop (VirtMemMapPage depth) (Z.to_nat ((TEMP_END - TEMP_START) / PAGE_SIZE)) TEMP_START phys st.

(** The loops step by PAGE_SIZE in a DWORD; [fuel] bounds them. *)
Fixpoint unmap_pages (fuel : nat) (curr stop : Z) st : outcome (vmem W) :=
  match fuel with
  | O => NoFuel
  | S fuel =>
      if curr <? stop then
        let* st := VirtUnmapPhysPage curr st in unmap_pages fuel (u32 (curr + PAGE_SIZE)) stop st
      else Ret st
  end.
Definition VirtUnmapPages (fuel : nat) (start len : Z) st : outcome (vmem W) :=
  let len := PAGE_ALIGN_UP len in
  let start := PAGE_ALIGN start in
  unmap_pages fuel start (u32 (start + len)) st.

(** The first unused page of [i, endVirt). *)
Fixpoint map_first (fuel depth : nat) (i endVirt page perms : Z) st : outcome (Z * vmem W) :=
  match fuel with
  | O => NoFuel
  | S fuel =>
      if i <? endVirt then
        let* u := unused st i in
        if u then let* (_, st) := VirtMemMapPage depth i page perms st in Ret (i, st)
        else map_first fuel depth (u32 (i + PAGE_SIZE)) endVirt page perms st
      else Ret (0, st)
  end.
Definition VirtMapPhysPage (fuel depth : nat) (virt endVirt perms : Z) st : outcome (Z * vmem W) :=
  let* (page, w) := page_alloc (source st) in
  map_first fuel depth virt endVirt page perms (set_source w st).

(** The search for [numPages] unused pages in a row: [i], [start] and
    [currNum] when the loop ends. *)
Fixpoint find_run (fuel : nat) (i endVirt numPages start currNum : Z) st : outcome (Z * Z * Z) :=
  match fuel with
  | O => NoFuel
  | S fuel =>
      if i <? endVirt then
        let* u := unused st i in
        if u then
          let start := if currNum =? numPages then i else start in
          let currNum := u32 (currNum - 1) in
          if currNum =? 0 then Ret (i, start, currNum)
          else find_run fuel (u32 (i + PAGE_SIZE)) endVirt numPages start currNum st
        else find_run fuel (u32 (i + PAGE_SIZE)) endVirt numPages start numPages st
      else Ret (i, start, currNum)
  end.
Fixpoint map_run (fuel depth : nat) (i stop perms : Z) st : outcome (vmem W) :=
  match fuel with
  | O => NoFuel
  | S fuel =>
      if i <? stop then
        let* (page, w) := page_alloc (source st) in
        let* (_, st) := VirtMemMapPage depth i page perms (set_source w st) in
        map_run fuel depth (u32 (i + PAGE_SIZE)) stop perms st
      else Ret st
  end.
Definition VirtMapPhysRange (fuel depth : nat) (virt endVirt numPages perms : Z) st
  : outcome (Z * vmem W) :=
  let* (i, start, currNum) := find_run fuel virt endVirt numPages 0 numPages st in
  if i =? endVirt then Ret (0, st)
  else if c_true currNum then Ret (0, st)
  else
    let* st := map_run fuel depth start (u32 (start + u32 (numPages * PAGE_SIZE))) perms st in
    Ret (start, st).

Fixpoint change_protection (fuel : nat) (address stop protection : Z) st : outcome (vmem W) :=
  match fuel with
  | O => NoFuel
  | S fuel =>
      if address <? stop then
        let* pde := vload st (pageDir (PGDIR_ENT address)) in
        let* st :=
          if c_true pde then
            let* pte := vload st (pageTable (PGTABLE_ENT address)) in
            if c_true (Z.land pte PAGE_PRESENT) then
              vstore st (pageTable (PGTABLE_ENT address))
                (u32 (Z.lor (u32 (Z.land pte (Z.lnot 0xFFF))) protection))
            else Ret st
          else Ret st in
        change_protection fuel (u32 (address + PAGE_SIZE)) stop protection st
      else Ret st
  end.
Definition VirtChangeProtection (fuel : nat) (start stop protection : Z) st : outcome (Z * vmem W) :=
  let* st := change_protection fuel start stop protection st in Ret (0, st).

Definition VirtToPhys (virt : Z) st : outcome Z :=
  let* pte := vload st (pageTable (PGTABLE_ENT virt)) in
  Ret (u32 (PAGE_ALIGN pte + PAGE_OFFSET virt)).

(** The kernel's entries of a new directory. *)
Fixpoint copy_entries (n : nat) (i vPageDir kPageDir : Z) st : outcome (vmem W) :=
  match n with
  | O => Ret st
  | S n =>
      let* e := vload st (kPageDir + 4 * i) in
      let* st := vstore st (vPageDir + 4 * i) e in
      copy_entries n (i + 1) vPageDir kPageDir st
  end.

(** VirtMemManagerInit for a process; the result is the return value and
    manager->pageDir. *)
Definition VirtMemManagerInit (depth : nat) st : outcome (Z * Z * vmem W) :=
  let* (dir, w) := page_alloc (source st) in
  let st := set_source w st in
  if dir =? 0 then Ret (- ENOMEM, dir, st)
  else
    let* (vPageDir, st) := VirtAllocateTemp depth dir st in
    if vPageDir =? 0 then Ret (- ENOMEM, dir, st)
    else
      let* st := vzero st vPageDir in
      let first := PGDIR_ENT 0xC0000000 in
      let* st := copy_entries (Z.to_nat (PGDIR_ENT 0xFF000000 - first)) first vPageDir (kernelDir st) st in
      let* e := vload st (vPageDir + 4 * 768) in
      let* st := vstore st (vPageDir + 4 * 0) e in
      let* st := vstore st (vPageDir + 4 * 1023)
        (u32 (Z.lor (Z.lor (Z.lor dir PAGE_PRESENT) PAGE_RW) PAGE_KERNEL)) in
      let* st := VirtUnmapPhysPage vPageDir st in
      Ret (0, dir, set_managers (managers st ++ [dir]) st).

Definition VirtSetCurrent (manager : option Z) st : Z * vmem W :=
  match manager with
  | None => (- EFAULT, st)
  | Some dir => (0, set_cr3 dir st)
  end.
End Model.

(** ** Addresses *)

Lemma frame_ok_align x : 0 <= x < 2 ^ 32 -> frame_ok (PAGE_ALIGN x).
Proof.
  intros Hx. unfold frame_ok. rewrite PAGE_ALIGN_eq by done. unfold PAGE_SIZE.
  split; [|pose proof (Z.mod_pos_bound x 4096); Z.to_euclidean_division_equations; lia].
  rewrite Zminus_mod_idemp_r. by rewrite Z.sub_diag.
Qed.

(** DWORD [i] of a frame determines the frame and [i]. *)
Lemma frame_dword p q i j : frame_ok p -> frame_ok q -> 0 <= i < 1024 -> 0 <= j < 1024 ->
  p + 4 * i = q + 4 * j -> p = q /\ i = j.
Proof. unfold frame_ok, PAGE_SIZE. intros. Z.to_euclidean_division_equations. lia. Qed.

Lemma frame_page p q i : frame_ok p -> frame_ok q -> 0 <= i < 1024 ->
  p <= q + 4 * i < p + PAGE_SIZE <-> p = q.
Proof. unfold frame_ok, PAGE_SIZE. intros. Z.to_euclidean_division_equations. lia. Qed.

(** A frame with flags. *)
Lemma flags_split p f : frame_ok p -> 0 <= f < PAGE_SIZE ->
  Z.lor p f = p + f /\ PAGE_ALIGN (p + f) = p /\ 0 <= p + f < 2 ^ 32 /\ u32 (p + f) = p + f.
Proof.
  intros [H1 H2] Hf. unfold PAGE_SIZE in *.
  assert (R : 0 <= p + f < 2 ^ 32) by (Z.to_euclidean_division_equations; lia).
  assert (Hl : Z.lor p f = p + f).
  { replace p with (Z.shiftl (p / 4096) 12)
      by (rewrite Z.shiftl_mul_pow2 by lia; change (2 ^ 12) with 4096; Z.to_euclidean_division_equations; lia).
    rewrite Z.lor_comm, lor_shiftl_add by (change (2 ^ 12) with 4096; lia).
    rewrite Z.shiftl_mul_pow2 by lia. lia. }
  split_and!; try done; try lia.
  - rewrite PAGE_ALIGN_eq by done. unfold PAGE_SIZE. Z.to_euclidean_division_equations; lia.
  - by apply u32_id.
Qed.

Lemma present_odd x : c_true (Z.land x PAGE_PRESENT) = Z.odd x.
Proof. apply land_1_odd. Qed.

Lemma table_index j : 0 <= j < 2 ^ 20 - 1024 -> let va := pageTable j in
  PGDIR_ENT va = 1023 /\ Z.land (PGTABLE_ENT va) 1023 = j / 1024 /\ PAGE_OFFSET va = 4 * (j mod 1024).
Proof.
  intros Hj va. subst va. unfold PGDIR_ENT, PGTABLE_ENT, PAGE_OFFSET, pageTable, PAGE_TABLES_VA, PGDIR_SELF, PAGE_SIZE.
  change (Z.shiftl 1023 22) with 4290772992. rewrite !Z.shiftr_div_pow2 by lia.
  rewrite (land_ones_mod _ 10), (land_ones_mod _ 12) by done.
  change (2 ^ 22) with 4194304. change (2 ^ 12) with 4096. change (2 ^ 10) with 1024. change (2 ^ 20) with 1048576 in Hj.
  split_and!; Z.to_euclidean_division_equations; lia.
Qed.

Lemma dir_index e : 0 <= e < 1024 -> let va := pageDir e in
  PGDIR_ENT va = 1023 /\ Z.land (PGTABLE_ENT va) 1023 = 1023 /\ PAGE_OFFSET va = 4 * e.
Proof.
  intros Hj va. subst va. unfold PGDIR_ENT, PGTABLE_ENT, PAGE_OFFSET, pageDir, PAGE_SIZE.
  change PAGE_DIR_VA with 4294963200. rewrite !Z.shiftr_div_pow2 by lia.
  rewrite (land_ones_mod _ 10), (land_ones_mod _ 12) by done.
  change (2 ^ 22) with 4194304. change (2 ^ 12) with 4096. change (2 ^ 10) with 1024.
  split_and!; Z.to_euclidean_division_equations; lia.
Qed.

(** A page-aligned address by its page number. *)
Lemma page_index j k : 0 <= k < 1024 -> 0 <= j -> let va := j * PAGE_SIZE + 4 * k in
  PGTABLE_ENT va = j /\ PGDIR_ENT va = j / 1024 /\ Z.land (PGTABLE_ENT va) 1023 = j mod 1024
  /\ PAGE_OFFSET va = 4 * k.
Proof.
  intros Hk Hj va. subst va. unfold PGDIR_ENT, PGTABLE_ENT, PAGE_OFFSET, PAGE_SIZE.
  rewrite !Z.shiftr_div_pow2 by lia.
  rewrite (land_ones_mod _ 10), (land_ones_mod _ 12) by done.
  change (2 ^ 22) with 4194304. change (2 ^ 12) with 4096. change (2 ^ 10) with 1024.
  assert ((j * 4096 + 4 * k) / 4096 = j) as E by (Z.to_euclidean_division_equations; lia).
  rewrite E. split_and!; try done; Z.to_euclidean_division_equations; lia.
Qed.

(** ** The invariant *)

Section Invariant.
Context {W : Type} `{PageSource W}.
Implicit Types st : vmem W.

(** Entry [e] of directory [m], and the entry of page [j] in address space
    [m], 0 when it has no table. *)
Definition pde st (m e : Z) : Z := pmem st (m + 4 * e).
Definition pte st (m j : Z) : Z :=
  let d := pde st m (j / 1024) in
  if d =? 0 then 0 else pmem st (PAGE_ALIGN d + 4 * (j mod 1024)).

(** [X] holds the kernel entries that are being shared out. *)
Record vm_inv_x (X : Z -> Prop) st : Prop := {
  vi_cur : cr3 st ∈ managers st;
  vi_mgr : forall m, m ∈ managers st -> frame_ok m;
  vi_self : forall m, m ∈ managers st ->
    0 <= pde st m 1023 < 2 ^ 32 /\ Z.odd (pde st m 1023) = true /\ PAGE_ALIGN (pde st m 1023) = m;
  vi_dir : forall m e, m ∈ managers st -> 0 <= e < 1023 -> pde st m e <> 0 ->
    0 <= pde st m e < 2 ^ 32 /\ Z.odd (pde st m e) = true
    /\ PAGE_ALIGN (pde st m e) ∉ managers st /\ ~ page_free (source st) (PAGE_ALIGN (pde st m e));
  vi_inj : forall m m' e e', m ∈ managers st -> m' ∈ managers st -> 1 <= e < 1023 -> 1 <= e' < 1023 ->
    pde st m e <> 0 -> pde st m' e' <> 0 -> PAGE_ALIGN (pde st m e) = PAGE_ALIGN (pde st m' e') ->
    e = e' /\ (m = m' \/ 768 <= e);
  vi_weak : forall m m' e, m ∈ managers st -> m' ∈ managers st -> 768 <= e < 1020 ->
    pde st m e = 0 \/ pde st m' e = 0 \/ pde st m e = pde st m' e;
  vi_shared : forall m m' e, m ∈ managers st -> m' ∈ managers st -> 768 <= e < 1020 -> ~ X e ->
    pde st m e = pde st m' e;
  vi_free : forall q, page_free (source st) q -> q ∉ managers st;
  vi_src : page_ok (source st);
}.
Definition vm_inv : vmem W -> Prop := vm_inv_x (fun _ => False).

(** The same pages are mapped in every address space. *)
Definition page_no (j : Z) : Prop := 0 <= j /\ 1 <= j / 1024 < 1023.
Record same_pages st st' : Prop := {
  sp_cr3 : cr3 st' = cr3 st;
  sp_mgr : managers st' = managers st;
  sp_kdir : kernelDir st' = kernelDir st;
  sp_pte : forall m j, m ∈ managers st -> page_no j -> pte st' m j = pte st m j;
}.

Lemma same_pages_trans a b c : same_pages a b -> same_pages b c -> same_pages a c.
Proof.
  intros [A1 A2 A3 A4] [B1 B2 B3 B4]. split; try congruence.
  intros m j Hm Hj. rewrite B4 by (rewrite ?A2; done). by apply A4.
Qed.
Lemma same_pages_refl st : same_pages st st.
Proof. by split. Qed.

(** *** Access through the self-referencing entry *)

Section Access.
Variables (X : Z -> Prop) (st : vmem W).
Hypothesis inv : vm_inv_x X st.

Lemma walk_dir e : 0 <= e < 1024 -> walk (cr3 st) (pmem st) (pageDir e) = Some (cr3 st + 4 * e).
Proof.
  intros He. destruct (dir_index e He) as (E1 & E2 & E3). unfold walk. rewrite E1, E2, E3.
  destruct (vi_self _ _ inv _ (vi_cur _ _ inv)) as (_ & O & A). unfold pde in O, A.
  rewrite present_odd, O, A, present_odd, O, A. done.
Qed.

Lemma vload_dir e : 0 <= e < 1024 -> vload st (pageDir e) = Ret (pde st (cr3 st) e).
Proof. intros He. unfold vload. by rewrite walk_dir. Qed.
Lemma vstore_dir e v : 0 <= e < 1024 ->
  vstore st (pageDir e) v = Ret (set_pmem (mset (pmem st) (cr3 st + 4 * e) v) st).
Proof. intros He. unfold vstore. by rewrite walk_dir. Qed.

(** The address of the entry of page [j]. *)
Definition slot (m j : Z) : Z := PAGE_ALIGN (pde st m (j / 1024)) + 4 * (j mod 1024).

Lemma walk_table j : 0 <= j / 1024 < 1023 -> pde st (cr3 st) (j / 1024) <> 0 ->
  walk (cr3 st) (pmem st) (pageTable j) = Some (slot (cr3 st) j).
Proof.
  intros Hj Hp. destruct (table_index j) as (E1 & E2 & E3).
  { change (2 ^ 20) with 1048576. Z.to_euclidean_division_equations; lia. }
  destruct (vi_self _ _ inv _ (vi_cur _ _ inv)) as (_ & O & A).
  destruct (vi_dir _ _ inv _ _ (vi_cur _ _ inv) Hj Hp) as (_ & O' & _).
  unfold walk. rewrite E1, E2, E3. unfold pde, slot in *. by rewrite present_odd, O, A, present_odd, O'.
Qed.

Lemma vload_table j : 0 <= j / 1024 < 1023 -> pde st (cr3 st) (j / 1024) <> 0 ->
  vload st (pageTable j) = Ret (pte st (cr3 st) j).
Proof.
  intros Hj Hp. unfold vload, pte. rewrite walk_table by done.
  by destruct (Z.eqb_spec (pde st (cr3 st) (j / 1024)) 0).
Qed.
Lemma vstore_table j v : 0 <= j / 1024 < 1023 -> pde st (cr3 st) (j / 1024) <> 0 ->
  vstore st (pageTable j) v = Ret (set_pmem (mset (pmem st) (slot (cr3 st) j) v) st).
Proof. intros Hj Hp. unfold vstore. by rewrite walk_table. Qed.

Lemma unused_spec j : 0 <= j / 1024 < 1023 -> 0 <= j ->
  unused st (j * PAGE_SIZE) = Ret (pte st (cr3 st) j =? 0).
Proof.
  intros Hj H0. destruct (page_index j 0) as (E1 & E2 & _); [lia|lia|].
  rewrite Z.mul_0_r, Z.add_0_r in E1, E2. unfold unused. rewrite E1, E2, vload_dir by lia. cbn [bindO].
  destruct (Z.eqb_spec (pde st (cr3 st) (j / 1024)) 0) as [E|E].
  - unfold pte. by rewrite E.
  - by rewrite vload_table.
Qed.

(** A page that is mapped is accessible at its address. *)
Lemma walk_mapped m j k : m ∈ managers st -> 0 <= j / 1024 < 1023 -> 0 <= j -> 0 <= k < 1024 ->
  pde st m (j / 1024) <> 0 -> Z.odd (pte st m j) = true ->
  walk m (pmem st) (j * PAGE_SIZE + 4 * k) = Some (PAGE_ALIGN (pte st m j) + 4 * k).
Proof.
  intros Hm Hj H0 Hk Hp Ho. destruct (page_index j k Hk H0) as (E1 & E2 & E3 & E4).
  destruct (vi_dir _ _ inv _ _ Hm Hj Hp) as (_ & O' & _).
  unfold walk. rewrite E2, E3, E4. fold (pde st m (j / 1024)). rewrite present_odd, O'.
  unfold pte in *. destruct (Z.eqb_spec (pde st m (j / 1024)) 0); [done|].
  by rewrite present_odd, Ho.
Qed.

Lemma table_frame m e : m ∈ managers st -> 0 <= e < 1023 -> pde st m e <> 0 ->
  frame_ok (PAGE_ALIGN (pde st m e)) /\ PAGE_ALIGN (pde st m e) ∉ managers st.
Proof.
  intros Hm He Hp. destruct (vi_dir _ _ inv m e Hm He Hp) as (R & _ & N & _).
  split; [by apply frame_ok_align|done].
Qed.

(** Writing a DWORD of a frame that is no directory. *)
Lemma pde_mset p i v m e : frame_ok p -> 0 <= i < 1024 -> p ∉ managers st -> m ∈ managers st ->
  0 <= e < 1024 -> pde (set_pmem (mset (pmem st) (p + 4 * i) v) st) m e = pde st m e.
Proof.
  intros Fp Hi Np Hm He. unfold pde. simpl. unfold mset.
  destruct (Z.eqb_spec (m + 4 * e) (p + 4 * i)) as [E|]; [|done].
  destruct (frame_dword m p e i) as [-> _]; try done. by apply (vi_mgr _ _ inv).
Qed.
End Access.

(** The invariant speaks of the directories only. *)
Lemma vm_inv_agree X st st' : vm_inv_x X st -> cr3 st' ∈ managers st -> managers st' = managers st ->
  source st' = source st ->
  (forall m e, m ∈ managers st -> 0 <= e < 1024 -> pde st' m e = pde st m e) -> vm_inv_x X st'.
Proof.
  intros [I1 I2 I3 I4 I5 I6 I7 I8 I9] Hc Hm Hs Hp. split; rewrite ?Hm, ?Hs in *; try done.
  - intros m M. rewrite Hp by (done || lia). by apply I3.
  - intros m e M E. rewrite Hp by (done || lia). by apply I4.
  - intros m m' e e' M M' E E'. rewrite !Hp by (done || lia). by apply I5.
  - intros m m' e M M' E. rewrite !Hp by (done || lia). by apply I6.
  - intros m m' e M M' E. rewrite !Hp by (done || lia). by apply I7.
Qed.

(** Writing the entry of one page. *)
Lemma table_write X st j v : vm_inv_x X st -> 0 <= j -> 1 <= j / 1024 < 1020 ->
  pde st (cr3 st) (j / 1024) <> 0 ->
  let st' := set_pmem (mset (pmem st) (slot st (cr3 st) j) v) st in
  vm_inv_x X st'
  /\ (forall m e, m ∈ managers st -> 0 <= e < 1024 -> pde st' m e = pde st m e)
  /\ (forall m i, m ∈ managers st -> page_no i -> pte st' m i =
       if (i =? j) && negb (pde st m (j / 1024) =? 0) && ((m =? cr3 st) || (768 <=? j / 1024))
       then v else pte st m i).
Proof.
  intros I J0 J1 Hp st'. pose proof (vi_cur _ _ I) as Hc.
  destruct (table_frame X st I (cr3 st) (j / 1024) Hc ltac:(lia) Hp) as [F N].
  assert (Hmod : forall i, 0 <= i mod 1024 < 1024) by (intros i; apply Z.mod_pos_bound; lia).
  assert (P : forall m e, m ∈ managers st -> 0 <= e < 1024 -> pde st' m e = pde st m e)
    by (intros; by apply (pde_mset X st I)).
  split_and!; [by apply (vm_inv_agree X st)|done|].
  intros m i Hm [I0 I1]. unfold pte. rewrite P by (done || lia).
  destruct (Z.eqb_spec (pde st m (i / 1024)) 0) as [E0|E0].
  { destruct (Z.eqb_spec i j) as [->|]; [|done]. by rewrite E0. }
  destruct (table_frame X st I m (i / 1024) Hm ltac:(lia) E0) as [F' N'].
  simpl. unfold mset, slot.
  destruct (Z.eqb_spec (PAGE_ALIGN (pde st m (i / 1024)) + 4 * (i mod 1024))
                       (PAGE_ALIGN (pde st (cr3 st) (j / 1024)) + 4 * (j mod 1024))) as [E|E].
  - apply frame_dword in E as [Ef Em]; try done.
    destruct (vi_inj _ _ I m (cr3 st) (i / 1024) (j / 1024) Hm Hc ltac:(lia) ltac:(lia) E0 Hp Ef) as [Ee Hs].
    assert (i = j) as -> by (Z.to_euclidean_division_equations; lia).
    rewrite Z.eqb_refl. destruct (Z.eqb_spec (pde st m (j / 1024)) 0); [done|]. simpl.
    destruct (Z.eqb_spec m (cr3 st)) as [|Nm]; [done|].
    destruct Hs as [|Hs]; [done|]. by destruct (Z.leb_spec 768 (j / 1024)); [|lia].
  - destruct (Z.eqb_spec i j) as [->|]; [|done].
    destruct (Z.eqb_spec (pde st m (j / 1024)) 0); [done|]. simpl.
    destruct (Z.eqb_spec m (cr3 st)) as [->|Nm]; [done|].
    destruct (Z.leb_spec 768 (j / 1024)); [|done]. exfalso. apply E.
    destruct (vi_weak _ _ I m (cr3 st) (j / 1024) Hm Hc ltac:(lia)) as [?|[?| ->]]; done.
Qed.
End Invariant.

(** ** VirtMemMapPage *)

Section Mapping.
Context {W : Type} `{PL : PageSourceLaws W}.
Implicit Types st : vmem W.

Lemma pde_range e : 0 <= e / 1024 < 1023 -> 0 <= e / 1024 < 1024.
Proof. lia. Qed.

(** The table exists: one store. *)
Lemma map_present X A j phys perms st : vm_inv_x X st -> 0 <= j -> 1 <= j / 1024 < 1020 ->
  pde st (cr3 st) (j / 1024) <> 0 ->
  VirtMemMapPage_body A (j * PAGE_SIZE) phys perms st =
    Ret (0, set_pmem (mset (pmem st) (slot st (cr3 st) j) (u32 (Z.lor phys perms))) st).
Proof.
  intros I J0 J1 Hp. unfold VirtMemMapPage_body, ensure_table.
  destruct (page_index j 0) as (E1 & E2 & _); [lia|lia|]. rewrite Z.mul_0_r, Z.add_0_r in E1, E2.
  assert (j * PAGE_SIZE < PAGE_TABLES_VA).
  { change PAGE_TABLES_VA with (1023 * 1024 * 4096). unfold PAGE_SIZE. Z.to_euclidean_division_equations; lia. }
  destruct (Z.leb_spec PAGE_TABLES_VA (j * PAGE_SIZE)); [lia|].
  rewrite E1, E2, (vload_dir X) by (done || lia). cbn [bindO].
  destruct (Z.eqb_spec (pde st (cr3 st) (j / 1024)) 0); [done|]. cbn [bindO].
  by rewrite (vstore_table X) by (done || lia).
Qed.

(** A new, empty table for a directory entry of the current address space. *)
Definition install st (e v : Z) (w : W) : vmem W :=
  let p := PAGE_ALIGN v in
  set_pmem (fun x => if (p <=? x) && (x <? p + PAGE_SIZE) then 0
                     else mset (pmem st) (cr3 st + 4 * e) v x) (set_source w st).

Lemma install_pde X st e v w : vm_inv_x X st -> 0 <= e < 1023 ->
  0 <= v < 2 ^ 32 -> page_free (source st) (PAGE_ALIGN v) ->
  forall m i, m ∈ managers st -> 0 <= i < 1024 ->
    pde (install st e v w) m i = if (m =? cr3 st) && (i =? e) then v else pde st m i.
Proof.
  intros I He Hv Fr m i Hm Hi. pose proof (vi_mgr _ _ I m Hm) as Fm.
  pose proof (vi_mgr _ _ I _ (vi_cur _ _ I)) as Fc.
  unfold pde, install. simpl. destruct (decide (PAGE_ALIGN v = m)) as [Ev|Ev].
  { exfalso. rewrite Ev in Fr. by apply (vi_free _ _ I m Fr). }
  pose proof (frame_page (PAGE_ALIGN v) m i (frame_ok_align v Hv) Fm Hi) as FP.
  destruct (Z.leb_spec (PAGE_ALIGN v) (m + 4 * i)), (Z.ltb_spec (m + 4 * i) (PAGE_ALIGN v + PAGE_SIZE)); simpl;
    try (exfalso; apply Ev, FP; lia); unfold mset.
  all: destruct (Z.eqb_spec (m + 4 * i) (cr3 st + 4 * e)) as [E|E];
    [apply frame_dword in E as [-> ->]; [by rewrite !Z.eqb_refl|done|done|lia|lia]|].
  all: destruct (Z.eqb_spec m (cr3 st)) as [->|]; [|done].
  all: destruct (Z.eqb_spec i e) as [->|]; done.
Qed.

Lemma vm_inv_weaken X Y st : vm_inv_x X st -> (forall e, 768 <= e < 1020 -> X e -> Y e) -> vm_inv_x Y st.
Proof.
  intros I H'. destruct I as [I1 I2 I3 I4 I5 I6 I7 I8 I9]. split; try done.
  intros m m' e M M' E NY. apply I7; try done. intros Hx. by apply NY, H'.
Qed.

(** The frame of an existing table is neither free nor a directory. *)
Lemma table_not_free X st m e q : vm_inv_x X st -> m ∈ managers st -> 0 <= e < 1023 -> pde st m e <> 0 ->
  page_free (source st) q -> PAGE_ALIGN (pde st m e) <> q.
Proof.
  intros I Hm He Hp Fq E. destruct (vi_dir _ _ I m e Hm He Hp) as (_ & _ & _ & N). by rewrite E in N.
Qed.

Section Install.
Variables (X : Z -> Prop) (st : vmem W) (e v : Z) (w : W).
Hypothesis inv : vm_inv_x X st.
Hypothesis He : 1 <= e < 1020.
Hypothesis absent : pde st (cr3 st) e = 0.
Hypothesis notX : 768 <= e -> ~ X e.
Hypothesis Hv : 0 <= v < 2 ^ 32 /\ Z.odd v = true.
Hypothesis fresh : page_free (source st) (PAGE_ALIGN v).
Hypothesis Hw : page_ok w /\ forall q, page_free w q <-> page_free (source st) q /\ q <> PAGE_ALIGN v.

Lemma install_absent m : m ∈ managers st -> 768 <= e -> pde st m e = 0.
Proof.
  intros Hm Hk. rewrite <- absent. apply (vi_shared _ _ inv); try done; [apply inv|lia|auto].
Qed.

Lemma install_inv : vm_inv_x (fun i => X i \/ i = e) (install st e v w).
Proof.
  pose proof (install_pde X st e v w inv ltac:(lia) (proj1 Hv) fresh) as P.
  pose proof install_absent as Ab. destruct Hv as [Hv1 Hv2], Hw as [Hw1 Hw2].
  assert (Vp : v <> 0) by (intros E; by rewrite E in Hv2).
  split; change (managers (install st e v w)) with (managers st); change (source (install st e v w)) with w;
    try apply inv; try done.
  - intros m M. rewrite P by (done || lia). destruct (Z.eqb_spec 1023 e); [lia|].
    rewrite andb_false_r. by apply (vi_self _ _ inv).
  - intros m i M Ei. rewrite P by (done || lia). rewrite Hw2. intros Hp.
    destruct ((m =? cr3 st) && (i =? e)) eqn:C.
    + split; [done|]. split; [done|]. split; [by apply (vi_free _ _ inv)|]. by intros [_ ?].
    + destruct (vi_dir _ _ inv m i M Ei Hp) as (R & O & N & F). split; [done|]. split; [done|].
      split; [done|]. by intros [? _].
  - intros m m' i i' M M' Ei Ei'. rewrite !P by (done || lia).
    destruct ((m =? cr3 st) && (i =? e)) eqn:C, ((m' =? cr3 st) && (i' =? e)) eqn:C'; intros Hp Hp' Ef.
    + apply andb_true_iff in C as [C1 C2], C' as [C1' C2'].
      apply Z.eqb_eq in C1, C2, C1', C2'. subst. auto.
    + destruct (table_not_free X st m' i' (PAGE_ALIGN v) inv M' ltac:(lia) Hp' fresh). congruence.
    + destruct (table_not_free X st m i (PAGE_ALIGN v) inv M ltac:(lia) Hp fresh). congruence.
    + by apply (vi_inj _ _ inv).
  - intros m m' i M M' Ei. rewrite !P by (done || lia).
    destruct (Z.eqb_spec i e) as [->|Ni]; rewrite ?andb_true_r, ?andb_false_r.
    + destruct (m =? cr3 st), (m' =? cr3 st); auto.
      * right. left. apply Ab; [done|lia].
      * left. apply Ab; [done|lia].
      * right. right. rewrite (Ab m), (Ab m') by (done || lia). done.
    + by apply (vi_weak _ _ inv).
  - intros m m' i M M' Ei Nx. rewrite !P by (done || lia).
    destruct (Z.eqb_spec i e) as [->|Ni]; [tauto|]. rewrite !andb_false_r.
    apply (vi_shared _ _ inv); tauto.
  - intros q Fq. apply Hw2 in Fq as [Fq _]. by apply (vi_free _ _ inv).
Qed.

Lemma install_pages : same_pages st (install st e v w).
Proof.
  pose proof (install_pde X st e v w inv ltac:(lia) (proj1 Hv) fresh) as P.
  split; try done. intros m j Hm [J0 J1].
  assert (Hmod : 0 <= j mod 1024 < 1024) by (apply Z.mod_pos_bound; lia).
  pose proof (frame_ok_align v (proj1 Hv)) as Fv.
  unfold pte. rewrite P by (done || lia).
  destruct ((m =? cr3 st) && (j / 1024 =? e)) eqn:C.
  - apply andb_true_iff in C as [->%Z.eqb_eq C2%Z.eqb_eq]. rewrite C2, absent. simpl.
    destruct (Z.eqb_spec v 0); [done|]. simpl.
    destruct (proj2 (frame_page (PAGE_ALIGN v) (PAGE_ALIGN v) (j mod 1024) Fv Fv Hmod) eq_refl).
    by destruct (Z.leb_spec (PAGE_ALIGN v) (PAGE_ALIGN v + 4 * (j mod 1024))),
      (Z.ltb_spec (PAGE_ALIGN v + 4 * (j mod 1024)) (PAGE_ALIGN v + PAGE_SIZE)); simpl; try lia.
  - destruct (Z.eqb_spec (pde st m (j / 1024)) 0) as [|Np]; [done|].
    destruct (table_frame X st inv m (j / 1024) Hm ltac:(lia) Np) as [F N].
    pose proof (table_not_free X st m (j / 1024) _ inv Hm ltac:(lia) Np fresh) as Nf.
    pose proof (frame_page (PAGE_ALIGN v) (PAGE_ALIGN (pde st m (j / 1024))) (j mod 1024) Fv F Hmod) as FP.
    simpl. destruct (Z.leb_spec (PAGE_ALIGN v) (PAGE_ALIGN (pde st m (j / 1024)) + 4 * (j mod 1024))),
      (Z.ltb_spec (PAGE_ALIGN (pde st m (j / 1024)) + 4 * (j mod 1024)) (PAGE_ALIGN v + PAGE_SIZE)); simpl;
      try (exfalso; apply Nf; symmetry; apply FP; lia); unfold mset.
    all: destruct (Z.eqb_spec (PAGE_ALIGN (pde st m (j / 1024)) + 4 * (j mod 1024)) (cr3 st + 4 * e)) as [E|]; [|done].
    all: apply frame_dword in E as [E _]; [|done|apply inv, inv|done|lia].
    all: exfalso; apply N; rewrite E; apply inv.
Qed.

(** The stores that install it. *)
Lemma install_run :
  bindO (vstore (set_source w st) (pageDir e) v) (fun st1 => vzero st1 (pageTable (e * 1024)))
  = Ret (install st e v w).
Proof.
  unfold vstore. simpl. rewrite (walk_dir X st inv) by lia. cbn [bindO]. unfold vzero. simpl.
  assert (E0 : (e * 1024) / 1024 = e /\ (e * 1024) mod 1024 = 0)
    by (rewrite Z.div_mul, Z.mod_mul by lia; done).
  destruct (table_index (e * 1024)) as (E1 & E2 & E3); [lia|]. destruct E0 as [E0 E0'].
  rewrite E0, E0' in *. destruct (vi_self _ _ inv _ (vi_cur _ _ inv)) as (_ & O & A). unfold pde in O, A.
  assert (M1 : mset (pmem st) (cr3 st + 4 * e) v (cr3 st + 4 * 1023) = pmem st (cr3 st + 4 * 1023))
    by (unfold mset; destruct (Z.eqb_spec (cr3 st + 4 * 1023) (cr3 st + 4 * e)); [lia|done]).
  assert (M2 : mset (pmem st) (cr3 st + 4 * e) v (cr3 st + 4 * e) = v) by (unfold mset; by rewrite Z.eqb_refl).
  unfold walk. rewrite E1, E2, E3, M1, present_odd, O, A, M2, present_odd, (proj2 Hv), Z.mul_0_r, Z.add_0_r. done.
Qed.
End Install.

(** *** Temporary mappings *)

Definition TEMP_FIRST : Z := TEMP_START / PAGE_SIZE.
Definition TEMP_LAST : Z := TEMP_END / PAGE_SIZE.

(** [t] is the first page of the window that nothing is mapped at. *)
Definition first_unused st (t : Z) : Prop :=
  TEMP_FIRST <= t < TEMP_LAST /\ pte st (cr3 st) t = 0
  /\ forall j, TEMP_FIRST <= j < t -> pte st (cr3 st) j <> 0.

Lemma temp_range t : TEMP_FIRST <= t < TEMP_LAST -> 0 <= t /\ 960 <= t / 1024 < 992.
Proof.
  change TEMP_FIRST with 983168. change TEMP_LAST with 1015808. intros Ht.
  split; [lia|]. Z.to_euclidean_division_equations; lia.
Qed.

Lemma temp_loop_spec X map phys st t : vm_inv_x X st -> first_unused st t ->
  forall n j, TEMP_FIRST <= j <= t -> Z.of_nat n = TEMP_LAST - j ->
  temp_loop map n (j * PAGE_SIZE) phys st =
    let* (_, st') := map (t * PAGE_SIZE) phys 3 st in Ret (t * PAGE_SIZE, st').
Proof.
  intros I (Ht & H0 & Hb). induction n as [|n IH]; intros j Hj Hn; [lia|]. cbn [temp_loop].
  destruct (temp_range j ltac:(lia)) as [J0 J1].
  rewrite (unused_spec X) by (done || lia). cbn [bindO].
  destruct (decide (j = t)) as [->|Nj].
  - by rewrite H0.
  - destruct (Z.eqb_spec (pte st (cr3 st) j) 0) as [E|_]; [by destruct (Hb j ltac:(lia))|].
    replace (j * PAGE_SIZE + PAGE_SIZE) with ((j + 1) * PAGE_SIZE) by lia. apply IH; lia.
Qed.

Lemma alloc_temp_spec X d phys st t : vm_inv_x X st -> first_unused st t ->
  VirtAllocateTemp d phys st =
    let* (_, st') := VirtMemMapPage d (t * PAGE_SIZE) phys 3 st in Ret (t * PAGE_SIZE, st').
Proof.
  intros I F. unfold VirtAllocateTemp. change TEMP_START with (TEMP_FIRST * PAGE_SIZE) at 2.
  apply (temp_loop_spec X); [done|done|destruct F; lia|]. reflexivity.
Qed.

Definition ready st (t : Z) : Prop := first_unused st t /\ pde st (cr3 st) (t / 1024) <> 0.

Lemma alloc_temp_ready X d phys st t : vm_inv_x X st -> ready st t ->
  VirtAllocateTemp (S d) phys st =
    Ret (t * PAGE_SIZE, set_pmem (mset (pmem st) (slot st (cr3 st) t) (u32 (Z.lor phys 3))) st).
Proof.
  intros I [F Hp]. rewrite (alloc_temp_spec X _ _ _ t) by done.
  destruct F as (Ht & _). destruct (temp_range t Ht).
  cbn [VirtMemMapPage]. by rewrite (map_present X) by (done || lia).
Qed.

(** *** Sharing a kernel table *)

(** One more directory names the table of the current address space. *)
Lemma dir_write X st m e : vm_inv_x X st -> m ∈ managers st -> 768 <= e < 1020 -> X e ->
  pde st (cr3 st) e <> 0 ->
  let st' := set_pmem (mset (pmem st) (m + 4 * e) (pde st (cr3 st) e)) st in
  vm_inv_x X st'
  /\ forall m' i, m' ∈ managers st -> 0 <= i < 1024 ->
       pde st' m' i = if (m' =? m) && (i =? e) then pde st (cr3 st) e else pde st m' i.
Proof.
  intros I Hm He Hx Hp st'. pose proof (vi_cur _ _ I) as Hc.
  assert (P : forall m' i, m' ∈ managers st -> 0 <= i < 1024 ->
    pde st' m' i = if (m' =? m) && (i =? e) then pde st (cr3 st) e else pde st m' i).
  { intros m' i M' Hi. unfold st', pde. simpl. unfold mset.
    destruct (Z.eqb_spec (m' + 4 * i) (m + 4 * e)) as [E|E].
    - apply frame_dword in E as [-> ->]; [by rewrite !Z.eqb_refl|by apply I|by apply I|done|lia].
    - destruct (Z.eqb_spec m' m) as [->|]; [|done]. by destruct (Z.eqb_spec i e) as [->|]. }
  split; [|done].
  split; change (managers st') with (managers st); change (source st') with (source st); try apply I.
  - intros m' M'. rewrite P by (done || lia). destruct (Z.eqb_spec 1023 e); [lia|].
    rewrite andb_false_r. by apply (vi_self _ _ I).
  - intros m' i M' Hi. rewrite P by (done || lia). destruct (_ && _).
    + intros _. by apply (vi_dir _ _ I); [..|lia|].
    + by apply (vi_dir _ _ I).
  - intros m1 m2 i1 i2 M1 M2 H1 H2. rewrite !P by (done || lia).
    destruct ((m1 =? m) && (i1 =? e)) eqn:C1, ((m2 =? m) && (i2 =? e)) eqn:C2; intros N1 N2 Ef.
    + apply andb_true_iff in C1 as [_ ->%Z.eqb_eq], C2 as [_ ->%Z.eqb_eq]. lia.
    + apply andb_true_iff in C1 as [_ ->%Z.eqb_eq].
      destruct (vi_inj _ _ I (cr3 st) m2 e i2 Hc M2 ltac:(lia) H2 Hp N2 Ef). lia.
    + apply andb_true_iff in C2 as [_ ->%Z.eqb_eq].
      destruct (vi_inj _ _ I m1 (cr3 st) i1 e M1 Hc H1 ltac:(lia) N1 Hp Ef). lia.
    + by apply (vi_inj _ _ I).
  - intros m1 m2 i M1 M2 Hi. rewrite !P by (done || lia).
    destruct (Z.eqb_spec i e) as [->|Ni]; rewrite ?andb_true_r, ?andb_false_r; [|by apply (vi_weak _ _ I)].
    destruct (m1 =? m), (m2 =? m); auto; by apply (vi_weak _ _ I).
  - intros m1 m2 i M1 M2 Hi Nx. rewrite !P by (done || lia).
    destruct (Z.eqb_spec i e) as [->|Ni]; [done|]. rewrite !andb_false_r. by apply (vi_shared _ _ I).
Qed.

Lemma slot_fresh X st m j e t : vm_inv_x X st -> m ∈ managers st -> 0 <= e < 1024 -> t ∈ managers st ->
  0 <= j / 1024 < 1023 -> pde st t (j / 1024) <> 0 -> slot st t j <> m + 4 * e.
Proof.
  intros I Hm He Ht Hj Hp E. destruct (table_frame X st I t (j / 1024) Ht Hj Hp) as [F N].
  apply frame_dword in E as [E _]; [|done|by apply I|apply Z.mod_pos_bound; lia|done]. by rewrite E in N.
Qed.

(** One round of the loop over the managers. *)
Lemma share_step X d st t m e : vm_inv_x X st -> ready st t -> m ∈ managers st -> 768 <= e < 1020 -> X e ->
  pde st (cr3 st) e <> 0 ->
  exists pm, (let* (virtDir, st) := VirtAllocateTemp (S d) m st in
              let* pde := vload st (pageDir e) in
              let* st := vstore st (virtDir + 4 * e) pde in
              VirtUnmapPhysPage virtDir st) = Ret (set_pmem pm st)
    /\ forall x, pm x = mset (pmem st) (m + 4 * e) (pde st (cr3 st) e) x.
Proof.
  intros I R Hm He Hx Hp. pose proof (vi_cur _ _ I) as Hc. pose proof (vi_mgr _ _ I m Hm) as Fm.
  rewrite (alloc_temp_ready X _ _ _ t) by done. cbn [bindO].
  destruct R as [(Ht & Z0 & _) Pt]. destruct (temp_range t Ht) as [T0 T1].
  destruct (flags_split m 3 Fm ltac:(unfold PAGE_SIZE; lia)) as (-> & A3 & R3 & ->).
  destruct (table_write X st t (m + 3) I T0 ltac:(lia) Pt) as (I1 & P1 & E1).
  set (s0 := slot st (cr3 st) t) in *. set (st1 := set_pmem (mset (pmem st) s0 (m + 3)) st) in *.
  assert (Pe : pde st1 (cr3 st1) e = pde st (cr3 st) e) by (apply P1; [done|lia]).
  rewrite (vload_dir X st1) by (done || lia). cbn [bindO].
  assert (Ept : pte st1 (cr3 st1) t = m + 3).
  { change (cr3 st1) with (cr3 st). rewrite (E1 (cr3 st) t Hc) by (unfold page_no; lia). rewrite !Z.eqb_refl.
    by destruct (Z.eqb_spec (pde st (cr3 st) (t / 1024)) 0). }
  assert (Po : Z.odd (m + 3) = true).
  { destruct Fm as [Fm _]. unfold PAGE_SIZE in Fm. rewrite Z.odd_add. apply Z.mod_divide in Fm as [q ->]; [|lia].
    rewrite Z.odd_mul. by rewrite andb_false_r. }
  assert (Pt1 : pde st1 (cr3 st1) (t / 1024) <> 0) 
    by (change (cr3 st1) with (cr3 st); rewrite P1 by (done || lia); done).
  unfold vstore at 1. rewrite (walk_mapped X st1) by (done || lia || by rewrite Ept).
  rewrite Ept, A3. cbn [bindO].
  assert (Hp1 : pde st1 (cr3 st1) e <> 0) by (by rewrite Pe).
  destruct (dir_write X st1 m e I1 Hm He Hx Hp1) as [I2 P2]. rewrite Pe in I2, P2 |- *.
  set (st2 := set_pmem (mset (pmem st1) (m + 4 * e) (pde st (cr3 st) e)) st1) in *.
  assert (Pc : forall i, 0 <= i < 1024 -> pde st2 (cr3 st2) i = pde st (cr3 st) i).
  { intros i Hi. change (cr3 st2) with (cr3 st). rewrite P2 by done. destruct (Z.eqb_spec i e) as [->|].
    - destruct (_ =? _); [done|]. apply P1; [done|lia].
    - rewrite andb_false_r. by apply P1. }
  assert (Sl : slot st2 (cr3 st2) t = s0) by (unfold slot; by rewrite Pc by lia).
  assert (Ns : s0 <> m + 4 * e) by (apply (slot_fresh X st); done || lia).
  assert (Ept2 : pte st2 (cr3 st2) t = m + 3).
  { unfold pte. fold (slot st2 (cr3 st2) t). rewrite Sl, Pc by lia.
    destruct (Z.eqb_spec (pde st (cr3 st) (t / 1024)) 0); [done|].
    simpl. unfold mset. destruct (Z.eqb_spec s0 (m + 4 * e)); [done|]. by rewrite Z.eqb_refl. }
  unfold VirtUnmapPhysPage. rewrite (unused_spec X st2) by (done || lia). rewrite Ept2.
  destruct Fm as [_ Fm]. destruct (Z.eqb_spec (m + 3) 0); [lia|]. cbn [bindO].
  destruct (page_index t 0) as (G1 & _); [lia|lia|]. rewrite Z.mul_0_r, Z.add_0_r in G1. rewrite G1.
  rewrite (vstore_table X st2) by (done || lia || (rewrite Pc by lia; done)). rewrite Sl.
  eexists. split; [reflexivity|]. intros x. simpl. unfold mset.
  assert (Zs : pmem st s0 = 0).
  { unfold pte in Z0. destruct (Z.eqb_spec (pde st (cr3 st) (t / 1024)) 0); done. }
  destruct (Z.eqb_spec x s0) as [->|]; [|done]. destruct (Z.eqb_spec s0 (m + 4 * e)); done.
Qed.

(** Entries of a directory written by the loop. *)
Definition shared_out st st' (l : list Z) (e : Z) : Prop :=
  (forall m i, m ∈ managers st -> 0 <= i < 1024 ->
     pde st' m i = if bool_decide (m ∈ l) && (i =? e) then pde st (cr3 st) e else pde st m i)
  /\ (forall x, (forall m, m ∈ l -> x <> m + 4 * e) -> pmem st' x = pmem st x).

Lemma ready_shared X st st' l e t : vm_inv_x X st -> ready st t -> (forall m, m ∈ l -> m ∈ managers st) ->
  0 <= e < 1023 -> cr3 st' = cr3 st -> managers st' = managers st -> shared_out st st' l e -> ready st' t.
Proof.
  intros I [(Ht & H0 & Hb) Hp] Hl He Ec Em [P Q].
  assert (Pc : forall i, 0 <= i < 1024 -> pde st' (cr3 st') i = pde st (cr3 st) i).
  { intros i Hi. rewrite Ec, P by (done || apply I). destruct (Z.eqb_spec i e) as [->|];
      [by destruct (bool_decide _)|by rewrite andb_false_r]. }
  assert (E : forall j, TEMP_FIRST <= j < TEMP_LAST -> pte st' (cr3 st') j = pte st (cr3 st) j).
  { intros j Hj. destruct (temp_range j Hj). unfold pte. rewrite Pc by lia.
    destruct (Z.eqb_spec (pde st (cr3 st) (j / 1024)) 0); [done|]. apply Q. intros m Hm.
    apply (slot_fresh X st m j e (cr3 st)); try done; [by apply Hl|lia|apply I|lia]. }
  split; [|rewrite Pc; [done|destruct (temp_range t Ht); lia]].
  split; [done|]. split; [by rewrite E|]. intros j Hj. rewrite E by lia. by apply Hb.
Qed.

Lemma share_ready X d e t : 768 <= e < 1020 -> X e -> forall l st, vm_inv_x X st -> ready st t ->
  (forall m, m ∈ l -> m ∈ managers st) -> pde st (cr3 st) e <> 0 ->
  exists pm, share_table (VirtAllocateTemp (S d)) l e st = Ret (set_pmem pm st)
    /\ vm_inv_x X (set_pmem pm st) /\ shared_out st (set_pmem pm st) l e.
Proof.
  intros He Hx. induction l as [|m l IH]; intros st I R Hl Hp.
  { exists (pmem st). split_and!; try done; by destruct st. }
  assert (Hm : m ∈ managers st) by (apply Hl; set_solver).
  destruct (share_step X d st t m e I R Hm He Hx Hp) as (pm1 & E1 & Q1).
  destruct (dir_write X st m e I Hm He Hx Hp) as [I1 P1].
  set (st1 := set_pmem pm1 st).
  assert (P1' : forall m' i, m' ∈ managers st -> 0 <= i < 1024 ->
    pde st1 m' i = if (m' =? m) && (i =? e) then pde st (cr3 st) e else pde st m' i).
  { intros m' i M Hi. rewrite <- P1 by done. unfold pde, st1. simpl. by rewrite Q1. }
  assert (I1' : vm_inv_x X st1).
  { apply (vm_inv_agree X _ st1 I1); try done; [apply I|]. intros m' i M Hi. rewrite P1', P1 by done. done. }
  assert (S1 : shared_out st st1 [m] e).
  { split.
    - intros m' i M Hi. rewrite P1' by done. f_equal. f_equal.
      destruct (Z.eqb_spec m' m) as [->|]; case_bool_decide; set_solver.
    - intros x Hxm. unfold st1. simpl. rewrite Q1. unfold mset.
      destruct (Z.eqb_spec x (m + 4 * e)); [|done]. by destruct (Hxm m ltac:(set_solver)). }
  assert (R1 : ready st1 t)
    by (apply (ready_shared X st _ [m] e); try done; [set_solver|lia]).
  assert (Pe : pde st1 (cr3 st1) e = pde st (cr3 st) e).
  { change (cr3 st1) with (cr3 st). rewrite P1' by (apply I || lia). rewrite Z.eqb_refl, andb_true_r.
    by destruct (_ =? _). }
  destruct (IH st1 I1' R1) as (pm & E & I2 & P2 & Q2); [set_solver|by rewrite Pe|].
  exists pm. split_and!; [|done|].
  - cbn [share_table]. revert E1. destruct (VirtAllocateTemp (S d) m st) as [[vd sa]| | |]; try done. cbn [bindO].
    destruct (vload sa (pageDir e)); try done. cbn [bindO].
    destruct (vstore sa (vd + 4 * e) a); try done. cbn [bindO]. intros ->. exact E.
  - split.
    + intros m' i M Hi. change (set_pmem pm st) with (set_pmem pm st1). rewrite P2, Pe, P1' by done.
      destruct (Z.eqb_spec i e) as [->|]; rewrite ?andb_true_r, ?andb_false_r; [|done].
      destruct (Z.eqb_spec m' m) as [->|]; repeat case_bool_decide; set_solver.
    + intros x Hxm. change (set_pmem pm st) with (set_pmem pm st1). rewrite Q2 by (intros; apply Hxm; set_solver).
      apply (proj2 S1). intros m' ->%list_elem_of_singleton. apply Hxm. set_solver.
Qed.

(** Every address space has the table: the entry is shared again. *)
Lemma shared_all X st st' e : vm_inv_x (fun i => X i \/ i = e) st' -> 768 <= e < 1020 ->
  managers st' = managers st -> shared_out st st' (managers st) e -> vm_inv_x X st'.
Proof.
  intros I He Em [P _]. destruct I as [I1 I2 I3 I4 I5 I6 I7 I8 I9]. split; try done.
  intros m m' i M M' Hi Nx. destruct (decide (i = e)) as [->|].
  - rewrite Em in M, M'. rewrite (P m e M), (P m' e M') by lia.
    by rewrite (bool_decide_eq_true_2 _ M), (bool_decide_eq_true_2 _ M'), Z.eqb_refl.
  - apply I7; try done. tauto.
Qed.

(** Sharing out an empty table changes no page. *)
Lemma shared_pages X st st' l e : vm_inv_x X st -> 1 <= e < 1020 ->
  (forall m, m ∈ l -> m ∈ managers st) -> cr3 st' = cr3 st -> managers st' = managers st ->
  kernelDir st' = kernelDir st -> shared_out st st' l e ->
  (forall m, m ∈ managers st -> pde st m e = 0 \/ pde st m e = pde st (cr3 st) e) ->
  (forall j, 0 <= j -> j / 1024 = e -> pte st (cr3 st) j = 0) -> same_pages st st'.
Proof.
  intros I He Hl E1 E2 E3 [P Q] H0 Hz. split; try done. intros m j Hm [J0 J1].
  assert (K : forall d, pde st m (j / 1024) = d \/ d = pde st (cr3 st) e /\ j / 1024 = e ->
    d <> 0 -> pmem st' (PAGE_ALIGN d + 4 * (j mod 1024)) = pmem st (PAGE_ALIGN d + 4 * (j mod 1024))).
  { intros d Hd Nd. apply Q. intros m' Hm'. destruct Hd as [<-|[-> <-]].
    - apply (slot_fresh X st m' j e m); try done; [by apply Hl|lia|lia].
    - apply (slot_fresh X st m' j (j / 1024) (cr3 st)); try done; [by apply Hl|lia|apply I|lia]. }
  unfold pte. rewrite P by (done || lia).
  destruct (Z.eqb_spec (j / 1024) e) as [Ee|]; rewrite ?andb_true_r, ?andb_false_r.
  2: { destruct (Z.eqb_spec (pde st m (j / 1024)) 0); [done|]. apply K; auto. }
  pose proof (Hz j J0 Ee) as Zj. unfold pte in Zj. rewrite Ee in Zj |- *.
  assert (K' : pde st (cr3 st) e <> 0 -> pmem st' (PAGE_ALIGN (pde st (cr3 st) e) + 4 * (j mod 1024)) = 0).
  { intros N. rewrite K by auto. by destruct (Z.eqb_spec (pde st (cr3 st) e) 0). }
  destruct (H0 m Hm) as [E|E]; rewrite E; destruct (bool_decide (m ∈ l)); try done;
    destruct (Z.eqb_spec (pde st (cr3 st) e) 0); try done; rewrite K' by done; done.
Qed.

Lemma lor_flags a b : 0 <= a < PAGE_SIZE -> 0 <= b < PAGE_SIZE -> Z.odd a = true ->
  0 <= Z.lor a b < PAGE_SIZE /\ Z.odd (Z.lor a b) = true.
Proof.
  unfold PAGE_SIZE. intros Ha Hb Ho. split.
  - split; [apply Z.lor_nonneg; lia|]. destruct (decide (Z.lor a b = 0)) as [->|]; [lia|].
    change 4096 with (2 ^ 12). apply Z.log2_lt_pow2; [assert (0 <= Z.lor a b) by (apply Z.lor_nonneg; lia); lia|].
    rewrite Z.log2_lor by lia. apply Z.max_lub_lt; [destruct (decide (a = 0)) as [->|]|destruct (decide (b = 0)) as [->|]];
      try done; apply Z.log2_lt_pow2; lia.
  - by rewrite <- Z.bit0_odd, Z.lor_spec, !Z.bit0_odd, Ho.
Qed.

(** What making a table does, with at most [k] pages. *)
Record table_made (X : Z -> Prop) (k : nat) st e st' : Prop := {
  tm_inv : vm_inv_x X st';
  tm_pages : same_pages st st';
  tm_pde : pde st' (cr3 st) e <> 0;
  tm_keep : forall m i, m ∈ managers st -> 0 <= i < 1024 -> pde st m i <> 0 -> pde st' m i = pde st m i;
  tm_first : forall m, m ∈ managers st -> pde st' m 0 = pde st m 0;
  tm_free : forall q, page_free (source st') q -> page_free (source st) q;
  tm_count : (page_count (source st) <= k + page_count (source st'))%nat;
}.
Definition only_entry st e st' : Prop :=
  forall m i, m ∈ managers st -> 0 <= i < 1024 -> i <> e -> pde st' m i = pde st m i.

Lemma shared_table_made X k st e st1 pm : vm_inv_x X st -> 768 <= e < 1020 ->
  (forall m, m ∈ managers st -> pde st m e = 0) ->
  table_made (fun i => X i \/ i = e) k st e st1 ->
  (forall m, m ∈ managers st -> m <> cr3 st -> pde st1 m e = pde st m e) ->
  vm_inv_x (fun i => X i \/ i = e) (set_pmem pm st1) ->
  shared_out st1 (set_pmem pm st1) (managers st) e ->
  table_made X k st e (set_pmem pm st1) /\ (only_entry st e st1 -> only_entry st e (set_pmem pm st1)).
Proof.
  intros I He Ab [M1 M2 M3 M4 M7 M5 M6] Hn I2 Sh. pose proof (sp_mgr _ _ M2) as Em. pose proof (sp_cr3 _ _ M2) as Ec.
  rewrite <- Em in Sh. pose proof (proj1 Sh) as Sh1. rewrite Em in Sh1. split; [split; try done|].
  - by apply (shared_all X st1 _ e).
  - apply (same_pages_trans _ st1); [done|]. apply (shared_pages (fun i => X i \/ i = e) st1 _ (managers st1) e);
      try done; [lia| |].
    + rewrite Em. intros m Hm. rewrite Ec. destruct (decide (m = cr3 st)) as [->|]; [by right|left].
      rewrite Hn by done. by apply Ab.
    + intros j J0 Je. rewrite Ec. rewrite (sp_pte _ _ M2); [|apply I|unfold page_no; lia].
      unfold pte. rewrite Je, Ab by apply I. done.
  - rewrite Sh1 by (apply I || lia). rewrite Z.eqb_refl, Ec. destruct (_ && _); done.
  - intros m i Hm Hi Np. rewrite Sh1 by done. destruct (Z.eqb_spec i e) as [->|].
    + by destruct (Np (Ab m Hm)).
    + rewrite andb_false_r. by apply M4.
  - intros m Hm. rewrite Sh1 by (done || lia). destruct (Z.eqb_spec 0 e); [lia|]. rewrite andb_false_r. by apply M7.
  - intros O m i Hm Hi Ni. rewrite Sh1 by done. destruct (Z.eqb_spec i e); [done|].
    rewrite andb_false_r. by apply O.
Qed.

Lemma table_made_trans X k1 k2 st st1 st2 e e2 : table_made X k1 st e st1 -> table_made X k2 st1 e2 st2 ->
  1 <= e < 1020 -> cr3 st ∈ managers st -> table_made X (k1 + k2) st e st2.
Proof.
  intros [A1 A2 A3 A4 A7 A5 A6] [B1 B2 B3 B4 B7 B5 B6] He Hc.
  pose proof (sp_mgr _ _ A2) as Em. split; try done.
  - by apply (same_pages_trans _ st1).
  - rewrite B4; [done|by rewrite Em|lia|done].
  - intros m i Hm Hi Np. rewrite <- (A4 m i) by done. apply B4; [by rewrite Em|done|]. by rewrite A4.
  - intros m Hm. rewrite <- A7 by done. apply B7. by rewrite Em.
  - auto.
  - lia.
Qed.

(** The first half of ensure_table: the new table in the current directory. *)
Record installed (X : Z -> Prop) st e st1 : Prop := {
  in_made : table_made (fun i => X i \/ i = e) 1 st e st1;
  in_only : only_entry st e st1;
  in_cur : forall m, m ∈ managers st -> m <> cr3 st -> pde st1 m e = pde st m e;
}.

Lemma ensure_installed X A e perms st : vm_inv_x X st -> 1 <= e < 1020 -> pde st (cr3 st) e = 0 ->
  0 <= perms < PAGE_SIZE -> Z.odd perms = true -> (768 <= e -> ~ X e) ->
  (ensure_table A e perms st = Panic /\ page_count (source st) = 0%nat)
  \/ exists st1, installed X st e st1 /\
       ensure_table A e perms st = if 768 <=? e then share_table A (managers st) e st1 else Ret st1.
Proof.
  intros I He H0 Hf Ho NX. unfold ensure_table.
  rewrite (vload_dir X) by (done || lia). cbn [bindO]. rewrite H0. cbn [Z.eqb].
  pose proof (page_alloc_spec (source st) (vi_src _ _ I)) as Al.
  destruct (page_alloc (source st)) as [[p w]| | |]; try done; [right|by left]. cbn [bindO].
  destruct Al as (Ow & Fp & Fw & Cw). pose proof (page_free_frame _ _ (vi_src _ _ I) Fp) as Ff.
  rewrite <- Z.lor_assoc.
  destruct (lor_flags perms PAGE_RW Hf ltac:(unfold PAGE_RW, PAGE_SIZE; lia) Ho) as [Hl Hlo].
  destruct (flags_split p (Z.lor perms PAGE_RW) Ff Hl) as (-> & Av & Rv & ->).
  set (v := p + Z.lor perms PAGE_RW) in *.
  assert (Ov : Z.odd v = true).
  { destruct Ff as [Ff _]. unfold v. unfold PAGE_SIZE in Ff. apply Z.mod_divide in Ff as [q ->]; [|lia].
    rewrite Z.odd_add, Z.odd_mul, Hlo. by rewrite andb_false_r. }
  rewrite <- Av in Fp, Fw.
  pose proof (install_run X st e v w I He (conj Rv Ov)) as Run.
  pose proof (install_pde X st e v w I ltac:(lia) Rv Fp) as P1.
  destruct (vstore (set_source w st) (pageDir e) v) as [sa| | |]; try done. cbn [bindO] in Run |- *.
  rewrite Run. cbn [bindO]. exists (install st e v w). split; [|by destruct (768 <=? e)].
  split; [split; try done| |].
  - by apply install_inv.
  - by apply (install_pages X).
  - rewrite (P1 (cr3 st) e (vi_cur _ _ I) ltac:(lia)), !Z.eqb_refl. simpl. intros Ev. by rewrite Ev in Ov.
  - intros m i Hm Hi Np. rewrite P1 by done. destruct (Z.eqb_spec m (cr3 st)) as [->|]; [|done].
    destruct (Z.eqb_spec i e) as [->|]; done.
  - intros m Hm. rewrite P1 by (done || lia). destruct (Z.eqb_spec 0 e); [lia|]. by rewrite andb_false_r.
  - intros q Fq. by destruct (proj1 (Fw q) Fq).
  - simpl. lia.
  - intros m i Hm Hi Ni. rewrite P1 by done. destruct (Z.eqb_spec i e); [done|]. by rewrite andb_false_r.
  - intros m Hm Nm. rewrite P1 by (done || lia). by destruct (Z.eqb_spec m (cr3 st)).
Qed.

Lemma first_unused_pages X st st' t : vm_inv_x X st -> same_pages st st' -> first_unused st t -> first_unused st' t.
Proof.
  intros I Sp (Ht & T0 & Tb). destruct (temp_range t Ht).
  assert (Pg : forall j, TEMP_FIRST <= j < TEMP_LAST -> pte st' (cr3 st') j = pte st (cr3 st) j).
  { intros j Hj. destruct (temp_range j Hj). rewrite (sp_cr3 _ _ Sp).
    apply (sp_pte _ _ Sp); [apply I|]. unfold page_no. lia. }
  split; [done|]. split; [by rewrite Pg|]. intros j Hj. rewrite Pg by lia. by apply Tb.
Qed.

(** The second half, when the window of temporary mappings has its table. *)
Lemma share_all X k d st e st1 t : vm_inv_x X st -> 768 <= e < 1020 ->
  (forall m, m ∈ managers st -> pde st m e = 0) ->
  table_made (fun i => X i \/ i = e) k st e st1 ->
  (forall m, m ∈ managers st -> m <> cr3 st -> pde st1 m e = pde st m e) -> ready st1 t ->
  exists st', share_table (VirtAllocateTemp (S d)) (managers st) e st1 = Ret st'
    /\ table_made X k st e st' /\ (only_entry st e st1 -> only_entry st e st').
Proof.
  intros I He Ab M Hn R. pose proof (sp_mgr _ _ (tm_pages _ _ _ _ _ M)) as Em.
  pose proof (sp_cr3 _ _ (tm_pages _ _ _ _ _ M)) as Ec.
  destruct (share_ready (fun i => X i \/ i = e) d e t He ltac:(by right) (managers st) st1
    (tm_inv _ _ _ _ _ M) R) as (pm & Es & I2 & Sh); [by rewrite Em|rewrite Ec; apply M|].
  exists (set_pmem pm st1). split; [done|]. by apply shared_table_made.
Qed.

Lemma ensure_ready X d e perms st t : vm_inv_x X st -> 1 <= e < 1020 -> pde st (cr3 st) e = 0 ->
  0 <= perms < PAGE_SIZE -> Z.odd perms = true ->
  (768 <= e -> ~ X e /\ first_unused st t /\ (pde st (cr3 st) (t / 1024) <> 0 \/ t / 1024 = e)) ->
  match ensure_table (VirtAllocateTemp (S d)) e perms st with
  | Ret st' => table_made X 1 st e st' /\ only_entry st e st'
  | Panic => page_count (source st) = 0%nat
  | _ => False
  end.
Proof.
  intros I He H0 Hf Ho Hk. assert (NX : 768 <= e -> ~ X e) by (intros; by apply Hk).
  destruct (ensure_installed X (VirtAllocateTemp (S d)) e perms st I He H0 Hf Ho NX)
    as [[-> ?]|(st1 & [M On Cu] & ->)]; [done|].
  destruct (Z.leb_spec 768 e) as [Hk'|Hk'].
  2: { split; [|done]. destruct M as [M1 M2 M3 M4 M7 M5 M6]. split; try done.
       apply (vm_inv_weaken _ _ _ M1). intros i Hi [?| ->]; [done|lia]. }
  destruct (Hk Hk') as (_ & F & Rt). pose proof F as (Ht & _). destruct (temp_range t Ht) as [Tr0 Tr1].
  destruct (share_all X 1 d st e st1 t I ltac:(lia)) as (st' & -> & Hm & Ho'); try done; [| |by auto].
  - intros m Hm. by apply (install_absent X st e).
  - split; [by apply (first_unused_pages X st st1); [|apply M|]|].
    rewrite (sp_cr3 _ _ (tm_pages _ _ _ _ _ M)). destruct (decide (t / 1024 = e)) as [->|Nt]; [apply M|].
    rewrite On by (apply I || lia). by destruct Rt.
Qed.

(** The window's table is missing: the first round makes it. *)
Lemma share_unready X d e st t m l : vm_inv_x X st -> first_unused st t ->
  (forall st2, ensure_table (VirtAllocateTemp d) (t / 1024) 3 st = Ret st2 -> vm_inv_x X st2 /\ ready st2 t) ->
  share_table (VirtAllocateTemp (S d)) (m :: l) e st =
    let* st2 := ensure_table (VirtAllocateTemp d) (t / 1024) 3 st in
    share_table (VirtAllocateTemp (S d)) (m :: l) e st2.
Proof.
  intros I F HR. pose proof F as (Ht & _). destruct (temp_range t Ht) as [T0 T1].
  cbn [share_table]. rewrite (alloc_temp_spec X _ _ _ t) by done. cbn [VirtMemMapPage].
  unfold VirtMemMapPage_body at 1.
  assert (t * PAGE_SIZE < PAGE_TABLES_VA).
  { change PAGE_TABLES_VA with (1023 * 1024 * 4096). unfold PAGE_SIZE. Z.to_euclidean_division_equations; lia. }
  destruct (Z.leb_spec PAGE_TABLES_VA (t * PAGE_SIZE)); [lia|].
  destruct (page_index t 0) as (E1 & E2 & _); [lia|lia|]. rewrite Z.mul_0_r, Z.add_0_r in E1, E2. rewrite E2.
  fold (VirtAllocateTemp (W := W) d).
  change (temp_loop (VirtMemMapPage d) (Z.to_nat ((TEMP_END - TEMP_START) / PAGE_SIZE)) TEMP_START)
    with (VirtAllocateTemp (W := W) d).
  destruct (ensure_table (VirtAllocateTemp d) (t / 1024) 3 st) as [st2| | |]; try done. cbn [bindO].
  destruct (HR st2 eq_refl) as [I2 R2]. rewrite (alloc_temp_ready X d m st2 t) by done. cbn [bindO].
  destruct R2 as [_ Hp]. rewrite E1, (vstore_table X st2) by (done || lia). done.
Qed.

(** Two nested tables at most. *)
Lemma ensure_table_spec X d e perms st t : vm_inv_x X st -> 1 <= e < 1020 ->
  0 <= perms < PAGE_SIZE -> Z.odd perms = true ->
  (768 <= e -> first_unused st t /\ forall i, 768 <= i < 1020 -> ~ X i) ->
  match ensure_table (VirtAllocateTemp (S (S d))) e perms st with
  | Ret st' => table_made X 2 st e st'
  | Panic => (page_count (source st) < 2)%nat
  | _ => False
  end.
Proof.
  intros I He Hf Ho Hk. destruct (decide (pde st (cr3 st) e = 0)) as [H0|H0].
  2: { unfold ensure_table. rewrite (vload_dir X) by (done || lia). cbn [bindO].
       destruct (Z.eqb_spec (pde st (cr3 st) e) 0); [done|]. split; try done; lia. }
  destruct (decide (768 <= e /\ pde st (cr3 st) (t / 1024) = 0 /\ t / 1024 <> e)) as [(K1 & K2 & K3)|N].
  2: { assert (R : 768 <= e -> ~ X e /\ first_unused st t /\ (pde st (cr3 st) (t / 1024) <> 0 \/ t / 1024 = e)).
       { intros Hk'. destruct (Hk Hk') as [F NX]. split_and!; [apply NX; lia|done|].
         destruct (decide (t / 1024 = e)); [by right|left]. intros E. by apply N. }
       pose proof (ensure_ready X (S d) e perms st t I He H0 Hf Ho R) as Q.
       destruct (ensure_table _ _ _ _); try done; [|lia].
       destruct Q as [[Q1 Q2 Q3 Q4 Q7 Q5 Q6] _]. split; try done. lia. }
  destruct (Hk K1) as [F NX]. pose proof F as (Ht & _). destruct (temp_range t Ht) as [Tr0 Tr1].
  destruct (ensure_installed X (VirtAllocateTemp (S (S d))) e perms st I He H0 Hf Ho ltac:(intros; apply NX; lia))
    as [[-> ?]|(st1 & [M On Cu] & ->)]; [lia|].
  destruct (Z.leb_spec 768 e); [|lia].
  pose proof (first_unused_pages X st st1 t I (tm_pages _ _ _ _ _ M) F) as F1.
  pose proof (sp_cr3 _ _ (tm_pages _ _ _ _ _ M)) as Ec1. pose proof (sp_mgr _ _ (tm_pages _ _ _ _ _ M)) as Em1.
  set (X' := fun i => X i \/ i = e) in *. pose proof (tm_inv _ _ _ _ _ M) as I1.
  assert (A1 : pde st1 (cr3 st1) (t / 1024) = 0) by (rewrite Ec1, On by (apply I || lia); done).
  pose proof (ensure_ready X' d (t / 1024) 3 st1 t I1 ltac:(lia) A1 ltac:(unfold PAGE_SIZE; lia) eq_refl) as Q.
  assert (R2 : forall st2, ensure_table (VirtAllocateTemp (S d)) (t / 1024) 3 st1 = Ret st2 ->
    table_made X' 1 st1 (t / 1024) st2 /\ only_entry st1 (t / 1024) st2 /\ ready st2 t).
  { intros st2 E2. rewrite E2 in Q. destruct Q as [Q1 Q2].
    { intros _. split_and!; [|done|by right]. intros [X2|X2]; [by apply (NX (t / 1024)); [lia|]|done]. }
    split_and!; try done. split; [by apply (first_unused_pages X' st1 st2); [|apply Q1|]|].
    rewrite (sp_cr3 _ _ (tm_pages _ _ _ _ _ Q1)). apply Q1. }
  assert (Hml : exists m0 l, managers st = m0 :: l).
  { pose proof (vi_cur _ _ I) as C. destruct (managers st); [by apply not_elem_of_nil in C|eauto]. }
  destruct Hml as (m0 & l & Eml). rewrite Eml, (share_unready X' (S d) e st1 t m0 l I1 F1).
  2: { intros st2 E2. destruct (R2 st2 E2) as (Q1 & _ & Q3). split; [apply Q1|done]. }
  rewrite <- Eml.
  assert (Hx : 768 <= t / 1024 ->
    ~ X' (t / 1024) /\ first_unused st1 t /\ (pde st1 (cr3 st1) (t / 1024) <> 0 \/ t / 1024 = t / 1024)).
  { intros _. split_and!; [|done|by right]. intros [X2|X2]; [by apply (NX (t / 1024)); [lia|]|done]. }
  specialize (Q Hx).
  destruct (ensure_table (VirtAllocateTemp (S d)) (t / 1024) 3 st1) as [st2| | |] eqn:E2; try done; cbn [bindO].
  2: { pose proof (tm_count _ _ _ _ _ M). lia. }
  destruct (R2 st2 eq_refl) as (M2 & On2 & Rd).
  destruct (share_all X 2 (S d) st e st2 t I ltac:(lia)) as (st' & -> & Hm & _); try done.
  - intros m Hm. apply (install_absent X st e); try done. intros; apply NX; lia.
  - apply (table_made_trans X' 1 1 st st1 st2 e (t / 1024)); done || apply I.
  - intros m Hm Nm. rewrite On2 by (rewrite ?Em1; done || lia). by apply Cu.
Qed.

(** *** The mapping of one page *)

Record page_mapped (k : nat) st j v st' : Prop := {
  pm_inv : vm_inv st';
  pm_cr3 : cr3 st' = cr3 st;
  pm_mgr : managers st' = managers st;
  pm_kdir : kernelDir st' = kernelDir st;
  pm_pte : forall m i, m ∈ managers st -> page_no i ->
    pte st' m i = if (i =? j) && ((m =? cr3 st) || (768 <=? j / 1024)) then v else pte st m i;
  pm_first : forall m, m ∈ managers st -> pde st' m 0 = pde st m 0
    /\ (pde st m 768 <> 0 -> pde st' m 768 = pde st m 768);
  pm_free : forall q, page_free (source st') q -> page_free (source st) q;
  pm_count : (page_count (source st) <= k + page_count (source st'))%nat;
}.

(** A kernel page is made in every address space. *)
Lemma VirtMemMapPage_spec d st j phys perms :
  vm_inv st -> 0 <= j -> 1 <= j / 1024 < 1020 -> 0 <= perms < PAGE_SIZE -> Z.odd perms = true ->
  (768 <= j / 1024 -> exists t, first_unused st t) ->
  match VirtMemMapPage (S (S (S d))) (j * PAGE_SIZE) phys perms st with
  | Ret (r, st') => r = 0 /\ page_mapped 2 st j (u32 (Z.lor phys perms)) st'
      /\ pde st' (cr3 st) (j / 1024) <> 0
  | Panic => (page_count (source st) < 2)%nat
  | _ => False
  end.
Proof.
  intros I J0 J1 Hf Ho Hk. cbn [VirtMemMapPage]. unfold VirtMemMapPage_body.
  destruct (page_index j 0) as (E1 & E2 & _); [lia|lia|]. rewrite Z.mul_0_r, Z.add_0_r in E1, E2.
  assert (j * PAGE_SIZE < PAGE_TABLES_VA).
  { change PAGE_TABLES_VA with (1023 * 1024 * 4096). unfold PAGE_SIZE. Z.to_euclidean_division_equations; lia. }
  destruct (Z.leb_spec PAGE_TABLES_VA (j * PAGE_SIZE)); [lia|]. rewrite E1, E2.
  change (temp_loop (VirtMemMapPage (S (S d))) (Z.to_nat ((TEMP_END - TEMP_START) / PAGE_SIZE)) TEMP_START)
    with (VirtAllocateTemp (W := W) (S (S d))).
  assert (Ht : exists t, 768 <= j / 1024 -> first_unused st t /\ forall i, 768 <= i < 1020 -> ~ False).
  { destruct (decide (768 <= j / 1024)) as [Hk'|]; [|by exists 0]. destruct (Hk Hk') as [t Ft]. exists t. auto. }
  destruct Ht as [t Ht].
  pose proof (ensure_table_spec (fun _ => False) d (j / 1024) perms st t I J1 Hf Ho Ht) as Q.
  destruct (ensure_table _ _ _ _) as [st1| | |]; try done. cbn [bindO].
  destruct Q as [I1 Sp P1 K1 Z1 F1 C1]. pose proof (sp_cr3 _ _ Sp) as Ec. pose proof (sp_mgr _ _ Sp) as Em.
  rewrite <- Ec in P1. rewrite (vstore_table (fun _ => False) st1) by (done || lia). cbn [bindO].
  destruct (table_write (fun _ => False) st1 j (u32 (Z.lor phys perms)) I1 J0 J1 P1) as (I2 & P2 & T2).
  split; [done|]. split; [|by rewrite <- Ec, P2 by (apply I1 || lia)].
  split; try done; try apply Sp.
  2: { intros m Hm. rewrite !P2 by (rewrite ?Em; done || lia). split; [by apply Z1|]. by apply K1; [|lia]. }
  intros m i Hm Hi. rewrite T2 by (rewrite ?Em; done). rewrite Ec, (sp_pte _ _ Sp) by done.
  destruct (Z.eqb_spec i j) as [->|]; [|done].
  destruct (Z.eqb_spec m (cr3 st)) as [->|Nm].
  { rewrite Ec in P1. by destruct (Z.eqb_spec (pde st1 (cr3 st) (j / 1024)) 0). }
  destruct (Z.leb_spec 768 (j / 1024)) as [Hk'|]; [|by rewrite andb_false_r].
  rewrite <- Em in Hm.
  rewrite (vi_shared _ _ I1 m (cr3 st1) (j / 1024) Hm (vi_cur _ _ I1) ltac:(lia) (fun F => F)).
  by destruct (Z.eqb_spec (pde st1 (cr3 st1) (j / 1024)) 0).
Qed.

(** *** Finding unused pages *)

(** The invariant and a page left in the window. *)
Definition vm_ready st : Prop := vm_inv st /\ exists t, first_unused st t.

Lemma alloc_ready st : vm_ready st ->
  match page_alloc (source st) with
  | Ret (p, w) => vm_ready (set_source w st) /\ frame_ok p
      /\ (forall q, page_free w q -> page_free (source st) q)
      /\ page_count (source st) = S (page_count w)
  | Panic => page_count (source st) = 0%nat
  | _ => False
  end.
Proof.
  intros [I [t Ft]]. pose proof (page_alloc_spec (source st) (vi_src _ _ I)) as Al.
  destruct (page_alloc (source st)) as [[p w]| | |]; try done. destruct Al as (Ow & Fp & Fw & Cw).
  split_and!; try done; [|by apply (page_free_frame _ _ (vi_src _ _ I))|intros q Hq; by apply Fw].
  split; [|by exists t]. destruct I as [I1 I2 I3 I4 I5 I6 I7 I8 I9]. split; try done.
  - intros m e Hm He Hp. destruct (I4 m e Hm He Hp) as (A & B & C & D). split_and!; try done; try apply A.
    intros Hf. apply Fw in Hf as [Hf _]. done.
  - intros q Hq. apply Fw in Hq as [Hq _]. by apply I8.
Qed.

(** Pages below the window. *)
Definition low_page (j : Z) : Prop := 0 <= j /\ 1 <= j / 1024 < 960.

Lemma mapped_ready k st j v st' : vm_ready st -> page_mapped k st j v st' -> low_page j -> vm_ready st'.
Proof.
  intros [I [t (Ht & T0 & Tb)]] M [J0 J1]. split; [apply M|]. exists t.
  assert (E : forall i, TEMP_FIRST <= i < TEMP_LAST -> pte st' (cr3 st') i = pte st (cr3 st) i).
  { intros i Hi. destruct (temp_range i Hi). rewrite (pm_cr3 _ _ _ _ _ M), (pm_pte _ _ _ _ _ M);
      [|apply I|unfold page_no; lia]. destruct (Z.eqb_spec i j) as [->|]; [lia|done]. }
  split; [done|]. split; [by rewrite E|]. intros i Hi. rewrite E by lia. by apply Tb.
Qed.

Lemma next_page j : low_page j -> u32 (j * PAGE_SIZE + PAGE_SIZE) = (j + 1) * PAGE_SIZE.
Proof.
  intros [J0 J1]. rewrite u32_id; [lia|]. unfold PAGE_SIZE. Z.to_euclidean_division_equations; lia.
Qed.

Lemma map_first_spec d perms pg : 0 <= perms < PAGE_SIZE -> Z.odd perms = true ->
  forall fuel st j n, vm_ready st -> (j < n -> low_page j) -> n <= 960 * 1024 -> 0 <= j ->
  match map_first fuel (S (S (S d))) (j * PAGE_SIZE) (n * PAGE_SIZE) pg perms st with
  | Ret (v, st') => (v = 0 /\ st' = st /\ forall i, j <= i < n -> pte st (cr3 st) i <> 0)
      \/ (exists i, j <= i < n /\ v = i * PAGE_SIZE /\ pte st (cr3 st) i = 0
           /\ (forall i', j <= i' < i -> pte st (cr3 st) i' <> 0)
           /\ page_mapped 2 st i (u32 (Z.lor pg perms)) st')
  | Panic => (page_count (source st) < 2)%nat
  | NoFuel => Z.of_nat fuel <= Z.max 0 (n - j)
  | Fault => False
  end.
Proof.
  intros Hf Ho. induction fuel as [|fuel IH]; intros st j n Rd Hl Hn Hj; cbn [map_first]; [lia|].
  assert (0 < PAGE_SIZE) by (unfold PAGE_SIZE; lia).
  destruct (Z.ltb_spec (j * PAGE_SIZE) (n * PAGE_SIZE)) as [Hlt|Hge].
  2: { left. split_and!; try done. intros i Hi. nia. }
  assert (Hjn : j < n) by nia. pose proof (Hl Hjn) as [J0 J1]. destruct Rd as [I Ht].
  rewrite (unused_spec (fun _ => False)) by (done || lia). cbn [bindO].
  destruct (Z.eqb_spec (pte st (cr3 st) j) 0) as [E|E].
  - pose proof (VirtMemMapPage_spec d st j pg perms I J0 ltac:(lia) Hf Ho ltac:(auto)) as Q.
    destruct (VirtMemMapPage _ _ _ _ _) as [[r st']| | |]; try done. cbn [bindO].
    destruct Q as (_ & Q & _). right. exists j. split_and!; try done; try lia. 
  - rewrite next_page by done.
    assert (Hl' : j + 1 < n -> low_page (j + 1)) by (unfold low_page; Z.to_euclidean_division_equations; lia).
    pose proof (IH st (j + 1) n (conj I Ht) Hl' Hn ltac:(lia)) as Q.
    destruct (map_first _ _ _ _ _ _ _) as [[v st']| | |]; try done; [|lia].
    destruct Q as [(-> & -> & Q)|(i & Hi & -> & Q1 & Q2 & Q3)]; [left|right].
    + split_and!; try done. intros i Hi. destruct (decide (i = j)) as [->|]; [done|]. apply Q. lia.
    + exists i. split_and!; try done; try lia. intros i' Hi'. destruct (decide (i' = j)) as [->|]; [done|]. apply Q2. lia.
Qed.

(** [s] starts [k] unused pages below [n]. *)
Definition unused_run st (s k n : Z) : Prop :=
  s + k <= n /\ forall i, s <= i < s + k -> pte st (cr3 st) i = 0.

Lemma find_run_spec N v0 st n : vm_inv st -> 0 < N < 2 ^ 20 -> n <= 960 * 1024 ->
  forall fuel j start c s, v0 <= j <= n -> 0 <= j -> (j < n -> low_page j) -> 0 < c <= N ->
  s + (N - c) = j -> v0 <= s -> unused_run st s (N - c) j -> (c < N -> start = s * PAGE_SIZE) ->
  (forall s', v0 <= s' -> unused_run st s' N n -> s <= s') ->
  match find_run fuel (j * PAGE_SIZE) (n * PAGE_SIZE) N start c st with
  | Ret (i, start', c') =>
      (c' = 0 /\ i <> n * PAGE_SIZE /\ exists s, start' = s * PAGE_SIZE /\ v0 <= s /\ unused_run st s N n)
      \/ (0 < c' /\ i = n * PAGE_SIZE /\ forall s, v0 <= s -> ~ unused_run st s N n)
  | NoFuel => Z.of_nat fuel <= n - j
  | _ => False
  end.
Proof.
  intros I HN Hn. assert (HP : 0 < PAGE_SIZE) by (unfold PAGE_SIZE; lia).
  induction fuel as [|fuel IH]; intros j start c s Hj J0 Hl Hc Hs Hv [_ Hu] Hst Hmin; cbn [find_run]; [lia|].
  destruct (Z.ltb_spec (j * PAGE_SIZE) (n * PAGE_SIZE)) as [Hlt|Hge].
  2: { right. assert (j = n) by nia. subst j. split_and!; [lia|nia|]. intros s' Hs' Hr.
       pose proof (Hmin s' Hs' Hr). destruct Hr. lia. }
  assert (Hjn : j < n) by nia. pose proof (Hl Hjn) as L. pose proof L as [_ J1].
  assert (Hl' : j + 1 < n -> low_page (j + 1)) by (unfold low_page; Z.to_euclidean_division_equations; lia).
  rewrite (unused_spec (fun _ => False)) by (done || lia). cbn [bindO]. rewrite next_page by done.
  change (2 ^ 20) with 1048576 in HN.
  destruct (Z.eqb_spec (pte st (cr3 st) j) 0) as [E|E].
  - rewrite (u32_id (c - 1)) by lia.
    assert (Es : (if c =? N then j * PAGE_SIZE else start) = s * PAGE_SIZE)
      by (destruct (Z.eqb_spec c N); [f_equal; lia|apply Hst; lia]).
    assert (Hu' : unused_run st s (N - (c - 1)) (j + 1)).
    { split; [lia|]. intros i Hi. destruct (decide (i = j)) as [->|]; [done|]. apply Hu. lia. }
    rewrite Es. destruct (Z.eqb_spec (c - 1) 0) as [Ec|Nc].
    + left. split_and!; [done|nia|]. exists s. split_and!; try done. destruct Hu' as [_ Hu'].
      split; [lia|]. intros i Hi. apply Hu'. lia.
    + specialize (IH (j + 1) (s * PAGE_SIZE) (c - 1) s ltac:(lia) ltac:(lia) Hl' ltac:(lia) ltac:(lia)
        Hv Hu' ltac:(done) Hmin).
      destruct (find_run _ _ _ _ _ _ _) as [[[i st'] c']| | |]; try done. lia.
  - assert (Hmin' : forall s', v0 <= s' -> unused_run st s' N n -> j + 1 <= s').
    { intros s' Hs' Hr. pose proof (Hmin s' Hs' Hr). destruct (decide (j + 1 <= s')); [done|].
      exfalso. apply E. destruct Hr as [_ Hr]. apply Hr. lia. }
    specialize (IH (j + 1) start N (j + 1) ltac:(lia) ltac:(lia) Hl' ltac:(lia) ltac:(lia) ltac:(lia)
      ltac:(split; [lia|intros; lia]) ltac:(lia) Hmin').
    destruct (find_run _ _ _ _ _ _ _) as [[[i st'] c']| | |]; try done. lia.
Qed.

Lemma map_run_spec d perms : 0 <= perms < PAGE_SIZE -> Z.odd perms = true ->
  forall fuel st j e, vm_ready st -> j <= e -> e <= 960 * 1024 -> 0 <= j -> (j < e -> low_page j) ->
  match map_run fuel (S (S (S d))) (j * PAGE_SIZE) (e * PAGE_SIZE) perms st with
  | Ret st' => vm_ready st' /\ cr3 st' = cr3 st /\ managers st' = managers st
      /\ (forall i, page_no i -> pte st' (cr3 st) i <> 0 <-> pte st (cr3 st) i <> 0 \/ j <= i < e)
  | Panic => Z.of_nat (page_count (source st)) < 3 * (e - j)
  | NoFuel => Z.of_nat fuel <= e - j
  | Fault => False
  end.
Proof.
  intros Hf Ho. assert (HP : 0 < PAGE_SIZE) by (unfold PAGE_SIZE; lia).
  induction fuel as [|fuel IH]; intros st j e Rd Hje He J0 Hl; cbn [map_run]; [lia|].
  destruct (Z.ltb_spec (j * PAGE_SIZE) (e * PAGE_SIZE)) as [Hlt|Hge].
  2: { split_and!; try done. intros i _. split; [by left|]. intros [?|?]; [done|nia]. }
  assert (Hjn : j < e) by nia. pose proof (Hl Hjn) as L. pose proof L as [_ J1].
  assert (Hl' : j + 1 < e -> low_page (j + 1)) by (unfold low_page; Z.to_euclidean_division_equations; lia).
  pose proof (alloc_ready st Rd) as Al. destruct (page_alloc (source st)) as [[p w]| | |]; try done; cbn [bindO]; [|lia].
  destruct Al as (Rd1 & Fp & _ & Cw). destruct Rd1 as [I1 Ht1].
  pose proof (VirtMemMapPage_spec d (set_source w st) j p perms I1 J0 ltac:(lia) Hf Ho ltac:(auto)) as Q.
  destruct (VirtMemMapPage _ _ _ _ _) as [[r st1]| | |]; try done; cbn [bindO]; [|simpl in Q; lia].
  destruct Q as (_ & M & _). pose proof (mapped_ready _ _ _ _ _ (conj I1 Ht1) M L) as Rd2.
  rewrite next_page by done.
  destruct M as [M1 M2 M3 M4 M5 M8 M6 M7]. simpl in M2, M3, M5, M6, M7.
  specialize (IH st1 (j + 1) e Rd2 ltac:(lia) He ltac:(lia) Hl').
  destruct (map_run _ _ _ _ _ _) as [st'| | |]; try done; try lia.
  destruct IH as (R' & E1 & E2 & E3). split_and!; try congruence; try done.
  intros i Hi. rewrite M2 in E3. rewrite E3 by done.
  rewrite (M5 (cr3 st) i) by (done || apply I1). rewrite Z.eqb_refl, andb_true_r.
  destruct (Z.eqb_spec i j) as [->|Ni].
  - split; [lia|]. intros _. left.
    destruct (flags_split p perms Fp Hf) as (-> & _ & _ & ->). destruct Fp as [_ Fp].
    intros E. assert (perms = 0) as -> by lia. done.
  - change (pte (set_source w st) (cr3 st) i) with (pte st (cr3 st) i). split; intros [?|?]; auto; right; lia.
Qed.

(** *** The interface of the slab allocator *)

(** Page numbers of an aligned request. *)
Lemma request_pages virt endVirt perms : page_request virt endVirt perms -> virt <= endVirt ->
  exists j n, virt = j * PAGE_SIZE /\ endVirt = n * PAGE_SIZE /\ j <= n /\ 1024 <= j /\ n <= 960 * 1024
    /\ (forall i, j <= i < n -> low_page i).
Proof.
  unfold page_request. intros (H1 & H2 & H3 & H4 & _) Hle. unfold PAGE_SIZE in *.
  exists (virt / 4096), (endVirt / 4096). split_and!; try (Z.to_euclidean_division_equations; lia).
  intros i Hi. unfold low_page. Z.to_euclidean_division_equations; lia.
Qed.

Definition VirtMapPhysRange_post st (n v : Z) (j e : Z) st' : Prop :=
  (v = 0 /\ st' = st /\ forall s, j <= s -> ~ unused_run st s n e)
  \/ exists s, v = s * PAGE_SIZE /\ j <= s /\ unused_run st s n e
       /\ vm_ready st' /\ cr3 st' = cr3 st /\ managers st' = managers st
       /\ (forall i, page_no i -> pte st' (cr3 st) i <> 0 <-> pte st (cr3 st) i <> 0 \/ s <= i < s + n).

Lemma VirtMapPhysRange_spec fuel d j e n perms st : vm_ready st -> 0 <= perms < PAGE_SIZE ->
  Z.odd perms = true -> 0 < n < 2 ^ 20 -> j <= e -> 0 <= j -> e <= 960 * 1024 ->
  (forall i, j <= i < e -> low_page i) ->
  match VirtMapPhysRange fuel (S (S (S d))) (j * PAGE_SIZE) (e * PAGE_SIZE) n perms st with
  | Ret (v, st') => VirtMapPhysRange_post st n v j e st'
  | Panic => Z.of_nat (page_count (source st)) < 3 * n
  | NoFuel => Z.of_nat fuel <= Z.max (e - j) n
  | Fault => False
  end.
Proof.
  intros Rd Hf Ho HN Hje J0 He Hl. unfold VirtMapPhysRange.
  pose proof (find_run_spec n j st e (proj1 Rd) HN He fuel j 0 n j ltac:(lia) J0 ltac:(intros; apply Hl; lia)
    ltac:(lia) ltac:(lia) ltac:(lia) ltac:(split; [lia|intros; lia]) ltac:(lia) ltac:(auto)) as Q.
  destruct (find_run _ _ _ _ _ _ _) as [[[i s'] c']| | |]; try done; cbn [bindO]; [|lia].
  destruct Q as [(-> & Ni & s & -> & Hs & Hr)|(Hc & -> & Hno)].
  2: { rewrite Z.eqb_refl. left. by split_and!. }
  destruct (Z.eqb_spec i (e * PAGE_SIZE)); [done|]. cbn [c_true Z.eqb negb].
  destruct Hr as [Hse Hu]. change (2 ^ 20) with 1048576 in HN.
  rewrite (u32_id (n * PAGE_SIZE)), u32_id by (unfold PAGE_SIZE; lia).
  rewrite <- Z.mul_add_distr_r.
  pose proof (map_run_spec d perms Hf Ho fuel st s (s + n) Rd ltac:(lia) ltac:(lia) ltac:(lia)
    ltac:(intros; apply Hl; lia)) as Q.
  destruct (map_run _ _ _ _ _ _) as [st'| | |]; try done; cbn [bindO]; try lia.
  right. exists s. destruct Q as (Q1 & Q2 & Q3 & Q4). split_and!; try done.
Qed.
End Mapping.

(** ** The page allocator as a source of pages *)

(** The allocator's state with the free frames it represents. *)
Definition pg_source (M : Type) : Type := pgstate M * free_lists.

#[export] Instance pg_PageSource {M} `{LO : ListOps M} : PageSource (pg_source M) := {|
  page_alloc w :=
    let* (p, st) := PageAlloc.PageAlloc (fst w) in
    let* addr := of_option (physAddr st !! p) in
    match spec_alloc (snd w) with Ret (_, f) => Ret (addr, (st, f)) | _ => Panic end;
  page_ok w := pg_inv (fst w) (snd w);
  page_free w q := exists i, q = Z.shiftl i 12 /\ i ∈ free_pages (snd w);
  page_count w := (length (normal_pages (snd w)) + (length (isa_pages (snd w)) - 4))%nat;
|}.

Lemma spec_alloc_count f :
  match spec_alloc f with
  | Ret (_, f') => (length (normal_pages f) + (length (isa_pages f) - 4)
                    = S (length (normal_pages f') + (length (isa_pages f') - 4)))%nat
  | Panic => (length (normal_pages f) + (length (isa_pages f) - 4) = 0)%nat
  | _ => False
  end.
Proof.
  destruct f as [xs [|y ys]]; unfold spec_alloc; simpl; [|lia].
  destruct (Nat.ltb_spec (length xs) 5); [lia|]. destruct xs; simpl in *; lia.
Qed.

Lemma free_frame {M} `{LL : ListLaws M} (st : pgstate M) f i : pg_inv st f -> i ∈ free_pages f ->
  0 <= i < maxPfn st.
Proof.
  intros I Hi. apply elem_of_app in Hi as [Hi|Hi].
  - apply (stack_frame_range Normal), (stack_frames st f Normal); done.
  - apply (stack_frame_range Isa), (stack_frames st f Isa); done.
Qed.

#[export] Instance pg_PageSourceLaws {M} `{LL : ListLaws M} : PageSourceLaws (pg_source M).
Proof.
  split.
  - intros [st f] p I (i & -> & Hi). simpl in *. pose proof (free_frame st f i I Hi) as R.
    pose proof (st_pfn _ (inv_static _ _ I)) as Pf. change (2 ^ 20) with 1048576 in Pf. unfold frame_ok, PAGE_SIZE.
    rewrite Z.shiftl_mul_pow2 by lia. change (2 ^ 12) with 4096. rewrite Z.mod_mul by lia. lia.
  - intros [st f] I. simpl in *. pose proof (PageAlloc_spec st f I) as A. pose proof (spec_alloc_count f) as C.
    destruct (spec_alloc f) as [[i f']| | |] eqn:Es; try done; [|by rewrite A].
    destruct A as (st' & E & I'). pose proof (PageAlloc_maxPfn _ _ _ E) as Em. rewrite E. cbn [bindO].
    destruct (spec_alloc_perm _ _ _ Es) as (k & Hk & Hp).
    pose proof (free_pages_nodup st f I) as N. rewrite Hp in N. apply NoDup_cons in N as [Ni _].
    assert (Hi : i ∈ free_pages f) by (rewrite Hp; left).
    pose proof (free_frame st f i I Hi) as R. rewrite <- Em in R.
    rewrite (st_phys _ (inv_static _ _ I') i R). cbn [of_option bindO fst snd].
    split_and!; try done.
    + by exists i.
    + intros q. split.
      * intros (i' & -> & Hi'). split; [exists i'; split; [done|rewrite Hp; by right]|].
        intros Eq. apply (f_equal (fun x => Z.shiftr x 12)) in Eq.
        pose proof (free_frame st' f' i' I' Hi').
        rewrite !shiftr_shiftl_12 in Eq by lia. congruence.
      * intros [(i' & -> & Hi') Nq]. exists i'. split; [done|]. rewrite Hp in Hi'.
        apply elem_of_cons in Hi' as [->|]; done.
Qed.

(** ** Paging as the slab allocator's interface *)

(** [fuel] bounds the loops over the address space. *)
Section Interface.
Context {W : Type} `{PL : PageSourceLaws W} (fuel : nat).

#[local] Instance virt_PageMapper : PageMapper (vmem W) := {|
  vm_map_page virt endVirt perms := VirtMapPhysPage fuel 3 virt endVirt perms;
  vm_map_range virt endVirt n perms := VirtMapPhysRange fuel 3 virt endVirt n perms;
  vm_mapped st a := page_no (a / PAGE_SIZE) /\ pte st (cr3 st) (a / PAGE_SIZE) <> 0;
  vm_ok := vm_ready;
|}.

(** New page entries as a set of addresses. *)
Lemma fresh_of_pages (st st' : vmem W) s n j e : cr3 st' = cr3 st ->
  j <= s -> unused_run st s n e -> (forall i, s <= i < s + n -> low_page i) ->
  (forall i, page_no i -> pte st' (cr3 st) i <> 0 <-> pte st (cr3 st) i <> 0 \/ s <= i < s + n) ->
  fresh_range (j * PAGE_SIZE) (e * PAGE_SIZE) n st (s * PAGE_SIZE) st'.
Proof.
  intros Ec Hs [Hse Hu] Hl Hp Hv. unfold PAGE_SIZE in *.
  assert (D : forall a, s * 4096 <= a < s * 4096 + n * 4096 <-> s <= a / 4096 < s + n)
    by (intros a; Z.to_euclidean_division_equations; lia).
  split_and!; try lia; try (by rewrite Z.mod_mul by lia).
  - intros a Ha. simpl. unfold PAGE_SIZE. intros [_ N]. apply N, Hu. by apply D.
  - intros a. simpl. unfold PAGE_SIZE. rewrite Ec, D. split.
    + intros [Pg N]. apply Hp in N as [N|N]; auto.
    + intros [[Pg N]|Ha]; [split; [done|]; apply Hp; auto|].
      assert (page_no (a / 4096)) by (destruct (Hl _ Ha); unfold page_no; lia).
      split; [done|]. apply Hp; auto.
Qed.

#[local] Instance virt_PageMapperLaws : PageMapperLaws (vmem W).
Proof.
  split.
  - intros virt endVirt perms st v st' Rd Rq E. simpl in E. unfold VirtMapPhysPage in E.
    pose proof (alloc_ready st Rd) as Al. destruct (page_alloc (source st)) as [[p w]| | |]; try done.
    destruct Al as (Rd1 & Fp & _ & _). cbn [bindO] in E.
    destruct (Z.leb_spec virt endVirt) as [Hle|Hgt].
    2: { destruct fuel; [done|]. cbn [map_first] in E.
         destruct (Z.ltb_spec virt endVirt); [lia|]. injection E as <- <-. split; [done|]. by intros []. }
    destruct (request_pages _ _ _ Rq Hle) as (j & e & -> & -> & Hje & Hj & He & Hl).
    destruct Rq as (_ & _ & _ & _ & Hf & Ho).
    pose proof (map_first_spec 0 perms p Hf Ho fuel (set_source w st) j e Rd1
      ltac:(intros; apply Hl; lia) He ltac:(lia)) as Q.
    rewrite E in Q. destruct Q as [(-> & -> & _)|(i & Hi & -> & H0 & _ & M)]; [split; [done|by intros []]|].
    pose proof (mapped_ready _ _ _ _ _ Rd1 M ltac:(apply Hl; lia)) as Rd'.
    split; [done|]. apply fresh_of_pages; [apply M|lia| |intros; apply Hl; lia|].
    + split; [lia|]. intros i' Hi'. replace i' with i by lia. exact H0.
    + intros i' Hi'. pose proof (pm_pte _ _ _ _ _ M (cr3 st) i' (vi_cur _ _ (proj1 Rd)) Hi') as ->. simpl.
      rewrite Z.eqb_refl, andb_true_r. change (pte (set_source w st) (cr3 st) i') with (pte st (cr3 st) i').
      destruct (Z.eqb_spec i' i) as [->|]; [|split; [by left|intros [?|?]; [done|lia]]].
      split; [intros _; right; lia|intros _].
      destruct (flags_split p perms Fp Hf) as (-> & _ & _ & ->). destruct Fp as [_ Fp].
      intros E0. assert (perms = 0) as -> by lia. done.
  - intros virt endVirt n perms st v st' Rd Rq Hn E. simpl in E.
    destruct (Z.leb_spec virt endVirt) as [Hle|Hgt].
    2: { unfold VirtMapPhysRange in E. destruct fuel; [done|].
         cbn [find_run] in E. destruct (Z.ltb_spec virt endVirt); [lia|]. cbn [bindO] in E.
         destruct (virt =? endVirt); [injection E as <- <-; split; [done|by intros []]|].
         destruct (c_true n) eqn:Cn; [injection E as <- <-; split; [done|by intros []]|].
         apply c_true_false in Cn. lia. }
    destruct (request_pages _ _ _ Rq Hle) as (j & e & -> & -> & Hje & Hj & He & Hl).
    destruct Rq as (_ & _ & _ & _ & Hf & Ho).
    pose proof (VirtMapPhysRange_spec fuel 0 j e n perms st Rd Hf Ho Hn Hje ltac:(lia) He Hl) as Q.
    rewrite E in Q. destruct Q as [(-> & -> & _)|(s & -> & Hs & Hr & Rd' & Ec & _ & Hp)];
      [split; [done|by intros []]|].
    split; [done|]. destruct Hr as [Hse Hr]. apply fresh_of_pages; try done. intros; apply Hl; lia.
Qed.
End Interface.

(** ** Properties *)

Section Properties.
Context {W : Type} `{PL : PageSourceLaws W}.
Implicit Types st : vmem W.

(** A kernel page has the same entry in every address space. *)
Lemma pte_shared st m j : vm_inv st -> m ∈ managers st -> 768 <= j / 1024 < 1020 ->
  pte st m j = pte st (cr3 st) j.
Proof.
  intros I Hm Hj. unfold pte.
  by rewrite (vi_shared _ _ I m (cr3 st) (j / 1024) Hm (vi_cur _ _ I) Hj (fun F => F)).
Qed.

Lemma unmap_spec st j : vm_inv st -> 0 <= j -> 1 <= j / 1024 < 1020 ->
  exists st', VirtUnmapPhysPage (j * PAGE_SIZE) st = Ret st' /\ page_mapped 0 st j 0 st'.
Proof.
  intros I J0 J1. unfold VirtUnmapPhysPage.
  destruct (page_index j 0) as (E1 & _); [lia|lia|]. rewrite Z.mul_0_r, Z.add_0_r in E1. rewrite E1.
  rewrite (unused_spec (fun _ => False)) by (done || lia). cbn [bindO].
  destruct (Z.eqb_spec (pte st (cr3 st) j) 0) as [E|E].
  - exists st. split; [done|]. split; try done. intros m i Hm Hi.
    destruct (Z.eqb_spec i j) as [->|]; [|done]. destruct (Z.eqb_spec m (cr3 st)) as [->|]; [done|].
    destruct (Z.leb_spec 768 (j / 1024)); [|done]. simpl. by rewrite (pte_shared st m j) by (done || lia).
  - assert (Hp : pde st (cr3 st) (j / 1024) <> 0).
    { intros E0. apply E. unfold pte. by rewrite E0. }
    rewrite (vstore_table (fun _ => False)) by (done || lia). eexists. split; [done|].
    destruct (table_write (fun _ => False) st j 0 I J0 J1 Hp) as (I2 & P2 & T2).
    split; try done; [|intros m Hm; rewrite !P2 by (done || lia); done]. intros m i Hm Hi. rewrite T2 by done.
    destruct (Z.eqb_spec i j) as [->|]; [|done].
    destruct (Z.eqb_spec m (cr3 st)) as [->|]; [by destruct (Z.eqb_spec (pde st (cr3 st) (j / 1024)) 0)|].
    destruct (Z.leb_spec 768 (j / 1024)); [|by rewrite andb_false_r].
    rewrite (vi_shared _ _ I m (cr3 st) (j / 1024) Hm (vi_cur _ _ I) ltac:(lia) (fun F => F)).
    by destruct (Z.eqb_spec (pde st (cr3 st) (j / 1024)) 0).
Qed.

(** Pages of the first directory entry where it names the first kernel
    table. *)
Lemma pte_alias st m i : 0 <= i < 1024 -> pde st m 0 = pde st m 768 -> pte st m i = pte st m (768 * 1024 + i).
Proof.
  intros Hi E. unfold pte. rewrite (Z.add_comm (768 * 1024)), Z.div_add, Z.mod_add, Z.div_small by lia. by rewrite Z.add_0_l, E.
Qed.

(** C3: VirtMemMapPage maps a page of the directory entries 1 to 1019, with two
    pages free for tables and, for a kernel page, an unused page in the
    window of temporary mappings: afterwards the processor translates the
    page's addresses to the frame - in the current address space, and for a
    kernel page in every address space - and every other page of every
    address space from the second directory entry up to the window of the
    page tables has the entry it had, although page tables may have been
    allocated, shared out through temporary mappings and unmapped again on
    the way.  The first directory entry stays as it was: where it is that of
    the first kernel table, as VirtMemManagerInit leaves it, page [i] below
    1024 is page [768 * 1024 + i] before and after, so that mapping the page
    at 0xC0000000 also maps page 0; where it is 0, no page below 1024 is
    mapped. *)
Theorem VirtMemMapPage_maps d st j phys perms :
  vm_inv st -> 0 <= j -> 1 <= j / 1024 < 1020 -> frame_ok phys ->
  0 <= perms < PAGE_SIZE -> Z.odd perms = true ->
  (768 <= j / 1024 -> exists t, first_unused st t) -> (2 <= page_count (source st))%nat ->
  exists st', VirtMemMapPage (S (S (S d))) (j * PAGE_SIZE) phys perms st = Ret (0, st')
    /\ vm_inv st' /\ cr3 st' = cr3 st /\ managers st' = managers st
    /\ (forall m k, m ∈ managers st -> m = cr3 st \/ 768 <= j / 1024 -> 0 <= k < 1024 ->
          walk m (pmem st') (j * PAGE_SIZE + 4 * k) = Some (phys + 4 * k))
    /\ (forall m i, m ∈ managers st -> page_no i -> i <> j \/ (m <> cr3 st /\ j / 1024 < 768) ->
          pte st' m i = pte st m i)
    /\ (forall m, m ∈ managers st -> pde st' m 0 = pde st m 0)
    /\ (forall m i, m ∈ managers st -> 0 <= i < 1024 ->
          (pde st m 0 = 0 -> pte st' m i = 0)
          /\ (pde st m 0 = pde st m 768 -> pde st m 0 <> 0 ->
              pte st m i = pte st m (768 * 1024 + i) /\ pte st' m i = pte st' m (768 * 1024 + i))).
Proof.
  intros I J0 J1 Fp Hf Ho Hk Hc. pose proof (VirtMemMapPage_spec d st j phys perms I J0 J1 Hf Ho Hk) as Q.
  destruct (VirtMemMapPage _ _ _ _ _) as [[r st']| | |]; try done; [|lia].
  destruct Q as (-> & [M1 M2 M3 M4 M5 M8 M6 M7] & Pd). exists st'. split_and!; try done.
  - intros m k Hm Hmk Hk'. destruct (flags_split phys perms Fp Hf) as (EL & EA & ER & EU).
    assert (Pm : pte st' m j = phys + perms).
    { rewrite M5 by (done || (unfold page_no; lia)). rewrite EL, EU, Z.eqb_refl.
      destruct Hmk as [->|Hmk]; [by rewrite Z.eqb_refl|]. destruct (Z.leb_spec 768 (j / 1024)); [|lia].
      by rewrite orb_true_r. }
    assert (Od : Z.odd (phys + perms) = true).
    { destruct Fp as [Fp _]. unfold PAGE_SIZE in Fp. apply Z.mod_divide in Fp as [q ->]; [|lia].
      rewrite Z.odd_add, Z.odd_mul, Ho. by rewrite andb_false_r. }
    assert (Pd' : pde st' m (j / 1024) <> 0).
    { intros E0. unfold pte in Pm. rewrite E0 in Pm. simpl in Pm. by rewrite <- Pm in Od. }
    rewrite <- M3 in Hm. rewrite (walk_mapped (fun _ => False) st' M1 m j k Hm) by (done || lia || by rewrite Pm).
    by rewrite Pm, EA.
  - intros m i Hm Hi Hn. rewrite M5 by done. destruct (Z.eqb_spec i j) as [->|]; [|done].
    destruct Hn as [|[Hn1 Hn2]]; [done|]. destruct (Z.eqb_spec m (cr3 st)); [done|].
    by destruct (Z.leb_spec 768 (j / 1024)); [lia|].
  - intros m Hm. by apply M8.
  - intros m i Hm Hi. destruct (M8 m Hm) as [Z1 K1]. split.
    + intros E0. unfold pte. rewrite Z.div_small by lia. by rewrite Z1, E0.
    + intros E N. split; apply pte_alias; try done. rewrite Z1, K1; congruence.
Qed.

(** VirtMapPhysRange terminates and, when a row of [n] unused pages
    exists in the window it is given, maps new pages at such a row and
    nowhere else, and otherwise returns 0 and changes nothing. *)
Theorem VirtMapPhysRange_total fuel d virt endVirt n perms st :
  vm_ready st -> page_request virt endVirt perms -> virt <= endVirt -> 0 < n < 2 ^ 20 ->
  2 ^ 20 < Z.of_nat fuel -> 3 * n <= Z.of_nat (page_count (source st)) ->
  exists v st', VirtMapPhysRange fuel (S (S (S d))) virt endVirt n perms st = Ret (v, st')
    /\ VirtMapPhysRange_post st n v (virt / PAGE_SIZE) (endVirt / PAGE_SIZE) st'.
Proof.
  intros Rd Rq Hle Hn Hfu Hc.
  destruct (request_pages _ _ _ Rq Hle) as (j & e & -> & -> & Hje & Hj & He & Hl).
  destruct Rq as (_ & _ & _ & _ & Hf & Ho).
  pose proof (VirtMapPhysRange_spec fuel d j e n perms st Rd Hf Ho Hn Hje ltac:(lia) He Hl) as Q.
  rewrite !Z.div_mul by (unfold PAGE_SIZE; lia).
  destruct (VirtMapPhysRange _ _ _ _ _ _ _) as [[v st']| | |]; try done; [by exists v, st'|lia|].
  change (2 ^ 20) with 1048576 in *. lia.
Qed.

(** Unmapping a page that VirtMemMapPage mapped leaves every page of
    every address space as it was before. *)
Theorem VirtUnmapPhysPage_undoes d st st' j phys perms r :
  vm_inv st -> 0 <= j -> 1 <= j / 1024 < 1020 -> 0 <= perms < PAGE_SIZE -> Z.odd perms = true ->
  (768 <= j / 1024 -> exists t, first_unused st t) -> pte st (cr3 st) j = 0 ->
  VirtMemMapPage (S (S (S d))) (j * PAGE_SIZE) phys perms st = Ret (r, st') ->
  exists st'', VirtUnmapPhysPage (j * PAGE_SIZE) st' = Ret st'' /\ vm_inv st'' /\ same_pages st st''.
Proof.
  intros I J0 J1 Hf Ho Hk H0 E. pose proof (VirtMemMapPage_spec d st j phys perms I J0 J1 Hf Ho Hk) as Q.
  rewrite E in Q. destruct Q as (_ & [M1 M2 M3 M4 M5 M8 M6 M7] & Pd).
  destruct (unmap_spec st' j M1 J0 J1) as (st'' & Eu & [N1 N2 N3 N4 N5 N8 N6 N7]).
  exists st''. split_and!; try done. split; try congruence.
  intros m i Hm Hi. rewrite N5, M5, M2 by (done || by rewrite M3).
  destruct (Z.eqb_spec i j) as [->|]; [|done]. destruct (Z.eqb_spec m (cr3 st)) as [->|]; [done|].
  destruct (Z.leb_spec 768 (j / 1024)); [|done]. simpl. by rewrite (pte_shared st m j) by (done || lia).
Qed.
End Properties.

(** ** A machine with one address space *)

(** Pages from a list. *)
#[export] Instance list_source : PageSource (list Z) := {|
  page_alloc l := match l with x :: l => Ret (x, l) | [] => Panic end;
  page_ok l := NoDup l /\ Forall frame_ok l;
  page_free l q := q ∈ l;
  page_count l := length l;
|}.
#[export] Instance list_source_laws : PageSourceLaws (list Z).
Proof.
  split.
  - intros l p [_ F] Hp. by apply (proj1 (Forall_forall _ _) F).
  - intros [|x l] [N F]; [done|]. simpl. apply NoDup_cons in N as [Nx N]. apply Forall_cons in F as [_ F].
    split_and!; try done; [left|]. intros q. rewrite elem_of_cons. split; [|tauto].
    intros Hq. split; [by right|]. congruence.
Qed.

Definition demo_vmem : vmem (list Z) := {|
  cr3 := 0x1000; pmem := fun a => if a =? 0x1000 + 4 * 1023 then 0x1003 else 0;
  managers := [0x1000]; kernelDir := 0x1000; source := [0x2000; 0x3000; 0x4000; 0x5000; 0x6000; 0x7000];
|}.

Lemma demo_pde e : 0 <= e < 1023 -> pde demo_vmem 0x1000 e = 0.
Proof.
  intros He. unfold pde, demo_vmem. cbn [pmem].
  by destruct (Z.eqb_spec (0x1000 + 4 * e) (0x1000 + 4 * 1023)); [lia|].
Qed.

Lemma demo_ready : vm_ready demo_vmem.
Proof.
  split.
  - split.
    + by left.
    + intros m ->%list_elem_of_singleton. vm_compute; intuition congruence.
    + intros m ->%list_elem_of_singleton. vm_compute; intuition congruence.
    + intros m e ->%list_elem_of_singleton He Hp. by rewrite demo_pde in Hp.
    + intros m m' e e' ->%list_elem_of_singleton _ He _ Hp. by rewrite demo_pde in Hp by lia.
    + intros m m' e ->%list_elem_of_singleton _ He. rewrite demo_pde by lia. by left.
    + by intros m m' e ->%list_elem_of_singleton ->%list_elem_of_singleton.
    + intros q Hq ->%list_elem_of_singleton. vm_compute in Hq. set_solver.
    + split; [|by repeat constructor]. apply (bool_decide_unpack _). by vm_compute.
  - exists TEMP_FIRST. split; [by vm_compute|]. split; [by vm_compute|]. intros j Hj. lia.
Qed.

(** The first page of the slab area: two tables are made. *)
Lemma VirtMemMapPage_maps_witness : exists st',
  VirtMemMapPage 3 (0xC0000 * PAGE_SIZE) 0x7000 3 demo_vmem = Ret (0, st')
  /\ walk 0x1000 (pmem st') (0xC0000 * PAGE_SIZE + 4 * 5) = Some (0x7000 + 4 * 5).
Proof.
  destruct (VirtMemMapPage_maps 0 demo_vmem 0xC0000 0x7000 3 (proj1 demo_ready))
    as (st' & E & _ & _ & _ & H & _); [lia|by vm_compute|by vm_compute|by vm_compute|done| |simpl; lia|].
  - intros _. apply demo_ready.
  - exists st'. split; [exact E|]. apply H; [by left|by left|lia].
Defined.

Lemma VirtMapPhysRange_total_witness : exists v st',
  VirtMapPhysRange (Z.to_nat 1048577) 3 0xC0000000 0xD0000000 2 3 demo_vmem = Ret (v, st').
Proof.
  destruct (VirtMapPhysRange_total (Z.to_nat 1048577) 0 0xC0000000 0xD0000000 2 3 demo_vmem demo_ready)
    as (v & st' & E & _); [by vm_compute|lia|lia|rewrite Z2Nat.id; lia|simpl; lia|].
  exists v, st'. exact E.
Defined.

Lemma VirtUnmapPhysPage_undoes_witness : exists st' st'',
  VirtMemMapPage 3 (0x800 * PAGE_SIZE) 0x7000 7 demo_vmem = Ret (0, st')
  /\ VirtUnmapPhysPage (0x800 * PAGE_SIZE) st' = Ret st'' /\ same_pages demo_vmem st''.
Proof.
  destruct (VirtMemMapPage 3 (0x800 * PAGE_SIZE) 0x7000 7 demo_vmem) as [[r st']| | |] eqn:E.
  2,3,4: exfalso; vm_compute in E; congruence.
  destruct (VirtUnmapPhysPage_undoes 0 demo_vmem st' 0x800 0x7000 7 r (proj1 demo_ready))
    as (st'' & E2 & _ & Sp);
    [lia|by vm_compute|by vm_compute|reflexivity|intros []; reflexivity|vm_compute; reflexivity|exact E|].
  exists st', st''. split_and!; try done. vm_compute in E. congruence.
Defined.
