(* ===== verification/Vmm.v ===== *)
(** * Memory areas and page faults (memory/vmm.c, include/vmm.h)

    A process has a list of memory areas ordered by start address.  The
    kernel looks addresses up in it to check user pointers
    (VirtCheckArea) and to satisfy page faults (MmapHandleFault of
    memory/mmap.c, VmHandleNoPage), sharing read-only pages of a file
    through the list of mapped pages of its vNode.  The list is given as
    the sequence of its entries (LList relates the pointers to it). *)

From S2P Require Import Prelude.
From Stdlib Require Import Sorted.

(** ** Model *)

Definition VM_PROTECTION : Z := 1.
Definition VM_WRITE : Z := 2.
Definition VM_USER : Z := 4.
Definition MMAP_PRIVATE : Z := 0.
Definition MMAP_SHARED : Z := 1.
Definition MMAP_FIXED : Z := 2.
Definition MMAP_GROWDOWN : Z := 4.
Definition MMAP_ANON : Z := 8.
Definition MMAP_BASE : Z := 0x800000.
Definition MMAP_END : Z := 0xC0000000.
Definition PAGE_LOCKED : Z := 0.
(** include/user_acc.h *)
Definition VER_WRITE : Z := 1.

(** [vNode] and [areaOps] are pointers, 0 for NULL. *)
Record VMArea := {
  start : Z;
  alength : Z;
  aoffset : Z;
  flags : Z;
  protection : Z;
  vNode : Z;
  areaOps : Z;
}.

#[export] Instance VMArea_eq_dec : EqDecision VMArea.
Proof. solve_decision. Defined.

(** [area->start+area->length] *)
Definition area_end (a : VMArea) : Z := u32 (start a + alength a).

(** The area that contains the address and the entries after it. *)
Fixpoint VmLookupAddress (areaList : list VMArea) (address : Z) : option (VMArea * list VMArea) :=
  match areaList with
  | [] => None
  | curr :: rest =>
      if address <? start curr then None
      else if (start curr <=? address) && (address <? area_end curr) then Some (curr, rest)
      else VmLookupAddress rest address
  end.

(** The loop over the following areas. *)
Fixpoint check_loop (area : VMArea) (next : list VMArea) (begin size mask : Z) : Z :=
  if negb (c_true (Z.land (protection area) PAGE_RW)) && c_true (Z.land mask VER_WRITE)
  then - EFAULT
  else if negb (c_true (Z.land (protection area) PAGE_USER)) then - EFAULT
  else if size <=? u32 (area_end area - begin) then 0
  else match next with
       | [] => - EFAULT
       | nx :: rest =>
           if negb (start nx =? area_end area) then - EFAULT
           else check_loop nx rest begin size mask
       end.

Definition VirtCheckArea (areaList : list VMArea) (begin size mask : Z) : Z :=
  if size =? 0 then 0
  else match VmLookupAddress areaList begin with
       | None => - EFAULT
       | Some (area, next) =>
           if negb (c_true (Z.land (protection area) PAGE_RW)) && c_true (Z.land mask VER_WRITE)
           then - EFAULT
           else if size <=? u32 (area_end area - begin) then 0
           else check_loop area next begin size mask
       end.

(** *** Pages of files *)

(** [mp_page] is the physical address of the page. *)
Record VMMapPage := { mp_offset : Z; mp_flags : Z; mp_page : Z }.

(** What page faults read and change: the page table of the current address
    space, the shared lists and reference counts of the vNodes, the
    reference counts of the pages, the page allocator. *)
Record vmst (P : Type) := {
  page_table : gmap Z Z;
  sharedList : gmap Z (list VMMapPage);
  vnode_refs : gmap Z Z;
  page_refs : gmap Z Z;
  pager : P;
}.
Arguments page_table {P} _.
Arguments sharedList {P} _.
Arguments vnode_refs {P} _.
Arguments page_refs {P} _.
Arguments pager {P} _.

Definition PageLocked (p : VMMapPage) : bool := Z.testbit (mp_flags p) PAGE_LOCKED.

Fixpoint find_offset (l : list VMMapPage) (offset : Z) : option VMMapPage :=
  match l with
  | [] => None
  | p :: l => if mp_offset p =? offset then Some p else find_offset l offset
  end.

(** Remove the first page with the physical address. *)
Fixpoint remove_page (l : list VMMapPage) (physAddr : Z) : option (VMMapPage * list VMMapPage) :=
  match l with
  | [] => None
  | p :: l =>
      if mp_page p =? physAddr then Some (p, l)
      else match remove_page l physAddr with
           | Some (q, l) => Some (q, p :: l)
           | None => None
           end
  end.

Section Faults.
Context {P : Type}.
(** The page allocator (pg_alloc.c) and its address result; reading the
    page of a file into a mapped page (fileOps->mMap or
    FileGenericReadPage), 0 on success; areaOps->handleNoPage, 0 when it
    handled the fault. *)
Variable PageAlloc : P -> outcome (Z * P).
Variable read_page : Z -> Z -> Z -> Z.
Variable handleNoPage : Z -> VMArea -> Z -> Z -> option Z.
Implicit Types st : vmst P.

Definition set_pt m st : vmst P :=
  {| page_table := m; sharedList := sharedList st; vnode_refs := vnode_refs st;
     page_refs := page_refs st; pager := pager st |}.
Definition set_shared m st : vmst P :=
  {| page_table := page_table st; sharedList := m; vnode_refs := vnode_refs st;
     page_refs := page_refs st; pager := pager st |}.
Definition set_page_refs m st : vmst P :=
  {| page_table := page_table st; sharedList := sharedList st; vnode_refs := vnode_refs st;
     page_refs := m; pager := pager st |}.
Definition set_pager p st : vmst P :=
  {| page_table := page_table st; sharedList := sharedList st; vnode_refs := vnode_refs st;
     page_refs := page_refs st; pager := p |}.

(** VirtMemMapPage on a user address: the table entry of the page. *)
Definition map_page (virt phys perms : Z) st : vmst P :=
  set_pt (<[Z.shiftr virt 12 := Z.lor phys perms]> (page_table st)) st.

(** A locked page is waited for: another thread has to unlock it. *)
Definition VmWaitForPage (p : VMMapPage) st : outcome (vmst P) :=
  if PageLocked p then NoFuel else Ret st.

Definition VmLookupPage (vn offset : Z) st : outcome (option VMMapPage * vmst P) :=
  if vn =? 0 then Ret (None, st)
  else
    let* r := of_option (vnode_refs st !! vn) in
    let l := default [] (sharedList st !! vn) in
    if (r =? 1) || match l with [] => true | _ => false end then Ret (None, st)
    else match find_offset l offset with
         | None => Ret (None, st)
         | Some p =>
             let* rc := of_option (page_refs st !! mp_page p) in
             let st := set_page_refs (<[mp_page p := s32 (rc + 1)]> (page_refs st)) st in
             let* st := VmWaitForPage p st in
             Ret (Some p, st)
         end.

Definition VmCreateMappedPage (offset page : Z) : VMMapPage :=
  {| mp_offset := offset; mp_flags := 0; mp_page := page |}.

Definition VmFreeMappedPage (vn physAddr : Z) st : outcome (Z * vmst P) :=
  if vn =? 0 then Ret (- EFAULT, st)
  else match remove_page (default [] (sharedList st !! vn)) physAddr with
       | Some (p, l) =>
           let* st := VmWaitForPage p st in
           Ret (0, set_shared (<[vn := l]> (sharedList st)) st)
       | None => Ret (- ENOENT, st)
       end.

Definition VmLockPage (p : VMMapPage) st : outcome (VMMapPage * vmst P) :=
  if PageLocked p then NoFuel
  else Ret ({| mp_offset := mp_offset p; mp_flags := Z.setbit (mp_flags p) PAGE_LOCKED;
               mp_page := mp_page p |}, st).

Definition VmUnlockPage (p : VMMapPage) : VMMapPage :=
  {| mp_offset := mp_offset p; mp_flags := Z.clearbit (mp_flags p) PAGE_LOCKED;
     mp_page := mp_page p |}.

Definition VmHandleNoPage (area : VMArea) (address : Z) st : outcome (Z * vmst P) :=
  let offset := u32 (u32 (address - start area) + aoffset area) in
  if (negb (areaOps area =? 0)) &&
     match handleNoPage (areaOps area) area address offset with Some 0 => true | _ => false end
  then Ret (0, st)
  else if c_true (Z.land (protection area) PAGE_RW) then
    if c_true (Z.land (flags area) MMAP_SHARED) then Panic
    else
      let* (phys, p) := PageAlloc (pager st) in
      let st := map_page address phys (protection area) (set_pager p st) in
      if read_page (vNode area) address offset =? 0 then Ret (0, st) else Ret (- EIO, st)
  else
    let perms := Z.lor (Z.lor (protection area) PAGE_ACCESSED) PAGE_SHARED in
    let* (found, st) := VmLookupPage (vNode area) offset st in
    match found with
    | None =>
        let* (phys, p) := PageAlloc (pager st) in
        let st := map_page address phys perms (set_pager p st) in
        let* (mappedPage, st) := VmLockPage (VmCreateMappedPage offset phys) st in
        let ret := read_page (vNode area) address offset in
        let mappedPage := VmUnlockPage mappedPage in
        let st := set_shared
          (<[vNode area := mappedPage :: default [] (sharedList st !! vNode area)]> (sharedList st))
          st in
        Ret (ret, st)
    | Some mp => Ret (0, map_page address (mp_page mp) perms st)
    end.

Definition VmProtFault : Z := - EFAULT.

Definition MmapHandleFault (areaList : option (list VMArea)) (address error : Z) st
  : outcome (Z * vmst P) :=
  let address := PAGE_ALIGN address in
  match areaList with
  | None => Ret (- EFAULT, st)
  | Some l =>
      if address <? PAGE_SIZE then Ret (- EFAULT, st)
      else match VmLookupAddress l address with
           | None => Ret (- EFAULT, st)
           | Some (area, _) =>
               if negb (c_true (Z.land (protection area) PAGE_RW)) && c_true (Z.land error VM_WRITE)
               then Ret (- EFAULT, st)
               else if negb (c_true (Z.land (protection area) PAGE_USER))
                       && c_true (Z.land error VM_USER)
               then Ret (- EFAULT, st)
               else if c_true (Z.land error VM_PROTECTION) then Ret (VmProtFault, st)
               else VmHandleNoPage area address st
           end
  end.
End Faults.

(** ** Well-formed area lists *)

Definition area_ok (a : VMArea) : Prop :=
  0 <= start a /\ 0 < alength a /\ start a + alength a < 2 ^ 32.

Definition in_area (a : VMArea) (x : Z) : Prop := start a <= x < start a + alength a.

(** Ordered by address and disjoint. *)
Definition areas_ok (l : list VMArea) : Prop :=
  Forall area_ok l /\ StronglySorted (fun a b => start a + alength a <= start b) l.

Definition writable (a : VMArea) : Prop := c_true (Z.land (protection a) PAGE_RW) = true.

(** ** Lemmas *)

Lemma area_end_eq a : area_ok a -> area_end a = start a + alength a.
Proof. intros (? & ? & ?). unfold area_end. apply u32_id. lia. Qed.

Lemma areas_ok_cons a l : areas_ok (a :: l) <->
  area_ok a /\ areas_ok l /\ Forall (fun b => start a + alength a <= start b) l.
Proof.
  unfold areas_ok. rewrite Forall_cons. split.
  - intros [[? ?] S]. apply StronglySorted_inv in S as [? ?]. tauto.
  - intros (? & [? ?] & ?). split; [done|]. by constructor.
Qed.

(** The lookup is exact on a well-formed list. *)
Lemma VmLookupAddress_spec l x : areas_ok l ->
  match VmLookupAddress l x with
  | Some (a, rest) => in_area a x /\ exists pre, l = pre ++ a :: rest
  | None => forall a, a ∈ l -> ~ in_area a x
  end.
Proof.
  induction l as [|c l IH]; intros W; cbn [VmLookupAddress].
  - intros a H. by apply not_elem_of_nil in H.
  - apply areas_ok_cons in W as (Oc & Wl & F). rewrite Forall_forall in F.
    rewrite (area_end_eq c Oc). destruct (Z.ltb_spec x (start c)).
    + intros a Ha. destruct Oc as (_ & ? & _). apply elem_of_cons in Ha as [->|Ha];
        [|specialize (F a Ha)]; unfold in_area; lia.
    + destruct (Z.leb_spec (start c) x), (Z.ltb_spec x (start c + alength c)); cbn [andb]; try lia.
      * split; [split; lia|]. by exists [].
      * specialize (IH Wl). destruct (VmLookupAddress l x) as [[a rest]|].
        -- destruct IH as [? [pre ->]]. split; [done|]. by exists (c :: pre).
        -- intros a Ha. apply elem_of_cons in Ha as [->|Ha]; [unfold in_area; lia|auto].
Qed.

Lemma area_in_suffix l pre a rest : areas_ok l -> l = pre ++ a :: rest ->
  areas_ok (a :: rest) /\ a ∈ l.
Proof.
  intros W ->. split; [|apply elem_of_app; right; left].
  induction pre as [|p pre IH]; [done|]. apply IH. by apply areas_ok_cons in W as (_ & ? & _).
Qed.

(** A chain of adjacent areas that covers [begin, begin+size). *)
Lemma check_loop_sound next : forall a begin size mask, areas_ok (a :: next) ->
  start a <= begin + size -> begin < start a + alength a -> 0 <= begin ->
  check_loop a next begin size mask = 0 ->
  forall x, Z.max begin (start a) <= x < begin + size ->
    exists b, b ∈ a :: next /\ in_area b x
      /\ (c_true (Z.land mask VER_WRITE) = true -> writable b).
Proof.
  induction next as [|nx rest IH]; intros a begin size mask W H1 H2 H0 E x Hx.
  all: apply areas_ok_cons in W as (Oa & Wn & F).
  all: cbn [check_loop] in E; rewrite (area_end_eq a Oa) in E.
  all: unfold area_ok in Oa.
  all: destruct (negb (c_true (Z.land (protection a) PAGE_RW)) && _) eqn:C1; [done|].
  all: destruct (negb (c_true (Z.land (protection a) PAGE_USER))); [done|].
  all: rewrite u32_id in E by lia.
  all: assert (Wr : c_true (Z.land mask VER_WRITE) = true -> writable a)
    by (intros Hm; rewrite Hm, andb_true_r in C1; by apply negb_false_iff in C1).
  all: assert (Here : x < start a + alength a -> forall l, exists b, b ∈ a :: l /\ in_area b x /\
    (c_true (Z.land mask VER_WRITE) = true -> writable b))
    by (intros; exists a; split; [left|split; [split; lia|done]]).
  all: destruct (Z.leb_spec size (start a + alength a - begin)); [apply Here; lia|].
  - done.
  - destruct (Z.eqb_spec (start nx) (start a + alength a)) as [En|]; [|done]. cbn [negb] in E.
    destruct (decide (x < start a + alength a)) as [|Hge]; [by apply Here|].
    apply Forall_cons in F as [_ _]. pose proof Wn as Wn'. apply areas_ok_cons in Wn' as ((? & ? & ?) & _).
    destruct (IH nx begin size mask Wn) with (x := x) as (b & Hb & Hin & Hw); try done; try lia.
    exists b. split; [by right|done].
Qed.

(** The check succeeds whenever every byte is in an accessible area. *)
Lemma check_loop_complete next : forall a begin size mask, areas_ok (a :: next) ->
  begin < start a + alength a -> 0 <= begin -> 0 < size ->
  (forall x, Z.max begin (start a) <= x < begin + size ->
    exists b, b ∈ a :: next /\ in_area b x) ->
  Forall (fun b => c_true (Z.land (protection b) PAGE_USER) = true /\ writable b) (a :: next) ->
  check_loop a next begin size mask = 0.
Proof.
  induction next as [|nx rest IH]; intros a begin size mask W H2 H0 Hs Hc Hp.
  all: apply areas_ok_cons in W as (Oa & Wn & F).
  all: cbn [check_loop]; rewrite (area_end_eq a Oa). all: unfold area_ok in Oa.
  all: apply Forall_cons in Hp as [[Hu Hw] Hp]; unfold writable in Hw; rewrite Hu, Hw; cbn [negb andb].
  all: rewrite u32_id by lia. all: destruct (Z.leb_spec size (start a + alength a - begin)); [done|].
  all: destruct (Hc (start a + alength a)) as (b & Hb & Hin); [lia|].
  all: apply elem_of_cons in Hb as [->|Hb]; [unfold in_area in Hin; lia|].
  - by apply not_elem_of_nil in Hb.
  - rewrite Forall_forall in F. pose proof (F nx ltac:(left)) as Fn.
    pose proof Wn as Wn'. apply areas_ok_cons in Wn' as (On & _ & Fr). rewrite Forall_forall in Fr.
    assert (En : start nx = start a + alength a).
    { apply elem_of_cons in Hb as [->|Hb]; [unfold in_area in Hin; lia|].
      specialize (Fr b Hb). unfold in_area, area_ok in *. lia. }
    rewrite En, Z.eqb_refl. cbn [negb]. unfold area_ok in On.
    apply IH; try done; try lia. intros x Hx. destruct (Hc x ltac:(lia)) as (d & Hd & Hi).
    apply elem_of_cons in Hd as [->|Hd]; [unfold in_area in Hi; lia|by exists d].
Qed.

Section FaultLemmas.
Context {P : Type}.
Implicit Types st : vmst P.

Lemma VmLookupPage_pt vn offset st r st' :
  VmLookupPage vn offset st = Ret (r, st') -> page_table st' = page_table st.
Proof.
  unfold VmLookupPage. destruct (_ =? 0); [by intros [= <- <-]|]. intros E. inv_outcome.
  destruct (_ || _); [by inv_outcome|]. destruct (find_offset _ _) as [p|]; [|by inv_outcome].
  inv_outcome. unfold VmWaitForPage in *. destruct (PageLocked p); [done|]. by inv_outcome.
Qed.

(** A satisfied missing-page fault sets the table entry of the page. *)
Lemma VmHandleNoPage_maps pa rd hnp a address st st' : areaOps a = 0 ->
  VmHandleNoPage pa rd hnp a address st = Ret (0, st') ->
  exists phys, page_table st' = <[Z.shiftr address 12 :=
    Z.lor phys (if c_true (Z.land (protection a) PAGE_RW) then protection a
                else Z.lor (Z.lor (protection a) PAGE_ACCESSED) PAGE_SHARED)]> (page_table st).
Proof.
  intros Ho E. unfold VmHandleNoPage in E. rewrite Ho in E. cbn [Z.eqb negb andb] in E.
  destruct (c_true (Z.land (protection a) PAGE_RW)).
  - destruct (c_true (Z.land (flags a) MMAP_SHARED)); [done|].
    destruct (pa (pager st)) as [[phys p]| | |]; cbn [bindO] in E; [|done..].
    destruct (rd _ _ _ =? 0); [|done]. inv_outcome. by exists phys.
  - destruct (VmLookupPage _ _ st) as [[found st1]| | |] eqn:El; cbn [bindO] in E; [|done..].
    apply VmLookupPage_pt in El. destruct found as [mp|].
    + inv_outcome. exists (mp_page mp). simpl. by rewrite El.
    + destruct (pa (pager st1)) as [[phys p]| | |]; cbn [bindO] in E; [|done..].
      unfold VmLockPage in E. cbn in E. inv_outcome. exists phys. simpl. by rewrite El.
Qed.
End FaultLemmas.

(** ** Properties *)

(** C25: A range VirtCheckArea accepts is accessible: on a well-formed area
    list, result 0 means that every byte of [begin, begin+size) lies in an
    area of the process, and in a writable one when write access is asked
    for. *)
Theorem VirtCheckArea_sound l begin size mask :
  areas_ok l -> 0 <= begin -> 0 <= size ->
  VirtCheckArea l begin size mask = 0 ->
  forall x, begin <= x < begin + size ->
    exists a, a ∈ l /\ in_area a x /\ (c_true (Z.land mask VER_WRITE) = true -> writable a).
Proof.
  intros W Hb Hs E x Hx. unfold VirtCheckArea in E. destruct (Z.eqb_spec size 0); [lia|].
  pose proof (VmLookupAddress_spec l begin W) as L.
  destruct (VmLookupAddress l begin) as [[a rest]|]; [|done]. destruct L as [Hin [pre El]].
  destruct (area_in_suffix l pre a rest W El) as [Wa Ha].
  destruct (negb (c_true (Z.land (protection a) PAGE_RW)) && _) eqn:C1; [done|].
  pose proof Wa as Wa'. apply areas_ok_cons in Wa' as (Oa & _). unfold in_area in Hin.
  rewrite (area_end_eq a Oa) in E. unfold area_ok in Oa. rewrite u32_id in E by lia.
  destruct (Z.leb_spec size (start a + alength a - begin)).
  - exists a. split_and!; [done|unfold in_area; lia|].
    intros Hm. rewrite Hm, andb_true_r in C1. by apply negb_false_iff in C1.
  - destruct (check_loop_sound rest a begin size mask Wa) with (x := x)
      as (b & Hb' & Hi & Hw); try done; try lia.
    exists b. split_and!; [|done|done]. rewrite El. apply elem_of_app. by right.
Qed.

(** Two adjacent writable areas. *)
Definition demo_areas : list VMArea :=
  [{| start := 0x800000; alength := 0x1000; aoffset := 0; flags := 0; protection := 7;
      vNode := 1; areaOps := 0 |};
   {| start := 0x801000; alength := 0x2000; aoffset := 0; flags := 0; protection := 7;
      vNode := 2; areaOps := 0 |}].

Lemma demo_areas_ok : areas_ok demo_areas.
Proof. split; repeat constructor; simpl; lia. Qed.

Lemma VirtCheckArea_sound_witness :
  exists a, a ∈ demo_areas /\ in_area a 0x801100.
Proof.
  destruct (VirtCheckArea_sound demo_areas 0x800800 0x2000 VER_WRITE demo_areas_ok)
    with (x := 0x801100) as (a & Ha & Hi & _); [lia|lia|reflexivity|lia|].
  exists a. split; [exact Ha|exact Hi].
Defined.

(** VirtCheckArea refuses nothing it should accept: when every byte of
    the range is in an area and the areas of the process are writable user
    areas, the result is 0. *)
Theorem VirtCheckArea_complete l begin size mask :
  areas_ok l -> 0 <= begin -> 0 <= size ->
  Forall (fun a => c_true (Z.land (protection a) PAGE_USER) = true /\ writable a) l ->
  (forall x, begin <= x < begin + size -> exists a, a ∈ l /\ in_area a x) ->
  VirtCheckArea l begin size mask = 0.
Proof.
  intros W Hb Hs Hp Hc. unfold VirtCheckArea. destruct (Z.eqb_spec size 0); [done|].
  pose proof (VmLookupAddress_spec l begin W) as L.
  destruct (VmLookupAddress l begin) as [[a rest]|].
  2: { destruct (Hc begin ltac:(lia)) as (a & Ha & Hi). by destruct (L a Ha). }
  destruct L as [Hin [pre El]]. destruct (area_in_suffix l pre a rest W El) as [Wa Ha].
  pose proof Hp as Hp'. rewrite Forall_forall in Hp'. destruct (Hp' a Ha) as [Hu Hw].
  unfold writable in Hw. rewrite Hw. cbn [negb andb].
  destruct (_ <=? _); [done|]. unfold in_area in Hin.
  apply check_loop_complete; try done; try lia.
  - intros x Hx. destruct (Hc x ltac:(lia)) as (b & Hb' & Hi). exists b. split; [|done].
    rewrite El in Hb'. apply elem_of_app in Hb' as [Hb'|Hb']; [exfalso|done].
    (* an area before [a] ends before it *)
    assert (start b + alength b <= start a).
    { destruct W as [_ S]. rewrite El in S. clear -S Hb'.
      induction pre as [|p pre IH]; [by apply not_elem_of_nil in Hb'|].
      apply StronglySorted_inv in S as [S F]. rewrite Forall_forall in F.
      apply elem_of_cons in Hb' as [->|Hb']; [|by apply IH].
      apply F, elem_of_app. right. left. }
    unfold in_area in Hi. lia.
  - rewrite El in Hp. by apply Forall_app in Hp as [_ ?].
Qed.

Lemma VirtCheckArea_complete_witness : VirtCheckArea demo_areas 0x800800 0x2000 VER_WRITE = 0.
Proof.
  apply (VirtCheckArea_complete demo_areas 0x800800 0x2000 VER_WRITE demo_areas_ok); [lia|lia| |].
  - repeat constructor.
  - intros x Hx. destruct (decide (x < 0x801000)).
    + eexists; split; [left|]. unfold in_area. simpl. lia.
    + eexists; split; [right; left|]. unfold in_area. simpl. lia.
Defined.

(** A page fault is satisfied only where the access is allowed: when
    MmapHandleFault returns 0, the page belongs to an area of the process,
    the fault was not a protection violation, a write faulted in a
    writable area and a user access in a user area; and, unless the area
    handles its own faults, the page's table entry is now a page with
    exactly the area's protection (and the accessed and shared marks for a
    shared read-only page), no other entry having changed. *)
Theorem MmapHandleFault_safe {P} pa rd hnp l address error (st st' : vmst P) :
  areas_ok l ->
  MmapHandleFault pa rd hnp (Some l) address error st = Ret (0, st') ->
  exists a, a ∈ l /\ in_area a (PAGE_ALIGN address)
    /\ c_true (Z.land error VM_PROTECTION) = false
    /\ (c_true (Z.land error VM_WRITE) = true -> writable a)
    /\ (c_true (Z.land error VM_USER) = true -> c_true (Z.land (protection a) PAGE_USER) = true)
    /\ (areaOps a = 0 -> exists phys,
          page_table st' = <[Z.shiftr (PAGE_ALIGN address) 12 :=
            Z.lor phys (if c_true (Z.land (protection a) PAGE_RW) then protection a
                        else Z.lor (Z.lor (protection a) PAGE_ACCESSED) PAGE_SHARED)]>
            (page_table st)).
Proof.
  intros W E. unfold MmapHandleFault in E.
  destruct (_ <? PAGE_SIZE); [done|].
  pose proof (VmLookupAddress_spec l (PAGE_ALIGN address) W) as L.
  destruct (VmLookupAddress l (PAGE_ALIGN address)) as [[a rest]|]; [|done].
  destruct L as [Hin [pre El]]. destruct (area_in_suffix l pre a rest W El) as [_ Ha].
  destruct (negb (c_true (Z.land (protection a) PAGE_RW)) && _) eqn:C1; [done|].
  destruct (negb (c_true (Z.land (protection a) PAGE_USER)) && _) eqn:C2; [done|].
  destruct (c_true (Z.land error VM_PROTECTION)); [done|].
  exists a. split_and!; try done.
  - intros Hm. rewrite Hm, andb_true_r in C1. by apply negb_false_iff in C1.
  - intros Hm. rewrite Hm, andb_true_r in C2. by apply negb_false_iff in C2.
  - intros Ho. by apply (VmHandleNoPage_maps pa rd hnp a (PAGE_ALIGN address) st st').
Qed.

Lemma MmapHandleFault_safe_witness :
  exists a, a ∈ demo_areas /\ in_area a (PAGE_ALIGN 0x801234).
Proof.
  destruct (MmapHandleFault_safe (fun p => Ret (0x5000, p)) (fun _ _ _ => 0) (fun _ _ _ _ => None)
    demo_areas 0x801234 VM_WRITE
    {| page_table := ∅; sharedList := ∅; vnode_refs := ∅; page_refs := ∅; pager := tt |}
    {| page_table := <[0x801 := 0x5007]> ∅; sharedList := ∅; vnode_refs := ∅; page_refs := ∅;
       pager := tt |} demo_areas_ok) as (a & Ha & Hi & _); [reflexivity|].
  exists a. split; [exact Ha|exact Hi].
Defined.
