(* ===== verification/Mmap.v ===== *)
(** * Memory mapping (memory/mmap.c)

    mmap, munmap and mprotect on a process's ordered list of memory areas.
    The list is the sequence of the areas with their addresses; area
    structures come from areaCache, modelled as the list of the addresses
    it can still hand out.  MMapFindAddress, MMapAddArea and MMapMerge are
    shown to keep the list well-formed and to change the address space
    only as asked; MMapUnmap's treatment of partly unmapped areas is
    recorded as it is. *)

From Stdlib Require Import Sorted.
From S2P Require Import Prelude Vmm.

(** ** Model *)

Notation area_entry := (Z * VMArea)%type (only parsing).

(** [vnodes] is the state of the vNodes, with the reference counting
    operations given below. *)
Record mproc (V : Type) := {
  areaList : list area_entry;
  areaCache : list Z;
  vnodes : V;
}.
Arguments areaList {V} _.
Arguments areaCache {V} _.
Arguments vnodes {V} _.

Definition with_start (v : Z) (a : VMArea) : VMArea :=
  {| start := v; alength := alength a; aoffset := aoffset a; flags := flags a;
     protection := protection a; vNode := vNode a; areaOps := areaOps a |}.
Definition with_length (v : Z) (a : VMArea) : VMArea :=
  {| start := start a; alength := v; aoffset := aoffset a; flags := flags a;
     protection := protection a; vNode := vNode a; areaOps := areaOps a |}.
Definition with_offset (v : Z) (a : VMArea) : VMArea :=
  {| start := start a; alength := alength a; aoffset := v; flags := flags a;
     protection := protection a; vNode := vNode a; areaOps := areaOps a |}.
Definition with_protection (v : Z) (a : VMArea) : VMArea :=
  {| start := start a; alength := alength a; aoffset := aoffset a; flags := flags a;
     protection := v; vNode := vNode a; areaOps := areaOps a |}.

(** The entries before and from the first one that starts after [s]. *)
Fixpoint split_at (s : Z) (l : list area_entry) : list area_entry * list area_entry :=
  match l with
  | [] => ([], [])
  | e :: l' =>
      if s <? start (snd e) then ([], l)
      else let (p, q) := split_at s l' in (e :: p, q)
  end.

Definition MMapAddArea (l : list area_entry) (e : area_entry) : list area_entry :=
  let (p, q) := split_at (start (snd e)) l in p ++ e :: q.

(** VmLookupAddress, with the address of the area. *)
Definition lookup_entry (l : list area_entry) (address : Z) : option area_entry :=
  match VmLookupAddress (snd <$> l) address with
  | Some (_, rest) => l !! (length l - S (length rest))%nat
  | None => None
  end.

(** The loop of MMapFindAddress. *)
Fixpoint find_gap (l : list VMArea) (mapStart len : Z) : Z :=
  match l with
  | [] => if mapStart =? MMAP_END then 0 else mapStart
  | curr :: l =>
      let mapEnd := start curr in
      if (mapStart <=? mapEnd) && (len <=? mapEnd - mapStart) then mapStart
      else find_gap l (u32 (start curr + PAGE_ALIGN_UP (alength curr))) len
  end.

Definition MMapFindAddress (l : list VMArea) (len : Z) : Z :=
  find_gap l MMAP_BASE (PAGE_ALIGN_UP len).

(** The tests of MMapMerge. *)
Definition can_merge (first second : VMArea) : bool :=
  (area_end first =? start second)
  && (vNode first =? vNode second)
  && (areaOps first =? areaOps second)
  && (flags first =? flags second)
  && (protection first =? protection second)
  && (c_true (Z.land (flags first) MMAP_ANON)
      || (aoffset second =? u32 (aoffset first + alength first))).

Section Operations.
Context {V : Type}.
(** vNode->refs++ and VNodeRelease (fs/vfs/vcache.c). *)
Variable vnode_get : Z -> V -> V.
Variable VNodeRelease : Z -> V -> V.
(** Is the vNode a regular file; the vNode of the Zero device, if the
    lookup succeeds. *)
Variable is_file : Z -> bool.
Variable zero_vnode : option Z.
Implicit Types st : mproc V.

Definition set_areas l st : mproc V :=
  {| areaList := l; areaCache := areaCache st; vnodes := vnodes st |}.
Definition set_vnodes v st : mproc V :=
  {| areaList := areaList st; areaCache := areaCache st; vnodes := v |}.

(** MemCacheAlloc(areaCache) and MemCacheFree(areaCache, area). *)
Definition area_alloc st : option (Z * mproc V) :=
  match areaCache st with
  | [] => None
  | p :: ps => Some (p, {| areaList := areaList st; areaCache := ps; vnodes := vnodes st |})
  end.
Definition area_free (p : Z) st : mproc V :=
  {| areaList := areaList st; areaCache := p :: areaCache st; vnodes := vnodes st |}.

(** [ListRemove(&area->list)] *)
Definition unlink (p : Z) (l : list area_entry) : list area_entry :=
  filter (fun e => fst e <> p) l.

Definition MMapRemoveArea (e : area_entry) st : mproc V :=
  let st := set_areas (unlink (fst e) (areaList st)) st in
  area_free (fst e) (set_vnodes (VNodeRelease (vNode (snd e)) (vnodes st)) st).

(** Replace the fields of the area at [p]. *)
Definition update_area (p : Z) (a : VMArea) (l : list area_entry) : list area_entry :=
  (fun e => if fst e =? p then (p, a) else e) <$> l.

Definition MMapMerge (first second : area_entry) st : mproc V :=
  if can_merge (snd first) (snd second) then
    let merged := with_length (u32 (alength (snd first) + alength (snd second))) (snd first) in
    MMapRemoveArea second (set_areas (update_area (fst first) merged (areaList st)) st)
  else st.

(** The entry after and the entry before the area at [p]. *)
Fixpoint next_of (p : Z) (l : list area_entry) : option area_entry :=
  match l with
  | [] => None
  | e :: l => if fst e =? p then head l else next_of p l
  end.
Fixpoint prev_of (p : Z) (prev : option area_entry) (l : list area_entry) : option area_entry :=
  match l with
  | [] => None
  | e :: l => if fst e =? p then prev else prev_of p (Some e) l
  end.
Fixpoint entry_at (p : Z) (l : list area_entry) : option VMArea :=
  match l with
  | [] => None
  | e :: l => if fst e =? p then Some (snd e) else entry_at p l
  end.

Definition MMapMergeMappings (p : Z) st : outcome (mproc V) :=
  let prev := prev_of p None (areaList st) in
  let next := next_of p (areaList st) in
  let* st :=
    match next with
    | None => Ret st
    | Some nx => let* a := of_option (entry_at p (areaList st)) in Ret (MMapMerge (p, a) nx st)
    end in
  match prev with
  | None => Ret st
  | Some pv => let* a := of_option (entry_at p (areaList st)) in Ret (MMapMerge pv (p, a) st)
  end.

(** [area] has been taken off the list. *)
Definition MMapUnmapArea (area : VMArea) (s len : Z) st : mproc V :=
  let end_ := u32 (s + len) in
  if (start area =? s) && (alength area =? len) then st
  else
    let copy_area (area : VMArea) st :=
      match area_alloc st with
      | None => st
      | Some (p, st) => set_areas (MMapAddArea (areaList st) (p, area)) st
      end in
    if (start area <=? s) && (end_ =? area_end area)
    then copy_area (with_length (u32 (alength area - u32 (area_end area - s))) area) st
    else if (s =? start area) && (end_ <=? area_end area)
    then copy_area (with_start end_ (with_offset (u32 (aoffset area + u32 (end_ - start area))) area)) st
    else if (start area <? s) && (end_ <? area_end area)
    then
      match area_alloc st with
      | None => st
      | Some (p, st) =>
          let newArea := with_start end_
            (with_offset (u32 (aoffset area + u32 (end_ - start area))) area) in
          let st := set_vnodes (vnode_get (vNode area) (vnodes st)) st in
          let area := with_length (u32 (end_ - start area)) area in
          copy_area area (set_areas (MMapAddArea (areaList st) (p, newArea)) st)
      end
    else copy_area area st.

Fixpoint unmap_loop (fuel : nat) (p : Z) (s len currLen : Z) st : outcome (Z * mproc V) :=
  match fuel with
  | O => NoFuel
  | S fuel =>
      if currLen =? 0 then Ret (0, st)
      else
        let* area := of_option (entry_at p (areaList st)) in
        let currStart := if s <? start area then start area else s in
        let end_ := u32 (s + len) in
        let end_ := if area_end area <? end_ then area_end area else end_ in
        let next := next_of p (areaList st) in
        let st := set_areas (unlink p (areaList st)) st in
        let st := MMapUnmapArea area currStart (u32 (end_ - currStart)) st in
        let st := area_free p st in
        match next with
        | None => Ret (- EINVAL, st)
        | Some nx => unmap_loop fuel (fst nx) s len (u32 (currLen - u32 (end_ - s))) st
        end
  end.

Definition MMapUnmap (fuel : nat) (s len : Z) st : outcome (Z * mproc V) :=
  if c_true (PAGE_OFFSET s) || (MMAP_END <? s) || (MMAP_END - s <? len) || (len =? 0)
  then Ret (- EINVAL, st)
  else match lookup_entry (areaList st) s with
       | None => Ret (- EFAULT, st)
       | Some (p, area) =>
           if u32 (s + len) <=? start area then Ret (0, st)
           else unmap_loop fuel p s len len st
       end.

(** The address of the mapping, 0 on failure. *)
Definition MMapDo (fuel : nat) (vn address len prot offset fl ops : Z) st
  : outcome (Z * mproc V) :=
  match area_alloc st with
  | None => Ret (0, st)
  | Some (p, st) =>
      if len =? 0 then Ret (0, st)
      else
        let len := PAGE_ALIGN_UP len in
        let address := if c_true (Z.land fl MMAP_FIXED) then address
                       else MMapFindAddress (snd <$> areaList st) len in
        let address := PAGE_ALIGN address in
        if (address <? MMAP_BASE) || (MMAP_END <=? address) then Ret (0, st)
        else
          let target :=
            if negb (vn =? 0) then
              if c_true (Z.land fl MMAP_GROWDOWN) then None
              else if negb (is_file vn) then None
              else Some (vn, fl)
            else match zero_vnode with
                 | None => None
                 | Some z => Some (z, Z.lor fl MMAP_ANON)
                 end in
          match target with
          | None => Ret (0, st)
          | Some (vn, fl) =>
              let st := set_vnodes (vnode_get vn (vnodes st)) st in
              let area := {| start := address; alength := len; aoffset := offset; flags := fl;
                             protection := prot; vNode := vn; areaOps := ops |} in
              let* (_, st) := MMapUnmap fuel address len st in
              let st := set_areas (MMapAddArea (areaList st) (p, area)) st in
              let* st := MMapMergeMappings p st in
              Ret (address, st)
          end
  end.

(** [vn] is the vNode of the file descriptor, [None] when it is bad. *)
Definition SysMemoryMap (fuel : nat) (address len prot : Z) (vn : option Z) (offset fl : Z) st
  : outcome (Z * mproc V) :=
  match vn with
  | None => Ret (0, st)
  | Some vn => MMapDo fuel vn (PAGE_ALIGN address) (PAGE_ALIGN_UP len) (Z.lor prot PAGE_USER)
                      offset fl 0 st
  end.

Definition SysMemoryUnmap (fuel : nat) (address len : Z) st : outcome (Z * mproc V) :=
  MMapUnmap fuel address (PAGE_ALIGN_UP len) st.

(** *** Protection *)

Definition MMapProtectionFixStart (p : Z) (area : VMArea) (end_ prot : Z) st
  : outcome (Z * mproc V) :=
  match area_alloc st with
  | None => Fault
  | Some (q, st) =>
      let l := update_area p (with_protection prot (with_length (u32 (end_ - start area)) area))
                           (areaList st) in
      let areaNext := with_start end_
        (with_offset (u32 (aoffset area + Z.shiftr (u32 (end_ - start area)) PAGE_SHIFT)) area) in
      Ret (0, set_areas (MMapAddArea l (q, areaNext)) st)
  end.

Definition MMapProtectionFixAll (p : Z) (area : VMArea) (prot : Z) st : outcome (Z * mproc V) :=
  Ret (0, set_areas (update_area p (with_protection prot area) (areaList st)) st).

(** The second result is the part of the page tables VirtChangeProtection
    is called for. *)
Definition MMapProtectionChange (p : Z) (area : VMArea) (s end_ prot : Z) st
  : outcome (Z * option (Z * Z * Z) * mproc V) :=
  if prot =? protection area then Ret (0, None, st)
  else
    let* (error, st) :=
      if s =? start area then
        if end_ =? area_end area then MMapProtectionFixAll p area prot st
        else MMapProtectionFixStart p area end_ prot st
      else if negb (prot =? 4) then Panic else Ret (- ENOTIMPL, st) in
    if c_true error then Ret (error, None, st) else Ret (0, Some (s, end_, prot), st).

Definition SysMemoryProtect (s len prot : Z) st
  : outcome (Z * option (Z * Z * Z) * mproc V) :=
  let prot := Z.lor prot PAGE_USER in
  if c_true (PAGE_OFFSET s) then Ret (- EINVAL, None, st)
  else
    let len := PAGE_ALIGN_UP len in
    let end_ := u32 (s + len) in
    if end_ <? s then Ret (- EINVAL, None, st)
    else if s =? end_ then Ret (0, None, st)
    else match lookup_entry (areaList st) s with
         | None => Ret (- EFAULT, None, st)
         | Some (p, area) =>
             (* a range over several areas spins in the kernel *)
             if end_ <=? area_end area then MMapProtectionChange p area s end_ prot st
             else NoFuel
         end.

(** MMapFreePage returns at once, so the pages are left alone. *)
Fixpoint process_remove (l : list area_entry) st : mproc V :=
  match l with
  | [] => st
  | e :: l => process_remove l (MMapRemoveArea e st)
  end.
Definition MmapProcessRemove st : mproc V := process_remove (areaList st) st.
End Operations.

(** ** Specification *)

Definition entries_ok (l : list area_entry) : Prop :=
  areas_ok (snd <$> l) /\ NoDup (fst <$> l).

(** What a list of areas says about address [x]: its protection, vNode,
    flags and operations and, unless the area is anonymous, the file
    offset behind it. *)
Definition maps_to (l : list area_entry) (x prot vn fl ops off : Z) : Prop :=
  exists p a, (p, a) ∈ l /\ in_area a x /\ protection a = prot /\ vNode a = vn /\ flags a = fl
    /\ areaOps a = ops
    /\ (c_true (Z.land fl MMAP_ANON) = true \/ off = u32 (aoffset a + (x - start a))).

(** ** Lemmas: lists of areas *)

Lemma StronglySorted_app_iff {A} (R : A -> A -> Prop) l l' :
  StronglySorted R (l ++ l') <->
  StronglySorted R l /\ StronglySorted R l' /\ forall x y, x ∈ l -> y ∈ l' -> R x y.
Proof.
  induction l as [|a l IH]; simpl.
  - split; [|tauto]. intros H. split_and!; [constructor|done|].
    intros x y Hx. by apply not_elem_of_nil in Hx.
  - split.
    + intros H. apply StronglySorted_inv in H as [H F]. apply IH in H as (H1 & H2 & H3).
      rewrite Forall_app in F. destruct F as [F1 F2]. rewrite Forall_forall in F2.
      split_and!; [by constructor|done|]. intros x y Hx Hy.
      apply elem_of_cons in Hx as [->|Hx]; auto.
    + intros (H1 & H2 & H3). apply StronglySorted_inv in H1 as [H1 F]. constructor.
      * apply IH. split_and!; [done|done|]. intros x y Hx Hy. apply H3; [by right|done].
      * apply Forall_app. split; [done|]. apply Forall_forall. intros y Hy. apply H3; [left|done].
Qed.

Lemma areas_ok_app l l' : areas_ok (l ++ l') <->
  areas_ok l /\ areas_ok l' /\ forall a b, a ∈ l -> b ∈ l' -> start a + alength a <= start b.
Proof. unfold areas_ok. rewrite Forall_app, StronglySorted_app_iff. tauto. Qed.

Lemma split_at_spec s l : areas_ok (snd <$> l) ->
  let (p, q) := split_at s l in
  l = p ++ q /\ Forall (fun e => start (snd e) <= s) p /\ Forall (fun e => s < start (snd e)) q.
Proof.
  induction l as [|e l IH]; intros W; simpl; [done|].
  rewrite fmap_cons in W. apply areas_ok_cons in W as (Oe & Wl & F).
  destruct (Z.ltb_spec s (start (snd e))).
  - split_and!; [done|constructor|]. constructor; [done|]. rewrite Forall_fmap in F.
    eapply Forall_impl; [exact F|]. simpl. intros d. destruct Oe as (_ & ? & _). lia.
  - specialize (IH Wl). destruct (split_at s l) as [p q]. destruct IH as (-> & Fp & Fq).
    split_and!; [done|by constructor|done].
Qed.

(** [a] meets no area of the list. *)
Definition disjoint_from (a : VMArea) (l : list area_entry) : Prop :=
  forall e x, e ∈ l -> in_area (snd e) x -> ~ in_area a x.

Lemma disjoint_order a b : area_ok a -> area_ok b -> (forall x, in_area b x -> ~ in_area a x) ->
  start b <= start a -> start b + alength b <= start a.
Proof.
  intros (? & ? & ?) (? & ? & ?) D L.
  destruct (decide (start b + alength b <= start a)) as [|N]; [done|].
  destruct (D (start a)); unfold in_area; lia.
Qed.

(** Inserting a disjoint area keeps the list well-formed. *)
Lemma MMapAddArea_spec l p a : entries_ok l -> area_ok a -> p ∉ fst <$> l -> disjoint_from a l ->
  exists pre post, l = pre ++ post /\ MMapAddArea l (p, a) = pre ++ (p, a) :: post
    /\ entries_ok (pre ++ (p, a) :: post).
Proof.
  intros [W N] Oa Np D. unfold MMapAddArea. simpl.
  pose proof (split_at_spec (start a) l W) as S. destruct (split_at (start a) l) as [pre post].
  destruct S as (El & Fp & Fq). exists pre, post. split_and!; [done|done|].
  rewrite Forall_forall in Fp, Fq. subst l. unfold entries_ok.
  rewrite fmap_app in W. rewrite fmap_app in N. apply areas_ok_app in W as (W1 & W2 & X). split.
  - rewrite fmap_app, fmap_cons. apply areas_ok_app. split_and!; [done| |].
    + apply areas_ok_cons. split_and!; [done|done|]. apply Forall_forall. intros b Hb.
      apply list_elem_of_fmap in Hb as (e & -> & He). pose proof (Fq e He) as Hs.
      assert (Oe : area_ok (snd e)).
      { destruct W2 as [W2 _]. rewrite Forall_forall in W2. apply W2. by apply list_elem_of_fmap_2. }
      apply (disjoint_order (snd e) a); [done|done| |lia].
      intros x Hx Hy. apply (D e x); [apply elem_of_app; by right|done|done].
    + intros b c Hb Hc. apply elem_of_cons in Hc as [->|Hc]; [|by apply X].
      apply list_elem_of_fmap in Hb as (e & -> & He).
      assert (Oe : area_ok (snd e)).
      { destruct W1 as [W1 _]. rewrite Forall_forall in W1. apply W1. by apply list_elem_of_fmap_2. }
      apply (disjoint_order a (snd e)); [done|done| |by apply Fp].
      intros x Hx. apply (D e x); [apply elem_of_app; by left|done].
  - rewrite fmap_app, fmap_cons. simpl. rewrite fmap_app, not_elem_of_app in Np.
    apply NoDup_app in N as (N1 & N2 & N3). apply NoDup_app. split_and!; [done| |].
    + intros x Hx Hy. apply elem_of_cons in Hy as [->|Hy]; [tauto|]. by apply (N2 x).
    + apply NoDup_cons. tauto.
Qed.

(** ** Lemmas: finding an address *)

Definition page_aligned (a : VMArea) : Prop :=
  start a mod PAGE_SIZE = 0 /\ alength a mod PAGE_SIZE = 0
  /\ start a + alength a <= 2 ^ 32 - PAGE_SIZE.

Lemma PAGE_ALIGN_UP_aligned n : 0 <= n <= 2 ^ 32 - PAGE_SIZE -> n mod PAGE_SIZE = 0 ->
  PAGE_ALIGN_UP n = n.
Proof.
  intros H M. rewrite PAGE_ALIGN_UP_eq by done. unfold PAGE_SIZE in *.
  Z.to_euclidean_division_equations; lia.
Qed.

Lemma find_gap_spec l : forall m len r, areas_ok l -> Forall page_aligned l -> 0 <= m -> 0 < len ->
  m mod PAGE_SIZE = 0 ->
  Forall (fun a => m <= start a) l -> find_gap l m len = r -> r <> 0 ->
  m <= r /\ r mod PAGE_SIZE = 0 /\ forall a, a ∈ l -> r + len <= start a \/ start a + alength a <= r.
Proof.
  induction l as [|c l IH]; intros m len r W P Hm Hl Ma B E Hr; simpl in E.
  - destruct (m =? MMAP_END); [done|]. subst r. split_and!; [lia|done|].
    intros a Ha. by apply not_elem_of_nil in Ha.
  - apply areas_ok_cons in W as ((O1 & O2 & O3) & W & F). apply Forall_cons in P as [(Pc0 & Pc1 & Pc2) P].
    apply Forall_cons in B as [Bc B].
    destruct ((m <=? start c) && (len <=? start c - m)) eqn:C.
    + apply andb_prop in C as [C1 C2]. apply Z.leb_le in C1. apply Z.leb_le in C2. subst r.
      split_and!; [lia|done|]. intros a Ha. left. apply elem_of_cons in Ha as [->|Ha]; [lia|].
      rewrite Forall_forall in F. specialize (F a Ha). lia.
    + rewrite PAGE_ALIGN_UP_aligned in E by (done || lia). rewrite u32_id in E by lia.
      destruct (IH (start c + alength c) len r) as (L & Mr & D); try done; try lia.
      { rewrite Zplus_mod, Pc0, Pc1. done. }
      split_and!; [lia|done|]. intros a Ha. apply elem_of_cons in Ha as [->|Ha]; [lia|auto].
Qed.

(** ** Lemmas: operations at one entry *)

Lemma next_of_app (p : Z) (a : VMArea) (pre post : list area_entry) : p ∉ fst <$> pre ->
  next_of p (pre ++ (p, a) :: post) = head post.
Proof.
  induction pre as [|e pre IH]; intros N; simpl; [by rewrite Z.eqb_refl|].
  rewrite fmap_cons, not_elem_of_cons in N. destruct N as [N1 N2].
  destruct (Z.eqb_spec (fst e) p); [congruence|auto].
Qed.

Lemma prev_of_app (p : Z) (a : VMArea) (pre post : list area_entry) d : p ∉ fst <$> pre ->
  prev_of p d (pre ++ (p, a) :: post) = match last pre with Some e => Some e | None => d end.
Proof.
  revert d. induction pre as [|e pre IH]; intros d N; simpl; [by rewrite Z.eqb_refl|].
  rewrite fmap_cons, not_elem_of_cons in N. destruct N as [N1 N2].
  destruct (Z.eqb_spec (fst e) p); [congruence|]. rewrite IH by done.
  destruct pre as [|f pre]; [done|]. change (last (e :: f :: pre)) with (last (f :: pre)).
  destruct (last (f :: pre)) eqn:E; [done|]. by apply last_None in E.
Qed.

Lemma entry_at_app (p : Z) (a : VMArea) (pre post : list area_entry) : p ∉ fst <$> pre -> entry_at p (pre ++ (p, a) :: post) = Some a.
Proof.
  induction pre as [|e pre IH]; intros N; simpl; [by rewrite Z.eqb_refl|].
  rewrite fmap_cons, not_elem_of_cons in N. destruct N as [N1 N2].
  destruct (Z.eqb_spec (fst e) p); [congruence|auto].
Qed.

Lemma update_area_id (p : Z) (b : VMArea) (l : list area_entry) : p ∉ fst <$> l -> update_area p b l = l.
Proof.
  induction l as [|e l IH]; intros N; [done|]. rewrite fmap_cons, not_elem_of_cons in N.
  destruct N as [N1 N2]. unfold update_area in *. rewrite fmap_cons, IH by done.
  destruct (Z.eqb_spec (fst e) p); [congruence|done].
Qed.

Lemma update_area_app (p : Z) (a b : VMArea) (pre post : list area_entry) : p ∉ fst <$> pre -> p ∉ fst <$> post ->
  update_area p b (pre ++ (p, a) :: post) = pre ++ (p, b) :: post.
Proof.
  intros N1 N2. unfold update_area. rewrite fmap_app, fmap_cons. simpl. rewrite Z.eqb_refl.
  fold (update_area p b pre). fold (update_area p b post). by rewrite !update_area_id.
Qed.

Lemma unlink_app (p : Z) (a : VMArea) (pre post : list area_entry) : p ∉ fst <$> pre -> p ∉ fst <$> post ->
  unlink p (pre ++ (p, a) :: post) = pre ++ post.
Proof.
  intros N1 N2. unfold unlink. rewrite filter_app, filter_cons.
  destruct (decide (fst (p, a) <> p)) as [H|_]; [by destruct H|].
  assert (K : forall l : list area_entry, p ∉ fst <$> l -> filter (fun e : Z * VMArea => fst e <> p) l = l).
  { induction l as [|e l IH]; intros N; [done|]. rewrite fmap_cons, not_elem_of_cons in N.
    destruct N. rewrite filter_cons, IH by done. destruct (decide _) as [|X]; [done|]. destruct X. congruence. }
  by rewrite !K.
Qed.

Lemma nodup_at (p : Z) (a : VMArea) (pre post : list area_entry) : NoDup (fst <$> pre ++ (p, a) :: post) ->
  p ∉ fst <$> pre /\ p ∉ fst <$> post /\ NoDup (fst <$> pre ++ post).
Proof.
  rewrite !fmap_app, fmap_cons. simpl. intros N. apply NoDup_app in N as (N1 & N2 & N3).
  apply NoDup_cons in N3 as [N3 N4]. split_and!; [|done|].
  - intros H. apply (N2 p H). left.
  - apply NoDup_app. split_and!; [done| |done]. intros x Hx Hy. apply (N2 x Hx). by right.
Qed.

(** ** Lemmas: merging *)

Definition merged (a b : VMArea) : VMArea := with_length (u32 (alength a + alength b)) a.

Lemma can_merge_spec a b : area_ok a -> area_ok b -> can_merge a b = true ->
  start b = start a + alength a /\ vNode b = vNode a /\ areaOps b = areaOps a
  /\ flags b = flags a /\ protection b = protection a
  /\ (c_true (Z.land (flags a) MMAP_ANON) = true \/ aoffset b = u32 (aoffset a + alength a))
  /\ alength (merged a b) = alength a + alength b.
Proof.
  intros Oa (B1 & B2 & B3) C. unfold can_merge in C. rewrite (area_end_eq a Oa) in C.
  destruct Oa as (A1 & A2 & A3).
  repeat match goal with H : _ && _ = true |- _ => apply andb_prop in H as [? ?] end.
  repeat match goal with H : (_ =? _) = true |- _ => apply Z.eqb_eq in H end.
  split_and!; try congruence.
  - match goal with H : _ || _ = true |- _ => apply orb_true_iff in H as [|H] end; [by left|].
    right. by apply Z.eqb_eq.
  - simpl. apply u32_id. lia.
Qed.

(** Merging two neighbours keeps the list well-formed and the address
    space as it was. *)
Lemma merge_entries pre post p q a b :
  entries_ok (pre ++ (p, a) :: (q, b) :: post) -> can_merge a b = true ->
  entries_ok (pre ++ (p, merged a b) :: post)
  /\ forall x prot vn fl ops off,
       maps_to (pre ++ (p, merged a b) :: post) x prot vn fl ops off
       <-> maps_to (pre ++ (p, a) :: (q, b) :: post) x prot vn fl ops off.
Proof.
  intros [W N] C. rewrite fmap_app, !fmap_cons in W. simpl in W.
  apply areas_ok_app in W as (W1 & W2 & X). apply areas_ok_cons in W2 as (Oa & W2 & Fa).
  apply areas_ok_cons in W2 as (Ob & W2 & Fb).
  destruct (can_merge_spec a b Oa Ob C) as (Es & Ev & Eo & Ef & Ep & Eoff & El).
  assert (Om : area_ok (merged a b)) by (unfold area_ok in *; rewrite El; simpl; lia).
  split.
  - split.
    + rewrite fmap_app, fmap_cons. simpl. apply areas_ok_app. split_and!; [done| |].
      * apply areas_ok_cons. split_and!; [done|done|]. eapply Forall_impl; [exact Fb|].
        intros c. rewrite El. simpl. lia.
      * intros c d Hc Hd. apply elem_of_cons in Hd as [->|Hd];
          [exact (X c a Hc ltac:(left))|apply X; [done|by do 2 right]].
    + rewrite fmap_app, !fmap_cons in *. simpl in *.
      apply NoDup_app in N as (N1 & N2 & N3). apply NoDup_app. split_and!; [done| |].
      * intros y Hy Hz. apply (N2 y Hy). apply elem_of_cons in Hz as [->|Hz]; [left|by do 2 right].
      * apply NoDup_cons in N3 as [N3 N4]. apply NoDup_cons in N4 as [_ N4].
        apply NoDup_cons. rewrite not_elem_of_cons in N3. tauto.
  - intros x prot vn fl ops off. unfold maps_to. split.
    + intros (r & c & Hin & Hx & Hp & Hv & Hf & Hop & Hof).
      apply elem_of_app in Hin as [Hin|Hin].
      { exists r, c. split_and!; try done. apply elem_of_app. by left. }
      apply elem_of_cons in Hin as [E|Hin].
      2: { exists r, c. split_and!; try done. apply elem_of_app. right. by do 2 right. }
      injection E as -> ->. unfold in_area in Hx. rewrite El in Hx. simpl in *.
      destruct (decide (x < start a + alength a)).
      * exists p, a. split_and!; try done; [|unfold in_area; lia]. apply elem_of_app. right. left.
      * exists q, b. split_and!; try congruence; [|unfold in_area; lia|].
        { apply elem_of_app. right. right. left. }
        destruct Eoff as [Ea|Ea]; [left; congruence|]. destruct Hof as [Hof|Hof]; [by left|right].
        rewrite Hof, Ea, Es. unfold u32. rewrite Zplus_mod_idemp_l. f_equal. lia.
    + intros (r & c & Hin & Hx & Hp & Hv & Hf & Hop & Hof).
      apply elem_of_app in Hin as [Hin|Hin].
      { exists r, c. split_and!; try done. apply elem_of_app. by left. }
      apply elem_of_cons in Hin as [E|Hin]; [|apply elem_of_cons in Hin as [E|Hin]].
      * injection E as -> ->. exists p, (merged a b). unfold in_area in *. rewrite El. simpl.
        destruct Ob as (_ & ? & _).
        split_and!; try done; try lia. apply elem_of_app. right. left.
      * injection E as -> ->. exists p, (merged a b). unfold in_area in *. rewrite El. simpl.
        destruct Oa as (_ & ? & _).
        split_and!; try congruence; try lia; [apply elem_of_app; right; left|].
        destruct Hof as [Hof|Hof]; [by left|]. destruct Eoff as [Ea|Ea]; [left; congruence|right].
        rewrite Hof, Ea, Es. unfold u32. rewrite Zplus_mod_idemp_l. f_equal. lia.
      * exists r, c. split_and!; try done. apply elem_of_app. right. by right.
Qed.

Section Proofs.
Context {V : Type} (vget vrel : Z -> V -> V).
Implicit Types st : mproc V.

(** The address spaces of two lists are the same. *)
Definition same_space (l l' : list area_entry) : Prop :=
  forall x prot vn fl ops off, maps_to l x prot vn fl ops off <-> maps_to l' x prot vn fl ops off.

Lemma MMapMerge_spec pre post p q a b st :
  areaList st = pre ++ (p, a) :: (q, b) :: post -> entries_ok (areaList st) ->
  let st' := MMapMerge vrel (p, a) (q, b) st in
  entries_ok (areaList st') /\ same_space (areaList st') (areaList st)
  /\ areaList st' = if can_merge a b then pre ++ (p, merged a b) :: post
                    else pre ++ (p, a) :: (q, b) :: post.
Proof.
  intros El W st'. subst st'. unfold MMapMerge. simpl.
  destruct (can_merge a b) eqn:C; [|rewrite El in *; split_and!; done].
  assert (E : areaList (MMapRemoveArea vrel (q, b) (set_areas (update_area p
    (with_length (u32 (alength a + alength b)) a) (areaList st)) st))
    = pre ++ (p, merged a b) :: post).
  { simpl. rewrite El in *. destruct W as [_ N].
    destruct (nodup_at p a pre ((q, b) :: post) N) as (N1 & N2 & _).
    replace (pre ++ (p, a) :: (q, b) :: post) with ((pre ++ [(p, a)]) ++ (q, b) :: post) in N
      by (by rewrite <- app_assoc).
    destruct (nodup_at q b _ _ N) as (N3 & N4 & _).
    rewrite update_area_app by done. fold (merged a b).
    replace (pre ++ (p, merged a b) :: (q, b) :: post)
      with ((pre ++ [(p, merged a b)]) ++ (q, b) :: post) by (by rewrite <- app_assoc).
    rewrite unlink_app; [by rewrite <- app_assoc| |done].
    rewrite fmap_app in N3 |- *. exact N3. }
  rewrite E. rewrite El in W. destruct (merge_entries pre post p q a b W C) as [W' S].
  split_and!; [done| |done]. rewrite El. exact S.
Qed.

Lemma MMapMergeMappings_spec pre post p a st :
  areaList st = pre ++ (p, a) :: post -> entries_ok (areaList st) ->
  exists st', MMapMergeMappings vrel p st = Ret st' /\ entries_ok (areaList st')
    /\ same_space (areaList st') (areaList st).
Proof.
  intros El W. unfold MMapMergeMappings.
  assert (Np : p ∉ fst <$> pre)
    by (destruct W as [_ N]; rewrite El in N; by apply nodup_at in N as (? & _)).
  assert (Ep : prev_of p None (areaList st) = last pre)
    by (rewrite El, prev_of_app by done; by destruct (last pre)).
  assert (En : next_of p (areaList st) = head post) by (rewrite El; by apply next_of_app).
  rewrite Ep, En. clear Ep En.
  assert (S1 : exists st1 a' post', (match head post with
      | None => Ret st
      | Some nx => let* a := of_option (entry_at p (areaList st)) in Ret (MMapMerge vrel (p, a) nx st)
      end) = Ret st1 /\ areaList st1 = pre ++ (p, a') :: post' /\ entries_ok (areaList st1)
    /\ same_space (areaList st1) (areaList st)).
  { destruct post as [|[q b] post].
    - exists st, a, []. split_and!; done.
    - simpl head. rewrite El, entry_at_app by done. cbn [of_option bindO].
      destruct (MMapMerge_spec pre post p q a b st El W) as (W1 & S & E1).
      rewrite El in S. do 3 eexists. split; [reflexivity|].
      split_and!; [|exact W1|exact S]. rewrite E1.
      instantiate (2 := if can_merge a b then merged a b else a).
      instantiate (1 := if can_merge a b then post else (q, b) :: post).
      by destruct (can_merge a b). }
  destruct S1 as (st1 & a' & post' & E1 & El1 & W1 & S1). rewrite E1. cbn [bindO].
  destruct pre as [|[r c] pre _] using rev_ind.
  - simpl. exists st1. split_and!; done.
  - rewrite last_snoc. rewrite El1, entry_at_app by done. cbn [of_option bindO].
    rewrite <- app_assoc in El1. simpl in El1.
    destruct (MMapMerge_spec pre post' r p c a' st1 El1 W1) as (W2 & S2 & _).
    eexists. split; [reflexivity|]. split; [done|].
    intros x prot vn fl ops off. rewrite (S2 x prot vn fl ops off). apply S1.
Qed.
End Proofs.

(** One more area in the list. *)
Lemma maps_to_insert pre post p area x prot v f o off :
  maps_to (pre ++ (p, area) :: post) x prot v f o off <->
  maps_to (pre ++ post) x prot v f o off
  \/ (start area <= x < start area + alength area /\ prot = protection area /\ v = vNode area
      /\ f = flags area /\ o = areaOps area
      /\ (c_true (Z.land f MMAP_ANON) = true \/ off = u32 (aoffset area + (x - start area)))).
Proof.
  unfold maps_to, in_area. split.
  - intros (q & a & Hin & Hx & Hp & Hv & Hf & Ho & Hoff).
    apply elem_of_app in Hin as [Hin|Hin]; [|apply elem_of_cons in Hin as [E|Hin]].
    + left. exists q, a. split_and!; try done; try lia. apply elem_of_app. by left.
    + injection E as -> ->. right. split_and!; try done; lia.
    + left. exists q, a. split_and!; try done; try lia. apply elem_of_app. by right.
  - intros [(q & a & Hin & H)|(Hx & -> & -> & -> & -> & Hoff)].
    + exists q, a. split; [|done]. apply elem_of_app. apply elem_of_app in Hin as [?|?];
        [by left|right; by right].
    + exists p, area. split_and!; try done; try lia. apply elem_of_app. right. left.
Qed.

(** ** Properties *)

(** Where MMapDo may place a mapping and what it then maps. *)
(** Lengths are multiples of the page size. *)
Lemma aligned_length len : 0 < len <= 2 ^ 32 - PAGE_SIZE ->
  0 < PAGE_ALIGN_UP len /\ PAGE_ALIGN_UP len mod PAGE_SIZE = 0 /\ PAGE_ALIGN_UP (PAGE_ALIGN_UP len) = PAGE_ALIGN_UP len.
Proof.
  intros H. rewrite (PAGE_ALIGN_UP_eq len) in * by lia. unfold PAGE_SIZE in *.
  split_and!; [Z.to_euclidean_division_equations; lia|apply Z.mod_mul; lia|].
  apply PAGE_ALIGN_UP_aligned; [unfold PAGE_SIZE; Z.to_euclidean_division_equations; lia|].
  apply Z.mod_mul. done.
Qed.

(** Unmapping where nothing is mapped changes nothing. *)
Lemma MMapUnmap_nothing {V} (vget : Z -> V -> V) fuel (st : mproc V) r L :
  entries_ok (areaList st) -> r mod PAGE_SIZE = 0 -> 0 <= r -> 0 < L -> r + L <= MMAP_END ->
  (forall e x, e ∈ areaList st -> in_area (snd e) x -> ~ (r <= x < r + L)) ->
  MMapUnmap vget fuel r L st = Ret (- EFAULT, st).
Proof.
  intros W Rm R0 L0 Hr D. unfold MMapUnmap, MMAP_END in *. rewrite PAGE_OFFSET_mod, Rm. cbn [c_true Z.eqb negb orb].
  destruct (Z.ltb_spec 0xC0000000 r), (Z.ltb_spec (0xC0000000 - r) L), (Z.eqb_spec L 0); try lia. cbn [orb]. unfold lookup_entry.
  pose proof (VmLookupAddress_spec (snd <$> areaList st) r ltac:(apply W)) as Lk.
  destruct (VmLookupAddress _ r) as [[a rest]|]; [|done]. exfalso. destruct Lk as [Hin [pre El]].
  assert (Ha : a ∈ snd <$> areaList st) by (rewrite El; apply elem_of_app; right; left).
  apply list_elem_of_fmap in Ha as (e & -> & He). apply (D e r He Hin). lia.
Qed.

(** An area is added and merged with its neighbours. *)
Lemma add_and_merge {V} (vrel : Z -> V -> V) (st : mproc V) p area :
  entries_ok (areaList st) -> p ∉ fst <$> areaList st -> area_ok area ->
  (forall e x, e ∈ areaList st -> in_area (snd e) x -> ~ in_area area x) ->
  exists st', MMapMergeMappings vrel p (set_areas (MMapAddArea (areaList st) (p, area)) st) = Ret st'
    /\ entries_ok (areaList st')
    /\ forall x prot v f o off, maps_to (areaList st') x prot v f o off <->
         maps_to (areaList st) x prot v f o off
         \/ (in_area area x /\ prot = protection area /\ v = vNode area /\ f = flags area /\ o = areaOps area
             /\ (c_true (Z.land f MMAP_ANON) = true \/ off = u32 (aoffset area + (x - start area)))).
Proof.
  intros W Np Ok D. destruct (MMapAddArea_spec (areaList st) p area W) as (pre & post & El & Ea & Wn); [done|done| |].
  { intros e x He Hx Hy. exact (D e x He Hx Hy). }
  rewrite Ea. destruct (MMapMergeMappings_spec vrel pre post p area (set_areas (pre ++ (p, area) :: post) st)) as (st' & Em & W' & S'); [done|done|].
  exists st'. split_and!; [done|done|]. intros x prot v f o off. rewrite (S' x prot v f o off). simpl. rewrite El.
  apply maps_to_insert; done.
Qed.

Record map_request {V} (is_file : Z -> bool) (zero_vnode : option Z) (st : mproc V)
    (p vn len fl vn' fl' : Z) : Prop := {
  mr_ok : entries_ok (areaList st);
  mr_aligned : Forall page_aligned (snd <$> areaList st);
  mr_base : Forall (fun a => MMAP_BASE <= start a) (snd <$> areaList st);
  mr_cache : exists ps, areaCache st = p :: ps;
  mr_fresh : p ∉ fst <$> areaList st;
  mr_len : 0 < len <= 2 ^ 32 - PAGE_SIZE;
  mr_free : c_true (Z.land fl MMAP_FIXED) = false;
  mr_target : (vn = 0 /\ zero_vnode = Some vn' /\ fl' = Z.lor fl MMAP_ANON)
    \/ (vn <> 0 /\ vn' = vn /\ fl' = fl /\ c_true (Z.land fl MMAP_GROWDOWN) = false
        /\ is_file vn = true);
}.

(** C28: A mapping at an address of the kernel's choice adds exactly the
    pages asked for: MMapDo returns the address MMapFindAddress found, the
    area list stays ordered and disjoint, the new pages have the requested
    protection, file and offset, and every other address is mapped as
    before (neighbouring areas may have been merged).
    The range that is found has to end by MMAP_END. *)
Theorem MMapDo_maps {V} (vget vrel : Z -> V -> V) is_file zero_vnode fuel (st : mproc V)
    p vn address len prot offset fl ops vn' fl' r :
  map_request is_file zero_vnode st p vn len fl vn' fl' ->
  let L := PAGE_ALIGN_UP len in
  MMapFindAddress (snd <$> areaList st) L = r -> r <> 0 -> r + L <= MMAP_END ->
  exists st', MMapDo vget vrel is_file zero_vnode fuel vn address len prot offset fl ops st
      = Ret (r, st')
    /\ entries_ok (areaList st')
    /\ forall x prot' v f o off, maps_to (areaList st') x prot' v f o off <->
         maps_to (areaList st) x prot' v f o off
         \/ (r <= x < r + L /\ prot' = prot /\ v = vn' /\ f = fl' /\ o = ops
             /\ (c_true (Z.land f MMAP_ANON) = true \/ off = u32 (offset + (x - r)))).
Proof.
  intros [W P B [ps Ec] Np Hl Hf Ht] L Er Nr Hr. destruct (aligned_length len Hl) as (HL0 & HLm & HLa). fold L in HL0, HLm, HLa.
  unfold MMapFindAddress in Er. rewrite HLa in Er. destruct (find_gap_spec (snd <$> areaList st) MMAP_BASE L r) as (Rb & Rm & Rd); try done; try apply W.
  assert (D : forall e x, e ∈ areaList st -> in_area (snd e) x -> ~ (r <= x < r + L)).
  { intros e x He Hx. destruct (Rd (snd e)); [by apply list_elem_of_fmap_2|..]; unfold in_area in Hx; lia. }
  unfold MMapDo, area_alloc. rewrite Ec. destruct (Z.eqb_spec len 0); [lia|]. fold L. rewrite Hf. cbn [areaList].
  unfold MMapFindAddress. rewrite HLa, Er, PAGE_ALIGN_eq, Rm, Z.sub_0_r by (unfold MMAP_BASE, MMAP_END in *; lia).
  destruct (Z.ltb_spec r MMAP_BASE), (Z.leb_spec MMAP_END r); try lia. cbn [orb].
  assert (T : (if negb (vn =? 0) then
      if c_true (Z.land fl MMAP_GROWDOWN) then None
      else if negb (is_file vn) then None else Some (vn, fl)
    else match zero_vnode with None => None | Some z => Some (z, Z.lor fl MMAP_ANON) end)
    = Some (vn', fl')).
  { destruct Ht as [(-> & -> & ->)|(Hv & -> & -> & -> & ->)]; [done|]. destruct (Z.eqb_spec vn 0); done. }
  rewrite T. set (st1 := set_vnodes _ _). rewrite (MMapUnmap_nothing vget fuel st1 r L) by (done || unfold MMAP_BASE in *; lia). cbn [bindO].
  set (area := {| start := r; alength := L; aoffset := offset; flags := fl'; protection := prot; vNode := vn'; areaOps := ops |}).
  destruct (add_and_merge vrel st1 p area W Np) as (st' & Em & W' & S'); [unfold area_ok, MMAP_BASE, MMAP_END in *; simpl; lia|exact D|].
  rewrite Em. by exists st'.
Qed.

(** A process with one anonymous page at MMAP_BASE and a file after a gap. *)
Definition demo_area (s len fl vn : Z) : VMArea :=
  {| start := s; alength := len; aoffset := 0; flags := fl; protection := 7; vNode := vn;
     areaOps := 0 |}.
Definition demo_mproc : mproc unit := {|
  areaList := [(10, demo_area 0x800000 0x1000 8 1); (11, demo_area 0x802000 0x1000 0 2)];
  areaCache := [20; 21]; vnodes := tt;
|}.

Lemma demo_request : map_request (fun _ => true) (Some 1) demo_mproc 20 0 0x1000 0 1 8.
Proof.
  split; simpl; try done; try lia.
  - split; [split; repeat constructor; simpl; lia|].
    by apply (bool_decide_unpack _).
  - repeat (apply Forall_cons; split; [split_and!; done|]). constructor.
  - repeat constructor; simpl; unfold MMAP_BASE; lia.
  - by eexists.
  - rewrite !not_elem_of_cons. split_and!; [lia|lia|apply not_elem_of_nil].
  - by left.
Qed.

Lemma MMapDo_maps_witness : exists st',
  MMapDo (fun _ v => v) (fun _ v => v) (fun _ => true) (Some 1) 3 0 0 0x1000 7 0 0 0 demo_mproc
    = Ret (0x801000, st') /\ entries_ok (areaList st').
Proof.
  destruct (MMapDo_maps (fun _ v => v) (fun _ v => v) (fun _ => true) (Some 1) 3 demo_mproc
    20 0 0 0x1000 7 0 0 0 1 8 0x801000 demo_request) as (st' & E & W & _);
    [reflexivity|lia|vm_compute; congruence|].
  exists st'. split; [exact E|exact W].
Defined.

(** Unmapping the start of an area does not shorten it: MMapUnmapArea
    moves the start of what is left but keeps the length, so unmapping the
    first page of a two-page area succeeds and leaves an area that runs
    one page past the old end, over the area that follows it. *)
Theorem MMapUnmap_front_overlaps : exists st',
  MMapUnmap (fun _ v => v) 5 0x800000 0x1000
    {| areaList := [(10, demo_area 0x800000 0x2000 0 1); (11, demo_area 0x802000 0x1000 0 2)];
       areaCache := [20]; vnodes := tt |} = Ret (0, st')
  /\ maps_to (areaList st') 0x802000 7 1 0 0 0x2000 /\ maps_to (areaList st') 0x802000 7 2 0 0 0.
Proof.
  eexists. split; [vm_compute; reflexivity|]. cbn [areaList]. split.
  - do 2 eexists. split; [left|]. unfold in_area. simpl. split_and!; try done. by right.
  - do 2 eexists. split; [right; left|]. unfold in_area. simpl. split_and!; try done. by right.
Qed.

(** A mapping can reach into kernel space: MMapDo checks that the
    address is below MMAP_END but not that the mapping ends there, so a
    fixed two-page mapping at the last user page succeeds and gives the
    process an area that contains the first kernel page. *)
Theorem MMapDo_reaches_kernel : exists st',
  MMapDo (fun _ v => v) (fun _ v => v) (fun _ => true) (Some 1) 3 0 0xBFFFF000 0x2000 7 0
    MMAP_FIXED 0 demo_mproc = Ret (0xBFFFF000, st')
  /\ maps_to (areaList st') MMAP_END 7 1 (Z.lor MMAP_FIXED MMAP_ANON) 0 0.
Proof.
  eexists. split; [vm_compute; reflexivity|]. cbn [areaList].
  do 2 eexists. split; [right; right; left|]. unfold in_area, MMAP_END. simpl.
  split_and!; try done. by left.
Qed.
