(* ===== verification/Timer.v ===== *)
(** * Kernel timers (kernel/timer.c)

    Timers form a list in which the head counts down by ten milliseconds
    per tick and every other timer holds a difference.  [deadlines] is the
    abstraction: the time each timer still has to run, the sum of the
    differences up to it.  Removing a timer and ticking are shown to keep
    every other deadline; adding is shown to be right for the first two
    timers, and an example records what it does to a third. *)

From S2P Require Import Prelude.

(** ** Model *)

(** [tid] is the address of the structure, [tdata] the argument of [func]. *)
Record Timer := { tid : Z; func : Z; tdata : Z; owner : Z; expires : Z }.

Definition set_expires (e : Z) (t : Timer) : Timer :=
  {| tid := tid t; func := func t; tdata := tdata t; owner := owner t; expires := e |}.

(** The loop of TimerAdd; [prev] is the entry before [l], if any. *)
Fixpoint add_loop (timer : Timer) (prev : option Timer) (l : list Timer) : list Timer :=
  let rel := match prev with
             | Some p => set_expires (s32 (expires timer - expires p)) timer
             | None => timer
             end in
  match l with
  | [] => [rel]
  | curr :: l =>
      if expires timer <=? expires curr
      then rel :: set_expires (s32 (expires curr - expires rel)) curr :: l
      else curr :: add_loop timer (Some curr) l
  end.

Definition TimerAdd (timer : Timer) (timerList : list Timer) : list Timer :=
  match timerList with
  | [] => [timer]
  | _ => add_loop timer None timerList
  end.

(** [linked] tells whether the timer's list pointers are set. *)
Fixpoint remove_loop (id : Z) (l : list Timer) : list Timer :=
  match l with
  | [] => []
  | curr :: l =>
      if tid curr =? id then
        match l with
        | curr2 :: l' =>
            if 0 <? expires curr
            then set_expires (s32 (expires curr2 + expires curr)) curr2 :: l'
            else l
        | [] => []
        end
      else curr :: remove_loop id l
  end.

Definition TimerRemove (id : Z) (linked : bool) (timerList : list Timer) : Z * list Timer :=
  if negb linked then (0, timerList)
  else match timerList with
       | [] => (- EINVAL, timerList)
       | _ => (0, remove_loop id timerList)
       end.

(** The walk keeps a pointer to the next entry, which stays valid because
    TimerRemove unlinks only the current one. *)
Fixpoint thread_exit_loop (ids : list (Z * Z)) (thread : Z) (l : list Timer) : list Timer :=
  match ids with
  | [] => l
  | (id, own) :: ids =>
      thread_exit_loop ids thread (if own =? thread then snd (TimerRemove id true l) else l)
  end.
Definition TimerThreadExit (thread : Z) (timerList : list Timer) : list Timer :=
  thread_exit_loop ((fun t => (tid t, owner t)) <$> timerList) thread timerList.

(** One tick; the second result is the timer whose function is called. *)
Definition UpdateTimers (timerList : list Timer) : list Timer * option Timer :=
  match timerList with
  | [] => ([], None)
  | timer :: l =>
      let timer := set_expires (s32 (expires timer - 10)) timer in
      if expires timer <=? 0 then (l, Some timer) else (timer :: l, None)
  end.

(** ** Abstraction *)

(** The time to run of every timer, from a base of [acc]. *)
Fixpoint deadlines_from (acc : Z) (l : list Timer) : list (Z * Z) :=
  match l with
  | [] => []
  | t :: l => (tid t, acc + expires t) :: deadlines_from (acc + expires t) l
  end.
Definition deadlines (l : list Timer) : list (Z * Z) := deadlines_from 0 l.

(** No sum of differences leaves the range of an int. *)
Definition in_range (l : list Timer) : Prop :=
  Forall (fun t => 0 <= expires t) l /\ Forall (fun d => snd d < 2 ^ 31) (deadlines l).

(** ** Lemmas *)

Lemma deadlines_from_range acc l : Forall (fun t => 0 <= expires t) l ->
  Forall (fun d => acc <= snd d) (deadlines_from acc l).
Proof.
  intros F. revert acc. induction F as [|t l Ht F IH]; intros acc; simpl; [constructor|].
  constructor; [simpl; lia|]. eapply Forall_impl; [apply IH|]. simpl. lia.
Qed.

Lemma remove_loop_deadlines id l : forall acc, 0 <= acc -> Forall (fun t => 0 <= expires t) l ->
  Forall (fun d => snd d < 2 ^ 31) (deadlines_from acc l) -> NoDup (tid <$> l) ->
  deadlines_from acc (remove_loop id l) = filter (fun d => fst d <> id) (deadlines_from acc l).
Proof.
  induction l as [|t l IH]; intros acc Ha F R N; [done|].
  apply Forall_cons in F as [Ft F]. simpl in R. apply Forall_cons in R as [Rt R]. simpl in Rt.
  rewrite fmap_cons in N. apply NoDup_cons in N as [Nt N]. cbn [remove_loop deadlines_from].
  rewrite filter_cons. cbn [fst].
  destruct (Z.eqb_spec (tid t) id) as [E|E].
  - destruct (decide (tid t <> id)) as [X|_]; [by destruct X|].
    assert (K : forall acc, deadlines_from acc l
      = filter (fun d : Z * Z => fst d <> id) (deadlines_from acc l)).
    { clear -Nt E. subst id. induction l as [|u l IH]; intros acc; [done|].
      rewrite fmap_cons, not_elem_of_cons in Nt. destruct Nt as [Nu Nt].
      cbn [deadlines_from]. rewrite filter_cons. cbn [fst].
      destruct (decide (tid u <> tid t)) as [_|X]; [by rewrite <- IH|].
      destruct X. congruence. }
    rewrite <- K. destruct l as [|u l]; [done|]. simpl in R. apply Forall_cons in R as [Ru R].
    apply Forall_cons in F as [Fu F]. simpl in Ru.
    destruct (Z.ltb_spec 0 (expires t)).
    + cbn [deadlines_from set_expires expires tid]. rewrite s32_id by lia.
      replace (acc + (expires u + expires t)) with (acc + expires t + expires u) by lia. done.
    + by replace (acc + expires t) with acc by lia.
  - destruct (decide (tid t <> id)) as [_|X]; [|by destruct X].
    cbn [deadlines_from]. by rewrite IH by (done || lia).
Qed.

Lemma deadlines_shift l : forall a b, deadlines_from b l =
  (fun d => (fst d, snd d + (b - a))) <$> deadlines_from a l.
Proof.
  induction l as [|t l IH]; intros a b; [done|]. cbn [deadlines_from]. rewrite fmap_cons. simpl.
  rewrite (IH (a + expires t) (b + expires t)).
  replace (b + expires t - (a + expires t)) with (b - a) by lia.
  by replace (a + expires t + (b - a)) with (b + expires t) by lia.
Qed.

(** ** Properties *)

(** TimerRemove takes out one timer and leaves the deadline of every
    other timer unchanged. *)
Theorem TimerRemove_keeps_deadlines id l : in_range l -> NoDup (tid <$> l) ->
  deadlines (snd (TimerRemove id true l)) = filter (fun d => fst d <> id) (deadlines l).
Proof.
  intros [F R] N. unfold TimerRemove. cbn [negb].
  destruct l as [|t l]; [done|]. cbn [snd]. by apply remove_loop_deadlines.
Qed.

Definition mk_timer (id e : Z) : Timer :=
  {| tid := id; func := 0; tdata := 0; owner := 0; expires := e |}.

Lemma TimerRemove_keeps_deadlines_witness :
  deadlines (snd (TimerRemove 2 true [mk_timer 1 10; mk_timer 2 20; mk_timer 3 30]))
  = [(1, 10); (3, 60)].
Proof.
  rewrite (TimerRemove_keeps_deadlines 2 [mk_timer 1 10; mk_timer 2 20; mk_timer 3 30]).
  - reflexivity.
  - split; repeat constructor; simpl; lia.
  - by apply (bool_decide_unpack _).
Defined.

(** A tick moves every deadline closer by the same amount, ten
    milliseconds or what was left of the head's, and calls exactly the
    head's function exactly when its time is up. *)
Theorem UpdateTimers_ticks t l : in_range (t :: l) ->
  let d := Z.min 10 (expires t) in
  match UpdateTimers (t :: l) with
  | (l', None) => 10 < expires t
      /\ deadlines l' = (fun e => (fst e, snd e - d)) <$> deadlines (t :: l)
  | (l', Some f) => expires t <= 10 /\ tid f = tid t
      /\ (tid t, 0) :: deadlines l' = (fun e => (fst e, snd e - d)) <$> deadlines (t :: l)
  end.
Proof.
  intros [F R] d. apply Forall_cons in F as [Ft F]. apply Forall_cons in R as [Rt R].
  simpl in Rt. subst d. unfold UpdateTimers. cbn [set_expires expires]. rewrite s32_id by lia.
  unfold deadlines. cbn [deadlines_from]. rewrite fmap_cons. cbn [fst snd].
  destruct (Z.leb_spec (expires t - 10) 0).
  - split_and!; [lia|done|]. rewrite Z.min_r by lia.
    replace (0 + expires t - expires t) with 0 by lia. f_equal.
    rewrite (deadlines_shift l (0 + expires t) 0). apply list_fmap_ext. intros _ [i v] _. simpl.
    f_equal; lia.
  - split; [lia|]. rewrite Z.min_l by lia. cbn [deadlines_from set_expires tid expires].
    f_equal.
    rewrite (deadlines_shift l (0 + expires t) (0 + (expires t - 10))).
    apply list_fmap_ext. intros _ [i v] _. simpl. f_equal; lia.
Qed.

Lemma UpdateTimers_ticks_witness :
  deadlines (fst (UpdateTimers [mk_timer 1 20; mk_timer 2 5])) = [(1, 10); (2, 15)].
Proof.
  pose proof (UpdateTimers_ticks (mk_timer 1 20) [mk_timer 2 5]) as H.
  destruct H as [_ H]; [split; repeat constructor; simpl; lia|].
  exact H.
Defined.

(** The first two timers get the deadlines asked for, in order,
    whichever is added first. *)
Theorem TimerAdd_two_timers a b :
  0 <= expires a < 2 ^ 31 -> 0 <= expires b < 2 ^ 31 ->
  deadlines (TimerAdd b (TimerAdd a [])) =
    if expires b <=? expires a then [(tid b, expires b); (tid a, expires a)]
    else [(tid a, expires a); (tid b, expires b)].
Proof.
  intros Ha Hb. unfold deadlines, TimerAdd. cbn [add_loop].
  destruct (Z.leb_spec (expires b) (expires a)); cbn [deadlines_from set_expires expires tid];
    rewrite s32_id by lia; repeat (f_equal; try lia).
Qed.

Lemma TimerAdd_two_timers_witness :
  deadlines (TimerAdd (mk_timer 2 30) (TimerAdd (mk_timer 1 10) [])) = [(1, 10); (2, 30)].
Proof. apply (TimerAdd_two_timers (mk_timer 1 10) (mk_timer 2 30)); simpl; lia. Defined.

(** A third timer is placed wrongly: TimerAdd compares its time with
    differences and subtracts only the last difference, so that of three
    timers set for 10, 20 and 30 ms the third runs after 40 ms, and one set
    for 15 ms after two at 10 and 20 ms runs last, after 25 ms. *)
Theorem TimerAdd_third_timer_late :
  deadlines (TimerAdd (mk_timer 3 30) (TimerAdd (mk_timer 2 20) (TimerAdd (mk_timer 1 10) [])))
    = [(1, 10); (2, 20); (3, 40)]
  /\ deadlines (TimerAdd (mk_timer 3 15) (TimerAdd (mk_timer 2 20) (TimerAdd (mk_timer 1 10) [])))
    = [(1, 10); (2, 20); (3, 25)].
Proof. split; reflexivity. Qed.
