(* ===== verification/Sched.v ===== *)
(** * Threads, the scheduler and wait queues
      (kernel/sched.c, kernel/thread.c, kernel/wait.c, kernel/preempt.c,
      include/task.h, include/wait.h, PitInterrupt of
      arch/i386/kernel/pit.c)

    All threads are on one list.  The scheduler picks the running thread
    with the most quantums left; when the best has none, every thread gets
    its priority and a quarter of what it had.  The state is one record;
    the operations are functions on it, and [step] is the transition
    relation they generate, for the invariant. *)

From stdpp Require Import relations.
From S2P Require Import Prelude.

(** ** Model *)

Definition PRIORITY_NONE : Z := 0.
Definition PRIORITY_DEFAULT : Z := 16.
Definition PRIORITY_TOP : Z := 32.
Definition THR_RUNNING : Z := 1.
Definition THR_PAUSED : Z := 2.
Definition THR_DYING : Z := 4.

Record Thread := {
  parent : Z;
  state : Z;
  quantums : Z;
  priority : Z;
  thr_id : Z;
  preemptCount : Z;
  thr_refs : Z;
}.

Definition set_state (v : Z) (t : Thread) : Thread :=
  {| parent := parent t; state := v; quantums := quantums t; priority := priority t;
     thr_id := thr_id t; preemptCount := preemptCount t; thr_refs := thr_refs t |}.
Definition set_quantums (v : Z) (t : Thread) : Thread :=
  {| parent := parent t; state := state t; quantums := v; priority := priority t;
     thr_id := thr_id t; preemptCount := preemptCount t; thr_refs := thr_refs t |}.
Definition set_priority (v : Z) (t : Thread) : Thread :=
  {| parent := parent t; state := state t; quantums := quantums t; priority := v;
     thr_id := thr_id t; preemptCount := preemptCount t; thr_refs := thr_refs t |}.
Definition set_refs (v : Z) (t : Thread) : Thread :=
  {| parent := parent t; state := state t; quantums := quantums t; priority := priority t;
     thr_id := thr_id t; preemptCount := preemptCount t; thr_refs := v |}.
Definition set_preempt (v : Z) (t : Thread) : Thread :=
  {| parent := parent t; state := state t; quantums := quantums t; priority := priority t;
     thr_id := thr_id t; preemptCount := v; thr_refs := thr_refs t |}.

(** [cIds] holds the next thread id of every process. *)
Record sched := {
  threads : gmap Z Thread;
  threadList : list Z;
  currThread : Z;
  nrRunning : Z;
  thrNeedSchedule : bool;
  cIds : gmap Z Z;
}.

Definition with_threads v s :=
  {| threads := v; threadList := threadList s; currThread := currThread s;
     nrRunning := nrRunning s; thrNeedSchedule := thrNeedSchedule s; cIds := cIds s |}.
Definition with_list v s :=
  {| threads := threads s; threadList := v; currThread := currThread s;
     nrRunning := nrRunning s; thrNeedSchedule := thrNeedSchedule s; cIds := cIds s |}.
Definition with_curr v s :=
  {| threads := threads s; threadList := threadList s; currThread := v;
     nrRunning := nrRunning s; thrNeedSchedule := thrNeedSchedule s; cIds := cIds s |}.
Definition with_nr v s :=
  {| threads := threads s; threadList := threadList s; currThread := currThread s;
     nrRunning := v; thrNeedSchedule := thrNeedSchedule s; cIds := cIds s |}.
Definition with_need v s :=
  {| threads := threads s; threadList := threadList s; currThread := currThread s;
     nrRunning := nrRunning s; thrNeedSchedule := v; cIds := cIds s |}.
Definition with_cIds v s :=
  {| threads := threads s; threadList := threadList s; currThread := currThread s;
     nrRunning := nrRunning s; thrNeedSchedule := thrNeedSchedule s; cIds := v |}.

Definition get_thread (t : Z) (s : sched) : outcome Thread := of_option (threads s !! t).
Definition put_thread (t : Z) (v : Thread) (s : sched) : sched :=
  with_threads (<[t := v]> (threads s)) s.

Section Sched.
Variable idleTask : Z.

(** The first loop of ThrChooseNewThread: best quantums and best thread. *)
Fixpoint choose (l : list Z) (c thread : Z) (s : sched) : outcome (Z * Z) :=
  match l with
  | [] => Ret (c, thread)
  | curr :: l =>
      let* t := get_thread curr s in
      if (c <? quantums t) && (state t =? THR_RUNNING)
      then choose l (quantums t) curr s
      else choose l c thread s
  end.

(** The second loop: everybody's quantums are recomputed. *)
Fixpoint recharge (l : list Z) (s : sched) : outcome sched :=
  match l with
  | [] => Ret s
  | curr :: l =>
      let* t := get_thread curr s in
      recharge l (put_thread curr (set_quantums (priority t + Z.shiftr (quantums t) 2) t) s)
  end.

Definition ThrChooseNewThread (s : sched) : outcome (Z * sched) :=
  let* (c, thread) := choose (threadList s) (-1) idleTask s in
  let* s := if c =? 0 then recharge (threadList s) s else Ret s in
  Ret (thread, s).

(** The thread leaves the list and is freed.  For the current thread the
    rest happens on the exit stack, where currThread becomes NULL and a new
    thread is scheduled (_ThrFreeThread). *)
Definition ThrFreeThread (thread : Z) (s : sched) : outcome sched :=
  if thread =? idleTask then Panic
  else
    let s := with_list (filter (fun t => t <> thread) (threadList s)) s in
    let s := with_nr (nrRunning s - 1) s in
    let s := if thread =? currThread s then with_curr 0 s else s in
    Ret (with_threads (delete thread (threads s)) s).

(** What ThrSchedule does besides: the process whose address space becomes
    current (0 for the kernel's), if it switches, and whether the stacks
    are switched. *)
Definition ThrSchedule (s : sched) : outcome (sched * option Z * bool) :=
  let s := with_need false s in
  let prev := match threads s !! currThread s with Some t => parent t | None => 0 end in
  let* s :=
    if currThread s =? 0 then Ret s
    else
      let* t := get_thread (currThread s) s in
      if state t =? THR_DYING then ThrFreeThread (currThread s) s else Ret s in
  let prevThread := currThread s in
  let* (thread, s) := ThrChooseNewThread s in
  let s := with_curr thread s in
  let* t := get_thread thread s in
  let mm := if negb (parent t =? 0) then
              if (prevThread =? 0) || negb (parent t =? prev) then Some (parent t) else None
            else if prevThread =? 0 then Some 0 else None in
  Ret (s, mm, negb (prevThread =? thread)).

Definition SysYield (s : sched) : outcome sched :=
  let* t := get_thread (currThread s) s in
  Ret (with_need true (put_thread (currThread s) (set_quantums 0 t) s)).

(** [ret] is the structure from threadCache, 0 when there is none. *)
Definition ThrCreateThread (ret parent_ : Z) (s : sched) : outcome (Z * sched) :=
  if ret =? 0 then Ret (0, s)
  else
    let id := default 0 (cIds s !! parent_) in
    let t := {| parent := parent_; state := THR_PAUSED; quantums := 0;
                priority := PRIORITY_DEFAULT; thr_id := if parent_ =? 0 then 0 else id;
                preemptCount := 0; thr_refs := 1 |} in
    let s := if parent_ =? 0 then s else with_cIds (<[parent_ := id + 1]> (cIds s)) s in
    let s := put_thread ret t s in
    Ret (ret, with_list (threadList s ++ [ret]) s).

Definition ThrSetPriority (thread prio : Z) (s : sched) : outcome sched :=
  let prio := if PRIORITY_TOP <? prio then PRIORITY_TOP
              else if prio <? PRIORITY_NONE then PRIORITY_NONE else prio in
  let* t := get_thread thread s in
  Ret (put_thread thread (set_priority prio t) s).

Definition ThrStartThread (thread : Z) (s : sched) : outcome sched :=
  let* t := get_thread thread s in
  if negb (state t =? THR_RUNNING)
  then Ret (with_nr (nrRunning s + 1) (put_thread thread (set_state THR_RUNNING t) s))
  else Ret s.

Definition ThrSuspendThread (thread : Z) (s : sched) : outcome sched :=
  if thread =? idleTask then Panic
  else
    let* t := get_thread thread s in
    if state t =? THR_RUNNING
    then Ret (put_thread thread (set_state THR_PAUSED t) (with_nr (nrRunning s - 1) s))
    else Ret s.

Definition ThrResumeThread (thread : Z) (s : sched) : outcome sched :=
  let* t := get_thread thread s in
  if negb (state t =? THR_RUNNING) then
    let* s := ThrStartThread thread s in
    let* t := get_thread thread s in
    let* c := get_thread (currThread s) s in
    if quantums c <=? quantums t then Ret (with_need true s) else Ret s
  else Ret s.

Definition ThrGetThread (thread : Z) (s : sched) : outcome sched :=
  let* t := get_thread thread s in
  Ret (put_thread thread (set_refs (thr_refs t + 1) t) s).

Definition ThrReleaseThread (thread : Z) (s : sched) : outcome sched :=
  let* t := get_thread thread s in
  let s := put_thread thread (set_refs (thr_refs t - 1) t) s in
  if thr_refs t - 1 <=? 0 then ThrFreeThread thread s else Ret s.

(** The current thread ends; if its last reference goes, it is freed on the
    exit stack and a new thread is scheduled from there. *)
Definition ThrDoExitThread (s : sched) : outcome (sched * option Z * bool) :=
  let* t := get_thread (currThread s) s in
  let s := put_thread (currThread s) (set_state THR_DYING t) s in
  let* s := ThrReleaseThread (currThread s) s in
  ThrSchedule s.

Definition SysCreateThread (ret current : Z) (s : sched) : outcome (Z * sched) :=
  let* (thread, s) := ThrCreateThread ret current s in
  if thread =? 0 then Ret (- ENOMEM, s)
  else
    let* s := ThrStartThread thread s in
    let* t := get_thread thread s in
    let* c := get_thread (currThread s) s in
    if quantums c <? quantums t
    then let* (s, _, _) := ThrSchedule s in Ret (thr_id t, s)
    else Ret (thr_id t, s).

Fixpoint ThrGetThreadById (l : list Z) (process threadId : Z) (s : sched) : outcome Z :=
  match l with
  | [] => Ret 0
  | curr :: l =>
      let* t := get_thread curr s in
      if parent t =? 0 then ThrGetThreadById l process threadId s
      else if (thr_id t =? threadId) && (parent t =? process) then Ret curr
      else ThrGetThreadById l process threadId s
  end.

Definition SysSuspendThread (current threadId : Z) (s : sched) : outcome (Z * sched) :=
  let* thread := ThrGetThreadById (threadList s) current threadId s in
  if thread =? 0 then Ret (- EINVAL, s)
  else
    let* s := ThrGetThread thread s in
    let* s := ThrSuspendThread thread s in
    let* (s, _, _) := ThrSchedule s in
    let* s := ThrReleaseThread thread s in
    Ret (0, s).

Definition SysResumeThread (current threadId : Z) (s : sched) : outcome (Z * sched) :=
  let* thread := ThrGetThreadById (threadList s) current threadId s in
  if thread =? 0 then Ret (- EINVAL, s)
  else let* s := ThrResumeThread thread s in Ret (0, s).

Definition SysExitThread (threadId : Z) (s : sched) : outcome (Z * sched) :=
  if threadId =? -1
  then let* (s, _, _) := ThrDoExitThread s in Ret (0, s)
  else Ret (- ENOTIMPL, s).

(** The scheduling part of the timer interrupt. *)
Definition PitInterrupt (s : sched) : outcome sched :=
  if currThread s =? 0 then Ret s
  else
    let* t := get_thread (currThread s) s in
    if 0 <? quantums t
    then Ret (put_thread (currThread s) (set_quantums (quantums t - 1) t) s)
    else Ret (with_need true s).

Definition PreemptDisable (s : sched) : outcome sched :=
  let* t := get_thread (currThread s) s in
  Ret (put_thread (currThread s) (set_preempt (preemptCount t + 1) t) s).
Definition PreemptEnable (s : sched) : outcome sched :=
  let* t := get_thread (currThread s) s in
  Ret (put_thread (currThread s) (set_preempt (preemptCount t - 1) t) s).
Definition PreemptCanSchedule (s : sched) : outcome bool :=
  let* t := get_thread (currThread s) s in Ret (preemptCount t =? 0).

(** IrqHandle for the interrupt of the timer. *)
Definition IrqHandle (s : sched) : outcome sched :=
  let* s := PitInterrupt s in
  if thrNeedSchedule s then
    let* ok := PreemptCanSchedule s in
    if ok then let* (s, _, _) := ThrSchedule s in Ret s else Ret s
  else Ret s.

(** *** Wait queues

    A queue is the sequence of its entries; an entry is its address and
    its thread.  An entry is on a queue or on its own. *)

Fixpoint WakeUpCommon (q : list (Z * Z)) (number : Z) (s : sched) : outcome (list (Z * Z) * sched) :=
  match q with
  | [] => Ret ([], s)
  | (_, thread) :: q =>
      let* s := ThrResumeThread thread s in
      if s32 (number - 1) =? 0 then Ret (q, s) else WakeUpCommon q (s32 (number - 1)) s
  end.

Definition WakeUp (q : list (Z * Z)) (s : sched) := WakeUpCommon q 1 s.
Definition WakeUpAll (q : list (Z * Z)) (s : sched) := WakeUpCommon q 0 s.

Definition WaitPrepareWait (e : Z * Z) (q : list (Z * Z)) : list (Z * Z) :=
  if bool_decide (e ∈ q) then q else q ++ [e].

(** ThrEndWait never returns when the process of the thread is dying. *)
Definition WaitFinishWait (e : Z * Z) (q : list (Z * Z)) (process_dying : bool)
  : outcome (list (Z * Z)) :=
  if process_dying then NoFuel else Ret (filter (fun d => d <> e) q).

End Sched.

(** ** Invariant and transitions *)

Definition MAX_QUANTUMS : Z := 42.

(** A thread the counter nrRunning counts: it runs, or it has ended and is
    not freed yet. *)
Definition active (s : sched) (t : Z) : Prop :=
  match threads s !! t with
  | Some v => state v = THR_RUNNING \/ state v = THR_DYING
  | None => False
  end.
#[export] Instance active_dec s t : Decision (active s t).
Proof. unfold active. destruct (threads s !! t); apply _. Defined.

Definition thread_ok (t : Thread) : Prop :=
  PRIORITY_NONE <= priority t <= PRIORITY_TOP /\ 0 <= quantums t <= MAX_QUANTUMS.

Record sched_inv (idle : Z) (s : sched) : Prop := {
  si_nodup : NoDup (threadList s);
  si_idle : idle ∉ threadList s /\ idle <> 0;
  si_zero : 0 ∉ threadList s;
  si_known : forall t, t ∈ threadList s \/ t = idle -> is_Some (threads s !! t);
  si_curr : currThread s = 0 \/ currThread s = idle \/ currThread s ∈ threadList s;
  si_ok : forall t v, threads s !! t = Some v -> thread_ok v;
  si_count : nrRunning s = Z.of_nat (length (filter (active s) (threadList s)));
}.

(** One call into the thread code.  A thread that has ended is not started
    again, a new structure is not in use, a thread that exits is running,
    and the last reference to a paused thread is not released (see
    [paused_release_miscounts]). *)
Inductive step (idle : Z) : sched -> sched -> Prop :=
| step_create s s' p par r : p <> 0 -> p <> idle -> p ∉ threadList s ->
    ThrCreateThread p par s = Ret (r, s') -> step idle s s'
| step_start s s' t : t ∈ threadList s -> (forall v, threads s !! t = Some v -> state v <> THR_DYING) ->
    ThrStartThread t s = Ret s' -> step idle s s'
| step_suspend s s' t : t ∈ threadList s -> ThrSuspendThread idle t s = Ret s' -> step idle s s'
| step_resume s s' t : t ∈ threadList s -> (forall v, threads s !! t = Some v -> state v <> THR_DYING) ->
    ThrResumeThread t s = Ret s' -> step idle s s'
| step_priority s s' t p : ThrSetPriority t p s = Ret s' -> step idle s s'
| step_yield s s' : SysYield s = Ret s' -> step idle s s'
| step_tick s s' : PitInterrupt s = Ret s' -> step idle s s'
| step_get s s' t : ThrGetThread t s = Ret s' -> step idle s s'
| step_release s s' t : t ∈ threadList s -> (forall v, threads s !! t = Some v -> thr_refs v <= 1 -> active s t) ->
    ThrReleaseThread idle t s = Ret s' -> step idle s s'
| step_exit s s' v mm sw : currThread s ∈ threadList s -> threads s !! currThread s = Some v ->
    state v = THR_RUNNING -> ThrDoExitThread idle s = Ret (s', mm, sw) -> step idle s s'
| step_schedule s s' mm sw : ThrSchedule idle s = Ret (s', mm, sw) -> step idle s s'.

(** ** Lemmas *)

Lemma choose_spec l : forall c th s, (forall t, t ∈ l -> is_Some (threads s !! t)) ->
  exists c' t', choose l c th s = Ret (c', t') /\ c <= c'
    /\ (forall t v, t ∈ l -> threads s !! t = Some v -> state v = THR_RUNNING -> quantums v <= c')
    /\ ((c' = c /\ t' = th) \/ (c < c' /\ t' ∈ l /\ exists v, threads s !! t' = Some v
          /\ state v = THR_RUNNING /\ quantums v = c')).
Proof.
  induction l as [|x l IH]; intros c th s K; cbn [choose].
  - exists c, th. split_and!; [done|lia| |by left]. intros t v H. by apply not_elem_of_nil in H.
  - destruct (K x ltac:(left)) as [v Ev]. unfold get_thread. rewrite Ev. cbn [of_option bindO].
    assert (K' : forall t, t ∈ l -> is_Some (threads s !! t)) by (intros t H; apply K; by right).
    destruct (Z.ltb_spec c (quantums v)), (Z.eqb_spec (state v) THR_RUNNING); cbn [andb].
    1: destruct (IH (quantums v) x s K') as (c' & t' & E & Hc & Hm & Ha).
    2-4: destruct (IH c th s K') as (c' & t' & E & Hc & Hm & Ha).
    all: exists c', t'; split_and!; [done|lia| |].
    all: try (intros t w H' Ew Hw; apply elem_of_cons in H' as [->|H'];
              [assert (w = v) as -> by congruence; (congruence || lia)|eauto]).
    + destruct Ha as [[-> ->]|(? & ? & u & ?)]; right; split_and!; try lia.
      * left.
      * exists v. done.
      * by right.
      * exists u. done.
    + destruct Ha as [[-> ->]|(? & ? & u & ?)]; [by left|right].
      split_and!; [lia|by right|by exists u].
    + destruct Ha as [[-> ->]|(? & ? & u & ?)]; [by left|right].
      split_and!; [lia|by right|by exists u].
    + destruct Ha as [[-> ->]|(? & ? & u & ?)]; [by left|right].
      split_and!; [lia|by right|by exists u].
Qed.

Definition recharged (t : Thread) : Thread :=
  set_quantums (priority t + Z.shiftr (quantums t) 2) t.

Lemma recharge_spec l : forall s, NoDup l -> (forall t, t ∈ l -> is_Some (threads s !! t)) ->
  exists m, recharge l s = Ret (with_threads m s)
    /\ forall t, m !! t = if decide (t ∈ l) then recharged <$> threads s !! t else threads s !! t.
Proof.
  induction l as [|x l IH]; intros s N K; cbn [recharge].
  - exists (threads s). split; [by destruct s|]. intros t.
    destruct (decide (t ∈ [])) as [H|]; [by apply not_elem_of_nil in H|done].
  - apply NoDup_cons in N as [Nx N]. destruct (K x ltac:(left)) as [v Ev].
    unfold get_thread. rewrite Ev. cbn [of_option bindO]. fold (recharged v).
    destruct (IH (put_thread x (recharged v) s) N) as (m & E & Hm).
    { intros t Ht. simpl. destruct (decide (t = x)) as [->|].
      - rewrite lookup_insert_eq. by eexists.
      - rewrite lookup_insert_ne by done. apply K. by right. }
    exists m. rewrite E. split; [done|]. intros t. rewrite Hm. simpl.
    destruct (decide (t = x)) as [->|Nt].
    + rewrite lookup_insert_eq. destruct (decide (x ∈ l)) as [|_]; [done|].
      destruct (decide (x ∈ x :: l)) as [_|X]; [by rewrite Ev|]. destruct X. left.
    + rewrite lookup_insert_ne by done.
      destruct (decide (t ∈ l)) as [H|H], (decide (t ∈ x :: l)) as [H'|H']; try done.
      * destruct H'. by right.
      * apply elem_of_cons in H' as [->|H']; done.
Qed.

Lemma recharged_ok t : thread_ok t -> thread_ok (recharged t).
Proof.
  intros [H1 [H2 H3]]. split; [done|]. unfold recharged. simpl.
  rewrite Z.shiftr_div_pow2 by lia. change (2 ^ 2) with 4.
  unfold PRIORITY_NONE, PRIORITY_TOP, MAX_QUANTUMS in *.
  Z.to_euclidean_division_equations; lia.
Qed.

(** ** Choosing *)

(** The outcome of ThrChooseNewThread. *)
Lemma ThrChooseNewThread_spec idle s : NoDup (threadList s) ->
  (forall t, t ∈ threadList s -> exists v, threads s !! t = Some v /\ 0 <= quantums v) ->
  exists t s', ThrChooseNewThread idle s = Ret (t, s') /\
  ((t = idle /\ s' = s /\ forall u v, u ∈ threadList s -> threads s !! u = Some v ->
      state v <> THR_RUNNING)
   \/ exists v, t ∈ threadList s /\ threads s !! t = Some v /\ state v = THR_RUNNING
      /\ (forall u w, u ∈ threadList s -> threads s !! u = Some w -> state w = THR_RUNNING ->
            quantums w <= quantums v)
      /\ (0 < quantums v -> s' = s)
      /\ (quantums v = 0 -> exists m, s' = with_threads m s /\ forall u,
            m !! u = if decide (u ∈ threadList s) then recharged <$> threads s !! u
                     else threads s !! u)).
Proof.
  intros N K. unfold ThrChooseNewThread.
  destruct (choose_spec (threadList s) (-1) idle s) as (c & t & E & Hc & Hm & Ha).
  { intros t Ht. destruct (K t Ht) as (v & -> & _). by eexists. }
  rewrite E. cbn [bindO]. destruct Ha as [[-> ->]|(Hlt & Ht & v & Ev & Hs & Hq)].
  - exists idle, s. split; [done|]. left. split_and!; [done|done|].
    intros u w Hu Ew Hw. specialize (Hm u w Hu Ew Hw). destruct (K u Hu) as (x & Ex & Hx).
    assert (x = w) as -> by congruence. lia.
  - destruct (Z.eqb_spec c 0) as [Hz|Hz].
    + destruct (recharge_spec (threadList s) s N) as (m & Er & Hr).
      { intros u Hu. destruct (K u Hu) as (w & -> & _). by eexists. }
      rewrite Er. cbn [bindO]. exists t, (with_threads m s). split; [done|]. right. exists v.
      split_and!; try done; [by rewrite Hq|lia|]. intros _. by exists m.
    + exists t, s. split; [done|]. right. exists v. split_and!; try done; [by rewrite Hq|lia].
Qed.

(** ** Counting *)

Lemma count_ext s s' l : (forall t, t ∈ l -> active s t <-> active s' t) ->
  length (filter (active s) l) = length (filter (active s') l).
Proof.
  induction l as [|x l IH]; intros H; [done|]. rewrite !filter_cons.
  assert (IH' : length (filter (active s) l) = length (filter (active s') l))
    by (apply IH; intros t Ht; apply H; by right).
  destruct (H x ltac:(left)) as [H1 H2].
  destruct (decide (active s x)), (decide (active s' x)); simpl; try tauto; lia.
Qed.

(** One thread of the list starts to count. *)
Lemma count_incr s s' l t : NoDup l -> t ∈ l -> ~ active s t -> active s' t ->
  (forall u, u <> t -> active s u <-> active s' u) ->
  length (filter (active s') l) = S (length (filter (active s) l)).
Proof.
  induction l as [|x l IH]; intros N Ht H1 H2 H; [by apply not_elem_of_nil in Ht|].
  apply NoDup_cons in N as [Nx N]. rewrite !filter_cons.
  destruct (decide (x = t)) as [->|Nt].
  - destruct (decide (active s t)), (decide (active s' t)); try done. simpl. f_equal.
    symmetry. apply count_ext. intros u Hu. apply H. congruence.
  - assert (IH' : length (filter (active s') l) = S (length (filter (active s) l))).
    { apply IH; try done. apply elem_of_cons in Ht as [?|?]; [congruence|done]. }
    specialize (H x Nt). destruct (decide (active s x)), (decide (active s' x)); simpl; tauto || lia.
Qed.

(** Taking an active thread off the list. *)
Lemma count_remove s l t : NoDup l -> t ∈ l -> active s t ->
  length (filter (active s) l)
  = S (length (filter (active s) (filter (fun u => u <> t) l))).
Proof.
  induction l as [|x l IH]; intros N Ht Ha; [by apply not_elem_of_nil in Ht|].
  apply NoDup_cons in N as [Nx N]. rewrite (filter_cons (fun u => u <> t)), (filter_cons _ x l).
  destruct (decide (x <> t)) as [Nt|Nt].
  - apply elem_of_cons in Ht as [?|Ht]; [congruence|]. rewrite filter_cons.
    specialize (IH N Ht Ha). destruct (decide (active s x)); simpl; lia.
  - assert (x = t) as -> by (destruct (decide (x = t)); tauto).
    destruct (decide (active s t)); [|done]. simpl. f_equal.
    assert (E : filter (fun u => u <> t) l = l); [|by rewrite E].
    clear -Nx. induction l as [|y l IH]; [done|]. rewrite not_elem_of_cons in Nx.
    destruct Nx as [Ny Nx]. rewrite filter_cons.
    destruct (decide (y <> t)) as [_|X]; [by rewrite IH|]. destruct X. congruence.
Qed.

(** ** Preservation *)

Lemma inv_need idle b s : sched_inv idle s -> sched_inv idle (with_need b s).
Proof. intros []. split; done. Qed.

Lemma inv_curr idle t s : sched_inv idle s -> t = 0 \/ t = idle \/ t ∈ threadList s ->
  sched_inv idle (with_curr t s).
Proof. intros [] H. split; done. Qed.

(** A change of the thread records that keeps every state. *)
Lemma inv_same_states idle s m : sched_inv idle s ->
  (forall t, state <$> m !! t = state <$> threads s !! t) ->
  (forall t v, m !! t = Some v -> thread_ok v) ->
  sched_inv idle (with_threads m s).
Proof.
  intros [] Hs Ho. split; simpl; try done.
  - intros t Ht. specialize (si_known0 t Ht). specialize (Hs t).
    destruct si_known0 as [v Ev]. rewrite Ev in Hs. destruct (m !! t); [by eexists|done].
  - rewrite si_count0. f_equal. apply count_ext. intros t _. unfold active. simpl.
    specialize (Hs t). destruct (threads s !! t), (m !! t); simpl in Hs; try done.
    injection Hs as ->. done.
Qed.

Lemma inv_put_same idle s t v v' : sched_inv idle s -> threads s !! t = Some v ->
  state v' = state v -> thread_ok v' -> sched_inv idle (put_thread t v' s).
Proof.
  intros I Ev Hs Ho. apply inv_same_states; [done| |].
  - intros u. destruct (decide (u = t)) as [->|]; [rewrite lookup_insert_eq, Ev; simpl; congruence|].
    by rewrite lookup_insert_ne.
  - intros u w. destruct (decide (u = t)) as [->|]; [rewrite lookup_insert_eq; congruence|].
    rewrite lookup_insert_ne by done. apply I.
Qed.

(** A thread of the list changes between counting and not counting. *)
Lemma inv_put_state idle s t v st n : sched_inv idle s -> t ∈ threadList s ->
  threads s !! t = Some v ->
  n = Z.of_nat (length (filter (active (put_thread t (set_state st v) s)) (threadList s))) ->
  sched_inv idle (with_nr n (put_thread t (set_state st v) s)).
Proof.
  intros I Ht Ev ->. destruct I. split; simpl; try done.
  - intros u Hu. destruct (decide (u = t)) as [->|].
    + rewrite lookup_insert_eq. by eexists.
    + rewrite lookup_insert_ne by done. auto.
  - intros u w. destruct (decide (u = t)) as [->|].
    + rewrite lookup_insert_eq. intros [= <-]. exact (si_ok0 t v Ev).
    + rewrite lookup_insert_ne by done. apply si_ok0.
Qed.

Lemma put_active s t v st : threads s !! t = Some v ->
  (active (put_thread t (set_state st v) s) t <-> st = THR_RUNNING \/ st = THR_DYING)
  /\ forall u, u <> t -> active s u <-> active (put_thread t (set_state st v) s) u.
Proof.
  intros Ev. unfold active. simpl. rewrite lookup_insert_eq. split; [done|].
  intros u Hu. by rewrite lookup_insert_ne by done.
Qed.

Lemma ThrStartThread_inv idle s t s' : sched_inv idle s -> t ∈ threadList s ->
  (forall v, threads s !! t = Some v -> state v <> THR_DYING) ->
  ThrStartThread t s = Ret s' -> sched_inv idle s'.
Proof.
  intros I Ht Hd E. unfold ThrStartThread, get_thread in E.
  destruct (threads s !! t) as [v|] eqn:Ev; [|done]. cbn [of_option bindO] in E.
  destruct (Z.eqb_spec (state v) THR_RUNNING) as [|Hr]; cbn [negb] in E; inv_outcome; [done|].
  apply (inv_put_state idle s t v); try done.
  destruct (put_active s t v THR_RUNNING Ev) as [A1 A2].
  rewrite (count_incr s _ (threadList s) t); try apply I; try done.
  - rewrite (si_count _ _ I). lia.
  - unfold active. rewrite Ev. specialize (Hd v eq_refl). tauto.
  - apply A1. by left.
Qed.

Lemma ThrSuspendThread_inv idle s t s' : sched_inv idle s -> t ∈ threadList s ->
  ThrSuspendThread idle t s = Ret s' -> sched_inv idle s'.
Proof.
  intros I Ht E. unfold ThrSuspendThread, get_thread in E. destruct (t =? idle); [done|].
  destruct (threads s !! t) as [v|] eqn:Ev; [|done]. cbn [of_option bindO] in E.
  destruct (Z.eqb_spec (state v) THR_RUNNING) as [Hr|]; inv_outcome; [|done].
  change (put_thread t (set_state THR_PAUSED v) (with_nr (nrRunning s - 1) s))
    with (with_nr (nrRunning s - 1) (put_thread t (set_state THR_PAUSED v) s)).
  apply (inv_put_state idle s t v); try done.
  destruct (put_active s t v THR_PAUSED Ev) as [A1 A2].
  rewrite (si_count _ _ I).
  rewrite (count_incr (put_thread t (set_state THR_PAUSED v) s) s (threadList s) t);
    try apply I; try done.
  - lia.
  - rewrite A1. unfold THR_PAUSED, THR_RUNNING, THR_DYING. lia.
  - unfold active. rewrite Ev. by left.
  - intros u Hu. symmetry. by apply A2.
Qed.

Lemma ThrFreeThread_inv idle c s s' : sched_inv idle s -> c ∈ threadList s ->
  active s c -> ThrFreeThread idle c s = Ret s' ->
  sched_inv idle s' /\ currThread s' = (if c =? currThread s then 0 else currThread s).
Proof.
  intros I Hc Ha E. unfold ThrFreeThread in E. destruct (c =? idle); [done|].
  simpl in E. inv_outcome. split; [|by destruct (c =? currThread s)].
  assert (F : forall cu, cu = 0 \/ cu = idle \/ cu ∈ filter (fun u => u <> c) (threadList s) ->
    sched_inv idle (with_threads (delete c (threads s)) (with_curr cu (with_nr (nrRunning s - 1) (with_list (filter (fun u => u <> c) (threadList s)) s))))).
  { intros cu Hcu. pose proof (count_remove s (threadList s) c) as Cr.
    destruct I. split; simpl; try done.
    - by apply NoDup_filter.
    - rewrite list_elem_of_filter. tauto.
    - rewrite list_elem_of_filter. tauto.
    - intros t Ht. assert (t <> c).
      { destruct Ht as [Ht| ->]; [by apply list_elem_of_filter in Ht as [? _]|].
        intros <-. tauto. }
      rewrite lookup_delete_ne by done. apply si_known0.
      destruct Ht as [Ht|]; [left; by apply list_elem_of_filter in Ht as [_ ?]|by right].
    - intros t v. destruct (decide (t = c)) as [->|]; [by rewrite lookup_delete_eq|].
      rewrite lookup_delete_ne by done. apply si_ok0.
    - rewrite si_count0, Cr by done.
      rewrite Nat2Z.inj_succ. replace (Z.succ _ - 1) with
        (Z.of_nat (length (filter (active s) (filter (fun u => u <> c) (threadList s))))) by lia.
      f_equal. apply count_ext. intros t Ht. apply list_elem_of_filter in Ht as [Ht _].
      unfold active. simpl. by rewrite lookup_delete_ne. }
  destruct (Z.eqb_spec c (currThread s)) as [->|N]; simpl; [apply F; by left|]. apply (F (currThread s)).
  destruct (si_curr _ _ I) as [?|[?|?]]; [by left|by right; left|right; right; by apply list_elem_of_filter].
Qed.

Lemma ThrChooseNewThread_inv idle s t s' : sched_inv idle s ->
  ThrChooseNewThread idle s = Ret (t, s') ->
  sched_inv idle s' /\ (t = idle \/ t ∈ threadList s').
Proof.
  intros I E. destruct (ThrChooseNewThread_spec idle s) as (t' & s1 & E' & H).
  { apply I. }
  { intros u Hu. destruct (si_known _ _ I u (or_introl Hu)) as [v Ev]. exists v.
    split; [done|]. apply (si_ok _ _ I u v Ev). }
  rewrite E in E'. injection E' as <- <-.
  destruct H as [(-> & -> & _)|(v & Ht & Ev & _ & _ & H1 & H2)]; [split; [done|by left]|].
  destruct (decide (quantums v = 0)) as [Hq|Hq].
  - destruct (H2 Hq) as (m & -> & Hm). split; [|by right]. apply inv_same_states; [done| |].
    + intros u. rewrite Hm. destruct (decide _); [|done]. by destruct (threads s !! u).
    + intros u w. rewrite Hm. destruct (decide _); [|apply I].
      destruct (threads s !! u) as [x|] eqn:Ex; [|done]. intros [= <-].
      apply recharged_ok. exact (si_ok _ _ I u x Ex).
  - assert (0 <= quantums v) by apply (si_ok _ _ I t v Ev).
    rewrite H1 by lia. split; [done|by right].
Qed.

Lemma ThrSchedule_inv idle s s' mm sw : sched_inv idle s ->
  ThrSchedule idle s = Ret (s', mm, sw) -> sched_inv idle s'.
Proof.
  intros I E. unfold ThrSchedule in E. set (s0 := with_need false s) in *.
  assert (I0 : sched_inv idle s0) by by apply inv_need.
  assert (S1 : forall s1, (if currThread s0 =? 0 then Ret s0
      else let* t := get_thread (currThread s0) s0 in
           if state t =? THR_DYING then ThrFreeThread idle (currThread s0) s0 else Ret s0) = Ret s1 ->
    sched_inv idle s1).
  { intros s1 H. destruct (Z.eqb_spec (currThread s0) 0) as [|Hc]; [by inv_outcome|].
    unfold get_thread in H. destruct (threads s0 !! currThread s0) as [v|] eqn:Ev; [|done].
    cbn [of_option bindO] in H. destruct (Z.eqb_spec (state v) THR_DYING) as [Hd|]; [|by inv_outcome].
    destruct (si_curr _ _ I0) as [?|[Hi|Hin]]; [done| |].
    - unfold ThrFreeThread in H. by rewrite Hi, Z.eqb_refl in H.
    - apply (ThrFreeThread_inv idle (currThread s0) s0 s1) in H as [? _]; try done.
      unfold active. rewrite Ev. by right. }
  destruct (if currThread s0 =? 0 then _ else _) as [s1| | |]; cbn [bindO] in E; [|done..].
  specialize (S1 s1 eq_refl).
  destruct (ThrChooseNewThread idle s1) as [[t s2]| | |] eqn:Ec; cbn [bindO] in E; [|done..].
  destruct (ThrChooseNewThread_inv idle s1 t s2 S1 Ec) as [I2 Ht].
  destruct (get_thread t _) as [v| | |]; cbn [bindO] in E; [|done..].
  injection E as <- _ _. apply inv_curr; [done|]. tauto.
Qed.

Lemma ThrCreateThread_inv idle p par r s s' : p <> 0 -> p <> idle -> p ∉ threadList s -> ThrCreateThread p par s = Ret (r, s') -> sched_inv idle s -> sched_inv idle s'.
Proof.
  intros Hp Hi Hn E I.
  unfold ThrCreateThread in E. destruct (Z.eqb_spec p 0); [done|]. injection E as <- <-.
  set (nt := {| parent := par; state := THR_PAUSED; quantums := 0; priority := PRIORITY_DEFAULT;
    thr_id := _; preemptCount := 0; thr_refs := 1 |}).
  assert (Hact : forall u, u ∈ threadList s -> active s u
    <-> active (with_threads (<[p := nt]> (threads s)) s) u).
  { intros u Hu. unfold active. simpl. rewrite lookup_insert_ne by congruence. done. }
  destruct I. destruct (par =? 0); split; simpl; try done.
  all: try (apply NoDup_app; split_and!; [done| |apply NoDup_singleton]; intros u Hu Hu';
            apply list_elem_of_singleton in Hu' as ->; done).
  all: try (rewrite elem_of_app, list_elem_of_singleton; intuition congruence).
  all: try (intros u Hu; destruct (decide (u = p)) as [->|];
            [rewrite lookup_insert_eq; by eexists|rewrite lookup_insert_ne by done];
            apply si_known0; rewrite elem_of_app, list_elem_of_singleton in Hu; tauto).
  all: try (intros u v; destruct (decide (u = p)) as [->|];
            [rewrite lookup_insert_eq; intros [= <-]; unfold thread_ok, nt, PRIORITY_NONE,
               PRIORITY_DEFAULT, PRIORITY_TOP, MAX_QUANTUMS; simpl; lia
            |rewrite lookup_insert_ne by done; apply si_ok0]).
  all: rewrite si_count0, filter_app, length_app; simpl; rewrite filter_cons;
    destruct (decide (active _ p)) as [Ha|_];
    [unfold active in Ha; simpl in Ha; rewrite lookup_insert_eq in Ha; simpl in Ha;
     unfold THR_PAUSED, THR_RUNNING, THR_DYING in Ha; lia|].
  all: rewrite filter_nil; simpl; rewrite Nat.add_0_r; f_equal; apply count_ext;
    intros u Hu; exact (Hact u Hu).
Qed.
Lemma ThrResumeThread_inv idle t s s' : t ∈ threadList s -> (forall v, threads s !! t = Some v -> state v <> THR_DYING) -> ThrResumeThread t s = Ret s' -> sched_inv idle s -> sched_inv idle s'.
Proof.
  intros Ht Hd E I.
  unfold ThrResumeThread, get_thread in E.
  destruct (threads s !! t) as [v|] eqn:Ev; [|done]. cbn [of_option bindO] in E.
  destruct (negb _); [|by inv_outcome].
  destruct (ThrStartThread t s) as [s1| | |] eqn:E1; cbn [bindO] in E; [|done..].
  assert (I1 : sched_inv idle s1) by (eapply ThrStartThread_inv; [exact I|exact Ht| |exact E1];
    intros w Ew; apply Hd; congruence).
  inv_outcome. destruct (_ <=? _); inv_outcome; [by apply inv_need|done].
Qed.
Lemma ThrSetPriority_inv idle t p s s' : ThrSetPriority t p s = Ret s' -> sched_inv idle s -> sched_inv idle s'.
Proof.
  intros E I.
  unfold ThrSetPriority, get_thread in E. destruct (threads s !! t) as [v|] eqn:Ev; [|done].
  cbn [of_option bindO] in E. inv_outcome. eapply inv_put_same; [done|done|done|].
  destruct (si_ok _ _ I t v Ev) as [_ ?]. split; [|done].
  unfold PRIORITY_TOP, PRIORITY_NONE. cbn [set_priority priority]. zcases; lia.
Qed.
Lemma SysYield_inv idle s s' : SysYield s = Ret s' -> sched_inv idle s -> sched_inv idle s'.
Proof.
  intros E I.
  unfold SysYield, get_thread in E. destruct (threads s !! currThread s) as [v|] eqn:Ev; [|done].
  cbn [of_option bindO] in E. inv_outcome. apply inv_need.
  eapply inv_put_same; [done|done|done|].
  destruct (si_ok _ _ I _ v Ev) as [? _]. split; [done|]. simpl. unfold MAX_QUANTUMS. lia.
Qed.
Lemma PitInterrupt_inv idle s s' : PitInterrupt s = Ret s' -> sched_inv idle s -> sched_inv idle s'.
Proof.
  intros E I.
  unfold PitInterrupt, get_thread in E. destruct (_ =? 0); [by inv_outcome|].
  destruct (threads s !! currThread s) as [v|] eqn:Ev; [|done]. cbn [of_option bindO] in E.
  destruct (Z.ltb_spec 0 (quantums v)); inv_outcome; [|by apply inv_need].
  eapply inv_put_same; [done|done|done|].
  destruct (si_ok _ _ I _ v Ev) as [? ?]. split; [done|]. simpl. lia.
Qed.
Lemma ThrGetThread_inv idle t s s' : ThrGetThread t s = Ret s' -> sched_inv idle s -> sched_inv idle s'.
Proof.
  intros E I.
  unfold ThrGetThread, get_thread in E. destruct (threads s !! t) as [v|] eqn:Ev; [|done].
  cbn [of_option bindO] in E. inv_outcome. eapply inv_put_same; [done|done|done|].
  apply (si_ok _ _ I t v Ev).
Qed.
(** A thread that exits, from running to dying, still counts. *)
Lemma exit_inv idle v s : currThread s ∈ threadList s -> threads s !! currThread s = Some v -> state v = THR_RUNNING -> sched_inv idle s -> sched_inv idle (put_thread (currThread s) (set_state THR_DYING v) s).
Proof.
  intros Hc Ev Hr I.
  assert (X : put_thread (currThread s) (set_state THR_DYING v) s
    = with_nr (nrRunning s) (put_thread (currThread s) (set_state THR_DYING v) s)) by done.
  rewrite X. apply (inv_put_state idle s (currThread s) v); try done.
  rewrite (si_count _ _ I). f_equal. apply count_ext. intros u _.
  destruct (put_active s (currThread s) v THR_DYING Ev) as [A1 A2].
  destruct (decide (u = currThread s)) as [->|N]; [|by apply A2].
  rewrite A1. unfold active. rewrite Ev. tauto.
Qed.

Lemma ThrReleaseThread_inv idle t s s' : t ∈ threadList s -> (forall v, threads s !! t = Some v -> thr_refs v <= 1 -> active s t) ->
  ThrReleaseThread idle t s = Ret s' -> sched_inv idle s -> sched_inv idle s'.
Proof.
  intros Ht Ha E I. unfold ThrReleaseThread, get_thread in E. destruct (threads s !! t) as [v|] eqn:Ev; [|done]. cbn [of_option bindO] in E.
  set (s1 := put_thread t (set_refs (thr_refs v - 1) v) s) in *. assert (I1 : sched_inv idle s1) by (apply (inv_put_same idle s t v); try done; apply (si_ok _ _ I t v Ev)).
  destruct (Z.leb_spec (thr_refs v - 1) 0); [|by injection E as <-]. apply (ThrFreeThread_inv idle t s1 s') in E as [? _]; try done.
  specialize (Ha v eq_refl ltac:(lia)). unfold active in *. rewrite Ev in Ha. unfold s1, put_thread. cbn [with_threads threads]. by rewrite lookup_insert_eq.
Qed.
Lemma ThrDoExitThread_inv idle v s s' mm sw : currThread s ∈ threadList s -> threads s !! currThread s = Some v -> state v = THR_RUNNING ->
  ThrDoExitThread idle s = Ret (s', mm, sw) -> sched_inv idle s -> sched_inv idle s'.
Proof.
  intros Hc Ev Hr E I. unfold ThrDoExitThread, get_thread in E. rewrite Ev in E. cbn [of_option bindO] in E. pose proof (exit_inv idle v s Hc Ev Hr I) as I1.
  destruct (ThrReleaseThread _ _ _) as [s1| | |] eqn:Er; cbn [bindO] in E; [|done..]. eapply ThrSchedule_inv; [|exact E]. eapply ThrReleaseThread_inv; [| |exact Er|exact I1]; [done|].
  intros w Ew _. unfold active, put_thread. cbn [with_threads threads]. rewrite lookup_insert_eq. by right.
Qed.

Lemma step_inv idle s s' : step idle s s' -> sched_inv idle s -> sched_inv idle s'.
Proof.
  intros S I. destruct S; subst; eauto using ThrCreateThread_inv, ThrStartThread_inv, ThrSuspendThread_inv, ThrResumeThread_inv,
    ThrSetPriority_inv, SysYield_inv, PitInterrupt_inv, ThrGetThread_inv, ThrReleaseThread_inv, ThrDoExitThread_inv, ThrSchedule_inv.
Qed.

(** The first part of ThrSchedule: a current thread that has ended goes. *)
Lemma free_dying idle s v0 : sched_inv idle s -> threads s !! idle = Some v0 ->
  state v0 <> THR_DYING ->
  exists s1, (if currThread s =? 0 then Ret s
      else let* t := get_thread (currThread s) s in
           if state t =? THR_DYING then ThrFreeThread idle (currThread s) s else Ret s) = Ret s1
    /\ sched_inv idle s1
    /\ (forall t, t ∈ threadList s1 <-> t ∈ threadList s
          /\ ~ (t = currThread s /\ exists v, threads s !! t = Some v /\ state v = THR_DYING))
    /\ forall t, t ∈ threadList s1 -> threads s1 !! t = threads s !! t.
Proof.
  intros I E0 H0.
  destruct (Z.eqb_spec (currThread s) 0) as [Hc|Hc].
  - exists s. split_and!; try done. intros t. split; [|tauto]. intros Ht. split; [done|].
    intros [-> _]. rewrite Hc in Ht. by apply (si_zero _ _ I).
  - assert (Hin : currThread s = idle \/ currThread s ∈ threadList s)
      by (destruct (si_curr _ _ I); tauto).
    destruct (si_known _ _ I (currThread s)) as [v Ev]; [tauto|].
    unfold get_thread. rewrite Ev. cbn [of_option bindO].
    destruct (Z.eqb_spec (state v) THR_DYING) as [Hd|Hd].
    + destruct Hin as [Hi|Hin]; [rewrite Hi in Ev; congruence|].
      assert (Ni : currThread s <> idle)
        by (intros Ei; rewrite Ei in Hin; destruct (si_idle _ _ I); tauto).
      destruct (ThrFreeThread idle (currThread s) s) as [s1| | |] eqn:Ef.
      2-4: unfold ThrFreeThread in Ef; destruct (Z.eqb_spec (currThread s) idle); done.
      exists s1. split; [done|].
      destruct (ThrFreeThread_inv idle (currThread s) s s1 I Hin) as [I1 _]; [unfold active; rewrite Ev; by right|done|].
      split; [done|]. unfold ThrFreeThread in Ef.
      destruct (Z.eqb_spec (currThread s) idle); [done|]. simpl in Ef. rewrite Z.eqb_refl in Ef.
      injection Ef as <-. simpl. split.
      * intros t. rewrite list_elem_of_filter. split.
        -- intros [Hn Ht]. split; [done|]. tauto.
        -- intros [Ht Hn]. split; [|done]. intros ->. apply Hn. split; [done|]. by exists v.
      * intros t Ht. apply list_elem_of_filter in Ht as [Hn _]. by rewrite lookup_delete_ne.
    + exists s. split_and!; try done. intros t. split; [|tauto]. intros Ht. split; [done|].
      intros [-> (w & Ew & Hw)]. congruence.
Qed.

(** ** Waking up *)

Lemma ThrResumeThread_spec t s : is_Some (threads s !! t) -> is_Some (threads s !! currThread s) ->
  exists s', ThrResumeThread t s = Ret s' /\ currThread s' = currThread s
    /\ forall u, state <$> threads s' !! u =
         if decide (u = t) then Some THR_RUNNING else state <$> threads s !! u.
Proof.
  intros [v Ev] [c Ec]. unfold ThrResumeThread, ThrStartThread, get_thread.
  rewrite Ev. cbn [of_option bindO].
  destruct (Z.eqb_spec (state v) THR_RUNNING) as [Hr|Hr]; cbn [negb].
  - exists s. split_and!; [done|done|]. intros u. destruct (decide (u = t)) as [->|]; [|done].
    rewrite Ev. simpl. congruence.
  - cbn [bindO]. cbn [with_nr put_thread with_threads threads currThread].
    rewrite lookup_insert_eq. cbn [of_option bindO].
    assert (X : exists c', <[t := set_state THR_RUNNING v]> (threads s) !! currThread s = Some c').
    { destruct (decide (currThread s = t)) as [->|]; [rewrite lookup_insert_eq|
        rewrite lookup_insert_ne by done]; eauto. }
    destruct X as [c' Ec']. rewrite Ec'. cbn [of_option bindO].
    assert (F : forall u, state <$> <[t := set_state THR_RUNNING v]> (threads s) !! u =
      if decide (u = t) then Some THR_RUNNING else state <$> threads s !! u).
    { intros u. destruct (decide (u = t)) as [->|]; [by rewrite lookup_insert_eq|].
      by rewrite lookup_insert_ne. }
    destruct (_ <=? _); eexists; split; try reflexivity; (split; [done|exact F]).
Qed.

Lemma state_is_Some (s' : sched) (t : Z) : (exists x, state <$> threads s' !! t = Some x) ->
  is_Some (threads s' !! t).
Proof. intros [x H]. destruct (threads s' !! t); [by eexists|done]. Qed.

(** After one wake-up the other threads of the queue still exist. *)
Lemma resume_keeps t s s' u : is_Some (threads s !! u) ->
  (forall u, state <$> threads s' !! u =
     if decide (u = t) then Some THR_RUNNING else state <$> threads s !! u) ->
  is_Some (threads s' !! u).
Proof.
  intros [v Ev] H. apply state_is_Some. rewrite H.
  destruct (decide _); [by eexists|]. rewrite Ev. by eexists.
Qed.

Lemma wake_some q : forall n s, (forall e, e ∈ q -> is_Some (threads s !! snd e)) ->
  is_Some (threads s !! currThread s) -> 0 < n < 2 ^ 31 ->
  exists s', WakeUpCommon q n s = Ret (drop (Z.to_nat n) q, s')
    /\ forall t, state <$> threads s' !! t =
         if decide (t ∈ snd <$> take (Z.to_nat n) q) then Some THR_RUNNING
         else state <$> threads s !! t.
Proof.
  induction q as [|[e t] q IH]; intros n s K C Hn; cbn [WakeUpCommon].
  - exists s. rewrite drop_nil, take_nil. split; [done|]. intros u.
    destruct (decide _) as [H|]; [by apply not_elem_of_nil in H|done].
  - destruct (ThrResumeThread_spec t s (K (e, t) ltac:(left)) C) as (s1 & E1 & C1 & H1).
    rewrite E1. cbn [bindO]. rewrite s32_id by lia.
    replace (Z.to_nat n) with (S (Z.to_nat (n - 1))) by lia. cbn [drop take].
    rewrite fmap_cons. cbn [snd].
    assert (Hd : forall u,
      (if decide (u ∈ t :: []) then Some THR_RUNNING else state <$> threads s !! u)
      = state <$> threads s1 !! u).
    { intros u. rewrite H1. destruct (decide (u ∈ [t])) as [X|X], (decide (u = t)) as [Y|Y];
        try done; rewrite list_elem_of_singleton in X; done. }
    destruct (Z.eqb_spec (n - 1) 0) as [Hz|Hz].
    + exists s1. rewrite Hz. cbn [Z.to_nat take drop]. split; [done|]. intros u.
      by rewrite Hd.
    + destruct (IH (n - 1) s1) as (s' & E & H).
      { intros d Hin. eapply resume_keeps; [|exact H1]. apply K. by right. }
      { rewrite C1. by eapply resume_keeps. }
      { lia. }
      exists s'. split; [done|]. intros u. rewrite H, H1.
      destruct (decide (u ∈ snd <$> take (Z.to_nat (n - 1)) q)) as [X|X],
        (decide (u ∈ t :: (snd <$> take (Z.to_nat (n - 1)) q))) as [Y|Y],
        (decide (u = t)) as [W|W]; try done.
      all: try (exfalso; apply Y; by right).
      all: try (exfalso; apply Y; subst; by left).
      all: try (apply elem_of_cons in Y as [?|?]; done).
Qed.

(** A count that has passed zero never reaches it again. *)
Lemma wake_all q : forall n s, (forall e, e ∈ q -> is_Some (threads s !! snd e)) ->
  is_Some (threads s !! currThread s) -> n <= 0 -> Z.of_nat (length q) - n < 2 ^ 31 ->
  exists s', WakeUpCommon q n s = Ret ([], s')
    /\ forall t, state <$> threads s' !! t =
         if decide (t ∈ snd <$> q) then Some THR_RUNNING else state <$> threads s !! t.
Proof.
  induction q as [|[e t] q IH]; intros n s K C Hn Hl; cbn [WakeUpCommon].
  - exists s. split; [done|]. intros u.
    destruct (decide _) as [H|]; [by apply not_elem_of_nil in H|done].
  - destruct (ThrResumeThread_spec t s (K (e, t) ltac:(left)) C) as (s1 & E1 & C1 & H1).
    simpl in Hl. rewrite E1. cbn [bindO]. rewrite s32_id by lia.
    destruct (Z.eqb_spec (n - 1) 0); [lia|].
    destruct (IH (n - 1) s1) as (s' & E & H).
    { intros d Hin. eapply resume_keeps; [|exact H1]. apply K. by right. }
    { rewrite C1. by eapply resume_keeps. }
    { lia. }
    { lia. }
    exists s'. split; [done|]. intros u. rewrite H, H1, fmap_cons. cbn [snd].
    destruct (decide (u ∈ snd <$> q)) as [X|X], (decide (u ∈ t :: (snd <$> q))) as [Y|Y],
      (decide (u = t)) as [W|W]; try done.
    all: try (exfalso; apply Y; by right).
    all: try (exfalso; apply Y; subst; by left).
    all: try (apply elem_of_cons in Y as [?|?]; done).
Qed.

(** ** Properties *)

(** C27: The scheduler runs the right thread: from every well-formed state
    ThrSchedule returns, frees the current thread exactly when it has
    ended, and makes current a running thread with the most quantums of
    all running threads, or the idle task when no thread runs. *)
Theorem ThrSchedule_picks_best idle s v0 :
  sched_inv idle s -> threads s !! idle = Some v0 -> state v0 <> THR_DYING ->
  exists s' mm sw, ThrSchedule idle s = Ret (s', mm, sw)
    /\ (forall t, t ∈ threadList s' <-> t ∈ threadList s
          /\ ~ (t = currThread s /\ exists v, threads s !! t = Some v /\ state v = THR_DYING))
    /\ ((currThread s' = idle /\ forall u v, u ∈ threadList s' -> threads s !! u = Some v ->
            state v <> THR_RUNNING)
        \/ exists v, currThread s' ∈ threadList s' /\ threads s !! currThread s' = Some v
            /\ state v = THR_RUNNING
            /\ forall u w, u ∈ threadList s' -> threads s !! u = Some w ->
                 state w = THR_RUNNING -> quantums w <= quantums v).
Proof.
  intros I E0 H0. unfold ThrSchedule. set (s0 := with_need false s).
  assert (I0 : sched_inv idle s0) by by apply inv_need.
  destruct (free_dying idle s0 v0 I0 E0 H0) as (s1 & E1 & I1 & Hl & Hk). rewrite E1. cbn [bindO].
  destruct (ThrChooseNewThread_spec idle s1) as (t & s2 & E2 & H2).
  { apply I1. }
  { intros u Hu. destruct (si_known _ _ I1 u (or_introl Hu)) as [v Ev]. exists v.
    split; [done|]. apply (si_ok _ _ I1 u v Ev). }
  rewrite E2. cbn [bindO].
  destruct (ThrChooseNewThread_inv idle s1 t s2 I1 E2) as [I2 Ht].
  destruct (si_known _ _ I2 t) as [vt Evt]; [tauto|].
  unfold get_thread. cbn [threads with_curr]. rewrite Evt. cbn [of_option bindO].
  do 3 eexists. split; [reflexivity|]. cbn [threadList currThread with_curr].
  assert (L2 : threadList s2 = threadList s1).
  { destruct H2 as [(_ & -> & _)|(v & _ & Ev & _ & _ & H3 & H4)]; [done|].
    destruct (si_ok _ _ I1 t v Ev) as [_ [Q _]].
    destruct (decide (quantums v = 0)) as [Z0|]; [by destruct (H4 Z0) as (m & -> & _)|].
    by rewrite H3 by lia. }
  rewrite L2. split; [exact Hl|].
  destruct H2 as [(-> & _ & Hn)|(v & Hin & Ev & Hr & Hm & _)].
  - left. split; [done|]. intros u w Hu Ew. apply (Hn u w Hu). by rewrite Hk.
  - right. exists v. split_and!; try done; [by rewrite <- Hk|].
    intros u w Hu Ew. apply (Hm u w Hu). by rewrite Hk.
Qed.

(** An idle task, a running and a paused thread. *)
Definition demo_thread (st q : Z) : Thread :=
  {| parent := 0; state := st; quantums := q; priority := 16; thr_id := 0; preemptCount := 0;
     thr_refs := 1 |}.
Definition demo_sched : sched := {|
  threads := <[1 := demo_thread THR_RUNNING 0]> (<[2 := demo_thread THR_RUNNING 7]>
    (<[3 := demo_thread THR_PAUSED 9]> ∅));
  threadList := [2; 3]; currThread := 1; nrRunning := 1; thrNeedSchedule := false; cIds := ∅;
|}.

Lemma demo_sched_inv : sched_inv 1 demo_sched.
Proof.
  split; simpl.
  - by apply (bool_decide_unpack _).
  - split; [by apply (bool_decide_unpack _)|lia].
  - by apply (bool_decide_unpack _).
  - intros t [Ht| ->]; [|by eexists].
    apply elem_of_cons in Ht as [->|Ht]; [by eexists|].
    apply list_elem_of_singleton in Ht as ->. by eexists.
  - right. by left.
  - intros t v. unfold thread_ok, demo_thread, PRIORITY_NONE, PRIORITY_TOP, MAX_QUANTUMS.
    destruct (decide (t = 1)) as [->|]; [|rewrite lookup_insert_ne by done];
      [rewrite lookup_insert_eq; intros [= <-]; simpl; lia|].
    destruct (decide (t = 2)) as [->|]; [|rewrite lookup_insert_ne by done];
      [rewrite lookup_insert_eq; intros [= <-]; simpl; lia|].
    destruct (decide (t = 3)) as [->|]; [|rewrite lookup_insert_ne by done];
      [rewrite lookup_insert_eq; intros [= <-]; simpl; lia|]. by rewrite lookup_empty.
  - reflexivity.
Qed.

Lemma ThrSchedule_picks_best_witness : exists s' mm sw,
  ThrSchedule 1 demo_sched = Ret (s', mm, sw)
  /\ forall t, t ∈ threadList s' -> t ∈ threadList demo_sched.
Proof.
  destruct (ThrSchedule_picks_best 1 demo_sched (demo_thread THR_RUNNING 0) demo_sched_inv)
    as (s' & mm & sw & E & L & _); [reflexivity|vm_compute; congruence|].
  exists s', mm, sw. split; [exact E|]. intros t Ht. apply L, Ht.
Defined.

(** C8: The bookkeeping of the thread code is invariant: however threads
    are created, started, suspended, resumed, given priorities, ticked,
    referred to, released, ended (ThrDoExitThread) and scheduled, every
    listed thread exists and is listed once, priorities and quantums stay
    within their bounds (so no thread accumulates more than 42 quantums),
    and nrRunning is the number of listed threads that run or have ended
    and wait to be freed, as long as the last reference to a paused thread
    is not released. *)
Theorem sched_invariant idle s s' :
  sched_inv idle s -> rtc (step idle) s s' -> sched_inv idle s'.
Proof. intros I S. induction S as [|s s1 s' S1 S IH]; eauto using step_inv. Qed.

(** A thread is started, it is scheduled and it exits. *)
Lemma sched_invariant_witness : exists s', rtc (step 1) demo_sched s' /\ nrRunning s' = 1 /\ threadList s' = [2] /\ sched_inv 1 s'.
Proof.
  assert (S : exists s', rtc (step 1) demo_sched s' /\ nrRunning s' = 1 /\ threadList s' = [2]).
  { eexists. split; [|split].
    - eapply rtc_l; [eapply (step_start 1 demo_sched _ 3); [right; left| |vm_compute; reflexivity]|].
      { intros v Ev. vm_compute in Ev. injection Ev as <-. vm_compute. congruence. }
      eapply rtc_l; [eapply step_schedule; vm_compute; reflexivity|]. apply rtc_once. eapply (step_exit 1 _ _ (demo_thread THR_RUNNING 9)); [right; left|vm_compute; reflexivity..].
    - reflexivity.
    - reflexivity. }
  destruct S as (s' & S & N & L). exists s'. split; [exact S|]. split; [exact N|]. split; [exact L|]. exact (sched_invariant 1 demo_sched s' demo_sched_inv S).
Defined.

(** ThrFreeThread takes one off nrRunning for a paused thread too. *)
Example paused_release_miscounts : (let* s := ThrReleaseThread 1 3 demo_sched in Ret (nrRunning s, length (filter (active s) (threadList s)))) = Ret (0, 1%nat).
Proof. vm_compute. reflexivity. Qed.

(** A wake-up resumes the threads that waited longest: WakeUpCommon
    with a positive number resumes that many threads from the front of the
    queue (all of them if there are fewer), with 0 every thread; exactly
    those entries leave the queue, and no other thread changes state. *)
Theorem WakeUpCommon_fifo q n s :
  (forall e, e ∈ q -> is_Some (threads s !! snd e)) ->
  is_Some (threads s !! currThread s) ->
  0 <= n < 2 ^ 31 -> Z.of_nat (length q) < 2 ^ 31 ->
  let k := if n =? 0 then length q else Z.to_nat n in
  exists s', WakeUpCommon q n s = Ret (drop k q, s')
    /\ forall t, state <$> threads s' !! t =
         if decide (t ∈ snd <$> take k q) then Some THR_RUNNING else state <$> threads s !! t.
Proof.
  intros K C Hn Hl k. subst k. destruct (Z.eqb_spec n 0) as [->|Nz].
  - destruct (wake_all q 0 s K C) as (s' & E & H); [lia|lia|]. rewrite drop_all, take_ge by lia.
    exists s'. done.
  - destruct (wake_some q n s K C) as (s' & E & H); [lia|]. exists s'. done.
Qed.

Lemma WakeUpCommon_fifo_witness : exists s',
  WakeUpCommon [(100, 3); (101, 2)] 1 demo_sched = Ret ([(101, 2)], s').
Proof.
  destruct (WakeUpCommon_fifo [(100, 3); (101, 2)] 1 demo_sched) as (s' & E & _).
  - intros e He. apply elem_of_cons in He as [->|He]; [by eexists|].
    apply list_elem_of_singleton in He as ->. by eexists.
  - by eexists.
  - lia.
  - simpl. lia.
  - exists s'. exact E.
Defined.
