(* ===== verification/SchedLive.v ===== *)
(** * No running thread starves
      (kernel/sched.c, arch/i386/kernel/ints.c, arch/i386/kernel/pit.c)

    The threads only compute: nothing happens but interrupts of the timer.
    An interrupt takes a quantum from the current thread, or schedules when
    it has none left; when no running thread has any, all get new ones.  A
    running thread with a positive priority then becomes the current one
    after a number of interrupts that depends on the number of threads
    only. *)

From S2P Require Import Prelude Sched.

(** ** Threads that compute *)

Record computing (idle : Z) (s : sched) : Prop := {
  co_inv : sched_inv idle s;
  co_need : thrNeedSchedule s = false;
  co_curr : currThread s = idle \/ currThread s ∈ threadList s;
  co_threads u v : threads s !! u = Some v -> state v <> THR_DYING /\ preemptCount v = 0;
}.

(** [n] interrupts of the timer. *)
Fixpoint interrupts (idle : Z) (n : nat) (s : sched) : outcome sched :=
  match n with O => Ret s | S n => let* s := IrqHandle idle s in interrupts idle n s end.

(** The quantums of all threads, the measure of the argument. *)
Definition quantums_at (s : sched) (u : Z) : nat :=
  match threads s !! u with Some v => Z.to_nat (quantums v) | None => 0 end.
Definition total (idle : Z) (s : sched) : nat := sum_list_with (quantums_at s) (idle :: threadList s).
Definition measure (idle : Z) (s : sched) : nat :=
  2 * total idle s + (if decide (quantums_at s (currThread s) = 0%nat) then 1 else 0).

Lemma sum_list_with_decr {A} (f g : A -> nat) l x : NoDup l -> x ∈ l -> f x = S (g x) -> (forall y, y <> x -> f y = g y) ->
  sum_list_with f l = S (sum_list_with g l).
Proof.
  intros Nd I Ex Ey. induction l as [|y l IH]; [by apply not_elem_of_nil in I|].
  apply NoDup_cons in Nd as [Ny Nd]. cbn [sum_list_with]. apply elem_of_cons in I as [<-|I].
  - rewrite Ex. assert (E : sum_list_with f l = sum_list_with g l); [|lia].
    clear IH Nd. induction l as [|z l IH]; [done|]. cbn [sum_list_with]. rewrite (Ey z) by set_solver. rewrite IH by set_solver. done.
  - rewrite (Ey y) by (intros ->; done). rewrite IH by done. lia.
Qed.

Lemma total_bound idle s : sched_inv idle s -> (total idle s <= 42 * (length (threadList s) + 1))%nat.
Proof.
  intros I. unfold total. replace (length (threadList s) + 1)%nat with (length (idle :: threadList s)) by (cbn; lia).
  induction (idle :: threadList s) as [|u l IH]; [done|]. cbn [sum_list_with length]. unfold quantums_at at 1.
  destruct (threads s !! u) as [v|] eqn:E; [|lia]. destruct (si_ok _ _ I u v E) as [_ Q]. unfold MAX_QUANTUMS in Q. lia.
Qed.

(** ** One interrupt *)

(** What an interrupt does to a running thread [t] that is not the current
    one: it becomes current, or keeps its quantums while the measure goes
    down, or gets new quantums when it had none. *)
Definition progress (idle t : Z) (v : Thread) (s s' : sched) : Prop :=
  computing idle s' /\ threadList s' = threadList s
  /\ exists v', threads s' !! t = Some v' /\ state v' = state v /\ priority v' = priority v
    /\ (currThread s' = t
        \/ (quantums v' = quantums v /\ (measure idle s' < measure idle s)%nat)
        \/ (quantums v = 0 /\ quantums v' = priority v)).

(** The current thread has quantums left. *)
Lemma IrqHandle_ticks idle s t v c : computing idle s -> threads s !! t = Some v -> currThread s <> t ->
  threads s !! currThread s = Some c -> 0 < quantums c -> exists s', IrqHandle idle s = Ret s' /\ progress idle t v s s'.
Proof.
  intros [I N Hc Ht] Ev Nt Ec Q. pose proof (si_zero _ _ I) as Z0. pose proof (si_idle _ _ I) as [Ni Zi].
  assert (C0 : currThread s <> 0) by (intros E; rewrite E in Hc; destruct Hc; congruence).
  unfold IrqHandle, PitInterrupt, get_thread. destruct (Z.eqb_spec (currThread s) 0); [done|]. rewrite Ec. cbn [of_option bindO].
  destruct (Z.ltb_spec 0 (quantums c)); [|lia]. set (c' := set_quantums (quantums c - 1) c). cbn [bindO thrNeedSchedule put_thread with_threads].
  rewrite N. set (s' := put_thread (currThread s) c' s). exists s'. split; [done|].
  assert (Ok : thread_ok c') by (destruct (si_ok _ _ I _ c Ec) as [? ?]; split; [done|]; cbn; lia).
  assert (I' : sched_inv idle s') by (by apply (inv_put_same idle s (currThread s) c c')).
  assert (M : (measure idle s' < measure idle s)%nat).
  { assert (D : total idle s = S (total idle s')).
    { unfold total. apply (sum_list_with_decr _ _ _ (currThread s)).
      - apply NoDup_cons. split; [done|apply I].
      - destruct Hc as [->|]; [by left|by right].
      - unfold quantums_at. cbn. rewrite Ec, lookup_insert_eq. cbn. lia.
      - intros u Nu. unfold quantums_at. cbn. by rewrite lookup_insert_ne by done. }
    unfold measure. rewrite D. destruct (decide _), (decide _); lia. }
  split_and!; [|done|].
  - constructor; [done|done|done|]. intros u w. cbn. destruct (decide (u = currThread s)) as [->|].
    + rewrite lookup_insert_eq. intros [= <-]. exact (Ht (currThread s) c Ec).
    + rewrite lookup_insert_ne by done. apply Ht.
  - exists v. split_and!; [cbn; by rewrite lookup_insert_ne by done|done|done|]. right. left. by split.
Qed.

(** The current thread has no quantums left. *)
Lemma IrqHandle_schedules idle s t v c : computing idle s -> t ∈ threadList s -> threads s !! t = Some v -> state v = THR_RUNNING ->
  threads s !! currThread s = Some c -> quantums c = 0 -> exists s', IrqHandle idle s = Ret s' /\ progress idle t v s s'.
Proof.
  intros [I N Hc Ht] It Ev Rv Ec Q. pose proof (si_zero _ _ I) as Z0. pose proof (si_idle _ _ I) as [Ni Zi].
  assert (C0 : currThread s <> 0) by (intros E; rewrite E in Hc; destruct Hc; congruence).
  destruct (Ht _ c Ec) as [Dc Pc]. unfold IrqHandle, PitInterrupt, PreemptCanSchedule, ThrSchedule, get_thread.
  destruct (Z.eqb_spec (currThread s) 0); [done|]. rewrite Ec. cbn [of_option bindO]. rewrite Q. cbn [Z.ltb Z.compare bindO].
  cbn [thrNeedSchedule with_need currThread threads]. rewrite Ec. cbn [of_option bindO]. rewrite Pc. cbn [Z.eqb].
  destruct (Z.eqb_spec (currThread s) 0); [done|]. cbn [of_option bindO]. destruct (Z.eqb_spec (state c) THR_DYING); [done|]. cbn [bindO].
  set (s1 := with_need false (with_need true s)). assert (I1 : sched_inv idle s1) by by do 2 apply inv_need.
  destruct (ThrChooseNewThread_spec idle s1) as (w & s2 & E2 & H2); [apply I1| |].
  { intros u Hu. destruct (si_known _ _ I1 u (or_introl Hu)) as [x Ex]. exists x. split; [done|]. apply (si_ok _ _ I1 u x Ex). }
  rewrite E2. cbn [bindO]. destruct (ThrChooseNewThread_inv idle s1 w s2 I1 E2) as [I2 _].
  destruct H2 as [(_ & _ & Hn)|(x & Iw & Ew & Rw & Mw & Pos & Rec)]; [by destruct (Hn t v It Ev)|].
  assert (Hs2 : exists y, threads s2 !! w = Some y) by (apply (si_known _ _ I2); left;
    destruct (decide (quantums x = 0)) as [Hz|]; [by destruct (Rec Hz) as (m & -> & _)|];
    rewrite Pos by (destruct (si_ok _ _ I1 w x Ew); lia); done).
  destruct Hs2 as [y Ey]. cbn [threads with_curr]. rewrite Ey. cbn [of_option bindO]. exists (with_curr w s2). split; [done|].
  destruct (si_ok _ _ I1 w x Ew) as [_ [Q0 _]].
  assert (Q1 : quantums_at s (currThread s) = 0%nat) by (unfold quantums_at; rewrite Ec, Q; done).
  destruct (decide (quantums x = 0)) as [Hz|Hz].
  - destruct (Rec Hz) as (m & -> & Hm). assert (quantums v = 0).
    { destruct (si_ok _ _ I t v Ev) as [_ [? _]]. specialize (Mw t v It Ev Rv). lia. }
    split_and!; [|done|].
    + constructor; [by apply inv_curr; [|right; right]|done|by right|]. cbn. intros u z. rewrite Hm.
      destruct (decide _); [|apply Ht]. destruct (threads s1 !! u) as [z0|] eqn:Ez; [|done]. intros [= <-]. exact (Ht u z0 Ez).
    + exists (recharged v). cbn. rewrite Hm. destruct (decide _) as [_|Nn]; [|done]. change (threads s1) with (threads s). rewrite Ev.
      split_and!; [done|done|done|]. right. right. split; [done|]. unfold recharged. cbn [quantums set_quantums]. rewrite H, Z.shiftr_0_l. lia.
  - rewrite Pos in * by lia. split_and!; [|done|].
    + constructor; [by apply inv_curr; [|right; right]|done|by right|exact Ht].
    + exists v. split_and!; [done|done|done|]. right. left. split; [done|]. unfold measure. rewrite Q1.
      change (total idle (with_curr w s1)) with (total idle s). change (currThread (with_curr w s1)) with w.
      destruct (decide (0%nat = 0%nat)); [|done]. destruct (decide (quantums_at (with_curr w s1) w = 0%nat)) as [Hq|]; [|lia].
      unfold quantums_at in Hq. change (threads (with_curr w s1)) with (threads s1) in Hq. rewrite Ew in Hq. lia.
Qed.

Lemma IrqHandle_progress idle s t v : computing idle s -> t ∈ threadList s -> threads s !! t = Some v -> state v = THR_RUNNING ->
  currThread s <> t -> exists s', IrqHandle idle s = Ret s' /\ progress idle t v s s'.
Proof.
  intros C It Ev Rv Nt. destruct (si_known _ _ (co_inv _ _ C) (currThread s)) as [c Ec].
  { destruct (co_curr _ _ C); tauto. }
  destruct (si_ok _ _ (co_inv _ _ C) _ c Ec) as [_ [Q _]]. destruct (decide (0 < quantums c)).
  - by eapply IrqHandle_ticks.
  - eapply IrqHandle_schedules; try done. lia.
Qed.

(** ** Liveness *)

Lemma measure_bound idle s : computing idle s -> (measure idle s <= 84 * (length (threadList s) + 1) + 1)%nat.
Proof. intros [I _ _ _]. pose proof (total_bound idle s I). unfold measure. destruct (decide _); lia. Qed.

(** A running thread with quantums becomes current before they are dealt
    again. *)
Lemma runs_with_quantums idle t m : forall s v, (measure idle s <= m)%nat -> computing idle s -> t ∈ threadList s ->
  threads s !! t = Some v -> state v = THR_RUNNING -> 0 < quantums v ->
  exists k s', (k <= m)%nat /\ interrupts idle k s = Ret s' /\ currThread s' = t.
Proof.
  induction m as [|m IH]; intros s v Hm C It Ev Rv Qv; (destruct (decide (currThread s = t)) as [|Nt]; [by exists 0%nat, s; split; [lia|]|]);
    destruct (IrqHandle_progress idle s t v C It Ev Rv Nt) as (s1 & E1 & C1 & L1 & v1 & Ev1 & Rv1 & _ & P).
  - destruct P as [Hc|[[_ ?]|[? _]]]; [|lia|lia]. unfold measure in Hm. exfalso.
    assert (T : total idle s = 0%nat) by (destruct (decide _); lia). unfold total in T. cbn [sum_list_with] in T.
    assert (quantums_at s t <> 0%nat) by (unfold quantums_at; rewrite Ev; lia).
    assert (S0 : sum_list_with (quantums_at s) (threadList s) = 0%nat) by lia. clear - S0 It H.
    induction (threadList s) as [|u l IH]; [by apply not_elem_of_nil in It|]. cbn in S0. apply elem_of_cons in It as [<-|It]; [lia|]. apply IH; [done|lia].
  - destruct P as [Hc|[[Hq ?]|[? _]]]; [|..|lia].
    + exists 1%nat, s1. cbn [interrupts]. rewrite E1. cbn. split_and!; [lia|done|done].
    + destruct (IH s1 v1) as (k & s2 & Hk & E2 & H2); try (rewrite ?L1, ?Rv1, ?Hq; done || lia).
      exists (S k), s2. cbn [interrupts]. rewrite E1. cbn. split_and!; [lia|done|done].
Qed.

Lemma runs_eventually idle t m : forall s v, (measure idle s <= m)%nat -> computing idle s -> t ∈ threadList s ->
  threads s !! t = Some v -> state v = THR_RUNNING -> 0 < priority v ->
  exists k s', (k <= m + 84 * (length (threadList s) + 1) + 2)%nat /\ interrupts idle k s = Ret s' /\ currThread s' = t.
Proof.
  induction m as [|m IH]; intros s v Hm C It Ev Rv Pv; (destruct (decide (currThread s = t)) as [|Nt]; [by exists 0%nat, s; split; [lia|]|]);
    destruct (IrqHandle_progress idle s t v C It Ev Rv Nt) as (s1 & E1 & C1 & L1 & v1 & Ev1 & Rv1 & Pv1 & P);
    pose proof (measure_bound idle s1 C1) as M1; rewrite L1 in M1.
  all: destruct P as [Hc|[[Hq Hd]|[_ Hq]]];
    [exists 1%nat, s1; cbn [interrupts]; rewrite E1; cbn; split_and!; [lia|done|done]|try lia
    |destruct (runs_with_quantums idle t _ s1 v1 M1) as (k & s2 & Hk & E2 & H2); try (rewrite ?L1, ?Rv1, ?Hq; done);
     exists (S k), s2; cbn [interrupts]; rewrite E1; cbn; split_and!; [lia|done|done]].
  destruct (IH s1 v1) as (k & s2 & Hk & E2 & H2); try (rewrite ?L1, ?Rv1, ?Pv1; done || lia).
  rewrite L1 in Hk. exists (S k), s2. cbn [interrupts]. rewrite E1. cbn. split_and!; [lia|done|done].
Qed.

(** C9: while the threads only compute, every running thread with a positive priority becomes the
    current thread after a number of timer interrupts that is bounded by the number of threads. *)
Theorem no_starvation idle s t v : computing idle s -> t ∈ threadList s -> threads s !! t = Some v ->
  state v = THR_RUNNING -> 0 < priority v -> exists k s',
  (k <= 168 * (length (threadList s) + 1) + 3)%nat /\ interrupts idle k s = Ret s' /\ currThread s' = t.
Proof.
  intros C It Ev Rv Pv. destruct (runs_eventually idle t _ s v (measure_bound idle s C) C It Ev Rv Pv) as (k & s' & Hk & E & H).
  exists k, s'. split_and!; [lia|done|done].
Qed.

(** An idle task and two running threads. *)
Definition demo_two : sched := {|
  threads := <[1 := demo_thread THR_RUNNING 0]> (<[2 := demo_thread THR_RUNNING 7]> (<[3 := demo_thread THR_RUNNING 0]> ∅));
  threadList := [2; 3]; currThread := 2; nrRunning := 2; thrNeedSchedule := false; cIds := ∅;
|}.

Lemma no_starvation_witness : exists k s', (k <= 168 * (2 + 1) + 3)%nat /\ interrupts 1 k demo_two = Ret s' /\ currThread s' = 3.
Proof.
  apply (no_starvation 1 demo_two 3 (demo_thread THR_RUNNING 0)); [|right; left|done|done|done].
  assert (K : forall u v, threads demo_two !! u = Some v -> exists q, v = demo_thread THR_RUNNING q /\ 0 <= q <= 7).
  { intros u v. cbn [threads demo_two]. destruct (decide (u = 1)) as [->|]; [rewrite lookup_insert_eq|rewrite lookup_insert_ne by done].
    { intros [= <-]. exists 0. split; [done|lia]. }
    destruct (decide (u = 2)) as [->|]; [rewrite lookup_insert_eq|rewrite lookup_insert_ne by done].
    { intros [= <-]. exists 7. split; [done|lia]. }
    destruct (decide (u = 3)) as [->|]; [rewrite lookup_insert_eq|by rewrite lookup_insert_ne].
    intros [= <-]. exists 0. split; [done|lia]. }
  constructor; [constructor|done|right; left|].
  - by apply (bool_decide_unpack _).
  - split; [by apply (bool_decide_unpack _)|done].
  - by apply (bool_decide_unpack _).
  - intros t [Ht| ->]; [|by eexists]. apply elem_of_cons in Ht as [->|Ht]; [by eexists|].
    apply list_elem_of_singleton in Ht as ->. by eexists.
  - right. right. left.
  - intros u v E. destruct (K u v E) as (q & -> & Hq). split; [done|]. cbn. unfold MAX_QUANTUMS. lia.
  - done.
  - intros u v E. destruct (K u v E) as (q & -> & Hq). done.
Defined.
