(* ===== verification/Fat.v ===== *)
(** * The FAT file system's allocation table (fs/fat/fat.c, fs/fat/file.c)

    FatAccess reads and writes the entries of the table on disk: 12-bit
    entries packed two to three bytes (and possibly across two sectors),
    16-bit and 32-bit entries, with every change copied to the backup
    tables.  [rep] relates a disk to the table it holds as a function from
    clusters to values; reading is application and writing function update.
    On it, FatAddCluster appends a free cluster to a file's chain and
    FatRemoveClusters frees clusters from it. *)

From S2P Require Import Prelude.

(** ** Model *)

(** Sectors by number; a missing sector is one BlockRead fails on. *)
Notation disk := (gmap Z (list Z)) (only parsing).

(** struct FatSbInfo, with the sector size of the device. *)
Record FatSbInfo := {
  bps : Z;
  fatStart : Z;
  fatLength : Z;
  fatType : Z;
  invalidCluster : Z;
  numFats : Z;
  rootDirStart : Z;
  rootDirLength : Z;
  firstDataSector : Z;
  totalDataSectors : Z;
  secsPerClus : Z;
  freeClusters : Z;
}.

(** sizeof(struct FatDirEntry) *)
Definition SIZEOF_FatDirEntry : Z := 32.
Definition FAT_ROOT_ID : Z := 0.

(** A little-endian value of the bytes at offset [i]. *)
Fixpoint load_le (n : nat) (l : list Z) (i : Z) : outcome Z :=
  match n with
  | O => Ret 0
  | S n =>
      let* b := of_option (zlookup l i) in
      let* v := load_le n l (i + 1) in
      Ret (b + 256 * v)
  end.
Fixpoint store_le (n : nat) (v : Z) (l : list Z) (i : Z) : outcome (list Z) :=
  match n with
  | O => Ret l
  | S n =>
      let* l := of_option (zupdate l i (u8 v)) in
      store_le n (Z.shiftr v 8) l (i + 1)
  end.

(** The values FatAccess takes from and puts into two bytes of a FAT12. *)
Definition get12 (cluster p q : Z) : Z :=
  if c_true (Z.land cluster 1)
  then Z.land (Z.lor (Z.shiftr p 4) (Z.shiftl q 4)) 0xFFF
  else Z.land (p + Z.shiftl q 8) 0xFFF.
Definition put12_first (cluster p v : Z) : Z :=
  if c_true (Z.land cluster 1) then u8 (Z.lor (Z.land p 0xF) (Z.shiftl v 4)) else Z.land v 0xFF.
Definition put12_last (cluster q v : Z) : Z :=
  if c_true (Z.land cluster 1) then u8 (Z.shiftr v 4)
  else u8 (Z.lor (Z.land q 0xF0) (Z.shiftr v 8)).

Section Access.
Variable info : FatSbInfo.

(** The byte of the table where the entry of a cluster starts. *)
Definition first_byte (cluster : Z) : Z :=
  if fatType info =? 12 then u32 (cluster * 3) / 2
  else if fatType info =? 16 then u32 (cluster * 2) else u32 (cluster * 4).

(** The sectors of the backup tables from number [i] on become copies. *)
Fixpoint copy_fats (n : nat) (i sec : Z) (cross : bool) (buff buff2 : list Z) (d : disk) : disk :=
  match n with
  | O => d
  | S n =>
      let block := sec + fatLength info * i in
      match d !! block with
      | None => d
      | Some _ =>
          if cross then
            match d !! (block + 1) with
            | None => d
            | Some _ =>
                copy_fats n (i + 1) sec cross buff buff2
                  (<[block := buff]> (<[block + 1 := buff2]> d))
            end
          else copy_fats n (i + 1) sec cross buff buff2 (<[block := buff]> d)
      end
  end.

Definition FatAccess (cluster newVal : Z) (d : disk) : outcome (Z * disk) :=
  if totalDataSectors info <? cluster then Panic
  else
    let first := first_byte cluster in
    let last := if fatType info =? 12 then first + 1 else first in
    let sec := fatStart info + first / bps info in
    match d !! sec with
    | None => Ret (0, d)
    | Some buff =>
        let cross := negb (first / bps info =? last / bps info) in
        match (if cross then d !! (sec + 1) else Some buff) with
        | None => Ret (0, d)
        | Some buff2 =>
            let o := first mod bps info in
            let o2 := (first + 1) mod bps info in
            if fatType info =? 12 then
              let* p := of_option (zlookup buff o) in
              let* q := of_option (zlookup buff2 o2) in
              let retVal := get12 cluster p q in
              if newVal =? -1 then Ret (retVal, d)
              else
                let* buff := of_option (zupdate buff o (put12_first cluster p newVal)) in
                let* buff2 := of_option (zupdate (if cross then buff2 else buff) o2
                                                 (put12_last cluster q newVal)) in
                let buff := if cross then buff else buff2 in
                let d := <[sec := buff]> d in
                let d := if cross then <[sec + 1 := buff2]> d else d in
                Ret (retVal, copy_fats (Z.to_nat (numFats info - 1)) 1 sec cross buff buff2 d)
            else
              let n := if fatType info =? 16 then 2%nat else 4%nat in
              let* v := load_le n buff o in
              let retVal := if fatType info =? 16 then v
                            else if fatType info =? 32 then Z.land v 0xFFFFFFF else 0 in
              if newVal =? -1 then Ret (retVal, d)
              else
                let* buff :=
                  if (fatType info =? 16) || (fatType info =? 32)
                  then store_le n newVal buff o else Ret buff in
                let d := <[sec := buff]> d in
                Ret (retVal, copy_fats (Z.to_nat (numFats info - 1)) 1 sec false buff buff d)
        end
    end.

Definition FatToSector (cluster : Z) : Z :=
  if cluster =? 0 then rootDirStart info
  else u32 (u32 ((cluster - 2) * secsPerClus info) + firstDataSector info).

(** The walk of FatGetDirSize. *)
Fixpoint chain_length (fuel : nat) (cluster n : Z) (d : disk) : outcome Z :=
  match fuel with
  | O => NoFuel
  | S fuel =>
      if cluster <? invalidCluster info then
        let* (next, _) := FatAccess cluster (-1) d in chain_length fuel next (n + 1) d
      else Ret n
  end.
Definition FatGetDirSize (fuel : nat) (cluster : Z) (d : disk) : outcome Z :=
  let perSector := bps info / SIZEOF_FatDirEntry in
  if negb (fatType info =? 32) && (cluster =? 0) then Ret (rootDirLength info * perSector)
  else let* n := chain_length fuel cluster 0 d in Ret (n * perSector * secsPerClus info).

(** The last cluster of a chain. *)
Fixpoint find_last (fuel : nat) (last : Z) (d : disk) : outcome Z :=
  match fuel with
  | O => NoFuel
  | S fuel =>
      let* (val, _) := FatAccess last (-1) d in
      if invalidCluster info <=? val then Ret last else find_last fuel val d
  end.

(** The first free entry from [i] on, -1 if there is none. *)
Fixpoint find_free_entry (n : nat) (i : Z) (d : disk) : outcome Z :=
  match n with
  | O => Ret (-1)
  | S n =>
      let* (val, _) := FatAccess i (-1) d in
      if val =? 0 then Ret i else find_free_entry n (i + 1) d
  end.

Fixpoint zero_sectors (n : nat) (sec : Z) (d : disk) : outcome disk :=
  match n with
  | O => Ret d
  | S n =>
      let* _ := of_option (d !! sec) in
      zero_sectors n (u32 (sec + 1)) (<[sec := replicate (Z.to_nat (bps info)) 0]> d)
  end.

(** The file is given by its identifier and its startCluster; the result is
    the return value, the new startCluster, *lastCluster, the new count of
    free clusters and the disk. *)
Record fat_result := { ret : Z; startCluster : Z; lastCluster : Z; free_count : Z; new_disk : disk }.

Definition FatAddCluster (fuel : nat) (id start : Z) (d : disk) : outcome fat_result :=
  let fail := {| ret := - ENOSPC; startCluster := start; lastCluster := 0;
                 free_count := freeClusters info; new_disk := d |} in
  if negb (fatType info =? 32) && (id =? FAT_ROOT_ID) then Ret fail
  else
    let* last := if c_true start then find_last fuel start d else Ret 0 in
    let* new := find_free_entry (Z.to_nat (totalDataSectors info - 2)) 2 d in
    if new =? -1 then Ret fail
    else
      let* d := zero_sectors (Z.to_nat (secsPerClus info)) (FatToSector new) d in
      let* (_, d) := FatAccess new (invalidCluster info) d in
      let* d := if start =? 0 then Ret d
                else if c_true last then let* (_, d) := FatAccess last new d in Ret d
                else Ret d in
      let fc := if (fatType info =? 32) && negb (freeClusters info =? 2 ^ 32 - 1)
                then u32 (freeClusters info - 1) else freeClusters info in
      Ret {| ret := 0; startCluster := if start =? 0 then new else start; lastCluster := new;
             free_count := fc; new_disk := d |}.

(** The [number]-th cluster of the chain, [None] past its end. *)
Fixpoint skip_clusters (fuel : nat) (number cluster : Z) (d : disk) : outcome (option Z) :=
  match fuel with
  | O => NoFuel
  | S fuel =>
      if c_true number then
        let* (c, _) := FatAccess cluster (-1) d in
        if invalidCluster info <=? c then Ret None else skip_clusters fuel (number - 1) c d
      else Ret (Some cluster)
  end.

Fixpoint free_chain (fuel : nat) (cluster : Z) (d : disk) : outcome disk :=
  match fuel with
  | O => NoFuel
  | S fuel =>
      let* (next, d) := FatAccess cluster 0 d in
      if invalidCluster info <=? next then Ret d else free_chain fuel next d
  end.

Definition FatRemoveClusters (fuel : nat) (id start number : Z) (d : disk) : outcome fat_result :=
  let done_with r st fc d :=
    {| ret := r; startCluster := st; lastCluster := 0; free_count := fc; new_disk := d |} in
  if negb (fatType info =? 32) && (id =? 0)
  then Ret (done_with (- EPERM) start (freeClusters info) d)
  else if start =? 0 then Ret (done_with 0 start (freeClusters info) d)
  else
    let* from := skip_clusters fuel number start d in
    match from with
    | None => Ret (done_with (- EINVAL) start (freeClusters info) d)
    | Some cluster =>
        let* d := free_chain fuel cluster d in
        let fc := if (fatType info =? 32) && negb (freeClusters info =? 2 ^ 32 - 1)
                  then u32 (freeClusters info + number) else freeClusters info in
        Ret (done_with 0 (if number =? 0 then 0 else start) fc d)
    end.
End Access.

(** *** fs/fat/file.c *)

Definition VFS_MAP_CREATE : Z := 1.

Definition set_freeClusters (n : Z) (info : FatSbInfo) : FatSbInfo :=
  {| bps := bps info; fatStart := fatStart info; fatLength := fatLength info; fatType := fatType info;
     invalidCluster := invalidCluster info; numFats := numFats info; rootDirStart := rootDirStart info;
     rootDirLength := rootDirLength info; firstDataSector := firstDataSector info;
     totalDataSectors := totalDataSectors info; secsPerClus := secsPerClus info; freeClusters := n |}.

(** [while (offset--) if (FatAddCluster(vNode, &lastCluster)) return -1;]: false
    when a call failed. *)
Fixpoint add_clusters (n fuel : nat) (info : FatSbInfo) (id start last : Z) (d : disk)
  : outcome (bool * fat_result) :=
  match n with
  | O => Ret (true, {| ret := 0; startCluster := start; lastCluster := last;
                       free_count := freeClusters info; new_disk := d |})
  | S n =>
      let* r := FatAddCluster info fuel id start d in
      if c_true (ret r) then Ret (false, r)
      else add_clusters n fuel (set_freeClusters (free_count r) info) id (startCluster r)
             (lastCluster r) (new_disk r)
  end.

(** The walk down the chain: the cluster reached, or what is left to go. *)
Fixpoint walk_clusters (n : nat) (info : FatSbInfo) (retVal : Z) (d : disk) : outcome (Z + nat) :=
  match n with
  | O => Ret (inl retVal)
  | S n' =>
      let* (v, _) := FatAccess info retVal (-1) d in
      if invalidCluster info <=? v then Ret (inr n) else walk_clusters n' info v d
  end.

(** The return value is the field [ret]. *)
Definition FatBlockMap (fuel : nat) (info : FatSbInfo) (id start offset flags : Z) (d : disk)
  : outcome fat_result :=
  let result v st fc d :=
    {| ret := s32 v; startCluster := st; lastCluster := 0; free_count := fc; new_disk := d |} in
  let same v := Ret (result v start (freeClusters info) d) in
  if (id =? FAT_ROOT_ID) && negb (fatType info =? 32) then
    if rootDirLength info <=? offset then same (-1) else same (u32 (rootDirStart info + offset))
  else
    let origOffset := offset in
    let offset := offset / secsPerClus info in
    if start =? 0 then
      if c_true (Z.land flags VFS_MAP_CREATE) then
        let* r := FatAddCluster info fuel id start d in
        if c_true (ret r) then Ret (result (-1) (startCluster r) (free_count r) (new_disk r))
        else Ret (result (u32 (FatToSector info (startCluster r) + offset)) (startCluster r)
                         (free_count r) (new_disk r))
      else same (-1)
    else
      let* w := walk_clusters (Z.to_nat offset) info start d in
      match w with
      | inl retVal => same (u32 (FatToSector info retVal + origOffset mod secsPerClus info))
      | inr n =>
          if c_true (Z.land flags VFS_MAP_CREATE) then
            let* (ok, r) := add_clusters n fuel info id start 0 d in
            Ret (result (if ok then u32 (FatToSector info (lastCluster r) + origOffset mod secsPerClus info)
                         else -1) (startCluster r) (free_count r) (new_disk r))
          else same (-1)
      end.

(** ** Bit fields in arithmetic form *)

Lemma get12_eq c p q : is_byte p -> is_byte q ->
  get12 c p q = if Z.odd c then p / 16 + 16 * q else p + 256 * (q mod 16).
Proof.
  unfold is_byte, get12. intros Hp Hq. rewrite land_1_odd. destruct (Z.odd c).
  - rewrite Z.shiftr_div_pow2 by lia. change (2 ^ 4) with 16.
    assert (0 <= p / 16 < 16) by (Z.to_euclidean_division_equations; lia).
    rewrite lor_shiftl_add by lia. rewrite (land_ones_mod _ 12) by done.
    rewrite Z.mod_small; lia.
  - rewrite (land_ones_mod _ 12) by done. rewrite Z.shiftl_mul_pow2 by lia.
    change (2 ^ 12) with 4096. change (2 ^ 8) with 256.
    Z.to_euclidean_division_equations; lia.
Qed.

Lemma put12_first_eq c p v : is_byte p -> 0 <= v ->
  put12_first c p v = if Z.odd c then p mod 16 + 16 * (v mod 16) else v mod 256.
Proof.
  unfold is_byte, put12_first. intros Hp Hv. rewrite land_1_odd. destruct (Z.odd c).
  - rewrite (land_ones_mod p 4) by done. change (2 ^ 4) with 16.
    rewrite lor_shiftl_add by (Z.to_euclidean_division_equations; lia). unfold u8.
    change (2 ^ 4) with 16. change (2 ^ 8) with 256. Z.to_euclidean_division_equations; lia.
  - by rewrite (land_ones_mod v 8).
Qed.

Lemma put12_last_eq c q v : is_byte q -> 0 <= v < 4096 ->
  put12_last c q v = if Z.odd c then v / 16 else 16 * (q / 16) + v / 256.
Proof.
  unfold is_byte, put12_last. intros Hq Hv. rewrite land_1_odd.
  rewrite !Z.shiftr_div_pow2 by lia. change (2 ^ 4) with 16. change (2 ^ 8) with 256.
  destruct (Z.odd c).
  - apply u8_id. Z.to_euclidean_division_equations; lia.
  - assert (E : Z.land q 240 = Z.shiftl (q / 16) 4).
    { change 240 with (Z.shiftl (Z.ones 4) 4). apply Z.bits_inj'. intros n Hn.
      change (q / 16) with (q / 2 ^ 4). rewrite Z.land_spec, <- (Z.shiftr_div_pow2 q 4) by lia.
      destruct (decide (n < 4)) as [H|H].
      - by rewrite !Z.shiftl_spec_low, andb_false_r by lia.
      - rewrite !Z.shiftl_spec, Z.shiftr_spec by lia. replace (n - 4 + 4) with n by lia.
        rewrite Z.testbit_ones_nonneg by lia. destruct (Z.ltb_spec (n - 4) 4); [apply andb_true_r|].
        rewrite andb_false_r. symmetry. destruct (decide (q = 0)) as [->|]; [apply Z.testbit_0_l|].
        apply Z.bits_above_log2; [lia|]. assert (Z.log2 q < 8); [|lia]. apply Z.log2_lt_pow2; lia. }
    rewrite E, Z.lor_comm, lor_shiftl_add by (Z.to_euclidean_division_equations; lia).
    change (2 ^ 4) with 16. rewrite u8_id by (Z.to_euclidean_division_equations; lia). lia.
Qed.

(** ** The table on a disk *)

Section Rep.
Variable info : FatSbInfo.
Implicit Types d : disk.

Record info_ok : Prop := {
  io_bps : 0 < bps info /\ bps info mod 4 = 0;
  io_start : 0 <= fatStart info /\ 0 < fatLength info;
  io_type : fatType info = 12 \/ fatType info = 16 \/ fatType info = 32;
  io_range : 2 <= totalDataSectors info < 2 ^ 32 /\ fatLength info * bps info < 2 ^ 31;
  io_data : 1 <= numFats info /\ fatStart info + fatLength info * numFats info <= firstDataSector info;
}.

(** The sectors of the first table. *)
Definition fat_sector (s : Z) : Prop := fatStart info <= s < fatStart info + fatLength info.

Definition disk_ok d : Prop := forall s, fat_sector s ->
  exists l, d !! s = Some l /\ Z.of_nat (length l) = bps info /\ Forall is_byte l.

(** Byte [k] of the first table. *)
Definition fb d (k : Z) : Z :=
  match d !! (fatStart info + k / bps info) with
  | Some l => default 0 (zlookup l (k mod bps info))
  | None => 0
  end.

(** The value of the entry of a cluster. *)
Definition entry d (c : Z) : Z :=
  let f := first_byte info c in
  if fatType info =? 12 then get12 c (fb d f) (fb d (f + 1))
  else if fatType info =? 16 then fb d f + 256 * fb d (f + 1)
  else Z.land (fb d f + 256 * (fb d (f + 1) + 256 * (fb d (f + 2) + 256 * fb d (f + 3)))) 0xFFFFFFF.

(** The bytes of the entry of a cluster, from the start of the table. *)
Definition table_offset (c : Z) : Z :=
  if fatType info =? 12 then 3 * c / 2 else if fatType info =? 16 then 2 * c else 4 * c.
Definition entry_size : Z := if fatType info =? 32 then 4 else 2.

(** The clusters with an entry in the table, which FatAccess does not
    refuse; the disk holds the table [T]. *)
Definition valid (c : Z) : Prop :=
  0 <= c <= totalDataSectors info /\ table_offset c + entry_size <= fatLength info * bps info.
Definition rep d (T : Z -> Z) : Prop := disk_ok d /\ forall c, valid c -> entry d c = T c.

(** The values an entry can hold. *)
Definition value_ok (v : Z) : Prop :=
  0 <= v < (if fatType info =? 12 then 2 ^ 12 else if fatType info =? 16 then 2 ^ 16 else 2 ^ 28).

Hypothesis ok : info_ok.

Lemma entry_size_range : 2 <= entry_size <= 4.
Proof. unfold entry_size. destruct (_ =? _); lia. Qed.

Lemma first_byte_offset c : valid c -> first_byte info c = table_offset c.
Proof.
  intros [H1 H2]. destruct (io_range ok) as [_ R]. pose proof entry_size_range. unfold first_byte, table_offset in *.
  destruct (fatType info =? 12); [|destruct (fatType info =? 16)]; rewrite u32_id; try lia.
  - by rewrite Z.mul_comm.
  - Z.to_euclidean_division_equations; lia.
Qed.

Lemma table_byte c j : valid c -> 0 <= j < entry_size ->
  0 <= first_byte info c + j < fatLength info * bps info.
Proof.
  intros V J. rewrite (first_byte_offset c V). destruct V as [V1 V2]. assert (0 <= table_offset c); [|lia].
  unfold table_offset. destruct (_ =? _); [apply Z.div_pos; lia|]. destruct (_ =? _); lia.
Qed.
Lemma table_byte_0 c : valid c -> 0 <= first_byte info c < fatLength info * bps info.
Proof. intros V. pose proof entry_size_range. pose proof (table_byte c 0 V ltac:(lia)). lia. Qed.
Lemma table_byte_1 c : valid c -> 0 <= first_byte info c + 1 < fatLength info * bps info.
Proof. intros V. pose proof entry_size_range. apply (table_byte c 1 V). lia. Qed.

Lemma entry_agree d d' c : (forall k, 0 <= k < fatLength info * bps info -> fb d' k = fb d k) -> valid c ->
  entry d' c = entry d c.
Proof.
  intros F V. pose proof (table_byte_0 c V). pose proof (table_byte_1 c V). unfold entry.
  destruct (Z.eqb_spec (fatType info) 12); [by rewrite !F by lia|]. destruct (Z.eqb_spec (fatType info) 16); [by rewrite !F by lia|].
  assert (S4 : entry_size = 4) by (unfold entry_size; destruct (io_type ok) as [|[| ->]]; done).
  pose proof (table_byte c 2 V ltac:(lia)). pose proof (table_byte c 3 V ltac:(lia)). by rewrite !F by lia.
Qed.

Lemma byte_sector k : 0 <= k < fatLength info * bps info ->
  fat_sector (fatStart info + k / bps info) /\ 0 <= k mod bps info < bps info.
Proof.
  destruct (io_bps ok) as [Hb _], (io_start ok) as [? ?]. intros Hk. unfold fat_sector.
  pose proof (Z.mod_pos_bound k (bps info) Hb). split; [|lia].
  assert (0 <= k / bps info) by (apply Z.div_pos; lia).
  assert (k / bps info < fatLength info) by (apply Z.div_lt_upper_bound; lia). lia.
Qed.

Lemma fb_lookup d k : disk_ok d -> 0 <= k < fatLength info * bps info ->
  exists l, d !! (fatStart info + k / bps info) = Some l /\ Z.of_nat (length l) = bps info
    /\ Forall is_byte l /\ zlookup l (k mod bps info) = Some (fb d k) /\ is_byte (fb d k).
Proof.
  intros D Hk. destruct (byte_sector k Hk) as [Hs Hm]. destruct (D _ Hs) as (l & El & Ll & Fl).
  destruct (zlookup_lt l (k mod bps info)) as [b Eb]; [lia|].
  exists l. unfold fb. rewrite El, Eb. simpl. split_and!; try done.
  all: apply zlookup_Some in Eb as [_ Eb]; rewrite Forall_lookup in Fl; apply (Fl _ _ Eb).
Qed.

(** Replacing one sector of the table. *)
Lemma fb_insert d s l j : fat_sector s ->
  fb (<[s := l]> d) j =
    if fatStart info + j / bps info =? s then default 0 (zlookup l (j mod bps info)) else fb d j.
Proof.
  intros Hs. unfold fb. destruct (Z.eqb_spec (fatStart info + j / bps info) s) as [->|N].
  - by rewrite lookup_insert_eq.
  - by rewrite lookup_insert_ne by congruence.
Qed.

Lemma disk_ok_insert d s l : disk_ok d -> Z.of_nat (length l) = bps info -> Forall is_byte l ->
  disk_ok (<[s := l]> d).
Proof.
  intros D L F t Ht. destruct (decide (t = s)) as [->|].
  - exists l. by rewrite lookup_insert_eq.
  - rewrite lookup_insert_ne by done. auto.
Qed.

Lemma disk_ok_agree d d' : disk_ok d -> (forall s, fat_sector s -> d' !! s = d !! s) ->
  disk_ok d' /\ forall k, 0 <= k < fatLength info * bps info -> fb d' k = fb d k.
Proof.
  intros D A. split.
  - intros s Hs. rewrite A by done. auto.
  - intros k Hk. unfold fb. rewrite A; [done|]. by apply byte_sector.
Qed.

(** The backup copies leave the first table alone. *)
Lemma copy_fats_primary n : forall i sec cross b b2 d s, 1 <= i -> fatStart info <= sec ->
  fat_sector s -> copy_fats info n i sec cross b b2 d !! s = d !! s.
Proof.
  destruct (io_start ok) as [_ Hl].
  induction n as [|n IH]; intros i sec cross b b2 d s Hi Hs Hf; cbn [copy_fats]; [done|].
  assert (s <> sec + fatLength info * i /\ s <> sec + fatLength info * i + 1)
    by (unfold fat_sector in Hf; nia).
  destruct (d !! (sec + fatLength info * i)); [|done].
  destruct cross; [destruct (d !! (sec + fatLength info * i + 1)); [|done]|];
    rewrite IH by (done || lia); by rewrite !lookup_insert_ne by lia.
Qed.

(** An update of up to four bytes of the table, as a disk change. *)
Definition bytes_updated d d' (f : Z -> option Z) : Prop :=
  disk_ok d' /\ forall k, 0 <= k < fatLength info * bps info ->
    fb d' k = match f k with Some v => v | None => fb d k end.

Lemma same_sector j f : 0 <= j -> 0 <= f ->
  fatStart info + j / bps info = fatStart info + f / bps info ->
  j mod bps info = f mod bps info -> j = f.
Proof.
  destruct (io_bps ok) as [Hb _]. intros. rewrite (Z.div_mod j (bps info)), (Z.div_mod f (bps info)) by lia.
  f_equal; [f_equal; lia|done].
Qed.

(** One byte. *)
Lemma byte_updated d k v l l' : disk_ok d -> 0 <= k < fatLength info * bps info -> is_byte v ->
  d !! (fatStart info + k / bps info) = Some l -> zupdate l (k mod bps info) v = Some l' ->
  bytes_updated d (<[fatStart info + k / bps info := l']> d)
    (fun j => if j =? k then Some v else None).
Proof.
  intros D Hk Hv El Eu. destruct (byte_sector k Hk) as [Hs Hm].
  destruct (D _ Hs) as (l0 & El0 & Ll & Fl). assert (l0 = l) as -> by congruence.
  split.
  - apply disk_ok_insert; [done|by rewrite (zupdate_length _ _ _ _ Eu)|].
    apply zupdate_Some in Eu as [_ ->]. by apply Forall_insert.
  - intros j Hj. rewrite fb_insert by done. destruct (byte_sector j Hj) as [_ Hmj].
    rewrite (zlookup_zupdate _ _ _ _ _ Eu) by lia.
    destruct (Z.eqb_spec (fatStart info + j / bps info) (fatStart info + k / bps info)) as [E|E].
    + destruct (Z.eqb_spec (j mod bps info) (k mod bps info)) as [E'|E'].
      * assert (j = k) as -> by (apply same_sector; lia). by rewrite Z.eqb_refl.
      * destruct (Z.eqb_spec j k) as [->|]; [done|]. unfold fb. by rewrite E, El.
    + destruct (Z.eqb_spec j k) as [->|]; done.
Qed.

Lemma bytes_updated_trans d d1 d2 f g : bytes_updated d d1 f -> bytes_updated d1 d2 g ->
  bytes_updated d d2 (fun k => match g k with Some v => Some v | None => f k end).
Proof.
  intros [_ H1] [D2 H2]. split; [done|]. intros k Hk. rewrite H2 by done.
  destruct (g k); [done|]. by apply H1.
Qed.

Lemma bytes_updated_copies d d1 f n sec cross b b2 : bytes_updated d d1 f ->
  fatStart info <= sec ->
  bytes_updated d (copy_fats info n 1 sec cross b b2 d1) f.
Proof.
  intros [D1 H1] Hs.
  destruct (disk_ok_agree d1 (copy_fats info n 1 sec cross b b2 d1) D1) as [D2 H2].
  { intros s Hf. apply copy_fats_primary; [lia|done|done]. }
  split; [done|]. intros k Hk. rewrite H2 by done. by apply H1.
Qed.

(** *** The 12-bit case *)

Definition upd12 (c v p q : Z) (k : Z) : option Z :=
  let f := first_byte info c in
  if k =? f + 1 then Some (put12_last c q v)
  else if k =? f then Some (put12_first c p v) else None.

Lemma next_byte k : 0 <= k -> let b := bps info in
  (k / b =? (k + 1) / b) = true -> (k + 1) mod b = k mod b + 1.
Proof.
  destruct (io_bps ok) as [Hb _]. intros Hk b E. apply Z.eqb_eq in E.
  pose proof (Z.div_mod k b ltac:(lia)). pose proof (Z.div_mod (k + 1) b ltac:(lia)). nia.
Qed.

Lemma cross_byte k : 0 <= k -> let b := bps info in
  (k / b =? (k + 1) / b) = false -> (k + 1) / b = k / b + 1.
Proof.
  destruct (io_bps ok) as [Hb _]. intros Hk b E. apply Z.eqb_neq in E.
  pose proof (Z.div_mod k b ltac:(lia)). pose proof (Z.mod_pos_bound k b ltac:(lia)).
  pose proof (Z.div_mod (k + 1) b ltac:(lia)). pose proof (Z.mod_pos_bound (k + 1) b ltac:(lia)). nia.
Qed.

Lemma put12_bytes c p q v : is_byte p -> is_byte q -> 0 <= v < 4096 ->
  is_byte (put12_first c p v) /\ is_byte (put12_last c q v).
Proof.
  intros Hp Hq Hv. rewrite put12_first_eq, put12_last_eq by (done || lia). unfold is_byte in *.
  destruct (Z.odd c); Z.to_euclidean_division_equations; lia.
Qed.

Lemma FatAccess_12 d c newVal : disk_ok d -> valid c -> fatType info = 12 ->
  newVal = -1 \/ 0 <= newVal < 4096 ->
  let f := first_byte info c in
  exists d', FatAccess info c newVal d = Ret (entry d c, d')
    /\ (newVal = -1 -> d' = d)
    /\ (newVal <> -1 -> bytes_updated d d' (upd12 c newVal (fb d f) (fb d (f + 1)))).
Proof.
  intros D Hv Ht Hn f. pose proof (table_byte_0 c Hv) as Hf. pose proof (table_byte_1 c Hv) as Hf1. fold f in Hf, Hf1.
  destruct Hv as [V1 V2]. pose proof (proj1 Hf) as F1.
  destruct (fb_lookup d f D Hf) as (l & El & Ll & Fl & Zl & Bl).
  destruct (fb_lookup d (f + 1) D Hf1) as (l2 & El2 & Ll2 & Fl2 & Zl2 & Bl2).
  unfold FatAccess, entry. fold f. rewrite Ht. cbn [Z.eqb Pos.eqb].
  destruct (Z.ltb_spec (totalDataSectors info) c); [lia|]. rewrite El.
  assert (Hs : fatStart info <= fatStart info + f / bps info) by (destruct (byte_sector f Hf) as [[? ?] _]; lia).
  destruct (f / bps info =? (f + 1) / bps info) eqn:Cr; cbn [negb].
  - (* one sector *)
    pose proof Cr as Cr'. apply Z.eqb_eq in Cr'.
    rewrite <- Cr' in El2. assert (l2 = l) as -> by congruence.
    rewrite Zl, Zl2. cbn [of_option bindO].
    destruct (Z.eqb_spec newVal (-1)) as [->|N]; [exists d; done|].
    destruct Hn as [|Hn]; [done|].
    destruct (put12_bytes c (fb d f) (fb d (f + 1)) newVal Bl Bl2 Hn) as [B1 B2].
    destruct (byte_sector f Hf) as [_ M1]. destruct (byte_sector (f + 1) Hf1) as [_ M2].
    rewrite zupdate_lt by lia. cbn [of_option bindO].
    rewrite zupdate_lt by (rewrite length_insert; lia). cbn [of_option bindO].
    eexists. split; [reflexivity|]. split; [done|]. intros _.
    apply bytes_updated_copies; [|done].
    pose proof (byte_updated d f (put12_first c (fb d f) newVal) l _ D Hf B1 El
      (zupdate_lt l (f mod bps info) _ ltac:(lia))) as U1.
    set (l1 := <[Z.to_nat (f mod bps info) := put12_first c (fb d f) newVal]> l) in *.
    set (d1 := <[fatStart info + f / bps info := l1]> d) in *.
    assert (E1 : d1 !! (fatStart info + (f + 1) / bps info) = Some l1)
      by (rewrite <- Cr'; apply lookup_insert_eq).
    pose proof (byte_updated d1 (f + 1) (put12_last c (fb d (f + 1)) newVal) l1 _
      (proj1 U1) Hf1 B2 E1 (zupdate_lt l1 ((f + 1) mod bps info) _
        ltac:(subst l1; rewrite length_insert; lia))) as U2.
    pose proof (bytes_updated_trans _ _ _ _ _ U1 U2) as U. unfold d1 in U.
    rewrite <- Cr', insert_insert_eq in U.
    destruct U as [D' U]. split; [done|]. intros k Hk. rewrite U by done. unfold upd12. fold f.
    by destruct (k =? f + 1), (k =? f).
  - (* two sectors *)
    pose proof (cross_byte f F1 Cr) as Cr'.
    rewrite Cr', Z.add_assoc in El2. rewrite El2, Zl, Zl2. cbn [of_option bindO].
    destruct (Z.eqb_spec newVal (-1)) as [->|N]; [exists d; done|].
    destruct Hn as [|Hn]; [done|].
    destruct (put12_bytes c (fb d f) (fb d (f + 1)) newVal Bl Bl2 Hn) as [B1 B2].
    destruct (byte_sector f Hf) as [_ M1]. destruct (byte_sector (f + 1) Hf1) as [_ M2].
    rewrite zupdate_lt by lia. cbn [of_option bindO]. rewrite zupdate_lt by lia. cbn [of_option bindO].
    eexists. split; [reflexivity|]. split; [done|]. intros _.
    apply bytes_updated_copies; [|done].
    pose proof (byte_updated d f (put12_first c (fb d f) newVal) l _ D Hf B1 El
      (zupdate_lt l (f mod bps info) _ ltac:(lia))) as U1.
    set (l1 := <[Z.to_nat (f mod bps info) := put12_first c (fb d f) newVal]> l) in *.
    set (d1 := <[fatStart info + f / bps info := l1]> d) in *.
    assert (E1 : d1 !! (fatStart info + (f + 1) / bps info) = Some l2)
      by (subst d1; rewrite Cr', Z.add_assoc, lookup_insert_ne by lia; done).
    pose proof (byte_updated d1 (f + 1) (put12_last c (fb d (f + 1)) newVal) l2 _
      (proj1 U1) Hf1 B2 E1 (zupdate_lt l2 ((f + 1) mod bps info) _ ltac:(lia))) as U2.
    pose proof (bytes_updated_trans _ _ _ _ _ U1 U2) as U.
    rewrite Cr', Z.add_assoc in U. destruct U as [D' U]. split; [done|].
    intros k Hk. rewrite U by done. unfold upd12. fold f. by destruct (k =? f + 1), (k =? f).
Qed.

(** *** The 16- and 32-bit cases *)

Fixpoint wide (n : nat) d (k : Z) : Z :=
  match n with O => 0 | S n => fb d k + 256 * wide n d (k + 1) end.

Fixpoint upd_wide (n : nat) (v k j : Z) : option Z :=
  match n with
  | O => None
  | S n =>
      match upd_wide n (Z.shiftr v 8) (k + 1) j with
      | Some b => Some b
      | None => if j =? k then Some (u8 v) else None
      end
  end.

Lemma sector_offset s i : 0 <= s < fatLength info -> 0 <= i < bps info ->
  let k := s * bps info + i in
  k / bps info = s /\ k mod bps info = i /\ 0 <= k < fatLength info * bps info.
Proof.
  destruct (io_bps ok) as [Hb _]. intros Hs Hi k. subst k. split_and!.
  - rewrite Z.div_add_l by lia. rewrite Z.div_small by lia. lia.
  - rewrite Z.add_comm, Z_mod_plus_full. apply Z.mod_small. lia.
  - nia.
  - nia.
Qed.

Lemma load_le_wide d s l : disk_ok d -> 0 <= s < fatLength info -> d !! (fatStart info + s) = Some l ->
  forall n i, 0 <= i -> i + Z.of_nat n <= bps info -> load_le n l i = Ret (wide n d (s * bps info + i)).
Proof.
  intros D Hs El. induction n as [|n IH]; intros i Hi Hn; [done|].
  destruct (sector_offset s i Hs ltac:(lia)) as (Q & M & R).
  destruct (fb_lookup d _ D R) as (l0 & E0 & _ & _ & Z0 & _). rewrite Q in E0. rewrite M in Z0.
  assert (l0 = l) as -> by congruence. cbn [load_le wide]. rewrite Z0. cbn [of_option bindO].
  rewrite IH by lia. cbn [bindO]. by rewrite Z.add_assoc.
Qed.

Lemma store_le_wide s : 0 <= s < fatLength info ->
  forall n v l i d, disk_ok d -> d !! (fatStart info + s) = Some l -> 0 <= i -> i + Z.of_nat n <= bps info ->
  exists l', store_le n v l i = Ret l'
    /\ bytes_updated d (<[fatStart info + s := l']> d) (upd_wide n v (s * bps info + i)).
Proof.
  intros Hs. induction n as [|n IH]; intros v l i d D El Hi Hn.
  { exists l. split; [done|]. rewrite insert_id by done. by split. }
  destruct (sector_offset s i Hs ltac:(lia)) as (Q & M & R).
  destruct (fb_lookup d _ D R) as (l0 & E0 & L0 & _ & _ & _). rewrite Q in E0.
  assert (l0 = l) as -> by congruence.
  pose proof (zupdate_lt l i (u8 v) ltac:(lia)) as Eu.
  assert (Hv : is_byte (u8 v)) by apply u8_range.
  pose proof (byte_updated d _ (u8 v) l _ D R Hv ltac:(by rewrite Q) ltac:(by rewrite M)) as U1.
  rewrite Q in U1. cbn [store_le upd_wide]. rewrite Eu. cbn [of_option bindO].
  destruct (IH (Z.shiftr v 8) _ (i + 1) _ (proj1 U1) (lookup_insert_eq _ _ _) ltac:(lia) ltac:(lia))
    as (l' & E' & U2).
  exists l'. split; [done|]. rewrite insert_insert_eq, Z.add_assoc in U2.
  apply (bytes_updated_trans _ _ _ _ _ U1 U2).
Qed.

Definition entry_bytes : nat := if fatType info =? 16 then 2 else 4.
Definition of_wide (v : Z) : Z := if fatType info =? 16 then v else Z.land v 0xFFFFFFF.

Lemma first_byte_wide c : valid c -> fatType info <> 12 ->
  first_byte info c = Z.of_nat entry_bytes * c.
Proof.
  intros V Ht. rewrite (first_byte_offset c V). unfold table_offset, entry_bytes.
  destruct (Z.eqb_spec (fatType info) 12); [done|]. destruct (fatType info =? 16); lia.
Qed.

Lemma entry_wide d c : fatType info <> 12 -> entry d c = of_wide (wide entry_bytes d (first_byte info c)).
Proof.
  intros Ht. unfold entry, of_wide, entry_bytes. destruct (Z.eqb_spec (fatType info) 12); [done|].
  destruct (fatType info =? 16); cbn [wide];
    rewrite ?Z.mul_0_r, ?Z.add_0_r, <- ?Z.add_assoc; reflexivity.
Qed.

Lemma FatAccess_wide d c newVal : disk_ok d -> valid c -> fatType info <> 12 ->
  exists d', FatAccess info c newVal d = Ret (entry d c, d')
    /\ (newVal = -1 -> d' = d)
    /\ (newVal <> -1 -> bytes_updated d d' (upd_wide entry_bytes newVal (first_byte info c))).
Proof.
  intros D Hv Ht. pose proof (first_byte_wide c Hv Ht) as F.
  pose proof (table_byte_0 c Hv) as Hf. destruct (io_bps ok) as [Hb Ha]. destruct Hv as [V1 V2].
  set (f := first_byte info c) in *.
  assert (Hn : 0 < Z.of_nat entry_bytes /\ (Z.of_nat entry_bytes | 4)).
  { unfold entry_bytes. destruct (_ =? _); split; try lia; [by exists 2|by exists 1]. }
  assert (Fit : f mod bps info + Z.of_nat entry_bytes <= bps info).
  { apply Z.mod_divide in Ha; [|lia]. destruct Hn as [Hn [m Hm]], Ha as [q Hq].
    pose proof (Z.mod_pos_bound f (bps info) Hb). pose proof (Z.div_mod f (bps info) ltac:(lia)) as DM.
    assert (Eb : bps info = q * m * Z.of_nat entry_bytes) by (rewrite Hq, Hm; ring).
    assert (Em : f mod bps info = Z.of_nat entry_bytes * (c - q * m * (f / bps info)))
      by (transitivity (f - bps info * (f / bps info)); [lia|rewrite F at 1; rewrite Eb at 1; ring]).
    assert (c - q * m * (f / bps info) < q * m)
      by (apply (Z.mul_lt_mono_pos_l (Z.of_nat entry_bytes)); lia).
    assert (Z.of_nat entry_bytes * (c - q * m * (f / bps info) + 1) <= Z.of_nat entry_bytes * (q * m))
      by (apply Z.mul_le_mono_nonneg_l; lia). lia. }
  destruct (byte_sector f Hf) as [Hs Hm]. unfold fat_sector in Hs.
  destruct (fb_lookup d f D Hf) as (l & El & _).
  assert (Ef : f / bps info * bps info + f mod bps info = f) by (pose proof (Z.div_mod f (bps info)); lia).
  pose proof (load_le_wide d (f / bps info) l D ltac:(lia) El entry_bytes _ (proj1 Hm) Fit) as Ld.
  destruct (store_le_wide (f / bps info) ltac:(lia) entry_bytes newVal l _ d D El (proj1 Hm) Fit)
    as (l' & St & U).
  rewrite Ef in Ld, U. rewrite (entry_wide _ _ Ht). unfold FatAccess. fold f.
  destruct (Z.ltb_spec (totalDataSectors info) c); [lia|].
  destruct (Z.eqb_spec (fatType info) 12) as [|_]; [done|].
  rewrite Z.eqb_refl, El. cbn [negb].
  unfold entry_bytes, of_wide in *. rewrite Ld. cbn [bindO].
  destruct (fatType info =? 16) eqn:E16;
    [|assert (fatType info =? 32 = true) as -> by (destruct (io_type ok) as [|[|]]; lia)];
    cbn [orb]; rewrite ?St; cbn [bindO];
    destruct (Z.eqb_spec newVal (-1)) as [|N];
    (eexists; split; [reflexivity|split; [done|intros; first [done|apply bytes_updated_copies; [done|lia]]]]).
Qed.

(** *** The table as a function *)

Ltac eqb_lia :=
  repeat match goal with
  | |- context [?a =? ?b] =>
      first [ replace (a =? b) with true by lia | replace (a =? b) with false by lia ]
  end.

Definition upd (T : Z -> Z) (c v : Z) : Z -> Z := fun x => if x =? c then v else T x.

(** The bytes of one entry, rebuilt from the value stored. *)
Lemma entry_updated_wide d d' c v : disk_ok d -> valid c -> fatType info <> 12 -> value_ok v ->
  bytes_updated d d' (upd_wide entry_bytes v (first_byte info c)) ->
  forall x, valid x -> entry d' x = if x =? c then v else entry d x.
Proof.
  intros D V Ht Hv [D' U] x X. rewrite !entry_wide by done.
  pose proof (first_byte_wide c V Ht) as Fc. pose proof (first_byte_wide x X Ht) as Fx.
  pose proof (table_byte x 0 X). pose proof (table_byte x 1 X).
  pose proof (table_byte x 2 X). pose proof (table_byte x 3 X).
  unfold value_ok in Hv. destruct (Z.eqb_spec (fatType info) 12); [done|].
  unfold of_wide, entry_bytes in *.
  assert (S2 : fatType info <> 16 -> entry_size = 4) by (unfold entry_size; destruct (io_type ok) as [|[| ->]]; done).
  pose proof entry_size_range.
  destruct (Z.eqb_spec (fatType info) 16); cbn [wide upd_wide] in *;
    rewrite !U by lia; rewrite Fc, Fx; change (Z.of_nat 2) with 2; change (Z.of_nat 4) with 4;
    destruct (Z.eqb_spec x c) as [->|N];
    eqb_lia; try done;
    unfold u8; rewrite ?Z.shiftr_div_pow2 by lia; change (2 ^ 8) with 256.
  - Z.to_euclidean_division_equations; lia.
  - rewrite (land_ones_mod _ 28) by done. rewrite Z.mod_small; Z.to_euclidean_division_equations; lia.
Qed.

Lemma first_byte_12 m b : valid (2 * m + b) -> fatType info = 12 -> 0 <= b <= 1 ->
  first_byte info (2 * m + b) = 3 * m + b.
Proof.
  intros V Ht Hb. rewrite (first_byte_offset _ V). unfold table_offset. rewrite Ht. cbn [Z.eqb Pos.eqb].
  Z.to_euclidean_division_equations; lia.
Qed.

(** Entries of a FAT12 share a byte with a neighbour. *)
Lemma entry_updated_12 d d' c v : disk_ok d -> valid c -> fatType info = 12 -> value_ok v ->
  bytes_updated d d' (upd12 c v (fb d (first_byte info c)) (fb d (first_byte info c + 1))) ->
  forall x, valid x -> entry d' x = if x =? c then v else entry d x.
Proof.
  intros D V Ht Hv [D' U] x X. unfold value_ok in Hv. rewrite Ht in Hv. simpl in Hv.
  assert (S2 : entry_size = 2) by (unfold entry_size; by rewrite Ht).
  assert (B : forall y j, valid y -> 0 <= j < entry_size -> is_byte (fb d (first_byte info y + j))).
  { intros y j Y J. destruct (fb_lookup d _ D (table_byte y j Y J)) as (? & _ & _ & _ & _ & ?). done. }
  assert (B' : forall y j, valid y -> 0 <= j < entry_size -> is_byte (fb d' (first_byte info y + j))).
  { intros y j Y J. destruct (fb_lookup d' _ D' (table_byte y j Y J)) as (? & _ & _ & _ & _ & ?). done. }
  pose proof (B c 0 V ltac:(lia)) as B0. pose proof (B c 1 V ltac:(lia)) as B1.
  pose proof (B x 0 X ltac:(lia)) as B2. pose proof (B x 1 X ltac:(lia)) as B3.
  pose proof (B' x 0 X ltac:(lia)) as B4. pose proof (B' x 1 X ltac:(lia)) as B5.
  pose proof (U _ (table_byte x 0 X ltac:(lia))) as U0.
  pose proof (U _ (table_byte x 1 X ltac:(lia))) as U1.
  rewrite !Z.add_0_r in *. unfold entry. rewrite Ht. cbn [Z.eqb Pos.eqb].
  rewrite !get12_eq by done. unfold upd12 in U0, U1.
  rewrite put12_first_eq, put12_last_eq in U0, U1 by (done || lia).
  unfold is_byte in *. clear U B B'.
  assert (P : forall y, exists m b, y = 2 * m + b /\ 0 <= b <= 1 /\ Z.odd y = (b =? 1)).
  { intros y. exists (y / 2), (y mod 2). split_and!; try (Z.to_euclidean_division_equations; lia).
    rewrite Zmod_odd. by destruct (Z.odd y). }
  destruct (P c) as (m & b & Ec & Hb & Oc), (P x) as (n & e & Ex & He & Ox). rewrite Oc, Ox in *.
  assert (Fc : first_byte info c = 3 * m + b) by (subst c; by apply first_byte_12).
  assert (Fx : first_byte info x = 3 * n + e) by (subst x; by apply first_byte_12).
  rewrite Fc, Fx in *.
  destruct (decide (n = m)) as [->|N]; [|destruct (decide (m = n + 1)); [|destruct (decide (n = m + 1))]];
    assert (b = 0 \/ b = 1) as [-> | ->] by lia; assert (e = 0 \/ e = 1) as [-> | ->] by lia;
    subst c x; revert U0 U1; eqb_lia; intros U0 U1.
  all: clear Oc Ox P.
  all: try (rewrite U0, U1; done).
  all: rewrite ?Z.add_0_r in *; rewrite U0, U1; Z.to_euclidean_division_equations; lia.
Qed.

Lemma access_read d T c : rep d T -> valid c -> FatAccess info c (-1) d = Ret (T c, d).
Proof.
  intros [D R] V. rewrite <- R by done. destruct (decide (fatType info = 12)) as [E|E].
  - destruct (FatAccess_12 d c (-1) D V E ltac:(by left)) as (d' & -> & H & _). by rewrite H.
  - destruct (FatAccess_wide d c (-1) D V E) as (d' & -> & H & _). by rewrite H.
Qed.

Lemma access_write d T c v : rep d T -> valid c -> value_ok v ->
  exists d', FatAccess info c v d = Ret (T c, d') /\ rep d' (upd T c v).
Proof.
  intros [D R] V Hv. rewrite <- R by done.
  assert (E : forall d', disk_ok d' -> (forall x, valid x -> entry d' x = if x =? c then v else entry d x) ->
    rep d' (upd T c v)).
  { intros d' D' H. split; [done|]. intros x X. rewrite H by done. unfold upd.
    destruct (x =? c); [done|]. by apply R. }
  assert (v <> -1) as N by (unfold value_ok in Hv; lia).
  destruct (decide (fatType info = 12)) as [Et|Et].
  - assert (0 <= v < 4096) by (unfold value_ok in Hv; rewrite Et in Hv; simpl in Hv; lia).
    destruct (FatAccess_12 d c v D V Et ltac:(by right)) as (d' & -> & _ & H'). specialize (H' N).
    exists d'. split; [done|]. apply E; [apply H'|]. by apply entry_updated_12.
  - destruct (FatAccess_wide d c v D V Et) as (d' & -> & _ & H'). specialize (H' N).
    exists d'. split; [done|]. apply E; [apply H'|]. by apply entry_updated_wide.
Qed.

(** Two functions that agree on the table's clusters describe the same table. *)
Lemma rep_ext d T T' : rep d T -> (forall c, valid c -> T c = T' c) -> rep d T'.
Proof. intros [D R] H. split; [done|]. intros c V. by rewrite R, H. Qed.

(** *** Chains *)

(** [l] is the list of the clusters of the chain that starts at [c]. *)
Fixpoint chain (T : Z -> Z) (c : Z) (l : list Z) : Prop :=
  match l with
  | [] => False
  | x :: l => x = c /\ valid c /\ 0 <= T c /\
      (if invalidCluster info <=? T c then l = [] else chain T (T c) l)
  end.

Lemma chain_length_ok d T : rep d T -> forall l c fuel n, chain T c l -> c < invalidCluster info ->
  (length l < fuel)%nat -> chain_length info fuel c n d = Ret (n + Z.of_nat (length l)).
Proof.
  intros R. induction l as [|x l IH]; intros c fuel n H Hc Hf; [done|].
  destruct H as (-> & V & N & H). destruct fuel; [lia|]. cbn [chain_length length].
  destruct (Z.ltb_spec c (invalidCluster info)); [|lia].
  rewrite (access_read d T) by done. cbn [bindO]. simpl in Hf.
  destruct (Z.leb_spec (invalidCluster info) (T c)).
  - subst l. destruct fuel; [lia|]. cbn [chain_length].
    destruct (Z.ltb_spec (T c) (invalidCluster info)); [lia|]. simpl. f_equal; lia.
  - rewrite IH by (done || lia). f_equal. lia.
Qed.

Lemma last_nonempty (a b y : Z) l : List.last (y :: l) a = List.last (y :: l) b.
Proof. revert y. induction l as [|z l IH]; intros y; [done|]. apply IH. Qed.

Lemma find_last_ok d T : rep d T -> forall l c fuel, chain T c l -> (length l <= fuel)%nat ->
  find_last info fuel c d = Ret (List.last l c).
Proof.
  intros R. induction l as [|x l IH]; intros c fuel H Hf; [done|].
  destruct H as (-> & V & N & H). destruct fuel; [simpl in Hf; lia|]. cbn [find_last].
  rewrite (access_read d T) by done. cbn [bindO]. simpl in Hf.
  destruct (Z.leb_spec (invalidCluster info) (T c)).
  - by subst l.
  - rewrite IH by (done || lia). destruct l as [|y l]; [done|].
    by rewrite (last_nonempty (T c) c).
Qed.

(** The search finds the lowest free entry, when there is one before the
    end of the table, and it finds none when no entry it looks at is free. *)
Lemma find_free_least d T : rep d T -> forall n i c, i <= c < i + Z.of_nat n -> T c = 0 -> (forall j, i <= j <= c -> valid j) ->
  exists c', find_free_entry info n i d = Ret c' /\ i <= c' <= c /\ T c' = 0 /\ forall j, i <= j < c' -> T j <> 0.
Proof.
  intros R. induction n as [|n IH]; intros i c Hc Tc V; [lia|].
  cbn [find_free_entry]. rewrite (access_read d T) by (done || (apply V; lia)). cbn [bindO].
  destruct (Z.eqb_spec (T i) 0) as [E|E]; [exists i; split_and!; try done; lia|].
  assert (c <> i) by congruence.
  destruct (IH (i + 1) c) as (c' & -> & ? & ? & F); [lia|done|intros; apply V; lia|]. exists c'. split_and!; try done; try lia.
  intros j Hj. destruct (decide (j = i)) as [->|]; [done|apply F; lia].
Qed.
Lemma find_free_none d T : rep d T -> forall n i, (forall j, i <= j < i + Z.of_nat n -> valid j /\ T j <> 0) ->
  find_free_entry info n i d = Ret (-1).
Proof.
  intros R. induction n as [|n IH]; intros i Full; [done|]. destruct (Full i ltac:(lia)) as [V N].
  cbn [find_free_entry]. rewrite (access_read d T) by done. cbn [bindO]. destruct (Z.eqb_spec (T i) 0); [done|].
  apply IH. intros j Hj. apply Full. lia.
Qed.

(** Zeroing data sectors leaves the table alone. *)
Lemma zero_sectors_ok T : forall n s d, rep d T -> firstDataSector info <= s -> s + Z.of_nat n < 2 ^ 32 ->
  (forall t, s <= t < s + Z.of_nat n -> is_Some (d !! t)) ->
  exists d', zero_sectors info n s d = Ret d' /\ rep d' T
    /\ forall t, d' !! t = if (s <=? t) && (t <? s + Z.of_nat n)
                          then Some (replicate (Z.to_nat (bps info)) 0) else d !! t.
Proof.
  induction n as [|n IH]; intros s d R Hs H32 Hd; cbn [zero_sectors].
  { exists d. split_and!; try done. intros t. zcases; simpl; done || lia. }
  destruct (Hd s) as [b Eb]; [lia|]. rewrite Eb. cbn [of_option bindO].
  destruct (io_data ok) as [? ?], (io_start ok) as [? ?].
  assert (fatStart info + fatLength info <= firstDataSector info) by nia.
  rewrite u32_id by lia.
  destruct (IH (s + 1) (<[s := replicate (Z.to_nat (bps info)) 0]> d)) as (d' & E & R' & F); try lia.
  - destruct R as [D R].
    destruct (disk_ok_agree d (<[s := replicate (Z.to_nat (bps info)) 0]> d) D) as [D' F].
    { intros t Ht. unfold fat_sector in Ht. by rewrite lookup_insert_ne by lia. }
    split; [done|]. intros c V. rewrite <- R by done. by apply entry_agree.
  - intros t Ht. rewrite lookup_insert_ne by lia. apply Hd. lia.
  - exists d'. split_and!; try done. intros t. rewrite F.
    destruct (decide (t = s)) as [->|]; [rewrite lookup_insert_eq|rewrite lookup_insert_ne by done];
      zcases; simpl; done || lia.
Qed.

(** *** Freeing *)

Definition freed (l : list Z) (T : Z -> Z) : Z -> Z := fun x => if decide (x ∈ l) then 0 else T x.

Lemma value_ok_0 : value_ok 0.
Proof. unfold value_ok. repeat case_match; lia. Qed.

Lemma chain_upd T x v l c : chain T c l -> x ∉ l -> chain (upd T x v) c l.
Proof.
  revert c. induction l as [|y l IH]; intros c H Hx; [done|].
  destruct H as (-> & V & N & H). apply not_elem_of_cons in Hx as [Hx1 Hx2].
  assert (E : upd T x v c = T c) by (unfold upd; destruct (Z.eqb_spec c x); congruence).
  cbn [chain]. rewrite E. split_and!; try done.
  destruct (invalidCluster info <=? T c); [done|]. by apply IH.
Qed.

Lemma free_chain_ok : forall l T d c fuel, rep d T -> chain T c l -> NoDup l -> (length l <= fuel)%nat ->
  exists d', free_chain info fuel c d = Ret d' /\ rep d' (freed l T).
Proof.
  induction l as [|x l IH]; intros T d c fuel R H ND Hf; [done|].
  destruct H as (-> & V & N & H). apply NoDup_cons in ND as [Nin ND].
  destruct fuel; [simpl in Hf; lia|]. simpl in Hf. cbn [free_chain].
  destruct (access_write d T c 0 R V value_ok_0) as (d1 & -> & R1). cbn [bindO].
  destruct (Z.leb_spec (invalidCluster info) (T c)).
  - exists d1. split; [done|]. subst l. apply (rep_ext _ _ _ R1). intros y _. unfold upd, freed.
    destruct (Z.eqb_spec y c) as [->|]; case_decide as E; try done; set_solver.
  - destruct (IH (upd T c 0) d1 (T c) fuel R1) as (d' & E & R'); [by apply chain_upd|done|lia|].
    exists d'. split; [done|]. apply (rep_ext _ _ _ R'). intros y _. unfold upd, freed.
    destruct (Z.eqb_spec y c) as [->|]; repeat case_decide; try done; set_solver.
Qed.

Lemma skip_ok d T : rep d T -> forall l1 l2 c fuel, chain T c (l1 ++ l2) -> l2 <> [] ->
  (length l1 < fuel)%nat ->
  skip_clusters info fuel (Z.of_nat (length l1)) c d = Ret (head l2)
  /\ exists c', head l2 = Some c' /\ chain T c' l2.
Proof.
  intros R. induction l1 as [|x l1 IH]; intros l2 c fuel H N Hf; (destruct fuel; [simpl in Hf; lia|]).
  - destruct l2 as [|y l2]; [done|]. simpl. pose proof H as (-> & _). split; [done|]. by exists c.
  - destruct H as (-> & V & Nn & H). cbn [skip_clusters length].
    destruct (c_true (Z.of_nat (S (length l1)))) eqn:C; [|apply c_true_false in C; lia].
    rewrite (access_read d T) by done. cbn [bindO].
    destruct (Z.leb_spec (invalidCluster info) (T c)).
    { destruct l1, l2; done. }
    replace (Z.of_nat (S (length l1)) - 1) with (Z.of_nat (length l1)) by lia.
    apply IH; [done|done|simpl in Hf; lia].
Qed.

(** *** Appending *)

Lemma chain_append T x l c : valid x -> x < invalidCluster info -> 0 <= invalidCluster info ->
  chain T c l -> NoDup l -> x ∉ l -> 0 <= x ->
  chain (upd (upd T x (invalidCluster info)) (List.last l c) x) c (l ++ [x]).
Proof.
  intros Vx Ix I0. revert c. induction l as [|y l IH]; intros c H ND Nx X0; [done|].
  destruct H as (-> & V & N & H). apply NoDup_cons in ND as [Nin ND].
  apply not_elem_of_cons in Nx as [Nx1 Nx2]. cbn [app chain].
  destruct (Z.leb_spec (invalidCluster info) (T c)).
  - subst l. simpl. unfold upd. rewrite Z.eqb_refl. split_and!; try done.
    destruct (Z.leb_spec (invalidCluster info) x); [lia|]. cbn [app chain].
    destruct (Z.eqb_spec x c); [congruence|]. rewrite Z.eqb_refl. split_and!; try done.
    destruct (Z.leb_spec (invalidCluster info) (invalidCluster info)); [done|lia].
  - destruct l as [|z l]; [done|].
    assert (Lc : List.last (z :: l) (T c) ∈ z :: l).
    { rewrite (app_removelast_last (T c) (l := z :: l)) at 2 by done. set_solver. }
    replace (List.last (c :: z :: l) c) with (List.last (z :: l) (T c)) 
      by exact (last_nonempty (T c) c z l).
    specialize (IH (T c) H ND Nx2 X0).
    set (T' := upd (upd T x (invalidCluster info)) (List.last (z :: l) (T c)) x) in *.
    assert (E : T' c = T c).
    { unfold T', upd. destruct (Z.eqb_spec c (List.last (z :: l) (T c))) as [Ec|]; [rewrite Ec in Nin; done|].
      destruct (Z.eqb_spec c x); congruence. }
    rewrite E. split_and!; try done.
    destruct (Z.leb_spec (invalidCluster info) (T c)); [lia|done].
Qed.

(** *** What lies outside the tables *)

Lemma copy_fats_outside n : forall i sec (cross : bool) b b2 d s, 1 <= i -> fat_sector sec ->
  (if cross then fat_sector (sec + 1) else True) ->
  fatStart info + fatLength info * (i + Z.of_nat n) <= s ->
  copy_fats info n i sec cross b b2 d !! s = d !! s.
Proof.
  induction n as [|n IH]; intros i sec cross b b2 d s Hi Hs Hc Ho; cbn [copy_fats]; [done|].
  destruct (io_start ok) as [_ Hl]. unfold fat_sector in *.
  assert (sec + fatLength info * i < s /\ (if cross then sec + fatLength info * i + 1 < s else True))
    as [N1 N2] by (split; [|destruct cross; [|done]]; nia).
  destruct (d !! (sec + fatLength info * i)); [|done].
  destruct cross; [destruct (d !! (sec + fatLength info * i + 1)); [|done]|];
    rewrite IH by (done || lia); by rewrite !lookup_insert_ne by lia.
Qed.

(** FatAccess changes no data sector. *)
Lemma FatAccess_data d c v r d' s : disk_ok d -> valid c -> firstDataSector info <= s ->
  FatAccess info c v d = Ret (r, d') -> d' !! s = d !! s.
Proof.
  intros D V Hs. pose proof (table_byte_1 c V) as T1. pose proof (table_byte_0 c V) as T0. pose proof (proj1 T0) as F1.
  destruct (io_data ok) as [N1 N2], (io_start ok) as [S1 S2].
  assert (Hn : fatStart info + fatLength info * (1 + Z.of_nat (Z.to_nat (numFats info - 1))) <= s)
    by (rewrite Z2Nat.id by lia; nia).
  assert (H1 : fatStart info + fatLength info <= s) by nia.
  destruct (byte_sector _ T0) as [B0 _], (byte_sector _ T1) as [B1 _]. pose proof B0 as B0'.
  unfold FatAccess. set (f := first_byte info c) in *.
  destruct (totalDataSectors info <? c); [done|].
  destruct (d !! (fatStart info + f / bps info)) as [l|]; [|naive_solver].
  unfold fat_sector in B0', B1. destruct (fatType info =? 12).
  - destruct (f / bps info =? (f + 1) / bps info) eqn:Cr; cbn [negb].
    + intros H. inv_outcome. destruct (v =? -1); inv_outcome; [done|].
      rewrite copy_fats_outside by (done || lia). by rewrite lookup_insert_ne by lia.
    + pose proof (cross_byte f F1 Cr) as Cr'.
      destruct (d !! (fatStart info + f / bps info + 1)); [|intros H; by inv_outcome].
      intros H. inv_outcome. destruct (v =? -1); inv_outcome; [done|].
      rewrite copy_fats_outside by (done || (unfold fat_sector; lia)). by rewrite !lookup_insert_ne by lia.
  - rewrite Z.eqb_refl. cbn [negb]. intros H. inv_outcome. destruct (v =? -1); inv_outcome; [done|].
    rewrite copy_fats_outside by (done || lia). by rewrite lookup_insert_ne by lia.
Qed.

(** *** The backup tables *)

(** Every sector of every table can be read. *)
Definition copies_ok d : Prop :=
  forall s i, fat_sector s -> 0 <= i < numFats info -> is_Some (d !! (s + fatLength info * i)).

Lemma copies_apart s j s' j' : fat_sector s -> fat_sector s' -> s + fatLength info * j = s' + fatLength info * j' -> s = s' /\ j = j'.
Proof using ok. destruct (io_start ok) as [_ Hl]. unfold fat_sector. intros H H' E. assert (j = j') by nia. subst. lia. Qed.

Lemma copy_fats_copies n : forall i sec (cross : bool) b b2 d, fat_sector sec -> (cross = true -> fat_sector (sec + 1)) ->
  (forall s j, fat_sector s -> i <= j < i + Z.of_nat n -> is_Some (d !! (s + fatLength info * j))) ->
  forall s j, fat_sector s -> copy_fats info n i sec cross b b2 d !! (s + fatLength info * j) =
    if (i <=? j) && (j <? i + Z.of_nat n) && (s =? sec) then Some b
    else if (i <=? j) && (j <? i + Z.of_nat n) && (cross && (s =? sec + 1)) then Some b2
    else d !! (s + fatLength info * j).
Proof using ok.
  induction n as [|n IH]; intros i sec cross b b2 d Hs Hc Rd s j Hf; cbn [copy_fats].
  { destruct (Z.leb_spec i j), (Z.ltb_spec j (i + Z.of_nat 0)); try lia; done. }
  destruct (Rd sec i Hs ltac:(lia)) as [x Ex]. rewrite Ex.
  set (d1 := if cross then <[sec + fatLength info * i := b]> (<[sec + fatLength info * i + 1 := b2]> d) else <[sec + fatLength info * i := b]> d).
  assert (E : (if cross then match d !! (sec + fatLength info * i + 1) with
      | Some _ => copy_fats info n (i + 1) sec cross b b2 (<[sec + fatLength info * i := b]> (<[sec + fatLength info * i + 1 := b2]> d))
      | None => d end else copy_fats info n (i + 1) sec cross b b2 (<[sec + fatLength info * i := b]> d))
    = copy_fats info n (i + 1) sec cross b b2 d1).
  { unfold d1. destruct cross; [|done]. destruct (Rd (sec + 1) i (Hc eq_refl) ltac:(lia)) as [y Ey].
    replace (sec + fatLength info * i + 1) with (sec + 1 + fatLength info * i) by lia. by rewrite Ey. }
  assert (L1 : forall s j, fat_sector s -> d1 !! (s + fatLength info * j) =
    if (j =? i) && (s =? sec) then Some b else if (j =? i) && (cross && (s =? sec + 1)) then Some b2 else d !! (s + fatLength info * j)).
  { intros s' j' Hf'. assert (M : forall t v (m : disk), fat_sector t -> (<[t + fatLength info * i := v]> m) !! (s' + fatLength info * j') =
      if (j' =? i) && (s' =? t) then Some v else m !! (s' + fatLength info * j')).
    { intros t v m Ht. destruct (Z.eqb_spec j' i) as [->|Nj]; [destruct (Z.eqb_spec s' t) as [->|Ns]|]; cbn [andb]; [by rewrite lookup_insert_eq|..];
        rewrite lookup_insert_ne; try done; intros Q; destruct (copies_apart _ _ _ _ Ht Hf' Q); congruence. }
    unfold d1. destruct cross; cbn [andb]; rewrite M by done; [|by rewrite andb_false_r].
    replace (sec + fatLength info * i + 1) with (sec + 1 + fatLength info * i) by lia. by rewrite M by auto. }
  rewrite E. rewrite (IH (i + 1) sec cross b b2 d1 Hs Hc); [|..|done].
  - rewrite L1 by done. destruct (Z.leb_spec (i + 1) j), (Z.leb_spec i j), (Z.ltb_spec j (i + 1 + Z.of_nat n)), (Z.ltb_spec j (i + Z.of_nat (S n)));
      try lia; cbn [andb]; destruct (Z.eqb_spec j i); try lia; cbn [andb]; try done.
    all: destruct (s =? sec), cross, (s =? sec + 1); done.
  - intros s' j' Hf' Hj'. rewrite L1 by done. destruct (_ && _); [done|]. destruct (_ && _); [done|]. apply Rd; [done|lia].
Qed.

(** Every sector of the table that FatAccess changes is the same in all the
    copies. *)
Definition copied d d' : Prop := forall s i, fat_sector s -> 0 <= i < numFats info ->
  d' !! (s + fatLength info * i) = d' !! s
  \/ (d' !! s = d !! s /\ d' !! (s + fatLength info * i) = d !! (s + fatLength info * i)).

Lemma copied_writes d sec (cross : bool) b b2 : fat_sector sec -> (cross = true -> fat_sector (sec + 1)) -> copies_ok d ->
  copied d (copy_fats info (Z.to_nat (numFats info - 1)) 1 sec cross b b2
    (let d := <[sec := b]> d in if cross then <[sec + 1 := b2]> d else d)).
Proof using ok.
  intros Hs Hc Rd s i Hf Hi. destruct (io_data ok) as [N1 _]. cbv zeta. set (d1 := if cross then _ else _).
  assert (L0 : forall t, fat_sector t -> d1 !! t = if t =? sec then Some b else if cross && (t =? sec + 1) then Some b2 else d !! t).
  { intros t Ht. unfold d1. destruct (Z.eqb_spec t sec) as [->|N].
    - destruct cross; [rewrite lookup_insert_ne by lia|]; apply lookup_insert_eq.
    - destruct cross; cbn [andb]; [|by rewrite lookup_insert_ne].
      destruct (Z.eqb_spec t (sec + 1)) as [->|]; [apply lookup_insert_eq|by rewrite !lookup_insert_ne by done]. }
  assert (Far : forall t j, fat_sector t -> 1 <= j -> d1 !! (t + fatLength info * j) = d !! (t + fatLength info * j)).
  { intros t j Ht Hj. destruct (io_start ok) as [_ Hl]. unfold d1.
    assert (Ne : forall u, fat_sector u -> u <> t + fatLength info * j) by (unfold fat_sector in *; intros; nia).
    destruct cross; rewrite !lookup_insert_ne; auto. }
  assert (Q : forall t j, fat_sector t -> 0 <= j < numFats info -> copy_fats info (Z.to_nat (numFats info - 1)) 1 sec cross b b2 d1 !! (t + fatLength info * j)
    = if t =? sec then Some b else if cross && (t =? sec + 1) then Some b2 else d !! (t + fatLength info * j)).
  { intros t j Ht Hj. rewrite copy_fats_copies by (done || (intros u k Hu Hk; rewrite Far by (done || lia); apply Rd; [done|lia])).
    rewrite Z2Nat.id by lia. destruct (Z.leb_spec 1 j), (Z.ltb_spec j (1 + (numFats info - 1))); try lia; cbn [andb].
    - rewrite Far by done. done.
    - assert (j = 0) as -> by lia. rewrite Z.mul_0_r, Z.add_0_r. by apply L0. }
  pose proof (Q s 0 Hf ltac:(lia)) as Q0. rewrite Z.mul_0_r, Z.add_0_r in Q0. rewrite Q0, Q by done.
  destruct (s =? sec); [by left|]. destruct (cross && (s =? sec + 1)); [by left|]. by right.
Qed.

Lemma FatAccess_copied d c v r d' : disk_ok d -> valid c -> copies_ok d -> FatAccess info c v d = Ret (r, d') -> copied d d'.
Proof using ok.
  intros D V Cp. pose proof (table_byte_1 c V) as T1. pose proof (table_byte_0 c V) as T0. pose proof (proj1 T0) as F1.
  destruct (byte_sector _ T0) as [B0 _], (byte_sector _ T1) as [B1 _].
  assert (Same : copied d d) by (intros ? ? ? ?; by right).
  unfold FatAccess. set (f := first_byte info c) in *. destruct (totalDataSectors info <? c); [done|].
  destruct (d !! (fatStart info + f / bps info)) as [l|]; [|intros [= _ <-]; done]. destruct (fatType info =? 12).
  - destruct (f / bps info =? (f + 1) / bps info) eqn:Cr; cbn [negb].
    + intros H. inv_outcome. destruct (v =? -1); inv_outcome; [done|]. by apply (copied_writes d _ false).
    + pose proof (cross_byte f F1 Cr) as Cr'. rewrite Cr', Z.add_assoc in B1.
      destruct (d !! (fatStart info + f / bps info + 1)); [|intros H; by inv_outcome].
      intros H. inv_outcome. destruct (v =? -1); inv_outcome; [done|]. by apply (copied_writes d _ true).
  - rewrite Z.eqb_refl. cbn [negb]. intros H. inv_outcome. destruct (v =? -1); inv_outcome; [done|]. by apply (copied_writes d _ false).
Qed.

(** The clusters of a chain are in use. *)
Lemma chain_used T c l : 0 < invalidCluster info -> chain T c l -> Forall (fun x => 2 <= x) l ->
  forall x, x ∈ l -> T x <> 0.
Proof.
  intros I. revert c. induction l as [|y l IH]; intros c H F x Hx; [done|].
  destruct H as (-> & V & N & H). apply Forall_cons in F as [F1 F].
  apply elem_of_cons in Hx as [->|Hx].
  - destruct (Z.leb_spec (invalidCluster info) (T c)); [lia|].
    destruct l; [done|]. destruct H as (<- & _). apply Forall_cons in F as [F2 _]. lia.
  - destruct (Z.leb_spec (invalidCluster info) (T c)); [by subst l; set_solver|]. by apply (IH (T c)).
Qed.

Lemma chain_valid T c l : chain T c l -> forall x, x ∈ l -> valid x.
Proof.
  revert c. induction l as [|y l IH]; intros c H x Hx; [done|].
  destruct H as (-> & V & N & H). apply elem_of_cons in Hx as [->|Hx]; [done|].
  destruct (invalidCluster info <=? T c); [by subst l; set_solver|]. by apply (IH (T c)).
Qed.

(** The chain is walked to its end when fewer clusters are asked for than it has. *)
Lemma skip_past d T : rep d T -> forall l c fuel n, chain T c l -> Z.of_nat (length l) <= n ->
  (length l <= fuel)%nat -> skip_clusters info fuel n c d = Ret None.
Proof.
  intros R. induction l as [|x l IH]; intros c fuel n H Hn Hf; [done|]. simpl in Hn, Hf.
  destruct fuel; [lia|]. destruct H as (-> & V & N & H). cbn [skip_clusters].
  destruct (c_true n) eqn:C; [|apply c_true_false in C; lia].
  rewrite (access_read d T) by done. cbn [bindO].
  destruct (Z.leb_spec (invalidCluster info) (T c)); [done|]. apply IH; [done|lia|lia].
Qed.
End Rep.

(** ** The operations on the table *)

(** The clusters with sectors, as far as FatAddCluster looks for one: it
    takes the number of sectors for that of clusters, and leaves the last
    two out when they are the same. *)
Definition data_cluster (info : FatSbInfo) (c : Z) : Prop :=
  2 <= c < totalDataSectors info /\ c - 2 < totalDataSectors info / secsPerClus info.

(** A mounted volume: the tables, which have an entry for every cluster,
    the marker that ends a chain, and the sectors of the data clusters. *)
Record volume_ok (info : FatSbInfo) (d : disk) : Prop := {
  vo_info : info_ok info;
  vo_table : forall c, data_cluster info c -> valid info c;
  vo_marker : value_ok info (invalidCluster info) /\ 2 + totalDataSectors info / secsPerClus info <= invalidCluster info;
  vo_clusters : 1 <= secsPerClus info /\ 0 <= firstDataSector info
    /\ totalDataSectors info + firstDataSector info < 2 ^ 32;
  vo_data : forall s, firstDataSector info <= s < firstDataSector info + totalDataSectors info -> is_Some (d !! s);
}.

(** The clusters of a file: none, or a chain of distinct data clusters. *)
Definition file_chain (info : FatSbInfo) (T : Z -> Z) (start : Z) (l : list Z) : Prop :=
  if start =? 0 then l = []
  else chain info T start l /\ NoDup l /\ Forall (fun c => 2 <= c) l.

Lemma FatToSector_data info d c : volume_ok info d -> data_cluster info c ->
  FatToSector info c = firstDataSector info + (c - 2) * secsPerClus info
  /\ firstDataSector info <= FatToSector info c
  /\ FatToSector info c + secsPerClus info <= firstDataSector info + totalDataSectors info.
Proof.
  intros V [Hc Hd]. destruct (vo_clusters _ _ V) as (S0 & F0 & B). unfold FatToSector.
  destruct (Z.eqb_spec c 0); [lia|]. assert (0 <= (c - 2) * secsPerClus info) by nia.
  assert ((c - 2) * secsPerClus info + secsPerClus info <= totalDataSectors info).
  { pose proof (Z.mul_div_le (totalDataSectors info) (secsPerClus info) ltac:(lia)). nia. }
  rewrite (u32_id ((c - 2) * secsPerClus info)) by lia. rewrite u32_id by lia. lia.
Qed.


(** The two updates that put a free cluster at the end of a chain. *)
Lemma link_new info T start l last new d0 d : volume_ok info d0 -> rep info d T ->
  file_chain info T start l -> (start <> 0 -> last = List.last l start) ->
  data_cluster info new -> T new = 0 ->
  exists d1 d2, FatAccess info new (invalidCluster info) d = Ret (T new, d1)
    /\ (if start =? 0 then Ret d1
        else if c_true last then let* (_, d) := FatAccess info last new d1 in Ret d else Ret d1) = Ret d2
    /\ (exists T', rep info d2 T' /\ file_chain info T' (if start =? 0 then new else start) (l ++ [new])
          /\ forall c, valid info c -> c ∉ l ++ [new] -> T' c = T c)
    /\ forall s, firstDataSector info <= s -> d2 !! s = d !! s.
Proof.
  intros V R Hc Hl Hn Tn. pose proof (vo_info _ _ V) as O. destruct (vo_marker _ _ V) as [Mv Mt].
  pose proof (vo_table _ _ V new Hn) as Vn. pose proof Hn as [Hn1 Hn2].
  destruct (vo_clusters _ _ V) as (S0 & _).
  assert (Ip : 0 < invalidCluster info) by (assert (0 <= totalDataSectors info / secsPerClus info) by (apply Z.div_pos; lia); lia).
  destruct (access_write info O d T new _ R Vn Mv) as (d1 & E1 & R1).
  pose proof (fun s Hs => FatAccess_data info O d new _ _ d1 s (proj1 R) Vn Hs E1) as K1.
  exists d1. unfold file_chain in Hc. destruct (Z.eqb_spec start 0) as [->|N].
  - exists d1. split_and!; try done. exists (upd T new (invalidCluster info)). subst l.
    split_and!; try done.
    + unfold file_chain. destruct (Z.eqb_spec new 0); [lia|]. split_and!; [|apply NoDup_singleton|apply Forall_singleton; lia].
      cbn [app chain]. unfold upd. rewrite Z.eqb_refl, Z.leb_refl. split_and!; done || lia.
    + intros c _ Hx. unfold upd. destruct (Z.eqb_spec c new); [set_solver|done].
  - destruct Hc as (C & ND & F). pose proof (chain_used info O T start l ltac:(lia) C F) as Used.
    assert (Hnew : new ∉ l) by (intros H; by apply (Used new)).
    assert (Hlast : last ∈ l /\ 2 <= last /\ valid info last).
    { rewrite (Hl N). destruct l as [|y l]; [done|].
      assert (I : List.last (y :: l) start ∈ y :: l)
        by (rewrite (app_removelast_last start (l := y :: l)) at 2 by done; set_solver).
      split; [done|]. split; [by apply (proj1 (Forall_forall _ _) F)|]. by apply (chain_valid info O T start _ C). }
    destruct Hlast as (I & L2 & VL).
    assert (Hv : value_ok info new) by (unfold value_ok in *; repeat case_match; lia).
    destruct (access_write info O d1 _ last new R1 VL Hv) as (d2 & E2 & R2).
    assert (c_true last = true) as -> by (apply c_true_spec; lia). rewrite E2. cbn [bindO].
    exists d2. split_and!; try done.
    + exists (upd (upd T new (invalidCluster info)) last new). split_and!; try done.
      * unfold file_chain. destruct (Z.eqb_spec start 0); [done|]. split_and!.
        -- rewrite (Hl N). apply chain_append; try done; lia.
        -- apply NoDup_app. split_and!; [done|set_solver|apply NoDup_singleton].
        -- apply Forall_app. split; [done|]. apply Forall_singleton. lia.
      * intros c _ Hx. unfold upd. destruct (Z.eqb_spec c last); [set_solver|].
        destruct (Z.eqb_spec c new); [set_solver|done].
    + intros s Hs. rewrite (FatAccess_data info O d1 last _ _ d2 s (proj1 R1) VL Hs E2). by apply K1.
Qed.

(** The state after an addition that succeeds. *)
Record added (info : FatSbInfo) (T : Z -> Z) (start : Z) (l : list Z) (d : disk) (new : Z) (r : fat_result) : Prop := {
  ad_ret : ret r = 0 /\ startCluster r = (if start =? 0 then new else start) /\ lastCluster r = new;
  ad_free : data_cluster info new /\ T new = 0 /\ forall j, 2 <= j < new -> T j <> 0;
  ad_table : exists T', rep info (new_disk r) T' /\ file_chain info T' (startCluster r) (l ++ [new])
    /\ forall c, valid info c -> c ∉ l ++ [new] -> T' c = T c;
  ad_data : forall s, firstDataSector info <= s -> new_disk r !! s =
    if (FatToSector info new <=? s) && (s <? FatToSector info new + secsPerClus info)
    then Some (replicate (Z.to_nat (bps info)) 0) else d !! s;
}.

Section Add.
Context (info : FatSbInfo) (d : disk) (T : Z -> Z) (fuel : nat) (id start : Z) (l : list Z).
Context (V : volume_ok info d) (R : rep info d T) (Hid : fatType info = 32 \/ id <> FAT_ROOT_ID).
Context (Hc : file_chain info T start l) (Hf : (length l <= fuel)%nat).

Lemma add_last : exists last, (if c_true start then find_last info fuel start d else Ret 0) = Ret last
  /\ (start <> 0 -> last = List.last l start).
Proof using V R Hc Hf.
  unfold file_chain, c_true in *. destruct (Z.eqb_spec start 0); simpl; [by exists 0|].
  exists (List.last l start). split; [|done]. destruct Hc as (C & _). by apply (find_last_ok info (vo_info _ _ V) d T).
Qed.
Lemma not_fixed_root : negb (fatType info =? 32) && (id =? FAT_ROOT_ID) = false.
Proof using Hid. destruct Hid; zcases; simpl; done || lia. Qed.

Lemma FatAddCluster_spec c0 : data_cluster info c0 -> T c0 = 0 ->
  exists new r, FatAddCluster info fuel id start d = Ret r /\ added info T start l d new r.
Proof using V R Hid Hc Hf.
  intros Hc0 T0. pose proof (vo_info _ _ V) as O. unfold FatAddCluster. rewrite not_fixed_root.
  destruct add_last as (last & -> & Hlast). cbn [bindO]. pose proof Hc0 as [C1 C2].
  destruct (find_free_least info O d T R (Z.to_nat (totalDataSectors info - 2)) 2 c0) as (new & -> & Hn & Tn & Least); [lia|done| |].
  { intros j Hj. apply (vo_table _ _ V). split; lia. }
  cbn [bindO]. assert (Dn : data_cluster info new) by (split; lia).
  destruct (Z.eqb_spec new (-1)); [lia|]. destruct (FatToSector_data info d new V Dn) as (_ & D1 & D2).
  destruct (vo_clusters _ _ V) as (S0 & F0 & B).
  assert (ES : Z.of_nat (Z.to_nat (secsPerClus info)) = secsPerClus info) by (apply Z2Nat.id; lia).
  destruct (zero_sectors_ok info O T (Z.to_nat (secsPerClus info)) (FatToSector info new) d R D1)
    as (d1 & -> & R1 & Z1); [lia|intros t Ht; apply (vo_data _ _ V); lia|]. cbn [bindO].
  destruct (link_new info T start l last new d d1 V R1 Hc Hlast Dn Tn)
    as (d2 & d3 & -> & E3 & HT & K). cbn [bindO]. rewrite E3. cbn [bindO].
  eexists new, _. split; [reflexivity|]. split; cbn [ret startCluster lastCluster new_disk]; [done|done|done|].
  intros s Hs. rewrite K, Z1, ES by done. done.
Qed.

Lemma FatAddCluster_full : (forall j, 2 <= j < totalDataSectors info -> valid info j /\ T j <> 0) ->
  exists r, FatAddCluster info fuel id start d = Ret r /\ ret r = - ENOSPC /\ startCluster r = start /\ new_disk r = d.
Proof using V R Hid Hc Hf.
  intros Full. pose proof (vo_info _ _ V) as O. unfold FatAddCluster. rewrite not_fixed_root.
  destruct add_last as (last & -> & _). cbn [bindO]. destruct (io_range _ O) as [[T2 _] _].
  rewrite (find_free_none info O d T R) by (intros; apply Full; lia). cbn [bindO].
  eexists. split; [reflexivity|done].
Qed.
End Add.


(** *** FatBlockMap *)

Lemma chain_head info T c l : chain info T c l -> head l = Some c.
Proof. destruct l; [done|]. by intros (-> & _). Qed.

Lemma walk_clusters_spec info d T : info_ok info -> rep info d T -> forall l c n, chain info T c l ->
  walk_clusters n info c d =
    Ret match l !! n with Some x => inl x | None => inr (S (n - length l)) end.
Proof.
  intros O R. induction l as [|x l IH]; intros c n H; [done|]. destruct H as (-> & V & N & H).
  destruct n as [|n]; [done|]. cbn [walk_clusters].
  rewrite (access_read info O d T) by done. cbn [bindO].
  destruct (invalidCluster info <=? T c).
  - subst l. simpl. by rewrite Nat.sub_0_r.
  - rewrite (IH (T c) n H). done.
Qed.

Lemma volume_ok_new info d r new : volume_ok info d ->
  (forall s, firstDataSector info <= s -> new_disk r !! s =
     if (FatToSector info new <=? s) && (s <? FatToSector info new + secsPerClus info)
     then Some (replicate (Z.to_nat (bps info)) 0) else d !! s) -> volume_ok info (new_disk r).
Proof.
  intros [V1 V2 V3 V4 V5] H. split; try done. intros s Hs. rewrite H by lia.
  destruct (_ && _); [done|]. by apply V5.
Qed.

Lemma free_or_full (T : Z -> Z) n : forall i, (exists c, i <= c < i + Z.of_nat n /\ T c = 0) \/ forall j, i <= j < i + Z.of_nat n -> T j <> 0.
Proof.
  induction n as [|n IH]; intros i; [right; lia|]. destruct (Z.eq_dec (T i) 0) as [E|E]; [left; exists i; split; [lia|done]|].
  destruct (IH (i + 1)) as [(c & Hc & Tc)|F]; [left; exists c; split; [lia|done]|right].
  intros j Hj. destruct (Z.eq_dec j i) as [->|]; [done|]. apply F. lia.
Qed.

Lemma add_clusters_spec id : forall n fuel info start last d T l,
  volume_ok info d -> rep info d T -> fatType info = 32 \/ id <> FAT_ROOT_ID ->
  file_chain info T start l -> (length l + n <= fuel)%nat -> secsPerClus info = 1 ->
  exists b r T' news, add_clusters n fuel info id start last d = Ret (b, r)
    /\ rep info (new_disk r) T' /\ file_chain info T' (startCluster r) (l ++ news)
    /\ (start <> 0 -> startCluster r = start)
    /\ (if b then length news = n /\ List.last news last = lastCluster r
        else ret r <> 0 /\ forall j, 2 <= j < totalDataSectors info -> T' j <> 0).
Proof.
  induction n as [|n IH]; intros fuel info start last d T l V R Hid Hc Hf S1; cbn [add_clusters].
  { eexists true, _, T, []. rewrite app_nil_r. split; [done|]. by split_and!. }
  assert (Data : forall c, 2 <= c < totalDataSectors info -> data_cluster info c).
  { intros c Hc'. split; [done|]. rewrite S1, Z.div_1_r. lia. }
  destruct (free_or_full T (Z.to_nat (totalDataSectors info - 2)) 2) as [(c & Hc0 & Tc)|Full].
  2: { destruct (FatAddCluster_full info d T fuel id start l V R Hid Hc ltac:(lia)) as (r & -> & Er & Es & Ed).
       { intros j Hj. split; [by apply (vo_table _ _ V), Data|apply Full; lia]. }
       cbn [bindO]. rewrite Er. eexists false, r, T, []. rewrite app_nil_r, Es, Ed. split_and!; try done; [by rewrite Er|].
       intros j Hj. apply Full. lia. }
  destruct (FatAddCluster_spec info d T fuel id start l V R Hid Hc ltac:(lia) c ltac:(apply Data; lia) Tc)
    as (new & r & -> & [(Er & Es & El) _ (T1 & R1 & C1 & _) Hd]). cbn [bindO]. rewrite Er. cbn [c_true Z.eqb negb].
  assert (V1 : volume_ok (set_freeClusters (free_count r) info) (new_disk r)).
  { destruct (volume_ok_new info d r new V Hd) as [[W1 W2 W3 W4 W5] W6 W7 W8 W9]. split; [split|..]; done. }
  destruct (IH fuel (set_freeClusters (free_count r) info) (startCluster r) (lastCluster r) (new_disk r) T1
    (l ++ [new]) V1 R1 Hid C1) as (b & r' & T' & news & E & R' & C' & S' & B').
  { rewrite length_app. simpl. lia. }
  { done. }
  exists b, r', T', (new :: news). rewrite cons_middle, app_assoc. split_and!; try done.
  - intros N. rewrite S'; rewrite Es; destruct (Z.eqb_spec start 0); try done.
  - destruct b; [|done]. destruct B' as [B1 B2]. split; [simpl; lia|]. rewrite <- B2, El.
    destruct news as [|y news]; [done|]. exact (last_nonempty last new y news).
Qed.

(** FatBlockMap finds the sector of a file's block: block [offset] of a
    file with the clusters [l] is sector [offset mod secsPerClus] of cluster
    number [offset / secsPerClus].  Past the end it returns -1 and changes
    nothing, unless VFS_MAP_CREATE is given: then, on a volume with one
    sector to the cluster, the file gets the missing clusters, and when they
    run out it returns -1 with every data cluster in use. *)
Theorem FatBlockMap_maps info d T fuel id start offset flags l :
  volume_ok info d -> rep info d T -> fatType info = 32 \/ id <> FAT_ROOT_ID -> start <> 0 ->
  file_chain info T start l -> (c_true (Z.land flags VFS_MAP_CREATE) = true -> secsPerClus info = 1) -> 0 <= offset ->
  (length l + Z.to_nat (offset / secsPerClus info) < fuel)%nat ->
  let k := Z.to_nat (offset / secsPerClus info) in
  let sector c := s32 (u32 (FatToSector info c + offset mod secsPerClus info)) in
  exists r, FatBlockMap fuel info id start offset flags d = Ret r /\ startCluster r = start
    /\ match l !! k with
       | Some c => ret r = sector c /\ new_disk r = d
       | None =>
           if c_true (Z.land flags VFS_MAP_CREATE)
           then exists T' l', rep info (new_disk r) T' /\ file_chain info T' start (l ++ l')
                  /\ ((exists c, (l ++ l') !! k = Some c /\ length (l ++ l') = S k /\ ret r = sector c)
                      \/ (ret r = -1 /\ forall j, 2 <= j < totalDataSectors info -> T' j <> 0))
           else ret r = -1 /\ new_disk r = d
       end.
Proof.
  intros V R Hid Hs Hc S0 O0 Hf k sector. pose proof (vo_info _ _ V) as O.
  assert (C : chain info T start l) by (unfold file_chain in Hc; destruct (Z.eqb_spec start 0); [done|apply Hc]).
  unfold FatBlockMap.
  assert ((id =? FAT_ROOT_ID) && negb (fatType info =? 32) = false) as ->.
  { destruct Hid; zcases; simpl; done || lia. }
  destruct (Z.eqb_spec start 0); [done|]. fold k.
  rewrite (walk_clusters_spec info d T O R l start k C). cbn [bindO].
  destruct (l !! k) as [c|] eqn:Ek; [eexists; split; [reflexivity|done]|].
  destruct (c_true (Z.land flags VFS_MAP_CREATE)); [|eexists; split; [reflexivity|done]]. specialize (S0 eq_refl).
  apply lookup_ge_None_1 in Ek.
  destruct (add_clusters_spec id (S (k - length l)) fuel info start 0 d T l V R Hid Hc) as
    (b & r & T' & news & -> & R' & C' & S' & B'); [lia|done|]. cbn [bindO].
  eexists. split; [reflexivity|]. cbn [startCluster ret new_disk]. rewrite S' in C' |- * by done.
  split; [done|]. exists T', news. split_and!; try done. destruct b; [left|right; split; [done|apply B']].
  destruct B' as [B1 <-]. exists (List.last news 0).
  assert (Ln : length (l ++ news) = S k) by (rewrite length_app; lia). split_and!; try done.
  rewrite lookup_app_r by lia. replace (k - length l)%nat with (pred (length news)) by lia.
  destruct news as [|x news] using rev_ind; [done|].
  rewrite last_last, length_app, Nat.add_1_r. simpl. by rewrite lookup_app_r, Nat.sub_diag by lia.
Qed.

(** Fewer clusters are kept than the chain has. *)
Lemma FatRemoveClusters_run info d T fuel id start number l :
  info_ok info -> rep info d T -> fatType info = 32 \/ id <> 0 -> start <> 0 ->
  file_chain info T start l -> 0 <= number < Z.of_nat (length l) -> (length l < fuel)%nat ->
  exists r, FatRemoveClusters info fuel id start number d = Ret r
  /\ ret r = 0 /\ startCluster r = (if number =? 0 then 0 else start)
  /\ rep info (new_disk r) (freed (drop (Z.to_nat number) l) T).
Proof.
  intros O R Hid Hs Hc Hl Hf. unfold file_chain in Hc.
  destruct (Z.eqb_spec start 0); [done|]. destruct Hc as (C & ND & _).
  unfold FatRemoveClusters.
  assert (negb (fatType info =? 32) && (id =? 0) = false) as ->.
  { destruct Hid; zcases; simpl; done || lia. }
  destruct (Z.eqb_spec start 0); [done|].
  set (l1 := take (Z.to_nat number) l). set (l2 := drop (Z.to_nat number) l).
  assert (E : l = l1 ++ l2) by (symmetry; apply take_drop).
  assert (L1 : length l1 = Z.to_nat number) by (apply length_take_le; lia).
  assert (N2 : l2 <> []).
  { intros E2. rewrite E2, app_nil_r in E. rewrite E in Hl. lia. }
  rewrite E in C, ND. apply NoDup_app in ND as (_ & _ & ND2).
  destruct (skip_ok info O d T R l1 l2 start fuel C N2 ltac:(lia)) as (Sk & c' & Hh & C2).
  rewrite L1, Z2Nat.id in Sk by lia. rewrite Sk, Hh. cbn [bindO].
  destruct (free_chain_ok info O l2 T d c' fuel R C2 ND2) as (d' & -> & R').
  { pose proof (f_equal length E) as EL. rewrite length_app in EL. lia. }
  cbn [bindO]. eexists. split; [reflexivity|done].
Qed.

Lemma chain_next info T l : forall c i x y, chain info T c l ->
  l !! i = Some x -> l !! S i = Some y -> T x = y.
Proof.
  induction l as [|z l IH]; intros c i x y H Hx Hy; [done|].
  destruct H as (-> & V & N & H). destruct (invalidCluster info <=? T c).
  { by subst l. }
  destruct i as [|i]; [|by apply (IH (T c) i)].
  simplify_eq/=. destruct l; [done|]. destruct H as (-> & _). by simplify_eq/=.
Qed.

(** FatRemoveClusters on a chain keeps its first [number] clusters and
    frees exactly the others, which is the whole file and its start cluster
    when [number] is 0; when the chain has no more than [number] clusters
    it returns -EINVAL and changes nothing. *)
Theorem FatRemoveClusters_frees info d T fuel id start number l :
  info_ok info -> rep info d T -> fatType info = 32 \/ id <> 0 -> start <> 0 ->
  file_chain info T start l -> 0 <= number -> (length l < fuel)%nat ->
  exists r, FatRemoveClusters info fuel id start number d = Ret r
  /\ (if number <? Z.of_nat (length l)
      then ret r = 0 /\ startCluster r = (if number =? 0 then 0 else start)
           /\ rep info (new_disk r) (freed (drop (Z.to_nat number) l) T)
      else ret r = - EINVAL /\ startCluster r = start /\ new_disk r = d).
Proof.
  intros O R Hid Hs Hc Hn Hf.
  destruct (Z.ltb_spec number (Z.of_nat (length l))) as [Hl|Hl]; [by apply FatRemoveClusters_run|].
  unfold FatRemoveClusters, file_chain in *.
  assert (negb (fatType info =? 32) && (id =? 0) = false) as ->.
  { destruct Hid; zcases; simpl; done || lia. }
  destruct (Z.eqb_spec start 0); [done|]. destruct Hc as (C & _).
  rewrite (skip_past info O d T R l start fuel number C Hl) by lia. eexists. split; [reflexivity|done].
Qed.

(** With [number] > 0 the last kept cluster is not given an
    end-of-chain marker: its entry still names a cluster that is now free,
    so what is left of the file is no longer a chain. *)
Theorem FatRemoveClusters_dangles info d T fuel id start number l :
  info_ok info -> rep info d T -> fatType info = 32 \/ id <> 0 -> start <> 0 ->
  file_chain info T start l -> 0 < number < Z.of_nat (length l) -> (length l < fuel)%nat ->
  exists r last next T', FatRemoveClusters info fuel id start number d = Ret r
    /\ l !! Z.to_nat (number - 1) = Some last /\ l !! Z.to_nat number = Some next
    /\ rep info (new_disk r) T' /\ T' last = next /\ T' next = 0.
Proof.
  intros O R Hid Hs Hc Hn Hf.
  destruct (FatRemoveClusters_run info d T fuel id start number l O R Hid Hs Hc ltac:(lia) Hf)
    as (r & Er & _ & _ & Rr).
  unfold file_chain in Hc. destruct (Z.eqb_spec start 0); [done|]. destruct Hc as (C & ND & _).
  destruct (lookup_lt_is_Some_2 l (Z.to_nat (number - 1))) as [a Ea]; [lia|].
  destruct (lookup_lt_is_Some_2 l (Z.to_nat number)) as [b Eb]; [lia|].
  exists r, a, b, (freed (drop (Z.to_nat number) l) T). split_and!; try done; unfold freed.
  - case_decide as Hi.
    + apply list_elem_of_lookup_1 in Hi as [j Hj]. rewrite lookup_drop in Hj.
      pose proof (NoDup_lookup _ _ _ _ ND Ea Hj). lia.
    + apply (chain_next info T l start (Z.to_nat (number - 1))); [done|done|].
      by replace (S (Z.to_nat (number - 1))) with (Z.to_nat number) by lia.
  - case_decide as Hi; [done|]. destruct Hi. apply (list_elem_of_lookup_2 _ 0).
    by rewrite lookup_drop, Nat.add_0_r.
Qed.

(** ** A FAT12 volume with a file of three clusters *)

Definition ex_info : FatSbInfo :=
  {| bps := 32; fatStart := 1; fatLength := 1; fatType := 12; invalidCluster := 0xFF8; numFats := 2;
     rootDirStart := 3; rootDirLength := 1; firstDataSector := 4; totalDataSectors := 6;
     secsPerClus := 1; freeClusters := 2 ^ 32 - 1 |}.
(* 2 -> 4 -> 3 -> end *)
Definition ex_table : list Z :=
  [0xF8; 0xFF; 0xFF; 0x04; 0x80; 0xFF; 0x03; 0; 0; 0; 0] ++ replicate 21 0.
Definition ex_disk : disk :=
  list_to_map (imap (fun i l => (Z.of_nat i + 1, l))
    [ex_table; ex_table; replicate 32 0; replicate 32 7; replicate 32 7; replicate 32 7;
     replicate 32 7; replicate 32 7; replicate 32 7]).
Definition ex_T : Z -> Z := entry ex_info ex_disk.

Example ex_chain : map ex_T [2; 4; 3; 5] = [4; 3; 0xFF8; 0].
Proof. vm_compute. reflexivity. Qed.

Lemma ex_info_ok : info_ok ex_info.
Proof. split; vm_compute; intuition congruence. Qed.

Lemma ex_rep : rep ex_info ex_disk ex_T.
Proof.
  split; [|done]. intros s Hs. unfold fat_sector in Hs. simpl in Hs. assert (s = 1) as -> by lia.
  exists ex_table. split_and!; [done|done|]. by repeat constructor.
Qed.

Lemma ex_file : file_chain ex_info ex_T 2 [2; 4; 3].
Proof.
  unfold file_chain. cbn [Z.eqb]. split_and!; try (vm_compute; intuition congruence).
  - apply NoDup_ListNoDup. repeat constructor; simpl; lia.
  - repeat constructor; lia.
Qed.

Lemma ex_volume : volume_ok ex_info ex_disk.
Proof.
  split; [apply ex_info_ok| |split; [unfold value_ok; simpl; lia|by vm_compute]|simpl; lia|].
  { intros c [Hc _]. cbn in Hc. unfold valid, table_offset, entry_size. cbn. Z.to_euclidean_division_equations; lia. }
  intros s Hs. simpl in Hs.
  assert (s = 4 \/ s = 5 \/ s = 6 \/ s = 7 \/ s = 8 \/ s = 9) as [->|[->|[->|[->|[->| ->]]]]] by lia;
    vm_compute; eauto.
Qed.

Lemma ex_copies : copies_ok ex_info ex_disk.
Proof.
  intros s i Hs Hi. unfold fat_sector in Hs. cbn in Hs, Hi. assert (s = 1) as -> by lia.
  assert (i = 0 \/ i = 1) as [-> | ->] by lia; vm_compute; eauto.
Qed.



Lemma FatRemoveClusters_frees_witness :
  exists r, FatRemoveClusters ex_info 5 7 2 1 ex_disk = Ret r /\ rep ex_info (new_disk r) (freed [4; 3] ex_T).
Proof.
  destruct (FatRemoveClusters_frees ex_info ex_disk ex_T 5 7 2 1 [2; 4; 3] ex_info_ok ex_rep)
    as (r & E & _ & _ & H); [by right|done|apply ex_file|lia|simpl; lia|]. by exists r.
Defined.

Lemma FatRemoveClusters_dangles_witness :
  exists r T', FatRemoveClusters ex_info 5 7 2 1 ex_disk = Ret r
    /\ rep ex_info (new_disk r) T' /\ T' 2 = 4 /\ T' 4 = 0.
Proof.
  destruct (FatRemoveClusters_dangles ex_info ex_disk ex_T 5 7 2 1 [2; 4; 3] ex_info_ok ex_rep)
    as (r & a & b & T' & E & Ea & Eb & R & H1 & H2); [by right|done|apply ex_file|simpl; lia|simpl; lia|].
  injection Ea as <-. injection Eb as <-. by exists r, T'.
Defined.

Lemma FatBlockMap_maps_witness : exists r,
  FatBlockMap 9 ex_info 7 2 3 VFS_MAP_CREATE ex_disk = Ret r /\ startCluster r = 2.
Proof.
  destruct (FatBlockMap_maps ex_info ex_disk ex_T 9 7 2 3 VFS_MAP_CREATE [2; 4; 3] ex_volume ex_rep)
    as (r & E & H & _); [by right|done|apply ex_file|done|lia|vm_compute; lia|].
  exists r. by split.
Defined.
