(* ===== verification/BCache.v ===== *)
(** * The block cache and storage requests
      (fs/vfs/bcache.c, include/fs/bcache.h, devices/kedev/sdevice.c,
      include/request.h, include/devices/sdevice.h)

    A storage device keeps the blocks it has read in buffers, which hang on
    the chains of a hash table.  BlockRead finds a buffer or makes one and
    queues a request for its contents, BlockWrite marks it dirty, and
    BlockSyncDevice writes the dirty ones back.  A request is put on the
    queue of the device and served by the driver behind [StorageDriver];
    the driver ends it with StorageEndRequest, which unlocks the buffer.

    The specification is an array of blocks: [holds] gives the contents of
    a block, which are those of its buffer or else those on the disk.

    The drivers of the laws [StorageDriverLaws] serve a request inside the
    call, as the RAM disk does; waiting for a buffer that stays locked is
    [NoFuel].  The buffer flusher thread is woken by BlockWrite; what it
    runs is BlockSyncDevice. *)

From stdpp Require Import functions.
From S2P Require Import Prelude.

(** ** Model *)

Definition REQUEST_READ : Z := 1.
Definition REQUEST_WRITE : Z := 2.
Definition SIOPENDING : Z := 16.
(** Bit numbers of buffer->flags. *)
Definition BUFFER_DIRTY : Z := 0.
Definition BUFFER_LOCKED : Z := 1.
Definition HASH_TABLE_ORDER : Z := 16.
(** sizeof(struct ListHead) is 8. *)
Definition HASH_NUM_ENTRIES : Z := Z.shiftl 1 HASH_TABLE_ORDER / 8.
Definition HASH_MASK : Z := HASH_NUM_ENTRIES - 1.
Definition BUFFER_HASH (blockNum : Z) : Z := Z.land blockNum HASH_MASK.
(** The largest size MemAlloc serves. *)
Definition MALLOC_MAX_SIZE : Z := 131072.

(** struct Buffer; all buffers here belong to one device. *)
Record Buffer := { blockNum : Z; flags : Z; refs : Z; data : Z }.

Record Request := {
  type : Z;
  numSectors : Z;
  rdata : Z;
  dataLength : Z;
  sector : Z;
  buffer : Z;
  ioStatus : Z;
}.

(** struct StorageDevice with what its pointers reach: [hashLists] gives the
    buffers of each chain, [buffers], [requests] and [memory] the structures
    and data blocks at their addresses; [blockCache] and [heap] are the
    addresses MemCacheAlloc and MemAlloc can still return. *)
Record sdev (D : Type) := {
  blockSize : Z;
  softBlockSize : Z;
  hashLists : Z -> list Z;
  requestList : list Z;
  numDirty : Z;
  syncing : Z;
  buffers : gmap Z Buffer;
  requests : gmap Z Request;
  memory : gmap Z (list Z);
  blockCache : list Z;
  heap : list Z;
  drv : D;
}.
Arguments blockSize {D} _.
Arguments softBlockSize {D} _.
Arguments hashLists {D} _ _.
Arguments requestList {D} _.
Arguments numDirty {D} _.
Arguments syncing {D} _.
Arguments buffers {D} _.
Arguments requests {D} _.
Arguments memory {D} _.
Arguments blockCache {D} _.
Arguments heap {D} _.
Arguments drv {D} _.

(** dev->request, called with the queue of the device not empty. *)
Class StorageDriver (D : Type) := request : sdev D -> outcome (Z * sdev D).

Definition BufferLocked (b : Buffer) : bool := Z.testbit (flags b) BUFFER_LOCKED.
Definition BufferDirty (b : Buffer) : bool := Z.testbit (flags b) BUFFER_DIRTY.

Definition set_flags (f : Z) (b : Buffer) : Buffer :=
  {| blockNum := blockNum b; flags := f; refs := refs b; data := data b |}.
Definition set_refs (r : Z) (b : Buffer) : Buffer :=
  {| blockNum := blockNum b; flags := flags b; refs := r; data := data b |}.
Definition set_ioStatus (s : Z) (r : Request) : Request :=
  {| type := type r; numSectors := numSectors r; rdata := rdata r; dataLength := dataLength r;
     sector := sector r; buffer := buffer r; ioStatus := s |}.

Section Setters.
Context {D : Type}.
Implicit Types st : sdev D.
Definition with_soft v st : sdev D := {| blockSize := blockSize st; softBlockSize := v; hashLists := hashLists st; requestList := requestList st; numDirty := numDirty st; syncing := syncing st; buffers := buffers st; requests := requests st; memory := memory st; blockCache := blockCache st; heap := heap st; drv := drv st |}.
Definition with_hash v st : sdev D := {| blockSize := blockSize st; softBlockSize := softBlockSize st; hashLists := v; requestList := requestList st; numDirty := numDirty st; syncing := syncing st; buffers := buffers st; requests := requests st; memory := memory st; blockCache := blockCache st; heap := heap st; drv := drv st |}.
Definition with_queue v st : sdev D := {| blockSize := blockSize st; softBlockSize := softBlockSize st; hashLists := hashLists st; requestList := v; numDirty := numDirty st; syncing := syncing st; buffers := buffers st; requests := requests st; memory := memory st; blockCache := blockCache st; heap := heap st; drv := drv st |}.
Definition with_dirty v st : sdev D := {| blockSize := blockSize st; softBlockSize := softBlockSize st; hashLists := hashLists st; requestList := requestList st; numDirty := v; syncing := syncing st; buffers := buffers st; requests := requests st; memory := memory st; blockCache := blockCache st; heap := heap st; drv := drv st |}.
Definition with_syncing v st : sdev D := {| blockSize := blockSize st; softBlockSize := softBlockSize st; hashLists := hashLists st; requestList := requestList st; numDirty := numDirty st; syncing := v; buffers := buffers st; requests := requests st; memory := memory st; blockCache := blockCache st; heap := heap st; drv := drv st |}.
Definition with_buffers v st : sdev D := {| blockSize := blockSize st; softBlockSize := softBlockSize st; hashLists := hashLists st; requestList := requestList st; numDirty := numDirty st; syncing := syncing st; buffers := v; requests := requests st; memory := memory st; blockCache := blockCache st; heap := heap st; drv := drv st |}.
Definition with_requests v st : sdev D := {| blockSize := blockSize st; softBlockSize := softBlockSize st; hashLists := hashLists st; requestList := requestList st; numDirty := numDirty st; syncing := syncing st; buffers := buffers st; requests := v; memory := memory st; blockCache := blockCache st; heap := heap st; drv := drv st |}.
Definition with_memory v st : sdev D := {| blockSize := blockSize st; softBlockSize := softBlockSize st; hashLists := hashLists st; requestList := requestList st; numDirty := numDirty st; syncing := syncing st; buffers := buffers st; requests := requests st; memory := v; blockCache := blockCache st; heap := heap st; drv := drv st |}.
Definition with_blockCache v st : sdev D := {| blockSize := blockSize st; softBlockSize := softBlockSize st; hashLists := hashLists st; requestList := requestList st; numDirty := numDirty st; syncing := syncing st; buffers := buffers st; requests := requests st; memory := memory st; blockCache := v; heap := heap st; drv := drv st |}.
Definition with_heap v st : sdev D := {| blockSize := blockSize st; softBlockSize := softBlockSize st; hashLists := hashLists st; requestList := requestList st; numDirty := numDirty st; syncing := syncing st; buffers := buffers st; requests := requests st; memory := memory st; blockCache := blockCache st; heap := v; drv := drv st |}.
Definition with_drv v st : sdev D := {| blockSize := blockSize st; softBlockSize := softBlockSize st; hashLists := hashLists st; requestList := requestList st; numDirty := numDirty st; syncing := syncing st; buffers := buffers st; requests := requests st; memory := memory st; blockCache := blockCache st; heap := heap st; drv := v |}.
End Setters.

Section Operations.
Context {D : Type}.
Implicit Types st : sdev D.

Definition upd_buffer (b : Z) (f : Buffer -> Buffer) st : outcome (sdev D) :=
  let* x := of_option (buffers st !! b) in Ret (with_buffers (<[b := f x]> (buffers st)) st).

Definition BufferGet (b : Z) : sdev D -> outcome (sdev D) :=
  upd_buffer b (fun x => set_refs (s32 (refs x + 1)) x).
Definition BufferRelease (b : Z) : sdev D -> outcome (sdev D) :=
  upd_buffer b (fun x => set_refs (s32 (refs x - 1)) x).

(** A buffer that is locked is waited for. *)
Definition WaitForBuffer (b : Z) st : outcome (sdev D) :=
  let* x := of_option (buffers st !! b) in
  if BufferLocked x then NoFuel else Ret st.

Definition BufferLock (b : Z) st : outcome (sdev D) :=
  let* st := BufferGet b st in
  let* x := of_option (buffers st !! b) in
  if BufferLocked x then NoFuel
  else upd_buffer b (fun x => set_flags (Z.setbit (flags x) BUFFER_LOCKED) x) st.

Definition BufferUnlock (b : Z) st : outcome (sdev D) :=
  let* st := upd_buffer b (fun x => set_flags (Z.clearbit (flags x) BUFFER_LOCKED) x) st in
  BufferRelease b st.

(** *** Requests *)

Definition StorageBuildRequest (b type : Z) st : outcome (Z * sdev D) :=
  let* x := of_option (buffers st !! b) in
  if blockSize st =? 0 then Ret (0, st)
  else match heap st with
       | [] => Ret (0, st)
       | r :: h =>
           let rq := {| type := type;
                        numSectors := softBlockSize st / blockSize st;
                        rdata := data x;
                        dataLength := softBlockSize st;
                        sector := u32 (blockNum x * softBlockSize st) / blockSize st;
                        buffer := b;
                        ioStatus := 0 |} in
           Ret (r, with_requests (<[r := rq]> (requests st)) (with_heap h st))
       end.

Definition StorageGetCurrRequest st : Z :=
  match requestList st with [] => 0 | r :: _ => r end.

Definition StorageEndRequest (status : Z) st : outcome (sdev D) :=
  match requestList st with
  | [] => Fault
  | r :: q =>
      let* rq := of_option (requests st !! r) in
      let st := with_requests (<[r := set_ioStatus status rq]> (requests st)) st in
      BufferUnlock (buffer rq) (with_queue q st)
  end.

Context `{StorageDriver D}.

Definition StorageDoRequest (r : Z) st : outcome (Z * sdev D) :=
  if r =? 0 then Ret (- EFAULT, st)
  else
    let isEmpty := StorageGetCurrRequest st =? 0 in
    let st := with_queue (requestList st ++ [r]) st in
    if isEmpty then request st else Ret (- SIOPENDING, st).

Definition BlockWaitForRequest (r : Z) st : outcome (Z * sdev D) :=
  let* rq := of_option (requests st !! r) in
  let* st := WaitForBuffer (buffer rq) st in
  let* rq := of_option (requests st !! r) in
  Ret (ioStatus rq, st).

Definition BlockSendRequestRaw (r : Z) st : outcome (Z * sdev D) :=
  let* (err, st) := StorageDoRequest r st in
  if err =? - SIOPENDING then BlockWaitForRequest r st
  else if err <? 0 then Ret (- EIO, st)
  else Ret (err, st).

(** The request comes from MemAlloc, so the final MemCacheFree(requestCache,
    request) finds it in no slab of that cache and frees nothing. *)
Definition BlockSendRequest (b type : Z) st : outcome (Z * sdev D) :=
  let* (r, st) := StorageBuildRequest b type st in
  if r =? 0 then Ret (- EIO, st) else BlockSendRequestRaw r st.

Definition BlockBufferRead (b : Z) : sdev D -> outcome (Z * sdev D) := BlockSendRequest b REQUEST_READ.

Definition DoBlockWrite (b : Z) st : outcome (Z * sdev D) :=
  let* st := BufferLock b st in BlockSendRequest b REQUEST_WRITE st.

(** *** Buffers *)

Definition BlockAddToHashTable (b : Z) st : outcome (sdev D) :=
  let* x := of_option (buffers st !! b) in
  let h := BUFFER_HASH (blockNum x) in
  Ret (with_hash (<[h := hashLists st h ++ [b]]> (hashLists st)) st).

Definition BlockBufferAlloc (n : Z) st : outcome (Z * sdev D) :=
  match blockCache st with
  | [] => Ret (0, st)
  | b :: bc =>
      match heap st with
      | d :: h =>
          if MALLOC_MAX_SIZE <? softBlockSize st then Ret (0, st)
          else
            let x := {| blockNum := n; flags := 0; refs := 1; data := d |} in
            let st := with_memory (<[d := replicate (Z.to_nat (softBlockSize st)) 0]> (memory st))
                        (with_buffers (<[b := x]> (buffers st))
                           (with_heap h (with_blockCache bc st))) in
            let* st := BufferLock b st in
            let* st := BlockAddToHashTable b st in
            Ret (b, st)
      | [] => Ret (0, st)
      end
  end.

Definition BlockBufferRemove (b : Z) st : outcome (sdev D) :=
  let* x := of_option (buffers st !! b) in
  let h := BUFFER_HASH (blockNum x) in
  let st := with_memory (delete (data x) (memory st)) (with_heap (data x :: heap st) st) in
  let st := with_hash (<[h := filter (fun c => c <> b) (hashLists st h)]> (hashLists st)) st in
  Ret (with_buffers (delete b (buffers st)) (with_blockCache (b :: blockCache st) st)).

(** The loop of BlockFindBuffer: the buffer of the block on a chain. *)
Fixpoint find_buffer (l : list Z) (n : Z) st : outcome Z :=
  match l with
  | [] => Ret 0
  | curr :: l =>
      let* x := of_option (buffers st !! curr) in
      if blockNum x =? n then Ret curr else find_buffer l n st
  end.

Definition BlockFindBuffer (n : Z) st : outcome (Z * sdev D) :=
  let* b := find_buffer (hashLists st (BUFFER_HASH n)) n st in
  if b =? 0 then Ret (0, st)
  else
    let* st := BufferGet b st in
    let* st := WaitForBuffer b st in
    Ret (b, st).

Definition BlockRead (n : Z) st : outcome (Z * sdev D) :=
  let* (b, st) := BlockFindBuffer n st in
  if c_true b then Ret (b, st)
  else
    let* (b, st) := BlockBufferAlloc n st in
    if b =? 0 then Ret (0, st)
    else
      let* (err, st) := BlockBufferRead b st in
      if c_true err then let* st := BlockBufferRemove b st in Ret (0, st) else Ret (b, st).

Definition BlockReadAhead (n : Z) st : outcome (sdev D) :=
  let* (b, st) := BlockFindBuffer n st in
  if c_true b then Ret st
  else
    let* (b, st) := BlockBufferAlloc n st in
    if b =? 0 then Ret st
    else
      let* (r, st) := StorageBuildRequest b REQUEST_READ st in
      let* (_, st) := StorageDoRequest r st in Ret st.

Definition BlockWrite (b : Z) st : outcome (Z * sdev D) :=
  let* x := of_option (buffers st !! b) in
  let* st' := upd_buffer b (fun x => set_flags (Z.setbit (flags x) BUFFER_DIRTY) x) st in
  Ret (0, if BufferDirty x then st' else with_dirty (s32 (numDirty st + 1)) st').

Definition BlockFree (b : Z) st : outcome (Z * sdev D) :=
  let* st := BufferRelease b st in Ret (0, st).

(** *** Synchronisation *)

(** A dirty buffer is written. *)
Definition write_dirty (b : Z) st : outcome (sdev D) :=
  let st := with_dirty (s32 (numDirty st - 1)) st in
  let* st := upd_buffer b (fun x => set_flags (Z.clearbit (flags x) BUFFER_DIRTY) x) st in
  let* (_, st) := DoBlockWrite b st in Ret st.

(** The loop over one chain; [true] when it is left because nothing is
    dirty any more. *)
Fixpoint sync_chain (l : list Z) st : outcome (bool * sdev D) :=
  match l with
  | [] => Ret (false, st)
  | b :: l =>
      let* x := of_option (buffers st !! b) in
      let* st := if BufferDirty x then write_dirty b st else Ret st in
      if numDirty st =? 0 then Ret (true, st) else sync_chain l st
  end.

(** The loop over the [n] chains from [i] on. *)
Fixpoint sync_chains (n : nat) (i : Z) st : outcome (sdev D) :=
  match n with
  | O => Ret st
  | S n =>
      let* (out, st) := sync_chain (hashLists st i) st in
      if out then Ret st else sync_chains n (i + 1) st
  end.

(** The passes over the hash table. *)
Fixpoint sync_passes (fuel : nat) st : outcome (sdev D) :=
  match fuel with
  | O => NoFuel
  | S fuel =>
      let* st := sync_chains (Z.to_nat HASH_NUM_ENTRIES) 0 st in
      if numDirty st =? 0 then Ret st else sync_passes fuel st
  end.

Definition BlockSyncDevice (fuel : nat) st : outcome (Z * sdev D) :=
  if c_true (syncing st) || (numDirty st =? 0) then Ret (0, st)
  else
    let* st := sync_passes fuel (with_syncing 1 st) in
    Ret (0, with_syncing 0 st).

(** The devices of the storage class, one after the other. *)
Fixpoint BlockSyncAll (fuel : nat) (devices : list (sdev D)) : outcome (list (sdev D)) :=
  match devices with
  | [] => Ret []
  | st :: l =>
      let* (_, st) := BlockSyncDevice fuel st in
      let* l := BlockSyncAll fuel l in Ret (st :: l)
  end.

Fixpoint remove_chain (l : list Z) st : outcome (sdev D) :=
  match l with
  | [] => Ret st
  | b :: l => let* st := BlockBufferRemove b st in remove_chain l st
  end.
Fixpoint remove_chains (n : nat) (i : Z) st : outcome (sdev D) :=
  match n with
  | O => Ret st
  | S n => let* st := remove_chain (hashLists st i) st in remove_chains n (i + 1) st
  end.

Definition BlockDeviceFreeAll (fuel : nat) st : outcome (sdev D) :=
  let* st :=
    if c_true (numDirty st) then
      let* (_, st) := BlockSyncDevice fuel st in
      if c_true (numDirty st) then NoFuel else Ret st
    else Ret st in
  remove_chains (Z.to_nat HASH_NUM_ENTRIES) 0 st.

Definition BlockSetSize (fuel : nat) (size : Z) st : outcome (Z * sdev D) :=
  if size =? 0 then Ret (- EINVAL, st)
  else if c_true (Z.land size (u32 (size - 1))) then Ret (- EINVAL, st)
  else if size <? blockSize st then Ret (- EINVAL, st)
  else if softBlockSize st =? size then Ret (0, st)
  else let* st := BlockDeviceFreeAll fuel st in Ret (0, with_soft size st).

(** The chains and the queue of a new device. *)
Definition BlockCreateHashTable st : sdev D := with_hash (fun _ => []) st.
Definition StorageQueueInit st : sdev D := with_queue [] st.
End Operations.

(** ** The disk behind a driver *)

(** Bytes of a disk given as a function from offsets to bytes. *)
Definition disk_read (f : Z -> Z) (off len : Z) : list Z :=
  (fun i => f (off + Z.of_nat i)) <$> seq 0 (Z.to_nat len).
Definition disk_write (f : Z -> Z) (off : Z) (bytes : list Z) : Z -> Z :=
  fun a => default (f a) (zlookup bytes (a - off)).

(** What a driver promises: a request inside the disk is carried out and
    ended with status 0, any other is ended with an error and changes
    nothing. *)
Class StorageDriverLaws (D : Type) `{StorageDriver D} := {
  drv_ok : D -> Prop;
  drv_sector : Z;
  disk : D -> Z -> Z;
  drv_accepts : Z -> Z -> bool;
  drv_sector_pos : 0 < drv_sector;
  drv_serves : forall st r rq bytes,
    drv_ok (drv st) -> requestList st = [r] -> requests st !! r = Some rq ->
    memory st !! rdata rq = Some bytes ->
    let off := sector rq * drv_sector in
    let len := numSectors rq * drv_sector in
    Z.of_nat (length bytes) = len -> 0 <= off -> 0 < len -> off + len < 2 ^ 31 ->
    exists d', drv_ok d'
      /\ (type rq = REQUEST_READ ->
            (forall a, disk d' a = disk (drv st) a)
            /\ request st =
                 if drv_accepts off len
                 then let* st := StorageEndRequest 0
                        (with_drv d' (with_memory (<[rdata rq := disk_read (disk (drv st)) off len]>
                                                     (memory st)) st)) in Ret (0, st)
                 else let* st := StorageEndRequest EIO (with_drv d' st) in Ret (- EIO, st))
      /\ (type rq = REQUEST_WRITE ->
            (forall a, disk d' a =
               if drv_accepts off len then disk_write (disk (drv st)) off bytes a else disk (drv st) a)
            /\ request st =
                 if drv_accepts off len
                 then let* st := StorageEndRequest 0 (with_drv d' st) in Ret (0, st)
                 else let* st := StorageEndRequest EIO (with_drv d' st) in Ret (- EIO, st));
}.

Lemma disk_read_length f off len : 0 <= len -> Z.of_nat (length (disk_read f off len)) = len.
Proof. intros. unfold disk_read. rewrite length_fmap, length_seq. lia. Qed.

Lemma disk_read_ext f g off len : (forall a, off <= a < off + len -> f a = g a) ->
  disk_read f off len = disk_read g off len.
Proof.
  intros E. unfold disk_read. apply list_fmap_ext. intros i x Hi.
  apply lookup_seq in Hi as [-> ?]. apply E. lia.
Qed.

Lemma zlookup_Some_range {A} (l : list A) i x : zlookup l i = Some x -> 0 <= i < Z.of_nat (length l).
Proof.
  unfold zlookup. destruct (Z.leb_spec 0 i); [|done]. intros Hx%lookup_lt_Some. lia.
Qed.

Lemma disk_write_out f off bytes a : ~ (off <= a < off + Z.of_nat (length bytes)) ->
  disk_write f off bytes a = f a.
Proof.
  intros Ha. unfold disk_write. destruct (zlookup bytes (a - off)) as [x|] eqn:E; [|done].
  apply zlookup_Some_range in E. lia.
Qed.

Lemma disk_write_read f off bytes : disk_read (disk_write f off bytes) off (Z.of_nat (length bytes)) = bytes.
Proof.
  unfold disk_read. apply list_eq. intros i. rewrite list_lookup_fmap, Nat2Z.id.
  destruct (decide (i < length bytes)%nat) as [Hi|Hi].
  - rewrite lookup_seq_lt by done. simpl. unfold disk_write, zlookup.
    replace (off + Z.of_nat i - off) with (Z.of_nat i) by lia. rewrite Nat2Z.id.
    destruct (Z.leb_spec 0 (Z.of_nat i)); [|lia]. by destruct (lookup_lt_is_Some_2 bytes i Hi) as [y ->].
  - rewrite lookup_seq_ge, lookup_ge_None_2 by lia. done.
Qed.

(** ** Sending a request *)

Section Cache.
Context {D : Type} `{SL : StorageDriverLaws D}.
Implicit Types st : sdev D.

Definition block_range st (n : Z) : Prop :=
  0 <= n /\ n * softBlockSize st + softBlockSize st < 2 ^ 31.
Definition accepted st (n : Z) : bool :=
  drv_accepts (n * softBlockSize st) (softBlockSize st).
Definition on_disk st (n : Z) : list Z :=
  disk_read (disk (drv st)) (n * softBlockSize st) (softBlockSize st).

(** The sizes of a device and its driver. *)
Definition sizes_ok st : Prop :=
  blockSize st = drv_sector /\ 0 < softBlockSize st <= MALLOC_MAX_SIZE
  /\ softBlockSize st mod drv_sector = 0.

(** The buffer after its request: unlocked and with one reference less. *)
Definition released (x : Buffer) : Buffer :=
  set_refs (s32 (refs x - 1)) (set_flags (Z.clearbit (flags x) BUFFER_LOCKED) x).

(** A device after a request: the driver, the buffer's memory and the
    buffer have changed, and the request is left behind. *)
Definition served st (b : Z) (x : Buffer) (h : list Z) (rqs : gmap Z Request)
    (mem : gmap Z (list Z)) (d : D) : sdev D :=
  {| blockSize := blockSize st; softBlockSize := softBlockSize st; hashLists := hashLists st;
     requestList := []; numDirty := numDirty st; syncing := syncing st;
     buffers := <[b := released x]> (buffers st); requests := rqs; memory := mem;
     blockCache := blockCache st; heap := h; drv := d |}.

Lemma block_sector_offset st n : sizes_ok st -> block_range st n ->
  u32 (n * softBlockSize st) / blockSize st * drv_sector = n * softBlockSize st
  /\ softBlockSize st / blockSize st * drv_sector = softBlockSize st.
Proof.
  intros (-> & Hs & M) [Hn Hr]. pose proof drv_sector_pos as P.
  apply Z.mod_divide in M as [k E]; [|lia]. rewrite u32_id by nia. rewrite E in *.
  rewrite Z.mul_assoc, !Z.div_mul by lia. lia.
Qed.

Lemma end_request status st r rq x : requestList st = [r] -> requests st !! r = Some rq ->
  buffers st !! buffer rq = Some x ->
  StorageEndRequest status st =
    Ret (served st (buffer rq) x (heap st) (<[r := set_ioStatus status rq]> (requests st))
           (memory st) (drv st)).
Proof.
  intros Q R B. unfold StorageEndRequest. rewrite Q, R. cbn [of_option bindO].
  unfold BufferUnlock, BufferRelease, upd_buffer. cbn [buffers with_queue with_requests].
  rewrite B. cbn [of_option bindO buffers with_buffers]. rewrite lookup_insert_eq.
  cbn [of_option bindO buffers with_buffers]. rewrite insert_insert_eq. reflexivity.
Qed.

Lemma send_spec st b x bytes r h ty : ty = REQUEST_READ \/ ty = REQUEST_WRITE ->
  sizes_ok st -> drv_ok (drv st) -> requestList st = [] -> buffers st !! b = Some x ->
  memory st !! data x = Some bytes -> Z.of_nat (length bytes) = softBlockSize st ->
  heap st = r :: h -> r <> 0 -> block_range st (blockNum x) ->
  let ok := accepted st (blockNum x) in
  let off := blockNum x * softBlockSize st in
  exists rqs d', drv_ok d'
    /\ BlockSendRequest b ty st =
         Ret (if ok then 0 else - EIO,
              served st b x h rqs
                (if (ty =? REQUEST_READ) && ok then <[data x := on_disk st (blockNum x)]> (memory st)
                 else memory st) d')
    /\ forall a, disk d' a = if (ty =? REQUEST_WRITE) && ok then disk_write (disk (drv st)) off bytes a
                             else disk (drv st) a.
Proof.
  intros Hty Hs Hd Q Hb Hm Hl Hh Hr Hn ok off.
  destruct (block_sector_offset st (blockNum x) Hs Hn) as [Eo El]. destruct Hs as (Hb0 & Hs & M).
  pose proof drv_sector_pos as P.
  unfold BlockSendRequest, StorageBuildRequest. rewrite Hb. cbn [of_option bindO].
  destruct (Z.eqb_spec (blockSize st) 0); [lia|]. rewrite Hh. cbn [bindO].
  destruct (Z.eqb_spec r 0); [done|]. unfold BlockSendRequestRaw, StorageDoRequest.
  destruct (Z.eqb_spec r 0); [done|]. unfold StorageGetCurrRequest.
  cbn [requestList with_requests with_heap]. rewrite Q. cbn [Z.eqb app].
  set (rq := {| type := ty |}). set (st1 := with_queue [r] _).
  destruct (drv_serves st1 r rq bytes) as (d' & Hd' & Rd & Wr);
    [done|done|apply lookup_insert_eq|done|..].
  1-4: cbn [sector numSectors rq st1]; destruct Hn; cbn; rewrite ?Eo, ?El; nia.
  cbn [type rq sector numSectors rdata] in Rd, Wr. rewrite Eo, El in Rd, Wr.
  fold off in Rd, Wr. unfold accepted in ok. fold off in ok. fold ok in Rd, Wr.
  assert (Hend : forall s st2, requestList st2 = [r] -> requests st2 !! r = Some rq -> buffers st2 !! b = Some x ->
    StorageEndRequest s st2 = Ret (served st2 b x (heap st2) (<[r := set_ioStatus s rq]> (requests st2))
                                     (memory st2) (drv st2))).
  { intros. by apply (end_request s st2 r rq x). }
  destruct Hty as [-> | ->].
  - destruct (Rd eq_refl) as [Hdisk ->].
    destruct ok; (rewrite Hend; [|done|apply lookup_insert_eq|done]); eexists _, d'; by split_and!.
  - destruct (Wr eq_refl) as [Hdisk ->].
    destruct ok; (rewrite Hend; [|done|apply lookup_insert_eq|done]); eexists _, d'; by split_and!.
Qed.

(** ** The invariant and the block array *)

Definition dirty_count (m : gmap Z Buffer) : nat :=
  size (filter (fun p => BufferDirty p.2 = true) m).

(** A buffer between calls: unlocked, with a block of data, which is that
    of the disk unless it is dirty. *)
Definition buffer_ok st (b : Z) (x : Buffer) : Prop :=
  b <> 0 /\ block_range st (blockNum x) /\ accepted st (blockNum x) = true
  /\ BufferLocked x = false
  /\ exists bytes, memory st !! data x = Some bytes /\ Z.of_nat (length bytes) = softBlockSize st
     /\ (BufferDirty x = false -> bytes = on_disk st (blockNum x)).

Record bc_inv st : Prop := {
  bi_sizes : sizes_ok st;
  bi_drv : drv_ok (drv st);
  bi_queue : requestList st = [];
  bi_chain : forall h, NoDup (hashLists st h) /\ forall b, b ∈ hashLists st h <->
    exists x, buffers st !! b = Some x /\ BUFFER_HASH (blockNum x) = h;
  bi_unique : forall b c x y, buffers st !! b = Some x -> buffers st !! c = Some y ->
    blockNum x = blockNum y -> b = c;
  bi_data : forall b c x y, buffers st !! b = Some x -> buffers st !! c = Some y ->
    data x = data y -> b = c;
  bi_buffer : forall b x, buffers st !! b = Some x -> buffer_ok st b x;
  bi_null : forall b x, buffers st !! b = Some x -> data x <> 0;
  bi_blocks : NoDup (blockCache st)
    /\ forall b, b ∈ blockCache st -> b <> 0 /\ buffers st !! b = None;
  bi_heap : NoDup (heap st) /\ forall d, d ∈ heap st -> d <> 0 /\ memory st !! d = None;
  bi_dirty : numDirty st = Z.of_nat (dirty_count (buffers st));
  bi_bound : Z.of_nat (size (buffers st) + length (blockCache st)) < 2 ^ 31;
}.

(** The contents of a block: those of its buffer, or else of the disk. *)
Definition holds st (n : Z) (bytes : list Z) : Prop :=
  (exists b x, buffers st !! b = Some x /\ blockNum x = n /\ memory st !! data x = Some bytes)
  \/ ((forall b x, buffers st !! b = Some x -> blockNum x <> n) /\ bytes = on_disk st n).

Lemma dirty_count_insert m b y :
  (dirty_count (<[b := y]> m)
   + (if (x ← m !! b; Some (BufferDirty x)) is Some true then 1 else 0)
   = dirty_count m + (if BufferDirty y then 1 else 0))%nat.
Proof.
  unfold dirty_count.
  assert (Hdel : (size (delete b (filter (fun p : Z * Buffer => BufferDirty p.2 = true) m))
    + (if (x ← m !! b; Some (BufferDirty x)) is Some true then 1 else 0)
    = size (filter (fun p : Z * Buffer => BufferDirty p.2 = true) m))%nat).
  { destruct (filter (fun p : Z * Buffer => BufferDirty p.2 = true) m !! b) as [x|] eqn:E.
    - pose proof E as [E1 E2]%map_lookup_filter_Some. rewrite E1. simpl in *. rewrite E2.
      rewrite map_size_delete, E. simpl.
      assert (size (filter (fun p : Z * Buffer => BufferDirty p.2 = true) m) <> 0%nat); [|lia].
      apply map_size_non_empty_iff. intros Z. by rewrite Z, lookup_empty in E.
    - rewrite delete_id by done. destruct (m !! b) as [x|] eqn:Em; simpl; [|lia].
      destruct (BufferDirty x) eqn:Ed; [|lia].
      rewrite map_lookup_filter_None in E. destruct E as [E|E]; [congruence|]. by destruct (E x Em). }
  destruct (BufferDirty y) eqn:Ey.
  - rewrite map_filter_insert_True by done. rewrite <- insert_delete_eq, map_size_insert_None
      by apply lookup_delete_eq. lia.
  - rewrite map_filter_insert_False by (simpl; congruence). rewrite map_filter_delete. lia.
Qed.

Lemma dirty_count_same m b x y : m !! b = Some x -> BufferDirty y = BufferDirty x ->
  dirty_count (<[b := y]> m) = dirty_count m.
Proof. intros E Ed. pose proof (dirty_count_insert m b y) as H1. rewrite E, Ed in H1. simpl in H1. by destruct (BufferDirty x); lia. Qed.

Lemma dirty_count_le m : (dirty_count m <= size m)%nat.
Proof. apply map_size_filter. Qed.

(** A device in which one buffer has changed, with its data. *)
Record updated st st' (b : Z) (x y : Buffer) (bytes : list Z) : Prop := {
  up_blockSize : blockSize st' = blockSize st;
  up_soft : softBlockSize st' = softBlockSize st;
  up_drv : drv_ok (drv st');
  up_queue : requestList st' = [];
  up_hash : hashLists st' = hashLists st;
  up_buffers : buffers st' = <[b := y]> (buffers st);
  up_memory : memory st' = <[data x := bytes]> (memory st);
  up_cache : blockCache st' = blockCache st;
  up_heap : NoDup (heap st') /\ forall d, d ∈ heap st' -> d ∈ heap st;
  up_num : blockNum y = blockNum x;
  up_data : data y = data x;
  up_unlocked : BufferLocked y = false;
  up_length : Z.of_nat (length bytes) = softBlockSize st;
  up_other : forall m, m <> blockNum x -> block_range st m -> on_disk st' m = on_disk st m;
  up_clean : BufferDirty y = false -> bytes = on_disk st' (blockNum x);
  up_dirty : numDirty st' = Z.of_nat (dirty_count (<[b := y]> (buffers st)));
}.

Lemma updated_lookup st st' b x y bytes c z : updated st st' b x y bytes ->
  buffers st !! b = Some x -> buffers st' !! c = Some z ->
  exists w, buffers st !! c = Some w /\ blockNum z = blockNum w /\ data z = data w
    /\ (c = b /\ z = y /\ w = x \/ c <> b /\ z = w).
Proof.
  intros U B. rewrite (up_buffers _ _ _ _ _ _ U). destruct (decide (c = b)) as [->|N].
  - rewrite lookup_insert_eq. intros [= <-]. exists x. split; [done|].
    split; [apply (up_num _ _ _ _ _ _ U)|]. split; [apply (up_data _ _ _ _ _ _ U)|]. by left.
  - rewrite lookup_insert_ne by done. intros Hz. exists z. split_and!; try done. by right.
Qed.

Lemma updated_range st st' b x y bytes n : updated st st' b x y bytes ->
  block_range st' n <-> block_range st n.
Proof. intros U. unfold block_range. by rewrite (up_soft _ _ _ _ _ _ U). Qed.

Lemma updated_inv st st' b x y bytes : bc_inv st -> buffers st !! b = Some x ->
  updated st st' b x y bytes -> bc_inv st'.
Proof.
  intros I B U. pose proof (fun c z => updated_lookup st st' b x y bytes c z U B) as L.
  assert (Hs : softBlockSize st' = softBlockSize st) by apply U.
  split.
  - destruct (bi_sizes st I) as (A1 & A2). unfold sizes_ok. by rewrite (up_blockSize _ _ _ _ _ _ U), Hs.
  - apply U.
  - apply U.
  - intros h. rewrite (up_hash _ _ _ _ _ _ U). destruct (bi_chain st I h) as [N C]. split; [done|].
    intros c. rewrite C. split.
    + intros (w & Hw & Eh). rewrite (up_buffers _ _ _ _ _ _ U). destruct (decide (c = b)) as [->|].
      * exists y. rewrite lookup_insert_eq, (up_num _ _ _ _ _ _ U). split; [done|]. congruence.
      * exists w. by rewrite lookup_insert_ne.
    + intros (z & Hz & Eh). destruct (L c z Hz) as (w & Hw & En & _). exists w. split; [done|]. congruence.
  - intros c1 c2 z1 z2 H1 H2 E. destruct (L _ _ H1) as (w1 & W1 & E1 & _), (L _ _ H2) as (w2 & W2 & E2 & _).
    apply (bi_unique st I c1 c2 w1 w2); [done..|]. congruence.
  - intros c1 c2 z1 z2 H1 H2 E. destruct (L _ _ H1) as (w1 & W1 & _ & E1 & _), (L _ _ H2) as (w2 & W2 & _ & E2 & _).
    apply (bi_data st I c1 c2 w1 w2); [done..|]. congruence.
  - intros c z Hz. destruct (L c z Hz) as (w & Hw & En & Ed & K).
    destruct (bi_buffer st I c w Hw) as (Nz & Rg & Ac & Lk & bs & Mb & Lb & Cl).
    unfold buffer_ok. rewrite En, Ed, (updated_range _ _ _ _ _ _ _ U). unfold accepted in *. rewrite Hs.
    split_and!; try done.
    + destruct K as [(-> & -> & ->)|[_ ->]]; [apply U|done].
    + rewrite (up_memory _ _ _ _ _ _ U). destruct K as [(-> & -> & ->)|[Nb ->]].
      * exists bytes. rewrite lookup_insert_eq. split; [done|]. split; [apply U|]. apply U.
      * exists bs. rewrite lookup_insert_ne.
        { split; [done|]. split; [done|]. intros Dz. rewrite (Cl Dz). symmetry. apply (up_other _ _ _ _ _ _ U); [|done].
          intros E. destruct Nb. by apply (bi_unique st I c b w x). }
        intros E. destruct Nb. symmetry. by apply (bi_data st I b c x w).
  - intros c z Hz. destruct (L c z Hz) as (w & Hw & _ & -> & _). by apply (bi_null st I c).
  - rewrite (up_cache _ _ _ _ _ _ U). destruct (bi_blocks st I) as [N C]. split; [done|].
    intros c Hc. destruct (C c Hc) as [C0 C1]. split; [done|]. rewrite (up_buffers _ _ _ _ _ _ U).
    rewrite lookup_insert_ne; [done|]. congruence.
  - destruct (bi_heap st I) as [N C], (up_heap _ _ _ _ _ _ U) as [N' S]. split; [done|].
    intros d Hd. destruct (C d (S d Hd)) as [C0 C1]. split; [done|]. rewrite (up_memory _ _ _ _ _ _ U).
    rewrite lookup_insert_ne; [done|]. destruct (bi_buffer st I b x B) as (_ & _ & _ & _ & bs & Mb & _). congruence.
  - rewrite (up_dirty _ _ _ _ _ _ U), (up_buffers _ _ _ _ _ _ U). done.
  - rewrite (up_buffers _ _ _ _ _ _ U), (up_cache _ _ _ _ _ _ U), map_size_insert, B. apply I.
Qed.

Lemma updated_holds st st' b x y bytes n v : bc_inv st -> buffers st !! b = Some x ->
  updated st st' b x y bytes -> block_range st n -> n <> blockNum x -> holds st n v -> holds st' n v.
Proof.
  intros I B U Rg N [(c & w & Hw & En & Hm)|[Nc ->]].
  - left. exists c, w. assert (c <> b) by congruence.
    rewrite (up_buffers _ _ _ _ _ _ U), (up_memory _ _ _ _ _ _ U).
    rewrite !lookup_insert_ne; [done| |done]. intros E. by assert (b = c) by by apply (bi_data st I b c x w).
  - right. split; [|by rewrite (up_other _ _ _ _ _ _ U)].
    intros c z Hz. destruct (updated_lookup _ _ _ _ _ _ _ _ U B Hz) as (w & Hw & -> & _). by apply (Nc c).
Qed.

Lemma updated_holds_self st st' b x y bytes : updated st st' b x y bytes ->
  holds st' (blockNum x) bytes.
Proof.
  intros U. left. exists b, y. rewrite (up_buffers _ _ _ _ _ _ U), (up_memory _ _ _ _ _ _ U), (up_data _ _ _ _ _ _ U).
  rewrite !lookup_insert_eq. split; [done|]. split; [apply U|done].
Qed.

(** A change of one buffer's flags and references only. *)
Lemma updated_buffer st b x y bytes : bc_inv st -> buffers st !! b = Some x ->
  memory st !! data x = Some bytes -> blockNum y = blockNum x -> data y = data x ->
  BufferLocked y = false -> BufferDirty y = BufferDirty x ->
  updated st (with_buffers (<[b := y]> (buffers st)) st) b x y bytes.
Proof.
  intros I B M En Ed Lk Dt. destruct (bi_buffer st I b x B) as (_ & _ & _ & _ & bs & Mb & Lb & Cl).
  assert (bs = bytes) as -> by congruence.
  split; simpl; try done; try apply I.
  - by rewrite insert_id.
  - split; [apply I|done].
  - rewrite Dt. exact Cl.
  - rewrite (dirty_count_same _ _ _ _ B Dt). apply I.
Qed.

(** *** Looking a block up *)

Lemma find_buffer_hit st l b x n : bc_inv st -> (forall c, c ∈ l -> is_Some (buffers st !! c)) ->
  b ∈ l -> buffers st !! b = Some x -> blockNum x = n -> find_buffer l n st = Ret b.
Proof.
  intros I F Hb Bx En. induction l as [|c l IH]; [by apply not_elem_of_nil in Hb|]. cbn [find_buffer].
  destruct (F c) as [z Hz]; [constructor|]. rewrite Hz. cbn [of_option bindO].
  destruct (Z.eqb_spec (blockNum z) n) as [E|N].
  - f_equal. apply (bi_unique st I c b z x); [done..|congruence].
  - apply IH; [intros c' Hc'; apply F; by constructor|].
    apply elem_of_cons in Hb as [->|Hb]; [congruence|done].
Qed.

Lemma find_buffer_miss st l n : (forall c, c ∈ l -> is_Some (buffers st !! c)) ->
  (forall c z, buffers st !! c = Some z -> blockNum z <> n) -> find_buffer l n st = Ret 0.
Proof.
  intros F N. induction l as [|c l IH]; [done|]. cbn [find_buffer].
  destruct (F c) as [z Hz]; [constructor|]. rewrite Hz. cbn [of_option bindO].
  destruct (Z.eqb_spec (blockNum z) n) as [E|_]; [by destruct (N c z Hz)|].
  apply IH. intros c' Hc'. apply F. by constructor.
Qed.

Lemma chain_buffers st h : bc_inv st -> forall c, c ∈ hashLists st h -> is_Some (buffers st !! c).
Proof. intros I c Hc. apply (bi_chain st I h) in Hc as (z & Hz & _). eauto. Qed.

Lemma find_hit st b x : bc_inv st -> buffers st !! b = Some x ->
  BlockFindBuffer (blockNum x) st =
    Ret (b, with_buffers (<[b := set_refs (s32 (refs x + 1)) x]> (buffers st)) st).
Proof.
  intros I B. unfold BlockFindBuffer.
  rewrite (find_buffer_hit st _ b x (blockNum x) I); [|by apply chain_buffers| |done..].
  - cbn [bindO]. destruct (bi_buffer st I b x B) as (Nz & _ & _ & Lk & _).
    destruct (Z.eqb_spec b 0); [done|]. unfold BufferGet, upd_buffer. rewrite B. cbn [of_option bindO].
    unfold WaitForBuffer. cbn [buffers with_buffers]. rewrite lookup_insert_eq. cbn [of_option bindO].
    unfold BufferLocked in *. cbn [set_refs flags]. by rewrite Lk.
  - apply (bi_chain st I). eauto.
Qed.

Lemma find_miss st n : bc_inv st -> (forall c z, buffers st !! c = Some z -> blockNum z <> n) ->
  BlockFindBuffer n st = Ret (0, st).
Proof.
  intros I N. unfold BlockFindBuffer. by rewrite find_buffer_miss; [|by apply chain_buffers|].
Qed.

(** *** Reading a block that is not cached *)

Definition fresh_buffer (n d : Z) : Buffer := {| blockNum := n; flags := 0; refs := 1; data := d |}.

(** The new buffer is locked and on its chain; [mid] is the device before
    the request. *)
Definition mid st (n b d : Z) (bc h : list Z) : sdev D :=
  {| blockSize := blockSize st; softBlockSize := softBlockSize st;
     hashLists := <[BUFFER_HASH n := hashLists st (BUFFER_HASH n) ++ [b]]> (hashLists st);
     requestList := requestList st; numDirty := numDirty st; syncing := syncing st;
     buffers := <[b := {| blockNum := n; flags := 2; refs := 2; data := d |}]> (buffers st);
     requests := requests st;
     memory := <[d := replicate (Z.to_nat (softBlockSize st)) 0]> (memory st);
     blockCache := bc; heap := h; drv := drv st |}.

Lemma alloc_spec st n b d bc h : softBlockSize st <= MALLOC_MAX_SIZE ->
  blockCache st = b :: bc -> heap st = d :: h -> BlockBufferAlloc n st = Ret (b, mid st n b d bc h).
Proof.
  intros Hs Hb Hh. unfold BlockBufferAlloc. rewrite Hb, Hh.
  destruct (Z.ltb_spec MALLOC_MAX_SIZE (softBlockSize st)); [lia|].
  unfold BufferLock, BufferGet, upd_buffer. cbn [buffers with_memory with_buffers].
  rewrite lookup_insert_eq. cbn [of_option bindO buffers with_buffers]. rewrite lookup_insert_eq.
  cbn [of_option bindO]. match goal with |- context [BufferLocked ?x] => change (BufferLocked x) with false end.
  cbn [bindO]. unfold BlockAddToHashTable.
  cbn [buffers with_buffers]. rewrite lookup_insert_eq. cbn [of_option bindO].
  rewrite !insert_insert_eq. reflexivity.
Qed.

(** What a read leaves as it was. *)
Record keeps st st' : Prop := {
  kp_soft : softBlockSize st' = softBlockSize st;
  kp_holds : forall m v, block_range st m -> holds st m v -> holds st' m v;
  kp_disk : forall a, disk (drv st') a = disk (drv st) a;
  kp_dirty : numDirty st' = numDirty st;
  kp_syncing : syncing st' = syncing st;
  kp_heap : (length (heap st) <= length (heap st') + 2)%nat;
  kp_cache : (length (blockCache st) <= length (blockCache st') + 1)%nat;
}.

Lemma on_disk_ext st st' n : softBlockSize st' = softBlockSize st ->
  (forall a, disk (drv st') a = disk (drv st) a) -> on_disk st' n = on_disk st n.
Proof. intros E H1. unfold on_disk. rewrite E. by apply disk_read_ext. Qed.

(** A buffer put at the end of its hash chain. *)
Lemma chain_insert (chains : Z -> list Z) (bufs : gmap Z Buffer) b x : bufs !! b = None ->
  (forall h, NoDup (chains h) /\ forall c, c ∈ chains h <-> exists z, bufs !! c = Some z /\ BUFFER_HASH (blockNum z) = h) ->
  let chains' := <[BUFFER_HASH (blockNum x) := chains (BUFFER_HASH (blockNum x)) ++ [b]]> chains in
  forall h, NoDup (chains' h) /\ forall c, c ∈ chains' h <-> exists z, <[b := x]> bufs !! c = Some z /\ BUFFER_HASH (blockNum z) = h.
Proof.
  intros Bb Ch chains' h. unfold chains'. destruct (Ch h) as [Nc Cc].
  assert (Hno : b ∉ chains h) by (intros Hin; apply Cc in Hin as (z & Hz & _); congruence).
  destruct (decide (BUFFER_HASH (blockNum x) = h)) as [<-|Nh].
  - rewrite fn_lookup_insert. split.
    + apply NoDup_app. split; [done|]. split; [|apply NoDup_singleton]. intros c Hc ->%list_elem_of_singleton. done.
    + intros c. rewrite elem_of_app, Cc, list_elem_of_singleton. split.
      * intros [(z & Hz & Ez)| ->]; [exists z; by rewrite lookup_insert_ne by congruence|exists x; by rewrite lookup_insert_eq].
      * intros (z & Hz & Ez). rewrite lookup_insert_Some in Hz. naive_solver.
  - rewrite fn_lookup_insert_ne by done. split; [done|]. intros c. rewrite Cc. split.
    + intros (z & Hz & Ez). exists z. rewrite lookup_insert_ne by congruence. done.
    + intros (z & Hz & Ez). rewrite lookup_insert_Some in Hz. destruct Hz as [[<- <-]|[_ Hz]]; [by destruct Nh|]. eauto.
Qed.
(** A field that tells the buffers apart. *)
Definition distinct (field : Buffer -> Z) (bufs : gmap Z Buffer) : Prop :=
  forall b c x y, bufs !! b = Some x -> bufs !! c = Some y -> field x = field y -> b = c.
Lemma distinct_insert field bufs b x : distinct field bufs -> (forall c z, bufs !! c = Some z -> field z <> field x) -> distinct field (<[b := x]> bufs).
Proof.
  intros U N c1 c2 z1 z2 H1 H2 E. rewrite lookup_insert_Some in H1, H2. destruct H1 as [[<- <-]|[N1 O1]], H2 as [[<- <-]|[N2 O2]]; [done| | |].
  - by destruct (N c2 z2 O2).
  - by destruct (N c1 z1 O1).
  - by apply (U c1 c2 z1 z2).
Qed.
(** A clean buffer with what the disk has changes the contents of no block. *)
Lemma holds_insert st st' b d n : bc_inv st -> buffers st !! b = None -> memory st !! d = None ->
  (forall c z, buffers st !! c = Some z -> blockNum z <> n) -> (forall m, on_disk st' m = on_disk st m) ->
  buffers st' = <[b := fresh_buffer n d]> (buffers st) -> memory st' = <[d := on_disk st n]> (memory st) ->
  forall m v, holds st m v -> holds st' m v.
Proof.
  intros I Bb Md New Edisk Ebuf Emem m v [(c & z & Hz & Ez & Mz)|[Nm ->]].
  - left. exists c, z. rewrite Ebuf, Emem, !lookup_insert_ne by congruence. done.
  - destruct (decide (m = n)) as [->|].
    { left. exists b, (fresh_buffer n d). rewrite Ebuf, Emem. cbn [fresh_buffer data]. by rewrite !lookup_insert_eq. }
    right. rewrite Edisk. split; [|done]. intros c z Hz. rewrite Ebuf, lookup_insert_Some in Hz.
    destruct Hz as [[<- <-]|[_ O1]]; [by apply not_eq_sym|by apply (Nm c)].
Qed.

(** A device with a new clean buffer. *)
Lemma added_inv st b d r n bc h rqs d' : bc_inv st -> block_range st n -> accepted st n = true ->
  (forall c z, buffers st !! c = Some z -> blockNum z <> n) ->
  blockCache st = b :: bc -> heap st = d :: r :: h -> drv_ok d' ->
  (forall a, disk d' a = disk (drv st) a) ->
  let st' := served (mid st n b d bc (r :: h)) b {| blockNum := n; flags := 2; refs := 2; data := d |} h rqs
               (<[d := on_disk st n]> (memory (mid st n b d bc (r :: h)))) d' in
  bc_inv st' /\ keeps st st' /\ buffers st' !! b = Some (fresh_buffer n d).
Proof.
  intros I Rg Ac New Hb Hh Hd Dk st'.
  destruct (bi_blocks st I) as [Nb Fb]. rewrite Hb in Nb, Fb. apply NoDup_cons in Nb as [Nb1 Nb2].
  destruct (Fb b) as [Zb Bb]; [constructor|].
  destruct (bi_heap st I) as [Nh Fh]. rewrite Hh in Nh, Fh. apply NoDup_cons in Nh as [Nh1 Nh2].
  destruct (Fh d) as [Zd Md]; [constructor|]. apply NoDup_cons in Nh2 as [Nh2 Nh3].
  assert (Ebuf : buffers st' = <[b := fresh_buffer n d]> (buffers st)) by (apply insert_insert_eq).
  assert (Emem : memory st' = <[d := on_disk st n]> (memory st)) by (apply insert_insert_eq).
  assert (Edisk : forall m, on_disk st' m = on_disk st m) by (intros m; by apply on_disk_ext).
  assert (Old : forall c z, buffers st' !! c = Some z -> c = b /\ z = fresh_buffer n d
                 \/ c <> b /\ buffers st !! c = Some z).
  { intros c z. rewrite Ebuf, lookup_insert_Some. intuition congruence. }
  assert (Nd : forall c z, buffers st !! c = Some z -> data z <> d).
  { intros c z Hz E. destruct (bi_buffer st I c z Hz) as (_ & _ & _ & _ & bs & M & _). congruence. }
  split; [split|split].
  - apply (bi_sizes st I).
  - done.
  - done.
  - cbn [st' served hashLists mid]. rewrite Ebuf. exact (chain_insert (hashLists st) (buffers st) b (fresh_buffer n d) Bb (bi_chain st I)).
  - rewrite Ebuf. apply (distinct_insert blockNum); [exact (bi_unique st I)|exact New].
  - rewrite Ebuf. apply (distinct_insert data); [exact (bi_data st I)|exact Nd].
  - intros c z Hz. destruct (Old _ _ Hz) as [[-> ->]|[N1 O1]].
    + split; [done|]. split; [done|]. split; [done|]. split; [done|]. exists (on_disk st n).
      rewrite Emem. cbn [fresh_buffer data blockNum]. rewrite lookup_insert_eq, Edisk. split; [done|]. split; [|done].
      unfold on_disk. rewrite disk_read_length; [done|]. pose proof (bi_sizes st I) as (_ & ? & _). lia.
    + destruct (bi_buffer st I c z O1) as (Z1 & R1 & A1 & L1 & bs & M1 & Lb & Cl).
      split; [done|]. split; [done|]. split; [done|]. split; [done|]. exists bs.
      rewrite Emem, lookup_insert_ne, Edisk; [done|]. apply not_eq_sym. by apply (Nd c).
  - intros c z Hz. destruct (Old _ _ Hz) as [[-> ->]|[_ O1]]; [done|]. by apply (bi_null st I c).
  - cbn [st' served blockCache mid]. split; [done|]. intros c Hc. destruct (Fb c) as [Zc Bc]; [by constructor|].
    split; [done|]. rewrite Ebuf, lookup_insert_ne by congruence. done.
  - cbn [st' served heap]. split; [done|]. intros c Hc. destruct (Fh c) as [Zc Mc]; [by do 2 constructor|].
    split; [done|]. rewrite Emem, lookup_insert_ne; [done|]. intros ->. apply Nh1. by constructor.
  - cbn [st' served numDirty mid]. rewrite (bi_dirty st I), Ebuf. f_equal.
    pose proof (dirty_count_insert (buffers st) b (fresh_buffer n d)) as E. rewrite Bb in E. simpl in E. lia.
  - rewrite Ebuf. cbn [st' served blockCache mid]. rewrite map_size_insert, Bb.
    pose proof (bi_bound st I) as E. rewrite Hb in E. simpl in *. lia.
  - split; try done.
    + intros m v _. by apply (holds_insert st st' b d n).
    + cbn. rewrite Hh. simpl. lia.
    + cbn. rewrite Hb. simpl. lia.
  - by rewrite Ebuf, lookup_insert_eq.
Qed.

(** A device that has only lost addresses of its heap. *)
Lemma same_cache_inv st st' : bc_inv st ->
  blockSize st' = blockSize st -> softBlockSize st' = softBlockSize st -> drv_ok (drv st') ->
  (forall a, disk (drv st') a = disk (drv st) a) -> requestList st' = [] ->
  (forall h, hashLists st' h = hashLists st h) -> buffers st' = buffers st -> memory st' = memory st ->
  blockCache st' = blockCache st -> NoDup (heap st') -> (forall d, d ∈ heap st' -> d ∈ heap st) ->
  numDirty st' = numDirty st -> bc_inv st'.
Proof.
  intros I Eb Es Hd Dk Q Eh EB EM Ec Nh Sh En.
  split; rewrite ?EB, ?EM, ?Ec; try apply I; try done.
  - unfold sizes_ok. rewrite Eb, Es. apply I.
  - intros h. rewrite Eh. apply I.
  - intros b x Hx. unfold buffer_ok, block_range, accepted. rewrite Es, EM, (on_disk_ext st st' _ Es Dk).
    by apply (bi_buffer st I).
  - split; [done|]. intros d Hd'. apply (bi_heap st I). by apply Sh.
  - rewrite En. apply I.
Qed.

Lemma same_holds st st' m v : softBlockSize st' = softBlockSize st ->
  (forall a, disk (drv st') a = disk (drv st) a) -> buffers st' = buffers st -> memory st' = memory st ->
  holds st m v -> holds st' m v.
Proof. intros Es Dk EB EM. unfold holds. by rewrite EB, EM, (on_disk_ext st st' _ Es Dk). Qed.

Lemma filter_tail (l : list Z) b : b ∉ l -> filter (fun c => c <> b) (l ++ [b]) = l.
Proof.
  intros N. rewrite filter_app, filter_cons_False, filter_nil, app_nil_r by (intros C; by apply C).
  induction l as [|c l IH]; [done|]. rewrite elem_of_cons in N.
  rewrite filter_cons_True by naive_solver. f_equal. naive_solver.
Qed.

(** The new buffer is given back when the driver refuses the block. *)
Lemma refused_inv st b d r n bc h rqs d' : bc_inv st ->
  blockCache st = b :: bc -> heap st = d :: r :: h -> drv_ok d' ->
  (forall a, disk d' a = disk (drv st) a) ->
  exists st', BlockBufferRemove b (served (mid st n b d bc (r :: h)) b
      {| blockNum := n; flags := 2; refs := 2; data := d |} h rqs (memory (mid st n b d bc (r :: h))) d')
      = Ret st' /\ bc_inv st' /\ keeps st st'.
Proof.
  intros I Hb Hh Hd Dk.
  destruct (bi_blocks st I) as [Nb Fb]. rewrite Hb in Nb, Fb. apply NoDup_cons in Nb as [Nb1 Nb2].
  destruct (Fb b) as [Zb Bb]; [constructor|].
  destruct (bi_heap st I) as [Nh Fh]. rewrite Hh in Nh, Fh. apply NoDup_cons in Nh as [Nh1 Nh2].
  destruct (Fh d) as [Zd Md]; [constructor|]. apply NoDup_cons in Nh2 as [Nh2 Nh3].
  unfold BlockBufferRemove. cbn [buffers served]. rewrite lookup_insert_eq. cbn [of_option bindO].
  eexists. split; [reflexivity|].
  match goal with |- bc_inv ?s /\ _ => set (st' := s) end.
  assert (EB : buffers st' = buffers st).
  { cbn. rewrite insert_insert_eq, delete_insert_id by done. done. }
  assert (EM : memory st' = memory st) by (cbn; by rewrite delete_insert_id).
  assert (Eh : forall hh, hashLists st' hh = hashLists st hh).
  { intros hh. cbn. destruct (decide (BUFFER_HASH n = hh)) as [<-|N].
    - rewrite !fn_lookup_insert. apply filter_tail. intros Hin.
      apply (bi_chain st I) in Hin as (z & Hz & _). congruence.
    - by rewrite !fn_lookup_insert_ne. }
  assert (Nd : d ∉ h) by (intros ?; apply Nh1; by constructor).
  split.
  - apply (same_cache_inv st); try done.
    + cbn. by apply NoDup_cons.
    + cbn. rewrite Hh. intros c. rewrite !elem_of_cons. tauto.
  - split; try done.
    + intros m v _. by apply same_holds.
    + cbn. rewrite Hh. simpl. lia.
    + cbn. rewrite Hb. simpl. lia.
Qed.

Lemma updated_keeps st st' b x y bytes : bc_inv st -> buffers st !! b = Some x ->
  updated st st' b x y bytes -> memory st !! data x = Some bytes ->
  (forall a, disk (drv st') a = disk (drv st) a) -> numDirty st' = numDirty st -> syncing st' = syncing st ->
  heap st' = heap st -> keeps st st'.
Proof.
  intros I B U M Dk Ed Es Eh. split; try done; try apply U; try (rewrite ?Eh, ?(up_cache _ _ _ _ _ _ U); lia).
  intros m v Rg Hv. destruct (decide (m = blockNum x)) as [->|]; [|by eapply updated_holds].
  assert (v = bytes) as ->; [|by apply (updated_holds_self _ _ _ _ _ _ U)].
  destruct Hv as [(c & z & Hz & Ez & Mz)|[N _]]; [|by destruct (N b x)].
  assert (c = b) as -> by by apply (bi_unique st I c b z x). congruence.
Qed.

Lemma cached_dec st n : (exists b x, buffers st !! b = Some x /\ blockNum x = n)
  \/ forall c z, buffers st !! c = Some z -> blockNum z <> n.
Proof.
  destruct (decide (map_Exists (fun _ x => blockNum x = n) (buffers st))) as [(b & x & H1 & H2)|N]; [left; eauto|].
  right. intros c z Hz E. apply N. by exists c, z.
Qed.

(** BlockRead returns the buffer of the block, which holds its contents, or
    NULL for a block the driver does not accept. *)
Lemma BlockRead_spec st n : bc_inv st -> block_range st n ->
  (1 <= length (blockCache st))%nat -> (2 <= length (heap st))%nat ->
  exists b st', BlockRead n st = Ret (b, st') /\ bc_inv st' /\ keeps st st'
    /\ if accepted st n then exists x, buffers st' !! b = Some x /\ blockNum x = n else b = 0.
Proof.
  intros I Rg Lc Lh. destruct (cached_dec st n) as [(b & x & B & <-)|New]; unfold BlockRead.
  - rewrite (find_hit st b x I B). cbn [bindO].
    destruct (bi_buffer st I b x B) as (Zb & _ & Ac & Lk & bs & Mb & _). rewrite Ac.
    destruct (c_true b) eqn:Eb; [|by unfold c_true in Eb; destruct (Z.eqb_spec b 0)].
    pose proof (updated_buffer st b x (set_refs (s32 (refs x + 1)) x) bs I B Mb eq_refl eq_refl Lk eq_refl) as U.
    eexists b, _. split; [reflexivity|]. split; [by apply (updated_inv _ _ _ _ _ _ I B U)|].
    split; [by apply (updated_keeps _ _ _ _ _ _ I B U)|]. cbn. rewrite lookup_insert_eq. eauto.
  - rewrite (find_miss st n I New). cbn [bindO]. change (c_true 0) with false. cbn iota.
    destruct (blockCache st) as [|b bc] eqn:Hb; [simpl in Lc; lia|].
    destruct (heap st) as [|d [|r h]] eqn:Hh; simpl in Lh; [lia..|].
    destruct (bi_sizes st I) as (Eb & Es & Em). rewrite (alloc_spec st n b d bc (r :: h)) by (done || lia).
    cbn [bindO]. destruct (bi_blocks st I) as [_ Fb]. destruct (Fb b) as [Zb _]; [rewrite Hb; constructor|].
    destruct (bi_heap st I) as [_ Fh]. destruct (Fh r) as [Zr _]; [rewrite Hh; by repeat constructor|].
    destruct (Z.eqb_spec b 0); [done|]. unfold BlockBufferRead.
    destruct (send_spec (mid st n b d bc (r :: h)) b {| blockNum := n; flags := 2; refs := 2; data := d |}
      (replicate (Z.to_nat (softBlockSize st)) 0) r h REQUEST_READ) as (rqs & d' & Hd' & -> & Dk).
    { by left. } { done. } { apply I. } { apply I. } { apply lookup_insert_eq. } { apply lookup_insert_eq. }
    { rewrite length_replicate. cbn. lia. } { done. } { done. } { done. }
    cbn [bindO blockNum]. change (accepted (mid st n b d bc (r :: h)) n) with (accepted st n) in *.
    change (on_disk (mid st n b d bc (r :: h)) n) with (on_disk st n). cbn [Z.eqb andb REQUEST_READ] in *.
    destruct (accepted st n) eqn:Ac; cbn [c_true Z.eqb negb andb Pos.eqb].
    + eexists b, _. split; [reflexivity|].
      destruct (added_inv st b d r n bc h rqs d' I Rg Ac New Hb Hh Hd' Dk) as (I' & K & B').
      split; [done|]. split; [done|]. eexists. by split.
    + change (c_true (- EIO)) with true. cbn iota.
      destruct (refused_inv st b d r n bc h rqs d' I Hb Hh Hd' Dk) as (st' & -> & I' & K).
      exists 0, st'. by split_and!.
Qed.

(** *** Writing *)

Lemma dirty_pos st b x : bc_inv st -> buffers st !! b = Some x -> BufferDirty x = true -> 0 < numDirty st < 2 ^ 31.
Proof.
  intros I B Dx. rewrite (bi_dirty st I). pose proof (dirty_count_le (buffers st)). pose proof (bi_bound st I).
  split; [|lia]. pose proof (dirty_count_insert (buffers st) b (set_flags 0 x)) as E.
  rewrite B in E. simpl in E. rewrite Dx in E. change (BufferDirty (set_flags 0 x)) with false in E. lia.
Qed.

Lemma dirty_room st b x : bc_inv st -> buffers st !! b = Some x -> BufferDirty x = false ->
  0 <= numDirty st < 2 ^ 31 - 1.
Proof.
  intros I B Dx. rewrite (bi_dirty st I). pose proof (bi_bound st I).
  pose proof (dirty_count_insert (buffers st) b (set_flags 1 x)) as E.
  pose proof (dirty_count_le (<[b := set_flags 1 x]> (buffers st))) as L. rewrite map_size_insert, B in L. unfold id in L.
  rewrite B in E. simpl in E. rewrite Dx in E. change (BufferDirty (set_flags 1 x)) with true in E. lia.
Qed.

Lemma flag_locked f i : i = BUFFER_DIRTY ->
  Z.testbit (Z.setbit f i) BUFFER_LOCKED = Z.testbit f BUFFER_LOCKED
  /\ Z.testbit (Z.clearbit f i) BUFFER_LOCKED = Z.testbit f BUFFER_LOCKED.
Proof. intros ->. split; [by rewrite Z.setbit_neq|by rewrite Z.clearbit_neq]. Qed.

(** New contents for a buffer, marked with BlockWrite. *)
Lemma BlockWrite_updated st b x bytes : bc_inv st -> buffers st !! b = Some x ->
  Z.of_nat (length bytes) = softBlockSize st ->
  exists y st', BlockWrite b (with_memory (<[data x := bytes]> (memory st)) st) = Ret (0, st')
    /\ updated st st' b x y bytes /\ heap st' = heap st /\ syncing st' = syncing st
    /\ numDirty st <= numDirty st' <= numDirty st + 1.
Proof.
  intros I B L. unfold BlockWrite, upd_buffer. cbn [buffers with_memory]. rewrite B. cbn [of_option bindO].
  set (y := set_flags _ x). eexists y, _. split; [reflexivity|].
  assert (Dy : BufferDirty y = true) by (apply Z.setbit_eq; done).
  pose proof (dirty_count_insert (buffers st) b y) as E. rewrite B, Dy in E. simpl in E.
  destruct (bi_buffer st I b x B) as (_ & _ & _ & Lk & _). pose proof (bi_dirty st I) as Dn.
  assert (Hn : numDirty (if BufferDirty x then
       with_buffers (<[b:=y]> (buffers st)) (with_memory (<[data x:=bytes]> (memory st)) st)
     else with_dirty (s32 (numDirty (with_memory (<[data x:=bytes]> (memory st)) st) + 1))
       (with_buffers (<[b:=y]> (buffers st)) (with_memory (<[data x:=bytes]> (memory st)) st)))
    = Z.of_nat (dirty_count (<[b := y]> (buffers st)))).
  { destruct (BufferDirty x) eqn:Dx; cbn; [lia|].
    pose proof (dirty_room st b x I B Dx). rewrite s32_id by lia. lia. }
  split; [|split; [by destruct (BufferDirty x)|split; [by destruct (BufferDirty x)|]]].
  - split; try exact Hn; try (by destruct (BufferDirty x)); try done.
    + destruct (BufferDirty x); apply I.
    + destruct (BufferDirty x); apply I.
    + split; destruct (BufferDirty x); [apply I|apply I|done|done].
    + unfold BufferLocked in *. cbn [y set_flags flags]. by rewrite (proj1 (flag_locked _ _ eq_refl)).
    + congruence.
  - rewrite Hn, Dn. destruct (BufferDirty x); lia.
Qed.

Lemma BlockFree_updated st b x : bc_inv st -> buffers st !! b = Some x ->
  exists y st' bytes, BlockFree b st = Ret (0, st') /\ updated st st' b x y bytes
    /\ memory st !! data x = Some bytes /\ keeps st st'
    /\ heap st' = heap st /\ blockCache st' = blockCache st.
Proof.
  intros I B. destruct (bi_buffer st I b x B) as (_ & _ & _ & Lk & bs & Mb & _).
  unfold BlockFree, BufferRelease, upd_buffer. rewrite B. cbn [of_option bindO].
  set (y := set_refs _ x).
  pose proof (updated_buffer st b x y bs I B Mb eq_refl eq_refl Lk eq_refl) as U.
  exists y. eexists. exists bs. split; [reflexivity|]. split; [done|]. split; [done|].
  split; [by apply (updated_keeps _ _ _ _ _ _ I B U)|]. done.
Qed.

(** *** Synchronisation *)

(** What a part of a synchronisation keeps and achieves. *)
Record syncs st st' : Prop := {
  sy_soft : softBlockSize st' = softBlockSize st;
  sy_hash : hashLists st' = hashLists st;
  sy_cache : blockCache st' = blockCache st;
  sy_holds : forall m v, block_range st m -> holds st m v -> holds st' m v;
  sy_buffers : forall b x, buffers st !! b = Some x -> exists y, buffers st' !! b = Some y
    /\ blockNum y = blockNum x /\ (BufferDirty x = false -> BufferDirty y = false);
  sy_heap : Z.of_nat (length (heap st)) - numDirty st <= Z.of_nat (length (heap st')) - numDirty st';
  sy_less : numDirty st' <= numDirty st;
}.

#[local] Instance syncs_preorder : PreOrder syncs.
Proof.
  split.
  - intros st. split; try done. intros b x Hx. exists x. by split_and!.
  - intros s1 s2 s3 A B. split.
    + by rewrite (sy_soft _ _ B), (sy_soft _ _ A).
    + by rewrite (sy_hash _ _ B), (sy_hash _ _ A).
    + by rewrite (sy_cache _ _ B), (sy_cache _ _ A).
    + intros m v Rg Hv. apply (sy_holds _ _ B); [|by apply (sy_holds _ _ A)].
      unfold block_range in *. by rewrite (sy_soft _ _ A).
    + intros b x Hx. destruct (sy_buffers _ _ A b x Hx) as (y & Hy & Ey & Dy).
      destruct (sy_buffers _ _ B b y Hy) as (z & Hz & Ez & Dz). exists z. split_and!; [done|congruence|auto].
    + pose proof (sy_heap _ _ A). pose proof (sy_heap _ _ B). lia.
    + pose proof (sy_less _ _ A). pose proof (sy_less _ _ B). lia.
Qed.

Lemma disk_write_other f soft n m bytes : 0 < soft -> Z.of_nat (length bytes) = soft -> n <> m ->
  disk_read (disk_write f (n * soft) bytes) (m * soft) soft = disk_read f (m * soft) soft.
Proof.
  intros Hs L N. apply disk_read_ext. intros a Ha. apply disk_write_out. rewrite L.
  intros Hb. apply N. transitivity (a / soft).
  - apply (Z.div_unique_pos a soft n (a - n * soft)); lia.
  - symmetry. apply (Z.div_unique_pos a soft m (a - m * soft)); lia.
Qed.

Lemma write_dirty_spec st b x : bc_inv st -> buffers st !! b = Some x -> BufferDirty x = true ->
  (1 <= length (heap st))%nat ->
  exists st', write_dirty b st = Ret st' /\ bc_inv st' /\ syncs st st' /\ exists y, buffers st' !! b = Some y /\ BufferDirty y = false.
Proof.
  intros I B Dx Lh. destruct (heap st) as [|r h] eqn:Hh; [simpl in Lh; lia|].
  destruct (bi_buffer st I b x B) as (Zb & Rg & Ac & Lk & bytes & Mb & Lb & _).
  destruct (bi_heap st I) as [Nh Fh]. rewrite Hh in Nh, Fh. destruct (Fh r) as [Zr Mr]; [constructor|].
  apply NoDup_cons in Nh as [Nr Nh]. pose proof (dirty_pos st b x I B Dx) as Pos.
  unfold write_dirty, upd_buffer at 1. cbn [buffers with_dirty]. rewrite B. cbn [of_option bindO].
  unfold DoBlockWrite, BufferLock, BufferGet, upd_buffer. cbn [buffers with_buffers]. rewrite lookup_insert_eq.
  cbn [of_option bindO buffers with_buffers]. rewrite lookup_insert_eq. cbn [of_option bindO].
  set (x1 := set_flags _ x). set (x2 := set_refs _ x1).
  assert (Lk2 : BufferLocked x2 = false).
  { unfold BufferLocked in *. cbn [x2 x1 set_refs set_flags flags]. by rewrite (proj2 (flag_locked _ _ eq_refl)). }
  rewrite Lk2. cbn [bindO]. rewrite !insert_insert_eq. set (x3 := set_flags _ x2).
  match goal with |- context [BlockSendRequest b REQUEST_WRITE ?s] => set (st3 := s) end.
  destruct (send_spec st3 b x3 bytes r h REQUEST_WRITE) as (rqs & d' & Hd' & -> & Dk);
    [by right|apply I|apply I|apply I|apply lookup_insert_eq|done|done|done|done|done|].
  change (accepted st3 (blockNum x3)) with (accepted st (blockNum x)) in *. rewrite Ac in *.
  cbn [bindO andb Z.eqb REQUEST_WRITE REQUEST_READ Pos.eqb] in *.
  change (blockNum x3) with (blockNum x) in Dk. change (drv st3) with (drv st) in Dk.
  change (softBlockSize st3) with (softBlockSize st) in Dk.
  eexists. split; [reflexivity|]. match goal with |- bc_inv ?s /\ _ => set (st' := s) end.
  assert (Df : BufferDirty (released x3) = false).
  { unfold BufferDirty. cbn [released x3 x2 x1 set_refs set_flags flags].
    rewrite Z.clearbit_neq, Z.setbit_neq by done. apply Z.clearbit_eq. }
  assert (Dod : forall m, on_disk st' m = disk_read (disk_write (disk (drv st)) (blockNum x * softBlockSize st) bytes)
                                   (m * softBlockSize st) (softBlockSize st)).
  { intros m. unfold on_disk. by apply disk_read_ext. }
  pose proof (bi_sizes st I) as (_ & Hs & _).
  pose proof (dirty_count_insert (buffers st) b (released x3)) as Ec. rewrite B, Df in Ec. simpl in Ec.
  rewrite Dx in Ec. pose proof (bi_dirty st I) as Dn.
  assert (En : numDirty st' = numDirty st - 1) by (cbn; apply s32_id; lia).
  assert (U : updated st st' b x (released x3) bytes).
  { split; try done.
    - cbn. by rewrite insert_insert_eq.
    - cbn. by rewrite insert_id.
    - split; [done|]. rewrite Hh. by constructor.
    - unfold BufferLocked. cbn [released x3 set_refs set_flags flags]. apply Z.clearbit_eq.
    - intros m Nm _. rewrite Dod. apply disk_write_other; [lia|done|congruence].
    - intros _. rewrite Dod, <- Lb. by rewrite disk_write_read.
    - rewrite En. lia. }
  split; [by apply (updated_inv _ _ _ _ _ _ I B U)|]. split.
  - split; try apply U.
    + intros m v Rm Hv. destruct (decide (m = blockNum x)) as [->|]; [|by eapply updated_holds].
      destruct Hv as [(c & z & Hz & Ez & Mz)|[N _]]; [|by destruct (N b x)].
      assert (c = b) as -> by by apply (bi_unique st I c b z x).
      assert (v = bytes) as -> by congruence. by apply (updated_holds_self _ _ _ _ _ _ U).
    + intros c z Hz. rewrite (up_buffers _ _ _ _ _ _ U). destruct (decide (c = b)) as [->|].
      * exists (released x3). rewrite lookup_insert_eq. split; [done|]. split; [|done]. by assert (z = x) as -> by congruence.
      * exists z. by rewrite lookup_insert_ne.
    + rewrite En. cbn. rewrite Hh. simpl. lia.
    + lia.
  - exists (released x3). by rewrite (up_buffers _ _ _ _ _ _ U), lookup_insert_eq.
Qed.

Lemma sync_chain_spec l : forall st, bc_inv st -> (forall b, b ∈ l -> is_Some (buffers st !! b)) ->
  numDirty st <= Z.of_nat (length (heap st)) ->
  exists out st', sync_chain l st = Ret (out, st') /\ bc_inv st' /\ syncs st st'
    /\ if out then numDirty st' = 0
       else forall b x, b ∈ l -> buffers st' !! b = Some x -> BufferDirty x = false.
Proof.
  induction l as [|b l IH]; intros st I F Lh.
  { exists false, st. split; [done|]. split; [done|]. split; [reflexivity|]. intros b x Hb. by apply not_elem_of_nil in Hb. }
  destruct (F b) as [x Hx]; [constructor|]. cbn [sync_chain]. rewrite Hx. cbn [of_option bindO].
  assert (Step : exists st1, (if BufferDirty x then write_dirty b st else Ret st) = Ret st1 /\ bc_inv st1 /\ syncs st st1
        /\ exists y, buffers st1 !! b = Some y /\ BufferDirty y = false).
  { destruct (BufferDirty x) eqn:Dx.
    - apply (write_dirty_spec st b x); try done. pose proof (dirty_pos st b x I Hx Dx). lia.
    - exists st. split; [done|]. split; [done|]. split; [reflexivity|]. eauto. }
  destruct Step as (st1 & -> & I1 & S1 & y & Hy & Dy). cbn [bindO].
  destruct (Z.eqb_spec (numDirty st1) 0); [by exists true, st1|].
  destruct (IH st1 I1) as (out & st' & -> & I' & S' & Q).
  { intros c Hc. destruct (F c) as [z Hz]; [by constructor|]. destruct (sy_buffers _ _ S1 c z Hz) as (w & Hw & _). eauto. }
  { pose proof (sy_heap _ _ S1). lia. }
  exists out, st'. split; [done|]. split; [done|]. split; [by transitivity st1|].
  destruct out; [done|]. intros c z Hc Hz. apply elem_of_cons in Hc as [->|Hc]; [|by apply (Q c)].
  destruct (sy_buffers _ _ S' b y Hy) as (w & Hw & _ & Dw). assert (z = w) as -> by congruence. auto.
Qed.

Lemma sync_chains_spec n : forall i st, bc_inv st -> numDirty st <= Z.of_nat (length (heap st)) ->
  exists st', sync_chains n i st = Ret st' /\ bc_inv st' /\ syncs st st'
    /\ (numDirty st' = 0 \/ forall k b x, i <= k < i + Z.of_nat n -> b ∈ hashLists st k ->
          buffers st' !! b = Some x -> BufferDirty x = false).
Proof.
  induction n as [|n IH]; intros i st I Lh; cbn [sync_chains].
  { exists st. split; [done|]. split; [done|]. split; [reflexivity|]. right. intros. lia. }
  destruct (sync_chain_spec (hashLists st i) st I) as (out & st1 & -> & I1 & S1 & Q);
    [by apply chain_buffers|done|]. cbn [bindO].
  destruct out; [exists st1; by split_and!; [..|left]|].
  destruct (IH (i + 1) st1 I1) as (st' & -> & I' & S' & Q'); [pose proof (sy_heap _ _ S1); lia|].
  exists st'. split; [done|]. split; [done|]. split; [by transitivity st1|].
  destruct Q' as [Q'|Q']; [by left|right]. intros k b x Hk Hb Hx.
  destruct (decide (k = i)) as [->|].
  - apply (bi_chain st I) in Hb as Hb'. destruct Hb' as (z & Hz & _).
    destruct (sy_buffers _ _ S1 b z Hz) as (w & Hw & _). pose proof (Q b w Hb Hw) as Dw.
    destruct (sy_buffers _ _ S' b w Hw) as (u & Hu & _ & Du). assert (x = u) as -> by congruence. auto.
  - apply (Q' k b x); [lia| |done]. by rewrite (sy_hash _ _ S1).
Qed.

Lemma BUFFER_HASH_range n : 0 <= n -> 0 <= BUFFER_HASH n < HASH_NUM_ENTRIES.
Proof.
  intros Hn. unfold BUFFER_HASH. change HASH_MASK with (Z.ones 13). rewrite Z.land_ones by lia.
  change HASH_NUM_ENTRIES with (2 ^ 13). apply Z.mod_pos_bound. lia.
Qed.

(** One pass leaves no dirty buffer. *)
Lemma sync_passes_spec fuel st : bc_inv st -> numDirty st <= Z.of_nat (length (heap st)) -> (1 <= fuel)%nat ->
  exists st', sync_passes fuel st = Ret st' /\ bc_inv st' /\ syncs st st' /\ numDirty st' = 0.
Proof.
  intros I Lh Hf. destruct fuel as [|fuel]; [lia|]. cbn [sync_passes].
  destruct (sync_chains_spec (Z.to_nat HASH_NUM_ENTRIES) 0 st I Lh) as (st' & -> & I' & S' & Q). cbn [bindO].
  assert (numDirty st' = 0) as E.
  { destruct Q as [|Q]; [done|]. rewrite (bi_dirty st' I'). unfold dirty_count.
    rewrite (proj2 (map_empty_filter _ _)); [done|]. intros b x Hx Dx. simpl in Dx.
    assert (Hb : b ∈ hashLists st' (BUFFER_HASH (blockNum x))) by (apply (bi_chain st' I'); eauto).
    rewrite (sy_hash _ _ S') in Hb. destruct (bi_buffer st' I' b x Hx) as (_ & [Hn _] & _).
    assert (BufferDirty x = false); [|congruence].
    apply (Q (BUFFER_HASH (blockNum x)) b x); [|done|done]. pose proof (BUFFER_HASH_range _ Hn). lia. }
  exists st'. rewrite E. by split_and!.
Qed.

Lemma with_syncing_inv v st : bc_inv st -> bc_inv (with_syncing v st).
Proof. intros I. apply (same_cache_inv st); try done; apply I. Qed.

Lemma BlockSyncDevice_spec fuel st : bc_inv st -> syncing st = 0 ->
  numDirty st <= Z.of_nat (length (heap st)) -> (1 <= fuel)%nat ->
  exists st', BlockSyncDevice fuel st = Ret (0, st') /\ bc_inv st' /\ syncs st st' /\ numDirty st' = 0
    /\ syncing st' = 0.
Proof.
  intros I Sy Lh Hf. unfold BlockSyncDevice. rewrite Sy. cbn [c_true Z.eqb negb orb].
  destruct (Z.eqb_spec (numDirty st) 0) as [E|]; [exists st; by split_and!|].
  destruct (sync_passes_spec fuel (with_syncing 1 st) (with_syncing_inv 1 st I) Lh Hf) as (st' & -> & I' & S' & E).
  cbn [bindO]. exists (with_syncing 0 st'). split; [done|]. split; [by apply with_syncing_inv|].
  split; [|by split]. destruct S'. by split.
Qed.

(** With nothing dirty the disk holds every block. *)
Lemma clean_on_disk st n v : bc_inv st -> numDirty st = 0 -> holds st n v -> v = on_disk st n.
Proof.
  intros I E [(b & x & Hx & En & Mx)|[_ ->]]; [|done].
  destruct (bi_buffer st I b x Hx) as (_ & _ & _ & _ & bs & Mb & _ & Cl).
  destruct (BufferDirty x) eqn:Dx; [pose proof (dirty_pos st b x I Hx Dx); lia|].
  rewrite <- En, <- Cl by done. congruence.
Qed.

(** *** Emptying the cache *)

Lemma filter_ne (l : list Z) b c : c ∈ filter (fun k => k <> b) l <-> c <> b /\ c ∈ l.
Proof. by rewrite list_elem_of_filter. Qed.

Lemma remove_spec st b x : bc_inv st -> buffers st !! b = Some x -> BufferDirty x = false ->
  exists st', BlockBufferRemove b st = Ret st' /\ bc_inv st' /\ drv st' = drv st
    /\ softBlockSize st' = softBlockSize st /\ buffers st' = delete b (buffers st)
    /\ numDirty st' = numDirty st
    /\ forall k c, c ∈ hashLists st' k <-> c ∈ hashLists st k /\ c <> b.
Proof.
  intros I B Dx. unfold BlockBufferRemove. rewrite B. cbn [of_option bindO].
  eexists. split; [reflexivity|]. match goal with |- bc_inv ?s /\ _ => set (st' := s) end.
  destruct (bi_buffer st I b x B) as (Zb & _ & _ & _ & bs & Mb & _).
  assert (Hk : forall k, hashLists st' k = filter (fun c => c <> b) (hashLists st k)).
  { intros k. cbn. destruct (decide (BUFFER_HASH (blockNum x) = k)) as [<-|N].
    - by rewrite fn_lookup_insert.
    - rewrite fn_lookup_insert_ne by done. assert (Hno : b ∉ hashLists st k).
      { intros Hin. apply (bi_chain st I) in Hin as (z & Hz & Ez). congruence. }
      clear - Hno. induction (hashLists st k) as [|c l IH]; [done|]. rewrite elem_of_cons in Hno.
      rewrite filter_cons_True by naive_solver. f_equal. naive_solver. }
  assert (Old : forall c z, buffers st' !! c = Some z -> c <> b /\ buffers st !! c = Some z).
  { intros c z. cbn. rewrite lookup_delete_Some. naive_solver. }
  assert (Hnum : dirty_count (delete b (buffers st)) = dirty_count (buffers st)).
  { pose proof (dirty_count_insert (delete b (buffers st)) b x) as E.
    rewrite insert_delete_eq, insert_id, lookup_delete_eq, Dx in E by done. simpl in E. lia. }
  split_and!; try done.
  - split; try (by apply I).
    + intros k. rewrite Hk. destruct (bi_chain st I k) as [Nk Ck]. split; [by apply NoDup_filter|].
      intros c. rewrite filter_ne, Ck. split.
      * intros [Nc (z & Hz & Ez)]. exists z. cbn. by rewrite lookup_delete_ne.
      * intros (z & Hz & Ez). destruct (Old c z Hz). eauto.
    + intros c1 c2 z1 z2 [_ H1]%Old [_ H2]%Old. by apply (bi_unique st I).
    + intros c1 c2 z1 z2 [_ H1]%Old [_ H2]%Old. by apply (bi_data st I).
    + intros c z [Nc Hz]%Old. destruct (bi_buffer st I c z Hz) as (Z1 & R1 & A1 & L1 & cs & M1 & L2 & Cl).
      split_and!; try done. exists cs. cbn. rewrite lookup_delete_ne; [by split_and!|].
      intros E. apply Nc. symmetry. by apply (bi_data st I b c x z).
    + intros c z [_ Hz]%Old. by apply (bi_null st I c).
    + cbn. destruct (bi_blocks st I) as [Nb Fb]. split.
      * apply NoDup_cons. split; [|done]. intros Hin. destruct (Fb b Hin). congruence.
      * intros c. rewrite elem_of_cons. intros [->|Hc]; [by rewrite lookup_delete_eq|].
        destruct (Fb c Hc). split; [done|]. by rewrite lookup_delete_ne by congruence.
    + cbn. destruct (bi_heap st I) as [Nh Fh]. split.
      * apply NoDup_cons. split; [|done]. intros Hin. destruct (Fh _ Hin). congruence.
      * intros c. rewrite elem_of_cons. intros [->|Hc].
        -- split; [by apply (bi_null st I b)|apply lookup_delete_eq].
        -- destruct (Fh c Hc). split; [done|]. by rewrite lookup_delete_ne by congruence.
    + cbn. rewrite Hnum. apply I.
    + cbn. rewrite map_size_delete, B. pose proof (bi_bound st I).
      assert (size (buffers st) <> 0%nat); [|simpl; lia]. apply map_size_non_empty_iff. intros E. by rewrite E in B.
  - intros k c. rewrite Hk, filter_ne. tauto.
Qed.

(** What emptying keeps. *)
Definition emptied st st' : Prop :=
  drv st' = drv st /\ softBlockSize st' = softBlockSize st /\ numDirty st' = 0
  /\ (forall k c, c ∈ hashLists st' k -> c ∈ hashLists st k)
  /\ forall b x, buffers st' !! b = Some x -> buffers st !! b = Some x.

Lemma remove_chain_spec l : forall st, bc_inv st -> numDirty st = 0 -> NoDup l ->
  (forall b, b ∈ l -> is_Some (buffers st !! b)) ->
  exists st', remove_chain l st = Ret st' /\ bc_inv st' /\ emptied st st'
    /\ forall b, b ∈ l -> buffers st' !! b = None.
Proof.
  induction l as [|b l IH]; intros st I E Nl F; cbn [remove_chain].
  { exists st. split; [done|]. split; [done|]. split; [by split_and!|]. intros b Hb. by apply not_elem_of_nil in Hb. }
  apply NoDup_cons in Nl as [Nb Nl]. destruct (F b) as [x Hx]; [constructor|].
  assert (Dx : BufferDirty x = false).
  { destruct (BufferDirty x) eqn:Dx; [|done]. pose proof (dirty_pos st b x I Hx Dx). lia. }
  destruct (remove_spec st b x I Hx Dx) as (st1 & -> & I1 & E1 & E2 & E3 & E4 & E5). cbn [bindO].
  destruct (IH st1 I1) as (st' & -> & I' & (A1 & A2 & A3 & A4 & A5) & Q); [congruence|done| |].
  { intros c Hc. rewrite E3, lookup_delete_ne by congruence. apply F. by constructor. }
  exists st'. split; [done|]. split; [done|]. split.
  - split_and!; [congruence|congruence|done| |].
    + intros k c Hc. apply A4, E5 in Hc. tauto.
    + intros c z Hc. apply A5 in Hc. rewrite E3, lookup_delete_Some in Hc. tauto.
  - intros c. rewrite elem_of_cons. intros [->|Hc]; [|by apply Q].
    destruct (buffers st' !! b) as [z|] eqn:Hz; [|done]. apply A5 in Hz. by rewrite E3, lookup_delete_eq in Hz.
Qed.

Lemma remove_chains_spec n : forall i st, bc_inv st -> numDirty st = 0 ->
  exists st', remove_chains n i st = Ret st' /\ bc_inv st' /\ emptied st st'
    /\ forall k b, i <= k < i + Z.of_nat n -> b ∉ hashLists st' k.
Proof.
  induction n as [|n IH]; intros i st I E; cbn [remove_chains].
  { exists st. split; [done|]. split; [done|]. split; [by split_and!|]. intros. lia. }
  destruct (remove_chain_spec (hashLists st i) st I E) as (st1 & -> & I1 & (A1 & A2 & A3 & A4 & A5) & Q);
    [apply I|by apply chain_buffers|]. cbn [bindO].
  destruct (IH (i + 1) st1 I1 A3) as (st' & -> & I' & (B1 & B2 & B3 & B4 & B5) & Q').
  exists st'. split; [done|]. split; [done|]. split; [split_and!; [congruence|congruence|done|auto|auto]|].
  intros k b Hk Hb. destruct (decide (k = i)) as [->|]; [|by apply (Q' k b); [lia|]].
  apply B4 in Hb. pose proof (A4 _ _ Hb) as Hb0. apply (bi_chain st1 I1) in Hb as (z & Hz & _).
  rewrite (Q b Hb0) in Hz. done.
Qed.

Lemma BlockDeviceFreeAll_spec fuel st : bc_inv st -> syncing st = 0 ->
  numDirty st <= Z.of_nat (length (heap st)) -> (1 <= fuel)%nat ->
  exists st', BlockDeviceFreeAll fuel st = Ret st' /\ bc_inv st' /\ buffers st' = ∅
    /\ softBlockSize st' = softBlockSize st
    /\ forall n v, block_range st n -> holds st n v -> v = on_disk st' n.
Proof.
  intros I Sy Lh Hf. unfold BlockDeviceFreeAll.
  assert (Step : exists st1, (if c_true (numDirty st) then
      let* (_, st) := BlockSyncDevice fuel st in if c_true (numDirty st) then NoFuel else Ret st
    else Ret st) = Ret st1 /\ bc_inv st1 /\ numDirty st1 = 0 /\ syncs st st1).
  { unfold c_true. destruct (Z.eqb_spec (numDirty st) 0); cbn [negb].
    - exists st. split_and!; done || reflexivity.
    - destruct (BlockSyncDevice_spec fuel st I Sy Lh Hf) as (st1 & -> & I1 & S1 & E1 & _). cbn [bindO].
      rewrite E1. exists st1. by split_and!. }
  destruct Step as (st1 & -> & I1 & E1 & S1). cbn [bindO].
  destruct (remove_chains_spec (Z.to_nat HASH_NUM_ENTRIES) 0 st1 I1 E1) as (st' & -> & I' & (B1 & B2 & B3 & _ & B5) & Q).
  exists st'. split; [done|]. split; [done|]. split; [|split].
  - apply map_empty. intros b. destruct (buffers st' !! b) as [x|] eqn:Hx; [|done]. exfalso.
    destruct (bi_buffer st' I' b x Hx) as (_ & [Hn _] & _). pose proof (BUFFER_HASH_range _ Hn).
    apply (Q (BUFFER_HASH (blockNum x)) b); [lia|]. apply (bi_chain st' I'). eauto.
  - rewrite B2. apply S1.
  - intros n v Rg Hv. unfold on_disk. rewrite B1, B2. apply (clean_on_disk st1 n v I1 E1). by apply S1.
Qed.

(** ** The block array the cache implements *)

Inductive block_op :=
| ReadBlock (n : Z)
| WriteBlock (n : Z) (bytes : list Z)
| SyncBlocks.

(** How the file systems use the cache: a block is read into a buffer,
    looked at or changed and marked, and released. *)
Definition run_block_op (o : block_op) st : outcome (option (list Z) * sdev D) :=
  match o with
  | ReadBlock n =>
      let* (b, st) := BlockRead n st in
      if b =? 0 then Ret (None, st)
      else
        let* x := of_option (buffers st !! b) in
        let* bytes := of_option (memory st !! data x) in
        let* (_, st) := BlockFree b st in
        Ret (Some bytes, st)
  | WriteBlock n bytes =>
      let* (b, st) := BlockRead n st in
      if b =? 0 then Ret (None, st)
      else
        let* x := of_option (buffers st !! b) in
        let st := with_memory (<[data x := bytes]> (memory st)) st in
        let* (_, st) := BlockWrite b st in
        let* (_, st) := BlockFree b st in
        Ret (Some bytes, st)
  | SyncBlocks => let* (_, st) := BlockSyncDevice 1 st in Ret (None, st)
  end.

Fixpoint run_block_ops (os : list block_op) st : outcome (list (option (list Z)) * sdev D) :=
  match os with
  | [] => Ret ([], st)
  | o :: os =>
      let* (r, st) := run_block_op o st in
      let* (rs, st) := run_block_ops os st in
      Ret (r :: rs, st)
  end.

(** The specification: an array of blocks of which the driver accepts some. *)
Definition spec_block_op (ok : Z -> bool) (o : block_op) (V : Z -> list Z) : option (list Z) * (Z -> list Z) :=
  match o with
  | ReadBlock n => (if ok n then Some (V n) else None, V)
  | WriteBlock n bytes => if ok n then (Some bytes, <[n := bytes]> V) else (None, V)
  | SyncBlocks => (None, V)
  end.
Fixpoint spec_block_ops (ok : Z -> bool) (os : list block_op) (V : Z -> list Z)
  : list (option (list Z)) * (Z -> list Z) :=
  match os with
  | [] => ([], V)
  | o :: os =>
      let (r, V) := spec_block_op ok o V in
      let (rs, V) := spec_block_ops ok os V in (r :: rs, V)
  end.

Definition op_ok st (o : block_op) : Prop :=
  match o with
  | ReadBlock n => block_range st n
  | WriteBlock n bytes => block_range st n /\ Z.of_nat (length bytes) = softBlockSize st
  | SyncBlocks => True
  end.

(** The cache implements the array [V], and has room for [k] operations. *)
Record block_rep st (V : Z -> list Z) (k : nat) : Prop := {
  br_inv : bc_inv st;
  br_syncing : syncing st = 0;
  br_holds : forall n, block_range st n -> holds st n (V n);
  br_heap : 3 * Z.of_nat k + numDirty st <= Z.of_nat (length (heap st));
  br_cache : (k <= length (blockCache st))%nat;
}.

Lemma holds_fun st n u v : bc_inv st -> holds st n u -> holds st n v -> u = v.
Proof.
  intros I [(b & x & Hx & Ex & Mx)|[N ->]] [(c & y & Hy & Ey & My)|[N' ->]].
  - assert (b = c) as -> by (apply (bi_unique st I b c x y); congruence). congruence.
  - by destruct (N' b x).
  - by destruct (N c y).
  - done.
Qed.

Lemma range_same st st' n : softBlockSize st' = softBlockSize st -> block_range st' n <-> block_range st n.
Proof. intros E. unfold block_range. by rewrite E. Qed.

Lemma numDirty_nonneg st : bc_inv st -> 0 <= numDirty st.
Proof. intros I. rewrite (bi_dirty st I). lia. Qed.

(** A buffer that BlockRead returned has the contents of its block. *)
Lemma read_data st b x v : bc_inv st -> buffers st !! b = Some x -> holds st (blockNum x) v ->
  memory st !! data x = Some v.
Proof.
  intros I B Hv. destruct (bi_buffer st I b x B) as (_ & _ & _ & _ & bs & Mb & _).
  assert (bs = v) as <-; [|done]. apply (holds_fun st (blockNum x)); [done| |done]. left. eauto.
Qed.

(** A device that implements [V] with room for [k] operations, after a read
    of block [n] of which it had room for one more. *)
Lemma rep_BlockRead st V k n : block_rep st V (S k) -> block_range st n ->
  exists b st', BlockRead n st = Ret (b, st') /\ block_rep st' V k
    /\ softBlockSize st' = softBlockSize st
    /\ 3 * Z.of_nat k + 1 + numDirty st' <= Z.of_nat (length (heap st'))
    /\ if accepted st n
       then b <> 0 /\ exists x, buffers st' !! b = Some x /\ blockNum x = n /\ memory st' !! data x = Some (V n)
       else b = 0.
Proof.
  intros [I Sy Hv Hh Hc] Rg. pose proof (numDirty_nonneg st I).
  destruct (BlockRead_spec st n I Rg) as (b & st1 & E & I1 & K1 & Q); [lia..|].
  pose proof (kp_heap _ _ K1). pose proof (kp_cache _ _ K1). pose proof (kp_dirty _ _ K1).
  pose proof (kp_soft _ _ K1) as Es.
  assert (Hv1 : forall m, block_range st1 m -> holds st1 m (V m)).
  { intros m Hm. apply (range_same st st1 m Es) in Hm. by apply (kp_holds _ _ K1), Hv. }
  exists b, st1. split; [done|]. split; [|split; [done|split; [lia|]]].
  - split; [done|by rewrite (kp_syncing _ _ K1)|done|lia|lia].
  - destruct (accepted st n); [|done]. destruct Q as (x & B & <-). destruct (bi_buffer st1 I1 b x B) as (Zb & _).
    split; [done|]. exists x. split; [done|]. split; [done|].
    by apply (read_data st1 b x (V (blockNum x)) I1 B), Hv1, (range_same st).
Qed.

Lemma rep_BlockFree st V k b x : block_rep st V k -> buffers st !! b = Some x ->
  exists st', BlockFree b st = Ret (0, st') /\ block_rep st' V k /\ softBlockSize st' = softBlockSize st.
Proof.
  intros [I Sy Hv Hh Hc] B.
  destruct (BlockFree_updated st b x I B) as (y & st2 & bs & -> & U & Mb & K2 & Eh & Ec).
  exists st2. split; [done|]. split; [|apply K2]. split.
  - by apply (updated_inv _ _ _ _ _ _ I B U).
  - by rewrite (kp_syncing _ _ K2).
  - intros m Hm. apply (range_same st st2 m (kp_soft _ _ K2)) in Hm. by apply (kp_holds _ _ K2), Hv.
  - by rewrite Eh, (kp_dirty _ _ K2).
  - by rewrite Ec.
Qed.

(** New contents for a buffer that was read, marked with BlockWrite. *)
Lemma rep_BlockWrite st V k b x bytes : block_rep st V k -> buffers st !! b = Some x ->
  3 * Z.of_nat k + 1 + numDirty st <= Z.of_nat (length (heap st)) ->
  Z.of_nat (length bytes) = softBlockSize st ->
  exists y st', BlockWrite b (with_memory (<[data x := bytes]> (memory st)) st) = Ret (0, st')
    /\ block_rep st' (<[blockNum x := bytes]> V) k /\ softBlockSize st' = softBlockSize st
    /\ buffers st' !! b = Some y.
Proof.
  intros [I Sy Hv Hh Hc] B Hh1 Lb.
  destruct (BlockWrite_updated st b x bytes I B Lb) as (y & st2 & -> & U & Eh & Ey & Dn).
  pose proof (up_soft _ _ _ _ _ _ U) as Es2.
  exists y, st2. split; [done|]. split; [|split; [done|rewrite (up_buffers _ _ _ _ _ _ U); apply lookup_insert_eq]].
  split.
  - by apply (updated_inv _ _ _ _ _ _ I B U).
  - by rewrite Ey.
  - intros m Hm. apply (range_same st st2 m Es2) in Hm. destruct (decide (m = blockNum x)) as [->|Nm].
    + rewrite fn_lookup_insert. by apply (updated_holds_self _ _ _ _ _ _ U).
    + rewrite fn_lookup_insert_ne by done. by apply (updated_holds st st2 b x y bytes); auto.
  - rewrite Eh. lia.
  - by rewrite (up_cache _ _ _ _ _ _ U).
Qed.

Lemma run_read st V k n : block_rep st V (S k) -> block_range st n ->
  exists st', run_block_op (ReadBlock n) st = Ret (if accepted st n then Some (V n) else None, st')
    /\ block_rep st' V k /\ softBlockSize st' = softBlockSize st.
Proof.
  intros R Rg. destruct (rep_BlockRead st V k n R Rg) as (b & st1 & E & R1 & Es & _ & Q).
  unfold run_block_op. rewrite E. cbn [bindO]. destruct (accepted st n).
  - destruct Q as (Zb & x & B & <- & M). destruct (Z.eqb_spec b 0); [done|]. rewrite B. cbn [of_option bindO].
    rewrite M. cbn [of_option bindO]. destruct (rep_BlockFree st1 V k b x R1 B) as (st2 & -> & R2 & E2).
    cbn [bindO]. exists st2. split; [done|]. split; [done|congruence].
  - subst b. exists st1. by split_and!.
Qed.

Lemma run_write st V k n bytes : block_rep st V (S k) -> block_range st n ->
  Z.of_nat (length bytes) = softBlockSize st ->
  exists st', run_block_op (WriteBlock n bytes) st = Ret (if accepted st n then Some bytes else None, st')
    /\ block_rep st' (if accepted st n then <[n := bytes]> V else V) k
    /\ softBlockSize st' = softBlockSize st.
Proof.
  intros R Rg Lb. destruct (rep_BlockRead st V k n R Rg) as (b & st1 & E & R1 & Es & Hh & Q).
  unfold run_block_op. rewrite E. cbn [bindO]. destruct (accepted st n).
  - destruct Q as (Zb & x & B & <- & M). destruct (Z.eqb_spec b 0); [done|]. rewrite B. cbn [of_option bindO].
    destruct (rep_BlockWrite st1 V k b x bytes R1 B Hh) as (y & st2 & -> & R2 & E2 & B2); [congruence|]. cbn [bindO].
    destruct (rep_BlockFree st2 _ k b y R2 B2) as (st3 & -> & R3 & E3). cbn [bindO].
    exists st3. split; [done|]. split; [done|congruence].
  - subst b. exists st1. by split_and!.
Qed.

Lemma run_sync st V k : block_rep st V (S k) ->
  exists st', run_block_op SyncBlocks st = Ret (None, st') /\ block_rep st' V k
    /\ softBlockSize st' = softBlockSize st.
Proof.
  intros [I Sy Hv Hh Hc]. pose proof (numDirty_nonneg st I). unfold run_block_op.
  destruct (BlockSyncDevice_spec 1 st I Sy) as (st1 & -> & I1 & S1 & E1 & Y1); [lia..|]. cbn [bindO].
  exists st1. split; [done|]. split; [|apply S1]. split; [done|done| | |].
  - intros m Hm. apply (range_same st st1 m (sy_soft _ _ S1)) in Hm. by apply S1, Hv.
  - pose proof (sy_heap _ _ S1). lia.
  - rewrite (sy_cache _ _ S1). lia.
Qed.

Lemma run_block_op_spec st V k o : block_rep st V (S k) -> op_ok st o ->
  let (r, V') := spec_block_op (accepted st) o V in
  exists st', run_block_op o st = Ret (r, st') /\ block_rep st' V' k /\ softBlockSize st' = softBlockSize st.
Proof.
  intros R Ho. destruct o as [n|n bytes|]; cbn [spec_block_op].
  - by apply run_read.
  - destruct Ho as [Rg Lb]. pose proof (run_write st V k n bytes R Rg Lb) as W. by destruct (accepted st n).
  - by apply run_sync.
Qed.

Lemma accepted_same st st' n : softBlockSize st' = softBlockSize st -> accepted st' n = accepted st n.
Proof. intros E. unfold accepted. by rewrite E. Qed.

Lemma spec_ops_ext f g os V : (forall n, f n = g n) -> spec_block_ops f os V = spec_block_ops g os V.
Proof.
  intros E. revert V. induction os as [|o os IH]; intros V; [done|]. cbn [spec_block_ops].
  assert (spec_block_op f o V = spec_block_op g o V) as -> by (destruct o; cbn; by rewrite ?E).
  destruct (spec_block_op g o V). by rewrite IH.
Qed.

Lemma op_ok_same st st' o : softBlockSize st' = softBlockSize st -> op_ok st o -> op_ok st' o.
Proof. intros E. destruct o; cbn; unfold block_range; by rewrite ?E. Qed.

Lemma run_block_ops_spec os : forall st V, block_rep st V (length os) -> Forall (op_ok st) os ->
  let (rs, V') := spec_block_ops (accepted st) os V in
  exists st', run_block_ops os st = Ret (rs, st') /\ block_rep st' V' 0 /\ softBlockSize st' = softBlockSize st.
Proof.
  induction os as [|o os IH]; intros st V R F; [by exists st|].
  apply Forall_cons in F as [Ho F]. cbn [spec_block_ops run_block_ops].
  pose proof (run_block_op_spec st V (length os) o R Ho) as W.
  destruct (spec_block_op (accepted st) o V) as [r V1]. destruct W as (st1 & -> & R1 & E1). cbn [bindO].
  pose proof (IH st1 V1 R1) as W.
  rewrite (spec_ops_ext (accepted st1) (accepted st)) in W by (intros; by apply accepted_same).
  destruct (spec_block_ops (accepted st) os V1) as [rs V2].
  destruct W as (st' & -> & R' & E'); [eapply Forall_impl; [exact F|]; intros; by eapply op_ok_same|].
  exists st'. split; [done|]. split; [done|]. congruence.
Qed.

Lemma rep_length st V k n : block_rep st V k -> block_range st n ->
  Z.of_nat (length (V n)) = softBlockSize st.
Proof.
  intros R Rg. pose proof (br_inv _ _ _ R) as I. pose proof (bi_sizes st I) as (_ & Hs & _).
  destruct (br_holds _ _ _ R n Rg) as [(b & x & B & En & M)|[_ ->]].
  - destruct (bi_buffer st I b x B) as (_ & _ & _ & _ & bs & Mb & L & _). congruence.
  - apply disk_read_length. lia.
Qed.

Lemma rep_weaken st V k j : block_rep st V k -> (j <= k)%nat -> block_rep st V j.
Proof. intros [I Sy Hv Hh Hc] L. split; try done; lia. Qed.

(** A device as StorageDeviceAdd leaves it. *)
Lemma fresh_rep st k : sizes_ok st -> drv_ok (drv st) -> requestList st = [] ->
  (forall h, hashLists st h = []) -> buffers st = ∅ -> memory st = ∅ -> numDirty st = 0 -> syncing st = 0 ->
  NoDup (blockCache st) -> Forall (fun b => b <> 0) (blockCache st) ->
  NoDup (heap st) -> Forall (fun d => d <> 0) (heap st) ->
  (k <= length (blockCache st))%nat -> Z.of_nat (length (blockCache st)) < 2 ^ 31 ->
  3 * Z.of_nat k <= Z.of_nat (length (heap st)) -> block_rep st (on_disk st) k.
Proof.
  intros Hs Hd Q Hh EB EM En Ey Nb Zb Nh Zh Lb Bb Lh. rewrite Forall_forall in Zb, Zh.
  split; [split| | | |]; rewrite ?EB, ?EM; try done.
  - intros h. rewrite Hh. split; [constructor|]. intros b. split.
    + intros Hb. by apply not_elem_of_nil in Hb.
    + intros (x & Hx & _). done.
  - split; [done|]. intros b Hb. by split; [apply Zb|].
  - split; [done|]. intros d Hb. by split; [apply Zh|].
  - intros n _. right. by rewrite EB.
  - lia.
Qed.

(** ** Properties *)

(** C2: The block cache implements an array of blocks.  For blocks whose bytes
    end below 2^31 on the device (the offset of a block is an int), any sequence
    of reads, writes and synchronisations, while there is memory for the buffers,
    returns what the array returns, NULL
    exactly for those of these blocks the device does not accept, and leaves a
    cache that holds the final array, whatever is cached, dirty or on the disk in
    between, for every driver that serves requests as the interface says. *)
Theorem block_cache_refines st V os : block_rep st V (length os) -> Forall (op_ok st) os ->
  let (rs, V') := spec_block_ops (accepted st) os V in
  exists st', run_block_ops os st = Ret (rs, st') /\ bc_inv st'
    /\ forall n, block_range st n -> holds st' n (V' n).
Proof.
  intros R F. pose proof (run_block_ops_spec os st V R F) as W.
  destruct (spec_block_ops (accepted st) os V) as [rs V']. destruct W as (st' & E & R' & Es).
  exists st'. split; [done|]. split; [apply R'|]. intros n Rg. apply R'. by apply (range_same st).
Qed.

(** BlockSyncDevice ends after one pass over the chains and makes the
    disk agree with the cache: afterwards no buffer is dirty, every block
    has the contents it had, and those are on the disk. *)
Theorem BlockSyncDevice_flushes fuel st : bc_inv st -> syncing st = 0 ->
  numDirty st <= Z.of_nat (length (heap st)) -> (1 <= fuel)%nat ->
  exists st', BlockSyncDevice fuel st = Ret (0, st') /\ bc_inv st' /\ numDirty st' = 0
    /\ forall n v, block_range st n -> holds st n v -> holds st' n v /\ on_disk st' n = v.
Proof.
  intros I Sy Lh Hf. destruct (BlockSyncDevice_spec fuel st I Sy Lh Hf) as (st' & E & I' & S' & D' & _).
  exists st'. split; [done|]. split; [done|]. split; [done|]. intros n v Rg Hv.
  pose proof (sy_holds _ _ S' n v Rg Hv) as Hv'. split; [done|]. symmetry. by apply clean_on_disk.
Qed.

(** BlockSetSize accepts exactly the powers of two that are no smaller
    than a sector, and refuses others with -EINVAL and no change; a new size
    takes effect only after every block is on the disk and the cache is
    empty. *)
Theorem BlockSetSize_flushes fuel st size : bc_inv st -> syncing st = 0 ->
  numDirty st <= Z.of_nat (length (heap st)) -> (1 <= fuel)%nat -> 0 <= size < 2 ^ 32 ->
  let ok := (exists k, 0 <= k /\ size = 2 ^ k) /\ blockSize st <= size in
  (ok -> exists st', BlockSetSize fuel size st = Ret (0, st') /\ softBlockSize st' = size
      /\ (size = softBlockSize st -> st' = st)
      /\ (size <> softBlockSize st -> buffers st' = ∅ /\ numDirty st' = 0
          /\ forall n v, block_range st n -> holds st n v ->
               disk_read (disk (drv st')) (n * softBlockSize st) (softBlockSize st) = v))
  /\ (~ ok -> BlockSetSize fuel size st = Ret (- EINVAL, st)).
Proof.
  intros I Sy Lh Hf Hs ok. unfold BlockSetSize.
  destruct (Z.eqb_spec size 0) as [->|Nz].
  { split; [|done]. intros [(k & Hk & E) _]. pose proof (Z.pow_pos_nonneg 2 k). lia. }
  rewrite u32_id by lia. unfold c_true. destruct (Z.eqb_spec (Z.land size (size - 1)) 0) as [E|E]; cbn [negb].
  - apply land_pred_pow2 in E; [|lia]. destruct (Z.ltb_spec size (blockSize st)).
    { split; [|done]. intros [_ ?]. lia. }
    split; [|intros N; destruct N; by split]. intros _.
    destruct (Z.eqb_spec (softBlockSize st) size) as [Es|Es]; [exists st; by split_and!|].
    destruct (BlockDeviceFreeAll_spec fuel st I Sy Lh Hf) as (st' & -> & I' & EB & Eo & Hd). cbn [bindO].
    eexists. split; [reflexivity|]. split; [done|]. split; [intros; congruence|]. intros _. split; [done|].
    split; [cbn; by rewrite (bi_dirty st' I'), EB|]. intros n v Rg Hv. rewrite (Hd n v Rg Hv).
    unfold on_disk. by rewrite Eo.
  - split; [|done]. intros [(k & Hk & E') _]. destruct E. apply land_pred_pow2; [lia|eauto].
Qed.

End Cache.
