(* ===== verification/RamDisk.v ===== *)
(** * The RAM disk (devices/storage/ramdisk.c) under the block cache

    RamDiskRequest serves the request at the head of the device's queue by
    copying between the buffer and the pages of the disk, which are mapped
    at the first request.  It discharges the driver interface of BCache, so
    that the theorems about the block cache hold for it; the examples run
    the cache on it. *)

From stdpp Require Import functions.
From S2P Require Import Prelude BCache.

(** ** Model *)

Definition RAMDISK_SIZE : Z := 4 * 1024 * 1024.
Definition RAMDISK_SSIZE : Z := 1024.

(** disk->data: the bytes of the disk once its pages are mapped. *)
Record RamDisk := { rd_data : option (Z -> Z) }.

Section Driver.
(** The contents of the pages VirtMapPhysRange maps for the disk, [None]
    when it returns 0. *)
Context (mapping : option (Z -> Z)).
Implicit Types st : sdev RamDisk.

(** The copy between the disk and the block of the request. *)
Definition rd_copy (rq : Request) (f : Z -> Z) (memOffset reqSize : Z) st : outcome (sdev RamDisk) :=
  if (type rq =? REQUEST_WRITE) || (type rq =? REQUEST_READ) then
    let* block := of_option (memory st !! rdata rq) in
    if (memOffset <? 0) || (Z.of_nat (length block) <? reqSize) then Fault
    else if type rq =? REQUEST_WRITE
    then Ret (with_drv {| rd_data := Some (disk_write f memOffset (take (Z.to_nat reqSize) block)) |} st)
    else Ret (with_memory (<[rdata rq := disk_read f memOffset reqSize ++ drop (Z.to_nat reqSize) block]>
                             (memory st)) st)
  else Ret st.

Definition RamDiskRequest st : outcome (Z * sdev RamDisk) :=
  let* rq := of_option (requests st !! StorageGetCurrRequest st) in
  let reqSize := s32 (numSectors rq * RAMDISK_SSIZE) in
  let memOffset := s32 (u32 (sector rq * RAMDISK_SSIZE)) in
  match (match rd_data (drv st) with Some f => Some f | None => mapping end) with
  | None =>
      let* st := StorageEndRequest ENOMEM st in Ret (- ENOMEM, st)
  | Some f =>
      let st := with_drv {| rd_data := Some f |} st in
      if RAMDISK_SIZE - reqSize <=? memOffset then
        let* st := StorageEndRequest EIO st in Ret (- EIO, st)
      else
        let* st := rd_copy rq f memOffset reqSize st in
        let* st := StorageEndRequest 0 st in Ret (0, st)
  end.

#[local] Instance ramdisk_driver : StorageDriver RamDisk := RamDiskRequest.

(** ** The driver's promise *)

Definition rd_bytes (d : RamDisk) : option (Z -> Z) :=
  match rd_data d with Some f => Some f | None => mapping end.
Definition rd_disk (d : RamDisk) : Z -> Z := default (fun _ => 0) (rd_bytes d).

#[local] Program Instance ramdisk_laws : StorageDriverLaws RamDisk := {|
  drv_ok d := is_Some (rd_bytes d);
  drv_sector := RAMDISK_SSIZE;
  disk := rd_disk;
  drv_accepts off len := off <? RAMDISK_SIZE - len;
|}.
Next Obligation. done. Qed.
Next Obligation.
  intros st r rq bytes Hd Q R M off len Hl Ho Hp Hr. unfold rd_disk.
  unfold request, ramdisk_driver, RamDiskRequest, StorageGetCurrRequest. rewrite Q, R. cbn [of_option bindO].
  fold off len. fold (rd_bytes (drv st)). destruct (rd_bytes (drv st)) as [f|] eqn:Ef; [|destruct Hd as [? Hd]; congruence].
  rewrite (s32_id len) by lia. rewrite s32_u32 by lia.
  exists (if (type rq =? REQUEST_WRITE) && (off <? RAMDISK_SIZE - len)
          then {| rd_data := Some (disk_write f off bytes) |} else {| rd_data := Some f |}).
  split; [by destruct (_ && _)|]. unfold rd_copy. rewrite Z.leb_antisym.
  split; intros ->; cbn [Z.eqb REQUEST_READ REQUEST_WRITE Pos.eqb andb orb default rd_bytes rd_data];
    (split; [intros a; by destruct (off <? RAMDISK_SIZE - len)|]);
    destruct (off <? RAMDISK_SIZE - len); cbn [negb]; try reflexivity.
  - cbn [memory with_drv]. rewrite M. cbn [of_option bindO].
    destruct (Z.ltb_spec off 0); [lia|]. destruct (Z.ltb_spec (Z.of_nat (length bytes)) len); [lia|].
    cbn [orb]. rewrite drop_ge, app_nil_r by lia. reflexivity.
  - cbn [memory with_drv]. rewrite M. cbn [of_option bindO].
    destruct (Z.ltb_spec off 0); [lia|]. destruct (Z.ltb_spec (Z.of_nat (length bytes)) len); [lia|].
    cbn [orb bindO]. rewrite take_ge by lia. reflexivity.
Qed.
End Driver.

(** ** The cache on a RAM disk *)

(** A disk whose pages hold the byte 7, with nothing cached. *)
Definition demo_mapping : option (Z -> Z) := Some (fun _ => 7).
Definition demo_device : sdev RamDisk :=
  StorageQueueInit (BlockCreateHashTable
    {| blockSize := 1024; softBlockSize := 1024; hashLists := fun _ => []; requestList := [];
       numDirty := 0; syncing := 0; buffers := ∅; requests := ∅; memory := ∅;
       blockCache := Z.of_nat <$> seq 100 10; heap := Z.of_nat <$> seq 200 30;
       drv := {| rd_data := None |} |}).

#[local] Instance demo_driver : StorageDriver RamDisk := ramdisk_driver demo_mapping.
#[local] Instance demo_laws : StorageDriverLaws RamDisk := ramdisk_laws demo_mapping.

Lemma demo_rep k : (k <= 10)%nat -> block_rep demo_device (on_disk demo_device) k.
Proof.
  intros Hk. apply fresh_rep; try done; try (vm_compute; lia).
  - eexists. reflexivity.
  - apply NoDup_fmap_2; [apply _|apply NoDup_seq].
  - apply Forall_forall. intros b Hb. apply list_elem_of_fmap in Hb as (i & -> & Hi). apply elem_of_seq in Hi. lia.
  - apply NoDup_fmap_2; [apply _|apply NoDup_seq].
  - apply Forall_forall. intros b Hb. apply list_elem_of_fmap in Hb as (i & -> & Hi). apply elem_of_seq in Hi. lia.
  - change (3 * Z.of_nat k <= 30). lia.
Qed.

Definition demo_ops : list block_op :=
  [WriteBlock 3 (replicate 1024 5); ReadBlock 3; SyncBlocks; ReadBlock 4; ReadBlock 4095].

(** What is written is read back, before and after it reaches the disk. *)
Lemma block_cache_refines_witness : exists st',
  run_block_ops demo_ops demo_device
    = Ret ([Some (replicate 1024 5); Some (replicate 1024 5); None; Some (replicate 1024 7); None], st')
  /\ holds st' 3 (replicate 1024 5).
Proof.
  pose proof (block_cache_refines demo_device (on_disk demo_device) demo_ops
    (demo_rep 5 ltac:(lia))) as W.
  destruct W as (st' & E & _ & Q).
  { repeat constructor; vm_compute; intuition congruence. }
  exists st'. split; [exact E|]. apply (Q 3). vm_compute. intuition congruence.
Defined.

(** A device with block 3 changed in the cache only. *)
Lemma demo_dirty : exists st, run_block_ops [WriteBlock 3 (replicate 1024 5)] demo_device
    = Ret ([Some (replicate 1024 5)], st) /\ block_rep st (<[3 := replicate 1024 5]> (on_disk demo_device)) 0
  /\ softBlockSize st = 1024 /\ numDirty st = 1 /\ length (heap st) = 28%nat /\ blockSize st = 1024.
Proof.
  pose proof (run_block_ops_spec [WriteBlock 3 (replicate 1024 5)] demo_device (on_disk demo_device)
    (demo_rep 1 ltac:(lia))) as W.
  destruct W as (st & E & R & Es); [repeat constructor; vm_compute; intuition congruence|].
  exists st. split; [exact E|]. split; [exact R|]. split; [exact Es|].
  assert (Q : match run_block_ops [WriteBlock 3 (replicate 1024 5)] demo_device with
    | Ret (_, st) => numDirty st = 1 /\ length (heap st) = 28%nat /\ blockSize st = 1024 | _ => False end)
    by (vm_compute; repeat split).
  rewrite E in Q. exact Q.
Qed.

(** The changed block reaches the disk. *)
Lemma BlockSyncDevice_flushes_witness : exists st st', numDirty st = 1
  /\ BlockSyncDevice 1 st = Ret (0, st') /\ on_disk st' 3 = replicate 1024 5.
Proof.
  destruct demo_dirty as (st & _ & R & Es & Dn & Lh & _). exists st.
  destruct (BlockSyncDevice_flushes 1 st) as (st' & E & _ & _ & Q);
    [apply R|apply R|rewrite Dn, Lh; done|lia|].
  exists st'. split; [exact Dn|]. split; [exact E|]. apply (Q 3).
  - unfold block_range. rewrite Es. lia.
  - apply (br_holds st _ _ R 3). unfold block_range. rewrite Es. lia.
Defined.

Lemma BlockSetSize_flushes_witness : exists st st', numDirty st = 1
  /\ BlockSetSize 1 2048 st = Ret (0, st') /\ softBlockSize st' = 2048 /\ buffers st' = ∅.
Proof.
  destruct demo_dirty as (st & _ & R & Es & Dn & Lh & Eb). exists st.
  destruct (BlockSetSize_flushes 1 st 2048) as [Q _];
    [apply R|apply R|rewrite Dn, Lh; done|lia|lia|].
  destruct Q as (st' & E & E1 & _ & E2); [split; [exists 11; done|rewrite Eb; lia]|].
  exists st'. split; [exact Dn|]. split; [exact E|]. split; [exact E1|]. apply E2. rewrite Es. lia.
Defined.

(** The last block of the disk cannot be read: RamDiskRequest takes a
    request that ends exactly at the end of the disk for one past it. *)
Theorem RamDisk_refuses_last_block st n : bc_inv st -> block_range st n ->
  (1 <= length (blockCache st))%nat -> (2 <= length (heap st))%nat ->
  n * softBlockSize st + softBlockSize st = RAMDISK_SIZE ->
  exists st', BlockRead n st = Ret (0, st').
Proof.
  intros I Rg Lc Lh E. destruct (BlockRead_spec st n I Rg Lc Lh) as (b & st' & Er & _ & _ & Q).
  assert (accepted st n = false) as Ea.
  { unfold accepted. cbn. apply Z.ltb_ge. lia. }
  rewrite Ea in Q. subst b. eauto.
Qed.
