(* ===== verification/FileIO.v ===== *)
(** * Reading and writing files through the block map
      (FileGenericRead, FileGenericWrite of fs/vfs/file.c, IsoBlockMap of
      fs/isofs/dir.c)

    A file of a disk file system is a list of blocks of the device, which
    the file system's blockMap function gives one by one.  The generic
    routines of the VFS move bytes between a buffer of the caller and those
    blocks through the block cache of BCache.  [content] is the sequence of
    bytes in the blocks of a file; a read returns a part of it and a write
    replaces a part of it.

    blockMap is the interface [BlockMap] with the laws [BlockMapLaws]; the
    block map of ISO 9660 is an instance. *)

From stdpp Require Import functions.
From S2P Require Import Prelude BCache RamDisk.

(** ** Model *)

Definition VFS_MAP_CREATE : Z := 1.
Definition VNODE_DIRTY : Z := 0.

(** vNodeOps->blockMap; [F] is what the file system keeps for a vNode. *)
Class BlockMap (F D : Type) := blockMap : Z -> Z -> F -> sdev D -> outcome (Z * F * sdev D).

Definition VFS_ATTR_FILE : Z := 1.
Definition VFS_ATTR_DIR : Z := 2.
Definition VFS_ATTR_WRITE : Z := 8.

(** An open file: file->position, and of its vNode the size, flags, mode,
    times (in seconds) and the file system's private data. *)
Record vfile (F : Type) := {
  position : Z;
  vsize : Z;
  vflags : Z;
  mode : Z;
  aTime : Z;
  cTime : Z;
  mTime : Z;
  fs : F;
}.
Arguments position {F} _.
Arguments vsize {F} _.
Arguments vflags {F} _.
Arguments mode {F} _.
Arguments aTime {F} _.
Arguments cTime {F} _.
Arguments mTime {F} _.
Arguments fs {F} _.

Section Setters.
Context {F : Type}.
Implicit Type f : vfile F.
Definition with_position (p : Z) f : vfile F :=
  {| position := p; vsize := vsize f; vflags := vflags f; mode := mode f;
     aTime := aTime f; cTime := cTime f; mTime := mTime f; fs := fs f |}.
Definition with_size (n : Z) f : vfile F :=
  {| position := position f; vsize := n; vflags := vflags f; mode := mode f;
     aTime := aTime f; cTime := cTime f; mTime := mTime f; fs := fs f |}.
Definition with_fs (x : F) f : vfile F :=
  {| position := position f; vsize := vsize f; vflags := vflags f; mode := mode f;
     aTime := aTime f; cTime := cTime f; mTime := mTime f; fs := x |}.
Definition with_times (a c m : Z) f : vfile F :=
  {| position := position f; vsize := vsize f; vflags := vflags f; mode := mode f;
     aTime := a; cTime := c; mTime := m; fs := fs f |}.
(** The flag SetVNodeDirty sets. *)
Definition SetVNodeDirty f : vfile F :=
  {| position := position f; vsize := vsize f; vflags := Z.setbit (vflags f) VNODE_DIRTY; mode := mode f;
     aTime := aTime f; cTime := cTime f; mTime := mTime f; fs := fs f |}.
End Setters.

(** memcpy from and into the data of a buffer; outside of it the access
    faults. *)
Definition copy_from (block : list Z) (off n : Z) : outcome (list Z) :=
  if off + n <=? Z.of_nat (length block) then Ret (take (Z.to_nat n) (drop (Z.to_nat off) block)) else Fault.
Definition copy_to (block : list Z) (off : Z) (bytes : list Z) : outcome (list Z) :=
  if off + Z.of_nat (length bytes) <=? Z.of_nat (length block)
  then Ret (take (Z.to_nat off) block ++ bytes ++ drop (Z.to_nat off + length bytes) block) else Fault.

Section Model.
Context {F D : Type} `{StorageDriver D} `{BlockMap F D}.
Implicit Types (f : vfile F) (st : sdev D).

(** The part of an iteration that deals with the buffer: bytes of a block
    are copied out ... *)
Definition read_block (block off n : Z) st : outcome (option (list Z) * sdev D) :=
  let* (buff, st) := BlockRead block st in
  if buff =? 0 then Ret (None, st)
  else
    let* b := of_option (buffers st !! buff) in
    let* bytes := of_option (memory st !! data b) in
    let* bytes := copy_from bytes off n in
    Ret (Some bytes, st).

(** ... or copied into it, and the buffer is marked and released. *)
Definition write_block (block off : Z) (bytes : list Z) st : outcome (bool * sdev D) :=
  let* (buff, st) := BlockRead block st in
  if buff =? 0 then Ret (false, st)
  else
    let* b := of_option (buffers st !! buff) in
    let* old := of_option (memory st !! data b) in
    let* new := copy_to old off bytes in
    let* (_, st) := BlockWrite buff (with_memory (<[data b := new]> (memory st)) st) in
    let* (_, st) := BlockFree buff st in
    Ret (true, st).

(** The loop of FileGenericRead; [out] are the bytes copied so far. *)
Fixpoint read_loop (fuel : nat) (size : Z) (out : list Z) f st : outcome (Z * list Z * vfile F * sdev D) :=
  match fuel with
  | O => NoFuel
  | S fuel =>
      if 0 <? size then
        let bytesPerSec := softBlockSize st in
        let readOffset := position f mod bytesPerSec in
        let readSize := if bytesPerSec - readOffset <? size then bytesPerSec - readOffset else size in
        let* (res, x, st) := blockMap (position f / bytesPerSec) 0 (fs f) st in
        let f := with_fs x f in
        if res =? -1 then Ret (- EIO, out, f, st)
        else
          let* (r, st) := read_block (u32 res) readOffset readSize st in
          match r with
          | None => Ret (- EIO, out, f, st)
          | Some bytes =>
              read_loop fuel (size - readSize) (out ++ bytes)
                (with_position (u32 (position f + readSize)) f) st
          end
      else Ret (Z.of_nat (length out), out, f, st)
  end.

(** The return value, the bytes put into the buffer, the file and the
    device. *)
Definition FileGenericRead (fuel : nat) (size : Z) f st : outcome (Z * list Z * vfile F * sdev D) :=
  let size := if u64 (vsize f - position f) <? size then u32 (vsize f - position f) else size in
  if vsize f <=? position f then Ret (0, [], f, st)
  else read_loop fuel size [] f st.

Fixpoint write_loop (fuel : nat) (buffer : list Z) (copied : Z) f st : outcome (Z * vfile F * sdev D) :=
  match fuel with
  | O => NoFuel
  | S fuel =>
      let size := Z.of_nat (length buffer) in
      if 0 <? size then
        let bytesPerSec := softBlockSize st in
        let* (res, x, st) := blockMap (position f / bytesPerSec) VFS_MAP_CREATE (fs f) st in
        let f := with_fs x f in
        if res <? 0 then Ret (- EIO, f, st)
        else
          let writeOffset := position f mod bytesPerSec in
          let writeSize := if bytesPerSec - writeOffset <? size then bytesPerSec - writeOffset else size in
          let* (ok, st) := write_block res writeOffset (take (Z.to_nat writeSize) buffer) st in
          if negb ok then Ret (- EIO, f, st)
          else
            let f := with_position (u32 (position f + writeSize)) f in
            let f := if vsize f <? position f then with_size (position f) f else f in
            write_loop fuel (drop (Z.to_nat writeSize) buffer) (copied + writeSize) f st
      else Ret (copied, SetVNodeDirty f, st)
  end.

Definition FileGenericWrite (fuel : nat) (buffer : list Z) f st : outcome (Z * vfile F * sdev D) :=
  write_loop fuel buffer 0 f st.

(** *** The calls on an open file *)

(** [now] is currTime.seconds. *)
Definition VfsFileAccessed (now : Z) f : vfile F :=
  if negb (c_true (Z.land (mode f) VFS_ATTR_WRITE)) then f
  else if aTime f <? now then SetVNodeDirty (with_times now (cTime f) (mTime f) f)
  else f.

Definition VfsFileModified (now : Z) (create : bool) f : vfile F :=
  if negb (c_true (Z.land (mode f) VFS_ATTR_WRITE)) then f
  else
    let f := if create then with_times (aTime f) now (mTime f) f else f in
    if (mTime f <? now) || create then SetVNodeDirty (with_times (aTime f) (cTime f) now f)
    else f.

(** [read] and [write] are the functions of file->fileOps, [None] for a NULL
    pointer; [rdonly] is the flag SB_RDONLY of the superblock. *)
Definition DoReadFile (read : option (Z -> vfile F -> sdev D -> outcome (Z * list Z * vfile F * sdev D)))
    (now size : Z) f st : outcome (Z * list Z * vfile F * sdev D) :=
  if size =? 0 then Ret (0, [], f, st)
  else if negb (c_true (Z.land (mode f) VFS_ATTR_FILE)) then Ret (- EINVAL, [], f, st)
  else match read with
       | Some read =>
           let* (err, out, f, st) := read size f st in
           Ret (err, out, VfsFileAccessed now f, st)
       | None => Ret (- ENOTIMPL, [], f, st)
       end.

Definition DoWriteFile (write : option (list Z -> vfile F -> sdev D -> outcome (Z * vfile F * sdev D)))
    (now : Z) (rdonly : bool) (buffer : list Z) f st : outcome (Z * vfile F * sdev D) :=
  if Z.of_nat (length buffer) =? 0 then Ret (0, f, st)
  else if negb (c_true (Z.land (mode f) VFS_ATTR_WRITE)) then Ret (- EPERM, f, st)
  else if c_true (Z.land (mode f) VFS_ATTR_DIR) then Ret (- EISDIR, f, st)
  else if rdonly then Ret (- EROFS, f, st)
  else match write with
       | Some write =>
           let* (err, f, st) := write buffer f st in
           Ret (err, VfsFileModified now false (VfsFileAccessed now f), st)
       | None => Ret (- ENOTIMPL, f, st)
       end.

(** For files without a seek function of their own. *)
Definition DoSeekFile (distance whence : Z) f : Z * vfile F :=
  let seek temp := if temp <? 0 then (- EINVAL, f) else (s32 (u32 temp), with_position (u32 temp) f) in
  if whence =? 0 then seek distance
  else if whence =? 1 then seek (s32 (position f + distance))
  else if whence =? 2 then seek (s32 (vsize f - distance))
  else (- EINVAL, f).
End Model.

(** ** The interface of a block map *)

(** What a file system promises for a vNode: [bm_blocks] are the blocks of
    the file, in order, and [bm_rep] relates the vNode to the blocks of the
    device.  A call takes at most [bm_cost] operations of the block cache.
    Without VFS_MAP_CREATE an existing block is looked up; with it, missing
    blocks are added behind the existing ones, filled with zeros, and a
    negative result says that there is no room. *)
Class BlockMapLaws (F D : Type) `{SL : StorageDriverLaws D} `{BM : BlockMap F D} := {
  bm_blocks : F -> list Z;
  bm_rep : F -> Z -> (Z -> list Z) -> Prop;
  bm_cost : nat;
  bm_ok : forall x bs V, bm_rep x bs V -> NoDup (bm_blocks x)
    /\ forall b, b ∈ bm_blocks x -> 0 <= b /\ b * bs + bs < 2 ^ 31 /\ drv_accepts (b * bs) bs = true;
  bm_data : forall x bs V b bytes, bm_rep x bs V -> b ∈ bm_blocks x -> bm_rep x bs (<[b := bytes]> V);
  bm_lookup : forall x (st : sdev D) V k o b,
    block_rep st V (bm_cost + k) -> bm_rep x (softBlockSize st) V -> 0 <= o ->
    bm_blocks x !! Z.to_nat o = Some b ->
    exists st', blockMap o 0 x st = Ret (b, x, st') /\ block_rep st' V k
      /\ softBlockSize st' = softBlockSize st;
  bm_create : forall x (st : sdev D) V k o,
    block_rep st V (bm_cost + k) -> bm_rep x (softBlockSize st) V -> 0 <= o < 2 ^ 32 ->
    exists res x' st' V' new, blockMap o VFS_MAP_CREATE x st = Ret (res, x', st')
      /\ block_rep st' V' k /\ softBlockSize st' = softBlockSize st
      /\ bm_rep x' (softBlockSize st) V' /\ bm_blocks x' = bm_blocks x ++ new
      /\ (forall b, b ∈ bm_blocks x -> V' b = V b)
      /\ (forall b, b ∈ new -> V' b = replicate (Z.to_nat (softBlockSize st)) 0)
      /\ (0 <= res -> bm_blocks x' !! Z.to_nat o = Some res);
}.

(** ** The bytes of a list of blocks *)

Definition bytes_of (V : Z -> list Z) (bl : list Z) : list Z := mjoin (V <$> bl).

Lemma bytes_cons V b bl : bytes_of V (b :: bl) = V b ++ bytes_of V bl.
Proof. done. Qed.

Section Bytes.
Context (V : Z -> list Z) (n : nat).

Lemma bytes_length bl : (forall b, b ∈ bl -> length (V b) = n) -> length (bytes_of V bl) = (length bl * n)%nat.
Proof.
  induction bl as [|b bl IH]; intros L; [done|]. rewrite bytes_cons, length_app, IH, L.
  - done.
  - constructor.
  - intros c Hc. apply L. by constructor.
Qed.

Lemma bytes_lookup bl q r : (forall b, b ∈ bl -> length (V b) = n) -> (r < n)%nat ->
  bytes_of V bl !! (q * n + r)%nat = b ← bl !! q; V b !! r.
Proof.
  intros L Hr. revert q. induction bl as [|b bl IH]; intros q; [done|].
  assert (Lb : length (V b) = n) by (apply L; constructor). rewrite bytes_cons.
  destruct q as [|q]; cbn [Nat.mul Nat.add lookup list_lookup mbind option_bind].
  - by rewrite lookup_app_l by lia.
  - rewrite lookup_app_r by lia. rewrite Lb. replace (n + q * n + r - n)%nat with (q * n + r)%nat by lia.
    apply IH. intros c Hc. apply L. by constructor.
Qed.

Lemma bytes_index bl i : (forall b, b ∈ bl -> length (V b) = n) -> (0 < n)%nat ->
  bytes_of V bl !! i = b ← bl !! (i / n)%nat; V b !! (i mod n)%nat.
Proof.
  intros L Hn. pose proof (Nat.div_mod i n ltac:(lia)) as Di.
  pose proof (Nat.mod_upper_bound i n ltac:(lia)) as Dm.
  rewrite <- (bytes_lookup bl) by done. f_equal. lia.
Qed.
End Bytes.

Lemma bytes_app V l1 l2 : bytes_of V (l1 ++ l2) = bytes_of V l1 ++ bytes_of V l2.
Proof. unfold bytes_of. by rewrite fmap_app, join_app. Qed.

Lemma bytes_ext V W bl : (forall b, b ∈ bl -> V b = W b) -> bytes_of V bl = bytes_of W bl.
Proof.
  intros E. unfold bytes_of. f_equal. apply list_fmap_ext. intros i b Hb. apply E. by eapply list_elem_of_lookup_2.
Qed.

(** The part of the bytes that lies in one block. *)
Lemma bytes_slice V n bl q b r w : (forall b, b ∈ bl -> length (V b) = n) -> bl !! q = Some b -> (r + w <= n)%nat ->
  take w (drop (q * n + r) (bytes_of V bl)) = take w (drop r (V b)).
Proof.
  intros L Hq Hw. apply list_eq. intros i. destruct (decide (i < w)%nat) as [Hi|Hi].
  - rewrite !lookup_take_lt, !lookup_drop by done.
    replace (q * n + r + i)%nat with (q * n + (r + i))%nat by lia.
    rewrite (bytes_lookup V n) by (done || lia). by rewrite Hq.
  - by rewrite !lookup_take_ge by lia.
Qed.

(** Blocks a range of bytes touches. *)
Definition nblocks (bs pos size : Z) : nat :=
  if size =? 0 then 0 else Z.to_nat ((pos + size - 1) / bs - pos / bs + 1).

Lemma nblocks_step bs pos size w : 0 < bs -> 0 <= pos -> 0 < size ->
  w = (if bs - pos mod bs <? size then bs - pos mod bs else size) ->
  0 < w <= size /\ pos mod bs + w <= bs /\ nblocks bs pos size = S (nblocks bs (pos + w) (size - w)).
Proof.
  intros Hb Hp Hs E. pose proof (Z.mod_pos_bound pos bs Hb). pose proof (Z.div_mod pos bs ltac:(lia)) as Dp.
  unfold nblocks. destruct (Z.ltb_spec (bs - pos mod bs) size) as [L|L].
  - subst w. split; [lia|]. split; [lia|]. destruct (Z.eqb_spec size 0); [lia|].
    destruct (Z.eqb_spec (size - (bs - pos mod bs)) 0); [lia|].
    replace (pos + (bs - pos mod bs) + (size - (bs - pos mod bs)) - 1) with (pos + size - 1) by lia.
    replace ((pos + (bs - pos mod bs)) / bs) with (pos / bs + 1)
      by (apply (Z.div_unique_pos (pos + (bs - pos mod bs)) bs _ 0); lia).
    assert (pos / bs + 1 <= (pos + size - 1) / bs) by (apply Z.div_le_lower_bound; lia). lia.
  - subst w. split; [lia|]. split; [lia|]. destruct (Z.eqb_spec size 0); [lia|].
    rewrite Z.sub_diag. cbn [Z.eqb].
    assert ((pos + size - 1) / bs = pos / bs) as -> by (symmetry; apply (Z.div_unique_pos (pos + size - 1) bs _ (pos mod bs + size - 1)); lia).
    lia.
Qed.

(** [C'] is [C] with [bytes] put at [pos], made longer with zeros. *)
Definition overwritten (C C' : list Z) (pos : nat) (bytes : list Z) : Prop :=
  (length C <= length C')%nat /\ (pos + length bytes <= length C' \/ bytes = [])%nat
  /\ forall i, (i < length C')%nat -> C' !! i =
       if decide (pos <= i < pos + length bytes)%nat then bytes !! (i - pos)%nat
       else Some (default 0 (C !! i)).

Lemma overwritten_nil C pos : overwritten C C pos [].
Proof.
  split; [done|]. split; [by right|]. intros i Hi. rewrite decide_False by (simpl; lia).
  by destruct (lookup_lt_is_Some_2 C i Hi) as [x ->].
Qed.

Lemma overwritten_zeros C n pos : overwritten C (C ++ replicate n 0) pos [].
Proof.
  split; [rewrite length_app; lia|]. split; [by right|]. intros i Hi. rewrite decide_False by (simpl; lia).
  destruct (decide (i < length C)%nat) as [Hc|Hc].
  - rewrite lookup_app_l by done. by destruct (lookup_lt_is_Some_2 C i Hc) as [x ->].
  - rewrite length_app, length_replicate in Hi. rewrite lookup_app_r, (lookup_ge_None_2 C) by lia.
    by rewrite lookup_replicate_2 by lia.
Qed.

Lemma overwritten_app C C1 C2 pos b1 b2 : overwritten C C1 pos b1 -> overwritten C1 C2 (pos + length b1) b2 ->
  overwritten C C2 pos (b1 ++ b2).
Proof.
  intros (L1 & R1 & Q1) (L2 & R2 & Q2). split; [lia|]. rewrite length_app. split.
  { destruct R2 as [R2| ->]; [left; lia|]. rewrite app_nil_r. destruct R1 as [R1| ->]; [|by right].
    left. simpl. lia. }
  intros i Hi. rewrite (Q2 i Hi). destruct (decide (pos + length b1 <= i < pos + length b1 + length b2)%nat).
  - rewrite decide_True, lookup_app_r by lia. f_equal. lia.
  - destruct (decide (i < length C1)%nat) as [Hc|Hc].
    + rewrite (Q1 i Hc). destruct (decide (pos <= i < pos + length b1)%nat) as [Hb|Hb].
      * rewrite decide_True, lookup_app_l by lia. destruct (lookup_lt_is_Some_2 b1 (i - pos)) as [x ->]; [lia|done].
      * rewrite decide_False by lia. done.
    + rewrite (lookup_ge_None_2 C1), (lookup_ge_None_2 C) by lia. rewrite decide_False; [done|].
      destruct R1 as [R1| ->]; simpl in *; lia.
Qed.

(** One block of a file is changed. *)
Lemma overwritten_block V n bl q b r bytes : NoDup bl -> (forall b, b ∈ bl -> length (V b) = n) ->
  bl !! q = Some b -> (r + length bytes <= n)%nat -> (0 < n)%nat ->
  overwritten (bytes_of V bl)
    (bytes_of (<[b := take r (V b) ++ bytes ++ drop (r + length bytes) (V b)]> V) bl) (q * n + r) bytes.
Proof.
  intros N L Hq Hw Hn. set (W := <[b := _]> V).
  assert (Lb : length (V b) = n) by (apply L; by eapply list_elem_of_lookup_2).
  assert (LW : forall c, c ∈ bl -> length (W c) = n).
  { intros c Hc. unfold W. destruct (decide (b = c)) as [<-|]; [|rewrite fn_lookup_insert_ne by done; auto].
    rewrite fn_lookup_insert, !length_app, length_take, length_drop. lia. }
  assert (Hql : (q < length bl)%nat) by (by eapply lookup_lt_Some).
  split; [by rewrite !(bytes_length _ n)|]. split; [left; rewrite (bytes_length _ n) by done; nia|].
  intros i Hi. rewrite (bytes_length _ n) in Hi by done.
  pose proof (Nat.div_mod i n ltac:(lia)) as Di. pose proof (Nat.mod_upper_bound i n ltac:(lia)) as Dm.
  rewrite !(bytes_index _ n) by done.
  assert (i / n < length bl)%nat as Hk by (apply Nat.Div0.div_lt_upper_bound; lia).
  destruct (lookup_lt_is_Some_2 bl (i / n) Hk) as [c Hc]. rewrite Hc. cbn [mbind option_bind].
  destruct (decide (i / n = q)%nat) as [Eq|Nq].
  - assert (c = b) as -> by congruence. unfold W. rewrite fn_lookup_insert.
    destruct (decide (q * n + r <= i < q * n + r + length bytes)%nat) as [Hr|Hr].
    + rewrite lookup_app_r, lookup_app_l; rewrite length_take; try lia. f_equal. nia.
    + destruct (decide (i mod n < r)%nat).
      * rewrite lookup_app_l, lookup_take_lt by (rewrite ?length_take; lia).
        by destruct (lookup_lt_is_Some_2 (V b) (i mod n)) as [x ->]; [lia|].
      * rewrite !lookup_app_r by (rewrite ?length_take; nia). rewrite length_take, lookup_drop.
        replace (r + length bytes + (i mod n - r `min` length (V b) - length bytes))%nat with (i mod n)%nat by nia.
        by destruct (lookup_lt_is_Some_2 (V b) (i mod n)) as [x ->]; [lia|].
  - assert (b <> c).
    { intros <-. apply Nq. by apply (NoDup_lookup bl _ _ b). }
    unfold W. rewrite fn_lookup_insert_ne by done.
    rewrite decide_False by nia.
    assert (c ∈ bl) as Hcl by (by eapply list_elem_of_lookup_2).
    by destruct (lookup_lt_is_Some_2 (V c) (i mod n)) as [x ->]; [rewrite L by done; lia|].
Qed.

(** ** Reading and writing *)

Section Files.
Context {F D : Type} `{BL : BlockMapLaws F D}.
Implicit Types (f : vfile F) (st : sdev D).

(** A file on a device that implements the blocks [V], with room for [k]
    operations of the cache. *)
Definition file_rep f st (V : Z -> list Z) (k : nat) : Prop :=
  block_rep st V k /\ bm_rep (fs f) (softBlockSize st) V.
Definition content f (V : Z -> list Z) : list Z := bytes_of V (bm_blocks (fs f)).

Lemma file_blocks f st V k : file_rep f st V k ->
  NoDup (bm_blocks (fs f)) /\ (forall b, b ∈ bm_blocks (fs f) ->
    block_range st b /\ accepted st b = true /\ length (V b) = Z.to_nat (softBlockSize st))
  /\ 0 < softBlockSize st.
Proof.
  intros [R M]. destruct (bm_ok _ _ _ M) as [N Q]. split; [done|]. split.
  - intros b Hb. destruct (Q b Hb) as (Q1 & Q2 & Q3). split; [by split|]. split; [done|].
    pose proof (rep_length st V k b R) as L. unfold block_range in L. specialize (L (conj Q1 Q2)). lia.
  - pose proof (bi_sizes st (br_inv _ _ _ R)) as (_ & ? & _). lia.
Qed.

Lemma content_length f st V k : file_rep f st V k ->
  Z.of_nat (length (content f V)) = Z.of_nat (length (bm_blocks (fs f))) * softBlockSize st.
Proof.
  intros R. destruct (file_blocks f st V k R) as (_ & Q & Hs). unfold content.
  rewrite (bytes_length V (Z.to_nat (softBlockSize st))); [lia|]. intros b Hb. by apply Q.
Qed.

(** The block of a position. *)
Lemma position_block f st V k : file_rep f st V k -> 0 <= position f ->
  position f < Z.of_nat (length (content f V)) ->
  exists b, bm_blocks (fs f) !! Z.to_nat (position f / softBlockSize st) = Some b.
Proof.
  intros R Hp Hl. rewrite (content_length f st V k R) in Hl. destruct (file_blocks f st V k R) as (_ & _ & Hs).
  apply lookup_lt_is_Some_2. apply Nat2Z.inj_lt. rewrite Z2Nat.id by (apply Z.div_pos; lia).
  apply Z.div_lt_upper_bound; lia.
Qed.

Lemma position_split f st : 0 < softBlockSize st -> 0 <= position f ->
  Z.to_nat (position f) = (Z.to_nat (position f / softBlockSize st) * Z.to_nat (softBlockSize st)
                           + Z.to_nat (position f mod softBlockSize st))%nat.
Proof.
  intros Hs Hp. pose proof (Z.div_mod (position f) (softBlockSize st) ltac:(lia)).
  pose proof (Z.mod_pos_bound (position f) (softBlockSize st) Hs).
  pose proof (Z.div_pos (position f) (softBlockSize st) Hp Hs).
  rewrite <- Z2Nat.inj_mul, <- Z2Nat.inj_add by nia. f_equal. lia.
Qed.

Lemma read_block_spec st V k b off n : block_rep st V (S k) -> block_range st b -> accepted st b = true ->
  0 <= off -> 0 <= n -> off + n <= softBlockSize st ->
  exists st', read_block b off n st = Ret (Some (take (Z.to_nat n) (drop (Z.to_nat off) (V b))), st')
    /\ block_rep st' V k /\ softBlockSize st' = softBlockSize st.
Proof.
  intros R Rg Ac Ho Hn Hl. pose proof (rep_length st V _ b R Rg) as L. unfold read_block.
  destruct (rep_BlockRead st V k b R Rg) as (p & st2 & -> & R2 & E2 & _ & Q2).
  rewrite Ac in Q2. destruct Q2 as (Zp & x & Bx & _ & Mx). cbn [bindO].
  destruct (Z.eqb_spec p 0); [done|]. rewrite Bx. cbn [of_option bindO]. rewrite Mx. cbn [of_option bindO].
  unfold copy_from. destruct (Z.leb_spec (off + n) (Z.of_nat (length (V b)))); [|lia].
  exists st2. by split_and!.
Qed.

Lemma write_block_spec st V k b off bytes : block_rep st V (S k) -> block_range st b -> accepted st b = true ->
  0 <= off -> off + Z.of_nat (length bytes) <= softBlockSize st ->
  exists st', write_block b off bytes st = Ret (true, st')
    /\ block_rep st' (<[b := take (Z.to_nat off) (V b) ++ bytes ++ drop (Z.to_nat off + length bytes) (V b)]> V) k
    /\ softBlockSize st' = softBlockSize st.
Proof.
  intros R Rg Ac Ho Hl. pose proof (rep_length st V _ b R Rg) as L. unfold write_block.
  destruct (rep_BlockRead st V k b R Rg) as (p & st2 & -> & R2 & E2 & Hh & Q2).
  rewrite Ac in Q2. destruct Q2 as (Zp & x & Bx & <- & Mx). cbn [bindO].
  destruct (Z.eqb_spec p 0); [done|]. rewrite Bx. cbn [of_option bindO]. rewrite Mx. cbn [of_option bindO].
  unfold copy_to. destruct (Z.leb_spec (off + Z.of_nat (length bytes)) (Z.of_nat (length (V (blockNum x))))); [|lia].
  cbn [bindO]. set (blk := take _ _ ++ _).
  destruct (rep_BlockWrite st2 V k p x blk R2 Bx Hh) as (y & st3 & -> & R3 & E3 & B3).
  { unfold blk. rewrite !length_app, length_take, length_drop. lia. }
  cbn [bindO]. destruct (rep_BlockFree st3 _ _ p y R3 B3) as (st4 & -> & R4 & E4).
  exists st4. split_and!; [done|done|congruence].
Qed.

Lemma file_read_loop_spec fuel : forall size out f st V k,
  file_rep f st V (S bm_cost * nblocks (softBlockSize st) (position f) size + k) ->
  0 <= position f -> 0 <= size -> position f + size <= Z.of_nat (length (content f V)) ->
  position f + size < 2 ^ 32 -> (Z.to_nat size < fuel)%nat ->
  exists st', read_loop fuel size out f st =
      Ret (Z.of_nat (length out) + size,
           out ++ take (Z.to_nat size) (drop (Z.to_nat (position f)) (content f V)),
           with_position (position f + size) f, st')
    /\ block_rep st' V k /\ softBlockSize st' = softBlockSize st.
Proof.
  induction fuel as [|fuel IH]; intros size out f st V k R Hp Hs Hl Hm Hf; [lia|]. cbn [read_loop].
  destruct (Z.ltb_spec 0 size) as [H0|H0].
  2: { replace size with 0 by lia. exists st. rewrite !Z.add_0_r, take_0, app_nil_r.
       split; [by destruct f|]. split; [|done]. eapply rep_weaken; [apply R|lia]. }
  destruct (file_blocks f st V _ R) as (N & Q & Hb).
  destruct (nblocks_step (softBlockSize st) (position f) size _ Hb Hp H0 eq_refl) as (W1 & W2 & En).
  set (w := if softBlockSize st - position f mod softBlockSize st <? size
            then softBlockSize st - position f mod softBlockSize st else size) in *.
  destruct (position_block f st V _ R Hp) as [b Eb]; [lia|].
  assert (b ∈ bm_blocks (fs f)) as Hbin by (by eapply list_elem_of_lookup_2).
  destruct (Q b Hbin) as (Rg & Ac & Lb). rewrite En in R.
  destruct (bm_lookup (fs f) st V (S (S bm_cost * nblocks (softBlockSize st) (position f + w) (size - w) + k))
              (position f / softBlockSize st) b) as (st1 & -> & R1 & E1).
  { eapply rep_weaken; [apply R|lia]. } { apply R. } { by apply Z.div_pos. } { done. }
  cbn [bindO]. pose proof Rg as [Rg0 Rg1].
  destruct (Z.eqb_spec b (-1)); [lia|]. rewrite u32_id by nia.
  pose proof (Z.mod_pos_bound (position f) (softBlockSize st) Hb).
  destruct (read_block_spec st1 V _ b (position f mod softBlockSize st) w R1) as (st2 & -> & R2 & E2);
    [by apply (range_same st)|by rewrite (accepted_same st)|lia..|].
  cbn [bindO position with_fs]. rewrite (u32_id (position f + w)) by lia.
  set (f' := with_position (position f + w) (with_fs (fs f) f)).
  assert (Es : softBlockSize st2 = softBlockSize st) by congruence.
  destruct (IH (size - w) (out ++ take (Z.to_nat w) (drop (Z.to_nat (position f mod softBlockSize st)) (V b)))
              f' st2 V k) as (st' & -> & R' & E').
  { split; [|rewrite Es; apply R]. rewrite Es. eapply rep_weaken; [apply R2|]. cbn [f' position with_position]. lia. }
  { cbn. lia. } { lia. } { cbn [f' position with_position]. change (content f' V) with (content f V). lia. }
  { cbn. lia. } { lia. }
  exists st'. split; [|split; [done|congruence]].
  rewrite length_app, length_take, length_drop. f_equal. f_equal. f_equal; [f_equal|].
  - lia.
  - rewrite <- app_assoc. f_equal. cbn [f' position with_position]. change (content f' V) with (content f V).
    rewrite <- (bytes_slice V (Z.to_nat (softBlockSize st)) (bm_blocks (fs f)) (Z.to_nat (position f / softBlockSize st)))
      by (try done; try lia; intros c Hc; by apply Q).
    fold (content f V). rewrite <- position_split by done.
    replace (Z.to_nat size) with (Z.to_nat w + Z.to_nat (size - w))%nat by lia.
    rewrite <- take_take_drop, drop_drop. f_equal. f_equal. f_equal. lia.
  - destruct f. unfold f', with_position, with_fs. cbn. f_equal. lia.
Qed.
(** What a write achieves: [n] bytes of the buffer are in the file, which is
    all of them unless there is an error. *)
Definition wrote f V (buffer : list Z) (copied ret : Z) f' V' : Prop :=
  exists n, (n <= length buffer)%nat
    /\ overwritten (content f V) (content f' V') (Z.to_nat (position f)) (take n buffer)
    /\ position f' = position f + Z.of_nat n
    /\ vsize f' = (if (0 <? n)%nat then Z.max (vsize f) (position f') else vsize f)
    /\ (ret = copied + Z.of_nat (length buffer) /\ n = length buffer
          /\ Z.testbit (vflags f') VNODE_DIRTY = true
        \/ ret = - EIO).

Lemma wrote_nothing f V f1 V1 buffer copied : overwritten (content f V) (content f1 V1) (Z.to_nat (position f)) [] ->
  position f1 = position f -> vsize f1 = vsize f -> wrote f V buffer copied (- EIO) f1 V1.
Proof.
  intros O Ep Es. exists 0%nat. rewrite take_0. split; [lia|]. split; [done|]. split; [lia|]. split; [done|]. by right.
Qed.

(** The first [w] bytes are written, then the others. *)
Lemma wrote_step f V f1 V1 f' V' buffer (w : nat) copied ret : (0 < w <= length buffer)%nat -> 0 <= position f ->
  overwritten (content f V) (content f1 V1) (Z.to_nat (position f)) (take w buffer) ->
  position f1 = position f + Z.of_nat w -> vsize f1 = Z.max (vsize f) (position f1) ->
  wrote f1 V1 (drop w buffer) (copied + Z.of_nat w) ret f' V' -> wrote f V buffer copied ret f' V'.
Proof.
  intros Hw Hp O Ep Es (n & Hn & O' & Ep' & Es' & Q). rewrite length_drop in *. exists (w + n)%nat.
  assert (Et : take (w + n) buffer = take w buffer ++ take n (drop w buffer)).
  { rewrite <- take_take_drop. done. }
  split; [lia|]. split; [|split; [lia|split]].
  - rewrite Et. apply (overwritten_app _ (content f1 V1)); [done|].
    rewrite length_take. replace (Z.to_nat (position f) + w `min` length buffer)%nat with (Z.to_nat (position f1)) by lia.
    done.
  - rewrite Es'. destruct (Nat.ltb_spec 0 (w + n)); [|lia]. destruct (Nat.ltb_spec 0 n); lia.
  - destruct Q as [(-> & -> & Df)|Q]; [left|by right]. split; [lia|]. split; [lia|done].
Qed.

Lemma file_write_loop_spec fuel : forall buffer copied f st V k,
  let size := Z.of_nat (length buffer) in
  file_rep f st V (S bm_cost * nblocks (softBlockSize st) (position f) size + k) ->
  0 <= position f -> position f + size < 2 ^ 32 -> (length buffer < fuel)%nat ->
  exists ret f' st' V', write_loop fuel buffer copied f st = Ret (ret, f', st')
    /\ file_rep f' st' V' k /\ softBlockSize st' = softBlockSize st
    /\ wrote f V buffer copied ret f' V'.
Proof.
  induction fuel as [|fuel IH]; intros buffer copied f st V k size R Hp Hm Hf; [lia|]. cbn [write_loop]. fold size.
  destruct (Z.ltb_spec 0 size) as [H0|H0].
  2: { destruct buffer; [|cbn in *; lia]. eexists _, _, st, V. split; [reflexivity|]. split; [|split; [done|]].
       - split; [eapply rep_weaken; [apply R|lia]|apply R].
       - exists 0%nat. cbn [length take position SetVNodeDirty vsize vflags Nat.ltb Nat.leb]. split; [lia|].
         split; [apply overwritten_nil|]. split; [lia|]. split; [done|]. left. split; [lia|]. split; [done|].
         by apply Z.setbit_eq. }
  destruct (file_blocks f st V _ R) as (N & Q & Hb).
  destruct (nblocks_step (softBlockSize st) (position f) size _ Hb Hp H0 eq_refl) as (W1 & W2 & En).
  set (w := if softBlockSize st - position f mod softBlockSize st <? size
            then softBlockSize st - position f mod softBlockSize st else size) in *.
  rewrite En in R.
  destruct (bm_create (fs f) st V (S (S bm_cost * nblocks (softBlockSize st) (position f + w) (size - w) + k))
              (position f / softBlockSize st)) as (res & x & st1 & V1 & new & -> & R1 & E1 & M1 & Ex & Old & New & Hr).
  { eapply rep_weaken; [apply R|lia]. } { apply R. }
  { split; [by apply Z.div_pos|]. apply Z.div_lt_upper_bound; nia. }
  cbn [bindO]. set (f1 := with_fs x f).
  assert (O1 : overwritten (content f V) (content f1 V1) (Z.to_nat (position f)) []).
  { unfold content. cbn [f1 fs with_fs]. rewrite Ex, bytes_app, (bytes_ext V1 V (bm_blocks (fs f))) by done.
    assert (exists m, bytes_of V1 new = replicate m 0) as [m ->]; [|apply overwritten_zeros].
    clear - New. induction new as [|b new IH]; [by exists 0%nat|]. destruct IH as [m Em].
    - intros c Hc. apply New. by constructor.
    - exists (Z.to_nat (softBlockSize st) + m)%nat. rewrite bytes_cons, Em, New by constructor. by rewrite replicate_add. }
  assert (F1 : file_rep f1 st1 V1 (S (S bm_cost * nblocks (softBlockSize st) (position f + w) (size - w) + k))).
  { split; [done|]. by rewrite E1. }
  destruct (Z.ltb_spec res 0) as [Hn|Hn].
  { eexists _, f1, st1, V1. split; [reflexivity|]. split; [split; [eapply rep_weaken; [apply R1|lia]|by rewrite E1]|].
    split; [done|]. by apply wrote_nothing. }
  specialize (Hr Hn). assert (res ∈ bm_blocks x) as Hin by (by eapply list_elem_of_lookup_2).
  destruct (file_blocks f1 st1 V1 _ F1) as (N1 & Q1 & _). destruct (Q1 res Hin) as (Rg & Ac & Lb).
  pose proof (Z.mod_pos_bound (position f) (softBlockSize st) Hb).
  set (piece := take (Z.to_nat w) buffer). assert (Lp : length piece = Z.to_nat w) by (unfold piece; rewrite length_take; lia).
  cbn [f1 position with_fs]. fold w. fold piece.
  destruct (write_block_spec st1 V1 _ res (position f mod softBlockSize st) piece R1 Rg Ac) as (st4 & -> & R4 & E4); [lia..|].
  cbn [f1 position with_fs bindO negb]. set (blk := take _ _ ++ _) in R4. rewrite u32_id by lia.
  match goal with |- context [write_loop fuel _ _ ?g st4] => set (f2 := g) end.
  assert (P2 : position f2 = position f + w) by (unfold f2; by destruct (vsize _ <? _)).
  assert (X2 : fs f2 = x) by (unfold f2; by destruct (vsize _ <? _)).
  assert (S2 : vsize f2 = Z.max (vsize f) (position f2)).
  { rewrite P2. unfold f2. cbn [f1 with_fs with_position vsize position].
    destruct (Z.ltb_spec (vsize f) (position f + w)); cbn [with_size vsize with_position f1 with_fs]; lia. }
  assert (Es : softBlockSize st4 = softBlockSize st) by congruence.
  destruct (IH (drop (Z.to_nat w) buffer) (copied + w) f2 st4 (<[res := blk]> V1) k) as (ret & f' & st' & V' & -> & R' & E' & W').
  { rewrite length_drop, P2, Es. replace (Z.of_nat (length buffer - Z.to_nat w)) with (size - w) by lia.
    split; [done|]. rewrite X2, Es. by apply bm_data. }
  { lia. } { rewrite length_drop, P2. lia. } { rewrite length_drop. lia. }
  eexists ret, f', st', V'. split; [reflexivity|]. split; [done|]. split; [congruence|].
  apply (wrote_step f V f2 (<[res := blk]> V1) f' V' buffer (Z.to_nat w)); try lia.
  - apply (overwritten_app _ (content f1 V1) _ _ []); [done|]. unfold content. rewrite X2. cbn [f1 fs with_fs length].
    rewrite Nat.add_0_r, (position_split f st) by done.
    fold piece. apply (overwritten_block V1 (Z.to_nat (softBlockSize st)) _ _ res _ piece); try done; try lia.
    intros c Hc. rewrite <- E1. by apply Q1.
  - by rewrite Z2Nat.id by lia.
Qed.

Lemma file_rep_weaken f st V k j : file_rep f st V k -> (j <= k)%nat -> file_rep f st V j.
Proof. intros [R M] L. split; [by eapply rep_weaken|done]. Qed.

Lemma FileGenericRead_spec fuel size f st V k :
  let n := Z.max 0 (Z.min size (vsize f - position f)) in
  file_rep f st V (S bm_cost * nblocks (softBlockSize st) (position f) n + k) ->
  0 <= position f -> 0 <= size < 2 ^ 32 -> vsize f < 2 ^ 32 -> vsize f <= Z.of_nat (length (content f V)) ->
  (Z.to_nat size < fuel)%nat ->
  exists st', FileGenericRead fuel size f st =
      Ret (n, take (Z.to_nat n) (drop (Z.to_nat (position f)) (content f V)), with_position (position f + n) f, st')
    /\ file_rep (with_position (position f + n) f) st' V k /\ softBlockSize st' = softBlockSize st.
Proof.
  intros n R Hp Hs Hv Hl Hf. unfold FileGenericRead.
  destruct (Z.leb_spec (vsize f) (position f)) as [L|L].
  { exists st. replace n with 0 by lia. rewrite Z.add_0_r, take_0. split; [by destruct f|].
    split; [|done]. by eapply file_rep_weaken; [destruct f; apply R|lia]. }
  rewrite u64_id, u32_id by lia.
  replace (if vsize f - position f <? size then vsize f - position f else size) with n
    by (destruct (Z.ltb_spec (vsize f - position f) size); lia).
  destruct (file_read_loop_spec fuel n [] f st V k R) as (st' & -> & R' & E'); [lia..|].
  exists st'. split; [done|]. split; [|done]. split; [done|]. rewrite E'. apply R.
Qed.

(** ** Properties *)

(** FileGenericRead returns the bytes of the file from its position on,
    as many as asked for and left, and moves the position behind them,
    whatever the positions of the blocks on the device and whether they are
    cached. *)
Theorem FileGenericRead_reads fuel size f st V k :
  let n := Z.max 0 (Z.min size (vsize f - position f)) in
  file_rep f st V (S bm_cost * nblocks (softBlockSize st) (position f) n + k) ->
  0 <= position f -> 0 <= size < 2 ^ 32 -> vsize f < 2 ^ 32 -> vsize f <= Z.of_nat (length (content f V)) ->
  (Z.to_nat size < fuel)%nat ->
  exists st', FileGenericRead fuel size f st =
      Ret (n, take (Z.to_nat n) (drop (Z.to_nat (position f)) (content f V)), with_position (position f + n) f, st')
    /\ file_rep (with_position (position f + n) f) st' V k.
Proof.
  intros n R Hp Hs Hv Hl Hf.
  destruct (FileGenericRead_spec fuel size f st V k R Hp Hs Hv Hl Hf) as (st' & E & R' & _). eauto.
Qed.

(** FileGenericWrite puts the bytes of the buffer at the position of the
    file, adding blocks where it ends; every other byte of the file keeps its
    value, the position moves behind the bytes written and the size grows to
    it.  When the file system has no more room it returns -EIO after a part
    of the bytes, and the file holds that part. *)
Theorem FileGenericWrite_writes fuel buffer f st V k :
  file_rep f st V (S bm_cost * nblocks (softBlockSize st) (position f) (Z.of_nat (length buffer)) + k) ->
  0 <= position f -> position f + Z.of_nat (length buffer) < 2 ^ 32 -> (length buffer < fuel)%nat ->
  exists ret f' st' V', FileGenericWrite fuel buffer f st = Ret (ret, f', st') /\ file_rep f' st' V' k
    /\ wrote f V buffer 0 ret f' V'.
Proof.
  intros R Hp Hm Hf. unfold FileGenericWrite.
  destruct (file_write_loop_spec fuel buffer 0 f st V k R Hp Hm Hf) as (ret & f' & st' & V' & E & R' & _ & W). eauto 8.
Qed.

(** C17: What is written is read back: after a write that returns the length
    of its buffer, seeking to where it began and reading as many bytes gives
    the buffer.
    The file's block map has to satisfy the laws of [BlockMap]. *)
Theorem write_seek_read fuel buffer f st V ret f1 st1 k :
  let len := Z.of_nat (length buffer) in
  file_rep f st V (2 * (S bm_cost * nblocks (softBlockSize st) (position f) len) + k) ->
  0 <= position f -> position f + len < 2 ^ 31 -> 0 < len -> (length buffer < fuel)%nat ->
  vsize f < 2 ^ 32 -> vsize f <= Z.of_nat (length (content f V)) ->
  FileGenericWrite fuel buffer f st = Ret (ret, f1, st1) -> ret = len ->
  let (p, f2) := DoSeekFile (position f) 0 f1 in
  p = position f /\ exists f3 st3, FileGenericRead fuel len f2 st1 = Ret (len, buffer, f3, st3).
Proof.
  intros len R Hp Hm H0 Hf Hs Hl E Er.
  destruct (file_write_loop_spec fuel buffer 0 f st V (S bm_cost * nblocks (softBlockSize st) (position f) len + k))
    as (ret' & f' & st' & V' & E' & R' & Es & (n & Hn & O & Ep & Ev & Q)).
  { eapply file_rep_weaken; [exact R|]. fold len. lia. } { lia. } { lia. } { lia. }
  unfold FileGenericWrite in E. rewrite E' in E. injection E as -> -> ->.
  destruct Q as [(_ & -> & _)|Q]; [|unfold EIO in Q; lia].
  unfold DoSeekFile. cbn [Z.eqb]. destruct (Z.ltb_spec (position f) 0); [lia|]. rewrite u32_id, s32_id by lia.
  split; [done|]. set (f2 := with_position (position f) f1).
  destruct O as (O1 & O2 & O3). rewrite firstn_all in O2, O3.
  destruct (Nat.ltb_spec 0 (length buffer)); [|lia]. rewrite Ep in Ev.
  assert (Lc : position f + len <= Z.of_nat (length (content f1 V'))).
  { destruct O2 as [O2|O2]; [lia|]. subst buffer. simpl in *. lia. }
  assert (V2 : vsize f2 = Z.max (vsize f) (position f + len)) by (cbn; lia).
  destruct (FileGenericRead_spec fuel len f2 st1 V' k) as (st3 & E3 & _ & _).
  { rewrite Es. change (position f2) with (position f).
    replace (Z.max 0 (Z.min len (vsize f2 - position f))) with len by lia. exact R'. }
  { done. } { lia. } { lia. } { change (content f2 V') with (content f1 V'). lia. } { lia. }
  change (position f2) with (position f) in E3. change (content f2 V') with (content f1 V') in E3.
  replace (Z.max 0 (Z.min len (vsize f2 - position f))) with len in E3 by lia. rewrite E3.
  eexists _, _. f_equal. f_equal. f_equal. f_equal.
  apply list_eq. intros i. destruct (decide (i < length buffer)%nat) as [Hi|Hi].
  - rewrite lookup_take_lt, lookup_drop, O3 by lia. rewrite decide_True by lia. f_equal. lia.
  - rewrite lookup_take_ge, (lookup_ge_None_2 buffer) by lia. done.
Qed.

End Files.

(** ** The block map of ISO 9660 *)

(** IsoGetPriv(vNode)->firstSector, the size of the vNode and the sector
    size of the superblock. *)
Record IsoVNode := { firstSector : Z; isoSize : Z; sectorSize : Z }.

Definition IsoBlockMap (block flags : Z) (v : IsoVNode) : Z :=
  if c_true (Z.land flags VFS_MAP_CREATE) then - ENOENT
  else if isoSize v <? u32 (block * sectorSize v) then -1
  else s32 (u32 (firstSector v + block)).

Section Iso.
Context {D : Type} `{SL : StorageDriverLaws D}.

#[local] Instance iso_BlockMap : BlockMap IsoVNode D :=
  fun block flags v st => Ret (IsoBlockMap block flags v, v, st).

Definition iso_blocks (v : IsoVNode) : list Z :=
  (fun i => firstSector v + Z.of_nat i) <$> seq 0 (Z.to_nat ((isoSize v + sectorSize v - 1) / sectorSize v)).

Definition iso_ok (v : IsoVNode) (bs : Z) : Prop :=
  sectorSize v = bs /\ 0 < bs /\ 0 <= firstSector v /\ 0 <= isoSize v < 2 ^ 31
  /\ forall b, b ∈ iso_blocks v -> b * bs + bs < 2 ^ 31 /\ drv_accepts (b * bs) bs = true.

#[local] Program Instance iso_laws : BlockMapLaws IsoVNode D := {|
  bm_blocks := iso_blocks;
  bm_rep v bs _ := iso_ok v bs;
  bm_cost := 0;
|}.
Next Obligation.
  intros v bs _ (E & Hb & Hf & Hs & Q). split.
  - apply NoDup_fmap_2; [|apply NoDup_seq]. intros i j. lia.
  - intros b Hin. split; [|by apply Q]. apply list_elem_of_fmap in Hin as (i & -> & _). lia.
Qed.
Next Obligation. intros v bs V b bytes Hv _. exact Hv. Qed.
Next Obligation.
  intros v st V k o b R (E & Hb & Hf & Hs & Q) Ho Hl. exists st. split; [|by split].
  unfold blockMap, iso_BlockMap, IsoBlockMap. cbn [c_true Z.land Z.eqb negb].
  pose proof Hl as Hl'. unfold iso_blocks in Hl. apply list_lookup_fmap_Some in Hl as (i & -> & Hi).
  apply lookup_seq in Hi as [-> Hi]. cbn [Nat.add] in *.
  assert (o * sectorSize v < isoSize v).
  { assert (o < (isoSize v + sectorSize v - 1) / sectorSize v) as L by lia.
    assert (o + 1 <= (isoSize v + sectorSize v - 1) / sectorSize v) as L' by lia.
    apply Z.mul_le_mono_nonneg_l with (p := sectorSize v) in L'; [|lia].
    pose proof (Z.mul_div_le (isoSize v + sectorSize v - 1) (sectorSize v)). lia. }
  rewrite (u32_id (o * sectorSize v)) by nia. destruct (Z.ltb_spec (isoSize v) (o * sectorSize v)); [lia|].
  destruct (Q (firstSector v + o)) as [Q1 _]; [apply (list_elem_of_lookup_2 _ (Z.to_nat o)); rewrite Hl'; f_equal; lia|].
  rewrite u32_id, s32_id by nia. by rewrite Z2Nat.id.
Qed.
Next Obligation.
  intros v st V k o R Hv Ho. exists (- ENOENT), v, st, V, []. split; [done|]. split; [done|]. split; [done|].
  split; [done|]. split; [by rewrite app_nil_r|]. split; [done|]. split; [by intros b Hb%not_elem_of_nil|].
  unfold ENOENT. lia.
Qed.
End Iso.

(** ** Examples on a RAM disk *)

#[local] Instance demo_driver : StorageDriver RamDisk := ramdisk_driver demo_mapping.
#[local] Instance demo_laws : StorageDriverLaws RamDisk := ramdisk_laws demo_mapping.

Definition demo_file {F} (x : F) (pos size : Z) : vfile F :=
  {| position := pos; vsize := size; vflags := 0; mode := 13; aTime := 0; cTime := 0; mTime := 0; fs := x |}.

(** A file of 1500 bytes on an ISO file system. *)
Definition demo_iso : IsoVNode := {| firstSector := 5; isoSize := 1500; sectorSize := 1024 |}.

Lemma FileGenericRead_reads_witness : exists st',
  FileGenericRead (H0 := iso_BlockMap) 700 600 (demo_file demo_iso 1000 1500) demo_device
    = Ret (500, replicate 500 7, demo_file demo_iso 1500 1500, st').
Proof.
  destruct (FileGenericRead_reads (BL := iso_laws) 700 600 (demo_file demo_iso 1000 1500) demo_device
              (on_disk demo_device) 0) as (st' & E & _).
  - split; [apply demo_rep; vm_compute; lia|]. split_and!; try done.
    intros b Hb. apply list_elem_of_fmap in Hb as (i & -> & Hi). apply elem_of_seq in Hi.
    change (Z.to_nat _) with 2%nat in Hi. assert (i = 0 \/ i = 1)%nat as [-> | ->] by lia; by vm_compute.
  - done.
  - done.
  - done.
  - by vm_compute.
  - lia.
  - exists st'. exact E.
Defined.

(** A file of three given blocks that cannot grow. *)
Section Fixed.
#[local] Instance fixed_BlockMap : BlockMap (list Z) RamDisk :=
  fun o flags x st => Ret (default (-1) (x !! Z.to_nat o), x, st).

#[local] Program Instance fixed_laws : BlockMapLaws (list Z) RamDisk := {|
  bm_blocks x := x;
  bm_rep x bs _ := NoDup x /\ forall b, b ∈ x -> 0 <= b /\ b * bs + bs < 2 ^ 31 /\ drv_accepts (b * bs) bs = true;
  bm_cost := 0;
|}.
Next Obligation. done. Qed.
Next Obligation. done. Qed.
Next Obligation.
  intros x st V k o b R _ Ho Hl. exists st. unfold blockMap, fixed_BlockMap. rewrite Hl. by split_and!.
Qed.
Next Obligation.
  intros x st V k o R M Ho. eexists _, x, st, V, []. split; [done|]. split; [done|]. split; [done|]. split; [done|].
  split; [by rewrite app_nil_r|]. split; [done|]. split; [by intros b Hb%not_elem_of_nil|].
  destruct (x !! Z.to_nat o); cbn; [done|lia].
Qed.

Definition demo_blocks : list Z := [9; 5; 6].

Lemma demo_blocks_rep k : (k <= 10)%nat ->
  file_rep (demo_file demo_blocks 900 1500) demo_device (on_disk demo_device) k.
Proof.
  intros Hk. split; [by apply demo_rep|]. split; [repeat constructor; set_solver|].
  intros b Hb. change (b ∈ [9; 5; 6]) in Hb. rewrite !elem_of_cons in Hb.
  destruct Hb as [-> |[-> |[-> |Hb]]]; [by vm_compute..|]. by apply not_elem_of_nil in Hb.
Qed.

(** 1100 bytes from position 900 on, in all three blocks. *)
Lemma FileGenericWrite_writes_witness : exists ret f' st' V',
  FileGenericWrite 1200 (replicate 1100 5) (demo_file demo_blocks 900 1500) demo_device = Ret (ret, f', st')
  /\ wrote (demo_file demo_blocks 900 1500) (on_disk demo_device) (replicate 1100 5) 0 ret f' V'.
Proof.
  destruct (FileGenericWrite_writes 1200 (replicate 1100 5) (demo_file demo_blocks 900 1500) demo_device
              (on_disk demo_device) 0) as (ret & f' & st' & V' & E & _ & W).
  - apply demo_blocks_rep. vm_compute. lia.
  - done.
  - done.
  - rewrite length_replicate. lia.
  - exists ret, f', st', V'. by split.
Defined.

Lemma write_seek_read_witness : exists f1 st1 f3 st3,
  FileGenericWrite 1200 (replicate 1100 5) (demo_file demo_blocks 900 1500) demo_device = Ret (1100, f1, st1)
  /\ FileGenericRead 1200 1100 (snd (DoSeekFile 900 0 f1)) st1 = Ret (1100, replicate 1100 5, f3, st3).
Proof.
  assert (Q : match FileGenericWrite 1200 (replicate 1100 5) (demo_file demo_blocks 900 1500) demo_device with
    | Ret (ret, _, _) => ret = 1100 | _ => False end) by (vm_compute; reflexivity).
  destruct (FileGenericWrite 1200 (replicate 1100 5) (demo_file demo_blocks 900 1500) demo_device)
    as [[[ret f1] st1]| | |] eqn:E; try contradiction. subst ret.
  pose proof (write_seek_read 1200 (replicate 1100 5) (demo_file demo_blocks 900 1500) demo_device
    (on_disk demo_device) 1100 f1 st1 0) as W.
  destruct W as (_ & f3 & st3 & W).
  - apply demo_blocks_rep. vm_compute. lia.
  - done.
  - done.
  - done.
  - rewrite length_replicate. lia.
  - done.
  - by vm_compute.
  - exact E.
  - by rewrite length_replicate.
  - exists f1, st1, f3, st3. split; [reflexivity|]. exact W.
Defined.
End Fixed.
