(* ===== verification/VCache.v ===== *)
(** * The vNode cache (fs/vfs/vcache.c)

    A vNode is the memory image of a node of a file system.  The vNodes in
    use hang on the list of their superblock; VNodeGet finds one by its id or
    takes a structure from vNodeCache and reads it in, VNodeRelease gives a
    reference back, writes the node when it is dirty and the last reference
    goes, and returns the structure.

    The structures come from a slab cache whose constructor VNodeCtor runs on
    every free structure, also when one is given back (memory/slab.c,
    SlabFree).  The list is the doubly linked list of LList, through the
    member [next].

    The model has one superblock; [head] is the address of its vNodeList.
    Waiting for a vNode that is locked is [NoFuel].  The functions of the
    file system are the interface [NodeStore], what they do to the extra
    data of a vNode is part of [info].

    The specification ([vnode_cache_refines]) is a table of nodes: the cache
    cannot be seen, whatever is held, released and written back. *)

From stdpp Require Import functions fin_maps fin_sets.
From S2P Require Import Prelude LList.

(** ** Model *)

Definition VNODE_DIRTY : Z := 0.
Definition VNODE_LOCKED : Z := 1.
(** Offset of [next] in struct VNode. *)
Definition OFFSET_next : Z := 40.
Definition vn_next (p : ptr) : ptr := p + OFFSET_next.

(** sbOps->readVNode and writeVNode: [S] is the state of the file system and
    [A] what a vNode holds of a node. *)
Class NodeStore (S A : Type) := {
  readVNode : Z -> A -> S -> Z * A;
  writeVNode : Z -> A -> S -> S;
}.

Record VNode (A : Type) := { id : Z; refs : Z; flags : Z; info : A }.
Arguments id {A} _.
Arguments refs {A} _.
Arguments flags {A} _.
Arguments info {A} _.

(** [vNodeCache] are the structures that are free. *)
Record vcache (S A : Type) := {
  vnodes : gmap Z (VNode A);
  links : heap;
  vNodeCache : gset Z;
  store : S;
}.
Arguments vnodes {S A} _.
Arguments links {S A} _.
Arguments vNodeCache {S A} _.
Arguments store {S A} _.

Section Model.
Context {S A : Type} `{NodeStore S A}.
(** The choice MemCacheAlloc makes among the free structures, the address of
    the list, and the zeroed contents of a structure. *)
Context (pick : gset Z -> option Z) (head : ptr) (zero : A).
Implicit Types (c : vcache S A) (v : VNode A).

Definition set_id (i : Z) v : VNode A := {| id := i; refs := refs v; flags := flags v; info := info v |}.
Definition set_refs (r : Z) v : VNode A := {| id := id v; refs := r; flags := flags v; info := info v |}.
Definition set_flags (f : Z) v : VNode A := {| id := id v; refs := refs v; flags := f; info := info v |}.
Definition set_info (a : A) v : VNode A := {| id := id v; refs := refs v; flags := flags v; info := a |}.

Definition with_vnodes m c : vcache S A :=
  {| vnodes := m; links := links c; vNodeCache := vNodeCache c; store := store c |}.
Definition with_links l c : vcache S A :=
  {| vnodes := vnodes c; links := l; vNodeCache := vNodeCache c; store := store c |}.
Definition with_cache l c : vcache S A :=
  {| vnodes := vnodes c; links := links c; vNodeCache := l; store := store c |}.
Definition with_store s c : vcache S A :=
  {| vnodes := vnodes c; links := links c; vNodeCache := vNodeCache c; store := s |}.

Definition upd (p : Z) (f : VNode A -> VNode A) c : outcome (vcache S A) :=
  let* v := of_option (vnodes c !! p) in Ret (with_vnodes (<[p := f v]> (vnodes c)) c).

(** The fields VNodeCtor gives a structure, and its list pointers. *)
Definition constructed : VNode A := {| id := 2 ^ 32 - 1; refs := 1; flags := 0; info := zero |}.
Definition VNodeCtor (p : Z) c : outcome (vcache S A) :=
  let* h := INIT_LIST_HEAD (vn_next p) (links c) in
  Ret (with_links h (with_vnodes (<[p := constructed]> (vnodes c)) c)).

(** MemCacheAlloc and MemCacheFree of vNodeCache. *)
Definition cache_alloc c : Z * vcache S A :=
  match pick (vNodeCache c) with
  | None => (0, c)
  | Some p => (p, with_cache (vNodeCache c ∖ {[p]}) c)
  end.
Definition cache_free (p : Z) c : outcome (vcache S A) :=
  if p =? 0 then Ret c
  else let* c := VNodeCtor p c in Ret (with_cache ({[p]} ∪ vNodeCache c) c).

(** A reference is held during the wait. *)
Definition VNodeWaitOn (p : Z) c : outcome (vcache S A) :=
  let* v := of_option (vnodes c !! p) in
  if Z.testbit (flags v) VNODE_LOCKED then NoFuel
  else upd p (fun v => set_refs (u32 (u32 (refs v + 1) - 1)) v) c.

Definition VNodeLock (p : Z) c : outcome (vcache S A) :=
  let* v := of_option (vnodes c !! p) in
  if Z.testbit (flags v) VNODE_LOCKED then NoFuel
  else upd p (fun v => set_flags (Z.setbit (flags v) VNODE_LOCKED) v) c.
Definition VNodeUnlock (p : Z) : vcache S A -> outcome (vcache S A) :=
  upd p (fun v => set_flags (Z.clearbit (flags v) VNODE_LOCKED) v).

(** The loop of VNodeFind; [pos] is a pointer to a list member. *)
Fixpoint find_node (fuel : nat) (pos : ptr) (i : Z) c : outcome Z :=
  match fuel with
  | O => NoFuel
  | Datatypes.S fuel =>
      if pos =? head then Ret 0
      else
        let curr := ListEntry pos OFFSET_next in
        let* v := of_option (vnodes c !! curr) in
        if id v =? i then Ret curr
        else let* n := get_next pos (links c) in find_node fuel n i c
  end.

Definition VNodeFind (fuel : nat) (i : Z) c : outcome (Z * vcache S A) :=
  let* n := get_next head (links c) in
  let* curr := find_node fuel n i c in
  if curr =? 0 then Ret (0, c)
  else
    let* c := upd curr (fun v => set_refs (u32 (refs v + 1)) v) c in
    let* c := VNodeWaitOn curr c in
    Ret (curr, c).

Definition VNodeAlloc (i : Z) c : outcome (Z * vcache S A) :=
  let (newNode, c) := cache_alloc c in
  if newNode =? 0 then Ret (0, c)
  else
    let* c := upd newNode (set_id i) c in
    let* c := VNodeLock newNode c in
    let* h := ListAddTail (vn_next newNode) head (links c) in
    Ret (newNode, with_links h c).

Definition VNodeRead (p : Z) c : outcome (Z * vcache S A) :=
  if p =? 0 then Ret (- EFAULT, c)
  else
    let* v := of_option (vnodes c !! p) in
    let (ret, a) := readVNode (id v) (info v) (store c) in
    let* c := upd p (set_info a) c in
    let* c := VNodeUnlock p c in
    Ret (ret, c).

Definition VNodeGet (fuel : nat) (i : Z) c : outcome (Z * vcache S A) :=
  let* (curr, c) := VNodeFind fuel i c in
  if c_true curr then Ret (curr, c)
  else
    let* (curr, c) := VNodeAlloc i c in
    let* (err, c) := VNodeRead curr c in
    if c_true err then let* c := cache_free curr c in Ret (0, c)
    else Ret (curr, c).

Definition VNodeGetEmpty : vcache S A -> Z * vcache S A := cache_alloc.

Definition VNodeWrite (p : Z) c : outcome (vcache S A) :=
  if p =? 0 then Ret c
  else
    let* v := of_option (vnodes c !! p) in
    if negb (Z.testbit (flags v) VNODE_DIRTY) then Ret c
    else
      let* c := VNodeLock p c in
      let c := with_store (writeVNode (id v) (info v) (store c)) c in
      let* c := upd p (fun v => set_flags (Z.clearbit (flags v) VNODE_DIRTY) v) c in
      VNodeUnlock p c.

(** The loop of VNodeSyncAll over the vNodes of the superblock. *)
Fixpoint sync_nodes (fuel : nat) (pos : ptr) c : outcome (vcache S A) :=
  match fuel with
  | O => NoFuel
  | Datatypes.S fuel =>
      if pos =? head then Ret c
      else
        let curr := ListEntry pos OFFSET_next in
        let* n := get_next pos (links c) in
        let* v := of_option (vnodes c !! curr) in
        let* c := if Z.testbit (flags v) VNODE_DIRTY then VNodeWrite curr c else Ret c in
        sync_nodes fuel n c
  end.
Definition VNodeSyncAll (fuel : nat) c : outcome (vcache S A) :=
  let* n := get_next head (links c) in sync_nodes fuel n c.

(** From the label [repeat] on. *)
Fixpoint release (fuel : nat) (p : Z) c : outcome (vcache S A) :=
  match fuel with
  | O => NoFuel
  | Datatypes.S fuel =>
      let* v := of_option (vnodes c !! p) in
      if 1 <? refs v then upd p (fun v => set_refs (u32 (refs v - 1)) v) c
      else if Z.testbit (flags v) VNODE_DIRTY then
        let* c := VNodeWrite p c in
        let* c := VNodeWaitOn p c in
        release fuel p c
      else
        let* c := upd p (fun v => set_refs (u32 (refs v - 1)) v) c in
        let* v := of_option (vnodes c !! p) in
        if c_true (refs v) then Ret c
        else
          let* h := ListRemove (vn_next p) (links c) in
          cache_free p (with_links h c)
  end.

Definition VNodeRelease (fuel : nat) (p : Z) c : outcome (vcache S A) :=
  if p =? 0 then Ret c
  else
    let* c := VNodeWaitOn p c in
    let* v := of_option (vnodes c !! p) in
    if refs v =? 0 then Ret c else release fuel p c.

(** *** Clients

    A client knows nodes by their ids, keeps the pointers it was given and
    changes the contents of a node it holds, with SetVNodeDirty. *)
Inductive node_op :=
  | GetNode (i : Z)
  | SetNode (i : Z) (a : A)
  | PutNode (i : Z)
  | SyncNodes.

Definition run_node_op (fuel : nat) (o : node_op) (held : gmap Z Z) c
  : outcome (option A * gmap Z Z * vcache S A) :=
  match o with
  | GetNode i =>
      let* (p, c) := VNodeGet fuel i c in
      let* v := of_option (vnodes c !! p) in
      Ret (Some (info v), <[i := p]> held, c)
  | SetNode i a =>
      let* p := of_option (held !! i) in
      let* c := upd p (fun v => set_flags (Z.setbit (flags v) VNODE_DIRTY) (set_info a v)) c in
      Ret (None, held, c)
  | PutNode i =>
      let* p := of_option (held !! i) in
      let* c := VNodeRelease 2 p c in
      Ret (None, held, c)
  | SyncNodes => let* c := VNodeSyncAll fuel c in Ret (None, held, c)
  end.

Fixpoint run_node_ops (fuel : nat) (os : list node_op) (held : gmap Z Z) c
  : outcome (list (option A) * gmap Z Z * vcache S A) :=
  match os with
  | [] => Ret ([], held, c)
  | o :: os =>
      let* (x, held, c) := run_node_op fuel o held c in
      let* (xs, held, c) := run_node_ops fuel os held c in
      Ret (x :: xs, held, c)
  end.
End Model.

(** ** Specification: a table of nodes and the references to them *)

Section Spec.
Context {A : Type}.
Implicit Types (V : Z -> A) (R : gmap Z Z).

Definition spec_node_op (o : @node_op A) V R : option A * (Z -> A) * gmap Z Z :=
  match o with
  | GetNode i => (Some (V i), V, <[i := default 0 (R !! i) + 1]> R)
  | SetNode i a => (None, <[i := a]> V, R)
  | PutNode i =>
      (None, V, if default 0 (R !! i) =? 1 then delete i R else <[i := default 0 (R !! i) - 1]> R)
  | SyncNodes => (None, V, R)
  end.

Fixpoint spec_node_ops (os : list node_op) V R : list (option A) * (Z -> A) * gmap Z Z :=
  match os with
  | [] => ([], V, R)
  | o :: os =>
      let '(x, V, R) := spec_node_op o V R in
      let '(xs, V, R) := spec_node_ops os V R in (x :: xs, V, R)
  end.

(** [ok] are the ids the file system has, [n] the number of structures. *)
Definition node_op_ok (n : nat) (ok : Z -> bool) (o : @node_op A) R : Prop :=
  match o with
  | GetNode i => ok i = true /\ default 0 (R !! i) + 1 < 2 ^ 32 - 1 /\ (R !! i = None -> (size R < n)%nat)
  | SetNode i _ | PutNode i => is_Some (R !! i)
  | SyncNodes => True
  end.

Fixpoint node_ops_ok (n : nat) (ok : Z -> bool) (os : list node_op) V R : Prop :=
  match os with
  | [] => True
  | o :: os =>
      node_op_ok n ok o R /\ let '(_, V, R) := spec_node_op o V R in node_ops_ok n ok os V R
  end.
End Spec.

(** ** The cache implements the table *)

(** What a file system promises: a node that was written is read back, and
    the others are not changed. *)
Class NodeStoreLaws (S A : Type) `{NodeStore S A} := {
  read_written : forall i a b s, readVNode i b (writeVNode i a s) = (0, a);
  read_other : forall i j a b s, i <> j -> readVNode j b (writeVNode i a s) = readVNode j b s;
}.

(** MemCacheAlloc returns a free structure as long as there is one. *)
Class PickLaws (pick : gset Z -> option Z) := {
  pick_in : forall X p, pick X = Some p -> p ∈ X;
  pick_empty : forall X, pick X = None -> X = ∅;
}.

#[export] Instance vn_next_Inj : Inj (=) (=) vn_next.
Proof. intros a b. unfold vn_next. lia. Qed.

Lemma vn_next_entry p : 0 <= p -> vn_next p < 2 ^ 32 -> ListEntry (vn_next p) OFFSET_next = p.
Proof. unfold ListEntry, vn_next, OFFSET_next. intros. rewrite u32_id; lia. Qed.

Section Facts.
Context {S A : Type} `{NS : NodeStore S A} {NL : NodeStoreLaws S A}.
Context (pick : gset Z -> option Z) {PL : PickLaws pick} (head : ptr) (zero : A) (ok : Z -> bool).
Implicit Types (c : vcache S A) (v : VNode A) (V : Z -> A) (R held : gmap Z Z) (xs : list Z).

Definition locked v : bool := Z.testbit (flags v) VNODE_LOCKED.
Definition dirty v : bool := Z.testbit (flags v) VNODE_DIRTY.

(** A vNode in use: it holds the contents of its node, and is dirty unless
    the file system has them. *)
Record node_rep c held V R (p : Z) v : Prop := {
  nr_held : held !! id v = Some p;
  nr_refs : R !! id v = Some (refs v);
  nr_range : 0 < refs v < 2 ^ 32 - 1;
  nr_info : info v = V (id v);
  nr_unlocked : locked v = false;
  nr_clean : dirty v = false -> readVNode (id v) zero (store c) = (0, info v);
}.

(** The vNodes in use are [xs]; [n] is the number of structures. *)
Record vrep (n : nat) xs c held V R : Prop := {
  vr_list : clist (links c) head (vn_next <$> xs);
  vr_free : forall p, p ∈ vNodeCache c -> (p ∉ xs /\ 0 < p /\ vn_next p < 2 ^ 32 /\ vn_next p <> head)
    /\ vnodes c !! p = Some (constructed zero) /\ allocated (links c) (vn_next p);
  vr_used : forall p, p ∈ xs -> (0 < p /\ vn_next p < 2 ^ 32)
    /\ exists v, vnodes c !! p = Some v /\ node_rep c held V R p v;
  vr_refs : forall i r, R !! i = Some r -> exists p v, p ∈ xs /\ vnodes c !! p = Some v /\ id v = i;
  vr_disk : forall i, ok i = true -> R !! i = None -> readVNode i zero (store c) = (0, V i);
  vr_size : size R = length xs;
  vr_pool : (n <= length xs + size (vNodeCache c))%nat;
}.

Lemma upd_Some p f c v : vnodes c !! p = Some v -> upd p f c = Ret (with_vnodes (<[p := f v]> (vnodes c)) c).
Proof. intros E. unfold upd. by rewrite E. Qed.

Lemma wait_unlocked p c v : vnodes c !! p = Some v -> locked v = false -> 0 <= refs v < 2 ^ 32 - 1 ->
  VNodeWaitOn p c = Ret c.
Proof.
  intros E L B. unfold VNodeWaitOn. rewrite E. cbn [of_option bindO]. unfold locked in L.
  rewrite L, (upd_Some _ _ _ _ E), (u32_id (refs v + 1)), u32_id by lia.
  replace (refs v + 1 - 1) with (refs v) by lia.
  f_equal. destruct c, v; cbn in *. unfold with_vnodes, set_refs. cbn. by rewrite insert_id.
Qed.

(** A listed vNode changes but keeps its id: the table and the store may
    change for that node. *)
Lemma vrep_set n xs c held V R p v w V' s : vrep n xs c held V R -> p ∈ xs -> vnodes c !! p = Some v ->
  id w = id v -> 0 < refs w < 2 ^ 32 - 1 -> locked w = false -> info w = V' (id v) ->
  (dirty w = false -> readVNode (id v) zero s = (0, info w)) ->
  (forall j, j <> id v -> V' j = V j /\ readVNode j zero s = readVNode j zero (store c)) ->
  vrep n xs {| vnodes := <[p := w]> (vnodes c); links := links c; vNodeCache := vNodeCache c; store := s |}
    held V' (<[id v := refs w]> R).
Proof.
  intros I Hp Hv Ei Rw Lw Iw Dw Ot.
  destruct (vr_used _ _ _ _ _ _ I p Hp) as (Bp & v' & Hv' & Nv). assert (v' = v) as -> by congruence.
  split; cbn; try apply I.
  - intros q Hq. destruct (vr_free _ _ _ _ _ _ I q Hq) as (Bq & Cq & Aq).
    rewrite lookup_insert_ne; [done|]. intros ->. by destruct Bq.
  - intros q Hq. destruct (vr_used _ _ _ _ _ _ I q Hq) as (Bq & u & Hu & Nu). split; [done|].
    destruct (decide (p = q)) as [<-|Npq].
    + exists w. rewrite lookup_insert_eq. split; [done|].
      split; rewrite ?Ei, ?lookup_insert_eq; cbn; try done. apply (nr_held _ _ _ _ _ _ Nv).
    + exists u. rewrite lookup_insert_ne by done. split; [done|].
      assert (id u <> id v) as Nid.
      { intros E. apply Npq. apply (nr_held _ _ _ _ _ _) in Nu, Nv. congruence. }
      destruct Nu. destruct (Ot (id u) Nid) as [EV ES]. split; cbn; try done.
      * by rewrite lookup_insert_ne.
      * by rewrite EV.
      * by rewrite ES.
  - intros i r. rewrite lookup_insert_Some. intros [[<- _]|[Ni Hi]].
    + exists p, w. by rewrite lookup_insert_eq.
    + destruct (vr_refs _ _ _ _ _ _ I i r Hi) as (q & u & Hq & Hu & <-).
      exists q, u. rewrite lookup_insert_ne; [done|]. intros ->. congruence.
  - intros i Oi. rewrite lookup_insert_None. intros [Hi Ni]. destruct (Ot i) as [-> ->]; [done|].
    by apply (vr_disk _ _ _ _ _ _ I).
  - rewrite map_size_insert_Some; [apply I|]. by eexists; apply (nr_refs _ _ _ _ _ _ Nv).
Qed.

(** *** Walks over the list *)

Definition has_id c (i p : Z) : bool :=
  match vnodes c !! p with Some v => id v =? i | None => false end.

Lemma walk_next c pre p ys : clist (links c) head (vn_next <$> (pre ++ p :: ys)) ->
  get_next (vn_next p) (links c) = Ret (List.hd head (vn_next <$> ys)) /\ (vn_next p =? head) = false.
Proof.
  rewrite fmap_app, fmap_cons. intros C. destruct (clist_entry _ _ _ _ _ C) as (E & _).
  unfold get_next. rewrite E. split; [done|]. apply Z.eqb_neq. intros E'. destruct C as [ND _].
  apply NoDup_cons in ND as [N _]. apply N. rewrite <- E'. apply elem_of_app. right. constructor.
Qed.

Lemma find_node_walk c i : forall ys pre fuel,
  clist (links c) head (vn_next <$> (pre ++ ys)) -> (length ys < fuel)%nat ->
  (forall p, p ∈ ys -> 0 <= p /\ vn_next p < 2 ^ 32 /\ is_Some (vnodes c !! p)) ->
  find_node head fuel (List.hd head (vn_next <$> ys)) i c = Ret (default 0 (List.find (has_id c i) ys)).
Proof.
  induction ys as [|p ys IH]; intros pre fuel C Hf Q; (destruct fuel as [|fuel]; [cbn in Hf; lia|]).
  - cbn. by rewrite Z.eqb_refl.
  - destruct (walk_next c pre p ys C) as [En Eh]. destruct (Q p) as (B1 & B2 & [v Hv]); [constructor|].
    cbn [find_node fmap list_fmap List.hd List.find]. rewrite Eh, vn_next_entry, Hv by done.
    unfold has_id at 1. rewrite Hv. cbn [of_option bindO]. destruct (id v =? i); [done|]. rewrite En. cbn [bindO].
    rewrite (IH (pre ++ [p])); [done|by rewrite <- app_assoc|cbn in Hf; lia|]. intros q Hq. apply Q. by constructor.
Qed.

Lemma used_bounds n xs c held V R p : vrep n xs c held V R -> p ∈ xs ->
  0 <= p /\ vn_next p < 2 ^ 32 /\ is_Some (vnodes c !! p).
Proof.
  intros I Hp. destruct (vr_used _ _ _ _ _ _ I p Hp) as ([B1 B2] & v & Hv & _).
  split; [lia|]. split; [done|]. by exists v.
Qed.

Lemma first_node c xs : clist (links c) head (vn_next <$> xs) ->
  get_next head (links c) = Ret (List.hd head (vn_next <$> xs)).
Proof.
  intros C. pose proof (clist_split_linked _ _ [] _ C) as [E _]. cbn [List.last] in E.
  unfold get_next. by rewrite E.
Qed.

Lemma node_by_id n xs c held V R p q v w : vrep n xs c held V R -> p ∈ xs -> q ∈ xs ->
  vnodes c !! p = Some v -> vnodes c !! q = Some w -> id v = id w -> p = q.
Proof.
  intros I Hp Hq Hv Hw E. destruct (vr_used _ _ _ _ _ _ I p Hp) as (_ & v' & Hv' & Nv).
  destruct (vr_used _ _ _ _ _ _ I q Hq) as (_ & w' & Hw' & Nw).
  apply (nr_held _ _ _ _ _ _) in Nv, Nw. congruence.
Qed.

Lemma find_held n xs c held V R i r : vrep n xs c held V R -> R !! i = Some r -> exists p v,
  p ∈ xs /\ vnodes c !! p = Some v /\ id v = i /\ refs v = r /\ held !! i = Some p
  /\ List.find (has_id c i) xs = Some p.
Proof.
  intros I Hi. destruct (vr_refs _ _ _ _ _ _ I i r Hi) as (p & v & Hp & Hv & <-).
  destruct (vr_used _ _ _ _ _ _ I p Hp) as (_ & v' & Hv' & Nv). assert (v' = v) as -> by congruence.
  pose proof (nr_refs _ _ _ _ _ _ Nv) as Hr. exists p, v. split_and!; try done; [congruence|apply Nv|].
  destruct (List.find (has_id c (id v)) xs) as [q|] eqn:F.
  - apply List.find_some in F as [Hq%list_elem_of_In F]. unfold has_id in F.
    destruct (vnodes c !! q) as [w|] eqn:Hw; [|done]. apply Z.eqb_eq in F.
    by rewrite (node_by_id _ _ _ _ _ _ p q v w I Hp Hq Hv Hw).
  - apply list_elem_of_In, (List.find_none _ _ F) in Hp. unfold has_id in Hp. by rewrite Hv, Z.eqb_refl in Hp.
Qed.

Lemma find_unheld n xs c held V R i : vrep n xs c held V R -> R !! i = None -> List.find (has_id c i) xs = None.
Proof.
  intros I Hi. destruct (List.find (has_id c i) xs) as [q|] eqn:F; [|done].
  apply List.find_some in F as [Hq%list_elem_of_In F]. unfold has_id in F.
  destruct (vr_used _ _ _ _ _ _ I q Hq) as (_ & w & Hw & Nw). rewrite Hw in F. apply Z.eqb_eq in F.
  apply (nr_refs _ _ _ _ _ _) in Nw. congruence.
Qed.

Lemma VNodeFind_walk n xs c held V R i fuel : vrep n xs c held V R -> (length xs < fuel)%nat ->
  VNodeFind head fuel i c = let* curr := Ret (default 0 (List.find (has_id c i) xs)) in
    if curr =? 0 then Ret (0, c)
    else let* c := upd curr (fun v => set_refs (u32 (refs v + 1)) v) c in
         let* c := VNodeWaitOn curr c in Ret (curr, c).
Proof.
  intros I Hf. unfold VNodeFind. rewrite (first_node c xs) by apply I. cbn [bindO].
  rewrite (find_node_walk c i xs [] fuel); [done|apply I|done|]. intros q. apply (used_bounds _ _ _ _ _ _ _ I).
Qed.

(** *** VNodeGet *)

(** A node in use is shared. *)
Lemma VNodeGet_hit n xs c held V R i r fuel : vrep n xs c held V R -> (length xs < fuel)%nat ->
  R !! i = Some r -> r + 1 < 2 ^ 32 - 1 -> exists p v c',
  VNodeGet pick head zero fuel i c = Ret (p, c') /\ held !! i = Some p /\ vnodes c !! p = Some v
  /\ vnodes c' = <[p := set_refs (r + 1) v]> (vnodes c) /\ info v = V i /\ vrep n xs c' held V (<[i := r + 1]> R).
Proof.
  intros I Hf Hi Hr. destruct (find_held _ _ _ _ _ _ _ _ I Hi) as (p & v & Hp & Hv & Ei & Er & Hh & F).
  destruct (vr_used _ _ _ _ _ _ I p Hp) as ([Bp _] & v' & Hv' & Nv). assert (v' = v) as -> by congruence.
  pose proof (nr_range _ _ _ _ _ _ Nv). pose proof (nr_unlocked _ _ _ _ _ _ Nv) as Lv.
  exists p, v, (with_vnodes (<[p := set_refs (r + 1) v]> (vnodes c)) c). split_and!; try done.
  - unfold VNodeGet. rewrite (VNodeFind_walk _ _ _ _ _ _ _ _ I Hf), F. change (default 0 (Some p)) with p. cbn [bindO].
    destruct (Z.eqb_spec p 0); [lia|]. rewrite (upd_Some _ _ _ _ Hv), Er, u32_id by lia. cbn [bindO].
    rewrite (wait_unlocked p _ (set_refs (r + 1) v)); [|apply lookup_insert_eq|done|cbn; lia]. cbn [bindO].
    unfold c_true. by destruct (Z.eqb_spec p 0).
  - rewrite (nr_info _ _ _ _ _ _ Nv). by rewrite Ei.
  - pose proof (vrep_set n xs c held V R p v (set_refs (r + 1) v) V (store c) I Hp Hv) as W. rewrite Ei in W.
    apply W; cbn; try done; [lia|rewrite <- Ei; apply Nv|]. intros D. pose proof (nr_clean _ _ _ _ _ _ Nv D). congruence.
Qed.

(** A node that is not in use gets a structure. *)
Lemma VNodeGet_miss n xs c held V R i fuel : vrep n xs c held V R -> (length xs < fuel)%nat ->
  R !! i = None -> (size R < n)%nat -> exists p h',
  p ∈ vNodeCache c /\ clist h' head (vn_next <$> (xs ++ [p])) /\ frame (vn_next p :: head :: (vn_next <$> xs)) (links c) h'
  /\ let (ret, a) := readVNode i zero (store c) in
     let c1 := {| vnodes := <[p := {| id := i; refs := 1; flags := 0; info := a |}]> (vnodes c);
                  links := h'; vNodeCache := vNodeCache c ∖ {[p]}; store := store c |} in
     VNodeGet pick head zero fuel i c =
       if c_true ret then let* c := cache_free zero p c1 in Ret (0, c) else Ret (p, c1).
Proof.
  intros I Hf Hi Hn. pose proof (vr_size _ _ _ _ _ _ I). pose proof (vr_pool _ _ _ _ _ _ I).
  destruct (pick (vNodeCache c)) as [p|] eqn:Ep.
  2: { rewrite (pick_empty _ Ep), size_empty in *. lia. }
  pose proof (pick_in _ _ Ep) as Hp. destruct (vr_free _ _ _ _ _ _ I p Hp) as ((Np & Bp & _ & Nh) & Cp & Ap).
  destruct (ListAddTail_clist _ _ _ (vn_next p) (vr_list _ _ _ _ _ _ I) Ap) as (h' & Eh & Ch & Fh).
  { rewrite elem_of_cons, (list_elem_of_fmap_inj vn_next). naive_solver. }
  exists p, h'. split; [done|]. split; [by rewrite fmap_app|]. split; [done|].
  unfold VNodeGet. rewrite (VNodeFind_walk _ _ _ _ _ _ _ _ I Hf), (find_unheld _ _ _ _ _ _ _ I Hi).
  cbn [default bindO from_option]. change (0 =? 0) with true. cbn [bindO]. change (c_true 0) with false. cbn iota.
  unfold VNodeAlloc, cache_alloc. rewrite Ep. destruct (Z.eqb_spec p 0); [lia|].
  rewrite (upd_Some p _ _ (constructed zero)) by done. cbn [bindO]. unfold VNodeLock. cbn [vnodes with_vnodes].
  rewrite lookup_insert_eq. cbn [of_option bindO]. change (Z.testbit _ VNODE_LOCKED) with false. cbn iota.
  erewrite upd_Some by apply lookup_insert_eq. cbn [bindO links with_vnodes with_cache]. rewrite Eh. cbn [bindO].
  unfold VNodeRead. destruct (Z.eqb_spec p 0); [lia|]. cbn [vnodes with_vnodes with_links]. rewrite lookup_insert_eq.
  cbn [of_option bindO]. cbn [id info set_flags set_id constructed store with_links with_vnodes with_cache].
  destruct (readVNode i zero (store c)) as [ret a]. erewrite upd_Some by apply lookup_insert_eq. cbn [bindO].
  unfold VNodeUnlock. erewrite upd_Some by apply lookup_insert_eq. cbn [bindO vnodes with_vnodes with_links].
  rewrite !insert_insert_eq. by destruct (c_true ret).
Qed.

(** Taking structure [p] for node [i]. *)
Lemma vrep_take n xs c held V R i p h' : vrep n xs c held V R -> R !! i = None -> p ∈ vNodeCache c ->
  clist h' head (vn_next <$> (xs ++ [p])) -> frame (vn_next p :: head :: (vn_next <$> xs)) (links c) h' ->
  readVNode i zero (store c) = (0, V i) ->
  vrep n (xs ++ [p]) {| vnodes := <[p := {| id := i; refs := 1; flags := 0; info := V i |}]> (vnodes c);
    links := h'; vNodeCache := vNodeCache c ∖ {[p]}; store := store c |} (<[i := p]> held) V (<[i := 1]> R).
Proof.
  intros I Hi Hp C F Er. destruct (vr_free _ _ _ _ _ _ I p Hp) as ((Np & Bp & Bp' & Nh) & Cp & Ap).
  assert (Ne : forall q, q ∈ xs -> p <> q) by congruence.
  split; cbn; try done.
  - intros q. rewrite elem_of_difference, elem_of_app, !elem_of_singleton, list_elem_of_singleton. intros [Hq Nq].
    destruct (vr_free _ _ _ _ _ _ I q Hq) as (Bq & Cq & Aq). split; [naive_solver|].
    rewrite lookup_insert_ne by done. split; [done|]. by apply F.
  - intros q. rewrite elem_of_app, list_elem_of_singleton. intros [Hq| ->].
    + destruct (vr_used _ _ _ _ _ _ I q Hq) as (Bq & u & Hu & []). split; [done|]. exists u.
      rewrite lookup_insert_ne by auto. split; [done|].
      assert (i <> id u) by congruence. by split; rewrite ?lookup_insert_ne.
    + split; [done|]. eexists. rewrite lookup_insert_eq. split; [done|]. by split; cbn; rewrite ?lookup_insert_eq.
  - intros j r. rewrite lookup_insert_Some. intros [[<- _]|[Nj Hj]].
    + exists p. eexists. rewrite lookup_insert_eq, elem_of_app, list_elem_of_singleton. by split; [right|].
    + destruct (vr_refs _ _ _ _ _ _ I j r Hj) as (q & u & Hq & Hu & Eu). exists q, u.
      rewrite elem_of_app, lookup_insert_ne by auto. by split; [left|].
  - intros j Oj. rewrite lookup_insert_None. intros [Hj _]. by apply (vr_disk _ _ _ _ _ _ I).
  - rewrite map_size_insert_None, length_app by done. cbn. rewrite (vr_size _ _ _ _ _ _ I). lia.
  - rewrite length_app, size_difference, size_singleton by set_solver. cbn.
    pose proof (vr_pool _ _ _ _ _ _ I). assert (size (vNodeCache c) <> 0%nat); [|lia].
    intros E. apply size_empty_inv in E. set_solver.
Qed.


(** *** Writing and releasing *)

Lemma VNodeWrite_rep n xs c held V R p v : vrep n xs c held V R -> p ∈ xs -> vnodes c !! p = Some v ->
  exists w c', VNodeWrite p c = Ret c' /\ id w = id v /\ refs w = refs v /\ dirty w = false
    /\ vnodes c' = <[p := w]> (vnodes c) /\ links c' = links c /\ vrep n xs c' held V R.
Proof.
  intros I Hp Hv. destruct (vr_used _ _ _ _ _ _ I p Hp) as ([Bp _] & v' & Hv' & Nv).
  assert (v' = v) as -> by congruence. pose proof (nr_unlocked _ _ _ _ _ _ Nv) as Lv.
  unfold VNodeWrite. destruct (Z.eqb_spec p 0); [lia|]. rewrite Hv. cbn [of_option bindO].
  change (Z.testbit (flags v) VNODE_DIRTY) with (dirty v). destruct (dirty v) eqn:Dv; cbn [negb].
  2: { exists v, c. by rewrite insert_id. }
  set (w := set_flags (Z.clearbit (Z.clearbit (Z.setbit (flags v) VNODE_LOCKED) VNODE_DIRTY) VNODE_LOCKED) v).
  assert (Lw : locked w = false) by apply Z.clearbit_eq.
  assert (Dw : dirty w = false) by (unfold dirty; cbn [w set_flags flags]; rewrite Z.clearbit_neq by done; apply Z.clearbit_eq).
  eexists w, {| vnodes := <[p := w]> (vnodes c); links := links c; vNodeCache := vNodeCache c;
                store := writeVNode (id v) (info v) (store c) |}.
  split_and!; try done.
  - unfold VNodeLock. rewrite Hv. cbn [of_option bindO]. unfold locked in Lv. rewrite Lv, (upd_Some _ _ _ _ Hv). cbn [bindO].
    erewrite upd_Some by apply lookup_insert_eq. cbn [bindO]. unfold VNodeUnlock.
    erewrite upd_Some by apply lookup_insert_eq. cbn [vnodes with_vnodes with_store]. by rewrite !insert_insert_eq.
  - rewrite <- (insert_id R (id v) (refs w)) by apply (nr_refs _ _ _ _ _ _ Nv).
    apply vrep_set with V; try done; [apply Nv..|intros _; apply read_written|].
    intros j Nj. by rewrite read_other.
Qed.

(** Structure [p] goes back to the cache. *)
Lemma vrep_drop n xs1 xs2 c held V R p v h : vrep n (xs1 ++ p :: xs2) c held V R -> vnodes c !! p = Some v ->
  dirty v = false -> clist h head (vn_next <$> (xs1 ++ xs2)) -> (forall q, allocated (links c) q -> allocated h q) ->
  vrep n (xs1 ++ xs2) {| vnodes := <[p := constructed zero]> (vnodes c); links := h;
    vNodeCache := {[p]} ∪ vNodeCache c; store := store c |} held V (delete (id v) R).
Proof.
  intros I Hv Dv C F. assert (Hp : p ∈ xs1 ++ p :: xs2) by (apply elem_of_app; right; constructor).
  destruct (vr_used _ _ _ _ _ _ I p Hp) as ((Bp & Bp') & v' & Hv' & Nv). assert (v' = v) as -> by congruence.
  pose proof (vr_list _ _ _ _ _ _ I) as [ND Ch].
  assert (Nh : vn_next p <> head).
  { intros E. apply NoDup_cons in ND as [ND _]. apply ND. rewrite <- E. by apply list_elem_of_fmap_2. }
  assert (Np : p ∉ xs1 ++ xs2).
  { apply NoDup_cons in ND as [_ ND]. apply NoDup_fmap_1 in ND. rewrite <- Permutation_middle in ND. by apply NoDup_cons in ND as [? _]. }
  assert (Hin : forall q, q ∈ xs1 ++ xs2 -> q ∈ xs1 ++ p :: xs2 /\ p <> q).
  { intros q Hq. split; [|congruence]. rewrite elem_of_app, elem_of_cons. apply elem_of_app in Hq. tauto. }
  split; cbn; try done.
  - intros q. rewrite elem_of_union, elem_of_singleton. destruct (decide (p = q)) as [<-|Nq].
    + intros _. rewrite lookup_insert_eq. split_and!; try done.
      apply F, (clist_allocated _ _ _ _ (vr_list _ _ _ _ _ _ I)). apply elem_of_cons. right. by apply list_elem_of_fmap_2.
    + intros [->|Hq]; [done|]. destruct (vr_free _ _ _ _ _ _ I q Hq) as ((Nx & Bq) & Cq & Aq).
      rewrite lookup_insert_ne by done. split_and!; try apply Bq; auto. intros Hx. by apply Nx, Hin.
  - intros q Hq. destruct (Hin q Hq) as [Hq' Nq].
    destruct (vr_used _ _ _ _ _ _ I q Hq') as (Bq & u & Hu & Nu). split; [done|]. exists u.
    rewrite lookup_insert_ne by done. split; [done|].
    assert (id u <> id v). { intros E. apply Nq. by apply (node_by_id _ _ _ _ _ _ p q v u I). }
    destruct Nu. by split; rewrite ?lookup_delete_ne.
  - intros i r. rewrite lookup_delete_Some. intros [Ni Hi].
    destruct (vr_refs _ _ _ _ _ _ I i r Hi) as (q & u & Hq & Hu & Eu). exists q, u.
    assert (p <> q) by congruence. rewrite lookup_insert_ne by done. split; [|done].
    rewrite elem_of_app, elem_of_cons in Hq. rewrite elem_of_app. naive_solver.
  - intros i Oi. rewrite lookup_delete_None. intros [<-|Hi].
    + rewrite (nr_clean _ _ _ _ _ _ Nv Dv). by rewrite (nr_info _ _ _ _ _ _ Nv).
    + by apply (vr_disk _ _ _ _ _ _ I).
  - rewrite map_size_delete_Some by (eexists; apply (nr_refs _ _ _ _ _ _ Nv)). rewrite (vr_size _ _ _ _ _ _ I), !length_app. cbn. lia.
  - rewrite size_union, size_singleton.
    + pose proof (vr_pool _ _ _ _ _ _ I) as P. rewrite !length_app in *. cbn in *. lia.
    + apply disjoint_singleton_l. intros Hc. by destruct (vr_free _ _ _ _ _ _ I p Hc) as ([] & _).
Qed.

(** The last reference goes and the node is clean. *)
Lemma release_clean n xs c held V R p v fuel : vrep n xs c held V R -> p ∈ xs -> vnodes c !! p = Some v ->
  refs v = 1 -> dirty v = false -> exists ys c',
  release zero (Datatypes.S fuel) p c = Ret c' /\ vrep n ys c' held V (delete (id v) R).
Proof.
  intros I Hp Hv Hr Hd. destruct (vr_used _ _ _ _ _ _ I p Hp) as ((Bp & Bp') & v' & Hv' & Nv).
  cbn [release]. rewrite Hv. cbn [of_option bindO]. rewrite Hr.
  change (1 <? 1) with false. unfold dirty in Hd. rewrite Hd, (upd_Some _ _ _ _ Hv). cbn [bindO].
  cbn [vnodes with_vnodes]. rewrite lookup_insert_eq. cbn [of_option bindO refs set_refs]. rewrite Hr.
  change (c_true (u32 (1 - 1))) with false. cbn iota.
  destruct (list_elem_of_split _ _ Hp) as (xs1 & xs2 & ->).
  pose proof (vr_list _ _ _ _ _ _ I) as C. rewrite fmap_app, fmap_cons in C.
  destruct (ListRemove_clist _ _ _ _ _ C) as (h1 & E1 & C1 & F1). cbn [links with_vnodes]. rewrite E1. cbn [bindO].
  assert (A1 : allocated h1 (vn_next p)).
  { apply F1, (clist_allocated _ _ _ _ C). apply elem_of_cons. right. apply elem_of_app. right. constructor. }
  unfold cache_free, VNodeCtor. destruct (Z.eqb_spec p 0); [lia|]. cbn [links with_links].
  destruct (INIT_LIST_HEAD_clist _ _ A1) as (h2 & E2 & _ & F2). rewrite E2. cbn [bindO].
  exists (xs1 ++ xs2), {| vnodes := <[p := constructed zero]> (vnodes c); links := h2;
    vNodeCache := {[p]} ∪ vNodeCache c; store := store c |}.
  split; [unfold with_cache, with_links, with_vnodes; cbn; by rewrite insert_insert_eq|].
  apply vrep_drop; try done.
  - rewrite fmap_app. apply (clist_frame _ _ _ _ _ F2 C1). intros q Hq. rewrite list_elem_of_singleton. intros ->.
    destruct C as [ND _]. rewrite <- Permutation_middle, Permutation_swap in ND. by apply NoDup_cons in ND as [N _].
  - intros q Aq. by apply F2, F1.
Qed.

Lemma VNodeRelease_rep n xs c held V R i r p : vrep n xs c held V R -> R !! i = Some r -> held !! i = Some p ->
  exists ys c', VNodeRelease zero 2 p c = Ret c'
    /\ vrep n ys c' held V (if r =? 1 then delete i R else <[i := r - 1]> R).
Proof.
  intros I Hi Hh. destruct (find_held _ _ _ _ _ _ _ _ I Hi) as (p' & v & Hp & Hv & Ei & Er & Hh' & _).
  assert (p' = p) as -> by congruence.
  destruct (vr_used _ _ _ _ _ _ I p Hp) as ((Bp & Bp') & v' & Hv' & Nv). assert (v' = v) as -> by congruence.
  pose proof (nr_range _ _ _ _ _ _ Nv). pose proof (nr_unlocked _ _ _ _ _ _ Nv) as Lv.
  unfold VNodeRelease. destruct (Z.eqb_spec p 0); [lia|]. rewrite (wait_unlocked p c v) by (done || lia). cbn [bindO].
  rewrite Hv. cbn [of_option bindO]. destruct (Z.eqb_spec (refs v) 0); [lia|].
  destruct (Z.eqb_spec r 1) as [E1|N1].
  - destruct (dirty v) eqn:Dv.
    + destruct (VNodeWrite_rep _ _ _ _ _ _ _ _ I Hp Hv) as (w & c1 & Ew & Wi & Wr & Wd & Wv & _ & I1).
      destruct (vr_used _ _ _ _ _ _ I1 p Hp) as (_ & w' & Hw' & Nw).
      assert (Hw : vnodes c1 !! p = Some w) by (rewrite Wv; apply lookup_insert_eq).
      assert (w' = w) as -> by congruence.
      destruct (release_clean _ _ _ _ _ _ p w 0 I1 Hp Hw) as (ys & c2 & E2 & I2); [lia|done|].
      exists ys, c2. rewrite Wi, Ei in I2. split; [|done]. rewrite <- E2. cbn [release] in E2 |- *.
      rewrite Hv. cbn [of_option bindO]. rewrite Er, E1. change (1 <? 1) with false. cbn iota.
      unfold dirty in Dv. rewrite Dv, Ew. cbn [bindO].
      by rewrite (wait_unlocked p c1 w) by (apply Nw || apply Hw || (pose proof (nr_range _ _ _ _ _ _ Nw); lia)).
    + destruct (release_clean _ _ _ _ _ _ p v 1 I Hp Hv) as (ys & c2 & E2 & I2); [lia|done|].
      exists ys, c2. by rewrite Ei in I2.
  - exists xs, (with_vnodes (<[p := set_refs (r - 1) v]> (vnodes c)) c). split.
    + cbn [release]. rewrite Hv. cbn [of_option bindO]. destruct (Z.ltb_spec 1 (refs v)); [|lia].
      by rewrite (upd_Some _ _ _ _ Hv), Er, u32_id by lia.
    + pose proof (vrep_set n xs c held V R p v (set_refs (r - 1) v) V (store c) I Hp Hv) as W. rewrite Ei in W.
      apply W; cbn; try done; [lia|rewrite <- Ei; apply Nv|]. intros D. pose proof (nr_clean _ _ _ _ _ _ Nv D). congruence.
Qed.

(** *** Synchronising *)

Lemma sync_nodes_rep n xs held V R : forall ys pre c fuel, xs = pre ++ ys -> vrep n xs c held V R ->
  (length ys < fuel)%nat -> (forall p v, p ∈ pre -> vnodes c !! p = Some v -> dirty v = false) ->
  exists c', sync_nodes head fuel (List.hd head (vn_next <$> ys)) c = Ret c' /\ vrep n xs c' held V R
    /\ (forall p v, p ∈ xs -> vnodes c' !! p = Some v -> dirty v = false).
Proof.
  induction ys as [|p ys IH]; intros pre c fuel E I Hf Q; (destruct fuel as [|fuel]; [cbn in Hf; lia|]).
  - exists c. rewrite app_nil_r in E. subst pre. cbn. by rewrite Z.eqb_refl.
  - assert (Hp : p ∈ xs) by (rewrite E; apply elem_of_app; right; constructor).
    destruct (walk_next c pre p ys) as [En Eh]; [rewrite <- E; apply I|].
    destruct (used_bounds _ _ _ _ _ _ _ I Hp) as (B1 & B2 & [v Hv]).
    cbn [sync_nodes fmap list_fmap List.hd]. rewrite Eh, vn_next_entry, En by done. cbn [bindO].
    rewrite Hv. cbn [of_option bindO].
    destruct (VNodeWrite_rep _ _ _ _ _ _ _ _ I Hp Hv) as (w & c1 & Ew & _ & _ & Wd & Wv & _ & I1).
    assert (Step : exists c1, (if Z.testbit (flags v) VNODE_DIRTY then VNodeWrite p c else Ret c) = Ret c1
      /\ vrep n xs c1 held V R /\ (forall q u, q ∈ pre ++ [p] -> vnodes c1 !! q = Some u -> dirty u = false)).
    { destruct (Z.testbit (flags v) VNODE_DIRTY) eqn:D; [exists c1|exists c]; split_and!; try done;
        intros q u; rewrite elem_of_app, list_elem_of_singleton, ?Wv; [rewrite lookup_insert_Some|]; naive_solver. }
    destruct Step as (c2 & -> & I2 & Q2). cbn [bindO].
    apply (IH (pre ++ [p])); [by rewrite <- app_assoc|done|cbn in Hf; lia|done].
Qed.

Lemma VNodeSyncAll_rep n xs c held V R fuel : vrep n xs c held V R -> (length xs < fuel)%nat ->
  exists c', VNodeSyncAll head fuel c = Ret c' /\ vrep n xs c' held V R
    /\ (forall p v, p ∈ xs -> vnodes c' !! p = Some v -> dirty v = false).
Proof.
  intros I Hf. unfold VNodeSyncAll. rewrite (first_node c xs) by apply I. cbn [bindO].
  apply (sync_nodes_rep n xs held V R xs []); try done. intros p v Hp. by apply not_elem_of_nil in Hp.
Qed.

(** *** Sequences of operations *)

Lemma run_node_op_rep n xs c held V R o fuel : vrep n xs c held V R -> (size R <= n)%nat -> (n < fuel)%nat ->
  node_op_ok n ok o R -> let '(x, V', R') := spec_node_op o V R in exists ys held' c',
  run_node_op pick head zero fuel o held c = Ret (x, held', c') /\ vrep n ys c' held' V' R' /\ (size R' <= n)%nat.
Proof.
  intros I Hn Hf Ho. pose proof (vr_size _ _ _ _ _ _ I) as Sz.
  destruct o as [i|i a|i|]; cbn [spec_node_op run_node_op].
  - destruct Ho as (Oi & Hr & Hm). destruct (R !! i) as [r|] eqn:Hi; cbn [default from_option] in *.
    + destruct (VNodeGet_hit _ _ _ _ _ _ _ _ fuel I ltac:(lia) Hi Hr) as (p & v & c' & -> & Hh & Hv & Ev & Iv & I').
      cbn [bindO]. rewrite Ev, lookup_insert_eq. cbn [of_option bindO info set_refs]. rewrite Iv, insert_id by done.
      exists xs, held, c'. split_and!; try done. rewrite map_size_insert_Some by done. lia.
    + destruct (VNodeGet_miss _ _ _ _ _ _ _ fuel I ltac:(lia) Hi (Hm eq_refl)) as (p & h' & Hp & C & F & E).
      pose proof (vr_disk _ _ _ _ _ _ I i Oi Hi) as Er. rewrite Er in E. rewrite E.
      cbn [bindO c_true Z.eqb negb vnodes]. change (c_true 0) with false. cbn iota. cbn [bindO vnodes].
      rewrite lookup_insert_eq. cbn [of_option bindO info].
      pose proof (vrep_take _ _ _ _ _ _ _ _ _ I Hi Hp C F Er) as I'.
      eexists _, _, _. split; [reflexivity|]. split; [exact I'|]. rewrite map_size_insert_None by done. specialize (Hm eq_refl). lia.
  - destruct Ho as [r Hi]. destruct (find_held _ _ _ _ _ _ _ _ I Hi) as (p & v & Hp & Hv & Ei & Er & Hh & _).
    destruct (vr_used _ _ _ _ _ _ I p Hp) as (_ & v' & Hv' & Nv). assert (v' = v) as -> by congruence.
    rewrite Hh. cbn [of_option bindO]. rewrite (upd_Some _ _ _ _ Hv). cbn [bindO]. eexists _, _, _. split; [reflexivity|].
    split; [|done].
    pose proof (vrep_set n xs c held V R p v (set_flags (Z.setbit (flags v) VNODE_DIRTY) (set_info a v))
      (<[i := a]> V) (store c) I Hp Hv) as W. rewrite Ei in W. cbn [refs set_flags set_info] in W.
    rewrite (insert_id R i) in W by congruence. apply W; try done.
    + apply Nv.
    + unfold locked. cbn [flags set_flags]. rewrite Z.setbit_neq by done. apply Nv.
    + by rewrite fn_lookup_insert.
    + unfold dirty. cbn [flags set_flags]. by rewrite Z.setbit_eq.
    + intros j Nj. by rewrite fn_lookup_insert_ne.
  - destruct Ho as [r Hi]. destruct (find_held _ _ _ _ _ _ _ _ I Hi) as (p & v & _ & _ & _ & _ & Hh & _).
    rewrite Hh. cbn [of_option bindO]. destruct (VNodeRelease_rep _ _ _ _ _ _ _ _ _ I Hi Hh) as (ys & c' & -> & I').
    rewrite Hi. exists ys, held, c'. split_and!; [done..|]. cbn. destruct (r =? 1).
    + rewrite map_size_delete_Some by done. lia.
    + rewrite map_size_insert_Some by done. lia.
  - destruct (VNodeSyncAll_rep _ _ _ _ _ _ fuel I ltac:(lia)) as (c' & -> & I' & _). by exists xs, held, c'.
Qed.

Lemma run_node_ops_rep n os fuel : forall xs c held V R, vrep n xs c held V R -> (size R <= n)%nat -> (n < fuel)%nat ->
  node_ops_ok n ok os V R -> let '(rs, V', R') := spec_node_ops os V R in exists ys held' c',
  run_node_ops pick head zero fuel os held c = Ret (rs, held', c') /\ vrep n ys c' held' V' R'.
Proof.
  induction os as [|o os IH]; intros xs c held V R I Hn Hf Ho; [by exists xs, held, c|].
  cbn [node_ops_ok spec_node_ops run_node_ops] in *. destruct Ho as [Ho Hos].
  pose proof (run_node_op_rep _ _ _ _ _ _ o fuel I Hn Hf Ho) as W.
  destruct (spec_node_op o V R) as [[x V1] R1]. destruct W as (ys & held1 & c1 & -> & I1 & Hn1). cbn [bindO].
  specialize (IH _ _ _ _ _ I1 Hn1 Hf Hos). destruct (spec_node_ops os V1 R1) as [[rs V2] R2].
  destruct IH as (zs & held2 & c2 & -> & I2). by exists zs, held2, c2.
Qed.

(** No vNode is in use. *)
Lemma vrep_fresh c V : clist (links c) head [] ->
  (forall p, p ∈ vNodeCache c -> (0 < p /\ vn_next p < 2 ^ 32 /\ vn_next p <> head)
    /\ vnodes c !! p = Some (constructed zero) /\ allocated (links c) (vn_next p)) ->
  (forall i, ok i = true -> readVNode i zero (store c) = (0, V i)) ->
  vrep (size (vNodeCache c)) [] c ∅ V ∅.
Proof.
  intros C Q D. split; try done.
  - intros p Hp. destruct (Q p Hp) as (B & E). split_and!; try apply B; try apply E. apply not_elem_of_nil.
  - intros p Hp. by apply not_elem_of_nil in Hp.
  - intros i Oi _. by apply D.
Qed.

(** C4: from a superblock without vNodes, every sequence of operations that gets and releases
    nodes, changes held ones and synchronises gives the results of the table of nodes,
    whatever is shared, dropped and written back on the way; it always ends.  The nodes asked for are ones the
    file system can read (see VNodeGet_error_hangs for the others). *)
Theorem vnode_cache_refines c V os fuel : clist (links c) head [] ->
  (forall p, p ∈ vNodeCache c -> (0 < p /\ vn_next p < 2 ^ 32 /\ vn_next p <> head)
    /\ vnodes c !! p = Some (constructed zero) /\ allocated (links c) (vn_next p)) ->
  (forall i, ok i = true -> readVNode i zero (store c) = (0, V i)) ->
  node_ops_ok (size (vNodeCache c)) ok os V ∅ -> (size (vNodeCache c) < fuel)%nat ->
  let '(rs, V', R') := spec_node_ops os V ∅ in exists xs held c',
  run_node_ops pick head zero fuel os ∅ c = Ret (rs, held, c') /\ vrep (size (vNodeCache c)) xs c' held V' R'.
Proof.
  intros C Q D Ho Hf. apply (run_node_ops_rep _ os fuel []); try done; [by apply vrep_fresh|]. rewrite map_size_empty. lia.
Qed.

(** VNodeSyncAll leaves every node in the file system with the contents clients see,
    and changes nothing that they see. *)
Theorem VNodeSyncAll_stores n xs c held V R fuel : vrep n xs c held V R -> (length xs < fuel)%nat ->
  exists c', VNodeSyncAll head fuel c = Ret c' /\ vrep n xs c' held V R
    /\ forall i, ok i = true -> readVNode i zero (store c') = (0, V i).
Proof.
  intros I Hf. destruct (VNodeSyncAll_rep _ _ _ _ _ _ _ I Hf) as (c' & E & I' & Q). exists c'. split_and!; try done.
  intros i Oi. destruct (R !! i) as [r|] eqn:Hi; [|by apply (vr_disk _ _ _ _ _ _ I')].
  destruct (vr_refs _ _ _ _ _ _ I' i r Hi) as (p & v & Hp & Hv & <-).
  destruct (vr_used _ _ _ _ _ _ I' p Hp) as (_ & v' & Hv' & Nv). assert (v' = v) as -> by congruence.
  rewrite (nr_clean _ _ _ _ _ _ Nv) by eauto. by rewrite (nr_info _ _ _ _ _ _ Nv).
Qed.


(** *** A node that cannot be read *)

(** The walk of VNodeFind over [ys] up to the member [stop]. *)
Fixpoint path c (j : Z) ys (stop : ptr) : Prop :=
  match ys with
  | [] => True
  | p :: ys => (0 <= p /\ vn_next p < 2 ^ 32 /\ vn_next p <> head)
      /\ (exists v, vnodes c !! p = Some v /\ id v <> j)
      /\ get_next (vn_next p) (links c) = Ret (List.hd stop (vn_next <$> ys)) /\ path c j ys stop
  end.

Lemma find_node_path c j stop : (forall fuel, find_node head fuel stop j c = NoFuel) ->
  forall ys fuel, path c j ys stop -> find_node head fuel (List.hd stop (vn_next <$> ys)) j c = NoFuel.
Proof.
  intros Hs. induction ys as [|p ys IH]; intros fuel P; [apply Hs|].
  destruct P as ((B1 & B2 & Nh) & (v & Hv & Nv) & En & P). destruct fuel as [|fuel]; [done|].
  cbn [find_node fmap list_fmap List.hd]. destruct (Z.eqb_spec (vn_next p) head); [done|].
  rewrite vn_next_entry, Hv by done. cbn [of_option bindO]. destruct (Z.eqb_spec (id v) j); [done|].
  rewrite En. cbn [bindO]. by apply IH.
Qed.

Lemma find_node_loop c j p : 0 <= p -> vn_next p < 2 ^ 32 -> vn_next p <> head ->
  (exists v, vnodes c !! p = Some v /\ id v <> j) -> get_next (vn_next p) (links c) = Ret (vn_next p) ->
  forall fuel, find_node head fuel (vn_next p) j c = NoFuel.
Proof.
  intros B1 B2 Nh (v & Hv & Nv) En. induction fuel as [|fuel IH]; [done|]. cbn [find_node].
  destruct (Z.eqb_spec (vn_next p) head); [done|]. rewrite vn_next_entry, Hv by done. cbn [of_option bindO].
  destruct (Z.eqb_spec (id v) j); [done|]. rewrite En. cbn [bindO]. apply IH.
Qed.

Lemma path_split c j p h : hnext (links c) = <[vn_next p := vn_next p]> (hnext h) ->
  forall ys pre, clist h head (vn_next <$> (pre ++ ys ++ [p])) ->
  (forall q, q ∈ ys -> 0 <= q /\ vn_next q < 2 ^ 32 /\ exists v, vnodes c !! q = Some v /\ id v <> j) ->
  path c j ys (vn_next p).
Proof.
  intros Eh. induction ys as [|q ys IH]; intros pre C Q; [done|].
  destruct (Q q) as (B1 & B2 & Hv); [constructor|]. cbn [path].
  rewrite fmap_app in C. cbn [fmap list_fmap app] in C. destruct (clist_entry _ _ _ _ _ C) as (En & _).
  assert (Nd := C). destruct Nd as [Nd _]. apply NoDup_cons in Nd as [Nh Nd]. apply NoDup_app in Nd as (_ & _ & Nd).
  apply NoDup_cons in Nd as [Nq _]. fold (fmap (M := list) vn_next) in *. rewrite fmap_app in Nq, En.
  split_and!; try done.
  - intros E. apply Nh. rewrite <- E. apply elem_of_app. right. constructor.
  - unfold get_next. rewrite Eh, lookup_insert_ne, En.
    + by destruct ys.
    + intros E. apply Nq. rewrite <- E. apply elem_of_app. right. constructor.
  - apply (IH (pre ++ [q])); [by rewrite <- app_assoc, fmap_app|]. intros r Hr. apply Q. by constructor.
Qed.

(** When the file system cannot read a node, VNodeGet returns NULL but frees a structure
    that is still on the list and whose constructor makes it its own successor: from then on
    looking for any node that is not in use does not end. *)
Theorem VNodeGet_error_hangs n xs c held V R i err a fuel : vrep n xs c held V R -> (length xs < fuel)%nat ->
  R !! i = None -> (size R < n)%nat -> readVNode i zero (store c) = (err, a) -> err <> 0 ->
  exists c', VNodeGet pick head zero fuel i c = Ret (0, c')
    /\ forall j fuel', R !! j = None -> j <> 2 ^ 32 - 1 -> VNodeGet pick head zero fuel' j c' = NoFuel.
Proof.
  intros I Hf Hi Hn Er Ne. destruct (VNodeGet_miss _ _ _ _ _ _ _ fuel I Hf Hi Hn) as (p & h' & Hp & C & F & E).
  rewrite Er in E. apply c_true_spec in Ne. rewrite Ne in E.
  destruct (vr_free _ _ _ _ _ _ I p Hp) as ((Np & Bp & Bp' & Nh) & Cp & Ap).
  unfold cache_free, VNodeCtor in E. destruct (Z.eqb_spec p 0); [lia|]. cbn [links] in E.
  rewrite INIT_LIST_HEAD_eq in E by by apply F. cbn [bindO] in E. rewrite E. eexists. split; [reflexivity|].
  intros j fuel' Hj Nj. unfold VNodeGet, VNodeFind. 
  match goal with |- context [get_next head (links ?x)] => set (c' := x) end.
  assert (En : hnext (links c') = <[vn_next p := vn_next p]> (hnext h')) by done.
  assert (Ev : vnodes c' = <[p := constructed zero]> (vnodes c)) by (cbn; apply insert_insert_eq).
  pose proof (clist_split_linked _ _ [] _ C) as [E0 _]. cbn [List.last] in E0.
  unfold get_next at 1. rewrite En, lookup_insert_ne, E0 by done. cbn [of_option bindO].
  replace (List.hd head (vn_next <$> xs ++ [p])) with (List.hd (vn_next p) (vn_next <$> xs)) by by destruct xs.
  rewrite find_node_path; [done|..].
  - apply find_node_loop; [lia|done|done| |unfold get_next; by rewrite En, lookup_insert_eq].
    exists (constructed zero). rewrite Ev, lookup_insert_eq. split; [done|]. cbn. congruence.
  - apply (path_split c' j p h' En xs []); [done|]. intros q Hq.
    destruct (vr_used _ _ _ _ _ _ I q Hq) as ([B1 B2] & u & Hu & Nu). split; [lia|]. split; [done|]. exists u.
    rewrite Ev, lookup_insert_ne by congruence. split; [done|]. apply (nr_refs _ _ _ _ _ _) in Nu. congruence.
Qed.

End Facts.

(** ** A file system in memory *)

Module Demo.
#[global] Instance demo_store : NodeStore (gmap Z Z) Z := {
  readVNode i b s := match s !! i with Some a => (0, a) | None => (- ENOENT, b) end;
  writeVNode i a s := <[i := a]> s;
}.
#[global] Instance demo_laws : NodeStoreLaws (gmap Z Z) Z.
Proof.
  split; cbn; intros.
  - by rewrite lookup_insert_eq.
  - by rewrite lookup_insert_ne.
Qed.

Definition pick (X : gset Z) : option Z := match elements X with [] => None | p :: _ => Some p end.
#[global] Instance pick_laws : PickLaws pick.
Proof.
  split; intros X; unfold pick.
  - intros p. destruct (elements X) eqn:E; [done|]. intros [= ->]. apply elem_of_elements. rewrite E. constructor.
  - destruct (elements X) eqn:E; [|done]. intros _. by apply leibniz_equiv, elements_empty_inv.
Qed.

(** Two structures at 4096 and 8192, the list head at 500. *)
Definition ring : gmap Z Z := {[500 := 500; 4136 := 4136; 8232 := 8232]}.
Definition cache : vcache (gmap Z Z) Z :=
  {| vnodes := {[4096 := constructed 0; 8192 := constructed 0]};
     links := {| hnext := ring; hprev := ring |};
     vNodeCache := {[4096; 8192]};
     store := {[5 := 50; 6 := 60]} |}.
Definition ok (i : Z) : bool := bool_decide (is_Some (store cache !! i)).
Definition table (i : Z) : Z := default 0 (store cache !! i).

Lemma cache_empty : clist (links cache) 500 [].
Proof. split; [apply NoDup_singleton|]. split; [|done]. by split. Qed.
Lemma cache_structures p : p ∈ vNodeCache cache -> (0 < p /\ vn_next p < 2 ^ 32 /\ vn_next p <> 500)
  /\ vnodes cache !! p = Some (constructed 0) /\ allocated (links cache) (vn_next p).
Proof.
  cbn. rewrite elem_of_union, !elem_of_singleton. unfold vn_next, OFFSET_next.
  intros [-> | ->]; (split; [lia|]; split; [done|]; split; by eexists).
Qed.
Lemma cache_read i : ok i = true -> readVNode i 0 (store cache) = (0, table i).
Proof. unfold ok. intros [a E]%bool_decide_eq_true. unfold table. cbn [readVNode demo_store]. by rewrite E. Qed.

Lemma cache_rep : vrep 500 0 ok 2 [] cache ∅ table ∅.
Proof. apply (vrep_fresh 500 0 ok cache table); [apply cache_empty|apply cache_structures|apply cache_read]. Qed.

(** Node 5 is changed, dropped and read again, with node 6 shared meanwhile. *)
Definition session : list (@node_op Z) :=
  [GetNode 5; GetNode 6; SetNode 5 51; GetNode 6; PutNode 5; PutNode 6; GetNode 5; SyncNodes].

Lemma vnode_cache_refines_witness : exists xs held c',
  run_node_ops pick 500 0 3 session ∅ cache
    = Ret ([Some 50; Some 60; None; Some 60; None; None; Some 51; None], held, c')
  /\ vrep 500 0 ok 2 xs c' held (<[5 := 51]> table) {[6 := 1; 5 := 1]}.
Proof.
  apply (vnode_cache_refines pick 500 0 ok cache table session 3); [apply cache_empty|apply cache_structures|apply cache_read| |vm_compute; lia].
  vm_compute. split_and!; try done; try (by eexists); lia.
Defined.

Lemma VNodeSyncAll_stores_witness : exists c', VNodeSyncAll 500 1 cache = Ret c' /\ vrep 500 0 ok 2 [] c' ∅ table ∅
  /\ forall i, ok i = true -> readVNode i 0 (store c') = (0, table i).
Proof. apply (VNodeSyncAll_stores 500 0 ok 2 [] cache ∅ table ∅ 1 cache_rep). cbn. lia. Defined.

Lemma VNodeGet_error_hangs_witness : exists c', VNodeGet pick 500 0 1 9 cache = Ret (0, c')
  /\ forall j fuel, (∅ : gmap Z Z) !! j = None -> j <> 2 ^ 32 - 1 -> VNodeGet pick 500 0 fuel j c' = NoFuel.
Proof.
  apply (VNodeGet_error_hangs pick 500 0 ok 2 [] cache ∅ table ∅ 9 (- ENOENT) 0 1 cache_rep);
    [cbn; lia|done|rewrite map_size_empty; lia|done|done].
Defined.
End Demo.
