(* ===== verification/FileTable.v ===== *)
(** * File descriptors (fs/vfs/file_table.c, fs/vfs/file.c)

    A process has an array of pointers to open files; a descriptor is an
    index into it.  SysOpen takes the lowest free index, growing the array
    by ten up to a hundred, SysClose gives the file and the index back.
    The structures come from the slab cache fileCache, which has no
    constructor, so a free structure is zero.

    The specification is the table of POSIX: a finite map from descriptors
    to what is open there ([fd_table_refines]).  Path lookup, the open and
    close functions of a file and VNodeRelease are the interface [VfsOps].
    GetName copies the path from user space first; the areas of the process
    are those of Vmm. *)

From stdpp Require Import fin_maps fin_sets.
From S2P Require Import Prelude CString Vmm.

(** ** Model *)

Definition PATH_MAX : Z := 2048.

Record File := { f_vNode : Z; f_position : Z; f_refs : Z }.
Definition zero_file : File := {| f_vNode := 0; f_position := 0; f_refs := 0 |}.

(** NameToVNode gives an error and a vNode; [fileOps_open] and
    [fileOps_close] are those of the file's vNode, returning 0 when it has
    none. *)
Class VfsOps (W : Type) := {
  NameToVNode : list Z -> Z -> W -> (Z * Z) * W;
  fileOps_open : Z -> W -> Z * W;
  fileOps_close : Z -> W -> Z * W;
  VNodeRelease : Z -> W -> W;
}.

(** [files] are the entries of process->files; [fileCache] the free
    structures; [kmalloc] says whether MemAlloc can serve an array. *)
Record ftab (W : Type) := {
  numFds : Z;
  files : list Z;
  file_at : gmap Z File;
  fileCache : gset Z;
  kmalloc : bool;
  world : W;
}.
Arguments numFds {W} _.
Arguments files {W} _.
Arguments file_at {W} _.
Arguments fileCache {W} _.
Arguments kmalloc {W} _.
Arguments world {W} _.

Section Model.
Context {W : Type} `{VfsOps W} (pick : gset Z -> option Z).
Implicit Types (t : ftab W).

Definition with_files n l t : ftab W :=
  {| numFds := n; files := l; file_at := file_at t; fileCache := fileCache t; kmalloc := kmalloc t; world := world t |}.
Definition with_cache m X t : ftab W :=
  {| numFds := numFds t; files := files t; file_at := m; fileCache := X; kmalloc := kmalloc t; world := world t |}.
Definition with_world w t : ftab W :=
  {| numFds := numFds t; files := files t; file_at := file_at t; fileCache := fileCache t; kmalloc := kmalloc t; world := w |}.

Definition FileAllocate t : Z * ftab W :=
  match pick (fileCache t) with
  | None => (0, t)
  | Some p => (p, with_cache (<[p := zero_file]> (file_at t)) (fileCache t ∖ {[p]}) t)
  end.

Definition FileFree (p : Z) t : ftab W :=
  if p =? 0 then t else with_cache (<[p := zero_file]> (file_at t)) ({[p]} ∪ fileCache t) t.

(** The entry of the descriptor, which is set to NULL. *)
Definition FdFree (fd : Z) t : outcome (Z * ftab W) :=
  let* file := of_option (zlookup (files t) fd) in
  let t := FileFree file t in
  let* l := of_option (zupdate (files t) fd 0) in
  Ret (0, with_files (numFds t) l t).

Definition FileGet (fd : Z) t : outcome Z :=
  if (fd <? 0) || (numFds t <=? fd) then Ret 0 else of_option (zlookup (files t) fd).

(** [*dest = *src], where both are entries of tables; this is the part
    that changes the structure and the vNode's count [refs]. *)
Definition VfsFileDup (src : Z) (vnode_get : Z -> W -> W) t : outcome (Z * ftab W) :=
  let* f := of_option (file_at t !! src) in
  let t := with_world (vnode_get (f_vNode f) (world t)) t in
  let f := {| f_vNode := f_vNode f; f_position := f_position f; f_refs := s32 (f_refs f + 1) |} in
  Ret (src, with_cache (<[src := f]> (file_at t)) (fileCache t) t).

(** The search of VfsGetFreeFd from index [i] on. *)
Fixpoint free_entry (n : nat) (i : Z) (l : list Z) : outcome Z :=
  match n with
  | O => Ret i
  | S n =>
      let* p := of_option (zlookup l i) in
      if p =? 0 then Ret i else free_entry n (i + 1) l
  end.

(** The new array has the old entries and ten free ones. *)
Definition VfsGetFreeFd t : outcome (Z * ftab W) :=
  let n := Z.to_nat (numFds t) in
  let* i := free_entry n 0 (files t) in
  if i <? numFds t then Ret (i, t)
  else if 100 <=? numFds t then Ret (- EMFILE, t)
  else if kmalloc t then Ret (i, with_files (numFds t + 10) (take n (files t) ++ replicate 10 0) t)
  else Fault.

Definition DoOpenFile (p : Z) (path : list Z) (flags : Z) t : outcome (Z * ftab W) :=
  if p =? 0 then Ret (- EFAULT, t)
  else
    let* f := of_option (file_at t !! p) in
    let '((err, vNode), w) := NameToVNode path flags (world t) in
    let t := with_world w t in
    if c_true err || (vNode =? 0)
    then
      let f := {| f_vNode := 0; f_position := f_position f; f_refs := f_refs f |} in
      Ret (err, with_cache (<[p := f]> (file_at t)) (fileCache t) t)
    else
      let f := {| f_vNode := vNode; f_position := 0; f_refs := 1 |} in
      let t := with_cache (<[p := f]> (file_at t)) (fileCache t) t in
      let (err, w) := fileOps_open vNode (world t) in
      let t := with_world w t in
      if c_true err then Ret (err, with_world (VNodeRelease vNode (world t)) t) else Ret (0, t).

Definition DoCloseFile (p : Z) t : outcome (Z * ftab W) :=
  if p =? 0 then Ret (- EFAULT, t)
  else
    let* f := of_option (file_at t !! p) in
    if f_vNode f =? 0 then Ret (- EFAULT, t)
    else if f_refs f <=? 0 then Ret (- EINVAL, t)
    else
      let r := s32 (f_refs f - 1) in
      let t := with_cache (<[p := {| f_vNode := f_vNode f; f_position := f_position f; f_refs := r |}]> (file_at t)) (fileCache t) t in
      if c_true r then Ret (0, t)
      else
        let (ret, w) := fileOps_close (f_vNode f) (world t) in
        Ret (ret, with_world (VNodeRelease (f_vNode f) w) t).

(** [copied] is what GetName gives, [None] for NULL. *)
Definition SysOpen (copied : option (list Z)) (flags : Z) t : outcome (Z * ftab W) :=
  let* (fd, t) := VfsGetFreeFd t in
  if fd <? 0 then Ret (fd, t)
  else match copied with
  | None => Ret (- EFAULT, t)
  | Some path =>
      let (file, t) := FileAllocate t in
      let* (err, t) := DoOpenFile file path flags t in
      if c_true err then Ret (if err <? 0 then err else fd, FileFree file t)
      else
        let* l := of_option (zupdate (files t) fd file) in
        Ret (fd, with_files (numFds t) l t)
  end.

Definition SysClose (fd : Z) t : outcome (Z * ftab W) :=
  let* file := FileGet fd t in
  if file =? 0 then Ret (- EBADF, t)
  else
    let* (ret, t) := DoCloseFile file t in
    if c_true ret then Ret (ret, t) else FdFree fd t.
End Model.

(** *** GetName *)

(** [path] is a user address. *)
Definition FileNameMaxLength (areaList : list VMArea) (path : Z) : Z :=
  match VmLookupAddress areaList path with
  | None => - EFAULT
  | Some (area, next) =>
      let len := s32 (u32 (area_end area - path)) in
      let len := if PATH_MAX <? len then PATH_MAX else len in
      match next with
      | nx :: _ => if start nx =? area_end area then PATH_MAX else len
      | [] => len
      end
  end.

(** The copy loop: [ret] is the block MemAlloc returned; a store past its
    end is a [Fault]. *)
Fixpoint copy_name (n : nat) (i : Z) (path : Z) (m : mem) (ret : list Z) : outcome (list Z) :=
  match n with
  | O => of_option (zupdate ret i 0)
  | S n =>
      let* b := load m (path + i) in
      let* ret := of_option (zupdate ret i b) in
      if b =? 0 then Ret ret else copy_name n (i + 1) path m ret
  end.

(** [None] is NULL; [kmalloc] says whether MemAlloc succeeds. *)
Definition GetName (areaList : list VMArea) (kmalloc : bool) (path : Z) (m : mem) : outcome (option (list Z)) :=
  let* b := load m path in
  if b =? 0 then Ret None
  else
    let len := FileNameMaxLength areaList path in
    if len <=? 0 then Ret None
    else if negb kmalloc then Ret None
    else
      let* ret := copy_name (Z.to_nat len) 0 path m (replicate (Z.to_nat len) 0) in
      Ret (Some ret).

(** ** Specification: a finite map from descriptors to vNodes *)

(** [fd] is the lowest descriptor not in use. *)
Definition lowest_free (M : gmap Z Z) (fd : Z) : Prop :=
  0 <= fd /\ M !! fd = None /\ forall i, 0 <= i < fd -> is_Some (M !! i).

Section Spec.
Context {W : Type} `{VfsOps W}.

(** SysOpen and SysClose on the map, as relations between states, results
    and the rest of the system. *)
Inductive open_spec (copied : option (list Z)) (flags : Z) (M : gmap Z Z) (w : W) : Z -> gmap Z Z -> W -> Prop :=
  | open_full fd : lowest_free M fd -> 100 <= fd -> open_spec copied flags M w (- EMFILE) M w
  | open_no_path fd : lowest_free M fd -> fd < 100 -> copied = None -> open_spec copied flags M w (- EFAULT) M w
  | open_not_found fd path err vNode w1 : lowest_free M fd -> fd < 100 -> copied = Some path ->
      NameToVNode path flags w = (err, vNode, w1) -> err < 0 -> open_spec copied flags M w err M w1
  | open_refused fd path err vNode w1 w2 : lowest_free M fd -> fd < 100 -> copied = Some path ->
      NameToVNode path flags w = (0, vNode, w1) -> vNode <> 0 -> fileOps_open vNode w1 = (err, w2) -> err < 0 ->
      open_spec copied flags M w err M (VNodeRelease vNode w2)
  | open_done fd path vNode w1 w2 : lowest_free M fd -> fd < 100 -> copied = Some path ->
      NameToVNode path flags w = (0, vNode, w1) -> vNode <> 0 -> fileOps_open vNode w1 = (0, w2) ->
      open_spec copied flags M w fd (<[fd := vNode]> M) w2.

Inductive close_spec (fd : Z) (M : gmap Z Z) (w : W) : Z -> gmap Z Z -> W -> Prop :=
  | close_bad : M !! fd = None -> close_spec fd M w (- EBADF) M w
  | close_done vNode w1 : M !! fd = Some vNode -> fileOps_close vNode w = (0, w1) ->
      close_spec fd M w 0 (delete fd M) (VNodeRelease vNode w1).
End Spec.

(** ** The array implements the map *)

(** Path lookup and the open functions return 0 or an error code, and a
    vNode on success; closing succeeds. *)
Class VfsLaws (W : Type) `{VfsOps W} := {
  lookup_result : forall path flags w err vNode w', NameToVNode path flags w = (err, vNode, w') -> err <= 0 /\ (err = 0 -> vNode <> 0);
  open_result : forall vNode w err w', fileOps_open vNode w = (err, w') -> err <= 0;
  close_result : forall vNode w ret w', fileOps_close vNode w = (ret, w') -> ret = 0;
}.

Section Facts.
Context {W : Type} `{VO : VfsOps W} {VL : VfsLaws W} (pick : gset Z -> option Z).
(** FileAllocate returns a free structure as long as there is one. *)
Context (pick_in : forall X p, pick X = Some p -> p ∈ X) (pick_empty : forall X, pick X = None -> X = ∅).
Implicit Types (t : ftab W) (M : gmap Z Z) (w : W).

(** No file is shared between descriptors; [n] is the number of structures
    that are free or in the table. *)
Record frep (n : nat) t M : Prop := {
  fr_length : Z.of_nat (length (files t)) = numFds t;
  fr_tens : numFds t mod 10 = 0 /\ numFds t <= 100;
  fr_entry : forall k p, files t !! k = Some p -> if p =? 0 then M !! Z.of_nat k = None else
    0 < p /\ p ∉ fileCache t
    /\ exists f, file_at t !! p = Some f /\ f_refs f = 1 /\ f_vNode f <> 0 /\ M !! Z.of_nat k = Some (f_vNode f);
  fr_dom : forall fd v, M !! fd = Some v -> 0 <= fd < numFds t;
  fr_inj : forall j k p, p <> 0 -> files t !! j = Some p -> files t !! k = Some p -> j = k;
  fr_free : forall p, p ∈ fileCache t -> 0 < p;
  fr_pool : (n <= size M + size (fileCache t))%nat;
  fr_kmalloc : kmalloc t = true;
}.

Lemma free_entry_spec l : forall n i, 0 <= i -> i + Z.of_nat n = Z.of_nat (length l) -> exists j,
  free_entry n i l = Ret j /\ i <= j <= Z.of_nat (length l)
  /\ (forall k, i <= k < j -> exists p, l !! Z.to_nat k = Some p /\ p <> 0)
  /\ (j < Z.of_nat (length l) -> l !! Z.to_nat j = Some 0).
Proof.
  induction n as [|n IH]; intros i Hi Hl; cbn [free_entry].
  - exists i. split_and!; try done; lia.
  - destruct (zlookup_lt l i) as (p & Hp); [lia|]. rewrite Hp. apply zlookup_Some in Hp as [_ Ep]. cbn [of_option bindO].
    destruct (Z.eqb_spec p 0) as [->|Np].
    + exists i. split_and!; try done; lia.
    + destruct (IH (i + 1)) as (j & E & Bj & Q & F); [lia..|]. exists j. split_and!; try done; [lia..|].
      intros k Hk. destruct (decide (k = i)) as [->|]; [by exists p|]. apply Q. lia.
Qed.

Lemma entry_used n t M k p : frep n t M -> files t !! k = Some p -> p <> 0 -> exists f,
  (0 < p /\ p ∉ fileCache t) /\ file_at t !! p = Some f /\ f_refs f = 1 /\ f_vNode f <> 0 /\ M !! Z.of_nat k = Some (f_vNode f).
Proof.
  intros I E N. pose proof (fr_entry _ _ _ I _ _ E) as Q. destruct (Z.eqb_spec p 0); [done|].
  destruct Q as (B & C & f & Q). exists f. tauto.
Qed.

Lemma entry_free n t M k : frep n t M -> files t !! k = Some 0 -> M !! Z.of_nat k = None.
Proof. intros I E. apply (fr_entry _ _ _ I _ _ E). Qed.

Lemma entry_of n t M fd v : frep n t M -> M !! fd = Some v -> exists p f, 0 <= fd < numFds t
  /\ files t !! Z.to_nat fd = Some p /\ (0 < p /\ p ∉ fileCache t) /\ file_at t !! p = Some f /\ f_refs f = 1 /\ f_vNode f = v /\ v <> 0.
Proof.
  intros I E. pose proof (fr_dom _ _ _ I _ _ E) as B. pose proof (fr_length _ _ _ I) as L.
  destruct (lookup_lt_is_Some_2 (files t) (Z.to_nat fd)) as [p Hp]; [lia|].
  destruct (Z.eq_dec p 0) as [->|Np].
  - apply (entry_free _ _ _ _ I) in Hp. rewrite Z2Nat.id in Hp by lia. congruence.
  - destruct (entry_used _ _ _ _ _ I Hp Np) as (f & Bp & Hf & Hr & Hv & Hm). rewrite Z2Nat.id in Hm by lia.
    exists p, f. split_and!; try done; try congruence; tauto.
Qed.

(** Ten free entries more change nothing. *)
Lemma frep_grow n t M : frep n t M -> numFds t < 100 ->
  frep n (with_files (numFds t + 10) (take (Z.to_nat (numFds t)) (files t) ++ replicate 10 0) t) M.
Proof.
  intros I B. pose proof (fr_length _ _ _ I) as L. pose proof (fr_tens _ _ _ I) as [T1 T2].
  rewrite take_ge by lia.
  assert (Lk : forall k p, (files t ++ replicate 10 0) !! k = Some p -> p <> 0 -> files t !! k = Some p).
  { intros k p. rewrite lookup_app_Some, lookup_replicate. intros [?|[_ [-> _]]]; done. }
  split; cbn; try apply I.
  - rewrite length_app. cbn. lia.
  - Z.div_mod_to_equations. lia.
  - intros k p E. destruct (Z.eqb_spec p 0) as [->|Np].
    + apply lookup_app_Some in E as [E|[Hk _]]; [by apply (entry_free _ _ _ _ I)|].
      destruct (M !! Z.of_nat k) eqn:Em; [|done]. apply (fr_dom _ _ _ I) in Em. lia.
    + destruct (entry_used _ _ _ _ _ I (Lk _ _ E Np) Np) as (f & [? ?] & Q). split; [done|]. split; [done|]. by exists f.
  - intros fd v E. apply (fr_dom _ _ _ I) in E. lia.
  - intros j k p Np Ej Ek. apply (fr_inj _ _ _ I j k p); auto.
Qed.

Lemma VfsGetFreeFd_spec n t M : frep n t M -> exists fd, lowest_free M fd /\
  if 100 <=? fd then VfsGetFreeFd t = Ret (- EMFILE, t)
  else exists t', VfsGetFreeFd t = Ret (fd, t') /\ frep n t' M /\ files t' !! Z.to_nat fd = Some 0
    /\ world t' = world t /\ fileCache t' = fileCache t /\ file_at t' = file_at t.
Proof.
  intros I. pose proof (fr_length _ _ _ I) as L. pose proof (fr_tens _ _ _ I) as [T1 T2].
  destruct (free_entry_spec (files t) (Z.to_nat (numFds t)) 0) as (fd & E & B & Q & F); [lia..|].
  assert (Free : M !! fd = None).
  { destruct (decide (fd < numFds t)) as [Hf|Hf].
    - pose proof (entry_free _ _ _ _ I (F ltac:(lia))) as W0. by rewrite Z2Nat.id in W0 by lia.
    - destruct (M !! fd) eqn:Em; [|done]. apply (fr_dom _ _ _ I) in Em. lia. }
  exists fd. split.
  { split; [lia|]. split; [done|]. intros i Hi. destruct (Q i Hi) as (p & Hp & Np).
    destruct (entry_used _ _ _ _ _ I Hp Np) as (f & _ & _ & _ & _ & Em). rewrite Z2Nat.id in Em by lia. by eexists. }
  unfold VfsGetFreeFd. rewrite E. cbn [bindO]. destruct (Z.ltb_spec fd (numFds t)).
  - destruct (Z.leb_spec 100 fd); [lia|]. exists t. split_and!; try done. apply F. lia.
  - assert (fd = numFds t) as -> by lia. destruct (Z.leb_spec 100 (numFds t)); [done|]. rewrite (fr_kmalloc _ _ _ I).
    eexists. split; [done|]. split; [by apply frep_grow|]. split_and!; try done. cbn.
    rewrite take_ge by lia. rewrite lookup_app_r by lia. by replace (_ - _)%nat with 0%nat by lia.
Qed.

(** A new file in a free entry. *)
Lemma frep_insert n t M fd p f w : frep n t M -> 0 <= fd -> files t !! Z.to_nat fd = Some 0 -> p ∈ fileCache t ->
  f_refs f = 1 -> f_vNode f <> 0 ->
  frep n {| numFds := numFds t; files := <[Z.to_nat fd := p]> (files t); file_at := <[p := f]> (file_at t);
            fileCache := fileCache t ∖ {[p]}; kmalloc := kmalloc t; world := w |} (<[fd := f_vNode f]> M).
Proof.
  intros I Hfd E0 Hp Rf Vf. pose proof (fr_length _ _ _ I) as L. pose proof (fr_free _ _ _ I p Hp) as Bp.
  assert (Bf : (Z.to_nat fd < length (files t))%nat) by (by apply lookup_lt_Some in E0).
  assert (Np : forall k q, files t !! k = Some q -> q <> 0 -> p <> q).
  { intros k q E N ->. by destruct (entry_used _ _ _ _ _ I E N) as (? & [_ ?] & _). }
  split; cbn; try apply I.
  - by rewrite length_insert.
  - intros k q. rewrite list_lookup_insert_Some. intros [(<- & <- & _)|[Nk E]].
    + destruct (Z.eqb_spec p 0); [lia|]. split; [done|]. split; [set_solver|]. exists f.
      by rewrite lookup_insert_eq, Z2Nat.id, lookup_insert_eq.
    + assert (fd <> Z.of_nat k) by lia. rewrite lookup_insert_ne by done. destruct (Z.eqb_spec q 0) as [->|Nq].
      * by apply (entry_free _ _ _ _ I).
      * destruct (entry_used _ _ _ _ _ I E Nq) as (g & [Bq Cq] & Q). split; [done|]. split; [set_solver|]. exists g.
        by rewrite lookup_insert_ne by eauto.
  - intros i v. rewrite lookup_insert_Some. intros [[<- _]|[_ Hi]]; [lia|]. by apply (fr_dom _ _ _ I) in Hi.
  - intros j k q Nq. rewrite !list_lookup_insert_Some.
    intros [(<- & <- & _)|[Nj Ej]] [(<- & E & _)|[Nk Ek]]; try done.
    + by destruct (Np _ _ Ek Nq).
    + subst q. by destruct (Np _ _ Ej Nq).
    + by apply (fr_inj _ _ _ I j k q).
  - intros q Hq. apply (fr_free _ _ _ I). set_solver.
  - pose proof (entry_free _ _ _ _ I E0) as Em. rewrite Z2Nat.id in Em by done.
    rewrite map_size_insert_None, size_difference, size_singleton by set_solver. pose proof (fr_pool _ _ _ I).
    assert (size (fileCache t) <> 0%nat); [|lia]. intros Es%size_empty_inv. set_solver.
Qed.


Lemma frep_size n t M : frep n t M -> (size M <= 100)%nat.
Proof.
  intros I. pose proof (fr_tens _ _ _ I) as [_ T]. rewrite <- (size_dom (D := gset Z)).
  transitivity (size (list_to_set (seqZ 0 100) : gset Z)); [|by vm_compute; lia].
  apply subseteq_size. intros fd. rewrite elem_of_dom, elem_of_list_to_set, elem_of_seqZ. intros [v E].
  apply (fr_dom _ _ _ I) in E. lia.
Qed.

(** Only the rest of the system and a free structure change. *)
Lemma frep_scratch n t M m w p f : frep n t M -> p ∈ fileCache t -> m = <[p := f]> (file_at t) ->
  frep n {| numFds := numFds t; files := files t; file_at := m; fileCache := fileCache t; kmalloc := kmalloc t; world := w |} M.
Proof.
  intros I Hp ->. split; cbn; try apply I. intros k q E.
  pose proof (fr_entry _ _ _ I k q E) as Q. destruct (q =? 0); [done|]. destruct Q as (B & C & g & Q).
  split; [done|]. split; [done|]. exists g. rewrite lookup_insert_ne; [done|]. congruence.
Qed.

Lemma FileAllocate_spec n t M : frep n t M -> (100 < n)%nat -> exists p, p ∈ fileCache t
  /\ FileAllocate pick t = (p, with_cache (<[p := zero_file]> (file_at t)) (fileCache t ∖ {[p]}) t).
Proof.
  intros I Hn. pose proof (frep_size _ _ _ I). pose proof (fr_pool _ _ _ I). unfold FileAllocate.
  destruct (pick (fileCache t)) as [p|] eqn:E.
  - exists p. by split; [apply pick_in|].
  - apply pick_empty in E. rewrite E, size_empty in *. lia.
Qed.

(** The structure comes back. *)
Lemma put_back t m w p f : p ∈ fileCache t -> 0 < p -> m = <[p := f]> (file_at t) ->
  FileFree p {| numFds := numFds t; files := files t; file_at := m; fileCache := fileCache t ∖ {[p]}; kmalloc := kmalloc t; world := w |}
  = {| numFds := numFds t; files := files t; file_at := <[p := zero_file]> (file_at t); fileCache := fileCache t; kmalloc := kmalloc t; world := w |}.
Proof.
  intros Hp Bp ->. unfold FileFree. destruct (Z.eqb_spec p 0); [lia|]. unfold with_cache. cbn. f_equal.
  - apply insert_insert_eq.
  - rewrite <- union_difference_singleton_L; done.
Qed.

Lemma SysOpen_spec n t M copied flags : frep n t M -> (100 < n)%nat -> exists r t' M',
  SysOpen pick copied flags t = Ret (r, t') /\ frep n t' M' /\ open_spec copied flags M (world t) r M' (world t').
Proof.
  intros I Hn. destruct (VfsGetFreeFd_spec _ _ _ I) as (fd & Lf & E). unfold SysOpen.
  destruct (Z.leb_spec 100 fd) as [Bf|Bf].
  { rewrite E. cbn [bindO]. exists (- EMFILE), t, M. split_and!; try done. by apply (open_full _ _ _ _ fd). }
  destruct E as (t1 & -> & I1 & E0 & <- & Ec & _). cbn [bindO]. pose proof Lf as (Bf0 & _ & _).
  destruct (Z.ltb_spec fd 0); [lia|]. destruct copied as [path|].
  2: { exists (- EFAULT), t1, M. split_and!; try done. by apply (open_no_path _ _ _ _ fd). }
  destruct (FileAllocate_spec _ _ _ I1 Hn) as (p & Hp & ->). pose proof (fr_free _ _ _ I1 p Hp) as Bp.
  unfold DoOpenFile. destruct (Z.eqb_spec p 0); [lia|]. cbn [file_at with_cache]. rewrite lookup_insert_eq. cbn [of_option bindO].
  cbn [world with_cache]. destruct (NameToVNode path flags (world t1)) as [[err vNode] w1] eqn:En.
  destruct (lookup_result _ _ _ _ _ _ En) as [Be Hv].
  destruct (c_true err) eqn:Ce; cbn [orb].
  { assert (err <> 0) by by apply c_true_spec. cbn [bindO]. rewrite Ce. destruct (Z.ltb_spec err 0); [|lia].
    unfold with_cache, with_world. cbn. erewrite put_back by (done || apply insert_insert_eq).
    eexists _, _, M. split; [reflexivity|]. split; [by eapply frep_scratch|]. by eapply (open_not_found _ _ _ _ fd). }
  assert (err = 0) as -> by by apply c_true_false. destruct (Z.eqb_spec vNode 0) as [->|Nv]; [by destruct Hv|].
  cbn [world with_world with_cache]. destruct (fileOps_open vNode w1) as [err w2] eqn:Eo.
  pose proof (open_result _ _ _ _ Eo) as Bo. destruct (c_true err) eqn:Co.
  - assert (err <> 0) by by apply c_true_spec. cbn [bindO]. rewrite Co. destruct (Z.ltb_spec err 0); [|lia].
    unfold with_cache, with_world. cbn. erewrite put_back by (done || apply insert_insert_eq).
    eexists _, _, M. split; [reflexivity|]. split; [by eapply frep_scratch|]. cbn. eapply (open_refused _ _ _ _ fd); eauto.
  - assert (err = 0) as -> by by apply c_true_false. cbn [bindO]. change (c_true 0) with false. cbn iota.
    cbn [files with_world with_cache]. pose proof (lookup_lt_Some _ _ _ E0). rewrite zupdate_lt by lia. cbn [of_option bindO].
    eexists _, _, (<[fd := vNode]> M). split; [reflexivity|]. unfold with_files, with_cache, with_world. cbn.
    split; [|by eapply (open_done _ _ _ _ fd)]. rewrite insert_insert_eq.
    by apply (frep_insert n t1 M fd p {| f_vNode := vNode; f_position := 0; f_refs := 1 |} w2).
Qed.

Lemma frep_delete n t M fd p v w : frep n t M -> 0 <= fd -> files t !! Z.to_nat fd = Some p -> p <> 0 -> M !! fd = Some v ->
  frep n {| numFds := numFds t; files := <[Z.to_nat fd := 0]> (files t); file_at := <[p := zero_file]> (file_at t);
            fileCache := {[p]} ∪ fileCache t; kmalloc := kmalloc t; world := w |} (delete fd M).
Proof.
  intros I Hfd Ep Np Em. destruct (entry_used _ _ _ _ _ I Ep Np) as (f & [Bp Cp] & _). pose proof (lookup_lt_Some _ _ _ Ep) as Bf.
  split; cbn; try apply I.
  - rewrite length_insert. apply I.
  - intros k q. rewrite list_lookup_insert_Some. intros [(<- & <- & _)|[Nk E]].
    + cbn. rewrite Z2Nat.id by done. apply lookup_delete_eq.
    + rewrite lookup_delete_ne by lia. destruct (Z.eqb_spec q 0) as [->|Nq]; [by apply (entry_free _ _ _ _ I)|].
      destruct (entry_used _ _ _ _ _ I E Nq) as (g & [Bq Cq] & Q).
      assert (p <> q). { intros <-. by apply Nk, (fr_inj _ _ _ I _ _ p). }
      split; [done|]. split; [set_solver|]. exists g. by rewrite lookup_insert_ne.
  - intros i u. rewrite lookup_delete_Some. intros [_ Hi]. by apply (fr_dom _ _ _ I) in Hi.
  - intros j k q Nq. rewrite !list_lookup_insert_Some.
    intros [(<- & <- & _)|[Nj Ej]] [(<- & E & _)|[Nk Ek]]; try done. by apply (fr_inj _ _ _ I j k q).
  - intros q. rewrite elem_of_union, elem_of_singleton. intros [->|Hq]; [done|]. by apply (fr_free _ _ _ I).
  - rewrite map_size_delete_Some by done. rewrite size_union, size_singleton by set_solver. pose proof (fr_pool _ _ _ I).
    assert (size M <> 0%nat); [|lia]. intros Es%map_size_empty_inv. by rewrite Es, lookup_empty in Em.
Qed.

Lemma FileGet_spec n t M fd : frep n t M -> exists p, FileGet fd t = Ret p /\
  if p =? 0 then M !! fd = None else exists f, 0 <= fd /\ files t !! Z.to_nat fd = Some p /\ 0 < p
    /\ file_at t !! p = Some f /\ f_refs f = 1 /\ f_vNode f <> 0 /\ M !! fd = Some (f_vNode f).
Proof.
  intros I. unfold FileGet. pose proof (fr_length _ _ _ I) as L. destruct (M !! fd) as [v|] eqn:Em.
  - destruct (entry_of _ _ _ _ _ I Em) as (p & f & B & Ep & [Bp _] & Hf & Hr & <- & Hv). exists p.
    destruct (Z.ltb_spec fd 0); [lia|]. destruct (Z.leb_spec (numFds t) fd); [lia|]. cbn [orb].
    unfold zlookup. destruct (Z.leb_spec 0 fd); [|lia]. rewrite Ep. split; [done|].
    destruct (Z.eqb_spec p 0); [lia|]. exists f. by split_and!.
  - destruct (Z.ltb_spec fd 0); [by exists 0|]. destruct (Z.leb_spec (numFds t) fd); [by exists 0|]. cbn [orb].
    destruct (zlookup_lt (files t) fd) as (p & Ep); [lia|]. rewrite Ep. apply zlookup_Some in Ep as [_ Ep].
    exists p. split; [done|]. destruct (Z.eqb_spec p 0); [done|].
    destruct (entry_used _ _ _ _ _ I Ep) as (f & _ & _ & _ & _ & E); [done|]. rewrite Z2Nat.id in E by lia. congruence.
Qed.

Lemma SysClose_spec n t M fd : frep n t M -> exists r t' M',
  SysClose fd t = Ret (r, t') /\ frep n t' M' /\ close_spec fd M (world t) r M' (world t').
Proof.
  intros I. destruct (FileGet_spec _ _ _ fd I) as (p & Eg & Q). unfold SysClose. rewrite Eg. cbn [bindO].
  destruct (Z.eqb_spec p 0) as [->|Np].
  { exists (- EBADF), t, M. split_and!; try done. by apply close_bad. }
  destruct Q as (f & Bf & Ep & Bp & Hf & Hr & Hv & Em). unfold DoCloseFile. destruct (Z.eqb_spec p 0); [done|].
  rewrite Hf. cbn [of_option bindO]. destruct (Z.eqb_spec (f_vNode f) 0); [done|]. rewrite Hr.
  cbn [Z.leb Z.compare]. change (1 <=? 0) with false. change (c_true (s32 (1 - 1))) with false. cbn iota. cbn [world with_cache].
  destruct (fileOps_close (f_vNode f) (world t)) as [ret w1] eqn:Ec. pose proof (close_result _ _ _ _ Ec). subst ret.
  cbn [bindO]. change (c_true 0) with false. cbn iota. unfold FdFree. cbn [files with_world with_cache].
  pose proof (lookup_lt_Some _ _ _ Ep). unfold zlookup. destruct (Z.leb_spec 0 fd); [|lia]. rewrite Ep. cbn [of_option bindO].
  unfold FileFree. destruct (Z.eqb_spec p 0); [done|]. cbn [files with_cache with_world]. rewrite zupdate_lt by lia. cbn [of_option bindO].
  eexists _, _, (delete fd M). split; [reflexivity|]. unfold with_files, with_cache, with_world. cbn. rewrite insert_insert_eq.
  split; [by eapply frep_delete|]. by apply (close_done fd M (world t) (f_vNode f) w1).
Qed.


(** *** Sequences of calls *)

Inductive fd_op := FdOpen (copied : option (list Z)) (flags : Z) | FdClose (fd : Z).

Definition run_fd_op (o : fd_op) t : outcome (Z * ftab W) :=
  match o with FdOpen copied flags => SysOpen pick copied flags t | FdClose fd => SysClose fd t end.
Fixpoint run_fd_ops (os : list fd_op) t : outcome (list Z * ftab W) :=
  match os with
  | [] => Ret ([], t)
  | o :: os => let* (r, t) := run_fd_op o t in let* (rs, t) := run_fd_ops os t in Ret (r :: rs, t)
  end.

Definition fd_spec (o : fd_op) M w : Z -> gmap Z Z -> W -> Prop :=
  match o with FdOpen copied flags => open_spec copied flags M w | FdClose fd => close_spec fd M w end.
Inductive fd_runs : list fd_op -> gmap Z Z -> W -> list Z -> gmap Z Z -> W -> Prop :=
  | fd_stop M w : fd_runs [] M w [] M w
  | fd_next o os M w r M1 w1 rs M2 w2 : fd_spec o M w r M1 w1 -> fd_runs os M1 w1 rs M2 w2 ->
      fd_runs (o :: os) M w (r :: rs) M2 w2.

(** C19: In a process none of whose file structures is shared (each has one reference and
    one descriptor, which the calls keep so; Exec, which lets a new process share descriptors 0
    to 2, does not), any sequence of SysOpen and SysClose calls returns what the finite map of
    descriptors returns, with memory for the structures: the lowest free descriptor, the error of
    the lookup or of the open function, -EMFILE from the hundredth on, -EBADF for a descriptor that is not open; files
    and vNodes are given back on every error path. *)
Theorem fd_table_refines n os : forall t M, frep n t M -> (100 < n)%nat -> exists rs t' M',
  run_fd_ops os t = Ret (rs, t') /\ frep n t' M' /\ fd_runs os M (world t) rs M' (world t').
Proof.
  induction os as [|o os IH]; intros t M I Hn.
  - exists [], t, M. split_and!; try done. constructor.
  - assert (S1 : exists r t1 M1, run_fd_op o t = Ret (r, t1) /\ frep n t1 M1 /\ fd_spec o M (world t) r M1 (world t1)).
    { destruct o as [copied flags|fd]; [by apply SysOpen_spec|by apply SysClose_spec]. }
    destruct S1 as (r & t1 & M1 & E1 & I1 & S1). destruct (IH t1 M1 I1 Hn) as (rs & t2 & M2 & E2 & I2 & S2).
    exists (r :: rs), t2, M2. cbn [run_fd_ops]. rewrite E1. cbn [bindO]. rewrite E2. split_and!; try done.
    by eapply fd_next.
Qed.

(** A file structure that two descriptors share, as VfsFileDup makes the three first
    descriptors of a new process share those of its parent, is given back by the first
    SysClose although the other descriptor still points to it. *)
Theorem SysClose_frees_shared t fd p f : 0 <= fd < numFds t -> zlookup (files t) fd = Some p -> p <> 0 ->
  file_at t !! p = Some f -> f_vNode f <> 0 -> 1 < f_refs f < 2 ^ 31 -> exists t',
  SysClose fd t = Ret (0, t') /\ p ∈ fileCache t' /\ file_at t' !! p = Some zero_file
  /\ files t' = <[Z.to_nat fd := 0]> (files t) /\ world t' = world t.
Proof.
  intros Bf Ep Np Hf Hv Hr. unfold SysClose, FileGet.
  destruct (Z.ltb_spec fd 0); [lia|]. destruct (Z.leb_spec (numFds t) fd); [lia|]. cbn [orb]. rewrite Ep. cbn [of_option bindO].
  destruct (Z.eqb_spec p 0); [done|]. unfold DoCloseFile. destruct (Z.eqb_spec p 0); [done|]. rewrite Hf. cbn [of_option bindO].
  destruct (Z.eqb_spec (f_vNode f) 0); [done|]. destruct (Z.leb_spec (f_refs f) 0); [lia|]. rewrite s32_id by lia.
  replace (c_true (f_refs f - 1)) with true by (symmetry; apply c_true_spec; lia). cbn [bindO]. change (c_true 0) with false. cbn iota.
  unfold FdFree. cbn [files with_cache]. rewrite Ep. cbn [of_option bindO]. unfold FileFree. destruct (Z.eqb_spec p 0); [done|].
  apply zlookup_Some in Ep as [B Ep]. cbn [files with_cache]. rewrite zupdate_lt by done. cbn [of_option bindO].
  eexists. split; [reflexivity|]. cbn. rewrite lookup_insert_eq. split_and!; try done. by apply elem_of_union_l, elem_of_singleton.
Qed.

End Facts.

(** *** GetName *)

Lemma copy_name_spec m : forall s p i n ret, cstr m (p + i) s -> 0 <= i -> i + zlen s < Z.of_nat n + i ->
  zlen ret = Z.of_nat n + i -> exists rest, copy_name n i p m ret = Ret (take (Z.to_nat i) ret ++ s ++ 0 :: rest).
Proof.
  induction s as [|b s IH]; intros p i n ret C Hi Hn Hl; (destruct n as [|n]; [unfold zlen in *; cbn in *; lia|]); cbn [copy_name].
  - rewrite (load_cstr_nil _ _ C). cbn [bindO]. rewrite zupdate_lt by (unfold zlen in Hl; lia). cbn.
    exists (drop (S (Z.to_nat i)) ret). rewrite insert_take_drop by (unfold zlen in Hl; lia). done.
  - destruct (load_cstr_cons _ _ _ _ C) as [-> Cb]. cbn [bindO]. rewrite zupdate_lt by (unfold zlen in Hl; lia). cbn [of_option bindO].
    unfold c_true in Cb. apply negb_true_iff in Cb. rewrite Cb.
    destruct (IH p (i + 1) n (<[Z.to_nat i := b]> ret)) as (rest & E).
    + apply cstr_tail in C. by rewrite Z.add_assoc.
    + lia.
    + unfold zlen in *. cbn in *. lia.
    + unfold zlen in *. rewrite length_insert. lia.
    + exists rest. rewrite E. f_equal. replace (Z.to_nat (i + 1)) with (S (Z.to_nat i)) by lia.
      rewrite (take_S_r _ _ b) by (apply list_lookup_insert_eq; unfold zlen in Hl; lia).
      rewrite take_insert_ge by lia. by rewrite <- app_assoc.
Qed.

Lemma copy_name_length m p : forall n i ret ret', copy_name n i p m ret = Ret ret' -> zlen ret' = zlen ret.
Proof.
  induction n as [|n IH]; intros i ret ret'; cbn [copy_name].
  - destruct (zupdate ret i 0) as [l|] eqn:E; [|done]. intros [= <-]. unfold zlen. by rewrite (zupdate_length _ _ _ _ E).
  - destruct (load m (p + i)) as [b| | |]; try done. cbn [bindO]. destruct (zupdate ret i b) as [l|] eqn:E; [|done]. cbn [of_option bindO].
    apply zupdate_length in E. destruct (b =? 0); [intros [= <-]|intros Ec%IH]; unfold zlen in *; congruence.
Qed.

(** The bytes of a block up to the first NUL. *)
Fixpoint c_string (l : list Z) : list Z :=
  match l with [] => [] | b :: l => if b =? 0 then [] else b :: c_string l end.
Lemma c_string_app s rest : Forall (fun b => 0 < b < 256) s -> c_string (s ++ 0 :: rest) = s.
Proof. induction 1 as [|b s Hb _ IH]; [done|]. cbn. destruct (Z.eqb_spec b 0); [lia|]. by rewrite IH. Qed.

(** A non-empty path that is shorter than FileNameMaxLength allows is copied to a block of
    that size. *)
Theorem GetName_copies areas m p s : cstr m p s -> s <> [] -> zlen s < FileNameMaxLength areas p ->
  exists ret, GetName areas true p m = Ret (Some ret) /\ c_string ret = s /\ zlen ret = FileNameMaxLength areas p.
Proof.
  intros C Ns Hl. unfold GetName. destruct s as [|b s]; [done|]. destruct (load_cstr_cons _ _ _ _ C) as [-> Cb]. cbn [bindO].
  unfold c_true in Cb. apply negb_true_iff in Cb. rewrite Cb. pose proof (zlen_nonneg (b :: s)).
  destruct (Z.leb_spec (FileNameMaxLength areas p) 0); [lia|]. cbn [negb].
  set (ret := replicate _ _). assert (Lr : zlen ret = FileNameMaxLength areas p).
  { unfold ret, zlen. rewrite length_replicate. lia. }
  destruct (copy_name_spec m (b :: s) p 0 (Z.to_nat (FileNameMaxLength areas p)) ret) as (rest & E); [by rewrite Z.add_0_r|lia..|].
  rewrite E. cbn [bindO]. eexists. split; [reflexivity|]. destruct C as [Hs C].
  split; [by apply c_string_app|]. by rewrite <- (copy_name_length _ _ _ _ _ _ E) in Lr.
Qed.

Lemma copy_name_overrun m p : forall n i ret, 0 <= i -> zlen ret = Z.of_nat n + i ->
  (forall k, i <= k < zlen ret -> exists b, m !! (p + k) = Some b /\ b <> 0) -> copy_name n i p m ret = Fault.
Proof.
  induction n as [|n IH]; intros i ret Hi Hl Q; cbn [copy_name].
  - unfold zupdate. unfold zlen in *. destruct (Z.ltb_spec i (Z.of_nat (length ret))); [lia|]. by rewrite andb_false_r.
  - destruct (Q i) as (b & Hb & Nb); [lia|]. unfold load. rewrite Hb. cbn [of_option bindO].
    rewrite zupdate_lt by (unfold zlen in Hl; lia). cbn [of_option bindO]. destruct (Z.eqb_spec b 0); [done|].
    apply IH; [lia|unfold zlen in *; rewrite length_insert; lia|].
    intros k Hk. apply Q. unfold zlen in *. rewrite length_insert in Hk. lia.
Qed.

(** A path with no NUL within FileNameMaxLength bytes makes GetName store its terminator
    one byte past the end of the block it allocated. *)
Theorem GetName_overruns areas m p : 0 < FileNameMaxLength areas p ->
  (forall k, 0 <= k < FileNameMaxLength areas p -> exists b, m !! (p + k) = Some b /\ b <> 0) ->
  GetName areas true p m = Fault.
Proof.
  intros Hl Q. unfold GetName. destruct (Q 0) as (b & Hb & Nb); [lia|]. rewrite Z.add_0_r in Hb. unfold load. rewrite Hb.
  cbn [of_option bindO]. destruct (Z.eqb_spec b 0); [done|]. destruct (Z.leb_spec (FileNameMaxLength areas p) 0); [lia|]. cbn [negb].
  rewrite copy_name_overrun; [done|lia|unfold zlen; rewrite length_replicate; lia|].
  unfold zlen. rewrite length_replicate, Z2Nat.id by lia. exact Q.
Qed.

(** ** A file system with one file *)

Module Demo.
(** Only the path "a" exists; the state counts the vNodes released. *)
#[global] Instance demo_ops : VfsOps Z := {
  NameToVNode path flags w := if decide (path = [97]) then ((0, 700), w) else ((- ENOENT, 0), w);
  fileOps_open vNode w := (0, w);
  fileOps_close vNode w := (0, w);
  VNodeRelease vNode w := w + 1;
}.
#[global] Instance demo_laws : VfsLaws Z.
Proof.
  split; cbn.
  - intros path flags w err vNode w'. destruct (decide (path = [97])); intros [= <- <- <-]; done.
  - by intros vNode w err w' [= <- <-].
  - by intros vNode w ret w' [= <- <-].
Qed.

Definition pick (X : gset Z) : option Z := head (elements X).
Lemma pick_in X p : pick X = Some p -> p ∈ X.
Proof. unfold pick. intros E. apply elem_of_elements. destruct (elements X); [done|]. injection E as ->. constructor. Qed.
Lemma pick_empty X : pick X = None -> X = ∅.
Proof. unfold pick. destruct (elements X) eqn:E; [|done]. intros _. by apply leibniz_equiv, elements_empty_inv. Qed.

Definition structures : gset Z := list_to_set (seqZ 1 101).
Definition table : ftab Z :=
  {| numFds := 0; files := []; file_at := ∅; fileCache := structures; kmalloc := true; world := 0 |}.
Lemma table_rep : frep 101 table ∅.
Proof.
  split; cbn; try done.
  - intros p. unfold structures. rewrite elem_of_list_to_set, elem_of_seqZ. lia.
Qed.

Definition session : list fd_op :=
  [FdOpen (Some [97]) 0; FdOpen (Some [98]) 0; FdOpen (Some [97]) 0; FdClose 0; FdOpen (Some [97]) 0; FdClose 7; FdOpen None 0].
Example session_runs : exists t, run_fd_ops pick session table = Ret ([0; - ENOENT; 1; 0; 0; - EBADF; - EFAULT], t).
Proof. eexists. vm_compute. reflexivity. Qed.

Lemma fd_table_refines_witness : exists rs t' M',
  run_fd_ops pick session table = Ret (rs, t') /\ frep 101 t' M' /\ fd_runs session ∅ (world table) rs M' (world t').
Proof. apply (fd_table_refines pick pick_in pick_empty 101 session table ∅ table_rep). lia. Defined.

(** Descriptors 0 and 1 share the structure at 5. *)
Definition shared : ftab Z :=
  {| numFds := 10; files := [5; 5; 0; 0; 0; 0; 0; 0; 0; 0];
     file_at := {[5 := {| f_vNode := 700; f_position := 0; f_refs := 2 |}]}; fileCache := ∅; kmalloc := true; world := 0 |}.
Lemma SysClose_frees_shared_witness : exists t',
  SysClose 0 shared = Ret (0, t') /\ 5 ∈ fileCache t' /\ file_at t' !! 5 = Some zero_file
  /\ files t' = [0; 5; 0; 0; 0; 0; 0; 0; 0; 0] /\ world t' = 0.
Proof.
  apply (SysClose_frees_shared shared 0 5 {| f_vNode := 700; f_position := 0; f_refs := 2 |}); cbn; done || lia.
Defined.

(** One page of user memory at 8192. *)
Definition area : VMArea :=
  {| start := 8192; alength := 4096; aoffset := 0; flags := 0; protection := 6; vNode := 0; areaOps := 0 |}.
Definition name : mem := {[12000 := 47; 12001 := 97; 12002 := 0]}.
Lemma GetName_copies_witness : exists ret,
  GetName [area] true 12000 name = Ret (Some ret) /\ c_string ret = [47; 97] /\ zlen ret = FileNameMaxLength [area] 12000.
Proof.
  apply (GetName_copies [area] name 12000 [47; 97]); [|done|vm_compute; reflexivity].
  split; [repeat constructor; lia|]. by vm_compute.
Defined.

(** Two bytes before the end of the area. *)
Definition unterminated : mem := {[12286 := 97; 12287 := 98]}.
Lemma GetName_overruns_witness : GetName [area] true 12286 unterminated = Fault.
Proof.
  apply (GetName_overruns [area] unterminated 12286); [vm_compute; reflexivity|].
  change (FileNameMaxLength [area] 12286) with 2. intros k Hk. assert (k = 0 \/ k = 1) as [-> | ->] by lia; by eexists.
Defined.
End Demo.
