(* ===== verification/Namei.v ===== *)
(** * Path names (fs/vfs/vnode.c, fs/vfs/dir.c, fs/vfs/file.c)

    NameToVNode finds the vNode of a path: DirNameVNode walks all but the
    last component, VfsDoLookup does one step, with ".", "..", mount points
    and links.  Creating and removing directories and files and changing the
    root are built on them.

    A path is the list of its bytes without the terminating NUL; a pointer
    into it is a suffix.  [refs] are the reference counts of the vNodes: a
    lookup, a followed link and VNodeGet take a reference on their result,
    VNodeRelease gives one back; what it does with the last one is in
    VCache, here [ref_put] is its effect on the count.  What the file
    systems provide is the interface [NodeTree].

    The specification splits a path into components and follows them one by
    one ([NameToVNode_resolves]); [NameToVNode_leaks] gives the exact effect
    on the reference counts. *)

From stdpp Require Import functions.
From S2P Require Import Prelude.

(** ** Model *)

Definition FILE_READ : Z := 1.
Definition FILE_CREATE_OPEN : Z := 4.
Definition FILE_FORCE_OPEN : Z := 8.
Definition FILE_FORCE_CREATE : Z := 16.
Definition FILE_DIRECTORY : Z := 32.
Definition VFS_ATTR_FILE : Z := 1.
Definition VFS_ATTR_DIR : Z := 2.
Definition VFS_ATTR_SOFTLINK : Z := 128.
Definition SB_RDONLY : Z := 2.

Definition SLASH : Z := 47.
Definition DOT : Z := 46.

(** The fields of a vNode that lookups read and the functions of its file
    system ([None] for a NULL pointer), on the state [W] of the file
    systems.  [n_parent] is the vNode VNodeGet gives for the covered node of
    a mounted superblock.  A lookup that fails leaves *ret at NULL. *)
Class NodeTree (W : Type) := {
  n_mode : W -> Z -> Z;
  n_flags : W -> Z -> Z;
  n_sbflags : W -> Z -> Z;
  n_mountNode : W -> Z -> Z;
  n_isMount : W -> Z -> bool;
  n_parent : W -> Z -> Z;
  n_lookup : W -> Z -> option (list Z -> Z * Z);
  n_followLink : W -> Z -> Z * Z;
  n_create : W -> Z -> option (list Z -> Z * Z * W);
  n_mkDir : W -> Z -> option (list Z -> Z * Z * W);
  n_rmDir : W -> Z -> option (list Z -> Z * W);
  n_remove : W -> Z -> option (list Z -> Z * W);
  n_touch : W -> Z -> W;
}.

(** [root] and [cwd] are those of the current process. *)
Record nstate (W : Type) := { refs : Z -> Z; root : Z; cwd : Z; fs : W }.
Arguments refs {W} _.
Arguments root {W} _.
Arguments cwd {W} _.
Arguments fs {W} _.

(** [while ( *path == '/') path++] *)
Fixpoint skip_slashes (path : list Z) : list Z :=
  match path with [] => [] | c :: rest => if c =? SLASH then skip_slashes rest else path end.

(** The scan of one component: the component and, when it ends in '/', what
    follows. *)
Fixpoint scan_name (path : list Z) : list Z * option (list Z) :=
  match path with
  | [] => ([], None)
  | c :: rest =>
      if c =? SLASH then ([], Some rest)
      else let (name, tail) := scan_name rest in (c :: name, tail)
  end.

Section Model.
Context {W : Type} `{NodeTree W}.
Implicit Types (s : nstate W).

Definition with_refs f s : nstate W := {| refs := f; root := root s; cwd := cwd s; fs := fs s |}.
Definition with_fs w s : nstate W := {| refs := refs s; root := root s; cwd := cwd s; fs := w |}.
Definition ref_get (v : Z) s : nstate W := with_refs (<[v := refs s v + 1]> (refs s)) s.
Definition ref_put (v : Z) s : nstate W :=
  if v =? 0 then s else with_refs (<[v := refs s v - 1]> (refs s)) s.

Definition is_dir s (v : Z) : bool := c_true (Z.land (n_mode (fs s) v) VFS_ATTR_DIR).

(** After a successful lookup: mount points and links. *)
Definition cross_node (ret : Z) s : outcome (Z * Z * nstate W) :=
  let (ret, s) :=
    if c_true ret && c_true (n_mountNode (fs s) ret)
    then let s := ref_put ret s in
         let m := n_mountNode (fs s) ret in (m, ref_get m s)
    else (ret, s) in
  if ret =? 0 then Fault
  else if c_true (Z.land (n_mode (fs s) ret) VFS_ATTR_SOFTLINK)
  then let (err, dest) := n_followLink (fs s) ret in
       Ret (err, dest, if c_true err then s else ref_get dest s)
  else Ret (0, ret, s).

(** [ret] is the value of [*ret] before the call. *)
Definition VfsDoLookup (currName : list Z) (ret dir : Z) s : outcome (Z * Z * nstate W) :=
  if dir =? 0 then Ret (- EFAULT, ret, s)
  else match n_lookup (fs s) dir with
  | None => Ret (- ENOTIMPL, ret, s)
  | Some _ =>
      if negb (is_dir s dir) then Ret (- ENOTDIR, ret, s)
      else if bool_decide (currName = [DOT]) then Ret (0, dir, s)
      else if bool_decide (currName = [DOT; DOT]) && (dir =? root s) then Ret (0, dir, s)
      else
        let (dir, s) :=
          if bool_decide (currName = [DOT; DOT]) && n_isMount (fs s) dir
          then let d := n_parent (fs s) dir in (d, ref_put dir (if d =? 0 then s else ref_get d s))
          else (dir, s) in
        if dir =? 0 then Fault
        else match n_lookup (fs s) dir with
        | None => Fault
        | Some lookup =>
            let (err, ret) := lookup currName in
            let* (err, ret, s) :=
              if c_true err then Ret (err, 0, s)
              else cross_node ret (if ret =? 0 then s else ref_get ret s) in
            Ret (err, ret, ref_put dir s)
        end
  end.

(** The loop of DirNameVNode: the directory, 0 for NULL, and [currName]. *)
Fixpoint walk (fuel : nat) (path : list Z) (currName : option (list Z)) (currNode : Z) s
  : outcome (Z * option (list Z) * nstate W) :=
  match fuel with
  | O => NoFuel
  | S fuel =>
      match path with
      | [] => Ret (currNode, currName, s)
      | _ :: _ =>
          let path := skip_slashes path in
          match scan_name path with
          | (_, None) => Ret (currNode, Some path, s)
          | (name, Some rest) =>
              let s := ref_get currNode s in
              let* (err, newNode, s) := VfsDoLookup name 0 currNode s in
              if c_true err || negb (is_dir s newNode) then Ret (0, None, s)
              else walk fuel rest (Some path) newNode s
          end
      end
  end.

(** The directory, the name of the entry ([None] for NULL) and the new
    state; *retLen is the length of the name.  [dir] is 0 for NULL. *)
Definition DirNameVNode (path : list Z) (dir : Z) s : outcome (Z * option (list Z) * nstate W) :=
  match path with
  | c :: rest =>
      if c =? SLASH
      then
        let s := ref_get (root s) s in
        match rest with
        | [] => Ret (root s, None, s)
        | _ => walk (S (length rest)) rest None (root s) s
        end
      else
        let d := if c_true dir then dir else cwd s in
        walk (S (length path)) path None d (ref_get d s)
  | [] => Fault
  end.

(** The name and length given to a lookup; NULL comes with length 0. *)
Definition name_of (name : option (list Z)) : list Z := default [] name.

(** The part of NameToVNode for FILE_FORCE_CREATE and FILE_CREATE_OPEN. *)
Definition create_node (force : bool) (name : list Z) (ret dir : Z) s : outcome (Z * Z * nstate W) :=
  let s := ref_get dir s in
  let* (err, ret, s) := VfsDoLookup name ret dir s in
  if c_true err then
    match n_create (fs s) dir with
    | Some create =>
        let '(err, v, w) := create name in
        let s := with_fs w s in
        let s := if c_true v then with_fs (n_touch (fs s) v) (ref_get v s) else s in
        Ret (err, v, s)
    | None => Ret (- EROFS, ret, s)
    end
  else Ret (if force then - EEXIST else 0, ret, ref_put dir s).

(** NameToVNode overwrites a trailing slash in the caller's string. *)
Definition strip_slash (path : list Z) : list Z :=
  match last path with
  | Some c => if (c =? SLASH) && negb (length path =? 1)%nat then removelast path else path
  | None => path
  end.

(** The error, [*retVal] and the new state; [ret] is the value of [*retVal]
    before the call. *)
Definition NameToVNode (path : list Z) (flags : Z) (ret dirAt : Z) s : outcome (Z * Z * nstate W) :=
  match last path with
  | None => Fault
  | Some c =>
      if (c =? SLASH) && (length path =? 1)%nat then Ret (0, root s, ref_get (root s) s)
      else
        let* (dir, name, s) := DirNameVNode (strip_slash path) dirAt s in
        if dir =? 0 then Ret (- ENOENT, ret, s)
        else
          let name := name_of name in
          let* (err, ret, s) :=
            if c_true (Z.land flags FILE_FORCE_CREATE) then create_node true name ret dir s
            else if c_true (Z.land flags FILE_CREATE_OPEN) then create_node false name ret dir s
            else VfsDoLookup name ret dir s in
          if c_true ret && c_true (Z.land flags FILE_DIRECTORY)
             && c_true (Z.land (n_flags (fs s) ret) VFS_ATTR_DIR)
          then Ret (- ENOTDIR, ret, ref_put ret s)
          else Ret (err, ret, s)
  end.

(** *** Directories and files *)

Definition DoCreateDir (pathName : list Z) s : outcome (Z * nstate W) :=
  let* (err, ret, s) := NameToVNode pathName 0 0 0 s in
  if negb (c_true err) && c_true ret then Ret (- EEXIST, ref_put ret s)
  else
    let* (dir, name, s) := DirNameVNode (strip_slash pathName) 0 s in
    if dir =? 0 then Ret (- ENOENT, s)
    else
      let name := name_of name in
      let* (err, s) :=
        if (length name =? 0)%nat then Ret (- EPERM, s)
        else if c_true (Z.land (n_sbflags (fs s) dir) SB_RDONLY) then Ret (- EROFS, s)
        else match n_mkDir (fs s) dir with
        | None => Ret (- ENOTIMPL, s)
        | Some mkDir =>
            let '(err, v, w) := mkDir name in
            let s := with_fs w s in
            if negb (c_true err) && c_true v
            then Ret (err, ref_put v (with_fs (n_touch (fs s) v) (ref_get v s)))
            else Ret (err, s)
        end in
      Ret (err, ref_put dir s).

Definition DoRemoveDir (path : list Z) s : outcome (Z * nstate W) :=
  let* (err, dir, s) := NameToVNode path FILE_FORCE_OPEN 0 0 s in
  if c_true err then Ret (err, s)
  else if c_true (Z.land (n_mode (fs s) dir) VFS_ATTR_FILE) then Ret (- ENOTDIR, ref_put dir s)
  else
    let s := ref_put dir s in
    let* (dir, name, s) := DirNameVNode (strip_slash path) 0 s in
    if dir =? 0 then Ret (- ENOENT, s)
    else
      let name := name_of name in
      let* (err, s) :=
        if (length name =? 0)%nat then Ret (- EPERM, s)
        else if c_true (Z.land (n_sbflags (fs s) dir) SB_RDONLY) then Ret (- EROFS, s)
        else match n_rmDir (fs s) dir with
        | None => Ret (- ENOTIMPL, s)
        | Some rmDir => let (err, w) := rmDir name in Ret (err, with_fs w s)
        end in
      Ret (err, ref_put dir s).

Definition DoRemove (pathName : list Z) s : outcome (Z * nstate W) :=
  let* (err, v, s) := NameToVNode pathName FILE_FORCE_OPEN 0 0 s in
  if c_true err then Ret (err, s)
  else if is_dir s v then Ret (- EISDIR, ref_put v s)
  else if c_true (Z.land (n_sbflags (fs s) v) SB_RDONLY) then Ret (- EROFS, ref_put v s)
  else
    let s := ref_put v s in
    let* (dir, name, s) := DirNameVNode (strip_slash pathName) 0 s in
    if dir =? 0 then Ret (- ENOENT, s)
    else
      let name := name_of name in
      if (length name =? 0)%nat then Ret (- EPERM, ref_put dir s)
      else
        let (err, s) :=
          match n_remove (fs s) dir with
          | None => (- ENOTIMPL, s)
          | Some remove => let (err, w) := remove name in (err, with_fs w s)
          end in
        Ret (err, ref_put dir s).

Definition DoChangeRoot (dirName : list Z) s : outcome (Z * nstate W) :=
  let* (err, v, s) := NameToVNode dirName (Z.lor FILE_READ FILE_FORCE_OPEN) 0 0 s in
  if c_true err then Ret (err, s)
  else if negb (is_dir s v) then Ret (- ENOTDIR, ref_put v s)
  else
    let s := ref_put (root s) (ref_put (cwd s) s) in
    Ret (0, {| refs := <[v := refs s v + 2]> (refs s); root := v; cwd := v; fs := fs s |}).
End Model.

(** ** Specification *)

(** The components of a path: what stands between slashes, without empty
    names. *)
Fixpoint split_slash (path : list Z) : list Z * list (list Z) :=
  match path with
  | [] => ([], [])
  | c :: rest =>
      let (n, ns) := split_slash rest in
      if c =? SLASH then ([], n :: ns) else (c :: n, ns)
  end.
Definition nonempty (n : list Z) : bool := negb (length n =? 0)%nat.
Definition components (path : list Z) : list (list Z) :=
  let (n, ns) := split_slash path in List.filter nonempty (n :: ns).

Section Spec.
Context {W : Type} `{NodeTree W}.
Implicit Types (w : W).

(** One step from directory [d]: an error and a vNode. *)
Definition step w (rt d : Z) (name : list Z) : Z * Z :=
  match n_lookup w d with
  | None => (- ENOTIMPL, 0)
  | Some _ =>
      if negb (c_true (Z.land (n_mode w d) VFS_ATTR_DIR)) then (- ENOTDIR, 0)
      else if bool_decide (name = [DOT]) || (bool_decide (name = [DOT; DOT]) && (d =? rt)) then (0, d)
      else
        let d := if bool_decide (name = [DOT; DOT]) && n_isMount w d then n_parent w d else d in
        match n_lookup w d with
        | None => (0, 0)
        | Some lookup =>
            let (err, v) := lookup name in
            if c_true err then (err, 0)
            else
              let v := if c_true (n_mountNode w v) then n_mountNode w v else v in
              if c_true (Z.land (n_mode w v) VFS_ATTR_SOFTLINK) then n_followLink w v else (0, v)
        end
  end.

Fixpoint resolve w (rt d : Z) (ns : list (list Z)) : Z * Z :=
  match ns with
  | [] => (0, d)
  | n :: [] => step w rt d n
  | n :: ns =>
      let (err, v) := step w rt d n in
      if c_true err || negb (c_true (Z.land (n_mode w v) VFS_ATTR_DIR)) then (- ENOENT, 0)
      else resolve w rt v ns
  end.

(** The directory of the last component, and its name. *)
Fixpoint parent w (rt d : Z) (ns : list (list Z)) : option (Z * list Z) :=
  match ns with
  | [] => None
  | n :: [] => Some (d, n)
  | n :: ns =>
      let (err, v) := step w rt d n in
      if c_true err || negb (c_true (Z.land (n_mode w v) VFS_ATTR_DIR)) then None
      else parent w rt v ns
  end.

(** The directories a path is walked through, without the last one. *)
Fixpoint passed w (rt d : Z) (ns : list (list Z)) : list Z :=
  match ns with
  | [] | _ :: [] => []
  | n :: ns => d :: passed w rt (snd (step w rt d n)) ns
  end.

(** What the functions of a file system return: vNodes on success, error
    codes otherwise; mounted superblocks cover a directory. *)
Record tree_ok w : Prop := {
  to_lookup : forall d lookup n err v, n_lookup w d = Some lookup -> lookup n = (err, v) -> err = 0 -> v <> 0;
  to_link : forall v err d, n_followLink w v = (err, d) -> err = 0 -> d <> 0;
  to_parent : forall d, n_isMount w d = true -> n_parent w d <> 0 /\ is_Some (n_lookup w (n_parent w d));
}.

Definition no_links w : Prop := forall v, Z.land (n_mode w v) VFS_ATTR_SOFTLINK = 0.
End Spec.

(** ** The walk follows the components *)

Section Facts.
Context {W : Type} `{NT : NodeTree W}.
Implicit Types (s : nstate W) (w : W).

(** Only the reference counts differ. *)
Definition same s s' : Prop := root s' = root s /\ cwd s' = cwd s /\ fs s' = fs s.
Lemma same_refl s : same s s. Proof. done. Qed.
Lemma same_trans s1 s2 s3 : same s1 s2 -> same s2 s3 -> same s1 s3.
Proof. unfold same. intuition congruence. Qed.
Lemma same_get v s : same s (ref_get v s). Proof. done. Qed.
Lemma same_release v s : same s (ref_put v s).
Proof. unfold ref_put. by destruct (v =? 0). Qed.
Hint Resolve same_refl same_get same_release : core.

(** 1 at [v]. *)
Definition one (v p : Z) : Z := if p =? v then 1 else 0.
Lemma refs_get v s p : refs (ref_get v s) p = refs s p + one v p.
Proof. cbn. unfold one. destruct (Z.eqb_spec p v) as [->|]; [rewrite fn_lookup_insert|rewrite fn_lookup_insert_ne]; done || lia. Qed.
Lemma refs_release v s p : v <> 0 -> refs (ref_put v s) p = refs s p - one v p.
Proof.
  intros Nv. unfold ref_put. destruct (Z.eqb_spec v 0); [done|]. cbn. unfold one.
  destruct (Z.eqb_spec p v) as [->|]; [rewrite fn_lookup_insert|rewrite fn_lookup_insert_ne]; done || lia.
Qed.

Lemma cross_node_spec v s : tree_ok (fs s) -> v <> 0 -> 
  let m := if c_true (n_mountNode (fs s) v) then n_mountNode (fs s) v else v in
  let r := if c_true (Z.land (n_mode (fs s) m) VFS_ATTR_SOFTLINK) then n_followLink (fs s) m else (0, m) in
  exists s', cross_node v s = Ret (r, s') /\ same s s'
    /\ (no_links (fs s) -> forall p, refs s' p = refs s p - one v p + one (snd r) p).
Proof.
  intros T Nv m r. unfold cross_node. apply c_true_spec in Nv as Cv. rewrite Cv. cbn [andb].
  destruct (same_release v s) as (_ & _ & Fr).
  assert (Hs : exists s1, (if c_true (n_mountNode (fs s) v)
    then (n_mountNode (fs (ref_put v s)) v, ref_get (n_mountNode (fs (ref_put v s)) v) (ref_put v s))
    else (v, s)) = (m, s1)
    /\ same s s1 /\ forall p, refs s1 p = refs s p - one v p + one m p).
  { subst m. destruct (c_true (n_mountNode (fs s) v)) eqn:Cm.
    - eexists. cbn. rewrite Fr. split; [done|]. split; [by apply same_trans with (ref_put v s)|].
      intros p. change (refs (ref_get (n_mountNode (fs s) v) (ref_put v s)) p = refs s p - one v p + one (n_mountNode (fs s) v) p).
      by rewrite refs_get, refs_release.
    - exists s. split_and!; try done. lia. }
  destruct Hs as (s1 & -> & S1 & R1). pose proof S1 as (_ & _ & F1). rewrite F1.
  assert (m <> 0). { subst m. destruct (c_true (n_mountNode (fs s) v)) eqn:Cm; [by apply c_true_spec|done]. }
  destruct (Z.eqb_spec m 0); [done|]. subst r. destruct (c_true (Z.land (n_mode (fs s) m) VFS_ATTR_SOFTLINK)) eqn:Cl.
  - destruct (n_followLink (fs s) m) as [err d]. eexists. split; [done|]. split.
    + destruct (c_true err); [done|]. by apply same_trans with s1.
    + intros N. rewrite N in Cl. done.
  - exists s1. split_and!; try done.
Qed.

Lemma VfsDoLookup_step name ret dir s : tree_ok (fs s) -> dir <> 0 -> exists v s',
  VfsDoLookup name ret dir s = Ret (fst (step (fs s) (root s) dir name), v, s') /\ same s s'
  /\ (fst (step (fs s) (root s) dir name) = 0 -> v = snd (step (fs s) (root s) dir name) /\ v <> 0
      /\ (no_links (fs s) -> forall p, refs s' p = refs s p - one dir p + one v p)).
Proof.
  intros T Nd. unfold VfsDoLookup, step. destruct (Z.eqb_spec dir 0); [done|].
  destruct (n_lookup (fs s) dir) as [lookup|] eqn:El; [|by exists ret, s].
  change (c_true (Z.land (n_mode (fs s) dir) VFS_ATTR_DIR)) with (is_dir s dir).
  destruct (is_dir s dir); cbn [negb]; [|by exists ret, s].
  destruct (bool_decide (name = [DOT])); cbn [orb].
  { exists dir, s. split_and!; try done. intros _. split_and!; try done. lia. }
  destruct (bool_decide (name = [DOT; DOT]) && (dir =? root s)).
  { exists dir, s. split_and!; try done. intros _. split_and!; try done. lia. }
  set (d := if bool_decide (name = [DOT; DOT]) && n_isMount (fs s) dir then n_parent (fs s) dir else dir).
  assert (Hs : exists s1, (if bool_decide (name = [DOT; DOT]) && n_isMount (fs s) dir
    then (n_parent (fs s) dir, ref_put dir (if n_parent (fs s) dir =? 0 then s else ref_get (n_parent (fs s) dir) s))
    else (dir, s)) = (d, s1) /\ same s s1 /\ d <> 0 /\ is_Some (n_lookup (fs s) d)
    /\ forall p, refs s1 p = refs s p - one dir p + one d p).
  { subst d. destruct (bool_decide (name = [DOT; DOT]) && n_isMount (fs s) dir) eqn:E.
    - apply andb_true_iff in E as [_ E]. destruct (to_parent _ T dir E) as [Np Lp].
      destruct (Z.eqb_spec (n_parent (fs s) dir) 0); [done|]. eexists. split; [done|]. split; [|split; [done|split; [done|]]].
      + by apply same_trans with (ref_get (n_parent (fs s) dir) s).
      + intros p. rewrite refs_release, refs_get by done. lia.
    - exists s. split_and!; try done. lia. }
  cbv zeta. destruct Hs as (s1 & -> & S1 & Nd' & [look Ed] & R1). pose proof S1 as (_ & _ & F1).
  destruct (Z.eqb_spec d 0); [done|]. rewrite F1, Ed. destruct (look name) as [err v] eqn:Ev.
  destruct (c_true err) eqn:Ce.
  { exists 0, (ref_put d s1). split; [done|]. split; [by apply same_trans with s1|]. cbn.
    intros E. subst err. done. }
  apply c_true_false in Ce. pose proof (to_lookup _ T _ _ _ _ _ Ed Ev Ce) as Nv. destruct (Z.eqb_spec v 0); [done|].
  rewrite <- F1 in T. destruct (cross_node_spec v (ref_get v s1)) as (s2 & E2 & S2 & R2); [done..|].
  cbn [fs ref_get with_refs] in E2, S2, R2. rewrite F1 in E2, R2. rewrite E2. 
  set (r := if c_true (Z.land _ VFS_ATTR_SOFTLINK) then _ else _) in *.
  assert (Er : (r = (fst r, snd r))) by by destruct r. rewrite Er. cbn [bindO].
  exists (snd r), (ref_put d s2). split; [done|]. cbn [fst snd]. clear Er.
  split. { apply same_trans with s1; [done|]. apply same_trans with s2; [|done]. by apply same_trans with (ref_get v s1). }
  intros E0. split; [done|]. split.
  - subst r. destruct (c_true (Z.land _ VFS_ATTR_SOFTLINK)).
    + destruct (n_followLink _ _) as [e x] eqn:Ef. rewrite F1 in T. by apply (to_link _ T _ _ _ Ef).
    + cbn. destruct (c_true (n_mountNode (fs s) v)) eqn:Cm; [by apply c_true_spec|done].
  - intros Nl p. rewrite refs_release, R2 by done. change (refs s1) with (refs s1).
    pose proof (refs_get v s1 p) as G. unfold ref_get in G. cbn in G. cbn. rewrite G, R1. lia.
Qed.

(** *** Paths *)

Lemma components_skip path : components (skip_slashes path) = components path.
Proof.
  induction path as [|c path IH]; [done|]. cbn [skip_slashes]. destruct (Z.eqb_spec c SLASH) as [->|]; [|done].
  rewrite IH. unfold components. cbn. by destruct (split_slash path).
Qed.

Lemma scan_split path : split_slash path =
  match scan_name path with
  | (name, None) => (name, [])
  | (name, Some rest) => (name, let (n, ns) := split_slash rest in n :: ns)
  end.
Proof.
  induction path as [|c path IH]; [done|]. cbn [split_slash scan_name].
  destruct (c =? SLASH); [by destruct (split_slash path)|]. rewrite IH.
  by destruct (scan_name path) as [name [rest|]].
Qed.

Lemma scan_nonempty path name tail : scan_name (skip_slashes path) = (name, tail) -> skip_slashes path <> [] -> nonempty name = true.
Proof.
  induction path as [|c path IH]; [done|]. cbn [skip_slashes]. destruct (c =? SLASH) eqn:E; [done|].
  cbn. rewrite E. by destruct (scan_name path); intros [= <- <-].
Qed.

Lemma components_scan path name rest : scan_name (skip_slashes path) = (name, Some rest) ->
  components path = name :: components rest.
Proof.
  intros E. rewrite <- components_skip. unfold components. rewrite scan_split, E.
  assert (skip_slashes path <> []) by (intros E0; by rewrite E0 in E).
  pose proof (scan_nonempty _ _ _ E) as N. destruct (split_slash rest) as [n ns]. cbn. by rewrite N.
Qed.

Lemma components_end path name : scan_name (skip_slashes path) = (name, None) -> skip_slashes path <> [] ->
  components path = [name] /\ skip_slashes path = name.
Proof.
  intros E N. pose proof (scan_nonempty _ _ _ E N) as Nn. rewrite <- components_skip. unfold components.
  rewrite scan_split, E. cbn. rewrite Nn. split; [done|]. clear -E.
  revert name E. induction (skip_slashes path) as [|c l IH]; intros name; cbn; [by intros [= <-]|].
  destruct (c =? SLASH); [done|]. destruct (scan_name l) as [n [t|]]; [done|]. intros [= <-]. by rewrite (IH n).
Qed.

Lemma scan_rest path name rest : scan_name path = (name, Some rest) ->
  (length rest < length path)%nat /\ path = name ++ SLASH :: rest.
Proof.
  revert name. induction path as [|c path IH]; intros name; cbn; [done|]. destruct (Z.eqb_spec c SLASH) as [->|].
  - intros [= <- <-]. split; [lia|done].
  - destruct (scan_name path) as [nm [t|]]; [|done]. intros [= <- <-]. destruct (IH nm eq_refl) as [L ->]. split; [cbn in *; lia|done].
Qed.

Lemma skip_slashes_suffix path : exists k, path = replicate k SLASH ++ skip_slashes path.
Proof.
  induction path as [|c path [k IH]]; [by exists 0%nat|]. cbn. destruct (Z.eqb_spec c SLASH) as [->|].
  - exists (S k). cbn. by f_equal.
  - by exists 0%nat.
Qed.


(** A path that does not end in a slash. *)
Definition ends_well (path : list Z) : Prop := exists c, last path = Some c /\ c <> SLASH.

Lemma ends_well_app l path : path <> [] -> ends_well (l ++ path) <-> ends_well path.
Proof.
  intros N. unfold ends_well. destruct path as [|c path _] using rev_ind; [done|].
  by rewrite app_assoc, !last_snoc.
Qed.

Lemma ends_well_skip path : ends_well path -> skip_slashes path <> [] /\ ends_well (skip_slashes path).
Proof.
  intros E. destruct (skip_slashes_suffix path) as [k Ek]. destruct (skip_slashes path) as [|c l] eqn:El.
  - destruct E as (c & Hc & Nc). rewrite Ek, app_nil_r in Hc. apply last_Some_elem_of in Hc.
    apply elem_of_replicate in Hc as [-> _]. done.
  - split; [done|]. rewrite Ek in E. by apply ends_well_app in E.
Qed.

Lemma ends_well_scan path name rest : ends_well path -> scan_name (skip_slashes path) = (name, Some rest) ->
  rest <> [] /\ ends_well rest /\ (length rest < length path)%nat.
Proof.
  intros E Es. destruct (ends_well_skip _ E) as [_ E']. destruct (scan_rest _ _ _ Es) as [L Ep].
  destruct (skip_slashes_suffix path) as [k Ek].
  assert (length (skip_slashes path) <= length path)%nat by (rewrite Ek at 2; rewrite length_app; lia).
  destruct rest as [|c rest].
  - destruct E' as (c & Hc & Nc). rewrite Ep, last_snoc in Hc. congruence.
  - split; [done|]. split; [|lia]. rewrite Ep in E'. change (SLASH :: c :: rest) with ([SLASH] ++ c :: rest) in E'.
    rewrite app_assoc in E'. by apply ends_well_app in E'.
Qed.

(** The number of times [p] is in [l]. *)
Fixpoint count (l : list Z) (p : Z) : Z := match l with [] => 0 | v :: l => one v p + count l p end.

Lemma walk_spec fuel : forall path cn d s, tree_ok (fs s) -> d <> 0 -> ends_well path -> (length path < fuel)%nat ->
  exists dir name s', walk fuel path cn d s = Ret (dir, name, s') /\ same s s'
  /\ if dir =? 0 then parent (fs s) (root s) d (components path) = None
     else exists nm, name = Some nm /\ parent (fs s) (root s) d (components path) = Some (dir, nm)
       /\ (no_links (fs s) -> forall p,
           refs s' p = refs s p + count (passed (fs s) (root s) d (components path)) p + one dir p - one d p).
Proof.
  induction fuel as [|fuel IH]; intros path cn d s T Nd Ew Hf; [lia|]. cbn [walk].
  destruct (ends_well_skip _ Ew) as [Ns _]. destruct path as [|c0 path0] eqn:Epath; [done|]. rewrite <- Epath in *.
  destruct (scan_name (skip_slashes path)) as [name [rest|]] eqn:Es.
  2: { destruct (components_end _ _ Es Ns) as [-> ->]. exists d, (Some name), s. split; [done|]. split; [done|].
       destruct (Z.eqb_spec d 0); [done|]. exists name. split; [done|]. split; [done|]. cbn. lia. }
  destruct (ends_well_scan _ _ _ Ew Es) as (Nr & Er & Lr). rewrite (components_scan _ _ _ Es).
  assert (Hc : exists n ns, components rest = n :: ns).
  { destruct (ends_well_skip _ Er) as [Ns' _]. destruct (scan_name (skip_slashes rest)) as [nm [r'|]] eqn:E'.
    - rewrite (components_scan _ _ _ E'). eauto.
    - destruct (components_end _ _ E' Ns') as [-> _]. eauto. }
  destruct Hc as (n & ns & Hc).
  destruct (VfsDoLookup_step name 0 d (ref_get d s) T Nd) as (v & s1 & -> & S1 & R1). cbn [bindO].
  cbn [fs root ref_get with_refs] in R1 |- *. pose proof S1 as (Rt & _ & F1). cbn in Rt, F1.
  assert (Er' : parent (fs s) (root s) d (name :: components rest) =
    let (err, v) := step (fs s) (root s) d name in
    if c_true err || negb (c_true (Z.land (n_mode (fs s) v) VFS_ATTR_DIR)) then None
    else parent (fs s) (root s) v (components rest)) by by rewrite Hc.
  assert (Ep' : passed (fs s) (root s) d (name :: components rest) =
    d :: passed (fs s) (root s) (snd (step (fs s) (root s) d name)) (components rest)) by by rewrite Hc.
  rewrite Er', Ep'. clear Er' Ep'. destruct (step (fs s) (root s) d name) as [err v'] eqn:Est. cbn [fst snd] in *.
  assert (Sm : same s s1) by by apply same_trans with (ref_get d s).
  destruct (c_true err) eqn:Ce; cbn [orb]; [by exists 0, None, s1|]. apply c_true_false in Ce.
  destruct (R1 Ce) as (-> & Nv & R). unfold is_dir. rewrite F1.
  destruct (c_true (Z.land (n_mode (fs s) v') VFS_ATTR_DIR)); cbn [negb]; [|by exists 0, None, s1].
  rewrite <- F1 in T. destruct (IH rest (Some (skip_slashes path)) v' s1 T Nv Er) as (dir & nm & s2 & E2 & S2 & Q); [lia|].
  rewrite F1, Rt in Q. exists dir, nm, s2. split; [done|]. split; [by apply same_trans with s1|].
  destruct (dir =? 0); [done|]. destruct Q as (x & -> & Ex & Q). exists x. split; [done|]. split; [done|].
  intros Nl p. rewrite (Q Nl), (R Nl). cbn [count]. change (<[d := refs s d + 1]> (refs s)) with (refs (ref_get d s)).
  rewrite refs_get. lia.
Qed.


Definition start (path : list Z) (dirAt : Z) s : Z :=
  match path with
  | c :: _ => if c =? SLASH then root s else if c_true dirAt then dirAt else cwd s
  | [] => 0
  end.

Lemma split_slash_snoc path : split_slash (path ++ [SLASH]) =
  (fst (split_slash path), snd (split_slash path) ++ [[]]).
Proof.
  induction path as [|c path IH]; [done|]. cbn. rewrite IH. destruct (split_slash path) as [n ns]. cbn.
  by destruct (c =? SLASH).
Qed.

Lemma components_strip path : components (strip_slash path) = components path.
Proof.
  unfold strip_slash. destruct path as [|c path _] using rev_ind; [done|]. rewrite last_snoc.
  destruct ((c =? SLASH) && _) eqn:E; [|done]. apply andb_true_iff in E as [->%Z.eqb_eq _].
  rewrite removelast_last. unfold components. rewrite split_slash_snoc. destruct (split_slash path) as [n ns]. cbn [fst snd].
  rewrite app_comm_cons, List.filter_app. cbn. by rewrite app_nil_r.
Qed.

Lemma start_strip path dirAt s : ends_well (strip_slash path) -> start (strip_slash path) dirAt s = start path dirAt s.
Proof.
  unfold strip_slash. destruct path as [|c path _] using rev_ind; [done|]. rewrite last_snoc.
  destruct ((c =? SLASH) && _); [|done]. rewrite removelast_last. destruct path; [|done]. by intros (x & Hx & _).
Qed.

Lemma DirNameVNode_spec path dirAt s : tree_ok (fs s) -> start path dirAt s <> 0 -> ends_well path ->
  exists dir name s', DirNameVNode path dirAt s = Ret (dir, name, s') /\ same s s'
  /\ let d := start path dirAt s in let ns := components path in
     if dir =? 0 then parent (fs s) (root s) d ns = None
     else exists nm, name = Some nm /\ parent (fs s) (root s) d ns = Some (dir, nm)
       /\ (no_links (fs s) -> forall p, refs s' p = refs s p + count (passed (fs s) (root s) d ns) p + one dir p).
Proof.
  intros T Ns Ew. destruct path as [|c path]; [done|]. cbn [DirNameVNode start] in *.
  assert (Wk : forall l fuel d, d <> 0 -> ends_well l -> components l = components (c :: path) -> (length l < fuel)%nat ->
    exists dir name s', walk fuel l None d (ref_get d s) = Ret (dir, name, s') /\ same s s'
    /\ if dir =? 0 then parent (fs s) (root s) d (components (c :: path)) = None
       else exists nm, name = Some nm /\ parent (fs s) (root s) d (components (c :: path)) = Some (dir, nm)
         /\ (no_links (fs s) -> forall p,
             refs s' p = refs s p + count (passed (fs s) (root s) d (components (c :: path))) p + one dir p)).
  { intros l fuel d Nd El Ec Hf. destruct (walk_spec fuel l None d (ref_get d s) T Nd El Hf) as (dir & name & s' & E & S & Q).
    rewrite Ec in Q. exists dir, name, s'. split; [done|]. split; [by apply same_trans with (ref_get d s)|].
    cbn [fs root ref_get with_refs] in Q. destruct (dir =? 0); [done|]. destruct Q as (nm & En & Er & Q).
    exists nm. split; [done|]. split; [done|]. intros Nl p. rewrite (Q Nl).
    change (<[d := refs s d + 1]> (refs s)) with (refs (ref_get d s)). rewrite refs_get. lia. }
  destruct (Z.eqb_spec c SLASH) as [->|Nc].
  - destruct path as [|c' path].
    { destruct Ew as (x & Hx & Nx). cbn in Hx. congruence. }
    apply Wk; [done| |by rewrite <- components_skip, <- (components_skip (SLASH :: c' :: path))|cbn; lia].
    change (SLASH :: c' :: path) with ([SLASH] ++ c' :: path) in Ew. by apply ends_well_app in Ew.
  - apply Wk; [done|done|done|]. cbn. lia.
Qed.

Lemma resolve_parent w rt ns : forall d, ns <> [] -> resolve w rt d ns =
  match parent w rt d ns with Some (dir, nm) => step w rt dir nm | None => (- ENOENT, 0) end.
Proof.
  induction ns as [|n ns IH]; intros d N; [done|]. destruct ns as [|n' ns]; [done|].
  cbn [resolve parent]. destruct (step w rt d n) as [err v]. destruct (_ || _); [done|]. by apply IH.
Qed.

Lemma components_nonempty path : ends_well path -> components path <> [].
Proof.
  intros Ew. destruct (ends_well_skip _ Ew) as [N _]. destruct (scan_name (skip_slashes path)) as [nm [r|]] eqn:E.
  - by rewrite (components_scan _ _ _ E).
  - by destruct (components_end _ _ E N) as [-> _].
Qed.

Lemma NameToVNode_spec path flags ret dirAt s : tree_ok (fs s) -> start path dirAt s <> 0 -> ends_well (strip_slash path) ->
  Z.land flags FILE_FORCE_CREATE = 0 -> Z.land flags FILE_CREATE_OPEN = 0 -> Z.land flags FILE_DIRECTORY = 0 ->
  let d := start path dirAt s in let ns := components path in let r := resolve (fs s) (root s) d ns in
  exists v s', NameToVNode path flags ret dirAt s = Ret (fst r, v, s') /\ same s s'
  /\ (fst r = 0 -> v = snd r /\ v <> 0
      /\ (no_links (fs s) -> forall p, refs s' p = refs s p + count (passed (fs s) (root s) d ns) p + one v p)).
Proof.
  intros T Ns Ew F1 F2 F3 d ns r. unfold NameToVNode.
  destruct (DirNameVNode_spec (strip_slash path) dirAt s T) as (dir & name & s1 & E1 & S1 & Q); [by rewrite start_strip|done|].
  cbv zeta in Q. rewrite start_strip, components_strip in Q by done. fold d ns in Q. pose proof S1 as (Rt & _ & Fs).
  assert (Hl : exists c, last path = Some c /\ (c =? SLASH) && (length path =? 1)%nat = false).
  { unfold strip_slash in Ew. destruct (last path) as [c|] eqn:El.
    - exists c. split; [done|]. destruct (Z.eqb_spec c SLASH) as [->|]; [|done]. cbn in *.
      destruct (length path =? 1)%nat; [|done]. cbn in Ew. destruct Ew as (x & Hx & Nx). congruence.
    - destruct Ew as (x & Hx & _). congruence. }
  assert (Nn : ns <> []) by (unfold ns; rewrite <- components_strip; by apply components_nonempty).
  destruct Hl as (c & -> & ->). rewrite E1. cbn [bindO]. subst r. rewrite (resolve_parent _ _ _ _ Nn).
  destruct (Z.eqb_spec dir 0) as [->|Nd].
  - rewrite Q. by exists ret, s1.
  - destruct Q as (nm & -> & Er & Q). rewrite Er, F1, F2. change (c_true 0) with false. cbn iota. cbn [name_of default from_option].
    rewrite <- Fs in T. destruct (VfsDoLookup_step (Datatypes.id nm) ret dir s1 T Nd) as (v & s2 & E2 & S2 & R2).
    change (Datatypes.id nm) with nm in *. rewrite E2. cbn [bindO]. rewrite F3. change (c_true 0) with false.
    rewrite andb_false_r. cbn [andb]. rewrite Fs, Rt in *. exists v, s2. split; [done|]. split; [by apply same_trans with s1|].
    intros E0. destruct (R2 E0) as (Ev & Nv & R). split; [done|]. split; [done|]. intros Nl p.
    rewrite (R Nl), (Q Nl). lia.
Qed.

(** C15: A path that is neither empty nor just "/" and does not end in two slashes, looked up without the flags that
    force creation, create a file that is opened or ask for a directory, is resolved as the
    sequence of its components, from the root when it starts with a slash and from the given
    or the current directory otherwise; a missing or non-directory component on the way gives
    -ENOENT, and the error of the last step is returned otherwise. *)
Theorem NameToVNode_resolves path flags ret dirAt s : tree_ok (fs s) -> start path dirAt s <> 0 ->
  ends_well (strip_slash path) ->
  Z.land flags FILE_FORCE_CREATE = 0 -> Z.land flags FILE_CREATE_OPEN = 0 -> Z.land flags FILE_DIRECTORY = 0 ->
  let r := resolve (fs s) (root s) (start path dirAt s) (components path) in
  exists v s', NameToVNode path flags ret dirAt s = Ret (fst r, v, s') /\ (fst r = 0 -> v = snd r /\ v <> 0) /\ same s s'.
Proof.
  intros T Ns Ew F1 F2 F3. destruct (NameToVNode_spec path flags ret dirAt s T Ns Ew F1 F2 F3) as (v & s' & E & S & Q).
  exists v, s'. split; [done|]. split; [|done]. intros E0. destruct (Q E0) as (? & ? & _). done.
Qed.

(** A successful lookup takes the reference on the vNode it returns, and one more on
    every directory it passed through, which nobody gives back. *)
Theorem NameToVNode_leaks path flags ret dirAt s : tree_ok (fs s) -> no_links (fs s) -> start path dirAt s <> 0 ->
  ends_well (strip_slash path) ->
  Z.land flags FILE_FORCE_CREATE = 0 -> Z.land flags FILE_CREATE_OPEN = 0 -> Z.land flags FILE_DIRECTORY = 0 ->
  fst (resolve (fs s) (root s) (start path dirAt s) (components path)) = 0 ->
  exists v s', NameToVNode path flags ret dirAt s = Ret (0, v, s')
  /\ forall p, refs s' p = refs s p + count (passed (fs s) (root s) (start path dirAt s) (components path)) p + one v p.
Proof.
  intros T Nl Ns Ew F1 F2 F3 E0. destruct (NameToVNode_spec path flags ret dirAt s T Ns Ew F1 F2 F3) as (v & s' & E & S & Q).
  rewrite E0 in E, Q. destruct (Q eq_refl) as (_ & _ & R). exists v, s'. split; [done|]. by apply R.
Qed.


(** *** Creating and removing *)

Lemma parent_name w rt ns : forall d dir nm, parent w rt d ns = Some (dir, nm) -> nm ∈ ns.
Proof.
  induction ns as [|n ns IH]; intros d dir nm; [done|]. destruct ns as [|n' ns].
  - intros [= <- <-]. constructor.
  - cbn [parent]. destruct (step w rt d n) as [err v]. destruct (_ || _); [done|]. intros E%IH. by constructor.
Qed.

Lemma component_nonempty path nm : nm ∈ components path -> (length nm =? 0)%nat = false.
Proof.
  unfold components. destruct (split_slash path) as [n ns]. rewrite list_elem_of_In, filter_In. intros [_ N].
  by apply negb_true_iff in N.
Qed.

(** The second walk of DoCreateDir, DoRemoveDir and DoRemove. *)
Lemma parent_walk path s : tree_ok (fs s) -> start path 0 s <> 0 -> ends_well (strip_slash path) ->
  exists dir name s', DirNameVNode (strip_slash path) 0 s = Ret (dir, name, s') /\ same s s'
  /\ match parent (fs s) (root s) (start path 0 s) (components path) with
     | None => dir = 0
     | Some (d, nm) => dir = d /\ dir <> 0 /\ name = Some nm /\ (length nm =? 0)%nat = false
     end.
Proof.
  intros T Ns Ew. destruct (DirNameVNode_spec (strip_slash path) 0 s T) as (dir & name & s1 & E & S & Q); [by rewrite start_strip|done|].
  cbv zeta in Q. rewrite start_strip, components_strip in Q by done. exists dir, name, s1. split; [done|]. split; [done|].
  destruct (Z.eqb_spec dir 0) as [->|Nd]; [by rewrite Q|]. destruct Q as (nm & -> & Ep & _). rewrite Ep. split_and!; try done.
  apply parent_name, component_nonempty in Ep. done.
Qed.

Definition mkdir_spec w (rt d : Z) (ns : list (list Z)) : Z * W :=
  if fst (resolve w rt d ns) =? 0 then (- EEXIST, w)
  else match parent w rt d ns with
  | None => (- ENOENT, w)
  | Some (dir, nm) =>
      if c_true (Z.land (n_sbflags w dir) SB_RDONLY) then (- EROFS, w)
      else match n_mkDir w dir with
      | None => (- ENOTIMPL, w)
      | Some mkDir => let '(err, v, w) := mkDir nm in
          (err, if negb (c_true err) && c_true v then n_touch w v else w)
      end
  end.

(** DoCreateDir refuses a path that exists, and otherwise has the directory of the last
    component create that name, with its error codes on every path. *)
Theorem DoCreateDir_creates path s : tree_ok (fs s) -> start path 0 s <> 0 -> ends_well (strip_slash path) ->
  let r := mkdir_spec (fs s) (root s) (start path 0 s) (components path) in
  exists s', DoCreateDir path s = Ret (fst r, s') /\ fs s' = snd r /\ root s' = root s /\ cwd s' = cwd s.
Proof.
  intros T Ns Ew. unfold DoCreateDir, mkdir_spec.
  destruct (NameToVNode_spec path 0 0 0 s T Ns Ew) as (v & s1 & -> & (R1 & C1 & F1) & Q); [done..|]. cbn [bindO].
  set (r := resolve _ _ _ _) in *. assert (Est : start path 0 s1 = start path 0 s) by (unfold start; by rewrite R1, C1).
  destruct (Z.eqb_spec (fst r) 0) as [E0|N0].
  { destruct (Q E0) as (_ & Nv & _). rewrite E0. apply c_true_spec in Nv. rewrite Nv. cbn [c_true Z.eqb negb andb].
    change (c_true 0) with false. cbn [negb andb]. destruct (same_release v s1) as (R2 & C2 & F2).
    exists (ref_put v s1). cbn. by rewrite F2, R2, C2. }
  apply c_true_spec in N0. rewrite N0. cbn [negb andb].
  destruct (parent_walk path s1) as (dir & name & s2 & E2 & (R2 & C2 & F2) & P); [by rewrite F1|by rewrite Est|done|].
  rewrite E2. cbn [bindO]. rewrite F1, R1, Est in P. destruct (parent _ _ _ _) as [[d nm]|].
  2: { subst dir. exists s2. cbn. by rewrite F2, F1, R2, C2. }
  destruct P as (-> & Nd & -> & Ln). destruct (Z.eqb_spec d 0); [done|]. cbn [name_of default from_option].
  change (Datatypes.id nm) with nm. rewrite Ln, F2, F1.
  destruct (same_release d s2) as (R3 & C3 & F3).
  destruct (c_true (Z.land (n_sbflags (fs s) d) SB_RDONLY)); [|destruct (n_mkDir (fs s) d) as [mk|]].
  1, 3: cbn [bindO]; exists (ref_put d s2); cbn; rewrite R3, C3, F3, F2, F1, R2, C2; done.
  destruct (mk nm) as [[err u] w]. destruct (negb (c_true err) && c_true u); cbn [bindO].
  - eexists. split; [done|]. cbn.
    match goal with |- context [ref_put d ?x] => destruct (same_release d x) as (R4 & C4 & F4) end. rewrite R4, C4, F4.
    match goal with |- context [ref_put u ?x] => destruct (same_release u x) as (R5 & C5 & F5) end. rewrite R5, C5, F5.
    cbn. by rewrite R2, C2.
  - eexists. split; [done|]. cbn.
    match goal with |- context [ref_put d ?x] => destruct (same_release d x) as (R4 & C4 & F4) end. rewrite R4, C4, F4.
    cbn. by rewrite R2, C2.
Qed.

Definition remove_spec w (rt d : Z) (ns : list (list Z)) : Z * W :=
  let (err, v) := resolve w rt d ns in
  if c_true err then (err, w)
  else if c_true (Z.land (n_mode w v) VFS_ATTR_DIR) then (- EISDIR, w)
  else if c_true (Z.land (n_sbflags w v) SB_RDONLY) then (- EROFS, w)
  else match parent w rt d ns with
  | None => (- ENOENT, w)
  | Some (dir, nm) =>
      match n_remove w dir with None => (- ENOTIMPL, w) | Some remove => remove nm end
  end.

(** DoRemove removes the name in its directory when the path leads to a file on a
    writable file system, and changes nothing otherwise. *)
Theorem DoRemove_removes path s : tree_ok (fs s) -> start path 0 s <> 0 -> ends_well (strip_slash path) ->
  let r := remove_spec (fs s) (root s) (start path 0 s) (components path) in
  exists s', DoRemove path s = Ret (fst r, s') /\ fs s' = snd r /\ root s' = root s /\ cwd s' = cwd s.
Proof.
  intros T Ns Ew. unfold DoRemove, remove_spec.
  destruct (NameToVNode_spec path FILE_FORCE_OPEN 0 0 s T Ns Ew) as (v & s1 & -> & (R1 & C1 & F1) & Q); [done..|]. cbn [bindO].
  destruct (resolve _ _ _ _) as [err v'] eqn:Er. cbn [fst snd] in *. destruct (c_true err) eqn:Ce.
  { exists s1. cbn. by rewrite F1, R1, C1. }
  apply c_true_false in Ce. destruct (Q Ce) as (-> & Nv & _). unfold is_dir. rewrite F1. destruct (same_release v' s1) as (R2 & C2 & F2).
  destruct (c_true (Z.land (n_mode (fs s) v') VFS_ATTR_DIR)); [exists (ref_put v' s1); cbn; by rewrite F2, R2, C2, F1|].
  destruct (c_true (Z.land (n_sbflags (fs s) v') SB_RDONLY)); [exists (ref_put v' s1); cbn; by rewrite F2, R2, C2, F1|].
  assert (Est : start path 0 (ref_put v' s1) = start path 0 s) by (unfold start; by rewrite R2, C2, R1, C1).
  destruct (parent_walk path (ref_put v' s1)) as (dir & name & s2 & E3 & (R3 & C3 & F3) & P); [by rewrite F2, F1|by rewrite Est|done|].
  rewrite E3. cbn [bindO]. rewrite F2, F1, R2, R1, Est in P. destruct (parent _ _ _ _) as [[d nm]|].
  2: { subst dir. exists s2. cbn. by rewrite F3, F2, F1, R3, C3, R2, C2, R1, C1. }
  destruct P as (-> & Nd & -> & Ln). destruct (Z.eqb_spec d 0); [done|]. cbn [name_of default from_option].
  change (Datatypes.id nm) with nm. rewrite Ln, F3, F2, F1.
  destruct (n_remove (fs s) d) as [rm|]; [destruct (rm nm) as [e w]|]; (eexists; split; [done|]); cbn;
    match goal with |- context [ref_put d ?x] => destruct (same_release d x) as (R4 & C4 & F4) end; rewrite R4, C4, F4; cbn;
    by rewrite ?F3, ?F2, ?F1, R3, C3, R2, C2.
Qed.

End Facts.

(** ** A tree with a directory and a file *)

Module Demo.
(** "/a" is directory 2 and "/a/b", which may be removed, file 3; the state
    says whether the file exists and which names were created. *)
Definition tree : Type := bool * list (list Z).
Definition demo_lookup (w : tree) (d : Z) (n : list Z) : Z * Z :=
  if (d =? 1) && bool_decide (n = [97]) then (0, 2)
  else if (d =? 2) && bool_decide (n = [98]) && fst w then (0, 3)
  else (- ENOENT, 0).
#[global] Instance demo_tree : NodeTree tree := {
  n_mode w v := if v =? 3 then VFS_ATTR_FILE else VFS_ATTR_DIR;
  n_flags w v := 0;
  n_sbflags w v := 0;
  n_mountNode w v := 0;
  n_isMount w v := false;
  n_parent w v := 0;
  n_lookup w d := Some (demo_lookup w d);
  n_followLink w v := (- ENOENT, 0);
  n_create w d := None;
  n_mkDir w d := Some (fun n => (0, 4, (fst w, n :: snd w)));
  n_rmDir w d := None;
  n_remove w d := Some (fun n => (0, (false, snd w)));
  n_touch w v := w;
}.
Lemma demo_tree_ok w : tree_ok w.
Proof.
  split; cbn.
  - intros d lookup n err v [= <-]. unfold demo_lookup. repeat case_match; intros [= <- <-]; done.
  - by intros v err d [= <- <-].
  - done.
Qed.
Definition state : nstate tree := {| refs := fun _ => 1; root := 1; cwd := 1; fs := (true, []) |}.

(** "/a//b/" *)
Definition file_path : list Z := [47; 97; 47; 47; 98; 47].
Lemma file_path_ends : ends_well (strip_slash file_path).
Proof. by exists 98. Qed.

Lemma file_resolved : resolve (fs state) (root state) (start file_path 0 state) (components file_path) = (0, 3).
Proof. vm_compute. reflexivity. Qed.

Lemma NameToVNode_resolves_witness : exists v s',
  NameToVNode file_path FILE_READ 0 0 state = Ret (0, v, s') /\ (0 = 0 -> v = 3 /\ v <> 0) /\ same state s'.
Proof.
  destruct (NameToVNode_resolves file_path FILE_READ 0 0 state) as (v & s' & E);
    [apply demo_tree_ok|done|apply file_path_ends|done..|].
  rewrite file_resolved in E. by exists v, s'.
Defined.

Lemma NameToVNode_leaks_witness : exists v s', NameToVNode file_path FILE_READ 0 0 state = Ret (0, v, s')
  /\ forall p, refs s' p = 1 + count [1] p + one v p.
Proof.
  assert (E : passed (fs state) (root state) (start file_path 0 state) (components file_path) = [1])
    by (vm_compute; reflexivity).
  rewrite <- E. apply (NameToVNode_leaks file_path FILE_READ 0 0 state);
    [apply demo_tree_ok| |done|apply file_path_ends|done..|by rewrite file_resolved].
  intros v. cbn. by destruct (v =? 3).
Defined.

Lemma DoCreateDir_creates_witness : exists s', DoCreateDir [97; 47; 99] state = Ret (0, s')
  /\ fs s' = (true, [[99]]) /\ root s' = 1 /\ cwd s' = 1.
Proof.
  destruct (DoCreateDir_creates [97; 47; 99] state) as (s' & E); [apply demo_tree_ok|done|by exists 99|].
  replace (mkdir_spec _ _ _ _) with (0, ((true, [[99]]) : tree)) in E by (vm_compute; reflexivity). by exists s'.
Defined.

Lemma DoRemove_removes_witness : exists s', DoRemove file_path state = Ret (0, s')
  /\ fs s' = (false, []) /\ root s' = 1 /\ cwd s' = 1.
Proof.
  destruct (DoRemove_removes file_path state) as (s' & E); [apply demo_tree_ok|done|apply file_path_ends|].
  replace (remove_spec _ _ _ _) with (0, ((false, []) : tree)) in E by (vm_compute; reflexivity). by exists s'.
Defined.

(** "/a//": after the second trailing slash the name looked up in "/a" is "a/". *)
Example trailing_slashes : exists s, NameToVNode [47; 97; 47; 47] FILE_READ 0 0 state = Ret (- ENOENT, 0, s).
Proof. eexists. vm_compute. reflexivity. Qed.

(** DoChangeRoot keeps two references to the new root but takes three. *)
Example chroot_leaks : exists s, DoChangeRoot [97] state = Ret (0, s) /\ refs s 2 = refs state 2 + 3.
Proof. eexists. split; vm_compute; reflexivity. Qed.
End Demo.
