(* ===== verification/Ext3.v ===== *)
(** * The ext3 file system: allocation and block map
      (fs/ext3/balloc.c, fs/ext3/ialloc.c, fs/ext3/inode.c)

    Blocks and inodes are allocated from bitmaps, one of each per group,
    with free counts in the group descriptors and the superblock.  A file
    has twelve direct blocks, a table of blocks and a table of tables.

    [blk] gives the contents of the blocks, as 32-bit words, the way the
    block cache shows them (BCache): a change to the data of a buffer is
    seen by the next BlockRead.  [marked] lists the buffers that were given
    to BlockWrite or JournalDirtyMetadata, in order: those reach the disk,
    and a change to a buffer that is not among them is lost when the cache
    is.  JournalGetWriteAccess, which comes before a change, is left out,
    and BlockRead of a block succeeds.

    Ext3BlockNew takes the lowest free block and keeps bitmaps, counts and
    the rest of the file system consistent; Ext3BlockMapHandle extends the
    mapping of a file at one block. *)

From stdpp Require Import functions.
From S2P Require Import Prelude Bitmap.

(** ** Model *)

Definition VFS_MAP_CREATE : Z := 1.

Record Ext3GroupDesc := {
  blockBitmap : Z;
  iNodeBitmap : Z;
  iNodeTable : Z;
  freeBlocks : Z;
  freeINodes : Z;
  usedDirs : Z;
}.
#[export] Instance Ext3GroupDesc_eq_dec : EqDecision Ext3GroupDesc.
Proof. solve_decision. Defined.

(** The buffers: of a block, of the descriptor of a group, and of the
    superblock. *)
Inductive buf :=
| Block (b : Z)
| GroupBuffer (g : Z)
| SuperBuffer.
#[export] Instance buf_eq_dec : EqDecision buf.
Proof. solve_decision. Defined.

(** struct Ext3SbInfo with what its pointers reach: [descs] are the
    descriptors of all the descriptor blocks, in order, [sb_freeBlocks] and
    [sb_freeInodes] counts of the superblock. *)
Record ext3 := {
  iNodesCount : Z;
  groupCount : Z;
  iNodesPerGrp : Z;
  firstDataBlock : Z;
  blocksPerGrp : Z;
  blockSize : Z;
  descs : list Ext3GroupDesc;
  sb_freeBlocks : Z;
  sb_freeInodes : Z;
  blk : Z -> list Z;
  marked : list buf;
}.

Definition with_blk f (s : ext3) : ext3 :=
  {| iNodesCount := iNodesCount s; groupCount := groupCount s; iNodesPerGrp := iNodesPerGrp s; firstDataBlock := firstDataBlock s;
     blocksPerGrp := blocksPerGrp s; blockSize := blockSize s; descs := descs s;
     sb_freeBlocks := sb_freeBlocks s; sb_freeInodes := sb_freeInodes s; blk := f; marked := marked s |}.
Definition with_descs l (s : ext3) : ext3 :=
  {| iNodesCount := iNodesCount s; groupCount := groupCount s; iNodesPerGrp := iNodesPerGrp s; firstDataBlock := firstDataBlock s;
     blocksPerGrp := blocksPerGrp s; blockSize := blockSize s; descs := l;
     sb_freeBlocks := sb_freeBlocks s; sb_freeInodes := sb_freeInodes s; blk := blk s; marked := marked s |}.
Definition with_counts b i (s : ext3) : ext3 :=
  {| iNodesCount := iNodesCount s; groupCount := groupCount s; iNodesPerGrp := iNodesPerGrp s; firstDataBlock := firstDataBlock s;
     blocksPerGrp := blocksPerGrp s; blockSize := blockSize s; descs := descs s;
     sb_freeBlocks := b; sb_freeInodes := i; blk := blk s; marked := marked s |}.
Definition with_marked l (s : ext3) : ext3 :=
  {| iNodesCount := iNodesCount s; groupCount := groupCount s; iNodesPerGrp := iNodesPerGrp s; firstDataBlock := firstDataBlock s;
     blocksPerGrp := blocksPerGrp s; blockSize := blockSize s; descs := descs s;
     sb_freeBlocks := sb_freeBlocks s; sb_freeInodes := sb_freeInodes s; blk := blk s; marked := l |}.
(** BlockWrite or JournalDirtyMetadata of a buffer. *)
Definition mark (b : buf) (s : ext3) : ext3 := with_marked (marked s ++ [b]) s.
Definition set_freeBlocks n (d : Ext3GroupDesc) : Ext3GroupDesc :=
  {| blockBitmap := blockBitmap d; iNodeBitmap := iNodeBitmap d; iNodeTable := iNodeTable d; freeBlocks := n; freeINodes := freeINodes d;
     usedDirs := usedDirs d |}.
Definition set_inodes n u (d : Ext3GroupDesc) : Ext3GroupDesc :=
  {| blockBitmap := blockBitmap d; iNodeBitmap := iNodeBitmap d; iNodeTable := iNodeTable d; freeBlocks := freeBlocks d; freeINodes := n;
     usedDirs := u |}.

(** The bytes of words, for BmapSetBit. *)
Definition word_bytes (w : Z) : list Z := [u8 w; u8 (w / 2 ^ 8); u8 (w / 2 ^ 16); u8 (w / 2 ^ 24)].
Fixpoint to_bytes (ws : list Z) : list Z :=
  match ws with [] => [] | w :: ws => word_bytes w ++ to_bytes ws end.
Fixpoint of_bytes (bs : list Z) : list Z :=
  match bs with
  | a :: b :: c :: d :: bs => (a + b * 2 ^ 8 + c * 2 ^ 16 + d * 2 ^ 24) :: of_bytes bs
  | _ => []
  end.
Definition set_bit (ws : list Z) (i v : Z) : outcome (list Z) :=
  let* bs := BmapSetBit (to_bytes ws) i v in Ret (of_bytes bs).

(** [None] is NULL. *)
Definition Ext3GetGroupDesc (groupNo : Z) (s : ext3) : outcome (option Ext3GroupDesc) :=
  if groupCount s <=? groupNo then Ret None
  else let* d := of_option (zlookup (descs s) groupNo) in Ret (Some d).

Definition update_desc (g : Z) (d : Ext3GroupDesc) (s : ext3) : outcome ext3 :=
  let* l := of_option (zupdate (descs s) g d) in Ret (with_descs l s).

(** The number of the bitmap block of the group. *)
Definition Ext3BlockLoadBitmap (g : Z) (s : ext3) : outcome Z :=
  let* d := Ext3GetGroupDesc g s in
  match d with Some d => Ret (blockBitmap d) | None => Fault end.

(** The search of Ext3BlockNew over the groups from [i] on: the group and
    the index in it of the block taken. *)
Fixpoint find_group (n : nat) (i : Z) (s : ext3) : outcome (option (Z * Z) * ext3) :=
  match n with
  | O => Ret (None, s)
  | S n =>
      let* d := Ext3GetGroupDesc i s in
      match d with
      | None => Fault
      | Some d =>
          if c_true (freeBlocks d) then
            let* bb := Ext3BlockLoadBitmap i s in
            let* j := BitFindFirstZero (blk s bb) (blocksPerGrp s) in
            if j <? blocksPerGrp s then
              let* ws := set_bit (blk s bb) j 1 in
              Ret (Some (i, j), mark (Block bb) (with_blk (<[bb := ws]> (blk s)) s))
            else find_group n (i + 1) s
          else find_group n (i + 1) s
      end
  end.

Definition zero_block (s : ext3) : list Z := replicate (Z.to_nat (blockSize s / 4)) 0.

Definition Ext3BlockNew (s : ext3) : outcome (Z * ext3) :=
  let* (r, s) := find_group (Z.to_nat (groupCount s)) 0 s in
  match r with
  | None => Ret (0, s)
  | Some (i, j) =>
      let j := u32 (j + i * blocksPerGrp s + firstDataBlock s) in
      let* d := Ext3GetGroupDesc i s in
      match d with
      | None => Fault
      | Some d =>
          let* s := update_desc i (set_freeBlocks (u16 (freeBlocks d - 1)) d) s in
          let s := mark (GroupBuffer i) s in
          let s := mark SuperBuffer (with_counts (u32 (sb_freeBlocks s - 1)) (sb_freeInodes s) s) in
          Ret (j, with_blk (<[j := zero_block s]> (blk s)) s)
      end
  end.

Definition Ext3BlockCreateTable (s : ext3) : outcome (Z * ext3) :=
  let* (b, s) := Ext3BlockNew s in
  Ret (b, with_blk (<[b := zero_block s]> (blk s)) s).

(** [data[i]] in the buffer of block [b], read and written. *)
Definition table_get (b i : Z) (s : ext3) : outcome Z := of_option (zlookup (blk s b) i).
Definition table_set (b i v : Z) (s : ext3) : outcome ext3 :=
  let* ws := of_option (zupdate (blk s b) i v) in Ret (with_blk (<[b := ws]> (blk s)) s).

(** The table at entry [k] of the inode, which is made when it is missing
    and [create] is set; [None] is the return of -1. *)
Definition inode_table (create : bool) (k : Z) (blocks : list Z) (s : ext3)
  : outcome (option Z * list Z * ext3) :=
  let* sector := of_option (zlookup blocks k) in
  if c_true sector then Ret (Some sector, blocks, s)
  else if create then
    let* (sector, s) := Ext3BlockCreateTable s in
    let* blocks := of_option (zupdate blocks k sector) in
    Ret (Some sector, blocks, s)
  else Ret (None, blocks, s).

(** Entry [i] of the table in block [b], filled with a new block when it is
    zero and [create] is set. *)
Definition table_entry (create : bool) (b i : Z) (s : ext3) : outcome (Z * ext3) :=
  let* e := table_get b i s in
  if c_true e then Ret (s32 e, s)
  else if create then
    let* (nb, s) := Ext3BlockNew s in
    let* s := table_set b i nb s in
    Ret (s32 nb, mark (Block b) s)
  else Ret (-1, s).

Definition sub_table (create : bool) (b i : Z) (s : ext3) : outcome (option Z * ext3) :=
  let* e := table_get b i s in
  if c_true e then Ret (Some e, s)
  else if create then
    let* (nb, s) := Ext3BlockCreateTable s in
    let* s := table_set b i nb s in
    Ret (Some nb, s)
  else Ret (None, s).

(** [blocks] are the fifteen entries of the inode. *)
Definition Ext3BlockMapHandle (blocks : list Z) (block flags : Z) (s : ext3) : outcome (Z * list Z * ext3) :=
  let create := c_true (Z.land flags VFS_MAP_CREATE) in
  let entriesPerBlock := blockSize s / 4 in
  if block <? 12 then
    let* e := of_option (zlookup blocks block) in
    if c_true e then Ret (s32 e, blocks, s)
    else if create then
      let* (nb, s) := Ext3BlockNew s in
      let* blocks := of_option (zupdate blocks block nb) in
      Ret (s32 nb, blocks, s)
    else Ret (-1, blocks, s)
  else
    let block := block - 12 in
    if block <? entriesPerBlock then
      let* (sector, blocks, s) := inode_table create 12 blocks s in
      match sector with
      | None => Ret (-1, blocks, s)
      | Some sector => let* (r, s) := table_entry create sector block s in Ret (r, blocks, s)
      end
    else
      let block := block - entriesPerBlock in
      if block <? u32 (entriesPerBlock * entriesPerBlock) then
        let second := block / entriesPerBlock in
        let offset := block mod entriesPerBlock in
        let* (sector, blocks, s) := inode_table create 13 blocks s in
        match sector with
        | None => Ret (-1, blocks, s)
        | Some sector =>
            let* (table, s) := sub_table create sector second s in
            match table with
            | None => Ret (-1, blocks, s)
            | Some table => let* (r, s) := table_entry create table offset s in Ret (r, blocks, s)
            end
        end
      else Panic.

(** [blockNo] is an int, the subtraction and the divisions are unsigned. *)
Definition Ext3BlockFree (blockNo : Z) (s : ext3) : outcome (Z * ext3) :=
  let blockNo := u32 (blockNo - firstDataBlock s) in
  if blocksPerGrp s =? 0 then Fault
  else
    let group := blockNo / blocksPerGrp s in
    let offset := blockNo mod blocksPerGrp s in
    if groupCount s <=? group then Ret (- EIO, s)
    else
      let* d := Ext3GetGroupDesc group s in
      match d with
      | None => Fault
      | Some d =>
          let* bb := Ext3BlockLoadBitmap group s in
          let* ws := set_bit (blk s bb) offset 0 in
          let s := mark (Block bb) (with_blk (<[bb := ws]> (blk s)) s) in
          let* s := update_desc group (set_freeBlocks (u16 (freeBlocks d + 1)) d) s in
          let s := mark (GroupBuffer group) s in
          Ret (0, mark SuperBuffer (with_counts (u32 (sb_freeBlocks s + 1)) (sb_freeInodes s) s))
      end.

(** The loop of Ext3BlockTruncate, downwards from block [i]. *)
Fixpoint truncate_loop (n : nat) (i : Z) (s : ext3) : outcome ext3 :=
  match n with
  | O => Ret s
  | S n =>
      if i <? 12 then let* (_, s) := Ext3BlockFree i s in truncate_loop n (i - 1) s
      else Panic
  end.

Definition Ext3BlockTruncate (size : Z) (s : ext3) : outcome (Z * ext3) :=
  let startBlock := Z.quot size (blockSize s) in
  let endBlock := Z.quot (size + blockSize s + 1) (blockSize s) in
  let* s := truncate_loop (Z.to_nat (endBlock - startBlock)) (endBlock - 1) s in
  Ret (0, s).

(** *** Inodes *)

Definition Ext3INodeLoadBitmap (g : Z) (s : ext3) : outcome Z :=
  let* d := Ext3GetGroupDesc g s in
  match d with Some d => Ret (iNodeBitmap d) | None => Fault end.

(** The search for a directory: the group, 0 when there is none, and the
    descriptor looked at last with its index. *)
Fixpoint find_dir_group (n : nat) (i avgFree : Z) (last : option (Z * Ext3GroupDesc)) (s : ext3)
  : outcome (Z * option (Z * Ext3GroupDesc)) :=
  match n with
  | O => Ret (0, last)
  | S n =>
      let* d := Ext3GetGroupDesc i s in
      match d with
      | None => find_dir_group n (i + 1) avgFree None s
      | Some d =>
          if c_true (freeINodes d) && (avgFree <=? freeINodes d) then Ret (i, Some (i, d))
          else find_dir_group n (i + 1) avgFree (Some (i, d)) s
      end
  end.

(** The part of Ext3CreateINode that takes an inode: its number and group, or
    [None] when there is no descriptor; [dirGroup] is the group of the parent. *)
Definition Ext3CreateINode (dirGroup : Z) (isDir : bool) (s : ext3) : outcome (option (Z * Z) * ext3) :=
  let* (groupNo, found) :=
    if isDir then
      if groupCount s =? 0 then Fault
      else find_dir_group (Z.to_nat (groupCount s)) 0 (s32 (sb_freeInodes s / groupCount s)) None s
    else
      let* d := Ext3GetGroupDesc dirGroup s in
      match d with
      | None => Fault
      | Some d => if c_true (freeINodes d) then Ret (dirGroup, Some (dirGroup, d)) else Panic
      end in
  match found with
  | None => Ret (None, s)
  | Some (g, d) =>
      let* ib := Ext3INodeLoadBitmap groupNo s in
      let* i := BitFindFirstZero (blk s ib) (iNodesPerGrp s) in
      let* s :=
        if i <? iNodesPerGrp s
        then let* ws := set_bit (blk s ib) i 1 in Ret (mark (Block ib) (with_blk (<[ib := ws]> (blk s)) s))
        else Ret s in
      let* s := update_desc g (set_inodes (u16 (freeINodes d - 1)) (if isDir then u16 (usedDirs d + 1) else usedDirs d) d) s in
      let s := mark (GroupBuffer g) s in
      let s := mark SuperBuffer (with_counts (sb_freeBlocks s) (u32 (sb_freeInodes s - 1)) s) in
      Ret (Some (u32 (i + groupNo * iNodesPerGrp s + 1), groupNo), s)
  end.

(** ** Bits of words *)

Definition is_word (w : Z) : Prop := 0 <= w < 2 ^ 32.

Lemma testbit_split a b k i : 0 <= k -> 0 <= a < 2 ^ k -> 0 <= i ->
  Z.testbit (a + b * 2 ^ k) i = if i <? k then Z.testbit a i else Z.testbit b (i - k).
Proof.
  intros Hk Ha Hi. rewrite <- lor_shiftl_add by done. rewrite Z.lor_spec. destruct (Z.ltb_spec i k).
  - rewrite Z.shiftl_spec_low by done. apply orb_false_r.
  - rewrite Z.shiftl_spec_high by lia.
    replace (Z.testbit a i) with false; [done|]. symmetry. destruct (Z.eq_dec a 0) as [->|]; [apply Z.testbit_0_l|].
    apply Z.bits_above_log2; [lia|]. assert (Z.log2 a < k) by (apply Z.log2_lt_pow2; lia). lia.
Qed.

Lemma word_testbit a b c d i : is_byte a -> is_byte b -> is_byte c -> is_byte d -> 0 <= i < 32 ->
  Z.testbit (a + b * 2 ^ 8 + c * 2 ^ 16 + d * 2 ^ 24) i =
  match zlookup [a; b; c; d] (i / 8) with Some x => Z.testbit x (i mod 8) | None => false end.
Proof.
  unfold is_byte. intros Ha Hb Hc Hd Hi.
  replace (a + b * 2 ^ 8 + c * 2 ^ 16 + d * 2 ^ 24) with (a + (b + (c + d * 2 ^ 8) * 2 ^ 8) * 2 ^ 8) by lia.
  assert (i / 8 = 0 \/ i / 8 = 1 \/ i / 8 = 2 \/ i / 8 = 3) as E by (Z.div_mod_to_equations; lia).
  pose proof (Z.div_mod i 8 ltac:(lia)) as D. pose proof (Z.mod_pos_bound i 8 ltac:(lia)).
  destruct E as [E|[E|[E|E]]]; rewrite E in *; unfold zlookup; cbn [Z.leb Z.compare];
    repeat (rewrite testbit_split by lia;
            match goal with |- context [?x <? 8] => destruct (Z.ltb_spec x 8); [try lia|try lia] end);
    cbn; f_equal; lia.
Qed.

Lemma to_bytes_length ws : length (to_bytes ws) = (4 * length ws)%nat.
Proof. induction ws as [|w ws IH]; cbn in *; lia. Qed.

Lemma to_bytes_wf ws : wf_bytes (to_bytes ws).
Proof.
  induction ws as [|w ws IH]; [constructor|]. unfold wf_bytes in *. cbn [to_bytes word_bytes app].
  repeat (constructor; [apply u8_range|]). done.
Qed.

Lemma of_to_bytes ws : Forall is_word ws -> of_bytes (to_bytes ws) = ws.
Proof.
  induction 1 as [|w ws Hw _ IH]; [done|]. cbn [to_bytes word_bytes app of_bytes]. rewrite IH. f_equal.
  unfold is_word in Hw. unfold u8. Z.div_mod_to_equations. lia.
Qed.

Lemma wbit_cons w ws i : 0 <= i -> wbit (w :: ws) i = if i <? 32 then Z.testbit w i else wbit ws (i - 32).
Proof.
  intros Hi. unfold wbit, zlookup. destruct (Z.ltb_spec i 32).
  - rewrite Z.div_small, Z.mod_small by lia. done.
  - assert (i / 32 = (i - 32) / 32 + 1 /\ i mod 32 = (i - 32) mod 32) as [-> ->] by (Z.div_mod_to_equations; lia).
    assert (0 <= (i - 32) / 32) by (apply Z.div_pos; lia).
    destruct (Z.leb_spec 0 ((i - 32) / 32 + 1)); [|lia]. destruct (Z.leb_spec 0 ((i - 32) / 32)); [|lia].
    by replace (Z.to_nat ((i - 32) / 32 + 1)) with (S (Z.to_nat ((i - 32) / 32))) by lia.
Qed.

Lemma bit_skip4 a b c d bs i : 32 <= i -> bit (a :: b :: c :: d :: bs) i = bit bs (i - 32).
Proof.
  intros Hi. unfold bit, zlookup.
  assert (i / 8 = (i - 32) / 8 + 4 /\ i mod 8 = (i - 32) mod 8) as [-> ->] by (Z.div_mod_to_equations; lia).
  assert (0 <= (i - 32) / 8) by (apply Z.div_pos; lia).
  destruct (Z.leb_spec 0 ((i - 32) / 8 + 4)); [|lia]. destruct (Z.leb_spec 0 ((i - 32) / 8)); [|lia].
  by replace (Z.to_nat ((i - 32) / 8 + 4)) with (4 + Z.to_nat ((i - 32) / 8))%nat by lia.
Qed.

Lemma of_bytes_bit n : forall bs i, length bs = (4 * n)%nat -> wf_bytes bs -> 0 <= i < 32 * Z.of_nat n ->
  wbit (of_bytes bs) i = bit bs i.
Proof.
  induction n as [|n IH]; intros bs i Hl Hw Hi; [lia|].
  do 4 (destruct bs as [|? bs]; [cbn in Hl; lia|]).
  unfold wf_bytes in Hw. repeat (apply Forall_cons in Hw as [? Hw]). cbn [of_bytes]. rewrite wbit_cons by lia.
  destruct (Z.ltb_spec i 32).
  - rewrite word_testbit by (done || lia). unfold bit, zlookup. assert (0 <= i / 8 < 4) by (Z.div_mod_to_equations; lia).
    destruct (Z.leb_spec 0 (i / 8)); [|lia].
    assert (E : i / 8 = 0 \/ i / 8 = 1 \/ i / 8 = 2 \/ i / 8 = 3) by lia. by destruct E as [-> | [-> | [-> | ->]]].
  - rewrite bit_skip4 by done. apply IH; [cbn in Hl; lia|done|lia].
Qed.

Lemma of_bytes_words n : forall bs, length bs = (4 * n)%nat -> wf_bytes bs ->
  length (of_bytes bs) = n /\ Forall is_word (of_bytes bs).
Proof.
  induction n as [|n IH]; intros bs Hl Hw; [by destruct bs|].
  do 4 (destruct bs as [|? bs]; [cbn in Hl; lia|]).
  unfold wf_bytes in Hw. repeat (apply Forall_cons in Hw as [? Hw]). cbn [of_bytes].
  destruct (IH bs) as [L F]; [cbn in Hl; lia|done|]. split; [cbn; lia|]. constructor; [|done].
  unfold is_word, is_byte in *. lia.
Qed.

(** Setting one bit of a bitmap of words. *)
Lemma set_bit_spec ws i v : Forall is_word ws -> 0 <= i < 32 * Z.of_nat (length ws) ->
  exists ws', set_bit ws i (bool_value v) = Ret ws' /\ length ws' = length ws /\ Forall is_word ws'
    /\ forall j, 0 <= j < 32 * Z.of_nat (length ws) -> wbit ws' j = if j =? i then v else wbit ws j.
Proof.
  intros Hw Hi. pose proof (to_bytes_length ws) as L. pose proof (to_bytes_wf ws) as Wf.
  destruct (BmapSetBit_spec (to_bytes ws) i v Wf) as (bs & E & Lb & Wb & B); [unfold in_bitmap; lia|].
  unfold set_bit. rewrite E. cbn [bindO]. destruct (of_bytes_words (length ws) bs) as [L' F']; [lia|done|].
  exists (of_bytes bs). split_and!; try done. intros j Hj.
  rewrite (of_bytes_bit (length ws)) by (done || lia). rewrite B by lia. destruct (j =? i); [done|].
  rewrite <- (of_to_bytes ws Hw) at 2. by rewrite (of_bytes_bit (length ws)) by (done || lia).
Qed.

(** ** The allocation of blocks *)

(** The number of clear bits below [n]. *)
Fixpoint clear_count (f : Z -> bool) (n : nat) : Z :=
  match n with O => 0 | S n => clear_count f n + (if f (Z.of_nat n) then 0 else 1) end.

Lemma clear_count_range f n : 0 <= clear_count f n <= Z.of_nat n.
Proof. induction n as [|n IH]; [done|]. cbn [clear_count]. destruct (f _); lia. Qed.
Lemma clear_count_ext f g n : (forall i, 0 <= i < Z.of_nat n -> f i = g i) -> clear_count f n = clear_count g n.
Proof. intros E. induction n as [|n IH]; [done|]. cbn [clear_count]. rewrite IH, E by (intros; try apply E; lia). done. Qed.
Lemma clear_count_pos f n : 0 < clear_count f n -> exists i, 0 <= i < Z.of_nat n /\ f i = false.
Proof.
  induction n as [|n IH]; [done|]. cbn [clear_count]. destruct (f (Z.of_nat n)) eqn:E.
  - intros H. destruct IH as (i & Hi & Ei); [lia|]. exists i. split; [lia|done].
  - intros _. exists (Z.of_nat n). split; [lia|done].
Qed.
Lemma clear_count_zero f n : clear_count f n = 0 -> forall i, 0 <= i < Z.of_nat n -> f i = true.
Proof.
  induction n as [|n IH]; intros H i Hi; [lia|]. cbn [clear_count] in H. pose proof (clear_count_range f n).
  destruct (f (Z.of_nat n)) eqn:E; [|lia]. destruct (Z.eq_dec i (Z.of_nat n)) as [->|]; [done|]. apply IH; lia.
Qed.
(** Changing one bit. *)
Lemma clear_count_set f g i n : 0 <= i < Z.of_nat n -> f i = false -> g i = true ->
  (forall j, 0 <= j < Z.of_nat n -> j <> i -> g j = f j) -> clear_count g n = clear_count f n - 1.
Proof.
  induction n as [|n IH]; intros Hi Fi Gi E; [lia|]. cbn [clear_count].
  destruct (Z.eq_dec i (Z.of_nat n)) as [->|N].
  - rewrite Fi, Gi, (clear_count_ext g f) by (intros; apply E; lia). lia.
  - rewrite IH, (E (Z.of_nat n)) by (done || lia || (intros; apply E; lia)). lia.
Qed.

Definition total (l : list Ext3GroupDesc) : Z := foldr (fun d n => freeBlocks d + n) 0 l.
Lemma total_insert l k d d' : l !! k = Some d -> total (<[k := d']> l) = total l - freeBlocks d + freeBlocks d'.
Proof.
  revert k. induction l as [|x l IH]; intros [|k]; [done..| |].
  - intros [= ->]. cbn. lia.
  - intros E. specialize (IH k E). change (<[S k := d']> (x :: l)) with (x :: <[k := d']> l).
    unfold total in *. cbn [foldr]. lia.
Qed.
Lemma total_nonneg l : Forall (fun d => 0 <= freeBlocks d) l -> 0 <= total l.
Proof. induction 1 as [|y l Hy _ IH]; unfold total in *; cbn; lia. Qed.
Lemma total_ge l k d : Forall (fun d => 0 <= freeBlocks d) l -> l !! k = Some d -> 0 <= freeBlocks d <= total l.
Proof.
  intros F. revert k. induction F as [|x l Fx F IH]; intros [|k]; [done..| |]; pose proof (total_nonneg l F) as N.
  - intros [= ->]. unfold total in *. cbn. lia.
  - intros E. specialize (IH k E). unfold total in *. cbn. lia.
Qed.

(** A block of the groups, its group and index, and whether it is in use. *)
Definition in_fs (s : ext3) (b : Z) : Prop :=
  firstDataBlock s <= b < firstDataBlock s + groupCount s * blocksPerGrp s.
Definition used (s : ext3) (b : Z) : bool :=
  let k := b - firstDataBlock s in
  match zlookup (descs s) (k / blocksPerGrp s) with
  | Some d => wbit (blk s (blockBitmap d)) (k mod blocksPerGrp s)
  | None => true
  end.

(** The bitmaps are allocated blocks of their own and the free counts are
    right; block 0 is never free. *)
Record ext3_ok (s : ext3) : Prop := {
  eo_geom : 0 < blocksPerGrp s < 2 ^ 16 /\ 0 <= firstDataBlock s /\ 0 <= groupCount s
    /\ firstDataBlock s + groupCount s * blocksPerGrp s < 2 ^ 31 /\ 0 < blockSize s /\ blocksPerGrp s <= 8 * blockSize s
    /\ blockSize s mod 4 = 0;
  eo_descs : Z.of_nat (length (descs s)) = groupCount s;
  eo_blk : forall b, Z.of_nat (length (blk s b)) = blockSize s / 4 /\ Forall is_word (blk s b);
  eo_bitmap : forall g d, zlookup (descs s) g = Some d ->
    in_fs s (blockBitmap d) /\ used s (blockBitmap d) = true
    /\ freeBlocks d = clear_count (wbit (blk s (blockBitmap d))) (Z.to_nat (blocksPerGrp s));
  eo_distinct : forall g h d e, zlookup (descs s) g = Some d -> zlookup (descs s) h = Some e ->
    blockBitmap d = blockBitmap e -> g = h;
  eo_super : sb_freeBlocks s = total (descs s);
  eo_zero : in_fs s 0 -> used s 0 = true;
}.

Definition is_bitmap (s : ext3) (b : Z) : Prop := exists g d, zlookup (descs s) g = Some d /\ blockBitmap d = b.

Lemma desc_at s g : ext3_ok s -> 0 <= g < groupCount s -> exists d, zlookup (descs s) g = Some d
  /\ Ext3GetGroupDesc g s = Ret (Some d).
Proof.
  intros I Hg. destruct (zlookup_lt (descs s) g) as [d E]; [rewrite (eo_descs s I); lia|]. exists d. split; [done|].
  unfold Ext3GetGroupDesc. destruct (Z.leb_spec (groupCount s) g); [lia|]. by rewrite E.
Qed.

(** The bit of a block number made of a group and an index. *)
Lemma used_at s g d j : 0 < blocksPerGrp s -> zlookup (descs s) g = Some d -> 0 <= j < blocksPerGrp s ->
  used s (j + g * blocksPerGrp s + firstDataBlock s) = wbit (blk s (blockBitmap d)) j.
Proof.
  intros Hb E Hj. unfold used. replace (_ - firstDataBlock s) with (j + g * blocksPerGrp s) by lia.
  rewrite Z.div_add, Z.mod_add, Z.div_small, Z.mod_small, Z.add_0_l by lia. by rewrite E.
Qed.

Lemma block_split s b : 0 < blocksPerGrp s -> in_fs s b -> exists g j, 0 <= g < groupCount s /\ 0 <= j < blocksPerGrp s
  /\ b = j + g * blocksPerGrp s + firstDataBlock s.
Proof.
  intros Hb [B1 B2]. exists ((b - firstDataBlock s) / blocksPerGrp s), ((b - firstDataBlock s) mod blocksPerGrp s).
  pose proof (Z.mod_pos_bound (b - firstDataBlock s) (blocksPerGrp s) Hb).
  pose proof (Z.div_mod (b - firstDataBlock s) (blocksPerGrp s) ltac:(lia)).
  split; [|split; [done|lia]]. split; [apply Z.div_pos; lia|]. apply Z.div_lt_upper_bound; lia.
Qed.

Lemma total_le l n : Forall (fun d => freeBlocks d <= n) l -> total l <= Z.of_nat (length l) * n.
Proof. induction 1 as [|y l Hy _ IH]; unfold total in *; cbn [foldr length]; lia. Qed.

Lemma counts_range s : ext3_ok s -> Forall (fun d => 0 <= freeBlocks d) (descs s)
  /\ Forall (fun d => freeBlocks d <= blocksPerGrp s) (descs s).
Proof.
  intros I. destruct (eo_geom s I) as ([G1 G2] & _).
  split; apply Forall_lookup_2; intros k d E;
    (destruct (eo_bitmap s I (Z.of_nat k) d) as (_ & _ & ->); [unfold zlookup; rewrite Nat2Z.id; by destruct (Z.leb_spec 0 (Z.of_nat k)); [|lia]|]);
    pose proof (clear_count_range (wbit (blk s (blockBitmap d))) (Z.to_nat (blocksPerGrp s))); lia.
Qed.

Lemma super_range s : ext3_ok s -> 0 <= sb_freeBlocks s < 2 ^ 31.
Proof.
  intros I. destruct (counts_range s I) as [C1 C2]. rewrite (eo_super s I).
  apply total_nonneg in C1. apply total_le in C2. rewrite (eo_descs s I) in C2.
  destruct (eo_geom s I) as (_ & ? & ? & ? & _). lia.
Qed.

Lemma bitmap_words s g d : ext3_ok s -> zlookup (descs s) g = Some d ->
  Forall is_word (blk s (blockBitmap d)) /\ blocksPerGrp s <= 32 * Z.of_nat (length (blk s (blockBitmap d))).
Proof.
  intros I E. destruct (eo_blk s I (blockBitmap d)) as [L F]. split; [done|].
  destruct (eo_geom s I) as (_ & _ & _ & _ & ? & ? & ?). rewrite L. Z.div_mod_to_equations. lia.
Qed.

(** What BitFindFirstZero finds in the bitmap of a group. *)
Lemma group_search s g d : ext3_ok s -> zlookup (descs s) g = Some d -> exists j,
  BitFindFirstZero (blk s (blockBitmap d)) (blocksPerGrp s) = Ret j /\ 0 <= j
  /\ (forall k, 0 <= k < j -> wbit (blk s (blockBitmap d)) k = true)
  /\ if c_true (freeBlocks d) then j < blocksPerGrp s /\ wbit (blk s (blockBitmap d)) j = false
     else blocksPerGrp s <= j.
Proof.
  intros I E. destruct (bitmap_words s g d I E) as [Fw Lw]. destruct (eo_geom s I) as ([G1 G2] & _).
  destruct (find_first_zero_least (blk s (blockBitmap d)) (blocksPerGrp s)) as (j & Ej & Bj & Q & Z0).
  { exact Fw. } { lia. } { Z.div_mod_to_equations. lia. }
  exists j. split; [done|]. split; [lia|]. split; [done|]. destruct (eo_bitmap s I g d E) as (_ & _ & Ec).
  assert (Hn : j < blocksPerGrp s -> j < 32 * ((blocksPerGrp s + 31) / 32)) by (intros; Z.div_mod_to_equations; lia).
  destruct (c_true (freeBlocks d)) eqn:Cf.
  - apply c_true_spec in Cf. pose proof (clear_count_range (wbit (blk s (blockBitmap d))) (Z.to_nat (blocksPerGrp s))) as R.
    destruct (clear_count_pos (wbit (blk s (blockBitmap d))) (Z.to_nat (blocksPerGrp s))) as (k & Hk & Ek); [lia|].
    assert (j <= k). { destruct (Z.le_gt_cases j k); [done|]. rewrite Q in Ek by lia. done. }
    split; [lia|]. apply Z0, Hn. lia.
  - apply c_true_false in Cf. rewrite Cf in Ec. destruct (Z.le_gt_cases (blocksPerGrp s) j); [done|].
    pose proof (clear_count_zero _ _ (eq_sym Ec) j ltac:(lia)) as T. rewrite Z0 in T by (apply Hn; lia). done.
Qed.

Lemma find_group_spec s : ext3_ok s -> forall n i, 0 <= i -> i + Z.of_nat n = groupCount s -> exists r s',
  find_group n i s = Ret (r, s') /\ match r with
  | None => s' = s /\ forall g d, i <= g -> zlookup (descs s) g = Some d -> freeBlocks d = 0
  | Some (g, j) => exists d ws, i <= g < groupCount s /\ zlookup (descs s) g = Some d /\ 0 <= j < blocksPerGrp s
      /\ wbit (blk s (blockBitmap d)) j = false /\ (forall k, 0 <= k < j -> wbit (blk s (blockBitmap d)) k = true)
      /\ (forall h e, i <= h < g -> zlookup (descs s) h = Some e -> freeBlocks e = 0)
      /\ set_bit (blk s (blockBitmap d)) j 1 = Ret ws /\ s' = mark (Block (blockBitmap d)) (with_blk (<[blockBitmap d := ws]> (blk s)) s)
  end.
Proof.
  intros I. induction n as [|n IH]; intros i Hi Hn; cbn [find_group].
  - exists None, s. split; [done|]. split; [done|]. intros g d Hg E. apply zlookup_Some in E as [E _].
    rewrite (eo_descs s I) in E. lia.
  - destruct (desc_at s i I) as (d & Ed & Eg); [lia|]. rewrite Eg. cbn [bindO].
    destruct (group_search s i d I Ed) as (j & Ej & Bj & Q & C).
    destruct (c_true (freeBlocks d)) eqn:Cf.
    + unfold Ext3BlockLoadBitmap. rewrite Eg. cbn [bindO]. rewrite Ej. cbn [bindO]. destruct C as [C1 C2].
      destruct (Z.ltb_spec j (blocksPerGrp s)); [|lia]. destruct (bitmap_words s i d I Ed) as [Fw Lw].
      destruct (set_bit_spec (blk s (blockBitmap d)) j true Fw) as (ws & Ew & _); [lia|]. cbn [bool_value] in Ew.
      change (bool_value true) with 1 in Ew. rewrite Ew. cbn [bindO]. eexists (Some (i, j)), _. split; [reflexivity|].
      exists d, ws. split_and!; try done; try lia. 
    + apply c_true_false in Cf. destruct (IH (i + 1)) as (r & s' & E & P); [lia..|]. exists r, s'. split; [done|].
      destruct r as [[g j']|].
      * destruct P as (d' & ws & P1 & P2 & P3 & P4 & P5 & P6 & P7 & P8). exists d', ws. split_and!; try done; try lia.
        intros h e Hh Ee. destruct (Z.eq_dec h i) as [->|]; [congruence|]. apply (P6 h e); [lia|done].
      * destruct P as [-> P]. split; [done|]. intros g e Hg Ee. destruct (Z.eq_dec g i) as [->|]; [congruence|].
        apply (P g e); [lia|done].
Qed.

(** The group descriptor, the bitmap and the counts after one block of the
    group changes. *)
Definition flip (s : ext3) (g : Z) (d : Ext3GroupDesc) (ws : list Z) (n : Z) : ext3 :=
  {| iNodesCount := iNodesCount s; groupCount := groupCount s; iNodesPerGrp := iNodesPerGrp s; firstDataBlock := firstDataBlock s;
     blocksPerGrp := blocksPerGrp s; blockSize := blockSize s;
     descs := <[Z.to_nat g := set_freeBlocks (freeBlocks d + n) d]> (descs s);
     sb_freeBlocks := sb_freeBlocks s + n; sb_freeInodes := sb_freeInodes s;
     blk := <[blockBitmap d := ws]> (blk s);
     marked := ((marked s ++ [Block (blockBitmap d)]) ++ [GroupBuffer g]) ++ [SuperBuffer] |}.

Lemma flip_desc s g d ws n h e : zlookup (descs s) g = Some d -> zlookup (descs (flip s g d ws n)) h = Some e ->
  exists e0, zlookup (descs s) h = Some e0 /\ blockBitmap e = blockBitmap e0
    /\ (if h =? g then e0 = d /\ e = set_freeBlocks (freeBlocks d + n) d else e = e0).
Proof.
  intros E. unfold zlookup in *. destruct (Z.leb_spec 0 g); [|done]. destruct (Z.leb_spec 0 h); [|done]. cbn.
  rewrite list_lookup_insert_Some. intros [(Eh & <- & _)|[Nh Eh]].
  - assert (h = g) as -> by lia. exists d. rewrite Z.eqb_refl. done.
  - exists e. destruct (Z.eqb_spec h g); [lia|]. done.
Qed.

Lemma flip_lookup s g d ws n h : zlookup (descs s) g = Some d ->
  zlookup (descs (flip s g d ws n)) h =
    if h =? g then Some (set_freeBlocks (freeBlocks d + n) d) else zlookup (descs s) h.
Proof.
  intros E. pose proof (zlookup_Some _ _ _ E) as [Bg _]. unfold zlookup. cbn. destruct (Z.eqb_spec h g) as [->|Nh].
  - destruct (Z.leb_spec 0 g); [|lia]. apply list_lookup_insert_eq. lia.
  - destruct (Z.leb_spec 0 h); [|done]. apply list_lookup_insert_ne. lia.
Qed.

Lemma flip_used s g d ws n j v b : ext3_ok s -> zlookup (descs s) g = Some d -> 0 <= j < blocksPerGrp s -> in_fs s b ->
  (forall k, 0 <= k < blocksPerGrp s -> wbit ws k = if k =? j then v else wbit (blk s (blockBitmap d)) k) ->
  used (flip s g d ws n) b = if b =? j + g * blocksPerGrp s + firstDataBlock s then v else used s b.
Proof.
  intros I E Hj Hb Q. destruct (eo_geom s I) as ([G1 _] & _). destruct (block_split s b G1 Hb) as (h & k & Hh & Hk & ->).
  destruct (desc_at s h I Hh) as (e & Ee & _). rewrite (used_at s h e k G1 Ee Hk).
  pose proof (flip_lookup s g d ws n h E) as El.
  assert (Eu : used (flip s g d ws n) (k + h * blocksPerGrp s + firstDataBlock s) =
    wbit (blk (flip s g d ws n) (blockBitmap e)) k).
  { destruct (Z.eqb_spec h g) as [->|Nh].
    - assert (e = d) as -> by congruence. exact (used_at (flip s g d ws n) g _ k G1 El Hk).
    - rewrite Ee in El. exact (used_at (flip s g d ws n) h e k G1 El Hk). }
  rewrite Eu. cbn [blk flip]. destruct (Z.eq_dec h g) as [->|Nh].
  - assert (e = d) as -> by congruence. rewrite fn_lookup_insert, Q by done.
    destruct (Z.eqb_spec k j) as [->|]; [by rewrite Z.eqb_refl|]. by destruct (Z.eqb_spec (k + g * blocksPerGrp s + firstDataBlock s) (j + g * blocksPerGrp s + firstDataBlock s)); [lia|].
  - rewrite fn_lookup_insert_ne by (intros Eb; apply Nh; by apply (eo_distinct s I h g e d)).
    destruct (Z.eqb_spec (k + h * blocksPerGrp s + firstDataBlock s) (j + g * blocksPerGrp s + firstDataBlock s)) as [Eb|]; [|done].
    nia.
Qed.

Lemma flip_ok s g d ws j v : ext3_ok s -> zlookup (descs s) g = Some d -> 0 <= j < blocksPerGrp s ->
  wbit (blk s (blockBitmap d)) j = negb v -> length ws = length (blk s (blockBitmap d)) -> Forall is_word ws ->
  (forall k, 0 <= k < blocksPerGrp s -> wbit ws k = if k =? j then v else wbit (blk s (blockBitmap d)) k) ->
  ~ is_bitmap s (j + g * blocksPerGrp s + firstDataBlock s) -> j + g * blocksPerGrp s + firstDataBlock s <> 0 ->
  ext3_ok (flip s g d ws (if v then -1 else 1)).
Proof.
  intros I E Hj Hv Lw Fw Q Nb N0. destruct (eo_geom s I) as ([G1 G2] & _).
  assert (U : forall b, in_fs s b -> used (flip s g d ws (if v then -1 else 1)) b =
    if b =? j + g * blocksPerGrp s + firstDataBlock s then v else used s b) by (intros b Hb; by apply flip_used).
  split.
  - apply I.
  - cbn. rewrite length_insert. apply I.
  - intros b. cbn. destruct (decide (b = blockBitmap d)) as [->|Nb']; [rewrite fn_lookup_insert|rewrite fn_lookup_insert_ne by done].
    + split; [rewrite Lw|done]. apply (eo_blk s I).
    + apply (eo_blk s I).
  - intros h e Eh. destruct (flip_desc _ _ _ _ _ _ _ E Eh) as (e0 & E0 & Eb & C).
    destruct (eo_bitmap s I h e0 E0) as (B & Us & Ec). rewrite Eb. split; [done|]. split.
    + rewrite U by done. destruct (Z.eqb_spec (blockBitmap e0) (j + g * blocksPerGrp s + firstDataBlock s)) as [Ej|]; [|done].
      destruct Nb. by exists h, e0.
    + destruct (Z.eqb_spec h g) as [->|Nh].
      * destruct C as [-> ->]. cbn [set_freeBlocks freeBlocks flip blk blocksPerGrp]. rewrite fn_lookup_insert, Ec. destruct v.
        -- rewrite (clear_count_set (wbit (blk s (blockBitmap d))) (wbit ws) j); [lia|lia|done| |].
           ++ rewrite Q by done. by rewrite Z.eqb_refl.
           ++ intros k Hk Nk. rewrite Q by lia. by destruct (Z.eqb_spec k j).
        -- rewrite (clear_count_set (wbit ws) (wbit (blk s (blockBitmap d))) j); [lia|lia| |done|].
           ++ rewrite Q by done. by rewrite Z.eqb_refl.
           ++ intros k Hk Nk. rewrite Q by lia. by destruct (Z.eqb_spec k j).
      * subst e. cbn [flip blk]. rewrite fn_lookup_insert_ne; [done|]. intros Eb'. apply Nh. by apply (eo_distinct s I h g e0 d).
  - intros h k e f Eh Ek. destruct (flip_desc _ _ _ _ _ _ _ E Eh) as (e0 & E0 & -> & _).
    destruct (flip_desc _ _ _ _ _ _ _ E Ek) as (f0 & F0 & -> & _). by apply (eo_distinct s I h k e0 f0).
  - cbn. apply zlookup_Some in E as [_ E]. rewrite (total_insert _ _ d _ E), (eo_super s I). cbn. lia.
  - intros Hz. rewrite U by done. destruct (Z.eqb_spec 0 (j + g * blocksPerGrp s + firstDataBlock s)); [lia|]. by apply (eo_zero s I).
Qed.

(** A block that is not a bitmap gets new contents. *)
Lemma ok_blk s b ws : ext3_ok s -> ~ is_bitmap s b -> Z.of_nat (length ws) = blockSize s / 4 -> Forall is_word ws ->
  ext3_ok (with_blk (<[b := ws]> (blk s)) s)
  /\ forall b', in_fs s b' -> used (with_blk (<[b := ws]> (blk s)) s) b' = used s b'.
Proof.
  intros I Nb Lw Fw.
  assert (Same : forall g d, zlookup (descs s) g = Some d -> <[b := ws]> (blk s) (blockBitmap d) = blk s (blockBitmap d)).
  { intros g d E. apply fn_lookup_insert_ne. intros ->. apply Nb. by exists g, d. }
  assert (U : forall b', used (with_blk (<[b := ws]> (blk s)) s) b' = used s b').
  { intros b'. unfold used. cbn. destruct (zlookup (descs s) _) as [d|] eqn:E; [|done]. by rewrite (Same _ _ E). }
  split; [|intros; apply U]. split; try apply I.
  - intros b'. cbn. destruct (decide (b' = b)) as [->|]; [by rewrite fn_lookup_insert|]. rewrite fn_lookup_insert_ne by done. apply (eo_blk s I).
  - intros g d E. destruct (eo_bitmap s I g d E) as (B & Us & Ec). split; [done|]. split; [by rewrite U|]. cbn. by rewrite (Same _ _ E).
  - intros Hz. rewrite U. by apply (eo_zero s I).
Qed.

Lemma free_not_bitmap s b : ext3_ok s -> used s b = false -> ~ is_bitmap s b.
Proof. intros I U (g & d & E & <-). destruct (eo_bitmap s I g d E) as (_ & Us & _). congruence. Qed.

(** The buffers that [s'] has marked since [s] are those of the blocks, the
    descriptors and the superblock that differ, but for the blocks of [skip]
    and blocks that were free in [s]. *)
Definition logged (skip : Z -> Prop) (s s' : ext3) : Prop := exists m, marked s' = marked s ++ m
  /\ (forall b, blk s' b <> blk s b -> skip b \/ (in_fs s b /\ used s b = false) \/ Block b ∈ m)
  /\ (forall g, zlookup (descs s') g <> zlookup (descs s) g -> GroupBuffer g ∈ m)
  /\ (sb_freeBlocks s' <> sb_freeBlocks s \/ sb_freeInodes s' <> sb_freeInodes s -> SuperBuffer ∈ m).
Definition nothing (b : Z) : Prop := False.

(** Every block that differs in [s'] was marked after [s]. *)
Definition saved (s s' : ext3) : Prop := exists m, marked s' = marked s ++ m
  /\ forall b, blk s' b <> blk s b -> Block b ∈ m.
Lemma saved_refl s : saved s s.
Proof. exists []. by rewrite app_nil_r. Qed.
Lemma saved_trans s1 s2 s3 : saved s1 s2 -> saved s2 s3 -> saved s1 s3.
Proof.
  intros (m & E & B) (m' & E' & B'). exists (m ++ m'). rewrite E', E, app_assoc. split; [done|]. intros b N. rewrite elem_of_app.
  destruct (decide (blk s2 b = blk s1 b)); [right; apply B'; congruence|left; auto].
Qed.

Lemma logged_refl X s : logged X s s.
Proof. exists []. rewrite app_nil_r. split_and!; [done..|]. by intros []. Qed.
Lemma logged_weaken (X Y : Z -> Prop) s s' : (forall b, X b -> Y b) -> logged X s s' -> logged Y s s'.
Proof.
  intros H (m & E & B & D & C). exists m. split_and!; [done| |done..]. intros b N. destruct (B b N) as [|[]]; auto.
Qed.
Lemma logged_trans X s1 s2 s3 : (forall b, in_fs s2 b -> used s2 b = false -> in_fs s1 b /\ used s1 b = false) ->
  logged X s1 s2 -> logged X s2 s3 -> logged X s1 s3.
Proof.
  intros U (m & E & B & D & C) (m' & E' & B' & D' & C'). exists (m ++ m'). rewrite E', E, app_assoc.
  split_and!; [done|..]; intros; rewrite elem_of_app.
  - destruct (decide (blk s2 b = blk s1 b)) as [Eb|N]; [|destruct (B b N) as [|[]]; auto].
    destruct (B' b) as [|[[? ?]|]]; [congruence|..]; auto.
  - destruct (decide (zlookup (descs s2) g = zlookup (descs s1) g)) as [Eg|]; [right; apply D'; congruence|left; auto].
  - destruct (decide (sb_freeBlocks s2 = sb_freeBlocks s1 /\ sb_freeInodes s2 = sb_freeInodes s1)) as [[Eb Ei]|].
    + right. apply C'. by rewrite Eb, Ei.
    + left. apply C. lia.
Qed.
(** A step that writes block [b] before it marks it. *)
Lemma logged_mark s s' b : logged (eq b) s s' -> logged nothing s (mark (Block b) s').
Proof.
  intros (m & E & B & D & C). exists (m ++ [Block b]). cbn. rewrite E, app_assoc.
  split_and!; [done|..]; intros; rewrite elem_of_app; [|left; auto..].
  destruct (B _ H) as [->|[]]; auto. right; right; right. set_solver.
Qed.
Lemma logged_set s s' ws b : logged nothing s s' -> logged (eq b) s (with_blk (<[b := ws]> (blk s')) s').
Proof.
  intros (m & E & B & D & C). exists m. split_and!; [done| |done..]. intros b' N. cbn in N.
  destruct (decide (b' = b)) as [->|Nb]; [by left|]. rewrite fn_lookup_insert_ne in N by done. destruct (B b' N) as [[]|[]]; auto.
Qed.

(** What an allocation leaves: the same layout, one more block in use, the
    other blocks but the bitmaps as they were. *)
Record allocated (s s' : ext3) (r : Z) : Prop := {
  al_layout : groupCount s' = groupCount s /\ blocksPerGrp s' = blocksPerGrp s /\ firstDataBlock s' = firstDataBlock s
    /\ blockSize s' = blockSize s;
  al_fresh : in_fs s r /\ r <> 0 /\ used s r = false;
  al_lowest : forall b, in_fs s b -> b < r -> used s b = true;
  al_used : forall b, in_fs s b -> used s' b = (b =? r) || used s b;
  al_zero : blk s' r = zero_block s;
  al_other : forall b, b <> r -> ~ is_bitmap s b -> blk s' b = blk s b;
  al_bitmaps : forall b, is_bitmap s' b <-> is_bitmap s b;
  al_counts : sb_freeBlocks s' = sb_freeBlocks s - 1;
  al_logged : logged nothing s s';
}.

Lemma zero_block_ok s : 0 < blockSize s -> Z.of_nat (length (zero_block s)) = blockSize s / 4 /\ Forall is_word (zero_block s).
Proof.
  intros B. unfold zero_block. rewrite length_replicate. split; [|by apply Forall_replicate].
  rewrite Z2Nat.id; [done|]. apply Z.div_pos; lia.
Qed.

Lemma flip_bitmaps s g d ws n b : zlookup (descs s) g = Some d -> is_bitmap (flip s g d ws n) b <-> is_bitmap s b.
Proof.
  intros E. split.
  - intros (h & e & Eh & <-). destruct (flip_desc _ _ _ _ _ _ _ E Eh) as (e0 & E0 & -> & _). by exists h, e0.
  - intros (h & e & Eh & <-). pose proof (flip_lookup s g d ws n h E) as El. destruct (Z.eqb_spec h g) as [->|].
    + exists g. eexists. split; [exact El|]. cbn. congruence.
    + exists h, e. by rewrite El.
Qed.

Lemma Ext3BlockNew_spec s : ext3_ok s -> exists r s', Ext3BlockNew s = Ret (r, s') /\ ext3_ok s'
  /\ if r =? 0 then s' = s /\ forall b, in_fs s b -> used s b = true else allocated s s' r.
Proof.
  intros I. destruct (eo_geom s I) as ([G1 G2] & G3 & G4 & G5 & G6 & G7 & G8).
  destruct (find_group_spec s I (Z.to_nat (groupCount s)) 0) as (r & s1 & E1 & P); [lia..|].
  unfold Ext3BlockNew. rewrite E1. cbn [bindO]. destruct r as [[g j]|].
  2: { destruct P as [-> P]. exists 0, s. split; [done|]. split; [done|]. split; [done|]. intros b Hb.
       destruct (block_split s b G1 Hb) as (g & j & Hg & Hj & ->). destruct (desc_at s g I Hg) as (d & Ed & _).
       rewrite (used_at s g d j G1 Ed Hj). destruct (eo_bitmap s I g d Ed) as (_ & _ & Ec). rewrite (P g d) in Ec by (done || lia).
       apply (clear_count_zero _ _ (eq_sym Ec)). lia. }
  destruct P as (d & ws & Hg & Ed & Hj & Fj & Low & Lowg & Ew & ->). destruct (bitmap_words s g d I Ed) as [Fw Lw].
  destruct (set_bit_spec (blk s (blockBitmap d)) j true Fw) as (ws' & Ew' & Lws & Fws & Q); [lia|].
  change (bool_value true) with 1 in Ew'. assert (ws' = ws) as -> by congruence.
  set (r := j + g * blocksPerGrp s + firstDataBlock s). cbn [blocksPerGrp firstDataBlock with_blk mark with_marked]. fold r.
  assert (Br : in_fs s r) by (unfold in_fs, r; nia). assert (Ur : used s r = false) by (unfold r; by rewrite (used_at s g d)).
  assert (Nr : r <> 0). { intros E0. rewrite E0 in Br, Ur. rewrite (eo_zero s I Br) in Ur. done. }
  rewrite u32_id by (unfold in_fs in Br; lia).
  assert (Eg : Ext3GetGroupDesc g (mark (Block (blockBitmap d)) (with_blk (<[blockBitmap d := ws]> (blk s)) s)) = Ret (Some d)).
  { unfold Ext3GetGroupDesc. cbn. destruct (Z.leb_spec (groupCount s) g); [lia|]. by rewrite Ed. }
  rewrite Eg. cbn [bindO]. destruct (eo_bitmap s I g d Ed) as (_ & _ & Ec).
  pose proof (clear_count_range (wbit (blk s (blockBitmap d))) (Z.to_nat (blocksPerGrp s))) as Cr.
  assert (freeBlocks d <> 0).
  { intros E0. rewrite E0 in Ec. pose proof (clear_count_zero _ _ (eq_sym Ec) j ltac:(lia)). congruence. }
  unfold update_desc. cbn [descs with_blk mark with_marked]. destruct (zlookup_Some _ _ _ Ed) as [Bg Eg']. rewrite zupdate_lt by done. cbn [of_option bindO].
  cbn [sb_freeBlocks sb_freeInodes with_descs with_blk with_counts blk mark with_marked].
  pose proof (super_range s I) as Sr. destruct (counts_range s I) as [C1 _].
  pose proof (total_ge _ _ _ C1 Eg') as Tg. rewrite <- (eo_super s I) in Tg.
  assert (u16 (freeBlocks d - 1) = freeBlocks d + -1) as -> by (unfold u16; rewrite Z.mod_small; lia).
  assert (u32 (sb_freeBlocks s - 1) = sb_freeBlocks s + -1) as -> by (rewrite u32_id; lia).
  pose proof (free_not_bitmap s r I Ur) as Nb.
  pose proof (flip_ok s g d ws j true I Ed Hj Fj Lws Fws (fun k Hk => Q k ltac:(lia)) Nb Nr) as I2.
  set (s2 := flip s g d ws (-1)) in *.
  change (with_marked _ (with_counts _ _ _)) with s2.
  destruct (zero_block_ok s G6) as [Lz Fz].
  assert (Nb2 : ~ is_bitmap s2 r) by (intros Hb; apply Nb; by apply (flip_bitmaps s g d ws (-1) r Ed)).
  destruct (ok_blk s2 r (zero_block s) I2 Nb2 Lz Fz) as [I3 U3].
  exists r, (with_blk (<[r := zero_block s]> (blk s2)) s2). split; [done|]. split; [exact I3|].
  destruct (Z.eqb_spec r 0); [done|]. split.
  - done.
  - done.
  - intros b Hb Lt. destruct (block_split s b G1 Hb) as (h & k & Hh & Hk & ->). destruct (desc_at s h I Hh) as (e & Ee & _).
    rewrite (used_at s h e k G1 Ee Hk). unfold r in Lt. destruct (Z.lt_trichotomy h g) as [L|[->|L]]; [|..|nia].
    + destruct (eo_bitmap s I h e Ee) as (_ & _ & Ech). rewrite (Lowg h e) in Ech by (done || lia).
      apply (clear_count_zero _ _ (eq_sym Ech)). lia.
    + assert (e = d) as -> by congruence. apply Low. lia.
  - intros b Hb. rewrite U3 by done. unfold s2. rewrite (flip_used s g d ws (-1) j true b I Ed Hj Hb (fun k Hk => Q k ltac:(lia))).
    fold r. by destruct (b =? r).
  - cbn. by rewrite fn_lookup_insert.
  - intros b Nbr Nbb. cbn. rewrite fn_lookup_insert_ne by done. rewrite fn_lookup_insert_ne; [done|]. intros Eb. apply Nbb. by exists g, d.
  - intros b. apply (flip_bitmaps s g d ws (-1) b Ed).
  - cbn. lia.
  - exists [Block (blockBitmap d); GroupBuffer g; SuperBuffer]. split_and!; [cbn; by rewrite <- !app_assoc|..].
    + intros b. cbn. destruct (decide (b = r)) as [->|]; [auto|]. rewrite fn_lookup_insert_ne by done.
      destruct (decide (b = blockBitmap d)) as [->|]; [intros; right; right; set_solver|]. by rewrite fn_lookup_insert_ne.
    + intros h. cbn. intros N. destruct (decide (h = g)) as [->|Nh]; [set_solver|]. destruct N.
      change (zlookup (descs s2) h = zlookup (descs s) h). unfold s2. rewrite (flip_lookup s g d ws (-1) h Ed). by destruct (Z.eqb_spec h g).
    + intros _. set_solver.
Qed.

(** ** Freeing *)

Lemma clear_count_all f n : (forall i, 0 <= i < Z.of_nat n -> f i = true) -> clear_count f n = 0.
Proof. intros E. induction n as [|n IH]; [done|]. cbn [clear_count]. rewrite IH, E by (intros; try apply E; lia). done. Qed.

Lemma total_zero l : Forall (fun d => freeBlocks d = 0) l -> total l = 0.
Proof. induction 1 as [|d l Hd _ IH]; unfold total in *; cbn; lia. Qed.

(** With a free block an allocation succeeds. *)
Lemma Ext3BlockNew_succeeds s : ext3_ok s -> 0 < sb_freeBlocks s -> exists r s',
  Ext3BlockNew s = Ret (r, s') /\ ext3_ok s' /\ allocated s s' r.
Proof.
  intros I Hs. destruct (Ext3BlockNew_spec s I) as (r & s' & E & I' & P). exists r, s'. split; [done|]. split; [done|].
  destruct (Z.eqb_spec r 0) as [->|]; [|done]. destruct P as [_ P]. rewrite (eo_super s I), total_zero in Hs; [lia|].
  destruct (eo_geom s I) as ([G1 _] & _). apply Forall_lookup_2. intros k d Ek.
  assert (Ez : zlookup (descs s) (Z.of_nat k) = Some d) by (unfold zlookup; rewrite Nat2Z.id; by destruct (Z.leb_spec 0 (Z.of_nat k)); [|lia]).
  destruct (eo_bitmap s I _ d Ez) as (_ & _ & ->). apply clear_count_all. intros i Hi.
  rewrite <- (used_at s (Z.of_nat k) d i G1 Ez) by lia. apply P. apply lookup_lt_Some in Ek. pose proof (eo_descs s I).
  unfold in_fs. nia.
Qed.

(** Ext3BlockNew takes the lowest free block of the file system, marks it in its bitmap and
    in no other place, keeps the free counts of the group and of the superblock right, zeroes
    the block and leaves every other block alone; it returns 0 and changes nothing exactly
    when no block is free. *)
Theorem Ext3BlockNew_takes_lowest s : ext3_ok s -> exists r s', Ext3BlockNew s = Ret (r, s') /\ ext3_ok s'
  /\ if r =? 0 then s' = s /\ forall b, in_fs s b -> used s b = true else allocated s s' r.
Proof. apply Ext3BlockNew_spec. Qed.

Lemma Ext3BlockFree_spec s b : ext3_ok s -> 0 <= b - firstDataBlock s < 2 ^ 32 ->
  (in_fs s b -> used s b = true /\ ~ is_bitmap s b /\ b <> 0) -> exists r s', Ext3BlockFree b s = Ret (r, s') /\ ext3_ok s'
  /\ if decide (in_fs s b) then r = 0 /\ (forall b', in_fs s b' -> used s' b' = negb (b' =? b) && used s b')
       /\ (forall b', ~ is_bitmap s b' -> blk s' b' = blk s b') /\ sb_freeBlocks s' = sb_freeBlocks s + 1
     else r = - EIO /\ s' = s.
Proof.
  intros I Hb Hu. destruct (eo_geom s I) as ([G1 G2] & G3 & G4 & G5 & G6 & G7 & G8).
  unfold Ext3BlockFree. rewrite u32_id by lia. destruct (Z.eqb_spec (blocksPerGrp s) 0); [lia|].
  destruct (decide (in_fs s b)) as [Hin|Nin].
  2: { assert (groupCount s <= (b - firstDataBlock s) / blocksPerGrp s).
       { apply Z.div_le_lower_bound; [lia|]. unfold in_fs in Nin. lia. }
       destruct (Z.leb_spec (groupCount s) ((b - firstDataBlock s) / blocksPerGrp s)); [|lia]. by exists (- EIO), s. }
  destruct (Hu Hin) as (Ub & Nb & N0). destruct (block_split s b G1 Hin) as (g & j & Hg & Hj & ->).
  replace (j + g * blocksPerGrp s + firstDataBlock s - firstDataBlock s) with (j + g * blocksPerGrp s) by lia.
  rewrite Z.div_add, Z.mod_add, Z.div_small, Z.mod_small, Z.add_0_l by lia.
  destruct (Z.leb_spec (groupCount s) g); [lia|]. destruct (desc_at s g I Hg) as (d & Ed & Eg). unfold Ext3BlockLoadBitmap.
  rewrite Eg. cbn [bindO]. rewrite (used_at s g d j G1 Ed Hj) in Ub. destruct (bitmap_words s g d I Ed) as [Fw Lw].
  destruct (set_bit_spec (blk s (blockBitmap d)) j false Fw) as (ws & Ew & Lws & Fws & Q); [lia|].
  change (bool_value false) with 0 in Ew. rewrite Ew. cbn [bindO]. unfold update_desc. cbn [descs with_blk mark with_marked].
  destruct (zlookup_Some _ _ _ Ed) as [Bg Eg']. rewrite zupdate_lt by done. cbn [of_option bindO sb_freeBlocks sb_freeInodes with_descs with_blk mark with_marked].
  pose proof (flip_ok s g d ws j false I Ed Hj Ub Lws Fws (fun k Hk => Q k ltac:(lia)) Nb N0) as I2.
  destruct (eo_bitmap s I g d Ed) as (_ & _ & Ec).
  pose proof (clear_count_range (wbit (blk s (blockBitmap d))) (Z.to_nat (blocksPerGrp s))) as Cr.
  pose proof (super_range s I) as Sr.
  assert (u16 (freeBlocks d + 1) = freeBlocks d + 1) as ->.
  { unfold u16. rewrite Z.mod_small; [done|]. split; [lia|].
    assert (freeBlocks d <> blocksPerGrp s); [|lia]. intros E.
    rewrite (clear_count_set (fun k => if k =? j then false else wbit (blk s (blockBitmap d)) k) _ j) in Ec; [| lia | by rewrite Z.eqb_refl | done
      | intros k _ Nk; by destruct (Z.eqb_spec k j) ].
    pose proof (clear_count_range (fun k => if k =? j then false else wbit (blk s (blockBitmap d)) k) (Z.to_nat (blocksPerGrp s))). lia. }
  rewrite u32_id by lia. exists 0, (flip s g d ws 1). split; [done|]. split; [exact I2|]. split; [done|].
  split; [|split; [|done]].
  - intros b' Hb'. rewrite (flip_used s g d ws 1 j false b' I Ed Hj Hb' (fun k Hk => Q k ltac:(lia))). by destruct (b' =? _).
  - intros b' Nb'. cbn. rewrite fn_lookup_insert_ne; [done|]. intros Eb. apply Nb'. by exists g, d.
Qed.

(** Ext3BlockFree clears exactly the bit of the block it is given and keeps the counts
    right; a number past the last group gives -EIO and no change. *)
Theorem Ext3BlockFree_frees s b : ext3_ok s -> 0 <= b - firstDataBlock s < 2 ^ 32 ->
  (in_fs s b -> used s b = true /\ ~ is_bitmap s b /\ b <> 0) -> exists r s', Ext3BlockFree b s = Ret (r, s') /\ ext3_ok s'
  /\ if decide (in_fs s b) then r = 0 /\ (forall b', in_fs s b' -> used s' b' = negb (b' =? b) && used s b')
       /\ (forall b', ~ is_bitmap s b' -> blk s' b' = blk s b') /\ sb_freeBlocks s' = sb_freeBlocks s + 1
     else r = - EIO /\ s' = s.
Proof. apply Ext3BlockFree_spec. Qed.

(** Ext3BlockTruncate frees the block of the disk whose number is the index of the first
    block to cut off, whatever blocks the file has. *)
Theorem Ext3BlockTruncate_frees_by_index s size : ext3_ok s -> 0 <= size -> size mod blockSize s + 1 < blockSize s ->
  let k := size / blockSize s in k < 12 -> in_fs s k -> used s k = true -> ~ is_bitmap s k -> k <> 0 ->
  exists s', Ext3BlockTruncate size s = Ret (0, s') /\ forall b, in_fs s b -> used s' b = negb (b =? k) && used s b.
Proof.
  intros I Hs Hm k Hk B U Nb N0. destruct (eo_geom s I) as (_ & G3 & _ & G5 & G6 & _).
  unfold Ext3BlockTruncate. rewrite !Z.quot_div_nonneg by lia.
  assert ((size + blockSize s + 1) / blockSize s = k + 1) as ->.
  { unfold k. symmetry. apply (Z.div_unique_pos _ _ _ (size mod blockSize s + 1)); [pose proof (Z.mod_pos_bound size (blockSize s)); lia|].
    pose proof (Z.div_mod size (blockSize s)). lia. }
  fold k. replace (Z.to_nat (k + 1 - k)) with 1%nat by lia. replace (k + 1 - 1) with k by lia. cbn [truncate_loop].
  destruct (Z.ltb_spec k 12); [|lia].
  destruct (Ext3BlockFree_spec s k I) as (r & s' & E & I' & P); [unfold in_fs in B; lia|done|].
  rewrite E. cbn [bindO]. destruct (decide (in_fs s k)); [|done]. destruct P as (_ & P & _). exists s'. by split.
Qed.

(** ** The block map of a file *)

Definition ent (blocks : list Z) (k : Z) : Z := default 0 (zlookup blocks k).
Definition word_at (s : ext3) (t i : Z) : Z := if t =? 0 then 0 else default 0 (zlookup (blk s t) i).

(** The tables of a file, by their place, and their blocks (0 for none). *)
Inductive tid := Single | Double | Sub (i : Z).
Definition tab (s : ext3) (blocks : list Z) (id : tid) : Z :=
  match id with
  | Single => ent blocks 12
  | Double => ent blocks 13
  | Sub i => word_at s (ent blocks 13) i
  end.

(** The table and the entry of it for block [n] of a file, from 12 on. *)
Definition place (s : ext3) (n : Z) : tid * Z :=
  let e := blockSize s / 4 in
  if n - 12 <? e then (Single, n - 12) else (Sub ((n - 12 - e) / e), (n - 12 - e) mod e).

(** The block of the disk with block [n] of the file, 0 for none. *)
Definition mapped (s : ext3) (blocks : list Z) (n : Z) : Z :=
  if n <? 12 then ent blocks n
  else word_at s (tab s blocks (fst (place s n))) (snd (place s n)).
Definition max_block (s : ext3) : Z := 12 + blockSize s / 4 + blockSize s / 4 * (blockSize s / 4).

Definition tid_ok (s : ext3) (id : tid) : Prop :=
  match id with Sub i => 0 <= i < blockSize s / 4 | _ => True end.

(** A block in use that is not a bitmap. *)
Definition owned (s : ext3) (b : Z) : Prop := in_fs s b /\ used s b = true /\ ~ is_bitmap s b.

(** The tables and data blocks of the file are blocks in use, all
    different. *)
Record file_ok (s : ext3) (blocks : list Z) : Prop := {
  fo_length : length blocks = 15%nat;
  fo_tables : forall id, tid_ok s id -> tab s blocks id <> 0 -> owned s (tab s blocks id);
  fo_distinct : forall id id', tid_ok s id -> tid_ok s id' -> tab s blocks id <> 0 ->
    tab s blocks id = tab s blocks id' -> id = id';
  fo_data : forall n, 0 <= n < max_block s -> mapped s blocks n <> 0 -> owned s (mapped s blocks n);
  fo_inj : forall n m, 0 <= n < max_block s -> 0 <= m < max_block s -> mapped s blocks n <> 0 ->
    mapped s blocks n = mapped s blocks m -> n = m;
  fo_apart : forall n id, 0 <= n < max_block s -> tid_ok s id -> mapped s blocks n <> 0 ->
    mapped s blocks n <> tab s blocks id;
}.

(** The layout and what is in use are kept, and a free block [r] may be in
    use now. *)
Record grown (s s' : ext3) (r : Z) : Prop := {
  gr_layout : groupCount s' = groupCount s /\ blocksPerGrp s' = blocksPerGrp s /\ firstDataBlock s' = firstDataBlock s
    /\ blockSize s' = blockSize s;
  gr_fresh : in_fs s r /\ r <> 0 /\ used s r = false /\ used s' r = true;
  gr_used : forall b, in_fs s b -> used s b = true -> used s' b = true;
  gr_bitmaps : forall b, is_bitmap s' b <-> is_bitmap s b;
}.

Lemma grown_owned s s' r b : grown s s' r -> owned s b -> owned s' b.
Proof.
  intros G (B & U & N). destruct (gr_layout _ _ _ G) as (L1 & L2 & L3 & _).
  split; [unfold in_fs in *; by rewrite L1, L2, L3|]. split; [by apply (gr_used _ _ _ G)|]. by rewrite (gr_bitmaps _ _ _ G).
Qed.
Lemma grown_new s s' r : ext3_ok s -> grown s s' r -> owned s' r.
Proof.
  intros I G. destruct (gr_layout _ _ _ G) as (L1 & L2 & L3 & _). destruct (gr_fresh _ _ _ G) as (B & _ & U & U').
  split; [unfold in_fs in *; by rewrite L1, L2, L3|]. split; [done|]. rewrite (gr_bitmaps _ _ _ G). by apply free_not_bitmap.
Qed.
Lemma owned_fresh s s' r b : grown s s' r -> owned s b -> b <> r.
Proof. intros G (_ & U & _) ->. destruct (gr_fresh _ _ _ G) as (_ & _ & U' & _). congruence. Qed.

(** The file with block [r] as block [n]. *)
Lemma extend_data s s' blocks blocks' r n : ext3_ok s -> file_ok s blocks -> grown s s' r -> length blocks' = 15%nat ->
  (forall id, tid_ok s id -> tab s' blocks' id = tab s blocks id) -> mapped s blocks n = 0 ->
  (forall m, 0 <= m < max_block s -> mapped s' blocks' m = if m =? n then r else mapped s blocks m) -> file_ok s' blocks'.
Proof.
  intros I F G L T M0 M. destruct (gr_layout _ _ _ G) as (_ & _ & _ & Lb).
  assert (Emax : max_block s' = max_block s) by (unfold max_block; by rewrite Lb).
  assert (Ok : forall id, tid_ok s' id -> tid_ok s id) by (intros []; cbn; by rewrite ?Lb).
  assert (Fr : forall m, 0 <= m < max_block s -> mapped s blocks m <> 0 -> mapped s blocks m <> r).
  { intros m Hm Nm. apply (owned_fresh _ _ _ _ G). by apply (fo_data _ _ F). }
  pose proof (gr_fresh _ _ _ G) as (_ & Nr & _ & _).
  split; [done|..]; rewrite ?Emax.
  - intros id Hid. rewrite T by auto. intros N. apply (grown_owned _ _ _ _ G). by apply (fo_tables _ _ F); auto.
  - intros id id' H1 H2. rewrite !T by auto. apply (fo_distinct _ _ F); auto.
  - intros m Hm. rewrite M by done. destruct (Z.eqb_spec m n); intros N; [by apply (grown_new s s')|].
    apply (grown_owned _ _ _ _ G). by apply (fo_data _ _ F).
  - intros m1 m2 H1 H2. rewrite !M by done. destruct (Z.eqb_spec m1 n), (Z.eqb_spec m2 n); intros N E; subst; try done.
    + destruct (Fr m2 H2); congruence.
    + destruct (Fr m1 H1); congruence.
    + by apply (fo_inj _ _ F).
  - intros m id Hm Hid. rewrite M, T by auto. destruct (Z.eqb_spec m n); intros N E.
    + assert (owned s r) as O. { rewrite E. apply (fo_tables _ _ F); [auto|congruence]. } by apply (owned_fresh _ _ _ _ G) in O.
    + by apply (fo_apart _ _ F m id Hm (Ok _ Hid) N).
Qed.

(** The file with the empty table [r] at place [t]. *)
Lemma extend_table s s' blocks blocks' r t : ext3_ok s -> file_ok s blocks -> grown s s' r -> length blocks' = 15%nat ->
  tab s blocks t = 0 -> tab s' blocks' t = r ->
  (forall id, tid_ok s id -> id <> t -> tab s' blocks' id = tab s blocks id) ->
  (forall m, 0 <= m < max_block s -> mapped s' blocks' m = mapped s blocks m) -> file_ok s' blocks'.
Proof.
  intros I F G L T0 Tr T M. destruct (gr_layout _ _ _ G) as (_ & _ & _ & Lb).
  assert (Emax : max_block s' = max_block s) by (unfold max_block; by rewrite Lb).
  assert (Ok : forall id, tid_ok s' id -> tid_ok s id) by (intros []; cbn; by rewrite ?Lb).
  assert (Dec : forall id, id = t \/ id <> t).
  { intros [| |i]; destruct t as [| |k]; try (by left); try (by right). destruct (Z.eq_dec i k) as [->|]; [by left|right; congruence]. }
  assert (Fr : forall id, tid_ok s id -> tab s blocks id <> 0 -> tab s blocks id <> r).
  { intros id Hid N. apply (owned_fresh _ _ _ _ G). by apply (fo_tables _ _ F). }
  pose proof (gr_fresh _ _ _ G) as (_ & Nr & _ & _).
  split; [done|..]; rewrite ?Emax.
  - intros id Hid N. destruct (Dec id) as [->|Ni]; [rewrite Tr; by apply (grown_new s s')|]. rewrite T in * by auto.
    apply (grown_owned _ _ _ _ G). by apply (fo_tables _ _ F); auto.
  - intros id id' H1 H2 N E. destruct (Dec id) as [->|N1], (Dec id') as [->|N2]; [done|..].
    + rewrite Tr, T in E by auto. destruct (Fr id'); auto. congruence.
    + rewrite Tr, T in E by auto. rewrite T in N by auto. destruct (Fr id); auto.
    + rewrite !T in * by auto. apply (fo_distinct _ _ F); auto.
  - intros m Hm. rewrite M by done. intros N. apply (grown_owned _ _ _ _ G). by apply (fo_data _ _ F).
  - intros m1 m2 H1 H2. rewrite !M by done. by apply (fo_inj _ _ F).
  - intros m id Hm Hid. rewrite M by done. intros N. destruct (Dec id) as [->|Ni].
    + rewrite Tr. apply (owned_fresh _ _ _ _ G). by apply (fo_data _ _ F).
    + rewrite T by auto. by apply (fo_apart _ _ F m id Hm (Ok _ Hid) N).
Qed.

(** *** Allocating for a file *)

Lemma allocated_grown s s' r : allocated s s' r -> grown s s' r.
Proof.
  intros A. destruct (al_fresh _ _ _ A) as (B & N & U). split.
  - apply (al_layout _ _ _ A).
  - split_and!; try done. rewrite (al_used _ _ _ A) by done. by rewrite Z.eqb_refl.
  - intros b Hb Ub. rewrite (al_used _ _ _ A), Ub by done. apply orb_true_r.
  - apply (al_bitmaps _ _ _ A).
Qed.

(** What Ext3BlockNew and Ext3BlockCreateTable do when there is a free
    block. *)
Definition allocates (f : ext3 -> outcome (Z * ext3)) : Prop := forall s, ext3_ok s -> 0 < sb_freeBlocks s ->
  exists r s', f s = Ret (r, s') /\ ext3_ok s' /\ allocated s s' r.

Lemma new_allocates : allocates Ext3BlockNew.
Proof. intros s. apply Ext3BlockNew_succeeds. Qed.

Lemma create_allocates : allocates Ext3BlockCreateTable.
Proof.
  intros s I Hs. destruct (Ext3BlockNew_succeeds s I Hs) as (r & s1 & E & I1 & A). unfold Ext3BlockCreateTable. rewrite E. cbn [bindO].
  destruct (eo_geom s1 I1) as (_ & _ & _ & _ & G6 & _ & _). destruct (al_fresh _ _ _ A) as (B & N & U).
  destruct (zero_block_ok s1 G6) as [Lz Fz].
  assert (Nb : ~ is_bitmap s1 r) by (rewrite (al_bitmaps _ _ _ A); by apply free_not_bitmap).
  destruct (ok_blk s1 r (zero_block s1) I1 Nb Lz Fz) as [I2 U2]. eexists r, _. split; [reflexivity|]. split; [done|].
  destruct (al_layout _ _ _ A) as (L1 & L2 & L3 & L4). split; try apply A; try done.
  - intros b Hb. rewrite U2 by (unfold in_fs in *; by rewrite L1, L2, L3). by apply (al_used _ _ _ A).
  - cbn. rewrite fn_lookup_insert. unfold zero_block. by rewrite L4.
  - intros b Nr Nbm. cbn. rewrite fn_lookup_insert_ne by done. by apply (al_other _ _ _ A).
  - destruct (al_logged _ _ _ A) as (m & Em & Bm & Dm & Cm). exists m. split_and!; [done| |done..]. intros b. cbn.
    destruct (decide (b = r)) as [->|]; [auto|]. rewrite fn_lookup_insert_ne by done. apply Bm.
Qed.

(** The state after allocating [r] and, when [t] is not 0, storing it in
    entry [i] of table [t]. *)
Record stored (s s' : ext3) (r t i : Z) : Prop := {
  st_grown : grown s s' r;
  st_zero : blk s' r = zero_block s;
  st_table : t <> 0 -> forall j, 0 <= j -> zlookup (blk s' t) j = if j =? i then Some r else zlookup (blk s t) j;
  st_other : forall b, b <> r -> b <> t -> ~ is_bitmap s b -> blk s' b = blk s b;
  st_counts : sb_freeBlocks s' = sb_freeBlocks s - 1;
  st_logged : logged (eq t) s s';
}.

Lemma allocated_stored s s' r i : allocated s s' r -> stored s s' r 0 i.
Proof.
  intros A. split; [by apply allocated_grown|apply A|done| |apply A|].
  - intros b Nr _. by apply (al_other _ _ _ A).
  - by apply (logged_weaken nothing), A.
Qed.
Lemma stored_mark s s' r t i b : stored s s' r t i -> stored s (mark b s') r t i.
Proof.
  intros St. split; try apply St.
  - destruct (st_grown _ _ _ _ _ St). by split.
  - destruct (st_logged _ _ _ _ _ St) as (m & E & B & D & C). exists (m ++ [b]). cbn. rewrite E, app_assoc.
    split_and!; [done|..]; intros; rewrite elem_of_app; [|left; auto..]. destruct (B _ H) as [|[]]; auto.
Qed.
Lemma mark_ok b s : ext3_ok s -> ext3_ok (mark b s).
Proof. intros []. by split. Qed.

Lemma alloc_into f s t i : allocates f -> ext3_ok s -> 0 < sb_freeBlocks s -> owned s t -> t <> 0 -> 0 <= i < blockSize s / 4 ->
  exists r s1 s2, f s = Ret (r, s1) /\ table_set t i r s1 = Ret s2 /\ ext3_ok s2 /\ stored s s2 r t i.
Proof.
  intros Hf I Hs Ho Nt Hi. destruct (Hf s I Hs) as (r & s1 & E & I1 & A). exists r, s1.
  destruct (al_layout _ _ _ A) as (L1 & L2 & L3 & L4). destruct (al_fresh _ _ _ A) as (B & N & U).
  assert (Ntr : t <> r) by (destruct Ho as (_ & Ut & _); congruence).
  assert (Et : blk s1 t = blk s t) by (apply (al_other _ _ _ A); [done|apply Ho]).
  destruct (eo_blk s I t) as [Lt Ft]. unfold table_set. rewrite zupdate_lt by (rewrite Et, Lt; lia). cbn [of_option bindO].
  assert (Nb1 : ~ is_bitmap s1 t) by (rewrite (al_bitmaps _ _ _ A); apply Ho).
  destruct (eo_geom s I) as (_ & G3 & _ & G5 & _).
  destruct (ok_blk s1 t (<[Z.to_nat i := r]> (blk s1 t)) I1 Nb1) as [I2 U2].
  { by rewrite length_insert, Et, L4, Lt. }
  { apply Forall_insert; [by rewrite Et|]. unfold is_word, in_fs in *. lia. }
  eexists. split; [done|]. split; [reflexivity|]. split; [done|]. split.
  - pose proof (allocated_grown _ _ _ A) as G.
    assert (Fs : forall b, in_fs s b -> in_fs s1 b) by (intros b; unfold in_fs; by rewrite L1, L2, L3).
    split; try apply G.
    + destruct (gr_fresh _ _ _ G) as (? & ? & ? & ?). split_and!; try done. by rewrite U2 by auto.
    + intros b Hb Ub. rewrite U2 by auto. by apply (gr_used _ _ _ G).
  - cbn. rewrite fn_lookup_insert_ne by done. apply A.
  - intros _ j Hj. cbn. rewrite fn_lookup_insert, Et. unfold zlookup. destruct (Z.leb_spec 0 j); [|lia].
    destruct (Z.eqb_spec j i) as [->|Nj]; [apply list_lookup_insert_eq; lia|]. apply list_lookup_insert_ne. lia.
  - intros b Nr Nbt Nbm. cbn. rewrite fn_lookup_insert_ne by done. by apply (al_other _ _ _ A).
  - cbn. apply A.
  - apply logged_set, A.
Qed.

Lemma zero_word s i : default 0 (zlookup (zero_block s) i) = 0.
Proof.
  unfold zlookup, zero_block. destruct (0 <=? i); [|done]. destruct (replicate _ _ !! _) eqn:E; [|done].
  by apply lookup_replicate in E as [-> _].
Qed.
Lemma word_new s s' r t i j : stored s s' r t i -> word_at s' r j = 0.
Proof. intros St. unfold word_at. destruct (r =? 0); [done|]. rewrite (st_zero _ _ _ _ _ St). apply zero_word. Qed.
Lemma word_keep s s' r t i b j : stored s s' r t i -> b = 0 \/ (owned s b /\ b <> t) -> word_at s' b j = word_at s b j.
Proof.
  intros St [->|[Ho Nt]]; [done|]. unfold word_at. destruct (b =? 0); [done|]. rewrite (st_other _ _ _ _ _ St); [done| |done|apply Ho].
  apply (owned_fresh _ _ _ _ (st_grown _ _ _ _ _ St) Ho).
Qed.
Lemma word_store s s' r t i j : stored s s' r t i -> t <> 0 -> 0 <= j -> word_at s' t j = if j =? i then r else word_at s t j.
Proof.
  intros St Nt Hj. unfold word_at. destruct (Z.eqb_spec t 0); [done|]. rewrite (st_table _ _ _ _ _ St Nt j Hj). by destruct (j =? i).
Qed.

Lemma place_ok s n : 4 <= blockSize s -> 12 <= n < max_block s ->
  tid_ok s (fst (place s n)) /\ 0 <= snd (place s n) < blockSize s / 4 /\ fst (place s n) <> Double.
Proof.
  intros B Hn. unfold place, max_block in *. assert (0 < blockSize s / 4) by (apply Z.div_str_pos; lia).
  destruct (Z.ltb_spec (n - 12) (blockSize s / 4)); cbn; [split_and!; try done; lia|].
  pose proof (Z.mod_pos_bound (n - 12 - blockSize s / 4) (blockSize s / 4) ltac:(lia)).
  split_and!; try done; try lia. { apply Z.div_pos; lia. } apply Z.div_lt_upper_bound; lia.
Qed.

Lemma place_inj s n m : 4 <= blockSize s -> place s n = place s m -> n = m.
Proof.
  intros B. unfold place. assert (0 < blockSize s / 4) by (apply Z.div_str_pos; lia).
  destruct (Z.ltb_spec (n - 12) (blockSize s / 4)), (Z.ltb_spec (m - 12) (blockSize s / 4)); intros [=]; [lia|].
  pose proof (Z.div_mod (n - 12 - blockSize s / 4) (blockSize s / 4) ltac:(lia)).
  pose proof (Z.div_mod (m - 12 - blockSize s / 4) (blockSize s / 4) ltac:(lia)). nia.
Qed.

Lemma ent_insert blocks k r j : length blocks = 15%nat -> 0 <= k < 15 -> 0 <= j ->
  ent (<[Z.to_nat k := r]> blocks) j = if j =? k then r else ent blocks j.
Proof.
  intros L Hk Hj. unfold ent, zlookup. destruct (Z.leb_spec 0 j); [|lia]. destruct (Z.eqb_spec j k) as [->|N].
  - rewrite list_lookup_insert_eq by lia. done.
  - by rewrite list_lookup_insert_ne by lia.
Qed.

Section Extend.
Context (s s' : ext3) (blocks : list Z) (r t i : Z).
Context (I : ext3_ok s) (F : file_ok s blocks) (St : stored s s' r t i) (Big : 4 <= blockSize s).

Lemma tab_owned id : tid_ok s id -> tab s blocks id = 0 \/ owned s (tab s blocks id).
Proof using F. intros Ok. destruct (Z.eq_dec (tab s blocks id) 0); [by left|]. right. by apply (fo_tables _ _ F). Qed.
Lemma tab_apart id id' : tid_ok s id -> tid_ok s id' -> id <> id' -> tab s blocks id = 0 \/ tab s blocks id <> tab s blocks id'.
Proof using F.
  intros O1 O2 N. destruct (Z.eq_dec (tab s blocks id) 0); [by left|]. right. intros E. by apply N, (fo_distinct _ _ F).
Qed.
Lemma same_place n : place s' n = place s n.
Proof using St. destruct (gr_layout _ _ _ (st_grown _ _ _ _ _ St)) as (_ & _ & _ & Lb). unfold place. by rewrite Lb. Qed.
Lemma keep_table id j : tid_ok s id -> tab s blocks id = 0 \/ tab s blocks id <> t ->
  word_at s' (tab s blocks id) j = word_at s (tab s blocks id) j.
Proof using F St.
  intros Ok Hd. apply (word_keep _ _ _ _ _ _ _ St). destruct (tab_owned id Ok) as [->|O]; [by left|].
  destruct (Z.eq_dec (tab s blocks id) 0); [by left|]. right. split; [done|]. tauto.
Qed.

(** A direct block. *)
Lemma extend_direct n : t = 0 -> 0 <= n < 12 -> ent blocks n = 0 ->
  file_ok s' (<[Z.to_nat n := r]> blocks) /\ forall m, 0 <= m < max_block s ->
  mapped s' (<[Z.to_nat n := r]> blocks) m = if m =? n then r else mapped s blocks m.
Proof using I F St Big.
  intros T0 Hn E0. set (blocks' := <[Z.to_nat n := r]> blocks). pose proof (fo_length _ _ F) as L.
  assert (Et : forall k, 12 <= k -> ent blocks' k = ent blocks k).
  { intros k Hk. unfold blocks'. rewrite ent_insert by (done || lia). by destruct (Z.eqb_spec k n); [lia|]. }
  assert (T : forall id, tid_ok s id -> tab s' blocks' id = tab s blocks id).
  { intros [| |q] Ok; cbn [tab]; rewrite Et by lia; try done. apply (keep_table Double q); [done|]. rewrite T0. destruct (Z.eq_dec (tab s blocks Double) 0); tauto. }
  assert (M : forall m, 0 <= m < max_block s -> mapped s' blocks' m = if m =? n then r else mapped s blocks m).
  { intros m Hm. unfold mapped. destruct (Z.ltb_spec m 12).
    - unfold blocks'. rewrite ent_insert by (done || lia). done.
    - rewrite same_place. destruct (place_ok s m Big ltac:(lia)) as (Ok & _). rewrite T by done.
      destruct (Z.eqb_spec m n); [lia|]. apply keep_table; [done|]. rewrite T0. destruct (Z.eq_dec (tab s blocks (place s m).1) 0); tauto. }
  split; [|exact M]. apply (extend_data s s' blocks blocks' r n I F (st_grown _ _ _ _ _ St)); try done.
  - unfold blocks'. by rewrite length_insert.
  - unfold mapped. by destruct (Z.ltb_spec n 12); [|lia].
Qed.

(** A table at entry [k] of the inode. *)
Lemma extend_inode id k : t = 0 -> (id = Single /\ k = 12) \/ (id = Double /\ k = 13) -> ent blocks k = 0 ->
  file_ok s' (<[Z.to_nat k := r]> blocks) /\ tab s' (<[Z.to_nat k := r]> blocks) id = r /\ forall m, 0 <= m < max_block s ->
  mapped s' (<[Z.to_nat k := r]> blocks) m = mapped s blocks m.
Proof using I F St Big.
  intros T0 Hid E0. set (blocks' := <[Z.to_nat k := r]> blocks). pose proof (fo_length _ _ F) as L.
  assert (Hk : 12 <= k < 14) by (destruct Hid as [[_ ->]|[_ ->]]; lia).
  assert (Et : forall j, 0 <= j -> ent blocks' j = if j =? k then r else ent blocks j) by (intros j Hj; apply ent_insert; done || lia).
  assert (Tid : tab s blocks id = 0) by (destruct Hid as [[-> ->]|[-> ->]]; done).
  assert (Tr : tab s' blocks' id = r) by (destruct Hid as [[-> ->]|[-> ->]]; cbn [tab]; by rewrite Et by lia).
  assert (Kp : forall x j, tid_ok s x -> word_at s' (tab s blocks x) j = word_at s (tab s blocks x) j).
  { intros x j Ok. apply keep_table; [done|]. rewrite T0. destruct (Z.eq_dec (tab s blocks x) 0); tauto. }
  assert (T : forall x, tid_ok s x -> x <> id -> tab s' blocks' x = tab s blocks x).
  { intros x Ok Nx. destruct Hid as [[-> ->]|[-> ->]], x as [| |q]; cbn [tab] in *; rewrite ?Et by lia; try done.
    - change (ent blocks 13) with (tab s blocks Double). change (13 =? 12) with false. by apply (Kp Double).
    - rewrite Z.eqb_refl, (word_new _ _ _ _ _ _ St), E0. done. }
  assert (M : forall m, 0 <= m < max_block s -> mapped s' blocks' m = mapped s blocks m).
  { intros m Hm. unfold mapped. destruct (Z.ltb_spec m 12); [rewrite Et by lia; by destruct (Z.eqb_spec m k); [lia|]|].
    rewrite same_place. destruct (place_ok s m Big ltac:(lia)) as (Ok & Bi & Nd).
    destruct Hid as [[-> ->]|[-> ->]].
    - destruct (place s m) as [[| |q] j]; cbn [fst snd] in *; try done.
      + rewrite Tr, Tid, (word_new _ _ _ _ _ _ St). done.
      + rewrite T by done. by apply Kp.
    - rewrite T by done. by apply Kp. }
  split; [|done]. apply (extend_table s s' blocks blocks' r id I F (st_grown _ _ _ _ _ St)); try done.
  unfold blocks'. by rewrite length_insert.
Qed.

(** A block in entry [i] of a table. *)
Lemma extend_entry n : 12 <= n < max_block s -> t = tab s blocks (fst (place s n)) -> t <> 0 -> i = snd (place s n) ->
  mapped s blocks n = 0 -> file_ok s' blocks /\ forall m, 0 <= m < max_block s ->
  mapped s' blocks m = if m =? n then r else mapped s blocks m.
Proof using I F St Big.
  intros Hn Et Nt Ei M0. destruct (place_ok s n Big Hn) as (Okn & Bn & Ndn).
  assert (Kp : forall x j, tid_ok s x -> x <> fst (place s n) -> word_at s' (tab s blocks x) j = word_at s (tab s blocks x) j).
  { intros x j Ok Nx. apply keep_table; [done|]. rewrite Et. by apply tab_apart. }
  assert (T : forall x, tid_ok s x -> tab s' blocks x = tab s blocks x).
  { intros [| |q] Ok; try done. cbn [tab]. apply (Kp Double); [done|]. by apply not_eq_sym. }
  assert (M : forall m, 0 <= m < max_block s -> mapped s' blocks m = if m =? n then r else mapped s blocks m).
  { intros m Hm. unfold mapped. destruct (Z.ltb_spec m 12); [by destruct (Z.eqb_spec m n); [lia|]|].
    rewrite same_place. destruct (place_ok s m Big ltac:(lia)) as (Ok & Bi & Nd). rewrite T by done.
    destruct (Z.eqb_spec m n) as [->|Nm].
    - rewrite <- Et, (word_store _ _ _ _ _ _ St) by (done || lia). by rewrite Ei, Z.eqb_refl.
    - destruct (place s m) as [x j] eqn:Em. destruct (place s n) as [y k] eqn:En. cbn [fst snd] in *.
      assert (D : x = y \/ x <> y).
      { destruct x as [| |a], y as [| |b]; try (by left); try (by right). destruct (Z.eq_dec a b) as [->|]; [by left|right; congruence]. }
      destruct D as [->|Nx]; [|by apply Kp]. rewrite <- Et, (word_store _ _ _ _ _ _ St) by (done || lia).
      destruct (Z.eqb_spec j i) as [->|]; [|done]. destruct Nm. apply (place_inj s m n Big). congruence. }
  split; [|exact M]. apply (extend_data s s' blocks blocks r n I F (st_grown _ _ _ _ _ St)); try done. apply F.
Qed.

(** A table in entry [i] of the table of tables. *)
Lemma extend_sub : t = tab s blocks Double -> t <> 0 -> 0 <= i < blockSize s / 4 -> tab s blocks (Sub i) = 0 ->
  file_ok s' blocks /\ tab s' blocks (Sub i) = r /\ forall m, 0 <= m < max_block s -> mapped s' blocks m = mapped s blocks m.
Proof using I F St Big.
  intros Et Nt Hi T0. cbn [tab] in Et.
  assert (Ts : forall q, 0 <= q -> tab s' blocks (Sub q) = if q =? i then r else tab s blocks (Sub q)).
  { intros q Hq. cbn [tab]. rewrite <- Et. by apply (word_store _ _ _ _ _ _ St). }
  assert (Kp : forall x j, tid_ok s x -> x <> Double -> word_at s' (tab s blocks x) j = word_at s (tab s blocks x) j).
  { intros x j Ok Nx. apply keep_table; [done|]. rewrite Et. by apply (tab_apart x Double). }
  assert (T : forall x, tid_ok s x -> x <> Sub i -> tab s' blocks x = tab s blocks x).
  { intros [| |q] Ok Nx; try done. cbn in Ok. rewrite Ts by lia. destruct (Z.eqb_spec q i) as [->|]; done. }
  assert (Tr : tab s' blocks (Sub i) = r) by (rewrite Ts by lia; by rewrite Z.eqb_refl).
  assert (M : forall m, 0 <= m < max_block s -> mapped s' blocks m = mapped s blocks m).
  { intros m Hm. unfold mapped. destruct (Z.ltb_spec m 12); [done|].
    rewrite same_place. destruct (place_ok s m Big ltac:(lia)) as (Ok & Bi & Nd). destruct (place s m) as [x j]. cbn [fst snd] in *.
    destruct x as [| |q]; [by rewrite T by done; apply Kp|done|]. cbn in Ok. destruct (Z.eq_dec q i) as [->|Nq].
    - rewrite Tr, T0, (word_new _ _ _ _ _ _ St). done.
    - rewrite T by (done || congruence). by apply Kp. }
  split; [|done]. apply (extend_table s s' blocks blocks r (Sub i) I F (st_grown _ _ _ _ _ St)); try done. apply F.
Qed.
End Extend.

(** *** Ext3BlockMapHandle *)

Lemma ent_lookup s blocks k : file_ok s blocks -> 0 <= k < 15 -> zlookup blocks k = Some (ent blocks k).
Proof.
  intros F Hk. destruct (zlookup_lt blocks k) as [x E]; [rewrite (fo_length _ _ F); lia|]. unfold ent. by rewrite E.
Qed.
Lemma table_get_word s t i : ext3_ok s -> t <> 0 -> 0 <= i < blockSize s / 4 -> table_get t i s = Ret (word_at s t i).
Proof.
  intros I Nt Hi. destruct (eo_blk s I t) as [L _]. unfold table_get, word_at. destruct (zlookup_lt (blk s t) i) as [x ->]; [lia|].
  by destruct (Z.eqb_spec t 0).
Qed.
Lemma owned_int s b : ext3_ok s -> owned s b -> s32 b = b.
Proof. intros I (B & _). destruct (eo_geom s I) as (_ & G3 & G4 & G5 & _). unfold in_fs in B. apply s32_id. lia. Qed.

(** What a step of the mapping keeps. *)
Record kept (s : ext3) (blocks : list Z) (s' : ext3) (blocks' : list Z) : Prop := {
  kp_ok : ext3_ok s' /\ file_ok s' blocks';
  kp_size : blockSize s' = blockSize s;
  kp_used : forall b, in_fs s' b -> used s' b = false -> in_fs s b /\ used s b = false;
  kp_mapped : forall m, 0 <= m < max_block s -> mapped s' blocks' m = mapped s blocks m;
  kp_counts : sb_freeBlocks s - 1 <= sb_freeBlocks s';
}.

Lemma grown_kept s s' r b : grown s s' r -> in_fs s' b -> used s' b = false -> in_fs s b /\ used s b = false.
Proof.
  intros G B U. destruct (gr_layout _ _ _ G) as (L1 & L2 & L3 & _).
  assert (in_fs s b) by (unfold in_fs in *; by rewrite L1, L2, L3 in B). split; [done|].
  destruct (used s b) eqn:E; [|done]. by rewrite (gr_used _ _ _ G) in U.
Qed.

Lemma kept_refl s blocks : ext3_ok s -> file_ok s blocks -> kept s blocks s blocks.
Proof. intros I F. split; try done. lia. Qed.

Lemma inode_table_step s blocks id k : ext3_ok s -> file_ok s blocks -> 4 <= blockSize s -> 0 < sb_freeBlocks s ->
  (id = Single /\ k = 12) \/ (id = Double /\ k = 13) -> exists t blocks1 s1,
  inode_table true k blocks s = Ret (Some t, blocks1, s1) /\ kept s blocks s1 blocks1 /\ t <> 0 /\ tab s1 blocks1 id = t
  /\ (tab s blocks id <> 0 -> s1 = s /\ blocks1 = blocks) /\ logged nothing s s1.
Proof.
  intros I F B Hs Hid. assert (Hk : 12 <= k < 14) by (destruct Hid as [[_ ->]|[_ ->]]; lia).
  assert (Et : tab s blocks id = ent blocks k) by (destruct Hid as [[-> ->]|[-> ->]]; done).
  unfold inode_table. rewrite (ent_lookup s) by (done || lia). cbn [of_option bindO]. destruct (c_true (ent blocks k)) eqn:C.
  - apply c_true_spec in C. exists (ent blocks k), blocks, s. split_and!; try done; [by apply kept_refl|apply logged_refl].
  - apply c_true_false in C. destruct (create_allocates s I Hs) as (r & s1 & E & I1 & A). rewrite E. cbn [bindO].
    rewrite zupdate_lt by (rewrite (fo_length _ _ F); lia). cbn [of_option bindO].
    pose proof (allocated_stored s s1 r 0 A) as St.
    destruct (extend_inode s s1 blocks r 0 0 I F St B id k eq_refl Hid C) as (F1 & T1 & M1).
    exists r, (<[Z.to_nat k := r]> blocks), s1. split; [done|]. split.
    + split; [done|apply A| |done|rewrite (al_counts _ _ _ A); lia]. intros b. apply (grown_kept _ _ _ _ (st_grown _ _ _ _ _ St)).
    + split; [apply A|]. split; [done|]. split; [congruence|apply A].
Qed.

Lemma sub_table_step s blocks i : ext3_ok s -> file_ok s blocks -> 4 <= blockSize s -> 0 < sb_freeBlocks s ->
  tab s blocks Double <> 0 -> 0 <= i < blockSize s / 4 -> exists t s1,
  sub_table true (tab s blocks Double) i s = Ret (Some t, s1) /\ kept s blocks s1 blocks /\ t <> 0 /\ tab s1 blocks (Sub i) = t
  /\ (tab s blocks (Sub i) <> 0 -> s1 = s) /\ logged (eq (tab s blocks Double)) s s1.
Proof.
  intros I F B Hs Nt Hi. unfold sub_table. rewrite table_get_word by done. cbn [bindO].
  change (word_at s (tab s blocks Double) i) with (tab s blocks (Sub i)). destruct (c_true (tab s blocks (Sub i))) eqn:C.
  - apply c_true_spec in C. exists (tab s blocks (Sub i)), s. split_and!; try done; [by apply kept_refl|apply logged_refl].
  - apply c_true_false in C.
    destruct (alloc_into Ext3BlockCreateTable s (tab s blocks Double) i create_allocates I Hs) as (r & s1 & s2 & E1 & E2 & I2 & St); [|done|done|].
    { by apply (fo_tables _ _ F). }
    rewrite E1. cbn [bindO]. rewrite E2. cbn [bindO].
    destruct (extend_sub s s2 blocks r _ i I F St B eq_refl Nt Hi C) as (F2 & T2 & M2).
    exists r, s2. split; [done|]. split.
    + split; [done|apply (gr_layout _ _ _ (st_grown _ _ _ _ _ St))| |done|rewrite (st_counts _ _ _ _ _ St); lia].
      intros b. apply (grown_kept _ _ _ _ (st_grown _ _ _ _ _ St)).
    + split; [apply (gr_fresh _ _ _ (st_grown _ _ _ _ _ St))|]. split; [done|]. split; [congruence|apply St].
Qed.

(** Block [n] of the file is [r], which is new when there was none. *)
Record placed (s : ext3) (blocks : list Z) (s' : ext3) (blocks' : list Z) (n r : Z) : Prop := {
  pl_ok : ext3_ok s' /\ file_ok s' blocks';
  pl_value : r = mapped s' blocks' n /\ r <> 0;
  pl_other : forall m, 0 <= m < max_block s -> m <> n -> mapped s' blocks' m = mapped s blocks m;
  pl_old : mapped s blocks n <> 0 -> r = mapped s blocks n;
  pl_new : mapped s blocks n = 0 -> in_fs s r /\ used s r = false /\ blk s' r = zero_block s;
}.

Lemma table_entry_step s blocks n : ext3_ok s -> file_ok s blocks -> 4 <= blockSize s -> 0 < sb_freeBlocks s ->
  12 <= n < max_block s -> tab s blocks (fst (place s n)) <> 0 -> exists r s1,
  table_entry true (tab s blocks (fst (place s n))) (snd (place s n)) s = Ret (r, s1) /\ placed s blocks s1 blocks n r
  /\ (mapped s blocks n <> 0 -> s1 = s) /\ logged nothing s s1.
Proof.
  intros I F B Hs Hn Nt. destruct (place_ok s n B Hn) as (Ok & Bi & _). unfold table_entry. rewrite table_get_word by done. cbn [bindO].
  assert (Em : word_at s (tab s blocks (fst (place s n))) (snd (place s n)) = mapped s blocks n).
  { unfold mapped. by destruct (Z.ltb_spec n 12); [lia|]. }
  rewrite Em. destruct (c_true (mapped s blocks n)) eqn:C.
  - apply c_true_spec in C. rewrite (owned_int s) by (done || by apply (fo_data _ _ F); [lia|]).
    exists (mapped s blocks n), s. split; [done|]. split; [by split|]. split; [done|apply logged_refl].
  - apply c_true_false in C.
    destruct (alloc_into Ext3BlockNew s _ (snd (place s n)) new_allocates I Hs (fo_tables _ _ F _ Ok Nt) Nt Bi) as (r & s1 & s2' & E1 & E2 & I2' & St').
    rewrite E1. cbn [bindO]. rewrite E2. cbn [bindO]. pose proof (logged_mark s s2' _ (st_logged _ _ _ _ _ St')) as Lg.
    set (b := Block (tab s blocks (place s n).1)) in *. pose proof (stored_mark _ _ _ _ _ b St') as St.
    pose proof (mark_ok b _ I2') as I2. set (s2 := mark b s2') in *.
    destruct (extend_entry s s2 blocks r _ _ I F St B n Hn eq_refl Nt eq_refl C) as (F2 & M2).
    destruct (gr_fresh _ _ _ (st_grown _ _ _ _ _ St)) as (Br & Nr & Ur & _).
    rewrite (owned_int s2) by (done || by apply (grown_new s s2 r I (st_grown _ _ _ _ _ St))).
    exists r, s2. split; [done|]. split; [|split; [congruence|done]]. split.
    + done.
    + rewrite M2 by lia. by rewrite Z.eqb_refl.
    + intros m Hm Nm. rewrite M2 by done. by destruct (Z.eqb_spec m n).
    + congruence.
    + intros _. split_and!; try done. apply (st_zero _ _ _ _ _ St).
Qed.

(** A step that keeps the mapping before one that places block [n]. *)
Lemma kept_placed s blocks s1 blocks1 s2 blocks2 n r : 0 <= n < max_block s -> kept s blocks s1 blocks1 ->
  placed s1 blocks1 s2 blocks2 n r -> placed s blocks s2 blocks2 n r.
Proof.
  intros Hn K P. assert (Emax : max_block s1 = max_block s) by (unfold max_block; by rewrite (kp_size _ _ _ _ K)).
  split; try apply P.
  - intros m Hm Nm. rewrite (pl_other _ _ _ _ _ _ P) by (done || by rewrite Emax). by apply (kp_mapped _ _ _ _ K).
  - intros N. rewrite <- (kp_mapped _ _ _ _ K) in * by done. by apply (pl_old _ _ _ _ _ _ P).
  - intros E. rewrite <- (kp_mapped _ _ _ _ K) in E by done. destruct (pl_new _ _ _ _ _ _ P E) as (B & U & Z0).
    destruct (kp_used _ _ _ _ K r B U) as [B' U']. split_and!; try done. rewrite Z0. unfold zero_block. by rewrite (kp_size _ _ _ _ K).
Qed.

Lemma place_cases s n : 4 <= blockSize s <= 4096 -> 12 <= n < max_block s ->
  let e := blockSize s / 4 in
  if n - 12 <? e then place s n = (Single, n - 12)
  else n - 12 - e <? u32 (e * e) = true /\ place s n = (Sub ((n - 12 - e) / e), (n - 12 - e) mod e).
Proof.
  intros B Hn e. unfold place, max_block in *. fold e. fold e in Hn.
  assert (0 < e <= 1024) by (unfold e; Z.div_mod_to_equations; lia). destruct (Z.ltb_spec (n - 12) e); [done|].
  split; [|done]. rewrite u32_id by nia. destruct (Z.ltb_spec (n - 12 - e) (e * e)); [done|lia].
Qed.

(** The table of tables, when it gets the table for block [n]. *)
Definition new_entry (s : ext3) (blocks blocks' : list Z) (n b : Z) : Prop :=
  12 + blockSize s / 4 <= n /\ tab s blocks (fst (place s n)) = 0 /\ b = ent blocks' 13.

(** The result of mapping block [n] of a file with leave to create it. *)
Definition creates (s : ext3) (blocks : list Z) (n : Z) : Prop :=
  exists r blocks' s', Ext3BlockMapHandle blocks n VFS_MAP_CREATE s = Ret (r, blocks', s') /\ placed s blocks s' blocks' n r
  /\ (mapped s blocks n <> 0 -> s' = s /\ blocks' = blocks) /\ logged (new_entry s blocks blocks' n) s s'.

Lemma mapped_indirect s blocks n : 12 <= n -> mapped s blocks n = word_at s (tab s blocks (fst (place s n))) (snd (place s n)).
Proof. intros H. unfold mapped. by destruct (Z.ltb_spec n 12); [lia|]. Qed.
Lemma mapped_table s blocks n : 12 <= n -> mapped s blocks n <> 0 -> tab s blocks (fst (place s n)) <> 0.
Proof. intros H. rewrite mapped_indirect by done. unfold word_at. by destruct (Z.eqb_spec (tab s blocks (fst (place s n))) 0). Qed.

Lemma creates_direct s blocks n : ext3_ok s -> file_ok s blocks -> 4 <= blockSize s <= 4096 -> 0 <= n < max_block s -> 3 <= sb_freeBlocks s -> n < 12 -> creates s blocks n.
Proof.
  intros I F B Hn Hs L. unfold creates.
  unfold Ext3BlockMapHandle. change (c_true (Z.land VFS_MAP_CREATE VFS_MAP_CREATE)) with true. cbv zeta.
  destruct (Z.ltb_spec n 12); [|lia].
  rewrite (ent_lookup s) by (done || lia). cbn [of_option bindO].
  assert (Em : mapped s blocks n = ent blocks n) by (unfold mapped; by destruct (Z.ltb_spec n 12); [|lia]).
  rewrite Em. destruct (c_true (ent blocks n)) eqn:C.
  + apply c_true_spec in C. exists (ent blocks n), blocks, s. rewrite <- Em in *.
    rewrite (owned_int s) by (done || by apply (fo_data _ _ F)). split; [done|]. split; [by split|].
    split; [done|apply logged_refl].
  + apply c_true_false in C. destruct (Ext3BlockNew_succeeds s I) as (r & s1 & E & I1 & A); [lia|]. rewrite E. cbn [bindO].
    rewrite zupdate_lt by (rewrite (fo_length _ _ F); lia). cbn [of_option bindO].
    pose proof (allocated_stored s s1 r 0 A) as St.
    destruct (extend_direct s s1 blocks r 0 0 I F St ltac:(lia) n eq_refl ltac:(lia) C) as (F1 & M1).
    rewrite (owned_int s1) by (done || by apply (grown_new s s1 r I (st_grown _ _ _ _ _ St))).
    exists r, (<[Z.to_nat n := r]> blocks), s1. split; [done|].
    split; [|split; [congruence|by apply (logged_weaken nothing), A]]. destruct (al_fresh _ _ _ A) as (Br & Nr & Ur). split.
    * done.
    * rewrite M1 by lia. by rewrite Z.eqb_refl.
    * intros m Hm Nm. rewrite M1 by done. by destruct (Z.eqb_spec m n).
    * congruence.
    * intros _. split_and!; try done. apply A.
Qed.
Lemma creates_single s blocks n : ext3_ok s -> file_ok s blocks -> 4 <= blockSize s <= 4096 -> 12 <= n < max_block s -> 3 <= sb_freeBlocks s ->
  (n - 12 <? blockSize s / 4) = true -> creates s blocks n.
Proof.
  intros I F B Hn' Hs C. assert (Hn : 0 <= n < max_block s) by lia. pose proof (place_cases s n B Hn') as P. cbv zeta in P. pose proof (mapped_table s blocks n ltac:(lia)) as Old. unfold creates.
  unfold Ext3BlockMapHandle. change (c_true (Z.land VFS_MAP_CREATE VFS_MAP_CREATE)) with true. cbv zeta.
  destruct (Z.ltb_spec n 12); [lia|]. rewrite C in *.
  destruct (inode_table_step s blocks Single 12 I F ltac:(lia) ltac:(lia)) as (t & b1 & s1 & E1 & K1 & Nt & T1 & O1 & Lg1); [by left|].
  rewrite E1. cbn [bindO]. destruct (kp_ok _ _ _ _ K1) as [I1 F1]. pose proof (kp_counts _ _ _ _ K1).
  assert (Ep : place s1 n = place s n) by (unfold place; by rewrite (kp_size _ _ _ _ K1)).
  assert (Emax : max_block s1 = max_block s) by (unfold max_block; by rewrite (kp_size _ _ _ _ K1)).
  destruct (table_entry_step s1 b1 n I1 F1) as (r & s2 & E2 & Pl & O2 & Lg2); [rewrite (kp_size _ _ _ _ K1); lia|lia|lia| |].
  { rewrite Ep, P. cbn [fst]. by rewrite T1. }
  rewrite Ep, P in E2. cbn [fst snd] in E2. rewrite T1 in E2. rewrite E2. cbn [bindO].
  exists r, b1, s2. split; [done|]. split; [by apply (kept_placed s blocks s1 b1)|]. split.
  - intros N. rewrite P in Old. destruct (O1 (Old N)) as [-> ->]. split; [|done]. by apply O2.
  - apply (logged_weaken nothing); [done|]. by apply (logged_trans _ s s1 s2 (kp_used _ _ _ _ K1)).
Qed.
Lemma sub_double s blocks i : tab s blocks (Sub i) <> 0 -> tab s blocks Double <> 0.
Proof. cbn [tab]. unfold word_at. by destruct (Z.eqb_spec (ent blocks 13) 0). Qed.
Lemma creates_double s blocks n : ext3_ok s -> file_ok s blocks -> 4 <= blockSize s <= 4096 -> 12 <= n < max_block s -> 3 <= sb_freeBlocks s ->
  (n - 12 <? blockSize s / 4) = false -> creates s blocks n.
Proof.
  intros I F B Hn' Hs C. assert (Hn : 0 <= n < max_block s) by lia. pose proof (place_cases s n B Hn') as P. cbv zeta in P. pose proof (mapped_table s blocks n ltac:(lia)) as Old. unfold creates.
  unfold Ext3BlockMapHandle. change (c_true (Z.land VFS_MAP_CREATE VFS_MAP_CREATE)) with true. cbv zeta.
  destruct (Z.ltb_spec n 12); [lia|]. rewrite C in *.
  destruct P as [-> P]. destruct (place_ok s n ltac:(lia) Hn') as (Okp & Bi & _). rewrite P in Okp, Bi, Old. cbn in Okp, Bi.
  destruct (inode_table_step s blocks Double 13 I F ltac:(lia) ltac:(lia)) as (t & b1 & s1 & E1 & K1 & Nt & T1 & O1 & Lg1); [by right|].
  rewrite E1. cbn [bindO]. destruct (kp_ok _ _ _ _ K1) as [I1 F1]. pose proof (kp_counts _ _ _ _ K1). pose proof (kp_size _ _ _ _ K1) as Sz1.
  destruct (sub_table_step s1 b1 ((n - 12 - blockSize s / 4) / (blockSize s / 4)) I1 F1) as (t2 & s2 & E2 & K2 & Nt2 & T2 & O2 & Lg2);
    [rewrite Sz1; lia|lia|by rewrite T1|by rewrite Sz1|].
  rewrite T1 in E2. rewrite E2. cbn [bindO]. destruct (kp_ok _ _ _ _ K2) as [I2 F2]. pose proof (kp_counts _ _ _ _ K2).
  pose proof (kp_size _ _ _ _ K2) as Sz2.
  assert (Ep : place s2 n = place s n) by (unfold place; by rewrite Sz2, Sz1).
  assert (max_block s1 = max_block s /\ max_block s2 = max_block s) as [Em1 Em2] by (unfold max_block; by rewrite Sz2, Sz1).
  destruct (table_entry_step s2 b1 n I2 F2) as (r & s3 & E3 & Pl & O3 & Lg3); [rewrite Sz2, Sz1; lia|lia|lia| |].
  { rewrite Ep, P. cbn [fst]. by rewrite T2. }
  rewrite Ep, P in E3. cbn [fst snd] in E3. rewrite T2 in E3. rewrite E3. cbn [bindO].
  exists r, b1, s3. split; [done|]. split.
  * apply (kept_placed s blocks s1 b1); [done|done|]. apply (kept_placed s1 b1 s2 b1); [by rewrite Em1|done|done].
  * split.
    -- intros N. assert (Nd : tab s blocks Double <> 0) by apply (sub_double s blocks _ (Old N)).
       destruct (O1 Nd) as [-> ->]. assert (s2 = s) as -> by (apply O2; by apply Old). split; [|done]. by apply O3.
    -- apply (logged_trans _ s s1 s3 (kp_used _ _ _ _ K1)); [by apply (logged_weaken nothing)|].
       apply (logged_trans _ s1 s2 s3 (kp_used _ _ _ _ K2)); [|by apply (logged_weaken nothing)].
       destruct (Z.eq_dec (tab s blocks (Sub ((n - 12 - blockSize s / 4) / (blockSize s / 4)))) 0) as [Ez|Nz].
       ++ apply (logged_weaken (eq (tab s1 b1 Double))); [|exact Lg2]. intros b <-. unfold new_entry. rewrite P. apply Z.ltb_ge in C.
          split_and!; [lia|done..].
       ++ destruct (O1 (sub_double s blocks _ Nz)) as [-> ->]. rewrite (O2 Nz). apply logged_refl.
Qed.

(** C6: on a file system with three free blocks, mapping a block of a file with
    VFS_MAP_CREATE gives it a block of the disk, for direct blocks, through the table and
    through the table of tables: an existing one is kept and nothing changes, a new one was
    free and is zeroed, no other block of the file changes, no block is used twice by the
    file, and bitmaps and counts stay right, as the block cache shows them.  Every buffer it
    changes is given to BlockWrite or to the journal in the call, apart from blocks that were
    free and, when it gets an entry for a new table, the table of tables: that change is not
    marked for writing (balloc.c:254). *)
Theorem Ext3BlockMapHandle_creates s blocks n : ext3_ok s -> file_ok s blocks -> 4 <= blockSize s <= 4096 ->
  0 <= n < max_block s -> 3 <= sb_freeBlocks s -> exists r blocks' s',
  Ext3BlockMapHandle blocks n VFS_MAP_CREATE s = Ret (r, blocks', s') /\ placed s blocks s' blocks' n r
  /\ (mapped s blocks n <> 0 -> s' = s /\ blocks' = blocks) /\ logged (new_entry s blocks blocks' n) s s'.
Proof.
  intros I F B Hn Hs. fold (creates s blocks n). destruct (Z.ltb_spec n 12); [by apply creates_direct|].
  destruct (n - 12 <? blockSize s / 4) eqn:C; [apply creates_single|apply creates_double]; done || lia.
Qed.

(** Without VFS_MAP_CREATE the mapping is read and nothing changes; a block that is not
    there gives -1. *)
Theorem Ext3BlockMapHandle_reads s blocks n : ext3_ok s -> file_ok s blocks -> 4 <= blockSize s <= 4096 ->
  0 <= n < max_block s ->
  Ext3BlockMapHandle blocks n 0 s = Ret (if mapped s blocks n =? 0 then -1 else mapped s blocks n, blocks, s).
Proof.
  intros I F B Hn. unfold Ext3BlockMapHandle. change (c_true (Z.land 0 VFS_MAP_CREATE)) with false. cbv zeta.
  assert (Int : mapped s blocks n <> 0 -> s32 (mapped s blocks n) = mapped s blocks n).
  { intros N. apply (owned_int s); [done|]. by apply (fo_data _ _ F). }
  assert (Entry : forall t i, mapped s blocks n = word_at s t i -> t <> 0 -> 0 <= i < blockSize s / 4 ->
    table_entry false t i s = Ret (if mapped s blocks n =? 0 then -1 else mapped s blocks n, s)).
  { intros t i E Nt Hi. unfold table_entry. rewrite table_get_word, <- E by done. cbn [bindO]. unfold c_true.
    destruct (Z.eqb_spec (mapped s blocks n) 0); cbn; [done|]. by rewrite Int. }
  destruct (Z.ltb_spec n 12) as [L|L].
  - rewrite (ent_lookup s) by (done || lia). cbn [of_option bindO].
    assert (Em : mapped s blocks n = ent blocks n) by (unfold mapped; by destruct (Z.ltb_spec n 12); [|lia]).
    rewrite <- Em. unfold c_true. destruct (Z.eqb_spec (mapped s blocks n) 0); cbn; [done|]. by rewrite Int.
  - assert (Hn' : 12 <= n < max_block s) by lia. pose proof (place_cases s n B Hn') as P. cbv zeta in P.
    destruct (place_ok s n ltac:(lia) Hn') as (Okp & Bi & _).
    pose proof (mapped_indirect s blocks n ltac:(lia)) as Em.
    assert (Table : forall k, 12 <= k < 14 -> inode_table false k blocks s =
      Ret (if c_true (ent blocks k) then Some (ent blocks k) else None, blocks, s)).
    { intros k Hk. unfold inode_table. rewrite (ent_lookup s) by (done || lia). cbn. by destruct (c_true (ent blocks k)). }
    destruct (n - 12 <? blockSize s / 4).
    + rewrite P in Em, Bi. cbn [fst snd tab] in Em, Bi. rewrite Table by lia. cbn [bindO]. destruct (c_true (ent blocks 12)) eqn:C.
      * apply c_true_spec in C. by rewrite (Entry _ _ Em C Bi).
      * apply c_true_false in C. rewrite Em, C. done.
    + destruct P as [-> P]. rewrite P in Em, Bi, Okp. cbn [fst snd tab tid_ok] in Em, Bi, Okp. rewrite Table by lia. cbn [bindO].
      destruct (c_true (ent blocks 13)) eqn:C.
      * apply c_true_spec in C. unfold sub_table. rewrite table_get_word by done. cbn [bindO].
        destruct (c_true (word_at s (ent blocks 13) _)) eqn:C2; cbn [bindO].
        -- apply c_true_spec in C2. by rewrite (Entry _ _ Em C2 Bi).
        -- apply c_true_false in C2. rewrite Em, C2. done.
      * apply c_true_false in C. rewrite Em, C. done.
Qed.

(** *** Inodes *)

(** For a file, Ext3CreateINode takes the lowest free inode of the group of its directory,
    marks exactly it and counts it. *)
Theorem Ext3CreateINode_takes s g d n : 0 <= g < groupCount s -> zlookup (descs s) g = Some d ->
  Forall is_word (blk s (iNodeBitmap d)) -> 0 < iNodesPerGrp s <= 32 * Z.of_nat (length (blk s (iNodeBitmap d))) ->
  0 <= n < iNodesPerGrp s -> wbit (blk s (iNodeBitmap d)) n = false -> 0 < freeINodes d < 2 ^ 16 -> 0 < sb_freeInodes s < 2 ^ 32 ->
  groupCount s * iNodesPerGrp s < 2 ^ 32 -> exists i s', Ext3CreateINode g false s = Ret (Some (i + g * iNodesPerGrp s + 1, g), s')
  /\ 0 <= i <= n /\ wbit (blk s (iNodeBitmap d)) i = false /\ (forall k, 0 <= k < i -> wbit (blk s (iNodeBitmap d)) k = true)
  /\ (forall k, 0 <= k < iNodesPerGrp s -> wbit (blk s' (iNodeBitmap d)) k = (k =? i) || wbit (blk s (iNodeBitmap d)) k)
  /\ (forall b, b <> iNodeBitmap d -> blk s' b = blk s b)
  /\ descs s' = <[Z.to_nat g := set_inodes (freeINodes d - 1) (usedDirs d) d]> (descs s) /\ sb_freeInodes s' = sb_freeInodes s - 1
  /\ with_marked (marked s) (with_blk (blk s) (with_descs (descs s) (with_counts (sb_freeBlocks s') (sb_freeInodes s) s'))) = s
  /\ marked s' = marked s ++ [Block (iNodeBitmap d); GroupBuffer g; SuperBuffer]
  /\ length (blk s' (iNodeBitmap d)) = length (blk s (iNodeBitmap d)) /\ Forall is_word (blk s' (iNodeBitmap d)).
Proof.
  intros Hg Ed Fw Hl Hn Bn Hf Hs Hmax. unfold Ext3CreateINode.
  assert (Eg : Ext3GetGroupDesc g s = Ret (Some d)) by (unfold Ext3GetGroupDesc; destruct (Z.leb_spec (groupCount s) g); [lia|]; by rewrite Ed).
  rewrite Eg. cbn [bindO]. replace (c_true (freeINodes d)) with true by (symmetry; apply c_true_spec; lia). cbn [bindO].
  unfold Ext3INodeLoadBitmap. rewrite Eg. cbn [bindO].
  destruct (find_first_zero_least (blk s (iNodeBitmap d)) (iNodesPerGrp s) Fw) as (i & Ei & Bi & Q & Z0); [lia|Z.div_mod_to_equations; lia|].
  assert (Hi : i <= n). { destruct (Z.le_gt_cases i n); [done|]. rewrite Q in Bn by lia. done. }
  rewrite Ei. cbn [bindO]. destruct (Z.ltb_spec i (iNodesPerGrp s)); [|lia].
  destruct (set_bit_spec (blk s (iNodeBitmap d)) i true Fw) as (ws & Ew & Lw & Fws & Qw); [lia|].
  change (bool_value true) with 1 in Ew. rewrite Ew. cbn [bindO]. unfold update_desc. cbn [descs with_blk mark with_marked].
  destruct (zlookup_Some _ _ _ Ed) as [Bg Eg']. rewrite zupdate_lt by done. cbn [of_option bindO sb_freeInodes with_descs with_blk with_counts iNodesPerGrp mark with_marked].
  rewrite !u32_id by nia. assert (u16 (freeINodes d - 1) = freeINodes d - 1) as -> by (unfold u16; rewrite Z.mod_small; lia).
  eexists i, _. split; [reflexivity|]. split; [lia|]. split.
  { apply Z0. Z.div_mod_to_equations. lia. }
  split; [done|]. cbn. split_and!; try done.
  - intros k Hk. rewrite fn_lookup_insert, Qw by lia. by destruct (k =? i).
  - intros b Nb. by rewrite fn_lookup_insert_ne.
  - by destruct s.
  - by rewrite <- !app_assoc.
  - by rewrite fn_lookup_insert.
  - by rewrite fn_lookup_insert.
Qed.

(** ** A small file system *)

Module Demo.
(** One group of 32 blocks of 8 bytes from block 1 on; blocks 1 to 3 are in
    use, 3 is the block bitmap. *)
Definition desc : Ext3GroupDesc :=
  {| blockBitmap := 3; iNodeBitmap := 2; iNodeTable := 4; freeBlocks := 29; freeINodes := 20; usedDirs := 0 |}.
Definition volume : ext3 :=
  {| iNodesCount := 32; groupCount := 1; iNodesPerGrp := 32; firstDataBlock := 1; blocksPerGrp := 32; blockSize := 8;
     descs := [desc]; sb_freeBlocks := 29; sb_freeInodes := 20;
     blk := fun b => if b =? 3 then [7; 0] else if b =? 2 then [5; 0] else [0; 0]; marked := [] |}.

Lemma volume_desc g d : zlookup (descs volume) g = Some d -> g = 0 /\ d = desc.
Proof.
  intros E. destruct (zlookup_Some _ _ _ E) as [B _]. cbn in B. assert (g = 0) as -> by lia. cbn in E. by injection E as <-.
Qed.
Lemma volume_ok : ext3_ok volume.
Proof.
  split; cbn.
  - repeat split; lia.
  - done.
  - intros b. destruct (b =? 3); [|destruct (b =? 2)]; (split; [done|]); repeat constructor; unfold is_word; lia.
  - intros g d [-> ->]%volume_desc. split; [unfold in_fs; cbn; lia|]. split; vm_compute; reflexivity.
  - intros g h d e [-> ->]%volume_desc [-> ->]%volume_desc _. done.
  - done.
  - unfold in_fs. cbn. lia.
Qed.

Definition empty : list Z := replicate 15 0.
Lemma empty_ent k : ent empty k = 0.
Proof.
  unfold ent, zlookup. destruct (0 <=? k); [|done]. destruct (empty !! Z.to_nat k) eqn:E; [|done].
  by apply lookup_replicate in E as [-> _].
Qed.
Lemma empty_tab id : tab volume empty id = 0.
Proof. destruct id; cbn [tab]; by rewrite empty_ent. Qed.
Lemma empty_mapped n : mapped volume empty n = 0.
Proof. unfold mapped. rewrite empty_ent, empty_tab. by destruct (n <? 12). Qed.
Lemma empty_ok : file_ok volume empty.
Proof. by split; intros; rewrite ?empty_tab, ?empty_mapped in *. Qed.

Lemma Ext3BlockNew_takes_lowest_witness : exists r s', Ext3BlockNew volume = Ret (r, s') /\ ext3_ok s'
  /\ if r =? 0 then s' = volume /\ forall b, in_fs volume b -> used volume b = true else allocated volume s' r.
Proof. apply (Ext3BlockNew_takes_lowest volume volume_ok). Defined.

Lemma not_bitmap_2 : ~ is_bitmap volume 2.
Proof. intros (g & d & [_ ->]%volume_desc & E). done. Qed.

Lemma Ext3BlockFree_frees_witness : exists r s', Ext3BlockFree 2 volume = Ret (r, s') /\ ext3_ok s'
  /\ if decide (in_fs volume 2) then r = 0 /\ (forall b', in_fs volume b' -> used s' b' = negb (b' =? 2) && used volume b')
       /\ (forall b', ~ is_bitmap volume b' -> blk s' b' = blk volume b') /\ sb_freeBlocks s' = sb_freeBlocks volume + 1
     else r = - EIO /\ s' = volume.
Proof.
  apply (Ext3BlockFree_frees volume 2 volume_ok); [cbn; lia|]. intros _. split; [reflexivity|]. split; [apply not_bitmap_2|done].
Defined.

Lemma Ext3BlockTruncate_frees_by_index_witness : exists s', Ext3BlockTruncate 17 volume = Ret (0, s')
  /\ forall b, in_fs volume b -> used s' b = negb (b =? 2) && used volume b.
Proof.
  apply (Ext3BlockTruncate_frees_by_index volume 17 volume_ok); [lia|done|done|by vm_compute|reflexivity|apply not_bitmap_2|done].
Defined.

(** Block 17 is reached through the table of tables. *)
Lemma Ext3BlockMapHandle_creates_witness : exists r blocks' s',
  Ext3BlockMapHandle empty 17 VFS_MAP_CREATE volume = Ret (r, blocks', s') /\ placed volume empty s' blocks' 17 r
  /\ (mapped volume empty 17 <> 0 -> s' = volume /\ blocks' = empty) /\ logged (new_entry volume empty blocks' 17) volume s'.
Proof.
  apply (Ext3BlockMapHandle_creates volume empty 17 volume_ok empty_ok); try (vm_compute; lia); by vm_compute.
Defined.

(** Block 20 is the table of tables; its new entry is not marked for
    writing. *)
Example new_table_unmarked :
  match Ext3BlockMapHandle (<[13%nat := 20]> empty) 17 VFS_MAP_CREATE volume with
  | Ret (r, _, s') => (r, blk s' 20, filter (fun m => m <> GroupBuffer 0 /\ m <> SuperBuffer) (marked s'))
  | _ => (0, [], [])
  end = (5, [0; 4], [Block 3; Block 3; Block 4]).
Proof. vm_compute. reflexivity. Qed.

Lemma Ext3BlockMapHandle_reads_witness : Ext3BlockMapHandle empty 17 0 volume
  = Ret (if mapped volume empty 17 =? 0 then -1 else mapped volume empty 17, empty, volume).
Proof.
  apply (Ext3BlockMapHandle_reads volume empty 17 volume_ok empty_ok); try (vm_compute; lia); by vm_compute.
Defined.

Lemma Ext3CreateINode_takes_witness : exists i s', Ext3CreateINode 0 false volume = Ret (Some (i + 0 * 32 + 1, 0), s')
  /\ 0 <= i <= 6 /\ wbit [5; 0] i = false /\ (forall k, 0 <= k < i -> wbit [5; 0] k = true)
  /\ (forall k, 0 <= k < 32 -> wbit (blk s' 2) k = (k =? i) || wbit [5; 0] k)
  /\ (forall b, b <> 2 -> blk s' b = blk volume b)
  /\ descs s' = [set_inodes 19 0 desc] /\ sb_freeInodes s' = 19
  /\ with_marked [] (with_blk (blk volume) (with_descs [desc] (with_counts (sb_freeBlocks s') 20 s'))) = volume
  /\ marked s' = [Block 2; GroupBuffer 0; SuperBuffer]
  /\ length (blk s' 2) = 2%nat /\ Forall is_word (blk s' 2).
Proof.
  apply (Ext3CreateINode_takes volume 0 desc 6); cbn; try lia; try done. repeat constructor; unfold is_word; lia.
Defined.
End Demo.
