(* ===== verification/Ext3INode.v ===== *)
(** * The ext3 file system: inodes on the disk (fs/ext3/inode.c)

    The inode with number [id] is the entry [(id - 1) mod iNodesPerGrp] of
    the inode table of its group.  Ext3DirtyVNode writes what the vNode
    holds to its inode and Ext3ReadVNode fills a vNode from it.

    As in Ext3, a block is its 32-bit words and the buffers given to
    JournalDirtyMetadata are marked; an inode has 32 words.  The fields that share a word are
    the two halves of it. *)

From stdpp Require Import functions.
From S2P Require Import Prelude Bitmap Ext3.

(** ** Model *)

Definition VFS_ATTR_FILE : Z := 1.
Definition VFS_ATTR_DIR : Z := 2.
Definition VFS_ATTR_READ : Z := 4.
Definition VFS_ATTR_WRITE : Z := 8.

(** sizeof(struct Ext3GroupDesc) is 32 and sizeof(struct Ext3INode) 128. *)
Definition DESCS_PER_BLOCK (s : ext3) : Z := blockSize s / 32.
Definition INODES_PER_BLOCK (s : ext3) : Z := blockSize s / 128.

(** The fields of a vNode that come from its inode, with those of
    struct Ext3INodeInfo. *)
Record VNode := {
  id : Z;
  mode : Z;
  size : Z;
  aTime : Z;
  cTime : Z;
  mTime : Z;
  blocks : list Z;
  blockGroup : Z;
}.

(** The block and the index in it of the inode, after the error code. *)
Definition Ext3INodeGetLoc (id : Z) (s : ext3) : outcome (Z * Z * Z) :=
  let vNo := u32 (id - 1) in
  if iNodesCount s <? vNo then Ret (- EINVAL, 0, 0)
  else if iNodesPerGrp s =? 0 then Fault
  else
    let group := vNo / iNodesPerGrp s in
    if groupCount s <=? group then Ret (- EINVAL, 0, 0)
    else if (DESCS_PER_BLOCK s =? 0) || (INODES_PER_BLOCK s =? 0) then Fault
    else
      let groupDesc := group / DESCS_PER_BLOCK s in
      let desc := Z.land group (DESCS_PER_BLOCK s - 1) in
      let* d := of_option (zlookup (descs s) (groupDesc * DESCS_PER_BLOCK s + desc)) in
      let block := u32 (iNodeTable d + vNo mod iNodesPerGrp s / INODES_PER_BLOCK s) in
      Ret (0, block, vNo mod INODES_PER_BLOCK s).

(** Word [k] of the inode at index [i] of block [b]; the fields in 16 bits. *)
Definition inode_word (b i k : Z) (s : ext3) : outcome Z := table_get b (32 * i + k) s.
Definition low (w : Z) : Z := w mod 2 ^ 16.
Definition high (w : Z) : Z := w / 2 ^ 16.
Definition halves (l h : Z) : Z := l + h * 2 ^ 16.

Fixpoint inode_words (n : nat) (b i k : Z) (s : ext3) : outcome (list Z) :=
  match n with
  | O => Ret []
  | S n => let* w := inode_word b i k s in let* ws := inode_words n b i (k + 1) s in Ret (w :: ws)
  end.
Fixpoint set_inode_words (ws : list Z) (b i k : Z) (s : ext3) : outcome ext3 :=
  match ws with
  | [] => Ret s
  | w :: ws => let* s := table_set b (32 * i + k) w s in set_inode_words ws b i (k + 1) s
  end.

(** [alloc] says whether MemAlloc has room for the private data. *)
Definition Ext3ReadVNode (alloc : bool) (id : Z) (s : ext3) : outcome (Z * option VNode) :=
  let* (err, b, i) := Ext3INodeGetLoc id s in
  if c_true err then Ret (err, None)
  else if negb alloc then Ret (- ENOMEM, None)
  else if iNodesPerGrp s =? 0 then Fault
  else
    let* bl := inode_words 15 b i 10 s in
    let* at_ := inode_word b i 2 s in
    let* ct := inode_word b i 3 s in
    let* mt := inode_word b i 4 s in
    let* m := inode_word b i 0 s in
    let m := Z.land (low m) 0xF000 in
    let* sz := inode_word b i 1 s in
    Ret (0, Some {| id := id;
      mode := Z.lor (Z.lor VFS_ATTR_WRITE VFS_ATTR_READ)
                (if m =? 0x4000 then VFS_ATTR_DIR else if m =? 0x8000 then VFS_ATTR_FILE else 0);
      size := sz; aTime := at_; cTime := ct; mTime := mt; blocks := bl;
      blockGroup := u32 (id - 1) / iNodesPerGrp s |}).

Definition Ext3INodeUpdate (v : VNode) (b i : Z) (s : ext3) : outcome ext3 :=
  let* s := set_inode_words [u32 (aTime v); u32 (cTime v); u32 (mTime v)] b i 2 s in
  let* s := set_inode_words [u32 (size v)] b i 1 s in
  let* m := inode_word b i 0 s in
  let* s :=
    if c_true (Z.land (mode v) VFS_ATTR_DIR) then set_inode_words [halves 0x4000 (high m)] b i 0 s
    else if c_true (Z.land (mode v) VFS_ATTR_FILE) then set_inode_words [halves 0x8000 (high m)] b i 0 s
    else Ret s in
  let* g := inode_word b i 6 s in
  let* s := set_inode_words [halves (low g) 1] b i 6 s in
  if blockSize s =? 0 then Fault
  else
    let* s := set_inode_words [u32 (u64 (size v + blockSize s - 1) / blockSize s)] b i 7 s in
    let* s := set_inode_words (blocks v) b i 10 s in
    Ret (mark (Block b) s).

Definition Ext3INodeReserveWrite (v : VNode) (s : ext3) : outcome (Z * Z * Z) := Ext3INodeGetLoc (id v) s.

Definition Ext3DirtyVNode (v : VNode) (s : ext3) : outcome (Z * ext3) :=
  let* (err, b, i) := Ext3INodeReserveWrite v s in
  if c_true err then Ret (err, s)
  else let* s := Ext3INodeUpdate v b i s in Ret (0, s).

(** ** Writing words of one block *)

(** Only the contents of block [b] differ. *)
Definition changes (b : Z) (s s' : ext3) : Prop :=
  with_blk (blk s) s' = s /\ (forall b', b' <> b -> blk s' b' = blk s b')
  /\ length (blk s' b) = length (blk s b).

Lemma changes_refl b s : changes b s s.
Proof. split; [by destruct s|done]. Qed.
Lemma changes_trans b s1 s2 s3 : changes b s1 s2 -> changes b s2 s3 -> changes b s1 s3.
Proof.
  intros (E1 & B1 & L1) (E2 & B2 & L2). split_and!; [|intros b' N; by rewrite B2, B1|by rewrite L2].
  rewrite <- E1 at 2. rewrite <- E2 at 1. by destruct s3.
Qed.
Lemma changes_fields b s s' : changes b s s' ->
  iNodesCount s' = iNodesCount s /\ groupCount s' = groupCount s /\ iNodesPerGrp s' = iNodesPerGrp s
  /\ blockSize s' = blockSize s /\ descs s' = descs s /\ firstDataBlock s' = firstDataBlock s
  /\ blocksPerGrp s' = blocksPerGrp s /\ sb_freeBlocks s' = sb_freeBlocks s /\ sb_freeInodes s' = sb_freeInodes s
  /\ marked s' = marked s.
Proof. intros (<- & _). by destruct s'. Qed.

(** What [set_inode_words] leaves in the words of the block. *)
Definition spliced (p : Z) (ws l l' : list Z) : Prop :=
  forall j, 0 <= j -> zlookup l' j = if (p <=? j) && (j <? p + Z.of_nat (length ws)) then zlookup ws (j - p) else zlookup l j.

Lemma zlookup_cons {A} (x : A) l j : zlookup (x :: l) j = if j =? 0 then Some x else if j <? 0 then None else zlookup l (j - 1).
Proof.
  unfold zlookup. destruct (Z.eqb_spec j 0) as [->|]; [done|]. destruct (Z.ltb_spec j 0), (Z.leb_spec 0 j); try lia; [done|].
  destruct (Z.leb_spec 0 (j - 1)); [|lia]. by replace (Z.to_nat j) with (S (Z.to_nat (j - 1))) by lia.
Qed.

Lemma set_inode_words_spec ws : forall b i k s, 0 <= 32 * i + k ->
  32 * i + k + Z.of_nat (length ws) <= Z.of_nat (length (blk s b)) ->
  exists s', set_inode_words ws b i k s = Ret s' /\ changes b s s' /\ spliced (32 * i + k) ws (blk s b) (blk s' b).
Proof.
  induction ws as [|w ws IH]; intros b i k s H0 Hl; cbn [set_inode_words length] in *.
  - exists s. split; [done|]. split; [apply changes_refl|]. intros j Hj. cbn. zcases; cbn; done || lia.
  - unfold table_set. rewrite zupdate_lt by lia. cbn [of_option bindO].
    set (l1 := <[Z.to_nat (32 * i + k) := w]> (blk s b)). set (s1 := with_blk _ _).
    assert (B1 : blk s1 b = l1) by (cbn; by rewrite fn_lookup_insert).
    assert (L1 : length l1 = length (blk s b)) by apply length_insert.
    destruct (IH b i (k + 1) s1) as (s' & E & C & Q); [lia|rewrite B1; lia|].
    exists s'. split; [done|]. split.
    + apply (changes_trans b s s1); [|done]. split_and!; [by destruct s| |by rewrite B1].
      intros b' N. cbn. by rewrite fn_lookup_insert_ne.
    + intros j Hj. rewrite Q, B1 by done. rewrite zlookup_cons.
      assert (zlookup l1 j = if j =? 32 * i + k then Some w else zlookup (blk s b) j) as ->.
      { rewrite (zlookup_zupdate (blk s b) l1 (32 * i + k) j w); [done| |done]. apply zupdate_lt. lia. }
      cbn [length]. destruct (Z.leb_spec (32 * i + (k + 1)) j), (Z.ltb_spec j (32 * i + (k + 1) + Z.of_nat (length ws))),
        (Z.leb_spec (32 * i + k) j), (Z.ltb_spec j (32 * i + k + Z.of_nat (S (length ws)))); cbn [andb]; try lia;
        zcases; try lia; try done. f_equal. lia.
Qed.

(** What is read back. *)
Lemma inode_word_get b i k s w : zlookup (blk s b) (32 * i + k) = Some w -> inode_word b i k s = Ret w.
Proof. unfold inode_word, table_get. by intros ->. Qed.

Lemma inode_words_get n : forall b i k s ws, length ws = n ->
  (forall j, 0 <= j < Z.of_nat n -> zlookup (blk s b) (32 * i + k + j) = zlookup ws j) -> inode_words n b i k s = Ret ws.
Proof.
  induction n as [|n IH]; intros b i k s [|w ws] L Q; try done. cbn [inode_words length] in *.
  rewrite (inode_word_get b i k s w).
  2: { specialize (Q 0 ltac:(lia)). by rewrite Z.add_0_r in Q. }
  cbn [bindO]. rewrite (IH b i (k + 1) s ws); [done|lia|]. intros j Hj. specialize (Q (j + 1) ltac:(lia)).
  rewrite zlookup_cons in Q. destruct (Z.eqb_spec (j + 1) 0), (Z.ltb_spec (j + 1) 0); try lia.
  by replace (32 * i + (k + 1) + j) with (32 * i + k + (j + 1)) by lia; rewrite Q; f_equal; lia.
Qed.

(** ** Writing an inode *)

(** A vNode whose fields fit the inode, with one of the modes that the
    code gives to ext3 vNodes. *)
Record vnode_ok (v : VNode) : Prop := {
  vo_words : is_word (size v) /\ is_word (aTime v) /\ is_word (cTime v) /\ is_word (mTime v);
  vo_mode : mode v = Z.lor (Z.lor VFS_ATTR_WRITE VFS_ATTR_READ) VFS_ATTR_DIR
    \/ mode v = Z.lor (Z.lor VFS_ATTR_WRITE VFS_ATTR_READ) VFS_ATTR_FILE;
  vo_blocks : length (blocks v) = 15%nat /\ Forall is_word (blocks v);
}.

(** The type in the mode of an inode. *)
Definition inode_type (v : VNode) : Z := if c_true (Z.land (mode v) VFS_ATTR_DIR) then 0x4000 else 0x8000.

Definition words (l : list Z) : Prop := forall j w, zlookup l j = Some w -> is_word w.
Lemma words_Forall l : words l <-> Forall is_word l.
Proof.
  split.
  - intros H. apply Forall_lookup. intros k w E. apply (H (Z.of_nat k)). unfold zlookup.
    destruct (Z.leb_spec 0 (Z.of_nat k)); [|lia]. by rewrite Nat2Z.id.
  - intros H j w E. apply zlookup_Some in E as [_ E]. by apply (Forall_lookup_1 _ _ _ _ H E).
Qed.
Lemma spliced_words p ws l l' : spliced p ws l l' -> Forall is_word ws -> words l -> words l'.
Proof.
  intros Q Fw Wl j w E. destruct (zlookup_Some _ _ _ E) as [B _]. rewrite Q in E by lia.
  destruct ((p <=? j) && (j <? p + Z.of_nat (length ws))); [by apply (proj2 (words_Forall ws) Fw _ _ E)|by apply (Wl _ _ E)].
Qed.

Lemma halves_word l h : 0 <= l < 2 ^ 16 -> 0 <= h < 2 ^ 16 -> is_word (halves l h).
Proof. unfold is_word, halves. lia. Qed.
Lemma high_range w : is_word w -> 0 <= high w < 2 ^ 16.
Proof. unfold is_word, high. intros H. split; [apply Z.div_pos; lia|apply Z.div_lt_upper_bound; lia]. Qed.
Lemma low_range w : 0 <= low w < 2 ^ 16.
Proof. unfold low. apply Z.mod_pos_bound. lia. Qed.
Lemma low_halves l h : 0 <= l < 2 ^ 16 -> low (halves l h) = l.
Proof. intros H. unfold low, halves. rewrite Z.mod_add by lia. by apply Z.mod_small. Qed.
Lemma u32_word z : is_word (u32 z).
Proof. apply u32_range. Qed.

(** The inode is word [32 i] to word [32 i + 31]. *)
Record inode_written (v : VNode) (i : Z) (l l' : list Z) : Prop := {
  iw_mode : exists h, zlookup l' (32 * i) = Some (halves (inode_type v) h);
  iw_size : zlookup l' (32 * i + 1) = Some (size v);
  iw_atime : zlookup l' (32 * i + 2) = Some (aTime v);
  iw_ctime : zlookup l' (32 * i + 3) = Some (cTime v);
  iw_mtime : zlookup l' (32 * i + 4) = Some (mTime v);
  iw_blocks : forall j, 0 <= j < 15 -> zlookup l' (32 * i + 10 + j) = zlookup (blocks v) j;
  iw_other : forall j, 0 <= j -> ~ 32 * i <= j < 32 * i + 32 -> zlookup l' j = zlookup l j;
  iw_words : words l';
}.

Ltac set_words s' H :=
  match goal with |- context [set_inode_words ?ws ?b ?i ?k ?s] =>
    let E := fresh "E" in let C := fresh "C" in let L := fresh "L" in
    destruct (set_inode_words_spec ws b i k s) as (s' & E & C & H);
      [lia | repeat match goal with HL : length (blk _ _) = _ |- _ => rewrite HL end; cbn [length]; lia |];
    rewrite E; cbn [bindO]; clear E; pose proof (proj2 (proj2 C)) as L
  end.
(** Read a word through the writes before it. *)
Ltac through :=
  repeat match goal with H : spliced ?p ?ws ?l ?l' |- context [zlookup ?l' ?j] =>
    rewrite (H j) by lia; cbn [length];
    match goal with |- context [(?x <=? ?y) && (?z <? ?w)] =>
      destruct (Z.leb_spec x y), (Z.ltb_spec z w); try lia; cbn [andb] end
  end.

Lemma Ext3INodeUpdate_spec v b i s : vnode_ok v -> 0 <= i -> 32 * i + 32 <= Z.of_nat (length (blk s b)) ->
  words (blk s b) -> 0 < blockSize s ->
  exists s', Ext3INodeUpdate v b i s = Ret (mark (Block b) s') /\ changes b s s' /\ inode_written v i (blk s b) (blk s' b).
Proof.
  intros [(Ws & Wa & Wc & Wm) Hm [Lb Fb]] Hi Hl Hw Hb. unfold Ext3INodeUpdate.
  set_words s1 Q1. set_words s2 Q2.
  destruct (zlookup_lt (blk s2 b) (32 * i)) as [m Em]; [lia|].
  rewrite (inode_word_get b i 0 s2 m) by (by rewrite Z.add_0_r). cbn [bindO].
  assert (W2 : words (blk s2 b)).
  { apply (spliced_words _ _ _ _ Q2); [repeat constructor; apply u32_word|].
    apply (spliced_words _ _ _ _ Q1); [repeat constructor; apply u32_word|done]. }
  assert (Emode : (if c_true (Z.land (mode v) VFS_ATTR_DIR) then set_inode_words [halves 0x4000 (high m)] b i 0 s2
    else if c_true (Z.land (mode v) VFS_ATTR_FILE) then set_inode_words [halves 0x8000 (high m)] b i 0 s2 else Ret s2)
    = set_inode_words [halves (inode_type v) (high m)] b i 0 s2).
  { unfold inode_type. by destruct Hm as [-> | ->]. }
  rewrite Emode. clear Emode. set_words s3 Q3.
  destruct (zlookup_lt (blk s3 b) (32 * i + 6)) as [g Eg]; [lia|].
  rewrite (inode_word_get b i 6 s3 g) by done. cbn [bindO]. set_words s4 Q4.
  assert (C04 : changes b s s4) by (repeat (eapply changes_trans; [eassumption|]); apply changes_refl).
  destruct (changes_fields _ _ _ C04) as (_ & _ & _ & Bs & _). rewrite Bs.
  destruct (Z.eqb_spec (blockSize s) 0); [lia|]. set_words s5 Q5. set_words s6 Q6.
  exists s6. split; [done|]. split; [repeat (eapply changes_trans; [eassumption|]); apply changes_refl|].
  assert (0 <= inode_type v < 2 ^ 16) by (unfold inode_type; destruct (c_true _); lia).
  assert (W3 : words (blk s3 b)).
  { apply (spliced_words _ _ _ _ Q3); [|done]. apply Forall_singleton, halves_word; [done|]. apply high_range, (W2 _ _ Em). }
  assert (W4 : words (blk s4 b)).
  { apply (spliced_words _ _ _ _ Q4); [|done]. apply Forall_singleton, halves_word; [apply low_range|lia]. }
  assert (W5 : words (blk s5 b)) by (apply (spliced_words _ _ _ _ Q5); [repeat constructor; apply u32_word|done]).
  rewrite ?(u32_id (size v)), ?(u32_id (aTime v)), ?(u32_id (cTime v)), ?(u32_id (mTime v)) in * by done.
  split.
  - exists (high m). through. by replace (32 * i - (32 * i + 0)) with 0 by lia.
  - through. by rewrite Z.sub_diag.
  - through. by rewrite Z.sub_diag.
  - through. by replace (32 * i + 3 - (32 * i + 2)) with 1 by lia.
  - through. by replace (32 * i + 4 - (32 * i + 2)) with 2 by lia.
  - intros j Hj. through. f_equal. lia.
  - intros j Hj Nj. through; done.
  - by apply (spliced_words _ _ _ _ Q6).
Qed.

(** ** The inode tables *)

Definition table_blocks (s : ext3) : Z := iNodesPerGrp s / INODES_PER_BLOCK s.
Definition in_table (s : ext3) (d : Ext3GroupDesc) (b : Z) : Prop := iNodeTable d <= b < iNodeTable d + table_blocks s.

(** The geometry of a volume: the tables are whole blocks and disjoint. *)
Record inodes_ok (s : ext3) : Prop := {
  io_size : exists k, 7 <= k /\ blockSize s = 2 ^ k;
  io_groups : 0 < iNodesPerGrp s /\ iNodesPerGrp s mod INODES_PER_BLOCK s = 0 /\ 0 <= groupCount s
    /\ iNodesCount s = groupCount s * iNodesPerGrp s /\ iNodesCount s < 2 ^ 32 - 1;
  io_descs : Z.of_nat (length (descs s)) = groupCount s;
  io_blk : forall b, Z.of_nat (length (blk s b)) = blockSize s / 4 /\ words (blk s b);
  io_tables : forall g d, zlookup (descs s) g = Some d -> 0 <= iNodeTable d /\ iNodeTable d + table_blocks s < 2 ^ 32;
  io_disjoint : forall g h d e b, zlookup (descs s) g = Some d -> zlookup (descs s) h = Some e ->
    in_table s d b -> in_table s e b -> g = h;
}.

Lemma per_block s : inodes_ok s -> 0 < DESCS_PER_BLOCK s /\ 0 < INODES_PER_BLOCK s /\ blockSize s / 4 = 32 * INODES_PER_BLOCK s
  /\ exists k, 0 <= k /\ DESCS_PER_BLOCK s = 2 ^ k.
Proof.
  intros I. destruct (io_size s I) as (k & Hk & E). unfold DESCS_PER_BLOCK, INODES_PER_BLOCK. rewrite E.
  replace k with (7 + (k - 7)) by lia. rewrite Z.pow_add_r by lia. set (p := 2 ^ (k - 7)).
  assert (0 < p) by (apply Z.pow_pos_nonneg; lia).
  assert (2 ^ 7 * p / 32 = 4 * p /\ 2 ^ 7 * p / 128 = p /\ 2 ^ 7 * p / 4 = 32 * p) as (-> & -> & ->)
    by (Z.div_mod_to_equations; lia).
  split_and!; try lia. exists (k - 7 + 2). split; [lia|]. rewrite Z.pow_add_r by lia. lia.
Qed.

(** Every number outside the volume is refused; the others have a place. *)
Lemma Ext3INodeGetLoc_refuses s n : inodes_ok s -> 0 <= n < 2 ^ 32 -> ~ 1 <= n <= iNodesCount s ->
  Ext3INodeGetLoc n s = Ret (- EINVAL, 0, 0).
Proof.
  intros I Hn N. destruct (io_groups s I) as (Hp & _ & Hg & Ec & Hc). unfold Ext3INodeGetLoc.
  destruct (Z.eq_dec n 0) as [->|].
  { change (u32 (0 - 1)) with (2 ^ 32 - 1). destruct (Z.ltb_spec (iNodesCount s) (2 ^ 32 - 1)); [done|lia]. }
  rewrite u32_id by lia. destruct (Z.ltb_spec (iNodesCount s) (n - 1)); [done|].
  destruct (Z.eqb_spec (iNodesPerGrp s) 0); [lia|].
  assert (n - 1 = groupCount s * iNodesPerGrp s) as -> by lia. rewrite Z.div_mul by lia.
  destruct (Z.leb_spec (groupCount s) (groupCount s)); [done|lia].
Qed.

Definition inode_block (s : ext3) (d : Ext3GroupDesc) (n : Z) : Z :=
  iNodeTable d + (n - 1) mod iNodesPerGrp s / INODES_PER_BLOCK s.
Definition inode_slot (s : ext3) (n : Z) : Z := (n - 1) mod INODES_PER_BLOCK s.

Lemma Ext3INodeGetLoc_finds s n : inodes_ok s -> 1 <= n <= iNodesCount s ->
  exists d, zlookup (descs s) ((n - 1) / iNodesPerGrp s) = Some d /\ in_table s d (inode_block s d n)
    /\ Ext3INodeGetLoc n s = Ret (0, inode_block s d n, inode_slot s n)
    /\ 0 <= inode_slot s n /\ 32 * inode_slot s n + 32 <= Z.of_nat (length (blk s (inode_block s d n))).
Proof.
  intros I Hn. destruct (io_groups s I) as (Hp & Hm & Hg & Ec & Hc).
  destruct (per_block s I) as (Hd & Hi & E4 & k & Hk & Ek). unfold Ext3INodeGetLoc. rewrite u32_id by lia.
  destruct (Z.ltb_spec (iNodesCount s) (n - 1)); [lia|]. destruct (Z.eqb_spec (iNodesPerGrp s) 0); [lia|].
  set (g := (n - 1) / iNodesPerGrp s).
  assert (Hg' : 0 <= g < groupCount s).
  { split; [apply Z.div_pos; lia|]. apply Z.div_lt_upper_bound; lia. }
  destruct (Z.leb_spec (groupCount s) g); [lia|].
  destruct (Z.eqb_spec (DESCS_PER_BLOCK s) 0); [lia|]. destruct (Z.eqb_spec (INODES_PER_BLOCK s) 0); [lia|]. cbn [orb].
  assert (Z.land g (DESCS_PER_BLOCK s - 1) = g mod DESCS_PER_BLOCK s) as ->.
  { rewrite Ek. apply land_ones_mod; [done|]. rewrite Z.ones_equiv. lia. }
  replace (g / DESCS_PER_BLOCK s * DESCS_PER_BLOCK s + g mod DESCS_PER_BLOCK s) with g
    by (rewrite Z.mul_comm; by apply Z.div_mod).
  destruct (zlookup_lt (descs s) g) as [d Ed]; [rewrite (io_descs s I); lia|]. rewrite Ed. cbn [of_option bindO].
  destruct (io_tables s I g d Ed) as [T0 T1]. unfold table_blocks in T1.
  assert (Hb : 0 <= (n - 1) mod iNodesPerGrp s / INODES_PER_BLOCK s < iNodesPerGrp s / INODES_PER_BLOCK s).
  { pose proof (Z.mod_pos_bound (n - 1) (iNodesPerGrp s) Hp). split; [apply Z.div_pos; lia|].
    apply Z.div_lt_upper_bound; [done|]. apply Z.div_exact in Hm; lia. }
  exists d. split; [done|]. split; [unfold in_table, inode_block, table_blocks; lia|]. split; [rewrite u32_id by lia; done|].
  pose proof (Z.mod_pos_bound (n - 1) (INODES_PER_BLOCK s) Hi). unfold inode_slot.
  rewrite (proj1 (io_blk s I _)), E4. lia.
Qed.

(** No two inodes share a place. *)
Lemma inode_place_inj s n m d e : inodes_ok s -> 1 <= n <= iNodesCount s -> 1 <= m <= iNodesCount s ->
  zlookup (descs s) ((n - 1) / iNodesPerGrp s) = Some d -> zlookup (descs s) ((m - 1) / iNodesPerGrp s) = Some e ->
  in_table s d (inode_block s d n) -> in_table s e (inode_block s e m) ->
  inode_block s d n = inode_block s e m -> inode_slot s n = inode_slot s m -> n = m.
Proof.
  intros I Hn Hm Ed Ee Td Te Eb Es. destruct (io_groups s I) as (Hp & Hdiv & _).
  destruct (per_block s I) as (_ & Hi & _). rewrite <- Eb in Te.
  pose proof (io_disjoint s I _ _ d e _ Ed Ee Td Te) as Eg. rewrite Eg in Ed. assert (e = d) as -> by congruence.
  unfold inode_block, inode_slot in *. apply Z.mod_divide in Hdiv; [|lia].
  assert (Q : forall x, (x mod iNodesPerGrp s) mod INODES_PER_BLOCK s = x mod INODES_PER_BLOCK s).
  { intros x. by apply Z.mod_mod_divide. }
  assert ((n - 1) mod iNodesPerGrp s = (m - 1) mod iNodesPerGrp s).
  { rewrite (Z.div_mod ((n - 1) mod iNodesPerGrp s) (INODES_PER_BLOCK s)), (Z.div_mod ((m - 1) mod iNodesPerGrp s) (INODES_PER_BLOCK s)) by lia.
    rewrite !Q, Es. f_equal. f_equal. lia. }
  pose proof (Z.div_mod (n - 1) (iNodesPerGrp s)). pose proof (Z.div_mod (m - 1) (iNodesPerGrp s)). rewrite Eg in *. lia.
Qed.

(** ** Reading an inode *)

(** Ext3ReadVNode only looks at the words of the inode. *)
Lemma inode_words_ext n : forall b i k s s', (forall j, k <= j < k + Z.of_nat n -> inode_word b i j s = inode_word b i j s') ->
  inode_words n b i k s = inode_words n b i k s'.
Proof.
  induction n as [|n IH]; intros b i k s s' E; [done|]. cbn [inode_words]. rewrite (E k) by lia.
  by rewrite (IH b i (k + 1) s s') by (intros; apply E; lia).
Qed.

Definition read_inode (n b i : Z) (s : ext3) : outcome (Z * option VNode) :=
  let* bl := inode_words 15 b i 10 s in
  let* at_ := inode_word b i 2 s in
  let* ct := inode_word b i 3 s in
  let* mt := inode_word b i 4 s in
  let* m := inode_word b i 0 s in
  let m := Z.land (low m) 0xF000 in
  let* sz := inode_word b i 1 s in
  Ret (0, Some {| id := n;
    mode := Z.lor (Z.lor VFS_ATTR_WRITE VFS_ATTR_READ)
              (if m =? 0x4000 then VFS_ATTR_DIR else if m =? 0x8000 then VFS_ATTR_FILE else 0);
    size := sz; aTime := at_; cTime := ct; mTime := mt; blocks := bl;
    blockGroup := u32 (n - 1) / iNodesPerGrp s |}).

Lemma read_inode_ext n b i s s' : 0 <= i -> iNodesPerGrp s' = iNodesPerGrp s ->
  (forall j, 32 * i <= j < 32 * i + 32 -> zlookup (blk s' b) j = zlookup (blk s b) j) -> read_inode n b i s' = read_inode n b i s.
Proof.
  intros Hi Ep Q. assert (E : forall k, 0 <= k < 32 -> inode_word b i k s' = inode_word b i k s).
  { intros k Hk. unfold inode_word, table_get. by rewrite Q by lia. }
  unfold read_inode. rewrite !E by lia. rewrite (inode_words_ext 15 b i 10 s' s) by (intros; apply E; lia). by rewrite Ep.
Qed.

Lemma Ext3ReadVNode_at s n d : inodes_ok s -> Ext3INodeGetLoc n s = Ret (0, inode_block s d n, inode_slot s n) ->
  Ext3ReadVNode true n s = read_inode n (inode_block s d n) (inode_slot s n) s.
Proof.
  intros I E. destruct (io_groups s I) as (Hp & _). unfold Ext3ReadVNode. rewrite E. cbn [bindO c_true Z.eqb negb].
  destruct (Z.eqb_spec (iNodesPerGrp s) 0); [lia|done].
Qed.

Lemma read_written v b i s l : vnode_ok v -> 0 <= id v - 1 < 2 ^ 32 -> blockGroup v = (id v - 1) / iNodesPerGrp s ->
  inode_written v i l (blk s b) -> read_inode (id v) b i s = Ret (0, Some v).
Proof.
  intros [_ Hm [Lb _]] Hid Hg [[h Em] Es Ea Ec Emt Eb _ _]. unfold read_inode.
  rewrite (inode_words_get 15 b i 10 s (blocks v) Lb) by (intros; apply Eb; lia). cbn [bindO].
  rewrite (inode_word_get _ _ _ _ _ Ea), (inode_word_get _ _ _ _ _ Ec), (inode_word_get _ _ _ _ _ Emt). cbn [bindO].
  rewrite (inode_word_get b i 0 s (halves (inode_type v) h)) by (by rewrite Z.add_0_r). cbn [bindO].
  rewrite (inode_word_get _ _ _ _ _ Es), low_halves by (unfold inode_type; destruct (c_true _); lia). cbn [bindO].
  rewrite u32_id, <- Hg by done. do 3 f_equal. destruct v as [n m ? ? ? ? ? ?]; cbn in *. f_equal.
  by destruct Hm as [-> | ->].
Qed.

Lemma inodes_ok_changes b s s' : inodes_ok s -> changes b s s' -> words (blk s' b) -> inodes_ok s'.
Proof.
  intros I C W. destruct (changes_fields _ _ _ C) as (E1 & E2 & E3 & E4 & E5 & _).
  destruct I. split; unfold table_blocks, in_table, table_blocks, INODES_PER_BLOCK in *; rewrite ?E1, ?E2, ?E3, ?E4, ?E5; try done.
  intros b'. destruct C as (_ & B & L). destruct (Z.eq_dec b' b) as [->|]; [|rewrite B by done; apply io_blk0].
  split; [rewrite L; apply io_blk0|done].
Qed.

Lemma mark_inodes_ok b s : inodes_ok s -> inodes_ok (mark b s).
Proof. intros []. by split. Qed.

Lemma Ext3DirtyVNode_spec s v : inodes_ok s -> vnode_ok v -> 1 <= id v <= iNodesCount s ->
  blockGroup v = (id v - 1) / iNodesPerGrp s ->
  exists s0 d b, let s' := mark (Block b) s0 in Ext3DirtyVNode v s = Ret (0, s') /\ inodes_ok s' /\ Ext3ReadVNode true (id v) s' = Ret (0, Some v)
    /\ (forall n, 0 <= n < 2 ^ 32 -> n <> id v -> Ext3ReadVNode true n s' = Ext3ReadVNode true n s)
    /\ zlookup (descs s) (blockGroup v) = Some d /\ in_table s d b /\ changes b s s0.
Proof.
  intros I Hv Hid Hg. destruct (Ext3INodeGetLoc_finds s (id v) I Hid) as (d & Ed & Td & E & H0 & Hl).
  destruct (io_groups s I) as (_ & _ & _ & _ & Hc). destruct (io_size s I) as (k & Hk & Ek).
  assert (0 < 2 ^ k) by (apply Z.pow_pos_nonneg; lia).
  destruct (Ext3INodeUpdate_spec v (inode_block s d (id v)) (inode_slot s (id v)) s Hv H0 Hl) as (s0 & Eu & C & W);
    [apply (io_blk s I)|lia|].
  set (b := inode_block s d (id v)) in *. set (s' := mark (Block b) s0).
  pose proof (mark_inodes_ok (Block b) _ (inodes_ok_changes _ s s0 I C (iw_words _ _ _ _ W))) as I'. fold s' in I'.
  destruct (changes_fields _ _ _ C) as (E1 & E2 & E3 & E4 & E5 & _).
  assert (Loc : forall n, Ext3INodeGetLoc n s' = Ext3INodeGetLoc n s).
  { intros n. unfold s', Ext3INodeGetLoc, DESCS_PER_BLOCK, INODES_PER_BLOCK. cbn [mark with_marked iNodesCount iNodesPerGrp groupCount blockSize descs].
    by rewrite E1, E2, E3, E4, E5. }
  assert (Blk : forall e n, inode_block s' e n = inode_block s e n /\ inode_slot s' n = inode_slot s n).
  { intros e n. unfold s', inode_block, inode_slot, INODES_PER_BLOCK. cbn [mark with_marked iNodesPerGrp blockSize]. by rewrite E3, E4. }
  assert (At : forall e n, Ext3INodeGetLoc n s = Ret (0, inode_block s e n, inode_slot s n) ->
    Ext3ReadVNode true n s' = read_inode n (inode_block s e n) (inode_slot s n) s').
  { intros e n En. destruct (Blk e n) as [<- <-]. apply Ext3ReadVNode_at; [done|]. rewrite Loc, En. by destruct (Blk e n) as [-> ->]. }
  exists s0, d, b. cbv zeta. fold s'. split_and!.
  - unfold Ext3DirtyVNode, Ext3INodeReserveWrite. rewrite E. cbn [bindO c_true Z.eqb negb]. rewrite Eu. done.
  - done.
  - rewrite (At d (id v) E). apply (read_written v _ _ s' (blk s (inode_block s d (id v))) Hv); [lia|change (iNodesPerGrp s') with (iNodesPerGrp s0); by rewrite E3|done].
  - intros n Hn Nn. destruct (decide (1 <= n <= iNodesCount s)) as [Vn|Vn].
    + destruct (Ext3INodeGetLoc_finds s n I Vn) as (e & Ee & Te & En & Hs & _).
      rewrite (At e n En), (Ext3ReadVNode_at s n e I En). apply read_inode_ext; [done|done|]. intros j Hj.
      destruct (Z.eq_dec (inode_block s e n) (inode_block s d (id v))) as [Eb|Nb]; [|change (blk s') with (blk s0); by rewrite (proj1 (proj2 C))].
      rewrite Eb. apply (iw_other _ _ _ _ W); [lia|]. intros Hj'. apply Nn.
      apply (inode_place_inj s n (id v) e d I Vn Hid Ee Ed Te Td Eb). lia.
    + unfold Ext3ReadVNode. by rewrite Loc, (Ext3INodeGetLoc_refuses s n I Hn Vn).
  - by rewrite Hg.
  - done.
  - done.
Qed.

(** C32: what Ext3DirtyVNode writes for a vNode, Ext3ReadVNode reads back, field by field; every other inode
    reads as before, or is refused as before, and no block outside the table of the group changes.  One block
    changes, and its buffer is given to the journal. *)
Theorem Ext3INode_roundtrip s v : inodes_ok s -> vnode_ok v -> 1 <= id v <= iNodesCount s ->
  blockGroup v = (id v - 1) / iNodesPerGrp s ->
  exists s' d, Ext3DirtyVNode v s = Ret (0, s') /\ inodes_ok s' /\ Ext3ReadVNode true (id v) s' = Ret (0, Some v)
    /\ (forall n, 0 <= n < 2 ^ 32 -> n <> id v -> Ext3ReadVNode true n s' = Ext3ReadVNode true n s)
    /\ zlookup (descs s) (blockGroup v) = Some d /\ (forall b, ~ in_table s d b -> blk s' b = blk s b)
    /\ exists b, marked s' = marked s ++ [Block b] /\ forall b', b' <> b -> blk s' b' = blk s b'.
Proof.
  intros I Hv Hid Hg. destruct (Ext3DirtyVNode_spec s v I Hv Hid Hg) as (s0 & d & b & E & I' & R & O & Ed & T & C).
  destruct (changes_fields _ _ _ C) as (_ & _ & _ & _ & _ & _ & _ & _ & _ & Em).
  exists (mark (Block b) s0), d. split_and!; try done.
  - intros b' Nb. apply (proj1 (proj2 C)). intros ->. done.
  - exists b. split; [cbn; by rewrite Em|apply C].
Qed.

(** ** A small volume *)

Module Demo.
(** One group with an inode table of two blocks of eight inodes. *)
Definition desc : Ext3GroupDesc :=
  {| blockBitmap := 3; iNodeBitmap := 2; iNodeTable := 4; freeBlocks := 29; freeINodes := 20; usedDirs := 0 |}.
Definition volume : ext3 :=
  {| iNodesCount := 16; groupCount := 1; iNodesPerGrp := 16; firstDataBlock := 1; blocksPerGrp := 32; blockSize := 1024;
     descs := [desc]; sb_freeBlocks := 29; sb_freeInodes := 20; blk := fun _ => replicate 256 0; marked := [] |}.
Definition node : VNode :=
  {| id := 12; mode := 14; size := 5000; aTime := 1; cTime := 2; mTime := 3;
     blocks := 7 :: 8 :: replicate 13 0; blockGroup := 0 |}.

Lemma zeros_words n : words (replicate n 0).
Proof. apply words_Forall, Forall_replicate. unfold is_word. lia. Qed.
Lemma inode_volume_ok : inodes_ok volume.
Proof.
  split.
  - by exists 10.
  - by vm_compute.
  - done.
  - intros b. split; [done|apply (zeros_words 256)].
  - intros g d E. cbn [descs volume] in E. destruct (zlookup_Some _ _ _ E) as [B _]. cbn in B. assert (g = 0) as -> by lia. injection E as <-. by vm_compute.
  - intros g h d e b Ed Ee _ _. cbn [descs volume] in *. destruct (zlookup_Some _ _ _ Ed) as [B _], (zlookup_Some _ _ _ Ee) as [B' _]. cbn in *. lia.
Qed.
Lemma node_ok : vnode_ok node.
Proof. split; [unfold is_word; cbn; lia|by left|]. split; [done|].
  apply Forall_cons. split; [unfold is_word; lia|]. apply Forall_cons. split; [unfold is_word; lia|].
  apply Forall_replicate. unfold is_word. lia.
Qed.

Lemma Ext3INode_roundtrip_witness : exists s' d, Ext3DirtyVNode node volume = Ret (0, s') /\ inodes_ok s'
  /\ Ext3ReadVNode true 12 s' = Ret (0, Some node)
  /\ (forall n, 0 <= n < 2 ^ 32 -> n <> 12 -> Ext3ReadVNode true n s' = Ext3ReadVNode true n volume)
  /\ zlookup [desc] 0 = Some d /\ (forall b, ~ in_table volume d b -> blk s' b = replicate 256 0)
  /\ exists b, marked s' = [Block b] /\ forall b', b' <> b -> blk s' b' = replicate 256 0.
Proof. apply (Ext3INode_roundtrip volume node inode_volume_ok node_ok); cbn; [lia|done]. Defined.
End Demo.
