(* ===== verification/KFs.v ===== *)
(** * The tree of the kernel's own file systems (fs/kfs/dir.c)

    IcFs and DevFs keep their files in a tree of KeFsEntry structures.  A
    directory is the member [dir] of its entry: a list of the entries in it
    and a pointer to the directory it is in.  Memory is a finite map from
    the addresses of entries; a pointer to a KeFsDir is the address of its
    entry plus the offset of the member.

    A name is the list of its characters without the NUL.  The result of
    MemAlloc is a parameter of the operations that allocate, 0 when there is
    no memory; the function a soft link points to and the callback of
    ReadDir are parameters as well. *)

From stdpp Require Import functions fin_maps fin_sets.
From S2P Require Import Prelude CString Ext3INode.

(** ** Model *)

Definition VFS_ATTR_SOFTLINK : Z := 128.

(** The union: [PNone] is memory nothing has been stored in. *)
Inductive payload :=
| PDir (entries : list Z) (parent : Z)
| PFile (file : Z)
| PLink (followLink : Z)
| PNone.

Record KeFsEntry := { type : Z; body : payload; name : option (list Z) }.
Definition with_body b e : KeFsEntry := {| type := type e; body := b; name := name e |}.
Definition with_type t e : KeFsEntry := {| type := t; body := body e; name := name e |}.

Notation kfs := (gmap Z KeFsEntry) (only parsing).

(** OffsetOf(struct KeFsEntry, dir). *)
Definition OFFSET_dir : Z := 12.
Definition dir_of (e : Z) : Z := u32 (e + OFFSET_dir).
Definition entry_of (d : Z) : Z := u32 (d - OFFSET_dir).

Definition get_entry (e : Z) (s : kfs) : outcome KeFsEntry := of_option (s !! e).
Definition get_dir (d : Z) (s : kfs) : outcome (list Z * Z) :=
  let* e := get_entry (entry_of d) s in
  match body e with PDir l p => Ret (l, p) | _ => Fault end.
Definition set_entries (d : Z) (l : list Z) (s : kfs) : outcome kfs :=
  let* e := get_entry (entry_of d) s in
  match body e with PDir _ p => Ret (<[entry_of d := with_body (PDir l p) e]> s) | _ => Fault end.

(** [strnicmp] on two strings given as lists of bytes; [Fault] where they
    end before the comparison. *)
Fixpoint strnicmp_bytes (n : nat) (a b : list Z) : outcome Z :=
  match n with
  | O => Ret 0
  | S n =>
      match a, b with
      | x :: a, y :: b =>
          let res := u8 (s8 (toupper (s8 x)) - s8 (toupper (s8 y))) in
          if c_true res then Ret res else strnicmp_bytes n a b
      | _, _ => Fault
      end
  end.
(** A string with its NUL. *)
Definition cstring (s : list Z) : list Z := s ++ [0].

(** The first entry of the list that [test] holds of. *)
Fixpoint find_in (test : KeFsEntry -> outcome bool) (l : list Z) (s : kfs) : outcome (option Z) :=
  match l with
  | [] => Ret None
  | e :: l =>
      let* x := get_entry e s in
      let* b := test x in
      if b then Ret (Some e) else find_in test l s
  end.

Definition KeFsDirSize (d : Z) (s : kfs) : outcome Z :=
  let* (l, _) := get_dir d s in Ret (s32 (Z.of_nat (length l))).

(** The tests of the loops below: the first [n] characters agree, and the
    names are of one length.  Whether strnicmp returns 0 does not depend on
    the order of its two strings. *)
Definition prefix_test (nm : list Z) (n : nat) (x : KeFsEntry) : outcome bool :=
  let* xn := of_option (name x) in
  let* r := strnicmp_bytes n (cstring xn) (cstring nm) in
  Ret (r =? 0).
Definition whole_test (nm : list Z) (n : nat) (x : KeFsEntry) : outcome bool :=
  let* b := prefix_test nm n x in
  let* xn := of_option (name x) in
  Ret (b && (Z.of_nat (length xn) =? Z.of_nat n)).

(** [nm] are the characters from the pointer [name] on, of which the
    first [nameLength] are the name. *)
Definition KeFsLookupDir (d : Z) (nm : list Z) (nameLength : Z) (s : kfs) : outcome (option Z) :=
  if (nameLength =? 2) && bool_decide (take 2 nm = [46; 46]) then
    let* (_, parent) := get_dir d s in Ret (Some (entry_of parent))
  else
    let* (l, _) := get_dir d s in
    find_in (whole_test nm (Z.to_nat nameLength)) l s.

Definition KeFsLookup (id : Z) (nm : list Z) (nameLength : Z) (s : kfs) : outcome (option Z) :=
  KeFsLookupDir (dir_of id) nm nameLength s.

Section Callbacks.
(** [followLink fn e] is what the function at [fn] returns and stores in
    [dest] when it is called with the entry [e]. *)
Context (followLink : Z -> Z -> Z * Z).

Fixpoint dir_lookup (nm : list Z) (n : nat) (l : list Z) (s : kfs) : outcome Z :=
  match l with
  | [] => Ret 0
  | e :: l =>
      let* x := get_entry e s in
      let as_dir :=
        if c_true (Z.land (type x) VFS_ATTR_DIR) then
          let* b := prefix_test nm n x in
          if b then Ret (dir_of e) else dir_lookup nm n l s
        else dir_lookup nm n l s in
      if c_true (Z.land (type x) VFS_ATTR_SOFTLINK) then
        let* b := prefix_test nm n x in
        if b then
          match body x with
          | PLink fn =>
              let '(r, dest) := followLink fn e in
              if c_true r then Ret 0
              else
                let* y := get_entry dest s in
                if c_true (Z.land (type y) VFS_ATTR_DIR) then Ret (dir_of dest) else as_dir
          | _ => Fault
          end
        else as_dir
      else as_dir
  end.
Definition KeFsDirLookup (nm : list Z) (nameLength : Z) (d : Z) (s : kfs) : outcome Z :=
  let* (l, _) := get_dir d s in dir_lookup nm (Z.to_nat nameLength) l s.

(** strchr(name, '/') as an offset. *)
Fixpoint slash_at (nm : list Z) : option nat :=
  match nm with
  | [] => None
  | c :: nm => if c =? 47 then Some O else option_map S (slash_at nm)
  end.
(** The directory (0 is NULL) and what is left of the name. *)
Fixpoint name_to_dir (fuel : nat) (d : Z) (nm : list Z) (s : kfs) : outcome (Z * list Z) :=
  match fuel with
  | O => NoFuel
  | S fuel =>
      match slash_at nm with
      | None => Ret (d, nm)
      | Some offset =>
          let* d := KeFsDirLookup nm (Z.of_nat offset) d s in
          if d =? 0 then Ret (0, nm)
          else name_to_dir fuel d (drop (S offset) nm) s
      end
  end.
Definition KeFsNameToDir (fuel : nat) (d : Z) (nm : list Z) (s : kfs) : outcome (Z * list Z) :=
  name_to_dir fuel d nm s.

(** The entry after [e] in the ring of a directory; the ring also goes
    through the list head, [None]. *)
Fixpoint after (e : Z) (l : list Z) : outcome (option Z) :=
  match l with [] => Fault | x :: l => if x =? e then Ret (head l) else after e l end.
Definition ring_next (e : option Z) (l : list Z) : outcome (option Z) :=
  match e with None => Ret (head l) | Some e => after e l end.
Fixpoint skip_entries (n : nat) (e : option Z) (l : list Z) : outcome (option Z) :=
  match n with
  | O => Ret e
  | S n => let* e := ring_next e l in skip_entries n e l
  end.

Context {A : Type} (fillDir : A -> list Z -> Z -> Z -> Z * A).

Fixpoint fill_entries (fuel : nat) (e : option Z) (position size : Z) (l : list Z) (a : A) (s : kfs) : outcome (Z * Z * A) :=
  match fuel with
  | O => NoFuel
  | S fuel =>
      if position <? size then
        let* e := of_option e in
        let* x := get_entry e s in
        let* nm := of_option (name x) in
        let '(ret, a) := fillDir a nm (Z.of_nat (length nm)) e in
        if ret <? 0 then Ret (ret, position, a)
        else
          let* e := ring_next (Some e) l in
          fill_entries fuel e (u32 (position + 1)) size l a s
      else Ret (0, position, a)
  end.
(** The result, the position of the file, the size of its vNode and what
    the callback has. *)
Definition KeFsReadDir (fuel : nat) (id position : Z) (a : A) (s : kfs) : outcome (Z * Z * Z * A) :=
  let d := dir_of id in
  let* size := KeFsDirSize d s in
  let size := u32 size in
  if size =? 0 then Ret (0, position, size, a)
  else
    let* (l, _) := get_dir d s in
    let* e := ring_next None l in
    let* e := skip_entries (Z.to_nat position) e l in
    let* (ret, position, a) := fill_entries fuel e position size l a s in
    Ret (ret, position, size, a).
End Callbacks.

(** [p] is the result of MemAlloc. *)
Definition KeFsAddDir (p d : Z) (nm : list Z) (s : kfs) : outcome (Z * kfs) :=
  let* (l, _) := get_dir d s in
  let* found := find_in (whole_test nm (length nm)) l s in
  match found with
  | Some e => Ret (e, s)
  | None =>
      if p =? 0 then Ret (0, s)
      else
        let s := <[p := {| type := Z.lor VFS_ATTR_DIR VFS_ATTR_READ; body := PDir [] d; name := Some nm |}]> s in
        let* s := set_entries d (l ++ [p]) s in
        Ret (p, s)
  end.

Definition KeFsAddEntry (p d : Z) (nm : list Z) (permissions : Z) (s : kfs) : outcome (Z * kfs) :=
  let* (l, _) := get_dir d s in
  let* found := find_in (prefix_test nm (length nm)) l s in
  match found with
  | Some _ => Ret (0, s)
  | None =>
      if p =? 0 then Ret (0, s)
      else
        let s := <[p := {| type := Z.lor VFS_ATTR_FILE permissions; body := PNone; name := Some nm |}]> s in
        let* s := set_entries d (l ++ [p]) s in
        Ret (p, s)
  end.

Definition KeFsInitRoot (root : Z) (s : kfs) : kfs :=
  <[root := {| type := Z.lor VFS_ATTR_DIR VFS_ATTR_READ; body := PDir [] 0; name := None |}]> s.

(** ListRemove of an entry that is on no list is a [Fault]. *)
Definition KeFsRemoveDir (e : Z) (s : kfs) : outcome (Z * kfs) :=
  if e =? 0 then Ret (- EFAULT, s)
  else
    let* x := get_entry e s in
    match name x with
    | None => Ret (- EFAULT, s)
    | Some _ =>
        if negb (c_true (Z.land (type x) VFS_ATTR_DIR)) then Ret (- ENOTDIR, s)
        else
          match body x with
          | PDir _ parent =>
              if parent =? 0 then Ret (- EPERM, s)
              else
                let* (l, _) := get_dir parent s in
                if bool_decide (e ∈ l) then
                  let* s := set_entries parent (filter (fun x => x <> e) l) s in Ret (0, s)
                else Fault
          | _ => Fault
          end
    end.

(** ** Names *)

Definition name_ok (nm : list Z) : Prop := Forall (fun c => 0 < c < 256) nm.
(** The characters strnicmp compares. *)
Definition up_char (c : Z) : Z := s8 (toupper (s8 c)).
Definition up (nm : list Z) : list Z := map up_char nm.

Lemma up_char_range c : - 128 <= up_char c < 128.
Proof. unfold up_char. unfold s8 at 1 3. pose proof (Z.mod_pos_bound (toupper (s8 c) + 2 ^ 7) (2 ^ 8) ltac:(lia)). lia. Qed.
Lemma up_char_0 : up_char 0 = 0.
Proof. done. Qed.
Lemma up_char_pos c : 0 < c < 256 -> up_char c <> 0.
Proof.
  intros H. unfold up_char, toupper. assert (s8 c = c \/ s8 c = c - 256) as E by (unfold s8; Z.div_mod_to_equations; lia).
  destruct ((97 <=? s8 c) && (s8 c <=? 122)) eqn:B.
  - apply andb_prop in B as [B1%Z.leb_le B2%Z.leb_le]. revert B1 B2. generalize (s8 c) as k. intros k B1 B2. unfold s8. rewrite (Z.mod_small (k - 32 + 2 ^ 7)) by lia. rewrite Z.mod_small; lia.
  - destruct E as [-> | ->]; unfold s8; Z.div_mod_to_equations; lia.
Qed.
Lemma c_true_diff a b : - 128 <= a < 128 -> - 128 <= b < 128 -> c_true (u8 (a - b)) = negb (a =? b).
Proof.
  intros. unfold c_true. f_equal. apply eq_true_iff_eq. rewrite !Z.eqb_eq. unfold u8. split; [|intros ->; by rewrite Z.sub_diag].
  Z.div_mod_to_equations. lia.
Qed.

Lemma up_length nm : length (up nm) = length nm.
Proof. apply length_map. Qed.

(** A comparison of the first [n] characters of a name that has as many. *)
Lemma strnicmp_bytes_spec n : forall a b, name_ok a -> name_ok b -> (n <= length b)%nat ->
  exists r, strnicmp_bytes n (cstring a) (cstring b) = Ret r /\ (r =? 0) = bool_decide (take n (up a) = take n (up b)).
Proof.
  induction n as [|n IH]; intros a b Ha Hb Hn; cbn [strnicmp_bytes].
  { exists 0. by rewrite bool_decide_eq_true_2. }
  destruct b as [|y b]; cbn [length] in Hn; [lia|]. apply Forall_cons in Hb as [Hy Hb].
  destruct a as [|x a]; cbn [cstring app].
  - fold (up_char 0) (up_char y). rewrite up_char_0, c_true_diff by (done || apply up_char_range).
    pose proof (up_char_pos y Hy). destruct (Z.eqb_spec 0 (up_char y)); [lia|]. cbn [negb]. eexists. split; [done|].
    pose proof (c_true_diff 0 (up_char y) ltac:(done) (up_char_range y)) as C. destruct (Z.eqb_spec 0 (up_char y)); [lia|].
    apply c_true_spec in C. rewrite (proj2 (Z.eqb_neq _ _) C). by rewrite bool_decide_eq_false_2.
  - apply Forall_cons in Ha as [Hx Ha]. fold (up_char x) (up_char y).
    pose proof (c_true_diff (up_char x) (up_char y) (up_char_range x) (up_char_range y)) as C.
    cbn [up map take]. fold (up a) (up b). destruct (Z.eqb_spec (up_char x) (up_char y)) as [E|E]; rewrite C; cbn [negb] in *.
    + destruct (IH a b Ha Hb ltac:(lia)) as (r & Er & Q). exists r. split; [done|]. rewrite Q. apply bool_decide_ext. rewrite E. split; congruence.
    + eexists. split; [done|]. apply c_true_spec in C. rewrite (proj2 (Z.eqb_neq _ _) C). rewrite bool_decide_eq_false_2; [done|]. intros [= ? _]. done.
Qed.

Lemma find_in_spec test (P : Z -> bool) s l : (forall e, e ∈ l -> exists x, s !! e = Some x /\ test x = Ret (P e)) ->
  exists r, find_in test l s = Ret r /\ match r with Some e => e ∈ l /\ P e = true | None => forall e, e ∈ l -> P e = false end.
Proof.
  induction l as [|e l IH]; intros H; cbn [find_in].
  - exists None. split; [done|]. intros e He. by apply elem_of_nil in He.
  - destruct (H e ltac:(left)) as (x & Ex & Et). unfold get_entry. rewrite Ex. cbn [of_option bindO]. rewrite Et. cbn [bindO].
    destruct (P e) eqn:Pe.
    + exists (Some e). split_and!; [done|left|done].
    + destruct IH as (r & Er & Hr); [intros; apply H; by right|]. exists r. split; [done|]. destruct r as [e'|].
      * split; [right|]; apply Hr.
      * intros e' [->|He']%elem_of_cons; [done|by apply Hr].
Qed.

(** ** What a tree is

    Directories are finite maps from names, the same in capital and small
    letters, to entries; every directory but the root is in one directory. *)

Record tree := { dirs : gmap Z (gmap (list Z) Z); parents : gmap Z Z }.
(** A new structure, of a directory that is to be in [d] or of a file; and
    new entries of the directory [d]. *)
Definition new_node (isdir : bool) (d c : Z) (T : tree) : tree :=
  if isdir then {| dirs := <[c := ∅]> (dirs T); parents := <[c := d]> (parents T) |} else T.
Definition set_children (d : Z) (m : gmap (list Z) Z) (T : tree) : tree :=
  {| dirs := <[d := m]> (dirs T); parents := parents T |}.

Implicit Types s : kfs.

(** The entries of one directory. *)
Record entries_ok s (l : list Z) (m : gmap (list Z) Z) : Prop := {
  en_nodup : NoDup l;
  en_in : forall e, e ∈ l -> exists x nm, s !! e = Some x /\ name x = Some nm /\ name_ok nm /\ m !! up nm = Some e;
  en_map : forall k e, m !! k = Some e -> e ∈ l /\ exists x nm, s !! e = Some x /\ name x = Some nm /\ up nm = k;
}.
Record dir_rep s T (e : Z) x (l : list Z) (p : Z) m : Prop := {
  dr_type : c_true (Z.land (type x) VFS_ATTR_DIR) = true;
  dr_link : c_true (Z.land (type x) VFS_ATTR_SOFTLINK) = false;
  dr_map : dirs T !! e = Some m;
  dr_entries : entries_ok s l m;
  dr_parent : match parents T !! e with
              | None => p = 0 /\ name x = None
              | Some q => p = dir_of q /\ is_Some (dirs T !! q) /\ is_Some (name x)
              end;
}.
Record kfs_rep s T : Prop := {
  kr_addr : forall e x, s !! e = Some x -> 0 < e /\ e + OFFSET_dir < 2 ^ 32;
  kr_dir : forall e x, s !! e = Some x ->
    match body x with
    | PDir l p => exists m, dir_rep s T e x l p m
    | _ => c_true (Z.land (type x) VFS_ATTR_DIR) = false /\ dirs T !! e = None
    end;
  kr_dom : forall e m, dirs T !! e = Some m -> is_Some (s !! e);
  kr_child : forall d m k c, dirs T !! d = Some m -> m !! k = Some c -> is_Some (dirs T !! c) -> parents T !! c = Some d;
}.

Lemma entry_of_dir e : 0 < e -> e + OFFSET_dir < 2 ^ 32 -> entry_of (dir_of e) = e.
Proof. unfold entry_of, dir_of, OFFSET_dir. intros. rewrite (u32_id (e + 12)) by lia. rewrite u32_id; lia. Qed.
Lemma dir_of_pos e : 0 < e -> e + OFFSET_dir < 2 ^ 32 -> dir_of e <> 0.
Proof. unfold dir_of, OFFSET_dir. intros. rewrite u32_id; lia. Qed.

Section Rep.
Context (s : kfs) (T : tree) (R : kfs_rep s T).

Lemma rep_dir d m : dirs T !! d = Some m -> exists x l p, s !! d = Some x /\ body x = PDir l p /\ dir_rep s T d x l p m /\ entry_of (dir_of d) = d.
Proof using R.
  intros H. destruct (kr_dom _ _ R _ _ H) as [x Ex]. pose proof (kr_dir _ _ R _ _ Ex) as D. destruct (kr_addr _ _ R _ _ Ex) as [A1 A2].
  destruct (body x) as [l p| | |] eqn:B; [|destruct D; congruence..]. destruct D as [m' D]. assert (m' = m) as -> by (pose proof (dr_map _ _ _ _ _ _ _ D); congruence).
  exists x, l, p. split_and!; try done. by apply entry_of_dir.
Qed.
Lemma rep_get_dir d m : dirs T !! d = Some m -> exists x l p, s !! d = Some x /\ body x = PDir l p /\ dir_rep s T d x l p m
  /\ entry_of (dir_of d) = d /\ get_dir (dir_of d) s = Ret (l, p).
Proof using R.
  intros H. destruct (rep_dir d m H) as (x & l & p & Ex & B & D & Eo). exists x, l, p. split_and!; try done. unfold get_dir, get_entry. rewrite Eo, Ex. cbn. by rewrite B.
Qed.

(** The search for a whole name. *)
Lemma find_whole d m x l p nm : dir_rep s T d x l p m -> name_ok nm ->
  find_in (whole_test nm (length nm)) l s = Ret (m !! up nm).
Proof.
  intros D Hn. destruct (dr_entries _ _ _ _ _ _ _ D) as [N I M]. edestruct (find_in_spec (whole_test nm (length nm)) (fun e => bool_decide (m !! up nm = Some e)) s l) as (r & -> & Hr).
  - intros e He. destruct (I e He) as (y & yn & Ey & En & Hyn & Em). exists y. split; [done|]. unfold whole_test, prefix_test. rewrite En. cbn [of_option bindO].
    destruct (strnicmp_bytes_spec (length nm) yn nm Hyn Hn (le_n _)) as (r & -> & Q). cbn [bindO]. f_equal. rewrite Q.
    rewrite (take_ge (up nm)) by (by rewrite up_length). apply eq_true_iff_eq. rewrite andb_true_iff, !bool_decide_eq_true, Z.eqb_eq. split.
    + intros [E1 E2%Nat2Z.inj]. rewrite take_ge in E1 by (rewrite up_length; lia). by rewrite <- E1.
    + intros E. destruct (M _ _ E) as (_ & y' & yn' & Ey' & En' & U). assert (up yn = up nm) as Eu by congruence. pose proof (f_equal length Eu) as El. rewrite !up_length in El. rewrite El.
      rewrite take_ge by (rewrite up_length; lia). done.
  - f_equal. destruct r as [e|].
    + destruct Hr as [_ Hr]. by apply bool_decide_eq_true in Hr.
    + destruct (m !! up nm) as [e|] eqn:E; [|done]. destruct (M _ _ E) as [He _]. specialize (Hr e He). by apply bool_decide_eq_false in Hr.
Qed.

(** A name of the map that begins with [nm]. *)
Definition has_prefix (nm : list Z) (m : gmap (list Z) Z) : bool := existsb (fun k => bool_decide (take (length nm) k = up nm)) (elements (dom m)).
Lemma has_prefix_spec nm m : has_prefix nm m = true <-> exists k e, m !! k = Some e /\ take (length nm) k = up nm.
Proof.
  unfold has_prefix. rewrite existsb_exists. split.
  - intros (k & Hk & E%bool_decide_eq_true). apply list_elem_of_In, elem_of_elements, elem_of_dom in Hk as [e He]. by exists k, e.
  - intros (k & e & He & E). exists k. split; [|by apply bool_decide_eq_true]. apply list_elem_of_In, elem_of_elements, elem_of_dom. by exists e.
Qed.
Lemma has_prefix_absent nm m : has_prefix nm m = false -> m !! up nm = None.
Proof.
  intros H. destruct (m !! up nm) eqn:E; [|done]. assert (has_prefix nm m = true) as H'; [|congruence].
  apply has_prefix_spec. eexists _, _. split; [exact E|]. rewrite take_ge; [done|by rewrite up_length].
Qed.
Lemma find_prefix d m x l p nm : dir_rep s T d x l p m -> name_ok nm ->
  exists r, find_in (prefix_test nm (length nm)) l s = Ret r /\ has_prefix nm m = bool_decide (is_Some r).
Proof.
  intros D Hn. destruct (dr_entries _ _ _ _ _ _ _ D) as [N I M].
  set (P := fun e => match s !! e with Some y => match name y with Some yn => bool_decide (take (length nm) (up yn) = up nm) | None => false end | None => false end).
  destruct (find_in_spec (prefix_test nm (length nm)) P s l) as (r & -> & Hr).
  - intros e He. destruct (I e He) as (y & yn & Ey & En & Hyn & Em). exists y. split; [done|]. unfold prefix_test, P. rewrite Ey, En. cbn [of_option bindO].
    destruct (strnicmp_bytes_spec (length nm) yn nm Hyn Hn (le_n _)) as (r & -> & Q). cbn [bindO]. rewrite Q. by rewrite (take_ge (up nm)) by (by rewrite up_length).
  - exists r. split; [done|]. apply eq_true_iff_eq. rewrite has_prefix_spec, bool_decide_eq_true. split.
    + intros (k & e & He & E). destruct r as [e'|]; [done|]. destruct (M _ _ He) as (Hin & y & yn & Ey & En & <-). specialize (Hr e Hin). unfold P in Hr. rewrite Ey, En in Hr.
      by apply bool_decide_eq_false in Hr.
    + intros [e ->]. destruct Hr as [Hin Hr]. destruct (I e Hin) as (y & yn & Ey & En & Hyn & Em). exists (up yn), e. split; [done|]. unfold P in Hr. rewrite Ey, En in Hr.
      by apply bool_decide_eq_true in Hr.
Qed.
End Rep.

(** ** The operations *)

(** The names are what counts of the entries of a directory. *)
Lemma entries_ok_agree s s' l m : (forall e x, s !! e = Some x -> exists x', s' !! e = Some x' /\ name x' = name x) ->
  entries_ok s l m -> entries_ok s' l m.
Proof.
  intros A [N I M]. split; [done| |].
  - intros e He. destruct (I e He) as (x & nm & Ex & En & Q). destruct (A e x Ex) as (x' & Ex' & En'). exists x', nm. by rewrite En'.
  - intros k e He. destruct (M k e He) as (Hin & x & nm & Ex & En & Q). split; [done|]. destruct (A e x Ex) as (x' & Ex' & En'). exists x', nm. by rewrite En'.
Qed.

(** A new structure that is on no list yet. *)
Definition new_entry (isdir : bool) (d : Z) (nm : list Z) (x : KeFsEntry) : Prop :=
  name x = Some nm /\ c_true (Z.land (type x) VFS_ATTR_DIR) = isdir
  /\ if isdir then body x = PDir [] (dir_of d) /\ c_true (Z.land (type x) VFS_ATTR_SOFTLINK) = false else body x = PNone.

Lemma new_node_rep s T isdir d m nm p x : kfs_rep s T -> dirs T !! d = Some m ->
  s !! p = None -> 0 < p -> p + OFFSET_dir < 2 ^ 32 -> new_entry isdir d nm x ->
  kfs_rep (<[p := x]> s) (new_node isdir d p T) /\ dirs (new_node isdir d p T) !! d = Some m.
Proof.
  intros R Hd Fp P1 P2 (X1 & X2 & X3). set (T' := new_node isdir d p T).
  assert (Dp : dirs T !! p = None). { destruct (dirs T !! p) eqn:E; [|done]. apply (kr_dom _ _ R) in E as [? E]. congruence. }
  assert (Ag : forall e z, s !! e = Some z -> exists z', <[p := x]> s !! e = Some z' /\ name z' = name z).
  { intros e z Ez. exists z. split; [|done]. rewrite lookup_insert_ne; congruence. }
  assert (DT : forall e, e <> p -> dirs T' !! e = dirs T !! e) by (intros e Ne; unfold T', new_node; destruct isdir; [cbn; by rewrite lookup_insert_ne|done]).
  assert (PT : forall e, e <> p -> parents T' !! e = parents T !! e) by (intros e Ne; unfold T', new_node; destruct isdir; [cbn; by rewrite lookup_insert_ne|done]).
  assert (Ne : forall e, is_Some (dirs T !! e) -> e <> p) by (intros e [? E] ->; congruence).
  assert (Nc : forall e m' k c, dirs T !! e = Some m' -> m' !! k = Some c -> c <> p).
  { intros e m' k c He Hc ->. destruct (rep_dir s T R e m' He) as (z & l & q & _ & _ & D & _).
    destruct (en_map _ _ _ (dr_entries _ _ _ _ _ _ _ D) _ _ Hc) as (_ & w & _ & Ew & _). congruence. }
  split; [split|by rewrite DT by auto].
  - intros e z. destruct (decide (e = p)) as [->|Np]; [done|]. rewrite lookup_insert_ne by done. apply (kr_addr _ _ R).
  - intros e z. destruct (decide (e = p)) as [->|Np].
    + rewrite lookup_insert_eq. intros [= <-]. destruct isdir; [destruct X3 as [X3 X4]|]; rewrite X3; [|done]. exists ∅. unfold T', new_node.
      split; cbn [dirs parents]; rewrite ?lookup_insert_eq; [done..| |].
      * split; [apply NoDup_nil_2|intros e He; by apply elem_of_nil in He|done].
      * split_and!; [done|rewrite lookup_insert_ne by (intros ->; congruence); by rewrite Hd|by rewrite X1].
    + rewrite lookup_insert_ne by done. intros Ez. pose proof (kr_dir _ _ R e z Ez) as K. destruct (body z); [|by rewrite DT by done..].
      destruct K as [m' [K1 KL K2 K3 K4]]. exists m'. split; [done|done|by rewrite DT|by apply (entries_ok_agree s)|].
      rewrite PT by done. destruct (parents T !! e); [|done]. destruct K4 as (? & ? & ?). split_and!; [done|rewrite DT by auto; done|done].
  - intros e m' He. destruct (decide (e = p)) as [->|Np]; [rewrite lookup_insert_eq; by eexists|]. rewrite lookup_insert_ne by done. rewrite DT in He by done.
    by apply (kr_dom _ _ R) in He.
  - intros e m' k c. destruct (decide (e = p)) as [->|Np]; [unfold T', new_node; destruct isdir; [cbn [dirs]; rewrite lookup_insert_eq; by intros [= <-]|by rewrite Dp]|].
    rewrite DT by done. intros He Hc. pose proof (Nc _ _ _ _ He Hc) as Np'. rewrite DT, PT by done. by apply (kr_child _ _ R e m' k c).
Qed.

(** Another list for the directory [d]. *)
Lemma relist_rep s T d m l q l' m' : kfs_rep s T -> dirs T !! d = Some m -> get_dir (dir_of d) s = Ret (l, q) -> entries_ok s l' m' ->
  (forall k c, m' !! k = Some c -> is_Some (dirs T !! c) -> parents T !! c = Some d) ->
  exists s', set_entries (dir_of d) l' s = Ret s' /\ kfs_rep s' (set_children d m' T) /\ dom s' = dom s /\ (forall e, e <> d -> s' !! e = s !! e).
Proof.
  intros R Hd Hg En Ch. destruct (rep_get_dir s T R d m Hd) as (y & l1 & q1 & Ey & By & D & Eo & Eg).
  rewrite Eg in Hg. injection Hg as -> ->. unfold set_entries, get_entry. rewrite Eo, Ey. cbn [of_option bindO]. rewrite By. eexists. split; [done|].
  set (s' := <[d:=_]> s).
  assert (Ag : forall e z, s !! e = Some z -> exists z', s' !! e = Some z' /\ name z' = name z).
  { intros e z Ez. destruct (decide (e = d)) as [->|Ne]; [exists (with_body (PDir l' q) y); split; [by apply lookup_insert_eq|cbn; congruence]|].
    exists z. split; [|done]. unfold s'. rewrite lookup_insert_ne; congruence. }
  assert (Sd : forall e, is_Some (dirs (set_children d m' T) !! e) <-> is_Some (dirs T !! e)).
  { intros e. cbn [set_children dirs]. destruct (decide (e = d)) as [->|Ne]; [rewrite lookup_insert_eq, Hd|by rewrite lookup_insert_ne]. split; by eexists. }
  split; [split|].
  - intros e z. unfold s'. destruct (decide (e = d)) as [->|Ne]; [intros _; by apply (kr_addr _ _ R d y)|]. rewrite lookup_insert_ne by done. apply (kr_addr _ _ R).
  - intros e z. unfold s' at 1. destruct (decide (e = d)) as [->|Ne].
    + rewrite lookup_insert_eq. intros [= <-]. exists m'. destruct D as [D1 DL D2 D3 D4]. split; [done|done|by apply lookup_insert_eq|by apply (entries_ok_agree s)|].
      cbn [set_children parents]. destruct (parents T !! d); [|done]. destruct D4 as (? & ? & ?). split_and!; [done|by apply Sd|done].
    + rewrite lookup_insert_ne by done. intros Ez. pose proof (kr_dir _ _ R e z Ez) as K. destruct (body z); [|by cbn [set_children dirs]; rewrite lookup_insert_ne by done..].
      destruct K as [m2 [K1 KL K2 K3 K4]]. exists m2. split; [done|done|cbn [set_children dirs]; by rewrite lookup_insert_ne|by apply (entries_ok_agree s)|].
      cbn [set_children parents]. destruct (parents T !! e); [|done]. destruct K4 as (? & ? & ?). split_and!; [done|by apply Sd|done].
  - intros e m2 He. assert (is_Some (dirs T !! e)) as [m3 H3] by (apply Sd; by exists m2). apply (kr_dom _ _ R) in H3 as [z Ez]. destruct (Ag e z Ez) as (z' & ? & _). by exists z'.
  - intros e m2 k c He Hc Hs. apply Sd in Hs. cbn [set_children dirs parents] in *. destruct (decide (e = d)) as [->|Ne].
    + rewrite lookup_insert_eq in He. injection He as <-. by apply (Ch k).
    + rewrite lookup_insert_ne in He by done. by apply (kr_child _ _ R e m2 k c).
  - split; [|intros e Ne; unfold s'; by rewrite lookup_insert_ne]. unfold s'. rewrite dom_insert_L. assert (d ∈ dom s) by (apply elem_of_dom; by rewrite Ey). set_solver.
Qed.

(** ** A tree of names

    The operations of a directory, with the result of MemAlloc where one
    allocates; [spec_op] says what they do to a tree. *)

Inductive op :=
| LookupOp (d : Z) (nm : list Z)
| AddDirOp (p d : Z) (nm : list Z)
| AddEntryOp (p d : Z) (nm : list Z) (permissions : Z)
| RemoveDirOp (e : Z).

Definition of_found (r : option Z) : Z := match r with Some e => e | None => 0 end.
Definition run_op (o : op) (s : kfs) : outcome (Z * kfs) :=
  match o with
  | LookupOp d nm => let* r := KeFsLookup d nm (Z.of_nat (length nm)) s in Ret (of_found r, s)
  | AddDirOp p d nm => KeFsAddDir p (dir_of d) nm s
  | AddEntryOp p d nm perms => KeFsAddEntry p (dir_of d) nm perms s
  | RemoveDirOp e => KeFsRemoveDir e s
  end.
Fixpoint run_ops (os : list op) (s : kfs) : outcome (list Z * kfs) :=
  match os with
  | [] => Ret ([], s)
  | o :: os => let* (r, s) := run_op o s in let* (rs, s) := run_ops os s in Ret (r :: rs, s)
  end.

Definition children (d : Z) (T : tree) : gmap (list Z) Z := default ∅ (dirs T !! d).
Definition spec_op (o : op) (T : tree) : Z * tree :=
  match o with
  | LookupOp d nm =>
      (if bool_decide (nm = [46; 46]) then default 0 (parents T !! d) else of_found (children d T !! up nm), T)
  | AddDirOp p d nm =>
      match children d T !! up nm with
      | Some e => (e, T)
      | None => if p =? 0 then (0, T) else (p, set_children d (<[up nm := p]> (children d T)) (new_node true d p T))
      end
  | AddEntryOp p d nm _ =>
      match children d T !! up nm with
      | Some _ => (0, T)
      | None => if p =? 0 then (0, T) else (p, set_children d (<[up nm := p]> (children d T)) (new_node false d p T))
      end
  | RemoveDirOp e =>
      if e =? 0 then (- EFAULT, T)
      else
        match dirs T !! e, parents T !! e with
        | None, _ => (- ENOTDIR, T)
        | _, None => (- EFAULT, T)
        | _, Some d => (0, set_children d (filter (fun kc => kc.2 <> e) (children d T)) T)
        end
  end.
Fixpoint spec_ops (os : list op) (T : tree) : list Z * tree :=
  match os with
  | [] => ([], T)
  | o :: os => let '(r, T) := spec_op o T in let '(rs, T) := spec_ops os T in (r :: rs, T)
  end.

(** MemAlloc returns memory that is not in use; [U] is what is. *)
Definition alloc_ok (U : gset Z) (p : Z) : Prop := p = 0 \/ (p ∉ U /\ 0 < p /\ p + OFFSET_dir < 2 ^ 32).
(** NULL, the root, or what is in a directory. *)
Definition removable (e : Z) (T : tree) : Prop :=
  e = 0 \/ (is_Some (dirs T !! e) /\ parents T !! e = None) \/ exists d k, children d T !! k = Some e.
(** The directories exist; ".." is not looked up in the root; the name of
    a new file is in the directory or begins no name that is in it; what
    is removed is in a directory and, when it is one itself, empty. *)
Definition op_ok (U : gset Z) (o : op) (T : tree) : Prop :=
  match o with
  | LookupOp d nm => is_Some (dirs T !! d) /\ name_ok nm /\ (nm = [46; 46] -> is_Some (parents T !! d))
  | AddDirOp p d nm => is_Some (dirs T !! d) /\ name_ok nm /\ alloc_ok U p
  | AddEntryOp p d nm perms => is_Some (dirs T !! d) /\ name_ok nm /\ alloc_ok U p /\ Z.land perms VFS_ATTR_DIR = 0
      /\ (has_prefix nm (children d T) = true -> is_Some (children d T !! up nm))
  | RemoveDirOp e =>
      removable e T /\ forall m d, dirs T !! e = Some m -> parents T !! e = Some d -> m = ∅
  end.
Definition used (U : gset Z) (o : op) : gset Z :=
  match o with AddDirOp p _ _ => {[p]} ∪ U | AddEntryOp p _ _ _ => {[p]} ∪ U | _ => U end.
Fixpoint ops_ok (U : gset Z) (os : list op) (T : tree) : Prop :=
  match os with
  | [] => True
  | o :: os => op_ok U o T /\ ops_ok (used U o) os (spec_op o T).2
  end.

Lemma KeFsLookupDir_name s T d m nm : kfs_rep s T -> dirs T !! d = Some m -> name_ok nm -> nm <> [46; 46] ->
  KeFsLookupDir (dir_of d) nm (Z.of_nat (length nm)) s = Ret (m !! up nm).
Proof.
  intros R Hd Nm Dd. destruct (rep_get_dir s T R d m Hd) as (x & l & p & Ex & B & D & Eo & Eg). unfold KeFsLookupDir. rewrite Eg. cbn [bindO].
  rewrite Nat2Z.id, (find_whole _ _ d m x l p nm D Nm). destruct (Z.eqb_spec (Z.of_nat (length nm)) 2) as [L|L]; [|done].
  rewrite take_ge by lia. by rewrite bool_decide_eq_false_2.
Qed.
Lemma KeFsLookup_spec s T d nm : kfs_rep s T -> op_ok (dom s) (LookupOp d nm) T ->
  run_op (LookupOp d nm) s = Ret ((spec_op (LookupOp d nm) T).1, s).
Proof.
  intros R ([m Hd] & Nm & Dd). cbn [run_op spec_op fst]. unfold KeFsLookup, children. rewrite Hd. change (default ∅ (Some m)) with m.
  case_bool_decide as E; [|by rewrite (KeFsLookupDir_name s T d m) by done]. destruct (rep_get_dir s T R d m Hd) as (x & l & p & Ex & B & D & Eo & Eg).
  subst nm. unfold KeFsLookupDir. rewrite Eg. cbn [length Z.of_nat Z.eqb andb bindO]. destruct (Dd eq_refl) as [q Eq]. rewrite Eq. change (default 0 (Some q)) with q.
  pose proof (dr_parent _ _ _ _ _ _ _ D) as P. rewrite Eq in P. destruct P as (-> & [m' Hq] & _).
  destruct (rep_dir s T R q m' Hq) as (? & ? & ? & _ & _ & _ & E). change (Z.of_nat 2 =? 2) with true. cbn. by rewrite E.
Qed.

(** A structure is allocated and put at the end of the list. *)
Lemma append_rep s T isdir d m nm p x l q : kfs_rep s T -> dirs T !! d = Some m -> get_dir (dir_of d) s = Ret (l, q) -> name_ok nm -> m !! up nm = None ->
  p <> 0 -> alloc_ok (dom s) p -> new_entry isdir d nm x ->
  exists s', set_entries (dir_of d) (l ++ [p]) (<[p := x]> s) = Ret s' /\ kfs_rep s' (set_children d (<[up nm := p]> m) (new_node isdir d p T))
    /\ dom s' = {[p]} ∪ dom s /\ s' !! p = Some x /\ (forall e, e <> d -> e <> p -> s' !! e = s !! e).
Proof.
  intros R Hd Hg Nm Fm P0 [->|(P1 & P2 & P3)] X; [done|]. apply not_elem_of_dom in P1. destruct (new_node_rep s T isdir d m nm p x R Hd P1 P2 P3 X) as [R1 Hd1].
  destruct (rep_get_dir s T R d m Hd) as (y & l1 & q1 & Ey & By & D & Eo & Eg). rewrite Eg in Hg. injection Hg as -> ->.
  assert (Hg1 : get_dir (dir_of d) (<[p := x]> s) = Ret (l, q)).
  { unfold get_dir, get_entry. rewrite Eo, lookup_insert_ne, Ey by congruence. cbn. by rewrite By. }
  destruct X as (X1 & X2 & X3). destruct (relist_rep _ _ d m l q (l ++ [p]) (<[up nm := p]> m) R1 Hd1 Hg1) as (s' & E & R' & Dm & Ag).
  - destruct (entries_ok_agree s (<[p := x]> s) l m) as [N I M]; [|apply (dr_entries _ _ _ _ _ _ _ D)|].
    { intros e z Ez. exists z. split; [|done]. rewrite lookup_insert_ne; congruence. }
    assert (Np : p ∉ l). { intros He. destruct (en_in _ _ _ (dr_entries _ _ _ _ _ _ _ D) _ He) as (? & ? & ? & _). congruence. }
    split.
    + apply NoDup_app. split_and!; [done| |apply NoDup_singleton]. intros e He ->%list_elem_of_singleton. done.
    + intros e [He| ->%list_elem_of_singleton]%elem_of_app.
      * destruct (I e He) as (z & zn & Ez & Enz & Hz & Em). exists z, zn. split_and!; try done. rewrite lookup_insert_ne; [done|]. intros E. congruence.
      * exists x, nm. by rewrite !lookup_insert_eq.
    + intros k e. destruct (decide (k = up nm)) as [->|Nk].
      * rewrite lookup_insert_eq. intros [= <-]. split; [set_solver|]. exists x, nm. by rewrite lookup_insert_eq.
      * rewrite lookup_insert_ne by done. intros He. destruct (M k e He) as [? ?]. split; [set_solver|done].
  - intros k c. destruct (decide (k = up nm)) as [->|Nk].
    + rewrite lookup_insert_eq. intros [= <-] [m' H']. unfold new_node in *. destruct isdir; cbn [dirs parents] in *; [by rewrite lookup_insert_eq|].
      apply (kr_dom _ _ R) in H' as [? ?]. congruence.
    + rewrite lookup_insert_ne by done. intros Hc Hs. by apply (kr_child _ _ R1 d m k c).
  - exists s'. split_and!; [done|done|by rewrite Dm, dom_insert_L|rewrite Ag by congruence; apply lookup_insert_eq|].
    intros e N1 N2. by rewrite Ag, lookup_insert_ne.
Qed.

Lemma KeFsAddDir_spec s T p d nm : kfs_rep s T -> op_ok (dom s) (AddDirOp p d nm) T ->
  exists s', run_op (AddDirOp p d nm) s = Ret ((spec_op (AddDirOp p d nm) T).1, s') /\ kfs_rep s' (spec_op (AddDirOp p d nm) T).2 /\ dom s' ⊆ {[p]} ∪ dom s.
Proof.
  intros R ([m Hd] & Nm & Al). destruct (rep_get_dir s T R d m Hd) as (x & l & q & Ex & B & D & Eo & Eg).
  cbn [run_op spec_op]. unfold KeFsAddDir, children. rewrite Eg, Hd. cbn [bindO]. change (default ∅ (Some m)) with m. rewrite (find_whole _ _ d m x l q nm D Nm). cbn [bindO].
  destruct (m !! up nm) as [e|] eqn:Em; [exists s; split_and!; [done|done|set_solver]|]. destruct (Z.eqb_spec p 0) as [|P0]; [exists s; split_and!; [done|done|set_solver]|].
  destruct (append_rep s T true d m nm p {| type := Z.lor VFS_ATTR_DIR VFS_ATTR_READ; body := PDir [] (dir_of d); name := Some nm |} l q R Hd Eg Nm Em P0 Al) as (s' & -> & R' & Dm & _); [done|].
  exists s'. rewrite Dm. by split_and!.
Qed.

Definition file_entry (nm : list Z) (permissions : Z) : KeFsEntry := {| type := Z.lor VFS_ATTR_FILE permissions; body := PNone; name := Some nm |}.
Lemma KeFsAddEntry_new s T p d m nm perms : kfs_rep s T -> dirs T !! d = Some m -> name_ok nm -> alloc_ok (dom s) p -> p <> 0 ->
  Z.land perms VFS_ATTR_DIR = 0 -> has_prefix nm m = false ->
  exists s', KeFsAddEntry p (dir_of d) nm perms s = Ret (p, s') /\ kfs_rep s' (set_children d (<[up nm := p]> m) T) /\ dom s' = {[p]} ∪ dom s
    /\ s' !! p = Some (file_entry nm perms) /\ (forall e, e <> d -> e <> p -> s' !! e = s !! e).
Proof.
  intros R Hd Nm Al P0 Pm Hp. destruct (rep_get_dir s T R d m Hd) as (x & l & q & Ex & B & D & Eo & Eg). unfold KeFsAddEntry. rewrite Eg. cbn [bindO].
  destruct (find_prefix _ _ d m x l q nm D Nm) as (r & -> & Hr). cbn [bindO]. rewrite Hp in Hr. destruct r as [e|]; [symmetry in Hr; apply bool_decide_eq_false in Hr; destruct Hr; by eexists|].
  rewrite (proj2 (Z.eqb_neq _ _) P0).
  pose proof (has_prefix_absent nm m Hp) as Em.
  destruct (append_rep s T false d m nm p (file_entry nm perms) l q R Hd Eg Nm Em P0 Al) as (s' & E & R' & Dm & Ep & Ag).
  { split_and!; [done|cbn [type file_entry]|done]. rewrite Z.land_lor_distr_l, Pm. done. }
  unfold file_entry in E at 1. rewrite E. cbn [bindO]. exists s'. by split_and!.
Qed.
(** A name that begins one of the directory is refused, whether or not the
    directory has it itself. *)
Lemma KeFsAddEntry_refuses s T p d m nm perms : kfs_rep s T -> dirs T !! d = Some m -> name_ok nm -> has_prefix nm m = true ->
  KeFsAddEntry p (dir_of d) nm perms s = Ret (0, s).
Proof.
  intros R Hd Nm Hp. destruct (rep_get_dir s T R d m Hd) as (x & l & q & Ex & B & D & Eo & Eg). unfold KeFsAddEntry. rewrite Eg. cbn [bindO].
  destruct (find_prefix _ _ d m x l q nm D Nm) as (r & -> & Hr). cbn [bindO]. rewrite Hp in Hr. destruct r as [e|]; [done|].
  symmetry in Hr. apply bool_decide_eq_true in Hr as [? ?]. done.
Qed.
Lemma KeFsAddEntry_no_memory s T d m nm perms : kfs_rep s T -> dirs T !! d = Some m -> name_ok nm ->
  KeFsAddEntry 0 (dir_of d) nm perms s = Ret (0, s).
Proof.
  intros R Hd Nm. destruct (rep_get_dir s T R d m Hd) as (x & l & q & Ex & B & D & Eo & Eg). unfold KeFsAddEntry. rewrite Eg. cbn [bindO].
  destruct (find_prefix _ _ d m x l q nm D Nm) as (r & -> & Hr). by destruct r.
Qed.
Lemma KeFsAddEntry_spec s T p d nm perms : kfs_rep s T -> op_ok (dom s) (AddEntryOp p d nm perms) T ->
  exists s', run_op (AddEntryOp p d nm perms) s = Ret ((spec_op (AddEntryOp p d nm perms) T).1, s') /\ kfs_rep s' (spec_op (AddEntryOp p d nm perms) T).2 /\ dom s' ⊆ {[p]} ∪ dom s.
Proof.
  intros R ([m Hd] & Nm & Al & Pm & Cl). cbn [run_op spec_op]. unfold children in *. rewrite Hd in *. change (default ∅ (Some m)) with m in *.
  destruct (has_prefix nm m) eqn:Hp.
  - destruct (Cl eq_refl) as [e ->]. exists s. rewrite (KeFsAddEntry_refuses s T p d m nm perms R Hd Nm Hp). split_and!; [done|done|set_solver].
  - rewrite (has_prefix_absent nm m Hp). destruct (Z.eqb_spec p 0) as [->|P0].
    + exists s. rewrite (KeFsAddEntry_no_memory s T d m nm perms R Hd Nm). split_and!; [done|done|set_solver].
    + destruct (KeFsAddEntry_new s T p d m nm perms) as (s' & -> & R' & Dm & _); try done. exists s'. rewrite Dm. by split_and!.
Qed.

Lemma KeFsRemoveDir_spec s T e : kfs_rep s T -> removable e T ->
  exists s', run_op (RemoveDirOp e) s = Ret ((spec_op (RemoveDirOp e) T).1, s') /\ kfs_rep s' (spec_op (RemoveDirOp e) T).2 /\ dom s' ⊆ dom s.
Proof.
  intros R Ok. cbn [run_op spec_op]. unfold KeFsRemoveDir. destruct (Z.eqb_spec e 0) as [->|E0]; [by exists s|].
  destruct Ok as [?|[[[m Hm] Ep]|(d & k & Ec)]]; [done| |].
  { destruct (rep_get_dir s T R e m Hm) as (x & l & q & Ex & B & D & Eo & Eg). rewrite Hm, Ep. unfold get_entry. rewrite Ex. cbn [of_option bindO].
    pose proof (dr_parent _ _ _ _ _ _ _ D) as P. rewrite Ep in P. destruct P as [_ ->]. by exists s. }
  unfold children in Ec. destruct (dirs T !! d) as [m|] eqn:Hd; [|done]. change (m !! k = Some e) in Ec.
  destruct (rep_get_dir s T R d m Hd) as (x & l & q & Ex & B & D & Eo & Eg). destruct (dr_entries _ _ _ _ _ _ _ D) as [N I M].
  destruct (M k e Ec) as (Hin & y & yn & Ey & En & Uy). unfold get_entry. rewrite Ey. cbn [of_option bindO]. rewrite En.
  pose proof (kr_dir _ _ R e y Ey) as K. destruct (body y) as [l2 p2| | |] eqn:By; [|destruct K as [-> ->]; by exists s..].
  destruct K as [m2 [K1 KL K2 K3 K4]]. rewrite K1, K2. cbn [negb]. pose proof (kr_child _ _ R d m k e Hd Ec ltac:(by rewrite K2)) as Ep.
  rewrite Ep in K4 |- *. destruct K4 as (-> & _ & _). destruct (kr_addr _ _ R d x Ex). rewrite (proj2 (Z.eqb_neq _ _)) by (by apply dir_of_pos).
  rewrite Eg. cbn [bindO]. rewrite bool_decide_eq_true_2 by done. unfold children. rewrite Hd. change (default ∅ (Some m)) with m.
  destruct (relist_rep s T d m l q (filter (fun x => x <> e) l) (filter (fun kc => kc.2 <> e) m) R Hd Eg) as (s' & -> & R' & Dm & _).
  - split.
    + by apply NoDup_filter.
    + intros c [Nc Hc]%list_elem_of_filter. destruct (I c Hc) as (z & zn & Ez & Enz & Hz & Em). exists z, zn. split_and!; try done. by apply map_lookup_filter_Some.
    + intros k' c [Hc Nc]%map_lookup_filter_Some. destruct (M k' c Hc) as [? ?]. split; [by apply list_elem_of_filter|done].
  - intros k' c [Hc _]%map_lookup_filter_Some. by apply (kr_child _ _ R d m k' c).
  - exists s'. cbn [bindO]. rewrite Dm. by split_and!.
Qed.

(** What is known about addresses only has to hold of more of them. *)
Lemma op_ok_mono U U' o T : U' ⊆ U -> op_ok U o T -> op_ok U' o T.
Proof. intros H. assert (forall p, alloc_ok U p -> alloc_ok U' p) as A by (intros p [?|(? & ? & ?)]; [by left|right; set_solver]). destruct o; cbn; naive_solver. Qed.

Lemma run_op_spec s T o : kfs_rep s T -> op_ok (dom s) o T ->
  exists s', run_op o s = Ret ((spec_op o T).1, s') /\ kfs_rep s' (spec_op o T).2 /\ dom s' ⊆ used (dom s) o.
Proof.
  intros R Ok. destruct o; [exists s; split_and!; [by apply KeFsLookup_spec|done|done]|by apply KeFsAddDir_spec|by apply KeFsAddEntry_spec|destruct Ok; by apply KeFsRemoveDir_spec].
Qed.
Lemma used_mono U U' o : U' ⊆ U -> used U' o ⊆ used U o.
Proof. destruct o; cbn; set_solver. Qed.

(** C13: The tree of the kernel's file systems is a tree of finite maps.  Every sequence of lookups, additions of directories and files
    and removals of empty directories, in directories that exist, returns what the same sequence on finite maps from names to entries
    returns, capital and small letters being the same, and leaves the structures in memory representing the resulting maps, as long as
    the name of a new file does not begin another name of its directory (such a name is refused) and ".." is not looked up in the root:
    a name that is there already is found by KeFsAddDir and refused by KeFsAddEntry, and no memory changes nothing. *)
Theorem KeFs_refines os : forall U s T, kfs_rep s T -> dom s ⊆ U -> ops_ok U os T ->
  exists s', run_ops os s = Ret ((spec_ops os T).1, s') /\ kfs_rep s' (spec_ops os T).2.
Proof.
  induction os as [|o os IH]; intros U s T R Hs Ok; cbn [run_ops spec_ops]; [by exists s|]. destruct Ok as [Ok Oks].
  destruct (run_op_spec s T o R) as (s1 & E1 & R1 & D1); [by apply (op_ok_mono U)|]. rewrite E1. cbn [bindO].
  destruct (spec_op o T) as [r T1]. cbn [fst snd] in *. destruct (IH (used U o) s1 T1 R1) as (s2 & E2 & R2); [|done|].
  { pose proof (used_mono U (dom s) o Hs). set_solver. }
  rewrite E2. cbn [bindO]. destruct (spec_ops os T1) as [rs T2]. by exists s2.
Qed.

(** ** Reading a directory *)

(** The empty tree. *)
Lemma KeFsInitRoot_ok root : 0 < root -> root + OFFSET_dir < 2 ^ 32 ->
  kfs_rep (KeFsInitRoot root ∅) {| dirs := {[root := ∅]}; parents := ∅ |}.
Proof.
  intros H1 H2. unfold KeFsInitRoot. split; cbn [dirs parents].
  - intros e x [-> _]%lookup_singleton_Some. done.
  - intros e x [<- <-]%lookup_singleton_Some. exists ∅. split; cbn [dirs parents]; [done|done|apply lookup_singleton_eq| |by rewrite lookup_empty].
    split; [apply NoDup_nil_2|intros e He; by apply elem_of_nil in He|done].
  - intros e m [<- _]%lookup_singleton_Some. eexists. apply lookup_insert_eq.
  - intros d m k c [<- <-]%lookup_singleton_Some. done.
Qed.

Section Reading.
Context {A : Type} (fillDir : A -> list Z -> Z -> Z -> Z * A).

(** The callback on a list of entries and their names, until it refuses one. *)
Fixpoint fill_list (es : list (Z * list Z)) (position : Z) (a : A) : Z * Z * A :=
  match es with
  | [] => (0, position, a)
  | (e, nm) :: es =>
      let '(ret, a) := fillDir a nm (Z.of_nat (length nm)) e in
      if ret <? 0 then (ret, position, a) else fill_list es (position + 1) a
  end.

Lemma after_lookup l : NoDup l -> forall i e, l !! i = Some e -> after e l = Ret (l !! S i).
Proof.
  induction l as [|x l IH]; intros N i e H; [done|]. apply NoDup_cons in N as [Nx N]. cbn [after]. destruct i as [|i]; cbn in H.
  - injection H as ->. rewrite Z.eqb_refl. by destruct l.
  - destruct (Z.eqb_spec x e) as [->|]; [|by rewrite (IH N i)]. apply list_elem_of_lookup_2 in H. done.
Qed.
Lemma skip_lookup l : NoDup l -> forall n i, (i + n <= length l)%nat -> skip_entries n (l !! i) l = Ret (l !! (i + n)%nat).
Proof.
  intros N n. induction n as [|n IH]; intros i H; cbn [skip_entries]; [by rewrite Nat.add_0_r|].
  destruct (l !! i) as [e|] eqn:E; [|apply lookup_ge_None in E; lia]. cbn [ring_next]. rewrite (after_lookup l N i e E). cbn [bindO].
  rewrite IH by lia. by rewrite <- Nat.add_succ_comm.
Qed.

(** The entries of a list with their names. *)
Definition named s (l : list Z) (es : list (Z * list Z)) : Prop :=
  Forall2 (fun e n => n.1 = e /\ exists x, s !! e = Some x /\ name x = Some n.2) l es.

Lemma fill_entries_spec s l es : NoDup l -> named s l es -> Z.of_nat (length l) < 2 ^ 31 -> forall fuel i a, (i <= length l)%nat -> (length l - i < fuel)%nat ->
  fill_entries fillDir fuel (l !! i) (Z.of_nat i) (Z.of_nat (length l)) l a s = Ret (fill_list (drop i es) (Z.of_nat i) a).
Proof.
  intros N Hn Hl. induction fuel as [|fuel IH]; intros i a Hi Hf; [lia|]. cbn [fill_entries]. pose proof (Forall2_length _ _ _ Hn) as Len.
  destruct (Z.ltb_spec (Z.of_nat i) (Z.of_nat (length l))) as [Lt|Ge].
  - destruct (lookup_lt_is_Some_2 l i ltac:(lia)) as [e Ee]. destruct (lookup_lt_is_Some_2 es i ltac:(lia)) as [[e' nm] En].
    destruct (Forall2_lookup_lr _ _ _ _ _ _ Hn Ee En) as (E1 & x & Ex & Nx). cbn in E1, Nx. subst e'. rewrite Ee. cbn [of_option bindO]. unfold get_entry. rewrite Ex. cbn [of_option bindO].
    rewrite Nx. cbn [of_option bindO]. rewrite (drop_S es _ i En). cbn [fill_list]. destruct (fillDir a nm (Z.of_nat (length nm)) e) as [ret a']. destruct (ret <? 0); [done|].
    cbn [ring_next]. rewrite (after_lookup l N i e Ee). cbn [bindO]. rewrite u32_id by lia. replace (Z.of_nat i + 1) with (Z.of_nat (S i)) by lia. apply IH; lia.
  - by rewrite drop_ge by lia.
Qed.

Lemma KeFsReadDir_spec s d l q es fuel position a : get_dir (dir_of d) s = Ret (l, q) -> NoDup l -> named s l es ->
  Z.of_nat (length l) < 2 ^ 31 -> 0 <= position <= Z.of_nat (length l) -> (length l < fuel)%nat ->
  KeFsReadDir fillDir fuel d position a s
  = let '(r, p, a') := fill_list (drop (Z.to_nat position) es) position a in Ret (r, p, Z.of_nat (length l), a').
Proof.
  intros Eg N Hn Hl Hp Hf. unfold KeFsReadDir, KeFsDirSize. rewrite Eg. cbn [bindO]. rewrite s32_id, u32_id by lia. pose proof (Forall2_length _ _ _ Hn) as Len.
  destruct (Z.eqb_spec (Z.of_nat (length l)) 0) as [E0|E0].
  - rewrite E0. replace position with 0 by lia. destruct es; [done|cbn in Len; lia].
  - cbn [ring_next bindO]. replace (head l) with (l !! O) by (by destruct l). rewrite skip_lookup by (done || lia). cbn [bindO].
    rewrite Nat.add_0_l. rewrite <- (Z2Nat.id position) at 2 by lia. rewrite fill_entries_spec with (es := es) by (done || lia). cbn [bindO].
    rewrite Z2Nat.id by lia. by destruct (fill_list _ _ _) as [[? ?] ?].
Qed.
End Reading.

Lemma names_listed s l m : entries_ok s l m -> exists es, named s l es /\ (fun n : Z * list Z => (up n.2, n.1)) <$> es ≡ₚ map_to_list m.
Proof.
  intros [N I M]. assert (exists es, named s l es /\ Forall (fun n : Z * list Z => m !! up n.2 = Some n.1) es) as (es & Hn & Fm).
  { clear N M. induction l as [|e l IH]; [exists []; split; constructor|]. destruct IH as (es & H1 & H2); [intros; apply I; by right|].
    destruct (I e ltac:(left)) as (x & nm & Ex & En & _ & Em). exists ((e, nm) :: es). split; constructor; try done. split; [done|]. by exists x. }
  exists es. split; [done|]. assert (Nes : NoDup es.*1).
  { assert (es.*1 = l) as ->; [|done]. clear -Hn. induction Hn as [|e [e' nm] l es [H _] _ IH]; [done|]. cbn in *. by rewrite H, IH. }
  apply NoDup_Permutation.
  - apply (NoDup_fmap_1 snd). rewrite <- list_fmap_compose. exact Nes.
  - apply NoDup_map_to_list.
  - intros [k c]. rewrite elem_of_map_to_list, list_elem_of_fmap. split.
    + intros ([e nm] & [= -> ->] & Hin). rewrite Forall_forall in Fm. exact (Fm _ Hin).
    + intros Hk. destruct (M k c Hk) as (Hin & x & nm & Ex & En & <-). apply list_elem_of_lookup in Hin as [i Hi].
      destruct (Forall2_lookup_l _ _ _ _ _ Hn Hi) as ([e' nm'] & He & E1 & x' & Ex' & En'). cbn in *. subst e'.
      assert (nm = nm') as -> by congruence. exists (c, nm'). split; [done|by eapply list_elem_of_lookup_2].
Qed.

(** C39: Reading a directory lists its map.  There is one order of its entries such that a read from any position passes the callback the
    names from there on, each with its entry, until the callback refuses one, and leaves the position at that entry: reads that follow
    each other give every entry once. *)
Theorem KeFsReadDir_lists s (T : tree) (d : Z) (m : gmap (list Z) Z) : kfs_rep s T -> dirs T !! d = Some m -> Z.of_nat (base.size m) < 2 ^ 31 ->
  exists es : list (Z * list Z), (fun n => (up n.2, n.1)) <$> es ≡ₚ map_to_list m
    /\ forall (A : Type) (fillDir : A -> list Z -> Z -> Z -> Z * A) fuel position a,
      0 <= position <= Z.of_nat (length es) -> (length es < fuel)%nat ->
      KeFsReadDir fillDir fuel d position a s
      = let '(r, p, a') := fill_list fillDir (drop (Z.to_nat position) es) position a in Ret (r, p, Z.of_nat (length es), a').
Proof.
  intros R Hd Sz. destruct (rep_get_dir s T R d m Hd) as (x & l & q & Ex & B & D & Eo & Eg). pose proof (dr_entries _ _ _ _ _ _ _ D) as En.
  destruct (names_listed s l m En) as (es & Hn & Pm). exists es. split; [done|]. intros A fillDir fuel position a Hp Hf.
  pose proof (Permutation_length Pm) as Len. rewrite length_fmap, length_map_to_list in Len. pose proof (Forall2_length _ _ _ Hn) as Len2.
  rewrite (KeFsReadDir_spec fillDir s d l q es) by (apply (en_nodup _ _ _ En) || done || lia). by rewrite Len2.
Qed.

(** ** Following a path *)

Section Paths.
Context (followLink : Z -> Z -> Z * Z) (s : kfs) (T : tree) (R : kfs_rep s T).

Fixpoint walk (cs : list (list Z)) (d : Z) : option Z :=
  match cs with
  | [] => Some d
  | c :: cs =>
      match children d T !! up c with
      | Some e => match dirs T !! e with Some _ => walk cs e | None => None end
      | None => None
      end
  end.
(** No other name of a directory on the way begins with the component. *)
Fixpoint unambiguous (cs : list (list Z)) (d : Z) : Prop :=
  match cs with
  | [] => True
  | c :: cs =>
      (forall k e, children d T !! k = Some e -> take (length c) k = up c -> k = up c)
      /\ forall e, children d T !! up c = Some e -> unambiguous cs e
  end.
Definition component_ok (c : list Z) : Prop := name_ok c /\ Forall (fun x => x <> 47) c.
Definition path_of (cs : list (list Z)) (last : list Z) : list Z := concat (map (fun c => c ++ [47]) cs) ++ last.

Lemma slash_at_component c rest : Forall (fun x => x <> 47) c -> slash_at (c ++ 47 :: rest) = Some (length c).
Proof.
  induction 1 as [|x c Hx _ IH]; [done|]. cbn [app slash_at length]. destruct (Z.eqb_spec x 47); [done|]. by rewrite IH.
Qed.
Lemma slash_at_none c : Forall (fun x => x <> 47) c -> slash_at c = None.
Proof. induction 1 as [|x c Hx _ IH]; [done|]. cbn [slash_at]. destruct (Z.eqb_spec x 47); [done|]. by rewrite IH. Qed.

(** Only the first [n] characters count. *)
Lemma strnicmp_bytes_take n : forall a b b', take n b = take n b' -> strnicmp_bytes n a b = strnicmp_bytes n a b'.
Proof.
  induction n as [|n IH]; intros a b b' H; [done|]. cbn [strnicmp_bytes]. destruct a as [|x a]; [done|]. destruct b as [|y b], b' as [|y' b']; try done.
  injection H as -> H. by rewrite (IH a b b' H).
Qed.

Lemma dir_lookup_component d m x l q c rest e : dir_rep s T d x l q m -> name_ok c -> m !! up c = Some e -> is_Some (dirs T !! e) ->
  (forall k e, m !! k = Some e -> take (length c) k = up c -> k = up c) ->
  dir_lookup followLink (c ++ rest) (length c) l s = Ret (dir_of e).
Proof using R.
  intros D Nc Em [me He] U. destruct (dr_entries _ _ _ _ _ _ _ D) as [N I M]. destruct (M _ _ Em) as (Hin & ex & en & Eex & Een & Uen).
  clear N M D. induction l as [|e' l IH]; [by apply elem_of_nil in Hin|].
  destruct (I e' ltac:(left)) as (y & yn & Ey & En & Hyn & Emy). cbn [dir_lookup]. unfold get_entry at 1. rewrite Ey. cbn [of_option bindO].
  assert (P : prefix_test (c ++ rest) (length c) y = Ret (bool_decide (e' = e))).
  { unfold prefix_test. rewrite En. cbn [of_option bindO]. rewrite (strnicmp_bytes_take (length c) (cstring yn) (cstring (c ++ rest)) (cstring c)).
    2: { unfold cstring. by rewrite <- app_assoc, !take_app_length. }
    destruct (strnicmp_bytes_spec (length c) yn c Hyn Nc (le_n _)) as (r & -> & Q). cbn [bindO]. rewrite Q. f_equal. apply bool_decide_ext.
    rewrite (take_ge (up c)) by (by rewrite up_length). split; [intros H; pose proof (U _ _ Emy H) as E; congruence|].
    intros ->. assert (up yn = up c) as -> by congruence. by rewrite take_ge by (by rewrite up_length). }
  rewrite P. cbn [bindO]. destruct (decide (e' = e)) as [->|Ne].
  - rewrite bool_decide_eq_true_2 by done. destruct (rep_dir s T R e me He) as (z & l2 & q2 & Ez & Bz & D2 & _). assert (z = y) as -> by congruence.
    rewrite (dr_link _ _ _ _ _ _ _ D2), (dr_type _ _ _ _ _ _ _ D2). done.
  - rewrite bool_decide_eq_false_2 by done. cbn [bindO]. assert (dir_lookup followLink (c ++ rest) (length c) l s = Ret (dir_of e)) as Q.
    { apply IH; [intros; apply I; by right|]. by apply elem_of_cons in Hin as [->|?]. }
    rewrite Q. by destruct (c_true _), (c_true _).
Qed.

(** KeFsNameToDir finds the directory of a path, component by component, and leaves the last name, as long as no component begins
    another name of its directory. *)
Theorem KeFsNameToDir_walks cs : forall fuel d last e, Forall component_ok cs -> Forall (fun x => x <> 47) last ->
  is_Some (dirs T !! d) -> unambiguous cs d -> walk cs d = Some e -> (length cs < fuel)%nat ->
  KeFsNameToDir followLink fuel (dir_of d) (path_of cs last) s = Ret (dir_of e, last).
Proof using R.
  unfold KeFsNameToDir, path_of. induction cs as [|c cs IH]; intros [|fuel] d last e Hc Hl [m Hd] U W Hf; cbn in Hf; try lia; cbn [concat map app name_to_dir].
  { rewrite slash_at_none by done. by injection W as <-. }
  apply Forall_cons in Hc as [[Nc Sc] Hc]. rewrite <- !app_assoc. cbn [app]. rewrite slash_at_component by done. cbn [walk unambiguous] in W, U.
  destruct U as [U1 U2]. unfold children in U1, U2, W. rewrite Hd in U1, U2, W. change (default ∅ (Some m)) with m in *.
  destruct (m !! up c) as [e1|] eqn:Em; [|done]. destruct (dirs T !! e1) as [m1|] eqn:He; [|done].
  destruct (rep_get_dir s T R d m Hd) as (x & l & q & Ex & B & D & Eo & Eg). unfold KeFsDirLookup. rewrite Eg. cbn [bindO]. rewrite Nat2Z.id.
  rewrite (dir_lookup_component d m x l q c _ e1 D Nc Em ltac:(by rewrite He) U1). cbn [bindO].
  destruct (rep_dir s T R e1 m1 He) as (z & _ & _ & Ez & _). destruct (kr_addr _ _ R e1 z Ez). rewrite (proj2 (Z.eqb_neq _ _)) by (by apply dir_of_pos).
  replace (drop (S (length c)) _) with (concat (map (fun c => c ++ [47]) cs) ++ last).
  - apply IH; try done; [by apply U2|lia].
  - rewrite cons_middle, app_assoc. rewrite drop_app_length'; [done|]. rewrite length_app. cbn. lia.
Qed.
End Paths.

(** ** A small tree *)

Module Demo.

Definition T0 : tree := {| dirs := {[100 := ∅]}; parents := ∅ |}.
Definition s0 : kfs := KeFsInitRoot 100 ∅.
Definition dev : list Z := [100; 101; 118].
Definition Dev : list Z := [68; 69; 86].
Definition disk : list Z := [100; 105; 115; 107].
Definition Disk : list Z := [68; 73; 83; 75].
Definition dis : list Z := [100; 105; 115].
Definition disk2 : list Z := [100; 105; 115; 107; 50].

(** /dev/disk is made and found under its name in capital letters, a second file of the name is refused, and /dev/disk/.. is /dev; the
    empty directory /dev/disk2 is removed, the root and a file are not. *)
Definition demo_ops : list op :=
  [AddDirOp 200 100 dev; AddEntryOp 300 200 disk VFS_ATTR_READ; LookupOp 100 Dev; LookupOp 200 dis; AddEntryOp 400 200 Disk VFS_ATTR_READ;
   AddDirOp 500 200 disk2; LookupOp 500 [46; 46]; RemoveDirOp 300; RemoveDirOp 100; RemoveDirOp 500; LookupOp 200 disk2].

Lemma small_name nm : forallb (fun c => (0 <? c) && (c <? 256)) nm = true -> name_ok nm.
Proof. intros H. apply Forall_forall. intros c Hc. rewrite forallb_forall in H. specialize (H c (proj1 (list_elem_of_In _ _) Hc)). lia. Qed.
Lemma demo_alloc p U : bool_decide (p ∉ U) = true -> 0 < p -> p + OFFSET_dir < 2 ^ 32 -> alloc_ok U p.
Proof. intros H%bool_decide_eq_true. right. by split_and!. Qed.

Ltac demo_step :=
  cbn [op_ok]; split_and!; [vm_compute; by eexists|apply small_name; reflexivity|
    first [intros [=] | apply demo_alloc; [vm_compute; reflexivity|lia|unfold OFFSET_dir; lia] | vm_compute; by eexists ]..].
Ltac demo_file :=
  cbn [op_ok]; split_and!; [vm_compute; by eexists|apply small_name; reflexivity|apply demo_alloc; [vm_compute; reflexivity|lia|unfold OFFSET_dir; lia]|reflexivity|
    first [intros E; vm_compute in E; discriminate E | intros _; vm_compute; by eexists]].
Lemma demo_ops_ok : ops_ok {[100]} demo_ops T0.
Proof.
  cbn [demo_ops ops_ok]. split_and!; [| | | | | | | | | | |done].
  - demo_step.
  - demo_file.
  - demo_step.
  - demo_step.
  - demo_file.
  - demo_step.
  - cbn [op_ok]; split_and!; [vm_compute; by eexists|apply small_name; reflexivity|]. intros _. vm_compute. by eexists.
  - split; [right; right; exists 200, (up disk); reflexivity|by intros].
  - split; [right; left; split; [vm_compute; by eexists|reflexivity]|by intros].
  - split; [right; right; exists 200, (up disk2); reflexivity|]. intros m d E _. by vm_compute in E; injection E as <-.
  - demo_step.
Qed.

Lemma KeFs_refines_witness : exists s', run_ops demo_ops s0 = Ret ([200; 300; 200; 0; 0; 500; 200; - ENOTDIR; - EFAULT; 0; 0], s') /\ kfs_rep s' (spec_ops demo_ops T0).2.
Proof.
  destruct (KeFs_refines demo_ops {[100]} s0 T0) as (s' & E & R).
  - apply KeFsInitRoot_ok; [lia|unfold OFFSET_dir; lia].
  - unfold s0, KeFsInitRoot. rewrite dom_insert_L, dom_empty_L. set_solver.
  - apply demo_ops_ok.
  - exists s'. split; [|exact R]. rewrite E. reflexivity.
Defined.
(** Two calls that read one entry each. *)
Definition one (a : list Z) (nm : list Z) (_ e : Z) : Z * list Z := match a with [] => (0, [e]) | _ => (- EFAULT, a) end.
Lemma KeFsReadDir_lists_witness : exists s' es, run_op (AddDirOp 200 100 dev) s0 = Ret (200, s')
  /\ (fun n : Z * list Z => (up n.2, n.1)) <$> es ≡ₚ map_to_list {[up dev := 200]}
  /\ KeFsReadDir one 5 100 0 [] s' = (let '(r, p, a') := fill_list one (drop 0 es) 0 [] in Ret (r, p, Z.of_nat (length es), a')).
Proof.
  destruct (run_op_spec s0 T0 (AddDirOp 200 100 dev)) as (s' & E & R & _).
  - apply KeFsInitRoot_ok; [lia|unfold OFFSET_dir; lia].
  - replace (dom s0) with ({[100]} : gset Z) by (vm_compute; reflexivity). demo_step.
  - destruct (KeFsReadDir_lists s' _ 100 {[up dev := 200]} R) as (es & P & H); [reflexivity|vm_compute; reflexivity|].
    exists s', es. split_and!; [exact E|exact P|]. apply (H (list Z) one 5%nat 0 []); [lia|].
    apply Permutation_length in P. rewrite length_fmap in P. rewrite P. vm_compute. lia.
Defined.

(** Where "disk" is, a file "dis" is refused, though the directory has no such name. *)
Example KeFsAddEntry_refuses_prefix :
  match run_ops [AddDirOp 200 100 dev; AddEntryOp 300 200 disk VFS_ATTR_READ; LookupOp 200 dis; AddEntryOp 400 200 dis VFS_ATTR_READ] s0 with
  | Ret (rs, _) => rs
  | _ => []
  end = [200; 300; 0; 0].
Proof. vm_compute. reflexivity. Qed.
(** Removing a directory takes away its name but none of its entries. *)
Example KeFsRemoveDir_keeps_entries :
  match run_ops [AddDirOp 200 100 dev; AddEntryOp 300 200 disk VFS_ATTR_READ; RemoveDirOp 200; LookupOp 100 dev; LookupOp 200 disk] s0 with
  | Ret (rs, _) => rs
  | _ => []
  end = [200; 300; 0; 0; 300].
Proof. vm_compute. reflexivity. Qed.
(** A path through "dev" ends in the directory "dev2" when that is the only one. *)
Example KeFsDirLookup_takes_prefix :
  KeFsDirLookup (fun _ _ => (0, 0)) [100; 101; 118; 47] 3 (dir_of 100)
    match KeFsAddDir 200 (dir_of 100) [100; 101; 118; 50] s0 with Ret (_, s) => s | _ => s0 end = Ret (dir_of 200).
Proof. reflexivity. Qed.
End Demo.
