(* ===== verification/Ext3Dir.v ===== *)
(** * The ext3 file system: directories (fs/ext3/inode.c)

    A block of a directory is a row of entries; an entry is the number of
    its inode, its length, the length and the type of the name and the
    name.  Looking up a name walks the entries of all the blocks; adding
    one takes the first entry of the first block with enough unused room;
    removing one adds its room to the entry before it.

    The bytes of a block are those of its words (Ext3); a pointer to an
    entry is the block and the offset in it.  [fuel] bounds the entries
    looked at.  A buffer given to JournalDirtyMetadata is marked, as in
    Ext3. *)

From stdpp Require Import functions.
From S2P Require Import CString Prelude Bitmap Ext3 Ext3INode.

(** ** Model *)

Definition EXT3_FT_UNKNOWN : Z := 0.
Definition EXT3_FT_FILE : Z := 1.
Definition EXT3_FT_DIR : Z := 2.

Definition EXT3_DIR_REC_LEN (nameLen : Z) : Z := Z.land (nameLen + 8 + 3) (Z.lnot 3).

Definition Ext3SetFileType (mode : Z) : Z :=
  if c_true (Z.land mode VFS_ATTR_FILE) then EXT3_FT_FILE
  else if c_true (Z.land mode VFS_ATTR_DIR) then EXT3_FT_DIR
  else EXT3_FT_UNKNOWN.

(** Bytes, 16-bit and 32-bit numbers in memory. *)
Definition get8 (bs : list Z) (i : Z) : outcome Z := of_option (zlookup bs i).
Definition get16 (bs : list Z) (i : Z) : outcome Z :=
  let* a := get8 bs i in let* b := get8 bs (i + 1) in Ret (a + b * 2 ^ 8).
Definition get32 (bs : list Z) (i : Z) : outcome Z :=
  let* a := get16 bs i in let* b := get16 bs (i + 2) in Ret (a + b * 2 ^ 16).
Fixpoint put_bytes (bs : list Z) (i : Z) (l : list Z) : outcome (list Z) :=
  match l with
  | [] => Ret bs
  | v :: l => let* bs := of_option (zupdate bs i v) in put_bytes bs (i + 1) l
  end.
Definition put8 (bs : list Z) (i v : Z) : outcome (list Z) := put_bytes bs i [u8 v].
Definition half_bytes (v : Z) : list Z := [u8 v; u8 (v / 2 ^ 8)].
Definition put16 (bs : list Z) (i v : Z) : outcome (list Z) := put_bytes bs i (half_bytes v).
Definition put32 (bs : list Z) (i v : Z) : outcome (list Z) := put_bytes bs i (word_bytes v).

(** The fields of an entry before its name. *)
Record Ext3DirEntry := {
  iNodeNum : Z;
  recLen : Z;
  nameLen : Z;
  fileType : Z;
}.
Definition get_entry (bs : list Z) (off : Z) : outcome Ext3DirEntry :=
  let* n := get32 bs off in
  let* r := get16 bs (off + 4) in
  let* l := get8 bs (off + 6) in
  let* t := get8 bs (off + 7) in
  Ret {| iNodeNum := n; recLen := r; nameLen := l; fileType := t |}.

(** The inner loop of Ext3FindEntry, over one block: the offset of the
    entry or the position after the block. *)
Fixpoint find_entry (fuel : nat) (bs name : list Z) (bytesPerSec dsize i offset : Z) : outcome (Z + Z) :=
  match fuel with
  | O => NoFuel
  | S fuel =>
      if (i <? dsize) && (offset <? bytesPerSec) then
        let entry := i mod bytesPerSec in
        let* e := get_entry bs entry in
        let* found :=
          if nameLen e =? Z.of_nat (length name) then
            let* r := strncmp_bytes (length name) (drop (Z.to_nat (entry + 8)) bs) name in Ret (r =? 0)
          else Ret false in
        if found then Ret (inl entry)
        else find_entry fuel bs name bytesPerSec dsize (u32 (i + recLen e)) (s32 (offset + recLen e))
      else Ret (inr i)
  end.

(** [None] is NULL. *)
Definition Ext3BlockMap (v : VNode) (block flags : Z) (s : ext3) : outcome (Z * VNode * ext3) :=
  let* (r, bl, s) := Ext3BlockMapHandle (blocks v) block flags s in
  Ret (r, {| id := id v; mode := mode v; size := size v; aTime := aTime v; cTime := cTime v; mTime := mTime v;
             blocks := bl; blockGroup := blockGroup v |}, s).
Definition Ext3BlockRead (v : VNode) (block flags : Z) (s : ext3) : outcome (option Z * VNode * ext3) :=
  let* (realBlock, v, s) := Ext3BlockMap v block flags s in
  if realBlock <? 0 then Ret (None, v, s) else Ret (Some realBlock, v, s).

(** The bytes of a block; new ones, with JournalDirtyMetadata of the buffer. *)
Definition data (s : ext3) (b : Z) : list Z := to_bytes (blk s b).
Definition set_data (b : Z) (bs : list Z) (s : ext3) : ext3 := mark (Block b) (with_blk (<[b := of_bytes bs]> (blk s)) s).

(** The outer loop: the block and the offset of the entry. *)
Fixpoint find_blocks (fuel : nat) (dir : VNode) (name : list Z) (i : Z) (s : ext3) : outcome (option (Z * Z)) :=
  match fuel with
  | O => NoFuel
  | S fuel =>
      if i <? size dir then
        if blockSize s =? 0 then Fault
        else
          let* (buff, dir, s) := Ext3BlockRead dir (i / blockSize s) 0 s in
          match buff with
          | None => Fault
          | Some b =>
              let* r := find_entry fuel (data s b) name (blockSize s) (size dir) i (i mod blockSize s) in
              match r with
              | inl off => Ret (Some (b, off))
              | inr i => find_blocks fuel dir name i s
              end
          end
      else Ret None
  end.

Definition Ext3FindEntry (fuel : nat) (dir : VNode) (name : list Z) (s : ext3) : outcome (Z * option (Z * Z)) :=
  let* r := find_blocks fuel dir name 0 s in
  Ret (if r then 0 else - ENOENT, r).

(** The number of the inode that VNodeGet is called with. *)
Definition Ext3Lookup (fuel : nat) (dir : VNode) (name : list Z) (s : ext3) : outcome (Z * option Z) :=
  let* (ret, e) := Ext3FindEntry fuel dir name s in
  match e with
  | Some (b, off) => let* e := get_entry (data s b) off in Ret (ret, Some (iNodeNum e))
  | None => Ret (ret, None)
  end.

(** The loop of Ext3AddEntry from the entry at [off] on. *)
Fixpoint add_loop (fuel : nat) (bs : list Z) (off bytesPerSec : Z) (name : list Z) (ino ftype : Z) : outcome (list Z) :=
  match fuel with
  | O => NoFuel
  | S fuel =>
      if bytesPerSec <=? off then Panic
      else
        let* e := get_entry bs off in
        let rec_len := EXT3_DIR_REC_LEN (Z.of_nat (length name)) in
        let used := EXT3_DIR_REC_LEN (nameLen e) in
        if ((iNodeNum e =? 0) && (rec_len <=? recLen e)) || (used + rec_len <=? recLen e) then
          let* (bs, off) :=
            if c_true (iNodeNum e) then
              let* bs := put16 bs (off + used + 4) (recLen e - used) in
              let* bs := put16 bs (off + 4) used in
              Ret (bs, off + used)
            else Ret (bs, off) in
          let* bs := put8 bs (off + 7) EXT3_FT_UNKNOWN in
          let* bs := put32 bs off ino in
          let* bs := put8 bs (off + 7) ftype in
          let* bs := put8 bs (off + 6) (Z.of_nat (length name)) in
          put_bytes bs (off + 8) name
        else add_loop fuel bs (off + recLen e) bytesPerSec name ino ftype
  end.

Definition Ext3AddEntry (fuel : nat) (name : list Z) (dir v : VNode) (s : ext3) : outcome (Z * VNode * ext3) :=
  let* (buffer, dir, s) := Ext3BlockRead dir 0 1 s in
  match buffer with
  | None => Ret (- EIO, dir, s)
  | Some b =>
      let* bs := add_loop fuel (data s b) 0 (blockSize s) name (id v) (Ext3SetFileType (mode v)) in
      Ret (0, dir, set_data b bs s)
  end.

Definition Ext3AddNonDirEntry (fuel : nat) (name : list Z) (dir v : VNode) (s : ext3) : outcome (Z * VNode * ext3) :=
  let* (err, dir, s) := Ext3AddEntry fuel name dir v s in
  if c_true err then Ret (err, dir, s)
  else let* (err, s) := Ext3DirtyVNode v s in Ret (err, dir, s).

(** The vNode that Ext3CreateINode makes for a new inode. *)
Definition new_vnode (n group : Z) (isDir : bool) (now : Z) : VNode :=
  {| id := n; mode := Z.lor (Z.lor VFS_ATTR_WRITE VFS_ATTR_READ) (if isDir then VFS_ATTR_DIR else VFS_ATTR_FILE);
     size := 0; aTime := now; cTime := now; mTime := now; blocks := replicate 15 0; blockGroup := group |}.

(** The result is the new vNode; [now] is currTime. *)
Definition Ext3Create (fuel : nat) (dir : VNode) (name : list Z) (now : Z) (s : ext3) : outcome (Z * VNode * VNode * ext3) :=
  let* (n, s) := Ext3CreateINode (blockGroup dir) false s in
  match n with
  | None => Fault
  | Some (n, group) =>
      let v := new_vnode n group false now in
      let* (err, dir, s) := Ext3AddNonDirEntry fuel name dir v s in
      Ret (err, v, dir, s)
  end.

(** The loop of Ext3RemoveEntry: [curr] is the current entry, at offset
    [i], and [prev] the one before it. *)
Fixpoint remove_loop (fuel : nat) (bs : list Z) (prev : option Z) (i entry bytesPerSec : Z) : outcome (Z * list Z) :=
  match fuel with
  | O => NoFuel
  | S fuel =>
      if i <? bytesPerSec then
        let* curr := get_entry bs i in
        if entry =? i then
          match prev with
          | Some p =>
              let* e := get_entry bs p in
              let* bs := put16 bs (p + 4) (recLen e + recLen curr) in Ret (0, bs)
          | None => let* bs := put32 bs i 0 in Ret (0, bs)
          end
        else remove_loop fuel bs (Some i) (u32 (i + recLen curr)) entry bytesPerSec
      else Ret (- ENOENT, bs)
  end.

Definition Ext3RemoveEntry (fuel : nat) (b entry : Z) (s : ext3) : outcome (Z * ext3) :=
  let* (err, bs) := remove_loop fuel (data s b) None 0 entry (blockSize s) in
  if c_true err then Ret (err, s) else Ret (err, set_data b bs s).

Definition Ext3Remove (fuel : nat) (dir : VNode) (name : list Z) (s : ext3) : outcome (Z * ext3) :=
  let* (err, e) := Ext3FindEntry fuel dir name s in
  match e with
  | None => Ret (err, s)
  | Some (b, off) => Ext3RemoveEntry fuel b off s
  end.

(** The entries . and .. that Ext3MkDir writes to the first block. *)
Definition dot_entries (bs : list Z) (self parent bytesPerSec : Z) : outcome (list Z) :=
  let r1 := EXT3_DIR_REC_LEN 1 in
  let* bs := put32 bs 0 self in
  let* bs := put8 bs 6 1 in
  let* bs := put16 bs 4 r1 in
  let* bs := put8 bs 8 46 in
  let* bs := put8 bs 7 EXT3_FT_DIR in
  let* bs := put32 bs r1 parent in
  let* bs := put8 bs (r1 + 6) 2 in
  let* bs := put16 bs (r1 + 4) (bytesPerSec - r1) in
  let* bs := put_bytes bs (r1 + 8) [46; 46] in
  put8 bs (r1 + 7) EXT3_FT_DIR.

Definition Ext3MkDir (fuel : nat) (dir : VNode) (name : list Z) (now : Z) (s : ext3) : outcome (Z * VNode * VNode * ext3) :=
  let* (n, s) := Ext3CreateINode (blockGroup dir) true s in
  match n with
  | None => Fault
  | Some (n, group) =>
      let v := new_vnode n group true now in
      let v := {| id := id v; mode := mode v; size := blockSize s; aTime := aTime v; cTime := cTime v; mTime := mTime v;
                  blocks := blocks v; blockGroup := blockGroup v |} in
      let* (buffer, v, s) := Ext3BlockRead v 0 1 s in
      match buffer with
      | None => Fault
      | Some b =>
          let* bs := dot_entries (data s b) (id v) (id dir) (blockSize s) in
          let s := set_data b bs s in
          let* (_, s) := Ext3DirtyVNode v s in
          let* (_, dir, s) := Ext3AddEntry fuel name dir v s in
          Ret (0, v, dir, s)
      end
  end.

(** *** Reading a directory (FillDir of fs/vfs/dir.c) *)

(** What FillDir writes to the user's buffer, in order, and the room left. *)
Record DirEntry := {
  vNodeNum : Z;
  length_ : Z;
  name_ : list Z;
}.
Record FillDirInfo := {
  filled : list DirEntry;
  count : Z;
}.
Definition ROUND_UP (x : Z) : Z := Z.land (x + 4 - 1) (Z.lnot 3).
Definition FillDir (info : FillDirInfo) (name : list Z) (vNum : Z) : Z * FillDirInfo :=
  let recordLen := ROUND_UP (12 + Z.of_nat (length name) + 1) in
  if count info <? recordLen then (- EFAULT, info)
  else (0, {| filled := filled info ++ [{| vNodeNum := vNum; length_ := u16 recordLen; name_ := name |}];
              count := count info - recordLen |}).

(** The inner loop of Ext3ReadDir: whether the user's buffer is full, the
    position and the entries. *)
Fixpoint read_entries (fuel : nat) (bs : list Z) (bytesPerSec dsize position offset : Z) (info : FillDirInfo)
  : outcome (bool * Z * FillDirInfo) :=
  match fuel with
  | O => NoFuel
  | S fuel =>
      if (position <? dsize) && (offset <? bytesPerSec) then
        let* e := get_entry bs offset in
        let next := read_entries fuel bs bytesPerSec dsize (u32 (position + recLen e)) (s32 (offset + recLen e)) in
        if c_true (iNodeNum e) then
          let name := take (Z.to_nat (nameLen e)) (drop (Z.to_nat (offset + 8)) bs) in
          if Z.of_nat (length name) <? nameLen e then Fault
          else
            let (err, info') := FillDir info name (iNodeNum e) in
            if c_true err then Ret (true, position, info) else next info'
        else next info
      else Ret (false, position, info)
  end.

Fixpoint read_blocks (fuel : nat) (dir : VNode) (position : Z) (info : FillDirInfo) (s : ext3) : outcome (Z * Z * FillDirInfo) :=
  match fuel with
  | O => NoFuel
  | S fuel =>
      if position <? size dir then
        if blockSize s =? 0 then Fault
        else
          let* (buff, dir, s) := Ext3BlockRead dir (position / blockSize s) 0 s in
          match buff with
          | None => Ret (- EIO, position, info)
          | Some b =>
              let* (full, position, info) := read_entries fuel (data s b) (blockSize s) (size dir) position (position mod blockSize s) info in
              if full : bool then Ret (0, position, info) else read_blocks fuel dir position info s
          end
      else Ret (0, position, info)
  end.

(** The error code, the new position of the file and the entries. *)
Definition Ext3ReadDir (fuel : nat) (dir : VNode) (position : Z) (info : FillDirInfo) (s : ext3) : outcome (Z * Z * FillDirInfo) :=
  if size dir <=? position then Ret (0, position, info) else read_blocks fuel dir position info s.

(** ** Bytes at an offset *)

Lemma zlookup_app_at {A} (pre l : list A) n k : Z.of_nat (length pre) = n -> 0 <= k ->
  zlookup (pre ++ l) (n + k) = zlookup l k.
Proof.
  intros <- Hk. unfold zlookup. destruct (Z.leb_spec 0 (Z.of_nat (length pre) + k)), (Z.leb_spec 0 k); try lia.
  rewrite lookup_app_r by lia. f_equal. lia.
Qed.

Lemma put_bytes_at new : forall pre old post n, Z.of_nat (length pre) = n -> length new = length old ->
  put_bytes (pre ++ old ++ post) n new = Ret (pre ++ new ++ post).
Proof.
  induction new as [|v new IH]; intros pre [|o old] post n Hn L; try done. cbn [put_bytes app]. cbn in L.
  rewrite zupdate_lt by (rewrite !length_app; cbn; lia). cbn [of_option bindO].
  replace (Z.to_nat n) with (length pre + 0)%nat by lia. rewrite insert_app_r. cbn.
  specialize (IH (pre ++ [v]) old post (n + 1)). rewrite <- !app_assoc in IH. cbn in IH. rewrite IH; [done| |lia].
  rewrite length_app. cbn. lia.
Qed.

Lemma get8_at pre l n k b : Z.of_nat (length pre) = n -> 0 <= k -> zlookup l k = Some b -> get8 (pre ++ l) (n + k) = Ret b.
Proof. intros Hn Hk E. unfold get8. by rewrite zlookup_app_at, E. Qed.

Lemma half_bytes_get v : 0 <= v < 2 ^ 16 -> u8 v + u8 (v / 2 ^ 8) * 2 ^ 8 = v.
Proof. intros H. unfold u8. Z.div_mod_to_equations. lia. Qed.
Lemma word_bytes_get v : is_word v ->
  u8 v + u8 (v / 2 ^ 8) * 2 ^ 8 + (u8 (v / 2 ^ 16) + u8 (v / 2 ^ 24) * 2 ^ 8) * 2 ^ 16 = v.
Proof. unfold is_word. intros H. unfold u8. Z.div_mod_to_equations. lia. Qed.

(** ** Entries *)

(** An entry with what follows its name up to the next one. *)
Record dirent := {
  d_ino : Z;
  d_name : list Z;
  d_type : Z;
  d_pad : list Z;
}.
Definition reclen (e : dirent) : Z := 8 + Z.of_nat (length (d_name e)) + Z.of_nat (length (d_pad e)).
Definition header (e : dirent) : list Z :=
  word_bytes (d_ino e) ++ half_bytes (reclen e) ++ [Z.of_nat (length (d_name e)); d_type e].
Definition enc (e : dirent) : list Z := header e ++ d_name e ++ d_pad e.
Definition encs (l : list dirent) : list Z := concat (enc <$> l).

(** A name has no NUL. *)
Definition name_ok (name : list Z) : Prop := Forall (fun b => 0 < b < 256) name /\ (length name < 256)%nat.
Record dirent_ok (e : dirent) : Prop := {
  do_ino : is_word (d_ino e);
  do_name : name_ok (d_name e);
  do_type : is_byte (d_type e);
  do_pad : wf_bytes (d_pad e);
  do_len : reclen e < 2 ^ 16;
}.

Lemma header_length e : length (header e) = 8%nat.
Proof. done. Qed.
Lemma enc_length e : Z.of_nat (length (enc e)) = reclen e.
Proof. unfold enc, reclen, header. rewrite !length_app. cbn. lia. Qed.
Lemma encs_cons e l : encs (e :: l) = enc e ++ encs l.
Proof. done. Qed.
Lemma encs_app l l' : encs (l ++ l') = encs l ++ encs l'.
Proof. unfold encs. by rewrite fmap_app, concat_app. Qed.

Definition fields (e : dirent) : Ext3DirEntry :=
  {| iNodeNum := d_ino e; recLen := reclen e; nameLen := Z.of_nat (length (d_name e)); fileType := d_type e |}.

(** Reading an entry where it is. *)
Lemma get_entry_at pre e post n : Z.of_nat (length pre) = n -> dirent_ok e -> get_entry (pre ++ enc e ++ post) n = Ret (fields e).
Proof.
  intros Hn [Hi [_ Hl] Ht _ Hr].
  assert (G : forall k b, 0 <= k < 8 -> zlookup (header e) k = Some b -> get8 (pre ++ enc e ++ post) (n + k) = Ret b).
  { intros k b Hk E. apply get8_at; [done|lia|]. unfold enc. rewrite <- !app_assoc. unfold zlookup in *.
    destruct (Z.leb_spec 0 k); [|lia]. by apply lookup_app_l_Some. }
  unfold get_entry, get32, get16. replace (n + 2 + 1) with (n + 3) by lia. replace (n + 4 + 1) with (n + 5) by lia.
  replace n with (n + 0) at 1 by lia.
  rewrite (G 0 _ ltac:(lia) eq_refl), (G 1 _ ltac:(lia) eq_refl), (G 2 _ ltac:(lia) eq_refl), (G 3 _ ltac:(lia) eq_refl),
    (G 4 _ ltac:(lia) eq_refl), (G 5 _ ltac:(lia) eq_refl), (G 6 _ ltac:(lia) eq_refl), (G 7 _ ltac:(lia) eq_refl).
  cbn [bindO]. unfold fields. rewrite word_bytes_get by done. rewrite half_bytes_get; [done|]. unfold reclen in *. lia.
Qed.

Lemma name_at pre e post n : Z.of_nat (length pre) = n ->
  drop (Z.to_nat (n + 8)) (pre ++ enc e ++ post) = d_name e ++ d_pad e ++ post.
Proof.
  intros <-. replace (Z.to_nat (Z.of_nat (length pre) + 8)) with (length pre + 8)%nat by lia.
  rewrite drop_app_add. unfold enc. rewrite <- !app_assoc. by rewrite drop_app_length' by done.
Qed.

(** ** Looking up a name in a block *)

(** The first entry with the name and what is around it. *)
Fixpoint split_name (name : list Z) (l : list dirent) : option (list dirent * dirent * list dirent) :=
  match l with
  | [] => None
  | e :: l =>
      if decide (d_name e = name) then Some ([], e, l)
      else match split_name name l with Some (l1, x, l2) => Some (e :: l1, x, l2) | None => None end
  end.

Lemma split_name_Some name l l1 e l2 : split_name name l = Some (l1, e, l2) ->
  l = l1 ++ e :: l2 /\ d_name e = name /\ Forall (fun x => d_name x <> name) l1.
Proof.
  revert l1. induction l as [|x l IH]; [done|]. intros l1. cbn. destruct (decide (d_name x = name)) as [E|N].
  - intros [= <- <- <-]. done.
  - destruct (split_name name l) as [[[l1' e'] l2']|]; [|done]. intros [= <- -> ->].
    destruct (IH l1' eq_refl) as (-> & E & F). split_and!; [done|done|by constructor].
Qed.
Lemma split_name_None name l : split_name name l = None <-> Forall (fun x => d_name x <> name) l.
Proof.
  induction l as [|x l IH]; [done|]. cbn. rewrite Forall_cons. destruct (decide (d_name x = name)); [naive_solver|].
  destruct (split_name name l) as [[[]]|]; naive_solver.
Qed.
Lemma split_name_app name l1 l2 : split_name name (l1 ++ l2) = match split_name name l1 with
  | Some (a, e, b) => Some (a, e, b ++ l2)
  | None => match split_name name l2 with Some (a, e, b) => Some (l1 ++ a, e, b) | None => None end end.
Proof.
  induction l1 as [|x l1 IH]; cbn; [by destruct (split_name name l2) as [[[]]|]|]. destruct (decide (d_name x = name)); [done|].
  rewrite IH. destruct (split_name name l1) as [[[]]|]; [done|]. by destruct (split_name name l2) as [[[]]|].
Qed.

(** The comparison of the code on one entry. *)
Lemma compare_at pre e post n name : Z.of_nat (length pre) = n -> dirent_ok e -> name_ok name ->
  (if Z.of_nat (length (d_name e)) =? Z.of_nat (length name) then
     let* r := strncmp_bytes (length name) (drop (Z.to_nat (n + 8)) (pre ++ enc e ++ post)) name in Ret (r =? 0)
   else Ret false) = Ret (bool_decide (d_name e = name)).
Proof.
  intros Hn He [Hf _]. destruct (do_name e He) as [Fe _]. rewrite (name_at pre e post n Hn).
  destruct (Z.eqb_spec (Z.of_nat (length (d_name e))) (Z.of_nat (length name))) as [E|N].
  - assert (T : take (length name) (d_name e ++ d_pad e ++ post) = d_name e) by (by rewrite take_app_length' by lia).
    destruct (strncmp_bytes_spec (length name) (d_name e ++ d_pad e ++ post) name) as (r & -> & Q); [rewrite length_app; lia|done| | |].
    + by rewrite T.
    + by rewrite firstn_all.
    + cbn. by rewrite Q, T, firstn_all.
  - rewrite bool_decide_eq_false_2; [done|]. congruence.
Qed.

(** A position in block [q]. *)
Lemma mod_block q k m : 0 <= k < m -> (q * m + k) mod m = k.
Proof. intros H. rewrite Z.add_comm, Z.mod_add by lia. by apply Z.mod_small. Qed.

Lemma find_entry_spec name bps dsize q l : forall fuel pre, name_ok name -> Forall dirent_ok l ->
  0 <= q -> (q + 1) * bps <= dsize < 2 ^ 31 -> (length l < fuel)%nat -> Z.of_nat (length (pre ++ encs l)) = bps ->
  find_entry fuel (pre ++ encs l) name bps dsize (q * bps + Z.of_nat (length pre)) (Z.of_nat (length pre))
  = Ret (match split_name name l with
         | Some (l1, _, _) => inl (Z.of_nat (length pre) + Z.of_nat (length (encs l1)))
         | None => inr ((q + 1) * bps) end).
Proof.
  induction l as [|e l IH]; intros [|fuel] pre Hn Hl Hq Hs Hf Hb; cbn [length] in Hf; try lia; cbn [find_entry split_name].
  - rewrite app_nil_r in Hb. destruct (Z.ltb_spec (Z.of_nat (length pre)) bps); [lia|]. rewrite andb_false_r. do 2 f_equal. lia.
  - apply Forall_cons in Hl as [He Hl]. rewrite encs_cons in *. pose proof (enc_length e) as Le.
    assert (8 <= reclen e) by (unfold reclen; lia). rewrite !length_app in Hb.
    destruct (Z.ltb_spec (q * bps + Z.of_nat (length pre)) dsize), (Z.ltb_spec (Z.of_nat (length pre)) bps); try nia. cbn [andb].
    rewrite mod_block by lia. rewrite get_entry_at by done. cbn [bindO fields nameLen recLen].
    rewrite compare_at by done. cbn [bindO]. case_decide as D; [rewrite bool_decide_eq_true_2 by done; do 2 f_equal; cbn; lia|].
    rewrite bool_decide_eq_false_2 by done.
    specialize (IH fuel (pre ++ enc e) Hn Hl Hq Hs ltac:(lia)). rewrite <- app_assoc in IH.
    rewrite u32_id by nia. rewrite s32_id by nia.
    replace (q * bps + Z.of_nat (length pre) + reclen e) with (q * bps + Z.of_nat (length (pre ++ enc e))) by (rewrite length_app; lia).
    replace (Z.of_nat (length pre) + reclen e) with (Z.of_nat (length (pre ++ enc e))) by (rewrite length_app; lia).
    rewrite IH by (rewrite !length_app; lia). destruct (split_name name l) as [[[l1 x] l2]|]; [|done].
    rewrite encs_cons, !length_app. do 2 f_equal. lia.
Qed.

(** ** Looking up a name in a directory *)

(** The blocks of the directory [v] are the rows of entries [ls]. *)
Record dir_ok (s : ext3) (v : VNode) (ls : list (list dirent)) : Prop := {
  dk_ok : ext3_ok s /\ file_ok s (blocks v);
  dk_geom : 4 <= blockSize s <= 4096;
  dk_size : size v = Z.of_nat (length ls) * blockSize s /\ size v < 2 ^ 31 /\ Z.of_nat (length ls) <= max_block s;
  dk_block : forall n l, zlookup ls n = Some l ->
    mapped s (blocks v) n <> 0 /\ data s (mapped s (blocks v) n) = encs l /\ Forall dirent_ok l;
}.

Definition entries (ls : list (list dirent)) : list dirent := concat ls.

(** The block of the first entry with the name, and the entry in it. *)
Fixpoint locate (name : list Z) (ls : list (list dirent)) (q : Z) : option (Z * (list dirent * dirent * list dirent)) :=
  match ls with
  | [] => None
  | l :: ls => match split_name name l with Some r => Some (q, r) | None => locate name ls (q + 1) end
  end.

Lemma locate_Some name ls : forall q n l1 e l2, locate name ls q = Some (n, (l1, e, l2)) ->
  q <= n /\ exists l, zlookup ls (n - q) = Some l /\ split_name name l = Some (l1, e, l2)
  /\ exists r, split_name name (entries ls) = Some r /\ snd (fst r) = e.
Proof.
  induction ls as [|l ls IH]; intros q n l1 e l2; [done|]. cbn [locate entries concat]. rewrite split_name_app.
  destruct (split_name name l) as [[[a x] b]|] eqn:E.
  - intros [= -> -> -> ->]. split; [lia|]. exists l. rewrite Z.sub_diag. split_and!; [done|done|]. by eexists.
  - intros H. destruct (IH _ _ _ _ _ H) as (Hq & l' & El & Es & [[r x] r2] & Er & Ex). split; [lia|]. exists l'.
    rewrite zlookup_cons. destruct (Z.eqb_spec (n - q) 0), (Z.ltb_spec (n - q) 0); try lia.
    replace (n - q - 1) with (n - (q + 1)) by lia. split_and!; [done|done|]. unfold entries in Er. rewrite Er. by eexists.
Qed.
Lemma locate_None name ls q : locate name ls q = None <-> split_name name (entries ls) = None.
Proof.
  revert q. induction ls as [|l ls IH]; intros q; [done|]. cbn [locate entries concat]. rewrite split_name_app.
  destruct (split_name name l) as [[[a x] b]|]; [done|]. rewrite IH. unfold entries.
  by destruct (split_name name (concat ls)) as [[[]]|].
Qed.

Lemma to_bytes_blk_length s b : ext3_ok s -> Z.of_nat (length (data s b)) = blockSize s.
Proof.
  intros I. unfold data. rewrite to_bytes_length. destruct (eo_blk s I b) as [L _].
  destruct (eo_geom s I) as (_ & _ & _ & _ & _ & _ & M). Z.div_mod_to_equations. lia.
Qed.

Lemma Ext3BlockRead_dir s v n l ls : dir_ok s v ls -> zlookup ls n = Some l ->
  Ext3BlockRead v n 0 s = Ret (Some (mapped s (blocks v) n), v, s).
Proof.
  intros D E. destruct (dk_ok _ _ _ D) as [I F], (dk_size _ _ _ D) as (_ & _ & M). destruct (zlookup_Some _ _ _ E) as [B _].
  destruct (dk_block _ _ _ D n l E) as (N & _). unfold Ext3BlockRead, Ext3BlockMap.
  rewrite Ext3BlockMapHandle_reads; [|done|done|apply (dk_geom _ _ _ D)|lia]. cbn [bindO].
  destruct (Z.eqb_spec (mapped s (blocks v) n) 0); [done|]. destruct (fo_data _ _ F n) as ([In _] & _); [lia|done|].
  destruct (eo_geom s I) as (_ & G & _). destruct (Z.ltb_spec (mapped s (blocks v) n) 0); [lia|]. by destruct v.
Qed.

Lemma find_blocks_spec s v ls name : dir_ok s v ls -> name_ok name -> forall rest q fuel,
  0 <= q -> drop (Z.to_nat q) ls = rest -> q + Z.of_nat (length rest) = Z.of_nat (length ls) ->
  (length (entries rest) + length rest < fuel)%nat ->
  find_blocks fuel v name (q * blockSize s) s
  = Ret (match locate name rest q with
         | Some (n, (l1, _, _)) => Some (mapped s (blocks v) n, Z.of_nat (length (encs l1)))
         | None => None end).
Proof.
  intros D Hn. destruct (dk_ok _ _ _ D) as [I F], (dk_size _ _ _ D) as (Es & Hs & _), (dk_geom _ _ _ D) as [B1 B2].
  induction rest as [|l rest IH]; intros q [|fuel] Hq Ed El Hf; try lia; cbn [find_blocks locate length] in *.
  - destruct (Z.ltb_spec (q * blockSize s) (size v)); [nia|done].
  - assert (E : zlookup ls q = Some l).
    { unfold zlookup. destruct (Z.leb_spec 0 q); [|lia]. rewrite <- (Nat.add_0_r (Z.to_nat q)), <- lookup_drop, Ed. done. }
    destruct (Z.ltb_spec (q * blockSize s) (size v)); [|nia]. destruct (Z.eqb_spec (blockSize s) 0); [lia|].
    rewrite Z.div_mul, (Ext3BlockRead_dir s v q l ls D E) by done. cbn [bindO]. rewrite Z.mod_mul by done.
    destruct (dk_block _ _ _ D q l E) as (N & Eb & Hl). cbn [entries concat] in Hf. rewrite length_app in Hf.
    pose proof (find_entry_spec name (blockSize s) (size v) q l fuel [] Hn Hl Hq) as Q. cbn [app length] in Q.
    change (Z.of_nat 0) with 0 in Q. rewrite Z.add_0_r in Q. rewrite Eb, Q; [|nia|lia|rewrite <- Eb; by apply to_bytes_blk_length].
    cbn [bindO]. destruct (split_name name l) as [[[l1 e] l2]|]; [done|].
    apply IH; [lia| |lia|unfold entries in *; lia].
    replace (Z.to_nat (q + 1)) with (Z.to_nat q + 1)%nat by lia. by rewrite <- drop_drop, Ed.
Qed.

(** Enough for the walk over a directory. *)
Definition walk_fuel (ls : list (list dirent)) (fuel : nat) : Prop := (length (entries ls) + length ls < fuel)%nat.

Lemma Ext3FindEntry_spec s v ls name fuel : dir_ok s v ls -> name_ok name -> walk_fuel ls fuel ->
  Ext3FindEntry fuel v name s = Ret (match locate name ls 0 with
    | Some (n, (l1, _, _)) => (0, Some (mapped s (blocks v) n, Z.of_nat (length (encs l1))))
    | None => (- ENOENT, None) end).
Proof.
  intros D Hn Hf. unfold Ext3FindEntry. pose proof (find_blocks_spec s v ls name D Hn ls 0 fuel ltac:(lia) eq_refl ltac:(lia) Hf) as E.
  rewrite Z.mul_0_l in E. rewrite E. cbn [bindO]. by destruct (locate name ls 0) as [[n [[l1 e] l2]]|].
Qed.

(** What a directory says about a name. *)
Definition dir_lookup (name : list Z) (ls : list (list dirent)) : option Z :=
  match split_name name (entries ls) with Some (_, e, _) => Some (d_ino e) | None => None end.

Lemma split_entry_at s v ls n l name l1 e l2 : dir_ok s v ls -> zlookup ls n = Some l -> split_name name l = Some (l1, e, l2) ->
  data s (mapped s (blocks v) n) = encs l1 ++ enc e ++ encs l2 /\ dirent_ok e.
Proof.
  intros D E H. apply split_name_Some in H as (-> & _). destruct (dk_block _ _ _ D n _ E) as (_ & -> & Hl).
  rewrite encs_app, encs_cons. split; [done|]. by apply Forall_app in Hl as [_ [He _]%Forall_cons].
Qed.

Lemma Ext3Lookup_spec s v ls name fuel : dir_ok s v ls -> name_ok name -> walk_fuel ls fuel ->
  Ext3Lookup fuel v name s = Ret (match dir_lookup name ls with Some n => (0, Some n) | None => (- ENOENT, None) end).
Proof.
  intros D Hn Hf. unfold Ext3Lookup, dir_lookup. rewrite (Ext3FindEntry_spec s v ls) by done. cbn [bindO].
  destruct (locate name ls 0) as [[n [[l1 e] l2]]|] eqn:E.
  - destruct (locate_Some _ _ _ _ _ _ _ E) as (_ & l & El & Es & [[r x] r2] & -> & Ex). cbn in Ex. subst x.
    rewrite Z.sub_0_r in El. destruct (split_entry_at s v ls n l name l1 e l2 D El Es) as [-> He]. by rewrite get_entry_at.
  - apply locate_None in E. by rewrite E.
Qed.

(** ** Changes that keep the allocation

    Only blocks in [X] and the counts of inodes differ. *)
Definition layout (d : Ext3GroupDesc) : Z * Z * Z * Z := (blockBitmap d, iNodeBitmap d, iNodeTable d, freeBlocks d).
Record frame (X : Z -> Prop) (s s' : ext3) : Prop := {
  fr_geom : iNodesCount s' = iNodesCount s /\ groupCount s' = groupCount s /\ iNodesPerGrp s' = iNodesPerGrp s
    /\ firstDataBlock s' = firstDataBlock s /\ blocksPerGrp s' = blocksPerGrp s /\ blockSize s' = blockSize s
    /\ sb_freeBlocks s' = sb_freeBlocks s;
  fr_descs : layout <$> descs s' = layout <$> descs s;
  fr_blk : forall b, ~ X b -> blk s' b = blk s b;
  fr_words : forall b, length (blk s' b) = length (blk s b) /\ (Forall is_word (blk s b) -> Forall is_word (blk s' b));
  fr_saved : saved s s';
}.

Lemma zlookup_fmap {A B} (f : A -> B) l i : zlookup (f <$> l) i = f <$> zlookup l i.
Proof. unfold zlookup. destruct (0 <=? i); [apply list_lookup_fmap|done]. Qed.
Lemma frame_desc X s s' g d' : frame X s s' -> zlookup (descs s') g = Some d' ->
  exists d, zlookup (descs s) g = Some d /\ layout d' = layout d.
Proof.
  intros Fr E. assert (Q : layout <$> zlookup (descs s') g = layout <$> zlookup (descs s) g) by (by rewrite <- !zlookup_fmap, (fr_descs _ _ _ Fr)).
  rewrite E in Q. cbn in Q. symmetry in Q. apply fmap_Some in Q as (d & Ed & L). eauto.
Qed.
Lemma frame_desc' X s s' g d : frame X s s' -> zlookup (descs s) g = Some d ->
  exists d', zlookup (descs s') g = Some d' /\ layout d' = layout d.
Proof.
  intros Fr E. assert (Q : layout <$> zlookup (descs s') g = layout <$> zlookup (descs s) g) by (by rewrite <- !zlookup_fmap, (fr_descs _ _ _ Fr)).
  rewrite E in Q. cbn in Q. apply fmap_Some in Q as (d' & Ed & L). eauto.
Qed.
Lemma total_layout l l' : layout <$> l' = layout <$> l -> total l' = total l.
Proof.
  revert l'. induction l as [|d l IH]; intros [|d' l'] E; try done. cbn in E. injection E as _ _ _ E1 E2.
  unfold total in *. cbn. by rewrite E1, (IH l').
Qed.

Section Frame.
Context (X : Z -> Prop) (s s' : ext3) (I : ext3_ok s) (Fr : frame X s s') (NB : forall b, X b -> ~ is_bitmap s b).

Lemma frame_bitmap g d : zlookup (descs s) g = Some d -> blk s' (blockBitmap d) = blk s (blockBitmap d).
Proof. intros E. apply (fr_blk _ _ _ Fr). intros H. apply (NB _ H). by exists g, d. Qed.
Lemma frame_is_bitmap b : is_bitmap s' b <-> is_bitmap s b.
Proof.
  split; intros (g & d & E & <-).
  - destruct (frame_desc _ _ _ g d Fr E) as (d' & E' & [= -> _ _ _]). by exists g, d'.
  - destruct (frame_desc' _ _ _ g d Fr E) as (d' & E' & [= <- _ _ _]). by exists g, d'.
Qed.
Lemma frame_used b : used s' b = used s b.
Proof.
  unfold used. destruct (fr_geom _ _ _ Fr) as (_ & _ & _ & -> & -> & _).
  destruct (zlookup (descs s) _) as [d|] eqn:E.
  - destruct (frame_desc' _ _ _ _ d Fr E) as (d' & -> & [= -> _ _ _]). by rewrite (frame_bitmap _ d E).
  - destruct (zlookup (descs s') _) as [d'|] eqn:E'; [|done].
    destruct (frame_desc _ _ _ _ d' Fr E') as (d & Ed & _). congruence.
Qed.
Lemma frame_in_fs b : in_fs s' b <-> in_fs s b.
Proof. unfold in_fs. by destruct (fr_geom _ _ _ Fr) as (_ & -> & _ & -> & -> & _). Qed.

Lemma frame_ext3_ok : ext3_ok s'.
Proof.
  destruct (fr_geom _ _ _ Fr) as (_ & E1 & _ & E2 & E3 & E4 & E5). split.
  - rewrite E1, E2, E3, E4. apply (eo_geom s I).
  - rewrite E1, <- (eo_descs s I). f_equal. rewrite <- (length_fmap layout (descs s')), (fr_descs _ _ _ Fr). apply length_fmap.
  - intros b. rewrite E4. destruct (fr_words _ _ _ Fr b) as [-> W]. destruct (eo_blk s I b) as [L F]. split; [done|by apply W].
  - intros g d' E. destruct (frame_desc _ _ _ g d' Fr E) as (d & Ed & [= -> _ _ ->]).
    rewrite frame_in_fs, frame_used, (frame_bitmap g d Ed), E3. by apply (eo_bitmap s I g).
  - intros g h d' e' Eg Eh. destruct (frame_desc _ _ _ g d' Fr Eg) as (d & Ed & [= -> _ _ _]).
    destruct (frame_desc _ _ _ h e' Fr Eh) as (e & Ee & [= -> _ _ _]). by apply (eo_distinct s I).
  - rewrite E5, (eo_super s I). symmetry. apply total_layout, (fr_descs _ _ _ Fr).
  - rewrite frame_in_fs, frame_used. apply (eo_zero s I).
Qed.

Context (Big : 4 <= blockSize s) (bl : list Z) (F : file_ok s bl)
  (NT : forall id, tid_ok s id -> tab s bl id <> 0 -> ~ X (tab s bl id)).

Lemma frame_word_at id i : tid_ok s id -> word_at s' (tab s bl id) i = word_at s (tab s bl id) i.
Proof.
  intros T. unfold word_at. destruct (Z.eqb_spec (tab s bl id) 0); [done|]. by rewrite (fr_blk _ _ _ Fr) by (by apply NT).
Qed.
Lemma frame_tab id : tab s' bl id = tab s bl id.
Proof. destruct id; cbn; [done|done|]. by apply (frame_word_at Double). Qed.
Lemma frame_mapped n : 0 <= n < max_block s -> mapped s' bl n = mapped s bl n.
Proof.
  intros Hn. destruct (fr_geom _ _ _ Fr) as (_ & _ & _ & _ & _ & E4 & _). unfold mapped.
  destruct (Z.ltb_spec n 12); [done|]. replace (place s' n) with (place s n) by (unfold place; by rewrite E4).
  rewrite frame_tab. apply frame_word_at. destruct (place_ok s n Big) as [? _]; [lia|done].
Qed.

Lemma frame_file_ok : file_ok s' bl.
Proof.
  destruct (fr_geom _ _ _ Fr) as (_ & _ & _ & _ & _ & E4 & _).
  assert (T : forall id, tid_ok s' id <-> tid_ok s id) by (intros []; cbn; by rewrite ?E4).
  assert (M : max_block s' = max_block s) by (unfold max_block; by rewrite E4).
  assert (O : forall b, owned s b -> owned s' b).
  { intros b (B1 & B2 & B3). split_and!; [by apply frame_in_fs|by rewrite frame_used|by rewrite frame_is_bitmap]. }
  split.
  - apply (fo_length _ _ F).
  - intros id H. rewrite frame_tab. intros N. apply O, (fo_tables _ _ F); [by apply T|done].
  - intros id id' H H'. rewrite !frame_tab. apply (fo_distinct _ _ F); by apply T.
  - intros n Hn. rewrite M in Hn. rewrite frame_mapped by done. intros N. by apply O, (fo_data _ _ F).
  - intros n m Hn Hm. rewrite M in *. rewrite !frame_mapped by done. by apply (fo_inj _ _ F).
  - intros n id Hn H. rewrite M in *. rewrite frame_mapped, frame_tab by done. apply (fo_apart _ _ F); [done|by apply T].
Qed.
End Frame.

(** ** Adding an entry to a block *)

Lemma EXT3_DIR_REC_LEN_eq k : EXT3_DIR_REC_LEN k = k + 11 - (k + 11) mod 4.
Proof.
  unfold EXT3_DIR_REC_LEN. replace (k + 8 + 3) with (k + 11) by lia. rewrite <- Z.ldiff_land. change 3 with (Z.ones 2).
  rewrite Z.ldiff_ones_r by lia. rewrite Z.shiftl_mul_pow2, Z.shiftr_div_pow2 by lia. change (2 ^ 2) with 4.
  pose proof (Z.div_mod (k + 11) 4). lia.
Qed.
Lemma EXT3_DIR_REC_LEN_bounds k : 0 <= k -> k + 8 <= EXT3_DIR_REC_LEN k <= k + 11.
Proof. intros H. rewrite EXT3_DIR_REC_LEN_eq. pose proof (Z.mod_pos_bound (k + 11) 4). lia. Qed.

Lemma put_in pre l n k new : Z.of_nat (length pre) = n -> (k + length new <= length l)%nat ->
  put_bytes (pre ++ l) (n + Z.of_nat k) new = Ret (pre ++ take k l ++ new ++ drop (k + length new) l).
Proof.
  intros Hn Hk. rewrite <- (take_drop k l) at 1. rewrite <- (take_drop (length new) (drop k l)), drop_drop.
  rewrite (app_assoc pre). rewrite put_bytes_at.
  - by rewrite <- !app_assoc.
  - rewrite length_app, length_take. lia.
  - rewrite length_take, length_drop. lia.
Qed.

(** The writes that fill the entry at [off]. *)
Definition fill (bs : list Z) (off : Z) (name : list Z) (ino ftype : Z) : outcome (list Z) :=
  let* bs := put8 bs (off + 7) EXT3_FT_UNKNOWN in
  let* bs := put32 bs off ino in
  let* bs := put8 bs (off + 7) ftype in
  let* bs := put8 bs (off + 6) (Z.of_nat (length name)) in
  put_bytes bs (off + 8) name.

Lemma fill_spec pre a b t u rest nm n name ino ftype : Z.of_nat (length pre) = n -> length a = 4%nat -> length b = 2%nat ->
  length nm = length name -> fill (pre ++ (a ++ b ++ [t; u]) ++ nm ++ rest) n name ino ftype
  = Ret (pre ++ (word_bytes ino ++ b ++ [u8 (Z.of_nat (length name)); u8 ftype]) ++ name ++ rest).
Proof.
  intros Hn La Lb Ln. do 4 (destruct a as [|? a]; [done|]). destruct a; [|done]. do 2 (destruct b as [|? b]; [done|]). destruct b; [|done].
  unfold fill, put8, put32. replace (n + 7) with (n + Z.of_nat 7) by lia. replace (n + 6) with (n + Z.of_nat 6) by lia.
  replace (n + 8) with (n + Z.of_nat 8) by lia.
  cbn [app]. rewrite (put_in pre) by (done || (cbn; lia)). cbn [bindO app take drop length Nat.add]. rewrite ?drop_0.
  replace n with (n + Z.of_nat 0) at 1 by lia.
  do 4 (rewrite (put_in pre) by (done || (cbn; rewrite ?length_app; lia)); cbn [bindO app take drop length Nat.add word_bytes]; rewrite ?drop_0, ?take_0).
  by rewrite <- Ln, drop_app_length.
Qed.

(** The entry takes a new one: it shrinks to its name, or is replaced when
    it is not in use. *)
Definition used_len (e : dirent) : Z := EXT3_DIR_REC_LEN (Z.of_nat (length (d_name e))).
Definition fits (name : list Z) (e : dirent) : bool :=
  let rec_len := EXT3_DIR_REC_LEN (Z.of_nat (length name)) in
  ((d_ino e =? 0) && (rec_len <=? reclen e)) || (used_len e + rec_len <=? reclen e).
Definition take_room (name : list Z) (ino ftype : Z) (e : dirent) : list dirent :=
  if d_ino e =? 0 then
    [{| d_ino := ino; d_name := name; d_type := ftype; d_pad := drop (length name) (d_name e ++ d_pad e) |}]
  else
    let k := Z.to_nat (used_len e - 8 - Z.of_nat (length (d_name e))) in
    [{| d_ino := d_ino e; d_name := d_name e; d_type := d_type e; d_pad := take k (d_pad e) |};
     {| d_ino := ino; d_name := name; d_type := ftype; d_pad := drop (8 + length name) (drop k (d_pad e)) |}].
Fixpoint add_entry (name : list Z) (ino ftype : Z) (l : list dirent) : option (list dirent) :=
  match l with
  | [] => None
  | e :: l => if fits name e then Some (take_room name ino ftype e ++ l) else cons e <$> add_entry name ino ftype l
  end.

Lemma chop (q : list Z) m : (8 + m <= length q)%nat -> exists a b t u nm, q = (a ++ b ++ [t; u]) ++ nm ++ drop (8 + m) q
  /\ length a = 4%nat /\ length b = 2%nat /\ length nm = m.
Proof.
  intros H. do 8 (destruct q as [|? q]; [cbn in H; lia|]). cbn [length drop Nat.add] in *.
  eexists [_; _; _; _], [_; _], _, _, (take m q). split_and!; [|done|done|rewrite length_take; lia].
  cbn [app]. by rewrite take_drop.
Qed.

(** The case of an entry in use. *)
Lemma split_room pre e post n name ino ftype bs1 : Z.of_nat (length pre) = n -> dirent_ok e -> name_ok name ->
  used_len e + EXT3_DIR_REC_LEN (Z.of_nat (length name)) <= reclen e -> d_ino e <> 0 -> is_byte ftype ->
  bs1 = pre ++ enc e ++ post ->
  (let* bs := put16 bs1 (n + used_len e + 4) (reclen e - used_len e) in
   let* bs := put16 bs (n + 4) (used_len e) in fill bs (n + used_len e) name ino ftype)
  = Ret (pre ++ encs (take_room name ino ftype e) ++ post).
Proof.
  intros Hn He [_ Hl] Hfit N0 Ht ->. unfold take_room. destruct (Z.eqb_spec (d_ino e) 0); [done|].
  pose proof (EXT3_DIR_REC_LEN_bounds (Z.of_nat (length name)) ltac:(lia)).
  pose proof (EXT3_DIR_REC_LEN_bounds (Z.of_nat (length (d_name e))) ltac:(lia)) as Hu. fold (used_len e) in Hu.
  set (k := Z.to_nat (used_len e - 8 - Z.of_nat (length (d_name e)))).
  assert (Lk : Z.of_nat k = used_len e - 8 - Z.of_nat (length (d_name e))) by (unfold k; lia).
  assert (Lp : reclen e = 8 + Z.of_nat (length (d_name e)) + Z.of_nat (length (d_pad e))) by done.
  destruct (chop (drop k (d_pad e)) (length name)) as (a & b & t & u & nm & Eq & La & Lb & Ln); [rewrite length_drop; lia|].
  set (rest := drop (8 + length name) (drop k (d_pad e))) in *.
  assert (Lr : Z.of_nat (length rest) = reclen e - used_len e - 8 - Z.of_nat (length name)) by (unfold rest; rewrite !length_drop; lia).
  assert (Le : pre ++ enc e ++ post = (pre ++ header e ++ d_name e ++ take k (d_pad e)) ++ (a ++ b ++ [t; u]) ++ nm ++ rest ++ post).
  { unfold enc. rewrite <- (take_drop k (d_pad e)) at 1. rewrite Eq. by rewrite <- !app_assoc. }
  rewrite Le. unfold put16. change 4 with (Z.of_nat 4).
  do 4 (destruct a as [|? a]; [done|]). destruct a; [|done]. do 2 (destruct b as [|? b]; [done|]). destruct b; [|done].
  rewrite put_in; [|rewrite !length_app, length_take, header_length; lia|cbn; lia]. cbn [bindO app take drop length Nat.add half_bytes].
  rewrite <- (app_assoc pre). rewrite put_in; [|done|unfold header; cbn; lia].
  unfold header at 1. cbn [bindO app take drop length Nat.add half_bytes word_bytes]. rewrite ?drop_0.
  set (e1 := {| d_ino := d_ino e; d_name := d_name e; d_type := d_type e; d_pad := take k (d_pad e) |}).
  set (e2 := {| d_ino := ino; d_name := name; d_type := ftype; d_pad := rest |}).
  assert (R1 : reclen e1 = used_len e) by (change (reclen e1) with (8 + Z.of_nat (length (d_name e)) + Z.of_nat (length (take k (d_pad e)))); rewrite length_take; lia).
  assert (R2 : reclen e2 = reclen e - used_len e) by (change (reclen e2) with (8 + Z.of_nat (length name) + Z.of_nat (length rest)); lia).
  pose proof (fill_spec (pre ++ enc e1) [z; z0; z1; z2] (half_bytes (reclen e2)) t u (rest ++ post) nm (n + used_len e) name ino ftype) as Q.
  assert (Lpre : Z.of_nat (length (pre ++ enc e1)) = n + used_len e) by (rewrite length_app, Nat2Z.inj_add, enc_length; lia).
  specialize (Q Lpre eq_refl eq_refl Ln). rewrite R2 in Q.
  replace (pre ++ _) with ((pre ++ enc e1) ++ ([z; z0; z1; z2] ++ half_bytes (reclen e - used_len e) ++ [t; u]) ++ nm ++ rest ++ post).
  2: { unfold enc, header. rewrite R1. cbn. rewrite <- !app_assoc. cbn. by rewrite <- !app_assoc. }
  rewrite Q. unfold encs. cbn [fmap list_fmap concat]. unfold enc at 3, header. rewrite R2. cbn [d_ino d_name d_type d_pad e2].
  rewrite (u8_id (Z.of_nat (length name))), (u8_id ftype) by (done || lia). by rewrite <- !app_assoc, app_nil_l.
Qed.

(** The case of an entry that is not in use. *)
Lemma reuse_room pre e post n name ino ftype : Z.of_nat (length pre) = n -> dirent_ok e -> name_ok name ->
  EXT3_DIR_REC_LEN (Z.of_nat (length name)) <= reclen e -> d_ino e = 0 -> is_byte ftype ->
  fill (pre ++ enc e ++ post) n name ino ftype = Ret (pre ++ encs (take_room name ino ftype e) ++ post).
Proof.
  intros Hn He [_ Hl] Hfit E0 Ht. unfold take_room. rewrite E0. cbn [Z.eqb].
  pose proof (EXT3_DIR_REC_LEN_bounds (Z.of_nat (length name)) ltac:(lia)).
  assert (Lp : reclen e = 8 + Z.of_nat (length (d_name e)) + Z.of_nat (length (d_pad e))) by done.
  unfold enc, header. rewrite <- !app_assoc, (app_assoc (d_name e)).
  rewrite <- (take_drop (length name) (d_name e ++ d_pad e)) at 1. rewrite <- (app_assoc (take _ _)).
  pose proof (fill_spec pre (word_bytes (d_ino e)) (half_bytes (reclen e)) (Z.of_nat (length (d_name e))) (d_type e)
    (drop (length name) (d_name e ++ d_pad e) ++ post) (take (length name) (d_name e ++ d_pad e)) n name ino ftype Hn eq_refl eq_refl) as Q.
  rewrite <- !app_assoc in Q. rewrite Q by (rewrite length_take, length_app; lia).
  unfold encs. cbn [fmap list_fmap concat]. unfold enc, header. cbn [d_ino d_name d_type d_pad].
  match goal with |- context [reclen ?x] => replace (reclen x) with (reclen e) by (unfold reclen at 2; cbn; rewrite length_drop, length_app; lia) end.
  rewrite (u8_id (Z.of_nat (length name))), (u8_id ftype) by (done || lia). by rewrite <- !app_assoc, app_nil_l.
Qed.

Lemma add_loop_spec name ino ftype bps l : name_ok name -> is_byte ftype -> forall fuel pre, Forall dirent_ok l ->
  (length l < fuel)%nat -> Z.of_nat (length (pre ++ encs l)) = bps ->
  add_loop fuel (pre ++ encs l) (Z.of_nat (length pre)) bps name ino ftype
  = match add_entry name ino ftype l with Some l' => Ret (pre ++ encs l') | None => Panic end.
Proof.
  intros Hn Ht. induction l as [|e l IH]; intros [|fuel] pre Hl Hf Hb; cbn [length] in Hf; try lia; cbn [add_loop add_entry].
  - rewrite app_nil_r in Hb. by destruct (Z.leb_spec bps (Z.of_nat (length pre))); [|lia].
  - apply Forall_cons in Hl as [He Hl]. rewrite encs_cons in *. pose proof (enc_length e) as Le.
    assert (8 <= reclen e) by (unfold reclen; lia). rewrite !length_app in Hb.
    destruct (Z.leb_spec bps (Z.of_nat (length pre))); [lia|]. rewrite get_entry_at by done. cbn [bindO fields nameLen recLen iNodeNum].
    fold (used_len e). change (_ || _) with (fits name e) at 1. destruct (fits name e) eqn:Ef.
    + rewrite encs_app. unfold fits in Ef. apply orb_true_iff in Ef. rewrite andb_true_iff, !Z.leb_le in Ef.
      unfold c_true. destruct (Z.eqb_spec (d_ino e) 0) as [E0|N0]; cbn [negb bindO].
      * apply (reuse_room pre e (encs l)); try done. pose proof (EXT3_DIR_REC_LEN_bounds (Z.of_nat (length (d_name e))) ltac:(lia)).
        unfold used_len in Ef. lia.
      * rewrite <- (split_room pre e (encs l) (Z.of_nat (length pre)) name ino ftype (pre ++ enc e ++ encs l) eq_refl He Hn); [|naive_solver|done|done|done].
        destruct (put16 _ _ _) as [bs| | |]; [|done..]. cbn [bindO]. by destruct (put16 bs _ _).
    + specialize (IH fuel (pre ++ enc e) Hl ltac:(lia)). rewrite <- app_assoc in IH.
      replace (Z.of_nat (length pre) + reclen e) with (Z.of_nat (length (pre ++ enc e))) by (rewrite length_app; lia).
      rewrite IH by (rewrite !length_app; lia). destruct (add_entry name ino ftype l) as [l'|]; [|done]. by rewrite <- app_assoc.
Qed.

(** What adding does to a row of entries. *)
Lemma take_room_ok name ino ftype e : name_ok name -> is_word ino -> is_byte ftype -> dirent_ok e -> fits name e = true ->
  Forall dirent_ok (take_room name ino ftype e) /\ length (encs (take_room name ino ftype e)) = length (enc e).
Proof.
  intros Hn Hi Ht He Hf. destruct He as [Hi' Hn' Ht' Hp Hl]. unfold fits in Hf. apply orb_true_iff in Hf. rewrite andb_true_iff, !Z.leb_le in Hf.
  pose proof (EXT3_DIR_REC_LEN_bounds (Z.of_nat (length name)) ltac:(lia)).
  pose proof (EXT3_DIR_REC_LEN_bounds (Z.of_nat (length (d_name e))) ltac:(lia)) as Hu. fold (used_len e) in Hu.
  assert (Lp : reclen e = 8 + Z.of_nat (length (d_name e)) + Z.of_nat (length (d_pad e))) by done.
  pose proof (enc_length e) as Le. unfold take_room. destruct (Z.eqb_spec (d_ino e) 0) as [E0|N0].
  - set (x := {| d_ino := ino |}). assert (R : reclen x = reclen e).
    { unfold reclen at 1, x. cbn [d_name d_pad]. rewrite length_drop, length_app. lia. }
    pose proof (enc_length x). split; [|rewrite encs_cons, length_app; change (length (encs [])) with 0%nat; lia]. constructor; [|done].
    split; cbn [d_ino d_name d_type d_pad x]; try done; [|lia]. unfold wf_bytes. apply Forall_drop, Forall_app. split; [|done].
    destruct Hn' as [F _]. eapply Forall_impl; [exact F|]. unfold is_byte. cbn. lia.
  - set (k := Z.to_nat _). assert (Lk : Z.of_nat k = used_len e - 8 - Z.of_nat (length (d_name e))) by (unfold k; lia).
    set (x := {| d_ino := d_ino e |}). set (y := {| d_ino := ino |}).
    assert (Rx : reclen x = used_len e) by (unfold reclen, x; cbn [d_name d_pad]; rewrite length_take; lia).
    assert (Ry : reclen y = reclen e - used_len e) by (unfold reclen at 1, y; cbn [d_name d_pad]; rewrite !length_drop; lia).
    pose proof (enc_length x). pose proof (enc_length y). split.
    + constructor; [|constructor; [|done]]; split; cbn [d_ino d_name d_type d_pad x y]; try done; try lia.
      * by apply Forall_take.
      * by apply Forall_drop, Forall_drop.
    + rewrite !encs_cons, !length_app. change (length (encs [])) with 0%nat. lia.
Qed.

Lemma add_entry_ok name ino ftype l l' : name_ok name -> is_word ino -> is_byte ftype -> Forall dirent_ok l ->
  add_entry name ino ftype l = Some l' -> Forall dirent_ok l' /\ length (encs l') = length (encs l).
Proof.
  intros Hn Hi Ht Hl. revert l'. induction Hl as [|e l He Hl IH]; intros l'; [done|]. cbn [add_entry]. destruct (fits name e) eqn:Ef.
  - intros [= <-]. destruct (take_room_ok name ino ftype e Hn Hi Ht He Ef) as [F L].
    rewrite encs_app, encs_cons, !length_app. split; [by apply Forall_app|lia].
  - intros (l1 & E & ->)%fmap_Some. destruct (IH l1 E) as [F L]. rewrite !encs_cons, !length_app. split; [by constructor|lia].
Qed.

(** The names with their inodes. *)
Definition key (e : dirent) : list Z * Z := (d_name e, d_ino e).
Fixpoint assoc (name : list Z) (l : list (list Z * Z)) : option Z :=
  match l with [] => None | (n, i) :: l => if decide (n = name) then Some i else assoc name l end.
Lemma assoc_app name l l' : assoc name (l ++ l') = match assoc name l with Some i => Some i | None => assoc name l' end.
Proof. induction l as [|[n i] l IH]; [done|]. cbn. by case_decide. Qed.
Lemma assoc_None name l : assoc name l = None <-> name ∉ l.*1.
Proof.
  induction l as [|[n i] l IH]; cbn; [by split; [intros _ ?%elem_of_nil|]|]. rewrite not_elem_of_cons.
  case_decide; naive_solver.
Qed.
Lemma dir_lookup_assoc name ls : dir_lookup name ls = assoc name (key <$> entries ls).
Proof.
  unfold dir_lookup. induction (entries ls) as [|e l IH]; [done|]. cbn. case_decide; [done|].
  rewrite <- IH. by destruct (split_name name l) as [[[]]|].
Qed.

Definition in_use (e : dirent) : Prop := d_ino e <> 0.
Lemma add_entry_keys name ino ftype l l' : Forall in_use l -> add_entry name ino ftype l = Some l' -> ino <> 0 ->
  Forall in_use l' /\ exists k1 k2, key <$> l = k1 ++ k2 /\ key <$> l' = k1 ++ (name, ino) :: k2.
Proof.
  intros Hl. revert l'. induction Hl as [|e l He Hl IH]; intros l'; [done|]. cbn. destruct (fits name e).
  - intros [= <-] Hi. unfold take_room. destruct (Z.eqb_spec (d_ino e) 0); [done|]. split; [by repeat constructor|].
    by exists [key e], (key <$> l).
  - intros (l1 & E & ->)%fmap_Some Hi. destruct (IH l1 E Hi) as (F & k1 & k2 & E1 & E2). split; [by constructor|].
    exists (key e :: k1), k2. cbn. by rewrite E1, E2.
Qed.

(** ** Removing an entry from a block *)

Definition no_inode (e : dirent) : dirent := {| d_ino := 0; d_name := d_name e; d_type := d_type e; d_pad := d_pad e |}.
(** The room of [e] goes to the entry before it. *)
Definition absorb (p e : dirent) : dirent :=
  {| d_ino := d_ino p; d_name := d_name p; d_type := d_type p; d_pad := d_pad p ++ enc e |}.

Lemma absorb_len p e : reclen (absorb p e) = reclen p + reclen e.
Proof. rewrite <- (enc_length e). unfold reclen, absorb. cbn [d_name d_pad]. rewrite length_app. lia. Qed.
Lemma enc_bytes e : dirent_ok e -> wf_bytes (enc e).
Proof.
  intros [Hi [Hn Hl] Ht Hp _]. unfold enc, header, wf_bytes. rewrite !Forall_app. split_and!.
  - repeat (constructor; [apply u8_range|]). constructor.
  - repeat (constructor; [apply u8_range|]). constructor.
  - constructor; [unfold is_byte; lia|]. constructor; [done|constructor].
  - eapply Forall_impl; [exact Hn|]. unfold is_byte. cbn. lia.
  - done.
Qed.

Lemma remove_first fuel e l bps : dirent_ok e -> Z.of_nat (length (encs (e :: l))) = bps ->
  remove_loop (S fuel) (encs (e :: l)) None 0 0 bps = Ret (0, encs (no_inode e :: l)).
Proof.
  intros He Hb. cbn [remove_loop]. rewrite !encs_cons in *. rewrite length_app in Hb. pose proof (enc_length e).
  assert (8 <= reclen e) by (unfold reclen; lia). destruct (Z.ltb_spec 0 bps); [|lia].
  pose proof (get_entry_at [] e (encs l) 0 eq_refl He) as G. cbn [app] in G. rewrite G. cbn [bindO Z.eqb]. unfold put32, enc, header at 1. rewrite <- !app_assoc.
  pose proof (put_bytes_at (word_bytes 0) [] (word_bytes (d_ino e))) as Q. cbn [app] in Q. by rewrite Q.
Qed.

Lemma put16_reclen pre p r post n : Z.of_nat (length pre) = n -> 0 <= r < 2 ^ 16 ->
  put16 (pre ++ enc p ++ post) (n + 4) r = Ret (pre ++ (word_bytes (d_ino p) ++ half_bytes r ++ [Z.of_nat (length (d_name p)); d_type p])
    ++ d_name p ++ d_pad p ++ post).
Proof.
  intros Hn Hr. unfold put16, enc, header. rewrite <- !app_assoc, (app_assoc pre).
  rewrite (put_bytes_at (half_bytes r)) by (done || (rewrite length_app; cbn; lia)). by rewrite <- !app_assoc.
Qed.

Lemma remove_next bps e l2 p l0 : forall fuel pre prev, Forall dirent_ok (l0 ++ p :: e :: l2) -> (length l0 + 2 <= fuel)%nat ->
  Z.of_nat (length (pre ++ encs (l0 ++ p :: e :: l2))) = bps -> bps < 2 ^ 16 ->
  remove_loop fuel (pre ++ encs (l0 ++ p :: e :: l2)) prev (Z.of_nat (length pre)) (Z.of_nat (length (pre ++ encs (l0 ++ [p])))) bps
  = Ret (0, pre ++ encs (l0 ++ absorb p e :: l2)).
Proof.
  induction l0 as [|x l0 IH]; intros [|fuel] pre prev Hl Hf Hb Hs; cbn [length app] in Hf; try lia; cbn [app] in *;
    apply Forall_cons in Hl as [Hx Hl]; rewrite !encs_cons in *; cbn [remove_loop].
  - rewrite !length_app in Hb. pose proof (enc_length p) as Lp. pose proof (enc_length e) as Le.
    assert (8 <= reclen p /\ 8 <= reclen e) as [? ?] by (unfold reclen; lia).
    apply Forall_cons in Hl as [He Hl]. destruct (Z.ltb_spec (Z.of_nat (length pre)) bps); [|lia].
    rewrite get_entry_at by done. cbn [bindO fields recLen]. change (length (pre ++ enc p ++ encs [])) with (length (pre ++ enc p ++ [])).
    rewrite app_nil_r, length_app. destruct (Z.eqb_spec (Z.of_nat (length pre + length (enc p))) (Z.of_nat (length pre))); [lia|].
    destruct fuel as [|fuel]; [lia|]. cbn [remove_loop]. rewrite u32_id by lia.
    destruct (Z.ltb_spec (Z.of_nat (length pre) + reclen p) bps); [|lia].
    rewrite (app_assoc pre (enc p)), (get_entry_at (pre ++ enc p)) by (done || (rewrite length_app; lia)). cbn [bindO].
    destruct (Z.eqb_spec (Z.of_nat (length pre + length (enc p))) (Z.of_nat (length pre) + reclen p)); [|lia].
    rewrite <- (app_assoc pre), get_entry_at by done. cbn [bindO fields recLen].
    rewrite put16_reclen by (done || lia). cbn [bindO]. do 2 f_equal. f_equal. unfold enc at 2, header. rewrite absorb_len.
    cbn [absorb d_ino d_name d_type d_pad]. by rewrite <- !app_assoc.
  - rewrite !length_app in Hb. pose proof (enc_length x) as Lx. assert (8 <= reclen x) by (unfold reclen; lia).
    assert (Lp : 8 <= reclen p) by (unfold reclen; lia). pose proof (enc_length p).
    rewrite encs_app in *. rewrite !encs_cons in *. rewrite !length_app in Hb.
    destruct (Z.ltb_spec (Z.of_nat (length pre)) bps); [|lia].
    rewrite get_entry_at by done. cbn [bindO fields recLen].
    destruct (Z.eqb_spec (Z.of_nat (length (pre ++ enc x ++ encs (l0 ++ [p])))) (Z.of_nat (length pre))) as [E|]; [rewrite !length_app in E; lia|].
    rewrite u32_id by lia. specialize (IH fuel (pre ++ enc x) (Some (Z.of_nat (length pre))) Hl ltac:(lia)).
    rewrite !encs_app, !encs_cons, <- !app_assoc in IH. rewrite !encs_app, !encs_cons.
    replace (Z.of_nat (length pre) + reclen x) with (Z.of_nat (length (pre ++ enc x))) by (rewrite length_app; lia).
    rewrite IH; [done|rewrite !length_app; lia|done].
Qed.

(** ** Changing one block of a directory *)

Lemma to_of_bytes n : forall bs, length bs = (4 * n)%nat -> wf_bytes bs -> to_bytes (of_bytes bs) = bs.
Proof.
  induction n as [|n IH]; intros bs Hl Hw; [by destruct bs|].
  do 4 (destruct bs as [|? bs]; [cbn in Hl; lia|]). unfold wf_bytes in Hw. repeat (apply Forall_cons in Hw as [? Hw]).
  cbn [of_bytes to_bytes word_bytes app]. rewrite IH by (done || (cbn in Hl; lia)). unfold is_byte, u8 in *.
  repeat f_equal; Z.div_mod_to_equations; lia.
Qed.

Lemma encs_bytes l : Forall dirent_ok l -> wf_bytes (encs l).
Proof. induction 1 as [|e l He _ IH]; [constructor|]. rewrite encs_cons. unfold wf_bytes. apply Forall_app. split; [by apply enc_bytes|done]. Qed.

Lemma frame_mono (X Y : Z -> Prop) s s' : (forall b, X b -> Y b) -> frame X s s' -> frame Y s s'.
Proof. intros H [G D B W Sv]. split; try done. intros b N. apply B. naive_solver. Qed.
Lemma frame_trans X s1 s2 s3 : frame X s1 s2 -> frame X s2 s3 -> frame X s1 s3.
Proof.
  intros [G1 D1 B1 W1 S1] [G2 D2 B2 W2 S2]. split.
  - naive_solver congruence.
  - by rewrite D2.
  - intros b N. by rewrite B2, B1.
  - intros b. destruct (W1 b) as [L1 F1], (W2 b) as [L2 F2]. split; [congruence|auto].
  - by apply (saved_trans s1 s2).
Qed.

Lemma dir_ok_frame X s s' v ls : dir_ok s v ls -> frame X s s' -> (forall b, X b -> ~ is_bitmap s b) ->
  (forall id, tid_ok s id -> tab s (blocks v) id <> 0 -> ~ X (tab s (blocks v) id)) ->
  (forall n l, zlookup ls n = Some l -> ~ X (mapped s (blocks v) n)) ->
  dir_ok s' v ls /\ forall n, 0 <= n < max_block s -> mapped s' (blocks v) n = mapped s (blocks v) n.
Proof.
  intros D Fr NB NT NM. destruct (dk_ok _ _ _ D) as [I F], (dk_geom _ _ _ D) as [G1 G2], (dk_size _ _ _ D) as (E1 & E2 & E3).
  destruct (fr_geom _ _ _ Fr) as (_ & _ & _ & _ & _ & E4 & _).
  pose proof (frame_mapped X s s' Fr G1 (blocks v) NT) as M. split; [|done]. split.
  - split; [by apply (frame_ext3_ok X s)|by apply (frame_file_ok X s s' Fr NB G1)].
  - by rewrite E4.
  - unfold max_block in *. by rewrite E4.
  - intros n l E. destruct (zlookup_Some _ _ _ E) as [B _]. destruct (dk_block _ _ _ D n l E) as (N & Eb & Hl).
    rewrite M by lia. split; [done|]. split; [|done]. unfold data. rewrite (fr_blk _ _ _ Fr); [done|by apply (NM n l)].
Qed.

Lemma set_data_frame s b bs : ext3_ok s -> wf_bytes bs -> Z.of_nat (length bs) = blockSize s ->
  frame (eq b) s (set_data b bs s) /\ data (set_data b bs s) b = bs.
Proof.
  intros I Hw Hl. destruct (eo_blk s I b) as [L _]. destruct (eo_geom s I) as (_ & _ & _ & _ & _ & _ & M).
  assert (L4 : length bs = (4 * length (blk s b))%nat) by (Z.div_mod_to_equations; lia).
  destruct (of_bytes_words (length (blk s b)) bs L4 Hw) as [Lo Fo]. split; [split|].
  - done.
  - done.
  - intros b' N. cbn. by rewrite fn_lookup_insert_ne by congruence.
  - intros b'. cbn. destruct (Z.eq_dec b' b) as [->|N]; [rewrite fn_lookup_insert; split; [done|done]|by rewrite fn_lookup_insert_ne].
  - exists [Block b]. split; [done|]. intros b' N. cbn in N. destruct (decide (b' = b)) as [->|]; [set_solver|].
    by rewrite fn_lookup_insert_ne in N.
  - unfold data. cbn. rewrite fn_lookup_insert. by apply (to_of_bytes (length (blk s b))).
Qed.

Lemma encs_block s v ls n l : dir_ok s v ls -> zlookup ls n = Some l -> Z.of_nat (length (encs l)) = blockSize s.
Proof.
  intros D E. destruct (dk_block _ _ _ D n l E) as (_ & <- & _). apply to_bytes_blk_length. apply (dk_ok _ _ _ D).
Qed.

Lemma dir_ok_set s v ls n l l' : dir_ok s v ls -> zlookup ls n = Some l -> Forall dirent_ok l' ->
  length (encs l') = length (encs l) -> let s' := set_data (mapped s (blocks v) n) (encs l') s in
  frame (eq (mapped s (blocks v) n)) s s' /\ dir_ok s' v (<[Z.to_nat n := l']> ls).
Proof.
  intros D E Hl L s'. destruct (dk_ok _ _ _ D) as [I F], (dk_geom _ _ _ D) as [G1 G2], (dk_size _ _ _ D) as (E1 & E2 & E3).
  destruct (zlookup_Some _ _ _ E) as [B E']. destruct (dk_block _ _ _ D n l E) as (N & _ & _).
  set (b := mapped s (blocks v) n) in *.
  destruct (set_data_frame s b (encs l') I) as [Fr Db]; [by apply encs_bytes|rewrite L; by apply (encs_block s v ls n)|].
  fold s' in Fr, Db. split; [done|].
  assert (NB : forall b', b = b' -> ~ is_bitmap s b') by (intros b' <-; apply (fo_data _ _ F n); [lia|done]).
  assert (NT : forall id, tid_ok s id -> tab s (blocks v) id <> 0 -> b <> tab s (blocks v) id) by (intros id T _; apply (fo_apart _ _ F); [lia|done..]).
  pose proof (frame_mapped _ s s' Fr G1 (blocks v) NT) as M. split.
  - split; [by apply (frame_ext3_ok (eq b) s)|by apply (frame_file_ok (eq b) s s' Fr NB G1)].
  - done.
  - rewrite length_insert. done.
  - intros m x Em. rewrite (zlookup_zupdate ls _ n m l') in Em by (try (apply zupdate_lt; lia); apply zlookup_Some in Em; lia).
    destruct (Z.eqb_spec m n) as [->|Nm].
    + injection Em as <-. rewrite M by lia. fold b. by rewrite Db.
    + destruct (zlookup_Some _ _ _ Em) as [Bm _]. destruct (dk_block _ _ _ D m x Em) as (N' & Ex & Hx). rewrite M by lia.
      split; [done|]. split; [|done]. unfold data. rewrite (fr_blk _ _ _ Fr); [done|]. intros Q. apply Nm. symmetry. by apply (fo_inj _ _ F); [lia|lia|..].
Qed.

(** ** The operations on a directory *)

Lemma Ext3BlockRead_first s v l ls : dir_ok s v (l :: ls) -> Ext3BlockRead v 0 1 s = Ret (Some (mapped s (blocks v) 0), v, s).
Proof.
  intros D. destruct (dk_ok _ _ _ D) as [I F], (dk_size _ _ _ D) as (_ & _ & M). cbn [length] in M.
  destruct (dk_block _ _ _ D 0 l eq_refl) as (N & _). destruct (fo_data _ _ F 0) as (In & _); [lia|done|].
  destruct (eo_geom s I) as (G0 & G1 & G2 & G3 & _). unfold in_fs in In. unfold Ext3BlockRead, Ext3BlockMap, Ext3BlockMapHandle.
  cbn [Z.ltb Z.compare]. unfold mapped in *. cbn [Z.ltb Z.compare] in *. unfold ent in *.
  destruct (zlookup (blocks v) 0) as [e|]; [|done]. cbn in N, In. cbn [of_option bindO default from_option Datatypes.id].
  replace (c_true e) with true by (symmetry; by apply c_true_spec). cbn [bindO]. rewrite s32_id by lia.
  destruct (Z.ltb_spec e 0); [lia|]. by destruct v.
Qed.

Lemma file_type_byte m : is_byte (Ext3SetFileType m).
Proof. unfold Ext3SetFileType, is_byte. destruct (c_true _); [done|]. by destruct (c_true _). Qed.

Lemma Ext3AddEntry_spec s v l ls name x fuel : dir_ok s v (l :: ls) -> name_ok name -> (length l < fuel)%nat ->
  Ext3AddEntry fuel name v x s = match add_entry name (id x) (Ext3SetFileType (mode x)) l with
    | Some l' => Ret (0, v, set_data (mapped s (blocks v) 0) (encs l') s) | None => Panic end.
Proof.
  intros D Hn Hf. unfold Ext3AddEntry. rewrite (Ext3BlockRead_first s v l ls D). cbn [bindO].
  destruct (dk_block _ _ _ D 0 l eq_refl) as (_ & E & Hl). rewrite E.
  pose proof (add_loop_spec name (id x) (Ext3SetFileType (mode x)) (blockSize s) l Hn (file_type_byte _) fuel [] Hl Hf) as Q.
  cbn [app length] in Q. change (Z.of_nat 0) with 0 in Q. rewrite Q by (by apply (encs_block s v (l :: ls) 0)).
  by destruct (add_entry name (id x) (Ext3SetFileType (mode x)) l).
Qed.

(** Removing an entry that is not the first of its block. *)
Lemma Ext3RemoveEntry_spec s v ls n l0 p e l2 fuel : dir_ok s v ls -> zlookup ls n = Some (l0 ++ p :: e :: l2) ->
  (length l0 + 2 <= fuel)%nat ->
  Ext3RemoveEntry fuel (mapped s (blocks v) n) (Z.of_nat (length (encs (l0 ++ [p])))) s
  = Ret (0, set_data (mapped s (blocks v) n) (encs (l0 ++ absorb p e :: l2)) s).
Proof.
  intros D E Hf. destruct (dk_block _ _ _ D n _ E) as (_ & Eb & Hl). destruct (dk_geom _ _ _ D). unfold Ext3RemoveEntry. rewrite Eb.
  pose proof (remove_next (blockSize s) e l2 p l0 fuel [] None Hl Hf) as Q. cbn [app length] in Q. change (Z.of_nat 0) with 0 in Q.
  rewrite Q; [done| |lia]. by apply (encs_block s v ls n).
Qed.

Lemma absorb_ok p e : dirent_ok p -> dirent_ok e -> reclen p + reclen e < 2 ^ 16 -> dirent_ok (absorb p e).
Proof.
  intros [P1 P2 P3 P4 P5] He L. split; cbn [absorb d_ino d_name d_type d_pad]; try done; [|by rewrite absorb_len].
  unfold wf_bytes. apply Forall_app. split; [done|by apply enc_bytes].
Qed.
Lemma absorb_enc p e : length (enc (absorb p e)) = (length (enc p) + length (enc e))%nat.
Proof. pose proof (enc_length p). pose proof (enc_length e). pose proof (enc_length (absorb p e)). rewrite absorb_len in *. lia. Qed.

(** The fuel of a walk: an entry has at least eight bytes. *)
Lemma encs_count l : (8 * length l <= length (encs l))%nat.
Proof.
  induction l as [|e l IH]; [done|]. rewrite encs_cons, length_app. cbn [length]. pose proof (enc_length e). unfold reclen in *. lia.
Qed.
Lemma dir_fuel s v ls fuel : dir_ok s v ls -> (Z.to_nat (size v) < fuel)%nat -> walk_fuel ls fuel.
Proof.
  intros D Hf. destruct (dk_size _ _ _ D) as (E & _), (dk_geom _ _ _ D) as [G1 _]. unfold walk_fuel, entries.
  assert (A : forall ls', (forall l, l ∈ ls' -> Z.of_nat (length (encs l)) = blockSize s) ->
    8 * Z.of_nat (length (concat ls')) <= Z.of_nat (length ls') * blockSize s).
  { induction ls' as [|l ls' IH]; intros H; [cbn; lia|]. cbn [concat length]. rewrite length_app.
    pose proof (encs_count l). pose proof (H l ltac:(left)). specialize (IH ltac:(intros; apply H; by right)). lia. }
  assert (B : forall l, l ∈ ls -> Z.of_nat (length (encs l)) = blockSize s).
  { intros l [i Ei]%list_elem_of_lookup. apply (encs_block s v ls (Z.of_nat i)); [done|]. unfold zlookup.
    destruct (Z.leb_spec 0 (Z.of_nat i)); [|lia]. by rewrite Nat2Z.id. }
  specialize (A ls B). nia.
Qed.

(** ** A directory as a finite map *)

Inductive dir_op := DLookup (name : list Z) | DAdd (name : list Z) (x : VNode) | DRemove (name : list Z).

Definition dir_step (fuel : nat) (op : dir_op) (v : VNode) (s : ext3) : outcome (Z * option Z * VNode * ext3) :=
  match op with
  | DLookup name => let* (r, i) := Ext3Lookup fuel v name s in Ret (r, i, v, s)
  | DAdd name x => let* (r, v, s) := Ext3AddEntry fuel name v x s in Ret (r, None, v, s)
  | DRemove name => let* (r, s) := Ext3Remove fuel v name s in Ret (r, None, v, s)
  end.
Fixpoint dir_run (fuel : nat) (ops : list dir_op) (v : VNode) (s : ext3) : outcome (list (Z * option Z) * VNode * ext3) :=
  match ops with
  | [] => Ret ([], v, s)
  | op :: ops =>
      let* (r, i, v, s) := dir_step fuel op v s in
      let* (rs, v, s) := dir_run fuel ops v s in Ret ((r, i) :: rs, v, s)
  end.

Definition map_step (op : dir_op) (m : gmap (list Z) Z) : Z * option Z * gmap (list Z) Z :=
  match op with
  | DLookup name => match m !! name with Some i => (0, Some i, m) | None => (- ENOENT, None, m) end
  | DAdd name x => (0, None, <[name := id x]> m)
  | DRemove name => match m !! name with Some _ => (0, None, delete name m) | None => (- ENOENT, None, m) end
  end.
Fixpoint map_run (ops : list dir_op) (m : gmap (list Z) Z) : list (Z * option Z) * gmap (list Z) Z :=
  match ops with
  | [] => ([], m)
  | op :: ops => let '(r, i, m) := map_step op m in let (rs, m) := map_run ops m in ((r, i) :: rs, m)
  end.

(** A name is added when it is not there, as the callers of the code see
    to; [heads] are the first names of the blocks, which are kept. *)
Definition heads (ls : list (list dirent)) : list (option (list Z)) := (fun l => d_name <$> head l) <$> ls.
Definition op_ok (hs : list (option (list Z))) (op : dir_op) (m : gmap (list Z) Z) : Prop :=
  match op with
  | DLookup name => name_ok name
  | DAdd name x => name_ok name /\ m !! name = None /\ is_word (id x) /\ id x <> 0
  | DRemove name => name_ok name /\ Some name ∉ hs
  end.
Fixpoint ops_ok (hs : list (option (list Z))) (ops : list dir_op) (m : gmap (list Z) Z) : Prop :=
  match ops with [] => True | op :: ops => op_ok hs op m /\ ops_ok hs ops (map_step op m).2 end.

Record dir_view (s : ext3) (v : VNode) (ls : list (list dirent)) (m : gmap (list Z) Z) : Prop := {
  dv_dir : dir_ok s v ls;
  dv_first : ls <> [];
  dv_used : Forall in_use (entries ls);
  dv_names : NoDup (d_name <$> entries ls);
  dv_map : forall name, m !! name = assoc name (key <$> entries ls);
}.

Lemma assoc_cons_in (A B : list (list Z * Z)) name i x : name ∉ (A ++ B).*1 ->
  assoc x (A ++ (name, i) :: B) = if decide (x = name) then Some i else assoc x (A ++ B).
Proof.
  rewrite fmap_app, not_elem_of_app. intros [NA NB]. rewrite !assoc_app. cbn. destruct (decide (x = name)) as [->|N].
  - apply assoc_None in NA as ->. by destruct (decide (name = name)).
  - destruct (decide (name = x)) as [->|]; done.
Qed.
Lemma key_fst l : (key <$> l).*1 = d_name <$> l.
Proof. by rewrite <- list_fmap_compose. Qed.

Lemma entries_insert ls n l : zlookup ls n = Some l -> exists E1 E2, entries ls = E1 ++ l ++ E2
  /\ forall l', entries (<[Z.to_nat n := l']> ls) = E1 ++ l' ++ E2.
Proof.
  intros [_ E]%zlookup_Some. exists (concat (take (Z.to_nat n) ls)), (concat (drop (S (Z.to_nat n)) ls)). unfold entries. split.
  - rewrite <- (take_drop_middle ls _ l E) at 1. by rewrite concat_app.
  - intros l'. rewrite insert_take_drop by (by apply lookup_lt_Some in E). by rewrite concat_app.
Qed.
Lemma heads_insert ls n l l' : zlookup ls n = Some l -> d_name <$> head l' = d_name <$> head l ->
  heads (<[Z.to_nat n := l']> ls) = heads ls.
Proof.
  intros [_ E]%zlookup_Some H. unfold heads. rewrite list_fmap_insert, H. apply list_insert_id. by rewrite list_lookup_fmap, E.
Qed.
Lemma add_entry_head name ino ftype l l' : Forall in_use l -> add_entry name ino ftype l = Some l' -> d_name <$> head l' = d_name <$> head l.
Proof.
  destruct 1 as [|e l He Hl]; [done|]. cbn [add_entry]. destruct (fits name e).
  - intros [= <-]. unfold take_room. by destruct (Z.eqb_spec (d_ino e) 0).
  - by intros (l1 & _ & ->)%fmap_Some.
Qed.

(** Replacing a block changes the names as it changes those of the block. *)
Lemma dir_view_set s v ls m n l l' m' : dir_view s v ls m -> zlookup ls n = Some l -> Forall dirent_ok l' ->
  length (encs l') = length (encs l) -> Forall in_use l' ->
  (forall E1 E2, entries ls = E1 ++ l ++ E2 -> NoDup (d_name <$> E1 ++ l' ++ E2)
    /\ forall name, m' !! name = assoc name (key <$> E1 ++ l' ++ E2)) ->
  dir_view (set_data (mapped s (blocks v) n) (encs l') s) v (<[Z.to_nat n := l']> ls) m'.
Proof.
  intros [D N1 U Nd M] E Hl L Hu H. destruct (entries_insert ls n l E) as (E1 & E2 & Ee & Ei). destruct (H E1 E2 Ee) as [H1 H2].
  destruct (dir_ok_set s v ls n l l' D E Hl L) as [_ D']. split; rewrite ?Ei; try done.
  - intros Q. apply N1. apply length_zero_iff_nil. apply length_zero_iff_nil in Q. by rewrite length_insert in Q.
  - rewrite Ee, !Forall_app in U. rewrite !Forall_app. naive_solver.
Qed.

(** A full first block: no entry of it takes the name. *)
Definition no_room (name : list Z) (ls : list (list dirent)) : Prop :=
  exists l ls', ls = l :: ls' /\ Forall (fun e => fits name e = false) l.
Lemma add_entry_None name ino ftype l : add_entry name ino ftype l = None -> Forall (fun e => fits name e = false) l.
Proof.
  induction l as [|e l IH]; [done|]. cbn. destruct (fits name e) eqn:E; [done|]. intros H%fmap_None. constructor; [done|by apply IH].
Qed.

Definition op_name (op : dir_op) : list Z := match op with DLookup n | DAdd n _ | DRemove n => n end.

Lemma add_refines fuel s v ls m name x : dir_view s v ls m -> (Z.to_nat (size v) < fuel)%nat -> op_ok (heads ls) (DAdd name x) m ->
  (exists s' ls', Ext3AddEntry fuel name v x s = Ret (0, v, s') /\ dir_view s' v ls' (<[name := id x]> m) /\ heads ls' = heads ls
     /\ frame (eq (mapped s (blocks v) 0)) s s')
  \/ (Ext3AddEntry fuel name v x s = Panic /\ no_room name ls).
Proof.
  intros V Hf (Hn & Hm & Hi & H0). pose proof V as [D N1 U Nd M]. destruct ls as [|l ls]; [done|].
  pose proof (dir_fuel s v _ fuel D Hf) as W. unfold walk_fuel, entries in W. cbn [concat length] in W. rewrite length_app in W.
  rewrite (Ext3AddEntry_spec s v l ls) by (done || lia).
  destruct (dk_block _ _ _ D 0 l eq_refl) as (_ & _ & Hl). cbn [entries concat] in U. apply Forall_app in U as [U _].
  destruct (add_entry name (id x) (Ext3SetFileType (mode x)) l) as [l'|] eqn:E; [left|right; split; [done|]; exists l, ls; split; [done|by apply add_entry_None in E]].
  destruct (add_entry_ok name (id x) _ l l' Hn Hi (file_type_byte _) Hl E) as [Hl' L].
  destruct (add_entry_keys name (id x) _ l l' U E H0) as (U' & k1 & k2 & K1 & K2).
  eexists _, (<[Z.to_nat 0 := l']> (l :: ls)). split; [done|].
  split; [|split; [apply (heads_insert _ 0 l); [done|by apply (add_entry_head name (id x) (Ext3SetFileType (mode x)))]
           |by apply (dir_ok_set s v (l :: ls) 0 l l' D)]].
  apply (dir_view_set s v _ m 0 l l'); try done. intros E1 E2 Ee.
  assert (NN : name ∉ (k1 ++ k2).*1 /\ name ∉ (key <$> E1).*1 /\ name ∉ (key <$> E2).*1).
  { specialize (M name). rewrite Hm, Ee in M. symmetry in M. apply assoc_None in M. rewrite !fmap_app, K1 in M.
    rewrite !fmap_app, !not_elem_of_app in *. naive_solver. }
  assert (Q : key <$> E1 ++ l' ++ E2 = ((key <$> E1) ++ k1) ++ (name, id x) :: (k2 ++ (key <$> E2))).
  { rewrite !fmap_app, K2. by rewrite <- !app_assoc. }
  assert (P : key <$> entries (l :: ls) = ((key <$> E1) ++ k1) ++ (k2 ++ (key <$> E2))) by (rewrite Ee, !fmap_app, K1, <- !app_assoc; done).
  assert (NN' : name ∉ (((key <$> E1) ++ k1) ++ (k2 ++ (key <$> E2))).*1).
  { rewrite !fmap_app, !not_elem_of_app in *. naive_solver. }
  split.
  - rewrite <- key_fst, Q. rewrite fmap_app, fmap_cons. cbn [fst].
    rewrite <- Permutation_middle. apply NoDup_cons. split; [by rewrite fmap_app in NN'|].
    rewrite <- fmap_app, <- P, key_fst. done.
  - intros nm. rewrite Q, (assoc_cons_in _ _ _ _ _ NN'), <- P, <- M.
    destruct (decide (nm = name)) as [->|]; [by rewrite lookup_insert_eq|by rewrite lookup_insert_ne].
Qed.

Lemma remove_refines fuel s v ls m name : dir_view s v ls m -> (Z.to_nat (size v) < fuel)%nat -> op_ok (heads ls) (DRemove name) m ->
  exists s' ls', Ext3Remove fuel v name s = Ret (if m !! name then 0 else - ENOENT, s')
    /\ dir_view s' v ls' (delete name m) /\ heads ls' = heads ls /\ saved s s'.
Proof.
  intros V Hf [Hn Hh]. pose proof V as [D N1 U Nd M]. pose proof (dir_fuel s v ls fuel D Hf) as W.
  unfold Ext3Remove. rewrite (Ext3FindEntry_spec s v ls) by done. cbn [bindO]. specialize (M name) as Mn. rewrite <- dir_lookup_assoc in Mn.
  destruct (locate name ls 0) as [[n [[l1 e] l2]]|] eqn:El.
  - destruct (locate_Some _ _ _ _ _ _ _ El) as (Hq & l & E & Es & [[a x] b] & Er & Ex). cbn in Ex. subst x. rewrite Z.sub_0_r in E.
    unfold dir_lookup in Mn. rewrite Er in Mn. rewrite Mn. destruct (split_name_Some _ _ _ _ _ Es) as (El' & En & _). subst l.
    clear El Es. induction l1 as [|p l0 _] using rev_ind.
    + exfalso. apply Hh. apply list_elem_of_fmap. exists ([] ++ e :: l2). cbn. split; [by rewrite En|].
      apply zlookup_Some in E as [_ E]. by apply list_elem_of_lookup_2 in E.
    + rewrite <- app_assoc in E. cbn [app] in E. destruct (dk_block _ _ _ D n _ E) as (_ & _ & Hl).
      destruct (entries_insert ls n _ E) as (F1 & F2 & Ee & Ei).
      assert (Hlen : (length (entries ls) < fuel)%nat) by (unfold walk_fuel in W; lia). rewrite Ee, !length_app in Hlen. cbn [length] in Hlen.
      rewrite (Ext3RemoveEntry_spec s v ls n l0 p e l2 fuel D E) by lia.
      apply Forall_app in Hl as [Hl0 [Hp [He Hl2]%Forall_cons]%Forall_cons].
      pose proof (encs_block s v ls n _ D E) as Lb. rewrite encs_app, !encs_cons, !length_app in Lb.
      destruct (dk_geom _ _ _ D). pose proof (enc_length p). pose proof (enc_length e).
      eexists _, (<[Z.to_nat n := l0 ++ absorb p e :: l2]> ls). split; [done|]. split; [|split; [apply (heads_insert ls n _ _ E); by destruct l0|]].
      2: { apply (set_data_frame s _ _ (proj1 (dk_ok _ _ _ D))).
           - apply encs_bytes, Forall_app. split; [done|]. constructor; [apply absorb_ok; [done|done|lia]|done].
           - rewrite encs_app, encs_cons, !length_app, absorb_enc. lia. }
      apply (dir_view_set s v ls m n (l0 ++ p :: e :: l2)); try done.
      * apply Forall_app. split; [done|]. constructor; [apply absorb_ok; [done|done|lia]|done].
      * rewrite !encs_app, !encs_cons, !length_app, absorb_enc. lia.
      * rewrite Ee, !Forall_app, !Forall_cons in U. rewrite Forall_app, Forall_cons. naive_solver.
      * intros E1 E2 Ee'. assert (P : key <$> entries ls = ((key <$> E1 ++ l0) ++ [key p]) ++ (name, d_ino e) :: (key <$> l2 ++ E2)).
        { rewrite Ee', !fmap_app, !fmap_cons. replace (key e) with (name, d_ino e) by (unfold key; by rewrite En). by rewrite <- !app_assoc. }
        assert (Q : key <$> E1 ++ (l0 ++ absorb p e :: l2) ++ E2 = ((key <$> E1 ++ l0) ++ [key p]) ++ (key <$> l2 ++ E2)).
        { by rewrite !fmap_app, !fmap_cons, <- !app_assoc. }
        rewrite <- key_fst, P, fmap_app, fmap_cons, <- Permutation_middle in Nd. apply NoDup_cons in Nd as [NN Nd]. rewrite <- fmap_app in NN, Nd.
        split; [by rewrite <- key_fst, Q|]. intros nm. rewrite Q. destruct (decide (nm = name)) as [->|N].
        -- rewrite lookup_delete_eq. symmetry. by apply assoc_None.
        -- rewrite lookup_delete_ne by done. rewrite M, P, (assoc_cons_in _ _ _ _ _ NN). cbn [fst]. by destruct (decide (nm = name)).
  - apply locate_None in El. unfold dir_lookup in Mn. rewrite El in Mn. rewrite Mn. exists s, ls. split; [done|]. split; [|split; [done|apply saved_refl]].
    by rewrite delete_id.
Qed.

(** The reachable outcomes of a run from a view: the results of the map, or
    a halt when a name finds no room in the first block. *)
Lemma dir_run_refines fuel ops : forall s v ls m, dir_view s v ls m -> (Z.to_nat (size v) < fuel)%nat -> ops_ok (heads ls) ops m ->
  (exists s' ls', dir_run fuel ops v s = Ret ((map_run ops m).1, v, s') /\ dir_view s' v ls' (map_run ops m).2 /\ saved s s')
  \/ (dir_run fuel ops v s = Panic /\ exists ops1 name x ops2 s1 ls1, ops = ops1 ++ DAdd name x :: ops2
    /\ dir_run fuel ops1 v s = Ret ((map_run ops1 m).1, v, s1) /\ dir_view s1 v ls1 (map_run ops1 m).2 /\ no_room name ls1).
Proof.
  induction ops as [|op ops IH]; intros s v ls m V Hf Hops; cbn [dir_run map_run ops_ok] in *.
  { left. exists s, ls. split; [done|]. split; [done|apply saved_refl]. }
  destruct Hops as [Ho Hops].
  assert (S : (exists s' ls', dir_step fuel op v s = Ret ((map_step op m).1, v, s') /\ dir_view s' v ls' (map_step op m).2 /\ heads ls' = heads ls /\ saved s s')
    \/ (dir_step fuel op v s = Panic /\ exists x, op = DAdd (op_name op) x /\ no_room (op_name op) ls)).
  { destruct op as [name|name x|name]; cbn [dir_step map_step op_name].
    - left. exists s, ls. rewrite (Ext3Lookup_spec s v ls); [|apply V|done|apply (dir_fuel s v); [apply V|done]].
      rewrite dir_lookup_assoc, <- (dv_map _ _ _ _ V). destruct (m !! name); split_and!; try done; apply saved_refl.
    - destruct (add_refines fuel s v ls m name x V Hf Ho) as [(s' & ls' & E & V' & H & Fr)|[E R]]; rewrite E; [left|right].
      + exists s', ls'. split_and!; try done. apply Fr.
      + split; [done|]. by exists x.
    - destruct (remove_refines fuel s v ls m name V Hf Ho) as (s' & ls' & E & V' & H & Sv). left. exists s', ls'. rewrite E.
      destruct (m !! name) eqn:Em; cbn; [done|]. by rewrite delete_id in V'. }
  destruct S as [(s1 & ls1 & E1 & V1 & H1 & Sv1)|[E1 (x & Eo & R)]]; rewrite E1; cbn [bindO].
  - destruct (map_step op m) as [[r i] m1] eqn:Em. cbn [fst snd] in *. rewrite <- H1 in Hops.
    destruct (IH s1 v ls1 m1 V1 Hf Hops) as [(s2 & ls2 & E2 & V2 & Sv2)|[E2 (ops1 & nm & y & ops2 & s2 & ls2 & -> & Er & V2 & R)]]; rewrite E2; cbn [bindO].
    + left. exists s2, ls2. destruct (map_run ops m1) as [rs m3]. split_and!; try done. by apply (saved_trans s s1).
    + right. split; [done|]. exists (op :: ops1), nm, y, ops2, s2, ls2. split; [done|]. cbn [dir_run map_run].
      rewrite E1, Em. cbn [bindO]. rewrite Er. cbn [bindO]. by destruct (map_run ops1 m1).
  - right. split; [done|]. exists [], (op_name op), x, ops, s, ls. by rewrite <- Eo.
Qed.

(** C10: a directory behaves as a finite map from names to inodes: every sequence of looking up names, adding
    names that are not there and removing names that are not the first of their block gives the results of the map,
    whatever room the entries share, and gives every block it changes to the journal; or else the processor halts,
    and then a name to be added found no room in the first block. *)
Theorem ext3_dir_refines fuel ops s v ls m : dir_view s v ls m -> (Z.to_nat (size v) < fuel)%nat -> ops_ok (heads ls) ops m ->
  (exists s' ls', dir_run fuel ops v s = Ret ((map_run ops m).1, v, s') /\ dir_view s' v ls' (map_run ops m).2 /\ saved s s')
  \/ (dir_run fuel ops v s = Panic /\ exists ops1 name x ops2 s1 ls1, ops = ops1 ++ DAdd name x :: ops2
    /\ dir_run fuel ops1 v s = Ret ((map_run ops1 m).1, v, s1) /\ dir_view s1 v ls1 (map_run ops1 m).2 /\ no_room name ls1).
Proof. apply dir_run_refines. Qed.

(** ** Removing the first name of a block *)

Lemma Ext3Remove_first_spec fuel s v ls n e l name : dir_ok s v ls -> (Z.to_nat (size v) < fuel)%nat -> name_ok name ->
  locate name ls 0 = Some (n, ([], e, l)) ->
  Ext3Remove fuel v name s = Ret (0, set_data (mapped s (blocks v) n) (encs (no_inode e :: l)) s)
  /\ dir_ok (set_data (mapped s (blocks v) n) (encs (no_inode e :: l)) s) v (<[Z.to_nat n := no_inode e :: l]> ls)
  /\ zlookup ls n = Some (e :: l) /\ d_name e = name.
Proof.
  intros D Hf Hn El. pose proof (dir_fuel s v ls fuel D Hf) as W. destruct (locate_Some _ _ _ _ _ _ _ El) as (_ & l' & E & Es & _).
  rewrite Z.sub_0_r in E. destruct (split_name_Some _ _ _ _ _ Es) as (-> & En & _). cbn [app] in E.
  destruct (dk_block _ _ _ D n _ E) as (_ & Eb & Hl). apply Forall_cons in Hl as [[H1 H2 H3 H4 H5] Hl].
  unfold Ext3Remove. rewrite (Ext3FindEntry_spec s v ls) by done. rewrite El. cbn [bindO]. change (Z.of_nat (length (encs []))) with 0.
  unfold Ext3RemoveEntry. rewrite Eb. destruct fuel as [|fuel]; [lia|].
  rewrite remove_first; [|done|by apply (encs_block s v ls n)]. cbn [bindO]. split_and!; try done.
  apply (dir_ok_set s v ls n (e :: l)); try done. constructor; [|done]. by split.
Qed.

Lemma locate_insert name ls n e l e' : d_name e' = d_name e -> forall q, locate name ls q = Some (n, ([], e, l)) ->
  locate name (<[Z.to_nat (n - q) := e' :: l]> ls) q = Some (n, ([], e', l)).
Proof.
  intros En. induction ls as [|x ls IH]; intros q; [done|]. cbn [locate]. destruct (split_name name x) as [[[a y] b]|] eqn:Ex.
  - intros [= -> -> -> ->]. rewrite Z.sub_diag. change (<[Z.to_nat 0 := e' :: l]> (x :: ls)) with ((e' :: l) :: ls).
    cbn [locate split_name]. apply split_name_Some in Ex as (_ & Ey & _). rewrite En. by destruct (decide (d_name e = name)).
  - intros H. destruct (locate_Some _ _ _ _ _ _ _ H) as (Hq & _). replace (Z.to_nat (n - q)) with (S (Z.to_nat (n - (q + 1)))) by lia.
    change (<[S ?k := ?y]> (x :: ls)) with (x :: <[k := y]> ls). cbn [locate]. rewrite Ex. by apply IH.
Qed.

(** Removing the first name of a block only clears the number of its inode, and looking the name up afterwards still
    succeeds, with inode 0. *)
Theorem Ext3Remove_first_stays fuel s v ls n e l name : dir_ok s v ls -> (Z.to_nat (size v) < fuel)%nat -> name_ok name ->
  locate name ls 0 = Some (n, ([], e, l)) ->
  exists s', Ext3Remove fuel v name s = Ret (0, s') /\ Ext3Lookup fuel v name s' = Ret (0, Some 0).
Proof.
  intros D Hf Hn El. destruct (Ext3Remove_first_spec fuel s v ls n e l name D Hf Hn El) as (E & D' & _).
  eexists. split; [exact E|]. rewrite (Ext3Lookup_spec _ v _ name fuel D' Hn (dir_fuel _ _ _ _ D' Hf)). unfold dir_lookup.
  pose proof (locate_insert name ls n e l (no_inode e) eq_refl 0 El) as L. rewrite Z.sub_0_r in L.
  destruct (locate_Some _ _ _ _ _ _ _ L) as (_ & ? & _ & _ & [[a x] b] & -> & Ex). cbn in Ex. by rewrite Ex.
Qed.

(** ** Making a file *)

Lemma frame_inodes X s s' : frame X s s' -> inodes_ok s -> inodes_ok s'.
Proof.
  intros Fr I. destruct (fr_geom _ _ _ Fr) as (E1 & E2 & E3 & _ & _ & E4 & _). destruct I as [J1 J2 J3 J4 J5 J6].
  assert (T : table_blocks s' = table_blocks s) by (unfold table_blocks, INODES_PER_BLOCK; by rewrite E3, E4).
  assert (P : INODES_PER_BLOCK s' = INODES_PER_BLOCK s) by (unfold INODES_PER_BLOCK; by rewrite E4).
  split; unfold in_table; rewrite ?E1, ?E2, ?E3, ?E4, ?T, ?P; try done.
  - rewrite <- J3. f_equal. rewrite <- (length_fmap layout (descs s')), (fr_descs _ _ _ Fr). apply length_fmap.
  - intros b. destruct (fr_words _ _ _ Fr b) as [-> W]. destruct (J4 b) as [L H]. split; [done|]. by apply words_Forall, W, words_Forall.
  - intros g d' E. destruct (frame_desc _ _ _ g d' Fr E) as (d & Ed & [= _ _ -> _]). by apply (J5 g).
  - intros g h d' e' b Eg Eh. destruct (frame_desc _ _ _ g d' Fr Eg) as (d & Ed & [= _ _ -> _]).
    destruct (frame_desc _ _ _ h e' Fr Eh) as (e & Ee & [= _ _ -> _]). by apply (J6 g h d e).
Qed.

(** Reading inodes only depends on the tables. *)
Lemma frame_read X s s' n : frame X s s' -> inodes_ok s -> 0 <= n < 2 ^ 32 ->
  (forall g d b, zlookup (descs s) g = Some d -> in_table s d b -> ~ X b) -> Ext3ReadVNode true n s' = Ext3ReadVNode true n s.
Proof.
  intros Fr I Hn NX. pose proof (frame_inodes X s s' Fr I) as I'. destruct (fr_geom _ _ _ Fr) as (E1 & _ & E3 & _ & _ & E4 & _).
  destruct (decide (1 <= n <= iNodesCount s)) as [V|V].
  - destruct (Ext3INodeGetLoc_finds s n I V) as (d & Ed & Td & El & H0 & _).
    destruct (Ext3INodeGetLoc_finds s' n I') as (d' & Ed' & _ & El' & _); [by rewrite E1|].
    rewrite (Ext3ReadVNode_at s n d I El), (Ext3ReadVNode_at s' n d' I' El').
    rewrite E3 in Ed'. destruct (frame_desc _ _ _ _ d' Fr Ed') as (d2 & Ed2 & [= _ _ L _]). assert (d2 = d) as -> by congruence.
    assert (inode_block s' d' n = inode_block s d n) as -> by (unfold inode_block, INODES_PER_BLOCK; by rewrite E3, E4, L).
    assert (inode_slot s' n = inode_slot s n) as -> by (unfold inode_slot, INODES_PER_BLOCK; by rewrite E4).
    apply read_inode_ext; [done|done|]. intros j _. rewrite (fr_blk _ _ _ Fr); [done|]. exact (NX _ d _ Ed Td).
  - unfold Ext3ReadVNode. rewrite (Ext3INodeGetLoc_refuses s n I Hn V), (Ext3INodeGetLoc_refuses s' n I' Hn); [done|by rewrite E1].
Qed.

(** The blocks of the inodes of all groups are apart from those of the
    directory and from the block bitmaps, and the inode bitmaps from the
    inode tables. *)
Definition inode_area (s : ext3) (b : Z) : Prop :=
  exists g d, zlookup (descs s) g = Some d /\ (b = iNodeBitmap d \/ in_table s d b).
Record apart (s : ext3) (v : VNode) (ls : list (list dirent)) : Prop := {
  ap_bitmap : forall b, inode_area s b -> ~ is_bitmap s b;
  ap_table : forall id, tid_ok s id -> tab s (blocks v) id <> 0 -> ~ inode_area s (tab s (blocks v) id);
  ap_data : forall n, 0 <= n < Z.of_nat (length ls) -> ~ inode_area s (mapped s (blocks v) n);
  ap_inodes : forall g h d e, zlookup (descs s) g = Some d -> zlookup (descs s) h = Some e -> ~ in_table s e (iNodeBitmap d);
}.

Lemma create_frame s g d n s1 : 0 <= g < groupCount s -> zlookup (descs s) g = Some d -> Forall is_word (blk s (iNodeBitmap d)) ->
  (forall b, b <> iNodeBitmap d -> blk s1 b = blk s b) ->
  descs s1 = <[Z.to_nat g := set_inodes n (usedDirs d) d]> (descs s) ->
  with_marked (marked s) (with_blk (blk s) (with_descs (descs s) (with_counts (sb_freeBlocks s1) (sb_freeInodes s) s1))) = s ->
  marked s1 = marked s ++ [Block (iNodeBitmap d); GroupBuffer g; SuperBuffer] ->
  length (blk s1 (iNodeBitmap d)) = length (blk s (iNodeBitmap d)) -> Forall is_word (blk s1 (iNodeBitmap d)) ->
  frame (eq (iNodeBitmap d)) s s1.
Proof.
  intros Hg Ed Fw B D W Em L F1. split.
  - split_and!; [apply (f_equal iNodesCount W)|apply (f_equal groupCount W)|apply (f_equal iNodesPerGrp W)|apply (f_equal firstDataBlock W)
      |apply (f_equal blocksPerGrp W)|apply (f_equal blockSize W)|apply (f_equal sb_freeBlocks W)].
  - rewrite D, list_fmap_insert. apply list_insert_id. apply zlookup_Some in Ed as [_ Ed]. by rewrite list_lookup_fmap, Ed.
  - intros b N. apply B. congruence.
  - intros b. destruct (Z.eq_dec b (iNodeBitmap d)) as [->|N]; [done|]. by rewrite B.
  - eexists. split; [exact Em|]. intros b N. destruct (decide (b = iNodeBitmap d)) as [->|]; [set_solver|]. by rewrite B in N.
Qed.

(** What the directory and the inodes have to do with each other is kept by
    changes that avoid the tables of the directory. *)
Lemma frame_area X s s' b : frame X s s' -> inode_area s' b <-> inode_area s b.
Proof.
  intros Fr. destruct (fr_geom _ _ _ Fr) as (_ & _ & E3 & _ & _ & E4 & _).
  assert (T : table_blocks s' = table_blocks s) by (unfold table_blocks, INODES_PER_BLOCK; by rewrite E3, E4).
  unfold inode_area, in_table. split; intros (g & d & E & H).
  - destruct (frame_desc _ _ _ g d Fr E) as (d' & E' & [= _ L1 L2 _]). exists g, d'. by rewrite <- L1, <- L2, <- T.
  - destruct (frame_desc' _ _ _ g d Fr E) as (d' & E' & [= _ L1 L2 _]). exists g, d'. by rewrite L1, L2, T.
Qed.
Lemma apart_frame X s s' v ls ls' : apart s v ls -> dir_ok s v ls -> frame X s s' -> length ls' = length ls ->
  (forall b, X b -> ~ is_bitmap s b) -> (forall id, tid_ok s id -> tab s (blocks v) id <> 0 -> ~ X (tab s (blocks v) id)) ->
  apart s' v ls'.
Proof.
  intros [A1 A2 A3 A4] D Fr L NB NT. destruct (dk_geom _ _ _ D) as [G1 _], (dk_size _ _ _ D) as (_ & _ & M).
  destruct (fr_geom _ _ _ Fr) as (_ & _ & E3 & _ & _ & E4 & _). split.
  - intros b. rewrite (frame_area X s s') by done. rewrite (frame_is_bitmap X s s' Fr). apply A1.
  - intros id T. rewrite (frame_tab X s s' Fr (blocks v) NT), (frame_area X s s') by done. apply A2. destruct id; cbn in *; by rewrite ?E4 in T.
  - intros n Hn. rewrite L in Hn. rewrite (frame_mapped X s s' Fr G1 (blocks v) NT), (frame_area X s s') by (done || lia). by apply A3.
  - intros g h d e Eg Eh. destruct (frame_desc _ _ _ g d Fr Eg) as (d' & Ed & [= _ -> _ _]).
    destruct (frame_desc _ _ _ h e Fr Eh) as (e' & Ee & [= _ _ L2 _]). unfold in_table, table_blocks, INODES_PER_BLOCK.
    rewrite L2, E3, E4. by apply (A4 g h).
Qed.
Lemma dir_view_frame X s s' v ls m : dir_view s v ls m -> frame X s s' -> (forall b, X b -> ~ is_bitmap s b) ->
  (forall id, tid_ok s id -> tab s (blocks v) id <> 0 -> ~ X (tab s (blocks v) id)) ->
  (forall n, 0 <= n < Z.of_nat (length ls) -> ~ X (mapped s (blocks v) n)) -> dir_view s' v ls m.
Proof.
  intros [D N1 U Nd M] Fr NB NT NM. split; try done. apply (dir_ok_frame X s s' v ls D Fr NB NT).
  intros n l E. apply NM. by apply zlookup_Some in E as [B _].
Qed.

(** The directory after the blocks of inodes changed. *)
Lemma dir_view_inodes X s s' v ls m : dir_view s v ls m -> apart s v ls -> frame X s s' -> (forall b, X b -> inode_area s b) ->
  dir_view s' v ls m /\ apart s' v ls.
Proof.
  intros V [A1 A2 A3 A4] Fr HX. assert (NB : forall b, X b -> ~ is_bitmap s b) by (intros b H; by apply A1, HX).
  assert (NT : forall id, tid_ok s id -> tab s (blocks v) id <> 0 -> ~ X (tab s (blocks v) id)) by (intros id T N H; by apply (A2 id T N), HX).
  split.
  - apply (dir_view_frame X s s'); try done. intros n Hn H. by apply (A3 n Hn), HX.
  - apply (apart_frame X s s' v ls ls); try done. apply V.
Qed.

Section Create.
Context (fuel : nat) (s : ext3) (v : VNode) (ls : list (list dirent)) (m : gmap (list Z) Z) (d : Ext3GroupDesc).
Context (V : dir_view s v ls m) (I : inodes_ok s) (A : apart s v ls) (Hf : (Z.to_nat (size v) < fuel)%nat).
Context (Ed : zlookup (descs s) (blockGroup v) = Some d) (Hp : iNodesPerGrp s <= 8 * blockSize s).
Context (Fi : 0 < freeINodes d < 2 ^ 16) (Si : 0 < sb_freeInodes s < 2 ^ 32).

(** A free inode of the group of the directory. *)
Definition free_inode (i : Z) : Prop := 0 <= i < iNodesPerGrp s /\ wbit (blk s (iNodeBitmap d)) i = false.

Lemma Ext3CreateINode_frame n0 : free_inode n0 -> exists i s1, free_inode i /\ (forall k, free_inode k -> i <= k)
  /\ Ext3CreateINode (blockGroup v) false s = Ret (Some (i + blockGroup v * iNodesPerGrp s + 1, blockGroup v), s1)
  /\ frame (eq (iNodeBitmap d)) s s1 /\ wbit (blk s1 (iNodeBitmap d)) i = true
  /\ (forall k, 0 <= k < iNodesPerGrp s -> k <> i -> wbit (blk s1 (iNodeBitmap d)) k = wbit (blk s (iNodeBitmap d)) k).
Proof.
  intros [Hn Bn]. destruct (zlookup_Some _ _ _ Ed) as [Hg _]. rewrite (io_descs s I) in Hg.
  destruct (io_groups s I) as (G1 & _ & G3 & G4 & G5). destruct (io_blk s I (iNodeBitmap d)) as [L W]. apply words_Forall in W.
  destruct (dk_geom _ _ _ (dv_dir _ _ _ _ V)) as [B1 _]. destruct (dk_ok _ _ _ (dv_dir _ _ _ _ V)) as [Io _].
  destruct (eo_geom s Io) as (_ & _ & _ & _ & _ & _ & M4).
  destruct (Ext3CreateINode_takes s (blockGroup v) d n0) as (i & s1 & E & Hi & Bi & Lo & Q & B & D & _ & Wt & Em & Lb & Fb); try done;
    [split; [done|]; rewrite L; Z.div_mod_to_equations; lia|lia|].
  exists i, s1. split; [split; [lia|done]|]. split.
  { intros k [Hk Bk]. destruct (Z.le_gt_cases i k); [done|]. rewrite Lo in Bk by lia. done. }
  split; [done|]. split.
  - by apply (create_frame s (blockGroup v) d (freeINodes d - 1)).
  - split; [rewrite Q, Z.eqb_refl by lia; done|]. intros k Hk Nk. rewrite Q by done. by apply Z.eqb_neq in Nk as ->.
Qed.

Lemma changes_frame b s1 s2 : changes b s1 s2 -> inodes_ok (mark (Block b) s2) -> frame (eq b) s1 (mark (Block b) s2).
Proof.
  intros C I2. destruct (changes_fields _ _ _ C) as (E1 & E2 & E3 & E4 & E5 & E6 & E7 & E8 & _ & Em). destruct C as (_ & B & L).
  split; [done|cbn; by rewrite E5|intros b' N; apply B; congruence| |].
  2: { exists [Block b]. split; [cbn; by rewrite Em|]. intros b' N. destruct (decide (b' = b)) as [->|]; [set_solver|]. by rewrite <- B in N. }
  intros b'. cbn [mark with_marked blk]. destruct (Z.eq_dec b' b) as [->|N]; [|by rewrite B]. split; [done|]. intros _. apply words_Forall, (io_blk _ I2).
Qed.

Lemma Ext3Create_spec name now n0 : free_inode n0 -> name_ok name -> m !! name = None -> ~ no_room name ls -> is_word now ->
  exists i s' ls', free_inode i /\ (forall k, free_inode k -> i <= k) /\ saved s s' /\ let n := i + blockGroup v * iNodesPerGrp s + 1 in
  Ext3Create fuel v name now s = Ret (0, new_vnode n (blockGroup v) false now, v, s')
  /\ dir_view s' v ls' (<[name := n]> m) /\ wbit (blk s' (iNodeBitmap d)) i = true
  /\ Ext3ReadVNode true n s' = Ret (0, Some (new_vnode n (blockGroup v) false now))
  /\ (forall k, 0 <= k < 2 ^ 32 -> k <> n -> Ext3ReadVNode true k s' = Ext3ReadVNode true k s).
Proof.
  intros Hn0 Hn Hm Hr Hw. destruct (zlookup_Some _ _ _ Ed) as [Hg _]. rewrite (io_descs s I) in Hg.
  destruct (io_groups s I) as (G1 & _ & G3 & G4 & G5).
  destruct (Ext3CreateINode_frame n0 Hn0) as (i & s1 & Hi & Lo & E1 & F1 & Bi & _). pose proof (proj1 Hi) as Ri.
  set (n := i + blockGroup v * iNodesPerGrp s + 1). assert (Rn : 1 <= n <= iNodesCount s) by (unfold n; nia).
  assert (Ar : inode_area s (iNodeBitmap d)) by (exists (blockGroup v), d; by split; [|left]).
  destruct (dir_view_inodes _ s s1 v ls m V A F1) as [V1 A1]; [by intros b <-|].
  pose proof (frame_inodes _ s s1 F1 I) as I1. destruct (fr_geom _ _ _ F1) as (Q1 & _ & Q3 & _ & _ & Q4 & _).
  set (x := new_vnode n (blockGroup v) false now).
  assert (Op : op_ok (heads ls) (DAdd name x) m) by (split_and!; [done|done|unfold is_word; cbn [x new_vnode id]; lia|cbn [x new_vnode id]; lia]).
  destruct (add_refines fuel s1 v ls m name x V1 Hf Op) as [(s2 & ls' & E2 & V2 & _ & F2)|[_ R]]; [|done].
  pose proof (dk_ok _ _ _ (dv_dir _ _ _ _ V1)) as [J1 K1]. pose proof (dk_size _ _ _ (dv_dir _ _ _ _ V1)) as (S1 & _ & M1).
  assert (Lp : 0 < Z.of_nat (length ls)) by (destruct ls; [by destruct (dv_first _ _ _ _ V1)|cbn; lia]).
  assert (L : length ls' = length ls).
  { pose proof (dk_size _ _ _ (dv_dir _ _ _ _ V2)) as (S2 & _). pose proof (dk_geom _ _ _ (dv_dir _ _ _ _ V1)).
    destruct (fr_geom _ _ _ F2) as (_ & _ & _ & _ & _ & Q & _). rewrite Q in S2. nia. }
  assert (N0 : mapped s1 (blocks v) 0 <> 0).
  { destruct (zlookup_lt ls 0) as [l0 El0]; [lia|]. by destruct (dk_block _ _ _ (dv_dir _ _ _ _ V1) 0 l0 El0). }
  assert (A2 : apart s2 v ls').
  { apply (apart_frame _ s1 s2 v ls ls' A1 (dv_dir _ _ _ _ V1) F2 L).
    - intros b <-. apply (fo_data _ _ K1); [lia|done].
    - intros t T _. apply (fo_apart _ _ K1); [lia|done..]. }
  pose proof (frame_inodes _ s1 s2 F2 I1) as I2. destruct (fr_geom _ _ _ F2) as (P1 & _ & P3 & _).
  destruct (Ext3DirtyVNode_spec s2 x I2) as (s3' & d2 & b & E3 & I3 & R3 & O3 & Ed2 & T3 & C3).
  { split; [cbn [x new_vnode size aTime cTime mTime]; split_and!; [unfold is_word; lia|done..]|by right|]. split; [done|]. cbn [blocks x new_vnode]. apply Forall_replicate. unfold is_word. lia. }
  { cbn [x new_vnode id]. rewrite P1, Q1. done. }
  { cbn [x new_vnode id blockGroup]. rewrite P3, Q3. unfold n. rewrite Z.add_simpl_r, Z.div_add, (Z.div_small i) by lia. done. }
  pose proof (changes_frame b s2 s3' C3 I3) as F3. set (s3 := mark (Block b) s3') in *.
  destruct (dir_view_inodes _ s2 s3 v ls' _ V2 A2 F3) as [V3 A3]; [intros ? <-; exists (blockGroup x), d2; by split; [|right]|].
  exists i, s3, ls'. split; [done|]. split; [done|].
  split; [apply (saved_trans s s1); [apply F1|]; apply (saved_trans s1 s2); [apply F2|apply F3]|]. cbv zeta. fold n. fold x. split_and!.
  - unfold Ext3Create. rewrite E1. cbn [bindO]. fold n. fold x. unfold Ext3AddNonDirEntry. rewrite E2. cbn [bindO c_true Z.eqb negb].
    by rewrite E3.
  - done.
  - assert (Nb : b <> iNodeBitmap d).
    { intros ->. destruct (frame_desc' _ _ _ _ d F1 Ed) as (d1 & X1 & [= _ Y1 _ _]). destruct (frame_desc' _ _ _ _ d1 F2 X1) as (d3 & X3 & [= _ Y3 _ _]).
      apply (ap_inodes _ _ _ A2 _ _ d3 d2 X3 Ed2). by rewrite Y3, Y1. }
    rewrite (fr_blk _ _ _ F3) by done. rewrite (fr_blk _ _ _ F2); [done|]. intros E. apply (ap_data _ _ _ A1 0 ltac:(lia)).
    rewrite E. by apply (frame_area _ s s1 _ F1).
  - done.
  - intros k Hk Nk. rewrite O3 by done. rewrite (frame_read _ s1 s2 k F2 I1 Hk).
    + apply (frame_read _ s s1 k F1 I Hk). intros g e b' Eg T <-. by apply (ap_inodes _ _ _ A (blockGroup v) g d e).
    + intros g e b' Eg T <-. apply (ap_data _ _ _ A1 0 ltac:(lia)). exists g, e. by split; [|right].
Qed.
End Create.


(** ** Reading a directory *)

(** FillDir on the entries in use, in order, until the buffer is full: what
    is left and what was filled in. *)
Fixpoint take_dir (l : list dirent) (info : FillDirInfo) : bool * list dirent * FillDirInfo :=
  match l with
  | [] => (false, [], info)
  | e :: l =>
      if d_ino e =? 0 then take_dir l info
      else
        let (err, info') := FillDir info (d_name e) (d_ino e) in
        if c_true err then (true, e :: l, info) else take_dir l info'
  end.

Lemma take_dir_app l l' info : take_dir (l ++ l') info =
  let '(full, rest, info') := take_dir l info in if full then (true, rest ++ l', info') else take_dir l' info'.
Proof.
  revert info. induction l as [|e l IH]; intros info; cbn [take_dir app]; [done|]. destruct (d_ino e =? 0); [apply IH|].
  destruct (FillDir info (d_name e) (d_ino e)) as [err info']. destruct (c_true err); [done|apply IH].
Qed.
(** What is left is the end of the row. *)
Lemma take_dir_suffix l info full rest info' : take_dir l info = (full, rest, info') ->
  exists p, l = p ++ rest /\ (full = false -> rest = []) /\ (full = true -> rest <> []).
Proof.
  revert info. induction l as [|e l IH]; intros info; cbn [take_dir]; [intros [= <- <- <-]; by exists []|].
  destruct (d_ino e =? 0); [|destruct (FillDir info (d_name e) (d_ino e)) as [err info1]; destruct (c_true err)].
  - intros H. destruct (IH _ H) as (p & -> & Q). by exists (e :: p).
  - intros [= <- <- <-]. by exists [].
  - intros H. destruct (IH _ H) as (p & -> & Q). by exists (e :: p).
Qed.

Lemma read_entries_spec bps dsize q l : forall fuel pre info, Forall dirent_ok l ->
  0 <= q -> (q + 1) * bps <= dsize < 2 ^ 31 -> (length l < fuel)%nat -> Z.of_nat (length (pre ++ encs l)) = bps ->
  read_entries fuel (pre ++ encs l) bps dsize (q * bps + Z.of_nat (length pre)) (Z.of_nat (length pre)) info
  = let '(full, rest, info') := take_dir l info in Ret (full, (q + 1) * bps - Z.of_nat (length (encs rest)), info').
Proof.
  induction l as [|e l IH]; intros [|fuel] pre info Hl Hq Hs Hf Hb; cbn [length] in Hf; try lia; cbn [read_entries take_dir].
  - rewrite app_nil_r in Hb. destruct (Z.ltb_spec (Z.of_nat (length pre)) bps); [lia|]. rewrite andb_false_r. do 3 f_equal. cbn. lia.
  - apply Forall_cons in Hl as [He Hl]. rewrite encs_cons in *. pose proof (enc_length e) as Le.
    assert (8 <= reclen e) by (unfold reclen; lia). rewrite !length_app in Hb.
    destruct (Z.ltb_spec (q * bps + Z.of_nat (length pre)) dsize), (Z.ltb_spec (Z.of_nat (length pre)) bps); try nia. cbn [andb].
    rewrite get_entry_at by done. cbn [bindO fields nameLen recLen iNodeNum].
    assert (Next : forall info, read_entries fuel (pre ++ enc e ++ encs l) bps dsize (u32 (q * bps + Z.of_nat (length pre) + reclen e))
        (s32 (Z.of_nat (length pre) + reclen e)) info
      = let '(full, rest, info') := take_dir l info in Ret (full, (q + 1) * bps - Z.of_nat (length (encs rest)), info')).
    { intros info0. rewrite u32_id by nia. rewrite s32_id by nia. specialize (IH fuel (pre ++ enc e) info0 Hl Hq Hs ltac:(lia)). rewrite <- app_assoc in IH.
      replace (q * bps + Z.of_nat (length pre) + reclen e) with (q * bps + Z.of_nat (length (pre ++ enc e))) by (rewrite length_app; lia).
      replace (Z.of_nat (length pre) + reclen e) with (Z.of_nat (length (pre ++ enc e))) by (rewrite length_app; lia).
      apply IH. rewrite !length_app. lia. }
    unfold c_true at 1. destruct (Z.eqb_spec (d_ino e) 0); cbn [negb]; [apply Next|].
    rewrite (name_at pre e (encs l)) by done. rewrite Nat2Z.id, take_app_length.
    destruct (Z.ltb_spec (Z.of_nat (length (d_name e))) (Z.of_nat (length (d_name e)))); [lia|].
    destruct (FillDir info (d_name e) (d_ino e)) as [err info']. destruct (c_true err); [|apply Next].
    rewrite encs_cons, !length_app. do 3 f_equal. lia.
Qed.

(** The entries from a position of the directory on. *)
Definition at_pos (s : ext3) (v : VNode) (ls : list (list dirent)) (p : Z) (r : list dirent) : Prop :=
  (p = size v /\ r = []) \/ exists q l0 r0, 0 <= q /\ zlookup ls q = Some (l0 ++ r0) /\ r0 <> []
    /\ p = q * blockSize s + Z.of_nat (length (encs l0)) /\ r = r0 ++ entries (drop (Z.to_nat (q + 1)) ls).

Lemma encs_nil l : length (encs l) = 0%nat -> l = [].
Proof. pose proof (encs_count l). destruct l; [done|]. cbn [length] in *. lia. Qed.

Lemma at_pos_next s v ls q : dir_ok s v ls -> 0 <= q <= Z.of_nat (length ls) ->
  at_pos s v ls (q * blockSize s) (entries (drop (Z.to_nat q) ls)).
Proof.
  intros D Hq. destruct (dk_size _ _ _ D) as (E & _), (dk_geom _ _ _ D) as [B _].
  destruct (decide (q = Z.of_nat (length ls))) as [->|N].
  - left. split; [lia|]. by rewrite drop_ge by lia.
  - right. destruct (zlookup_lt ls q) as [l El]; [lia|]. exists q, [], l. pose proof (encs_block s v ls q l D El).
    split_and!; [lia|done|intros ->; cbn in *; lia|cbn; lia|].
    apply zlookup_Some in El as [_ El]. rewrite (drop_S ls l (Z.to_nat q)) by done. by replace (Z.to_nat (q + 1)) with (S (Z.to_nat q)) by lia.
Qed.

Lemma drop_block ls q (l : list dirent) : zlookup ls q = Some l -> drop (Z.to_nat q) ls = l :: drop (Z.to_nat (q + 1)) ls.
Proof.
  intros [B E]%zlookup_Some. rewrite (drop_S ls _ (Z.to_nat q) E). by replace (Z.to_nat (q + 1)) with (S (Z.to_nat q)) by lia.
Qed.

Lemma read_block_step s v ls q l0 r0 fuel info : dir_ok s v ls -> 0 <= q -> zlookup ls q = Some (l0 ++ r0) -> r0 <> [] ->
  (length r0 < fuel)%nat ->
  read_blocks (S fuel) v (q * blockSize s + Z.of_nat (length (encs l0))) info s
  = let '(full, rest, info') := take_dir r0 info in
    if full : bool then Ret (0, (q + 1) * blockSize s - Z.of_nat (length (encs rest)), info')
    else read_blocks fuel v ((q + 1) * blockSize s) info' s.
Proof.
  intros D Hq E Nr Hf. destruct (dk_size _ _ _ D) as (Es & Hs & _), (dk_geom _ _ _ D) as [B1 B2]. cbn [read_blocks].
  pose proof (encs_block s v ls q _ D E) as Lb. rewrite encs_app, length_app in Lb. destruct (zlookup_Some _ _ _ E) as [Bq _].
  assert (0 < length (encs r0))%nat by (destruct (length (encs r0)) eqn:El; [by apply encs_nil in El|lia]).
  destruct (Z.ltb_spec (q * blockSize s + Z.of_nat (length (encs l0))) (size v)); [|nia].
  destruct (Z.eqb_spec (blockSize s) 0); [lia|].
  replace ((q * blockSize s + Z.of_nat (length (encs l0))) / blockSize s) with q
    by (rewrite Z.add_comm, Z.div_add, Z.div_small by lia; lia).
  rewrite (Ext3BlockRead_dir s v q _ ls D E). cbn [bindO]. rewrite mod_block by lia.
  destruct (dk_block _ _ _ D q _ E) as (_ & Eb & Hl). rewrite Eb, encs_app. apply Forall_app in Hl as [_ Hl].
  rewrite (read_entries_spec (blockSize s) (size v) q r0 fuel (encs l0) info Hl Hq); [|nia|lia|rewrite length_app; lia].
  destruct (take_dir r0 info) as [[full rest] info'] eqn:T. cbn [bindO].
  destruct full; [done|]. destruct (take_dir_suffix _ _ _ _ _ T) as (_ & _ & Hr & _). rewrite Hr by done. cbn [encs fmap list_fmap concat length].
  by replace ((q + 1) * blockSize s - Z.of_nat 0) with ((q + 1) * blockSize s) by lia.
Qed.

Lemma read_blocks_spec s v ls : dir_ok s v ls -> forall k q l0 r0 fuel info, 0 <= q -> zlookup ls q = Some (l0 ++ r0) -> r0 <> [] ->
  q + 1 + Z.of_nat k = Z.of_nat (length ls) -> (length (r0 ++ entries (drop (Z.to_nat (q + 1)) ls)) + k + 1 < fuel)%nat ->
  exists p', read_blocks fuel v (q * blockSize s + Z.of_nat (length (encs l0))) info s
    = Ret (0, p', (take_dir (r0 ++ entries (drop (Z.to_nat (q + 1)) ls)) info).2)
    /\ at_pos s v ls p' (take_dir (r0 ++ entries (drop (Z.to_nat (q + 1)) ls)) info).1.2.
Proof.
  intros D. destruct (dk_size _ _ _ D) as (Es & Hs & _), (dk_geom _ _ _ D) as [B1 B2].
  induction k as [|k IH]; intros q l0 r0 [|fuel] info Hq E Nr Hk Hf; try lia; rewrite length_app in Hf;
    rewrite (read_block_step s v ls q l0 r0 fuel info D Hq E Nr), take_dir_app by lia;
    pose proof (encs_block s v ls q _ D E) as Lb; rewrite encs_app, length_app in Lb;
    destruct (take_dir r0 info) as [[full rest] info'] eqn:T; destruct (take_dir_suffix _ _ _ _ _ T) as (p & -> & H0 & H1);
    destruct full; cbn [fst snd].
  1, 3: eexists; split; [done|]; right; exists q, (l0 ++ p), rest; rewrite <- app_assoc; split_and!; try done; [by apply H1|];
    rewrite encs_app, length_app in *; lia.
  - rewrite (drop_ge ls) in * by lia. cbn [entries concat take_dir fst snd]. exists (size v). split; [|by left].
    destruct fuel as [|fuel]; [lia|]. cbn [read_blocks]. destruct (Z.ltb_spec ((q + 1) * blockSize s) (size v)); [nia|]. do 3 f_equal. nia.
  - destruct (zlookup_lt ls (q + 1)) as [l El]; [lia|]. pose proof (encs_block s v ls _ l D El).
    rewrite (drop_block ls (q + 1) l El) in *. unfold entries in *. cbn [concat] in *.
    destruct (IH (q + 1) [] l fuel info') as (p' & Er & Hp); [lia|done|intros ->; cbn in *; lia|lia|unfold entries; lia|].
    exists p'. cbn [encs fmap list_fmap concat length] in Er. change (Z.of_nat 0) with 0 in Er. rewrite Z.add_0_r in Er. by rewrite Er.
Qed.

Definition record_len (e : dirent) : Z := ROUND_UP (12 + Z.of_nat (length (d_name e)) + 1).
Definition dir_record (e : dirent) : DirEntry := {| vNodeNum := d_ino e; length_ := u16 (record_len e); name_ := d_name e |}.
#[global] Instance in_use_dec e : Decision (in_use e).
Proof. unfold in_use. apply _. Defined.

(** What reading fills in: the entries in use of a first part; the next one
    does not fit. *)
Lemma take_dir_fills l : forall info, exists p, l = p ++ (take_dir l info).1.2
  /\ filled (take_dir l info).2 = filled info ++ (dir_record <$> filter in_use p)
  /\ count (take_dir l info).2 = count info - foldr (fun e n => record_len e + n) 0 (filter in_use p)
  /\ match (take_dir l info).1.2 with [] => True | e :: _ => in_use e /\ count (take_dir l info).2 < record_len e end.
Proof.
  induction l as [|e l IH]; intros info; cbn [take_dir].
  { exists []. cbn. split_and!; [done|by rewrite app_nil_r|lia|done]. }
  destruct (Z.eqb_spec (d_ino e) 0) as [E|N].
  - destruct (IH info) as (p & Ep & F & C & R). exists (e :: p). rewrite filter_cons_False by (unfold in_use; lia).
    split_and!; [cbn; congruence|done|done|done].
  - unfold FillDir. fold (record_len e). destruct (Z.ltb_spec (count info) (record_len e)).
    + change (c_true (- EFAULT)) with true. exists []. cbn. split_and!; [done|by rewrite app_nil_r|lia|done|done].
    + change (c_true 0) with false. set (info1 := {| filled := _ |}). destruct (IH info1) as (p & Ep & F & C & R).
      exists (e :: p). rewrite filter_cons_True by done. cbn [fmap list_fmap foldr]. split_and!; [cbn; congruence| |rewrite C; cbn; lia|done].
      rewrite F. cbn. by rewrite <- app_assoc.
Qed.

Lemma at_pos_length s v ls p r : dir_ok s v ls -> at_pos s v ls p r -> p <= size v /\ (p = size v -> r = [])
  /\ (length r <= length (entries ls))%nat.
Proof.
  intros D [[-> ->]|(q & l0 & r0 & Hq & E & Nr & -> & ->)]; [split_and!; [done|done|cbn; lia]|].
  destruct (dk_size _ _ _ D) as (Es & _), (dk_geom _ _ _ D) as [B1 _]. pose proof (encs_block s v ls q _ D E) as Lb. destruct (zlookup_Some _ _ _ E) as [Bq _].
  rewrite encs_app, length_app in Lb. assert (0 < length (encs r0))%nat by (destruct (length (encs r0)) eqn:El; [by apply encs_nil in El|lia]).
  split_and!; [nia|nia|]. unfold entries. rewrite <- (take_drop (Z.to_nat q) ls) at 2. rewrite (drop_block ls q _ E), concat_app. cbn [concat].
  rewrite !length_app. lia.
Qed.

(** Reading a directory from a position fills in the entries in use that follow it, in order, as many as fit the
    buffer, and leaves the position at the first entry that did not: repeated calls list the whole directory. *)
Theorem Ext3ReadDir_resumes fuel s v ls p r info : dir_ok s v ls -> (Z.to_nat (size v) < fuel)%nat -> at_pos s v ls p r ->
  exists p' info' seen rest, Ext3ReadDir fuel v p info s = Ret (0, p', info') /\ r = seen ++ rest /\ at_pos s v ls p' rest
    /\ filled info' = filled info ++ (dir_record <$> filter in_use seen)
    /\ match rest with [] => True | e :: _ => in_use e /\ count info' < record_len e end.
Proof.
  intros D Hf P. destruct (at_pos_length s v ls p r D P) as (H1 & H2 & H3). pose proof (dir_fuel s v ls fuel D Hf) as W. unfold walk_fuel in W.
  assert (R : exists p', Ext3ReadDir fuel v p info s = Ret (0, p', (take_dir r info).2) /\ at_pos s v ls p' (take_dir r info).1.2).
  { unfold Ext3ReadDir. destruct (Z.leb_spec (size v) p); [rewrite H2 by lia; exists p; split; [done|]; left; split; [lia|done]|].
    destruct P as [[-> _]|(q & l0 & r0 & Hq & E & Nr & -> & ->)]; [lia|]. destruct (zlookup_Some _ _ _ E) as [Bq _].
    apply (read_blocks_spec s v ls D (Z.to_nat (Z.of_nat (length ls) - q - 1))); try done; lia. }
  destruct R as (p' & Er & Pp). destruct (take_dir_fills r info) as (seen & Es & F & _ & N).
  exists p', (take_dir r info).2, seen, (take_dir r info).1.2. done.
Qed.

(** ** The first entries of a new directory *)

(** Ext3MkDir writes the entries . and .. over a block, which then is a row of those two. *)
Lemma dot_entries_writes a0 a1 a2 a3 a4 a5 a6 a7 a8 a9 a10 a11 b0 b1 b2 b3 b4 b5 b6 b7 b8 b9 rest self parent bps :
  Z.of_nat (length rest) = bps - 22 -> bps < 2 ^ 16 ->
  dot_entries ([a0; a1; a2; a3; a4; a5; a6; a7; a8; a9; a10; a11; b0; b1; b2; b3; b4; b5; b6; b7; b8; b9] ++ rest) self parent bps
  = Ret (encs [{| d_ino := self; d_name := [46]; d_type := EXT3_FT_DIR; d_pad := [a9; a10; a11] |};
               {| d_ino := parent; d_name := [46; 46]; d_type := EXT3_FT_DIR; d_pad := rest |}]).
Proof.
  intros Hl Hb. unfold dot_entries, put32, put16, put8. change (EXT3_DIR_REC_LEN 1) with 12.
  assert (P : forall l k new, (k + length new <= length l)%nat ->
    put_bytes l (Z.of_nat k) new = Ret (take k l ++ new ++ drop (k + length new) l)) by (intros; by apply (put_in [] l 0)).
  cbn [app]. do 10 (match goal with |- context [put_bytes ?l ?i ?new] =>
    let k := eval vm_compute in (Z.to_nat i) in change (put_bytes l i new) with (put_bytes l (Z.of_nat k) new) end;
    rewrite P by (cbn; lia); cbn [bindO app take drop length Nat.add word_bytes half_bytes]; rewrite ?drop_0).
  unfold encs, enc, header. cbn [fmap list_fmap concat d_ino d_name d_type d_pad word_bytes half_bytes app length]. rewrite app_nil_r.
  unfold reclen. cbn [d_name d_pad length]. replace (8 + Z.of_nat 2 + Z.of_nat (length rest)) with (bps - 12) by lia. done.
Qed.

(** ** A small volume *)

Module Demo.
(** One group of 32 blocks of 128 bytes: inode bitmap 2, block bitmap 3,
    inode table 4 to 19, root directory in block 20. *)
Definition desc : Ext3GroupDesc :=
  {| blockBitmap := 3; iNodeBitmap := 2; iNodeTable := 4; freeBlocks := 12; freeINodes := 5; usedDirs := 1 |}.
Definition dot : dirent := {| d_ino := 2; d_name := [46]; d_type := 2; d_pad := [0; 0; 0] |}.
Definition dotdot : dirent := {| d_ino := 2; d_name := [46; 46]; d_type := 2; d_pad := replicate 106 0 |}.
Definition root : VNode :=
  {| id := 2; mode := 14; size := 128; aTime := 0; cTime := 0; mTime := 0; blocks := 20 :: replicate 14 0; blockGroup := 0 |}.
Definition volume : ext3 :=
  {| iNodesCount := 16; groupCount := 1; iNodesPerGrp := 16; firstDataBlock := 1; blocksPerGrp := 32; blockSize := 128;
     descs := [desc]; sb_freeBlocks := 12; sb_freeInodes := 5;
     blk := fun b => if b =? 3 then (2 ^ 20 - 1) :: replicate 31 0 else if b =? 2 then 2047 :: replicate 31 0
                     else if b =? 20 then of_bytes (encs [dot; dotdot]) else replicate 32 0;
     marked := [] |}.
Definition rows : list (list dirent) := [[dot; dotdot]].
Definition names : gmap (list Z) Z := {[ [46] := 2; [46; 46] := 2 ]}.

Lemma dir_volume_desc g d : zlookup (descs volume) g = Some d -> g = 0 /\ d = desc.
Proof.
  intros E. destruct (zlookup_Some _ _ _ E) as [B _]. cbn in B. assert (g = 0) as -> by lia. cbn in E. by injection E as <-.
Qed.
Lemma dots_ok : Forall dirent_ok [dot; dotdot].
Proof.
  constructor; [|constructor; [|constructor]].
  - split; [by vm_compute|split; [|cbn; lia]|done| |done]; repeat (constructor; [by vm_compute|]); constructor.
  - split; [by vm_compute|split; [|cbn; lia]|done| |done]; [|apply Forall_replicate; by vm_compute].
    repeat (constructor; [by vm_compute|]); constructor.
Qed.
Lemma blocks_ok b : length (blk volume b) = 32%nat /\ Forall is_word (blk volume b).
Proof.
  cbn [blk volume]. destruct (b =? 3); [|destruct (b =? 2); [|destruct (b =? 20)]].
  - split; [done|]. constructor; [by vm_compute|]. apply Forall_replicate. by vm_compute.
  - split; [done|]. constructor; [by vm_compute|]. apply Forall_replicate. by vm_compute.
  - apply (of_bytes_words 32); [by vm_compute|]. apply encs_bytes, dots_ok.
  - split; [done|]. apply Forall_replicate. by vm_compute.
Qed.
Lemma dir_volume_ok : ext3_ok volume.
Proof.
  split.
  - cbn. repeat split; lia.
  - done.
  - intros b. destruct (blocks_ok b) as [-> F]. done.
  - intros g d [-> ->]%dir_volume_desc. split; [unfold in_fs; cbn; lia|]. split; vm_compute; reflexivity.
  - intros g h d e [-> ->]%dir_volume_desc [-> ->]%dir_volume_desc _. done.
  - done.
  - unfold in_fs. cbn. lia.
Qed.
Lemma not_bitmap b : b <> 3 -> ~ is_bitmap volume b.
Proof. intros N (g & d & [_ ->]%dir_volume_desc & E). by apply N. Qed.
Lemma root_ent k : ent (blocks root) k = if k =? 0 then 20 else 0.
Proof.
  unfold ent, zlookup. cbn [blocks root]. destruct (Z.eqb_spec k 0) as [->|N]; [done|]. destruct (Z.leb_spec 0 k); [|done].
  replace (Z.to_nat k) with (S (Z.to_nat (k - 1))) by lia. change ((20 :: replicate 14 0) !! S (Z.to_nat (k - 1))) with (replicate 14 0 !! Z.to_nat (k - 1)).
  destruct (replicate 14 0 !! Z.to_nat (k - 1)) eqn:E; [|done]. by apply lookup_replicate in E as [-> _].
Qed.
Lemma root_tab t : tab volume (blocks root) t = 0.
Proof. destruct t; cbn [tab]; by rewrite root_ent. Qed.
Lemma root_mapped n : 0 <= n -> mapped volume (blocks root) n = if n =? 0 then 20 else 0.
Proof.
  intros Hn. unfold mapped. rewrite root_tab, root_ent. destruct (Z.ltb_spec n 12); [done|]. destruct (Z.eqb_spec n 0); [lia|done].
Qed.
Lemma root_owned : owned volume 20.
Proof. split; [unfold in_fs; cbn; lia|]. split; [by vm_compute|by apply not_bitmap]. Qed.
Lemma root_ok : file_ok volume (blocks root).
Proof.
  split.
  - done.
  - intros t _. by rewrite root_tab.
  - intros t t' _ _. by rewrite root_tab.
  - intros n [Hn _]. rewrite root_mapped by done. destruct (n =? 0); [intros _; apply root_owned|done].
  - intros n k [Hn _] [Hk _]. rewrite !root_mapped by done. destruct (Z.eqb_spec n 0), (Z.eqb_spec k 0); congruence.
  - intros n t [Hn _] _. by rewrite root_tab.
Qed.
Lemma root_dir : dir_ok volume root rows.
Proof.
  split.
  - split; [apply dir_volume_ok|apply root_ok].
  - cbn. lia.
  - split; [done|]. split; [cbn; lia|by vm_compute].
  - intros n l E. destruct (zlookup_Some _ _ _ E) as [B _]. cbn in B. assert (n = 0) as -> by lia. cbn in E. injection E as <-.
    rewrite root_mapped by done. split; [done|]. split; [|apply dots_ok].
    unfold data. cbn [blk volume Z.eqb]. apply (to_of_bytes 32); [by vm_compute|]. apply encs_bytes, dots_ok.
Qed.
Lemma root_view : dir_view volume root rows names.
Proof.
  split; [apply root_dir|done|by repeat constructor| |].
  - apply (bool_decide_unpack _). by vm_compute.
  - intros name. cbn [rows entries concat app fmap list_fmap key dot dotdot d_name d_ino assoc]. unfold names.
    destruct (decide ([46] = name)) as [<-|N1]; [done|]. destruct (decide ([46; 46] = name)) as [<-|N2]; [done|].
    rewrite lookup_insert_ne by done. by rewrite lookup_singleton_ne.
Qed.

Lemma name_a : name_ok [97].
Proof. split; [repeat constructor; by vm_compute|cbn; lia]. Qed.
Lemma dot_ok : name_ok [46].
Proof. split; [repeat constructor; by vm_compute|cbn; lia]. Qed.

Definition file : VNode := new_vnode 12 0 false 7.
Definition script : list dir_op := [DLookup [97]; DAdd [97] file; DLookup [97]; DRemove [97]; DLookup [97]; DRemove [97]].

Lemma ext3_dir_refines_witness :
  (exists s' ls', dir_run 129 script root volume
     = Ret ([(- ENOENT, None); (0, None); (0, Some 12); (0, None); (- ENOENT, None); (- ENOENT, None)], root, s')
     /\ dir_view s' root ls' (map_run script names).2 /\ saved volume s')
  \/ (dir_run 129 script root volume = Panic /\ exists ops1 name x ops2 s1 ls1, script = ops1 ++ DAdd name x :: ops2
    /\ dir_run 129 ops1 root volume = Ret ((map_run ops1 names).1, root, s1) /\ dir_view s1 root ls1 (map_run ops1 names).2 /\ no_room name ls1).
Proof.
  apply (ext3_dir_refines 129 script volume root rows names root_view); [cbn; lia|].
  assert (N : Some [97] ∉ heads rows) by (apply (bool_decide_unpack _); by vm_compute).
  pose proof name_a as A. cbn [ops_ok script op_ok]. split_and!; try done; by vm_compute.
Defined.

Lemma Ext3Remove_first_stays_witness : exists s', Ext3Remove 129 root [46] volume = Ret (0, s') /\ Ext3Lookup 129 root [46] s' = Ret (0, Some 0).
Proof. apply (Ext3Remove_first_stays 129 volume root rows 0 dot [dotdot] [46] root_dir); [cbn; lia|apply dot_ok|reflexivity]. Defined.

Lemma volume_inodes : inodes_ok volume.
Proof.
  split.
  - by exists 7.
  - by vm_compute.
  - done.
  - intros b. destruct (blocks_ok b) as [-> F]. split; [done|by apply words_Forall].
  - intros g d [-> ->]%dir_volume_desc. by vm_compute.
  - by intros g h d e b [-> ->]%dir_volume_desc [-> ->]%dir_volume_desc.
Qed.
Lemma volume_area b : inode_area volume b -> b = 2 \/ 4 <= b < 20.
Proof. intros (g & d & [-> ->]%dir_volume_desc & [->|H]); [by left|]. right. exact H. Qed.
Lemma root_apart : apart volume root rows.
Proof.
  split.
  - intros b [->|H]%volume_area; apply not_bitmap; lia.
  - intros t _. by rewrite root_tab.
  - intros n [Hn _]. rewrite root_mapped by done. destruct (n =? 0); intros H%volume_area; lia.
  - intros g h d e [-> ->]%dir_volume_desc [-> ->]%dir_volume_desc H. unfold in_table in H. cbn in H. lia.
Qed.


Lemma Ext3ReadDir_resumes_witness : exists p' info' seen rest,
  Ext3ReadDir 129 root 0 {| filled := []; count := 16 |} volume = Ret (0, p', info') /\ [dot; dotdot] = seen ++ rest
  /\ at_pos volume root rows p' rest /\ filled info' = [] ++ (dir_record <$> filter in_use seen)
  /\ match rest with [] => True | e :: _ => in_use e /\ count info' < record_len e end.
Proof.
  apply (Ext3ReadDir_resumes 129 volume root rows 0 [dot; dotdot] {| filled := []; count := 16 |} root_dir); [cbn; lia|].
  right. exists 0, [], [dot; dotdot]. done.
Defined.
End Demo.
