(* ===== verification/Journal.v ===== *)
(** * The journal of ext3 (fs/journal/transaction.c, commit.c, checkpoint.c,
      recovery.c, journals.c, include/fs/journal.h, include/byteswap.h)

    Changes to the metadata of a file system are collected in a transaction:
    JournalStart opens a handle on the current transaction,
    JournalGetWriteAccess and JournalDirtyMetadata file the buffers it
    changes.  JournalCommitTransaction copies them to the log, between a
    descriptor block with the numbers of the blocks and a commit block;
    JournalCheckpoint then lets them be written to their places, and
    JournalRecover replays the log when the file system is mounted again.

    The buffers are those of the block cache (BCache), with their contents as
    32-bit words: [chain] has all buffers in the order in which they came,
    BlockRead finds the first one of a block or makes one from the disk,
    BlockBufferAlloc makes a new one, BlockWrite marks it dirty, and [flush]
    writes dirty buffers to the disk.  References and locks of buffers, which
    one thread at a time holds, are left out; memory is not exhausted and the
    disk gives no errors.

    Lists are the sequences of LList; a head removed with ListRemove keeps
    its old links, and removing it again is a [Fault] here.  Waiting for
    another thread is [NoFuel].  [blockMap] is the function of the file
    system that gives the place of a block of the journal file. *)

From stdpp Require Import functions.
From S2P Require Import Prelude.

(** ** Model *)

Definition JOURN_RESERVED : Z := 1.
Definition JOURN_METADATA : Z := 2.
Definition JOURN_LOGCTL : Z := 3.
Definition JOURN_SHADOW : Z := 4.
Definition JOURN_IO : Z := 5.
Definition JOURN_FORGET : Z := 6.
Definition JTRANS_RUNNING : Z := 1.
Definition JTRANS_LOCKED : Z := 2.
Definition JOURN_COMMIT_INTERVAL : Z := 2.
Definition JOURN_PASS_SCAN : Z := 0.
Definition JOURN_PASS_REPLAY : Z := 2.
Definition JFS_MAGIC : Z := 0xC03B3998.
Definition JOURN_FLAG_SAME_UUID : Z := 2.
Definition JOURN_FLAG_LAST_TAG : Z := 8.
Definition JFS_DESC_BLOCK : Z := 1.
Definition JFS_COMMIT_BLOCK : Z := 2.

(** The four bytes of [x] in memory, read as a big endian number. *)
Definition BeToCpu32 (x : Z) : Z :=
  u32 (Z.lor (Z.lor (Z.lor (Z.shiftl (u8 x) 24) (Z.shiftl (u8 (Z.shiftr x 8)) 16))
               (Z.shiftl (u8 (Z.shiftr x 16)) 8))
         (u8 (Z.shiftr x 24))).
Definition CpuToBe32 (x : Z) : Z := BeToCpu32 x.

(** struct Buffer; [privData] is the journal head, 0 when BUFFER_JOURNAL is
    clear. *)
Record Buffer := {
  blockNum : Z;
  data : list Z;
  dirty : bool;
  privData : Z;
}.
Definition set_data v (x : Buffer) : Buffer :=
  {| blockNum := blockNum x; data := v; dirty := dirty x; privData := privData x |}.
Definition set_dirty v (x : Buffer) : Buffer :=
  {| blockNum := blockNum x; data := data x; dirty := v; privData := privData x |}.
Definition set_privData v (x : Buffer) : Buffer :=
  {| blockNum := blockNum x; data := data x; dirty := dirty x; privData := v |}.

(** Where the links of a head point: to itself, into a list, or to the
    neighbours it had in one. *)
Inductive links := Alone | Linked | Stale.

Record JournalHead := {
  buffer : Z;
  transaction : Z;
  nextTransaction : Z;
  jlist : Z;
  jrefs : Z;
  link : links;
}.
Definition set_transaction v (x : JournalHead) : JournalHead :=
  {| buffer := buffer x; transaction := v; nextTransaction := nextTransaction x; jlist := jlist x;
     jrefs := jrefs x; link := link x |}.
Definition set_nextTransaction v (x : JournalHead) : JournalHead :=
  {| buffer := buffer x; transaction := transaction x; nextTransaction := v; jlist := jlist x;
     jrefs := jrefs x; link := link x |}.
Definition set_jrefs v (x : JournalHead) : JournalHead :=
  {| buffer := buffer x; transaction := transaction x; nextTransaction := nextTransaction x;
     jlist := jlist x; jrefs := v; link := link x |}.
Definition set_link v_jlist v_link (x : JournalHead) : JournalHead :=
  {| buffer := buffer x; transaction := transaction x; nextTransaction := nextTransaction x;
     jlist := v_jlist; jrefs := jrefs x; link := v_link |}.

Record JournalTrans := {
  state : Z;
  transId : Z;
  outstandingBlocks : Z;
  expires : Z;
  logStart : Z;
  updates : Z;
  handleCount : Z;
  reservedList : list Z;
  metaDataList : list Z;
  logControlList : list Z;
  shadowList : list Z;
  ioList : list Z;
  forgetList : list Z;
}.
Definition set_state v (x : JournalTrans) : JournalTrans :=
  {| state := v; transId := transId x; outstandingBlocks := outstandingBlocks x; expires := expires x;
     logStart := logStart x; updates := updates x; handleCount := handleCount x;
     reservedList := reservedList x; metaDataList := metaDataList x;
     logControlList := logControlList x; shadowList := shadowList x; ioList := ioList x;
     forgetList := forgetList x |}.
Definition set_logStart v (x : JournalTrans) : JournalTrans :=
  {| state := state x; transId := transId x; outstandingBlocks := outstandingBlocks x;
     expires := expires x; logStart := v; updates := updates x; handleCount := handleCount x;
     reservedList := reservedList x; metaDataList := metaDataList x;
     logControlList := logControlList x; shadowList := shadowList x; ioList := ioList x;
     forgetList := forgetList x |}.
Definition set_counts v_outstandingBlocks v_updates v_handleCount (x : JournalTrans) : JournalTrans :=
  {| state := state x; transId := transId x; outstandingBlocks := v_outstandingBlocks;
     expires := expires x; logStart := logStart x; updates := v_updates; handleCount := v_handleCount;
     reservedList := reservedList x; metaDataList := metaDataList x;
     logControlList := logControlList x; shadowList := shadowList x; ioList := ioList x;
     forgetList := forgetList x |}.
Definition set_lists v_reservedList v_metaDataList v_logControlList v_shadowList v_ioList v_forgetList (x : JournalTrans) : JournalTrans :=
  {| state := state x; transId := transId x; outstandingBlocks := outstandingBlocks x;
     expires := expires x; logStart := logStart x; updates := updates x; handleCount := handleCount x;
     reservedList := v_reservedList; metaDataList := v_metaDataList;
     logControlList := v_logControlList; shadowList := v_shadowList; ioList := v_ioList;
     forgetList := v_forgetList |}.

Record JournalHandle := {
  refs : Z;
  numBlocks : Z;
  sync : Z;
  htransaction : Z;
}.
Definition set_refs v (x : JournalHandle) : JournalHandle :=
  {| refs := v; numBlocks := numBlocks x; sync := sync x; htransaction := htransaction x |}.
Definition set_numBlocks v (x : JournalHandle) : JournalHandle :=
  {| refs := refs x; numBlocks := v; sync := sync x; htransaction := htransaction x |}.
Definition set_sync v (x : JournalHandle) : JournalHandle :=
  {| refs := refs x; numBlocks := numBlocks x; sync := v; htransaction := htransaction x |}.

Record Journal := {
  maxLength : Z;
  sectorSize : Z;
  maxTransactionBuffers : Z;
  uuid : list Z;
  transSequence : Z;
  commitSequence : Z;
  tailSequence : Z;
  commitRequest : Z;
  head : Z;
  tail : Z;
  free : Z;
  checkpointTrans : list Z;
  currTransaction : Z;
  committingTrans : Z;
}.
Definition set_sequence v (x : Journal) : Journal :=
  {| maxLength := maxLength x; sectorSize := sectorSize x;
     maxTransactionBuffers := maxTransactionBuffers x; uuid := uuid x; transSequence := v;
     commitSequence := commitSequence x; tailSequence := tailSequence x;
     commitRequest := commitRequest x; head := head x; tail := tail x; free := free x;
     checkpointTrans := checkpointTrans x; currTransaction := currTransaction x;
     committingTrans := committingTrans x |}.
Definition set_request v (x : Journal) : Journal :=
  {| maxLength := maxLength x; sectorSize := sectorSize x;
     maxTransactionBuffers := maxTransactionBuffers x; uuid := uuid x;
     transSequence := transSequence x; commitSequence := commitSequence x;
     tailSequence := tailSequence x; commitRequest := v; head := head x; tail := tail x;
     free := free x; checkpointTrans := checkpointTrans x; currTransaction := currTransaction x;
     committingTrans := committingTrans x |}.
Definition set_head v_head v_free (x : Journal) : Journal :=
  {| maxLength := maxLength x; sectorSize := sectorSize x;
     maxTransactionBuffers := maxTransactionBuffers x; uuid := uuid x;
     transSequence := transSequence x; commitSequence := commitSequence x;
     tailSequence := tailSequence x; commitRequest := commitRequest x; head := v_head; tail := tail x;
     free := v_free; checkpointTrans := checkpointTrans x; currTransaction := currTransaction x;
     committingTrans := committingTrans x |}.
Definition set_tail v_tailSequence v_tail v_free (x : Journal) : Journal :=
  {| maxLength := maxLength x; sectorSize := sectorSize x;
     maxTransactionBuffers := maxTransactionBuffers x; uuid := uuid x;
     transSequence := transSequence x; commitSequence := commitSequence x;
     tailSequence := v_tailSequence; commitRequest := commitRequest x; head := head x; tail := v_tail;
     free := v_free; checkpointTrans := checkpointTrans x; currTransaction := currTransaction x;
     committingTrans := committingTrans x |}.
Definition set_checkpoint v (x : Journal) : Journal :=
  {| maxLength := maxLength x; sectorSize := sectorSize x;
     maxTransactionBuffers := maxTransactionBuffers x; uuid := uuid x;
     transSequence := transSequence x; commitSequence := commitSequence x;
     tailSequence := tailSequence x; commitRequest := commitRequest x; head := head x; tail := tail x;
     free := free x; checkpointTrans := v; currTransaction := currTransaction x;
     committingTrans := committingTrans x |}.
Definition set_current v (x : Journal) : Journal :=
  {| maxLength := maxLength x; sectorSize := sectorSize x;
     maxTransactionBuffers := maxTransactionBuffers x; uuid := uuid x;
     transSequence := transSequence x; commitSequence := commitSequence x;
     tailSequence := tailSequence x; commitRequest := commitRequest x; head := head x; tail := tail x;
     free := free x; checkpointTrans := checkpointTrans x; currTransaction := v;
     committingTrans := committingTrans x |}.
Definition set_commit v_commitSequence v_currTransaction v_committingTrans (x : Journal) : Journal :=
  {| maxLength := maxLength x; sectorSize := sectorSize x;
     maxTransactionBuffers := maxTransactionBuffers x; uuid := uuid x;
     transSequence := transSequence x; commitSequence := v_commitSequence;
     tailSequence := tailSequence x; commitRequest := commitRequest x; head := head x; tail := tail x;
     free := free x; checkpointTrans := checkpointTrans x; currTransaction := v_currTransaction;
     committingTrans := v_committingTrans |}.

(** The block cache with the disk behind it. *)
Record cache := {
  chain : list Z;
  buffers : gmap Z Buffer;
  disk : Z -> list Z;
  nextBuffer : Z;
}.

(** The journal with the structures it uses, by address; [currHandle] is the
    handle of the running thread and [seconds] the time. *)
Record jstate := {
  jr : Journal;
  trans : gmap Z JournalTrans;
  heads : gmap Z JournalHead;
  handles : gmap Z JournalHandle;
  nextAddr : Z;
  currHandle : Z;
  seconds : Z;
  bc : cache;
}.
Definition with_jr v (x : jstate) : jstate :=
  {| jr := v; trans := trans x; heads := heads x; handles := handles x; nextAddr := nextAddr x;
     currHandle := currHandle x; seconds := seconds x; bc := bc x |}.
Definition with_trans v (x : jstate) : jstate :=
  {| jr := jr x; trans := v; heads := heads x; handles := handles x; nextAddr := nextAddr x;
     currHandle := currHandle x; seconds := seconds x; bc := bc x |}.
Definition with_heads v (x : jstate) : jstate :=
  {| jr := jr x; trans := trans x; heads := v; handles := handles x; nextAddr := nextAddr x;
     currHandle := currHandle x; seconds := seconds x; bc := bc x |}.
Definition with_handles v (x : jstate) : jstate :=
  {| jr := jr x; trans := trans x; heads := heads x; handles := v; nextAddr := nextAddr x;
     currHandle := currHandle x; seconds := seconds x; bc := bc x |}.
Definition with_next v (x : jstate) : jstate :=
  {| jr := jr x; trans := trans x; heads := heads x; handles := handles x; nextAddr := v;
     currHandle := currHandle x; seconds := seconds x; bc := bc x |}.
Definition with_handle v (x : jstate) : jstate :=
  {| jr := jr x; trans := trans x; heads := heads x; handles := handles x; nextAddr := nextAddr x;
     currHandle := v; seconds := seconds x; bc := bc x |}.
Definition with_bc v (x : jstate) : jstate :=
  {| jr := jr x; trans := trans x; heads := heads x; handles := handles x; nextAddr := nextAddr x;
     currHandle := currHandle x; seconds := seconds x; bc := v |}.

(** *** Buffers *)

Definition upd_buffer (b : Z) (f : Buffer -> Buffer) (s : jstate) : outcome jstate :=
  let c := bc s in
  let* x := of_option (buffers c !! b) in
  Ret (with_bc {| chain := chain c; buffers := <[b := f x]> (buffers c); disk := disk c; nextBuffer := nextBuffer c |} s).

(** The first buffer of block [n] on the chain. *)
Fixpoint find_buffer (l : list Z) (n : Z) (bs : gmap Z Buffer) : outcome (option Z) :=
  match l with
  | [] => Ret None
  | b :: l =>
      let* x := of_option (bs !! b) in
      if blockNum x =? n then Ret (Some b) else find_buffer l n bs
  end.

Definition new_buffer (n : Z) (d : list Z) (s : jstate) : Z * jstate :=
  let c := bc s in
  let b := nextBuffer c in
  let x := {| blockNum := n; data := d; dirty := false; privData := 0 |} in
  (b, with_bc {| chain := chain c ++ [b]; buffers := <[b := x]> (buffers c); disk := disk c; nextBuffer := b + 1 |} s).

Definition BlockRead (n : Z) (s : jstate) : outcome (Z * jstate) :=
  let* r := find_buffer (chain (bc s)) n (buffers (bc s)) in
  match r with
  | Some b => Ret (b, s)
  | None => Ret (new_buffer n (disk (bc s) n) s)
  end.

Definition zeros (s : jstate) : list Z := replicate (Z.to_nat (sectorSize (jr s) / 4)) 0.

Definition BlockBufferAlloc (n : Z) (s : jstate) : Z * jstate := new_buffer n (zeros s) s.

Definition BlockWrite (b : Z) (s : jstate) : outcome jstate := upd_buffer b (set_dirty true) s.

Fixpoint write_all (l : list Z) (s : jstate) : outcome jstate :=
  match l with [] => Ret s | b :: l => let* s := BlockWrite b s in write_all l s end.

(** Words [ws] stored from word [off] of the data of a buffer on. *)
Fixpoint put_words (d : list Z) (off : Z) (ws : list Z) : option (list Z) :=
  match ws with
  | [] => Some d
  | w :: ws => match zupdate d off w with Some d => put_words d (off + 1) ws | None => None end
  end.
Definition store_words (b off : Z) (ws : list Z) (s : jstate) : outcome jstate :=
  let* x := of_option (buffers (bc s) !! b) in
  let* d := of_option (put_words (data x) off ws) in
  upd_buffer b (set_data d) s.
Definition load_word (b off : Z) (s : jstate) : outcome Z :=
  let* x := of_option (buffers (bc s) !! b) in of_option (zlookup (data x) off).

(** *** Heads and lists *)

Definition upd_head (h : Z) (f : JournalHead -> JournalHead) (s : jstate) : outcome jstate :=
  let* x := of_option (heads s !! h) in Ret (with_heads (<[h := f x]> (heads s)) s).
Definition upd_trans (t : Z) (f : JournalTrans -> JournalTrans) (s : jstate) : outcome jstate :=
  let* x := of_option (trans s !! t) in Ret (with_trans (<[t := f x]> (trans s)) s).
Definition upd_handle (h : Z) (f : JournalHandle -> JournalHandle) (s : jstate) : outcome jstate :=
  let* x := of_option (handles s !! h) in Ret (with_handles (<[h := f x]> (handles s)) s).

Definition JournalAddHeader (b : Z) (s : jstate) : outcome (Z * jstate) :=
  let* x := of_option (buffers (bc s) !! b) in
  let* (h, s) :=
    if c_true (privData x) then Ret (privData x, s)
    else
      let h := nextAddr s in
      let x := {| buffer := b; transaction := 0; nextTransaction := 0; jlist := 0; jrefs := 0; link := Alone |} in
      let* s := upd_buffer b (set_privData h) s in
      Ret (h, with_heads (<[h := x]> (heads s)) (with_next (h + 1) s)) in
  let* s := upd_head h (fun x => set_jrefs (s32 (jrefs x + 1)) x) s in
  Ret (h, s).

Definition JournalRemoveHeader (h : Z) (s : jstate) : outcome jstate :=
  let* s := upd_head h (fun x => set_jrefs (s32 (jrefs x - 1)) x) s in
  let* x := of_option (heads s !! h) in
  if jrefs x =? 0 then
    let* s := upd_buffer (buffer x) (set_privData 0) s in
    Ret (with_heads (delete h (heads s)) s)
  else Ret s.

Definition unlink (h : Z) (t : JournalTrans) : JournalTrans :=
  let rm := filter (fun x => x <> h) in
  set_lists (rm (reservedList t)) (rm (metaDataList t)) (rm (logControlList t)) (rm (shadowList t)) (rm (ioList t))
    (rm (forgetList t)) t.

(** ListRemove of the entry of a head. *)
Definition JournalUnfileBuffer (h : Z) (s : jstate) : outcome jstate :=
  let* x := of_option (heads s !! h) in
  match link x with
  | Alone => Ret s
  | Linked => upd_head h (fun x => set_link (jlist x) Stale x) (with_trans (unlink h <$> trans s) s)
  | Stale => Fault
  end.

(** ListAddTail to the list [type] of a transaction; [None] for another
    type. *)
Definition add_tail (h type : Z) (t : JournalTrans) : option JournalTrans :=
  let add k l := if type =? k then l ++ [h] else l in
  if (JOURN_RESERVED <=? type) && (type <=? JOURN_FORGET) then
    Some (set_lists (add JOURN_RESERVED (reservedList t)) (add JOURN_METADATA (metaDataList t))
            (add JOURN_LOGCTL (logControlList t)) (add JOURN_SHADOW (shadowList t)) (add JOURN_IO (ioList t))
            (add JOURN_FORGET (forgetList t)) t)
  else None.

Definition JournalFileBuffer (h t type : Z) (s : jstate) : outcome jstate :=
  if h =? 0 then Ret s
  else
    let* x := of_option (heads s !! h) in
    if c_true (transaction x) && (jlist x =? type) then Ret s
    else
      let* s := if c_true (transaction x) then JournalUnfileBuffer h s else upd_head h (set_transaction t) s in
      let* y := of_option (trans s !! t) in
      match add_tail h type y with
      | None => Ret s
      | Some y => upd_head h (set_link type Linked) (with_trans (<[t := y]> (trans s)) s)
      end.

(** *** Transactions *)

Definition JournalTransCreate (s : jstate) : Z * jstate :=
  let j := jr s in
  let t := nextAddr s in
  let x := {| state := JTRANS_RUNNING; transId := s32 (transSequence j); outstandingBlocks := 0;
              expires := u32 (seconds s + JOURN_COMMIT_INTERVAL); logStart := 0; updates := 0; handleCount := 0;
              reservedList := []; metaDataList := []; logControlList := []; shadowList := []; ioList := [];
              forgetList := [] |} in
  (t, with_jr (set_current t (set_sequence (u32 (transSequence j + 1)) j))
        (with_next (t + 1) (with_trans (<[t := x]> (trans s)) s))).

Definition JournalHandleStart (h : Z) (s : jstate) : outcome (Z * jstate) :=
  let* x := of_option (handles s !! h) in
  if maxTransactionBuffers (jr s) <? u32 (numBlocks x) then Ret (- ENOSPC, s)
  else
    let (t, s) := if currTransaction (jr s) =? 0 then JournalTransCreate s else (currTransaction (jr s), s) in
    let* y := of_option (trans s !! t) in
    let s := with_handles (<[h := {| refs := refs x; numBlocks := numBlocks x; sync := sync x; htransaction := t |}]> (handles s)) s in
    let* s := upd_trans t (set_counts (s32 (outstandingBlocks y + numBlocks x)) (s32 (updates y + 1))
                             (s32 (handleCount y + 1))) s in
    Ret (0, s).

Definition JournalHandleAllocate (n : Z) (s : jstate) : Z * jstate :=
  let h := nextAddr s in
  (h, with_next (h + 1)
        (with_handles (<[h := {| refs := 1; numBlocks := n; sync := 0; htransaction := 0 |}]> (handles s)) s)).

(** The handle, 0 for NULL. *)
Definition JournalStart (n : Z) (s : jstate) : outcome (Z * jstate) :=
  let h := currHandle s in
  if c_true h then
    let* s := upd_handle h (fun x => set_refs (s32 (refs x + 1)) x) s in Ret (h, s)
  else
    let (h, s) := JournalHandleAllocate n s in
    let* (ret, s) := JournalHandleStart h (with_handle h s) in
    if c_true ret then Ret (0, with_handle 0 s) else Ret (h, s).

Definition JournalGetWriteAccess (hd b : Z) (s : jstate) : outcome (Z * jstate) :=
  let* x := of_option (handles s !! hd) in
  let t := htransaction x in
  let* (h, s) := JournalAddHeader b s in
  let* y := of_option (heads s !! h) in
  let* s :=
    if c_true (transaction y) && negb (transaction y =? t) then
      if jlist y =? JOURN_SHADOW then NoFuel else upd_head h (set_nextTransaction t) s
    else Ret s in
  let* s :=
    if transaction y =? 0 then
      let* s := upd_head h (set_transaction t) s in JournalFileBuffer h t JOURN_RESERVED s
    else Ret s in
  if numBlocks x <=? 0 then Panic
  else let* s := upd_handle hd (set_numBlocks (numBlocks x - 1)) s in Ret (0, s).

Definition JournalDirtyMetadata (hd b : Z) (s : jstate) : outcome (Z * jstate) :=
  let* x := of_option (handles s !! hd) in
  let* y := of_option (buffers (bc s) !! b) in
  let* s := JournalFileBuffer (privData y) (htransaction x) JOURN_METADATA s in
  Ret (0, s).

Section Log.
(** vNode->vNodeOps->blockMap(vNode, blockNo, 0). *)
Context (blockMap : Z -> Z).

Definition JournalBlockMap (n : Z) : Z := u32 (blockMap n).

(** *** Commit *)

Definition JournalNextLogBlock (s : jstate) : Z * jstate :=
  let j := jr s in
  (JournalBlockMap (head j), with_jr (set_head (u32 (head j + 1)) (u32 (free j - 1)) j) s).

Definition JournalGetDescriptorBuffer (s : jstate) : outcome (Z * jstate) :=
  let (n, s) := JournalNextLogBlock s in
  let* (b, s) := BlockRead n s in
  let* s := upd_buffer b (set_data (zeros s)) s in
  JournalAddHeader b s.

(** The new head; the contents of the buffer are copied. *)
Definition JournalWriteMetadataBuffer (t old n : Z) (s : jstate) : outcome (Z * jstate) :=
  let* x := of_option (heads s !! old) in
  let* ob := of_option (buffers (bc s) !! buffer x) in
  let (nb, s) := BlockBufferAlloc n s in
  let* s := upd_buffer nb (set_data (data ob)) s in
  let* (h, s) := JournalAddHeader nb s in
  let* s := upd_head h (set_transaction 0) s in
  let* s := JournalFileBuffer old t JOURN_SHADOW s in
  let* s := JournalFileBuffer h t JOURN_IO s in
  Ret (h, s).

(** The local variables of JournalCommitMetadata: the buffer of the
    descriptor, the array of buffers and the word of the descriptor at which
    the next tag goes. *)
Record commit_vars := {
  descriptor : option Z;
  bufs : list Z;
  tagPointer : Z;
  spaceLeft : Z;
  firstTag : bool;
}.

Definition buffer_of (h : Z) (s : jstate) : outcome Z :=
  let* x := of_option (heads s !! h) in Ret (buffer x).

(** The descriptor made for the first buffer. *)
Definition start_descriptor (t : Z) (v : commit_vars) (s : jstate) : outcome (Z * commit_vars * jstate) :=
  match descriptor v with
  | Some d => Ret (d, v, s)
  | None =>
      let* (h, s) := JournalGetDescriptorBuffer s in
      let* d := buffer_of h s in
      let* y := of_option (trans s !! t) in
      let* s := store_words d 0 [CpuToBe32 JFS_MAGIC; CpuToBe32 JFS_DESC_BLOCK; CpuToBe32 (u32 (transId y))] s in
      if 64 <=? Z.of_nat (length (bufs v)) then Fault
      else
        let* s := JournalFileBuffer h t JOURN_LOGCTL s in
        Ret (d, {| descriptor := Some d; bufs := bufs v ++ [d]; tagPointer := 3;
                   spaceLeft := u32 (sectorSize (jr s) - 12); firstTag := true |}, s)
  end.

(** The loop over the buffers of the transaction.  A buffer leaves
    metaDataList when it is handled, so the test for its end,
    curr2->next.next == &metaDataList, holds when at most one buffer is
    left. *)
Fixpoint commit_loop (t : Z) (l : list Z) (v : commit_vars) (s : jstate) : outcome jstate :=
  match l with
  | [] => Ret s
  | curr :: l =>
      let* (d, v, s) := start_descriptor t v s in
      let (n, s) := JournalNextLogBlock s in
      let* (new, s) := JournalWriteMetadataBuffer t curr n s in
      let tagFlags := if firstTag v then 0 else JOURN_FLAG_SAME_UUID in
      let* cb := buffer_of curr s in
      let* x := of_option (buffers (bc s) !! cb) in
      let tag := tagPointer v in
      let* s := store_words d tag [CpuToBe32 (blockNum x); CpuToBe32 tagFlags] s in
      let* s := if firstTag v then store_words d (tag + 2) (uuid (jr s)) s else Ret s in
      let* nb := buffer_of new s in
      if 64 <=? Z.of_nat (length (bufs v)) then Fault
      else
        let v := {| descriptor := descriptor v; bufs := bufs v ++ [nb];
                    tagPointer := if firstTag v then tag + 6 else tag + 2;
                    spaceLeft := u32 (spaceLeft v - (if firstTag v then 24 else 8)); firstTag := false |} in
        if (Z.of_nat (length (bufs v)) =? 64) || (length l <=? 1)%nat || (spaceLeft v <? 24) then
          let* f := load_word d (tag + 1) s in
          let* s := store_words d (tag + 1) [Z.lor f (CpuToBe32 JOURN_FLAG_LAST_TAG)] s in
          let* s := write_all (bufs v) s in
          commit_loop t l v s
        else commit_loop t l v s
  end.

Definition JournalCommitMetadata (t : Z) (s : jstate) : outcome jstate :=
  let* y := of_option (trans s !! t) in
  commit_loop t (metaDataList y)
    {| descriptor := None; bufs := []; tagPointer := 0; spaceLeft := 0; firstTag := false |} s.

(** The loop over ioList, with the entries of shadowList beside it. *)
Fixpoint io_loop (t : Z) (io shadow : list Z) (s : jstate) : outcome jstate :=
  match io, shadow with
  | [], _ => Ret s
  | _ :: _, [] => Fault
  | c :: io, sh :: shadow =>
      let* s := JournalUnfileBuffer c s in
      let* s := JournalRemoveHeader c s in
      let* s := JournalFileBuffer sh t JOURN_FORGET s in
      io_loop t io shadow s
  end.

Definition JournalWaitForIO (t : Z) (s : jstate) : outcome jstate :=
  let* y := of_option (trans s !! t) in io_loop t (ioList y) (shadowList y) s.

(** A header in every 512 bytes of the block. *)
Fixpoint commit_headers (n : nat) (i b id : Z) (s : jstate) : outcome jstate :=
  match n with
  | O => Ret s
  | S n =>
      let* s := store_words b (i / 4) [CpuToBe32 JFS_MAGIC; CpuToBe32 JFS_COMMIT_BLOCK; CpuToBe32 id] s in
      commit_headers n (i + 512) b id s
  end.

Definition JournalWriteCommitRecord (t : Z) (s : jstate) : outcome jstate :=
  let* (h, s) := JournalGetDescriptorBuffer s in
  let* b := buffer_of h s in
  let* y := of_option (trans s !! t) in
  let* s := commit_headers (Z.to_nat ((sectorSize (jr s) + 511) / 512)) 0 b (u32 (transId y)) s in
  BlockWrite b s.

(** *** Checkpoints *)

Definition JournalCleanupTail (s : jstate) : outcome (Z * jstate) :=
  let j := jr s in
  let* (firstTid, n) :=
    match checkpointTrans j with
    | t :: _ => let* y := of_option (trans s !! t) in Ret (u32 (transId y), logStart y)
    | [] =>
        if c_true (committingTrans j) then
          let* y := of_option (trans s !! committingTrans j) in Ret (u32 (transId y), logStart y)
        else if c_true (currTransaction j) then
          let* y := of_option (trans s !! currTransaction j) in Ret (u32 (transId y), logStart y)
        else Ret (transSequence j, head j)
    end in
  if tailSequence j =? firstTid then Ret (1, s)
  else
    let freed := s32 (n - tail j) in
    Ret (0, with_jr (set_tail firstTid n (u32 (free j + freed)) j) s).

Definition JournalUpdateSuperBlock (s : jstate) : outcome jstate :=
  let* (b, s) := BlockRead (JournalBlockMap 0) s in
  let* s := store_words b 6 [CpuToBe32 (tailSequence (jr s)); CpuToBe32 (tail (jr s))] s in
  BlockWrite b s.

Fixpoint write_heads (l : list Z) (s : jstate) : outcome jstate :=
  match l with
  | [] => Ret s
  | h :: l => let* b := buffer_of h s in let* s := BlockWrite b s in write_heads l s
  end.

Fixpoint write_forget (ts : list Z) (s : jstate) : outcome jstate :=
  match ts with
  | [] => Ret s
  | t :: ts => let* y := of_option (trans s !! t) in let* s := write_heads (forgetList y) s in write_forget ts s
  end.

Fixpoint drop_heads (l : list Z) (s : jstate) : outcome jstate :=
  match l with
  | [] => Ret s
  | h :: l =>
      let* s := JournalUnfileBuffer h s in
      let* s := JournalRemoveHeader h s in
      drop_heads l s
  end.

Fixpoint drop_forget (ts : list Z) (s : jstate) : outcome jstate :=
  match ts with
  | [] => Ret s
  | t :: ts => let* y := of_option (trans s !! t) in let* s := drop_heads (forgetList y) s in drop_forget ts s
  end.

Definition JournalCheckpoint (s : jstate) : outcome jstate :=
  let* (ret, s) := JournalCleanupTail s in
  if ret <=? 0 then Ret s
  else
    let ts := checkpointTrans (jr s) in
    let* s := write_forget ts s in
    let* s := drop_forget ts s in
    let s := with_jr (set_checkpoint [] (jr s)) s in
    let* (_, s) := JournalCleanupTail s in
    JournalUpdateSuperBlock s.

Definition JournalCommitTransaction (s : jstate) : outcome jstate :=
  let t := currTransaction (jr s) in
  let* y := of_option (trans s !! t) in
  let* s := upd_trans t (set_state JTRANS_LOCKED) s in
  if c_true (updates y) then NoFuel
  else
    let s := with_jr (set_commit (u32 (transId y)) 0 t (jr s)) s in
    let* s := upd_trans t (set_logStart (head (jr s))) s in
    let* s := JournalCommitMetadata t s in
    let* s := JournalWaitForIO t s in
    let s := with_jr (set_checkpoint (checkpointTrans (jr s) ++ [t]) (jr s)) s in
    let* s := JournalWriteCommitRecord t s in
    JournalCheckpoint s.

(** *** The committer *)

Definition JournalStartCommit (t : Z) (s : jstate) : outcome jstate :=
  let* y := of_option (trans s !! t) in
  Ret (with_jr (set_request (u32 (transId y)) (jr s)) s).

(** What JournalCommitter does from one SLEEP_ON to the next. *)
Definition JournalCommitter (s : jstate) : outcome jstate :=
  let j := jr s in
  let* s :=
    if c_true (currTransaction j) then
      let* y := of_option (trans s !! currTransaction j) in
      if expires y <=? seconds s then Ret (with_jr (set_request (u32 (transId y)) j) s) else Ret s
    else Ret s in
  if negb (commitSequence (jr s) =? commitRequest (jr s)) then JournalCommitTransaction s else Ret s.

(** The committer runs while the thread sleeps. *)
Fixpoint JournalWaitCommit (fuel : nat) (id : Z) (s : jstate) : outcome jstate :=
  if id <=? commitSequence (jr s) then Ret s
  else match fuel with
       | O => NoFuel
       | S fuel => let* s := JournalCommitter s in JournalWaitCommit fuel id s
       end.

Definition JournalStop (fuel : nat) (hd : Z) (s : jstate) : outcome (Z * jstate) :=
  let* x := of_option (handles s !! hd) in
  let t := htransaction x in
  let s := with_handle 0 s in
  let* s := upd_handle hd (set_refs (s32 (refs x - 1))) s in
  if 0 <? s32 (refs x - 1) then Ret (0, s)
  else
    let* s := upd_trans t (fun y => set_counts (s32 (outstandingBlocks y - numBlocks x)) (s32 (updates y - 1)) (handleCount y) y) s in
    let* y := of_option (trans s !! t) in
    let* s :=
      if (sync x =? 1) || (expires y <=? seconds s) then
        let* s := JournalStartCommit t s in
        if sync x =? 1 then JournalWaitCommit fuel (u32 (transId y)) s else Ret s
      else Ret s in
    Ret (0, with_handles (delete hd (handles s)) s).

Definition JournalForceCommit (fuel : nat) (s : jstate) : outcome (Z * jstate) :=
  let* (h, s) := JournalStart 1 s in
  let* s := upd_handle h (set_sync 1) s in
  let* (_, s) := JournalStop fuel h s in
  Ret (0, s).

(** *** Recovery *)

Definition JournalWrap (pos : Z) (j : Journal) : Z :=
  if maxLength j <=? pos then u32 (pos - u32 (maxLength j - head j)) else pos.

(** Past a tag, over the uuid of the first one. *)
Definition next_tag (p flags : Z) : Z :=
  if c_true (Z.land flags (BeToCpu32 JOURN_FLAG_SAME_UUID)) then p + 2 else p + 6.
Definition last_tag (flags : Z) : bool := c_true (Z.land flags (BeToCpu32 JOURN_FLAG_LAST_TAG)).

Fixpoint count_loop (fuel : nat) (p num size : Z) (d : list Z) : outcome Z :=
  if 4 * p + 8 <=? size then
    match fuel with
    | O => NoFuel
    | S fuel =>
        let* flags := of_option (zlookup d (p + 1)) in
        if last_tag flags then Ret (num + 1) else count_loop fuel (next_tag p flags) (num + 1) size d
    end
  else Ret num.

Definition JournalCountTags (d : list Z) (size : Z) : outcome Z := count_loop (Z.to_nat (size / 8)) 3 0 size d.

(** The block [logBlock] of the log is copied to block [n]. *)
Definition replay_block (logBlock n : Z) (s : jstate) : outcome jstate :=
  let* (e, s) := BlockRead (JournalBlockMap logBlock) s in
  let* x := of_option (buffers (bc s) !! e) in
  let (onDisk, s) := BlockBufferAlloc n s in
  let* s := upd_buffer onDisk (set_data (data x)) s in
  BlockWrite onDisk s.

Fixpoint replay_loop (fuel : nat) (p : Z) (b logBlock : Z) (s : jstate) : outcome (Z * jstate) :=
  if 4 * p + 8 <=? sectorSize (jr s) then
    match fuel with
    | O => NoFuel
    | S fuel =>
        let* n := load_word b p s in
        let* flags := load_word b (p + 1) s in
        let* s := replay_block logBlock (BeToCpu32 n) s in
        let logBlock := JournalWrap (u32 (logBlock + 1)) (jr s) in
        if last_tag flags then Ret (logBlock, s) else replay_loop fuel (next_tag p flags) b logBlock s
    end
  else Ret (logBlock, s).

Definition JournalReplayBlocks (b logBlock : Z) (s : jstate) : outcome (Z * jstate) :=
  replay_loop (Z.to_nat (sectorSize (jr s) / 8)) 3 b logBlock s.

(** The loop over the blocks of the log; the result is endTransaction. *)
Fixpoint pass_loop (fuel : nat) (type nextCommitId nextLogBlock : Z) (s : jstate) : outcome (Z * jstate) :=
  match fuel with
  | O => NoFuel
  | S fuel =>
      let* (b, s) := BlockRead (JournalBlockMap nextLogBlock) s in
      let nextLogBlock := JournalWrap (u32 (nextLogBlock + 1)) (jr s) in
      let* magic := load_word b 0 s in
      let* blockType := load_word b 1 s in
      let* sequence := load_word b 2 s in
      if negb (magic =? CpuToBe32 JFS_MAGIC) then Ret (nextCommitId, s)
      else if negb (BeToCpu32 sequence =? nextCommitId) then Ret (nextCommitId, s)
      else if BeToCpu32 blockType =? JFS_DESC_BLOCK then
        if negb (type =? JOURN_PASS_REPLAY) then
          let* x := of_option (buffers (bc s) !! b) in
          let* num := JournalCountTags (data x) (sectorSize (jr s)) in
          pass_loop fuel type nextCommitId (u32 (nextLogBlock + num)) s
        else
          let* (nextLogBlock, s) := JournalReplayBlocks b nextLogBlock s in
          pass_loop fuel type nextCommitId nextLogBlock s
      else if BeToCpu32 blockType =? JFS_COMMIT_BLOCK then
        pass_loop fuel type (u32 (nextCommitId + 1)) nextLogBlock s
      else pass_loop fuel type nextCommitId nextLogBlock s
  end.

(** [sb] is the buffer of the superblock. *)
Definition JournalDoOnePass (fuel : nat) (sb type : Z) (s : jstate) : outcome (Z * jstate) :=
  let* sequence := load_word sb 6 s in
  let* start := load_word sb 7 s in
  pass_loop fuel type (BeToCpu32 sequence) (BeToCpu32 start) s.

Definition JournalRecover (fuel : nat) (sb : Z) (s : jstate) : outcome jstate :=
  let* start := load_word sb 7 s in
  if BeToCpu32 start =? 0 then
    let* sequence := load_word sb 6 s in
    Ret (with_jr (set_sequence (u32 (BeToCpu32 sequence + 1)) (jr s)) s)
  else
    let* (_, s) := JournalDoOnePass fuel sb JOURN_PASS_SCAN s in
    let* (endTransaction, s) := JournalDoOnePass fuel sb JOURN_PASS_REPLAY s in
    Ret (with_jr (set_sequence endTransaction (jr s)) s).

(** *** Setting up and taking down *)

(** [size] is that of the journal file; [false] for NULL.  A wrong magic
    number, block size or version is only reported. *)
Definition JournalCreate (fuel : nat) (size sector : Z) (s : jstate) : outcome (bool * jstate) :=
  if s32 (JournalBlockMap 0) =? -1 then Ret (false, s)
  else if sector =? 0 then Fault
  else
    let* (sb, s) := BlockRead (JournalBlockMap 0) s in
    let* maxLen := load_word sb 4 s in
    let maxLen := BeToCpu32 maxLen in
    let max := if maxLen <? size / sector then maxLen else size / sector in
    let s := with_jr {| maxLength := max; sectorSize := sector; maxTransactionBuffers := max / 4; uuid := replicate 4 0;
                        transSequence := 1; commitSequence := 0; tailSequence := 0; commitRequest := 0;
                        head := 0; tail := 0; free := 0; checkpointTrans := []; currTransaction := 0;
                        committingTrans := 0 |} s in
    let* s := JournalRecover fuel sb s in
    let* first := load_word sb 5 s in
    let first := BeToCpu32 first in
    let ts := transSequence (jr s) in
    Ret (true, with_jr {| maxLength := max; sectorSize := sector; maxTransactionBuffers := max / 4; uuid := replicate 4 0;
                          transSequence := ts; commitSequence := u32 (ts - 1); tailSequence := ts;
                          commitRequest := u32 (ts - 1); head := first; tail := first; free := u32 (maxLen - first);
                          checkpointTrans := []; currTransaction := 0; committingTrans := 0 |} s).

Fixpoint checkpoint_all (fuel : nat) (s : jstate) : outcome jstate :=
  match checkpointTrans (jr s) with
  | [] => Ret s
  | _ :: _ =>
      match fuel with
      | O => NoFuel
      | S fuel => let* s := JournalCheckpoint s in checkpoint_all fuel s
      end
  end.

Definition JournalDestroy (fuel : nat) (s : jstate) : outcome (Z * jstate) :=
  let* s := if c_true (currTransaction (jr s)) then JournalCommitTransaction s else Ret s in
  let* s := checkpoint_all fuel s in
  let j := jr s in
  let ts := u32 (transSequence j + 1) in
  let* s := JournalUpdateSuperBlock (with_jr (set_sequence ts (set_tail ts 0 (free j) j)) s) in
  Ret (0, s).
End Log.

Definition JournalSetUuid (u : list Z) (s : jstate) : jstate :=
  let j := jr s in
  with_jr {| maxLength := maxLength j; sectorSize := sectorSize j; maxTransactionBuffers := maxTransactionBuffers j;
             uuid := u; transSequence := transSequence j; commitSequence := commitSequence j;
             tailSequence := tailSequence j; commitRequest := commitRequest j; head := head j; tail := tail j;
             free := free j; checkpointTrans := checkpointTrans j; currTransaction := currTransaction j;
             committingTrans := committingTrans j |} s.

(** ** Crashes *)

(** The disk after the dirty buffers of the blocks [X] have been written, in
    the order of the chain. *)
Definition flush_buffer (X : Z -> bool) (bs : gmap Z Buffer) (dk : Z -> list Z) (b : Z) : Z -> list Z :=
  match bs !! b with
  | Some x => if dirty x && X (blockNum x) then <[blockNum x := data x]> dk else dk
  | None => dk
  end.
Definition flush (X : Z -> bool) (s : jstate) : Z -> list Z :=
  foldl (flush_buffer X (buffers (bc s))) (disk (bc s)) (chain (bc s)).

(** A machine that starts with the disk [dk]. *)
Definition booted (dk : Z -> list Z) : jstate :=
  {| jr := {| maxLength := 0; sectorSize := 0; maxTransactionBuffers := 0; uuid := []; transSequence := 0;
              commitSequence := 0; tailSequence := 0; commitRequest := 0; head := 0; tail := 0; free := 0;
              checkpointTrans := []; currTransaction := 0; committingTrans := 0 |};
     trans := ∅; heads := ∅; handles := ∅; nextAddr := 1; currHandle := 0; seconds := 0;
     bc := {| chain := []; buffers := ∅; disk := dk; nextBuffer := 1 |} |}.

(** ** Big endian words *)

Lemma BeToCpu32_bytes a b c d : is_byte a -> is_byte b -> is_byte c -> is_byte d ->
  BeToCpu32 (a + b * 2 ^ 8 + c * 2 ^ 16 + d * 2 ^ 24) = d + c * 2 ^ 8 + b * 2 ^ 16 + a * 2 ^ 24.
Proof.
  unfold is_byte. intros Ha Hb Hc Hd. unfold BeToCpu32, u8. rewrite !Z.shiftr_div_pow2 by lia.
  replace ((a + b * 2 ^ 8 + c * 2 ^ 16 + d * 2 ^ 24) mod 2 ^ 8) with a by (Z.div_mod_to_equations; lia).
  replace ((a + b * 2 ^ 8 + c * 2 ^ 16 + d * 2 ^ 24) / 2 ^ 8 mod 2 ^ 8) with b by (Z.div_mod_to_equations; lia).
  replace ((a + b * 2 ^ 8 + c * 2 ^ 16 + d * 2 ^ 24) / 2 ^ 16 mod 2 ^ 8) with c by (Z.div_mod_to_equations; lia).
  replace ((a + b * 2 ^ 8 + c * 2 ^ 16 + d * 2 ^ 24) / 2 ^ 24 mod 2 ^ 8) with d by (Z.div_mod_to_equations; lia).
  rewrite Z.lor_comm, (Z.lor_comm _ (Z.shiftl c 8)), (Z.lor_comm (Z.shiftl a 24)).
  replace (Z.lor (Z.shiftl b 16) (Z.shiftl a 24)) with (Z.shiftl (b + a * 2 ^ 8) 16)
    by (rewrite <- lor_shiftl_add, Z.shiftl_lor, Z.shiftl_shiftl by lia; f_equal).
  replace (Z.lor (Z.shiftl c 8) (Z.shiftl (b + a * 2 ^ 8) 16)) with (Z.shiftl (c + (b + a * 2 ^ 8) * 2 ^ 8) 8)
    by (rewrite <- (lor_shiftl_add c), Z.shiftl_lor, Z.shiftl_shiftl by lia; f_equal).
  rewrite lor_shiftl_add by lia. rewrite u32_id; lia.
Qed.

Definition is_word (w : Z) : Prop := 0 <= w < 2 ^ 32.

Lemma word_split x : is_word x -> exists a b c d, is_byte a /\ is_byte b /\ is_byte c /\ is_byte d
  /\ x = a + b * 2 ^ 8 + c * 2 ^ 16 + d * 2 ^ 24.
Proof.
  unfold is_word, is_byte. intros H. exists (x mod 256), (x / 256 mod 256), (x / 65536 mod 256), (x / 16777216).
  Z.div_mod_to_equations. lia.
Qed.

Lemma BeToCpu32_word x : is_word (BeToCpu32 x).
Proof. apply u32_range. Qed.

Lemma be32_roundtrip x : is_word x -> BeToCpu32 (CpuToBe32 x) = x.
Proof.
  intros (a & b & c & d & Ha & Hb & Hc & Hd & ->)%word_split. unfold CpuToBe32.
  rewrite BeToCpu32_bytes by done. rewrite <- (BeToCpu32_bytes d c b a) by done.
  rewrite !BeToCpu32_bytes by done. lia.
Qed.

(** The flags of a tag, as they are written. *)
Definition tag_flags (first last : bool) : Z :=
  CpuToBe32 ((if first then 0 else JOURN_FLAG_SAME_UUID) + (if last then JOURN_FLAG_LAST_TAG else 0)).

Lemma last_tag_flags first last : last_tag (tag_flags first last) = last.
Proof. by destruct first, last. Qed.
Lemma next_tag_flags p first last : next_tag p (tag_flags first last) = if first then p + 6 else p + 2.
Proof. by destruct first, last. Qed.
#[export] Hint Rewrite last_tag_flags next_tag_flags : whitix.

(** ** Finding and flushing buffers *)

Lemma find_buffer_spec l n bs : (forall b, b ∈ l -> is_Some (bs !! b)) ->
  (exists b x, find_buffer l n bs = Ret (Some b) /\ b ∈ l /\ bs !! b = Some x /\ blockNum x = n)
  \/ (find_buffer l n bs = Ret None /\ forall b x, b ∈ l -> bs !! b = Some x -> blockNum x <> n).
Proof.
  induction l as [|c l IH]; intros H; [right; split; [done|set_solver]|]. cbn [find_buffer].
  destruct (H c) as [x E]; [set_solver|]. rewrite E. cbn [of_option bindO]. destruct (Z.eqb_spec (blockNum x) n).
  - left. exists c, x. split_and!; [done|set_solver|done|done].
  - destruct IH as [(b & y & F & I & B)|[F N]]; [set_solver|left; exists b, y; set_solver|].
    right. split; [done|]. intros b y [->|I]%elem_of_cons; [congruence|by apply N].
Qed.

(** The disk after flushing depends on the buffers of the chain only. *)
Lemma flush_ext X (bs bs' : gmap Z Buffer) l dk : (forall b, b ∈ l -> bs !! b = bs' !! b) ->
  foldl (flush_buffer X bs) dk l = foldl (flush_buffer X bs') dk l.
Proof.
  revert dk. induction l as [|b l IH]; intros dk H; [done|]. cbn [foldl].
  unfold flush_buffer at 2 4. rewrite (H b) by set_solver. apply IH. set_solver.
Qed.

(** A new buffer at the end of the chain. *)
Lemma flush_snoc X l b dk (bs : gmap Z Buffer) x : b ∉ l ->
  foldl (flush_buffer X (<[b := x]> bs)) dk (l ++ [b])
  = let f := foldl (flush_buffer X bs) dk l in if dirty x && X (blockNum x) then <[blockNum x := data x]> f else f.
Proof.
  intros N. rewrite foldl_app. cbn [foldl]. unfold flush_buffer at 1. rewrite lookup_insert_eq.
  rewrite (flush_ext X (<[b := x]> bs) bs) by (intros; rewrite lookup_insert_ne by set_solver; done). done.
Qed.
(** ** The log as a sequence of entries *)

(** A descriptor with the contents of its blocks, or a commit record. *)
Inductive log_entry := Desc (ups : list (Z * list Z)) | Commit.

Section Recovery.
Context (blockMap : Z -> Z).
Notation place := (JournalBlockMap blockMap).

(** The tags for [ups] from word [p] of a descriptor on. *)
Fixpoint tags_at (sector : Z) (d : list Z) (p : Z) (first : bool) (ups : list (Z * list Z)) : Prop :=
  match ups with
  | [] => False
  | (n, _) :: ups =>
      zlookup d p = Some (CpuToBe32 n) /\ is_word n /\ 4 * p + 8 <= sector
      /\ zlookup d (p + 1) = Some (tag_flags first (bool_decide (ups = [])))
      /\ (ups <> [] -> tags_at sector d (if first then p + 6 else p + 2) false ups)
  end.

Definition header_at (d : list Z) (type id : Z) : Prop :=
  zlookup d 0 = Some (CpuToBe32 JFS_MAGIC) /\ zlookup d 1 = Some (CpuToBe32 type) /\ zlookup d 2 = Some (CpuToBe32 id).

(** A block at which recovery ends. *)
Definition log_ends (d : list Z) (id : Z) : Prop :=
  exists m ty q, zlookup d 0 = Some m /\ zlookup d 1 = Some ty /\ zlookup d 2 = Some q
    /\ (m = CpuToBe32 JFS_MAGIC -> BeToCpu32 q <> id).

Fixpoint blocks_at (dk : Z -> list Z) (pos : Z) (ups : list (Z * list Z)) : Prop :=
  match ups with [] => True | (_, d) :: ups => dk (place pos) = d /\ blocks_at dk (pos + 1) ups end.

Fixpoint log_at (sector : Z) (dk : Z -> list Z) (pos id : Z) (l : list log_entry) : Prop :=
  match l with
  | [] => log_ends (dk (place pos)) id
  | Desc ups :: l =>
      header_at (dk (place pos)) JFS_DESC_BLOCK id /\ tags_at sector (dk (place pos)) 3 true ups
      /\ blocks_at dk (pos + 1) ups /\ log_at sector dk (pos + 1 + Z.of_nat (length ups)) id l
  | Commit :: l => header_at (dk (place pos)) JFS_COMMIT_BLOCK id /\ log_at sector dk (pos + 1) (id + 1) l
  end.

Fixpoint updates_of (l : list log_entry) : list (Z * list Z) :=
  match l with [] => [] | Desc ups :: l => ups ++ updates_of l | Commit :: l => updates_of l end.
Fixpoint log_length (l : list log_entry) : Z :=
  match l with
  | [] => 0
  | Desc ups :: l => 1 + Z.of_nat (length ups) + log_length l
  | Commit :: l => 1 + log_length l
  end.
Fixpoint commits (l : list log_entry) : Z :=
  match l with [] => 0 | Desc _ :: l => commits l | Commit :: l => 1 + commits l end.

(** The disk with updates made, the specification of recovery. *)
Definition replayed (ups : list (Z * list Z)) (dk : Z -> list Z) : Z -> list Z :=
  foldl (fun f (u : Z * list Z) => <[u.1 := u.2]> f) dk ups.

(** ** The cache during recovery *)

(** The cache of a machine that started with [dk] and has replayed [us]:
    buffers of the blocks [L] of the log show the disk. *)
Record recovering (L : Z -> Prop) (dk : Z -> list Z) (us : list (Z * list Z)) (s : jstate) : Prop := {
  rc_disk : disk (bc s) = dk;
  rc_chain b : b ∈ chain (bc s) -> b < nextBuffer (bc s) /\ is_Some (buffers (bc s) !! b);
  rc_clean b x : b ∈ chain (bc s) -> buffers (bc s) !! b = Some x -> L (blockNum x) -> data x = dk (blockNum x) /\ dirty x = false;
  rc_flush : flush (fun _ => true) s = replayed us dk;
}.

(** Buffers are only added. *)
Definition grows (s s' : jstate) : Prop :=
  jr s' = jr s /\ forall b x, buffers (bc s) !! b = Some x -> b < nextBuffer (bc s) -> buffers (bc s') !! b = Some x /\ b < nextBuffer (bc s').

Lemma grows_refl s : grows s s.
Proof. by split. Qed.
Lemma grows_trans s1 s2 s3 : grows s1 s2 -> grows s2 s3 -> grows s1 s3.
Proof. intros [J1 G1] [J2 G2]. split; [congruence|]. intros b x E L. destruct (G1 b x E L). by apply G2. Qed.

(** A state whose cache got the new buffer [x] of block [n]. *)
Definition added (s : jstate) (x : Buffer) : jstate :=
  let c := bc s in
  with_bc {| chain := chain c ++ [nextBuffer c]; buffers := <[nextBuffer c := x]> (buffers c); disk := disk c;
             nextBuffer := nextBuffer c + 1 |} s.

Lemma added_grows s x : grows s (added s x).
Proof. split; [done|]. intros b y E L. cbn. rewrite lookup_insert_ne by lia. split; [done|lia]. Qed.

Lemma added_recovering L dk us s x : recovering L dk us s ->
  (L (blockNum x) -> data x = dk (blockNum x) /\ dirty x = false) ->
  recovering L dk (us ++ if dirty x then [(blockNum x, data x)] else []) (added s x).
Proof.
  intros [Rd Rc Rl Rf] Hx. constructor; cbn.
  - done.
  - intros b [I| ->%list_elem_of_singleton]%elem_of_app; [destruct (Rc b I) as [? [y E]]; split; [lia|]|split; [lia|]].
    + rewrite lookup_insert_ne by lia. by eexists.
    + rewrite lookup_insert_eq. by eexists.
  - intros b y [I| ->%list_elem_of_singleton]%elem_of_app; [destruct (Rc b I) as [? _]|].
    + rewrite lookup_insert_ne by lia. by apply Rl.
    + rewrite lookup_insert_eq. by intros [= ->].
  - unfold flush. cbn. rewrite flush_snoc by (intros I; destruct (Rc _ I); lia). fold (flush (fun _ => true) s). rewrite Rf.
    unfold replayed. destruct (dirty x); cbn; [by rewrite foldl_app|by rewrite app_nil_r].
Qed.

Lemma BlockRead_recovering L dk us s n : recovering L dk us s -> L n -> exists b x s',
  BlockRead n s = Ret (b, s') /\ recovering L dk us s' /\ grows s s' /\ b < nextBuffer (bc s')
  /\ buffers (bc s') !! b = Some x /\ data x = dk n.
Proof.
  intros R Hn. pose proof R as [Rd Rc Rl Rf]. unfold BlockRead.
  destruct (find_buffer_spec (chain (bc s)) n (buffers (bc s))) as [(b & x & -> & I & E & B)|[-> N]].
  { intros b I. apply (Rc b I). }
  - cbn [bindO]. exists b, x, s. destruct (Rc b I). destruct (Rl b x I E) as [? _]; [by rewrite B|].
    split_and!; try done. by rewrite <- B.
  - cbn [bindO]. set (x := {| blockNum := n; data := disk (bc s) n; dirty := false; privData := 0 |}).
    exists (nextBuffer (bc s)), x, (added s x). split_and!.
    + done.
    + rewrite <- (app_nil_r us). apply (added_recovering L dk us s x R). cbn. by rewrite Rd.
    + apply added_grows.
    + cbn. lia.
    + cbn. by rewrite lookup_insert_eq.
    + cbn. by rewrite Rd.
Qed.

Lemma replay_block_recovering L dk us s pos n : recovering L dk us s -> L (place pos) -> ~ L n -> exists s',
  replay_block blockMap pos n s = Ret s' /\ recovering L dk (us ++ [(n, dk (place pos))]) s' /\ grows s s'.
Proof.
  intros R Hp Hn. unfold replay_block.
  destruct (BlockRead_recovering L dk us s (place pos) R Hp) as (b & x & s1 & -> & R1 & G1 & Lb & E & D).
  cbn [bindO]. rewrite E. cbn [of_option bindO]. unfold BlockBufferAlloc, new_buffer. cbv beta iota zeta.
  unfold upd_buffer at 1. cbn -[zeros]. rewrite lookup_insert_eq. cbn -[zeros].
  unfold BlockWrite, upd_buffer. cbn -[zeros]. rewrite lookup_insert_eq. cbn -[zeros]. rewrite !insert_insert_eq.
  set (y := {| blockNum := n; data := data x; dirty := true; privData := 0 |}).
  exists (added s1 y). split_and!.
  - done.
  - rewrite <- D. apply (added_recovering L dk us s1 y R1). cbn. tauto.
  - eapply grows_trans; [exact G1|apply added_grows].
Qed.

(** A word of a buffer with known contents. *)
Lemma load_word_data s b x off : buffers (bc s) !! b = Some x -> load_word b off s = of_option (zlookup (data x) off).
Proof. intros E. unfold load_word. by rewrite E. Qed.

Lemma JournalWrap_id pos j : 0 <= pos < maxLength j -> JournalWrap pos j = pos.
Proof. intros H. unfold JournalWrap. by destruct (Z.leb_spec (maxLength j) pos); [lia|]. Qed.

(** The log from [pos] on for [k] blocks, inside the journal. *)
Definition in_log (L : Z -> Prop) (j : Journal) (pos k : Z) : Prop :=
  0 <= pos /\ pos + k < maxLength j /\ maxLength j < 2 ^ 32 /\ forall i, 0 <= i <= k -> L (place (pos + i)).

Lemma in_log_sub L j pos k a m : in_log L j pos k -> 0 <= a -> a + m <= k -> in_log L j (pos + a) m.
Proof.
  intros (H1 & H2 & H3 & H4) Ha Hm. split_and!; try lia. intros i Hi. rewrite <- Z.add_assoc. apply H4. lia.
Qed.

Lemma in_log_next L j pos k : in_log L j pos k -> 1 <= k -> JournalWrap (u32 (pos + 1)) j = pos + 1.
Proof. intros (H1 & H2 & H3 & H4) Hk. rewrite u32_id by lia. apply JournalWrap_id. lia. Qed.

Lemma in_log_here L j pos k : in_log L j pos k -> 0 <= k -> L (place pos).
Proof. intros (_ & _ & _ & H) ?. rewrite <- (Z.add_0_r pos). apply H. lia. Qed.

Lemma count_loop_spec sector d ups : forall fuel p num first, tags_at sector d p first ups -> (length ups <= fuel)%nat ->
  count_loop fuel p num sector d = Ret (num + Z.of_nat (length ups)).
Proof.
  induction ups as [|[n c] ups IH]; intros fuel p num first T F; [done|]. destruct T as (T1 & T2 & T3 & T4 & T5).
  destruct fuel as [|fuel]; [cbn in F; lia|]. cbn [count_loop]. destruct (Z.leb_spec (4 * p + 8) sector); [|lia].
  rewrite T4. cbn [of_option bindO]. autorewrite with whitix. case_bool_decide as Hu.
  - subst. cbn [length]. f_equal; lia.
  - rewrite (IH fuel _ _ false); [cbn [length]; f_equal; lia|by apply T5|cbn in F; lia].
Qed.

(** The tags of a descriptor fit it. *)
Lemma tags_at_fit sector d ups : forall p first, tags_at sector d p first ups -> 8 * Z.of_nat (length ups) <= sector - 4 * p.
Proof.
  induction ups as [|[n c] ups IH]; intros p first T; [done|]. destruct T as (T1 & T2 & T3 & T4 & T5).
  destruct ups as [|u ups]; [cbn; lia|]. specialize (IH _ _ (T5 ltac:(done))). cbn [length] in *. destruct first; lia.
Qed.

Lemma replay_loop_spec L dk sector b x d ups : forall fuel us s pos p first,
  recovering L dk us s -> sectorSize (jr s) = sector -> buffers (bc s) !! b = Some x -> b < nextBuffer (bc s) -> data x = d ->
  tags_at sector d p first ups -> blocks_at dk pos ups -> in_log L (jr s) pos (Z.of_nat (length ups)) ->
  Forall (fun u => ~ L u.1) ups -> (length ups <= fuel)%nat ->
  exists s', replay_loop blockMap fuel p b pos s = Ret (pos + Z.of_nat (length ups), s')
    /\ recovering L dk (us ++ ups) s' /\ grows s s'.
Proof.
  induction ups as [|[n c] ups IH]; intros fuel us s pos p first R Hs E Lb D T B I N F; [done|].
  destruct T as (T1 & T2 & T3 & T4 & T5), B as [B1 B2]. apply Forall_cons in N as [N1 N2]. cbn [length] in *.
  destruct fuel as [|fuel]; [lia|]. cbn [replay_loop]. rewrite Hs. destruct (Z.leb_spec (4 * p + 8) sector); [|lia].
  rewrite !(load_word_data s b x) by done. rewrite D, T1, T4. cbn [of_option bindO]. rewrite be32_roundtrip by done.
  destruct (replay_block_recovering L dk us s pos n R) as (s1 & -> & R1 & G1); [eapply in_log_here; [done|lia]|done|].
  cbn [bindO]. pose proof G1 as [J1 G1']. rewrite J1, (in_log_next L _ _ _ I) by lia. autorewrite with whitix.
  rewrite B1 in R1. destruct (G1' b x E Lb) as [E1 Lb1]. case_bool_decide as Hu.
  - subst ups. exists s1. split_and!; [by rewrite Z.add_1_r|done|done].
  - destruct (IH fuel _ s1 (pos + 1) (if first then p + 6 else p + 2) false R1) as (s2 & E2 & R2 & G2);
      try done || lia || by apply T5.
    + by rewrite J1.
    + rewrite J1. eapply in_log_sub; [done|lia|lia].
    + exists s2. rewrite E2. split_and!; [do 2 f_equal; lia|by rewrite <- (assoc_L app) in R2|by eapply grows_trans].
Qed.

Lemma JournalReplayBlocks_spec L dk sector b x d ups us s pos :
  recovering L dk us s -> sectorSize (jr s) = sector -> buffers (bc s) !! b = Some x -> b < nextBuffer (bc s) -> data x = d ->
  tags_at sector d 3 true ups -> blocks_at dk pos ups -> in_log L (jr s) pos (Z.of_nat (length ups)) ->
  Forall (fun u => ~ L u.1) ups ->
  exists s', JournalReplayBlocks blockMap b pos s = Ret (pos + Z.of_nat (length ups), s')
    /\ recovering L dk (us ++ ups) s' /\ grows s s'.
Proof.
  intros R Hs E Lb D T B I N. unfold JournalReplayBlocks. rewrite Hs. eapply replay_loop_spec; try done.
  apply tags_at_fit in T. assert (Z.of_nat (length ups) <= sector / 8) by (apply Z.div_le_lower_bound; lia). lia.
Qed.

(** What one pass replays. *)
Definition pass_updates (type : Z) (l : list log_entry) : list (Z * list Z) :=
  if type =? JOURN_PASS_REPLAY then updates_of l else [].

Lemma log_length_nonneg l : 0 <= log_length l.
Proof. induction l as [|[]]; cbn; lia. Qed.
Lemma commits_nonneg l : 0 <= commits l.
Proof. induction l as [|[]]; cbn; lia. Qed.

(** One step of a pass at a block with the header that is looked for. *)
Lemma pass_loop_header L dk us s fuel type pos id ty k :
  recovering L dk us s -> in_log L (jr s) pos k -> 1 <= k -> header_at (dk (place pos)) ty id -> is_word ty -> is_word id ->
  exists b x s', recovering L dk us s' /\ grows s s' /\ b < nextBuffer (bc s') /\ buffers (bc s') !! b = Some x
    /\ data x = dk (place pos)
    /\ pass_loop blockMap (S fuel) type id pos s
       = (if ty =? JFS_DESC_BLOCK then
            if negb (type =? JOURN_PASS_REPLAY) then
              let* num := JournalCountTags (dk (place pos)) (sectorSize (jr s)) in
              pass_loop blockMap fuel type id (u32 (pos + 1 + num)) s'
            else
              let* (next, s) := JournalReplayBlocks blockMap b (pos + 1) s' in
              pass_loop blockMap fuel type id next s
          else if ty =? JFS_COMMIT_BLOCK then pass_loop blockMap fuel type (u32 (id + 1)) (pos + 1) s'
          else pass_loop blockMap fuel type id (pos + 1) s').
Proof.
  intros R I Hk (H0 & H1 & H2) Wt Wi.
  destruct (BlockRead_recovering L dk us s (place pos) R) as (b & x & s' & Eb & R' & G & Lb & E & D);
    [eapply in_log_here; [done|lia]|].
  exists b, x, s'. split_and!; try done. cbn [pass_loop]. rewrite Eb. cbn [bindO]. pose proof G as [J _].
  rewrite !(load_word_data s' b x), D, H0, H1, H2 by done. cbn [of_option bindO].
  rewrite Z.eqb_refl, !be32_roundtrip, Z.eqb_refl by done. cbn [negb]. rewrite J, (in_log_next L _ _ _ I) by lia.
  rewrite E. cbn [of_option bindO]. by rewrite D.
Qed.

Lemma pass_loop_spec L dk type l : forall fuel us s pos id,
  recovering L dk us s -> log_at (sectorSize (jr s)) dk pos id l -> in_log L (jr s) pos (log_length l) ->
  Forall (fun u => ~ L u.1) (updates_of l) -> 0 <= id -> id + commits l < 2 ^ 32 -> (length l < fuel)%nat ->
  exists s', pass_loop blockMap fuel type id pos s = Ret (id + commits l, s')
    /\ recovering L dk (us ++ pass_updates type l) s' /\ grows s s'.
Proof.
  unfold pass_updates. induction l as [|e l IH]; intros fuel us s pos id R Lg I N I0 I1 F; (destruct fuel as [|fuel]; [cbn in F; lia|]).
  { cbn [pass_loop]. destruct (BlockRead_recovering L dk us s (place pos) R) as (b & x & s1 & -> & R1 & G1 & Lb & E & D);
      [by eapply in_log_here|]. cbn [bindO]. rewrite !(load_word_data s1 b x), D by done.
    destruct Lg as (m & ty & q & -> & -> & -> & Hne). cbn [of_option bindO updates_of commits]. exists s1. rewrite Z.add_0_r.
    replace (us ++ (if type =? JOURN_PASS_REPLAY then [] else [])) with us by (destruct (type =? _); by rewrite app_nil_r).
    destruct (Z.eqb_spec m (CpuToBe32 JFS_MAGIC)) as [Hm|]; [|done]. specialize (Hne Hm).
    by destruct (Z.eqb_spec (BeToCpu32 q) id). }
  pose proof (log_length_nonneg l). pose proof (commits_nonneg l). cbn [length] in F.
  destruct e as [ups|]; cbn [log_at updates_of commits log_length] in *.
  - destruct Lg as (Hd & T & B & Lg). apply Forall_app in N as [N1 N2].
    destruct (pass_loop_header L dk us s fuel type pos id _ _ R I ltac:(lia) Hd) as (b & x & s1 & R1 & G1 & Lb & E & D & ->); [done|unfold is_word; lia|].
    pose proof G1 as [J1 _]. rewrite Z.eqb_refl.
    assert (I3 : in_log L (jr s) (pos + 1 + Z.of_nat (length ups)) (log_length l))
      by (rewrite <- Z.add_assoc; eapply in_log_sub; [done|lia|lia]).
    destruct (Z.eqb_spec type JOURN_PASS_REPLAY) as [Ht|Ht]; cbn [negb].
    + destruct (JournalReplayBlocks_spec L dk (sectorSize (jr s)) b x (dk (place pos)) ups us s1 (pos + 1)) as (s2 & -> & R2 & G2);
        try done; [by rewrite J1|rewrite J1; eapply in_log_sub; [done|lia|lia]|].
      cbn [bindO]. pose proof G2 as [J2 _].
      destruct (IH fuel (us ++ ups) s2 (pos + 1 + Z.of_nat (length ups)) id) as (s3 & -> & R3 & G3);
        try done || lia || by rewrite J2, J1.
      exists s3. split_and!; [done|by rewrite (assoc_L app)|]. do 2 (eapply grows_trans; [done|]). done.
    + unfold JournalCountTags. rewrite (count_loop_spec (sectorSize (jr s)) _ ups _ _ _ true T)
        by (apply tags_at_fit in T; assert (Z.of_nat (length ups) <= sectorSize (jr s) / 8) by (apply Z.div_le_lower_bound; lia); lia).
      cbn [bindO]. rewrite u32_id by (destruct I3 as (?&?&?&?); lia). rewrite Z.add_0_l.
      destruct (IH fuel us s1 (pos + 1 + Z.of_nat (length ups)) id) as (s3 & -> & R3 & G3); try done || lia || by rewrite J1.
      exists s3. split_and!; [done|done|]. by eapply grows_trans.
  - destruct Lg as (Hd & Lg).
    destruct (pass_loop_header L dk us s fuel type pos id _ _ R I ltac:(lia) Hd) as (b & x & s1 & R1 & G1 & Lb & E & D & ->); [done|unfold is_word; lia|].
    pose proof G1 as [J1 _]. cbn [Z.eqb JFS_DESC_BLOCK JFS_COMMIT_BLOCK Pos.eqb]. rewrite u32_id by lia.
    destruct (IH fuel us s1 (pos + 1) (id + 1)) as (s3 & -> & R3 & G3); try done || lia || by rewrite J1.
    { rewrite J1. eapply in_log_sub; [done|lia|lia]. }
    exists s3. split_and!; [do 2 f_equal; lia|done|]. by eapply grows_trans.
Qed.

(** The words of the superblock of the journal. *)
Definition superblock_at (d : list Z) (maxLen first sequence start : Z) : Prop :=
  zlookup d 4 = Some (CpuToBe32 maxLen) /\ zlookup d 5 = Some (CpuToBe32 first)
  /\ zlookup d 6 = Some (CpuToBe32 sequence) /\ zlookup d 7 = Some (CpuToBe32 start)
  /\ is_word maxLen /\ is_word first /\ is_word sequence /\ is_word start.

(** The blocks of the journal that recovery reads. *)
Definition log_blocks (start k n : Z) : Prop := n = place 0 \/ exists i, 0 <= i <= k /\ n = place (start + i).

Lemma booted_recovering L dk : recovering L dk [] (booted dk).
Proof. constructor; cbn; try done; set_solver. Qed.

Lemma recovering_with_jr L dk us s j : recovering L dk us s -> recovering L dk us (with_jr j s).
Proof. by intros []. Qed.

(** JournalCreate on a disk with a log replays the descriptors of the log in their order, each
    block to its place, up to the first block that is not the next one of the log, and changes no
    other block; the next transaction gets the number after the last commit record. *)
Theorem JournalCreate_recovers dk maxLen first sequence start l size sector fuel :
  superblock_at (dk (place 0)) maxLen first sequence start -> start <> 0 -> s32 (place 0) <> -1 -> 0 < sector ->
  log_at sector dk start sequence l -> start + log_length l < Z.min maxLen (size / sector) ->
  Forall (fun u => ~ log_blocks start (log_length l) u.1) (updates_of l) ->
  sequence + commits l < 2 ^ 32 -> (length l < fuel)%nat ->
  exists s, JournalCreate blockMap fuel size sector (booted dk) = Ret (true, s)
    /\ flush (fun _ => true) s = replayed (updates_of l) dk
    /\ transSequence (jr s) = sequence + commits l /\ head (jr s) = first /\ checkpointTrans (jr s) = []
    /\ currTransaction (jr s) = 0.
Proof.
  intros (S4 & S5 & S6 & S7 & W4 & W5 & W6 & W7) St Sp Hs Lg Hm N Hc F. unfold is_word in *.
  set (L := log_blocks start (log_length l)) in *. unfold JournalCreate.
  destruct (Z.eqb_spec (s32 (place 0)) (-1)); [done|]. destruct (Z.eqb_spec sector 0); [lia|].
  destruct (BlockRead_recovering L dk [] (booted dk) (place 0) (booted_recovering L dk)) as (b & x & s1 & -> & R1 & G1 & Lb & E & D); [by left|].
  cbn [bindO]. rewrite (load_word_data s1 b x), D, S4 by done. cbn [of_option bindO]. rewrite !be32_roundtrip by done.
  replace (if maxLen <? size / sector then maxLen else size / sector) with (Z.min maxLen (size / sector)) by (destruct (Z.ltb_spec maxLen (size / sector)); lia).
  match goal with |- context [JournalRecover _ _ _ (with_jr ?j s1)] => set (j1 := j) end.
  assert (R2 : recovering L dk [] (with_jr j1 s1)) by by apply recovering_with_jr.
  assert (I : in_log L j1 start (log_length l)).
  { split_and!; cbn; try lia. intros i Hi. right. by exists i. }
  unfold JournalRecover, JournalDoOnePass. rewrite !(load_word_data (with_jr j1 s1) b x), D, S6, S7 by done. cbn [of_option bindO].
  rewrite !be32_roundtrip by done. destruct (Z.eqb_spec start 0); [done|].
  destruct (pass_loop_spec L dk JOURN_PASS_SCAN l fuel [] (with_jr j1 s1) start sequence R2) as (s3 & -> & R3 & [J3 G3]); try done || lia.
  cbn [bindO]. destruct (G3 b x E Lb) as [E3 Lb3]. rewrite !(load_word_data s3 b x), D, S6, S7 by done. cbn [of_option bindO]. rewrite !be32_roundtrip by done.
  destruct (pass_loop_spec L dk JOURN_PASS_REPLAY l fuel [] s3 start sequence R3) as (s4 & -> & R4 & [J4 G4]); try done || lia || by rewrite J3.
  cbn [bindO]. destruct (G4 b x E3 Lb3) as [E4 Lb4]. rewrite (load_word_data _ b x) by done. rewrite D, S5. cbn [of_option bindO]. rewrite be32_roundtrip by done.
  eexists. split_and!; [done|apply (rc_flush _ _ _ _ R4)|done..].
Qed.

End Recovery.
