(* ===== verification/JournalCommit.v ===== *)
(** * Commits of the journal and crashes

    What JournalCommitTransaction (Journal) leaves in the cache and, when
    the log has been flushed, on the disk, and what recovery makes of it
    after a crash. *)

From stdpp Require Import functions.
From S2P Require Import Prelude Journal.

(** ** Writing words *)

Lemma put_words_spec ws : forall d off, 0 <= off -> off + Z.of_nat (length ws) <= Z.of_nat (length d) ->
  exists d', put_words d off ws = Some d' /\ length d' = length d
    /\ forall i, 0 <= i -> zlookup d' i
       = if (off <=? i) && (i <? off + Z.of_nat (length ws)) then zlookup ws (i - off) else zlookup d i.
Proof.
  induction ws as [|w ws IH]; intros d off H0 H1; cbn [put_words length] in *.
  - exists d. split_and!; [done..|]. intros i Hi. destruct (Z.leb_spec off i), (Z.ltb_spec i (off + Z.of_nat 0)); done || lia.
  - destruct (zupdate d off w) as [d1|] eqn:U; [|by rewrite zupdate_lt in U by lia].
    pose proof (zupdate_length _ _ _ _ U) as L1.
    destruct (IH d1 (off + 1)) as (d' & E & L & P); [lia|lia|]. exists d'. split_and!; [done|congruence|].
    intros i Hi. rewrite P by done. rewrite (zlookup_zupdate d d1 off i w U Hi).
    destruct (Z.leb_spec (off + 1) i), (Z.leb_spec off i), (Z.eqb_spec i off), (Z.ltb_spec i (off + 1 + Z.of_nat (length ws))),
      (Z.ltb_spec i (off + Z.of_nat (S (length ws)))); cbn [andb]; try lia; try done.
    + unfold zlookup. destruct (Z.leb_spec 0 (i - (off + 1))), (Z.leb_spec 0 (i - off)); try lia.
      by replace (Z.to_nat (i - off)) with (S (Z.to_nat (i - (off + 1)))) by lia.
    + subst. by rewrite Z.sub_diag.
Qed.

Lemma store_words_spec b off ws s x : buffers (bc s) !! b = Some x -> 0 <= off ->
  off + Z.of_nat (length ws) <= Z.of_nat (length (data x)) ->
  exists d', store_words b off ws s = upd_buffer b (set_data d') s /\ length d' = length (data x)
    /\ forall i, 0 <= i -> zlookup d' i
       = if (off <=? i) && (i <? off + Z.of_nat (length ws)) then zlookup ws (i - off) else zlookup (data x) i.
Proof.
  intros E H0 H1. destruct (put_words_spec ws (data x) off H0 H1) as (d' & P & L & Q). exists d'. split_and!; [|done..].
  unfold store_words. rewrite E. cbn [of_option bindO]. by rewrite P.
Qed.

(** ** The cache during a commit *)

Section CacheGrowth.
(** The cache at the start. *)
Context (c0 : cache) (c0_fresh : forall b, is_Some (buffers c0 !! b) -> b < nextBuffer c0).

(** [c] has got buffers for the blocks and contents [new]; the others keep
    their blocks and contents. *)
Record cache_is (new : list (Z * list Z)) (c : cache) : Prop := {
  ci_chain : chain c = chain c0 ++ seqZ (nextBuffer c0) (Z.of_nat (length new));
  ci_next : nextBuffer c = nextBuffer c0 + Z.of_nat (length new);
  ci_disk : disk c = disk c0;
  ci_old b x : b < nextBuffer c0 -> buffers c0 !! b = Some x ->
    exists x', buffers c !! b = Some x' /\ blockNum x' = blockNum x /\ data x' = data x;
  ci_new i u : new !! i = Some u ->
    exists x, buffers c !! (nextBuffer c0 + Z.of_nat i) = Some x /\ blockNum x = u.1 /\ data x = u.2;
  ci_fresh b : is_Some (buffers c !! b) -> b < nextBuffer c;
}.

Definition dirty_at (b : Z) (c : cache) : Prop := exists x, buffers c !! b = Some x /\ dirty x = true.
(** No dirty buffer is forgotten. *)
Definition keeps_dirty (c c' : cache) : Prop := forall b, dirty_at b c -> dirty_at b c'.

Lemma keeps_dirty_refl c : keeps_dirty c c.
Proof. by intros b. Qed.
Lemma keeps_dirty_trans c1 c2 c3 : keeps_dirty c1 c2 -> keeps_dirty c2 c3 -> keeps_dirty c1 c3.
Proof. intros H1 H2 b D. by apply H2, H1. Qed.

Lemma cache_is_start : cache_is [] c0.
Proof. constructor; cbn; rewrite ?app_nil_r, ?Z.add_0_r; try done. by intros b x _ E; exists x. Qed.

Definition set_buffer (b : Z) (x : Buffer) (c : cache) : cache :=
  {| chain := chain c; buffers := <[b := x]> (buffers c); disk := disk c; nextBuffer := nextBuffer c |}.

Lemma upd_buffer_eq b f s x : buffers (bc s) !! b = Some x -> upd_buffer b f s = Ret (with_bc (set_buffer b (f x) (bc s)) s).
Proof. intros E. unfold upd_buffer. by rewrite E. Qed.

(** A change of the flags or the head of a buffer. *)
Lemma set_buffer_same new c b x x' : cache_is new c -> buffers c !! b = Some x -> blockNum x' = blockNum x -> data x' = data x ->
  cache_is new (set_buffer b x' c).
Proof.
  intros [C1 C2 C3 C4 C5 C6] E Eb Ed. constructor; try done.
  - intros b' y L Ey. destruct (C4 b' y L Ey) as (y' & Ey' & P). cbn. destruct (decide (b' = b)) as [->|].
    + rewrite lookup_insert_eq. destruct P. exists x'. split_and!; congruence.
    + rewrite lookup_insert_ne by done. by exists y'.
  - intros i u Eu. destruct (C5 i u Eu) as (y' & Ey' & P). cbn. destruct (decide (nextBuffer c0 + Z.of_nat i = b)) as [<-|].
    + rewrite lookup_insert_eq. destruct P. exists x'. split_and!; congruence.
    + rewrite lookup_insert_ne by done. by exists y'.
  - intros b' [y Ey]. cbn in *. destruct (decide (b' = b)) as [->|]; [by apply C6; eexists|].
    rewrite lookup_insert_ne in Ey by done. apply C6. by eexists.
Qed.

Lemma set_buffer_keeps c b x x' : buffers c !! b = Some x -> (dirty x = true -> dirty x' = true) -> keeps_dirty c (set_buffer b x' c).
Proof.
  intros E D b' (y & Ey & Dy). unfold dirty_at. cbn. destruct (decide (b' = b)) as [->|].
  - rewrite lookup_insert_eq. exists x'. split; [done|]. apply D. congruence.
  - rewrite lookup_insert_ne by done. by exists y.
Qed.

(** A change of the contents of a new buffer. *)
Lemma set_buffer_new new c i u x x' : cache_is new c -> new !! i = Some u -> buffers c !! (nextBuffer c0 + Z.of_nat i) = Some x ->
  blockNum x' = blockNum x -> cache_is (<[i := (u.1, data x')]> new) (set_buffer (nextBuffer c0 + Z.of_nat i) x' c).
Proof.
  intros [C1 C2 C3 C4 C5 C6] Eu E Eb. constructor; cbn; rewrite ?length_insert; try done.
  - intros b y L Ey. rewrite lookup_insert_ne by lia. by apply C4.
  - intros k v Ek. apply list_lookup_insert_Some in Ek as [(<- & <- & _)|(N & Ek)].
    + rewrite lookup_insert_eq. exists x'. split_and!; [done| |done]. cbn. destruct (C5 i u Eu) as (? & ? & ? & ?). congruence.
    + rewrite lookup_insert_ne by lia. by apply C5.
  - intros b [y Ey]. apply C6. destruct (decide (b = nextBuffer c0 + Z.of_nat i)) as [->|]; [by eexists|].
    rewrite lookup_insert_ne in Ey by done. by eexists.
Qed.

(** A new buffer. *)
Definition add_buffer (x : Buffer) (c : cache) : cache :=
  {| chain := chain c ++ [nextBuffer c]; buffers := <[nextBuffer c := x]> (buffers c); disk := disk c;
     nextBuffer := nextBuffer c + 1 |}.

Lemma add_buffer_is new c x : cache_is new c -> cache_is (new ++ [(blockNum x, data x)]) (add_buffer x c).
Proof.
  intros [C1 C2 C3 C4 C5 C6]. constructor; cbn; rewrite ?length_app; cbn [length].
  - rewrite C1, C2, <- (assoc_L app). f_equal. rewrite Nat2Z.inj_add, seqZ_app by lia. done.
  - lia.
  - done.
  - intros b y L Ey. rewrite lookup_insert_ne by lia. by apply C4.
  - intros i u [Ei|(L & Ei)]%lookup_app_Some.
    + apply lookup_lt_Some in Ei as Li. rewrite lookup_insert_ne by lia. by apply C5.
    + apply list_lookup_singleton_Some in Ei as [L' <-]. replace i with (length new) by lia. rewrite C2, lookup_insert_eq. by exists x.
  - intros b [y Ey]. destruct (decide (b = nextBuffer c)) as [->|]; [lia|].
    rewrite lookup_insert_ne in Ey by done. pose proof (C6 b ltac:(by eexists)). lia.
Qed.

Lemma add_buffer_keeps new c x : cache_is new c -> keeps_dirty c (add_buffer x c).
Proof.
  intros C b (y & Ey & Dy). pose proof (ci_fresh _ _ C b ltac:(by eexists)). exists y. cbn. by rewrite lookup_insert_ne by lia.
Qed.

(** A buffer of the chain is an old or a new one. *)
Lemma cache_is_inv new c b : (forall b, b ∈ chain c0 -> is_Some (buffers c0 !! b)) -> cache_is new c -> b ∈ chain c -> exists x,
  buffers c !! b = Some x
  /\ ((exists y, b ∈ chain c0 /\ buffers c0 !! b = Some y /\ blockNum x = blockNum y /\ data x = data y)
      \/ exists i u, b = nextBuffer c0 + Z.of_nat i /\ new !! i = Some u /\ blockNum x = u.1 /\ data x = u.2).
Proof.
  intros Hc C I. rewrite (ci_chain _ _ C) in I. apply elem_of_app in I as [I|I].
  - destruct (Hc b I) as [y Ey]. destruct (ci_old _ _ C b y) as (x & Ex & Bx & Dx); [by apply c0_fresh; eexists|done|].
    exists x. split; [done|]. left. by exists y.
  - apply elem_of_seqZ in I. destruct (lookup_lt_is_Some_2 new (Z.to_nat (b - nextBuffer c0))) as [u Eu]; [lia|].
    destruct (ci_new _ _ C _ u Eu) as (x & Ex & P). assert (b = nextBuffer c0 + Z.of_nat (Z.to_nat (b - nextBuffer c0))) as E by lia.
    rewrite <- E in Ex. exists x. split; [done|]. right. by exists (Z.to_nat (b - nextBuffer c0)), u.
Qed.
End CacheGrowth.

(** ** Filing buffers *)

(** The lists of a transaction after a head has moved to [type]. *)
Definition moved (h type : Z) (y : JournalTrans) : JournalTrans := default y (add_tail h type (unlink h y)).

Lemma add_tail_Some h type y : 1 <= type <= 6 -> is_Some (add_tail h type y).
Proof. intros H. unfold add_tail, JOURN_RESERVED, JOURN_FORGET. by destruct (Z.leb_spec 1 type), (Z.leb_spec type 6); try lia. Qed.

Lemma JournalFileBuffer_move h t type x y s : 0 < h -> heads s !! h = Some x -> transaction x <> 0 -> jlist x <> type ->
  link x = Linked -> trans s !! t = Some y -> 1 <= type <= 6 -> exists tr,
  JournalFileBuffer h t type s = Ret (with_trans tr (with_heads (<[h := set_link type Linked x]> (heads s)) s))
  /\ tr !! t = Some (moved h type y).
Proof.
  intros Hh Ex Tx Jx Lx Ey Ht. unfold JournalFileBuffer. destruct (Z.eqb_spec h 0); [lia|]. rewrite Ex. cbn [of_option bindO].
  rewrite (proj2 (c_true_spec _) Tx). destruct (Z.eqb_spec (jlist x) type); [done|]. cbn [andb].
  unfold JournalUnfileBuffer. rewrite Ex. cbn [of_option bindO]. rewrite Lx. unfold upd_head. cbn. rewrite Ex. cbn.
  rewrite lookup_fmap, Ey. cbn. destruct (add_tail_Some h type (unlink h y) Ht) as [z Ez]. rewrite Ez. cbn.
  rewrite lookup_insert_eq. cbn. exists (<[t := z]> (unlink h <$> trans s)). split; [by rewrite insert_insert_eq|]. rewrite lookup_insert_eq. unfold moved. by rewrite Ez.
Qed.

Lemma JournalFileBuffer_new h t type x y s : 0 < h -> heads s !! h = Some x -> transaction x = 0 ->
  trans s !! t = Some y -> 1 <= type <= 6 -> exists z,
  JournalFileBuffer h t type s
  = Ret (with_trans (<[t := z]> (trans s)) (with_heads (<[h := set_link type Linked (set_transaction t x)]> (heads s)) s))
  /\ add_tail h type y = Some z.
Proof.
  intros Hh Ex Tx Ey Ht. unfold JournalFileBuffer. destruct (Z.eqb_spec h 0); [lia|]. rewrite Ex. cbn [of_option bindO].
  rewrite Tx. cbn. unfold upd_head. cbn. rewrite Ex. cbn. rewrite Ey. cbn.
  destruct (add_tail_Some h type y Ht) as [z Ez]. rewrite Ez. cbn. rewrite lookup_insert_eq. cbn.
  exists z. split; [by rewrite insert_insert_eq|done].
Qed.

Lemma JournalAddHeader_new b s x : buffers (bc s) !! b = Some x -> privData x = 0 ->
  JournalAddHeader b s = Ret (nextAddr s,
    with_bc (set_buffer b (set_privData (nextAddr s) x) (bc s))
      (with_next (nextAddr s + 1)
         (with_heads (<[nextAddr s := {| buffer := b; transaction := 0; nextTransaction := 0; jlist := 0; jrefs := 1; link := Alone |}]>
                        (heads s)) s))).
Proof.
  intros E P. unfold JournalAddHeader. rewrite E. cbn [of_option bindO]. rewrite P. cbn [c_true Z.eqb negb].
  rewrite (upd_buffer_eq b _ s x E). cbn [bindO]. unfold upd_head. cbn. rewrite lookup_insert_eq. cbn. by rewrite insert_insert_eq.
Qed.

(** The lists that a commit moves heads between. *)
Record commit_lists (y : JournalTrans) (id start : Z) (meta shadow io forget : list Z) : Prop := {
  cl_id : transId y = id;
  cl_start : logStart y = start;
  cl_meta : metaDataList y = meta;
  cl_shadow : shadowList y = shadow;
  cl_io : ioList y = io;
  cl_forget : forgetList y = forget;
}.

Lemma filter_absent (h : Z) (l : list Z) : h ∉ l -> filter (fun x => x <> h) l = l.
Proof. intros H. induction l as [|a l IH]; [done|]. rewrite filter_cons_True by set_solver. f_equal. apply IH. set_solver. Qed.
Lemma filter_head (h : Z) (l : list Z) : h ∉ l -> filter (fun x => x <> h) (h :: l) = l.
Proof. intros H. rewrite filter_cons_False by tauto. by apply filter_absent. Qed.

Lemma moved_shadow y id start h meta shadow io : commit_lists y id start (h :: meta) shadow io [] ->
  h ∉ meta -> h ∉ shadow -> h ∉ io -> commit_lists (moved h JOURN_SHADOW y) id start meta (shadow ++ [h]) io [].
Proof.
  intros [C1 C2 C3 C4 C5 C6] N1 N2 N3. unfold moved, add_tail, unlink. cbn. rewrite C3, C4, C5, C6.
  rewrite (filter_head h meta), (filter_absent h shadow), (filter_absent h io) by done. by constructor.
Qed.
Lemma moved_forget y id start h shadow io forget : commit_lists y id start [] (h :: shadow) io forget ->
  h ∉ shadow -> h ∉ io -> h ∉ forget -> commit_lists (moved h JOURN_FORGET y) id start [] shadow io (forget ++ [h]).
Proof.
  intros [C1 C2 C3 C4 C5 C6] N1 N2 N3. unfold moved, add_tail, unlink. cbn. rewrite C3, C4, C5, C6.
  rewrite (filter_head h shadow), (filter_absent h io), (filter_absent h forget) by done. by constructor.
Qed.
Lemma unlinked_io y id start h shadow io forget : commit_lists y id start [] shadow (h :: io) forget ->
  h ∉ shadow -> h ∉ io -> h ∉ forget -> commit_lists (unlink h y) id start [] shadow io forget.
Proof.
  intros [C1 C2 C3 C4 C5 C6] N1 N2 N3. unfold unlink. constructor; cbn; rewrite ?C3, ?C4, ?C5, ?C6; try done;
    rewrite ?(filter_head h io), ?(filter_absent h shadow), ?(filter_absent h forget) by done; done.
Qed.
Lemma unlinked_forget y id start h forget : commit_lists y id start [] [] [] (h :: forget) ->
  h ∉ forget -> commit_lists (unlink h y) id start [] [] [] forget.
Proof.
  intros [C1 C2 C3 C4 C5 C6] N. unfold unlink. constructor; cbn; rewrite ?C3, ?C4, ?C5, ?C6; try done.
  by rewrite filter_head.
Qed.
Lemma added_io y z id start h meta shadow io : commit_lists y id start meta shadow io [] -> add_tail h JOURN_IO y = Some z ->
  commit_lists z id start meta shadow (io ++ [h]) [].
Proof. intros [C1 C2 C3 C4 C5 C6]. unfold add_tail. cbn. intros [= <-]. constructor; cbn; by rewrite ?C5. Qed.
Lemma added_logctl y z id start h meta shadow io forget : commit_lists y id start meta shadow io forget ->
  add_tail h JOURN_LOGCTL y = Some z -> commit_lists z id start meta shadow io forget.
Proof. intros [C1 C2 C3 C4 C5 C6]. unfold add_tail. cbn. intros [= <-]. by constructor. Qed.

Lemma insert_over {A} (m : gmap Z A) a b x y z : a <> b -> <[a := x]> (<[b := y]> (<[a := z]> m)) = <[a := x]> (<[b := y]> m).
Proof. intros. by rewrite (insert_insert_ne _ b a), insert_insert_eq by done. Qed.

(** A buffer of the transaction is copied to a new buffer of the log. *)
Lemma JournalWriteMetadataBuffer_spec t old n s x ob y id start meta shadow io :
  0 < old < nextAddr s -> heads s !! old = Some x -> transaction x <> 0 -> jlist x = JOURN_METADATA -> link x = Linked ->
  buffers (bc s) !! buffer x = Some ob -> (forall b, is_Some (buffers (bc s) !! b) -> b < nextBuffer (bc s)) ->
  trans s !! t = Some y -> commit_lists y id start (old :: meta) shadow io [] ->
  old ∉ meta -> old ∉ shadow -> old ∉ io -> exists tr z,
  JournalWriteMetadataBuffer t old n s = Ret (nextAddr s,
    with_trans tr
      (with_heads (<[nextAddr s := {| buffer := nextBuffer (bc s); transaction := t; nextTransaction := 0; jlist := JOURN_IO;
                                      jrefs := 1; link := Linked |}]>
                     (<[old := set_link JOURN_SHADOW Linked x]> (heads s)))
         (with_next (nextAddr s + 1)
            (with_bc (add_buffer {| blockNum := n; data := data ob; dirty := false; privData := nextAddr s |} (bc s)) s))))
  /\ tr !! t = Some z /\ commit_lists z id start meta (shadow ++ [old]) (io ++ [nextAddr s]) [].
Proof.
  intros Ho Ex Tx Jx Lx Eb Fr Ey Cl N1 N2 N3. unfold JournalWriteMetadataBuffer. rewrite Ex. cbn [of_option bindO]. rewrite Eb. cbn [of_option bindO].
  unfold BlockBufferAlloc, new_buffer. cbv beta iota zeta.
  erewrite upd_buffer_eq by (cbn; apply lookup_insert_eq). cbn [bindO].
  erewrite JournalAddHeader_new by (cbn; (apply lookup_insert_eq || done)). cbn [bindO]. unfold upd_head at 1. cbn -[zeros].
  rewrite lookup_insert_eq. cbn -[zeros]. rewrite !insert_insert_eq.
  match goal with |- context [JournalFileBuffer old t JOURN_SHADOW ?s1] => set (sx := s1) end.
  destruct (JournalFileBuffer_move old t JOURN_SHADOW x y sx) as (tr & -> & Etr); try done; try lia.
  { cbn. by rewrite lookup_insert_ne by lia. }
  { by rewrite Jx. }
  pose proof (moved_shadow _ _ _ _ _ _ _ Cl N1 N2 N3) as Cm. cbn [bindO].
  edestruct (JournalFileBuffer_new (nextAddr s) t JOURN_IO) as (z & -> & Ez).
  { lia. }
  { cbn. rewrite lookup_insert_ne, lookup_insert_eq by lia. done. }
  { done. }
  { cbn. exact Etr. }
  { done. }
  cbn [bindO]. eexists _, z. split_and!.
  - unfold sx, with_bc, set_buffer. cbn -[zeros]. rewrite insert_over, !insert_insert_eq by lia. reflexivity.
  - apply lookup_insert_eq.
  - eapply added_io; done.
Qed.

(** ** The commit of a transaction *)

Section Committing.
Context (blockMap : Z -> Z).
Notation place := (JournalBlockMap blockMap).
(** The state before JournalCommitMetadata, the transaction, its number and
    its buffers with their blocks and contents. *)
Context (s0 : jstate) (t id : Z) (hs : list Z) (ups : list (Z * list Z)).
Notation pos0 := (head (jr s0)).
Notation adr0 := (nextAddr s0).
Notation buf0 := (nextBuffer (bc s0)).
Notation sector := (sectorSize (jr s0)).
Notation n := (Z.of_nat (length ups)).

(** A head of a changed buffer. *)
Definition meta_head (s : jstate) (h ty : Z) (b : Z) : Prop :=
  exists x, heads s !! h = Some x /\ buffer x = b /\ transaction x <> 0 /\ jlist x = ty /\ link x = Linked.

(** The transaction can be committed: its buffers are filed, fit one
    descriptor and have contents, and the blocks of the log from the head on
    are in their own places, with no buffer yet. *)
Record commit_ready (start : Z) : Prop := {
  cr_trans : exists y, trans s0 !! t = Some y /\ commit_lists y id start hs [] [] [];
  cr_heads i h : hs !! i = Some h -> 0 < h < adr0 /\ exists b x, meta_head s0 h JOURN_METADATA b
    /\ buffers (bc s0) !! b = Some x /\ ups !! i = Some (blockNum x, data x);
  cr_nodup : NoDup hs;
  cr_length : length hs = length ups;
  cr_some : ups <> [];
  cr_words : Forall (fun u => is_word u.1) ups;
  cr_uuid : length (uuid (jr s0)) = 4%nat;
  cr_count : n <= 63;
  cr_sector : 52 + 8 * n <= sector < 2 ^ 32 /\ sector mod 512 = 0;
  cr_head : 0 <= pos0 /\ pos0 + n + 2 < 2 ^ 32;
  cr_id : is_word id;
  cr_fresh b : is_Some (buffers (bc s0) !! b) -> b < buf0;
  cr_chain b : b ∈ chain (bc s0) -> is_Some (buffers (bc s0) !! b);
  cr_uncached b x i : b ∈ chain (bc s0) -> buffers (bc s0) !! b = Some x -> 0 <= i <= n + 1 -> blockNum x <> place (pos0 + i);
  cr_places i j : 0 <= i <= n + 1 -> 0 <= j <= n + 1 -> place (pos0 + i) = place (pos0 + j) -> i = j;
}.

Context (R : commit_ready pos0).

(** The word of tag [i] in the descriptor. *)
Definition tagpos (i : Z) : Z := if i =? 0 then 3 else 7 + 2 * i.

(** The descriptor with [k] tags; the last two have JOURN_FLAG_LAST_TAG. *)
Definition desc_words (k : Z) (d : list Z) : Prop :=
  Z.of_nat (length d) = sector / 4 /\ header_at d JFS_DESC_BLOCK id
  /\ forall i u, Z.of_nat i < k -> ups !! i = Some u ->
       zlookup d (tagpos (Z.of_nat i)) = Some (CpuToBe32 u.1)
       /\ zlookup d (tagpos (Z.of_nat i) + 1) = Some (tag_flags (Z.of_nat i =? 0) (n <=? Z.of_nat i + 2)).

(** The copies in the log. *)
Definition copies (k : nat) : list (Z * list Z) :=
  imap (fun i (u : Z * list Z) => (place (pos0 + 1 + Z.of_nat i), u.2)) (take k ups).

Definition vars_at (k : nat) (v : commit_vars) : Prop :=
  descriptor v = Some buf0 /\ bufs v = seqZ buf0 (Z.of_nat k + 1) /\ tagPointer v = tagpos (Z.of_nat k)
  /\ spaceLeft v = sector - (if (k =? 0)%nat then 12 else 28 + 8 * Z.of_nat k) /\ firstTag v = (k =? 0)%nat.

Record committing (k : nat) (d : list Z) (s : jstate) : Prop := {
  cm_jr : exists f, jr s = set_head (pos0 + 1 + Z.of_nat k) f (jr s0);
  cm_trans : exists y, trans s !! t = Some y
    /\ commit_lists y id pos0 (drop k hs) (take k hs) (seqZ (adr0 + 1) (Z.of_nat k)) [];
  cm_heads i h : hs !! i = Some h -> exists b x, meta_head s h (if (i <? k)%nat then JOURN_SHADOW else JOURN_METADATA) b
    /\ buffers (bc s0) !! b = Some x /\ ups !! i = Some (blockNum x, data x);
  cm_new i : (i < k)%nat -> heads s !! (adr0 + 1 + Z.of_nat i)
    = Some {| buffer := buf0 + 1 + Z.of_nat i; transaction := t; nextTransaction := 0; jlist := JOURN_IO; jrefs := 1; link := Linked |};
  cm_next : nextAddr s = adr0 + 1 + Z.of_nat k;
  cm_cache : cache_is (bc s0) ((place pos0, d) :: copies k) (bc s);
  cm_desc : desc_words (Z.of_nat k) d;
}.

Definition new_dirty (k : nat) (s : jstate) : Prop := forall i, (i <= k)%nat -> dirty_at (buf0 + Z.of_nat i) (bc s).

Lemma copies_S k u : ups !! k = Some u -> copies (S k) = copies k ++ [(place (pos0 + 1 + Z.of_nat k), u.2)].
Proof.
  intros E. unfold copies. rewrite (take_S_r _ _ u E), imap_app. cbn [imap]. do 3 f_equal.
  rewrite length_take. apply lookup_lt_Some in E. rewrite Nat.add_0_r, Nat.min_l by lia. done.
Qed.

Lemma copies_length k : (k <= length ups)%nat -> length (copies k) = k.
Proof. intros L. unfold copies. rewrite length_imap, length_take. lia. Qed.

Lemma desc_words_zeros : exists d', put_words (zeros s0) 0 [CpuToBe32 JFS_MAGIC; CpuToBe32 JFS_DESC_BLOCK; CpuToBe32 id] = Some d'
  /\ desc_words 0 d'.
Proof.
  destruct (cr_sector _ R) as [Hs _]. assert (9 <= sector / 4) by (apply Z.div_le_lower_bound; lia).
  assert (Lz : Z.of_nat (length (zeros s0)) = sector / 4) by (unfold zeros; rewrite length_replicate; lia).
  destruct (put_words_spec [CpuToBe32 JFS_MAGIC; CpuToBe32 JFS_DESC_BLOCK; CpuToBe32 id] (zeros s0) 0) as (d' & E & L & P);
    [lia|cbn [length]; lia|].
  exists d'. split; [done|]. split_and!; [lia| |by intros; lia]. unfold header_at. rewrite !P by lia. done.
Qed.

Lemma write_all_spec new l : forall s, cache_is (bc s0) new (bc s) ->
  Forall (fun b => buf0 <= b < buf0 + Z.of_nat (length new)) l ->
  exists c', write_all l s = Ret (with_bc c' s) /\ cache_is (bc s0) new c' /\ keeps_dirty (bc s) c'
    /\ forall b, b ∈ l -> dirty_at b c'.
Proof.
  induction l as [|b l IH]; intros s C F.
  { exists (bc s). split_and!; [by destruct s|done|apply keeps_dirty_refl|set_solver]. }
  apply Forall_cons in F as [Hb F]. cbn [write_all]. unfold BlockWrite.
  destruct (lookup_lt_is_Some_2 new (Z.to_nat (b - buf0))) as [u Eu]; [lia|].
  destruct (ci_new _ _ _ C _ u Eu) as (x & Ex & Eb & Ed). replace (buf0 + Z.of_nat (Z.to_nat (b - buf0))) with b in Ex by lia.
  rewrite (upd_buffer_eq b _ s x Ex). cbn [bindO].
  destruct (IH (with_bc (set_buffer b (set_dirty true x) (bc s)) s)) as (c' & E & C' & K & D); [by eapply set_buffer_same|done|].
  exists c'. rewrite E. assert (K0 : keeps_dirty (bc s) (set_buffer b (set_dirty true x) (bc s))) by (by eapply set_buffer_keeps).
  split_and!; [done|done|by eapply keeps_dirty_trans|].
  intros b' [->|I]%elem_of_cons; [|by apply D]. apply K. exists (set_dirty true x). split; [apply lookup_insert_eq|done].
Qed.
Lemma store_desc new d s off ws : cache_is (bc s0) ((place pos0, d) :: new) (bc s) -> 0 <= off ->
  off + Z.of_nat (length ws) <= Z.of_nat (length d) ->
  exists d' c', store_words buf0 off ws s = Ret (with_bc c' s) /\ cache_is (bc s0) ((place pos0, d') :: new) c' /\ keeps_dirty (bc s) c'
    /\ length d' = length d /\ forall i, 0 <= i -> zlookup d' i
       = if (off <=? i) && (i <? off + Z.of_nat (length ws)) then zlookup ws (i - off) else zlookup d i.
Proof.
  intros C H0 H1. destruct (ci_new _ _ _ C 0 (place pos0, d) eq_refl) as (x & Ex & Eb & Ed). cbn in Eb, Ed. rewrite Z.add_0_r in Ex.
  destruct (store_words_spec buf0 off ws s x Ex H0) as (d' & E & L & P); [by rewrite Ed|]. rewrite Ed in L, P.
  exists d', (set_buffer buf0 (set_data d' x) (bc s)). split_and!; try done.
  - rewrite E. by apply upd_buffer_eq.
  - pose proof (set_buffer_new (bc s0) _ _ 0 _ x (set_data d' x) C eq_refl) as Q. rewrite Z.add_0_r in Q. by apply Q.
  - by eapply set_buffer_keeps.
Qed.

Lemma tagpos_bounds k : 0 <= k < n -> 3 <= tagpos k /\ tagpos k + (if k =? 0 then 6 else 2) <= sector / 4.
Proof.
  intros Hk. destruct (cr_sector _ R) as [Hs _]. assert (13 + 2 * n <= sector / 4) by (apply Z.div_le_lower_bound; lia).
  unfold tagpos. destruct (Z.eqb_spec k 0); lia.
Qed.

Lemma desc_words_tag k d d' u : desc_words (Z.of_nat k) d -> length d' = length d ->
  (forall i, 0 <= i < tagpos (Z.of_nat k) -> zlookup d' i = zlookup d i) -> ups !! k = Some u ->
  zlookup d' (tagpos (Z.of_nat k)) = Some (CpuToBe32 u.1) ->
  zlookup d' (tagpos (Z.of_nat k) + 1) = Some (tag_flags (Z.of_nat k =? 0) (n <=? Z.of_nat k + 2)) ->
  desc_words (Z.of_nat (S k)) d'.
Proof.
  intros (L & (D1 & D2 & D3) & T) L' Low Eu T1 T2. assert (3 <= tagpos (Z.of_nat k)) by (unfold tagpos; zcases; lia).
  split_and!; [by rewrite L'|split_and!; rewrite Low by lia; done|].
  intros i v Hi Ev. destruct (decide (i = k)) as [->|]; [by simplify_eq|].
  assert (0 <= tagpos (Z.of_nat i) /\ tagpos (Z.of_nat i) + 1 < tagpos (Z.of_nat k)) by (unfold tagpos; zcases; lia).
  rewrite !Low by lia. apply T; [lia|done].
Qed.

(** The tag of one buffer is put in the descriptor. *)
Lemma put_tag k d s u new : desc_words (Z.of_nat k) d -> ups !! k = Some u -> length (uuid (jr s)) = 4%nat ->
  cache_is (bc s0) ((place pos0, d) :: new) (bc s) ->
  let first := (k =? 0)%nat in let p := tagpos (Z.of_nat k) in
  exists d' c',
    (let* s := store_words buf0 p [CpuToBe32 u.1; CpuToBe32 (if first then 0 else JOURN_FLAG_SAME_UUID)] s in
     if first then store_words buf0 (p + 2) (uuid (jr s)) s else Ret s) = Ret (with_bc c' s)
    /\ cache_is (bc s0) ((place pos0, d') :: new) c' /\ keeps_dirty (bc s) c' /\ length d' = length d
    /\ (forall i, 0 <= i < p -> zlookup d' i = zlookup d i) /\ zlookup d' p = Some (CpuToBe32 u.1)
    /\ zlookup d' (p + 1) = Some (tag_flags first false).
Proof.
  intros D Eu Lu C first p. pose proof (lookup_lt_Some _ _ _ Eu) as Lk. destruct D as (L & _ & _).
  destruct (tagpos_bounds (Z.of_nat k)) as [Hp1 Hp2]; [lia|]. fold p in Hp1, Hp2.
  assert (p + 2 <= sector / 4) by (destruct (Z.of_nat k =? 0); lia).
  destruct (store_desc new d s p [CpuToBe32 u.1; CpuToBe32 (if first then 0 else JOURN_FLAG_SAME_UUID)] C) as (d1 & c1 & -> & C1 & K1 & L1 & P1);
    [lia|cbn [length]; lia|].
  cbn [bindO length] in *. change (Z.of_nat 2) with 2 in *.
  assert (Q1 : (forall i, 0 <= i < p -> zlookup d1 i = zlookup d i) /\ zlookup d1 p = Some (CpuToBe32 u.1)
               /\ zlookup d1 (p + 1) = Some (tag_flags first false)).
  { split_and!.
    - intros i Hi. rewrite P1 by lia. by destruct (Z.leb_spec p i); [lia|].
    - rewrite P1 by lia. destruct (Z.leb_spec p p), (Z.ltb_spec p (p + 2)); try lia. by rewrite Z.sub_diag.
    - rewrite P1 by lia. destruct (Z.leb_spec p (p + 1)), (Z.ltb_spec (p + 1) (p + 2)); try lia. cbn [andb].
      replace (p + 1 - p) with 1 by lia. by destruct first. }
  destruct first eqn:Hf; [|by exists d1, c1].
  assert (k = 0%nat) as -> by (unfold first in Hf; by apply Nat.eqb_eq in Hf). change (p + 6 <= sector / 4) in Hp2.
  destruct (store_desc new d1 (with_bc c1 s) (p + 2) (uuid (jr s)) C1) as (d2 & c2 & E2 & C2 & K2 & L2 & P2); [lia|lia|].
  exists d2, c2. cbn [jr with_bc] in *. rewrite E2. split_and!; try done; try congruence.
  - by eapply keeps_dirty_trans.
  - intros i Hi. rewrite P2 by lia. destruct (Z.leb_spec (p + 2) i); [lia|]. by apply Q1.
  - rewrite P2 by lia. destruct (Z.leb_spec (p + 2) p); [lia|]. by apply Q1.
  - rewrite P2 by lia. destruct (Z.leb_spec (p + 2) (p + 1)); [lia|]. by apply Q1.
Qed.

(** The flag of the last tag. *)
Lemma put_last new d s p first : cache_is (bc s0) ((place pos0, d) :: new) (bc s) -> 0 <= p -> p + 2 <= Z.of_nat (length d) ->
  zlookup d (p + 1) = Some (tag_flags first false) -> exists d' c',
  (let* f := load_word buf0 (p + 1) s in store_words buf0 (p + 1) [Z.lor f (CpuToBe32 JOURN_FLAG_LAST_TAG)] s) = Ret (with_bc c' s)
  /\ cache_is (bc s0) ((place pos0, d') :: new) c' /\ keeps_dirty (bc s) c' /\ length d' = length d
  /\ (forall i, 0 <= i <= p -> zlookup d' i = zlookup d i) /\ zlookup d' (p + 1) = Some (tag_flags first true).
Proof.
  intros C H0 H1 F. destruct (ci_new _ _ _ C 0 (place pos0, d) eq_refl) as (x & Ex & Eb & Ed). cbn in Eb, Ed. rewrite Z.add_0_r in Ex.
  rewrite (load_word_data s buf0 x), Ed, F by done. cbn [of_option bindO].
  destruct (store_desc new d s (p + 1) [Z.lor (tag_flags first false) (CpuToBe32 JOURN_FLAG_LAST_TAG)] C) as (d1 & c1 & -> & C1 & K1 & L1 & P1);
    [lia|cbn; lia|].
  exists d1, c1. cbn [length] in *. split_and!; try done.
  - intros i Hi. rewrite P1 by lia. by destruct (Z.leb_spec (p + 1) i); [lia|].
  - rewrite P1 by lia. destruct (Z.leb_spec (p + 1) (p + 1)), (Z.ltb_spec (p + 1) (p + 1 + Z.of_nat 1)); try lia.
    rewrite Z.sub_diag. by destruct first.
Qed.

Lemma committing_jr k d s : committing k d s -> (k <= length ups)%nat ->
  sectorSize (jr s) = sector /\ uuid (jr s) = uuid (jr s0) /\ head (jr s) = pos0 + 1 + Z.of_nat k.
Proof. intros [[f ->] _ _ _ _ _ _] _. done. Qed.

(** The next block of the log is given out. *)
Lemma NextLogBlock_spec j k f s : jr s = set_head (pos0 + Z.of_nat k) f j -> (k <= length ups + 1)%nat -> exists f',
  JournalNextLogBlock blockMap s = (place (pos0 + Z.of_nat k), with_jr (set_head (pos0 + Z.of_nat (S k)) f' j) s).
Proof.
  intros J Hk. destruct (cr_head _ R). unfold JournalNextLogBlock. rewrite J. cbn [head free set_head].
  exists (u32 (f - 1)). rewrite u32_id by lia.
  by replace (pos0 + Z.of_nat k + 1) with (pos0 + Z.of_nat (S k)) by lia.
Qed.

(** A buffer of the transaction is copied to the log. *)
Lemma copy_step k d s curr u : committing k d s -> hs !! k = Some curr -> ups !! k = Some u -> exists s' cb x,
  (let (n, s) := JournalNextLogBlock blockMap s in JournalWriteMetadataBuffer t curr n s) = Ret (adr0 + 1 + Z.of_nat k, s')
  /\ buffer_of curr s' = Ret cb /\ buffers (bc s') !! cb = Some x /\ blockNum x = u.1
  /\ buffer_of (adr0 + 1 + Z.of_nat k) s' = Ret (buf0 + 1 + Z.of_nat k) /\ keeps_dirty (bc s) (bc s')
  /\ (forall d' c, cache_is (bc s0) ((place pos0, d') :: copies (S k)) c -> desc_words (Z.of_nat (S k)) d' -> committing (S k) d' (with_bc c s'))
  /\ cache_is (bc s0) ((place pos0, d) :: copies (S k)) (bc s') /\ uuid (jr s') = uuid (jr s0).
Proof.
  intros C Eh Eu. pose proof (lookup_lt_Some _ _ _ Eu) as Lk. destruct C as [[f J] (y & Ey & Cl) Ch Cn Ca Cc Cd].
  destruct (NextLogBlock_spec (jr s0) (S k) f s) as [f' ->]; [rewrite J; f_equal; lia|lia|].
  destruct (cr_heads _ R k curr Eh) as (Hc & _). destruct (Ch k curr Eh) as (cb & x0 & (x & Ex & Eb & Tx & Jx & Lx) & Ex0 & Eu').
  rewrite Nat.ltb_irrefl in Jx. simplify_eq.
  destruct (ci_old _ _ _ Cc (buffer x) x0) as (x1 & Ex1 & N1 & D1); [by apply (cr_fresh _ R); eexists|done|].
  pose proof (cr_nodup _ R) as Nd. pose proof (cr_length _ R) as Ll. rewrite <- (take_drop_middle hs k curr Eh) in Nd.
  apply NoDup_app in Nd as (Nd1 & Nd2 & Nd3). apply NoDup_cons in Nd3 as [Nd3 _].
  set (s1 := with_jr (set_head (pos0 + Z.of_nat (S (S k))) f' (jr s0)) s).
  edestruct (JournalWriteMetadataBuffer_spec t curr (place (pos0 + Z.of_nat (S k))) s1 x x1 y id pos0 (drop (S k) hs) (take k hs)
    (seqZ (adr0 + 1) (Z.of_nat k))) as (tr & z & -> & Ez & Cz); try done; cbn.
  { rewrite Ca. lia. }
  { intros b Hb. by apply (ci_fresh _ _ _ Cc). }
  { by rewrite (drop_S _ curr) in Cl by done. }
  { intros I. by apply (Nd2 curr I), list_elem_of_here. }
  { rewrite elem_of_seqZ. lia. }
  change (nextAddr s1) with (nextAddr s) in *. change (heads s1) with (heads s). change (bc s1) with (bc s).
  rewrite Ca in *. eexists _, (buffer x), x1. split_and!.
  - done.
  - unfold buffer_of. cbn. rewrite lookup_insert_ne, lookup_insert_eq by lia. done.
  - cbn. rewrite lookup_insert_ne; [done|]. rewrite (ci_next _ _ _ Cc). pose proof (cr_fresh _ R (buffer x) ltac:(by eexists)). lia.
  - done.
  - unfold buffer_of. cbn. rewrite lookup_insert_eq. cbn. rewrite (ci_next _ _ _ Cc). cbn [length].
    rewrite copies_length by lia. f_equal. lia.
  - cbn. by eapply add_buffer_keeps.
  - intros d' c Hc' Hd'. constructor; cbn.
    + exists f'. f_equal. lia.
    + exists z. split; [done|]. rewrite (take_S_r _ _ curr Eh). replace (Z.of_nat (S k)) with (Z.of_nat k + 1) by lia.
      by rewrite seqZ_app by lia.
    + intros i h Ei. destruct (cr_heads _ R i h Ei) as (Hh & _). destruct (Ch i h Ei) as (b & xb & (x' & Ex' & M) & Eb & Ei').
      exists b, xb. split; [|done]. destruct (decide (h = curr)) as [->|Nh].
      * assert (i = k) as -> by (eapply NoDup_lookup; [apply (cr_nodup _ R)|done|done]). rewrite Nat.leb_refl.
        exists (set_link JOURN_SHADOW Linked x). cbn. rewrite lookup_insert_ne, lookup_insert_eq by lia. destruct M as (? & ? & _). simplify_eq. by split_and!.
      * assert (i <> k) by congruence. exists x'. cbn. rewrite !lookup_insert_ne by lia. split; [done|].
        by destruct (Nat.ltb_spec i k), (Nat.leb_spec i k); try lia.
    + intros i Hi. destruct (decide (i = k)) as [->|].
      * rewrite lookup_insert_eq, (ci_next _ _ _ Cc). cbn [length]. rewrite copies_length by lia. do 2 f_equal. lia.
      * rewrite lookup_insert_ne, lookup_insert_ne by lia. apply Cn. lia.
    + lia.
    + done.
    + done.
  - cbn. rewrite (copies_S k _ Eu). rewrite app_comm_cons. replace (pos0 + 1 + Z.of_nat k) with (pos0 + Z.of_nat (S k)) by lia.
    cbn [snd]. rewrite <- D1. by apply (add_buffer_is (bc s0) _ _ {| blockNum := _; data := _; dirty := _; privData := _ |}).
  - done.
Qed.

Lemma vars_next k v : vars_at k v -> (k < length ups)%nat ->
  vars_at (S k) {| descriptor := descriptor v; bufs := bufs v ++ [buf0 + 1 + Z.of_nat k];
                   tagPointer := if firstTag v then tagPointer v + 6 else tagPointer v + 2;
                   spaceLeft := u32 (spaceLeft v - (if firstTag v then 24 else 8)); firstTag := false |}
  /\ Z.of_nat (length (bufs v)) = Z.of_nat k + 1.
Proof.
  intros (V1 & V2 & V3 & V4 & V5) Hk. destruct (cr_sector _ R) as [Hs _]. split; [|rewrite V2, length_seqZ; lia].
  split_and!; cbn [descriptor bufs tagPointer spaceLeft firstTag]; [done|..|done].
  - rewrite V2. replace (Z.of_nat (S k) + 1) with (Z.of_nat k + 1 + 1) by lia. rewrite (seqZ_app buf0 (Z.of_nat k + 1) 1) by lia.
    change (seqZ (buf0 + (Z.of_nat k + 1)) 1) with [buf0 + (Z.of_nat k + 1)].
    by replace (buf0 + (Z.of_nat k + 1)) with (buf0 + 1 + Z.of_nat k) by lia.
  - rewrite V3, V5. unfold tagpos. destruct k; [done|]. cbn [Nat.eqb]. zcases; lia.
  - rewrite V4, V5. destruct k; cbn [Nat.eqb]; rewrite u32_id; lia.
Qed.

Lemma commit_step k d s v curr : committing k d s -> vars_at k v -> hs !! k = Some curr -> exists s' v' d',
  commit_loop blockMap t (curr :: drop (S k) hs) v s = commit_loop blockMap t (drop (S k) hs) v' s'
  /\ committing (S k) d' s' /\ vars_at (S k) v' /\ (n <= Z.of_nat k + 2 -> new_dirty (S k) s').
Proof.
  intros C V Eh. pose proof (cr_length _ R) as Ll. pose proof (lookup_lt_Some _ _ _ Eh) as Lk. rewrite Ll in Lk.
  destruct (lookup_lt_is_Some_2 ups k Lk) as [u Eu]. pose proof (cm_desc _ _ _ C) as Dk.
  destruct (vars_next k v V Lk) as [V' Lv]. pose proof V as (V1 & V2 & V3 & V4 & V5).
  destruct (copy_step k d s curr u C Eh Eu) as (s1 & cb & x & E1 & Ecb & Ex & Nx & Enb & K1 & Cm & C1 & U1).
  destruct (put_tag k d s1 u (copies (S k)) Dk Eu) as (d2 & c2 & E2 & C2 & K2 & L2 & Lo2 & T2 & F2); [rewrite U1; apply (cr_uuid _ R)|done|].
  cbn [commit_loop]. unfold start_descriptor. rewrite V1. cbn [bindO].
  destruct (JournalNextLogBlock blockMap s) as [nn sn]. rewrite E1. cbn [bindO]. rewrite Ecb. cbn [bindO]. rewrite Ex. cbn [of_option bindO].
  rewrite Nx, V5, V3. cbn zeta in E2. destruct (store_words buf0 _ _ s1) as [s2| | |] eqn:Es; try (cbn in E2; congruence).
  cbn [bindO] in E2 |- *. rewrite E2. cbn [bindO]. unfold buffer_of at 1. cbn [heads with_bc].
  fold (buffer_of (adr0 + 1 + Z.of_nat k) s1). rewrite Enb. cbn [bindO]. rewrite Lv.
  destruct (Z.leb_spec 64 (Z.of_nat k + 1)); [pose proof (cr_count _ R); lia|]. rewrite <- V3, <- V5.
  set (v' := {| descriptor := _ |}) in *. cbn [bufs spaceLeft v'].
  destruct (_ || _ || _) eqn:Hc.
  2: { (* more than one buffer is left *)
    apply orb_false_iff in Hc as [[_ Hl]%orb_false_iff _]. apply Nat.leb_gt in Hl. rewrite length_drop in Hl.
    exists (with_bc c2 s1), v', d2. split_and!; [done| |done|lia]. apply Cm; [done|].
    eapply desc_words_tag; [exact Dk|done|done|exact Eu|done|]. rewrite F2. f_equal. f_equal.
    - by destruct k.
    - by destruct (Z.leb_spec n (Z.of_nat k + 2)); [lia|]. }
  assert (Hn : n <= Z.of_nat k + 2).
  { apply orb_true_iff in Hc as [[Hc|Hc]%orb_true_iff|Hc].
    - apply Z.eqb_eq in Hc. rewrite length_app in Hc. cbn [length] in Hc. pose proof (cr_count _ R). lia.
    - apply Nat.leb_le in Hc. rewrite length_drop in Hc. lia.
    - apply Z.ltb_lt in Hc. destruct V' as (_ & _ & _ & V4' & _). cbn in V4'. rewrite V4' in Hc. destruct (cr_sector _ R). lia. }
  pose proof (tagpos_bounds (Z.of_nat k) ltac:(lia)) as [Hp1 Hp2]. destruct Dk as (Ld & Dh & Dt).
  destruct (put_last (copies (S k)) d2 (with_bc c2 s1) (tagpos (Z.of_nat k)) (k =? 0)%nat C2) as (d3 & c3 & E3 & C3 & K3 & L3 & Lo3 & F3);
    [lia|rewrite L2, Ld; destruct (Z.of_nat k =? 0); lia|done|].
  rewrite V3. destruct (load_word buf0 _ (with_bc c2 s1)) as [w| | |] eqn:Ew; try (cbn in E3; congruence). cbn [bindO] in E3 |- *.
  rewrite E3. cbn [bindO]. destruct V' as (V1' & V2' & V'). cbn [bufs v'] in V2'. rewrite V2'.
  destruct (write_all_spec ((place pos0, d3) :: copies (S k)) (seqZ buf0 (Z.of_nat (S k) + 1)) (with_bc c3 s1) C3) as (c4 & E4 & C4 & K4 & D4).
  { apply Forall_forall. intros b Hb. apply elem_of_seqZ in Hb. cbn [length]. rewrite copies_length by lia. lia. }
  change (with_bc c3 (with_bc c2 s1)) with (with_bc c3 s1). rewrite E4. cbn [bindO]. exists (with_bc c4 s1), v', d3. split_and!; [done| |done|].
  - apply Cm; [done|]. eapply desc_words_tag; [by split_and!|congruence| |exact Eu| |].
    + intros i Hi. rewrite Lo3 by lia. by apply Lo2.
    + rewrite Lo3 by lia. done.
    + rewrite F3. f_equal. f_equal; [by destruct k|]. by destruct (Z.leb_spec n (Z.of_nat k + 2)); [|lia].
  - intros _ i Hi. apply D4. rewrite elem_of_seqZ. lia.
Qed.

Lemma commit_loop_spec m : forall k d s v, (m + k = length ups)%nat -> committing k d s -> vars_at k v ->
  (k = length ups -> new_dirty k s) -> exists s' d',
  commit_loop blockMap t (drop k hs) v s = Ret s' /\ committing (length ups) d' s' /\ new_dirty (length ups) s'.
Proof.
  pose proof (cr_length _ R) as Ll.
  induction m as [|m IH]; intros k d s v Hm C V D.
  - cbn in Hm. subst k. rewrite drop_ge by lia. exists s, d. split_and!; [done|done|by apply D].
  - destruct (lookup_lt_is_Some_2 hs k) as [curr Eh]; [lia|]. rewrite (drop_S _ curr) by done.
    destruct (commit_step k d s v curr C V Eh) as (s1 & v1 & d1 & -> & C1 & V1 & D1). apply (IH (S k) d1 s1 v1); try done; [lia|].
    intros Hk. apply D1. lia.
Qed.

(** A block of the log that has no buffer yet gets one, with zeros and a
    head. *)
Lemma JournalGetDescriptorBuffer_spec j k f new s : (k <= length ups + 1)%nat -> sectorSize j = sector ->
  jr s = set_head (pos0 + Z.of_nat k) f j ->
  cache_is (bc s0) new (bc s) -> (forall i u, new !! i = Some u -> u.1 <> place (pos0 + Z.of_nat k)) -> exists f' c',
  JournalGetDescriptorBuffer blockMap s = Ret (nextAddr s,
    with_bc c' (with_next (nextAddr s + 1)
      (with_heads (<[nextAddr s := {| buffer := nextBuffer (bc s); transaction := 0; nextTransaction := 0; jlist := 0; jrefs := 1; link := Alone |}]>
                     (heads s))
         (with_jr (set_head (pos0 + Z.of_nat (S k)) f' j) s))))
  /\ cache_is (bc s0) (new ++ [(place (pos0 + Z.of_nat k), zeros s0)]) c' /\ keeps_dirty (bc s) c'.
Proof.
  intros Hk Sj J C Nn. unfold JournalGetDescriptorBuffer. destruct (NextLogBlock_spec j k f s J Hk) as [f' ->].
  set (s1 := with_jr _ s). unfold BlockRead.
  pose proof (fun b => cache_is_inv (bc s0) (cr_fresh _ R) new (bc s) b (cr_chain _ R) C) as Inv.
  destruct (find_buffer_spec (chain (bc s1)) (place (pos0 + Z.of_nat k)) (buffers (bc s1))) as [(b & x & _ & I & E & Eb)|[-> _]].
  { intros b I. destruct (Inv b I) as (x & Ex & _). by eexists. }
  { exfalso. destruct (Inv b I) as (x' & Ex' & [(y & Ic & Ey & By & _)|(i & u & _ & Eu & Bu & _)]);
      change (bc s1) with (bc s) in E; simplify_eq.
    - apply (cr_uncached _ R b y (Z.of_nat k) Ic Ey); [lia|congruence].
    - apply (Nn _ u Eu). congruence. }
  cbn [bindO]. unfold new_buffer. cbv beta iota zeta. cbn [bindO].
  erewrite upd_buffer_eq by (cbn; apply lookup_insert_eq). cbn [bindO].
  erewrite JournalAddHeader_new by (cbn; (apply lookup_insert_eq || done)). change (zeros (with_bc _ s1)) with (zeros s1).
  assert (Ez : zeros s1 = zeros s0) by (unfold zeros, s1; cbn; by rewrite Sj).
  set (x := {| blockNum := place (pos0 + Z.of_nat k); data := zeros s0; dirty := false; privData := nextAddr s |}).
  exists f', (add_buffer x (bc s)). split_and!.
  - f_equal. f_equal. unfold with_bc, set_buffer, set_data, set_privData. cbn -[zeros]. rewrite Ez, !insert_insert_eq. done.
  - by apply (add_buffer_is (bc s0) new (bc s) x).
  - by eapply add_buffer_keeps.
Qed.

Lemma adr0_pos : 0 < adr0.
Proof.
  pose proof (cr_some _ R). pose proof (cr_length _ R). destruct (lookup_lt_is_Some_2 hs 0) as [h Eh].
  - destruct ups; [done|]. cbn in *. lia.
  - destruct (cr_heads _ R 0 h Eh) as [? _]. lia.
Qed.

Lemma start_descriptor_spec : exists s1 v1 d,
  start_descriptor blockMap t {| descriptor := None; bufs := []; tagPointer := 0; spaceLeft := 0; firstTag := false |} s0 = Ret (buf0, v1, s1)
  /\ committing 0 d s1 /\ vars_at 0 v1.
Proof.
  destruct (cr_trans _ R) as (y & Ey & Cl). destruct (cr_sector _ R) as [Hs _]. unfold start_descriptor. cbn [descriptor].
  destruct (JournalGetDescriptorBuffer_spec (jr s0) 0 (free (jr s0)) [] s0) as (f' & c1 & -> & C1 & K1); try done; [lia|..].
  { rewrite Z.add_0_r. by destruct (jr s0). }
  { apply cache_is_start, (cr_fresh _ R). }
  rewrite Z.add_0_r in C1. cbn [app] in C1. cbn [bindO]. unfold buffer_of. cbn [heads with_bc with_next with_heads with_jr].
  rewrite lookup_insert_eq. cbn [of_option bindO buffer]. change (trans (with_bc c1 _)) with (trans s0). rewrite Ey. cbn [of_option bindO].
  set (s1 := with_bc c1 _). assert (9 <= sector / 4) by (apply Z.div_le_lower_bound; lia).
  assert (Lz : Z.of_nat (length (zeros s0)) = sector / 4) by (unfold zeros; rewrite length_replicate; lia).
  destruct (store_desc [] (zeros s0) s1 0 [CpuToBe32 JFS_MAGIC; CpuToBe32 JFS_DESC_BLOCK; CpuToBe32 id] C1) as (d' & c2 & E2 & C2 & K2 & L2 & P2);
    [lia|cbn [length]; lia|].
  rewrite (cl_id _ _ _ _ _ _ _ Cl), u32_id by apply (cr_id _ R). rewrite E2. cbn [bindO length bufs].
  destruct (Z.leb_spec 64 (Z.of_nat 0)); [lia|]. pose proof adr0_pos as Ap.
  edestruct (JournalFileBuffer_new adr0 t JOURN_LOGCTL) as (z & -> & Ez); [done|cbn; apply lookup_insert_eq|done|exact Ey|done|].
  cbn [bindO]. eexists _, _, d'. split; [done|]. split.
  - constructor; cbn.
    + exists f'. f_equal. lia.
    + exists z. rewrite lookup_insert_eq. split; [done|]. rewrite drop_0. eapply added_logctl; done.
    + intros i h Ei. destruct (cr_heads _ R i h Ei) as (Hh & b & x & (w & Ew & M) & Eb & Eu). exists b, x. split; [|done].
      exists w. cbn. by rewrite !lookup_insert_ne by lia.
    + intros i Hi. lia.
    + lia.
    + done.
    + split_and!; [lia| |intros; lia]. cbn [length] in P2. unfold header_at. rewrite !P2 by lia. done.
  - split_and!; cbn; try done. rewrite u32_id; [done|]. destruct Hs. cbn. lia.
Qed.

(** JournalCommitMetadata copies the buffers to the log. *)
Lemma JournalCommitMetadata_spec : exists s' d,
  JournalCommitMetadata blockMap t s0 = Ret s' /\ committing (length ups) d s' /\ new_dirty (length ups) s'.
Proof.
  destruct (cr_trans _ R) as (y & Ey & Cl). unfold JournalCommitMetadata. rewrite Ey. cbn [of_option bindO].
  rewrite (cl_meta _ _ _ _ _ _ _ Cl). destruct start_descriptor_spec as (s1 & v1 & d1 & E1 & C1 & V1).
  pose proof (cr_some _ R). pose proof (cr_length _ R) as Ll.
  destruct (commit_loop_spec (length ups) 0 d1 s1 v1) as (s' & d & E & C & D); [lia|done|done|by destruct ups|].
  exists s', d. split_and!; try done. rewrite drop_0 in E. rewrite <- E.
  assert (length hs <> 0%nat) by (rewrite Ll; destruct ups; [done|cbn; lia]).
  destruct hs as [|h l]; [done|]. cbn [commit_loop]. rewrite E1. cbn [bindO].
  destruct V1 as (V1 & _).
  assert (start_descriptor blockMap t v1 s1 = Ret (buf0, v1, s1)) as -> by (unfold start_descriptor; by rewrite V1). done.
Qed.
(** A head is taken off its list and given back. *)
Lemma drop_head_spec h s x bx new : heads s !! h = Some x -> link x = Linked -> buffers (bc s) !! buffer x = Some bx ->
  cache_is (bc s0) new (bc s) -> exists s',
  (let* s := JournalUnfileBuffer h s in JournalRemoveHeader h s) = Ret s' /\ jr s' = jr s /\ nextAddr s' = nextAddr s
  /\ trans s' = unlink h <$> trans s
  /\ (forall h', h' <> h -> heads s' !! h' = heads s !! h') /\ cache_is (bc s0) new (bc s') /\ keeps_dirty (bc s) (bc s').
Proof.
  intros Ex Lx Eb C. unfold JournalUnfileBuffer. rewrite Ex. cbn [of_option bindO]. rewrite Lx. unfold upd_head. cbn. rewrite Ex. cbn.
  unfold JournalRemoveHeader, upd_head. cbn. rewrite lookup_insert_eq. cbn. rewrite lookup_insert_eq. cbn. rewrite insert_insert_eq.
  destruct (s32 (jrefs x - 1) =? 0).
  - erewrite upd_buffer_eq by exact Eb. cbn. eexists. split_and!; [done|done|done|done|..]; cbn.
    + intros h' N. by rewrite lookup_delete_ne, lookup_insert_ne by done.
    + by eapply set_buffer_same.
    + by eapply set_buffer_keeps.
  - eexists. split_and!; [done|done|done|done|..]; cbn; [|done|apply keeps_dirty_refl].
    intros h' N. by rewrite lookup_insert_ne by done.
Qed.

(** The buffers of the transaction after [i] rounds of JournalWaitForIO. *)
Record waiting (new : list (Z * list Z)) (j : Journal) (i : nat) (s : jstate) : Prop := {
  wt_jr : jr s = j;
  wt_next : adr0 <= nextAddr s;
  wt_trans : exists y, trans s !! t = Some y
    /\ commit_lists y id pos0 [] (drop i hs) (drop i (seqZ (adr0 + 1) n)) (take i hs);
  wt_heads k h : hs !! k = Some h -> exists b x, meta_head s h (if (k <? i)%nat then JOURN_FORGET else JOURN_SHADOW) b
    /\ buffers (bc s0) !! b = Some x /\ ups !! k = Some (blockNum x, data x);
  wt_new k : (i <= k < length ups)%nat -> heads s !! (adr0 + 1 + Z.of_nat k)
    = Some {| buffer := buf0 + 1 + Z.of_nat k; transaction := t; nextTransaction := 0; jlist := JOURN_IO; jrefs := 1; link := Linked |};
  wt_cache : cache_is (bc s0) new (bc s);
}.

Lemma hs_new h k : h ∈ hs -> h <> adr0 + 1 + Z.of_nat k.
Proof. intros (i & Ei)%list_elem_of_lookup. destruct (cr_heads _ R i h Ei) as [? _]. lia. Qed.

Lemma nodup_split i h : hs !! i = Some h -> h ∉ take i hs /\ h ∉ drop (S i) hs.
Proof.
  intros Eh. pose proof (cr_nodup _ R) as Nd. rewrite <- (take_drop_middle hs i h Eh) in Nd.
  apply NoDup_app in Nd as (_ & N & D). apply NoDup_cons in D as [D _]. split; [|done].
  intros I. by apply (N h I), list_elem_of_here.
Qed.

Lemma wait_step new j i s : (i < length ups)%nat -> length new = S (length ups) -> waiting new j i s -> exists c sh s',
  drop i (seqZ (adr0 + 1) n) = c :: drop (S i) (seqZ (adr0 + 1) n) /\ drop i hs = sh :: drop (S i) hs
  /\ (let* s := JournalUnfileBuffer c s in let* s := JournalRemoveHeader c s in JournalFileBuffer sh t JOURN_FORGET s) = Ret s'
  /\ waiting new j (S i) s' /\ keeps_dirty (bc s) (bc s').
Proof.
  intros Hi Ln [Wj Wa (y & Ey & Cl) Wh Wn Wc]. pose proof (cr_length _ R) as Ll.
  destruct (lookup_lt_is_Some_2 hs i) as [sh Eh]; [lia|]. set (c := adr0 + 1 + Z.of_nat i).
  assert (Ec : seqZ (adr0 + 1) n !! i = Some c) by (apply lookup_seqZ; unfold c; lia).
  pose proof (drop_S _ _ _ Ec) as Dc. pose proof (drop_S _ _ _ Eh) as Dh. rewrite Dc, Dh in Cl.
  destruct (lookup_lt_is_Some_2 new (S i)) as [nu En]; [lia|]. destruct (ci_new _ _ _ Wc (S i) nu En) as (bx & Ebx & _).
  destruct (drop_head_spec c s _ bx new (Wn i ltac:(lia))) as (s1 & E1 & J1 & A1 & T1 & H1 & C1 & K1);
    [done|cbn; by replace (buf0 + 1 + Z.of_nat i) with (buf0 + Z.of_nat (S i)) by lia|done|].
  assert (Nc : forall h k, hs !! k = Some h -> h <> c) by (intros h k Ek; apply hs_new; by eapply list_elem_of_lookup_2).
  assert (Nio : forall h k, hs !! k = Some h -> h ∉ drop (S i) (seqZ (adr0 + 1) n)).
  { intros h k Ek I. apply subseteq_drop, elem_of_seqZ in I. destruct (cr_heads _ R k h Ek) as [? _]. lia. }
  destruct (nodup_split i sh Eh) as [N1 N2]. destruct (Wh i sh Eh) as (b & x & (w & Ew & Eb & Tw & Jw & Lw) & Ex & Eu).
  rewrite Nat.ltb_irrefl in Jw. destruct (cr_heads _ R i sh Eh) as [Hsh _].
  apply unlinked_io in Cl.
  2: { intros [Hcs|I]%elem_of_cons; [by apply (Nc sh i Eh)|]. apply subseteq_drop, list_elem_of_lookup in I as [k Ek]. by apply (Nc c k Ek). }
  2: { pose proof (NoDup_seqZ (adr0 + 1) n) as Nd. rewrite <- (take_drop_middle _ i c Ec) in Nd.
       apply NoDup_app in Nd as (_ & _ & Nd). by apply NoDup_cons in Nd as [? _]. }
  2: { intros I. apply subseteq_take, list_elem_of_lookup in I as [k Ek]. by apply (Nc c k Ek). }
  destruct (JournalFileBuffer_move sh t JOURN_FORGET w (unlink c y) s1) as (tr & E2 & Etr); try done || lia.
  { by rewrite (H1 sh) by by eapply Nc. }
  { by rewrite Jw. }
  { by rewrite T1, lookup_fmap, Ey. }
  exists c, sh, (with_trans tr (with_heads (<[sh := set_link JOURN_FORGET Linked w]> (heads s1)) s1)).
  split_and!; [done|done| | |done].
  { destruct (JournalUnfileBuffer c s) as [sa| | |]; try done. cbn [bindO] in E1 |- *. rewrite E1. cbn [bindO]. done. }
  constructor; cbn.
  - congruence.
  - lia.
  - eexists. split; [exact Etr|]. rewrite (take_S_r _ _ sh Eh). apply moved_forget; try done. by eapply Nio.
  - intros k h Ek. destruct (Wh k h Ek) as (b' & x' & (w' & Ew' & M) & Q). exists b', x'. split; [|done].
    destruct (decide (h = sh)) as [->|Nh].
    + assert (k = i) as -> by (eapply NoDup_lookup; [apply (cr_nodup _ R)|done|done]). rewrite Nat.leb_refl.
      exists (set_link JOURN_FORGET Linked w). cbn. rewrite lookup_insert_eq. destruct M as (? & ? & _). simplify_eq. by split_and!.
    + assert (k <> i) by congruence. exists w'. cbn. rewrite lookup_insert_ne, H1 by (try done; by eapply Nc). split; [done|].
      by destruct (Nat.ltb_spec k i), (Nat.leb_spec k i); try lia.
  - intros k Hk. rewrite lookup_insert_ne by (pose proof (cr_heads _ R i sh Eh); lia). rewrite H1 by (unfold c; lia). apply Wn. lia.
  - done.
Qed.

Lemma io_loop_spec new j m : forall i s, (m + i = length ups)%nat -> length new = S (length ups) -> waiting new j i s -> exists s',
  io_loop t (drop i (seqZ (adr0 + 1) n)) (drop i hs) s = Ret s' /\ waiting new j (length ups) s' /\ keeps_dirty (bc s) (bc s').
Proof.
  induction m as [|m IH]; intros i s Hm Ln W.
  - assert (i = length ups) as -> by lia. exists s. rewrite drop_ge by (rewrite length_seqZ; lia). split_and!; [done|done|apply keeps_dirty_refl].
  - destruct (wait_step new j i s) as (c & sh & s1 & -> & -> & E & W1 & K1); [lia|done|done|].
    destruct (IH (S i) s1) as (s2 & E2 & W2 & K2); [lia|done|done|]. exists s2. split_and!; [|done|by eapply keeps_dirty_trans].
    cbn [io_loop]. destruct (JournalUnfileBuffer c s) as [sa| | |]; try done. cbn [bindO] in E |- *.
    destruct (JournalRemoveHeader c sa) as [sb| | |]; try done. cbn [bindO] in E |- *. rewrite E. cbn [bindO]. done.
Qed.

Lemma committing_waiting d s : committing (length ups) d s -> waiting ((place pos0, d) :: copies (length ups)) (jr s) 0 s.
Proof.
  intros [Cj (y & Ey & Cl) Ch Cn Ca Cc Cd]. constructor; try done.
  - lia.
  - exists y. split; [done|]. pose proof (cr_length _ R) as Ll. rewrite drop_ge, take_ge in Cl by lia. done.
  - intros k h Ek. destruct (Ch k h Ek) as (b & x & M & Q). exists b, x. split; [|done].
    apply lookup_lt_Some in Ek. rewrite (cr_length _ R) in Ek. by destruct (Nat.ltb_spec k (length ups)); [|lia].
  - intros k Hk. apply Cn. lia.
Qed.

Lemma JournalWaitForIO_spec d s : committing (length ups) d s -> exists s',
  JournalWaitForIO t s = Ret s' /\ waiting ((place pos0, d) :: copies (length ups)) (jr s) (length ups) s' /\ keeps_dirty (bc s) (bc s').
Proof.
  intros C. pose proof (committing_waiting d s C) as W. unfold JournalWaitForIO. destruct (wt_trans _ _ _ _ W) as (y & Ey & Cl).
  rewrite Ey. cbn [of_option bindO]. rewrite (cl_io _ _ _ _ _ _ _ Cl), (cl_shadow _ _ _ _ _ _ _ Cl).
  apply (io_loop_spec _ _ (length ups) 0); [lia|cbn; by rewrite copies_length|done].
Qed.
(** Words stored in the buffer that came last. *)
Lemma store_last l p d s off ws : cache_is (bc s0) (l ++ [(p, d)]) (bc s) -> 0 <= off ->
  off + Z.of_nat (length ws) <= Z.of_nat (length d) ->
  exists d' c', store_words (buf0 + Z.of_nat (length l)) off ws s = Ret (with_bc c' s) /\ cache_is (bc s0) (l ++ [(p, d')]) c'
    /\ keeps_dirty (bc s) c' /\ length d' = length d /\ forall i, 0 <= i -> zlookup d' i
       = if (off <=? i) && (i <? off + Z.of_nat (length ws)) then zlookup ws (i - off) else zlookup d i.
Proof.
  intros C H0 H1. assert (El : (l ++ [(p, d)]) !! length l = Some (p, d)) by by rewrite list_lookup_middle.
  destruct (ci_new _ _ _ C _ _ El) as (x & Ex & Eb & Ed). cbn in Eb, Ed.
  destruct (store_words_spec _ off ws s x Ex H0) as (d' & E & L & P); [by rewrite Ed|]. rewrite Ed in L, P.
  exists d', (set_buffer (buf0 + Z.of_nat (length l)) (set_data d' x) (bc s)). split_and!; try done.
  - rewrite E. by apply upd_buffer_eq.
  - pose proof (set_buffer_new (bc s0) _ _ _ _ x (set_data d' x) C El Ex) as Q.
    replace (<[length l := _]> (l ++ [(p, d)])) with (l ++ [(p, d')]) in Q
      by (replace (length l) with (length l + 0)%nat by lia; by rewrite insert_app_r).
    by apply Q.
  - by eapply set_buffer_keeps.
Qed.

Lemma commit_headers_spec l p m : forall i d s, cache_is (bc s0) (l ++ [(p, d)]) (bc s) -> 0 <= i -> i mod 512 = 0 ->
  (i + 512 * Z.of_nat m) <= 4 * Z.of_nat (length d) -> exists d' c',
  commit_headers m i (buf0 + Z.of_nat (length l)) id s = Ret (with_bc c' s) /\ cache_is (bc s0) (l ++ [(p, d')]) c'
  /\ keeps_dirty (bc s) c' /\ length d' = length d /\ (forall w, 0 <= w < i / 4 -> zlookup d' w = zlookup d w)
  /\ ((0 < m)%nat -> i = 0 -> header_at d' JFS_COMMIT_BLOCK id).
Proof.
  induction m as [|m IH]; intros i d s C Hi Hm Hl; cbn [commit_headers].
  { exists d, (bc s). split_and!; [by destruct s|done|apply keeps_dirty_refl|done|done|lia]. }
  assert (Hq : i / 4 * 4 = i) by (Z.div_mod_to_equations; lia).
  destruct (store_last l p d s (i / 4) [CpuToBe32 JFS_MAGIC; CpuToBe32 JFS_COMMIT_BLOCK; CpuToBe32 id] C) as (d1 & c1 & -> & C1 & K1 & L1 & P1);
    [apply Z.div_pos; lia|cbn [length]; lia|]. cbn [bindO].
  destruct (IH (i + 512) d1 (with_bc c1 s)) as (d2 & c2 & -> & C2 & K2 & L2 & P2 & _); [done|lia| |lia|].
  { by rewrite Z.add_mod, Hm by lia. }
  assert ((i + 512) / 4 = i / 4 + 128) as Hd by (Z.div_mod_to_equations; lia). rewrite Hd in P2.
  exists d2, c2. assert (0 <= i / 4) by (apply Z.div_pos; lia). cbn [length] in P1.
  split_and!; [done|done|by eapply keeps_dirty_trans|congruence| |].
  - intros w Hw. rewrite P2, P1 by lia. by destruct (Z.leb_spec (i / 4) w); [lia|].
  - intros _ ->. change (0 / 4) with 0 in *. unfold header_at. rewrite !P2, !P1 by lia. done.
Qed.

(** The commit record goes to the log behind the copies. *)
Lemma JournalWriteCommitRecord_spec j f d s y : sectorSize j = sector -> jr s = set_head (pos0 + Z.of_nat (S (length ups))) f j ->
  trans s !! t = Some y -> transId y = id -> cache_is (bc s0) ((place pos0, d) :: copies (length ups)) (bc s) -> exists s' e f',
  JournalWriteCommitRecord blockMap t s = Ret s' /\ jr s' = set_head (pos0 + n + 2) f' j /\ trans s' = trans s
  /\ (forall h, h <> nextAddr s -> heads s' !! h = heads s !! h)
  /\ cache_is (bc s0) (((place pos0, d) :: copies (length ups)) ++ [(place (pos0 + n + 1), e)]) (bc s')
  /\ header_at e JFS_COMMIT_BLOCK id /\ keeps_dirty (bc s) (bc s') /\ dirty_at (buf0 + n + 1) (bc s').
Proof.
  intros Sj J Ey Ei C. unfold JournalWriteCommitRecord. destruct (cr_sector _ R) as [[Hs1 Hs2] Hs3].
  assert (Ln : Z.of_nat (length ((place pos0, d) :: copies (length ups))) = n + 1) by (cbn [length]; rewrite copies_length by lia; lia).
  destruct (JournalGetDescriptorBuffer_spec j (S (length ups)) f _ s ltac:(lia) Sj J C) as (f' & c1 & -> & C1 & K1).
  { intros i u Eu Hp. destruct i as [|i]; cbn in Eu.
    - injection Eu as <-. cbn in Hp. rewrite <- (Z.add_0_r pos0) in Hp at 1. apply (cr_places _ R) in Hp; lia.
    - unfold copies in Eu. apply list_lookup_imap_Some in Eu as (v & Ev & ->). cbn in Hp. rewrite <- Z.add_assoc in Hp.
      apply lookup_lt_Some in Ev. rewrite length_take in Ev. apply (cr_places _ R) in Hp; lia. }
  cbn [bindO]. unfold buffer_of. cbn [heads with_bc with_next with_heads with_jr]. rewrite lookup_insert_eq. cbn [of_option bindO buffer].
  change (trans (with_bc c1 _)) with (trans s). rewrite Ey. cbn [of_option bindO]. rewrite Ei, u32_id by apply (cr_id _ R).
  cbn [jr with_bc with_next with_heads with_jr set_head sectorSize]. rewrite Sj.
  rewrite (ci_next _ _ _ C). set (s1 := with_bc c1 _).
  assert (Lz : Z.of_nat (length (zeros s0)) = sector / 4) by (unfold zeros; rewrite length_replicate; apply Z2Nat.id, Z.div_pos; lia).
  destruct (commit_headers_spec _ (place (pos0 + Z.of_nat (S (length ups)))) (Z.to_nat ((sector + 511) / 512)) 0 (zeros s0) s1 C1)
    as (e & c2 & -> & C2 & K2 & L2 & _ & He); [lia|done|rewrite Lz; Z.div_mod_to_equations; lia|].
  cbn [bindO]. unfold BlockWrite.
  destruct (ci_new _ _ _ C2 (length ((place pos0, d) :: copies (length ups))) (place (pos0 + Z.of_nat (S (length ups))), e)) as (x & Ex & Eb & Ed);
    [by rewrite list_lookup_middle|].
  assert (Hx : dirty_at (buf0 + n + 1) (set_buffer (buf0 + Z.of_nat (length ((place pos0, d) :: copies (length ups)))) (set_dirty true x) c2)).
  { rewrite Ln. replace (buf0 + (n + 1)) with (buf0 + n + 1) by lia. exists (set_dirty true x). split; [apply lookup_insert_eq|done]. }
  rewrite (upd_buffer_eq _ _ (with_bc c2 s1) x Ex). eexists _, e, f'. split_and!; [done|..]; cbn.
  - f_equal. lia.
  - done.
  - intros h Hh. by rewrite lookup_insert_ne by congruence.
  - replace (pos0 + n + 1) with (pos0 + Z.of_nat (S (length ups))) by lia. eapply set_buffer_same; done.
  - apply He; [|done]. assert (1 <= (sector + 511) / 512) by (apply Z.div_le_lower_bound; lia). lia.
  - eapply keeps_dirty_trans; [exact K1|]. eapply keeps_dirty_trans; [exact K2|]. by eapply set_buffer_keeps.
  - exact Hx.
Qed.

(** *** The checkpoint *)

(** The superblock of the journal is in the cache, in one buffer. *)
Definition super_cached (sb : Z) (x : Buffer) : Prop :=
  sb ∈ chain (bc s0) /\ buffers (bc s0) !! sb = Some x /\ blockNum x = place 0 /\ (8 <= length (data x))%nat
  /\ (forall b y, b ∈ chain (bc s0) -> buffers (bc s0) !! b = Some y -> blockNum y = place 0 -> b = sb)
  /\ (forall i, 0 <= i <= n + 1 -> place (pos0 + i) <> place 0).

Lemma write_heads_spec new l : forall s, Forall (fun h => h ∈ hs) l ->
  (forall k h, hs !! k = Some h -> exists b x, meta_head s h JOURN_FORGET b /\ buffers (bc s0) !! b = Some x) ->
  cache_is (bc s0) new (bc s) -> exists c, write_heads l s = Ret (with_bc c s) /\ cache_is (bc s0) new c /\ keeps_dirty (bc s) c.
Proof.
  induction l as [|h l IH]; intros s F Hh C.
  { exists (bc s). split_and!; [by destruct s|done|apply keeps_dirty_refl]. }
  apply Forall_cons in F as [I F]. apply list_elem_of_lookup in I as [k Ek]. destruct (Hh k h Ek) as (b & x & (w & Ew & Eb & _) & Ex).
  destruct (ci_old _ _ _ C b x) as (x' & Ex' & _); [by apply (cr_fresh _ R); eexists|done|].
  cbn [write_heads]. unfold buffer_of. rewrite Ew. cbn [of_option bindO]. rewrite Eb. unfold BlockWrite.
  rewrite (upd_buffer_eq b _ s x' Ex'). cbn [bindO].
  destruct (IH (with_bc (set_buffer b (set_dirty true x') (bc s)) s)) as (c & E & C' & K); [done|done|by eapply set_buffer_same|].
  exists c. rewrite E. split_and!; [done|done|]. eapply keeps_dirty_trans; [|done]. by eapply set_buffer_keeps.
Qed.

Lemma drop_heads_spec new l : forall s y, NoDup l -> Forall (fun h => h ∈ hs) l ->
  (forall h, h ∈ l -> exists b x, meta_head s h JOURN_FORGET b /\ buffers (bc s0) !! b = Some x) ->
  cache_is (bc s0) new (bc s) -> trans s !! t = Some y -> commit_lists y id pos0 [] [] [] l -> exists s' z,
  drop_heads l s = Ret s' /\ jr s' = jr s /\ trans s' !! t = Some z /\ commit_lists z id pos0 [] [] [] []
  /\ cache_is (bc s0) new (bc s') /\ keeps_dirty (bc s) (bc s').
Proof.
  induction l as [|h l IH]; intros s y Nd F Hh C Ey Cl.
  { exists s, y. split_and!; try done. apply keeps_dirty_refl. }
  apply Forall_cons in F as [I F]. apply NoDup_cons in Nd as [N Nd].
  destruct (Hh h ltac:(by left)) as (b & x & (w & Ew & Eb & Tw & Jw & Lw) & Ex).
  destruct (ci_old _ _ _ C b x) as (x' & Ex' & _); [by apply (cr_fresh _ R); eexists|done|].
  destruct (drop_head_spec h s w x' new Ew Lw) as (s1 & E1 & J1 & _ & T1 & H1 & C1 & K1); [by rewrite Eb|done|].
  destruct (IH s1 (unlink h y)) as (s2 & z & E2 & J2 & T2 & Cl2 & C2 & K2); try done.
  - intros h' I'. destruct (Hh h' ltac:(by right)) as (b' & v & (w' & Ew' & M) & Ev). exists b', v. split; [|done].
    exists w'. by rewrite H1 by congruence.
  - by rewrite T1, lookup_fmap, Ey.
  - by apply unlinked_forget.
  - exists s2, z. cbn [drop_heads]. destruct (JournalUnfileBuffer h s) as [sa| | |]; try done. cbn [bindO] in E1 |- *. rewrite E1. cbn [bindO].
    split_and!; try done; [congruence|by eapply keeps_dirty_trans].
Qed.

(** The words of the superblock with a new tail. *)
Definition super_words (d d' : list Z) (sequence start : Z) : Prop :=
  length d' = length d /\ zlookup d' 6 = Some (CpuToBe32 sequence) /\ zlookup d' 7 = Some (CpuToBe32 start)
  /\ forall i, 0 <= i -> i <> 6 -> i <> 7 -> zlookup d' i = zlookup d i.

Lemma JournalUpdateSuperBlock_spec new sb x s : super_cached sb x -> cache_is (bc s0) new (bc s) ->
  (forall i u, new !! i = Some u -> exists k, 0 <= k <= n + 1 /\ u.1 = place (pos0 + k)) -> exists c d x',
  JournalUpdateSuperBlock blockMap s = Ret (with_bc c s) /\ super_words (data x) d (tailSequence (jr s)) (tail (jr s))
  /\ buffers (bc s) !! sb = Some x' /\ blockNum x' = place 0 /\ c = set_buffer sb (set_dirty true (set_data d x')) (bc s).
Proof.
  intros (I & Ex & Bx & Lx & Un & Pl) C Nn. unfold JournalUpdateSuperBlock, BlockRead.
  destruct (ci_old _ _ _ C sb x) as (x' & Ex' & Bx' & Dx'); [by apply (cr_fresh _ R); eexists|done|].
  pose proof (fun b => cache_is_inv (bc s0) (cr_fresh _ R) new (bc s) b (cr_chain _ R) C) as Inv.
  destruct (find_buffer_spec (chain (bc s)) (place 0) (buffers (bc s))) as [(b & y & -> & Ib & Ey & By)|[_ N]].
  { intros b Ib. destruct (Inv b Ib) as (y & Ey & _). by eexists. }
  2: { exfalso. apply (N sb x'); [|done|congruence]. rewrite (ci_chain _ _ _ C). by apply elem_of_app; left. }
  assert (b = sb) as ->.
  { destruct (Inv b Ib) as (y' & Ey' & [(z & Ic & Ez & Bz & _)|(i & u & _ & Eu & Bu & _)]); simplify_eq.
    - apply (Un b z Ic Ez). congruence.
    - exfalso. destruct (Nn _ u Eu) as (k & Hk & Pk). apply (Pl k Hk). congruence. }
  cbn [bindO]. destruct (store_words_spec sb 6 [CpuToBe32 (tailSequence (jr s)); CpuToBe32 (tail (jr s))] s x' Ex') as (d & -> & L & P);
    [lia|cbn [length]; rewrite Dx'; lia|].
  rewrite (upd_buffer_eq _ _ _ _ Ex'). cbn [bindO]. unfold BlockWrite. erewrite upd_buffer_eq by (cbn; apply lookup_insert_eq).
  eexists _, d, x'. split_and!; [done|..]; try done; try congruence.
  - split_and!; [congruence|rewrite P by lia; done|rewrite P by lia; done|]. intros i H0 H6 H7. rewrite P, Dx' by lia.
    cbn [length]. by destruct (Z.leb_spec 6 i), (Z.ltb_spec i (6 + Z.of_nat 2)); try lia.
  - unfold set_buffer. cbn. by rewrite insert_insert_eq.
Qed.

Lemma JournalCheckpoint_spec new sb x s y : t <> 0 -> super_cached sb x -> cache_is (bc s0) new (bc s) ->
  (forall i u, new !! i = Some u -> exists k, 0 <= k <= n + 1 /\ u.1 = place (pos0 + k)) ->
  checkpointTrans (jr s) = [t] -> tailSequence (jr s) = id -> tail (jr s) = pos0 -> committingTrans (jr s) = t ->
  trans s !! t = Some y -> commit_lists y id pos0 [] [] [] hs ->
  (forall k h, hs !! k = Some h -> exists b x, meta_head s h JOURN_FORGET b /\ buffers (bc s0) !! b = Some x) ->
  exists s' c d x', JournalCheckpoint blockMap s = Ret s' /\ cache_is (bc s0) new c /\ keeps_dirty (bc s) c
    /\ bc s' = set_buffer sb (set_dirty true (set_data d x')) c /\ buffers c !! sb = Some x' /\ blockNum x' = place 0
    /\ super_words (data x) d id pos0.
Proof.
  intros Ht Sc C Nn Jc Jt Jl Jm Ey Cl Hh. unfold JournalCheckpoint, JournalCleanupTail. rewrite Jc, Ey. cbn [of_option bindO].
  rewrite (cl_id _ _ _ _ _ _ _ Cl), u32_id, Jt, Z.eqb_refl by apply (cr_id _ R). cbn [bindO Z.leb Z.compare]. rewrite Jc.
  assert (Fh : Forall (fun h => h ∈ hs) hs) by by apply Forall_forall.
  cbn [write_forget]. rewrite Ey. cbn [of_option bindO]. rewrite (cl_forget _ _ _ _ _ _ _ Cl).
  destruct (write_heads_spec new hs s Fh Hh C) as (c1 & -> & C1 & K1). cbn [bindO drop_forget trans with_bc]. rewrite Ey.
  cbn [of_option bindO]. rewrite (cl_forget _ _ _ _ _ _ _ Cl).
  destruct (drop_heads_spec new hs (with_bc c1 s) y) as (s2 & z & -> & J2 & Ez & Cz & C2 & K2); try done; [apply (cr_nodup _ R)|..].
  { intros h (k & Ek)%list_elem_of_lookup. by apply (Hh k). }
  cbn [bindO jr with_jr set_checkpoint checkpointTrans committingTrans trans]. rewrite J2. cbn [jr with_bc]. rewrite Jm.
  rewrite (proj2 (c_true_spec _) Ht), Ez. cbn [of_option bindO]. rewrite (cl_id _ _ _ _ _ _ _ Cz), u32_id by apply (cr_id _ R).
  cbn [tailSequence set_checkpoint]. rewrite Jt, Z.eqb_refl. cbn [bindO].
  set (s3 := with_jr _ s2).
  destruct (JournalUpdateSuperBlock_spec new sb x s3 Sc C2 Nn) as (c & d & x' & -> & Sw & Ex' & Bx' & Ec).
  exists (with_bc c s3), (bc s2), d, x'. split_and!; try done.
  - by eapply keeps_dirty_trans.
  - cbn in Sw. by rewrite Jt, Jl in Sw.
Qed.

(** The whole commit, from the copies to the superblock. *)
Lemma commit_tail_spec sb x : t <> 0 -> super_cached sb x ->
  checkpointTrans (jr s0) = [] -> tailSequence (jr s0) = id -> tail (jr s0) = pos0 -> committingTrans (jr s0) = t ->
  exists s' c d e sd x',
    (let* s := JournalCommitMetadata blockMap t s0 in
     let* s := JournalWaitForIO t s in
     let s := with_jr (set_checkpoint (checkpointTrans (jr s) ++ [t]) (jr s)) s in
     let* s := JournalWriteCommitRecord blockMap t s in
     JournalCheckpoint blockMap s) = Ret s'
    /\ cache_is (bc s0) (((place pos0, d) :: copies (length ups)) ++ [(place (pos0 + n + 1), e)]) c
    /\ desc_words n d /\ header_at e JFS_COMMIT_BLOCK id /\ (forall i, 0 <= i <= n + 1 -> dirty_at (buf0 + i) c)
    /\ bc s' = set_buffer sb (set_dirty true (set_data sd x')) c /\ buffers c !! sb = Some x' /\ blockNum x' = place 0
    /\ super_words (data x) sd id pos0.
Proof.
  intros Ht Sc Jc Jt Jl Jm. destruct JournalCommitMetadata_spec as (s1 & d & -> & C1 & D1). cbn [bindO].
  destruct (JournalWaitForIO_spec d s1 C1) as (s2 & -> & W2 & K2). cbn [bindO]. destruct (cm_jr _ _ _ C1) as [f J1].
  destruct W2 as [J2 A2 (y & Ey & Cl) Wh Wn Wc]. pose proof (cr_length _ R) as Ll. rewrite !drop_ge, take_ge in Cl by (rewrite ?length_seqZ; lia).
  set (s3 := with_jr _ s2). set (j := set_checkpoint [t] (jr s0)).
  destruct (JournalWriteCommitRecord_spec j f d s3 y) as (s4 & e & f' & -> & J4 & T4 & H4 & C4 & He & K4 & D4); try done.
  { unfold s3, j. cbn [jr with_jr]. rewrite J2, J1. replace (pos0 + Z.of_nat (S (length ups))) with (pos0 + 1 + n) by lia.
    unfold set_checkpoint, set_head. cbn [checkpointTrans]. by rewrite Jc. }
  { by apply (cl_id _ _ _ _ _ _ _ Cl). }
  cbn [bindO].
  assert (Nn : forall i u, (((place pos0, d) :: copies (length ups)) ++ [(place (pos0 + n + 1), e)]) !! i = Some u ->
                 exists k, 0 <= k <= n + 1 /\ u.1 = place (pos0 + k)).
  { intros i u [Ei|(_ & Ei)]%lookup_app_Some.
    - destruct i as [|i]; cbn in Ei; [injection Ei as <-; exists 0; rewrite Z.add_0_r; split; [lia|done]|].
      unfold copies in Ei. apply list_lookup_imap_Some in Ei as (v & Ev & ->). apply lookup_lt_Some in Ev. rewrite length_take in Ev.
      exists (1 + Z.of_nat i). split; [lia|]. by rewrite Z.add_assoc.
    - apply list_lookup_singleton_Some in Ei as [_ <-]. exists (n + 1). split; [lia|]. by rewrite Z.add_assoc. }
  destruct (JournalCheckpoint_spec _ sb x s4 y Ht Sc C4 Nn) as (s5 & c & sd & x' & -> & Cc & Kc & Eb & Ex & Bx & Sw);
    try (rewrite J4; done); [by rewrite T4|done| |].
  { intros k h Ek. destruct (Wh k h Ek) as (b & v & (w & Ew & M) & Ev & _). exists b, v. split; [|done]. exists w.
    rewrite H4 by (destruct (cr_heads _ R k h Ek); cbn; lia). split; [done|].
    apply lookup_lt_Some in Ek. rewrite Ll in Ek. by destruct (Nat.ltb_spec k (length ups)); [|lia]. }
  exists s5, c, d, e, sd, x'. split_and!; try done; [apply (cm_desc _ _ _ C1)|].
  intros i Hi. apply Kc. destruct (decide (i = n + 1)) as [->|]; [by rewrite Z.add_assoc|].
  apply K4. change (bc s3) with (bc s2). apply K2. replace i with (Z.of_nat (Z.to_nat i)) by lia. apply D1. lia.
Qed.

End Committing.

(** ** What a commit leaves on the disk *)

Lemma flush_at X (bs : gmap Z Buffer) b x l : forall dk, b ∈ l -> bs !! b = Some x -> dirty x = true -> X (blockNum x) = true ->
  (forall b' x', b' ∈ l -> bs !! b' = Some x' -> blockNum x' = blockNum x -> b' = b) ->
  foldl (flush_buffer X bs) dk l (blockNum x) = data x.
Proof.
  induction l as [|c l IH] using rev_ind; intros dk I E D Hx U; [by apply not_elem_of_nil in I|].
  rewrite foldl_app. cbn [foldl]. unfold flush_buffer at 1.
  assert (IHc : c <> b -> foldl (flush_buffer X bs) dk l (blockNum x) = data x).
  { intros N. apply IH; try done; [|set_solver]. apply elem_of_app in I as [I|I]; [done|set_solver]. }
  destruct (bs !! c) as [y|] eqn:Ec; [|by apply IHc; intros ->; congruence].
  destruct (dirty y && X (blockNum y)) eqn:Ey; [|apply IHc; intros ->; simplify_eq; by rewrite D, Hx in Ey].
  destruct (decide (blockNum y = blockNum x)) as [Eb|Nb].
  - assert (c = b) as -> by (apply (U c y); set_solver). simplify_eq. by rewrite fn_lookup_insert.
  - rewrite fn_lookup_insert_ne by done. apply IHc. intros ->. congruence.
Qed.

Lemma flush_absent X (bs : gmap Z Buffer) m l : forall dk,
  (forall b x, b ∈ l -> bs !! b = Some x -> blockNum x = m -> X m = false) -> foldl (flush_buffer X bs) dk l m = dk m.
Proof.
  induction l as [|c l IH]; intros dk N; [done|]. cbn [foldl]. rewrite IH by set_solver. unfold flush_buffer.
  destruct (bs !! c) as [y|] eqn:Ec; [|done]. destruct (dirty y && X (blockNum y)) eqn:Ey; [|done].
  destruct (decide (blockNum y = m)) as [Eb|Nb]; [|by rewrite fn_lookup_insert_ne].
  rewrite Eb, (N c y) in Ey by (try done; by left). by rewrite andb_false_r in Ey.
Qed.

Section Crash.
Context (blockMap : Z -> Z).
Notation place := (JournalBlockMap blockMap).
Context (s : jstate) (id start sb : Z) (hs : list Z) (ups : list (Z * list Z)) (y : JournalTrans) (xsb : Buffer).
Notation t := (currTransaction (jr s)).
Notation logpos := (head (jr s)).
Notation sector := (sectorSize (jr s)).
Notation n := (Z.of_nat (length ups)).

(** The first transaction since the journal was set up, which has ended and
    can be committed. *)
Record first_commit : Prop := {
  fc_trans : trans s !! t = Some y;
  fc_updates : updates y = 0;
  fc_current : t <> 0;
  fc_ready : commit_ready blockMap s t id hs ups start;
  fc_super : super_cached blockMap s ups sb xsb;
  fc_list : checkpointTrans (jr s) = [];
  fc_sequence : tailSequence (jr s) = id;
  fc_tail : tail (jr s) = logpos;
}.

(** The blocks of the log that the commit writes reach the disk. *)
Definition log_written (X : Z -> bool) : Prop := X (place 0) = true /\ forall i, 0 <= i <= n + 1 -> X (place (logpos + i)) = true.

Definition prepared : jstate :=
  with_trans (<[t := set_logStart logpos (set_state JTRANS_LOCKED y)]> (trans s)) (with_jr (set_commit id 0 t (jr s)) s).

Lemma prepared_ready : first_commit -> commit_ready blockMap prepared t id hs ups logpos.
Proof.
  intros [F1 F2 F3 R _ _ _ _]. destruct R as [(y' & Ey & Cl) R2 R3 R4 R5 R6 R7 R8 R9 R10 R11 R12 R13 R14 R15]. constructor; try done.
  simplify_eq. eexists. split; [apply lookup_insert_eq|]. by destruct Cl.
Qed.

(** The new buffers are those of the blocks of the log, in order. *)
Definition log_buffers (d e : list Z) : list (Z * list Z) :=
  ((place logpos, d) :: copies blockMap s ups (length ups)) ++ [(place (logpos + n + 1), e)].

Lemma log_buffers_at d e i u : log_buffers d e !! i = Some u -> u.1 = place (logpos + Z.of_nat i) /\ (i <= length ups + 1)%nat.
Proof.
  intros [Ei|(L & Ei)]%lookup_app_Some.
  - destruct i as [|i]; cbn [lookup list_lookup] in Ei; [injection Ei as <-; rewrite Z.add_0_r; split; [done|lia]|].
    unfold copies in Ei. cbn in Ei. apply list_lookup_imap_Some in Ei as (v & Ev & ->). apply lookup_lt_Some in Ev. rewrite length_take in Ev.
    split; [|lia]. cbn [fst]. f_equal. lia.
  - apply list_lookup_singleton_Some in Ei as [Hi <-]. cbn [length] in *. rewrite copies_length in * by done.
    split; [|lia]. cbn [fst]. f_equal. lia.
Qed.

Lemma log_buffers_copy d e i u : ups !! i = Some u -> log_buffers d e !! S i = Some (place (logpos + 1 + Z.of_nat i), u.2).
Proof.
  intros E. unfold log_buffers. apply lookup_lt_Some in E as L. rewrite lookup_app_l by (cbn [length]; rewrite copies_length by done; lia).
  change (copies blockMap s ups (length ups) !! i = Some (place (logpos + 1 + Z.of_nat i), u.2)).
  unfold copies. by rewrite list_lookup_imap, take_ge, E by done.
Qed.

Lemma log_buffers_commit d e : log_buffers d e !! S (length ups) = Some (place (logpos + n + 1), e).
Proof.
  unfold log_buffers. replace (S (length ups)) with (length ((place logpos, d) :: copies blockMap s ups (length ups)))
    by (cbn [length]; by rewrite copies_length by done). by rewrite list_lookup_middle.
Qed.

(** The disk after a cache with the new buffers and the superblock has been
    flushed. *)
Lemma log_flushed X c d e sd x' : commit_ready blockMap s t id hs ups start -> super_cached blockMap s ups sb xsb -> log_written X ->
  cache_is (bc s) (log_buffers d e) c -> (forall i, 0 <= i <= n + 1 -> dirty_at (nextBuffer (bc s) + i) c) ->
  buffers c !! sb = Some x' -> blockNum x' = place 0 ->
  let dk := foldl (flush_buffer X (<[sb := set_dirty true (set_data sd x')]> (buffers c))) (disk (bc s)) (chain c) in
  dk (place 0) = sd /\ (forall i u, log_buffers d e !! i = Some u -> dk (place (logpos + Z.of_nat i)) = u.2)
  /\ (forall m, (forall b x, b ∈ chain (bc s) -> buffers (bc s) !! b = Some x -> blockNum x <> m) ->
         (forall i, 0 <= i <= n + 1 -> place (logpos + i) <> m) -> dk m = disk (bc s) m).
Proof.
  intros [_ _ _ _ _ _ _ _ _ _ _ Fr Ch Un Pl] (S1 & S2 & S3 & S4 & S5 & S6) [X0 Xl] C Dy Ex Bx dk.
  set (bs := <[sb := _]> (buffers c)) in dk. assert (Hsb : sb < nextBuffer (bc s)) by (by apply Fr; eexists).
  assert (Inv : forall b x, b ∈ chain c -> bs !! b = Some x ->
            (b = sb /\ blockNum x = place 0) \/ (exists z, b ∈ chain (bc s) /\ buffers (bc s) !! b = Some z /\ blockNum x = blockNum z)
            \/ exists i, b = nextBuffer (bc s) + Z.of_nat i /\ (i <= length ups + 1)%nat /\ blockNum x = place (logpos + Z.of_nat i)).
  { intros b x I. unfold bs. destruct (decide (b = sb)) as [->|Nb]; [rewrite lookup_insert_eq; intros [= <-]; by left|].
    rewrite lookup_insert_ne by done. intros E1. right.
    destruct (cache_is_inv _ Fr _ _ b Ch C I) as (x1 & E2 & [(z & Q)|(i & u & Eb & Eu & Bu & _)]); simplify_eq; [left; naive_solver|right].
    apply log_buffers_at in Eu as [? ?]. exists i. split_and!; [done|done|congruence]. }
  split_and!.
  - rewrite <- Bx. change sd with (data (set_dirty true (set_data sd x'))).
    change (blockNum x') with (blockNum (set_dirty true (set_data sd x'))).
    apply (flush_at X bs sb); [|apply lookup_insert_eq|done|cbn; by rewrite Bx|].
    + rewrite (ci_chain _ _ _ C). by apply elem_of_app; left.
    + cbn. rewrite Bx. intros b z I Ez Bz. destruct (Inv b z I Ez) as [[? _]|[(w & Ic & Ew & Bw)|(i & _ & Li & Bi)]]; [done| |].
      * apply (S5 b w Ic Ew). congruence.
      * exfalso. apply (S6 (Z.of_nat i)); [lia|congruence].
  - intros i u Eu. pose proof (log_buffers_at d e i u Eu) as [Bu Li]. destruct (ci_new _ _ _ C i u Eu) as (x & Exi & Bxi & Dxi).
    destruct (Dy (Z.of_nat i)) as (x2 & E2 & D2); [lia|]. simplify_eq. rewrite <- Bu, <- Bxi, <- Dxi.
    apply (flush_at X bs (nextBuffer (bc s) + Z.of_nat i)); [|unfold bs; by rewrite lookup_insert_ne by lia|done|rewrite Bxi, Bu; apply Xl; lia|].
    + rewrite (ci_chain _ _ _ C). apply elem_of_app; right. apply elem_of_seqZ. apply lookup_lt_Some in Eu. lia.
    + rewrite Bxi, Bu. intros b z I Ez Bz. destruct (Inv b z I Ez) as [[_ ?]|[(w & Ic & Ew & Bw)|(k & -> & Lk & Bk)]].
      * exfalso. apply (S6 (Z.of_nat i)); [lia|congruence].
      * exfalso. apply (Un b w (Z.of_nat i) Ic Ew); [lia|congruence].
      * assert (Z.of_nat k = Z.of_nat i) as -> by (apply Pl; [lia|lia|congruence]). done.
  - intros m Nm Np. apply flush_absent. intros b z I Ez Bz.
    destruct (Inv b z I Ez) as [[-> ?]|[(w & Ic & Ew & Bw)|(i & _ & Li & Bi)]]; exfalso.
    + apply (Nm sb xsb S1 S2). congruence.
    + apply (Nm b w Ic Ew). congruence.
    + apply (Np (Z.of_nat i)); [lia|congruence].
Qed.

Lemma JournalCommitTransaction_disk : first_commit -> exists s', JournalCommitTransaction blockMap s = Ret s'
  /\ forall X, log_written X ->
    let dk := flush X s' in
    super_words (data xsb) (dk (place 0)) id logpos
    /\ desc_words s id ups n (dk (place logpos))
    /\ (forall i u, ups !! i = Some u -> dk (place (logpos + 1 + Z.of_nat i)) = u.2)
    /\ header_at (dk (place (logpos + n + 1))) JFS_COMMIT_BLOCK id
    /\ (forall m, (forall b x, b ∈ chain (bc s) -> buffers (bc s) !! b = Some x -> blockNum x <> m) ->
         (forall i, 0 <= i <= n + 1 -> place (logpos + i) <> m) -> dk m = disk (bc s) m).
Proof.
  intros F. pose proof (prepared_ready F) as R. destruct F as [F1 F2 F3 F4 F5 F6 F7 F8].
  assert (Eid : transId y = id) by (destruct (cr_trans _ _ _ _ _ _ _ F4) as (y' & ? & Cl); simplify_eq; by apply (cl_id _ _ _ _ _ _ _ Cl)).
  destruct (commit_tail_spec blockMap prepared t id hs ups R sb xsb) as (s' & c & d & e & sd & x' & E & C & Dd & He & Dy & Eb & Ex & Bx & Sw); try done.
  exists s'. split.
  { rewrite <- E. unfold JournalCommitTransaction, upd_trans. rewrite F1. cbn [of_option bindO]. rewrite F2. cbn [c_true Z.eqb negb].
    cbn [trans with_trans with_jr]. rewrite lookup_insert_eq. cbn [of_option bindO]. rewrite insert_insert_eq.
    rewrite Eid, u32_id by apply (cr_id _ _ _ _ _ _ _ F4). done. }
  intros X Hx. cbv zeta. unfold flush. rewrite Eb. cbn [chain buffers disk set_buffer]. rewrite (ci_disk _ _ _ C).
  change (disk (bc prepared)) with (disk (bc s)).
  destruct (log_flushed X c d e sd x' F4 F5 Hx C Dy Ex Bx) as (Q1 & Q2 & Q3). split_and!.
  - by rewrite Q1.
  - pose proof (Q2 0%nat _ eq_refl) as Q. rewrite Z.add_0_r in Q. by rewrite Q.
  - intros i u Eu. pose proof (Q2 _ _ (log_buffers_copy d e i u Eu)) as Q. by replace (logpos + 1 + Z.of_nat i) with (logpos + Z.of_nat (S i)) by lia.
  - pose proof (Q2 _ _ (log_buffers_commit d e)) as Q. replace (logpos + n + 1) with (logpos + Z.of_nat (S (length ups))) by lia. by rewrite Q.
  - done.
Qed.
Lemma desc_tags d m : commit_ready blockMap s t id hs ups start -> desc_words s id ups n d -> (0 < m <= length ups)%nat ->
  (length ups = 1%nat \/ length ups = S m) -> tags_at sector d 3 true (take m ups).
Proof.
  intros R (_ & _ & T) Hm Hn. change 3 with (tagpos (Z.of_nat 0)). change true with (Z.of_nat 0 =? 0).
  replace (take m ups) with (drop 0 (take m ups)) by done. assert (Hj : (0 < m)%nat) by lia. revert Hj.
  remember (m - 0)%nat as r eqn:Er. revert Er. generalize 0%nat as j. induction r as [|r IH]; intros j Er Hj; [lia|].
  destruct (lookup_lt_is_Some_2 ups j) as [[b c] Eu]; [lia|].
  assert (Et : take m ups !! j = Some (b, c)) by by rewrite lookup_take_lt by lia.
  rewrite (drop_S _ _ _ Et). destruct (T j (b, c)) as [T1 T2]; [lia|done|].
  assert (Hb : tagpos (Z.of_nat j) + 2 <= sector / 4).
  { destruct (cr_sector _ _ _ _ _ _ _ R) as [Hs _]. assert (13 + 2 * n <= sector / 4) by (apply Z.div_le_lower_bound; lia).
    unfold tagpos. zcases; lia. }
  pose proof (Z.mul_div_le sector 4 ltac:(lia)). cbn [tags_at fst] in *. split_and!; try done.
  - apply (Forall_lookup_1 _ _ _ _ (cr_words _ _ _ _ _ _ _ R) Eu).
  - lia.
  - rewrite T2. f_equal. f_equal. case_bool_decide as Hd.
    + assert (length (drop (S j) (take m ups)) = 0%nat) as L by by rewrite Hd. rewrite length_drop, length_take in L.
      apply Z.leb_le. lia.
    + apply Z.leb_gt. destruct (decide (S j < m)%nat); [lia|]. destruct Hd. apply drop_ge. rewrite length_take. lia.
  - intros Hd. assert (S j < m)%nat by (destruct (decide (S j < m)%nat); [done|]; destruct Hd; apply drop_ge; rewrite length_take; lia).
    specialize (IH (S j) ltac:(lia) ltac:(lia)).
    assert ((if Z.of_nat j =? 0 then tagpos (Z.of_nat j) + 6 else tagpos (Z.of_nat j) + 2) = tagpos (Z.of_nat (S j))) as ->
      by (unfold tagpos; zcases; lia). done.
Qed.

Lemma blocks_at_lookup dk l : forall pos, (forall i u, l !! i = Some u -> dk (place (pos + Z.of_nat i)) = u.2) -> blocks_at blockMap dk pos l.
Proof.
  induction l as [|[b c] l IH]; intros pos E; [done|]. split.
  - specialize (E 0%nat _ eq_refl). by rewrite Z.add_0_r in E.
  - apply IH. intros i u Eu. rewrite <- (E (S i) u Eu). do 2 f_equal. lia.
Qed.

(** The superblock and the descriptor that recovery finds. *)
Lemma recovery_start X maxLen first s' m : first_commit -> log_written X -> JournalCommitTransaction blockMap s = Ret s' ->
  zlookup (data xsb) 4 = Some (CpuToBe32 maxLen) -> zlookup (data xsb) 5 = Some (CpuToBe32 first) -> is_word maxLen -> is_word first ->
  (0 < m <= length ups)%nat -> (length ups = 1%nat \/ length ups = S m) ->
  let dk := flush X s' in
  superblock_at (dk (place 0)) maxLen first id logpos /\ header_at (dk (place logpos)) JFS_DESC_BLOCK id
  /\ tags_at sector (dk (place logpos)) 3 true (take m ups) /\ blocks_at blockMap dk (logpos + 1) (take m ups).
Proof.
  intros F Hx E M4 M5 W4 W5 Hm Hn. cbv zeta. destruct (JournalCommitTransaction_disk F) as (s1 & E1 & Q).
  assert (s1 = s') as -> by congruence.
  destruct (Q X Hx) as ((_ & S6 & S7 & Sr) & Dw & Cp & _). pose proof (fc_ready F) as R. pose proof (cr_head _ _ _ _ _ _ _ R).
  split; [|split; [by destruct Dw as (_ & ? & _)|split]].
  - unfold superblock_at. rewrite !Sr by lia. split_and!; try done; [apply (cr_id _ _ _ _ _ _ _ R)|unfold is_word; lia].
  - by apply desc_tags.
  - apply blocks_at_lookup. intros i u Eu. apply Cp. apply lookup_take_Some in Eu as [? _]. done.
Qed.

End Crash.

(** C5: A crash after the first transaction since the journal was opened is recovered from,
    when that transaction changed exactly one buffer: once the log and the superblock of the
    journal have reached the disk, then whichever other dirty blocks were written, mounting
    again gives the block the contents it had at the commit and changes no other block.  (With
    two or more buffers the last one is lost, JournalCommit.commit_loses_last.) *)
Theorem commit_survives_crash blockMap s id start sb h b d y xsb X maxLen first size fuel :
  let place := JournalBlockMap blockMap in let pos := head (jr s) in
  first_commit blockMap s id start sb [h] [(b, d)] y xsb -> log_written blockMap s [(b, d)] X ->
  zlookup (data xsb) 4 = Some (CpuToBe32 maxLen) -> zlookup (data xsb) 5 = Some (CpuToBe32 first) ->
  is_word maxLen -> is_word first -> pos <> 0 -> s32 (place 0) <> -1 -> id + 1 < 2 ^ 32 ->
  pos + 3 < Z.min maxLen (size / sectorSize (jr s)) -> ~ log_blocks blockMap pos 3 b ->
  (forall c x, c ∈ chain (bc s) -> buffers (bc s) !! c = Some x -> blockNum x <> place (pos + 3)) ->
  (forall i, 0 <= i <= 2 -> place (pos + i) <> place (pos + 3)) -> log_ends (disk (bc s) (place (pos + 3))) (id + 1) ->
  (2 < fuel)%nat ->
  exists s' s'', JournalCommitTransaction blockMap s = Ret s'
    /\ JournalCreate blockMap fuel size (sectorSize (jr s)) (booted (flush X s')) = Ret (true, s'')
    /\ flush (fun _ => true) s'' = <[b := d]> (flush X s') /\ transSequence (jr s'') = id + 1.
Proof.
  cbv zeta. intros F Hx M4 M5 W4 W5 Hp Hs Hi Hm Nb Nc Np Le Hf.
  destruct (JournalCommitTransaction_disk _ _ _ _ _ _ _ _ _ F) as (s' & E & Q). destruct (Q X Hx) as (_ & _ & _ & Hc & Rest).
  destruct (recovery_start _ _ _ _ _ _ _ _ _ X maxLen first s' 1 F Hx E) as (Sb & Hd & Ht & Hb); try done; [cbn; lia|by left|].
  pose proof (fc_ready _ _ _ _ _ _ _ _ _ F) as R. destruct (cr_sector _ _ _ _ _ _ _ R) as [Hsec _].
  destruct (JournalCreate_recovers blockMap (flush X s') maxLen first id (head (jr s)) [Desc [(b, d)]; Commit] size (sectorSize (jr s)) fuel)
    as (s'' & Ec & Fl & Ts & _); try done.
  - lia.
  - cbn [log_at length]. split_and!; try done.
    replace (head (jr s) + 1 + Z.of_nat 1 + 1) with (head (jr s) + 3) by lia. rewrite Rest; [done|done|].
    intros i Hi'. apply Np. cbn in Hi'. lia.
  - by repeat constructor.
  - exists s', s''. split_and!; try done.
Qed.

(** C37: when a transaction has several buffers, its second last tag is marked as the last one:
    recovery takes the copy of the last buffer for the next header, leaves that block as it was and
    does not count the transaction as committed.  (For the first
    transaction since the journal was opened, described in one block.) *)
Theorem commit_loses_last blockMap s id start sb hs ups y xsb X maxLen first size fuel m b d :
  let place := JournalBlockMap blockMap in let pos := head (jr s) in
  first_commit blockMap s id start sb hs ups y xsb -> log_written blockMap s ups X ->
  zlookup (data xsb) 4 = Some (CpuToBe32 maxLen) -> zlookup (data xsb) 5 = Some (CpuToBe32 first) ->
  is_word maxLen -> is_word first -> pos <> 0 -> s32 (place 0) <> -1 ->
  length ups = S m -> (0 < m)%nat -> ups !! m = Some (b, d) -> log_ends d id ->
  pos + Z.of_nat (S m) < Z.min maxLen (size / sectorSize (jr s)) ->
  Forall (fun u => ~ log_blocks blockMap pos (Z.of_nat (S m)) u.1) ups -> (1 < fuel)%nat ->
  exists s' s'', JournalCommitTransaction blockMap s = Ret s'
    /\ JournalCreate blockMap fuel size (sectorSize (jr s)) (booted (flush X s')) = Ret (true, s'')
    /\ flush (fun _ => true) s'' = replayed (take m ups) (flush X s') /\ transSequence (jr s'') = id.
Proof.
  cbv zeta. intros F Hx M4 M5 W4 W5 Hp Hs Hl Hm Eb Le Hn Nb Hf.
  destruct (JournalCommitTransaction_disk _ _ _ _ _ _ _ _ _ F) as (s' & E & Q). destruct (Q X Hx) as (_ & _ & Cp & _ & _).
  destruct (recovery_start _ _ _ _ _ _ _ _ _ X maxLen first s' m F Hx E) as (Sb & Hd & Ht & Hb); try done; [lia|by right|].
  pose proof (fc_ready _ _ _ _ _ _ _ _ _ F) as R. destruct (cr_sector _ _ _ _ _ _ _ R) as [Hsec _]. pose proof (cr_id _ _ _ _ _ _ _ R) as [_ Hid].
  assert (Lt : length (take m ups) = m) by (rewrite length_take; lia).
  destruct (JournalCreate_recovers blockMap (flush X s') maxLen first id (head (jr s)) [Desc (take m ups)] size (sectorSize (jr s)) fuel)
    as (s'' & Ec & Fl & Ts & _); try done.
  - lia.
  - cbn [log_at]. rewrite Lt. split_and!; try done. by rewrite (Cp m (b, d) Eb).
  - cbn [log_length]. rewrite Lt. lia.
  - cbn [updates_of log_length]. rewrite app_nil_r, Lt. apply Forall_take.
    replace (1 + Z.of_nat m + 0) with (Z.of_nat (S m)) by lia. done.
  - cbn [commits]. lia.
  - exists s', s''. cbn [updates_of commits] in *. rewrite app_nil_r in Fl. rewrite Z.add_0_r in Ts. by split_and!.
Qed.

(** ** A journal with one transaction *)

Module Demo.
Definition place (n : Z) : Z := 100 + n.
Definition super : list Z :=
  [CpuToBe32 JFS_MAGIC; CpuToBe32 4; 0; CpuToBe32 512; CpuToBe32 64; CpuToBe32 1; CpuToBe32 7; 0] ++ replicate 120 0.
Definition disk0 (n : Z) : list Z := if n =? 100 then super else replicate 128 n.

(** A handle that changes word 3 of the blocks [ns]. *)
Fixpoint change (h : Z) (ns : list Z) (s : jstate) : outcome jstate :=
  match ns with
  | [] => Ret s
  | n :: ns =>
      let* (b, s) := BlockRead n s in
      let* (_, s) := JournalGetWriteAccess h b s in
      let* s := store_words b 3 [77] s in
      let* (_, s) := JournalDirtyMetadata h b s in
      change h ns s
  end.
Definition run (ns : list Z) : outcome jstate :=
  let* (_, s) := JournalCreate place 9 32768 512 (booted disk0) in
  let* (h, s) := JournalStart 10 s in
  let* s := change h ns s in
  let* (_, s) := JournalStop place 0 h s in Ret s.
Definition state_of (o : outcome jstate) : jstate := match o with Ret s => s | _ => booted disk0 end.

Definition one : jstate := state_of (run [5]).
Definition three : jstate := state_of (run [5; 6; 7]).
Definition changed (n : Z) : list Z := <[3%nat := 77]> (replicate 128 n).
Definition logs_only (n : Z) : bool := 100 <=? n.

(** Facts about concrete maps, checked by evaluation. *)
Lemma all_keys {A} (m : gmap Z A) k : forallb (fun p => p.1 <? k) (map_to_list m) = true -> forall b, is_Some (m !! b) -> b < k.
Proof.
  intros F b [x E]. rewrite forallb_forall in F. apply elem_of_map_to_list, list_elem_of_In, F in E. by apply Z.ltb_lt in E.
Qed.
Lemma all_cached (l : list Z) (bs : gmap Z Buffer) (f : Z -> Buffer -> bool) :
  forallb (fun b => match bs !! b with Some x => f b x | None => false end) l = true ->
  (forall b, b ∈ l -> is_Some (bs !! b)) /\ forall b x, b ∈ l -> bs !! b = Some x -> f b x = true.
Proof.
  intros F. rewrite forallb_forall in F. split.
  - intros b I%list_elem_of_In%F. destruct (bs !! b); [by eexists|done].
  - intros b x I%list_elem_of_In%F E. by rewrite E in I.
Qed.

Lemma place_eq n : 0 <= n < 100 -> JournalBlockMap place n = 100 + n.
Proof. intros. unfold JournalBlockMap, place. apply u32_id. lia. Qed.

(** The first transaction of the journal above, with the buffers 2, 3, ... of
    the blocks 5, 6, ... *)
Lemma demo_first_commit s hs ups y xsb :
  head (jr s) = 1 -> sectorSize (jr s) = 512 -> length (uuid (jr s)) = 4%nat -> nextAddr s < 100 ->
  tail (jr s) = 1 -> tailSequence (jr s) = 8 -> checkpointTrans (jr s) = [] -> currTransaction (jr s) = 2 ->
  trans s !! 2 = Some y -> updates y = 0 -> commit_lists y 8 0 hs [] [] [] ->
  Forall2 (fun h u => 0 < h < nextAddr s /\ exists x b z, heads s !! h = Some x /\ buffer x = b /\ transaction x <> 0
    /\ jlist x = JOURN_METADATA /\ link x = Linked /\ buffers (bc s) !! b = Some z /\ u = (blockNum z, data z)) hs ups ->
  NoDup hs -> ups <> [] -> (length ups <= 3)%nat -> Forall (fun u => is_word u.1) ups ->
  forallb (fun p => p.1 <? nextBuffer (bc s)) (map_to_list (buffers (bc s))) = true ->
  forallb (fun b => match buffers (bc s) !! b with Some x => (blockNum x <? 100) || ((blockNum x =? 100) && (b =? 1)) | None => false end)
    (chain (bc s)) = true ->
  1 ∈ chain (bc s) -> buffers (bc s) !! 1 = Some xsb -> blockNum xsb = 100 -> (8 <= length (data xsb))%nat ->
  first_commit place s 8 0 1 hs ups y xsb.
Proof.
  intros H1 H2 H3 H4 H5 H6 H7 H8 Ey Uy Cl Hh Nd Ne Ln Wd Kb Ch I1 E1 B1 L1. pose proof (all_cached _ _ _ Ch) as [Ch1 Ch2].
  assert (Lh : length hs = length ups) by by eapply Forall2_length.
  assert (Bk : forall b x, b ∈ chain (bc s) -> buffers (bc s) !! b = Some x -> blockNum x < 100 \/ (blockNum x = 100 /\ b = 1)).
  { intros b x I E. specialize (Ch2 b x I E). apply orb_true_iff in Ch2 as [?%Z.ltb_lt|[?%Z.eqb_eq ?%Z.eqb_eq]%andb_true_iff]; auto. }
  constructor; rewrite ?H1, ?H8; try done.
  - constructor; rewrite ?H1, ?H2, ?H8; try done; try lia.
    + by exists y.
    + intros i h Ei. destruct (Forall2_lookup_l _ _ _ _ _ Hh Ei) as (u & Eu & Hr & x & b & z & Q). split; [done|].
      destruct Q as (Q1 & Q2 & Q3 & Q4 & Q5 & Q6 & ->). exists b, z. split; [by exists x|done].
    + split; [lia|done].
    + by apply all_keys.
    + intros b x i I E Hi. rewrite place_eq by lia. destruct (Bk b x I E); lia.
    + intros i j Hi Hj. rewrite !place_eq by lia. lia.
  - unfold super_cached. rewrite H1. split_and!; try done.
    + intros b z I E. rewrite place_eq by lia. destruct (Bk b z I E); lia.
    + intros i Hi. rewrite !place_eq by lia. lia.
Qed.

Definition no_trans : JournalTrans :=
  {| state := 0; transId := 0; outstandingBlocks := 0; expires := 0; logStart := 0; updates := 0; handleCount := 0;
     reservedList := []; metaDataList := []; logControlList := []; shadowList := []; ioList := []; forgetList := [] |}.
Definition trans_of (s : jstate) : JournalTrans := default no_trans (trans s !! 2).
Definition super_of (s : jstate) : Buffer :=
  default {| blockNum := 0; data := []; dirty := false; privData := 0 |} (buffers (bc s) !! 1).
Definition head_of (h : Z) (s : jstate) : JournalHead :=
  default {| buffer := 0; transaction := 0; nextTransaction := 0; jlist := 0; jrefs := 0; link := Alone |} (heads s !! h).
Definition buffer_of_head (h : Z) (s : jstate) : Buffer := default (super_of s) (buffers (bc s) !! buffer (head_of h s)).

(** The heads of the changed buffers, checked by evaluation. *)
Ltac meta_heads s :=
  repeat match goal with
  | |- Forall2 _ [] [] => constructor
  | |- Forall2 _ (?h :: _) (_ :: _) =>
      constructor; [split; [split; vm_compute; reflexivity|];
        exists (head_of h s), (buffer (head_of h s)), (buffer_of_head h s);
        split_and!; try match goal with |- _ = _ => vm_compute; reflexivity end; vm_compute; discriminate|]
  end.
Ltac demo_ready s :=
  apply demo_first_commit;
  try match goal with |- _ = _ => vm_compute; reflexivity | |- _ < _ => vm_compute; reflexivity end;
  [constructor; vm_compute; reflexivity | meta_heads s
  | refine (bool_decide_eq_true_1 _ _); vm_compute; reflexivity | discriminate
  | apply Nat.leb_le; vm_compute; reflexivity | repeat (constructor; [split; vm_compute; [discriminate|reflexivity]|]); constructor
  | refine (bool_decide_eq_true_1 _ _); vm_compute; reflexivity | apply Nat.leb_le; vm_compute; reflexivity].

Lemma one_first : first_commit place one 8 0 1 [3] [(5, changed 5)] (trans_of one) (super_of one).
Proof. demo_ready one. Qed.
Lemma three_first : first_commit place three 8 0 1 [3; 4; 5] [(5, changed 5); (6, changed 6); (7, changed 7)] (trans_of three) (super_of three).
Proof. demo_ready three. Qed.

Lemma one_head : head (jr one) = 1.
Proof. vm_compute. reflexivity. Qed.
Lemma three_head : head (jr three) = 1.
Proof. vm_compute. reflexivity. Qed.

Lemma demo_written s ups : head (jr s) = 1 -> (length ups <= 3)%nat -> log_written place s ups logs_only.
Proof.
  intros Hh L. split; [rewrite place_eq by lia; done|]. intros i Hi. rewrite Hh, place_eq by lia. unfold logs_only. apply Z.leb_le. lia.
Qed.
Lemma demo_outside k n : 0 <= k < 90 -> n < 100 -> ~ log_blocks place 1 k n.
Proof. intros Hk Hn [E|(i & Hi & E)]; rewrite place_eq in E by lia; lia. Qed.

Ltac evaluate :=
  try match goal with
  | |- _ = _ => vm_compute; reflexivity
  | |- _ < _ => vm_compute; reflexivity
  | |- _ <= _ => vm_compute; discriminate
  | |- is_word _ => split; vm_compute; (discriminate || reflexivity)
  | |- _ <> _ => vm_compute; discriminate
  end.

(** Witness. *)
Lemma commit_survives_crash_witness : exists s' s'', JournalCommitTransaction place one = Ret s'
  /\ JournalCreate place 9 32768 (sectorSize (jr one)) (booted (flush logs_only s')) = Ret (true, s'')
  /\ flush (fun _ => true) s'' = <[5 := changed 5]> (flush logs_only s') /\ transSequence (jr s'') = 8 + 1.
Proof.
  apply (commit_survives_crash place one 8 0 1 3 5 (changed 5) (trans_of one) (super_of one) logs_only 64 1 32768 9);
    evaluate.
  - exact one_first.
  - by apply demo_written; [exact one_head|cbn; lia].
  - rewrite one_head. apply demo_outside; lia.
  - rewrite one_head, place_eq by lia. intros c x I E.
    pose proof (proj2 (all_cached (chain (bc one)) (buffers (bc one)) (fun _ x => blockNum x <? 104) ltac:(vm_compute; reflexivity)) c x I E) as B.
    apply Z.ltb_lt in B. lia.
  - intros i Hi. rewrite one_head, !place_eq by lia. lia.
  - exists 104, 104, 104. split_and!; evaluate. vm_compute. discriminate.
  - lia.
Defined.

Lemma commit_loses_last_witness : exists s' s'', JournalCommitTransaction place three = Ret s'
  /\ JournalCreate place 9 32768 (sectorSize (jr three)) (booted (flush logs_only s')) = Ret (true, s'')
  /\ flush (fun _ => true) s'' = replayed (take 2 [(5, changed 5); (6, changed 6); (7, changed 7)]) (flush logs_only s')
  /\ transSequence (jr s'') = 8.
Proof.
  apply (commit_loses_last place three 8 0 1 [3; 4; 5] [(5, changed 5); (6, changed 6); (7, changed 7)] (trans_of three) (super_of three)
    logs_only 64 1 32768 9 2 7 (changed 7)); evaluate.
  - exact three_first.
  - by apply demo_written; [exact three_head|cbn; lia].
  - lia.
  - exists 7, 7, 7. split_and!; evaluate. vm_compute. discriminate.
  - rewrite three_head. repeat constructor; apply demo_outside; cbn; lia.
  - lia.
Defined.

(** A log of two transactions, written by hand. *)
Definition header (ty id : Z) : list Z := [CpuToBe32 JFS_MAGIC; CpuToBe32 ty; CpuToBe32 id].
Definition log_disk (n : Z) : list Z :=
  if n =? 100 then [0; 0; 0; 0; CpuToBe32 64; CpuToBe32 1; CpuToBe32 7; CpuToBe32 1] ++ replicate 120 0
  else if n =? 101 then header JFS_DESC_BLOCK 7
    ++ [CpuToBe32 5; tag_flags true false; 0; 0; 0; 0; CpuToBe32 6; tag_flags false true] ++ replicate 117 0
  else if n =? 104 then header JFS_COMMIT_BLOCK 7 ++ replicate 125 0
  else if n =? 105 then header JFS_DESC_BLOCK 8 ++ [CpuToBe32 5; tag_flags true true] ++ replicate 123 0
  else replicate 128 n.

Lemma JournalCreate_recovers_witness : exists s, JournalCreate place 9 32768 512 (booted log_disk) = Ret (true, s)
  /\ flush (fun _ => true) s = replayed [(5, replicate 128 102); (6, replicate 128 103); (5, replicate 128 106)] log_disk
  /\ transSequence (jr s) = 8 /\ head (jr s) = 1 /\ checkpointTrans (jr s) = [] /\ currTransaction (jr s) = 0.
Proof.
  apply (JournalCreate_recovers place log_disk 64 1 7 1
    [Desc [(5, replicate 128 102); (6, replicate 128 103)]; Commit; Desc [(5, replicate 128 106)]] 32768 512 9); evaluate.
  - split_and!; evaluate.
  - cbn [log_at tags_at blocks_at length]. unfold header_at. split_and!; evaluate.
    + intros _. split_and!; evaluate. done.
    + done.
    + done.
    + done.
    + exists 107, 107, 107. split_and!; evaluate. vm_compute. discriminate.
  - repeat constructor; apply demo_outside; cbn; lia.
  - vm_compute. lia.
Defined.

End Demo.
