(* ===== verification/Socket.v ===== *)
(** * Local sockets (net/socket.c, net/local.c)

    A server socket is bound to a name and listens; a client that connects
    is put on the list of waiting sockets of the server; accepting takes one
    from there and makes a child of the server, and the child and the client
    become each other's peers.  What one of them sends is appended to the
    queue of packets of the other.

    A socket is what struct Socket and its struct LocalSockInfo hold; the
    lists of sockets and packets are sequences (LList).  A descriptor is
    [None] when its entry is free, and otherwise the socket of its vNode,
    0 for NULL.  A call that has to wait returns [Wait] with the state it
    waits in.  [alloc] is the address MemCacheAlloc gives for a new socket,
    [stale] the state found in that memory, which SocketCreate does not set.
    Access to a socket that was freed is a [Fault]. *)

From S2P Require Import CString Prelude Vmm.

(** ** Model *)

Definition EFAMILY : Z := 24.
Definition ESOCKTYPE : Z := 25.
Definition EOPNOTSUPP : Z := 26.
Definition ECONNRESET : Z := 27.

Definition POLL_IN : Z := 1.
Definition POLL_OUT : Z := 2.
Definition POLL_ERR : Z := 4.
Definition PF_LOCAL : Z := 0.
Definition NET_FAMILIES_MAX : Z := 5.
Definition SOCKET_STATE_FREE : Z := 0.
Definition SOCKET_STATE_BOUND : Z := 1.
Definition SOCKET_STATE_ACCEPTING : Z := 2.
Definition SOCKET_STATE_WAITING : Z := 3.
Definition SOCKET_STATE_CONNECTED : Z := 4.
Definition SOCKET_TYPE_STREAM : Z := 0.
Definition SOCKET_TYPE_SERVER : Z := 2 ^ 31.
Definition SOCKET_DATA_LENGTH : Z := 20.

Record SocketBuffer := {
  length_ : Z;
  read : Z;
  data : list Z;
}.

(** [addr] is the name in the address. *)
Record Socket := {
  state : Z;
  family : Z;
  type : Z;
  addr : list Z;
  recvPackets : list SocketBuffer;
  childSocks : list Z;
  parent : Z;
  peer : Z;
  waitingSocks : list Z;
}.

(** [families] says which entries of socketOps are registered; they are
    those of the local sockets. *)
Record net := {
  sockets : gmap Z Socket;
  localListenSockets : list Z;
  files : list (option Z);
  families : list bool;
}.

Inductive result (A : Type) := Done (a : A) | Wait.
Arguments Done {A} a.
Arguments Wait {A}.

Definition with_sockets f (n : net) : net :=
  {| sockets := f; localListenSockets := localListenSockets n; files := files n; families := families n |}.
Definition with_listen l (n : net) : net :=
  {| sockets := sockets n; localListenSockets := l; files := files n; families := families n |}.
Definition with_files l (n : net) : net :=
  {| sockets := sockets n; localListenSockets := localListenSockets n; files := l; families := families n |}.
Definition set_state v (s : Socket) : Socket :=
  {| state := v; family := family s; type := type s; addr := addr s; recvPackets := recvPackets s;
     childSocks := childSocks s; parent := parent s; peer := peer s; waitingSocks := waitingSocks s |}.
Definition set_type v (s : Socket) : Socket :=
  {| state := state s; family := family s; type := v; addr := addr s; recvPackets := recvPackets s;
     childSocks := childSocks s; parent := parent s; peer := peer s; waitingSocks := waitingSocks s |}.
Definition set_packets l (s : Socket) : Socket :=
  {| state := state s; family := family s; type := type s; addr := addr s; recvPackets := l;
     childSocks := childSocks s; parent := parent s; peer := peer s; waitingSocks := waitingSocks s |}.
Definition set_children l (s : Socket) : Socket :=
  {| state := state s; family := family s; type := type s; addr := addr s; recvPackets := recvPackets s;
     childSocks := l; parent := parent s; peer := peer s; waitingSocks := waitingSocks s |}.
Definition set_peer p (s : Socket) : Socket :=
  {| state := state s; family := family s; type := type s; addr := addr s; recvPackets := recvPackets s;
     childSocks := childSocks s; parent := parent s; peer := p; waitingSocks := waitingSocks s |}.
Definition set_waiting l (s : Socket) : Socket :=
  {| state := state s; family := family s; type := type s; addr := addr s; recvPackets := recvPackets s;
     childSocks := childSocks s; parent := parent s; peer := peer s; waitingSocks := l |}.

Definition get (p : Z) (n : net) : outcome Socket := of_option (sockets n !! p).
Definition put (p : Z) (s : Socket) (n : net) : net := with_sockets (<[p := s]> (sockets n)) n.
Definition update (f : Socket -> Socket) (p : Z) (n : net) : outcome net :=
  let* s := get p n in Ret (put p (f s) n).

Definition LocalSetPeer (first second : Z) (n : net) : outcome net :=
  if first =? 0 then Ret n else update (set_peer second) first n.

(** The address has the room for the name of the caller. *)
Definition LocalBind (p : Z) (name : list Z) (n : net) : outcome (Z * net) :=
  let* n := update (fun s => {| state := state s; family := family s; type := type s; addr := name;
    recvPackets := recvPackets s; childSocks := childSocks s; parent := parent s; peer := peer s; waitingSocks := [] |}) p n in
  Ret (0, n).

(** The search for the server. *)
Fixpoint find_server (l : list Z) (name : list Z) (n : net) : outcome Z :=
  match l with
  | [] => Ret 0
  | curr :: l =>
      let* s := get curr n in
      let* r := strncmp_bytes (Z.to_nat SOCKET_DATA_LENGTH) name (addr s) in
      if r =? 0 then Ret curr else find_server l name n
  end.

(** Up to the wait for the server; [LocalConnect_wait] is the wait. *)
Definition LocalConnect (p fam : Z) (name : list Z) (n : net) : outcome (result Z * net) :=
  if negb (fam =? PF_LOCAL) then Ret (Done (- EINVAL), n)
  else
    let* server := find_server (localListenSockets n) name n in
    if server =? 0 then Ret (Done (- ENOENT), n)
    else
      let* n := update (set_state SOCKET_STATE_WAITING) p n in
      let* n := update (fun s => set_waiting (p :: waitingSocks s) s) server n in
      Ret (Wait, n).
Definition LocalConnect_wait (p : Z) (n : net) : outcome (result Z) :=
  let* s := get p n in Ret (if state s =? SOCKET_STATE_CONNECTED then Done 0 else Wait).

Definition LocalListen (p : Z) (n : net) : outcome (Z * net) :=
  let* n := update (set_state SOCKET_STATE_ACCEPTING) p (with_listen (p :: localListenSockets n) n) in
  Ret (0, n).

(** The search of VfsGetFreeFd; the table is enlarged by ten entries. *)
Fixpoint free_entry (l : list (option Z)) (i : Z) : Z :=
  match l with [] => i | None :: _ => i | Some _ :: l => free_entry l (i + 1) end.
Definition VfsGetFreeFd (n : net) : Z * net :=
  let num := Z.of_nat (length (files n)) in
  let i := free_entry (files n) 0 in
  if i <? num then (i, n)
  else if 100 <=? num then (- EMFILE, n)
  else (i, with_files (files n ++ replicate 10 None) n).

(** [info] is the address of the new struct LocalSockInfo. *)
Definition LocalCreate (info : Z) (s : Socket) : Z * Socket :=
  if c_true (Z.land (type s) SOCKET_TYPE_STREAM) then (- ESOCKTYPE, s)
  else if info =? 0 then (- ENOMEM, s)
  else (0, set_peer 0 s).

(** [alloc] and [info] are 0 when there is no memory. *)
Definition SocketCreate (alloc info stale domain ty : Z) (n : net) : outcome (Z * net) :=
  let* ok := of_option (zlookup (families n) domain) in
  if negb ok then Ret (0, n)
  else if alloc =? 0 then Ret (0, n)
  else
    let (ret, s) := LocalCreate info {| state := stale; family := domain; type := ty; addr := []; recvPackets := [];
      childSocks := []; parent := 0; peer := 0; waitingSocks := [] |} in
    if c_true ret then Ret (0, n) else Ret (alloc, put alloc s n).

Definition SysSocketCreate (alloc info stale domain ty : Z) (n : net) : outcome (Z * net) :=
  if (domain <? 0) || (NET_FAMILIES_MAX <? domain) then Ret (- EFAMILY, n)
  else
    let* (p, n) := SocketCreate alloc info stale domain ty n in
    if p =? 0 then Ret (- ENOMEM, n)
    else
      let (fd, n) := VfsGetFreeFd n in
      if fd <? 0 then Ret (fd, n)
      else let* l := of_option (zupdate (files n) fd (Some p)) in Ret (fd, with_files l n).

Definition SocketSetupChild (par child : Z) (n : net) : outcome net :=
  let* s := get par n in
  let* n := update (fun c => {| state := SOCKET_STATE_CONNECTED; family := family s;
    type := Z.land (type s) (Z.lnot SOCKET_TYPE_SERVER); addr := addr s; recvPackets := [];
    childSocks := childSocks c; parent := par; peer := peer c; waitingSocks := waitingSocks c |}) child n in
  update (fun s => set_children (childSocks s ++ [child]) s) par n.

(** The descriptor of the child or the error, and the child. *)
Definition SocketDoAccept (alloc info stale server client : Z) (n : net) : outcome (Z * Z * net) :=
  let* n := update (set_state SOCKET_STATE_CONNECTED) client n in
  let* c := get client n in
  let* (fd, n) := SysSocketCreate alloc info stale (family c) (type c) n in
  if fd <? 0 then Ret (fd, 0, n)
  else
    let* e := of_option (zlookup (files n) fd) in
    match e with
    | Some child => let* n := SocketSetupChild server child n in Ret (fd, child, n)
    | None => Fault
    end.

Definition LocalAccept (alloc info stale p : Z) (n : net) : outcome (result Z * net) :=
  let* s := get p n in
  match waitingSocks s with
  | [] => Ret (Wait, n)
  | client :: rest =>
      let* n := update (set_waiting rest) p n in
      let* (fd, child, n) := SocketDoAccept alloc info stale p client n in
      if fd <? 0 then Ret (Done fd, n)
      else
        let* n := LocalSetPeer child client n in
        let* n := LocalSetPeer client child n in
        Ret (Done fd, n)
  end.

Definition SocketAllocateBuffer (buffer : list Z) : SocketBuffer :=
  {| length_ := Z.of_nat (length buffer); read := 0; data := buffer |}.

(** [room] says whether there is memory for the packet. *)
Definition LocalSend (room : bool) (p : Z) (buffer : list Z) (n : net) : outcome (Z * net) :=
  let* s := get p n in
  if negb (state s =? SOCKET_STATE_CONNECTED) then Ret (- EINVAL, n)
  else if peer s =? 0 then Ret (- ECONNRESET, n)
  else if negb room then Ret (- ENOMEM, n)
  else
    let* n := update (fun t => set_packets (recvPackets t ++ [SocketAllocateBuffer buffer]) t) (peer s) n in
    Ret (Z.of_nat (length buffer), n).

(** The loop of LocalReceive: what is written from the start of the buffer
    of the caller on, and the packets that are left.  [pos] is pos - orig. *)
Fixpoint receive_loop (fuel : nat) (pos len : Z) (l : list SocketBuffer) : outcome (list Z * list SocketBuffer) :=
  match fuel with
  | O => NoFuel
  | S fuel =>
      if pos <? len then
        match l with
        | [] => Ret ([], [])
        | b :: l =>
            let toRead := Z.min (length_ b - read b) len in
            let b' := {| length_ := length_ b; read := read b + toRead; data := data b |} in
            let rest := if read b' =? length_ b then l else b' :: l in
            let* (out, l) := receive_loop fuel (pos + toRead) len rest in
            Ret (take (Z.to_nat toRead) (data b) ++ out, l)
        end
      else Ret ([], l)
  end.

(** The bytes are written to the buffer of the caller, however many. *)
Definition LocalReceive (fuel : nat) (p len : Z) (n : net) : outcome (result (Z * list Z) * net) :=
  let* s := get p n in
  let* _ := get (peer s) n in
  match recvPackets s with
  | [] => Ret (Wait, n)
  | _ :: _ =>
      let* (out, l) := receive_loop fuel 0 len (recvPackets s) in
      let* n := update (set_packets l) p n in
      Ret (Done (Z.of_nat (length out), out), n)
  end.

Definition is_server (s : Socket) : bool := c_true (Z.land (type s) SOCKET_TYPE_SERVER).

Definition LocalClose (p : Z) (n : net) : outcome net :=
  if p =? 0 then Ret n
  else
    let* s := get p n in
    if is_server s then Ret n else LocalSetPeer (peer s) 0 n.

(** A socket with a parent leaves the list of its children and is freed. *)
Definition close_child (p : Z) (n : net) : outcome net :=
  let* n := LocalClose p n in
  let* s := get p n in
  let* n := update (fun q => set_children (filter (fun c => c <> p) (childSocks q)) q) (parent s) n in
  Ret (with_sockets (delete p (sockets n)) n).
Fixpoint close_children (l : list Z) (n : net) : outcome net :=
  match l with [] => Ret n | c :: l => let* n := close_child c n in close_children l n end.

Definition SocketClose (p : Z) (n : net) : outcome (Z * net) :=
  if p =? 0 then Ret (- EFAULT, n)
  else
    let* s := get p n in
    if c_true (parent s) then let* n := close_child p n in Ret (0, n)
    else
      let* n := LocalClose p n in
      let* n := if is_server s then close_children (childSocks s) n else Ret n in
      Ret (0, with_sockets (delete p (sockets n)) n).

(** What POLL_* bits LocalPoll adds to the events of the item. *)
Definition LocalPoll (p : Z) (revents : Z) (n : net) : outcome Z :=
  let* s := get p n in
  let revents := if is_server s && negb (bool_decide (waitingSocks s = [])) then Z.lor revents POLL_IN else revents in
  let revents := if negb (is_server s) && negb (bool_decide (recvPackets s = [])) then Z.lor revents POLL_IN else revents in
  let revents := Z.lor revents POLL_OUT in
  Ret (if negb (is_server s) && (peer s =? 0) then Z.lor revents POLL_ERR else revents).

(** SysClose on the descriptor of a socket ends here. *)
Definition SocketFreeVNode (p : Z) (n : net) : outcome (Z * net) :=
  if p =? 0 then Ret (- EINVAL, n)
  else let* n := LocalClose p n in Ret (0, with_sockets (delete p (sockets n)) n).

(** *** System calls *)

(** The loop of SocketCheckArea over the areas after [base]. *)
Fixpoint verify_areas (base : VMArea) (rest : list VMArea) (verifiedLen len : Z) : Z :=
  if verifiedLen <? len then
    match rest with
    | [] => verifiedLen
    | curr :: rest =>
        if negb (start curr =? area_end base) then verifiedLen
        else verify_areas curr rest (u32 (verifiedLen + Z.min (u32 (len - verifiedLen)) (alength curr))) len
    end
  else verifiedLen.
Definition SocketCheckArea (areaList : list VMArea) (buffer len : Z) : Z :=
  let len := u32 len in
  match VmLookupAddress areaList buffer with
  | None => - EFAULT
  | Some (base, rest) =>
      let verifiedLen := u32 (area_end base - buffer) in
      if len <? verifiedLen then s32 len else s32 (verify_areas base rest verifiedLen len)
  end.

(** [None] is -EBADF: no file, or a vNode without a socket. *)
Definition SocketGet (fd : Z) (n : net) : option Z :=
  match zlookup (files n) fd with Some (Some p) => if p =? 0 then None else Some p | _ => None end.

Definition SysSocketBind (fd : Z) (name : list Z) (n : net) : outcome (Z * net) :=
  match SocketGet fd n with
  | None => Ret (- EBADF, n)
  | Some p =>
      let* (ret, n) := LocalBind p name n in
      if c_true ret then Ret (ret, n)
      else
        let* n := update (fun s => set_type (Z.lor (type s) SOCKET_TYPE_SERVER) (set_state SOCKET_STATE_BOUND s)) p n in
        Ret (0, n)
  end.

Definition SysSocketConnect (fd fam : Z) (name : list Z) (n : net) : outcome (result Z * net) :=
  match SocketGet fd n with None => Ret (Done (- EBADF), n) | Some p => LocalConnect p fam name n end.

Definition SysSocketListen (fd : Z) (n : net) : outcome (Z * net) :=
  match SocketGet fd n with
  | None => Ret (- EBADF, n)
  | Some p =>
      let* s := get p n in
      if negb (state s =? SOCKET_STATE_BOUND) then Ret (- EOPNOTSUPP, n) else LocalListen p n
  end.

Definition SysSocketAccept (alloc info stale fd : Z) (n : net) : outcome (result Z * net) :=
  match SocketGet fd n with
  | None => Ret (Done (- EBADF), n)
  | Some p =>
      let* s := get p n in
      if negb (state s =? SOCKET_STATE_ACCEPTING) then Ret (Done (- EOPNOTSUPP), n) else LocalAccept alloc info stale p n
  end.

(** The buffer of the caller is at [at_] in its areas. *)
Definition SysSocketSend (room : bool) (areas : list VMArea) (at_ fd : Z) (buffer : list Z) (n : net) : outcome (Z * net) :=
  match SocketGet fd n with
  | None => Ret (- EBADF, n)
  | Some p =>
      let* s := get p n in
      if negb (state s =? SOCKET_STATE_CONNECTED) then Ret (- EOPNOTSUPP, n)
      else if SocketCheckArea areas at_ (Z.of_nat (length buffer)) <? 0 then Ret (- EFAULT, n) else LocalSend room p buffer n
  end.

Definition SysSocketReceive (fuel : nat) (areas : list VMArea) (at_ fd len : Z) (n : net) : outcome (result (Z * list Z) * net) :=
  match SocketGet fd n with
  | None => Ret (Done (- EBADF, []), n)
  | Some p =>
      let* s := get p n in
      if negb (state s =? SOCKET_STATE_CONNECTED) then Ret (Done (- EOPNOTSUPP, []), n)
      else if SocketCheckArea areas at_ len <? 0 then Ret (Done (- EFAULT, []), n) else LocalReceive fuel p len n
  end.

Definition SysSocketClose (fd : Z) (n : net) : outcome (Z * net) :=
  match zlookup (files n) fd with
  | Some (Some p) => let* l := of_option (zupdate (files n) fd (Some 0)) in SocketClose p (with_files l n)
  | _ => Ret (- EBADF, n)
  end.

Definition SocketRegisterFamily (fam : Z) (n : net) : outcome (Z * net) :=
  let* ok := of_option (zlookup (families n) fam) in
  if ok : bool then Ret (- EEXIST, n)
  else
    let* l := of_option (zupdate (families n) fam true) in
    Ret (0, {| sockets := sockets n; localListenSockets := localListenSockets n; files := files n; families := l |}).

(** ** Packets *)

(** A packet nobody has read from. *)
Definition whole (b : SocketBuffer) : Prop := read b = 0 /\ length_ b = Z.of_nat (length (data b)).

(** The packets that one receive takes: one after the other until [len]
    bytes are there. *)
Fixpoint gather (pos len : Z) (l : list SocketBuffer) : list SocketBuffer :=
  if pos <? len then
    match l with [] => [] | b :: l => b :: gather (pos + length_ b) len l end
  else [].

Lemma receive_loop_whole len l : forall fuel pos, (length l < fuel)%nat -> Forall (fun b => whole b /\ length_ b <= len) l ->
  receive_loop fuel pos len l = Ret (concat (data <$> gather pos len l), drop (length (gather pos len l)) l).
Proof.
  induction l as [|b l IH]; intros [|fuel] pos Hf Hl; cbn [length] in Hf; try lia; cbn [receive_loop gather].
  { by destruct (pos <? len). }
  apply Forall_cons in Hl as [[[R L] B] Hl]. destruct (pos <? len); [|done].
  rewrite R, Z.sub_0_r, Z.min_l, Z.add_0_l by done. cbn [read]. rewrite Z.eqb_refl. rewrite IH by (done || lia).
  cbn [bindO fmap list_fmap concat length drop]. rewrite firstn_all2; [done|]. lia.
Qed.

(** Every receive ends: a step ends a packet or the loop. *)
Definition packet_ok (b : SocketBuffer) : Prop := 0 <= read b <= length_ b /\ length_ b = Z.of_nat (length (data b)).
Lemma receive_loop_ends len l : forall fuel pos, (length l + 1 < fuel)%nat -> 0 <= pos -> Forall packet_ok l ->
  exists out l', receive_loop fuel pos len l = Ret (out, l') /\ Forall packet_ok l'.
Proof.
  induction l as [|b l IH]; intros [|fuel] pos Hf Hp Hl; cbn [length] in Hf; try lia; cbn [receive_loop].
  { exists [], []. by destruct (pos <? len). }
  destruct (Z.ltb_spec pos len) as [H|H]; [|by exists [], (b :: l)]. apply Forall_cons in Hl as [[B L] Hl].
  set (b' := {| length_ := length_ b; read := _; data := _ |}). destruct (Z.eqb_spec (read b') (length_ b)) as [E|N]; cbn [read b'] in *.
  - destruct (IH fuel (pos + Z.min (length_ b - read b) len)) as (out & l' & -> & F); [lia|lia|done|]. by eexists _, l'.
  - destruct fuel as [|fuel]; [lia|]. cbn [receive_loop].
    destruct (Z.ltb_spec (pos + Z.min (length_ b - read b) len) len); [lia|]. eexists _, _. split; [done|].
    constructor; [|done]. split; [cbn; lia|done].
Qed.

(** ** Messages of one size *)

Inductive msg_op := MSend (buffer : list Z) | MReceive.
Definition msg_step (fuel : nat) (k p q : Z) (op : msg_op) (n : net) : outcome (result (Z * list Z) * net) :=
  match op with
  | MSend buffer => let* (r, n) := LocalSend true p buffer n in Ret (Done (r, []), n)
  | MReceive => LocalReceive fuel q k n
  end.
Fixpoint msg_run (fuel : nat) (k p q : Z) (ops : list msg_op) (n : net) : outcome (list (result (Z * list Z)) * net) :=
  match ops with
  | [] => Ret ([], n)
  | op :: ops =>
      let* (r, n) := msg_step fuel k p q op n in
      let* (rs, n) := msg_run fuel k p q ops n in Ret (r :: rs, n)
  end.
(** The same with a queue of messages. *)
Definition queue_step (op : msg_op) (m : list (list Z)) : result (Z * list Z) * list (list Z) :=
  match op with
  | MSend buffer => (Done (Z.of_nat (length buffer), []), m ++ [buffer])
  | MReceive => match m with [] => (Wait, []) | x :: m => (Done (Z.of_nat (length x), x), m) end
  end.
Fixpoint queue_run (ops : list msg_op) (m : list (list Z)) : list (result (Z * list Z)) * list (list Z) :=
  match ops with
  | [] => ([], m)
  | op :: ops => let (r, m) := queue_step op m in let (rs, m) := queue_run ops m in (r :: rs, m)
  end.

Definition sends (k : Z) (op : msg_op) : Prop := match op with MSend b => Z.of_nat (length b) = k | MReceive => True end.

(** [p] and [q] are connected and [m] is queued at [q]. *)
Record link (k p q : Z) (m : list (list Z)) (n : net) : Prop := {
  lk_p : exists s, sockets n !! p = Some s /\ state s = SOCKET_STATE_CONNECTED /\ peer s = q;
  lk_q : exists t, sockets n !! q = Some t /\ peer t = p /\ recvPackets t = SocketAllocateBuffer <$> m;
  lk_distinct : p <> q /\ q <> 0;
  lk_size : Forall (fun x => Z.of_nat (length x) = k) m;
}.

Lemma msg_step_refines fuel k p q op m n : 0 < k -> (2 <= fuel)%nat -> link k p q m n -> sends k op ->
  exists n', msg_step fuel k p q op n = Ret ((queue_step op m).1, n') /\ link k p q (queue_step op m).2 n'.
Proof.
  intros Hk Hf [(s & Es & Ss & Ps) (t & Et & Pt & Rt) [Npq Nq] Fm] Hop. destruct op as [b|]; cbn [msg_step queue_step sends] in *.
  - unfold LocalSend, update, get. rewrite Es. cbn [of_option bindO]. rewrite Ss, Ps, Z.eqb_refl. cbn [negb].
    destruct (Z.eqb_spec q 0); [done|]. rewrite Et. cbn [of_option bindO]. eexists. split; [done|]. cbn [snd]. split; cbn.
    + exists s. by rewrite lookup_insert_ne.
    + eexists. rewrite lookup_insert_eq. split; [done|]. split; [done|]. cbn. by rewrite Rt, fmap_app.
    + done.
    + apply Forall_app. split; [done|]. by constructor.
  - unfold LocalReceive, get. rewrite Et. cbn [of_option bindO]. rewrite Pt, Es. cbn [of_option bindO]. rewrite Rt.
    destruct m as [|x m]; cbn [fmap list_fmap]; [by exists n; split; [|split; eauto]|].
    apply Forall_cons in Fm as [Lx Fm]. destruct fuel as [|[|fuel]]; [lia|lia|]. cbn [receive_loop].
    destruct (Z.ltb_spec 0 k); [|lia]. cbn [SocketAllocateBuffer length_ read data].
    rewrite Z.sub_0_r, Lx, Z.min_id, !Z.add_0_l, Z.eqb_refl. destruct (Z.ltb_spec k k); [lia|]. cbn [bindO]. rewrite app_nil_r.
    rewrite firstn_all2 by lia. unfold update, get. rewrite Et. cbn [of_option bindO]. eexists. split; [by rewrite Lx|]. cbn [snd]. split; cbn.
    + exists s. by rewrite lookup_insert_ne.
    + eexists. rewrite lookup_insert_eq. done.
    + done.
    + done.
Qed.

(** C31: between two connected sockets that exchange messages of one size, every sequence of sending and receiving gives
    the results of a queue: messages arrive whole, once, in the order they were sent, and receiving waits when there is none. *)
Theorem local_messages_fifo fuel k p q ops m n : 0 < k -> (2 <= fuel)%nat -> link k p q m n -> Forall (sends k) ops ->
  exists n', msg_run fuel k p q ops n = Ret ((queue_run ops m).1, n') /\ link k p q (queue_run ops m).2 n'.
Proof.
  intros Hk Hf. revert m n. induction ops as [|op ops IH]; intros m n L F; cbn [msg_run queue_run]; [by exists n|].
  apply Forall_cons in F as [Fo F]. destruct (msg_step_refines fuel k p q op m n Hk Hf L Fo) as (n1 & E1 & L1). rewrite E1. cbn [bindO].
  destruct (queue_step op m) as [r m1]. cbn [fst snd] in *. destruct (IH m1 n1 L1 F) as (n2 & E2 & L2). rewrite E2. cbn [bindO].
  destruct (queue_run ops m1) as [rs m2]. by exists n2.
Qed.

(** A receive copies whole packets until it has the bytes it was asked for, and does not stop inside one: with packets
    of different sizes queued it writes past the buffer of the caller. *)
Theorem LocalReceive_overruns fuel p len n s a b : sockets n !! p = Some s -> is_Some (sockets n !! peer s) ->
  recvPackets s = [SocketAllocateBuffer a; SocketAllocateBuffer b] -> (3 <= fuel)%nat ->
  Z.of_nat (length a) < len < Z.of_nat (length a) + Z.of_nat (length b) -> Z.of_nat (length b) <= len ->
  exists n', LocalReceive fuel p len n = Ret (Done (Z.of_nat (length (a ++ b)), a ++ b), n') /\ len < Z.of_nat (length (a ++ b)).
Proof.
  intros Es [t Et] R Hf Hl Hb. unfold LocalReceive, get. rewrite Es. cbn [of_option bindO]. rewrite Et. cbn [of_option bindO]. rewrite R.
  rewrite receive_loop_whole; [|done|repeat (constructor; [split; [done|cbn; lia]|]); constructor].
  assert (G : gather 0 len [SocketAllocateBuffer a; SocketAllocateBuffer b] = [SocketAllocateBuffer a; SocketAllocateBuffer b]).
  { cbn [gather SocketAllocateBuffer length_]. zcases; try lia; done. }
  rewrite G. cbn [bindO fmap list_fmap concat data SocketAllocateBuffer]. rewrite app_nil_r. unfold update, get. rewrite Es. cbn [of_option bindO].
  eexists. split; [done|]. rewrite length_app. lia.
Qed.

(** A packet that is longer than what is asked for is kept, but the next receive copies from its start again. *)
Theorem LocalReceive_repeats fuel p len n s a rest : sockets n !! p = Some s -> is_Some (sockets n !! peer s) -> peer s <> p ->
  recvPackets s = SocketAllocateBuffer a :: rest -> (2 <= fuel)%nat -> 0 < len -> 2 * len < Z.of_nat (length a) ->
  exists n1 n2, LocalReceive fuel p len n = Ret (Done (len, take (Z.to_nat len) a), n1)
    /\ LocalReceive fuel p len n1 = Ret (Done (len, take (Z.to_nat len) a), n2).
Proof.
  intros Es [t Et] Np R Hf Hl Ha. destruct fuel as [|[|fuel]]; [lia|lia|].
  assert (L : Z.of_nat (length (take (Z.to_nat len) a)) = len) by (rewrite length_take; lia).
  assert (Step : forall (s : Socket) n r, sockets n !! p = Some s -> is_Some (sockets n !! peer s) -> 0 <= r -> r + len < Z.of_nat (length a) ->
    recvPackets s = {| length_ := Z.of_nat (length a); read := r; data := a |} :: rest ->
    LocalReceive (S (S fuel)) p len n = Ret (Done (len, take (Z.to_nat len) a),
      put p (set_packets ({| length_ := Z.of_nat (length a); read := r + len; data := a |} :: rest) s) n)).
  { clear s n Es t Et Np R Ha. intros s n r Es [t Et] Hr Hr' R. unfold LocalReceive, get. rewrite Es. cbn [of_option bindO].
    rewrite Et. cbn [of_option bindO]. rewrite R. cbn [receive_loop length_ read data]. destruct (Z.ltb_spec 0 len); [|lia].
    rewrite Z.min_r by lia. rewrite Z.add_0_l. destruct (Z.eqb_spec (r + len) (Z.of_nat (length a))); [lia|]. destruct (Z.ltb_spec len len); [lia|].
    cbn [bindO]. unfold update, get. rewrite Es, app_nil_r, L. done. }
  rewrite (Step s n 0) by (done || lia || by eexists). eexists _, _. split; [done|]. eapply (Step _ _ (0 + len)); cbn.
  - apply lookup_insert_eq.
  - rewrite lookup_insert_ne by done. by eexists.
  - lia.
  - lia.
  - done.
Qed.

(** ** What every call keeps *)

(** The state of a socket and those it points to. *)
Record sock_ok (m : gmap Z Socket) (p : Z) (s : Socket) : Prop := {
  so_peer : peer s <> 0 -> state s = SOCKET_STATE_CONNECTED /\ peer s <> p /\ exists t, m !! peer s = Some t /\ peer t = p;
  so_parent : parent s <> 0 -> state s = SOCKET_STATE_CONNECTED /\ exists q, m !! parent s = Some q /\ p ∈ childSocks q;
  so_children : forall c, c ∈ childSocks s -> state s = SOCKET_STATE_ACCEPTING /\ exists t, m !! c = Some t /\ parent t = p;
  so_waiting : forall c, c ∈ waitingSocks s -> exists t, m !! c = Some t /\ state t = SOCKET_STATE_WAITING;
  so_queue : NoDup (waitingSocks s);
  so_server : is_server s = true -> state s = SOCKET_STATE_BOUND \/ state s = SOCKET_STATE_ACCEPTING;
  so_name : state s = SOCKET_STATE_BOUND \/ state s = SOCKET_STATE_ACCEPTING -> (Z.to_nat SOCKET_DATA_LENGTH <= length (addr s))%nat;
  so_packets : Forall packet_ok (recvPackets s);
}.
Definition socks_ok (m : gmap Z Socket) : Prop := m !! 0 = None /\ (forall p s, m !! p = Some s -> sock_ok m p s)
  /\ forall p q s t c, m !! p = Some s -> m !! q = Some t -> c ∈ waitingSocks s -> c ∈ waitingSocks t -> p = q.
Definition files_ok (m : gmap Z Socket) (l : list (option Z)) : Prop :=
  (forall fd p, zlookup l fd = Some (Some p) -> p <> 0 -> is_Some (m !! p))
  /\ (forall fd fd' p, zlookup l fd = Some (Some p) -> zlookup l fd' = Some (Some p) -> p <> 0 -> fd = fd').
Definition family_ok (m : gmap Z Socket) : Prop := forall p s, m !! p = Some s -> 0 <= family s < NET_FAMILIES_MAX.
(** [unclosed] tells that no listening socket has been closed so far: only
    then is everything on the list of listening sockets allocated. *)
Record net_ok (unclosed : bool) (n : net) : Prop := {
  no_socks : socks_ok (sockets n);
  no_family : family_ok (sockets n);
  no_listen : unclosed = true -> forall p, p ∈ localListenSockets n -> exists s, sockets n !! p = Some s /\ state s = SOCKET_STATE_ACCEPTING;
  no_files : files_ok (sockets n) (files n);
  no_families : Z.of_nat (length (families n)) = NET_FAMILIES_MAX;
}.

Arguments no_socks {unclosed} n _.
Arguments no_family {unclosed} n _.
Arguments no_listen {unclosed} n _ _.
Arguments no_files {unclosed} n _.
Arguments no_families {unclosed} n _.

(** What the other sockets say about a socket does not depend on the rest. *)
Definition keeps (m m' : gmap Z Socket) : Prop := forall p s, m !! p = Some s -> exists s', m' !! p = Some s'
  /\ peer s' = peer s /\ parent s' = parent s /\ childSocks s' = childSocks s
  /\ (state s = SOCKET_STATE_WAITING -> state s' = SOCKET_STATE_WAITING).

Lemma sock_ok_keeps m m' p s : keeps m m' -> sock_ok m p s -> sock_ok m' p s.
Proof.
  intros K [H1 H2 H3 H4 H5 H6 H7 H8]. split; try done.
  - intros N. destruct (H1 N) as (? & ? & t & Et & P). destruct (K _ _ Et) as (t' & Et' & ? & _). naive_solver congruence.
  - intros N. destruct (H2 N) as (? & q & Eq & I). destruct (K _ _ Eq) as (q' & Eq' & _ & _ & C & _). split; [done|]. exists q'. by rewrite C.
  - intros c Hc. destruct (H3 c Hc) as (? & t & Et & P). destruct (K _ _ Et) as (t' & Et' & _ & ? & _). naive_solver congruence.
  - intros c Hc. destruct (H4 c Hc) as (t & Et & P). destruct (K _ _ Et) as (t' & Et' & _ & _ & _ & W). naive_solver.
Qed.

Lemma keeps_put m p s s' : m !! p = Some s -> peer s' = peer s -> parent s' = parent s -> childSocks s' = childSocks s ->
  (state s = SOCKET_STATE_WAITING -> state s' = SOCKET_STATE_WAITING) -> keeps m (<[p := s']> m).
Proof.
  intros E H1 H2 H3 H4 r x Er. destruct (decide (r = p)) as [->|N].
  - exists s'. rewrite lookup_insert_eq. assert (x = s) as -> by congruence. done.
  - exists x. by rewrite lookup_insert_ne.
Qed.

(** One socket changes in what no other looks at. *)
Lemma socks_ok_put m p s s' : socks_ok m -> m !! p = Some s -> peer s' = peer s -> parent s' = parent s ->
  childSocks s' = childSocks s -> (state s = SOCKET_STATE_WAITING -> state s' = SOCKET_STATE_WAITING) ->
  (forall c, c ∈ waitingSocks s' -> c ∈ waitingSocks s \/ forall q t, m !! q = Some t -> c ∉ waitingSocks t) ->
  (sock_ok (<[p := s']> m) p s -> sock_ok (<[p := s']> m) p s') -> socks_ok (<[p := s']> m).
Proof.
  intros (H0 & H1 & H2) E P1 P2 P3 P4 Hw Hs. pose proof (keeps_put m p s s' E P1 P2 P3 P4) as K. split; [|split].
  - rewrite lookup_insert_ne; [done|]. intros ->. congruence.
  - intros r x. destruct (decide (r = p)) as [->|N].
    + rewrite lookup_insert_eq. intros [= <-]. apply Hs. by apply (sock_ok_keeps m), H1.
    + rewrite lookup_insert_ne by done. intros Ex. by apply (sock_ok_keeps m), H1.
  - assert (L : forall r x c, <[p := s']> m !! r = Some x -> c ∈ waitingSocks x ->
      (exists y, m !! r = Some y /\ c ∈ waitingSocks y) \/ (r = p /\ forall q t, m !! q = Some t -> c ∉ waitingSocks t)).
    { intros r x c. destruct (decide (r = p)) as [->|N].
      - rewrite lookup_insert_eq. intros [= <-] Hc. destruct (Hw c Hc); [left; by exists s|by right].
      - rewrite lookup_insert_ne by done. intros Ex Hc. left. by exists x. }
    intros a b x y c Ea Eb Ca Cb.
    destruct (L a x c Ea Ca) as [(x' & Ex & Wx)|[-> Nx]], (L b y c Eb Cb) as [(y' & Ey & Wy)|[-> Ny]]; [by apply (H2 a b x' y' c)| | |done].
    + by apply Ny in Ex.
    + by apply Nx in Ey.
Qed.

(** A new socket that nobody points to. *)
Lemma socks_ok_new m p s : socks_ok m -> m !! p = None -> p <> 0 -> peer s = 0 -> parent s = 0 -> childSocks s = [] -> waitingSocks s = [] ->
  is_server s = false -> state s = SOCKET_STATE_FREE -> recvPackets s = [] -> socks_ok (<[p := s]> m).
Proof.
  intros (H0 & H1 & H2) E N0 P1 P2 P3 P4 P5 P6 P7. assert (K : keeps m (<[p := s]> m)).
  { intros r x Er. exists x. rewrite lookup_insert_ne by congruence. done. }
  split; [by rewrite lookup_insert_ne|split].
  - intros r x. destruct (decide (r = p)) as [->|N].
    + rewrite lookup_insert_eq. intros [= <-]. split; rewrite ?P1, ?P2, ?P3, ?P4, ?P5, ?P6, ?P7; try done; try (by intros c ?%elem_of_nil); [constructor|].
      intros [?|?]; done.
    + rewrite lookup_insert_ne by done. intros Ex. by apply (sock_ok_keeps m), H1.
  - assert (L : forall r x c, <[p := s]> m !! r = Some x -> c ∈ waitingSocks x -> m !! r = Some x).
    { intros r x c. destruct (decide (r = p)) as [->|N]; [|by rewrite lookup_insert_ne].
      rewrite lookup_insert_eq. intros [= <-]. rewrite P4. by intros ?%elem_of_nil. }
    intros a b x y c Ea Eb Ca Cb. by apply (H2 a b x y c (L _ _ _ Ea Ca) (L _ _ _ Eb Cb)).
Qed.

(** A socket without peer and parent that neither waits nor accepts: no other one points to it. *)
Definition single (c : Socket) : Prop :=
  peer c = 0 /\ parent c = 0 /\ state c <> SOCKET_STATE_WAITING /\ state c <> SOCKET_STATE_ACCEPTING.
Lemma single_refs m p c r x : socks_ok m -> m !! p = Some c -> single c -> m !! r = Some x ->
  (peer x <> 0 -> peer x <> p) /\ (parent x <> 0 -> parent x <> p) /\ (forall z, z ∈ childSocks x -> z <> p) /\ (forall z, z ∈ waitingSocks x -> z <> p).
Proof.
  intros (H0 & H1 & _) Ep (P & R & Nw & Na) Ex. pose proof (H1 _ _ Ex) as [X1 X2 X3 X4 _ _ _ _]. pose proof (so_children _ _ _ (H1 _ _ Ep)) as C. split_and!.
  - intros N E. destruct (X1 N) as (_ & _ & t & Et & Pt). rewrite E in Et. assert (t = c) as -> by congruence. congruence.
  - intros N E. destruct (X2 N) as (_ & t & Et & Pt). rewrite E in Et. assert (t = c) as -> by congruence. by destruct (C _ Pt).
  - intros z Hz ->. destruct (X3 _ Hz) as (_ & t & Et & Pt). assert (t = c) as -> by congruence. congruence.
  - intros z Hz ->. destruct (X4 _ Hz) as (t & Et & St). congruence.
Qed.

(** The server takes a client from its queue, which is connected then. *)
Lemma socks_ok_dequeue m server client s c rest : socks_ok m -> m !! server = Some s -> waitingSocks s = client :: rest ->
  state s = SOCKET_STATE_ACCEPTING -> m !! client = Some c -> state c = SOCKET_STATE_WAITING ->
  socks_ok (<[client := set_state SOCKET_STATE_CONNECTED c]> (<[server := set_waiting rest s]> m)) /\ server <> client
  /\ single (set_state SOCKET_STATE_CONNECTED c) /\ is_server c = false.
Proof.
  intros Ok Es Ew Ss Ec Sc. pose proof Ok as (H0 & H1 & H2).
  assert (Nsc : server <> client) by (intros ->; assert (c = s) as -> by congruence; by rewrite Ss in Sc).
  pose proof (H1 _ _ Ec) as [C1 C2 C3 C4 C5 C6 C7 C8].
  assert (Sg : single (set_state SOCKET_STATE_CONNECTED c)).
  { split_and!; cbn; try done.
    - destruct (Z.eq_dec (peer c) 0) as [|N]; [done|]. destruct (C1 N) as [Q _]. by rewrite Sc in Q.
    - destruct (Z.eq_dec (parent c) 0) as [|N]; [done|]. destruct (C2 N) as [Q _]. by rewrite Sc in Q. }
  assert (Vc : is_server c = false) by (destruct (is_server c); [destruct (C6 eq_refl) as [Q|Q]; by rewrite Sc in Q|done]).
  split_and!; try done. set (m1 := <[server := set_waiting rest s]> m).
  assert (O1 : socks_ok m1).
  { apply (socks_ok_put m server s); try done; [intros z Hz; left; rewrite Ew; by right|]. intros [X1 X2 X3 X4 X5 X6 X7 X8]. split; try done.
    - intros z Hz. apply X4. rewrite Ew. by right.
    - rewrite Ew in X5. by apply NoDup_cons in X5 as [_ ?]. }
  assert (E1 : m1 !! client = Some c) by (unfold m1; by rewrite lookup_insert_ne).
  assert (Nq : forall r x, m1 !! r = Some x -> client ∉ waitingSocks x).
  { intros r x. unfold m1. destruct (decide (r = server)) as [->|N].
    - rewrite lookup_insert_eq. intros [= <-]. pose proof (so_queue _ _ _ (H1 _ _ Es)) as Q. rewrite Ew in Q. by apply NoDup_cons in Q as [? _].
    - rewrite lookup_insert_ne by done. intros Ex Hx. apply N. apply (H2 r server x s client Ex Es Hx). rewrite Ew. left. }
  assert (View : forall r x, m1 !! r = Some x -> exists x', <[client := set_state SOCKET_STATE_CONNECTED c]> m1 !! r = Some x' /\ peer x' = peer x
    /\ parent x' = parent x /\ childSocks x' = childSocks x /\ waitingSocks x' = waitingSocks x /\ (r <> client -> x' = x)).
  { intros r x Er. destruct (decide (r = client)) as [->|N].
    - rewrite lookup_insert_eq. eexists. split; [done|]. assert (x = c) as -> by congruence. done.
    - rewrite lookup_insert_ne by done. by exists x. }
  destruct O1 as (G0 & G1 & G2). split; [|split].
  - by rewrite lookup_insert_ne by (intros ->; congruence).
  - intros r x Er. assert (exists y, m1 !! r = Some y /\ (x = y \/ (r = client /\ x = set_state SOCKET_STATE_CONNECTED c))) as (y & Ey & Hx).
    { destruct (decide (r = client)) as [->|N]; [rewrite lookup_insert_eq in Er; injection Er as <-; exists c; naive_solver|].
      rewrite lookup_insert_ne in Er by done. exists x. naive_solver. }
    assert (K : sock_ok (<[client := set_state SOCKET_STATE_CONNECTED c]> m1) r y).
    { pose proof (G1 _ _ Ey) as [X1 X2 X3 X4 X5 X6 X7 X8]. split; try done.
      - intros N. destruct (X1 N) as (? & ? & t & Et & Pt). destruct (View _ _ Et) as (t' & Et' & P' & _). naive_solver congruence.
      - intros N. destruct (X2 N) as (? & t & Et & Pt). destruct (View _ _ Et) as (t' & Et' & _ & _ & P' & _). split; [done|]. exists t'. by rewrite P'.
      - intros z Hz. destruct (X3 z Hz) as (? & t & Et & Pt). destruct (View _ _ Et) as (t' & Et' & _ & P' & _). naive_solver congruence.
      - intros z Hz. destruct (X4 z Hz) as (t & Et & St). destruct (View _ _ Et) as (t' & Et' & _ & _ & _ & _ & P'). exists t'. split; [done|].
        rewrite P'; [done|]. intros ->. by apply (Nq r y Ey). }
    destruct Hx as [->|[-> ->]]; [done|]. assert (y = c) as -> by congruence. destruct Sg as (P1 & P2 & _). cbn in P1, P2.
    destruct K as [X1 X2 X3 X4 X5 X6 X7 X8]. split; cbn; try done.
    + intros z Hz. destruct (X3 z Hz) as [Q _]. by rewrite Sc in Q.
    + change (is_server (set_state SOCKET_STATE_CONNECTED c)) with (is_server c). by rewrite Vc.
    + intros [?|?]; done.
  - assert (L : forall r x, <[client := set_state SOCKET_STATE_CONNECTED c]> m1 !! r = Some x -> exists y, m1 !! r = Some y /\ waitingSocks x = waitingSocks y).
    { intros r x Er. destruct (decide (r = client)) as [->|N]; [rewrite lookup_insert_eq in Er; injection Er as <-; by exists c|].
      rewrite lookup_insert_ne in Er by done. by exists x. }
    intros a b x y z Ea Eb Ca Cb. destruct (L _ _ Ea) as (x' & Ex & Wx), (L _ _ Eb) as (y' & Ey & Wy). rewrite Wx in Ca. rewrite Wy in Cb.
    by apply (G2 a b x' y' z).
Qed.

(** A client and a new child of the server become each other's peers. *)
Lemma socks_ok_pair m m' server client child s c d d' : socks_ok m -> m !! server = Some s -> m !! client = Some c -> m !! child = Some d ->
  state s = SOCKET_STATE_ACCEPTING -> single c -> state c = SOCKET_STATE_CONNECTED -> single d -> client <> child -> waitingSocks d = [] ->
  peer d' = client -> parent d' = server -> state d' = SOCKET_STATE_CONNECTED -> childSocks d' = childSocks d -> waitingSocks d' = [] ->
  recvPackets d' = [] -> is_server d' = false ->
  m' !! server = Some (set_children (childSocks s ++ [child]) s) -> m' !! client = Some (set_peer child c) -> m' !! child = Some d' ->
  (forall r, r <> server -> r <> client -> r <> child -> m' !! r = m !! r) -> socks_ok m'.
Proof.
  intros Ok Es Ec Ed Ss Sg Sc Dg Ncd Wd D1 D2 D3 D4 D5 D6 D7 Ms Mc Md Mo. pose proof Ok as (H0 & H1 & H2).
  assert (Nsc : server <> client /\ server <> child) by (split; intros ->; [destruct Sg as (_ & _ & _ & Q)|destruct Dg as (_ & _ & _ & Q)]; apply Q; congruence).
  destruct Nsc as [Nsc Nsd]. assert (Kd : childSocks d = []).
  { destruct (childSocks d) as [|z l] eqn:E; [done|]. destruct (so_children _ _ _ (H1 _ _ Ed) z) as [Q _]; [rewrite E; left|]. by destruct Dg as (_ & _ & _ & ?). }
  (* the sockets seen from those that stay *)
  assert (K : forall r t, m !! r = Some t -> r <> client -> r <> child -> exists t', m' !! r = Some t' /\ peer t' = peer t /\ parent t' = parent t
    /\ (forall z, z ∈ childSocks t -> z ∈ childSocks t') /\ state t' = state t).
  { intros r t Er N1 N2. destruct (decide (r = server)) as [->|N3].
    - assert (t = s) as -> by congruence. eexists. rewrite Ms. split; [done|]. cbn. split_and!; try done. intros z Hz. apply elem_of_app. by left.
    - exists t. by rewrite Mo. }
  assert (Same : forall p x x', m !! p = Some x -> (peer x' <> 0 -> peer x' = peer x) -> parent x' = parent x -> state x' = state x ->
    (forall z, z ∈ childSocks x' -> z ∈ childSocks x \/ (p = server /\ z = child)) -> waitingSocks x' = waitingSocks x ->
    is_server x' = is_server x -> addr x' = addr x -> recvPackets x' = recvPackets x -> sock_ok m' p x').
  { intros p x x' Ex E1 E2 E3 E4 E5 E7 E8 E9. destruct (single_refs m client c p x Ok Ec Sg Ex) as (O1 & O2 & O3 & O4).
    destruct (single_refs m child d p x Ok Ed Dg Ex) as (Q1 & Q2 & Q3 & Q4).
    pose proof (H1 _ _ Ex) as [X1 X2 X3 X4 X5 X6 X7 X8]. split; rewrite ?E2, ?E3, ?E5, ?E7, ?E8, ?E9; try done.
    - intros N. pose proof (E1 N) as E0. rewrite E0 in N |- *. destruct (X1 N) as (? & ? & t & Et & Pt). destruct (K _ _ Et (O1 N) (Q1 N)) as (t' & Et' & P' & _). naive_solver congruence.
    - intros N. destruct (X2 N) as (? & t & Et & Pt). destruct (K _ _ Et (O2 N) (Q2 N)) as (t' & Et' & _ & _ & C' & _). split; [done|]. exists t'. auto.
    - intros z [Hz|[-> ->]]%E4; [|split; [congruence|by exists d']].
      destruct (X3 z Hz) as (? & t & Et & Pt). destruct (K _ _ Et (O3 z Hz) (Q3 z Hz)) as (t' & Et' & _ & P' & _). naive_solver congruence.
    - intros z Hz. destruct (X4 z Hz) as (t & Et & St). destruct (K _ _ Et (O4 z Hz) (Q4 z Hz)) as (t' & Et' & _ & _ & _ & S'). naive_solver congruence. }
  assert (L : forall r x, m' !! r = Some x -> exists y, m !! r = Some y /\ waitingSocks x = waitingSocks y /\ (r <> client -> r <> child -> sock_ok m' r x)).
  { intros r x Er. destruct (decide (r = client)) as [->|N1]; [|destruct (decide (r = child)) as [->|N2]; [|destruct (decide (r = server)) as [->|N3]]].
    - rewrite Mc in Er. injection Er as <-. by exists c.
    - rewrite Md in Er. injection Er as <-. exists d. by rewrite D5, Wd.
    - rewrite Ms in Er. injection Er as <-. exists s. split_and!; [done|done|]. intros _ _. apply (Same server s); try done. cbn.
      intros z [Hz|Hz]%elem_of_app; [by left|]. right. by apply list_elem_of_singleton in Hz.
    - rewrite Mo in Er by done. exists x. split_and!; [done|done|]. intros _ _. apply (Same r x); try done. by left. }
  split; [|split].
  - rewrite Mo; [done|..]; intros <-; congruence.
  - intros p x Ep. destruct (decide (p = client)) as [->|N1]; [|destruct (decide (p = child)) as [->|N2]; [|by destruct (L p x Ep) as (_ & _ & _ & ?); auto]].
    + rewrite Mc in Ep. injection Ep as <-. assert (sock_ok m' client (set_peer 0 c)) as [X1 X2 X3 X4 X5 X6 X7 X8]
        by (apply (Same client c); try done; by left).
      split; cbn in *; try done. intros _. split; [done|]. split; [done|]. by exists d'.
    + rewrite Md in Ep. injection Ep as <-. split; rewrite ?D1, ?D2, ?D3, ?D4, ?D5, ?D6, ?D7, ?Kd; try done; try (by intros z ?%elem_of_nil).
      * intros _. split; [done|]. split; [done|]. eexists. split; [exact Mc|done].
      * intros _. split; [done|]. eexists. split; [exact Ms|]. cbn. apply elem_of_app. right. left.
      * constructor.
      * intros [?|?]; done.
  - intros a b x y z Ea Eb Ca Cb. destruct (L _ _ Ea) as (x' & Ex & Wx & _), (L _ _ Eb) as (y' & Ey & Wy & _). rewrite Wx in Ca. rewrite Wy in Cb.
    by apply (H2 a b x' y' z).
Qed.

(** A socket that is neither waiting nor accepting goes away; its peer and its parent forget it. *)
Lemma socks_ok_close m m' p s : socks_ok m -> m !! p = Some s -> state s <> SOCKET_STATE_WAITING -> childSocks s = [] ->
  m' !! p = None ->
  (forall r x, r <> p -> m !! r = Some x -> m' !! r = Some (if decide (r = peer s) then set_peer 0 x
     else if decide (r = parent s) then set_children (filter (fun c => c <> p) (childSocks x)) x else x)) ->
  (forall r, m !! r = None -> m' !! r = None) -> socks_ok m'.
Proof.
  intros (H0 & H1 & H2) Es Nw Na Mp Mo Mn. pose proof (H1 _ _ Es) as [S1 S2 S3 S4 S5 S6 S7 S8].
  assert (Inv : forall r x, m' !! r = Some x -> exists y, r <> p /\ m !! r = Some y
    /\ x = (if decide (r = peer s) then set_peer 0 y else if decide (r = parent s) then set_children (filter (fun c => c <> p) (childSocks y)) y else y)).
  { intros r x Er. destruct (decide (r = p)) as [->|N]; [congruence|]. destruct (m !! r) as [y|] eqn:Ey; [|rewrite (Mn r Ey) in Er; done].
    exists y. rewrite (Mo r y N Ey) in Er. by injection Er as <-. }
  split; [by apply Mn|split].
  - intros r x Er. destruct (Inv r x Er) as (y & Nr & Ey & Hx). pose proof (H1 _ _ Ey) as [Y1 Y2 Y3 Y4 Y5 Y6 Y7 Y8].
    assert (F : state x = state y /\ parent x = parent y /\ waitingSocks x = waitingSocks y /\ is_server x = is_server y /\ addr x = addr y
      /\ recvPackets x = recvPackets y /\ (peer x <> 0 -> peer x = peer y /\ peer y <> p) /\ (forall c, c ∈ childSocks x -> c ∈ childSocks y /\ c <> p)).
    { assert (Ny : peer y = p -> peer s = r).
      { intros E. destruct (Z.eq_dec (peer y) 0) as [E0|N0]; [congruence|]. destruct (Y1 N0) as (_ & _ & t & Et & Pt). rewrite E in Et. congruence. }
      assert (Ny' : forall c, c ∈ childSocks y -> c = p -> parent s = r).
      { intros c Hc ->. destruct (Y3 p Hc) as (_ & t & Et & Pt). congruence. }
      subst x. case_decide as D1; [|case_decide as D2]; cbn; split_and!; try done.
      - intros c Hc. split; [done|]. intros ->. specialize (Ny' p Hc eq_refl). destruct (Y3 p Hc) as [Q _].
        destruct (Z.eq_dec (peer s) 0) as [E0|N0]; [congruence|]. destruct (S1 N0) as (_ & _ & t & Et & Pt). rewrite <- D1 in Et.
        assert (t = y) as -> by congruence. destruct (Y1 ltac:(congruence)) as [Q' _]. by rewrite Q' in Q.
      - intros _. split; [done|]. intros E. by apply D1, eq_sym, Ny.
      - intros c [Hf Hc]%list_elem_of_filter. done.
      - intros _. split; [done|]. intros E. by apply D1, eq_sym, Ny.
      - intros c Hc. split; [done|]. intros E. by apply D2, eq_sym, (Ny' c). }
    destruct F as (F1 & F2 & F3 & F4 & F5 & F6 & F7 & F8). clear Hx.
    split; rewrite ?F1, ?F2, ?F3, ?F4, ?F5, ?F6; try done.
    + intros N. destruct (F7 N) as [-> Np]. destruct (Y1 ltac:(destruct (F7 N); congruence)) as (Q1 & Q2 & t & Et & Pt). split; [done|]. split; [done|].
      eexists. split; [by apply Mo|]. case_decide as D1; [|by case_decide]. exfalso. apply Nr. rewrite <- Pt. rewrite D1 in Et.
      destruct (Z.eq_dec (peer s) 0) as [E0|N0]; [congruence|]. destruct (S1 N0) as (_ & _ & t' & Et' & Pt'). congruence.
    + intros N. destruct (Y2 N) as (Q1 & q & Eq & Iq). split; [done|].
      assert (Np : parent y <> p). { intros E. rewrite E in Eq. assert (q = s) as -> by congruence. rewrite Na in Iq. by apply elem_of_nil in Iq. }
      eexists. split; [by apply Mo|]. case_decide; [done|]. case_decide; [|done]. cbn. apply list_elem_of_filter. done.
    + intros c Hc. destruct (F8 c Hc) as [Hc' Nc]. destruct (Y3 c Hc') as (Q & t & Et & Pt). split; [done|]. eexists. split; [by apply Mo|].
      case_decide; [done|]. by case_decide.
    + intros c Hc. destruct (Y4 c Hc) as (t & Et & St). eexists. split; [apply Mo; [intros ->; congruence|done]|].
      case_decide; [done|]. by case_decide.
  - intros a b x y c Ea Eb Ca Cb. destruct (Inv a x Ea) as (x' & _ & Ex & ->), (Inv b y Eb) as (y' & _ & Ey & ->).
    apply (H2 a b x' y' c Ex Ey).
    + revert Ca. clear. case_decide; [|case_decide]; cbn; tauto.
    + revert Cb. clear. case_decide; [|case_decide]; cbn; tauto.
Qed.

(** *** Descriptors *)

Lemma files_ok_mono m m' l : (forall p, is_Some (m !! p) -> is_Some (m' !! p)) -> files_ok m l -> files_ok m' l.
Proof. intros H [F1 F2]. split; [|done]. intros fd p E N. apply H. by apply (F1 fd). Qed.
Lemma zlookup_app {A} (l l' : list A) i : zlookup (l ++ l') i = if i <? Z.of_nat (length l) then zlookup l i else zlookup l' (i - Z.of_nat (length l)).
Proof.
  unfold zlookup. destruct (Z.ltb_spec i (Z.of_nat (length l))), (Z.leb_spec 0 i), (Z.leb_spec 0 (i - Z.of_nat (length l))); try lia; try done.
  - apply lookup_app_l. lia.
  - rewrite lookup_app_r by lia. f_equal. lia.
Qed.
Lemma files_ok_grow m l k : files_ok m l -> files_ok m (l ++ replicate k None).
Proof.
  intros [F1 F2]. assert (G : forall fd p, zlookup (l ++ replicate k None) fd = Some (Some p) -> zlookup l fd = Some (Some p)).
  { intros fd p. rewrite zlookup_app. destruct (fd <? Z.of_nat (length l)); [done|]. intros [_ E]%zlookup_Some. by apply lookup_replicate in E as [? _]. }
  split; [intros fd p E; apply (F1 fd p), G, E|intros fd fd' p E E'; apply F2; by apply G].
Qed.
Lemma files_ok_set m l l' fd p : files_ok m l -> zupdate l fd (Some p) = Some l' -> p = 0 \/ (is_Some (m !! p) /\ forall fd', zlookup l fd' <> Some (Some p)) ->
  files_ok m l'.
Proof.
  intros [F1 F2] U Hp. assert (G : forall k q, zlookup l' k = Some (Some q) -> (k = fd /\ q = p) \/ zlookup l k = Some (Some q)).
  { intros k q E. destruct (zlookup_Some _ _ _ E) as [B _]. rewrite (zlookup_zupdate _ _ _ _ _ U) in E by lia.
    destruct (Z.eqb_spec k fd); [injection E as ->; by left|by right]. }
  split.
  - intros k q E N. destruct (G k q E) as [[-> ->]|E']; [naive_solver|by apply (F1 k)].
  - intros k k' q E E' N. destruct (G k q E) as [[E1 E2]|Ek], (G k' q E') as [[E3 E4]|Ek']; try congruence; [| |by apply (F2 k k' q)].
    all: destruct Hp as [?|[_ Hp]]; [congruence|subst q; naive_solver].
Qed.
Lemma free_entry_range l : forall i, 0 <= i -> i <= free_entry l i <= i + Z.of_nat (length l).
Proof. induction l as [|[x|] l IH]; intros i Hi; cbn [free_entry length]; [lia| |lia]. specialize (IH (i + 1)). lia. Qed.

Section Unclosed.
Context {u : bool}.

Lemma SysSocketCreate_ok alloc info domain ty n : net_ok u n -> domain <> NET_FAMILIES_MAX -> c_true (Z.land ty SOCKET_TYPE_SERVER) = false ->
  alloc = 0 \/ sockets n !! alloc = None -> exists r n', SysSocketCreate alloc info SOCKET_STATE_FREE domain ty n = Ret (r, n') /\ net_ok u n'
  /\ localListenSockets n' = localListenSockets n /\ (forall p s, sockets n !! p = Some s -> sockets n' !! p = Some s)
  /\ (0 <= r -> alloc <> 0 /\ sockets n !! alloc = None /\ zlookup (files n') r = Some (Some alloc) /\ exists d, sockets n' = <[alloc := d]> (sockets n)
        /\ single d /\ childSocks d = [] /\ waitingSocks d = [] /\ recvPackets d = [] /\ is_server d = false).
Proof.
  intros Ok Nd Ty Ha. pose proof Ok as [O1 O2 O3 O4 O5]. unfold SysSocketCreate.
  destruct (Z.ltb_spec domain 0) as [Hd|Hd]; [cbn; exists (- EFAMILY), n; split_and!; try done; by intros ?|].
  destruct (Z.ltb_spec NET_FAMILIES_MAX domain) as [Hd'|Hd']; [cbn; exists (- EFAMILY), n; split_and!; try done; by intros ?|]. cbn [orb].
  unfold SocketCreate. destruct (zlookup_lt (families n) domain) as [ok ->]; [lia|]. cbn [of_option bindO].
  destruct ok; cbn [negb]; [|exists (- ENOMEM), n; split_and!; try done; by intros ?].
  destruct (Z.eqb_spec alloc 0) as [->|N0]; [exists (- ENOMEM), n; split_and!; try done; by intros ?|].
  unfold LocalCreate. cbn [type]. unfold SOCKET_TYPE_STREAM. rewrite Z.land_0_r. change (c_true 0) with false.
  destruct (info =? 0); [exists (- ENOMEM), n; split_and!; try done; by intros ?|]. change (c_true 0) with false. cbn [bindO set_peer].
  destruct (Z.eqb_spec alloc 0); [done|]. destruct Ha as [?|Ha]; [done|]. set (d := {| state := SOCKET_STATE_FREE |}).
  assert (Od : socks_ok (<[alloc := d]> (sockets n))) by (by apply socks_ok_new).
  assert (Mono : forall p, is_Some (sockets n !! p) -> is_Some (<[alloc := d]> (sockets n) !! p)) by (intros p [x E]; rewrite lookup_insert_ne by congruence; by eexists).
  assert (Fresh : forall fd', zlookup (files n) fd' <> Some (Some alloc)).
  { intros fd' E. destruct (proj1 O4 fd' alloc E N0) as [x Ex]. congruence. }
  assert (Base : forall l, files_ok (<[alloc := d]> (sockets n)) l -> net_ok u (with_files l (put alloc d n))).
  { intros l F. split; cbn; try done.
    - intros p s. destruct (decide (p = alloc)) as [->|N]; [rewrite lookup_insert_eq; intros [= <-]; cbn; lia|rewrite lookup_insert_ne by done; apply O2].
    - intros Hu p Hp. destruct (O3 Hu p Hp) as (s & Es & Ss). exists s. rewrite lookup_insert_ne by congruence. done. }
  assert (Same : forall p s, sockets n !! p = Some s -> <[alloc := d]> (sockets n) !! p = Some s) by (intros p s E; by rewrite lookup_insert_ne by congruence).
  assert (Main : forall l i, files_ok (<[alloc := d]> (sockets n)) l -> (forall fd', zlookup l fd' <> Some (Some alloc)) -> 0 <= i < Z.of_nat (length l) ->
    exists r n', (let* l' := of_option (zupdate l i (Some alloc)) in Ret (i, with_files l' (put alloc d n))) = Ret (r, n') /\ net_ok u n'
    /\ localListenSockets n' = localListenSockets n /\ (forall p s, sockets n !! p = Some s -> sockets n' !! p = Some s)
    /\ (0 <= r -> alloc <> 0 /\ sockets n !! alloc = None /\ zlookup (files n') r = Some (Some alloc) /\ exists d, sockets n' = <[alloc := d]> (sockets n)
          /\ single d /\ childSocks d = [] /\ waitingSocks d = [] /\ recvPackets d = [] /\ is_server d = false)).
  { intros l i F Fr Hi. rewrite zupdate_lt by done. cbn [of_option bindO]. eexists i, _. split; [done|].
    pose proof (zupdate_lt l i (Some alloc) Hi) as U. split; [|split; [done|split; [done|]]].
    - apply Base. apply (files_ok_set _ _ _ _ _ F U). right. split; [rewrite lookup_insert_eq; by eexists|done].
    - intros _. split; [done|]. split; [done|]. split; [cbn; rewrite (zlookup_zupdate _ _ _ _ _ U), Z.eqb_refl by lia; done|]. by exists d. }
  pose proof (free_entry_range (files n) 0 ltac:(lia)) as Fs. unfold VfsGetFreeFd. cbn [files put with_sockets].
  destruct (Z.ltb_spec (free_entry (files n) 0) (Z.of_nat (length (files n)))) as [Hi|Hi]; [|destruct (Z.leb_spec 100 (Z.of_nat (length (files n))))].
  - destruct (Z.ltb_spec (free_entry (files n) 0) 0); [lia|]. apply (Main (files n)); [by apply (files_ok_mono (sockets n))|done|lia].
  - cbn. exists (- EMFILE), (put alloc d n). split; [done|]. split; [|done]. apply (Base (files n)). by apply (files_ok_mono (sockets n)).
  - destruct (Z.ltb_spec (free_entry (files n) 0) 0); [lia|]. apply (Main (files n ++ replicate 10 None)).
    + by apply files_ok_grow, (files_ok_mono (sockets n)).
    + intros fd'. rewrite zlookup_app. destruct (fd' <? _); [apply Fresh|]. intros [_ E]%zlookup_Some. by apply lookup_replicate in E as [? _].
    + rewrite length_app, length_replicate. lia.
Qed.

(** *** Calls *)

Inductive call :=
| Create (alloc info domain ty : Z)
| Bind (fd : Z) (name : list Z)
| Connect (fd fam : Z) (name : list Z)
| Listen (fd : Z)
| Accept (alloc info fd : Z)
| Send (room : bool) (areas : list VMArea) (at_ fd : Z) (buffer : list Z)
| Receive (areas : list VMArea) (at_ fd len : Z)
| Close (fd : Z).
Inductive reply := RInt (r : result Z) | RData (r : result (Z * list Z)).

Definition run_call (fuel : nat) (c : call) (n : net) : outcome (reply * net) :=
  match c with
  | Create alloc info domain ty => let* (r, n) := SysSocketCreate alloc info SOCKET_STATE_FREE domain ty n in Ret (RInt (Done r), n)
  | Bind fd name => let* (r, n) := SysSocketBind fd name n in Ret (RInt (Done r), n)
  | Connect fd fam name => let* (r, n) := SysSocketConnect fd fam name n in Ret (RInt r, n)
  | Listen fd => let* (r, n) := SysSocketListen fd n in Ret (RInt (Done r), n)
  | Accept alloc info fd => let* (r, n) := SysSocketAccept alloc info SOCKET_STATE_FREE fd n in Ret (RInt r, n)
  | Send room areas at_ fd buffer => let* (r, n) := SysSocketSend room areas at_ fd buffer n in Ret (RInt (Done r), n)
  | Receive areas at_ fd len => let* (r, n) := SysSocketReceive fuel areas at_ fd len n in Ret (RData r, n)
  | Close fd => let* (r, n) := SysSocketClose fd n in Ret (RInt (Done r), n)
  end.

(** How the calls are to be used: new memory is unused, a socket is bound
    or connected once, a name fills the address, nothing is received from a
    peer that is gone, a waiting socket is not closed, nor a listening one
    while clients wait for it or sockets it accepted are open, and once a
    listening socket has been closed nothing connects or listens. *)
Definition on_socket (fd : Z) (P : Socket -> Prop) (n : net) : Prop :=
  forall p s, SocketGet fd n = Some p -> sockets n !! p = Some s -> P s.
Definition proper (fuel : nat) (c : call) (n : net) : Prop :=
  match c with
  | Create alloc info domain ty => domain <> NET_FAMILIES_MAX /\ c_true (Z.land ty SOCKET_TYPE_SERVER) = false
      /\ (alloc = 0 \/ sockets n !! alloc = None)
  | Connect fd _ name =>
      u = true /\ (Z.to_nat SOCKET_DATA_LENGTH <= length name)%nat /\ on_socket fd (fun s => state s = SOCKET_STATE_FREE) n
  | Bind fd name =>
      (Z.to_nat SOCKET_DATA_LENGTH <= length name)%nat /\ on_socket fd (fun s => state s = SOCKET_STATE_FREE) n
  | Accept alloc info fd => alloc = 0 \/ sockets n !! alloc = None
  | Receive _ _ fd _ => on_socket fd (fun s => peer s <> 0 /\ (length (recvPackets s) + 1 < fuel)%nat) n
  | Close fd => on_socket fd (fun s => state s <> SOCKET_STATE_WAITING /\ childSocks s = [] /\ waitingSocks s = []) n
  | Listen _ => u = true
  | Send _ _ _ _ _ => True
  end.
Definition closes_listener (c : call) (n : net) : bool :=
  match c with
  | Close fd =>
      match SocketGet fd n with
      | Some p => match sockets n !! p with Some s => state s =? SOCKET_STATE_ACCEPTING | None => false end
      | None => false
      end
  | _ => false
  end.
Lemma on_socket_intro fd P n : match SocketGet fd n with Some p => match sockets n !! p with Some s => P s | None => True end | None => True end -> on_socket fd P n.
Proof. intros H p s G E. by rewrite G, E in H. Qed.

Lemma SocketGet_alive fd n p : net_ok u n -> SocketGet fd n = Some p -> exists s, sockets n !! p = Some s /\ zlookup (files n) fd = Some (Some p) /\ p <> 0.
Proof.
  intros Ok. unfold SocketGet. destruct (zlookup (files n) fd) as [[q|]|] eqn:E; [|done..]. destruct (Z.eqb_spec q 0); [done|].
  intros [= ->]. destruct (proj1 (no_files n Ok) fd p E) as [s Es]; [done|]. by exists s.
Qed.

(** One socket changes, with the same family and, if it was accepting, still accepting. *)
Lemma net_ok_put n p s s' : net_ok u n -> sockets n !! p = Some s -> family s' = family s ->
  (state s = SOCKET_STATE_ACCEPTING -> state s' = SOCKET_STATE_ACCEPTING) -> socks_ok (<[p := s']> (sockets n)) -> net_ok u (put p s' n).
Proof.
  intros [O1 O2 O3 O4 O5] E Hf Hs Ok. split; cbn; try done.
  - intros r x. destruct (decide (r = p)) as [->|N]; [rewrite lookup_insert_eq; intros [= <-]; rewrite Hf; by apply (O2 p)|rewrite lookup_insert_ne by done; apply O2].
  - intros Hu r Hr. destruct (O3 Hu r Hr) as (x & Ex & Sx). destruct (decide (r = p)) as [->|N].
    + exists s'. rewrite lookup_insert_eq. split; [done|]. apply Hs. congruence.
    + exists x. by rewrite lookup_insert_ne.
  - apply (files_ok_mono (sockets n)); [|done]. intros r Hr. destruct (decide (r = p)) as [->|N]; [rewrite lookup_insert_eq; by eexists|by rewrite lookup_insert_ne].
Qed.

Lemma get_put p s n : get p (put p s n) = Ret s.
Proof. unfold get. cbn. by rewrite lookup_insert_eq. Qed.
Lemma put_put p s t n : put p s (put p t n) = put p s n.
Proof. unfold put, with_sockets. cbn. by rewrite insert_insert_eq. Qed.

(** Packets of a socket. *)
Lemma net_ok_packets n p s l : net_ok u n -> sockets n !! p = Some s -> Forall packet_ok l -> net_ok u (put p (set_packets l s) n).
Proof.
  intros Ok E F. apply (net_ok_put n p s); try done. apply (socks_ok_put _ p s); try done; [apply Ok|by left|]. intros [X1 X2 X3 X4 X5 X6 X7 X8]. by split.
Qed.

Lemma strncmp_bytes_total k a b : (k <= length a)%nat -> (k <= length b)%nat -> exists r, strncmp_bytes k a b = Ret r.
Proof.
  revert a b. induction k as [|k IH]; intros [|x a] [|y b] La Lb; cbn [strncmp_bytes length] in *; try lia; try (by eexists).
  destruct (c_true _); [by eexists|]. destruct (negb _); [by eexists|]. apply IH; lia.
Qed.
Lemma find_server_total name n l : net_ok u n -> (Z.to_nat SOCKET_DATA_LENGTH <= length name)%nat ->
  (forall p, p ∈ l -> exists s, sockets n !! p = Some s /\ state s = SOCKET_STATE_ACCEPTING) ->
  exists r, find_server l name n = Ret r /\ (r = 0 \/ exists s, sockets n !! r = Some s /\ state s = SOCKET_STATE_ACCEPTING).
Proof.
  intros Ok Hn. induction l as [|p l IH]; intros H; cbn [find_server]; [exists 0; naive_solver|].
  destruct (H p ltac:(left)) as (s & Es & Ss). unfold get. rewrite Es. cbn [of_option bindO].
  pose proof (so_name _ _ _ (proj1 (proj2 (no_socks n Ok)) p s Es) (or_intror Ss)) as L.
  destruct (strncmp_bytes_total (Z.to_nat SOCKET_DATA_LENGTH) name (addr s) Hn L) as [r ->]. cbn [bindO].
  destruct (r =? 0); [|by apply IH; intros q Hq; apply H; right]. exists p. split; [done|]. right. by exists s.
Qed.

Definition succeeds (c : call) (fuel : nat) (n : net) : Prop := exists r n', run_call fuel c n = Ret (r, n') /\ net_ok u n'.

Lemma free_single m p s : sock_ok m p s -> state s = SOCKET_STATE_FREE -> single s /\ childSocks s = [] /\ is_server s = false.
Proof.
  intros [X1 X2 X3 X4 X5 X6 X7 X8] Hs. rewrite Hs in X1, X2, X3, X6. split; [split_and!; [| |by rewrite Hs..]|split].
  - destruct (Z.eq_dec (peer s) 0) as [|N]; [done|]. by destruct (X1 N).
  - destruct (Z.eq_dec (parent s) 0) as [|N]; [done|]. by destruct (X2 N).
  - destruct (childSocks s) as [|z l]; [done|]. by destruct (X3 z ltac:(left)).
  - destruct (is_server s); [by destruct (X6 eq_refl)|done].
Qed.

Lemma bind_ok fuel fd name n : net_ok u n -> proper fuel (Bind fd name) n -> succeeds (Bind fd name) fuel n.
Proof.
  intros Ok [Hn Hs]. unfold succeeds. cbn [run_call]. unfold SysSocketBind. destruct (SocketGet fd n) as [p|] eqn:G; [|by eexists _, n].
  destruct (SocketGet_alive fd n p Ok G) as (s & Es & _ & _). specialize (Hs p s G Es). cbn in Hs.
  pose proof (proj1 (proj2 (no_socks n Ok)) p s Es) as Q. destruct (free_single _ _ _ Q Hs) as (Sg & Ch & Sv).
  unfold LocalBind, update at 1, get at 1. rewrite Es. cbn [of_option bindO]. change (c_true 0) with false. cbn iota. unfold update. rewrite get_put. cbn [bindO]. rewrite put_put.
  eexists _, _. split; [done|]. apply (net_ok_put n p s _ Ok Es); cbn; [done|by rewrite Hs|].
  apply (socks_ok_put _ p s _ (no_socks n Ok) Es); try done; cbn.
  - by rewrite Hs.
  - by intros c ?%elem_of_nil.
  - intros [X1 X2 X3 X4 X5 X6 X7 X8]. destruct Sg as (P1 & P2 & _). split; cbn; rewrite ?Ch; try done; try (by intros c ?%elem_of_nil); [constructor|].
    intros _. by left.
Qed.

Lemma waiting_none n p s : net_ok u n -> sockets n !! p = Some s -> state s <> SOCKET_STATE_WAITING ->
  forall q t, sockets n !! q = Some t -> p ∉ waitingSocks t.
Proof.
  intros Ok Es N q t Eq Hp. destruct (so_waiting _ _ _ (proj1 (proj2 (no_socks n Ok)) q t Eq) p Hp) as (x & Ex & Sx). congruence.
Qed.

Lemma connect_ok fuel fd fam name n : net_ok u n -> proper fuel (Connect fd fam name) n -> succeeds (Connect fd fam name) fuel n.
Proof.
  intros Ok (Hu & Hn & Hs). unfold succeeds. cbn [run_call]. unfold SysSocketConnect. destruct (SocketGet fd n) as [p|] eqn:G; [|by eexists _, n].
  destruct (SocketGet_alive fd n p Ok G) as (s & Es & _ & _). specialize (Hs p s G Es). cbn in Hs.
  pose proof (proj1 (proj2 (no_socks n Ok)) p s Es) as Q. destruct (free_single _ _ _ Q Hs) as (Sg & Ch & Sv).
  unfold LocalConnect. destruct (negb (fam =? PF_LOCAL)); [by eexists _, n|].
  destruct (find_server_total name n (localListenSockets n) Ok Hn (no_listen n Ok Hu)) as (r & -> & Hr). cbn [bindO].
  destruct (Z.eqb_spec r 0) as [->|N0]; [by eexists _, n|]. destruct Hr as [?|(t & Et & St)]; [done|].
  assert (Nrp : r <> p) by (intros ->; assert (t = s) as -> by congruence; by rewrite Hs in St).
  unfold update, get. rewrite Es. cbn [of_option bindO]. set (n1 := put p (set_state SOCKET_STATE_WAITING s) n).
  assert (O1 : net_ok u n1).
  { apply (net_ok_put n p s _ Ok Es); cbn; [done|by rewrite Hs|]. apply (socks_ok_put _ p s _ (no_socks n Ok) Es); try done; [by left|].
    intros [X1 X2 X3 X4 X5 X6 X7 X8]. destruct Sg as (P1 & P2 & _). split; cbn; rewrite ?Ch; try done; try (by intros c ?%elem_of_nil).
    - intros V. change (is_server (set_state SOCKET_STATE_WAITING s)) with (is_server s) in V. congruence.
    - intros [?|?]; done. }
  assert (E1 : sockets n1 !! r = Some t) by (cbn; by rewrite lookup_insert_ne). rewrite E1. cbn [of_option bindO].
  eexists _, _. split; [done|]. apply (net_ok_put n1 r t _ O1 E1); cbn [set_waiting family state]; [done|done|].
  assert (Nw : forall q x, sockets n1 !! q = Some x -> p ∉ waitingSocks x).
  { assert (Ns : state s <> SOCKET_STATE_WAITING) by (by rewrite Hs). intros q x. cbn. destruct (decide (q = p)) as [->|Nq].
    - rewrite lookup_insert_eq. intros [= <-]. apply (waiting_none n p s Ok Es Ns p s Es).
    - rewrite lookup_insert_ne by done. apply (waiting_none n p s Ok Es Ns). }
  apply (socks_ok_put _ r t _ (no_socks n1 O1) E1); try done; cbn [set_waiting waitingSocks].
  - intros c [->|Hc]%elem_of_cons; [by right|by left].
  - intros [X1 X2 X3 X4 X5 X6 X7 X8]. split; try done; cbn [set_waiting waitingSocks].
    + intros c [->|Hc]%elem_of_cons; [|by apply X4]. eexists. rewrite lookup_insert_ne by done. cbn. rewrite lookup_insert_eq. done.
    + apply NoDup_cons. split; [by apply (Nw r t)|done].
Qed.

Lemma listen_ok fuel fd n : net_ok u n -> succeeds (Listen fd) fuel n.
Proof.
  intros Ok. unfold succeeds. cbn [run_call]. unfold SysSocketListen. destruct (SocketGet fd n) as [p|] eqn:G; [|by eexists _, n].
  destruct (SocketGet_alive fd n p Ok G) as (s & Es & _ & _). unfold get. rewrite Es. cbn [of_option bindO].
  destruct (Z.eqb_spec (state s) SOCKET_STATE_BOUND) as [Hs|]; cbn [negb]; [|by eexists _, n].
  unfold LocalListen, update, get. cbn. rewrite Es. cbn [of_option bindO]. eexists _, _. split; [done|].
  set (s' := set_state SOCKET_STATE_ACCEPTING s). assert (O1 : net_ok u (put p s' n)).
  { apply (net_ok_put n p s _ Ok Es); try done. apply (socks_ok_put _ p s _ (no_socks n Ok) Es); try done; [by rewrite Hs|by left|].
    intros [X1 X2 X3 X4 X5 X6 X7 X8]. rewrite Hs in *. split; cbn; try done.
    - intros N. by destruct (X1 N).
    - intros N. by destruct (X2 N).
    - intros c Hc. by destruct (X3 c Hc).
    - intros _. by right.
    - intros _. apply X7. by left. }
  destruct O1 as [P1 P2 P3 P4 P5]. split; cbn in *; try done. intros Hu q [->|Hq]%elem_of_cons; [|by apply P3].
  exists s'. by rewrite lookup_insert_eq.
Qed.

Lemma net_ok_sockets n m : net_ok u n -> socks_ok m -> family_ok m -> (forall p, is_Some (sockets n !! p) -> is_Some (m !! p)) ->
  (u = true -> forall p, p ∈ localListenSockets n -> exists s, m !! p = Some s /\ state s = SOCKET_STATE_ACCEPTING) -> net_ok u (with_sockets m n).
Proof. intros [O1 O2 O3 O4 O5] H1 H2 H3 H4. split; cbn; try done. by apply (files_ok_mono (sockets n)). Qed.

(** The sockets after a client was taken from the queue. *)
Lemma dequeue_ok n p s client rest c : net_ok u n -> sockets n !! p = Some s -> state s = SOCKET_STATE_ACCEPTING ->
  waitingSocks s = client :: rest -> sockets n !! client = Some c -> state c = SOCKET_STATE_WAITING ->
  let n1 := put client (set_state SOCKET_STATE_CONNECTED c) (put p (set_waiting rest s) n) in
  net_ok u n1 /\ p <> client /\ single (set_state SOCKET_STATE_CONNECTED c) /\ is_server c = false.
Proof.
  intros Ok Es Ss Ew Ec Sc. destruct (socks_ok_dequeue _ _ _ _ _ _ (no_socks n Ok) Es Ew Ss Ec Sc) as (Q & Npc & Sg & Sv). split; [|done].
  apply (net_ok_sockets n (<[client := set_state SOCKET_STATE_CONNECTED c]> (<[p := set_waiting rest s]> (sockets n)))); try done.
  - intros r x. destruct (decide (r = client)) as [->|N1]; [rewrite lookup_insert_eq; intros [= <-]; by apply (no_family n Ok client c)|].
    rewrite lookup_insert_ne by done. destruct (decide (r = p)) as [->|N2]; [rewrite lookup_insert_eq; intros [= <-]; by apply (no_family n Ok p s)|].
    rewrite lookup_insert_ne by done. apply (no_family n Ok).
  - intros r Hr. destruct (decide (r = client)) as [->|N1]; [rewrite lookup_insert_eq; by eexists|]. rewrite lookup_insert_ne by done.
    destruct (decide (r = p)) as [->|N2]; [rewrite lookup_insert_eq; by eexists|]. by rewrite lookup_insert_ne.
  - intros Hu r Hr. destruct (no_listen n Ok Hu r Hr) as (x & Ex & Sx).
    rewrite lookup_insert_ne by (intros ->; assert (x = c) as -> by congruence; by rewrite Sx in Sc).
    destruct (decide (r = p)) as [->|N2]; [rewrite lookup_insert_eq; by eexists|]. rewrite lookup_insert_ne by done. by exists x.
Qed.

Lemma accept_ok fuel alloc info fd n : net_ok u n -> proper fuel (Accept alloc info fd) n -> succeeds (Accept alloc info fd) fuel n.
Proof.
  intros Ok Ha. cbn [proper] in Ha. unfold succeeds. cbn [run_call]. unfold SysSocketAccept. destruct (SocketGet fd n) as [p|] eqn:G; [|by eexists _, n].
  destruct (SocketGet_alive fd n p Ok G) as (s & Es & _ & _). unfold get at 1. rewrite Es. cbn [of_option bindO].
  destruct (Z.eqb_spec (state s) SOCKET_STATE_ACCEPTING) as [Ss|]; cbn [negb]; [|by eexists _, n].
  unfold LocalAccept, get at 1. rewrite Es. cbn [of_option bindO]. destruct (waitingSocks s) as [|client rest] eqn:Ew; [by eexists _, n|].
  destruct (so_waiting _ _ _ (proj1 (proj2 (no_socks n Ok)) p s Es) client) as (c & Ec & Sc); [rewrite Ew; left|].
  destruct (dequeue_ok n p s client rest c Ok Es Ss Ew Ec Sc) as (O1 & Npc & Sg & Sv). set (n1 := put client _ _) in O1.
  unfold update at 1, get at 1. rewrite Es. cbn [of_option bindO]. unfold SocketDoAccept, update at 1, get at 1. cbn. rewrite lookup_insert_ne, Ec by done.
  cbn [of_option bindO]. change (put client (set_state SOCKET_STATE_CONNECTED c) (put p (set_waiting rest s) n)) with n1.
  assert (E1 : sockets n1 !! client = Some (set_state SOCKET_STATE_CONNECTED c)) by (cbn; by rewrite lookup_insert_eq).
  assert (E2 : sockets n1 !! p = Some (set_waiting rest s)) by (cbn; by rewrite lookup_insert_ne, lookup_insert_eq).
  unfold get at 1. rewrite E1. cbn [of_option bindO]. cbn [family type set_state].
  destruct (SysSocketCreate_ok alloc info (family c) (type c) n1 O1) as (r & n2 & -> & O2 & L2 & M2 & H2).
  { pose proof (no_family n Ok client c Ec). unfold NET_FAMILIES_MAX in *. lia. }
  { exact Sv. }
  { destruct Ha as [->|Ha]; [by left|right]. cbn. rewrite !lookup_insert_ne by congruence. done. }
  cbn [bindO]. destruct (Z.ltb_spec r 0) as [Hr|Hr]; [cbn [bindO]; destruct (Z.ltb_spec r 0); [|lia]; by eexists _, n2|].
  destruct (H2 Hr) as (Na & Fa & Ef & d & Ed & Dg & D1 & D2 & D3 & D4). rewrite Ef. cbn [of_option bindO].
  assert (Nca : client <> alloc /\ p <> alloc) by (split; intros ->; congruence). destruct Nca as [Nca Npa].
  assert (E3 : sockets n2 !! alloc = Some d) by (by rewrite Ed, lookup_insert_eq).
  unfold SocketSetupChild, update, get. rewrite (M2 p _ E2). cbn [of_option bindO]. rewrite E3. cbn [of_option bindO put with_sockets sockets].
  rewrite lookup_insert_ne by done. rewrite (M2 p _ E2). cbn [of_option bindO put with_sockets sockets].
  destruct (Z.ltb_spec r 0); [lia|]. unfold LocalSetPeer, update, get. destruct (Z.eqb_spec alloc 0); [done|]. cbn [put with_sockets sockets].
  rewrite lookup_insert_ne by done. rewrite lookup_insert_eq. cbn [of_option bindO put with_sockets sockets].
  destruct (Z.eqb_spec client 0) as [->|N0]; [by rewrite (proj1 (no_socks n Ok)) in Ec|].
  rewrite lookup_insert_ne by done. rewrite lookup_insert_ne by done. rewrite lookup_insert_ne by done. rewrite (M2 client _ E1). cbn [of_option bindO].
  eexists _, _. split; [done|]. unfold put, with_sockets. cbn [sockets localListenSockets files families].
  match goal with |- net_ok u {| sockets := ?m |} => apply (net_ok_sockets n2 m O2) end.
  - eapply (socks_ok_pair (sockets n2) _ p client alloc _ _ d _ (no_socks n2 O2) (M2 p _ E2) (M2 client _ E1));
      [exact E3|done|done|done|done|done|done|..].
    8: { rewrite lookup_insert_ne, lookup_insert_ne, lookup_insert_eq by done. done. }
    8: { by rewrite lookup_insert_eq. }
    8: { by rewrite lookup_insert_ne, lookup_insert_eq. }
    all: cbn; try done.
    + unfold is_server. cbn [type set_peer]. rewrite <- Z.land_assoc, (Z.land_comm (Z.lnot _)), Z.land_lnot_diag, Z.land_0_r. done.
    + intros q N1 N2 N3. by rewrite !lookup_insert_ne.
  - intros q x. destruct (decide (q = client)) as [->|N1]; [rewrite lookup_insert_eq; intros [= <-]; apply (no_family n2 O2 client _ (M2 client _ E1))|].
    rewrite lookup_insert_ne by done. destruct (decide (q = alloc)) as [->|N2]; [rewrite lookup_insert_eq; intros [= <-]; apply (no_family n2 O2 p _ (M2 p _ E2))|].
    rewrite lookup_insert_ne by done. destruct (decide (q = p)) as [->|N3]; [rewrite lookup_insert_eq; intros [= <-]; apply (no_family n2 O2 p _ (M2 p _ E2))|].
    rewrite lookup_insert_ne by done. rewrite lookup_insert_ne by done. apply (no_family n2 O2).
  - intros q Hq. destruct (decide (q = client)) as [->|N1]; [rewrite lookup_insert_eq; by eexists|]. rewrite lookup_insert_ne by done.
    destruct (decide (q = alloc)) as [->|N2]; [rewrite lookup_insert_eq; by eexists|]. rewrite lookup_insert_ne by done.
    destruct (decide (q = p)) as [->|N3]; [rewrite lookup_insert_eq; by eexists|]. by rewrite !lookup_insert_ne.
  - intros Hu q Hq. destruct (no_listen n2 O2 Hu q Hq) as (x & Ex & Sx).
    assert (q <> client) by (intros ->; rewrite (M2 client _ E1) in Ex; injection Ex as <-; done).
    assert (q <> alloc) by (intros ->; rewrite E3 in Ex; injection Ex as <-; by destruct Dg as (_ & _ & _ & ?)).
    rewrite lookup_insert_ne, lookup_insert_ne by done. destruct (decide (q = p)) as [->|N3]; [rewrite lookup_insert_eq; eexists; split; [done|]; exact Ss|].
    rewrite !lookup_insert_ne by done. by exists x.
Qed.

Lemma create_ok fuel alloc info domain ty n : net_ok u n -> proper fuel (Create alloc info domain ty) n -> succeeds (Create alloc info domain ty) fuel n.
Proof.
  intros Ok (H1 & H2 & H3). destruct (SysSocketCreate_ok alloc info domain ty n Ok H1 H2 H3) as (r & n' & E & Ok' & _).
  unfold succeeds. cbn [run_call]. rewrite E. by eexists _, _.
Qed.

Lemma send_ok fuel room areas at_ fd buffer n : net_ok u n -> succeeds (Send room areas at_ fd buffer) fuel n.
Proof.
  intros Ok. unfold succeeds. cbn [run_call]. unfold SysSocketSend. destruct (SocketGet fd n) as [p|] eqn:G; [|by eexists _, n].
  destruct (SocketGet_alive fd n p Ok G) as (s & Es & _ & _). unfold get at 1. rewrite Es. cbn [of_option bindO].
  destruct (negb (state s =? SOCKET_STATE_CONNECTED)) eqn:Ss; [by eexists _, n|]. destruct (_ <? 0); [by eexists _, n|].
  unfold LocalSend, get. rewrite Es. cbn [of_option bindO]. rewrite Ss. destruct (Z.eqb_spec (peer s) 0) as [|Np]; [by eexists _, n|].
  destruct room; cbn [negb]; [|by eexists _, n].
  destruct (so_peer _ _ _ (proj1 (proj2 (no_socks n Ok)) p s Es) Np) as (_ & _ & t & Et & _).
  unfold update, get. rewrite Et. cbn [of_option bindO]. eexists _, _. split; [done|]. apply (net_ok_packets n); try done. apply Forall_app. split.
  - apply (so_packets _ _ _ (proj1 (proj2 (no_socks n Ok)) _ t Et)).
  - constructor; [|done]. split; cbn; lia.
Qed.

Lemma receive_ok fuel areas at_ fd len n : net_ok u n -> proper fuel (Receive areas at_ fd len) n -> succeeds (Receive areas at_ fd len) fuel n.
Proof.
  intros Ok Hp. cbn [proper] in Hp. unfold succeeds. cbn [run_call]. unfold SysSocketReceive. destruct (SocketGet fd n) as [p|] eqn:G; [|by eexists _, n].
  destruct (SocketGet_alive fd n p Ok G) as (s & Es & _ & _). destruct (Hp p s G Es) as [Np Hf]. unfold get at 1. rewrite Es. cbn [of_option bindO].
  destruct (negb (state s =? SOCKET_STATE_CONNECTED)); [by eexists _, n|]. destruct (_ <? 0); [by eexists _, n|].
  pose proof (proj1 (proj2 (no_socks n Ok)) p s Es) as Q. destruct (so_peer _ _ _ Q Np) as (_ & _ & t & Et & _).
  unfold LocalReceive, get. rewrite Es. cbn [of_option bindO]. rewrite Et. cbn [of_option bindO].
  destruct (receive_loop_ends len (recvPackets s) fuel 0 Hf ltac:(lia) (so_packets _ _ _ Q)) as (out & l & E & F).
  destruct (recvPackets s) as [|b bs]; [by eexists _, n|]. rewrite E. cbn [bindO]. unfold update, get. rewrite Es. cbn [of_option bindO].
  eexists _, _. split; [done|]. by apply (net_ok_packets n).
Qed.

(** What LocalClose does to the map of the sockets. *)
Lemma LocalClose_spec n p s : socks_ok (sockets n) -> sockets n !! p = Some s -> exists m, LocalClose p n = Ret (with_sockets m n)
  /\ forall r, m !! r = if decide (r = peer s) then set_peer 0 <$> sockets n !! r else sockets n !! r.
Proof.
  intros (H0 & H1 & _) Es. pose proof (H1 _ _ Es) as [S1 S2 S3 S4 S5 S6 S7 S8]. unfold LocalClose.
  destruct (Z.eqb_spec p 0) as [->|_]; [congruence|]. unfold get. rewrite Es. cbn [of_option bindO].
  assert (Same : peer s = 0 -> forall r, sockets n !! r = if decide (r = peer s) then set_peer 0 <$> sockets n !! r else sockets n !! r).
  { intros -> r. case_decide as D; [|done]. by rewrite D, H0. }
  assert (Eta : n = with_sockets (sockets n) n) by (by destruct n). destruct (is_server s) eqn:V.
  { exists (sockets n). split; [by rewrite <- Eta|]. apply Same. destruct (Z.eq_dec (peer s) 0) as [|N]; [done|]. destruct (S1 N) as [E _], (S6 eq_refl) as [E'|E']; by rewrite E in E'. }
  unfold LocalSetPeer. destruct (Z.eqb_spec (peer s) 0) as [P0|N]; [exists (sockets n); split; [by rewrite <- Eta|by apply Same]|].
  destruct (S1 N) as (_ & _ & t & Et & _). unfold update, get. rewrite Et. cbn [of_option bindO]. eexists. split; [done|].
  intros r. case_decide as D; [rewrite D, lookup_insert_eq, Et; done|by rewrite lookup_insert_ne].
Qed.

(** Closing a socket that is not waiting and has no children. *)
Lemma SocketClose_spec n p s : socks_ok (sockets n) -> sockets n !! p = Some s -> childSocks s = [] ->
  exists m, SocketClose p n = Ret (0, with_sockets m n) /\ m !! p = None /\ (forall r, sockets n !! r = None -> m !! r = None)
    /\ forall r x, r <> p -> sockets n !! r = Some x -> m !! r = Some (if decide (r = peer s) then set_peer 0 x
         else if decide (r = parent s) then set_children (filter (fun c => c <> p) (childSocks x)) x else x).
Proof.
  intros Ok Es Na. pose proof Ok as (H0 & H1 & _). pose proof (H1 _ _ Es) as [S1 S2 S3 S4 S5 S6 S7 S8].
  destruct (LocalClose_spec n p s Ok Es) as (m & E & Hm). assert (Np : p <> peer s).
  { intros ->. destruct (Z.eq_dec (peer s) 0) as [E0|N]; [congruence|]. by destruct (S1 N) as (_ & ? & _). }
  unfold SocketClose. destruct (Z.eqb_spec p 0) as [->|_]; [congruence|]. unfold get. rewrite Es. cbn [of_option bindO].
  assert (Em : m !! p = Some s) by (rewrite Hm; by case_decide).
  destruct (Z.eq_dec (parent s) 0) as [P0|P0].
  - rewrite P0. cbn. rewrite E. cbn [bindO]. rewrite Na.
    exists (delete p m). split; [by destruct (is_server s)|]. split; [apply lookup_delete_eq|]. split.
    + intros r Er. destruct (decide (r = p)) as [->|N]; [apply lookup_delete_eq|]. rewrite lookup_delete_ne, Hm, Er by done. by case_decide.
    + intros r x N Ex. rewrite lookup_delete_ne, Hm, Ex by done. case_decide; [done|]. rewrite decide_False; [done|]. intros ->. congruence.
  - assert (c_true (parent s) = true) as -> by (unfold c_true; destruct (Z.eqb_spec (parent s) 0); done). unfold close_child. rewrite E. cbn [bindO].
    destruct (S2 P0) as (Ss & q & Eq & Iq). assert (Qs : state q = SOCKET_STATE_ACCEPTING) by (by destruct (so_children _ _ _ (H1 _ _ Eq) p Iq)).
    assert (Npp : parent s <> p) by (intros N; rewrite N in Eq; assert (q = s) as -> by congruence; by rewrite Ss in Qs).
    assert (Npe : parent s <> peer s).
    { intros N. destruct (S1 ltac:(congruence)) as (_ & _ & t & Et & Pt). assert (t = q) as -> by congruence.
      destruct (so_peer _ _ _ (H1 _ _ Eq)) as [Q _]; [rewrite Pt; congruence|]. by rewrite Q in Qs. }
    assert (Mq : m !! parent s = Some q) by (rewrite Hm; by case_decide). unfold update, get. cbn [sockets with_sockets]. rewrite Em. cbn [of_option bindO].
    cbn [sockets with_sockets]. rewrite Mq. cbn [of_option bindO]. eexists. split; [done|]. cbn. split; [apply lookup_delete_eq|]. split.
    + intros r Er. destruct (decide (r = p)) as [->|N]; [apply lookup_delete_eq|].
      rewrite lookup_delete_ne, lookup_insert_ne, Hm, Er by congruence. by case_decide.
    + intros r x N Ex. rewrite lookup_delete_ne by done. destruct (decide (r = parent s)) as [->|N2].
      * rewrite lookup_insert_eq, decide_False by done. by assert (x = q) as -> by congruence.
      * rewrite lookup_insert_ne, Hm, Ex by congruence. by case_decide.
Qed.

Lemma close_ok fuel fd n : net_ok u n -> proper fuel (Close fd) n ->
  exists r n', run_call fuel (Close fd) n = Ret (r, n') /\ net_ok (u && negb (closes_listener (Close fd) n)) n'.
Proof.
  intros Ok Hp. cbn [proper] in Hp. cbn [run_call closes_listener]. unfold SysSocketClose.
  destruct (zlookup (files n) fd) as [[p|]|] eqn:Ef; [|by (eexists _, n; unfold SocketGet; rewrite Ef, andb_true_r)..].
  destruct (zlookup_Some _ _ _ Ef) as [B _]. pose proof (zupdate_lt (files n) fd (Some 0) B) as U. rewrite U. cbn [of_option bindO].
  set (l := <[_ := _]> (files n)) in *. pose proof Ok as [O1 O2 O3 O4 O5].
  assert (O1' : net_ok u (with_files l n)) by (split; cbn; try done; apply (files_ok_set _ _ _ _ _ O4 U); by left).
  destruct (Z.eq_dec p 0) as [->|N0]; [by (eexists _, _; unfold SocketGet; rewrite Ef, andb_true_r)|]. destruct (proj1 O4 fd p Ef N0) as [s Es].
  assert (G : SocketGet fd n = Some p) by (unfold SocketGet; rewrite Ef; by destruct (Z.eqb_spec p 0)). destruct (Hp p s G Es) as (Nw & Na & _). rewrite G, Es.
  destruct (SocketClose_spec (with_files l n) p s O1 Es Na) as (m & -> & Mp & Mn & Mo). cbn [bindO]. eexists _, _. split; [done|].
  cbn in Mn, Mo. assert (Back : forall r x, m !! r = Some x -> exists y, r <> p /\ sockets n !! r = Some y /\ family x = family y).
  { intros r x Er. destruct (decide (r = p)) as [->|N]; [congruence|]. destruct (sockets n !! r) as [y|] eqn:Ey; [|by rewrite Mn in Er].
    exists y. rewrite (Mo r y N Ey) in Er. injection Er as <-. split; [done|]. split; [done|]. case_decide; [done|]. by case_decide. }
  split; cbn; try done.
  - by apply (socks_ok_close (sockets n) m p s).
  - intros r x Er. destruct (Back r x Er) as (y & _ & Ey & ->). by apply (O2 r).
  - intros [Hu Hc]%andb_prop r Hr. apply negb_true_iff, Z.eqb_neq in Hc. destruct (O3 Hu r Hr) as (x & Ex & Sx). assert (r <> p) by (intros ->; congruence). eexists. split; [by apply Mo|].
    case_decide; [done|]. by case_decide.
  - assert (In : forall k q, zlookup l k = Some (Some q) -> q <> 0 -> zlookup (files n) k = Some (Some q) /\ q <> p).
    { intros k q E N. destruct (zlookup_Some _ _ _ E) as [Bk _]. rewrite (zlookup_zupdate _ _ _ _ _ U) in E by lia.
      destruct (Z.eqb_spec k fd) as [->|Nk]; [congruence|]. split; [done|]. intros ->. apply Nk. by apply (proj2 O4 k fd p). }
    split.
    + intros k q E N. destruct (In k q E N) as [E' Nq]. destruct (proj1 O4 k q E' N) as [x Ex]. rewrite (Mo q x Nq Ex). by eexists.
    + intros k k' q E E' N. apply (proj2 O4 k k' q); [by apply In..|done].
Qed.

Lemma run_call_ok fuel c n : net_ok u n -> proper fuel c n ->
  exists r n', run_call fuel c n = Ret (r, n') /\ net_ok (u && negb (closes_listener c n)) n'.
Proof.
  intros Ok Hp. destruct c; [..|by apply close_ok]; cbn [closes_listener negb]; rewrite andb_true_r;
    [by apply create_ok|by apply bind_ok|by apply connect_ok|by apply listen_ok|by apply accept_ok|by apply send_ok|by apply receive_ok].
Qed.
End Unclosed.

Fixpoint run_calls (fuel : nat) (cs : list call) (n : net) : outcome (list reply * net) :=
  match cs with
  | [] => Ret ([], n)
  | c :: cs => let* (r, n) := run_call fuel c n in let* (rs, n) := run_calls fuel cs n in Ret (r :: rs, n)
  end.
(** Every call is proper in the state the calls before it left. *)
Fixpoint proper_calls (unclosed : bool) (fuel : nat) (cs : list call) (n : net) : Prop :=
  match cs with
  | [] => True
  | c :: cs => proper (u := unclosed) fuel c n
      /\ match run_call fuel c n with Ret (_, n') => proper_calls (unclosed && negb (closes_listener c n)) fuel cs n' | _ => True end
  end.
(** Whether no listening socket is closed on the way. *)
Fixpoint stays_unclosed (unclosed : bool) (fuel : nat) (cs : list call) (n : net) : bool :=
  match cs with
  | [] => unclosed
  | c :: cs => match run_call fuel c n with Ret (_, n') => stays_unclosed (unclosed && negb (closes_listener c n)) fuel cs n' | _ => false end
  end.

Lemma run_calls_ok fuel cs u n : net_ok u n -> proper_calls u fuel cs n ->
  exists rs n', run_calls fuel cs n = Ret (rs, n') /\ net_ok (stays_unclosed u fuel cs n) n'.
Proof.
  revert u n. induction cs as [|c cs IH]; intros u n Ok Hp; cbn [run_calls proper_calls stays_unclosed] in *; [by exists [], n|].
  destruct Hp as [Hc Hp]. destruct (run_call_ok fuel c n Ok Hc) as (r & n1 & E & Ok1). rewrite E in Hp |- *. cbn [bindO].
  destruct (IH _ n1 Ok1 Hp) as (rs & n2 & -> & Ok2). by eexists _, n2.
Qed.


(** ** Polling and closing by descriptor *)

(** A call that found something does not wait. *)
Ltac never_waits := repeat match goal with
  | |- bindO ?m _ = _ -> _ => destruct m as [?| | |]; cbn [bindO]; [|discriminate..]
  | |- (let (_, _) := ?x in _) = _ -> _ => destruct x
  | |- (if ?b then _ else _) = _ -> _ => destruct b
  | |- Ret (Done _, _) = _ -> _ => discriminate
  end.
Lemma LocalAccept_waits alloc info stale p n s : sockets n !! p = Some s ->
  (waitingSocks s = [] <-> LocalAccept alloc info stale p n = Ret (Wait, n)).
Proof.
  intros Es. unfold LocalAccept, get at 1. rewrite Es. cbn [of_option bindO]. destruct (waitingSocks s) as [|c l]; [done|].
  split; [done|]. intros H. exfalso. revert H. never_waits.
Qed.
Lemma LocalReceive_waits fuel p len n s : sockets n !! p = Some s -> is_Some (sockets n !! peer s) ->
  (recvPackets s = [] <-> LocalReceive fuel p len n = Ret (Wait, n)).
Proof.
  intros Es [t Et]. unfold LocalReceive, get. rewrite Es. cbn [of_option bindO]. rewrite Et. cbn [of_option bindO].
  destruct (recvPackets s) as [|b l]; [done|]. split; [done|]. intros H. exfalso. revert H. never_waits.
Qed.


(** Closing the descriptor of an accepted socket with SysClose frees the socket but leaves it on the list of its server:
    closing the server after that uses the freed memory. *)
Theorem SocketFreeVNode_dangles u n p q s t l : net_ok u n -> sockets n !! p = Some s -> parent s = q -> sockets n !! q = Some t ->
  is_server t = true -> childSocks t = p :: l ->
  exists n', SocketFreeVNode p n = Ret (0, n') /\ SocketClose q n' = Fault.
Proof.
  intros Ok Es Ps Eq V C. destruct (LocalClose_spec n p s (no_socks n Ok) Es) as (m & E & Hm). pose proof (no_socks n Ok) as (H0 & H1 & _).
  unfold SocketFreeVNode. assert (p <> 0 /\ q <> 0) as [Np Nq] by (split; intros ->; congruence). destruct (Z.eqb_spec p 0); [done|].
  rewrite E. cbn [bindO]. eexists. split; [done|]. destruct (so_children _ _ _ (H1 _ _ Eq) p) as (St & _); [rewrite C; left|].
  destruct (so_parent _ _ _ (H1 _ _ Es)) as (Ss & _); [congruence|].
  assert (q <> p) by (intros ->; assert (t = s) as -> by congruence; by rewrite Ss in St).
  assert (Pt : peer t = 0). { destruct (Z.eq_dec (peer t) 0) as [|N]; [done|]. destruct (so_peer _ _ _ (H1 _ _ Eq) N) as [Q _]. by rewrite Q in St. }
  assert (Rt : parent t = 0). { destruct (Z.eq_dec (parent t) 0) as [|N]; [done|]. destruct (so_parent _ _ _ (H1 _ _ Eq) N) as [Q _]. by rewrite Q in St. }
  assert (Qs : q <> peer s).
  { intros Q. destruct (so_peer _ _ _ (H1 _ _ Es)) as (_ & _ & x & Ex & Px); [congruence|]. rewrite <- Q in Ex. congruence. }
  assert (Eq' : delete p m !! q = Some t) by (rewrite lookup_delete_ne, Hm, decide_False by done; done).
  unfold SocketClose. destruct (Z.eqb_spec q 0); [done|]. unfold get. cbn [sockets with_sockets]. rewrite Eq'. cbn [of_option bindO]. rewrite Rt.
  change (c_true 0) with false. cbn iota. unfold LocalClose at 1, get. destruct (Z.eqb_spec q 0); [done|]. cbn [sockets with_sockets]. rewrite Eq'. cbn [of_option bindO].
  rewrite V, C. cbn [close_children bindO]. unfold close_child, LocalClose, get. destruct (Z.eqb_spec p 0); [done|]. cbn [sockets with_sockets].
  by rewrite lookup_delete_eq.
Qed.

(** ** A server and a client *)

Module Demo.
Definition boot : net := {| sockets := ∅; localListenSockets := []; files := []; families := [true; false; false; false; false] |}.
Definition srv : list Z := 115 :: replicate 19 0.
Definition areas : list VMArea := [{| start := 4096; alength := 8192; aoffset := 0; flags := 0; protection := 0; vNode := 0; areaOps := 0 |}].
(** The server is descriptor 0, the client 1 and the child 2. *)
Definition calls : list call :=
  [Create 100 1 PF_LOCAL 1; Bind 0 srv; Listen 0; Create 200 1 PF_LOCAL 1; Connect 1 PF_LOCAL srv; Accept 300 1 0;
   Send true areas 4096 1 [1; 2; 3]; Receive areas 4096 2 3; Send true areas 4096 2 [4; 5]; Close 2; Close 0;
   Send true areas 4096 1 [6]; Create 100 1 PF_LOCAL 1; Close 1].
Definition after (k : nat) : net := match run_calls 10 (take k calls) boot with Ret (_, n) => n | _ => boot end.

Lemma boot_ok : net_ok true boot.
Proof.
  split; cbn; try done.
  - intros _ p Hp. by apply elem_of_nil in Hp.
  - split; intros fd; [intros p E|intros fd' p E]; destruct (zlookup_Some _ _ _ E) as [B _]; cbn in B; lia.
Qed.

Ltac run_step :=
  match goal with |- proper_calls _ ?f (?c :: ?cs) ?n =>
    let r := eval vm_compute in (run_call f c n) in
    split; [cbn [proper]; repeat match goal with |- _ /\ _ => split end; try apply on_socket_intro; vm_compute; try (split; [done|lia]); try done; try lia; try (by right)
           |replace (run_call f c n) with r by (vm_compute; reflexivity); cbv iota beta]
  end.
Lemma calls_proper : proper_calls true 10 calls boot.
Proof. unfold calls. repeat run_step. exact I. Qed.


(** The client is socket 200, the child 300. *)
Lemma connected : link 3 200 300 [] (after 6).
Proof.
  split; [eexists; split; [vm_compute; reflexivity|done]|eexists; split; [vm_compute; reflexivity|done]|done|constructor].
Qed.
Definition ops : list msg_op := [MReceive; MSend [1; 2; 3]; MSend [4; 5; 6]; MReceive; MReceive].
Lemma local_messages_fifo_witness : exists n', msg_run 2 3 200 300 ops (after 6) = Ret ([Wait; Done (3, []); Done (3, []); Done (3, [1; 2; 3]); Done (3, [4; 5; 6])], n')
  /\ link 3 200 300 [] n'.
Proof.
  apply (local_messages_fifo 2 3 200 300 ops [] (after 6)); [lia|lia|exact connected|]. repeat (constructor; [done|]). constructor.
Defined.

Definition two_sent : net := match msg_run 2 3 200 300 [MSend [1; 2]; MSend [3; 4]] (after 6) with Ret (_, n) => n | _ => boot end.
Definition child : Socket := default {| state := 0; family := 0; type := 0; addr := []; recvPackets := []; childSocks := []; parent := 0; peer := 0; waitingSocks := [] |}
  (sockets two_sent !! 300).
Lemma LocalReceive_overruns_witness : exists n', LocalReceive 3 300 3 two_sent = Ret (Done (4, [1; 2; 3; 4]), n') /\ 3 < 4.
Proof.
  apply (LocalReceive_overruns 3 300 3 two_sent child [1; 2] [3; 4]); try (cbn; lia); [by vm_compute|by vm_compute; eexists|by vm_compute].
Defined.

Definition sock (p : Z) (n : net) : Socket := default child (sockets n !! p).
Lemma accepted_ok : net_ok true (after 6).
Proof.
  destruct (run_calls_ok 10 (take 6 calls) true boot boot_ok) as (rs & n' & E & Ok); [unfold calls; cbn [take]; repeat run_step; exact I|].
  unfold after. by rewrite E.
Qed.
Lemma SocketFreeVNode_dangles_witness : exists n', SocketFreeVNode 300 (after 6) = Ret (0, n') /\ SocketClose 100 n' = Fault.
Proof.
  apply (SocketFreeVNode_dangles true (after 6) 300 100 (sock 300 (after 6)) (sock 100 (after 6)) [] accepted_ok); by vm_compute.
Defined.
End Demo.
