(* ===== verification/ShMem.v ===== *)
(** * Shared memory (memory/shmem.c)

    A segment of shared memory is a size and the page frames it has got so
    far.  Attaching one maps an area of its size whose faults come to
    ShMemNoPage, which finds the segment by the length of the area, takes a
    frame for the page when it has none and maps it.

    A descriptor is [None] for NULL and its pages [None] when MemAlloc
    failed for them; frames come from the interface [PageSource] (Virt),
    areas from Mmap.  ShMemNoPage returns what it maps beside its result. *)

From S2P Require Import Prelude Virt Vmm Mmap.

(** ** Model *)

Definition SHMEM_MAX_DESCS : Z := 10.

Record SharedMemoryDesc := {
  size : Z;
  pages : option (list Z);
}.

(** The first empty slot, [SHMEM_MAX_DESCS] when there is none. *)
Fixpoint free_slot (l : list (option SharedMemoryDesc)) (i : Z) : Z :=
  match l with [] => i | None :: _ => i | Some _ :: l => free_slot l (i + 1) end.
Fixpoint find_length (l : list (option SharedMemoryDesc)) (i length_ : Z) : option Z :=
  match l with
  | [] => None
  | Some d :: l => if size d =? length_ then Some i else find_length l (i + 1) length_
  | None :: l => find_length l (i + 1) length_
  end.

Section Operations.
Context {W : Type} `{PageSource W}.

Record shmem := {
  shMemDescs : list (option SharedMemoryDesc);
  frames : W;
}.
Definition set_desc (i : Z) (d : option SharedMemoryDesc) (s : shmem) : outcome shmem :=
  let* l := of_option (zupdate (shMemDescs s) i d) in Ret {| shMemDescs := l; frames := frames s |}.

Definition ShMemGetDesc (i : Z) (s : shmem) : option SharedMemoryDesc :=
  if (i <? 0) || (SHMEM_MAX_DESCS <=? i) then None
  else match zlookup (shMemDescs s) i with Some d => d | None => None end.

(** [room] and [room'] say whether the two allocations succeed. *)
Definition SharedMemCreate (room room' : bool) (sz : Z) (s : shmem) : outcome (Z * shmem) :=
  let numPages := s32 (Z.shiftr (PAGE_ALIGN_UP sz) PAGE_SHIFT) in
  if numPages =? 0 then Ret (- EINVAL, s)
  else
    let i := free_slot (shMemDescs s) 0 in
    if i =? SHMEM_MAX_DESCS then Ret (- EMFILE, s)
    else if negb room then let* s := set_desc i None s in Ret (- ENOMEM, s)
    else if negb room' then let* s := set_desc i (Some {| size := PAGE_ALIGN_UP sz; pages := None |}) s in Ret (- ENOMEM, s)
    else
      let* s := set_desc i (Some {| size := PAGE_ALIGN_UP sz; pages := Some (replicate (Z.to_nat numPages) 0) |}) s in
      Ret (i + 1, s).

Definition SysSharedMemoryGet (room room' : bool) (key sz : Z) (s : shmem) : outcome (Z * shmem) :=
  if key =? 0 then SharedMemCreate room room' sz s else Ret (- EINVAL, s).

(** [shMemOps] is the address of the operations of the areas. *)
Definition SysSharedMemoryAttach {V} (vget vrel : Z -> V -> V) (is_file : Z -> bool) (zero_vnode : option Z) (shMemOps : Z) (fuel : nat)
    (id address : Z) (s : shmem) (st : mproc V) : outcome (Z * mproc V) :=
  match ShMemGetDesc (id - 1) s with
  | None => Ret (0, st)
  | Some d => MMapDo vget vrel is_file zero_vnode fuel 0 address (size d) 7 0 MMAP_PRIVATE shMemOps st
  end.

Definition ShMemFind (length_ : Z) (s : shmem) : option Z := find_length (shMemDescs s) 0 length_.

(** The function ends in an endless loop. *)
Definition ShMemAddPage (area : VMArea) (s : shmem) : outcome Z :=
  match ShMemFind (alength area) s with None => Ret (- EFAULT) | Some _ => NoFuel end.

(** [node_id] is the number of a vNode, [zero] that of the Zero device; the
    last result is the frame that is mapped at [address]. *)
Definition ShMemNoPage (node_id : Z -> Z) (zero : Z) (area : VMArea) (address offset : Z) (s : shmem) : outcome (Z * option Z * shmem) :=
  let pageIndex := s32 (Z.shiftr offset PAGE_SHIFT) in
  match ShMemFind (alength area) s with
  | None => Ret (- EFAULT, None, s)
  | Some i =>
      let* d := of_option (zlookup (shMemDescs s) i) in
      let* d := of_option d in
      let* l := of_option (pages d) in
      let* p := of_option (zlookup l pageIndex) in
      let* (p, s) :=
        if p =? 0 then
          let* (p, w) := page_alloc (frames s) in
          let* l := of_option (zupdate l pageIndex p) in
          let* s := set_desc i (Some {| size := size d; pages := Some l |}) {| shMemDescs := shMemDescs s; frames := w |} in
          Ret (p, s)
        else Ret (p, s) in
      if node_id (vNode area) =? zero then Ret (0, Some p, s) else Ret (- EFAULT, None, s)
  end.
End Operations.
Arguments shmem : clear implicits.

(** ** What is shared *)

Section Sharing.
Context {W : Type} `{PageSource W} {L : PageSourceLaws W}.
Implicit Types s : shmem W.

(** The frame of page [j] of segment [i], 0 when it has none. *)
Definition frame_at s (i j : Z) : option Z :=
  match zlookup (shMemDescs s) i with Some (Some d) => match pages d with Some l => zlookup l j | None => None end | _ => None end.

(** Frames in use are not free, and no two pages have the same one. *)
Record shm_ok s : Prop := {
  sh_source : page_ok (frames s);
  sh_zero : ~ page_free (frames s) 0;
  sh_used : forall i j p, frame_at s i j = Some p -> p <> 0 -> ~ page_free (frames s) p;
  sh_inj : forall i j i' j' p, frame_at s i j = Some p -> frame_at s i' j' = Some p -> p <> 0 -> i = i' /\ j = j';
}.

Definition page_of (offset : Z) : Z := s32 (Z.shiftr offset PAGE_SHIFT).
(** What ShMemNoPage finds for a fault at an offset of an area. *)
Definition found_at s (f : VMArea * Z) : option (Z * Z) :=
  match ShMemFind (alength f.1) s with
  | Some i => match frame_at s i (page_of f.2) with Some _ => Some (i, page_of f.2) | None => None end
  | None => None
  end.

Lemma find_length_update l len d d' : size d' = size d -> forall i l' b, zlookup l i = Some (Some d) -> zupdate l i (Some d') = Some l' ->
  find_length l' b len = find_length l b len.
Proof.
  intros Sz. induction l as [|x l IH]; intros i l' b E U.
  - apply zlookup_Some in E as [B _]. cbn in B. lia.
  - destruct (zlookup_Some _ _ _ E) as [B Ei]. rewrite zupdate_lt in U by done. injection U as <-. destruct (Z.to_nat i) as [|k] eqn:K.
    + cbn in Ei |- *. injection Ei as ->. by rewrite Sz.
    + change (<[S k:=Some d']> (x :: l)) with (x :: <[k:=Some d']> l). cbn [find_length]. change (l !! k = Some (Some d)) in Ei. assert (Q : find_length (<[k:=Some d']> l) (b + 1) len = find_length l (b + 1) len).
      { apply (IH (i - 1)); [unfold zlookup; destruct (Z.leb_spec 0 (i - 1)); [by replace (Z.to_nat (i - 1)) with k by lia|lia]|].
        rewrite zupdate_lt by (cbn in B; lia). by replace (Z.to_nat (i - 1)) with k by lia. }
      destruct x; [|done]. by rewrite Q.
Qed.

(** The state after a frame was entered. *)
Lemma set_frame s i j d l p w : zlookup (shMemDescs s) i = Some (Some d) -> pages d = Some l -> zlookup l j = Some 0 ->
  exists l' s', zupdate l j p = Some l' /\ set_desc i (Some {| size := size d; pages := Some l' |}) {| shMemDescs := shMemDescs s; frames := w |} = Ret s'
    /\ frames s' = w /\ (forall i' j', frame_at s' i' j' = if decide (i' = i /\ j' = j) then Some p else frame_at s i' j')
    /\ forall len, ShMemFind len s' = ShMemFind len s.
Proof.
  intros Ed Ep El. destruct (zlookup_Some _ _ _ Ed) as [Bi _]. destruct (zlookup_Some _ _ _ El) as [Bj _].
  pose proof (zupdate_lt l j p Bj) as U. eexists _, _. split; [exact U|]. unfold set_desc. cbn [shMemDescs frames]. set (l' := <[_ := _]> l) in *.
  pose proof (zupdate_lt (shMemDescs s) i (Some {| size := size d; pages := Some l' |}) Bi) as U2. rewrite U2. cbn [of_option bindO]. split; [done|]. split; [done|]. split.
  - intros i' j'. unfold frame_at. cbn [shMemDescs]. destruct (Z.le_gt_cases 0 i') as [Hi|Hi]; [|case_decide as D; [lia|]; unfold zlookup; destruct (Z.leb_spec 0 i'); [lia|done]].
    rewrite (zlookup_zupdate _ _ _ _ _ U2) by done. destruct (Z.eqb_spec i' i) as [->|Ni]; [|by rewrite decide_False by naive_solver]. rewrite Ed, Ep. cbn [pages].
    destruct (Z.le_gt_cases 0 j') as [Hj|Hj]; [|case_decide as D; [lia|]; unfold zlookup; destruct (Z.leb_spec 0 j'); [lia|done]].
    rewrite (zlookup_zupdate _ _ _ _ _ U) by done. destruct (Z.eqb_spec j' j) as [->|Nj]; [by rewrite decide_True|by rewrite decide_False by naive_solver].
  - intros len. unfold ShMemFind. cbn [shMemDescs]. by apply (find_length_update _ len d {| size := size d; pages := Some l' |} eq_refl i).
Qed.

(** Making a segment keeps the frames of the others. *)
Lemma free_slot_spec l : forall b, b <= free_slot l b <= b + Z.of_nat (length l)
  /\ (free_slot l b < b + Z.of_nat (length l) -> zlookup l (free_slot l b - b) = Some None).
Proof.
  induction l as [|[d|] l IH]; intros b; cbn [free_slot length].
  - lia.
  - destruct (IH (b + 1)) as [I1 I2]. split; [lia|]. intros Hl. specialize (I2 ltac:(lia)). apply zlookup_Some in I2 as [B E].
    unfold zlookup. destruct (Z.leb_spec 0 (free_slot l (b + 1) - b)); [|lia].
    replace (Z.to_nat (free_slot l (b + 1) - b)) with (S (Z.to_nat (free_slot l (b + 1) - (b + 1)))) by lia. done.
  - split; [lia|]. intros _. by rewrite Z.sub_diag.
Qed.
Lemma SharedMemCreate_ok room room' sz s : shm_ok s -> length (shMemDescs s) = Z.to_nat SHMEM_MAX_DESCS ->
  exists r s', SharedMemCreate room room' sz s = Ret (r, s') /\ shm_ok s' /\ length (shMemDescs s') = Z.to_nat SHMEM_MAX_DESCS
    /\ forall i j p, frame_at s i j = Some p -> frame_at s' i j = Some p.
Proof.
  intros Ok Len. unfold SharedMemCreate. destruct (_ =? 0); [by exists (- EINVAL), s|]. pose proof (free_slot_spec (shMemDescs s) 0) as [B F]. rewrite Len in B, F.
  change (0 + Z.of_nat (Z.to_nat SHMEM_MAX_DESCS)) with SHMEM_MAX_DESCS in B, F.
  destruct (Z.eqb_spec (free_slot (shMemDescs s) 0) SHMEM_MAX_DESCS) as [|Ne]; [by exists (- EMFILE), s|]. specialize (F ltac:(lia)). rewrite Z.sub_0_r in F.
  set (i := free_slot (shMemDescs s) 0) in *. destruct (zlookup_Some _ _ _ F) as [Bi _].
  assert (St : forall d, (forall j p, (match d with Some d => match pages d with Some l => zlookup l j | None => None end | None => None end) = Some p -> p = 0) ->
    exists s', set_desc i d s = Ret s' /\ shm_ok s' /\ length (shMemDescs s') = Z.to_nat SHMEM_MAX_DESCS /\ forall i' j p, frame_at s i' j = Some p -> frame_at s' i' j = Some p).
  { intros d Hd. unfold set_desc. pose proof (zupdate_lt (shMemDescs s) i d Bi) as U. rewrite U. cbn [of_option bindO]. eexists. split; [done|].
    assert (Fr : forall i' j, frame_at {| shMemDescs := <[Z.to_nat i:=d]> (shMemDescs s); frames := frames s |} i' j =
      if decide (i' = i) then (match d with Some d => match pages d with Some l => zlookup l j | None => None end | None => None end) else frame_at s i' j).
    { intros i' j. unfold frame_at. cbn [shMemDescs]. destruct (Z.le_gt_cases 0 i') as [Hi|Hi]; [|case_decide; [lia|]; unfold zlookup; destruct (Z.leb_spec 0 i'); [lia|done]].
      rewrite (zlookup_zupdate _ _ _ _ _ U) by done. destruct (Z.eqb_spec i' i); case_decide; try done. }
    assert (Old : forall i' j p, frame_at {| shMemDescs := <[Z.to_nat i:=d]> (shMemDescs s); frames := frames s |} i' j = Some p -> p <> 0 -> frame_at s i' j = Some p).
    { intros i' j p. rewrite Fr. case_decide; [|done]. intros E N. by apply Hd in E. }
    destruct Ok as [O1 O2 O3 O4]. split_and!; [split; try done|cbn; by rewrite length_insert|].
    - intros i' j p Hp Np. by apply (O3 i' j p), Np; apply Old.
    - intros i1 j1 i2 j2 p H1 H2 Np. apply (O4 _ _ _ _ p); [by apply Old..|done].
    - intros i' j p Hp. rewrite Fr. case_decide as D; [|done]. subst i'. unfold frame_at in Hp. by rewrite F in Hp. }
  destruct room; cbn [negb]; [destruct room'; cbn [negb]|].
  - destruct (St (Some {| size := PAGE_ALIGN_UP sz; pages := Some (replicate (Z.to_nat (s32 (Z.shiftr (PAGE_ALIGN_UP sz) PAGE_SHIFT))) 0) |})) as (s' & -> & Q).
    { intros j p Hp. cbn [pages] in Hp. apply zlookup_Some in Hp as [_ Hp]. by apply lookup_replicate in Hp as [-> _]. }
    cbn [bindO]. by eexists _, s'.
  - destruct (St (Some {| size := PAGE_ALIGN_UP sz; pages := None |})) as (s' & -> & Q); [done|]. by eexists _, s'.
  - destruct (St None) as (s' & -> & Q); [done|]. by eexists _, s'.
Qed.

Section Faults.
Context (node_id : Z -> Z) (zero : Z).

Lemma ShMemNoPage_maps s area address offset i : shm_ok s -> found_at s (area, offset) = Some (i, page_of offset) -> node_id (vNode area) = zero ->
  (1 <= page_count (frames s))%nat ->
  exists p s', ShMemNoPage node_id zero area address offset s = Ret (0, Some p, s') /\ shm_ok s' /\ p <> 0 /\ frame_at s' i (page_of offset) = Some p
    /\ (forall i' j' q, frame_at s i' j' = Some q -> q <> 0 -> frame_at s' i' j' = Some q)
    /\ (forall f, found_at s' f = found_at s f) /\ (page_count (frames s) <= S (page_count (frames s')))%nat.
Proof.
  intros [O1 O2 O3 O4] Pl Nd Cn. unfold ShMemNoPage. fold (page_of offset). unfold found_at in Pl. cbn [fst snd] in Pl.
  destruct (ShMemFind (alength area) s) as [k|] eqn:Fi; [|done]. destruct (frame_at s k (page_of offset)) as [p0|] eqn:Fp; [|done]. injection Pl as <-.
  pose proof Fp as Fp'. unfold frame_at in Fp. destruct (zlookup (shMemDescs s) k) as [[d|]|] eqn:Ed; [|done..]. destruct (pages d) as [l|] eqn:Ep; [|done].
  cbn [of_option bindO]. rewrite Ep. cbn [of_option bindO]. rewrite Fp. cbn [of_option bindO]. rewrite Nd, Z.eqb_refl.
  destruct (Z.eqb_spec p0 0) as [->|N0]; [|by cbn [bindO]; exists p0, s; split_and!; try done; lia].
  pose proof (page_alloc_spec (frames s) O1) as A. destruct (page_alloc (frames s)) as [[p w]| | |]; [|done|lia|done].
  destruct A as (A1 & A2 & A3 & A4). cbn [bindO].
  destruct (set_frame s k (page_of offset) d l p w Ed Ep Fp) as (l' & s' & U & Es & Fw & Fr & Fl). rewrite U. cbn [of_option bindO]. rewrite Es. cbn [bindO].
  assert (Np : p <> 0) by (intros ->; done). exists p, s'. split; [done|].
  assert (Keep : forall i' j' q, frame_at s i' j' = Some q -> q <> 0 -> frame_at s' i' j' = Some q).
  { intros i' j' q Hq Nq. rewrite Fr. case_decide as D; [|done]. destruct D as [-> ->]. congruence. }
  assert (Inv : forall i' j' q, frame_at s' i' j' = Some q -> (i' = k /\ j' = page_of offset /\ q = p) \/ frame_at s i' j' = Some q).
  { intros i' j' q. rewrite Fr. case_decide as D; [|by right]. intros [= <-]. left. naive_solver. }
  split_and!; try done.
  - split; rewrite ?Fw; [done|by rewrite A3; tauto| |].
    + intros i' j' q Hq Nq. rewrite A3. intros [Q1 Q2]. destruct (Inv _ _ _ Hq) as [(_ & _ & ->)|Hq']; [done|]. by apply (O3 i' j' q).
    + intros i1 j1 i2 j2 q H1 H2 Nq. destruct (Inv _ _ _ H1) as [(-> & -> & ->)|H1'], (Inv _ _ _ H2) as [(-> & -> & E2)|H2']; [done| | |by apply (O4 _ _ _ _ q)].
      * by destruct (O3 _ _ _ H2' Np).
      * subst q. by destruct (O3 _ _ _ H1' Np).
  - rewrite Fr. by rewrite decide_True.
  - intros f. unfold found_at. rewrite Fl. destruct (ShMemFind (alength f.1) s) as [m|]; [|done]. rewrite Fr. case_decide as D; [|done]. destruct D as [-> ->]. by rewrite Fp'.
  - rewrite Fw. lia.
Qed.

(** Faults one after the other, in whatever processes; the frames mapped. *)
Fixpoint run_faults (fs : list (VMArea * Z)) s : outcome (list Z * shmem W) :=
  match fs with
  | [] => Ret ([], s)
  | f :: fs =>
      let* (r, p, s) := ShMemNoPage node_id zero f.1 (start f.1) f.2 s in
      match p with
      | Some p => let* (ps, s) := run_faults fs s in Ret (p :: ps, s)
      | None => Fault
      end
  end.

Lemma run_faults_spec fs : forall s, shm_ok s -> (length fs <= page_count (frames s))%nat ->
  Forall (fun f => is_Some (found_at s f) /\ node_id (vNode f.1) = zero) fs ->
  exists ps s', run_faults fs s = Ret (ps, s') /\ shm_ok s' /\ length ps = length fs
    /\ (forall i' j' q, frame_at s i' j' = Some q -> q <> 0 -> frame_at s' i' j' = Some q)
    /\ forall k f p, fs !! k = Some f -> ps !! k = Some p -> p <> 0 /\ exists i, found_at s f = Some (i, page_of f.2) /\ frame_at s' i (page_of f.2) = Some p.
Proof.
  induction fs as [|f fs IH]; intros s Ok Cn F; cbn [run_faults length] in *; [exists [], s; by split_and!|].
  apply Forall_cons in F as [[[pl Pl] Nd] F]. assert (exists i, pl = (i, page_of f.2)) as [i ->].
  { unfold found_at in Pl. destruct (ShMemFind _ s) as [i|]; [|done]. destruct (frame_at s i (page_of f.2)); [|done]. injection Pl as <-. by exists i. }
  destruct f as [area off]. destruct (ShMemNoPage_maps s area (start area) off i Ok Pl Nd ltac:(lia)) as (p & s1 & E1 & Ok1 & Np & Fp & Kp & Pp & Cp). cbn [fst snd].
  rewrite E1. cbn [bindO]. destruct (IH s1 Ok1 ltac:(lia)) as (ps & s2 & E2 & Ok2 & Len & K2 & H2).
  { eapply Forall_impl; [exact F|]. intros g. by rewrite Pp. }
  rewrite E2. cbn [bindO]. exists (p :: ps), s2. split_and!; try done; [by cbn; rewrite Len|intros; by apply K2; [apply Kp|]|].
  intros [|k] g q Hg Hq; cbn in Hg, Hq.
  - injection Hg as <-. injection Hq as <-. split; [done|]. exists i. split; [done|]. by apply K2.
  - destruct (H2 k g q Hg Hq) as [Nq (i' & P' & F')]. split; [done|]. exists i'. by rewrite <- Pp.
Qed.

(** A fault in an attached segment: the number of the segment, the area
    that SysSharedMemoryAttach made for it and the offset. *)
Record fault := { segment : Z; farea : VMArea; foffset : Z }.
Definition fault_ok s (f : fault) : Prop :=
  (exists d, zlookup (shMemDescs s) (segment f) = Some (Some d) /\ alength (farea f) = size d)
  /\ is_Some (frame_at s (segment f) (page_of (foffset f))) /\ node_id (vNode (farea f)) = zero.
(** No two segments are of one size. *)
Definition sizes_differ s : Prop :=
  forall i j d e, zlookup (shMemDescs s) i = Some (Some d) -> zlookup (shMemDescs s) j = Some (Some e) -> size d = size e -> i = j.

Lemma find_length_first len l : forall b k d, zlookup l (k - b) = Some (Some d) -> size d = len ->
  exists i e, find_length l b len = Some i /\ zlookup l (i - b) = Some (Some e) /\ size e = len.
Proof.
  induction l as [|x l IH]; intros b k d E Sd; [apply zlookup_Some in E as [B _]; cbn in B; lia|]. apply zlookup_Some in E as [B E].
  assert (Tl : forall i e, zlookup l (i - (b + 1)) = Some (Some e) -> zlookup (x :: l) (i - b) = Some (Some e)).
  { intros i e Ei. apply zlookup_Some in Ei as [Bi Ei]. unfold zlookup. rewrite (proj2 (Z.leb_le 0 _)) by lia. by replace (Z.to_nat (i - b)) with (S (Z.to_nat (i - (b + 1)))) by lia. }
  assert (Hd : forall e, x = Some e -> zlookup (x :: l) (b - b) = Some (Some e)) by (intros e ->; by rewrite Z.sub_diag).
  destruct (Z.eq_dec k b) as [->|Nk].
  { rewrite Z.sub_diag in E. injection E as ->. cbn [find_length]. rewrite (proj2 (Z.eqb_eq _ _) Sd). exists b, d. by split_and!; [|apply Hd|]. }
  assert (E' : zlookup l (k - (b + 1)) = Some (Some d)).
  { unfold zlookup. rewrite (proj2 (Z.leb_le 0 _)) by lia. replace (Z.to_nat (k - b)) with (S (Z.to_nat (k - (b + 1)))) in E by lia. done. }
  destruct (IH (b + 1) k d E' Sd) as (i & e & F & Ei & Se). cbn [find_length]. destruct x as [y|]; [destruct (Z.eqb_spec (size y) len)|]; [exists b, y; by split_and!; [|apply Hd|]|..]; exists i, e; by split_and!; [|apply Tl|].
Qed.
Lemma found_segment s f : sizes_differ s -> fault_ok s f -> found_at s (farea f, foffset f) = Some (segment f, page_of (foffset f)).
Proof.
  intros Df [(d & Ed & Sd) [[p Fp] _]]. unfold found_at, ShMemFind. cbn [fst snd]. rewrite <- (Z.sub_0_r (segment f)) in Ed.
  destruct (find_length_first (alength (farea f)) (shMemDescs s) 0 (segment f) d Ed (eq_sym Sd)) as (i & e & -> & Ei & Se). rewrite Z.sub_0_r in *.
  assert (i = segment f) as -> by (apply (Df _ _ e d); [done..|congruence]). by rewrite Fp.
Qed.

(** C33: shared memory is shared: over any sequence of page faults in areas
    of the lengths of their segments, when no two segments are of one size
    and there are frames enough, every fault maps the frame of its page of
    its segment, and two faults map the same frame exactly when they are for
    the same page of the same segment, whichever processes they come from. *)
Theorem shared_memory_coherent fs s : shm_ok s -> (length fs <= page_count (frames s))%nat -> sizes_differ s -> Forall (fault_ok s) fs ->
  exists ps s', run_faults (map (fun f => (farea f, foffset f)) fs) s = Ret (ps, s') /\ shm_ok s' /\ length ps = length fs
    /\ (forall k f p, fs !! k = Some f -> ps !! k = Some p -> p <> 0 /\ frame_at s' (segment f) (page_of (foffset f)) = Some p)
    /\ forall k k' f f' p p', fs !! k = Some f -> fs !! k' = Some f' -> ps !! k = Some p -> ps !! k' = Some p' ->
         (p = p' <-> segment f = segment f' /\ page_of (foffset f) = page_of (foffset f')).
Proof.
  intros Ok Cn Df F. destruct (run_faults_spec (map (fun f => (farea f, foffset f)) fs) s Ok) as (ps & s' & E & Ok' & Len & _ & Hp); [by rewrite length_map| |].
  { apply Forall_fmap. eapply Forall_impl; [exact F|]. intros f Hf. cbn. split; [|apply Hf]. rewrite found_segment by done. by eexists. }
  rewrite length_map in Len. assert (Fr : forall k f p, fs !! k = Some f -> ps !! k = Some p -> p <> 0 /\ frame_at s' (segment f) (page_of (foffset f)) = Some p).
  { intros k f p Ef Ep. destruct (Hp k (farea f, foffset f) p) as [Np (i & P & Q)]; [by rewrite list_lookup_fmap, Ef|done|]. split; [done|].
    rewrite found_segment in P; [by injection P as ->|done|]. by eapply Forall_lookup_1 in F. }
  exists ps, s'. split_and!; try done. intros k k' f f' p p' Ef Ef' Ep Ep'. destruct (Fr k f p Ef Ep) as [Np F1], (Fr k' f' p' Ef' Ep') as [_ F2]. split.
  - intros <-. exact (sh_inj _ Ok' _ _ _ _ _ F1 F2 Np).
  - intros [Es Eo]. rewrite Es, Eo in F1. congruence.
Qed.
End Faults.
End Sharing.

(** ** Two segments *)

Module Demo.
Definition empty : shmem (list Z) := {| shMemDescs := replicate 10 None; frames := [0x2000; 0x3000; 0x4000; 0x5000] |}.
Definition make (sz : Z) (s : shmem (list Z)) : shmem (list Z) := match SharedMemCreate true true sz s with Ret (_, s) => s | _ => s end.
(** One of two pages, one of one page. *)
Definition two : shmem (list Z) := make 4096 (make 5000 empty).
Definition area (len : Z) : VMArea := {| start := 0x800000; alength := len; aoffset := 0; flags := 0; protection := 7; vNode := 1; areaOps := 9 |}.
Definition faults : list fault :=
  [{| segment := 0; farea := area 8192; foffset := 4096 |}; {| segment := 1; farea := area 4096; foffset := 0 |};
   {| segment := 0; farea := area 8192; foffset := 5000 |}; {| segment := 0; farea := area 8192; foffset := 0 |}].

Lemma no_segment_ok : shm_ok empty.
Proof.
  assert (N : forall i j, frame_at empty i j = None).
  { intros i j. unfold frame_at. destruct (zlookup (shMemDescs empty) i) as [x|] eqn:E; [|done]. apply zlookup_Some in E as [_ E]. by apply lookup_replicate in E as [-> _]. }
  split.
  - split; [by apply (bool_decide_unpack _)|]. repeat (constructor; [split; [done|lia]|]). constructor.
  - intros Hz. cbn in Hz. repeat (apply elem_of_cons in Hz as [?|Hz]; [done|]). by apply elem_of_nil in Hz.
  - intros i j p Hp. by rewrite N in Hp.
  - intros i j i' j' p Hp. by rewrite N in Hp.
Qed.
Lemma two_ok : shm_ok two.
Proof.
  unfold two, make. destruct (SharedMemCreate_ok true true 5000 empty no_segment_ok eq_refl) as (r & s1 & -> & O1 & L1 & _).
  by destruct (SharedMemCreate_ok true true 4096 s1 O1 L1) as (r2 & s2 & -> & O2 & _).
Qed.
(** The page of the first and third fault is the same. *)
Lemma shared_memory_coherent_witness : exists s', run_faults (fun v => v) 1 (map (fun f => (farea f, foffset f)) faults) two = Ret ([0x2000; 0x3000; 0x2000; 0x4000], s') /\ shm_ok s'.
Proof.
  destruct (shared_memory_coherent (fun v => v) 1 faults two two_ok) as (ps & s' & E & Ok & _).
  - by apply (bool_decide_unpack (4 <= 4)%nat).
  - intros i j d e Ei Ej. apply zlookup_Some in Ei as [Bi Ei], Ej as [Bj Ej]. change (shMemDescs two) with (Some {| size := 8192; pages := Some [0; 0] |} :: Some {| size := 4096; pages := Some [0] |} :: replicate 8 None) in *.
    assert (C : forall n (x : SharedMemoryDesc), (Some {| size := 8192; pages := Some [0; 0] |} :: Some {| size := 4096; pages := Some [0] |} :: replicate 8 None) !! n = Some (Some x) -> (n = 0%nat /\ size x = 8192) \/ (n = 1%nat /\ size x = 4096)).
    { intros [|[|n]] x Hx; [injection Hx as <-; by left|injection Hx as <-; by right|]. cbn in Hx. do 8 (destruct n as [|n]; [done|]). done. }
    destruct (C _ _ Ei) as [[Ni Si]|[Ni Si]], (C _ _ Ej) as [[Nj Sj]|[Nj Sj]]; intros Es; lia.
  - repeat (apply Forall_cons; split; [split; [eexists; split; vm_compute; reflexivity|split; [vm_compute; by eexists|done]]|]). constructor.
  - exists s'. split; [|exact Ok]. rewrite E. f_equal. vm_compute in E. injection E as <- _. done.
Defined.

(** Of two segments of one size only the first is ever found. *)
Example same_size_aliases : ShMemFind 4096 (make 4096 (make 4096 empty)) = Some 0.
Proof. by vm_compute. Qed.
(** Two segments attached one after the other become one area of both
    lengths, for which no segment is found. *)
Definition attach (id : Z) (st : mproc unit) : mproc unit :=
  match SysSharedMemoryAttach (fun _ v => v) (fun _ v => v) (fun _ => true) (Some 1) 9 5 id 0 two st with Ret (_, st) => st | _ => st end.
Example attached_areas_merge : alength <$> (snd <$> areaList (attach 2 (attach 1 {| areaList := []; areaCache := [20; 21]; vnodes := tt |}))) = [12288]
  /\ ShMemFind 12288 two = None.
Proof. by vm_compute. Qed.
End Demo.
