(* ===== verification/Modules.v ===== *)
(** * Kernel modules and symbols (kernel/module.c, kernel/symbols.c)

    A module is a relocatable ELF file.  ModuleAdd places its sections one
    after the other in an image, gives every symbol its address, undefined
    ones from the table of the kernel or of a module loaded before, and
    adds these addresses to the words the relocations name.

    The file, the image and the symbol table of the kernel are in one byte
    memory (CString), through which the structures of include/elf.h are
    read and written at their offsets; what the code keeps in the file (the
    sizes and addresses of the sections, the values of the symbols) is
    changed there.  [fuel] bounds the comparison of two names. *)

From S2P Require Import CString Prelude.

(** ** Model *)

(** *** ELF structures *)

Definition load16 (m : mem) (p : Z) : outcome Z := let* a := load m p in let* b := load m (p + 1) in Ret (a + 256 * b).

Definition ELF_REL : Z := 1.
Definition SEC_TYPE_SYMTAB : Z := 2.
Definition SEC_TYPE_STRTAB : Z := 3.
Definition SEC_TYPE_NOBITS : Z := 8.
Definition SEC_TYPE_REL : Z := 9.
Definition SEC_FLAGS_ALLOC : Z := 2.
Definition SEC_FLAGS_EXEC : Z := 4.
Definition STN_UNDEF : Z := 0.
Definition STN_ABS : Z := 0xFFF1.
Definition STN_COMMON : Z := 0xFFF2.
Definition STT_FUNC : Z := 2.
Definition R_386_NONE : Z := 0.
Definition R_386_32 : Z := 1.
Definition R_386_PC32 : Z := 2.
Definition ELF_ST_TYPE (val : Z) : Z := Z.land val 0xF.
Definition ELF_R_SYM (sym : Z) : Z := Z.shiftr sym 8.
Definition ELF_R_TYPE (sym : Z) : Z := Z.land sym 0xFF.

(** Sizes and the offsets of the fields. *)
Definition SIZEOF_ElfSectionHeader : Z := 40.
Definition SIZEOF_ElfSymbol : Z := 16.
Definition SIZEOF_ElfReloc : Z := 8.
Definition SIZEOF_KernelSymbol : Z := 8.
Definition shName : Z := 0.
Definition shType : Z := 4.
Definition shFlags : Z := 8.
Definition shAddr : Z := 12.
Definition shOffset : Z := 16.
Definition shSize : Z := 20.
Definition shInfo : Z := 28.
Definition shAddrAlign : Z := 32.
Definition section (headers i : Z) : Z := headers + SIZEOF_ElfSectionHeader * i.

Record ElfSymbol := {
  symName : Z;
  symValue : Z;
  symSize : Z;
  symInfo : Z;
  symIndex : Z;
}.
Definition OFFSET_symValue : Z := 4.
Definition symbol (table i : Z) : Z := table + SIZEOF_ElfSymbol * i.
Definition get_symbol (m : mem) (p : Z) : outcome ElfSymbol :=
  let* n := load32 m p in
  let* v := load32 m (p + OFFSET_symValue) in
  let* s := load32 m (p + 8) in
  let* i := load m (p + 12) in
  let* x := load16 m (p + 14) in
  Ret {| symName := n; symValue := v; symSize := s; symInfo := i; symIndex := x |}.

Definition SIZE_ALIGN_UP (size align : Z) : Z := Z.land (u32 (size + (align - 1))) (u32 (Z.lnot (align - 1))).

(** *** The symbol nearest to an address *)

(** The loop of SymbolLookup over [n] symbols from [i] on. *)
Fixpoint lookup_loop (n : nat) (m : mem) (symbolTable i address currOffset : Z) (currSym : option ElfSymbol) : outcome (Z * option ElfSymbol) :=
  match n with
  | O => Ret (currOffset, currSym)
  | S n =>
      let* s := get_symbol m (symbol symbolTable i) in
      if negb (ELF_ST_TYPE (symInfo s) =? STT_FUNC) then lookup_loop n m symbolTable (i + 1) address currOffset currSym
      else if currOffset <? u32 (address - symValue s) then lookup_loop n m symbolTable (i + 1) address currOffset currSym
      else lookup_loop n m symbolTable (i + 1) address (u32 (address - symValue s)) (Some s)
  end.
(** The address of the name, the size and the offset. *)
Definition SymbolLookup (m : mem) (stringTable symbolTable symSize_ address : Z) : outcome (option (Z * Z * Z)) :=
  let* (offset, s) := lookup_loop (Z.to_nat (u32 symSize_ / SIZEOF_ElfSymbol)) m symbolTable 0 address 0xFFFFFFFF None in
  match s with
  | None => Ret None
  | Some s => if symSize s <? offset then Ret None else Ret (Some (stringTable + symName s, symSize s, offset))
  end.

(** *** Modules *)

Record Module_ := {
  keSymTab : Z;
  keSymTabSize : Z;
  loadAddr : Z;
  textAddr : Z;
  textLength : Z;
  sectionHeaders : Z;
  strTable : Z;
  strTableSize : Z;
  symTable : Z;
  symTableSize : Z;
}.

(** [symtable_start] and [symtable_end] are those of the kernel image. *)
Record modules := {
  memory : mem;
  moduleList : list Module_;
  symtable_start : Z;
  symtable_end : Z;
}.

Fixpoint symbol_find (n : nat) (fuel : nat) (md : Module_) (symName_ type i : Z) (m : mem) : outcome Z :=
  match n with
  | O => Ret 0
  | S n =>
      let* s := get_symbol m (symbol (symTable md) i) in
      if symIndex s =? STN_UNDEF then symbol_find n fuel md symName_ type (i + 1) m
      else if negb (ELF_ST_TYPE (symInfo s) =? type) then symbol_find n fuel md symName_ type (i + 1) m
      else
        let* r := strcmp fuel symName_ (strTable md + symName s) m in
        if c_true r then symbol_find n fuel md symName_ type (i + 1) m else Ret (symValue s)
  end.
Definition ModuleSymbolFind (fuel : nat) (md : Module_) (symName_ type : Z) (m : mem) : outcome Z :=
  symbol_find (Z.to_nat (u32 (symTableSize md) / SIZEOF_ElfSymbol) - 1) fuel md symName_ type 1 m.

(** A table of kernel symbols; [None] when the name is not in it. *)
Fixpoint find_kernel (n : nat) (fuel : nat) (currSym name : Z) (m : mem) : outcome (option Z) :=
  match n with
  | O => Ret None
  | S n =>
      let* q := load32 m (currSym + 4) in
      let* r := strcmp fuel q name m in
      if c_true r then find_kernel n fuel (currSym + SIZEOF_KernelSymbol) name m
      else let* a := load32 m currSym in Ret (Some a)
  end.
Fixpoint find_modules (fuel : nat) (l : list Module_) (name : Z) (m : mem) : outcome Z :=
  match l with
  | [] => Ret 0
  | curr :: l =>
      if keSymTab curr =? 0 then find_modules fuel l name m
      else
        let* r := find_kernel (Z.to_nat ((keSymTabSize curr + 7) / SIZEOF_KernelSymbol)) fuel (keSymTab curr) name m in
        match r with Some a => Ret a | None => find_modules fuel l name m end
  end.
Definition ModuleResolveKernel (fuel : nat) (name : Z) (s : modules) : outcome Z :=
  let* r := find_kernel (Z.to_nat ((symtable_end s - symtable_start s) / SIZEOF_KernelSymbol)) fuel (symtable_start s) name (memory s) in
  match r with Some a => Ret a | None => find_modules fuel (moduleList s) name (memory s) end.

Definition with_memory m (s : modules) : modules :=
  {| memory := m; moduleList := moduleList s; symtable_start := symtable_start s; symtable_end := symtable_end s |}.
Definition with_modules l (s : modules) : modules :=
  {| memory := memory s; moduleList := l; symtable_start := symtable_start s; symtable_end := symtable_end s |}.

Fixpoint prepare_loop (n : nat) (fuel : nat) (md : Module_) (i : Z) (s : modules) : outcome (Z * modules) :=
  match n with
  | O => Ret (0, s)
  | S n =>
      let p := symbol (symTable md) i in
      let* sym := get_symbol (memory s) p in
      if symIndex sym =? STN_UNDEF then
        let* v := ModuleResolveKernel fuel (strTable md + symName sym) s in
        let* m := store32 (memory s) (p + OFFSET_symValue) v in
        if c_true v then prepare_loop n fuel md (i + 1) (with_memory m s) else Ret (- ENOENT, with_memory m s)
      else if symIndex sym =? STN_ABS then prepare_loop n fuel md (i + 1) s
      else if symIndex sym =? STN_COMMON then Ret (- ENOENT, s)
      else
        let* a := load32 (memory s) (section (sectionHeaders md) (symIndex sym) + shAddr) in
        let* m := store32 (memory s) (p + OFFSET_symValue) (u32 (symValue sym + a)) in
        prepare_loop n fuel md (i + 1) (with_memory m s)
  end.
Definition ModuleSymbolPrepare (fuel : nat) (md : Module_) (s : modules) : outcome (Z * modules) :=
  prepare_loop (Z.to_nat (u32 (symTableSize md) / SIZEOF_ElfSymbol) - 1) fuel md 1 s.

(** [target] is the address of the section the relocations are for. *)
Fixpoint resolve_loop (n : nat) (md : Module_) (relTable target i : Z) (m : mem) : outcome mem :=
  match n with
  | O => Ret m
  | S n =>
      let* a := load32 m (relTable + SIZEOF_ElfReloc * i) in
      let* info := load32 m (relTable + SIZEOF_ElfReloc * i + 4) in
      let relAddr := u32 (target + a) in
      let p := symbol (symTable md) (ELF_R_SYM info) in
      let* m :=
        if ELF_R_TYPE info =? R_386_NONE then Ret m
        else if ELF_R_TYPE info =? R_386_32 then
          let* v := load32 m (p + OFFSET_symValue) in
          let* w := load32 m relAddr in
          store32 m relAddr (u32 (w + v))
        else if ELF_R_TYPE info =? R_386_PC32 then
          let* v := load32 m (p + OFFSET_symValue) in
          let* w := load32 m relAddr in
          store32 m relAddr (u32 (w + (v - relAddr)))
        else Ret m in
      resolve_loop n md relTable target (i + 1) m
  end.
Definition ModuleSymbolResolve (md : Module_) (file sec : Z) (m : mem) : outcome mem :=
  let* off := load32 m (section (sectionHeaders md) sec + shOffset) in
  let* size := load32 m (section (sectionHeaders md) sec + shSize) in
  let* inf := load32 m (section (sectionHeaders md) sec + shInfo) in
  let* target := load32 m (section (sectionHeaders md) inf + shAddr) in
  if target =? 0 then Ret m
  else resolve_loop (Z.to_nat (size / SIZEOF_ElfReloc)) md (file + off) target 0 m.

(** The address and the size of the section, or [None]. *)
Fixpoint find_section (n : nat) (fuel : nat) (md : Module_) (sectionNames name i : Z) (m : mem) : outcome (option (Z * Z)) :=
  match n with
  | O => Ret None
  | S n =>
      let h := section (sectionHeaders md) i in
      let* f := load32 m (h + shFlags) in
      if negb (c_true (Z.land f SEC_FLAGS_ALLOC)) then find_section n fuel md sectionNames name (i + 1) m
      else
        let* nm := load32 m (h + shName) in
        let* r := strcmp fuel (sectionNames + nm) name m in
        if c_true r then find_section n fuel md sectionNames name (i + 1) m
        else let* size := load32 m (h + shSize) in let* a := load32 m (h + shAddr) in Ret (Some (a, size))
  end.
Definition ModuleSectionFind (fuel : nat) (md : Module_) (sectionNames name total : Z) (m : mem) : outcome (option (Z * Z)) :=
  find_section (Z.to_nat total) fuel md sectionNames name 0 m.

Definition with_text (a l : Z) (md : Module_) : Module_ :=
  {| keSymTab := keSymTab md; keSymTabSize := keSymTabSize md; loadAddr := loadAddr md; textAddr := a; textLength := l;
     sectionHeaders := sectionHeaders md; strTable := strTable md; strTableSize := strTableSize md; symTable := symTable md;
     symTableSize := symTableSize md |}.
Definition with_strings (p l : Z) (md : Module_) : Module_ :=
  {| keSymTab := keSymTab md; keSymTabSize := keSymTabSize md; loadAddr := loadAddr md; textAddr := textAddr md; textLength := textLength md;
     sectionHeaders := sectionHeaders md; strTable := p; strTableSize := l; symTable := symTable md; symTableSize := symTableSize md |}.
Definition with_symbols (p l : Z) (md : Module_) : Module_ :=
  {| keSymTab := keSymTab md; keSymTabSize := keSymTabSize md; loadAddr := loadAddr md; textAddr := textAddr md; textLength := textLength md;
     sectionHeaders := sectionHeaders md; strTable := strTable md; strTableSize := strTableSize md; symTable := p; symTableSize := l |}.
Definition with_exports (p l : Z) (md : Module_) : Module_ :=
  {| keSymTab := p; keSymTabSize := l; loadAddr := loadAddr md; textAddr := textAddr md; textLength := textLength md;
     sectionHeaders := sectionHeaders md; strTable := strTable md; strTableSize := strTableSize md; symTable := symTable md;
     symTableSize := symTableSize md |}.

(** The first loop of ModuleAdd: the tables and the rounded sizes. *)
Fixpoint scan_loop (n : nat) (file i : Z) (md : Module_) (m : mem) : outcome (Module_ * mem) :=
  match n with
  | O => Ret (md, m)
  | S n =>
      let h := section (sectionHeaders md) i in
      let* type := load32 m (h + shType) in
      let* off := load32 m (h + shOffset) in
      let* size := load32 m (h + shSize) in
      let* align := load32 m (h + shAddrAlign) in
      let md := if type =? SEC_TYPE_SYMTAB then with_symbols (file + off) (s32 size) md else md in
      let md := if type =? SEC_TYPE_STRTAB then with_strings (file + off) (s32 size) md else md in
      let* m := store32 m (h + shSize) (SIZE_ALIGN_UP size align) in
      scan_loop n file (i + 1) md m
  end.

(** The second loop: the sections in the image. *)
Fixpoint place_loop (n : nat) (file i dest : Z) (md : Module_) (m : mem) : outcome (Module_ * mem) :=
  match n with
  | O => Ret (md, m)
  | S n =>
      let h := section (sectionHeaders md) i in
      let* flags := load32 m (h + shFlags) in
      if negb (c_true (Z.land flags SEC_FLAGS_ALLOC)) then place_loop n file (i + 1) dest md m
      else
        let* size := load32 m (h + shSize) in
        let md := if c_true (Z.land flags SEC_FLAGS_EXEC) then with_text dest size md else md in
        let* m := store32 m (h + shAddr) dest in
        let* type := load32 m (h + shType) in
        let* m :=
          if type =? SEC_TYPE_NOBITS then Ret m
          else let* off := load32 m (h + shOffset) in memcpy (Z.to_nat size) dest (file + off) m in
        place_loop n file (i + 1) (dest + size) md m
  end.

(** The third loop: the relocations of every section. *)
Fixpoint relocate_loop (n : nat) (file i : Z) (md : Module_) (m : mem) : outcome mem :=
  match n with
  | O => Ret m
  | S n =>
      let* type := load32 m (section (sectionHeaders md) i + shType) in
      let* m := if type =? SEC_TYPE_REL then ModuleSymbolResolve md file i m else Ret m in
      relocate_loop n file (i + 1) md m
  end.

(** The code that follows the loops calls the function a module starts
    with, here [init]; [names] are the addresses of the three strings. *)
Record literals := { symtable_name : Z; ModuleInit_name : Z; init_module_name : Z }.

Definition ELF_HEAD_CHECK (m : mem) (file : Z) : outcome bool :=
  let* a := load m file in let* b := load m (file + 1) in let* c := load m (file + 2) in let* d := load m (file + 3) in
  Ret ((a =? 0x7F) && (b =? 69) && (c =? 76) && (d =? 70)).

Definition ModuleAdd (init : Z -> modules -> outcome (Z * modules)) (names : literals) (fuel : nat) (file image length_ : Z) (s : modules) : outcome (Z * modules) :=
  let m := memory s in
  let* ok := ELF_HEAD_CHECK m file in
  let* fileType := load16 m (file + 16) in
  let* shEntrySize := load16 m (file + 46) in
  if negb ok || negb (fileType =? ELF_REL) || negb (shEntrySize =? SIZEOF_ElfSectionHeader) then Ret (- EINVAL, s)
  else
    let* off := load32 m (file + 32) in
    let* entries := load16 m (file + 48) in
    let* names_index := load16 m (file + 50) in
    if image =? 0 then Ret (- EFAULT, s)
    else
      let md := {| keSymTab := 0; keSymTabSize := 0; loadAddr := image; textAddr := 0; textLength := 0; sectionHeaders := file + off;
                   strTable := 0; strTableSize := 0; symTable := 0; symTableSize := 0 |} in
      let* (_, m) := memset fuel image (PAGE_ALIGN_UP length_) 0 m in
      let* (md, m) := scan_loop (Z.to_nat entries) file 0 md m in
      let* (md, m) := place_loop (Z.to_nat entries) file 0 (loadAddr md) md m in
      let* (ret, s) := ModuleSymbolPrepare fuel md (with_memory m s) in
      if c_true ret then Ret (- ENOENT, s)
      else
        let* m := relocate_loop (Z.to_nat entries) file 0 md (memory s) in
        let* noff := load32 m (section (sectionHeaders md) names_index + shOffset) in
        let* e := ModuleSectionFind fuel md (file + noff) (symtable_name names) entries m in
        let md := match e with Some (a, size) => with_exports a (s32 size) md | None => with_exports 0 0 md end in
        let* f := ModuleSymbolFind fuel md (ModuleInit_name names) STT_FUNC m in
        let* f := if c_true f then Ret f else ModuleSymbolFind fuel md (init_module_name names) STT_FUNC m in
        let s := with_modules (moduleList s ++ [md]) (with_memory m s) in
        if c_true f then init f s else Ret (0, s).

(** ** Memory *)

Definition word_in (p a : Z) : Prop := p <= a < p + 4.
(** [m'] agrees with [m] on the addresses [P]. *)
Definition agree (P : Z -> Prop) (m m' : mem) : Prop := forall a, P a -> m' !! a = m !! a.
Definition same_domain (m m' : mem) : Prop := forall a, is_Some (m !! a) -> is_Some (m' !! a).

Lemma agree_refl P m : agree P m m.
Proof. by intros a. Qed.
Lemma agree_trans P m1 m2 m3 : agree P m1 m2 -> agree P m2 m3 -> agree P m1 m3.
Proof. intros H1 H2 a Ha. by rewrite H2, H1. Qed.
Lemma agree_sub (P Q : Z -> Prop) m m' : (forall a, Q a -> P a) -> agree P m m' -> agree Q m m'.
Proof. intros H A a Ha. by apply A, H. Qed.
Lemma load32_agree P m m' p : agree P m m' -> (forall a, word_in p a -> P a) -> load32 m' p = load32 m p.
Proof. intros A H. unfold load32, load. rewrite !A by (apply H; unfold word_in; lia). done. Qed.
Lemma load16_agree P m m' p : agree P m m' -> (forall a, p <= a < p + 2 -> P a) -> load16 m' p = load16 m p.
Proof. intros A H. unfold load16, load. rewrite !A by (apply H; lia). done. Qed.
Lemma cstr_agree P m m' p s : agree P m m' -> (forall a, p <= a <= p + zlen s -> P a) -> cstr m p s -> cstr m' p s.
Proof.
  intros A H [F B]. split; [done|]. apply (bytes_at_agree m); [|done]. intros a Ha. apply A, H. rewrite zlen_app in Ha. change (zlen [0]) with 1 in Ha. lia.
Qed.
Lemma load32_mapped m p w : load32 m p = Ret w -> mapped m p 4.
Proof.
  unfold load32, load. intros E i Hi. destruct (m !! p) eqn:E0; [|done]. destruct (m !! (p + 1)) eqn:E1; [|done].
  destruct (m !! (p + 2)) eqn:E2; [|done]. destruct (m !! (p + 3)) eqn:E3; [|done].
  assert (i = 0 \/ i = 1 \/ i = 2 \/ i = 3) as [->|[->|[->| ->]]] by lia; rewrite ?Z.add_0_r; by eexists.
Qed.
Lemma mapped_domain m m' p n : same_domain m m' -> mapped m p n -> mapped m' p n.
Proof. intros D M i Hi. by apply D, M. Qed.

Lemma u8_sum v : u8 v + 256 * u8 (v / 256) + 65536 * u8 (v / 65536) + 16777216 * u8 (v / 16777216) = u32 v.
Proof.
  unfold u8, u32. change (2 ^ 8) with 256. change (2 ^ 32) with 4294967296. Z.div_mod_to_equations. lia.
Qed.
Lemma store32_spec m p v : mapped m p 4 -> exists m', store32 m p v = Ret m' /\ load32 m' p = Ret (u32 v)
  /\ agree (fun a => ~ word_in p a) m m' /\ same_domain m m'.
Proof.
  intros M. assert (B : forall x, is_byte (u8 x)) by (intros x; apply u8_range). exists (write m p [u8 v; u8 (v / 256); u8 (v / 65536); u8 (v / 16777216)]).
  assert (K : forall a, is_Some (m !! a) -> is_Some (write m p [u8 v; u8 (v / 256); u8 (v / 65536); u8 (v / 16777216)] !! a)).
  { intros a Ha. pose proof (mapped_write m p [u8 v; u8 (v / 256); u8 (v / 65536); u8 (v / 16777216)] a 1) as Q.
    rewrite <- (Z.add_0_r a). apply Q; [|lia]. intros i Hi. by replace (a + i) with a by lia. }
  split_and!; [| |intros a Ha; apply write_other; unfold word_in in Ha; done|exact K].
  - unfold store32. rewrite (store_ok _ _ _ 4) by done. cbn [bindO].
    assert (S1 : forall q x m', mapped m' p 4 -> mapped (<[q := x]> m') p 4) by (intros q x m' Hm'; apply (mapped_write m' q [x]), Hm').
    rewrite (store_ok _ _ _ 3) by (lia || (eapply mapped_sub; [by apply S1, M|lia|lia])). cbn [bindO].
    rewrite (store_ok _ _ _ 2) by (lia || (eapply mapped_sub; [by do 2 apply S1; apply M|lia|lia])). cbn [bindO].
    rewrite (store_ok _ _ _ 1) by (lia || (eapply mapped_sub; [by do 3 apply S1; apply M|lia|lia])). cbn [write].
    by replace (p + 1 + 1) with (p + 2) by lia; replace (p + 2 + 1) with (p + 3) by lia.
  - rewrite (load32_bytes _ _ (u8 v) (u8 (v / 256)) (u8 (v / 65536)) (u8 (v / 16777216))) by apply write_bytes. by rewrite u8_sum.
Qed.

(** ** Relocation *)

(** A relocation at the address [fst r] with the symbol and type of [snd r]. *)
Definition patches (info : Z) : bool := (ELF_R_TYPE info =? R_386_32) || (ELF_R_TYPE info =? R_386_PC32).
(** The word of a relocation: S + A, or S + A - P. *)
Definition linked (value : Z -> Z) (site info w : Z) : Z :=
  if ELF_R_TYPE info =? R_386_32 then u32 (w + value (ELF_R_SYM info))
  else if ELF_R_TYPE info =? R_386_PC32 then u32 (w + value (ELF_R_SYM info) - site)
  else w.
Definition apart (p q : Z) : Prop := p + 4 <= q \/ q + 4 <= p.
(** The places of the relocations do not overlap. *)
Fixpoint sites_apart (l : list (Z * Z)) : Prop :=
  match l with [] => True | r :: l => (forall q, q ∈ l -> patches r.2 = true -> patches q.2 = true -> apart r.1 q.1) /\ sites_apart l end.
Definition touched (l : list (Z * Z)) (a : Z) : Prop := exists r, r ∈ l /\ patches r.2 = true /\ word_in r.1 a.

(** What relocating does to memory. *)
Record relocated (value : Z -> Z) (l : list (Z * Z)) (m m' : mem) : Prop := {
  rl_words : forall r w, r ∈ l -> patches r.2 = true -> load32 m r.1 = Ret w -> load32 m' r.1 = Ret (linked value r.1 r.2 w);
  rl_rest : agree (fun a => ~ touched l a) m m';
  rl_domain : same_domain m m';
}.

Lemma relocated_nil value m : relocated value [] m m.
Proof. split; [by intros r w ?%elem_of_nil|by intros a|by intros a]. Qed.
Lemma word_apart p q a : apart p q -> word_in p a -> ~ word_in q a.
Proof. unfold apart, word_in. lia. Qed.
Lemma sites_apart_app l k : sites_apart (l ++ k) -> sites_apart l /\ sites_apart k
  /\ forall r q, r ∈ l -> q ∈ k -> patches r.2 = true -> patches q.2 = true -> apart r.1 q.1.
Proof.
  induction l as [|r l IH]; cbn [app sites_apart]; intros H; [split_and!; try done; by intros r q ?%elem_of_nil|].
  destruct H as [H1 H2]. destruct (IH H2) as (A & B & C). split_and!; [|done|done|].
  - intros q Hq. apply H1, elem_of_app. by left.
  - intros x q [->|Hx]%elem_of_cons Hq; [apply H1, elem_of_app; by right|by apply C].
Qed.
(** Relocating twice. *)
Lemma relocated_app value l k m m1 m2 : sites_apart (l ++ k) -> relocated value l m m1 -> relocated value k m1 m2 -> relocated value (l ++ k) m m2.
Proof.
  intros A [W1 R1 D1] [W2 R2 D2]. apply sites_apart_app in A as (_ & _ & A). split.
  - intros r w [Hr|Hr]%elem_of_app P E.
    + rewrite <- (W1 r w Hr P E). apply (load32_agree _ _ _ _ R2). intros a Ha (q & Hq & Pq & Wq). by apply (word_apart r.1 q.1 a); [apply A| |].
    + apply W2; [done|done|]. rewrite <- E. apply (load32_agree _ _ _ _ R1). intros a Ha (q & Hq & Pq & Wq).
      by apply (word_apart q.1 r.1 a); [apply A| |].
  - intros a Ha. rewrite R2, R1; [done|..]; intros (q & Hq & ?); apply Ha; exists q; rewrite elem_of_app; auto.
  - intros a Ha. by apply D2, D1.
Qed.

(** One relocation. *)
Lemma relocate_one value md target r m :
  (patches r.2 = true -> load32 m (symbol (symTable md) (ELF_R_SYM r.2) + OFFSET_symValue) = Ret (value (ELF_R_SYM r.2))
     /\ exists w, load32 m (u32 (target + r.1)) = Ret w) ->
  exists m', (if ELF_R_TYPE r.2 =? R_386_NONE then Ret m
        else if ELF_R_TYPE r.2 =? R_386_32 then
          let* v := load32 m (symbol (symTable md) (ELF_R_SYM r.2) + OFFSET_symValue) in
          let* w := load32 m (u32 (target + r.1)) in
          store32 m (u32 (target + r.1)) (u32 (w + v))
        else if ELF_R_TYPE r.2 =? R_386_PC32 then
          let* v := load32 m (symbol (symTable md) (ELF_R_SYM r.2) + OFFSET_symValue) in
          let* w := load32 m (u32 (target + r.1)) in
          store32 m (u32 (target + r.1)) (u32 (w + (v - u32 (target + r.1))))
        else Ret m) = Ret m' /\ relocated value [(u32 (target + r.1), r.2)] m m'.
Proof.
  intros H. set (site := u32 (target + r.1)) in *. destruct (patches r.2) eqn:P; unfold patches in P.
  2: { exists m. apply orb_false_iff in P as [P1 P2]. rewrite P1, P2. split; [by destruct (ELF_R_TYPE r.2 =? R_386_NONE)|]. split; [|by intros a|by intros a].
       intros q w ->%list_elem_of_singleton Pq _. unfold patches in Pq. cbn [snd] in Pq. by rewrite P1, P2 in Pq. }
  destruct (H eq_refl) as [-> [w Ew]]. rewrite Ew. cbn [bindO].
  assert (St : forall v, exists m', store32 m site (u32 v) = Ret m' /\ (u32 v = linked value site r.2 w -> relocated value [(site, r.2)] m m')).
  { intros v. destruct (store32_spec m site (u32 v) (load32_mapped _ _ _ Ew)) as (m' & E & L & A & D). exists m'. split; [done|]. intros V. split; [| |done].
    - intros q x ->%list_elem_of_singleton Pq E'. cbn [fst snd] in *. rewrite L. f_equal. assert (x = w) as -> by congruence. rewrite <- V.
      rewrite u32_id; [done|]. apply u32_range.
    - intros a Ha. apply A. intros Hw. apply Ha. exists (site, r.2). split; [by left|]. done. }
  destruct (Z.eqb_spec (ELF_R_TYPE r.2) R_386_NONE) as [E0|_]; [by rewrite E0 in P|]. unfold linked in St.
  destruct (Z.eqb_spec (ELF_R_TYPE r.2) R_386_32) as [E1|E1].
  - destruct (St (w + value (ELF_R_SYM r.2))) as (m' & -> & Q). exists m'. split; [done|]. by apply Q.
  - destruct (Z.eqb_spec (ELF_R_TYPE r.2) R_386_PC32) as [E2|E2]; [|done].
    destruct (St (w + (value (ELF_R_SYM r.2) - site))) as (m' & -> & Q). exists m'. split; [done|]. apply Q. f_equal. lia.
Qed.

(** The table of relocations is in memory, outside of the words they change. *)
Definition relocs_at (m : mem) (p : Z) (l : list (Z * Z)) : Prop :=
  forall i r, l !! i = Some r -> load32 m (p + SIZEOF_ElfReloc * Z.of_nat i) = Ret r.1 /\ load32 m (p + SIZEOF_ElfReloc * Z.of_nat i + 4) = Ret r.2.
Definition site_of (target : Z) (r : Z * Z) : Z * Z := (u32 (target + r.1), r.2).
Definition values_at (m : mem) (md : Module_) (value : Z -> Z) (l : list (Z * Z)) : Prop :=
  forall r, r ∈ l -> patches r.2 = true -> load32 m (symbol (symTable md) (ELF_R_SYM r.2) + OFFSET_symValue) = Ret (value (ELF_R_SYM r.2))
    /\ exists w, load32 m r.1 = Ret w.

Section Image.
(** The addresses of the image; the tables are outside of it. *)
Context (img : Z -> Prop).
Definition inside (p : Z) : Prop := forall a, word_in p a -> img a.
Definition outside (p : Z) : Prop := forall a, word_in p a -> ~ img a.
Definition sites_inside (l : list (Z * Z)) : Prop := forall r, r ∈ l -> patches r.2 = true -> inside r.1.
Definition values_outside (md : Module_) (l : list (Z * Z)) : Prop :=
  forall r, r ∈ l -> patches r.2 = true -> outside (symbol (symTable md) (ELF_R_SYM r.2) + OFFSET_symValue).

Lemma relocated_outside value l m m' p : relocated value l m m' -> sites_inside l -> outside p -> load32 m' p = load32 m p.
Proof.
  intros [_ R _] S O. apply (load32_agree _ _ _ _ R). intros a Ha (r & Hr & P & W). by apply (O a Ha), (S r Hr P).
Qed.
Lemma values_at_relocated value l k m m' md : relocated value l m m' -> sites_apart (l ++ k) -> sites_inside l -> values_outside md k ->
  values_at m md value k -> values_at m' md value k.
Proof.
  intros R A S O V r Hr P. destruct (V r Hr P) as [E [w W]]. split; [rewrite <- E; by apply (relocated_outside value l); [| |apply O]|].
  exists w. rewrite <- W. apply (load32_agree _ _ _ _ (rl_rest _ _ _ _ R)). intros a Ha (q & Hq & Pq & Wq).
  apply sites_apart_app in A as (_ & _ & A). by apply (word_apart q.1 r.1 a); [apply A| |].
Qed.

Lemma resolve_loop_spec value md relTable target l : forall i m, 0 <= i -> relocs_at m (relTable + SIZEOF_ElfReloc * i) l ->
  (forall k, 0 <= k < 8 * (i + Z.of_nat (length l)) -> ~ img (relTable + k)) -> let sites := site_of target <$> l in
  sites_apart sites -> sites_inside sites -> values_outside md sites -> values_at m md value sites ->
  exists m', resolve_loop (length l) md relTable target i m = Ret m' /\ relocated value sites m m'.
Proof.
  induction l as [|r l IH]; intros i m Hi T Ho sites A Hs VO V; cbn [length resolve_loop].
  { exists m. split; [done|]. apply relocated_nil. }
  destruct (T 0%nat r eq_refl) as [E1 E2]. rewrite Z.mul_0_r, Z.add_0_r in E1, E2. rewrite E1, E2. cbn [bindO].
  destruct (relocate_one value md target r m) as (m1 & -> & R1); [intros P; apply (V (site_of target r)); [left|done]|]. cbn [bindO].
  change sites with ([site_of target r] ++ (site_of target <$> l)) in *. assert (S1 : sites_inside [site_of target r]).
  { intros q Hq. apply Hs, elem_of_app. by left. }
  destruct (IH (i + 1) m1) as (m2 & E & R2).
  - lia.
  - intros k q Hk. assert (Hk' : (r :: l) !! S k = Some q) by done. destruct (T _ _ Hk') as [F1 F2].
    assert (B : (k < length l)%nat) by (by apply lookup_lt_Some in Hk). unfold SIZEOF_ElfReloc in *.
    replace (relTable + 8 * (i + 1) + 8 * Z.of_nat k) with (relTable + 8 * i + 8 * Z.of_nat (S k)) by lia.
    split; [rewrite <- F1|rewrite <- F2]; apply (relocated_outside _ _ _ _ _ R1 S1); intros a Ha Hi'; unfold word_in in Ha;
      apply (Ho (a - relTable)); cbn [length]; try lia; by replace (relTable + (a - relTable)) with a by lia.
  - intros k Hk. apply Ho. cbn [length]. lia.
  - by apply sites_apart_app in A as (_ & A & _).
  - intros q Hq. apply Hs, elem_of_app. by right.
  - intros q Hq. apply VO, elem_of_app. by right.
  - apply (values_at_relocated value [site_of target r] _ m); try done.
    + intros q Hq. apply VO, elem_of_app. by right.
    + intros q Hq. apply V, elem_of_app. by right.
  - exists m2. split; [done|]. by apply (relocated_app _ _ _ _ m1).
Qed.
End Image.

(** ** Section headers *)

Record sec := { s_name : Z; s_type : Z; s_flags : Z; s_addr : Z; s_offset : Z; s_size : Z; s_info : Z; s_align : Z }.
Record sec_at (m : mem) (h : Z) (s : sec) : Prop := {
  sa_name : load32 m (h + shName) = Ret (s_name s);
  sa_type : load32 m (h + shType) = Ret (s_type s);
  sa_flags : load32 m (h + shFlags) = Ret (s_flags s);
  sa_addr : load32 m (h + shAddr) = Ret (s_addr s);
  sa_offset : load32 m (h + shOffset) = Ret (s_offset s);
  sa_size : load32 m (h + shSize) = Ret (s_size s);
  sa_info : load32 m (h + shInfo) = Ret (s_info s);
  sa_align : load32 m (h + shAddrAlign) = Ret (s_align s);
}.
Definition headers_at (m : mem) (h : Z) (l : list sec) : Prop := forall i s, l !! i = Some s -> sec_at m (section h (Z.of_nat i)) s.
Definition header_bytes (h : Z) (l : list sec) (a : Z) : Prop := h <= a < section h (Z.of_nat (length l)).

(** Two memories that agree on a header. *)
Lemma sec_at_agree P m m' h s : agree P m m' -> (forall a, h <= a < h + 40 -> P a) -> sec_at m h s -> sec_at m' h s.
Proof.
  intros A H [H1 H2 H3 H4 H5 H6 H7 H8].
  assert (L : forall o v, 0 <= o <= 36 -> load32 m (h + o) = Ret v -> load32 m' (h + o) = Ret v).
  { intros o v Ho <-. apply (load32_agree _ _ _ _ A). intros a Ha. apply H. unfold word_in in Ha. lia. }
  split; (apply L; [cbv; by split|done]).
Qed.
Lemma headers_at_agree P m m' h l : agree P m m' -> (forall a, header_bytes h l a -> P a) -> headers_at m h l -> headers_at m' h l.
Proof.
  intros A H L i s E. apply (sec_at_agree P m); [done| |by apply L]. intros a Ha. apply H. apply lookup_lt_Some in E.
  unfold header_bytes, section, SIZEOF_ElfSectionHeader in *. lia.
Qed.

(** Section [s] holds relocations for the section with this address. *)
Definition target_of (l : list sec) (s : sec) : Z := default 0 (s_addr <$> l !! Z.to_nat (s_info s)).
Definition section_sites (l : list sec) (s : sec) (r : list (Z * Z)) : list (Z * Z) :=
  if (s_type s =? SEC_TYPE_REL) && negb (target_of l s =? 0) then site_of (target_of l s) <$> r else [].
(** The relocations of all the sections, [rels] those of each. *)
Definition sites_of (l : list sec) (k : list (sec * list (Z * Z))) : list (Z * Z) := concat ((fun x => section_sites l x.1 x.2) <$> k).

(** Section [s] of the file has the relocations [r], outside of the image. *)
Definition rel_ok (img : Z -> Prop) (m : mem) (file : Z) (l : list sec) (x : sec * list (Z * Z)) : Prop :=
  s_type x.1 = SEC_TYPE_REL -> 0 <= s_info x.1 < Z.of_nat (length l) /\ s_size x.1 / SIZEOF_ElfReloc = Z.of_nat (length x.2)
    /\ relocs_at m (file + s_offset x.1) x.2 /\ forall k, 0 <= k < 8 * Z.of_nat (length x.2) -> ~ img (file + s_offset x.1 + k).

Lemma rel_ok_agree img m m' file l x : agree (fun a => ~ img a) m m' -> rel_ok img m file l x -> rel_ok img m' file l x.
Proof.
  intros A H T. destruct (H T) as (I & S & R & O). split_and!; [lia|lia|done| |done]. intros i r E. destruct (R i r E) as [E1 E2].
  apply lookup_lt_Some in E. unfold SIZEOF_ElfReloc in *.
  split; [rewrite <- E1|rewrite <- E2]; apply (load32_agree _ _ _ _ A); intros a Ha Hi; unfold word_in in Ha;
    apply (O (a - (file + s_offset x.1))); try lia; by replace (file + s_offset x.1 + (a - (file + s_offset x.1))) with a by lia.
Qed.

Section Relocate.
Context (img : Z -> Prop) (value : Z -> Z) (md : Module_) (file : Z) (l : list sec).
Context (H_out : forall a, header_bytes (sectionHeaders md) l a -> ~ img a).

Lemma relocated_agree k m m' : relocated value k m m' -> sites_inside img k -> agree (fun a => ~ img a) m m'.
Proof. intros [_ R _] S a Ha. apply R. intros (r & Hr & P & W). by apply Ha, (S r Hr P). Qed.

Lemma ModuleSymbolResolve_spec m i s r : headers_at m (sectionHeaders md) l -> l !! i = Some s -> s_type s = SEC_TYPE_REL ->
  rel_ok img m file l (s, r) -> let sites := section_sites l s r in
  sites_apart sites -> sites_inside img sites -> values_outside img md sites -> values_at m md value sites ->
  exists m', ModuleSymbolResolve md file (Z.of_nat i) m = Ret m' /\ relocated value sites m m'.
Proof.
  intros Hh E T R sites. destruct (R T) as (Hi & Hs & Hr & Ho). cbn [fst snd] in *. destruct (Hh i s E) as [H1 H2 H3 H4 H5 H6 H7 H8].
  unfold ModuleSymbolResolve. rewrite H5, H6, H7. cbn [bindO]. destruct (lookup_lt_is_Some_2 l (Z.to_nat (s_info s))) as [t Et]; [lia|].
  pose proof (sa_addr _ _ _ (Hh _ _ Et)) as Ha. rewrite Z2Nat.id in Ha by lia. rewrite Ha. cbn [bindO]. intros A S VO V. unfold sites, section_sites in *.
  rewrite T, Z.eqb_refl in *. cbn [andb] in *. assert (Tt : target_of l s = s_addr t) by (unfold target_of; by rewrite Et). rewrite Tt in *.
  destruct (Z.eqb_spec (s_addr t) 0); cbn [negb] in *; [exists m; split; [done|apply relocated_nil]|]. rewrite Hs, Nat2Z.id.
  apply (resolve_loop_spec img); rewrite ?Z.mul_0_r, ?Z.add_0_r; try done.
Qed.

Lemma relocate_loop_spec pre k : forall m, l = pre ++ (fst <$> k) -> headers_at m (sectionHeaders md) l -> Forall (rel_ok img m file l) k ->
  let sites := sites_of l k in sites_apart sites -> sites_inside img sites -> values_outside img md sites -> values_at m md value sites ->
  exists m', relocate_loop (length k) file (Z.of_nat (length pre)) md m = Ret m' /\ relocated value sites m m'.
Proof.
  revert pre. induction k as [|x k IH]; intros pre m El Hh F sites A S VO V; cbn [length relocate_loop].
  { exists m. split; [done|]. apply relocated_nil. }
  apply Forall_cons in F as [Fx F]. assert (Ex : l !! length pre = Some x.1) by (rewrite El; by rewrite lookup_app_r, Nat.sub_diag).
  rewrite (sa_type _ _ _ (Hh _ _ Ex)). cbn [bindO]. change sites with (section_sites l x.1 x.2 ++ sites_of l k) in *.
  pose proof (sites_apart_app _ _ A) as (A1 & A2 & _).
  assert (Sub : forall P : Z * Z -> Prop, (forall r, r ∈ section_sites l x.1 x.2 ++ sites_of l k -> P r) ->
    (forall r, r ∈ section_sites l x.1 x.2 -> P r) /\ (forall r, r ∈ sites_of l k -> P r)).
  { intros P H. split; intros r Hr; apply H, elem_of_app; auto. }
  destruct (Sub _ S) as [S1 S2]. destruct (Sub _ VO) as [VO1 VO2]. destruct (Sub _ V) as [V1 V2].
  assert (exists m1, (if s_type x.1 =? SEC_TYPE_REL then ModuleSymbolResolve md file (Z.of_nat (length pre)) m else Ret m) = Ret m1
    /\ relocated value (section_sites l x.1 x.2) m m1) as (m1 & -> & R1).
  { destruct (Z.eqb_spec (s_type x.1) SEC_TYPE_REL) as [T|T].
    - by apply ModuleSymbolResolve_spec.
    - exists m. split; [done|]. unfold section_sites. rewrite (proj2 (Z.eqb_neq _ _) T). apply relocated_nil. }
  cbn [bindO]. pose proof (relocated_agree _ _ _ R1 S1) as Ag. destruct (IH (pre ++ [x.1]) m1) as (m2 & E2 & R2); try done.
  - by rewrite <- app_assoc.
  - by apply (headers_at_agree _ _ _ _ _ Ag).
  - eapply Forall_impl; [exact F|]. intros y. by apply rel_ok_agree.
  - by apply (values_at_relocated img value (section_sites l x.1 x.2) _ m).
  - exists m2. rewrite length_app in E2. cbn [length] in E2. replace (Z.of_nat (length pre) + 1) with (Z.of_nat (length pre + 1)) by lia.
    split; [done|]. by apply (relocated_app _ _ _ _ m1).
Qed.
End Relocate.

(** ** Exported symbols *)

Definition short (fuel : nat) (nm : list Z) : Prop := zlen nm < 2 ^ 32 - 1 /\ (length nm < fuel)%nat.
(** The string [nm] is at [q], in memory that stays as it is. *)
Record name_at (fuel : nat) (keep : Z -> Prop) (m : mem) (q : Z) (nm : list Z) : Prop := {
  na_cstr : cstr m q nm;
  na_short : short fuel nm;
  na_keep : forall a, q <= a <= q + zlen nm -> keep a;
}.
Lemma name_at_agree fuel keep m m' q nm : agree keep m m' -> name_at fuel keep m q nm -> name_at fuel keep m' q nm.
Proof. intros A [C S K]. split; [by apply (cstr_agree keep m)|done|done]. Qed.
Lemma strcmp_names fuel keep m q p a b : name_at fuel keep m q a -> name_at fuel keep m p b ->
  exists r, strcmp fuel q p m = Ret r /\ c_true r = negb (bool_decide (a = b)).
Proof.
  intros [Ca [Sa Fa] _] [Cb [Sb _] _]. destruct (strcmp_decides_equality fuel q p a b m Ca Cb Sa Sb Fa) as (r & E & H). exists r. split; [done|].
  case_bool_decide as D; unfold c_true; cbn; [by rewrite (proj2 H D)|]. destruct (Z.eqb_spec r 0) as [R|R]; [|done]. by apply H in R.
Qed.

(** A table of names and addresses at [p]. *)
Fixpoint exports_at (fuel : nat) (keep : Z -> Prop) (m : mem) (p : Z) (l : list (list Z * Z)) : Prop :=
  match l with
  | [] => True
  | x :: l => (exists q, load32 m p = Ret x.2 /\ load32 m (p + 4) = Ret q /\ name_at fuel keep m q x.1)
      /\ (forall a, p <= a < p + 8 -> keep a) /\ exports_at fuel keep m (p + SIZEOF_KernelSymbol) l
  end.
(** The address under the first entry with the name. *)
Fixpoint first_export (nm : list Z) (l : list (list Z * Z)) : option Z :=
  match l with [] => None | x :: l => if decide (x.1 = nm) then Some x.2 else first_export nm l end.

Lemma exports_at_agree fuel keep m m' l : agree keep m m' -> forall p, exports_at fuel keep m p l -> exports_at fuel keep m' p l.
Proof.
  intros A. induction l as [|x l IH]; intros p; cbn [exports_at]; [done|]. intros ((q & E1 & E2 & N) & K & H). split; [|split; [done|by apply IH]].
  exists q. split_and!; [rewrite <- E1|rewrite <- E2|by apply (name_at_agree _ _ m)]; apply (load32_agree _ _ _ _ A); intros a Ha; apply K; unfold word_in in Ha; lia.
Qed.
Lemma find_kernel_spec fuel keep m name nm l : name_at fuel keep m name nm -> forall p, exports_at fuel keep m p l ->
  find_kernel (length l) fuel p name m = Ret (first_export nm l).
Proof.
  intros N. induction l as [|x l IH]; intros p; cbn [exports_at length find_kernel first_export]; [done|]. intros ((q & E1 & E2 & Nq) & K & H).
  rewrite E2. cbn [bindO]. destruct (strcmp_names _ _ _ _ _ _ _ Nq N) as (r & -> & Hr). cbn [bindO]. rewrite Hr.
  case_decide; case_bool_decide; try done; cbn [negb]; [by rewrite E1|by apply IH].
Qed.
Lemma first_export_app nm l k : first_export nm (l ++ k) = match first_export nm l with Some a => Some a | None => first_export nm k end.
Proof. induction l as [|x l IH]; cbn [app first_export]; [done|]. by case_decide. Qed.

(** The tables of the kernel and of the modules hold [E]. *)
Definition module_exports (fuel : nat) (keep : Z -> Prop) (m : mem) (md : Module_) (l : list (list Z * Z)) : Prop :=
  if keSymTab md =? 0 then l = []
  else exports_at fuel keep m (keSymTab md) l /\ (keSymTabSize md + 7) / SIZEOF_KernelSymbol = Z.of_nat (length l).
Definition all_exports (fuel : nat) (keep : Z -> Prop) (s : modules) (E : list (list Z * Z)) : Prop :=
  exists l0 ls, E = l0 ++ concat ls /\ exports_at fuel keep (memory s) (symtable_start s) l0
    /\ (symtable_end s - symtable_start s) / SIZEOF_KernelSymbol = Z.of_nat (length l0)
    /\ Forall2 (module_exports fuel keep (memory s)) (moduleList s) ls.

Lemma all_exports_agree fuel keep s E m' : agree keep (memory s) m' -> all_exports fuel keep s E -> all_exports fuel keep (with_memory m' s) E.
Proof.
  intros A (l0 & ls & -> & H0 & L & F). exists l0, ls. split_and!; [done|by apply (exports_at_agree _ _ _ _ _ A)|done|].
  eapply Forall2_impl; [exact F|]. intros md l. unfold module_exports. destruct (_ =? 0); [done|]. intros [H ?]. split; [|done].
  by apply (exports_at_agree _ _ (memory s)).
Qed.
Lemma find_modules_spec fuel keep m name nm ms ls : name_at fuel keep m name nm -> Forall2 (module_exports fuel keep m) ms ls ->
  find_modules fuel ms name m = Ret (default 0 (first_export nm (concat ls))).
Proof.
  intros N. induction 1 as [|md l ms ls H F IH]; cbn [find_modules concat]; [done|]. unfold module_exports in H.
  destruct (Z.eqb_spec (keSymTab md) 0); [by subst l|]. destruct H as [H L]. rewrite L, Nat2Z.id, (find_kernel_spec _ _ _ _ _ _ N _ H). cbn [bindO].
  rewrite first_export_app. by destruct (first_export nm l).
Qed.
Lemma ModuleResolveKernel_spec fuel keep name nm s E : name_at fuel keep (memory s) name nm -> all_exports fuel keep s E ->
  ModuleResolveKernel fuel name s = Ret (default 0 (first_export nm E)).
Proof.
  intros N (l0 & ls & -> & H0 & L & F). unfold ModuleResolveKernel. rewrite L, Nat2Z.id, (find_kernel_spec _ _ _ _ _ _ N _ H0). cbn [bindO].
  rewrite first_export_app. destruct (first_export nm l0); [done|]. by apply (find_modules_spec _ keep).
Qed.

(** ** Symbols *)

Definition set_value (v : Z) (s : ElfSymbol) : ElfSymbol :=
  {| symName := symName s; symValue := v; symSize := symSize s; symInfo := symInfo s; symIndex := symIndex s |}.
Definition symbol_bytes (tab n : Z) (a : Z) : Prop := tab <= a < symbol tab n.

Lemma get_symbol_agree P m m' p : agree P m m' -> (forall a, p <= a < p + 16 -> P a) -> get_symbol m' p = get_symbol m p.
Proof.
  intros A H. unfold get_symbol, OFFSET_symValue. rewrite !(load32_agree _ _ _ _ A) by (intros a Ha; apply H; unfold word_in in Ha; lia).
  rewrite (load16_agree _ _ _ _ A) by (intros a Ha; apply H; lia). unfold load. by rewrite (A (p + 12)) by (apply H; lia).
Qed.
Lemma get_symbol_stored m m' p v s : agree (fun a => ~ word_in (p + OFFSET_symValue) a) m m' -> load32 m' (p + OFFSET_symValue) = Ret v ->
  get_symbol m p = Ret s -> get_symbol m' p = Ret (set_value v s).
Proof.
  unfold OFFSET_symValue. intros A E. unfold get_symbol, OFFSET_symValue. rewrite E.
  rewrite (load32_agree _ _ _ p A), (load32_agree _ _ _ (p + 8) A) by (intros a Ha Hb; unfold word_in in *; lia).
  rewrite (load16_agree _ _ _ (p + 14) A) by (intros a Ha Hb; unfold word_in in *; lia). unfold load. rewrite (A (p + 12)) by (unfold word_in; lia).
  destruct (load32 m p); [|done..]. cbn [bindO]. destruct (load32 m (p + 4)); [|done..]. cbn [bindO]. destruct (load32 m (p + 8)); [|done..]. cbn [bindO].
  destruct (of_option (m !! (p + 12))); [|done..]. cbn [bindO]. destruct (load16 m (p + 14)); [|done..]. cbn [bindO]. by intros [= <-].
Qed.
Lemma get_symbol_value m p s : get_symbol m p = Ret s -> load32 m (p + OFFSET_symValue) = Ret (symValue s).
Proof.
  unfold get_symbol. destruct (load32 m p); [|done..]. cbn [bindO]. destruct (load32 m (p + OFFSET_symValue)); [|done..]. cbn [bindO].
  destruct (load32 m (p + 8)); [|done..]. cbn [bindO]. destruct (load m (p + 12)); [|done..]. cbn [bindO].
  destruct (load16 m (p + 14)); [|done..]. cbn [bindO]. by intros [= <-].
Qed.

(** The value a symbol gets, when it can be linked: [E] are the exported
    symbols, [addr] the addresses of the sections. *)
Definition link_value (E : list (list Z * Z)) (addr : Z -> Z) (x : ElfSymbol * list Z) : option Z :=
  if symIndex x.1 =? STN_UNDEF then
    match first_export x.2 E with Some a => if a =? 0 then None else Some (u32 a) | None => None end
  else if symIndex x.1 =? STN_ABS then Some (symValue x.1)
  else if symIndex x.1 =? STN_COMMON then None
  else Some (u32 (symValue x.1 + addr (symIndex x.1))).
(** Symbols [k] are in the table from index [i] on. *)
Definition symbols_at (m : mem) (tab i : Z) (k : list ElfSymbol) : Prop :=
  forall j x, k !! j = Some x -> get_symbol m (symbol tab (i + Z.of_nat j)) = Ret x.
Definition in_section (x : ElfSymbol) : Prop := symIndex x <> STN_UNDEF /\ symIndex x <> STN_ABS /\ symIndex x <> STN_COMMON.

Section Prepare.
Context (fuel : nat) (keep : Z -> Prop) (md : Module_) (E : list (list Z * Z)) (addr : Z -> Z) (N : Z).
Context (K_out : forall a, keep a -> ~ symbol_bytes (symTable md) N a).

(** The names of undefined symbols and the addresses of the sections are in
    the memory that stays. *)
Definition linkable (m : mem) (x : ElfSymbol * list Z) : Prop :=
  (symIndex x.1 = STN_UNDEF -> name_at fuel keep m (strTable md + symName x.1) x.2)
  /\ (in_section x.1 -> load32 m (section (sectionHeaders md) (symIndex x.1) + shAddr) = Ret (addr (symIndex x.1))
        /\ forall a, word_in (section (sectionHeaders md) (symIndex x.1) + shAddr) a -> keep a).
Lemma linkable_agree m m' x : agree keep m m' -> linkable m x -> linkable m' x.
Proof.
  intros A [H1 H2]. split; [intros U; by apply (name_at_agree _ _ m), H1|]. intros D. destruct (H2 D) as [L K]. split; [|done].
  rewrite <- L. by apply (load32_agree _ _ _ _ A).
Qed.

(** One symbol of the loop. *)
Lemma prepare_step n i s x : get_symbol (memory s) (symbol (symTable md) i) = Ret x.1 -> linkable (memory s) x -> all_exports fuel keep s E ->
  match link_value E addr x with
  | Some v => exists m, prepare_loop (S n) fuel md i s = prepare_loop n fuel md (i + 1) (with_memory m s)
      /\ get_symbol m (symbol (symTable md) i) = Ret (set_value v x.1)
      /\ agree (fun a => ~ word_in (symbol (symTable md) i + OFFSET_symValue) a) (memory s) m /\ same_domain (memory s) m
  | None => exists s', prepare_loop (S n) fuel md i s = Ret (- ENOENT, s')
  end.
Proof.
  intros G [L1 L2] Ex. cbn [prepare_loop]. rewrite G. cbn [bindO]. unfold link_value.
  pose proof (load32_mapped _ _ _ (get_symbol_value _ _ _ G)) as M.
  assert (St : forall v, exists m, store32 (memory s) (symbol (symTable md) i + OFFSET_symValue) v = Ret m
    /\ get_symbol m (symbol (symTable md) i) = Ret (set_value (u32 v) x.1)
    /\ agree (fun a => ~ word_in (symbol (symTable md) i + OFFSET_symValue) a) (memory s) m /\ same_domain (memory s) m).
  { intros v. destruct (store32_spec _ _ v M) as (m & Es & Ld & A & D). exists m. split_and!; try done. by apply (get_symbol_stored (memory s)). }
  destruct (Z.eqb_spec (symIndex x.1) STN_UNDEF) as [U|U].
  - rewrite (ModuleResolveKernel_spec _ _ _ _ _ _ (L1 U) Ex). cbn [bindO]. destruct (St (default 0 (first_export x.2 E))) as (m & -> & H). cbn [bindO].
    destruct (first_export x.2 E) as [a|]; cbn [default]; [|by eexists]. unfold c_true, id in *. destruct (a =? 0); cbn [negb]; [by eexists|]. by exists m.
  - destruct (Z.eqb_spec (symIndex x.1) STN_ABS) as [U1|U1]; [|destruct (Z.eqb_spec (symIndex x.1) STN_COMMON) as [U2|U2]].
    + exists (memory s). split_and!; [by destruct s|by destruct x as [[]]|by intros a|by intros a].
    + by eexists.
    + destruct (L2 ltac:(done)) as [-> _]. cbn [bindO]. destruct (St (u32 (symValue x.1 + addr (symIndex x.1)))) as (m & -> & H). cbn [bindO]. exists m.
      by rewrite (u32_id (u32 _)) in H by apply u32_range.
Qed.

Lemma prepare_loop_spec k : forall i s, 0 <= i -> i + Z.of_nat (length k) <= N -> symbols_at (memory s) (symTable md) i (fst <$> k) ->
  Forall (linkable (memory s)) k -> all_exports fuel keep s E ->
  match mapM (link_value E addr) k with
  | Some vs => exists m, prepare_loop (length k) fuel md i s = Ret (0, with_memory m s)
      /\ symbols_at m (symTable md) i (zip_with (fun v x => set_value v x.1) vs k)
      /\ agree (fun a => ~ (symbol (symTable md) i <= a < symbol (symTable md) (i + Z.of_nat (length k)))) (memory s) m /\ same_domain (memory s) m
  | None => exists s', prepare_loop (length k) fuel md i s = Ret (- ENOENT, s')
  end.
Proof.
  induction k as [|x k IH]; intros i s Hi HN Sy Lk Ex; cbn [length] in *.
  { exists (memory s). split_and!; [by destruct s|by intros j y ?|by intros a|by intros a]. }
  apply Forall_cons in Lk as [Lx Lk]. assert (G : get_symbol (memory s) (symbol (symTable md) i) = Ret x.1) by (rewrite <- (Z.add_0_r i) at 1; by apply (Sy 0%nat)).
  pose proof (prepare_step (length k) i s x G Lx Ex) as P. cbn [mapM]. destruct (link_value E addr x) as [v|]; cbn [mbind option_bind]; [|done].
  destruct P as (m & -> & Gx & A & D). assert (Ak : agree keep (memory s) m).
  { apply (agree_sub _ _ _ _) with (2 := A). intros a Ka Wa. apply (K_out a Ka). unfold symbol_bytes, word_in, symbol, OFFSET_symValue, SIZEOF_ElfSymbol in *. lia. }
  specialize (IH (i + 1) (with_memory m s) ltac:(lia) ltac:(lia)). cbn [memory with_memory] in IH.
  assert (Sy' : symbols_at m (symTable md) (i + 1) (fst <$> k)).
  { intros j y Hj. rewrite (get_symbol_agree _ _ _ _ A).
    - replace (i + 1 + Z.of_nat j) with (i + Z.of_nat (S j)) by lia. by apply (Sy (S j)).
    - intros a Ha Hw. unfold word_in, symbol, OFFSET_symValue, SIZEOF_ElfSymbol in *. lia. }
  specialize (IH Sy' ltac:(eapply Forall_impl; [exact Lk|]; intros y; by apply linkable_agree) ltac:(by apply all_exports_agree)).
  destruct (mapM (link_value E addr) k) as [vs|]; cbn [mbind option_bind]; [|done].
  destruct IH as (m2 & -> & S2 & A2 & D2). exists m2. split_and!; [done| | |intros a Ha; by apply D2, D].
  - intros [|j] y Hj; cbn in Hj.
    + injection Hj as <-. rewrite Z.add_0_r. rewrite <- Gx. apply (get_symbol_agree _ _ _ _ A2). intros a Ha Hb. unfold symbol, SIZEOF_ElfSymbol in *. lia.
    + replace (i + Z.of_nat (S j)) with (i + 1 + Z.of_nat j) by lia. by apply S2.
  - intros a Ha. rewrite A2, A; [done|..]; unfold word_in, symbol, OFFSET_symValue, SIZEOF_ElfSymbol in *; lia.
Qed.
End Prepare.

(** ** Sizes and places of the sections *)

Definition set_size (v : Z) (s : sec) : sec :=
  {| s_name := s_name s; s_type := s_type s; s_flags := s_flags s; s_addr := s_addr s; s_offset := s_offset s; s_size := v; s_info := s_info s; s_align := s_align s |}.
Definition set_addr (v : Z) (s : sec) : sec :=
  {| s_name := s_name s; s_type := s_type s; s_flags := s_flags s; s_addr := v; s_offset := s_offset s; s_size := s_size s; s_info := s_info s; s_align := s_align s |}.
Definition align_sec (s : sec) : sec := set_size (SIZE_ALIGN_UP (s_size s) (s_align s)) s.

Lemma u32_SIZE_ALIGN_UP size align : u32 (SIZE_ALIGN_UP size align) = SIZE_ALIGN_UP size align.
Proof.
  unfold SIZE_ALIGN_UP. assert (U : forall z, u32 z = Z.land z (Z.ones 32)) by (intros z; unfold u32; by rewrite Z.land_ones).
  rewrite !U. rewrite <- !Z.land_assoc. by rewrite Z.land_diag.
Qed.

(** One field of a header changes. *)
Ltac header_field A := match goal with H : load32 _ ?p = Ret ?x |- load32 _ ?p = Ret ?x => rewrite <- H; apply (load32_agree _ _ _ _ A); intros a Ha Hb;
  unfold word_in in *; cbv [shName shType shFlags shAddr shOffset shSize shInfo shAddrAlign] in *; lia end.
Lemma sec_at_size m m' h s v : agree (fun a => ~ word_in (h + shSize) a) m m' -> load32 m' (h + shSize) = Ret v -> sec_at m h s -> sec_at m' h (set_size v s).
Proof.
  intros A L [H1 H2 H3 H4 H5 H6 H7 H8]. split; cbn [set_size s_name s_type s_flags s_addr s_offset s_size s_info s_align]; try done; header_field A.
Qed.
Lemma sec_at_addr m m' h s v : agree (fun a => ~ word_in (h + shAddr) a) m m' -> load32 m' (h + shAddr) = Ret v -> sec_at m h s -> sec_at m' h (set_addr v s).
Proof.
  intros A L [H1 H2 H3 H4 H5 H6 H7 H8]. split; cbn [set_addr s_name s_type s_flags s_addr s_offset s_size s_info s_align]; try done; header_field A.
Qed.
Lemma headers_at_step m m' h pre s s' suf o : 0 <= o <= 36 -> headers_at m h (pre ++ s :: suf) ->
  agree (fun a => ~ word_in (section h (Z.of_nat (length pre)) + o) a) m m' -> sec_at m' (section h (Z.of_nat (length pre))) s' -> headers_at m' h (pre ++ s' :: suf).
Proof.
  intros Ho H A S i x E. destruct (decide (i = length pre)) as [->|Ni].
  - rewrite lookup_app_r, Nat.sub_diag in E by done. injection E as <-. done.
  - apply (sec_at_agree _ m _ _ _ A).
    + intros a Ha Hw. unfold section, SIZEOF_ElfSectionHeader, word_in in *. lia.
    + apply H. destruct (decide (i < length pre)%nat); [by rewrite lookup_app_l in E |- *|]. rewrite lookup_app_r in E |- * by lia.
      by destruct (i - length pre)%nat eqn:D; [lia|].
Qed.

(** What the first loop keeps of a section. *)
Definition scan_sec (file : Z) (md : Module_) (s : sec) : Module_ :=
  let md := if s_type s =? SEC_TYPE_SYMTAB then with_symbols (file + s_offset s) (s32 (s_size s)) md else md in
  if s_type s =? SEC_TYPE_STRTAB then with_strings (file + s_offset s) (s32 (s_size s)) md else md.
Lemma scan_sec_headers file md s : sectionHeaders (scan_sec file md s) = sectionHeaders md.
Proof. unfold scan_sec. by destruct (_ =? _), (_ =? _). Qed.

Lemma scan_loop_spec file suf : forall pre md m, headers_at m (sectionHeaders md) (pre ++ suf) ->
  exists m', scan_loop (length suf) file (Z.of_nat (length pre)) md m = Ret (foldl (scan_sec file) md suf, m')
    /\ headers_at m' (sectionHeaders md) (pre ++ (align_sec <$> suf))
    /\ agree (fun a => ~ header_bytes (sectionHeaders md) (pre ++ suf) a) m m' /\ same_domain m m'.
Proof.
  induction suf as [|s suf IH]; intros pre md m H; cbn [length scan_loop foldl].
  { exists m. split_and!; [done|done|by intros a|by intros a]. }
  assert (Hs : sec_at m (section (sectionHeaders md) (Z.of_nat (length pre))) s) by (apply H; by rewrite lookup_app_r, Nat.sub_diag).
  pose proof Hs as [H1 H2 H3 H4 H5 H6 H7 H8]. rewrite H2, H5, H6, H8. cbn [bindO].
  destruct (store32_spec m _ (SIZE_ALIGN_UP (s_size s) (s_align s)) (load32_mapped _ _ _ H6)) as (m1 & -> & L1 & A1 & D1). cbn [bindO].
  rewrite u32_SIZE_ALIGN_UP in L1. fold (scan_sec file md s). pose proof (scan_sec_headers file md s) as Eh.
  assert (Hh : headers_at m1 (sectionHeaders (scan_sec file md s)) ((pre ++ [align_sec s]) ++ suf)).
  { rewrite Eh, <- app_assoc. apply (headers_at_step m m1 _ pre s (align_sec s) suf shSize); [cbv; by split|done|done|]. by apply (sec_at_size m). }
  destruct (IH (pre ++ [align_sec s]) (scan_sec file md s) m1 Hh) as (m2 & E2 & H2' & A2 & D2). rewrite length_app in E2. cbn [length] in E2.
  replace (Z.of_nat (length pre + 1)) with (Z.of_nat (length pre) + 1) in E2 by lia. exists m2. rewrite Eh, <- app_assoc in H2', A2. split_and!; [done|done| |intros a Ha; by apply D2, D1].
  intros a Ha. unfold header_bytes, section, SIZEOF_ElfSectionHeader in *. rewrite !length_app in *. cbn [length] in *.
  rewrite A2, A1; [done|..]; unfold word_in, shSize; lia.
Qed.

Definition allocated (s : sec) : bool := c_true (Z.land (s_flags s) SEC_FLAGS_ALLOC).
(** The sections with their addresses, from [dest] on. *)
Fixpoint place_secs (dest : Z) (l : list sec) : list sec :=
  match l with
  | [] => []
  | s :: l => if allocated s then set_addr dest s :: place_secs (dest + s_size s) l else s :: place_secs dest l
  end.
Fixpoint place_text (dest : Z) (l : list sec) (md : Module_) : Module_ :=
  match l with
  | [] => md
  | s :: l =>
      if allocated s then place_text (dest + s_size s) l (if c_true (Z.land (s_flags s) SEC_FLAGS_EXEC) then with_text dest (s_size s) md else md)
      else place_text dest l md
  end.
(** The bytes a section has in the image; [d] are those in the file. *)
Definition contents (x : sec * list Z) : list Z :=
  if allocated x.1 then if s_type x.1 =? SEC_TYPE_NOBITS then replicate (Z.to_nat (s_size x.1)) 0 else x.2 else [].
Definition image_bytes (k : list (sec * list Z)) : list Z := concat (contents <$> k).

Section Place.
(** The image lies between [lo] and [hi], the headers [n] elsewhere. *)
Context (file h : Z) (n : nat) (lo hi : Z).
Definition in_image (a : Z) : Prop := lo <= a < hi.
Definition in_headers (a : Z) : Prop := h <= a < section h (Z.of_nat n).
Context (H_apart : forall a, in_headers a -> ~ in_image a).

(** The bytes of a section in the file, outside of both. *)
Definition source_ok (m : mem) (x : sec * list Z) : Prop := allocated x.1 = true -> 0 <= s_size x.1
  /\ (s_type x.1 <> SEC_TYPE_NOBITS -> bytes_at m (file + s_offset x.1) x.2 /\ zlen x.2 = s_size x.1 /\ Forall is_byte x.2
        /\ forall a, file + s_offset x.1 <= a < file + s_offset x.1 + s_size x.1 -> ~ in_headers a /\ ~ in_image a).
Lemma source_ok_agree m m' x : agree (fun a => ~ in_headers a /\ ~ in_image a) m m' -> source_ok m x -> source_ok m' x.
Proof.
  intros A H Al. destruct (H Al) as [S D]. split; [done|]. intros N. destruct (D N) as (B & L & F & O). split_and!; try done.
  apply (bytes_at_agree m); [|done]. intros a Ha. apply A, O. lia.
Qed.
Lemma section_length m x : source_ok m x -> allocated x.1 = true -> zlen (contents x) = s_size x.1.
Proof.
  intros H Al. destruct (H Al) as [S D]. unfold contents. rewrite Al. destruct (Z.eqb_spec (s_type x.1) SEC_TYPE_NOBITS) as [T|T].
  - unfold zlen. rewrite length_replicate. lia.
  - by apply D.
Qed.
Lemma bytes_at_mapped m p l : bytes_at m p l -> mapped m p (zlen l).
Proof.
  intros B i Hi. destruct (lookup_lt_is_Some_2 l (Z.to_nat i)) as [x E]; [unfold zlen in Hi; lia|].
  pose proof (bytes_at_load m l p _ x B E) as L. rewrite Z2Nat.id in L by lia. unfold load in L. by destruct (m !! (p + i)).
Qed.

(** Copying one section into the image. *)
Lemma copy_section m x dest : source_ok m x -> allocated x.1 = true -> lo <= dest -> dest + s_size x.1 <= hi ->
  bytes_at m dest (replicate (Z.to_nat (s_size x.1)) 0) ->
  exists m', (if s_type x.1 =? SEC_TYPE_NOBITS then Ret m else memcpy (Z.to_nat (s_size x.1)) dest (file + s_offset x.1) m) = Ret m'
    /\ bytes_at m' dest (contents x) /\ agree (fun a => ~ (dest <= a < dest + s_size x.1)) m m' /\ same_domain m m'.
Proof.
  intros So Al Hlo Hhi Z0. destruct (So Al) as [Sz D]. unfold contents. rewrite Al. destruct (Z.eqb_spec (s_type x.1) SEC_TYPE_NOBITS) as [T|T].
  { exists m. split_and!; [done|done|by intros a|by intros a]. }
  destruct (D T) as (B & L & F & O). assert (Ld : Z.to_nat (s_size x.1) = length x.2) by (unfold zlen in L; lia). rewrite Ld.
  assert (M : mapped m dest (zlen x.2)).
  { rewrite L. pose proof (bytes_at_mapped _ _ _ Z0) as Q. unfold zlen in Q. rewrite length_replicate in Q. by rewrite Z2Nat.id in Q by lia. }
  rewrite memcpy_spec; [|done|done|done|].
  - exists (write m dest x.2). split_and!; [done|apply write_bytes|intros a Ha; apply write_other; by rewrite L|].
    intros a Ha. rewrite <- (Z.add_0_r a). apply (mapped_write m dest x.2 a 1); [|lia]. intros i Hi. by replace (a + i) with a by lia.
  - unfold disjoint_regions. rewrite L. destruct (Z.le_gt_cases (dest + s_size x.1) (file + s_offset x.1)); [by left|].
    destruct (Z.le_gt_cases (file + s_offset x.1 + s_size x.1) dest); [by right|]. exfalso.
    destruct (O (Z.max dest (file + s_offset x.1))) as [_ Q]; [lia|]. apply Q. unfold in_image. lia.
Qed.

Lemma place_loop_spec k : forall pre dest md m, sectionHeaders md = h -> (length pre + length k = n)%nat -> headers_at m h (pre ++ (fst <$> k)) ->
  Forall (source_ok m) k -> lo <= dest -> dest + zlen (image_bytes k) <= hi -> 0 <= lo -> hi < 2 ^ 32 ->
  bytes_at m dest (replicate (length (image_bytes k)) 0) ->
  exists m', place_loop (length k) file (Z.of_nat (length pre)) dest md m = Ret (place_text dest (fst <$> k) md, m')
    /\ headers_at m' h (pre ++ place_secs dest (fst <$> k)) /\ bytes_at m' dest (image_bytes k)
    /\ agree (fun a => ~ in_headers a /\ ~ (dest <= a < dest + zlen (image_bytes k))) m m' /\ same_domain m m'.
Proof.
  induction k as [|x k IH]; intros pre dest md m Eh En H F Hlo Hhi L0 Hh Z0; cbn [length place_loop fmap list_fmap place_secs place_text] in *.
  { exists m. split_and!; [done|done|done|by intros a|by intros a]. }
  apply Forall_cons in F as [Fx F]. assert (Hs : sec_at m (section h (Z.of_nat (length pre))) x.1) by (apply H; by rewrite lookup_app_r, Nat.sub_diag).
  rewrite Eh, (sa_flags _ _ _ Hs). cbn [bindO]. fold (allocated x.1).
  change (image_bytes (x :: k)) with (contents x ++ image_bytes k) in *. pose proof (zlen_nonneg (image_bytes k)) as Hnn. rewrite zlen_app in Hhi.
  replace (Z.of_nat (length pre) + 1) with (Z.of_nat (length (pre ++ [x.1]))) by (rewrite length_app; cbn; lia).
  destruct (allocated x.1) eqn:Al; cbn [negb].
  2: { unfold contents in *. rewrite Al in *. cbn [app] in *. change (zlen []) with 0 in Hhi. destruct (IH (pre ++ [x.1]) dest md m) as (m' & E & H' & B & A & D); try done.
       - rewrite length_app. cbn. lia.
       - by rewrite <- app_assoc.
       - exists m'. rewrite <- app_assoc in H'. done. }
  pose proof (section_length m x Fx Al) as Lc. rewrite Lc in Hhi. destruct (Fx Al) as [Sz _]. rewrite (sa_size _ _ _ Hs). cbn [bindO].
  destruct (store32_spec m _ dest (load32_mapped _ _ _ (sa_addr _ _ _ Hs))) as (m1 & -> & L1 & A1 & D1). cbn [bindO]. rewrite u32_id in L1 by lia.
  pose proof (sec_at_addr m m1 _ _ _ A1 L1 Hs) as Hs1. rewrite (sa_type _ _ _ Hs1). cbn [bindO set_addr s_type].
  pose proof (sa_offset _ _ _ Hs1) as Eo. cbn [set_addr s_offset] in Eo. rewrite Eo. cbn [bindO].
  assert (A1' : agree (fun a => ~ in_headers a) m m1).
  { apply (agree_sub _ _ _ _) with (2 := A1). intros a Ha Hw. apply Ha. unfold in_headers, word_in, section, SIZEOF_ElfSectionHeader, shAddr in *. lia. }
  assert (I1 : forall a, dest <= a < hi -> m1 !! a = m !! a) by (intros a Ha; apply A1'; intros Q; apply (H_apart a Q); unfold in_image; lia).
  rewrite length_app in Z0. rewrite (replicate_add (length (contents x))) in Z0. apply bytes_at_app in Z0 as [Z1 Z2].
  assert (Ez : zlen (replicate (length (contents x)) 0) = s_size x.1) by (unfold zlen; rewrite length_replicate; exact Lc). rewrite Ez in Z2.
  replace (length (contents x)) with (Z.to_nat (s_size x.1)) in Z1 by (unfold zlen in Lc; lia).
  destruct (copy_section m1 x dest) as (m2 & -> & B2 & A2 & D2); try done.
  { apply (source_ok_agree m); [|done]. apply (agree_sub _ _ _ _) with (2 := A1'). tauto. }
  { lia. }
  { apply (bytes_at_agree m); [|done]. intros a Ha. unfold zlen in Ha. rewrite length_replicate in Ha. apply I1. lia. }
  cbn [bindO]. assert (K2 : forall a, in_headers a -> m2 !! a = m1 !! a).
  { intros a Ha. apply A2. intros Hd. apply (H_apart a Ha). unfold in_image. lia. }
  assert (Hh2 : headers_at m2 h (pre ++ set_addr dest x.1 :: (fst <$> k))).
  { apply (headers_at_agree in_headers m1); [done| |].
    - intros a Ha. unfold header_bytes, in_headers in *. rewrite length_app in Ha. cbn [length] in Ha. rewrite length_fmap in Ha. by rewrite En in Ha.
    - apply (headers_at_step m m1 h pre x.1 _ _ shAddr); [cbv; by split|done|done|done]. }
  destruct (IH (pre ++ [set_addr dest x.1]) (dest + s_size x.1)
    (if c_true (Z.land (s_flags x.1) SEC_FLAGS_EXEC) then with_text dest (s_size x.1) md else md) m2) as (m3 & E3 & H3 & B3 & A3 & D3); try done.
  - by destruct (c_true _).
  - rewrite length_app. cbn. lia.
  - by rewrite <- app_assoc.
  - eapply Forall_impl; [exact F|]. intros y. apply source_ok_agree. intros a [N1 N2]. rewrite A2, A1' by (done || unfold in_image in N2; lia). done.
  - lia.
  - lia.
  - apply (bytes_at_agree m); [|done]. intros a Ha. unfold zlen in Ha. rewrite length_replicate in Ha. fold (zlen (image_bytes k)) in Ha.
    rewrite A2 by lia. apply I1. lia.
  - exists m3. rewrite <- app_assoc in H3. rewrite !length_app in *. cbn [length] in *. split_and!; [done|done| | |intros a Ha; by apply D3, D2, D1].
    + apply bytes_at_app. rewrite Lc. split; [|done]. apply (bytes_at_agree m2); [|done]. intros a Ha. apply A3.
      rewrite Lc in Ha. split; [|lia]. intros Q. apply (H_apart a Q). unfold in_image. lia.
    + intros a [N1 N2]. rewrite zlen_app, Lc in N2. rewrite A3, A2, A1'; [done|done|lia|split; [done|lia]].
Qed.
End Place.

(** ** Searches by name *)

(** The value of the first defined symbol of the type with the name, or 0. *)
Fixpoint first_symbol (nm : list Z) (type : Z) (k : list (ElfSymbol * list Z)) : Z :=
  match k with
  | [] => 0
  | x :: k => if negb (symIndex x.1 =? STN_UNDEF) && (ELF_ST_TYPE (symInfo x.1) =? type) && bool_decide (nm = x.2) then symValue x.1 else first_symbol nm type k
  end.
Lemma symbol_find_spec fuel keep m md name nm type k : name_at fuel keep m name nm -> forall i, symbols_at m (symTable md) i (fst <$> k) ->
  Forall (fun x => symIndex x.1 <> STN_UNDEF -> ELF_ST_TYPE (symInfo x.1) = type -> name_at fuel keep m (strTable md + symName x.1) x.2) k ->
  symbol_find (length k) fuel md name type i m = Ret (first_symbol nm type k).
Proof.
  intros Nn. induction k as [|x k IH]; intros i S F; cbn [length symbol_find first_symbol]; [done|]. apply Forall_cons in F as [Fx F].
  assert (G : get_symbol m (symbol (symTable md) i) = Ret x.1) by (rewrite <- (Z.add_0_r i) at 1; by apply (S 0%nat)). rewrite G. cbn [bindO].
  assert (S' : symbols_at m (symTable md) (i + 1) (fst <$> k)).
  { intros j y Hj. replace (i + 1 + Z.of_nat j) with (i + Z.of_nat (Datatypes.S j)) by lia. by apply (S (Datatypes.S j)). }
  specialize (IH (i + 1) S' F). destruct (Z.eqb_spec (symIndex x.1) STN_UNDEF) as [U|U]; cbn [negb andb]; [done|].
  destruct (Z.eqb_spec (ELF_ST_TYPE (symInfo x.1)) type) as [T|T]; cbn [negb andb]; [|done].
  destruct (strcmp_names _ _ _ _ _ _ _ Nn (Fx U T)) as (r & -> & Hr). cbn [bindO]. rewrite Hr. by case_bool_decide.
Qed.

(** The address and size of the first allocated section with the name. *)
Fixpoint first_section (nm : list Z) (k : list (sec * list Z)) : option (Z * Z) :=
  match k with
  | [] => None
  | x :: k => if allocated x.1 && bool_decide (x.2 = nm) then Some (s_addr x.1, s_size x.1) else first_section nm k
  end.
Lemma find_section_spec fuel keep m md names name nm k : name_at fuel keep m name nm -> forall i,
  (forall j x, k !! j = Some x -> sec_at m (section (sectionHeaders md) (i + Z.of_nat j)) x.1) ->
  Forall (fun x => allocated x.1 = true -> name_at fuel keep m (names + s_name x.1) x.2) k ->
  find_section (length k) fuel md names name i m = Ret (first_section nm k).
Proof.
  intros Nn. induction k as [|x k IH]; intros i S F; cbn [length find_section first_section]; [done|]. apply Forall_cons in F as [Fx F].
  assert (G : sec_at m (section (sectionHeaders md) i) x.1) by (rewrite <- (Z.add_0_r i) at 1; by apply (S 0%nat)). destruct G as [G1 G2 G3 G4 G5 G6 G7 G8].
  rewrite G3. cbn [bindO]. fold (allocated x.1). assert (S' : forall j y, k !! j = Some y -> sec_at m (section (sectionHeaders md) (i + 1 + Z.of_nat j)) y.1).
  { intros j y Hj. replace (i + 1 + Z.of_nat j) with (i + Z.of_nat (Datatypes.S j)) by lia. by apply (S (Datatypes.S j)). }
  specialize (IH (i + 1) S' F). destruct (allocated x.1) eqn:Al; cbn [negb andb]; [|done]. rewrite G1. cbn [bindO].
  destruct (strcmp_names _ _ _ _ _ _ _ (Fx eq_refl) Nn) as (r & -> & Hr). cbn [bindO]. rewrite Hr. case_bool_decide; cbn [negb]; [|done].
  by rewrite G6, G4.
Qed.

Lemma name_at_weaken fuel (P Q : Z -> Prop) m q nm : (forall a, P a -> Q a) -> name_at fuel P m q nm -> name_at fuel Q m q nm.
Proof. intros H [C S K]. split; auto. Qed.
Lemma exports_at_weaken fuel (P Q : Z -> Prop) m l : (forall a, P a -> Q a) -> forall p, exports_at fuel P m p l -> exports_at fuel Q m p l.
Proof.
  intros H. induction l as [|x l IH]; intros p; cbn [exports_at]; [done|]. intros ((q & E1 & E2 & N) & K & R). split; [|split; [auto|by apply IH]].
  exists q. split_and!; [done|done|by apply (name_at_weaken _ P)].
Qed.
Lemma all_exports_weaken fuel (P Q : Z -> Prop) s E : (forall a, P a -> Q a) -> all_exports fuel P s E -> all_exports fuel Q s E.
Proof.
  intros H (l0 & ls & -> & H0 & L & F). exists l0, ls. split_and!; [done|by apply (exports_at_weaken _ P)|done|].
  eapply Forall2_impl; [exact F|]. intros md l. unfold module_exports. destruct (_ =? 0); [done|]. intros [X ?]. split; [|done]. by apply (exports_at_weaken _ P).
Qed.

(** ** Loading a module *)

Section Link.
Context (init : Z -> modules -> outcome (Z * modules)) (names : literals) (fuel : nat) (s : modules) (file image length_ off ni : Z).
(** The sections, their bytes in the file, their names, their relocations;
    the symbols after the null symbol with their names; the exports. *)
Context (l : list sec) (ds : list (list Z)) (secnames : list (list Z)) (rels : list (list (Z * Z))) (null : ElfSymbol)
  (syms : list (ElfSymbol * list Z)) (E : list (list Z * Z)) (values : list Z) (lit0 lit1 lit2 : list Z).

Definition h : Z := file + off.
Definition room : Z := PAGE_ALIGN_UP length_.
Definition module0 : Module_ :=
  {| keSymTab := 0; keSymTabSize := 0; loadAddr := image; textAddr := 0; textLength := 0; sectionHeaders := file + off;
     strTable := 0; strTableSize := 0; symTable := 0; symTableSize := 0 |}.
Definition scanned : Module_ := foldl (scan_sec file) module0 l.
Definition tab : Z := symTable scanned.
Definition strs : Z := strTable scanned.
Definition count : Z := 1 + Z.of_nat (length syms).
Definition sized : list sec := align_sec <$> l.
Definition with_data : list (sec * list Z) := zip sized ds.
Definition placed : list sec := place_secs image sized.
Definition img : Z -> Prop := in_image image (image + room).
Definition hdr : Z -> Prop := in_headers h (length l).
Definition sym_area : Z -> Prop := symbol_bytes tab count.
(** What ModuleAdd never writes to. *)
Definition kept (a : Z) : Prop := ~ hdr a /\ ~ sym_area a /\ ~ img a.
Definition sec_addr (i : Z) : Z := default 0 (s_addr <$> placed !! Z.to_nat i).
Definition linked_syms : list (ElfSymbol * list Z) := zip_with (fun v x => (set_value v x.1, x.2)) values syms.
(** The value of the symbol with an index. *)
Definition value (i : Z) : Z := default 0 (symValue <$> (null :: (fst <$> linked_syms)) !! Z.to_nat i).
Definition sites : list (Z * Z) := sites_of placed (zip placed rels).
(** The image before relocation. *)
Definition unlinked : mem := write ∅ image (image_bytes with_data).

(** The file is a relocatable ELF file in memory, with all its symbols
    defined somewhere; it, the image and the tables of names do not
    overlap, and the image has the room for the sections. *)
Record module_ok : Prop := {
  mo_magic : ELF_HEAD_CHECK (memory s) file = Ret true;
  mo_type : load16 (memory s) (file + 16) = Ret ELF_REL;
  mo_entry : load16 (memory s) (file + 46) = Ret SIZEOF_ElfSectionHeader;
  mo_off : load32 (memory s) (file + 32) = Ret off;
  mo_count : load16 (memory s) (file + 48) = Ret (Z.of_nat (length l));
  mo_index : load16 (memory s) (file + 50) = Ret ni /\ 0 <= ni < Z.of_nat (length l);
  mo_headers : headers_at (memory s) h l;
  mo_data : length ds = length l /\ Forall (source_ok file h (length l) image (image + room) (memory s)) with_data;
  mo_image : 0 < image /\ image + room < 2 ^ 32 /\ mapped (memory s) image room /\ (Z.to_nat room < fuel)%nat;
  mo_fits : zlen (image_bytes with_data) <= room;
  mo_apart : (forall a, hdr a -> ~ img a) /\ (forall a, sym_area a -> ~ img a) /\ (forall a, sym_area a -> ~ hdr a);
  mo_table : symbols_at (memory s) tab 0 (null :: (fst <$> syms)) /\ u32 (symTableSize scanned) / SIZEOF_ElfSymbol = count;
  mo_symbols : Forall (fun x => (symIndex x.1 = STN_UNDEF \/ ELF_ST_TYPE (symInfo x.1) = STT_FUNC -> name_at fuel kept (memory s) (strs + symName x.1) x.2)
    /\ (in_section x.1 -> 0 <= symIndex x.1 < Z.of_nat (length l))) syms;
  mo_exports : all_exports fuel kept s E;
  mo_links : mapM (link_value E sec_addr) syms = Some values;
  mo_rels : length rels = length l /\ Forall (fun x => s_type x.1 = SEC_TYPE_REL -> 0 <= s_info x.1 < Z.of_nat (length l)
    /\ s_size x.1 / SIZEOF_ElfReloc = Z.of_nat (length x.2) /\ relocs_at (memory s) (file + s_offset x.1) x.2
    /\ forall k, 0 <= k < 8 * Z.of_nat (length x.2) -> kept (file + s_offset x.1 + k)) (zip placed rels);
  mo_sites : sites_apart sites /\ forall r, r ∈ sites -> patches r.2 = true -> 0 <= ELF_R_SYM r.2 < count /\ image <= r.1 /\ r.1 + 4 <= image + zlen (image_bytes with_data);
  mo_secnames : length secnames = length l /\ forall x nx, l !! Z.to_nat ni = Some nx -> x ∈ zip placed secnames -> allocated x.1 = true ->
    name_at fuel kept (memory s) (file + s_offset nx + s_name x.1) x.2;
  mo_literals : name_at fuel kept (memory s) (symtable_name names) lit0 /\ name_at fuel kept (memory s) (ModuleInit_name names) lit1
    /\ name_at fuel kept (memory s) (init_module_name names) lit2;
}.

Lemma scanned_headers : sectionHeaders scanned = h.
Proof.
  unfold scanned. assert (G : forall l md, sectionHeaders (foldl (scan_sec file) md l) = sectionHeaders md); [|by rewrite G].
  clear. induction l as [|x l IH]; intros md; cbn [foldl]; [done|]. by rewrite IH, scan_sec_headers.
Qed.
Lemma place_text_fields d k md : exists a n, place_text d k md = with_text a n md.
Proof.
  revert d md. induction k as [|x k IH]; intros d md; cbn [place_text]; [exists (textAddr md), (textLength md); by destruct md|].
  destruct (allocated x); [|apply IH]. destruct (c_true _); [|apply IH]. destruct (IH (d + s_size x) (with_text d (s_size x) md)) as (a & n & ->).
  by exists a, n.
Qed.
Lemma place_secs_length d k : length (place_secs d k) = length k.
Proof. revert d. induction k as [|x k IH]; intros d; cbn [place_secs]; [done|]. by destruct (allocated x); cbn; rewrite IH. Qed.
Lemma placed_length : length placed = length l.
Proof. unfold placed, sized. by rewrite place_secs_length, length_fmap. Qed.

(** The state of memory after the loops over the sections. *)
Lemma sections_placed : module_ok -> exists m1 m2, memset fuel image room 0 (memory s) = Ret (image, m1)
  /\ exists m', scan_loop (length l) file 0 module0 m1 = Ret (scanned, m')
  /\ place_loop (length l) file 0 image scanned m' = Ret (place_text image sized scanned, m2)
  /\ headers_at m2 h placed /\ bytes_at m2 image (image_bytes with_data) /\ agree (fun a => ~ hdr a /\ ~ img a) (memory s) m2 /\ same_domain (memory s) m2.
Proof.
  intros [M1 M2 M3 M4 M5 M6 Mh [Md1 Md2] (Mi & Mr & Mm & Mf) Mfit (A1 & A2 & A3) _ _ _ _ _ _ _ _].
  assert (R : 0 <= room < 2 ^ 32). { pose proof (zlen_nonneg (image_bytes with_data)). lia. }
  unfold memset. rewrite memset_loop_spec by done. cbn [bindO]. eexists _. set (m1 := write (memory s) image (replicate (Z.to_nat room) (u8 0))).
  assert (Lr : zlen (replicate (Z.to_nat room) 0) = room) by (unfold zlen; rewrite length_replicate; lia).
  assert (K1 : agree (fun a => ~ img a) (memory s) m1).
  { intros a Ha. apply write_other. change (u8 0) with 0. rewrite Lr. exact Ha. }
  assert (D1 : same_domain (memory s) m1).
  { intros a Ha. rewrite <- (Z.add_0_r a). apply (mapped_write _ image _ a 1); [|lia]. intros i Hi. by replace (a + i) with a by lia. }
  assert (Z1 : bytes_at m1 image (replicate (Z.to_nat room) 0)) by apply write_bytes.
  assert (Hh1 : headers_at m1 h ([] ++ l)).
  { apply (headers_at_agree _ _ _ _ _ K1); [|done]. intros a Ha. by apply A1. }
  destruct (scan_loop_spec file l [] module0 m1 Hh1) as (m' & Es & Hh' & Ks & Ds). cbn [app length] in *. change (sectionHeaders module0) with h in *.
  assert (Fst : fst <$> with_data = sized) by (unfold with_data; rewrite fst_zip; [done|unfold sized; rewrite length_fmap; lia]).
  assert (Len : length with_data = length l) by (unfold with_data, sized; rewrite length_zip_with, length_fmap; lia).
  assert (Ka : agree (fun a => ~ hdr a /\ ~ img a) (memory s) m').
  { intros a [N1 N2]. rewrite Ks, K1; [done|done|]. intros Q. apply N1. exact Q. }
  destruct (place_loop_spec file h (length l) image (image + room) A1 with_data [] image scanned m') as (m2 & Ep & Hp & Bp & Kp & Dp).
  - apply scanned_headers.
  - done.
  - by rewrite Fst.
  - eapply Forall_impl; [exact Md2|]. intros x. by apply source_ok_agree.
  - lia.
  - lia.
  - lia.
  - lia.
  - pose proof (zlen_nonneg (image_bytes with_data)). unfold zlen in Mfit. assert (Eq : (length (image_bytes with_data) <= Z.to_nat room)%nat) by lia.
    apply (bytes_at_agree m1).
    + intros a Ha. apply Ks. intros Q. apply (A1 a Q). unfold img, in_image. unfold zlen in Ha. rewrite length_replicate in Ha. lia.
    + replace (Z.to_nat room) with (length (image_bytes with_data) + (Z.to_nat room - length (image_bytes with_data)))%nat in Z1 by lia.
      rewrite replicate_add in Z1. by apply bytes_at_app in Z1 as [Z1 _].
  - exists m2. split; [done|]. exists m'. rewrite Fst in *. rewrite Len in Ep. split_and!; try done.
    + intros a [N1 N2]. rewrite Kp, Ka; [done|done|]. split; [done|]. intros Q. apply N2. unfold img, in_image. lia.
    + intros a Ha. by apply Dp, Ds, D1.
Qed.

(** The module after the loops: the one scanned, with its text. *)
Definition loaded : Module_ := place_text image sized scanned.
Lemma loaded_fields : sectionHeaders loaded = h /\ symTable loaded = tab /\ strTable loaded = strs /\ symTableSize loaded = symTableSize scanned.
Proof. unfold loaded. destruct (place_text_fields image sized scanned) as (a & n & ->). cbn. by rewrite scanned_headers. Qed.

Lemma kept_outside a : kept a -> ~ hdr a /\ ~ img a.
Proof. by intros (? & ? & ?). Qed.
Lemma sec_addr_at m i : headers_at m h placed -> 0 <= i < Z.of_nat (length l) -> load32 m (section h i + shAddr) = Ret (sec_addr i).
Proof.
  intros H Hi. destruct (lookup_lt_is_Some_2 placed (Z.to_nat i)) as [x Ex]; [rewrite placed_length; lia|]. unfold sec_addr. rewrite Ex.
  pose proof (sa_addr _ _ _ (H _ _ Ex)) as Q. by rewrite Z2Nat.id in Q by lia.
Qed.

(** The symbols get their values. *)
Lemma symbols_linked m2 : module_ok -> headers_at m2 h placed -> agree (fun a => ~ hdr a /\ ~ img a) (memory s) m2 ->
  exists m3, ModuleSymbolPrepare fuel loaded (with_memory m2 s) = Ret (0, with_memory m3 s)
    /\ symbols_at m3 tab 0 (null :: (fst <$> linked_syms)) /\ agree (fun a => ~ sym_area a) m2 m3 /\ same_domain m2 m3.
Proof.
  intros [M1 M2 M3 M4 M5 M6 Mh Md Mi Mfit (A1 & A2 & A3) [Mt Mc] Ms Me Ml Mr Msi Msn Mli] Hp Ag.
  destruct loaded_fields as (F1 & F2 & F3 & F4). unfold ModuleSymbolPrepare. rewrite F4, Mc. unfold count. replace (Z.to_nat (1 + Z.of_nat (length syms)) - 1)%nat with (length syms) by lia.
  assert (T2 : symbols_at m2 tab 0 (null :: (fst <$> syms))).
  { intros j x Hj. rewrite (get_symbol_agree _ _ _ _ Ag); [by apply Mt|]. intros a Ha. assert (Q : sym_area a); [|split; [by intros ?; apply (A3 a Q)|by apply A2]].
    apply lookup_lt_Some in Hj. cbn [length] in Hj. rewrite length_fmap in Hj. unfold sym_area, symbol_bytes, symbol, SIZEOF_ElfSymbol, count in *. lia. }
  pose proof (prepare_loop_spec fuel (fun a => ~ sym_area a) loaded E sec_addr count) as P. rewrite F2 in P. specialize (P (fun a Ha Hb => Ha Hb) syms 1 (with_memory m2 s)).
  cbn [memory with_memory] in P. specialize (P ltac:(lia) ltac:(unfold count; lia)).
  assert (S1 : symbols_at m2 tab 1 (fst <$> syms)). { intros j x Hj. replace (1 + Z.of_nat j) with (0 + Z.of_nat (S j)) by lia. by apply (T2 (S j)). }
  specialize (P S1). rewrite Ml in P. destruct P as (m3 & Ep & S3 & A3' & D3).
  - eapply Forall_impl; [exact Ms|]. intros x [N I]. unfold linkable. rewrite F1, F3. split.
    + intros U. apply (name_at_weaken _ kept); [by intros a (_ & ? & _)|]. apply (name_at_agree _ _ (memory s)); [|by apply N; left].
      apply (agree_sub _ _ _ _) with (2 := Ag). apply kept_outside.
    + intros D. specialize (I D). split; [by apply sec_addr_at|]. intros a Ha Q. apply (A3 a Q). unfold hdr, in_headers, section, word_in, shAddr, SIZEOF_ElfSectionHeader in *. lia.
  - apply (all_exports_weaken _ kept); [by intros a (_ & ? & _)|]. apply all_exports_agree; [|done]. apply (agree_sub _ _ _ _) with (2 := Ag). apply kept_outside.
  - exists m3. split_and!; [done| | |done].
    + intros [|j] x Hj.
      * injection Hj as <-. rewrite <- (T2 0%nat null eq_refl). apply (get_symbol_agree _ _ _ _ A3'). intros a Ha Hb. unfold symbol, SIZEOF_ElfSymbol in *. lia.
      * replace (0 + Z.of_nat (S j)) with (1 + Z.of_nat j) by lia. apply S3. change ((fst <$> linked_syms) !! j = Some x) in Hj. unfold linked_syms in Hj.
        rewrite list_lookup_fmap, lookup_zip_with in Hj. rewrite lookup_zip_with. destruct (values !! j); [|done]. by destruct (syms !! j).
    + apply (agree_sub _ _ _ _) with (2 := A3'). intros a Ha Q. apply Ha. unfold sym_area, symbol_bytes, symbol, SIZEOF_ElfSymbol, count in *. lia.
Qed.

Lemma mapped_load32 m p : mapped m p 4 -> exists w, load32 m p = Ret w.
Proof.
  intros M. unfold load32, load. destruct (M 0 ltac:(lia)) as [a Ea], (M 1 ltac:(lia)) as [b Eb], (M 2 ltac:(lia)) as [c Ec], (M 3 ltac:(lia)) as [d Ed].
  rewrite Z.add_0_r in Ea. rewrite Ea, Eb, Ec, Ed. by eexists.
Qed.
Lemma value_at m i : symbols_at m tab 0 (null :: (fst <$> linked_syms)) -> length values = length syms -> 0 <= i < count ->
  load32 m (symbol tab i + OFFSET_symValue) = Ret (value i).
Proof.
  intros Sy Lv Hi. destruct (lookup_lt_is_Some_2 (null :: (fst <$> linked_syms)) (Z.to_nat i)) as [x Ex].
  { cbn [length]. unfold linked_syms. rewrite length_fmap, length_zip_with. unfold count in Hi. lia. }
  unfold value. rewrite Ex. pose proof (get_symbol_value _ _ _ (Sy _ _ Ex)) as Q. by rewrite Z2Nat.id, Z.add_0_l in Q by lia.
Qed.

(** The words of the relocations change. *)
Lemma image_relocated m2 m3 : module_ok -> headers_at m2 h placed -> bytes_at m2 image (image_bytes with_data) -> agree (fun a => ~ hdr a /\ ~ img a) (memory s) m2 ->
  symbols_at m3 tab 0 (null :: (fst <$> linked_syms)) -> agree (fun a => ~ sym_area a) m2 m3 -> same_domain m2 m3 ->
  exists m4, relocate_loop (length l) file 0 loaded m3 = Ret m4 /\ relocated value sites m3 m4 /\ agree (fun a => ~ img a) m3 m4
    /\ headers_at m4 h placed /\ symbols_at m4 tab 0 (null :: (fst <$> linked_syms)).
Proof.
  intros [M1 M2 M3 M4 M5 M6 Mh Md Mi Mfit (A1 & A2 & A3) [Mt Mc] Ms Me Ml [Mr1 Mr2] [Msi1 Msi2] Msn Mli] Hp Bp Ag Sy Ay Dy.
  destruct loaded_fields as (F1 & F2 & F3 & F4). pose proof (length_mapM _ _ _ Ml) as Lv.
  assert (Hp3 : headers_at m3 h placed).
  { apply (headers_at_agree _ _ _ _ _ Ay); [|done]. intros a Ha Q. apply (A3 a Q). unfold header_bytes in Ha. by rewrite placed_length in Ha. }
  assert (Ak : agree kept (memory s) m3) by (intros a (N1 & N2 & N3); by rewrite Ay, Ag).
  assert (Fst : fst <$> zip placed rels = placed) by (rewrite fst_zip; [done|rewrite placed_length; lia]).
  assert (Len : length (zip placed rels) = length l) by (rewrite length_zip_with, placed_length; lia).
  assert (Ho : forall a, header_bytes (sectionHeaders loaded) placed a -> ~ img a).
  { intros a Ha. apply A1. unfold header_bytes in Ha. by rewrite F1, placed_length in Ha. }
  assert (Si : sites_inside img sites).
  { intros r Hr P a Ha. destruct (Msi2 r Hr P) as (_ & L1 & L2). unfold img, in_image, word_in in *. lia. }
  destruct (relocate_loop_spec img value loaded file placed Ho [] (zip placed rels) m3) as (m4 & E4 & R4); try done.
  - by rewrite F1.
  - eapply Forall_impl; [exact Mr2|]. intros x Hx T. destruct (Hx T) as (I1 & I2 & I3 & I4). rewrite placed_length. split_and!; [lia|lia|done| |].
    + intros i r Ei. destruct (I3 i r Ei) as [Q1 Q2]. apply lookup_lt_Some in Ei. unfold SIZEOF_ElfReloc in *.
      split; [rewrite <- Q1|rewrite <- Q2]; apply (load32_agree _ _ _ _ Ak); intros a Ha; unfold word_in in Ha;
        replace a with (file + s_offset x.1 + (a - (file + s_offset x.1))) by lia; apply I4; lia.
    + intros k Hk. by destruct (I4 k Hk) as (_ & _ & ?).
  - intros r Hr P. rewrite F2. destruct (Msi2 r Hr P) as (I1 & _ & _). intros a Ha. apply A2.
    unfold sym_area, symbol_bytes, symbol, word_in, OFFSET_symValue, SIZEOF_ElfSymbol in *. lia.
  - intros r Hr P. rewrite F2. destruct (Msi2 r Hr P) as (I1 & I2 & I3). split; [by apply value_at|]. apply mapped_load32, (mapped_domain m2); [done|].
    apply (mapped_sub _ image (zlen (image_bytes with_data))); [by apply bytes_at_mapped|lia|lia].
  - cbn [length] in E4. rewrite Len in E4. pose proof (relocated_agree img value sites m3 m4 R4 Si) as A4. exists m4. split_and!; [done|done|done| |].
    + apply (headers_at_agree _ _ _ _ _ A4); [|done]. intros a Ha. apply Ho. by rewrite F1.
    + intros j x Hj. rewrite (get_symbol_agree _ _ _ _ A4); [by apply Sy|]. intros a Ha. apply A2. apply lookup_lt_Some in Hj. cbn [length] in Hj.
      unfold linked_syms in Hj. rewrite length_fmap, length_zip_with in Hj. unfold sym_area, symbol_bytes, symbol, SIZEOF_ElfSymbol, count in *. lia.
Qed.

(** The function that starts the module. *)
Definition start_function : Z :=
  let f := first_symbol lit1 STT_FUNC linked_syms in if c_true f then f else first_symbol lit2 STT_FUNC linked_syms.

(** The rest of ModuleAdd: the exports and the function to start with. *)
Lemma searches_done m4 nx : module_ok -> l !! Z.to_nat ni = Some nx -> headers_at m4 h placed -> symbols_at m4 tab 0 (null :: (fst <$> linked_syms)) ->
  agree kept (memory s) m4 -> forall x y, let md := with_exports x y loaded in
  ModuleSectionFind fuel loaded (file + s_offset nx) (symtable_name names) (Z.of_nat (length l)) m4 = Ret (first_section lit0 (zip placed secnames))
  /\ (let* f := ModuleSymbolFind fuel md (ModuleInit_name names) STT_FUNC m4 in
      if c_true f then Ret f else ModuleSymbolFind fuel md (init_module_name names) STT_FUNC m4) = Ret start_function.
Proof.
  intros [M1 M2 M3 M4 M5 M6 Mh Md Mi Mfit Ma [Mt Mc] Ms Me Ml Mr Msi [Msn1 Msn2] (N0 & N1 & N2)] En Hp Sy Ak x y md.
  destruct loaded_fields as (F1 & F2 & F3 & F4). pose proof (length_mapM _ _ _ Ml) as Lv. split.
  - unfold ModuleSectionFind. rewrite Nat2Z.id. assert (Len : length (zip placed secnames) = length l) by (rewrite length_zip_with, placed_length; lia).
    rewrite <- Len. apply (find_section_spec fuel kept); [by apply (name_at_agree _ _ (memory s))| |].
    + intros j z Hj. rewrite F1, Z.add_0_l. apply Hp. apply lookup_zip_with_Some in Hj as (a & b & -> & Ea & Eb). done.
    + apply Forall_forall. intros z Hz Al. apply (name_at_agree _ _ (memory s)); [done|]. by apply (Msn2 z nx).
  - assert (F : forall name nm, name_at fuel kept (memory s) name nm -> ModuleSymbolFind fuel md name STT_FUNC m4 = Ret (first_symbol nm STT_FUNC linked_syms)).
    { intros name nm Nn. unfold ModuleSymbolFind. change (symTableSize md) with (symTableSize loaded). rewrite F4, Mc. unfold count.
      replace (Z.to_nat (1 + Z.of_nat (length syms)) - 1)%nat with (length linked_syms) by (unfold linked_syms; rewrite length_zip_with; lia).
      apply (symbol_find_spec fuel kept); [by apply (name_at_agree _ _ (memory s))| |].
      - change (symTable md) with (symTable loaded). rewrite F2. intros j z Hj. replace (1 + Z.of_nat j) with (0 + Z.of_nat (S j)) by lia. by apply (Sy (S j)).
      - change (strTable md) with (strTable loaded). rewrite F3. apply Forall_forall. intros z (j & Hj)%list_elem_of_lookup _ T.
        apply lookup_zip_with_Some in Hj as (v & z' & -> & Ev & Ez). cbn [fst snd set_value symInfo symName] in *.
        apply (name_at_agree _ _ (memory s)); [done|]. apply list_elem_of_lookup_2 in Ez. rewrite Forall_forall in Ms. apply (Ms z' Ez). by right. }
    rewrite (F _ _ N1), (F _ _ N2). cbn [bindO]. unfold start_function. by destruct (c_true _).
Qed.

Lemma unlinked_lookup a : image <= a < image + zlen (image_bytes with_data) -> forall m, bytes_at m image (image_bytes with_data) -> m !! a = unlinked !! a.
Proof.
  intros Ha m B. destruct (lookup_lt_is_Some_2 (image_bytes with_data) (Z.to_nat (a - image))) as [x Ex]; [unfold zlen in Ha; lia|].
  pose proof (write_bytes ∅ image (image_bytes with_data)) as W. pose proof (bytes_at_load _ _ _ _ _ B Ex) as L1. pose proof (bytes_at_load _ _ _ _ _ W Ex) as L2.
  rewrite Z2Nat.id in L1, L2 by lia. replace (image + (a - image)) with a in L1, L2 by lia. unfold load in L1, L2. fold unlinked in L2.
  by destruct (m !! a), (unlinked !! a); simplify_eq/=.
Qed.

(** C14: loading a relocatable ELF file whose symbols are all defined links it: the image holds the sections one after the
    other, every word a relocation names is the word of the file plus the value of the symbol, less its own address when it is
    relative, where the value is the exported address of an undefined symbol and the place of the section plus the offset of a
    defined one; no other byte of the image differs from the file, nothing else in memory changes but the headers and symbols
    of the file, and the start function of the module is called once the module is on the list with its own exports.
    The string table is the last one of the file, as the code takes it, and the sections fit the image. *)
Theorem ModuleAdd_links : module_ok -> exists m' md,
  let s' := with_modules (moduleList s ++ [md]) (with_memory m' s) in
  ModuleAdd init names fuel file image length_ s = (if c_true start_function then init start_function s' else Ret (0, s'))
  /\ (forall r w, r ∈ sites -> patches r.2 = true -> load32 unlinked r.1 = Ret w -> load32 m' r.1 = Ret (linked value r.1 r.2 w))
  /\ (forall a, image <= a < image + zlen (image_bytes with_data) -> ~ touched sites a -> m' !! a = unlinked !! a)
  /\ agree kept (memory s) m'
  /\ (keSymTab md, keSymTabSize md) = match first_section lit0 (zip placed secnames) with Some (a, n) => (a, s32 n) | None => (0, 0) end.
Proof.
  intros Ok. destruct (sections_placed Ok) as (m1 & m2 & E1 & mm & E2 & E3 & Hp & Bp & Ag & Dp).
  destruct (symbols_linked m2 Ok Hp Ag) as (m3 & E4 & Sy & Ay & Dy). destruct (image_relocated m2 m3 Ok Hp Bp Ag Sy Ay Dy) as (m4 & E5 & R & A4 & Hp4 & Sy4).
  destruct (mo_index Ok) as [Ei Bi]. destruct (lookup_lt_is_Some_2 l (Z.to_nat ni)) as [nx Ex]; [lia|].
  assert (Ak : agree kept (memory s) m4) by (intros a (N1 & N2 & N3); by rewrite A4, Ay, Ag).
  set (ex := match first_section lit0 (zip placed secnames) with Some (a, n) => (a, s32 n) | None => (0, 0) end).
  destruct (searches_done m4 nx Ok Ex Hp4 Sy4 Ak ex.1 ex.2) as [S1 S2]. set (md := with_exports ex.1 ex.2 loaded) in *. exists m4, md. cbv zeta. split.
  - destruct Ok as [M1 M2 M3 M4 M5 M6 Mh Md Mi _ _ _ _ _ _ _ _ _ _]. unfold ModuleAdd. rewrite M1, M2, M3. cbn [bindO negb orb]. rewrite !Z.eqb_refl. cbn [negb].
    rewrite M4, M5, Ei. cbn [bindO]. destruct (Z.eqb_spec image 0); [lia|]. fold module0. fold room. rewrite E1. cbn [bindO]. rewrite Nat2Z.id, E2. cbn [bindO].
    assert (La : loadAddr scanned = image). { clear. unfold scanned. assert (G : forall l md, loadAddr (foldl (scan_sec file) md l) = loadAddr md); [|by rewrite G].
      clear. induction l as [|x l IH]; intros md; cbn [foldl]; [done|]. rewrite IH. unfold scan_sec. by destruct (_ =? _), (_ =? _). }
    rewrite La, E3. cbn [bindO]. fold loaded. rewrite E4. cbn [bindO]. change (c_true 0) with false. cbn iota. cbn [memory with_memory]. rewrite E5. cbn [bindO].
    destruct loaded_fields as (F1 & _). rewrite F1. destruct (lookup_lt_is_Some_2 placed (Z.to_nat ni)) as [px Epx]; [rewrite placed_length; lia|].
    pose proof (sa_offset _ _ _ (Hp4 _ _ Epx)) as Q. rewrite Z2Nat.id in Q by lia. rewrite Q. cbn [bindO].
    assert (Eo : s_offset px = s_offset nx).
    { assert (G : forall k d j, s_offset <$> place_secs d k !! j = s_offset <$> k !! j).
      { clear. induction k as [|x k IH]; intros d j; cbn [place_secs]; [done|]. destruct (allocated x), j; cbn; try done; apply IH. }
      pose proof (G sized image (Z.to_nat ni)) as G'. change (place_secs image sized) with placed in G'. unfold sized in G' at 1. rewrite list_lookup_fmap, Ex, Epx in G'. by injection G'. }
    rewrite Eo, S1. cbn [bindO].
    replace (match first_section lit0 (zip placed secnames) with Some (a, size) => with_exports a (s32 size) loaded | None => with_exports 0 0 loaded end) with md
      by (unfold md, ex; by destruct (first_section lit0 (zip placed secnames)) as [[]|]).
    destruct (ModuleSymbolFind fuel md (ModuleInit_name names) STT_FUNC m4) as [f1| | |]; cbn [bindO] in S2 |- *; [|done..].
    rewrite S2. cbn [bindO]. done.
  - assert (Im : forall a, img a -> m3 !! a = m2 !! a) by (intros a Ha; apply Ay; intros Q; by apply (proj1 (proj2 (mo_apart Ok)) a Q)).
    assert (Sub : forall a, image <= a < image + zlen (image_bytes with_data) -> img a).
    { intros a Ha. pose proof (mo_fits Ok). unfold img, in_image. lia. }
    assert (Un : forall a, image <= a < image + zlen (image_bytes with_data) -> m3 !! a = unlinked !! a).
    { intros a Ha. rewrite Im by auto. by apply unlinked_lookup. }
    split_and!.
    + intros r w Hr P L. apply (rl_words _ _ _ _ R); [done|done|]. rewrite <- L. destruct (proj2 (mo_sites Ok) r Hr P) as (_ & B1 & B2).
      apply (load32_agree (fun a => image <= a < image + zlen (image_bytes with_data))); [intros a Ha; by apply Un|]. intros a Ha. unfold word_in in Ha. lia.
    + intros a Ha Nt. rewrite (rl_rest _ _ _ _ R a Nt). by apply Un.
    + done.
    + unfold md. cbn. by destruct ex.
Qed.

End Link.

(** ** The symbol nearest to an address *)

Definition is_func (x : ElfSymbol) : Prop := ELF_ST_TYPE (symInfo x) = STT_FUNC.
Definition distance (address : Z) (x : ElfSymbol) : Z := u32 (address - symValue x).
(** The function symbol at the smallest distance among [seen]. *)
Definition nearest (address : Z) (seen : list ElfSymbol) (o : Z) (r : option ElfSymbol) : Prop :=
  match r with
  | None => o = 0xFFFFFFFF /\ forall y, y ∈ seen -> ~ is_func y
  | Some x => x ∈ seen /\ is_func x /\ o = distance address x /\ forall y, y ∈ seen -> is_func y -> o <= distance address y
  end.
Lemma lookup_loop_spec m tab address k : forall seen i o r, symbols_at m tab i k -> nearest address seen o r ->
  exists o' r', lookup_loop (length k) m tab i address o r = Ret (o', r') /\ nearest address (seen ++ k) o' r'.
Proof.
  induction k as [|x k IH]; intros seen i o r Sy Nr; cbn [length lookup_loop]; [exists o, r; by rewrite app_nil_r|].
  assert (G : get_symbol m (symbol tab i) = Ret x) by (rewrite <- (Z.add_0_r i) at 1; by apply (Sy 0%nat)). rewrite G. cbn [bindO].
  assert (Sy' : symbols_at m tab (i + 1) k). { intros j y Hj. replace (i + 1 + Z.of_nat j) with (i + Z.of_nat (S j)) by lia. by apply (Sy (S j)). }
  replace (seen ++ x :: k) with ((seen ++ [x]) ++ k) by (by rewrite <- app_assoc). change (u32 (address - symValue x)) with (distance address x).
  assert (Dx : 0 <= distance address x < 2 ^ 32) by apply u32_range.
  destruct (Z.eqb_spec (ELF_ST_TYPE (symInfo x)) STT_FUNC) as [T|T]; cbn [negb]; [destruct (Z.ltb_spec o (distance address x)) as [Lt|Ge]|]; (apply IH; [done|]).
  - destruct r as [y|]; cbn [nearest] in *; [|lia]. destruct Nr as (N1 & N2 & N3 & N4). split_and!; [apply elem_of_app; by left|done|done|].
    intros z [Hz|Hz]%elem_of_app Fz; [by apply N4|]. apply list_elem_of_singleton in Hz as ->. lia.
  - split_and!; [apply elem_of_app; right; left|done|done|]. intros z [Hz|Hz]%elem_of_app Fz; [|by apply list_elem_of_singleton in Hz as ->].
    destruct r as [y|]; cbn [nearest] in Nr; [destruct Nr as (_ & _ & _ & N4); pose proof (N4 z Hz Fz); lia|]. destruct Nr as [_ N]. by destruct (N z Hz).
  - destruct r as [y|]; cbn [nearest] in *.
    + destruct Nr as (N1 & N2 & N3 & N4). split_and!; [apply elem_of_app; by left|done|done|]. intros z [Hz|Hz]%elem_of_app Fz; [by apply N4|].
      by apply list_elem_of_singleton in Hz as ->.
    + destruct Nr as [N1 N2]. split; [done|]. intros z [Hz|Hz]%elem_of_app; [by apply N2|]. by apply list_elem_of_singleton in Hz as ->.
Qed.

(** SymbolLookup returns the name of a function symbol that reaches the address, with its size and the offset of the address,
    and no function symbol starts between it and the address; it returns NULL when there is no function symbol or the nearest one
    ends before the address. *)
Theorem SymbolLookup_nearest m strings table size address k : symbols_at m table 0 k -> u32 size / SIZEOF_ElfSymbol = Z.of_nat (length k) ->
  0 <= address < 2 ^ 32 -> (forall y, y ∈ k -> 0 <= symValue y < 2 ^ 32) ->
  exists r, SymbolLookup m strings table size address = Ret r /\
    match r with
    | Some (name, sz, offset) => exists x, x ∈ k /\ is_func x /\ name = strings + symName x /\ sz = symSize x /\ offset = distance address x /\ offset <= sz
        /\ forall y, y ∈ k -> is_func y -> symValue y <= address -> symValue y <= symValue x <= address /\ offset = address - symValue x
    | None => forall x, x ∈ k -> is_func x -> (forall y, y ∈ k -> is_func y -> distance address x <= distance address y) ->
        exists z, z ∈ k /\ is_func z /\ distance address z = distance address x /\ symSize z < distance address z
    end.
Proof.
  intros Sy Sz Ha Hv. unfold SymbolLookup. rewrite Sz, Nat2Z.id. destruct (lookup_loop_spec m table address k [] 0 0xFFFFFFFF None Sy) as (o & r & -> & Nr).
  { split; [done|]. by intros y ?%elem_of_nil. }
  cbn [bindO app] in *. destruct r as [x|]; cbn [nearest] in Nr.
  - destruct Nr as (N1 & N2 & -> & N4). destruct (Z.ltb_spec (symSize x) (distance address x)) as [Lt|Ge].
    + exists None. split; [done|]. intros y Hy Fy Ny. exists x. split_and!; try done. pose proof (Ny x N1 N2). pose proof (N4 y Hy Fy). lia.
    + eexists. split; [done|]. exists x. split_and!; try done. intros y Hy Fy Le. pose proof (N4 y Hy Fy) as Q. unfold distance in *.
      pose proof (Hv x N1). pose proof (Hv y Hy). rewrite (u32_id (address - symValue y)) in Q by lia.
      destruct (Z.le_gt_cases (symValue x) address) as [L|G]; [rewrite (u32_id (address - symValue x)) in * by lia; lia|].
      exfalso. unfold u32 in Q. rewrite <- (Z.mod_add _ 1) in Q by lia. rewrite Z.mod_small in Q by lia. lia.
  - exists None. split; [done|]. intros y Hy Fy. by destruct (proj2 Nr y Hy).
Qed.

(** ** A small module *)

Module Demo.
(** An ELF file of five sections: the null section, the code with two
    words to relocate, their relocations, the symbols _ModuleInit and the
    undefined g, and the strings. *)
Definition elf : list Z :=
  [127; 69; 76; 70; 0; 0; 0; 0; 0; 0; 0; 0; 0; 0; 0; 0; 1; 0; 3; 0; 1; 0; 0; 0; 0; 0; 0; 0; 0; 0; 0; 0; 148;
   0; 0; 0; 0; 0; 0; 0; 52; 0; 0; 0; 0; 0; 40; 0; 5; 0; 4; 0; 5; 0; 0; 0; 252; 255; 255; 255; 0; 0; 0; 0; 1;
   2; 0; 0; 4; 0; 0; 0; 2; 1; 0; 0; 0; 0; 0; 0; 0; 0; 0; 0; 0; 0; 0; 0; 0; 0; 0; 0; 1; 0; 0; 0; 0; 0; 0; 0; 8;
   0; 0; 0; 18; 0; 1; 0; 13; 0; 0; 0; 0; 0; 0; 0; 0; 0; 0; 0; 16; 0; 0; 0; 0; 95; 77; 111; 100; 117; 108; 101;
   73; 110; 105; 116; 0; 103; 0; 46; 116; 101; 120; 116; 0; 0; 0; 0; 0; 0; 0; 0; 0; 0; 0; 0; 0; 0; 0; 0; 0; 0;
   0; 0; 0; 0; 0; 0; 0; 0; 0; 0; 0; 0; 0; 0; 0; 0; 0; 0; 0; 0; 0; 0; 0; 0; 0; 0; 15; 0; 0; 0; 1; 0; 0; 0; 6;
   0; 0; 0; 0; 0; 0; 0; 52; 0; 0; 0; 8; 0; 0; 0; 0; 0; 0; 0; 0; 0; 0; 0; 4; 0; 0; 0; 0; 0; 0; 0; 0; 0; 0; 0;
   9; 0; 0; 0; 0; 0; 0; 0; 0; 0; 0; 0; 60; 0; 0; 0; 16; 0; 0; 0; 0; 0; 0; 0; 1; 0; 0; 0; 4; 0; 0; 0; 0; 0; 0;
   0; 0; 0; 0; 0; 2; 0; 0; 0; 0; 0; 0; 0; 0; 0; 0; 0; 76; 0; 0; 0; 48; 0; 0; 0; 0; 0; 0; 0; 0; 0; 0; 0; 4; 0;
   0; 0; 0; 0; 0; 0; 0; 0; 0; 0; 3; 0; 0; 0; 0; 0; 0; 0; 0; 0; 0; 0; 124; 0; 0; 0; 21; 0; 0; 0; 0; 0; 0; 0; 0;
   0; 0; 0; 1; 0; 0; 0; 0; 0; 0; 0].
Definition kernel_table : list Z :=
  [0; 16; 16; 192; 8; 32; 0; 0; 103; 0].
Definition strings : list Z :=
  [46; 115; 121; 109; 116; 97; 98; 108; 101; 0; 0; 0; 0; 0; 0; 0; 0; 0; 0; 0; 95; 77; 111; 100; 117; 108; 101;
   73; 110; 105; 116; 0; 0; 0; 0; 0; 0; 0; 0; 0; 105; 110; 105; 116; 95; 109; 111; 100; 117; 108; 101; 0].
Definition before : mem := write (write (write (write ∅ 65536 (replicate (Z.to_nat 4096) 1)) 8300 strings) 8192 kernel_table) 4096 elf.
Definition state : modules := {| memory := before; moduleList := []; symtable_start := 8192; symtable_end := 8200 |}.
Definition lits : literals := {| symtable_name := 8300; ModuleInit_name := 8320; init_module_name := 8340 |}.
(** The start function of the module returns 7. *)
Definition start (f : Z) (s : modules) : outcome (Z * modules) := if f =? 65536 then Ret (7, s) else Fault.

Definition secs : list sec :=
  [{| s_name := 0; s_type := 0; s_flags := 0; s_addr := 0; s_offset := 0; s_size := 0; s_info := 0; s_align := 0 |};
   {| s_name := 15; s_type := 1; s_flags := 6; s_addr := 0; s_offset := 52; s_size := 8; s_info := 0; s_align := 4 |};
   {| s_name := 0; s_type := 9; s_flags := 0; s_addr := 0; s_offset := 60; s_size := 16; s_info := 1; s_align := 4 |};
   {| s_name := 0; s_type := 2; s_flags := 0; s_addr := 0; s_offset := 76; s_size := 48; s_info := 0; s_align := 4 |};
   {| s_name := 0; s_type := 3; s_flags := 0; s_addr := 0; s_offset := 124; s_size := 21; s_info := 0; s_align := 1 |}].
Definition datas : list (list Z) := [[]; [5; 0; 0; 0; 252; 255; 255; 255]; []; []; []].
Definition sec_names : list (list Z) := [[]; [46; 116; 101; 120; 116]; []; []; []].
Definition reloc_lists : list (list (Z * Z)) := [[]; []; [(0, 513); (4, 258)]; []; []].
Definition null_symbol : ElfSymbol := {| symName := 0; symValue := 0; symSize := 0; symInfo := 0; symIndex := 0 |}.
Definition symbols : list (ElfSymbol * list Z) :=
  [({| symName := 1; symValue := 0; symSize := 8; symInfo := 18; symIndex := 1 |}, [95; 77; 111; 100; 117; 108; 101; 73; 110; 105; 116]);
   ({| symName := 13; symValue := 0; symSize := 0; symInfo := 16; symIndex := 0 |}, [103])].
Definition exports : list (list Z * Z) := [([103], 0xC0101000)].
Definition sym_values : list Z := [65536; 0xC0101000].
Definition all_kept : Z -> Prop := kept 4096 65536 8 148 secs symbols.

Lemma kept_iff a : all_kept a <-> ~ (4244 <= a < 4444) /\ ~ (4172 <= a < 4220) /\ ~ (65536 <= a < 69632).
Proof.
  unfold all_kept, kept, hdr, sym_area, img, in_headers, symbol_bytes, in_image, section, symbol.
  assert (E1 : tab 4096 65536 148 secs = 4172) by (vm_compute; reflexivity). assert (E2 : room 8 = 4096) by (vm_compute; reflexivity).
  rewrite E1, E2. unfold h, count. change (Z.of_nat (length secs)) with 5. change (Z.of_nat (length symbols)) with 2. change SIZEOF_ElfSectionHeader with 40.
  change SIZEOF_ElfSymbol with 16. done.
Qed.
Lemma demo_name q nm : Forall (fun b => 0 < b < 256) nm -> bytes_at before q (nm ++ [0]) -> zlen nm < 100 ->
  q + zlen nm < 4172 \/ (4220 <= q /\ q + zlen nm < 4244) \/ (4444 <= q /\ q + zlen nm < 65536) -> name_at 5000 all_kept before q nm.
Proof.
  intros F B L K. pose proof (zlen_nonneg nm). split; [done|split; [lia|unfold zlen in L; lia]|]. intros a Ha. apply kept_iff. lia.
Qed.
Ltac bytes_there := vm_compute; repeat split.
Ltac name_there := apply demo_name; [repeat (constructor; [lia|]); constructor|bytes_there|vm_compute; reflexivity|vm_compute; intuition congruence].

Lemma demo_ok : module_ok lits 5000 state 4096 65536 8 148 4 secs datas sec_names reloc_lists null_symbol symbols exports sym_values
  [46; 115; 121; 109; 116; 97; 98; 108; 101] [95; 77; 111; 100; 117; 108; 101; 73; 110; 105; 116] [105; 110; 105; 116; 95; 109; 111; 100; 117; 108; 101].
Proof.
  split.
  - by vm_compute.
  - by vm_compute.
  - by vm_compute.
  - by vm_compute.
  - by vm_compute.
  - split; [by vm_compute|cbn; lia].
  - intros [|[|[|[|[|]]]]] x E; simplify_eq/=; split; by vm_compute.
  - split; [done|]. unfold with_data. repeat apply Forall_cons_2; try apply Forall_nil_2; intros Al; vm_compute in Al; try discriminate Al.
    split; [by vm_compute|]. intros _. split; [bytes_there|]. split; [done|]. split; [repeat (constructor; [unfold is_byte; lia|]); constructor|].
    intros a Ha. change (4148 <= a < 4156) in Ha. assert (K : all_kept a) by (apply kept_iff; lia). destruct K as (K1 & _ & K3). done.
  - split; [lia|]. split; [by vm_compute|]. split; [|vm_compute; lia]. change (memory state) with before. unfold before.
    do 3 apply mapped_write. change (room 8) with 4096. pose proof (write_bytes ∅ 65536 (replicate (Z.to_nat 4096) 1)) as W.
    apply bytes_at_mapped in W. unfold zlen in W. by rewrite length_replicate in W.
  - by vm_compute.
  - assert (K : forall a, (4244 <= a < 4444 <-> hdr 4096 148 secs a) /\ (4172 <= a < 4220 <-> sym_area 4096 65536 148 secs symbols a) /\ (65536 <= a < 69632 <-> img 65536 8 a)).
    { intros a. unfold hdr, sym_area, img, in_headers, symbol_bytes, in_image, section, symbol.
      assert (E1 : tab 4096 65536 148 secs = 4172) by (vm_compute; reflexivity). assert (E2 : room 8 = 4096) by (vm_compute; reflexivity). rewrite E1, E2. done. }
    split_and!; intros a Ha Hb; destruct (K a) as (K1 & K2 & K3); first [apply K1 in Ha|apply K2 in Ha]; first [apply K3 in Hb|apply K1 in Hb]; lia.
  - split; [|by vm_compute]. intros [|[|[|]]] x E; simplify_eq/=; by vm_compute.
  - unfold symbols. apply Forall_cons_2; [|apply Forall_cons_2; [|apply Forall_nil_2]]; (split; [intros _; name_there|intros (_ & _ & _); cbn; lia]).
  - exists exports, []. split_and!; [done| |done|constructor]. split; [|split; [|done]].
    + exists 8200. split; [by vm_compute|]. split; [by vm_compute|]. name_there.
    + intros a Ha. apply kept_iff. cbn in Ha. lia.
  - by vm_compute.
  - split; [done|]. vm_compute placed. cbn [reloc_lists]. repeat apply Forall_cons_2; try apply Forall_nil_2; intros T; vm_compute in T; try discriminate T.
    split; [cbn; lia|]. split; [done|]. split.
    + intros [|[|]] r E; simplify_eq/=; split; by vm_compute.
    + intros k Hk. apply kept_iff. cbn in *. lia.
  - assert (Es : sites 65536 secs reloc_lists = [(65536, 513); (65540, 258)]) by (vm_compute; reflexivity). rewrite Es. split.
    + cbn [sites_apart fst snd]. split; [|split; [|exact I]].
      * intros q Hq _ _. apply list_elem_of_singleton in Hq as ->. left. cbn. lia.
      * intros q Hq. by apply elem_of_nil in Hq.
    + assert (Ez : zlen (image_bytes (with_data secs datas)) = 8) by (vm_compute; reflexivity). rewrite Ez. intros r Hr _.
      repeat (apply elem_of_cons in Hr as [->|Hr]; [vm_compute; intuition congruence|]). by apply elem_of_nil in Hr.
  - split; [done|]. intros x nx En Hx Al. injection En as <-. assert (Ez : zip (placed 65536 secs) sec_names = ltac:(let t := eval vm_compute in (zip (placed 65536 secs) sec_names) in exact t)) by (vm_compute; reflexivity).
    rewrite Ez in Hx. repeat (apply elem_of_cons in Hx as [->|Hx]; [vm_compute in Al; first [discriminate Al|name_there]|]). by apply elem_of_nil in Hx.
  - split_and!; name_there.
Qed.

Lemma ModuleAdd_links_witness : exists m' md,
  let s' := with_modules [md] (with_memory m' state) in
  ModuleAdd start lits 5000 4096 65536 8 state = Ret (7, s') /\ load32 m' 65536 = Ret (5 + 0xC0101000) /\ load32 m' 65540 = Ret (2 ^ 32 - 8)
  /\ agree (kept 4096 65536 8 148 secs symbols) (memory state) m' /\ keSymTab md = 0.
Proof.
  destruct (ModuleAdd_links start lits 5000 state 4096 65536 8 148 4 secs datas sec_names reloc_lists null_symbol symbols exports sym_values
    _ _ _ demo_ok) as (m' & md & H1 & H2 & _ & H4 & H5).
  assert (Es : sites 65536 secs reloc_lists = [(65536, 513); (65540, 258)]) by (vm_compute; reflexivity). rewrite Es in H2.
  exists m', md. split_and!.
  - exact H1.
  - apply (H2 (65536, 513) 5); [left|done|vm_compute; reflexivity].
  - apply (H2 (65540, 258) 0xFFFFFFFC); [right; left|done|vm_compute; reflexivity].
  - exact H4.
  - by injection H5.
Defined.

Lemma SymbolLookup_nearest_witness : exists r, SymbolLookup before 4220 4172 48 6 = Ret r /\
  match r with
  | Some (name, sz, offset) => exists x, x ∈ null_symbol :: (fst <$> symbols) /\ is_func x /\ name = 4220 + symName x /\ sz = symSize x
      /\ offset = distance 6 x /\ offset <= sz
      /\ forall y, y ∈ null_symbol :: (fst <$> symbols) -> is_func y -> symValue y <= 6 -> symValue y <= symValue x <= 6 /\ offset = 6 - symValue x
  | None => forall x, x ∈ null_symbol :: (fst <$> symbols) -> is_func x ->
      (forall y, y ∈ null_symbol :: (fst <$> symbols) -> is_func y -> distance 6 x <= distance 6 y) ->
      exists z, z ∈ null_symbol :: (fst <$> symbols) /\ is_func z /\ distance 6 z = distance 6 x /\ symSize z < distance 6 z
  end.
Proof.
  apply (SymbolLookup_nearest before 4220 4172 48 6 (null_symbol :: (fst <$> symbols))).
  - intros [|[|[|]]] x E; simplify_eq/=; by vm_compute.
  - by vm_compute.
  - lia.
  - intros y Hy. repeat (apply elem_of_cons in Hy as [->|Hy]; [cbn; lia|]). by apply elem_of_nil in Hy.
Defined.
End Demo.
