(* ===== verification/IcFs.v ===== *)
(** * Configuration files in the kernel's tree (fs/icfs/info.c, config.c)

    A file of IcFs shows a variable of the kernel: an int, a string, an
    array of bytes or what a function gives.  The functions of info.c put
    such files into the tree of KFs and read and write them; config.c finds
    one by its path.

    The state is the tree and a map from the addresses of IcFsEntry
    structures; the variables and the buffers of the caller are bytes of
    one memory (CString).  The results of MemAlloc are parameters, as in
    KFs; a store through a null pointer is a [Fault]. *)

From stdpp Require Import functions fin_maps fin_sets.
From S2P Require Import Prelude CString Ext3INode KFs.

(** ** Model *)

Definition ICFS_TYPE_INT : Z := 0.
Definition ICFS_TYPE_STR : Z := 1.
Definition IC_READ : Z := 0.
Definition IC_RW : Z := 1.
Definition VFS_ATTR_RW : Z := Z.lor VFS_ATTR_READ VFS_ATTR_WRITE.

Inductive IcFsEntry :=
| IcInt (iVal : Z)
| IcStr (sVal : Z)
| IcByte (csVal minLen maxLen isize : Z)
| IcFunc (readFunc writeFunc : Z).

Record icfs := { tree_ : gmap Z KeFsEntry; files : gmap Z IcFsEntry }.
Definition with_tree t st : icfs := {| tree_ := t; files := files st |}.

(** A member of a table of attributes; [aname] is a string constant. *)
Record IcAttribute := { atype : Z; aoffset : Z; aperms : Z; aname : list Z }.

Section Entries.
(** The address of the entry of the root directory. *)
Context (root : Z).

Definition dir_or_root (dir : Z) : Z := if dir =? 0 then root else dir.

(** [entry->file = newEnt], the entry being what KeFsAddEntry returned. *)
Definition set_file (e q : Z) (v : IcFsEntry) (st : icfs) : outcome icfs :=
  if q =? 0 then Fault
  else
    let* x := get_entry e (tree_ st) in
    Ret {| tree_ := <[e := with_body (PFile q) x]> (tree_ st); files := <[q := v]> (files st) |}.
(** [p] and [q] are the memory of the entry and of the IcFsEntry. *)
Definition add_file (p q dir : Z) (nm : list Z) (permissions : Z) (v : IcFsEntry) (st : icfs) : outcome icfs :=
  let* (e, t) := KeFsAddEntry p (dir_of (dir_or_root dir)) nm permissions (tree_ st) in
  set_file e q v (with_tree t st).

Definition IcFsAddIntEntry (p q dir : Z) (nm : list Z) (value permissions : Z) (st : icfs) : outcome (Z * icfs) :=
  let* st := add_file p q dir nm permissions (IcInt value) st in Ret (0, st).
Definition IcFsAddStrEntry (p q dir : Z) (nm : list Z) (str permissions : Z) (st : icfs) : outcome (Z * icfs) :=
  let* st := add_file p q dir nm permissions (IcStr str) st in Ret (q, st).
Definition IcFsAddArrayEntry (p q dir : Z) (nm : list Z) (array minLen size maxLen : Z) (st : icfs) : outcome (Z * icfs) :=
  let* st := add_file p q dir nm VFS_ATTR_RW (IcByte array minLen maxLen size) st in Ret (0, st).
Definition IcFsAddFuncEntry (p q dir : Z) (nm : list Z) (readFunc writeFunc : Z) (st : icfs) : outcome (Z * icfs) :=
  let permissions := Z.lor (if c_true readFunc then VFS_ATTR_READ else 0) (if c_true writeFunc then VFS_ATTR_WRITE else 0) in
  let* st := add_file p q dir nm permissions (IcFunc readFunc writeFunc) st in Ret (0, st).

Definition IcFsAddSoftLink (p dir : Z) (nm : list Z) (followLink : Z) (st : icfs) : outcome (Z * icfs) :=
  let* (e, t) := KeFsAddEntry p (dir_of (dir_or_root dir)) nm VFS_ATTR_READ (tree_ st) in
  let* x := get_entry e t in
  let ty := Z.lor (Z.land (type x) (Z.lnot VFS_ATTR_FILE)) VFS_ATTR_SOFTLINK in
  Ret (0, with_tree (<[e := with_type ty (with_body (PLink followLink) x)]> t) st).

Definition IcFsCreateDir (p dir : Z) (nm : list Z) (st : icfs) : outcome (Z * icfs) :=
  let* (e, t) := KeFsAddDir p (dir_of (dir_or_root dir)) nm (tree_ st) in Ret (e, with_tree t st).
Definition IcFsRemoveDir (dir : Z) (st : icfs) : outcome (Z * icfs) :=
  let* (r, t) := KeFsRemoveDir dir (tree_ st) in Ret (r, with_tree t st).

(** The loop over the attributes of the structure at [base]; [ms] are the
    results of the allocations, two for each entry. *)
Fixpoint add_attributes (ms : list (Z * Z)) (dir base : Z) (l : list IcAttribute) (m : mem) (st : icfs) : outcome icfs :=
  match l with
  | [] => Ret st
  | a :: l =>
      let permissions := if aperms a =? IC_READ then VFS_ATTR_READ else if aperms a =? IC_RW then VFS_ATTR_WRITE else 0 in
      let '(p, q) := match ms with [] => (0, 0) | pq :: _ => pq end in
      if atype a =? ICFS_TYPE_INT then
        let* (_, st) := IcFsAddIntEntry p q dir (aname a) (u32 (base + aoffset a)) permissions st in
        add_attributes (tl ms) dir base l m st
      else if atype a =? ICFS_TYPE_STR then
        let* s := load32 m (u32 (base + aoffset a)) in
        let* (_, st) := IcFsAddStrEntry p q dir (aname a) s permissions st in
        add_attributes (tl ms) dir base l m st
      else add_attributes ms dir base l m st
  end.
(** [typed] says that the object has a set with a type, [offset] is the
    offset of the type and [dir] the directory of the object. *)
Definition IcAddAttributes (ms : list (Z * Z)) (typed : bool) (offset dir object : Z) (l : list IcAttribute) (m : mem) (st : icfs) : outcome (Z * icfs) :=
  if negb typed || (dir =? 0) then Ret (- EFAULT, st)
  else if offset <? 0 then Ret (- EFAULT, st)
  else let* st := add_attributes ms dir (u32 (object - offset)) l m st in Ret (0, st).

(** *** Reading and writing *)

(** MIN of two unsigned numbers. *)
Definition umin (a b : Z) : Z := if a <? b then a else b.

(** What the readers return: the number of bytes, the position and memory. *)
Definition copy_out (copied position src data : Z) (m : mem) : outcome (Z * Z * mem) :=
  let* m := memcpy (Z.to_nat copied) data src m in
  Ret (s32 copied, u32 (position + copied), m).

(** The pointer to an int moves by four bytes a step. *)
Definition InfoReadInt (position iVal data size : Z) (m : mem) : outcome (Z * Z * mem) :=
  copy_out (umin (u32 (size - position)) (u32 (4 - position))) position (u32 (iVal + 4 * position)) data m.
Definition InfoReadStr (fuel : nat) (position sVal data size : Z) (m : mem) : outcome (Z * Z * mem) :=
  let* n := strlen fuel sVal m in
  copy_out (umin (u32 (size - position)) (u32 (n - position))) position (u32 (sVal + position)) data m.
Definition InfoReadArray (position csVal isize data size : Z) (m : mem) : outcome (Z * Z * mem) :=
  copy_out (umin (u32 (size - position)) (u32 (isize - position))) position (u32 (csVal + position)) data m.

(** [call_read f data size position m] is what the function at [f] does. *)
Context (call_read : Z -> Z -> Z -> Z -> mem -> outcome (Z * mem)).
Definition InfoReadFunc (position readFunc data size : Z) (m : mem) : outcome (Z * Z * mem) :=
  if readFunc =? 0 then Ret (- EPERM, position, m)
  else
    let* (ret, m) := call_read readFunc data size position m in
    Ret (ret, if 0 <=? ret then u32 (position + ret) else position, m).

Definition IcRead (fuel : nat) (position : Z) (v : IcFsEntry) (data size : Z) (m : mem) : outcome (Z * Z * mem) :=
  match v with
  | IcInt iVal => InfoReadInt position iVal data size m
  | IcStr sVal => InfoReadStr fuel position sVal data size m
  | IcByte csVal _ _ isize => InfoReadArray position csVal isize data size m
  | IcFunc readFunc _ => InfoReadFunc position readFunc data size m
  end.

Definition IcWriteInt (position iVal data size : Z) (m : mem) : outcome (Z * Z * mem) :=
  let copied := umin (u32 (size - position)) (u32 (4 - position)) in
  let* m := memcpy (Z.to_nat copied) (u32 (iVal + 4 * position)) data m in
  Ret (s32 copied, u32 (position + copied), m).
Definition IcWrite (position : Z) (v : IcFsEntry) (data size : Z) (m : mem) : outcome (Z * Z * mem) :=
  match v with
  | IcInt iVal => IcWriteInt position iVal data size m
  | _ => Ret (- EINVAL, position, m)
  end.

(** *** The configuration calls (config.c) *)

Context (followLink : Z -> Z -> Z * Z).

(** 0 is NULL. *)
Definition ConfigResolvePath (fuel : nat) (nm : list Z) (st : icfs) : outcome Z :=
  let nm := match nm with c :: rest => if c =? 47 then rest else nm | [] => nm end in
  let* (d, nm) := KeFsNameToDir followLink fuel (dir_of root) nm (tree_ st) in
  if d =? 0 then Ret 0
  else
    let* e := KeFsLookupDir d nm (Z.of_nat (length nm)) (tree_ st) in
    match e with
    | None => Ret 0
    | Some e =>
        let* x := get_entry e (tree_ st) in
        Ret (if c_true (Z.land (type x) VFS_ATTR_FILE) then e else 0)
    end.

(** [entry->file] of a file. *)
Definition file_of (e : Z) (st : icfs) : outcome IcFsEntry :=
  let* x := get_entry e (tree_ st) in
  match body x with PFile q => of_option (files st !! q) | _ => Fault end.

Definition SysConfRead (fuel : nat) (nm : list Z) (data size : Z) (st : icfs) (m : mem) : outcome (Z * mem) :=
  let* e := ConfigResolvePath fuel nm st in
  if e =? 0 then Ret (- ENOENT, m)
  else
    let* v := file_of e st in
    let* (r, _, m) := IcRead fuel 0 v data (u32 size) m in Ret (r, m).
Definition SysConfWrite (fuel : nat) (nm : list Z) (data size : Z) (st : icfs) (m : mem) : outcome (Z * mem) :=
  let* e := ConfigResolvePath fuel nm st in
  if e =? 0 then Ret (- ENOENT, m)
  else
    let* v := file_of e st in
    let* (r, _, m) := IcWrite 0 v data (u32 size) m in Ret (r, m).
End Entries.

(** ** What a file shows *)

Section Facts.
Context (root : Z).

Lemma umin_min a b : umin a b = Z.min a b.
Proof. unfold umin. zcases; lia. Qed.

(** The bytes of a source that does not overlap the buffer. *)
Lemma copy_out_spec bs position src data m : Forall is_byte bs -> bytes_at m src bs -> mapped m data (zlen bs) -> disjoint_regions data (zlen bs) src (zlen bs) ->
  zlen bs < 2 ^ 31 -> copy_out (zlen bs) position src data m = Ret (zlen bs, u32 (position + zlen bs), write m data bs).
Proof.
  intros F B M D L. unfold copy_out. unfold zlen at 1. rewrite Nat2Z.id, memcpy_spec by done. cbn [bindO]. rewrite s32_id; [done|]. pose proof (zlen_nonneg bs). lia.
Qed.

Lemma InfoReadInt_first bs iVal data size m : length bs = 4%nat -> Forall is_byte bs -> bytes_at m iVal bs -> mapped m data (Z.min size 4) ->
  disjoint_regions data (Z.min size 4) iVal 4 -> 0 <= size < 2 ^ 32 -> 0 <= iVal < 2 ^ 32 ->
  InfoReadInt 0 iVal data size m = Ret (Z.min size 4, Z.min size 4, write m data (take (Z.to_nat size) bs)).
Proof.
  intros L F B M D Hs Hi. unfold InfoReadInt. rewrite Z.sub_0_r, Z.mul_0_r, Z.add_0_r, umin_min, !u32_id by lia. change (4 - 0) with 4.
  set (t := take (Z.to_nat size) bs). assert (Lt : zlen t = Z.min size 4) by (unfold zlen, t; rewrite length_take; lia). rewrite <- Lt.
  rewrite copy_out_spec; [by rewrite Z.add_0_l, u32_id by lia| | | | |lia].
  - unfold t. by apply Forall_take.
  - rewrite <- (take_drop (Z.to_nat size) bs) in B. by apply bytes_at_app in B as [B _].
  - by rewrite Lt.
  - rewrite Lt. unfold disjoint_regions in *. lia.
Qed.

(** The rest of a string or of an array, when the buffer has room for it. *)
Lemma InfoReadStr_spec fuel s sVal position data size m : cstr m sVal s -> (length s < fuel)%nat -> zlen s < 2 ^ 31 -> 0 <= position <= zlen s ->
  0 <= sVal -> sVal + zlen s < 2 ^ 32 -> 0 <= size < 2 ^ 32 ->
  let n := umin (u32 (size - position)) (zlen s - position) in
  mapped m data n -> disjoint_regions data n (sVal + position) n ->
  InfoReadStr fuel position sVal data size m = Ret (n, position + n, write m data (take (Z.to_nat n) (drop (Z.to_nat position) s))).
Proof.
  intros C Hf L Hp H1 H2 Hs n M D. unfold InfoReadStr. rewrite (strlen_cstr fuel sVal s m C Hf L). cbn [bindO].
  rewrite (u32_id (zlen s - position)) by lia. rewrite (u32_id (sVal + position)) by lia. fold n.
  set (t := take (Z.to_nat n) (drop (Z.to_nat position) s)). pose proof (u32_range (size - position)).
  assert (Hn : 0 <= n <= zlen s - position) by (unfold n; rewrite umin_min; lia).
  assert (Lt : zlen t = n) by (unfold t, zlen in *; rewrite length_take, length_drop; lia). rewrite <- Lt.
  rewrite copy_out_spec; [by rewrite u32_id by lia| | | | |lia].
  - unfold t. apply Forall_take, Forall_drop. destruct C as [C _]. eapply Forall_impl; [exact C|]. intros c. unfold is_byte. cbn. lia.
  - destruct C as [_ C]. apply bytes_at_app in C as [C _]. rewrite <- (take_drop (Z.to_nat position) s) in C. apply bytes_at_app in C as [_ C].
    replace (zlen (take (Z.to_nat position) s)) with position in C by (unfold zlen in *; rewrite length_take; lia).
    rewrite <- (take_drop (Z.to_nat n) (drop _ _)) in C. by apply bytes_at_app in C as [C _].
  - by rewrite Lt.
  - by rewrite Lt.
Qed.
(** A second read with the same buffer finds nothing, however long the string is. *)
Theorem InfoReadStr_stops fuel s sVal data size m : cstr m sVal s -> (length s < fuel)%nat -> zlen s < 2 ^ 31 -> 0 <= size < zlen s ->
  0 <= sVal -> sVal + zlen s < 2 ^ 32 -> InfoReadStr fuel size sVal data size m = Ret (0, size, m).
Proof.
  intros C Hf L Hs H1 H2. assert (Q : umin (u32 (size - size)) (zlen s - size) = 0).
  { rewrite umin_min, Z.sub_diag, Z.min_l; [done|rewrite u32_id; lia]. }
  rewrite (InfoReadStr_spec fuel s) by (done || lia || (rewrite Q; unfold mapped, disjoint_regions; lia)). by rewrite Q, Z.add_0_r.
Qed.

(** Read from a position after the size of the buffer, the rest of a string goes past the end of the buffer. *)
Theorem InfoReadStr_overruns fuel s sVal position data size m : cstr m sVal s -> (length s < fuel)%nat -> zlen s < 2 ^ 31 ->
  0 <= size < position -> position + size < zlen s -> 0 <= sVal -> sVal + zlen s < 2 ^ 32 ->
  let n := zlen s - position in mapped m data n -> disjoint_regions data n (sVal + position) n ->
  InfoReadStr fuel position sVal data size m = Ret (n, zlen s, write m data (drop (Z.to_nat position) s)) /\ size < n.
Proof.
  intros C Hf L Hs Hp H1 H2 n M D. assert (Q : umin (u32 (size - position)) (zlen s - position) = n).
  { rewrite umin_min, Z.min_r; [done|]. unfold u32. assert (size - position = size - position + 2 ^ 32 + (-1) * 2 ^ 32) as -> by lia. rewrite Z.mod_add by lia. rewrite Z.mod_small by lia. lia. }
  rewrite (InfoReadStr_spec fuel s) by (done || lia || by rewrite Q). rewrite Q. split; [|lia]. do 3 f_equal; [lia|].
  rewrite take_ge; [done|]. rewrite length_drop. unfold n, zlen. lia.
Qed.

(** *** Files in the tree *)

Lemma set_body_rep t T e x q : kfs_rep t T -> t !! e = Some x -> body x = PNone -> kfs_rep (<[e := with_body (PFile q) x]> t) T.
Proof.
  intros R Ex B. set (t' := <[e:=_]> t).
  assert (Ag : forall e' z, t !! e' = Some z -> exists z', t' !! e' = Some z' /\ name z' = name z).
  { intros e' z Ez. unfold t'. destruct (decide (e' = e)) as [->|N]; [rewrite lookup_insert_eq; eexists; split; [done|cbn; congruence]|by exists z; rewrite lookup_insert_ne]. }
  split.
  - intros e' z. unfold t'. destruct (decide (e' = e)) as [->|N]; [intros _; by apply (kr_addr _ _ R e x)|rewrite lookup_insert_ne by done; apply (kr_addr _ _ R)].
  - intros e' z. unfold t' at 1. destruct (decide (e' = e)) as [->|N].
    + rewrite lookup_insert_eq. intros [= <-]. pose proof (kr_dir _ _ R e x Ex) as K. rewrite B in K. exact K.
    + rewrite lookup_insert_ne by done. intros Ez. pose proof (kr_dir _ _ R e' z Ez) as K. destruct (body z); [|done..].
      destruct K as [m [K1 K2 K3 K4 K5]]. exists m. split; [done..|by apply (entries_ok_agree t)|done].
  - intros e' m He. apply (kr_dom _ _ R) in He as [z Ez]. destruct (Ag e' z Ez) as (z' & ? & _). by exists z'.
  - apply (kr_child _ _ R).
Qed.

(** A new file: the tree has its name and the file is found at its entry. *)
Lemma add_file_spec st T p q d m nm perms v : kfs_rep (tree_ st) T -> dirs T !! d = Some m -> name_ok nm -> alloc_ok (dom (tree_ st)) p -> p <> 0 -> q <> 0 ->
  d <> 0 -> Z.land perms VFS_ATTR_DIR = 0 -> has_prefix nm m = false ->
  exists st', add_file root p q d nm perms v st = Ret st' /\ kfs_rep (tree_ st') (set_children d (<[up nm := p]> m) T)
    /\ dom (tree_ st') = {[p]} ∪ dom (tree_ st) /\ file_of p st' = Ret v
    /\ exists x, tree_ st' !! p = Some x /\ c_true (Z.land (type x) VFS_ATTR_FILE) = true.
Proof.
  intros R Hd Nm Al P0 Q0 D0 Pm Hp. unfold add_file, dir_or_root. rewrite (proj2 (Z.eqb_neq _ _) D0).
  destruct (KeFsAddEntry_new _ T p d m nm perms R Hd Nm Al P0 Pm Hp) as (t & -> & R' & Dm & Ep & _). cbn [bindO]. unfold set_file. rewrite (proj2 (Z.eqb_neq _ _) Q0).
  unfold get_entry. cbn [with_tree tree_]. rewrite Ep. cbn [of_option bindO]. eexists. split; [done|]. cbn [tree_ files]. split_and!.
  - by apply set_body_rep.
  - rewrite dom_insert_L, Dm. set_solver.
  - unfold file_of, get_entry. cbn [tree_ files]. rewrite lookup_insert_eq. cbn [of_option bindO with_body body]. by rewrite lookup_insert_eq.
  - eexists. split; [apply lookup_insert_eq|]. cbn [with_body type file_entry]. unfold c_true. destruct (Z.eqb_spec (Z.land (Z.lor VFS_ATTR_FILE perms) VFS_ATTR_FILE) 0) as [E|]; [|done].
    apply (f_equal (fun z => Z.testbit z 0)) in E. rewrite Z.land_spec, Z.lor_spec in E. done.
Qed.

Section Calls.
Context (call_read : Z -> Z -> Z -> Z -> mem -> outcome (Z * mem)) (followLink : Z -> Z -> Z * Z).

Lemma ConfigResolvePath_finds fuel cs nm st T d m e x : kfs_rep (tree_ st) T -> is_Some (dirs T !! root) -> Forall component_ok cs -> component_ok nm -> nm <> [46; 46] ->
  unambiguous T cs root -> walk T cs root = Some d -> dirs T !! d = Some m -> m !! up nm = Some e -> tree_ st !! e = Some x ->
  c_true (Z.land (type x) VFS_ATTR_FILE) = true -> (length cs < fuel)%nat ->
  ConfigResolvePath root followLink fuel (47 :: path_of cs nm) st = Ret e.
Proof.
  intros R Hr Hc [Nm Sm] Dd U W Hd Em Ex Ft Hf. unfold ConfigResolvePath. change (47 =? 47) with true. cbn [bindO].
  rewrite (KeFsNameToDir_walks followLink _ T R cs fuel root nm d) by done. cbn [bindO].
  destruct (rep_dir _ T R d m Hd) as (y & _ & _ & Ey & _). destruct (kr_addr _ _ R d y Ey). rewrite (proj2 (Z.eqb_neq _ _)) by (by apply dir_of_pos).
  rewrite (KeFsLookupDir_name _ T d m) by done. cbn [bindO]. rewrite Em. unfold get_entry. rewrite Ex. cbn [of_option bindO]. by rewrite Ft.
Qed.

(** C40: An int that is published is read.  When IcFsAddIntEntry puts the address of an int into a directory, under a name that does not
    begin one the directory has, and no component of the path to the directory begins another name on the way, then SysConfRead of the
    path of the new file gives, at any later time before the tree changes again, the bytes the int has then, as many as fit into the
    buffer, and changes nothing else. *)
Theorem IcFs_publishes fuel st T p q d m nm value perms cs :
  kfs_rep (tree_ st) T -> dirs T !! d = Some m -> d <> 0 -> alloc_ok (dom (tree_ st)) p -> p <> 0 -> q <> 0 -> Z.land perms VFS_ATTR_DIR = 0 ->
  component_ok nm -> nm <> [46; 46] -> has_prefix nm m = false ->
  let T' := set_children d (<[up nm := p]> m) T in
  is_Some (dirs T' !! root) -> Forall component_ok cs -> unambiguous T' cs root -> walk T' cs root = Some d -> (length cs < fuel)%nat ->
  exists st', IcFsAddIntEntry root p q d nm value perms st = Ret (0, st') /\ kfs_rep (tree_ st') T'
    /\ forall bs data size mm, length bs = 4%nat -> Forall is_byte bs -> bytes_at mm value bs -> mapped mm data (Z.min size 4) ->
      disjoint_regions data (Z.min size 4) value 4 -> 0 <= size < 2 ^ 31 -> 0 <= value < 2 ^ 32 ->
      SysConfRead root call_read followLink fuel (47 :: path_of cs nm) data size st' mm = Ret (Z.min size 4, write mm data (take (Z.to_nat size) bs)).
Proof.
  intros R Hd D0 Al P0 Q0 Pm Hn Dd Hp T' Hr Hc U W Hf. pose proof Hn as [Nm _].
  destruct (add_file_spec st T p q d m nm perms (IcInt value) R Hd Nm Al P0 Q0 D0 Pm Hp) as (st' & E & R' & Dm & Fe & x & Ex & Ft).
  exists st'. unfold IcFsAddIntEntry. rewrite E. cbn [bindO]. split_and!; [done|done|]. intros bs data size mm L F B M D Hs Hv.
  unfold SysConfRead. rewrite (ConfigResolvePath_finds fuel cs nm st' T' d (<[up nm := p]> m) p x) by (done || (cbn [T' set_children dirs]; apply lookup_insert_eq) || apply lookup_insert_eq).
  cbn [bindO]. rewrite (proj2 (Z.eqb_neq _ _) P0), Fe. cbn [bindO IcRead]. rewrite u32_id by lia. by rewrite (InfoReadInt_first bs) by (done || lia).
Qed.
End Calls.
End Facts.

(** ** A small configuration *)

Module Demo.

(** "dev/disk" shows the int at 1000. *)
Definition st0 : icfs := {| tree_ := KFs.Demo.s0; files := ∅ |}.
Definition T1 : tree := (spec_op (AddDirOp 200 100 KFs.Demo.dev) KFs.Demo.T0).2.
Definition demo_int : mem := write ∅ 1000 [7; 1; 0; 0; 0; 0; 0; 0].
Lemma demo_state : exists t, KeFsAddDir 200 (dir_of 100) KFs.Demo.dev KFs.Demo.s0 = Ret (200, t) /\ kfs_rep t T1 /\ dom t ⊆ {[200]} ∪ {[100]}.
Proof.
  destruct (KeFsAddDir_spec KFs.Demo.s0 KFs.Demo.T0 200 100 KFs.Demo.dev) as (t & E & R & D).
  - apply KeFsInitRoot_ok; [lia|unfold OFFSET_dir; lia].
  - replace (dom KFs.Demo.s0) with ({[100]} : gset Z) by (vm_compute; reflexivity). KFs.Demo.demo_step.
  - exists t. split_and!; [exact E|exact R|]. replace ({[100]} : gset Z) with (dom KFs.Demo.s0) by (vm_compute; reflexivity). exact D.
Qed.

Lemma IcFs_publishes_witness : exists t st',
  IcFsAddIntEntry 100 300 400 200 KFs.Demo.disk 1000 VFS_ATTR_READ {| tree_ := t; files := ∅ |} = Ret (0, st')
  /\ SysConfRead 100 (fun _ _ _ _ m => Ret (0, m)) (fun _ _ => (0, 0)) 5 (47 :: path_of [KFs.Demo.dev] KFs.Demo.disk) 1004 2 st' demo_int
     = Ret (2, write demo_int 1004 [7; 1]).
Proof.
  destruct demo_state as (t & _ & R & D).
  destruct (IcFs_publishes 100 (fun _ _ _ _ m => Ret (0, m)) (fun _ _ => (0, 0)) 5 {| tree_ := t; files := ∅ |} T1 300 400 200 ∅ KFs.Demo.disk 1000 VFS_ATTR_READ [KFs.Demo.dev])
    as (st' & E & _ & H); try (done || lia).
  - right. split_and!; [|lia|unfold OFFSET_dir; lia]. cbn [tree_]. intros X. apply D in X. set_solver.
  - split; [apply KFs.Demo.small_name; reflexivity|repeat constructor; lia].
  - apply Forall_singleton. split; [apply KFs.Demo.small_name; reflexivity|repeat constructor; lia].
  - cbn [unambiguous]. split; [|by intros]. intros k e. replace (children _ _) with ({[up KFs.Demo.dev := 200]} : gmap (list Z) Z) by (vm_compute; reflexivity).
    by intros [<- _]%lookup_singleton_Some.
  - cbn; lia.
  - exists t, st'. split; [exact E|]. apply (H [7; 1; 0; 0] 1004 2 demo_int); try (done || lia).
    + repeat constructor; unfold is_byte; lia.
    + intros i Hi. assert (i = 0 \/ i = 1) as [-> | ->] by lia; vm_compute; by eexists.
    + unfold disjoint_regions. lia.
Defined.

(** Nine characters are stored into a buffer of one. *)
Example InfoReadStr_overruns_demo :
  match InfoReadStr 20 2 2000 3000 1 (write (write ∅ 2000 [97; 98; 99; 100; 101; 102; 103; 104; 105; 106; 107; 0]) 3000 (replicate 16 0)) with
  | Ret (n, _, m) => n = 9 /\ m !! 3008 = Some 107
  | _ => False
  end.
Proof. by vm_compute. Qed.
End Demo.
