(* ===== verification/KeObject.v ===== *)
(** * Kernel objects (lib/keobject.c, include/keobject.h)

    A kernel object is a name, a count of references and a directory in
    IcFs; it belongs to a set, which has an object of its own, under whose
    directory those of its members are, and a type with the function that
    frees a member.

    Objects and sets are records in maps from their addresses.  A name is
    the text vasprintf made of a format, [None] when it found no memory.
    KeObjectFree ends with a call of the [release] function of the type;
    what KeObjPut returns names that function, 0 when nothing is freed, and
    the caller's model runs it. *)

From stdpp Require Import functions fin_maps fin_sets.
From S2P Require Import Prelude CString Ext3INode KFs IcFs.

(** ** Model *)

Record KeObject := { oname : option (list Z); refs : Z; parent : Z; odir : Z }.
Record KeObjType := { release : Z; attributes : list IcAttribute; offset : Z }.
(** [object] is the address of the object of the set. *)
Record KeSet := { head : list Z; object : Z; stype : option KeObjType }.

Record kobjs := { objects : gmap Z KeObject; sets : gmap Z KeSet; fs : icfs }.
Definition with_objects v st : kobjs := {| objects := v; sets := sets st; fs := fs st |}.
Definition with_sets v st : kobjs := {| objects := objects st; sets := v; fs := fs st |}.
Definition with_fs v st : kobjs := {| objects := objects st; sets := sets st; fs := v |}.
Definition with_refs r o : KeObject := {| oname := oname o; refs := r; parent := parent o; odir := odir o |}.
Definition with_oname n o : KeObject := {| oname := n; refs := refs o; parent := parent o; odir := odir o |}.
Definition with_odir d o : KeObject := {| oname := oname o; refs := refs o; parent := parent o; odir := d |}.
Definition with_head l s : KeSet := {| head := l; object := object s; stype := stype s |}.

Definition get_object (o : Z) (st : kobjs) : outcome KeObject := of_option (objects st !! o).
Definition get_set (s : Z) (st : kobjs) : outcome KeSet := of_option (sets st !! s).
Definition put_object (o : Z) (v : KeObject) (st : kobjs) : kobjs := with_objects (<[o := v]> (objects st)) st.

(** The name is not set; it is NULL in memory that was cleared. *)
Definition KeObjectInit (o p : Z) (st : kobjs) : kobjs :=
  put_object o {| oname := match objects st !! o with Some v => oname v | None => None end; refs := 1; parent := p; odir := 0 |} st.

Definition KeObjGet (o : Z) (st : kobjs) : outcome (Z * kobjs) :=
  if o =? 0 then Ret (0, st)
  else let* v := get_object o st in Ret (s32 (refs v + 1), put_object o (with_refs (s32 (refs v + 1)) v) st).

Definition KeObjGetName (o : Z) (st : kobjs) : outcome (option (list Z)) :=
  if o =? 0 then Ret None
  else
    let* v := get_object o st in
    match oname v with
    | Some n => Ret (Some n)
    | None => if odir v =? 0 then Ret None else let* e := get_entry (odir v) (tree_ (fs st)) in Ret (name e)
    end.

(** The directory of the set of an object. *)
Definition KeObjGetParentDir (o : Z) (st : kobjs) : outcome Z :=
  if o =? 0 then Ret 0
  else
    let* v := get_object o st in
    if parent v =? 0 then Ret 0
    else let* s := get_set (parent v) st in let* so := get_object (object s) st in Ret (odir so).

(** strcmp of two strings. *)
Fixpoint set_find (nm : list Z) (l : list Z) (st : kobjs) : outcome Z :=
  match l with
  | [] => Ret 0
  | o :: l =>
      let* n := KeObjGetName o st in
      if bool_decide (n = Some nm) then Ret o else set_find nm l st
  end.
Definition KeSetFind (s : Z) (nm : list Z) (st : kobjs) : outcome Z :=
  let* v := get_set s st in set_find nm (head v) st.

Definition KeSetAdd (s o : Z) (st : kobjs) : outcome kobjs :=
  if s =? 0 then Ret st
  else
    let* v := get_set s st in
    let* (_, st) := KeObjGet (object v) st in
    Ret (with_sets (<[s := with_head (head v ++ [o]) v]> (sets st)) st).

Definition KeSetInit (s so p : Z) (ty : option KeObjType) (st : kobjs) : kobjs :=
  KeObjectInit so p (with_sets (<[s := {| head := []; object := so; stype := ty |}]> (sets st)) st).

Section Files.
(** The entry of the root of IcFs; [m] are the bytes the attributes show. *)
Context (root : Z) (m : gmap Z Z).

(** ListRemove of an object that is on no list is a [Fault]. *)
Definition KeObjectDetach (o : Z) (st : kobjs) : outcome kobjs :=
  let* v := get_object o st in
  let* st :=
    if odir v =? 0 then Ret st
    else let* (_, f) := IcFsRemoveDir (odir v) (fs st) in Ret (with_fs f st) in
  if parent v =? 0 then Ret st
  else
    let* s := get_set (parent v) st in
    if bool_decide (o ∈ head s) then
      Ret (with_sets (<[parent v := with_head (filter (fun x => x <> o) (head s)) s]> (sets st)) st)
    else Fault.

(** The release function that is called last. *)
Definition KeObjectFree (o : Z) (st : kobjs) : outcome (Z * kobjs) :=
  let* v := get_object o st in
  let* st := KeObjectDetach o st in
  if parent v =? 0 then Panic
  else
    let* s := get_set (parent v) st in
    match stype s with
    | Some ty => if release ty =? 0 then Panic else Ret (release ty, st)
    | None => Panic
    end.

(** The references left and the release function to call. *)
Definition KeObjPut (o : Z) (st : kobjs) : outcome (Z * Z * kobjs) :=
  if o =? 0 then Ret (0, 0, st)
  else
    let* v := get_object o st in
    let st := put_object o (with_refs (s32 (refs v - 1)) v) st in
    if s32 (refs v - 1) =? 0 then let* (f, st) := KeObjectFree o st in Ret (0, f, st)
    else Ret (s32 (refs v - 1), 0, st).

Definition KeObjectPopulate (ms : list (Z * Z)) (o : Z) (st : kobjs) : outcome kobjs :=
  let* v := get_object o st in
  if parent v =? 0 then Ret st
  else
    let* s := get_set (parent v) st in
    match stype s with
    | Some ty =>
        match attributes ty with
        | [] => Ret st
        | l => let* (_, f) := IcAddAttributes root ms true (offset ty) (odir v) o l m (fs st) in Ret (with_fs f st)
        end
    | None => Ret st
    end.

(** [p] is the memory of the directory, [ms] of its attributes. *)
Definition KeObjectVaAttach (p : Z) (ms : list (Z * Z)) (o : Z) (nm : option (list Z)) (st : kobjs) : outcome (Z * kobjs) :=
  if o =? 0 then Ret (- EFAULT, st)
  else
    let* v := get_object o st in
    if c_true (odir v) then Ret (- EEXIST, st)
    else
      let st := put_object o (with_oname nm v) st in
      match nm with
      | None => Ret (- EFAULT, st)
      | Some n =>
          let* found := if parent v =? 0 then Ret 0 else KeSetFind (parent v) n st in
          if c_true found then Ret (- EEXIST, st)
          else
            let* d := KeObjGetParentDir o st in
            let* (e, f) := IcFsCreateDir root p d n (fs st) in
            let st := with_fs f (put_object o (with_odir e (with_oname nm v)) st) in
            if e =? 0 then Ret (- EIO, st)
            else
              let* st := KeObjectPopulate ms o st in
              let* st := KeSetAdd (parent v) o st in
              Ret (0, st)
      end.
Definition KeObjectAttach (p : Z) (ms : list (Z * Z)) (o : Z) (nm : option (list Z)) (st : kobjs) : outcome (Z * kobjs) :=
  KeObjectVaAttach p ms o nm st.

(** The set of a set need not exist; no arguments follow the name. *)
Definition KeSetAttach (p : Z) (ms : list (Z * Z)) (s : Z) (nm : option (list Z)) (st : kobjs) : outcome (Z * kobjs) :=
  if s =? 0 then Ret (- EFAULT, st)
  else let* v := get_set s st in KeObjectAttach p ms (object v) nm st.
Definition KeSetCreate (p : Z) (ms : list (Z * Z)) (s so pset : Z) (ty : option KeObjType) (nm : option (list Z)) (st : kobjs) : outcome (Z * kobjs) :=
  KeSetAttach p ms s nm (KeSetInit s so pset ty st).
End Files.

(** ** The members of a set *)

(** The attributes can be added to a directory with the entries [M]. *)
Fixpoint attrs_fit (l : list IcAttribute) (M : gmap (list Z) Z) : Prop :=
  match l with
  | [] => True
  | a :: l => name_ok (aname a) /\ has_prefix (aname a) M = false /\ (atype a = ICFS_TYPE_INT \/ atype a = ICFS_TYPE_STR)
      /\ forall p, attrs_fit l (<[up (aname a) := p]> M)
  end.
(** The strings among them can be loaded. *)
Definition attrs_load (l : list IcAttribute) (base : Z) (m : gmap Z Z) : Prop :=
  Forall (fun a => exists s, load32 m (u32 (base + aoffset a)) = Ret s) l.
(** [n] pairs of new structures. *)
Fixpoint allocs_ok (U : gset Z) (n : nat) (ms : list (Z * Z)) : Prop :=
  match n, ms with
  | O, _ => True
  | S n, (p, q) :: ms => p <> 0 /\ alloc_ok U p /\ q <> 0 /\ allocs_ok ({[p]} ∪ U) n ms
  | S _, [] => False
  end.

Record ke_rep (st : kobjs) (T : tree) (s : Z) (v : KeSet) (D : Z) (M : gmap (list Z) Z) (N : gmap Z (list Z)) : Prop := {
  k_fs : kfs_rep (tree_ (fs st)) T;
  k_set : sets st !! s = Some v;
  k_so : exists so, objects st !! object v = Some so /\ odir so = D;
  k_dir : dirs T !! D = Some M;
  k_dir0 : D <> 0;
  k_nodup : NoDup (head v);
  k_apart : object v ∉ head v;
  k_mem : forall o, o ∈ head v -> exists x nm, objects st !! o = Some x /\ oname x = Some nm /\ parent x = s /\ odir x <> 0
    /\ N !! o = Some nm /\ M !! up nm = Some (odir x) /\ is_Some (dirs T !! odir x);
  k_names : forall o nm, N !! o = Some nm -> o ∈ head v;
  k_map : forall k e, M !! k = Some e -> exists o nm, N !! o = Some nm /\ up nm = k;
  k_inj : forall o1 o2 n1 n2, N !! o1 = Some n1 -> N !! o2 = Some n2 -> up n1 = up n2 -> o1 = o2;
}.

Section Members.
Context (root : Z) (m : gmap Z Z).

Lemma add_attributes_spec dir base l : forall ms st T M, kfs_rep (tree_ (fs st)) T -> dirs T !! dir = Some M -> dir <> 0 ->
  attrs_fit l M -> attrs_load l base m -> allocs_ok (dom (tree_ (fs st))) (length l) ms ->
  exists f M', add_attributes root ms dir base l m (fs st) = Ret f /\ kfs_rep (tree_ f) (set_children dir M' T) /\ dom (tree_ f) ⊆ list_to_set ms.*1 ∪ dom (tree_ (fs st)).
Proof.
  intros ms st. generalize (fs st) as f. clear st. revert ms. induction l as [|a l IH]; intros ms f T M R Hd D0 Fit Ld Al; cbn [add_attributes].
  { exists f, M. split; [done|]. split; [|set_solver]. destruct (rep_get_dir _ T R dir M Hd) as (x & l & q & Ex & B & D & Eo & Eg).
    replace (set_children dir M T) with T; [done|]. destruct T as [dd pp]. unfold set_children. cbn [dirs parents] in *. by rewrite insert_id. }
  destruct Fit as (Nm & Hp & Ty & Fit). apply Forall_cons in Ld as [[sv Es] Ld]. destruct ms as [|[p q] ms]; [done|]. destruct Al as (P0 & Ap & Q0 & Al). cbn [tl].
  set (perms := if aperms a =? IC_READ then _ else _).
  assert (Pm : Z.land perms VFS_ATTR_DIR = 0) by (unfold perms; repeat case_match; done).
  assert (St : forall v, exists f1, add_file root p q dir (aname a) perms v f = Ret f1 /\ exists f' M', add_attributes root ms dir base l m f1 = Ret f' /\ kfs_rep (tree_ f') (set_children dir M' T)
    /\ dom (tree_ f') ⊆ list_to_set ((p, q) :: ms).*1 ∪ dom (tree_ f)).
  { intros v. destruct (add_file_spec root f T p q dir M (aname a) perms v R Hd Nm Ap P0 Q0 D0 Pm Hp) as (f1 & E1 & R1 & D1 & _). exists f1. split; [done|].
    destruct (IH ms f1 _ (<[up (aname a) := p]> M) R1) as (f' & M' & E' & R' & D'); [cbn [set_children dirs]; apply lookup_insert_eq|done|done|done|by rewrite D1|].
    exists f', M'. split; [done|]. split; [|rewrite D1 in D'; cbn; clear -D'; set_solver]. replace (set_children dir M' T) with (set_children dir M' (set_children dir (<[up (aname a):=p]> M) T)); [done|].
    unfold set_children. cbn [dirs parents]. by rewrite insert_insert_eq. }
  unfold IcFsAddIntEntry, IcFsAddStrEntry. destruct Ty as [-> | ->].
  - change (ICFS_TYPE_INT =? ICFS_TYPE_INT) with true. cbn [bindO]. destruct (St (IcInt (u32 (base + aoffset a)))) as (f1 & -> & f' & M' & E' & R' & D'). cbn [bindO]. by exists f', M'.
  - change (ICFS_TYPE_STR =? ICFS_TYPE_INT) with false. change (ICFS_TYPE_STR =? ICFS_TYPE_STR) with true. cbn [bindO]. rewrite Es. cbn [bindO].
    destruct (St (IcStr sv)) as (f1 & -> & f' & M' & E' & R' & D'). cbn [bindO]. by exists f', M'.
Qed.

(** The fields of an object that are not its references do not change. *)
Definition same_object (x y : KeObject) : Prop := oname y = oname x /\ parent y = parent x /\ odir y = odir x.
Lemma ke_rep_refs st T s v D M N o x r : ke_rep st T s v D M N -> objects st !! o = Some x -> ke_rep (put_object o (with_refs r x) st) T s v D M N.
Proof.
  intros [] Ex. split; try done.
  - destruct k_so0 as (so & Eso & Ed). cbn [put_object with_objects objects]. destruct (decide (object v = o)) as [E|Ne].
    + rewrite E, lookup_insert_eq. eexists. split; [done|]. cbn. congruence.
    + rewrite lookup_insert_ne by done. by exists so.
  - intros o' Ho. destruct (k_mem0 o' Ho) as (y & nm & Ey & Q). cbn [put_object with_objects objects]. destruct (decide (o' = o)) as [->|Ne].
    + rewrite lookup_insert_eq. exists (with_refs r x), nm. split; [done|]. assert (y = x) as -> by congruence. exact Q.
    + rewrite lookup_insert_ne by done. by exists y, nm.
Qed.

(** No member has a name that is not a key. *)
Lemma KeSetFind_none st T s v D M N nm : ke_rep st T s v D M N -> M !! up nm = None -> KeSetFind s nm st = Ret 0.
Proof.
  intros K Hn. unfold KeSetFind, get_set. rewrite (k_set _ _ _ _ _ _ _ K). cbn [of_option bindO]. pose proof (k_mem _ _ _ _ _ _ _ K) as Mem. clear K. induction (head v) as [|o l IH]; [done|].
  cbn [set_find]. destruct (Mem o ltac:(left)) as (x & n & Ex & En & _ & _ & _ & Em & _). unfold KeObjGetName, get_object. destruct (o =? 0).
  - cbn [bindO]. rewrite bool_decide_eq_false_2 by done. apply IH. intros; apply Mem; by right.
  - rewrite Ex. cbn [of_option bindO]. rewrite En. cbn [bindO]. rewrite bool_decide_eq_false_2 by congruence. apply IH. intros; apply Mem; by right.
Qed.

(** An object that is not of the set may change. *)
Lemma ke_rep_other st T s v D M N o x : ke_rep st T s v D M N -> o ∉ head v -> o <> object v -> ke_rep (put_object o x st) T s v D M N.
Proof.
  intros [] Ho Hv. split; try done; cbn [put_object with_objects objects].
  - destruct k_so0 as (so & Eso & Ed). exists so. by rewrite lookup_insert_ne.
  - intros o' Ho'. destruct (k_mem0 o' Ho') as (y & nm & Ey & Q). exists y, nm. rewrite lookup_insert_ne by (intros ->; done). done.
Qed.

Lemma alloc_ok_mono (U U' : gset Z) p : U' ⊆ U -> alloc_ok U p -> alloc_ok U' p.
Proof. intros H [?|(? & ? & ?)]; [by left|right; split_and!; [set_solver|done..]]. Qed.
Lemma allocs_ok_mono n : forall U U' ms, U' ⊆ U -> allocs_ok U n ms -> allocs_ok U' n ms.
Proof.
  induction n as [|n IH]; intros U U' [|[p q] ms] H; cbn; try done. intros (? & A & ? & B). split_and!; try done.
  - by eapply alloc_ok_mono.
  - eapply IH; [|exact B]. set_solver.
Qed.

(** What has to hold after an object has been added. *)
Lemma ke_rep_add st st' T T' s v D M N o x p nm : ke_rep st T s v D M N -> o ∉ head v -> o <> object v -> parent x = s -> p <> 0 ->
  M !! up nm = None -> (forall o' n', N !! o' = Some n' -> up n' <> up nm) ->
  kfs_rep (tree_ (fs st')) T' -> sets st' !! s = Some (with_head (head v ++ [o]) v) -> objects st' !! o = Some (with_odir p (with_oname (Some nm) x)) ->
  (exists so, objects st' !! object v = Some so /\ odir so = D) -> (forall o', o' <> o -> o' <> object v -> objects st' !! o' = objects st !! o') ->
  dirs T' !! D = Some (<[up nm := p]> M) -> (forall e, is_Some (dirs T !! e) -> is_Some (dirs T' !! e)) -> is_Some (dirs T' !! p) ->
  ke_rep st' T' s (with_head (head v ++ [o]) v) D (<[up nm := p]> M) (<[o := nm]> N).
Proof.
  intros [] Ho Hv Px P0 Mn Nn R' Es Eo Eso Oth HD Sd Sp. split; cbn [with_head head object]; try done.
  - apply NoDup_app. split_and!; [done|intros o' Ho' ->%list_elem_of_singleton; done|apply NoDup_singleton].
  - set_solver.
  - intros o' [Ho'| ->%list_elem_of_singleton]%elem_of_app.
    + destruct (k_mem0 o' Ho') as (y & n & Ey & En & Py & Oy & Ny & My & Sy). assert (o' <> o) by (by intros ->). assert (o' <> object v) by (intros ->; done).
      exists y, n. rewrite Oth, lookup_insert_ne, lookup_insert_ne by (done || congruence). split_and!; try done. by apply Sd.
    + exists (with_odir p (with_oname (Some nm) x)), nm. rewrite !lookup_insert_eq. by split_and!.
  - intros o' n. destruct (decide (o' = o)) as [->|Ne]; [set_solver|]. rewrite lookup_insert_ne by done. intros H. apply elem_of_app. left. by eapply k_names0.
  - intros k e. destruct (decide (k = up nm)) as [->|Nk]; [intros _; exists o, nm; by rewrite lookup_insert_eq|]. rewrite lookup_insert_ne by done. intros H.
    destruct (k_map0 k e H) as (o' & n & Hn & En). exists o', n. rewrite lookup_insert_ne; [done|]. intros ->. by apply k_names0 in Hn.
  - intros o1 o2 n1 n2. destruct (decide (o1 = o)) as [->|N1], (decide (o2 = o)) as [->|N2]; rewrite ?lookup_insert_eq, ?lookup_insert_ne by done; [done| | |apply k_inj0].
    + intros [= <-] H E. by destruct (Nn _ _ H).
    + intros H [= <-] E. by destruct (Nn _ _ H).
Qed.

(** The attributes go into the new directory. *)
Lemma KeObjectPopulate_spec st T s v ty o x p ms : kfs_rep (tree_ (fs st)) T -> sets st !! s = Some v -> s <> 0 -> stype v = Some ty ->
  objects st !! o = Some x -> parent x = s -> odir x = p -> p <> 0 -> dirs T !! p = Some ∅ -> 0 <= offset ty ->
  attrs_fit (attributes ty) ∅ -> attrs_load (attributes ty) (u32 (o - offset ty)) m -> allocs_ok (dom (tree_ (fs st))) (length (attributes ty)) ms ->
  exists f M', KeObjectPopulate root m ms o st = Ret (with_fs f st) /\ kfs_rep (tree_ f) (set_children p M' T)
    /\ dom (tree_ f) ⊆ list_to_set ms.*1 ∪ dom (tree_ (fs st)).
Proof.
  intros R Es S0 Ty Ex Px Dx P0 Hp Of Fit Ld Al.
  destruct (add_attributes_spec p (u32 (o - offset ty)) (attributes ty) ms st T ∅ R Hp P0 Fit Ld Al) as (f & M' & E & R' & D').
  exists f, M'. split; [|by split]. unfold KeObjectPopulate, get_object, get_set. rewrite Ex. cbn [of_option bindO]. rewrite Px, (proj2 (Z.eqb_neq _ _) S0), Es. cbn [of_option bindO]. rewrite Ty, Dx.
  destruct (attributes ty) as [|a l]; [cbn in E; injection E as <-; by destruct st|]. unfold IcAddAttributes. rewrite (proj2 (Z.eqb_neq _ _) P0). cbn [negb orb].
  destruct (Z.ltb_spec (offset ty) 0); [lia|]. by rewrite E.
Qed.

Lemma KeObjectAttach_spec st T s v ty D M N p ms o x nm : ke_rep st T s v D M N -> s <> 0 -> o <> 0 -> o ∉ head v -> o <> object v -> objects st !! o = Some x ->
  parent x = s -> odir x = 0 -> N !! o = None -> name_ok nm -> M !! up nm = None -> (forall o' n', N !! o' = Some n' -> up n' <> up nm) ->
  p <> 0 -> alloc_ok (dom (tree_ (fs st))) p -> stype v = Some ty -> 0 <= offset ty ->
  attrs_fit (attributes ty) ∅ -> attrs_load (attributes ty) (u32 (o - offset ty)) m -> allocs_ok ({[p]} ∪ dom (tree_ (fs st))) (length (attributes ty)) ms ->
  exists st' T', KeObjectAttach root m p ms o (Some nm) st = Ret (0, st')
    /\ ke_rep st' T' s (with_head (head v ++ [o]) v) D (<[up nm := p]> M) (<[o := nm]> N)
    /\ objects st' !! o = Some (with_odir p (with_oname (Some nm) x))
    /\ (forall o', o' <> o -> o' <> object v -> objects st' !! o' = objects st !! o')
    /\ dom (tree_ (fs st')) ⊆ {[p]} ∪ list_to_set ms.*1 ∪ dom (tree_ (fs st)).
Proof.
  intros K S0 O0 Ho Hv Ex Px Dx Nn Nm Mn Un P0 Al Ty Of Fit Ld Als. unfold KeObjectAttach, KeObjectVaAttach, get_object. rewrite (proj2 (Z.eqb_neq _ _) O0), Ex. cbn [of_option bindO].
  rewrite Dx. change (c_true 0) with false. cbn [bindO]. set (st1 := put_object o (with_oname (Some nm) x) st). set (x2 := with_odir p (with_oname (Some nm) x)).
  pose proof (ke_rep_other _ _ _ _ _ _ _ o (with_oname (Some nm) x) K Ho Hv) as K1. fold st1 in K1. rewrite Px, (proj2 (Z.eqb_neq _ _) S0), (KeSetFind_none _ _ _ _ _ _ _ _ K1 Mn). cbn [bindO].
  change (c_true 0) with false. cbn [bindO]. destruct (k_so _ _ _ _ _ _ _ K) as (so & Eso & Dso).
  assert (Pd : KeObjGetParentDir o st1 = Ret D).
  { unfold KeObjGetParentDir, get_object, get_set. rewrite (proj2 (Z.eqb_neq _ _) O0). cbn [st1 put_object with_objects objects sets]. rewrite lookup_insert_eq. cbn [of_option bindO with_oname parent].
    rewrite Px, (proj2 (Z.eqb_neq _ _) S0), (k_set _ _ _ _ _ _ _ K). cbn [of_option bindO]. rewrite lookup_insert_ne, Eso by done. cbn [of_option bindO]. by rewrite Dso. }
  rewrite Pd. cbn [bindO]. pose proof (k_dir _ _ _ _ _ _ _ K) as Hd.
  destruct (KeFsAddDir_spec (tree_ (fs st)) T p D nm (k_fs _ _ _ _ _ _ _ K)) as (t & E & R1 & D1); [split_and!; [by rewrite Hd|done|done]|].
  cbn [run_op spec_op] in E, R1. unfold children in E, R1. rewrite Hd in E, R1. change (default ∅ (Some M)) with M in E, R1. rewrite Mn, (proj2 (Z.eqb_neq _ _) P0) in E, R1. cbn [fst snd] in E, R1.
  unfold IcFsCreateDir, dir_or_root. rewrite (proj2 (Z.eqb_neq _ _) (k_dir0 _ _ _ _ _ _ _ K)). cbn [st1 put_object with_objects fs]. rewrite E. cbn [bindO]. rewrite (proj2 (Z.eqb_neq _ _) P0).
  set (T1 := set_children D _ _) in R1. fold x2. set (st2 := with_fs _ _). assert (Tp : dirs T !! p = None).
  { destruct (dirs T !! p) eqn:Q; [|done]. apply (kr_dom _ _ (k_fs _ _ _ _ _ _ _ K)) in Q as [z Q]. destruct Al as [?|(A & _)]; [done|]. apply not_elem_of_dom in A. congruence. }
  assert (PD : p <> D) by congruence. assert (T1p : dirs T1 !! p = Some ∅) by (cbn; rewrite lookup_insert_ne by done; apply lookup_insert_eq).
  destruct (KeObjectPopulate_spec st2 T1 s v ty o x2 p ms R1) as (f & M' & E2 & R2 & D2); try done; [exact (k_set _ _ _ _ _ _ _ K)|apply lookup_insert_eq|by apply (allocs_ok_mono _ ({[p]} ∪ dom (tree_ (fs st))))|].
  rewrite E2. cbn [bindO]. unfold KeSetAdd, get_set. rewrite (proj2 (Z.eqb_neq _ _) S0). change (sets (with_fs f st2)) with (sets st). rewrite (k_set _ _ _ _ _ _ _ K). cbn [of_option bindO].
  assert (G : exists r st3, KeObjGet (object v) (with_fs f st2) = Ret (r, st3) /\ fs st3 = f /\ sets st3 = sets st /\ (exists so', objects st3 !! object v = Some so' /\ odir so' = D)
    /\ forall o', o' <> object v -> objects st3 !! o' = objects st2 !! o').
  { assert (Ev : objects (with_fs f st2) !! object v = Some so) by (unfold st2, st1; cbn; by rewrite !lookup_insert_ne).
    unfold KeObjGet, get_object. destruct (object v =? 0).
    - eexists _, _. split; [done|]. split_and!; [done|done|by exists so|done].
    - rewrite Ev. cbn [of_option bindO]. eexists _, _. split; [done|]. cbn [put_object with_objects with_fs fs sets objects]. split_and!; [done|done| |].
      + eexists. split; [apply lookup_insert_eq|done].
      + intros o' No. by rewrite lookup_insert_ne. }
  destruct G as (r & st3 & EG & F3 & S3 & So3 & O3). rewrite EG. cbn [bindO]. eexists _, (set_children p M' T1). split; [done|].
  assert (Eo : objects st3 !! o = Some x2) by (rewrite O3 by done; apply lookup_insert_eq). assert (Eo' : forall o', o' <> o -> o' <> object v -> objects st3 !! o' = objects st !! o').
  { intros o' N1 N2. rewrite O3 by done. unfold st2, st1. cbn [with_fs put_object with_objects objects]. by rewrite !lookup_insert_ne. }
  split; [|split_and!; [done|done|cbn [with_sets fs]; rewrite F3; change (tree_ (fs st2)) with t in D2; clear -D1 D2; set_solver]]. apply (ke_rep_add st _ T _ s v D M N o x p nm K); try done.
  - cbn [with_sets fs]. by rewrite F3.
  - cbn [with_sets sets]. apply lookup_insert_eq.
  - cbn [set_children dirs]. rewrite lookup_insert_ne by done. apply lookup_insert_eq.
  - intros e He. cbn [set_children dirs T1 new_node]. destruct (decide (e = p)) as [->|]; [rewrite lookup_insert_eq; by eexists|]. rewrite lookup_insert_ne by done.
    destruct (decide (e = D)) as [->|]; [rewrite lookup_insert_eq; by eexists|]. by rewrite !lookup_insert_ne by done.
  - cbn [set_children dirs]. rewrite lookup_insert_eq. by eexists.
Qed.

(** When there is no memory for the name or for the directory. *)
Lemma KeObjectAttach_fails st T s v D M N p ms o x nm : ke_rep st T s v D M N -> s <> 0 -> o <> 0 -> o ∉ head v -> o <> object v -> objects st !! o = Some x ->
  parent x = s -> odir x = 0 -> (nm = None \/ p = 0) -> (forall n, nm = Some n -> name_ok n /\ M !! up n = None) ->
  exists r st', KeObjectAttach root m p ms o nm st = Ret (r, st') /\ c_true r = true /\ ke_rep st' T s v D M N
    /\ (forall o', o' <> o -> objects st' !! o' = objects st !! o') /\ dom (tree_ (fs st')) ⊆ dom (tree_ (fs st)).
Proof.
  intros K S0 O0 Ho Hv Ex Px Dx Why Nm. unfold KeObjectAttach, KeObjectVaAttach, get_object. rewrite (proj2 (Z.eqb_neq _ _) O0), Ex. cbn [of_option bindO].
  rewrite Dx. change (c_true 0) with false. cbn [bindO]. assert (Oth : forall y o', o' <> o -> objects (put_object o y st) !! o' = objects st !! o').
  { intros y o' No. cbn [put_object with_objects objects]. by rewrite lookup_insert_ne. }
  destruct nm as [n|]; [|by eexists _, _; split_and!; [done|done|by apply ke_rep_other|apply Oth|done]]. destruct Why as [?| ->]; [done|]. destruct (Nm n eq_refl) as [Nn Mn].
  pose proof (ke_rep_other _ _ _ _ _ _ _ o (with_oname (Some n) x) K Ho Hv) as K1. rewrite Px, (proj2 (Z.eqb_neq _ _) S0), (KeSetFind_none _ _ _ _ _ _ _ _ K1 Mn). cbn [bindO].
  change (c_true 0) with false. cbn [bindO]. destruct (k_so _ _ _ _ _ _ _ K) as (so & Eso & Dso). pose proof (k_dir _ _ _ _ _ _ _ K) as Hd.
  destruct (rep_get_dir _ T (k_fs _ _ _ _ _ _ _ K) D M Hd) as (y & l & q & Ey & By & DR & Eo & Eg).
  unfold KeObjGetParentDir, get_object, get_set. rewrite (proj2 (Z.eqb_neq _ _) O0). cbn [put_object with_objects objects sets]. rewrite lookup_insert_eq. cbn [of_option bindO with_oname parent].
  rewrite Px, (proj2 (Z.eqb_neq _ _) S0), (k_set _ _ _ _ _ _ _ K). cbn [of_option bindO]. rewrite lookup_insert_ne, Eso by done. cbn [of_option bindO]. rewrite Dso.
  unfold IcFsCreateDir, dir_or_root, KeFsAddDir. rewrite (proj2 (Z.eqb_neq _ _) (k_dir0 _ _ _ _ _ _ _ K)). change (fs (put_object o (with_oname (Some n) x) st)) with (fs st). rewrite Eg. cbn [bindO]. rewrite (find_whole _ _ D M y l q n DR Nn). cbn [bindO]. rewrite Mn.
  cbn [Z.eqb bindO with_tree]. change (0 =? 0) with true. cbn [bindO]. eexists _, _. split; [reflexivity|]. split; [reflexivity|]. split; [|split; [|cbn; reflexivity]].
  - destruct (ke_rep_other _ _ _ _ _ _ _ o (with_odir 0 (with_oname (Some n) x)) K1 Ho Hv). by split.
  - intros o' No. cbn [with_fs put_object with_objects objects]. by rewrite !lookup_insert_ne.
Qed.

(** The entry of a member belongs to one key. *)
Lemma key_of_entry t l M k k' e : entries_ok t l M -> M !! k = Some e -> M !! k' = Some e -> k = k'.
Proof. intros En H1 H2. destruct (en_map _ _ _ En _ _ H1) as (_ & x & n & Ex & Nx & <-). destruct (en_map _ _ _ En _ _ H2) as (_ & x' & n' & Ex' & Nx' & <-). congruence. Qed.

(** Detaching a member. *)
Lemma KeObjectDetach_spec st T s v D M N o x : ke_rep st T s v D M N -> s <> 0 -> o ∈ head v -> objects st !! o = Some x ->
  exists f T', let st' := with_sets (<[s := with_head (filter (fun y => y <> o) (head v)) v]> (sets st)) (with_fs f st) in
    KeObjectDetach o st = Ret st' /\ ke_rep st' T' s (with_head (filter (fun y => y <> o) (head v)) v) D (filter (fun kc => kc.2 <> odir x) M) (delete o N)
    /\ dom (tree_ f) ⊆ dom (tree_ (fs st)).
Proof.
  intros K S0 Ho Ex. destruct (k_mem _ _ _ _ _ _ _ K o Ho) as (x' & nm & Ex' & En & Px & Dx & Nn & Mn & Dd). assert (x' = x) as -> by congruence. clear Ex'.
  pose proof (k_fs _ _ _ _ _ _ _ K) as R. pose proof (k_dir _ _ _ _ _ _ _ K) as Hd. pose proof (kr_child _ _ R D M _ _ Hd Mn Dd) as Pd.
  destruct (KeFsRemoveDir_spec (tree_ (fs st)) T (odir x) R) as (t & E & R' & Dm).
  { right. right. exists D, (up nm). unfold children. by rewrite Hd. }
  cbn [run_op spec_op] in E, R'. rewrite (proj2 (Z.eqb_neq _ _) Dx) in E, R'. destruct Dd as [me Hme]. rewrite Hme, Pd in E, R'. unfold children in R'. rewrite Hd in R'. change (default ∅ (Some M)) with M in R'. cbn [fst snd] in E, R'.
  exists (with_tree t (fs st)), (set_children D (filter (fun kc => kc.2 <> odir x) M) T). cbv zeta. split.
  - unfold KeObjectDetach, get_object, get_set. rewrite Ex. cbn [of_option bindO]. rewrite (proj2 (Z.eqb_neq _ _) Dx). unfold IcFsRemoveDir. rewrite E. cbn [bindO].
    rewrite Px, (proj2 (Z.eqb_neq _ _) S0). cbn [with_fs sets]. rewrite (k_set _ _ _ _ _ _ _ K). cbn [of_option bindO]. by rewrite bool_decide_eq_true_2.
  - destruct (rep_get_dir _ T R D M Hd) as (y & l & q & Ey & By & DR & _). pose proof (dr_entries _ _ _ _ _ _ _ DR) as Ent. destruct K. split; [|exact Dm]. split; cbn [with_head head object with_sets sets with_fs fs objects]; try done.
    + apply lookup_insert_eq.
    + cbn [set_children dirs]. apply lookup_insert_eq.
    + by apply NoDup_filter.
    + intros H. apply k_apart0. by apply list_elem_of_filter in H as [_ H].
    + intros o' [No Ho']%list_elem_of_filter. destruct (k_mem0 o' Ho') as (y' & n & Ey' & En' & Py & Oy & Ny & My & Sy). exists y', n. rewrite lookup_delete_ne by done. split_and!; try done.
      * apply map_lookup_filter_Some. split; [done|]. cbn. intros Eq. rewrite Eq in My. apply No. by eapply k_inj0; [exact Ny|exact Nn|eapply key_of_entry].
      * cbn [set_children dirs]. destruct (decide (odir y' = D)) as [->|Ne]; [rewrite lookup_insert_eq; by eexists|by rewrite lookup_insert_ne].
    + intros o' n [No H]%lookup_delete_Some. apply list_elem_of_filter. split; [done|by eapply k_names0].
    + intros k e [H Ne]%map_lookup_filter_Some. destruct (k_map0 k e H) as (o' & n & Hn & Eun). exists o', n. split; [|done]. apply lookup_delete_Some. split; [|done].
      intros ->. apply Ne. cbn. congruence.
    + intros o1 o2 n1 n2 [_ H1]%lookup_delete_Some [_ H2]%lookup_delete_Some. by apply k_inj0.
Qed.

(** A reference is dropped; the last one detaches the member. *)
Lemma KeObjPut_spec st T s v ty D M N o x : ke_rep st T s v D M N -> s <> 0 -> o <> 0 -> o ∈ head v -> objects st !! o = Some x -> stype v = Some ty -> release ty <> 0 ->
  0 < refs x < 2 ^ 31 ->
  if decide (refs x = 1) then
    exists f T', let st' := with_sets (<[s := with_head (filter (fun y => y <> o) (head v)) v]> (sets st)) (with_fs f (put_object o (with_refs 0 x) st)) in
      KeObjPut o st = Ret (0, release ty, st')
      /\ ke_rep st' T' s (with_head (filter (fun y => y <> o) (head v)) v) D (filter (fun kc => kc.2 <> odir x) M) (delete o N)
      /\ dom (tree_ f) ⊆ dom (tree_ (fs st))
  else let st' := put_object o (with_refs (refs x - 1) x) st in
    KeObjPut o st = Ret (refs x - 1, 0, st') /\ ke_rep st' T s v D M N.
Proof.
  intros K S0 O0 Ho Ex Ty Rl Rf. unfold KeObjPut, get_object. rewrite (proj2 (Z.eqb_neq _ _) O0), Ex. cbn [of_option bindO]. rewrite s32_id by lia.
  pose proof (ke_rep_refs _ _ _ _ _ _ _ o x (refs x - 1) K Ex) as K1. case_decide as R1.
  - rewrite R1 in *. change (1 - 1) with 0 in *. change (0 =? 0) with true. cbn [bindO].
    destruct (KeObjectDetach_spec _ _ _ _ _ _ _ o (with_refs 0 x) K1 S0 Ho ltac:(apply lookup_insert_eq)) as (f & T' & E & K2). exists f, T'. split; [|exact K2].
    unfold KeObjectFree, get_object, get_set. rewrite E. cbn [put_object with_objects objects]. rewrite lookup_insert_eq. cbn [of_option bindO with_refs parent].
    destruct (k_mem _ _ _ _ _ _ _ K o Ho) as (x' & nm & Ex' & _ & Px & _). assert (x' = x) as -> by congruence. rewrite Px, (proj2 (Z.eqb_neq _ _) S0). cbn [with_sets sets].
    rewrite lookup_insert_eq. cbn [of_option bindO with_head stype]. rewrite Ty, (proj2 (Z.eqb_neq _ _) Rl). done.
  - destruct (Z.eqb_spec (refs x - 1) 0); [lia|]. done.
Qed.

(** A set of no set, in the root directory, has no members when it is made. *)
Lemma KeSetCreate_spec st T M p ms s so ty nm : kfs_rep (tree_ (fs st)) T -> dirs T !! root = Some M -> root <> 0 -> name_ok nm -> M !! up nm = None ->
  p <> 0 -> alloc_ok (dom (tree_ (fs st))) p -> s <> 0 -> so <> 0 ->
  exists st' T', KeSetCreate root m p ms s so 0 ty (Some nm) st = Ret (0, st')
    /\ ke_rep st' T' s {| head := []; object := so; stype := ty |} p ∅ ∅ /\ dom (tree_ (fs st')) ⊆ {[p]} ∪ dom (tree_ (fs st)).
Proof.
  intros R Hd R0 Nm Mn P0 Al S0 O0. set (v := {| head := []; object := so; stype := ty |}).
  destruct (KeFsAddDir_spec (tree_ (fs st)) T p root nm R) as (t & E & R1 & D1); [split_and!; [by rewrite Hd|done|done]|].
  cbn [run_op spec_op] in E, R1. unfold children in E, R1. rewrite Hd in E, R1. change (default ∅ (Some M)) with M in E, R1. rewrite Mn, (proj2 (Z.eqb_neq _ _) P0) in E, R1. cbn [fst snd] in E, R1.
  set (T1 := set_children root _ _) in R1. unfold KeSetCreate, KeSetAttach, KeSetInit, KeObjectInit, KeObjectAttach, KeObjectVaAttach, get_set, get_object. fold v.
  rewrite (proj2 (Z.eqb_neq _ _) S0). cbn [put_object with_objects with_sets sets objects]. rewrite lookup_insert_eq. cbn [of_option bindO object v].
  rewrite (proj2 (Z.eqb_neq _ _) O0), lookup_insert_eq. cbn [of_option bindO odir parent]. change (c_true 0) with false. change (0 =? 0) with true. cbn [bindO].
  unfold KeObjGetParentDir, get_object. rewrite (proj2 (Z.eqb_neq _ _) O0). cbn [put_object with_objects objects]. rewrite lookup_insert_eq. cbn [of_option bindO with_oname parent]. change (0 =? 0) with true. cbn [bindO].
  unfold IcFsCreateDir, dir_or_root. change (0 =? 0) with true. cbn [put_object with_objects with_sets fs]. rewrite E. cbn [bindO]. rewrite (proj2 (Z.eqb_neq _ _) P0).
  unfold KeObjectPopulate, get_object. cbn [put_object with_objects with_fs objects]. rewrite lookup_insert_eq. cbn [of_option bindO with_odir with_oname parent]. change (0 =? 0) with true. cbn [bindO KeSetAdd].
  eexists _, T1. split; [done|]. split; [|exact D1].
  assert (Tp : dirs T !! p = None). { destruct (dirs T !! p) eqn:Q; [|done]. apply (kr_dom _ _ R) in Q as [z Q]. destruct Al as [?|(A & _)]; [done|]. apply not_elem_of_dom in A. congruence. }
  split; cbn [v head object stype with_fs put_object with_objects with_sets sets objects fs with_tree tree_]; try done.
  - apply lookup_insert_eq.
  - eexists. rewrite lookup_insert_eq. by split.
  - cbn. rewrite lookup_insert_ne by congruence. apply lookup_insert_eq.
  - constructor.
  - intros H. by apply elem_of_nil in H.
  - intros o H. by apply elem_of_nil in H.
Qed.
End Members.
