(* ===== verification/Process.v ===== *)
(** * Processes (kernel/process.c)

    A process is a structure with a kernel object in it.  It counts two
    references: its own, until it exits, and that of its parent, until the
    parent has waited for it or has exited.  A process is on the list of
    all processes and on the list of children of its parent, and its object
    is a directory of /Processes in IcFs.

    The lists are sequences of addresses; taking a structure off a list it
    is not on is a [Fault], as is the use of one that was freed.  The
    structures MemCacheAlloc hands out are constructed (the constructor
    runs when a slab is made and when an object is freed, see Slab); the
    results of the allocations are parameters.  The threads of a process and
    what else it owns are in ExitThreads; here it exits and is waited for.  [asleep] are the processes that sleep
    on their wait queue. *)

From stdpp Require Import functions fin_maps fin_sets.
From S2P Require Import Prelude CString Printf Ext3INode KFs IcFs KeObject.

(** ** Model *)

Definition THR_RUNNING : Z := 1.
Definition THR_DYING : Z := 4.

Record Process := { pid : Z; state : Z; exitCode : Z; pparent : Z; pchildren : list Z }.
Definition with_pparent v P := {| pid := pid P; state := state P; exitCode := exitCode P; pparent := v; pchildren := pchildren P |}.
Definition with_pchildren v P := {| pid := pid P; state := state P; exitCode := exitCode P; pparent := pparent P; pchildren := v |}.
Definition with_exit st c P := {| pid := pid P; state := st; exitCode := c; pparent := pparent P; pchildren := pchildren P |}.

(** Offsets in struct Process. *)
Definition OFFSET_state : Z := 28.
Definition OFFSET_numFds : Z := 40.
Definition OFFSET_name : Z := 56.
Definition OFFSET_object : Z := 84.
Definition object_of (p : Z) : Z := u32 (p + OFFSET_object).

(** [stale] are the freed structures a call has written to. *)
Record procs := { table : gmap Z Process; processList : list Z; nextPid : Z; asleep : gset Z; stale : list Z; ke : kobjs }.
Definition with_table v st : procs := {| table := v; processList := processList st; nextPid := nextPid st; asleep := asleep st; stale := stale st; ke := ke st |}.
Definition with_list v st : procs := {| table := table st; processList := v; nextPid := nextPid st; asleep := asleep st; stale := stale st; ke := ke st |}.
Definition with_next v st : procs := {| table := table st; processList := processList st; nextPid := v; asleep := asleep st; stale := stale st; ke := ke st |}.
Definition with_asleep v st : procs := {| table := table st; processList := processList st; nextPid := nextPid st; asleep := v; stale := stale st; ke := ke st |}.
Definition with_stale v st : procs := {| table := table st; processList := processList st; nextPid := nextPid st; asleep := asleep st; stale := v; ke := ke st |}.
Definition with_ke v st : procs := {| table := table st; processList := processList st; nextPid := nextPid st; asleep := asleep st; stale := stale st; ke := v |}.
Definition get_process (p : Z) (st : procs) : outcome Process := of_option (table st !! p).
Definition upd_process (p : Z) (f : Process -> Process) (st : procs) : outcome procs :=
  let* P := get_process p st in Ret (with_table (<[p := f P]> (table st)) st).

(** The characters of "name", "state" and "numFds". *)
Definition processAttributes : list IcAttribute :=
  [ {| atype := ICFS_TYPE_STR; aoffset := OFFSET_name; aperms := IC_READ; aname := [110; 97; 109; 101] |};
    {| atype := ICFS_TYPE_INT; aoffset := OFFSET_state; aperms := IC_READ; aname := [115; 116; 97; 116; 101] |};
    {| atype := ICFS_TYPE_INT; aoffset := OFFSET_numFds; aperms := IC_READ; aname := [110; 117; 109; 70; 100; 115] |} ].
(** The address of ThrFreeProcess. *)
Definition FREE_PROCESS : Z := 1.
Definition processType : KeObjType := {| release := FREE_PROCESS; attributes := processAttributes; offset := OFFSET_object |}.

(** What "%d" makes of an int. *)
Definition decimal (n : Z) : list Z := number_text true (u64 (s32 n)) 10 (-1) (-1) SIGN.

Section Calls.
(** The root entry of IcFs and the address of processSet. *)
Context (root processSet : Z).

Fixpoint find_pid (i : Z) (l : list Z) (st : procs) : outcome Z :=
  match l with
  | [] => Ret 0
  | p :: l => let* P := get_process p st in if pid P =? i then Ret p else find_pid i l st
  end.
Definition ThrFindProcessById (i : Z) (st : procs) : outcome Z := find_pid i (processList st) st.

(** All is zero, except for the object. *)
Definition ThrProcessConstructor (p : Z) (st : procs) : procs :=
  let st := with_table (<[p := {| pid := 0; state := 0; exitCode := 0; pparent := 0; pchildren := [] |}]> (table st)) st in
  with_ke (KeObjectInit (object_of p) processSet (with_objects (delete (object_of p) (objects (ke st))) (ke st))) st.
(** MemCacheFree: the structure is not used any more. *)
Definition cache_free (p : Z) (st : procs) : procs := with_table (delete p (table st)) st.

(** What the allocator gives for a new process: the structure, the memory
    of its name, whether vasprintf finds memory, the directory and its
    attributes. *)
Record supply := { s_process : Z; s_name : Z; s_text : bool; s_dir : Z; s_attrs : list (Z * Z) }.

(** [manager_ok] says whether VirtMemManagerSetup succeeds; [m] is memory at
    the time. *)
Definition ThrCreateProcess (m : gmap Z Z) (current : Z) (a : supply) (manager_ok : bool) (st : procs) : outcome (Z * procs) :=
  let p := s_process a in
  if p =? 0 then Ret (0, st)
  else
    let st := ThrProcessConstructor p st in
    if negb manager_ok then Ret (0, cache_free p st)
    else if s_name a =? 0 then Fault
    else
      let i := nextPid st in
      let st := with_next (s32 (i + 1)) st in
      let st := with_table (<[p := {| pid := u32 i; state := THR_RUNNING; exitCode := 0; pparent := current; pchildren := [] |}]> (table st)) st in
      let* st :=
        if current =? 0 then Ret st
        else
          let* (_, k) := KeObjGet (object_of p) (ke st) in
          upd_process current (fun C => with_pchildren (pchildren C ++ [p]) C) (with_ke k st) in
      let* (err, k) := KeObjectAttach root m (s_dir a) (s_attrs a) (object_of p) (if s_text a then Some (decimal (u32 i)) else None) (ke st) in
      let st := with_ke k st in
      if c_true err then
        if current =? 0 then Fault
        else
          let* st := upd_process current (fun C => with_pchildren (filter (fun x => x <> p) (pchildren C)) C) st in
          Ret (0, cache_free p st)
      else Ret (p, with_list (processList st ++ [p]) st).

Definition ThrFreeProcess (p : Z) (st : procs) : outcome procs :=
  let* P := get_process p st in
  let* st :=
    if pparent P =? 0 then Ret st
    else
      let* C := get_process (pparent P) st in
      if bool_decide (p ∈ pchildren C) then upd_process (pparent P) (fun C => with_pchildren (filter (fun x => x <> p) (pchildren C)) C) st
      else Fault in
  if bool_decide (p ∈ processList st) then Ret (cache_free p (with_list (filter (fun x => x <> p) (processList st)) st))
  else Fault.

Definition ThrGetProcess (p : Z) (st : procs) : outcome procs :=
  let* (_, k) := KeObjGet (object_of p) (ke st) in Ret (with_ke k st).
(** The release function runs when it was the last reference. *)
Definition ThrPutProcess (p : Z) (st : procs) : outcome procs :=
  let* (_, f, k) := KeObjPut (object_of p) (ke st) in
  let st := with_ke k st in
  if f =? FREE_PROCESS then ThrFreeProcess p st else Ret st.

(** One pass over the children: the one that has exited, and whether there
    is one to wait for. *)
Fixpoint wait_scan (i : Z) (l : list Z) (should : bool) (st : procs) : outcome (option Z * bool) :=
  match l with
  | [] => Ret (None, should)
  | p :: l =>
      let* P := get_process p st in
      if (0 <=? i) && negb (pid P =? i) then wait_scan i l should st
      else if state P =? THR_DYING then Ret (Some p, true)
      else wait_scan i l true st
  end.
(** The call returns with a result and a status, or has to sleep. *)
Inductive wait_answer := Returns (ret : Z) (status : option Z) | Sleeps.
(** [finishStatus] says whether the pointer is not NULL, [area] is what
    VirtCheckArea says of it.  The part up to the sleep. *)
Definition SysWaitForProcessFinish (current i : Z) (finishStatus : bool) (area : Z) (st : procs) : outcome (wait_answer * procs) :=
  if finishStatus && c_true area then Ret (Returns (- EFAULT) None, st)
  else
    let* C := get_process current st in
    let* (found, should) := wait_scan i (pchildren C) false st in
    match found with
    | Some p =>
        let* P := get_process p st in
        let* st := ThrPutProcess p st in
        Ret (Returns (s32 (pid P)) (if finishStatus then Some (s32 (Z.shiftl (exitCode P) 8)) else None), st)
    | None => if should then Ret (Sleeps, st) else Ret (Returns (- ENOENT) None, st)
    end.
(** SLEEP_ON(&current->waitQueue), up to the switch to another thread. *)
Definition sleep_on (current : Z) (st : procs) : procs := with_asleep ({[current]} ∪ asleep st) st.

Definition SysGetCurrentProcessId (current : Z) (st : procs) : outcome Z := let* C := get_process current st in Ret (s32 (pid C)).

(** The children are abandoned.  ThrPutProcess may have freed the child; the
    store of NULL to its parent field is then one to a freed structure,
    which [stale] records. *)
Fixpoint abandon (l : list Z) (st : procs) : outcome procs :=
  match l with
  | [] => Ret st
  | p :: l =>
      let* st := ThrPutProcess p st in
      let st := match table st !! p with Some P => with_table (<[p := with_pparent 0 P]> (table st)) st | None => with_stale (stale st ++ [p]) st end in
      abandon l st
  end.
Definition ThrRelativeAlert (current : Z) (st : procs) : outcome procs :=
  let* C := get_process current st in
  let* st := abandon (pchildren C) st in
  let* C := get_process current st in
  if pparent C =? 0 then Ret st
  else let* _ := get_process (pparent C) st in Ret (with_asleep (asleep st ∖ {[pparent C]}) st).

(** What ThrProcessExit does to the processes; the threads and what the
    process owns besides are in ExitThreads. *)
Definition process_exit (current returnCode : Z) (st : procs) : outcome procs :=
  let* st := upd_process current (with_exit THR_DYING returnCode) st in
  let* st := ThrRelativeAlert current st in
  ThrPutProcess current st.

(** What Exec does with the new process when the program cannot be loaded
    (fs/vfs/load.c). *)
Definition exec_cleanup (p : Z) (st : procs) : outcome procs := ThrPutProcess p st.
End Calls.

(** ** The names *)

Lemma decimal_numeral n : 0 <= n < 2 ^ 31 -> decimal n = numeral false n 10.
Proof.
  intros H. unfold decimal. rewrite s32_id, u64_id by lia. unfold number_text, number_lead. change (flag SIGN SIGN) with true.
  change (flag SIGN PLUS) with false. change (flag SIGN SPACE) with false. change (flag SIGN SPECIAL) with false. change (flag SIGN LEFT) with false.
  change (flag SIGN ZEROPAD) with false. change (flag SIGN SMALL) with false. cbn [andb negb].
  assert (s64 n <? 0 = false) as -> by (apply Z.ltb_ge; unfold s64; rewrite Z.mod_small; lia). cbn [andb negb]. change (zlen (@nil Z)) with 0. pose proof (zlen_nonneg (numeral false n 10)).
  rewrite !repeatZ_neg by lia. cbn [app]. unfold radix_prefix. change (flag SIGN SPECIAL) with false. cbn [app]. by rewrite app_nil_r.
Qed.
Lemma numeral_digits n : 0 <= n -> Forall (fun c => 48 <= c < 58) (numeral false n 10).
Proof.
  intros H. unfold numeral. destruct (n =? 0); [repeat constructor; lia|]. apply Forall_rev, Forall_fmap.
  eapply Forall_impl; [apply digit_values_range; lia|]. intros d Hd. cbn in Hd |- *. unfold digit_char. zcases; lia.
Qed.
Lemma decimal_ok n : 0 <= n < 2 ^ 31 -> name_ok (decimal n) /\ up (decimal n) = decimal n.
Proof.
  intros H. rewrite decimal_numeral by done. pose proof (numeral_digits n ltac:(lia)) as F. split; [eapply Forall_impl; [exact F|]; cbn; lia|].
  unfold up. induction F as [|c l Hc _ IH]; [done|]. cbn [map]. rewrite IH. f_equal. unfold up_char, toupper.
  assert (s8 c = c) as -> by (unfold s8; rewrite Z.mod_small; lia). destruct (Z.leb_spec 97 c); [lia|]. cbn [andb]. unfold s8. rewrite Z.mod_small; lia.
Qed.
Lemma decimal_inj a b : 0 <= a < 2 ^ 31 -> 0 <= b < 2 ^ 31 -> up (decimal a) = up (decimal b) -> a = b.
Proof.
  intros Ha Hb. rewrite (proj2 (decimal_ok a Ha)), (proj2 (decimal_ok b Hb)), !decimal_numeral by done. intros E.
  rewrite <- (numeral_value false a 10), <- (numeral_value false b 10) by lia. by rewrite E.
Qed.

(** ** A tree of processes

    The processes in the order in which they were made.  A process that
    runs may become one that exits ([Exiting] while it does); it stays as
    [Exited] until its parent has waited for it.  [Failed] is what is left
    of a process whose program could not be loaded. *)

Inductive astatus := Running | Exiting (code : Z) | Exited (code : Z) | Failed.
Record aproc := { apid : Z; astat : astatus; apar : option Z }.
Definition set_stat s a := {| apid := apid a; astat := s; apar := apar a |}.
Definition orphan a := {| apid := apid a; astat := astat a; apar := None |}.
Notation aprocs := (list (Z * aproc)) (only parsing).

Definition lookup_p (p : Z) (A : aprocs) : option aproc := (list_to_map A : gmap Z aproc) !! p.
Definition update_p (p : Z) (f : aproc -> aproc) (A : aprocs) : aprocs := map (fun qa => if qa.1 =? p then (qa.1, f qa.2) else qa) A.
Definition remove_p (p : Z) (A : aprocs) : aprocs := filter (fun qa => qa.1 <> p) A.
(** The children of [p]. *)
Definition is_kid (p : Z) (qa : Z * aproc) : bool := bool_decide (apar qa.2 = Some p).
Definition kids (p : Z) (A : aprocs) : list Z := (filter (fun qa => apar qa.2 = Some p) A).*1.

(** The references of a process. *)
Definition live (a : aproc) : bool := match astat a with Running | Exiting _ => true | _ => false end.
Definition ref_count (a : aproc) : Z := (if live a then 1 else 0) + (if apar a then 1 else 0).

Definition proc_ok (A : aprocs) (p : Z) (a : aproc) (P : Process) : Prop :=
  pid P = apid a /\ pparent P = default 0 (apar a)
  /\ match astat a with
     | Running => state P = THR_RUNNING /\ pchildren P = kids p A
     | Exiting c => state P = THR_DYING /\ exitCode P = c /\ forall q, q ∈ kids p A -> q ∈ pchildren P
     | Exited c => state P = THR_DYING /\ exitCode P = c /\ kids p A = []
     | Failed => state P = THR_RUNNING /\ kids p A = []
     end.

(** *** The list of processes *)

Lemma key_unique (A : aprocs) p a b : NoDup A.*1 -> (p, a) ∈ A -> (p, b) ∈ A -> a = b.
Proof. intros N H1 H2. assert (Some a = Some b) as E; [|congruence]. rewrite <- (elem_of_list_to_map_1 A p a N H1). by apply elem_of_list_to_map_1. Qed.
Lemma lookup_p_in (A : aprocs) p a : NoDup A.*1 -> (p, a) ∈ A -> lookup_p p A = Some a.
Proof. intros N H. by apply elem_of_list_to_map_1. Qed.
Lemma lookup_p_elem (A : aprocs) p a : lookup_p p A = Some a -> (p, a) ∈ A.
Proof. apply elem_of_list_to_map_2. Qed.

Lemma update_p_keys p f (A : aprocs) : (update_p p f A).*1 = A.*1.
Proof. unfold update_p. rewrite <- list_fmap_compose. apply list_fmap_ext. intros i [q a] _. cbn. by destruct (q =? p). Qed.
Lemma update_p_in p f (A : aprocs) q b : (q, b) ∈ update_p p f A <-> exists a, (q, a) ∈ A /\ b = if q =? p then f a else a.
Proof.
  unfold update_p. rewrite list_elem_of_fmap. split.
  - intros ([q' a] & E & H). cbn in E. exists a. destruct (Z.eqb_spec q' p); injection E as -> ->; split; try done; by destruct (Z.eqb_spec q' p).
  - intros (a & H & ->). exists (q, a). split; [|done]. cbn. by destruct (q =? p).
Qed.
Lemma remove_p_keys p (A : aprocs) : (remove_p p A).*1 = filter (fun q => q <> p) A.*1.
Proof. unfold remove_p. induction A as [|[q a] A IH]; [done|]. cbn [fmap list_fmap fst]. rewrite !filter_cons. cbn [fst]. case_decide; cbn; by rewrite IH. Qed.
Lemma remove_p_in p (A : aprocs) q b : (q, b) ∈ remove_p p A <-> (q, b) ∈ A /\ q <> p.
Proof. unfold remove_p. rewrite list_elem_of_filter. cbn. tauto. Qed.

Lemma kids_in p (A : aprocs) q : q ∈ kids p A <-> exists a, (q, a) ∈ A /\ apar a = Some p.
Proof.
  unfold kids. rewrite list_elem_of_fmap. split.
  - intros ([q' a] & -> & H). apply list_elem_of_filter in H as [H1 H2]. by exists a.
  - intros (a & H1 & H2). exists (q, a). split; [done|]. apply list_elem_of_filter. by split.
Qed.
Lemma kids_app p (A B : aprocs) : kids p (A ++ B) = kids p A ++ kids p B.
Proof. unfold kids. by rewrite filter_app, fmap_app. Qed.
Lemma kids_remove p q (A : aprocs) : kids p (remove_p q A) = filter (fun x => x <> q) (kids p A).
Proof.
  unfold kids, remove_p. induction A as [|[x a] A IH]; [done|]. rewrite (filter_cons _ (x, a)). cbn [fst]. destruct (decide (x <> q)) as [Nq|Nq].
  - rewrite !(filter_cons _ (x, a)). cbn [snd]. destruct (decide (apar a = Some p)); [|exact IH]. cbn [fmap list_fmap fst]. rewrite (filter_cons _ x), decide_True by done. by rewrite IH.
  - rewrite (filter_cons _ (x, a)). cbn [snd]. destruct (decide (apar a = Some p)); [|exact IH]. cbn [fmap list_fmap fst]. by rewrite (filter_cons _ x), decide_False by done.
Qed.
Lemma kids_update p q f (A : aprocs) : (forall a, apar (f a) = apar a) -> kids p (update_p q f A) = kids p A.
Proof.
  intros Hf. unfold kids, update_p. induction A as [|[x a] A IH]; [done|]. cbn [map fst]. rewrite !filter_cons. destruct (x =? q); cbn; rewrite ?Hf; case_decide; cbn; by rewrite IH.
Qed.
Lemma kids_orphan p q (A : aprocs) : kids p (update_p q orphan A) = filter (fun x => x <> q) (kids p A).
Proof.
  unfold kids, update_p. induction A as [|[x a] A IH]; [done|]. cbn [map fst snd]. destruct (Z.eqb_spec x q) as [->|Nq].
  - rewrite (filter_cons _ (q, orphan a)), decide_False by done. rewrite (filter_cons _ (q, a)). cbn [snd]. destruct (decide (apar a = Some p)); [|exact IH].
    cbn [fmap list_fmap fst]. rewrite (filter_cons _ q), decide_False by tauto. exact IH.
  - rewrite !(filter_cons _ (x, a)). cbn [snd]. destruct (decide (apar a = Some p)); [|exact IH].
    cbn [fmap list_fmap fst]. rewrite (filter_cons _ x), decide_True by done. f_equal. exact IH.
Qed.
Lemma filter_keeps {X} (P : X -> Prop) `{forall x, Decision (P x)} (l : list X) : (forall x, x ∈ l -> P x) -> filter P l = l.
Proof. induction l as [|x l IH]; [done|]. intros Hl. rewrite filter_cons, decide_True by (apply Hl; left). rewrite IH; [done|]. intros; apply Hl; by right. Qed.

(** The processes of [l] lose their parent: the ones that live stay without
    one, the others are gone. *)
Definition abandoned (l : list Z) (A : aprocs) : aprocs :=
  flat_map (fun qa => if bool_decide (qa.1 ∈ l) then if live qa.2 then [(qa.1, orphan qa.2)] else [] else [qa]) A.
Lemma abandoned_in l (A : aprocs) q b : (q, b) ∈ abandoned l A <-> ((q, b) ∈ A /\ q ∉ l) \/ (exists a, (q, a) ∈ A /\ q ∈ l /\ live a = true /\ b = orphan a).
Proof.
  unfold abandoned. rewrite list_elem_of_In, in_flat_map. split.
  - intros ([q' a] & H & Hb). apply list_elem_of_In in H. cbn [fst snd] in Hb. case_bool_decide as L.
    + destruct (live a) eqn:La; [|done]. destruct Hb as [[= <- <-]|[]]. right. by exists a.
    + destruct Hb as [[= <- <-]|[]]. by left.
  - intros [[H L]|(a & H & L & La & ->)].
    + exists (q, b). split; [by apply list_elem_of_In|]. cbn [fst]. rewrite bool_decide_eq_false_2 by done. by left.
    + exists (q, a). split; [by apply list_elem_of_In|]. cbn [fst snd]. rewrite bool_decide_eq_true_2, La by done. by left.
Qed.
Lemma abandoned_nil (A : aprocs) : abandoned [] A = A.
Proof. unfold abandoned. induction A as [|[q a] A IH]; [done|]. cbn. by rewrite IH. Qed.

Lemma abandoned_orphan x l (A : aprocs) a : NoDup A.*1 -> (x, a) ∈ A -> live a = true -> x ∉ l -> abandoned (x :: l) A = abandoned l (update_p x orphan A).
Proof.
  intros N Hx La Nx. unfold abandoned, update_p. assert (U : forall q b, (q, b) ∈ A -> q = x -> b = a) by (intros q b H ->; by eapply key_unique). clear Hx N.
  induction A as [|[q b] A IH]; [done|]. cbn [map flat_map fst snd]. rewrite IH by (intros; eapply U; [by right|done]). f_equal. destruct (Z.eqb_spec q x) as [->|Nq]; cbn [fst snd].
  - rewrite bool_decide_eq_true_2 by left. rewrite bool_decide_eq_false_2 by done. rewrite (U x b) by (done || left). by rewrite La.
  - rewrite (bool_decide_ext (q ∈ x :: l) (q ∈ l)); [done|]. rewrite elem_of_cons. naive_solver.
Qed.
Lemma abandoned_remove x l (A : aprocs) a : NoDup A.*1 -> (x, a) ∈ A -> live a = false -> abandoned (x :: l) A = abandoned l (remove_p x A).
Proof.
  intros N Hx La. unfold abandoned, remove_p. assert (U : forall q b, (q, b) ∈ A -> q = x -> b = a) by (intros q b H ->; by eapply key_unique). clear Hx N.
  induction A as [|[q b] A IH]; [done|]. rewrite filter_cons. cbn [flat_map fst snd]. rewrite IH by (intros; eapply U; [by right|done]). destruct (decide (q <> x)) as [Nq|Nq]; cbn [flat_map fst snd].
  - f_equal. rewrite (bool_decide_ext (q ∈ x :: l) (q ∈ l)); [done|]. rewrite elem_of_cons. naive_solver.
  - apply dec_stable in Nq as ->. rewrite bool_decide_eq_true_2 by left. rewrite (U x b) by (done || left). by rewrite La.
Qed.
Lemma abandoned_update x f l (A : aprocs) : x ∉ l -> abandoned l (update_p x f A) = update_p x f (abandoned l A).
Proof.
  intros Nx. unfold abandoned, update_p. induction A as [|[q b] A IH]; [done|]. cbn [map flat_map fst snd]. rewrite IH, map_app. f_equal. destruct (Z.eqb_spec q x) as [->|Nq]; cbn [fst snd].
  - rewrite bool_decide_eq_false_2 by done. cbn [map fst snd]. by rewrite Z.eqb_refl.
  - case_bool_decide; [destruct (live b)|]; cbn [map fst snd]; try done; by rewrite (proj2 (Z.eqb_neq _ _) Nq).
Qed.
Lemma update_update p f g (A : aprocs) : update_p p f (update_p p g A) = update_p p (fun a => f (g a)) A.
Proof. unfold update_p. rewrite map_map. apply map_ext. intros [q a]. cbn [fst snd]. destruct (Z.eqb_spec q p); cbn [fst snd]; [subst; by rewrite Z.eqb_refl|]. by rewrite (proj2 (Z.eqb_neq q p)). Qed.
Lemma remove_update p f (A : aprocs) : remove_p p (update_p p f A) = remove_p p A.
Proof.
  unfold remove_p, update_p. induction A as [|[q a] A IH]; [done|]. cbn [map fst snd]. rewrite (filter_cons _ (q, a)). destruct (Z.eqb_spec q p) as [->|Nq]; rewrite filter_cons; cbn [fst].
  - by rewrite !decide_False by tauto.
  - rewrite !decide_True by done. by rewrite IH.
Qed.

Lemma elem_key (A : aprocs) p a : (p, a) ∈ A -> p ∈ A.*1.
Proof. intros H. apply list_elem_of_fmap. by exists (p, a). Qed.
Lemma key_elem (A : aprocs) p : p ∈ A.*1 -> exists a, (p, a) ∈ A.
Proof. intros ([q a] & -> & H)%list_elem_of_fmap. by exists a. Qed.
Lemma kids_none A p q a : kids p A = [] -> (q, a) ∈ A -> apar a <> Some p.
Proof. intros E H Ea. assert (q ∈ kids p A) as Hq by (apply kids_in; by exists a). rewrite E in Hq. by apply elem_of_nil in Hq. Qed.
Lemma kids_nodup p (A : aprocs) : NoDup A.*1 -> NoDup (kids p A).
Proof.
  unfold kids. induction A as [|[q a] A IH]; intros N; [constructor|]. apply NoDup_cons in N as [Nq N]. rewrite filter_cons. cbn [fst snd] in *.
  case_decide; [|by apply IH]. cbn. apply NoDup_cons. split; [|by apply IH]. intros H1. apply Nq. apply list_elem_of_fmap in H1 as (y & -> & Hy). apply list_elem_of_filter in Hy as [_ Hy].
  by apply list_elem_of_fmap_2.
Qed.
Lemma abandoned_keys l (A : aprocs) : NoDup A.*1 -> NoDup (abandoned l A).*1.
Proof.
  unfold abandoned. induction A as [|[q a] A IH]; intros N; [constructor|]. apply NoDup_cons in N as [Nq N]. cbn [flat_map fst snd]. rewrite fmap_app. apply NoDup_app.
  assert (Sub : forall x, x ∈ (flat_map (fun qa => if bool_decide (qa.1 ∈ l) then if live qa.2 then [(qa.1, orphan qa.2)] else [] else [qa]) A).*1 -> x ∈ A.*1).
  { intros x ([q' b] & -> & H)%list_elem_of_fmap. fold (abandoned l A) in H. apply abandoned_in in H as [[H _]|(b0 & H & _)]; by apply (list_elem_of_fmap_2 fst) in H. }
  split_and!; [|intros x Hx Hx'; apply Sub in Hx'|by apply IH].
  - case_bool_decide; [destruct (live a)|]; cbn; try apply NoDup_singleton. constructor.
  - assert (x = q) as ->; [|done]. revert Hx. case_bool_decide; [destruct (live a)|]; cbn; set_solver.
Qed.
Lemma abandoned_kids r (A : aprocs) : NoDup A.*1 -> kids r (abandoned (kids r A) A) = [].
Proof.
  intros N. destruct (kids r _) as [|q l] eqn:E; [done|]. exfalso. assert (H : q ∈ kids r (abandoned (kids r A) A)) by (rewrite E; left). apply kids_in in H as (a & Ha & Ea).
  apply abandoned_in in Ha as [[Ha Nq]|(a0 & _ & _ & _ & ->)]; [|done]. apply Nq, kids_in. by exists a.
Qed.

(** What the calls do to the processes. *)
Definition end_as (s : astatus) (p : Z) (A : aprocs) : aprocs :=
  match lookup_p p A with
  | Some a => if apar a then update_p p (set_stat s) A else remove_p p A
  | None => A
  end.
Definition exit_spec (current code : Z) (A : aprocs) : aprocs := end_as (Exited code) current (abandoned (kids current A) A).

(** A child that may have been meant, and the first of them that has exited. *)
Definition meant (i : Z) (a : aproc) : bool := (i <? 0) || (apid a =? i).
Definition has_exited (a : aproc) : bool := match astat a with Exited _ => true | _ => false end.
Definition child_list (current : Z) (A : aprocs) : aprocs := filter (fun qa => apar qa.2 = Some current) A.
Definition wait_spec (current i : Z) (finishStatus : bool) (A : aprocs) : wait_answer * aprocs :=
  match List.find (fun qa => meant i qa.2 && has_exited qa.2) (child_list current A) with
  | Some (q, a) =>
      (Returns (apid a) (match astat a with Exited c => if finishStatus then Some (s32 (Z.shiftl c 8)) else None | _ => None end), remove_p q A)
  | None => if existsb (fun qa => meant i qa.2) (child_list current A) then (Sleeps, A) else (Returns (- ENOENT) None, A)
  end.
(** The process, the processes and the next number. *)
Definition create_spec (current : Z) (a : supply) (manager_ok : bool) (A : aprocs) (next : Z) : Z * aprocs * Z :=
  if (s_process a =? 0) || negb manager_ok then (0, A, next)
  else if s_text a && negb (s_dir a =? 0) then
    (s_process a, A ++ [(s_process a, {| apid := next; astat := Running; apar := if current =? 0 then None else Some current |})], next + 1)
  else (0, A, next + 1).

(** ** The representation *)

Section Rep.
Context (root processSet setObject : Z) (S0 : processSet <> 0).

(** [rf] are the references of the processes. *)
Record prep (rf : Z -> Z) (st : procs) (A : aprocs) : Prop := {
  pr_list : processList st = A.*1;
  pr_nodup : NoDup A.*1;
  pr_proc : forall p a, (p, a) ∈ A -> exists P, table st !! p = Some P /\ proc_ok A p a P;
  pr_par : forall p a r, (p, a) ∈ A -> apar a = Some r -> exists b, (r, b) ∈ A /\ live b = true;
  pr_self : forall p a, (p, a) ∈ A -> apar a <> Some p;
  pr_addr : forall p, p ∈ A.*1 -> 0 < p /\ p + OFFSET_object < 2 ^ 32;
  pr_pid : forall p a, (p, a) ∈ A -> 0 <= apid a < nextPid st;
  pr_pids : forall p a q b, (p, a) ∈ A -> (q, b) ∈ A -> apid a = apid b -> p = q;
  pr_next : 0 <= nextPid st < 2 ^ 31;
  pr_refs : forall p a, (p, a) ∈ A -> exists x, objects (ke st) !! object_of p = Some x /\ refs x = rf p /\ 0 < rf p < 2 ^ 31;
  pr_ke : exists T v D M N, ke_rep (ke st) T processSet v D M N /\ head v = map object_of A.*1 /\ stype v = Some processType /\ object v = setObject
    /\ forall p a, (p, a) ∈ A -> N !! object_of p = Some (decimal (apid a));
}.
(** The references the processes should have. *)
Definition counts (A : aprocs) (p : Z) : Z := match lookup_p p A with Some a => ref_count a | None => 0 end.
Definition tree_of (st : procs) : gset Z := dom (tree_ (fs (ke st))).

Lemma object_of_eq p : 0 < p -> p + OFFSET_object < 2 ^ 32 -> object_of p = p + OFFSET_object.
Proof. unfold object_of, OFFSET_object. intros. apply u32_id. lia. Qed.
Lemma object_of_inj rf st A p q : prep rf st A -> p ∈ A.*1 -> q ∈ A.*1 -> object_of p = object_of q -> p = q.
Proof. intros R Hp Hq. destruct (pr_addr _ _ _ R p Hp), (pr_addr _ _ _ R q Hq). rewrite !object_of_eq by done. lia. Qed.

Lemma prep_ext rf rf' st A : (forall p, p ∈ A.*1 -> rf' p = rf p) -> prep rf st A -> prep rf' st A.
Proof.
  intros E []. split; try done. intros p a H. destruct (pr_refs0 p a H) as (x & Ex & Rx & B). exists x. rewrite (E p (elem_key _ _ _ H)). by split; [|split].
Qed.

(** What the calls leave behind besides the processes. *)
Definition log (st : procs) : gset Z * list Z := (asleep st, stale st).

(** A reference that is not the last. *)
Lemma put_live rf st A p a : prep rf st A -> (p, a) ∈ A -> rf p <> 1 ->
  exists st', ThrPutProcess p st = Ret st' /\ prep (<[p := rf p - 1]> rf) st' A /\ table st' = table st /\ log st' = log st /\ nextPid st' = nextPid st /\ tree_of st' = tree_of st.
Proof.
  intros R Hp N1. destruct (pr_refs _ _ _ R p a Hp) as (x & Ex & Rx & B). destruct (pr_ke _ _ _ R) as (T & v & D & M & N & K & Hd & Ty & Ov & Nm).
  pose proof (elem_key _ _ _ Hp) as Hk. destruct (pr_addr _ _ _ R p Hk) as [A1 A2]. pose proof (object_of_eq p A1 A2) as Oe.
  pose proof (KeObjPut_spec (ke st) T processSet v processType D M N (object_of p) x K S0) as Q. rewrite Rx in Q. rewrite decide_False in Q by done.
  destruct Q as [E K']; [rewrite Oe; unfold OFFSET_object; lia|rewrite Hd; by apply (list_elem_of_fmap_2 object_of)|exact Ex|exact Ty|by vm_compute|done|].
  unfold ThrPutProcess. rewrite E. cbn [bindO]. change (0 =? FREE_PROCESS) with false. eexists. split; [done|]. split; [|done]. destruct R. split; cbn [with_ke processList table nextPid asleep ke]; try done.
  - intros q b Hq. cbn [put_object with_objects objects]. destruct (decide (q = p)) as [->|Ne].
    + exists (with_refs (rf p - 1) x). rewrite lookup_insert_eq, fn_lookup_insert. split_and!; [done|done|lia..].
    + destruct (pr_refs0 q b Hq) as (y & Ey & Ry & By). exists y. rewrite fn_lookup_insert_ne by done. rewrite lookup_insert_ne; [done|]. intros Eo. apply Ne. symmetry.
      pose proof (elem_key _ _ _ Hq) as Hkq. destruct (pr_addr0 q Hkq). rewrite (object_of_eq q) in Eo by done. lia.
  - by exists T, v, D, M, N.
Qed.


(** A process leaves; its parent has one child less. *)
Lemma proc_ok_remove A p q a P : proc_ok A q a P -> proc_ok (remove_p p A) q a (if decide (p ∈ kids q A) then with_pchildren (filter (fun x => x <> p) (pchildren P)) P else P).
Proof.
  intros (H1 & H2 & H3). assert (E : pid (if decide (p ∈ kids q A) then with_pchildren (filter (fun x => x <> p) (pchildren P)) P else P) = pid P) by (by case_decide).
  split; [by rewrite E|]. split; [by case_decide|]. rewrite kids_remove.
  assert (F : p ∉ kids q A -> filter (fun x => x <> p) (kids q A) = kids q A). { intros Hn. apply filter_keeps. intros x Hx ->. done. }
  destruct (astat a); case_decide as D; cbn [with_pchildren state exitCode pchildren].
  - destruct H3 as [H3 ->]. done.
  - by rewrite F.
  - destruct H3 as (H3 & H4 & H5). split_and!; [done|done|]. intros x [Nx Hx]%list_elem_of_filter. apply list_elem_of_filter. auto.
  - by rewrite F.
  - destruct H3 as (H3 & H4 & H5). by rewrite H5.
  - by rewrite F.
  - destruct H3 as (H3 & H5). by rewrite H5.
  - by rewrite F.
Qed.

(** The last reference. *)
Lemma put_free rf st A p a : prep rf st A -> (p, a) ∈ A -> rf p = 1 -> kids p A = [] ->
  exists st', ThrPutProcess p st = Ret st' /\ prep rf st' (remove_p p A) /\ log st' = log st /\ nextPid st' = nextPid st /\ tree_of st' ⊆ tree_of st /\ table st' !! p = None.
Proof.
  intros R Hp N1 Kp. destruct (pr_refs _ _ _ R p a Hp) as (x & Ex & Rx & B). destruct (pr_ke _ _ _ R) as (T & v & D & M & N & K & Hd & Ty & Ov & Nm).
  pose proof (elem_key _ _ _ Hp) as Hk. destruct (pr_addr _ _ _ R p Hk) as [A1 A2]. pose proof (object_of_eq p A1 A2) as Oe.
  pose proof (KeObjPut_spec (ke st) T processSet v processType D M N (object_of p) x K S0) as Q. rewrite Rx, N1 in Q. rewrite decide_True in Q by done.
  destruct Q as (f & T' & E & K' & Dm); [rewrite Oe; unfold OFFSET_object; lia|rewrite Hd; by apply (list_elem_of_fmap_2 object_of)|exact Ex|exact Ty|by vm_compute|lia|].
  unfold ThrPutProcess. rewrite E. cbn [bindO]. change (release processType =? FREE_PROCESS) with true. set (k := with_sets _ _) in *. unfold ThrFreeProcess, get_process. cbn [with_ke table].
  destruct (pr_proc _ _ _ R p a Hp) as (P & EP & H1 & H2 & H3). rewrite EP. cbn [of_option bindO]. rewrite H2.
  assert (Par : exists tb, (if default 0 (apar a) =? 0 then Ret (with_ke k st)
      else let* C := of_option (table st !! default 0 (apar a)) in
        if bool_decide (p ∈ pchildren C) then upd_process (default 0 (apar a)) (fun C => with_pchildren (filter (fun x => x <> p) (pchildren C)) C) (with_ke k st) else Fault)
      = Ret (with_table tb (with_ke k st))
    /\ forall q b Q, (q, b) ∈ A -> table st !! q = Some Q -> tb !! q = Some (if decide (p ∈ kids q A) then with_pchildren (filter (fun x => x <> p) (pchildren Q)) Q else Q)).
  { destruct (apar a) as [r|] eqn:Ar.
    - change (default 0 (Some r)) with r. destruct (pr_par _ _ _ R p a r Hp Ar) as (b & Hb & Lb). destruct (pr_addr _ _ _ R r (elem_key _ _ _ Hb)). rewrite (proj2 (Z.eqb_neq r 0)) by lia.
      destruct (pr_proc _ _ _ R r b Hb) as (C & EC & C1 & C2 & C3). rewrite EC. cbn [of_option bindO]. assert (Hkid : p ∈ kids r A) by (apply kids_in; by exists a).
      assert (Hc : p ∈ pchildren C) by (unfold live in Lb; destruct (astat b); [by destruct C3 as [_ ->]|by apply C3|done..]). rewrite bool_decide_eq_true_2 by done.
      unfold upd_process, get_process. cbn [with_ke table]. rewrite EC. cbn [of_option bindO]. eexists. split; [done|]. intros q c Q Hq EQ. destruct (decide (q = r)) as [->|Nq].
      + rewrite lookup_insert_eq, decide_True by done. congruence.
      + rewrite lookup_insert_ne, decide_False; [done| |done]. intros (a' & Ha' & Ea')%kids_in. assert (a' = a) as -> by (eapply key_unique; [apply (pr_nodup _ _ _ R)|done..]). congruence.
    - exists (table st). split; [by destruct st|]. intros q c Q Hq EQ. rewrite decide_False; [done|]. intros (a' & Ha' & Ea')%kids_in.
      assert (a' = a) as -> by (eapply key_unique; [apply (pr_nodup _ _ _ R)|done..]). congruence. }
  destruct Par as (tb & -> & Tb). cbn [bindO with_table processList with_ke]. rewrite (pr_list _ _ _ R), bool_decide_eq_true_2 by done. eexists. split; [done|].
  split; [|split_and!; [done|done|exact Dm|apply lookup_delete_eq]].
  destruct R. split; cbn [cache_free with_table with_list with_ke processList table nextPid asleep ke].
  - by rewrite remove_p_keys.
  - rewrite remove_p_keys. by apply NoDup_filter.
  - intros q b [Hq Nq]%remove_p_in. destruct (pr_proc0 q b Hq) as (Q & EQ & Qok). rewrite lookup_delete_ne by done. eexists. split; [by eapply Tb|]. by apply proc_ok_remove.
  - intros q b r [Hq Nq]%remove_p_in Er. destruct (pr_par0 q b r Hq Er) as (c & Hc & Lc). exists c. split; [|done]. apply remove_p_in. split; [done|]. intros ->. by destruct (kids_none A p q b Kp Hq).
  - intros q b [Hq _]%remove_p_in. exact (pr_self0 q b Hq).
  - intros q. rewrite remove_p_keys. intros [_ Hq]%list_elem_of_filter. auto.
  - intros q b [Hq _]%remove_p_in. exact (pr_pid0 q b Hq).
  - intros q b q' b' [Hq _]%remove_p_in [Hq' _]%remove_p_in. by apply (pr_pids0 q b q' b').
  - done.
  - intros q b [Hq Nq]%remove_p_in. destruct (pr_refs0 q b Hq) as (y & Ey & Ry & By). exists y. split; [|by split]. unfold k. cbn [with_sets with_fs put_object with_objects objects].
    rewrite lookup_insert_ne; [done|]. intros Eo. apply Nq. symmetry. pose proof (elem_key _ _ _ Hq) as Hkq. destruct (pr_addr0 q Hkq). rewrite Oe, (object_of_eq q) in Eo by done. lia.
  - exists T', (with_head (filter (fun y => y <> object_of p) (head v)) v), D, (filter (fun kc => kc.2 <> odir x) M), (delete (object_of p) N). split; [exact K'|]. cbn [with_head head stype object].
    assert (Inj : forall q, q ∈ A.*1 -> object_of q = object_of p -> q = p).
    { intros q Hq Eo. destruct (pr_addr0 q Hq). rewrite Oe, (object_of_eq q) in Eo by done. lia. }
    split_and!; [|done|done|].
    + rewrite Hd, remove_p_keys. clear -Inj. induction (A.*1) as [|q l IH]; [done|]. cbn [map]. rewrite !filter_cons. destruct (decide (q <> p)) as [Nq|Nq].
      * rewrite decide_True by (intros E; apply Nq, Inj; [left|done]). cbn [map]. f_equal. apply IH. intros q' Hq'. apply Inj. by right.
      * apply dec_stable in Nq as ->. rewrite decide_False by tauto. apply IH. intros q' Hq'. apply Inj. by right.
    + intros q b [Hq Nq]%remove_p_in. rewrite lookup_delete_ne; [by apply Nm|]. intros Eo. apply Nq. apply Inj; [by eapply elem_key|done].
Qed.

(** One process changes, not its number and not its parent. *)
Lemma upd_stat rf st A p a f P' : prep rf st A -> (p, a) ∈ A -> (forall b, apid (f b) = apid b /\ apar (f b) = apar b) ->
  proc_ok A p (f a) P' -> live (f a) = true \/ kids p A = [] ->
  prep rf (with_table (<[p := P']> (table st)) st) (update_p p f A).
Proof.
  intros R Hp Hf Ok Lv. assert (Kid : forall q, kids q (update_p p f A) = kids q A) by (intros q; apply kids_update; intros b; apply Hf). pose proof (pr_nodup _ _ _ R) as Nd.
  assert (Inv : forall q b, (q, b) ∈ update_p p f A -> exists b0, (q, b0) ∈ A /\ apid b = apid b0 /\ apar b = apar b0).
  { intros q b (b0 & Hb & ->)%update_p_in. exists b0. destruct (q =? p); [|done]. destruct (Hf b0). done. }
  destruct R. split; rewrite ?update_p_keys; cbn [with_table processList table nextPid asleep ke]; try done.
  - intros q b (b0 & Hb & ->)%update_p_in. unfold proc_ok. rewrite Kid. destruct (Z.eqb_spec q p) as [->|Ne].
    + assert (b0 = a) as -> by by eapply key_unique. exists P'. split; [apply lookup_insert_eq|exact Ok].
    + destruct (pr_proc0 q b0 Hb) as (Q & EQ & Qok). exists Q. by rewrite lookup_insert_ne.
  - intros q b r Hq Er. destruct (Inv q b Hq) as (b0 & Hb & _ & E2). rewrite E2 in Er. destruct (pr_par0 q b0 r Hb Er) as (c & Hc & Lc).
    exists (if r =? p then f c else c). split; [apply update_p_in; by exists c|]. destruct (Z.eqb_spec r p) as [->|]; [|done]. assert (c = a) as -> by by eapply key_unique.
    destruct Lv as [?|Kn]; [done|]. by destruct (kids_none A p q b0 Kn Hb).
  - intros q b Hq. destruct (Inv q b Hq) as (b0 & Hb & _ & ->). by apply pr_self0.
  - intros q b Hq. destruct (Inv q b Hq) as (b0 & Hb & -> & _). exact (pr_pid0 q b0 Hb).
  - intros q b q' b' Hq Hq'. destruct (Inv q b Hq) as (b0 & Hb & -> & _), (Inv q' b' Hq') as (b1 & Hb1 & -> & _). by apply pr_pids0.
  - intros q b Hq. destruct (Inv q b Hq) as (b0 & Hb & _). exact (pr_refs0 q b0 Hb).
  - destruct pr_ke0 as (T & v & D & M & N & K & Hd & Ty & Ov & Nm). exists T, v, D, M, N. split_and!; try done. intros q b Hq. destruct (Inv q b Hq) as (b0 & Hb & -> & _). by apply Nm.
Qed.

(** A process loses a parent that exits. *)
Lemma orphan_prep rf st A p a P r b c : prep rf st A -> (p, a) ∈ A -> table st !! p = Some P -> apar a = Some r -> (r, b) ∈ A -> astat b = Exiting c ->
  prep rf (with_table (<[p := with_pparent 0 P]> (table st)) st) (update_p p orphan A).
Proof.
  intros R Hp EP Ar Hr Er. pose proof (pr_nodup _ _ _ R) as Nd.
  assert (Inv : forall q d, (q, d) ∈ update_p p orphan A -> exists d0, (q, d0) ∈ A /\ apid d = apid d0 /\ (q <> p -> d = d0) /\ (q = p -> d = orphan d0)).
  { intros q d (d0 & Hd & ->)%update_p_in. exists d0. by destruct (Z.eqb_spec q p). }
  assert (Kid : forall q, q <> r -> kids q (update_p p orphan A) = kids q A).
  { intros q Nq. rewrite kids_orphan. apply filter_keeps. intros x (a' & Ha' & Ea')%kids_in ->. assert (a' = a) as -> by by eapply key_unique. congruence. }
  assert (Ok : forall q d Q, (q, d) ∈ A -> proc_ok A q d Q -> proc_ok (update_p p orphan A) q d Q).
  { intros q d Q Hq (H1 & H2 & H3). split; [done|]. split; [done|]. destruct (decide (q = r)) as [->|Nq]; [|by rewrite Kid].
    assert (d = b) as -> by by eapply key_unique. rewrite Er in *. destruct H3 as (H3 & H4 & H5). split_and!; [done|done|]. rewrite kids_orphan. intros x [_ Hx]%list_elem_of_filter. auto. }
  pose proof (pr_self _ _ _ R p a Hp) as Self. rewrite Ar in Self. assert (Npr : p <> r) by congruence.
  destruct R. split; rewrite ?update_p_keys; cbn [with_table processList table nextPid asleep ke]; try done.
  - intros q d Hq. destruct (Inv q d Hq) as (d0 & Hd & _ & I1 & I2). destruct (decide (q = p)) as [->|Nq].
    + rewrite (I2 eq_refl). assert (d0 = a) as -> by by eapply key_unique. destruct (pr_proc0 p a Hp) as (P1 & EP1 & Pok). assert (P1 = P) as -> by congruence.
      eexists. split; [apply lookup_insert_eq|]. destruct (Ok p a P Hp Pok) as (H1 & H2 & H3). by split_and!.
    + rewrite (I1 Nq). destruct (pr_proc0 q d0 Hd) as (Q & EQ & Qok). exists Q. rewrite lookup_insert_ne by done. split; [done|]. by apply Ok.
  - intros q d r' Hq Er'. destruct (Inv q d Hq) as (d0 & Hd & _ & I1 & I2). destruct (decide (q = p)) as [->|Nq]; [by rewrite (I2 eq_refl) in Er'|].
    rewrite (I1 Nq) in Er'. destruct (pr_par0 q d0 r' Hd Er') as (e & He & Le). exists (if r' =? p then orphan e else e). split; [apply update_p_in; by exists e|]. by destruct (r' =? p).
  - intros q d Hq. destruct (Inv q d Hq) as (d0 & Hd & _ & I1 & I2). destruct (decide (q = p)) as [->|Nq]; [by rewrite (I2 eq_refl)|]. rewrite (I1 Nq). by apply pr_self0.
  - intros q d Hq. destruct (Inv q d Hq) as (d0 & Hd & -> & _). exact (pr_pid0 q d0 Hd).
  - intros q d q' d' Hq Hq'. destruct (Inv q d Hq) as (d0 & Hd & -> & _), (Inv q' d' Hq') as (d1 & Hd1 & -> & _). by apply pr_pids0.
  - intros q d Hq. destruct (Inv q d Hq) as (d0 & Hd & _). exact (pr_refs0 q d0 Hd).
  - destruct pr_ke0 as (T & v & D & M & N & K & Hd & Ty & Ov & Nm). exists T, v, D, M, N. split_and!; try done. intros q d Hq. destruct (Inv q d Hq) as (d0 & Hd0 & -> & _). by apply Nm.
Qed.

Lemma counts_in A p a : NoDup A.*1 -> (p, a) ∈ A -> counts A p = ref_count a.
Proof. intros N H. unfold counts. by rewrite (lookup_p_in A p a). Qed.
Lemma prep_counts rf st A : prep rf st A -> (forall p a, (p, a) ∈ A -> rf p = ref_count a) -> prep (counts A) st A.
Proof.
  intros R E. eapply prep_ext; [|exact R]. intros p (a & Ha)%key_elem. rewrite (E p a Ha). apply counts_in; [apply (pr_nodup _ _ _ R)|done].
Qed.

(** A child can be abandoned when it does not exit at the moment. *)
Definition settled_proc (a : aproc) : Prop := match astat a with Exiting _ => False | _ => True end.
Lemma dead_kids A p a P : proc_ok A p a P -> settled_proc a -> live a = false -> kids p A = [].
Proof. intros (_ & _ & H). unfold settled_proc, live. destruct (astat a); try done; intros; by apply H. Qed.

(** The children that have exited: nobody holds them but their parent. *)
Definition is_dead (A : aprocs) (x : Z) : bool := match lookup_p x A with Some a => negb (live a) | None => false end.
Lemma is_dead_in A x a : NoDup A.*1 -> (x, a) ∈ A -> is_dead A x = negb (live a).
Proof. intros N H. unfold is_dead. by rewrite (lookup_p_in A x a). Qed.
Lemma dead_same A B l : (forall y, y ∈ l -> is_dead A y = is_dead B y) -> List.filter (is_dead A) l = List.filter (is_dead B) l.
Proof. intros H. apply filter_ext_in. intros y Hy. by apply H, list_elem_of_In. Qed.
Lemma prep_stale rf st A l : prep rf st A -> prep rf (with_stale l st) A.
Proof. intros []. by split. Qed.

Lemma abandon_spec r b c l : forall st A, prep (counts A) st A -> NoDup l -> (r, b) ∈ A -> astat b = Exiting c ->
  (forall x, x ∈ l -> exists a, (x, a) ∈ A /\ apar a = Some r /\ x <> r /\ settled_proc a) ->
  exists st', abandon l st = Ret st' /\ prep (counts (abandoned l A)) st' (abandoned l A)
    /\ log st' = (asleep st, stale st ++ List.filter (is_dead A) l) /\ nextPid st' = nextPid st /\ tree_of st' ⊆ tree_of st.
Proof.
  induction l as [|x l IH]; intros st A R Nl Hr Er Hl; cbn [abandon]; [exists st; cbn [List.filter]; by rewrite abandoned_nil, app_nil_r|].
  apply NoDup_cons in Nl as [Nx Nl]. destruct (Hl x ltac:(left)) as (a & Ha & Ea & Nxr & Sa). pose proof (pr_nodup _ _ _ R) as Nd.
  pose proof (counts_in A x a Nd Ha) as Cx.
  assert (Ix : is_dead A x = negb (live a)) by by apply is_dead_in. cbn [List.filter]. rewrite Ix. destruct (pr_proc _ _ _ R x a Ha) as (P & EP & Pok). destruct (live a) eqn:La.
  - destruct (put_live _ _ _ x a R Ha) as (st1 & E1 & R1 & T1 & S1 & N1 & D1); [rewrite Cx; unfold ref_count; rewrite La, Ea; lia|]. rewrite E1. cbn [bindO]. rewrite T1, EP.
    rewrite <- T1 in EP. rewrite <- T1. pose proof (orphan_prep _ _ _ x a P r b c R1 Ha EP Ea Hr Er) as R2. apply prep_counts in R2.
    + rewrite (abandoned_orphan x l A a) by done. destruct (IH _ _ R2) as (st' & E & R' & S' & N' & D'); [done| |done| |].
      * apply update_p_in. exists b. by rewrite (proj2 (Z.eqb_neq r x)) by congruence.
      * intros y Hy. destruct (Hl y ltac:(by right)) as (a' & Ha' & Q). exists a'. split; [|done]. apply update_p_in. exists a'. by rewrite (proj2 (Z.eqb_neq y x)) by (intros ->; done).
      * exists st'. split; [exact E|]. rewrite S'. cbn [negb with_table asleep stale nextPid] in *. rewrite (dead_same A (update_p x orphan A)), N', N1.
        2: { intros y Hy. destruct (Hl y ltac:(by right)) as (a' & Ha' & _). rewrite (is_dead_in A y a'), (is_dead_in _ y a'); [done|by rewrite update_p_keys| |done|done]. apply update_p_in. exists a'. by rewrite (proj2 (Z.eqb_neq y x)) by (intros ->; done). }
        injection S1 as -> ->. split_and!; [exact R'|done|done|]. unfold tree_of in *. cbn [with_table ke] in *. by rewrite D' , D1.
    + intros q d (d0 & Hd & ->)%update_p_in. destruct (Z.eqb_spec q x) as [->|Nq].
      * rewrite fn_lookup_insert. assert (d0 = a) as -> by by eapply key_unique. rewrite Cx. unfold ref_count. cbn [orphan apar]. rewrite Ea. change (live (orphan a)) with (live a). lia.
      * rewrite fn_lookup_insert_ne by done. by apply counts_in.
  - destruct (put_free _ _ _ x a R Ha) as (st1 & E1 & R1 & S1 & N1 & D1 & T1); [rewrite Cx; unfold ref_count; by rewrite La, Ea|by eapply dead_kids|]. rewrite E1. cbn [bindO]. rewrite T1.
    apply prep_counts in R1; [apply (prep_stale _ _ _ (stale st1 ++ [x])) in R1|].
    + rewrite (abandoned_remove x l A a) by done. destruct (IH _ _ R1) as (st' & E & R' & S' & N' & D'); [done| |done| |].
      * by apply remove_p_in.
      * intros y Hy. destruct (Hl y ltac:(by right)) as (a' & Ha' & Q). exists a'. split; [|done]. apply remove_p_in. split; [done|]. intros ->. done.
      * exists st'. split; [exact E|]. rewrite S'. cbn [negb with_stale asleep stale nextPid] in *. rewrite (dead_same A (remove_p x A)), N', N1.
        2: { intros y Hy. destruct (Hl y ltac:(by right)) as (a' & Ha' & _). rewrite (is_dead_in A y a'), (is_dead_in _ y a'); [done| | |done|done].
             - rewrite remove_p_keys. by apply NoDup_filter.
             - apply remove_p_in. split; [done|]. intros ->. done. }
        injection S1 as -> ->. split_and!; [exact R'|by rewrite <- app_assoc|done|]. by etrans.
    + intros q d [Hd Nq]%remove_p_in. by apply counts_in.
Qed.

(** Between two calls no process exits. *)
Definition settled (A : aprocs) : Prop := forall p a, (p, a) ∈ A -> settled_proc a.


(** The end of the own reference of a process that has no children. *)
Lemma end_own st A p a s P : prep (counts A) st A -> (p, a) ∈ A -> live a = true -> kids p A = [] -> live (set_stat s a) = false -> table st !! p = Some P ->
  proc_ok A p (set_stat s a) P ->
  exists st', ThrPutProcess p st = Ret st' /\ prep (counts (end_as s p A)) st' (end_as s p A) /\ log st' = log st /\ nextPid st' = nextPid st /\ tree_of st' ⊆ tree_of st.
Proof.
  intros R Hp La Kp Ls EP Ok. pose proof (pr_nodup _ _ _ R) as Nd. pose proof (counts_in A p a Nd Hp) as Cp. unfold end_as. rewrite (lookup_p_in A p a Nd Hp). destruct (apar a) as [r|] eqn:Ar.
  - destruct (put_live _ _ _ p a R Hp) as (st1 & E1 & R1 & T1 & S1 & N1 & D1); [rewrite Cp; unfold ref_count; rewrite La, Ar; lia|].
    pose proof (upd_stat _ _ _ p a (set_stat s) P R1 Hp) as R2. rewrite T1, insert_id in R2 by done. rewrite <- T1 in R2. replace (with_table (table st1) st1) with st1 in R2 by (by destruct st1).
    exists st1. split; [exact E1|]. split_and!; [|done|done|by rewrite D1]. apply (prep_counts (<[p:=counts A p - 1]> (counts A))).
    + apply R2; [done|exact Ok|by right].
    + intros q d (d0 & Hd & ->)%update_p_in. destruct (Z.eqb_spec q p) as [->|Nq].
      * rewrite fn_lookup_insert. assert (d0 = a) as -> by by eapply key_unique. rewrite Cp. unfold ref_count. rewrite Ls, La. cbn [set_stat apar]. lia.
      * rewrite fn_lookup_insert_ne by done. by apply counts_in.
  - destruct (put_free _ _ _ p a R Hp) as (st1 & E1 & R1 & S1 & N1 & D1 & T1); [rewrite Cp; unfold ref_count; by rewrite La, Ar|done|].
    exists st1. split; [exact E1|]. split_and!; try done. apply (prep_counts _ _ _ R1). intros q d [Hd Nq]%remove_p_in. by apply counts_in.
Qed.

Lemma end_as_update s p f (A : aprocs) : NoDup A.*1 -> p ∈ A.*1 -> (forall a, apar (f a) = apar a) -> (forall a, set_stat s (f a) = set_stat s a) -> end_as s p (update_p p f A) = end_as s p A.
Proof.
  intros N (a & Ha)%key_elem Hf Hs. unfold end_as. rewrite (lookup_p_in A p a N Ha), (lookup_p_in (update_p p f A) p (f a)).
  - rewrite Hf. destruct (apar a); [|apply remove_update]. rewrite update_update. unfold update_p. apply map_ext. intros [q b]. cbn [fst snd]. by rewrite Hs.
  - by rewrite update_p_keys.
  - apply update_p_in. exists a. by rewrite Z.eqb_refl.
Qed.

(** The steps of an exit. *)
Lemma exit_steps st A current a code : prep (counts A) st A -> settled A -> (current, a) ∈ A -> astat a = Running ->
  exists st0 st1 P1 st', upd_process current (with_exit THR_DYING code) st = Ret st0 /\ ThrRelativeAlert current st0 = Ret st1
    /\ table st1 !! current = Some P1 /\ pparent P1 = default 0 (apar a) /\ ThrPutProcess current st1 = Ret st'
    /\ prep (counts (exit_spec current code A)) st' (exit_spec current code A)
    /\ log st' = (match apar a with Some r => asleep st ∖ {[r]} | None => asleep st end, stale st ++ List.filter (is_dead A) (kids current A)) /\ nextPid st' = nextPid st /\ tree_of st' ⊆ tree_of st.
Proof.
  intros R Se Hc Ra. pose proof (pr_nodup _ _ _ R) as Nd. destruct (pr_proc _ _ _ R current a Hc) as (P & EP & H1 & H2 & H3). rewrite Ra in H3. destruct H3 as [H3 H4].
  set (mark := set_stat (Exiting code)). set (A0 := update_p current mark A). set (P0 := with_exit THR_DYING code P).
  assert (R0 : prep (counts A0) (with_table (<[current := P0]> (table st)) st) A0).
  { apply (prep_counts (counts A)).
    - apply (upd_stat _ _ _ current a mark P0 R Hc); [done| |by left]. split_and!; [done|done|]. cbn. split_and!; [done|done|]. by rewrite H4.
    - intros q d (d0 & Hd & ->)%update_p_in. rewrite (counts_in A q d0 Nd Hd). destruct (Z.eqb_spec q current) as [->|]; [|done]. assert (d0 = a) as -> by by eapply key_unique.
      unfold ref_count, live. by rewrite Ra. }
  set (st0 := with_table (<[current := P0]> (table st)) st) in *. exists st0. assert (E0 : upd_process current (with_exit THR_DYING code) st = Ret st0) by (unfold upd_process, get_process; by rewrite EP).
  unfold ThrRelativeAlert, get_process. rewrite (lookup_insert_eq (table st) current P0 : table st0 !! current = Some P0). cbn [of_option bindO]. change (pchildren P0) with (pchildren P). rewrite H4.
  assert (Hc0 : (current, mark a) ∈ A0) by (apply update_p_in; exists a; by rewrite Z.eqb_refl). assert (Nk : current ∉ kids current A) by (intros (b & Hb & Eb)%kids_in; by apply (pr_self _ _ _ R) in Eb).
  destruct (abandon_spec current (mark a) code (kids current A) _ A0 R0) as (st1 & E1 & R1 & S1 & N1 & D1); [by apply kids_nodup|done|done| |].
  { intros x (b & Hb & Eb)%kids_in. assert (Nx : x <> current) by (intros ->; by apply (pr_self _ _ _ R) in Eb). exists b. split; [|split_and!; [done|done|by eapply Se]].
    apply update_p_in. exists b. by rewrite (proj2 (Z.eqb_neq _ _) Nx). }
  assert (Same : List.filter (is_dead A0) (kids current A) = List.filter (is_dead A) (kids current A)).
  { apply dead_same. intros y (b & Hb & Eb)%kids_in. rewrite (is_dead_in A y b) by done. apply is_dead_in; [by unfold A0; rewrite update_p_keys|]. apply update_p_in. exists b.
    by rewrite (proj2 (Z.eqb_neq y current)) by (intros ->; by apply (pr_self _ _ _ R) in Eb). }
  rewrite E1. cbn [bindO]. assert (Ak : abandoned (kids current A) A0 = update_p current mark (abandoned (kids current A) A)) by by apply abandoned_update. set (A1 := abandoned (kids current A) A) in *.
  assert (Hc1 : (current, a) ∈ A1) by (apply abandoned_in; by left). assert (Hc2 : (current, mark a) ∈ abandoned (kids current A) A0) by (rewrite Ak; apply update_p_in; exists a; by rewrite Z.eqb_refl).
  destruct (pr_proc _ _ _ R1 current (mark a) Hc2) as (P1 & EP1 & Q1 & Q2 & Q3). rewrite EP1. cbn [of_option bindO]. rewrite Q2. change (apar (mark a)) with (apar a).
  set (sl := match apar a with Some r => asleep st1 ∖ {[r]} | None => asleep st1 end).
  assert (Wk : (if default 0 (apar a) =? 0 then Ret st1 else let* _ := of_option (table st1 !! default 0 (apar a)) in Ret (with_asleep (asleep st1 ∖ {[default 0 (apar a)]}) st1)) = Ret (with_asleep sl st1)).
  { unfold sl. destruct (apar a) as [r|] eqn:Ar; [|by destruct st1]. change (default 0 (Some r)) with r. destruct (pr_par _ _ _ R1 current (mark a) r Hc2 Ar) as (b & Hb & _).
    destruct (pr_addr _ _ _ R1 r (elem_key _ _ _ Hb)). rewrite (proj2 (Z.eqb_neq r 0)) by lia. destruct (pr_proc _ _ _ R1 r b Hb) as (C & -> & _). done. }
  rewrite Wk. cbn [bindO]. pose proof (abandoned_keys (kids current A) A Nd) as Nd1. fold A1 in Nd1.
  assert (R2 : prep (counts (abandoned (kids current A) A0)) (with_asleep sl st1) (abandoned (kids current A) A0)) by (destruct R1; by split).
  assert (Kc : kids current (abandoned (kids current A) A0) = []) by (rewrite Ak, kids_update by done; by apply abandoned_kids).
  destruct (end_own _ _ current (mark a) (Exited code) P1 R2 Hc2) as (st' & E' & R' & S' & N' & D'); [done|done|done|exact EP1| |].
  { split_and!; [done|done|]. cbn. destruct Q3 as (Q3 & Q4 & _). by split_and!. }
  exists (with_asleep sl st1), P1, st'. rewrite Ak, end_as_update in R'; [|done|by eapply elem_key|done|done]. split_and!; [exact E0|reflexivity|exact EP1|exact Q2|exact E'|exact R'|rewrite S'; unfold log in *; injection S1 as Sa Ss; cbn [with_asleep asleep stale]; unfold sl; rewrite Sa, Ss; f_equal; f_equal; exact Same|by rewrite N'|].
  etrans; [exact D'|]. exact D1.
Qed.

Lemma process_exit_spec st A current a code : prep (counts A) st A -> settled A -> (current, a) ∈ A -> astat a = Running ->
  exists st', process_exit current code st = Ret st' /\ prep (counts (exit_spec current code A)) st' (exit_spec current code A)
    /\ log st' = (match apar a with Some r => asleep st ∖ {[r]} | None => asleep st end, stale st ++ List.filter (is_dead A) (kids current A)) /\ nextPid st' = nextPid st /\ tree_of st' ⊆ tree_of st.
Proof.
  intros R Se Hc Ra. destruct (exit_steps st A current a code R Se Hc Ra) as (st0 & st1 & P1 & st' & E0 & E1 & _ & _ & E' & Q). exists st'. split; [|exact Q].
  unfold process_exit. rewrite E0. cbn [bindO]. rewrite E1. exact E'.
Qed.

(** *** Waiting *)

Lemma wait_scan_spec st A i cs b : (forall q a, (q, a) ∈ cs -> settled_proc a /\ exists P, table st !! q = Some P /\ proc_ok A q a P) ->
  wait_scan i cs.*1 b st = Ret match List.find (fun qa => meant i qa.2 && has_exited qa.2) cs with
                             | Some qa => (Some qa.1, true)
                             | None => (None, b || existsb (fun qa => meant i qa.2) cs)
                             end.
Proof.
  revert b. induction cs as [|[q a] cs IH]; intros b H; cbn [fmap list_fmap fst wait_scan List.find existsb snd]; [by rewrite orb_false_r|].
  destruct (H q a ltac:(left)) as (Se & P & EP & H1 & H2 & H3). unfold get_process. rewrite EP. cbn [of_option bindO]. rewrite H1.
  assert (Mt : meant i a = negb ((0 <=? i) && negb (apid a =? i))) by (unfold meant; destruct (Z.ltb_spec i 0), (Z.leb_spec 0 i); try lia; by destruct (apid a =? i)).
  rewrite Mt. destruct ((0 <=? i) && negb (apid a =? i)); cbn [negb andb orb]; [apply IH; intros; apply H; by right|].
  assert (Ex : (state P =? THR_DYING) = has_exited a).
  { unfold has_exited, settled_proc in *. destruct (astat a); [by destruct H3 as [-> _]|done|by destruct H3 as [-> _]|by destruct H3 as [-> _]]. }
  rewrite Ex. destruct (has_exited a); [done|]. rewrite IH by (intros; apply H; by right). by rewrite orb_true_r.
Qed.

Lemma SysWaitForProcessFinish_spec st A current c i fs : prep (counts A) st A -> settled A -> (current, c) ∈ A -> astat c = Running ->
  exists st', SysWaitForProcessFinish current i fs 0 st = Ret ((wait_spec current i fs A).1, st')
    /\ prep (counts (wait_spec current i fs A).2) st' (wait_spec current i fs A).2 /\ log st' = log st /\ nextPid st' = nextPid st /\ tree_of st' ⊆ tree_of st.
Proof.
  intros R Se Hc Rc. pose proof (pr_nodup _ _ _ R) as Nd. destruct (pr_proc _ _ _ R current c Hc) as (C & EC & _ & _ & H3). rewrite Rc in H3. destruct H3 as [_ Kc].
  unfold SysWaitForProcessFinish, get_process. rewrite andb_false_r, EC. cbn [of_option bindO]. rewrite Kc. unfold kids. fold (child_list current A).
  assert (Sub : forall q a, (q, a) ∈ child_list current A -> (q, a) ∈ A /\ apar a = Some current) by (intros q a [? ?]%list_elem_of_filter; done).
  rewrite (wait_scan_spec st A) by (intros q a [Hq _]%Sub; split; [by eapply Se|by apply (pr_proc _ _ _ R)]). cbn [bindO]. unfold wait_spec.
  destruct (List.find _ _) as [[q a]|] eqn:F; cbn [fst orb]; [|destruct (existsb _ _); by exists st].
  apply find_some in F as [Hq [_ Ex]%andb_prop]. apply list_elem_of_In, Sub in Hq as [Hq Eq]. destruct (pr_proc _ _ _ R q a Hq) as (P & EP & Pok). rewrite EP. cbn [of_option bindO].
  destruct (astat a) as [| |code|] eqn:Sa; cbn [snd] in Ex; unfold has_exited in Ex; rewrite Sa in Ex; try done. pose proof Pok as (H1 & _ & H3). rewrite Sa in H3. destruct H3 as (_ & Ec & Kq).
  destruct (put_free _ _ _ q a R Hq) as (st' & E' & R' & S' & N' & D' & _); [rewrite (counts_in A q a Nd Hq); unfold ref_count, live; by rewrite Sa, Eq|done|].
  rewrite E'. cbn [bindO fst snd]. exists st'. pose proof (pr_pid _ _ _ R q a Hq). pose proof (pr_next _ _ _ R). rewrite H1, Ec, s32_id by lia. split_and!; try done.
  apply (prep_counts _ _ _ R'). intros x d [Hd Nx]%remove_p_in. by apply counts_in.
Qed.

(** *** Making a process *)

(** Only the processes of the list count. *)
Lemma prep_frame rf st st' A : prep rf st A -> processList st' = processList st -> (forall p, p ∈ A.*1 -> table st' !! p = table st !! p) ->
  nextPid st <= nextPid st' < 2 ^ 31 -> (forall p, p ∈ A.*1 -> objects (ke st') !! object_of p = objects (ke st) !! object_of p) ->
  (exists T v D M N, ke_rep (ke st') T processSet v D M N /\ head v = map object_of A.*1 /\ stype v = Some processType /\ object v = setObject
    /\ forall p a, (p, a) ∈ A -> N !! object_of p = Some (decimal (apid a))) ->
  prep rf st' A.
Proof.
  intros [] El Et En Eo Ek. split; try done.
  - by rewrite El.
  - intros p a H. rewrite Et by (exact (elem_key _ _ _ H)). exact (pr_proc0 p a H).
  - intros p a H. specialize (pr_pid0 p a H). lia.
  - lia.
  - intros p a H. rewrite Eo by (exact (elem_key _ _ _ H)). exact (pr_refs0 p a H).
Qed.

Definition create_ok (U : gset Z) (m : gmap Z Z) (current : Z) (a : supply) (manager_ok : bool) (A : aprocs) (next : Z) : Prop :=
  s_process a = 0 \/
  (s_process a ∉ A.*1 /\ 0 < s_process a /\ s_process a + OFFSET_object < 2 ^ 32 /\ object_of (s_process a) <> setObject
   /\ (manager_ok = false \/
       (s_name a <> 0 /\ next + 1 < 2 ^ 31 /\ (current = 0 \/ exists c, (current, c) ∈ A /\ astat c = Running)
        /\ if s_text a && negb (s_dir a =? 0)
           then alloc_ok U (s_dir a) /\ allocs_ok ({[s_dir a]} ∪ U) 3 (s_attrs a) /\ attrs_load processAttributes (s_process a) m
           else current <> 0))).

(** The object of a new process. *)
Definition new_object : KeObject := {| oname := None; refs := 1; parent := processSet; odir := 0 |}.
Lemma constructor_ke p st : ke (ThrProcessConstructor processSet p st) = put_object (object_of p) new_object (ke st).
Proof.
  unfold ThrProcessConstructor, KeObjectInit, put_object, with_objects. cbn [with_ke with_table ke objects sets fs]. rewrite lookup_delete_eq.
  by rewrite insert_delete_eq.
Qed.

Lemma fresh_object rf st A p : prep rf st A -> p ∉ A.*1 -> 0 < p -> p + OFFSET_object < 2 ^ 32 -> object_of p ∉ map object_of A.*1 /\ forall q, q ∈ A.*1 -> object_of q <> object_of p.
Proof.
  intros R Hp P1 P2. assert (E : forall q, q ∈ A.*1 -> object_of q <> object_of p).
  { intros q Hq. destruct (pr_addr _ _ _ R q Hq). rewrite !object_of_eq by done. intros E. apply Hp. by replace p with q by lia. }
  split; [|done]. intros (q & E' & Hq)%list_elem_of_fmap. by apply (E q).
Qed.

(** The list of processes with a new one at the end. *)
Lemma append_prep st st' A current p P T v D M N : prep (counts A) st A -> settled A -> p ∉ A.*1 -> 0 < p -> p + OFFSET_object < 2 ^ 32 ->
  (current = 0 \/ exists c, (current, c) ∈ A /\ astat c = Running) -> nextPid st + 1 < 2 ^ 31 ->
  let a := {| apid := nextPid st; astat := Running; apar := if current =? 0 then None else Some current |} in
  processList st' = processList st ++ [p] -> nextPid st' = nextPid st + 1 -> table st' !! p = Some P ->
  pid P = nextPid st -> pparent P = current -> state P = THR_RUNNING -> pchildren P = [] ->
  (forall q Q, q ∈ A.*1 -> table st !! q = Some Q -> table st' !! q = Some (if q =? current then with_pchildren (pchildren Q ++ [p]) Q else Q)) ->
  (forall q, q ∈ A.*1 -> objects (ke st') !! object_of q = objects (ke st) !! object_of q) ->
  (exists x, objects (ke st') !! object_of p = Some x /\ refs x = ref_count a) ->
  ke_rep (ke st') T processSet v D M N -> head v = map object_of (A.*1 ++ [p]) -> stype v = Some processType -> object v = setObject ->
  (forall q b, (q, b) ∈ A ++ [(p, a)] -> N !! object_of q = Some (decimal (apid b))) ->
  prep (counts (A ++ [(p, a)])) st' (A ++ [(p, a)]).
Proof.
  intros R Se Hp P1 P2 Hc Nx a El En EP Q1 Q2 Q3 Q4 Et Eo Ex K Hd Ty Ov Nm. pose proof (pr_nodup _ _ _ R) as Nd. set (A' := A ++ [(p, a)]).
  assert (Kp : A'.*1 = A.*1 ++ [p]) by (unfold A'; by rewrite fmap_app). assert (Nd' : NoDup A'.*1).
  { rewrite Kp. apply NoDup_app. split_and!; [done|intros q Hq ->%list_elem_of_singleton; done|apply NoDup_singleton]. }
  assert (Cases : forall q b, (q, b) ∈ A' -> (q, b) ∈ A \/ (q = p /\ b = a)). { intros q b [H|[= -> ->]%list_elem_of_singleton]%elem_of_app; [by left|by right]. }
  assert (Np : forall q b, (q, b) ∈ A -> apar b <> Some p). { intros q b Hq Eq. destruct (pr_par _ _ _ R q b p Hq Eq) as (c & Hc' & _). by apply elem_key in Hc'. }
  assert (Kids : forall q, kids q A' = kids q A ++ (if (q =? current) && negb (current =? 0) then [p] else [])).
  { intros q. unfold A'. rewrite kids_app. f_equal. unfold kids. rewrite filter_cons, filter_nil. cbn [snd apar a]. destruct (Z.eqb_spec current 0) as [->|C0]; cbn [negb].
    - rewrite decide_False by done. by rewrite andb_false_r.
    - rewrite andb_true_r. destruct (Z.eqb_spec q current) as [->|Nq]; [by rewrite decide_True|by rewrite decide_False by congruence]. }
  assert (Pc : p <> current). { destruct Hc as [->|(c & Hc & _)]; [lia|intros ->; by apply elem_key in Hc]. }
  split; try done.
  - by rewrite El, Kp, (pr_list _ _ _ R).
  - intros q b [Hq|[-> ->]]%Cases.
    + destruct (pr_proc _ _ _ R q b Hq) as (Q & EQ & H1 & H2 & H3). eexists. split; [apply (Et q Q (elem_key _ _ _ Hq) EQ)|]. unfold proc_ok. rewrite Kids.
      assert (Q0 : q <> 0) by (destruct (pr_addr _ _ _ R q (elem_key _ _ _ Hq)); lia).
      destruct (Z.eqb_spec q current) as [->|Nq]; cbn [andb]; [|by rewrite app_nil_r]. rewrite (proj2 (Z.eqb_neq _ _) Q0). cbn [negb]. destruct Hc as [->|(c & Hc & Rc)]; [done|].
      pose proof (key_unique A current b c Nd Hq Hc) as ->. rewrite Rc in *. destruct H3 as [H3 H4]. cbn. rewrite H4. by split_and!.
    + exists P. split; [done|]. split_and!; [done| |]; cbn [a apar astat].
      * rewrite Q2. by destruct (Z.eqb_spec current 0) as [->|].
      * rewrite Kids, (proj2 (Z.eqb_neq _ _) Pc). cbn [andb]. rewrite app_nil_r. split; [done|]. rewrite Q4. destruct (kids p A) as [|q l] eqn:E; [done|]. exfalso.
        assert (Hq : q ∈ kids p A) by (rewrite E; left). apply kids_in in Hq as (b & Hb & Eb). exact (Np q b Hb Eb).
  - intros q b r [Hq|[-> ->]]%Cases Er.
    + destruct (pr_par _ _ _ R q b r Hq Er) as (c & Hc' & Lc). exists c. split; [|done]. apply elem_of_app. by left.
    + cbn [a apar] in Er. destruct (Z.eqb_spec current 0); [done|]. injection Er as <-. destruct Hc as [->|(c & Hc & Rc)]; [done|]. exists c. split; [apply elem_of_app; by left|]. unfold live. by rewrite Rc.
  - intros q b [Hq|[-> ->]]%Cases; [exact (pr_self _ _ _ R q b Hq)|]. cbn [a apar]. destruct (current =? 0); [done|]. congruence.
  - intros q. rewrite Kp. intros [Hq| ->%list_elem_of_singleton]%elem_of_app; [exact (pr_addr _ _ _ R q Hq)|done].
  - intros q b [Hq|[-> ->]]%Cases; rewrite En; [pose proof (pr_pid _ _ _ R q b Hq); lia|]. pose proof (pr_next _ _ _ R). cbn. lia.
  - intros q b q' b' [Hq|[-> ->]]%Cases [Hq'|[-> ->]]%Cases; cbn [a apid].
    + by apply (pr_pids _ _ _ R).
    + pose proof (pr_pid _ _ _ R q b Hq). lia.
    + pose proof (pr_pid _ _ _ R q' b' Hq'). lia.
    + done.
  - pose proof (pr_next _ _ _ R). lia.
  - intros q b Hq. rewrite (counts_in A' q b Nd' Hq). apply Cases in Hq as [Hq|[-> ->]].
    + destruct (pr_refs _ _ _ R q b Hq) as (x & Exq & Rx & B). exists x. rewrite Eo by by eapply (elem_key _ _ b). rewrite (counts_in A q b Nd Hq) in *. by split; [|split].
    + destruct Ex as (x & Ex & Rx). exists x. split_and!; [done|done|..]; unfold ref_count; cbn; destruct (current =? 0); lia.
  - exists T, v, D, M, N. rewrite Kp. by split_and!.
Qed.

Definition supply_set (a : supply) : gset Z := {[s_dir a]} ∪ list_to_set (s_attrs a).*1.
Lemma attributes_fit : attrs_fit processAttributes ∅.
Proof.
  cbn [attrs_fit processAttributes aname atype]. split_and!; [by repeat constructor|reflexivity|by right|]. intros p1. split_and!; [by repeat constructor|vm_compute; reflexivity|by left|].
  intros p2. split_and!; [by repeat constructor|vm_compute; reflexivity|by left|done].
Qed.

(** The table and the object of a new process before it is attached; [h] is
    what the state will be like for the others. *)
Lemma enter_spec st A current p : prep (counts A) st A -> p ∉ A.*1 -> 0 < p -> p + OFFSET_object < 2 ^ 32 -> object_of p <> setObject ->
  (current = 0 \/ exists c, (current, c) ∈ A /\ astat c = Running) ->
  let P := {| pid := u32 (nextPid st); state := THR_RUNNING; exitCode := 0; pparent := current; pchildren := [] |} in
  let st1 := with_table (<[p := P]> (table (ThrProcessConstructor processSet p st))) (with_next (s32 (nextPid st + 1)) (ThrProcessConstructor processSet p st)) in
  exists tb r, (if current =? 0 then Ret st1
     else let* (_, k) := KeObjGet (object_of p) (ke st1) in upd_process current (fun C => with_pchildren (pchildren C ++ [p]) C) (with_ke k st1))
    = Ret (with_ke (put_object (object_of p) (with_refs r new_object) (ke st)) (with_table tb st1))
  /\ r = (if current =? 0 then 1 else 2) /\ tb !! p = Some P
  /\ (forall q Q, q ∈ A.*1 -> table st !! q = Some Q -> tb !! q = Some (if q =? current then with_pchildren (pchildren Q ++ [p]) Q else Q)).
Proof.
  intros R Hp P1 P2 Os Hc P st1. assert (Ek : ke st1 = put_object (object_of p) new_object (ke st)) by apply constructor_ke.
  assert (Et : table st1 = <[p := P]> (table st)) by (unfold st1, ThrProcessConstructor; cbn; by rewrite insert_insert_eq).
  assert (Old : forall q Q, q ∈ A.*1 -> table st !! q = Some Q -> table st1 !! q = Some Q) by (intros q Q Hq EQ; rewrite Et, lookup_insert_ne by (intros ->; done); done).
  destruct (Z.eqb_spec current 0) as [->|C0].
  - exists (table st1), 1. split_and!; [|done|rewrite Et; apply lookup_insert_eq|].
    + change (with_refs 1 new_object) with new_object. rewrite <- Ek. by destruct st1.
    + intros q Q Hq EQ. destruct (pr_addr _ _ _ R q Hq). rewrite (proj2 (Z.eqb_neq q 0)) by lia. auto.
  - destruct Hc as [?|(c & Hc & Rc)]; [done|]. destruct (pr_proc _ _ _ R current c Hc) as (C & EC & _). pose proof (elem_key _ _ _ Hc) as Hk.
    unfold KeObjGet, get_object. rewrite Ek. assert (object_of p <> 0) as O0 by (rewrite object_of_eq by done; unfold OFFSET_object; lia). rewrite (proj2 (Z.eqb_neq _ _) O0).
    cbn [put_object with_objects objects]. rewrite lookup_insert_eq. cbn [of_option bindO]. unfold upd_process, get_process. cbn [with_ke table]. rewrite (Old current C Hk EC). cbn [of_option bindO].
    exists (<[current := with_pchildren (pchildren C ++ [p]) C]> (table st1)), 2. split_and!; [|done| |].
    + f_equal. unfold with_ke, with_table. cbn [processList nextPid asleep table ke]. f_equal. unfold put_object, with_objects. cbn [objects sets fs]. f_equal. by rewrite insert_insert_eq.
    + rewrite lookup_insert_ne by (intros ->; done). rewrite Et. apply lookup_insert_eq.
    + intros q Q Hq EQ. destruct (Z.eqb_spec q current) as [->|Nq].
      * rewrite lookup_insert_eq. congruence.
      * rewrite lookup_insert_ne by done. auto.
Qed.

(** The number of a new process is no name yet; a child that is taken back. *)
Lemma fresh_name rf st A n T v D M N : prep rf st A -> ke_rep (ke st) T processSet v D M N -> head v = map object_of A.*1 ->
  (forall p a, (p, a) ∈ A -> N !! object_of p = Some (decimal (apid a))) -> nextPid st <= n < 2 ^ 31 ->
  (forall o' n', N !! o' = Some n' -> up n' <> up (decimal n)) /\ M !! up (decimal n) = None.
Proof.
  intros R K Hd Nm Hn. assert (Un : forall o' n', N !! o' = Some n' -> up n' <> up (decimal n)).
  { intros o' n' Ho E. pose proof (k_names _ _ _ _ _ _ _ K _ _ Ho) as Hh. rewrite Hd in Hh. apply list_elem_of_fmap in Hh as (q & -> & (b & Hb)%key_elem). pose proof (Nm q b Hb) as Nb.
    assert (n' = decimal (apid b)) as -> by congruence. pose proof (pr_pid _ _ _ R q b Hb). apply decimal_inj in E; lia. }
  split; [exact Un|]. destruct (M !! up (decimal n)) as [e|] eqn:E; [|done]. destruct (k_map _ _ _ _ _ _ _ K _ _ E) as (o' & n' & Ho & En). by destruct (Un o' n' Ho).
Qed.
Lemma kids_undo rf st A current c C p : prep rf st A -> (current, c) ∈ A -> astat c = Running -> table st !! current = Some C -> p ∉ A.*1 ->
  filter (fun x => x <> p) (pchildren C ++ [p]) = pchildren C.
Proof.
  intros R Hc Rc EC Hp. rewrite filter_app, (filter_cons _ p), decide_False by tauto. rewrite filter_nil, app_nil_r. apply filter_keeps. intros x Hx ->.
  destruct (pr_proc _ _ _ R current c Hc) as (C' & EC' & _ & _ & H3). assert (C' = C) as -> by congruence. rewrite Rc in H3. destruct H3 as [_ Kc]. rewrite Kc in Hx.
  apply kids_in in Hx as (b & Hb & _). by apply elem_key in Hb.
Qed.
Lemma ThrCreateProcess_spec U m current a ok st A : prep (counts A) st A -> settled A -> tree_of st ⊆ U -> create_ok U m current a ok A (nextPid st) ->
  let '(p, A', n') := create_spec current a ok A (nextPid st) in
  exists st', ThrCreateProcess root processSet m current a ok st = Ret (p, st') /\ prep (counts A') st' A' /\ settled A' /\ nextPid st' = n' /\ log st' = log st
    /\ tree_of st' ⊆ supply_set a ∪ U.
Proof.
  intros R Se Us Ok. unfold create_spec, ThrCreateProcess. destruct (Z.eqb_spec (s_process a) 0) as [E0|E0]; cbn [orb]; [exists st; split_and!; try done; set_solver|].
  destruct Ok as [?|(Hp & P1 & P2 & Os & Ok)]; [done|]. set (p := s_process a) in *. destruct (fresh_object _ _ _ _ R Hp P1 P2) as [Fo Fq].
  destruct (pr_ke _ _ _ R) as (T & v & D & M & N & K & Hd & Ty & Ov & Nm). assert (Ho : object_of p ∉ head v) by by rewrite Hd. assert (Hv : object_of p <> object v) by by rewrite Ov.
  assert (O0 : object_of p <> 0) by (rewrite object_of_eq by done; unfold OFFSET_object; lia). pose proof (pr_next _ _ _ R) as Nx.
  (* the state when the structure has been given back *)
  assert (Undo : forall st' T', processList st' = processList st -> (forall q, q ∈ A.*1 -> table st' !! q = table st !! q) -> nextPid st <= nextPid st' < 2 ^ 31 ->
    (forall q, q ∈ A.*1 -> objects (ke st') !! object_of q = objects (ke st) !! object_of q) -> ke_rep (ke st') T' processSet v D M N -> prep (counts A) st' A).
  { intros st' T' H1 H2 H3 H4 H5. apply (prep_frame _ st); try done. by exists T', v, D, M, N. }
  assert (Tne : forall q, q ∈ A.*1 -> q <> p) by (intros q Hq ->; done).
  destruct ok; cbn [negb].
  2: { exists (cache_free p (ThrProcessConstructor processSet p st)). pose proof (constructor_ke p st) as Ek. split; [done|]. split_and!; [|done|done|done|].
    - apply (Undo _ T); [done| |cbn; lia| |].
      + intros q Hq. cbn. rewrite lookup_delete_ne, lookup_insert_ne; [done|intros <-; by apply (Tne p)..].
      + intros q Hq. change (ke (cache_free p _)) with (ke (ThrProcessConstructor processSet p st)). rewrite Ek. cbn. apply lookup_insert_ne. intros E. by apply (Fq q).
      + change (ke (cache_free p _)) with (ke (ThrProcessConstructor processSet p st)). rewrite Ek. by apply ke_rep_other.
    - unfold tree_of in *. change (ke (cache_free p _)) with (ke (ThrProcessConstructor processSet p st)). rewrite Ek. cbn. set_solver. }
  destruct Ok as [?|(N0 & Nx1 & Hc & Ok)]; [done|]. rewrite (proj2 (Z.eqb_neq _ _) N0).
  destruct (enter_spec st A current p R Hp P1 P2 Os Hc) as (tb & r & E1 & Er & Tp & To).
  change (nextPid (ThrProcessConstructor processSet p st)) with (nextPid st). change (table (with_next _ (ThrProcessConstructor processSet p st))) with (table (ThrProcessConstructor processSet p st)).
  rewrite E1. cbn [bindO]. set (k1 := put_object (object_of p) (with_refs r new_object) (ke st)).
  set (st2 := with_ke k1 _). assert (Ek2 : ke st2 = k1) by done. rewrite Ek2.
  assert (K1 : ke_rep k1 T processSet v D M N) by by apply ke_rep_other. assert (Ex : objects k1 !! object_of p = Some (with_refs r new_object)) by apply lookup_insert_eq.
  assert (Nn : N !! object_of p = None). { destruct (N !! object_of p) eqn:E; [|done]. by apply (k_names _ _ _ _ _ _ _ K) in E. }
  rewrite u32_id by lia. destruct (decimal_ok (nextPid st) ltac:(lia)) as [Dn _].
  destruct (fresh_name _ _ _ (nextPid st) T v D M N R K Hd Nm) as [Un Mn]; [lia|].
  destruct (s_text a && negb (s_dir a =? 0)) eqn:Good.
  - apply andb_prop in Good as [-> Gd%negb_true_iff%Z.eqb_neq]. destruct Ok as (Al & Als & Ld).
    destruct (KeObjectAttach_spec root m k1 T processSet v processType D M N (s_dir a) (s_attrs a) (object_of p) (with_refs r new_object) (decimal (nextPid st)) K1) as (k2 & T2 & E2 & K2 & Eo2 & Oth & Dm); try done.
    + by eapply alloc_ok_mono.
    + apply attributes_fit.
    + cbn [processType offset]. rewrite object_of_eq by done. replace (p + OFFSET_object - OFFSET_object) with p by lia. rewrite u32_id by (unfold OFFSET_object in P2; lia). exact Ld.
    + eapply allocs_ok_mono; [|exact Als]. by apply union_mono_l.
    + rewrite E2. cbn [bindO]. change (c_true 0) with false. eexists. split; [done|]. set (st3 := with_list _ _).
      assert (Lk : forall q, q ∈ A.*1 -> objects k2 !! object_of q = objects (ke st) !! object_of q).
      { intros q Hq. rewrite Oth; [|by apply Fq|intros E; apply (k_apart _ _ _ _ _ _ _ K); rewrite <- E, Hd; by apply (list_elem_of_fmap_2 object_of)]. unfold k1. cbn. apply lookup_insert_ne. intros E. by apply (Fq q). }
      assert (Nx3 : nextPid st3 = nextPid st + 1) by (change (nextPid st3) with (s32 (nextPid st + 1)); apply s32_id; lia).
      split; [|split; [|split; [exact Nx3|split; [reflexivity|]]]].
      2: { intros q b [Hq|[= -> ->]%list_elem_of_singleton]%elem_of_app; [exact (Se q b Hq)|done]. }
      * eapply (append_prep st st3 A current p _ T2 _ D _ _ R Se Hp P1 P2 Hc Nx1); [reflexivity|exact Nx3|exact Tp|apply u32_id; lia|reflexivity|reflexivity|reflexivity|exact To|exact Lk| |exact K2| |done|done|].
        -- eexists. split; [exact Eo2|]. cbn [with_odir with_oname with_refs refs]. rewrite Er. unfold ref_count. cbn. by destruct (current =? 0).
        -- cbn [with_head head]. by rewrite Hd, map_app.
        -- intros q b [Hq|[= -> ->]%list_elem_of_singleton]%elem_of_app; [|by rewrite lookup_insert_eq].
           rewrite lookup_insert_ne; [by apply Nm|]. intros E. apply (Fq q); [by eapply elem_key|done].
      * unfold tree_of in *. cbn [st3 with_list ke with_ke]. change (tree_ (fs k1)) with (tree_ (fs (ke st))) in Dm. clear -Dm Us. unfold supply_set. set_solver.
  - (* the object cannot be attached *)
    destruct (KeObjectAttach_fails root m k1 T processSet v D M N (s_dir a) (s_attrs a) (object_of p) (with_refs r new_object) (if s_text a then Some (decimal (nextPid st)) else None) K1) as (err & k2 & E2 & Ce & K2 & Oth & Dm); try done.
    { apply andb_false_iff in Good as [-> | Gd%negb_false_iff%Z.eqb_eq]; [by left|by right]. }
    { intros n. destruct (s_text a); [|done]. by intros [= <-]. }
    rewrite E2. cbn [bindO]. rewrite Ce, (proj2 (Z.eqb_neq _ _) Ok). destruct Hc as [?|(c & Hc & Rc)]; [done|]. destruct (pr_proc _ _ _ R current c Hc) as (C & EC & _). pose proof (elem_key _ _ _ Hc) as Hk.
    unfold upd_process, get_process. cbn [with_ke table st2 with_table]. rewrite (To current C Hk EC), Z.eqb_refl. cbn [of_option bindO with_pchildren pchildren]. eexists. split; [done|].
    assert (Kf : filter (fun x => x <> p) (pchildren C ++ [p]) = pchildren C) by by eapply (kids_undo _ _ A current).
    rewrite Kf. assert (Nx3 : s32 (nextPid st + 1) = nextPid st + 1) by (apply s32_id; lia). split_and!; [|exact Se|exact Nx3|done|].
    + apply (Undo _ T); [done| |cbn; lia| |exact K2].
      * intros q Hq. cbn. rewrite lookup_delete_ne by (intros E; by apply (Tne q)). destruct (decide (q = current)) as [->|Nq]; [rewrite lookup_insert_eq, EC; by destruct C|].
        rewrite lookup_insert_ne by done. destruct (key_elem _ _ Hq) as (b & Hb). destruct (pr_proc _ _ _ R q b Hb) as (Q & EQ & _). by rewrite (To q Q Hq EQ), (proj2 (Z.eqb_neq _ _) Nq).
      * intros q Hq. cbn. rewrite Oth by by apply Fq. cbn. apply lookup_insert_ne. intros E. by apply (Fq q).
    + clear -Dm Us. unfold tree_of in *. cbn in *. set_solver.
Qed.

(** A program that cannot be loaded. *)
Lemma exec_cleanup_spec st A p a : prep (counts A) st A -> (p, a) ∈ A -> astat a = Running -> kids p A = [] ->
  exists st', exec_cleanup p st = Ret st' /\ prep (counts (end_as Failed p A)) st' (end_as Failed p A) /\ log st' = log st /\ nextPid st' = nextPid st /\ tree_of st' ⊆ tree_of st.
Proof.
  intros R Hp Ra Kp. destruct (pr_proc _ _ _ R p a Hp) as (P & EP & H1 & H2 & H3). rewrite Ra in H3. destruct H3 as [H3 _].
  apply (end_own st A p a Failed P); try done. unfold live. by rewrite Ra.
Qed.

(** *** Nothing is left half done *)

Lemma settled_end s p A : settled A -> settled_proc {| apid := 0; astat := s; apar := None |} -> settled (end_as s p A).
Proof.
  intros Se Ss q b H. unfold end_as in H. destruct (lookup_p p A) as [a|]; [|by eapply Se]. destruct (apar a).
  - apply update_p_in in H as (b0 & Hb & ->). destruct (q =? p); [exact Ss|by eapply Se].
  - apply remove_p_in in H as [H _]. by eapply Se.
Qed.
Lemma settled_abandoned l A : settled A -> settled (abandoned l A).
Proof. intros Se q b [[H _]|(a & H & _ & _ & ->)]%abandoned_in; [by eapply Se|exact (Se q a H)]. Qed.
Lemma settled_wait current i finishStatus A : settled A -> settled (wait_spec current i finishStatus A).2.
Proof.
  intros Se. unfold wait_spec. destruct (List.find _ _) as [[q a]|]; [|by destruct (existsb _ _)]. intros x b [H _]%remove_p_in. by eapply Se.
Qed.
End Rep.

(** ** Sequences of calls *)

(** [written] are the structures that were freed before a call wrote to them:
    the children that had exited when their parent did. *)
Record atree := { family : aprocs; number : Z; sleepers : gset Z; written : list Z }.

(** [FailCall] is what Exec does when the program cannot be loaded,
    [SleepCall] the second part of a wait. *)
Inductive call :=
| CreateCall (m : gmap Z Z) (current : Z) (a : supply) (manager_ok : bool)
| FailCall (p : Z)
| WaitCall (current i : Z) (finishStatus : bool)
| SleepCall (current : Z)
| ExitCall (current code : Z).
Inductive answer := Made (p : Z) | Waited (w : wait_answer) | Done.

Section Calls.
Context (root processSet setObject : Z).

Definition run_call (c : call) (st : procs) : outcome (answer * procs) :=
  match c with
  | CreateCall m current a manager_ok => let* (p, st) := ThrCreateProcess root processSet m current a manager_ok st in Ret (Made p, st)
  | FailCall p => let* st := exec_cleanup p st in Ret (Done, st)
  | WaitCall current i finishStatus => let* (w, st) := SysWaitForProcessFinish current i finishStatus 0 st in Ret (Waited w, st)
  | SleepCall current => Ret (Done, sleep_on current st)
  | ExitCall current code => let* st := process_exit current code st in Ret (Done, st)
  end.
Fixpoint run_calls (cs : list call) (st : procs) : outcome (list answer * procs) :=
  match cs with
  | [] => Ret ([], st)
  | c :: cs => let* (r, st) := run_call c st in let* (rs, st) := run_calls cs st in Ret (r :: rs, st)
  end.

Definition spec_call (c : call) (s : atree) : answer * atree :=
  match c with
  | CreateCall m current a manager_ok =>
      let '(p, A, n) := create_spec current a manager_ok (family s) (number s) in (Made p, {| family := A; number := n; sleepers := sleepers s; written := written s |})
  | FailCall p => (Done, {| family := end_as Failed p (family s); number := number s; sleepers := sleepers s; written := written s |})
  | WaitCall current i finishStatus =>
      let '(w, A) := wait_spec current i finishStatus (family s) in (Waited w, {| family := A; number := number s; sleepers := sleepers s; written := written s |})
  | SleepCall current => (Done, {| family := family s; number := number s; sleepers := {[current]} ∪ sleepers s; written := written s |})
  | ExitCall current code =>
      (Done, {| family := exit_spec current code (family s); number := number s;
                sleepers := match lookup_p current (family s) with Some {| apar := Some r |} => sleepers s ∖ {[r]} | _ => sleepers s end;
                written := written s ++ List.filter (is_dead (family s)) (kids current (family s)) |})
  end.
Fixpoint spec_calls (cs : list call) (s : atree) : list answer * atree :=
  match cs with
  | [] => ([], s)
  | c :: cs => let '(r, s) := spec_call c s in let '(rs, s) := spec_calls cs s in (r :: rs, s)
  end.

(** A process that runs calls; the memory for a new one is not in use, [U]
    being what may be. *)
Definition runs (p : Z) (A : aprocs) : Prop := exists a, (p, a) ∈ A /\ astat a = Running.
Definition call_ok (U : gset Z) (c : call) (s : atree) : Prop :=
  match c with
  | CreateCall m current a manager_ok => create_ok setObject U m current a manager_ok (family s) (number s)
  | FailCall p => runs p (family s) /\ kids p (family s) = []
  | WaitCall current _ _ | SleepCall current | ExitCall current _ => runs current (family s)
  end.
Definition taken (U : gset Z) (c : call) : gset Z := match c with CreateCall _ _ a _ => supply_set a ∪ U | _ => U end.
Fixpoint calls_ok (U : gset Z) (cs : list call) (s : atree) : Prop :=
  match cs with
  | [] => True
  | c :: cs => call_ok U c s /\ calls_ok (taken U c) cs (spec_call c s).2
  end.

Record represents (st : procs) (s : atree) : Prop := {
  rp_prep : prep processSet setObject (counts (family s)) st (family s);
  rp_settled : settled (family s);
  rp_next : nextPid st = number s;
  rp_log : log st = (sleepers s, written s);
}.

Lemma rp_asleep st s : represents st s -> asleep st = sleepers s.
Proof. intros R. by injection (rp_log _ _ R). Qed.
Lemma rp_stale st s : represents st s -> stale st = written s.
Proof. intros R. by injection (rp_log _ _ R). Qed.

Lemma run_call_spec U c st s : processSet <> 0 -> represents st s -> tree_of st ⊆ U -> call_ok U c s ->
  exists st', run_call c st = Ret ((spec_call c s).1, st') /\ represents st' (spec_call c s).2 /\ tree_of st' ⊆ taken U c.
Proof.
  intros S0 [R Se En Es] Us Ok. destruct c as [m current a ok|p|current i fin|current|current code]; cbn [run_call spec_call call_ok taken] in *.
  - rewrite <- En in *. pose proof (ThrCreateProcess_spec root _ _ S0 U m current a ok st _ R Se Us Ok) as Q. destruct (create_spec _ _ _ _ _) as [[p A'] n'].
    destruct Q as (st' & -> & R' & Se' & N' & S' & D'). exists st'. split; [done|]. split; [|done]. split; cbn; try done. congruence.
  - destruct Ok as [(a & Ha & Ra) Kp]. destruct (exec_cleanup_spec _ _ S0 st _ p a R Ha Ra Kp) as (st' & -> & R' & S' & N' & D'). exists st'. split; [done|]. split; [|by etrans].
    split; cbn; [done| |congruence..]. by apply settled_end.
  - destruct Ok as (c & Hc & Rc). destruct (SysWaitForProcessFinish_spec _ _ S0 st _ current c i fin R Se Hc Rc) as (st' & -> & R' & S' & N' & D').
    pose proof (settled_wait current i fin _ Se) as Sw. destruct (wait_spec _ _ _ _) as [w A']. exists st'. split; [done|]. split; [|by etrans]. split; cbn in *; [done|done|congruence..].
  - eexists. split; [done|]. split; [|done]. injection Es as Ea Ew. destruct R. split; [by split|done|done|]. unfold log. cbn. by rewrite Ea, Ew.
  - destruct Ok as (a & Ha & Ra). destruct (process_exit_spec _ _ S0 st _ current a code R Se Ha Ra) as (st' & -> & R' & S' & N' & D'). exists st'. split; [done|]. split; [|by etrans].
    split; cbn; [done|by apply settled_end; [apply settled_abandoned|]|congruence|]. rewrite (lookup_p_in _ _ _ (pr_nodup _ _ _ _ _ R) Ha), S'. injection Es as -> ->. by destruct a as [? ? []].
Qed.
Lemma run_calls_spec cs : processSet <> 0 -> forall U st s, represents st s -> tree_of st ⊆ U -> calls_ok U cs s ->
  exists st', run_calls cs st = Ret ((spec_calls cs s).1, st') /\ represents st' (spec_calls cs s).2.
Proof.
  intros S0. induction cs as [|c cs IH]; intros U st s R Us Ok; cbn [run_calls spec_calls calls_ok] in *; [by exists st|]. destruct Ok as [Ok Oks].
  destruct (run_call_spec U c st s S0 R Us Ok) as (st1 & -> & R1 & U1). cbn [bindO]. destruct (spec_call c s) as [r s1]. cbn [fst snd] in *.
  destruct (IH _ st1 s1 R1 U1 Oks) as (st' & -> & R'). cbn [bindO]. destruct (spec_calls cs s1) as [rs s']. by exists st'.
Qed.


(** C23: whatever is called, the structures stay well formed: the list of all
    processes has each once and only ones that are allocated, with numbers
    of their own, and a process that has a parent is on the parent's list of
    children, the parent being on the list of all. *)
Theorem processes_well_formed cs U st s : processSet <> 0 -> represents st s -> tree_of st ⊆ U -> calls_ok U cs s ->
  exists rs st', run_calls cs st = Ret (rs, st') /\ NoDup (processList st')
    /\ (forall p, p ∈ processList st' -> exists P, table st' !! p = Some P
          /\ (pparent P = 0 \/ exists C, pparent P ∈ processList st' /\ table st' !! pparent P = Some C /\ state C = THR_RUNNING /\ p ∈ pchildren C))
    /\ (forall p q P Q, p ∈ processList st' -> q ∈ processList st' -> table st' !! p = Some P -> table st' !! q = Some Q -> pid P = pid Q -> p = q).
Proof.
  intros S0 R Us Ok. destruct (run_calls_spec cs S0 U st s R Us Ok) as (st' & E & R'). eexists _, st'. split; [exact E|]. destruct R' as [R' Se _ _]. set (A := family _) in *.
  rewrite (pr_list _ _ _ _ _ R'). pose proof (pr_nodup _ _ _ _ _ R') as Nd. split; [done|]. split.
  - intros p (a & Ha)%key_elem. destruct (pr_proc _ _ _ _ _ R' p a Ha) as (P & EP & _ & Pp & _). exists P. split; [done|]. rewrite Pp. destruct (apar a) as [r|] eqn:Ar; [right|by left].
    change (default 0 (Some r)) with r. destruct (pr_par _ _ _ _ _ R' p a r Ha Ar) as (b & Hb & Lb). destruct (pr_proc _ _ _ _ _ R' r b Hb) as (C & EC & _ & _ & Q). exists C. split; [by eapply elem_key|]. split; [done|].
    pose proof (Se r b Hb) as Sb. unfold live, settled_proc in *. destruct (astat b); try done. destruct Q as [Q1 Q2]. split; [done|]. rewrite Q2. apply kids_in. by exists a.
  - intros p q P Q (a & Ha)%key_elem (b & Hb)%key_elem EP EQ Ei. destruct (pr_proc _ _ _ _ _ R' p a Ha) as (P' & EP' & Ip & _), (pr_proc _ _ _ _ _ R' q b Hb) as (Q' & EQ' & Iq & _).
    apply (pr_pids _ _ _ _ _ R' p a q b Ha Hb). congruence.
Qed.

(** What an exit leaves of the process, and of the others that run. *)
Lemma exit_leaves (A : aprocs) child a par code : NoDup A.*1 -> (child, a) ∈ A -> apar a = Some par -> par <> child -> (child, set_stat (Exited code) a) ∈ exit_spec child code A.
Proof.
  intros Nd Ha Pa Nc. assert (Ha1 : (child, a) ∈ abandoned (kids child A) A).
  { apply abandoned_in. left. split; [done|]. intros (a' & Ha' & Ea)%kids_in. assert (a' = a) as -> by by eapply key_unique. congruence. }
  unfold exit_spec, end_as. rewrite (lookup_p_in _ child a), Pa; [|by apply abandoned_keys|done]. apply update_p_in. exists a. by rewrite Z.eqb_refl.
Qed.
Lemma exit_runs (A : aprocs) child p code : p <> child -> runs p A -> runs p (exit_spec child code A).
Proof.
  intros Np (b & Hb & Rb). assert (runs p (abandoned (kids child A) A)) as (b' & Hb' & Rb').
  { destruct (decide (p ∈ kids child A)) as [K|K]; [exists (orphan b)|exists b]; (split; [|done]); apply abandoned_in; [right|by left]. exists b. split_and!; try done. unfold live. by rewrite Rb. }
  exists b'. split; [|done]. unfold exit_spec, end_as. destruct (lookup_p _ _) as [c|]; [|done]. destruct (apar c).
  - apply update_p_in. exists b'. by rewrite (proj2 (Z.eqb_neq _ _) Np).
  - by apply remove_p_in.
Qed.
(** A wait for a number finds the child that has it. *)
Lemma wait_finds (A : aprocs) child a par code fin : (child, a) ∈ A -> apar a = Some par -> astat a = Exited code -> 0 <= apid a ->
  (forall q b, (q, b) ∈ A -> apid b = apid a -> (q, b) = (child, a)) ->
  wait_spec par (apid a) fin A = (Returns (apid a) (if fin then Some (s32 (Z.shiftl code 8)) else None), remove_p child A).
Proof.
  intros Ha Pa Ea Pos Un. unfold wait_spec. destruct (List.find _ _) as [[q b]|] eqn:F.
  - apply find_some in F as [Hq [M _]%andb_prop]. apply list_elem_of_In, list_elem_of_filter in Hq as [_ Hq]. cbn [snd] in M. unfold meant in M.
    assert (apid b = apid a) as Eb by lia. pose proof (Un q b Hq Eb) as Eq. injection Eq as -> ->. by rewrite Ea.
  - exfalso. assert (Hc : In (child, a) (child_list par A)) by by apply list_elem_of_In, list_elem_of_filter.
    pose proof (find_none _ _ F _ Hc) as Q. cbn [snd] in Q. unfold meant, has_exited in Q. rewrite Ea, Z.eqb_refl in Q. by rewrite orb_true_r in Q.
Qed.

(** A process that was taken out of the tree is on no list. *)
Lemma removed_unlisted st1 s1 st2 s2 child par : represents st1 s1 -> child ∈ (family s1).*1 -> represents st2 s2 -> family s2 = remove_p child (family s1) -> runs par (family s2) ->
  child ∉ processList st2 /\ (exists C, table st2 !! par = Some C /\ child ∉ pchildren C) /\ exists v, sets (ke st2) !! processSet = Some v /\ object_of child ∉ head v.
Proof.
  intros R1 Hc R2 Ef (b & Hb & Rb). pose proof (rp_prep _ _ R2) as P2. rewrite Ef in P2, Hb. split; [|split].
  - rewrite (pr_list _ _ _ _ _ P2), remove_p_keys. by intros [? _]%list_elem_of_filter.
  - destruct (pr_proc _ _ _ _ _ P2 par b Hb) as (C & EC & _ & _ & Q). exists C. split; [done|]. rewrite Rb in Q. destruct Q as [_ ->]. rewrite kids_remove. by intros [? _]%list_elem_of_filter.
  - destruct (pr_ke _ _ _ _ _ P2) as (T & v & D & M & N & K & Hd & _). exists v. split; [apply (k_set _ _ _ _ _ _ _ K)|]. rewrite Hd. intros (q & Eo & Hq)%list_elem_of_fmap.
    destruct (pr_addr _ _ _ _ _ P2 q Hq), (pr_addr _ _ _ _ _ (rp_prep _ _ R1) child Hc). rewrite !object_of_eq in Eo by done. rewrite remove_p_keys in Hq. apply list_elem_of_filter in Hq as [Nq _]. lia.
Qed.


(** The sleep is not part of the scan: a child that exits between them wakes
    nobody, and the parent sleeps although the child has exited. *)
Theorem wake_up_lost st s child a par i code fin : processSet <> 0 -> represents st s -> (child, a) ∈ family s -> astat a = Running -> apar a = Some par -> runs par (family s) ->
  wait_spec par i fin (family s) = (Sleeps, family s) ->
  exists st', run_calls [WaitCall par i fin; ExitCall child code; SleepCall par] st = Ret ([Waited Sleeps; Done; Done], st')
    /\ par ∈ asleep st' /\ exists P, table st' !! child = Some P /\ state P = THR_DYING.
Proof.
  intros S0 R Ha Ra Pa Rp W. pose proof (rp_prep _ _ R) as P. assert (Nc : par <> child) by (intros ->; by apply (pr_self _ _ _ _ _ P) in Ha).
  pose proof (exit_leaves _ child a par code (pr_nodup _ _ _ _ _ P) Ha Pa Nc) as Hc. pose proof (exit_runs _ child par code Nc Rp) as Rp1.
  destruct (run_calls_spec [WaitCall par i fin; ExitCall child code; SleepCall par] S0 (tree_of st) st s R) as (st' & E & R'); [done| |].
  - cbn [calls_ok call_ok spec_call]. rewrite W. cbn [snd family]. split_and!; [done|by exists a|done|done].
  - cbn [spec_calls spec_call] in E, R'. rewrite W in E, R'. exists st'. split; [exact E|]. split; [rewrite (rp_asleep _ _ R'); cbn; set_solver|].
    destruct (pr_proc _ _ _ _ _ (rp_prep _ _ R') child _ Hc) as (Q & EQ & _ & _ & H & _). by exists Q.
Qed.
End Calls.

Module Demo.
Definition root : Z := 100.
Definition set_ : Z := 10.
Definition setObject : Z := 20.
Definition empty : kobjs := {| objects := ∅; sets := ∅; fs := {| tree_ := KeFsInitRoot root ∅; files := ∅ |} |}.
(** "Processes" *)
Definition set_name : list Z := [80; 114; 111; 99; 101; 115; 115; 101; 115].
Definition k0 : kobjs := match KeSetCreate root ∅ 200 [] set_ setObject 0 (Some processType) (Some set_name) empty with Ret (_, k) => k | _ => empty end.
Definition st0 : procs := {| table := ∅; processList := []; nextPid := 0; asleep := ∅; stale := []; ke := k0 |}.
Definition s0 : atree := {| family := []; number := 0; sleepers := ∅; written := [] |}.

Lemma started : represents set_ setObject st0 s0 /\ tree_of st0 ⊆ {[100; 200]}.
Proof.
  destruct (KeSetCreate_spec root ∅ empty {| dirs := {[root := ∅]}; parents := ∅ |} ∅ 200 [] set_ setObject (Some processType) set_name) as (k & T & E & K & D); try done.
  - apply KeFsInitRoot_ok; [done|by vm_compute].
  - apply KFs.Demo.small_name. reflexivity.
  - apply KFs.Demo.demo_alloc; [vm_compute; reflexivity|done|by vm_compute].
  - assert (k0 = k) as Ek by (unfold k0; by rewrite E). split.
    + split; [|intros p a H; by apply elem_of_nil in H|done|done].
      split; cbn [s0 st0 family processList nextPid ke]; try (intros p a H; by apply elem_of_nil in H); try (intros p H; by apply elem_of_nil in H);
        try (intros p a q H; intros; by apply elem_of_nil in H); try done; [apply NoDup_nil_2|intros p a q b H; by apply elem_of_nil in H|].
      rewrite Ek. eexists T, _, 200, ∅, ∅. split_and!; [exact K|done..|]. intros p a H. by apply elem_of_nil in H.
    + unfold tree_of. cbn [st0 ke]. rewrite Ek, D. clear. set_solver.
Qed.

(** Two structures at 1000 and 2000; what their attributes show can be read. *)
Definition memory (p : Z) : gmap Z Z := write ∅ p (repeat 0 84).
Definition supply1 : supply := {| s_process := 1000; s_name := 1; s_text := true; s_dir := 300; s_attrs := [(301, 1); (302, 2); (303, 3)] |}.
Definition supply2 : supply := {| s_process := 2000; s_name := 1; s_text := true; s_dir := 400; s_attrs := [(401, 4); (402, 5); (403, 6)] |}.
(** There is no memory for the directory. *)
Definition supply3 : supply := {| s_process := 3000; s_name := 1; s_text := true; s_dir := 0; s_attrs := [] |}.

(** The first process makes a child, fails to make another, waits for the
    child and finds it when it has exited. *)
Definition demo_calls : list call :=
  [CreateCall (memory 1000) 0 supply1 true; CreateCall (memory 2000) 1000 supply2 true; CreateCall (memory 3000) 1000 supply3 true;
   WaitCall 1000 (-1) true; SleepCall 1000; ExitCall 2000 7; WaitCall 1000 (-1) true; WaitCall 1000 (-1) true].

Lemma memory_load p : In p [1000; 2000] -> attrs_load processAttributes p (memory p).
Proof. intros [<-|[<-|[]]]; repeat constructor; eexists; vm_compute; reflexivity. Qed.

Ltac demo_fresh := apply KFs.Demo.demo_alloc; [vm_compute; reflexivity|done|by vm_compute].
Lemma runs_lookup p (A : list (Z * aproc)) : match lookup_p p A with Some {| astat := Running |} => true | _ => false end = true -> runs p A.
Proof. destruct (lookup_p p A) as [[? [] ?]|] eqn:E; try done. intros _. eexists. split; [by apply lookup_p_elem in E|done]. Qed.
Ltac demo_runs := apply runs_lookup; vm_compute; reflexivity.
Ltac demo_enter := right; split_and!; [vm_compute; set_solver|done|by vm_compute|done|]; right; split_and!; [done|done|try (by left); right; demo_runs|];
  cbn [s_text s_dir supply1 supply2 supply3 andb negb Z.eqb].
Ltac demo_create := demo_enter; split_and!; [demo_fresh|cbn [allocs_ok s_attrs supply1 supply2]; split_and!; first [done|demo_fresh]|apply memory_load; cbn; auto].
Lemma demo_calls_ok : calls_ok setObject {[100; 200]} demo_calls s0.
Proof. cbn [demo_calls calls_ok call_ok]. split_and!; [demo_create|demo_create|demo_enter; done|demo_runs..|done]. Qed.


Lemma processes_well_formed_witness : exists rs st', run_calls root set_ demo_calls st0 = Ret (rs, st') /\ NoDup (processList st')
  /\ forall p, p ∈ processList st' -> exists P, table st' !! p = Some P.
Proof.
  destruct started as [R U]. destruct (processes_well_formed root set_ setObject demo_calls {[100; 200]} st0 s0 ltac:(done) R U demo_calls_ok) as (rs & st' & E & N & H & _).
  exists rs, st'. split; [exact E|]. split; [exact N|]. intros p Hp. destruct (H p Hp) as (P & EP & _). by exists P.
Defined.


(** A parent that exits without having waited writes to the freed child. *)
Example freed_child_written : (let* (_, st) := run_calls root set_ [CreateCall (memory 1000) 0 supply1 true; CreateCall (memory 2000) 1000 supply2 true; ExitCall 2000 7; ExitCall 1000 0] st0 in
  Ret (stale st, processList st)) = Ret ([2000], []).
Proof. vm_compute. reflexivity. Qed.
(** A child whose program cannot be loaded is waited for, for ever. *)
Example failed_child_waits : exists st', run_calls root set_ [CreateCall (memory 1000) 0 supply1 true; CreateCall (memory 2000) 1000 supply2 true; FailCall 2000; WaitCall 1000 1 true] st0
  = Ret ([Made 1000; Made 2000; Done; Waited Sleeps], st').
Proof. eexists. vm_compute. reflexivity. Qed.
End Demo.
