(* ===== verification/ExitThreads.v ===== *)
(** * The end of a process and of its threads

    (kernel/process.c, with kernel/thread.c, kernel/timer.c, kernel/wait.c
    and arch/i386/kernel/process.c)

    ThrProcessExit composes the processes (Process) with the threads and the
    scheduler (Sched), the timers (Timer) and the queue on which the parent
    waits.  The state is the product of theirs.  The exit of the process is
    that of Process; what is added is what happens to the threads.  What the
    process owns besides is given back by the operations of the interface
    [ProcessResources], which other components have: its areas (Mmap), its
    files and directories (FileTable) and its address space (Virt). *)

From stdpp Require Import functions fin_maps fin_sets.
From S2P Require Import Prelude Sched Timer KeObject Process.

(** ** Model *)

Class ProcessResources (W : Type) := {
  MmapProcessRemove : Z -> W -> W;
  LoadReleaseFsContext : Z -> W -> W;
  VirtDestroyMemManager : Z -> W -> W;
}.

Section System.
Context {W : Type} {Res : ProcessResources W}.

Record system := { processes : procs; scheduler : sched; timerList : list Timer; waitQueues : gmap Z (list (Z * Z)); lastMathThread : Z; resources : W }.
Definition with_resources v y := {| processes := processes y; scheduler := scheduler y; timerList := timerList y; waitQueues := waitQueues y; lastMathThread := lastMathThread y; resources := v |}.
Definition with_processes v y := {| processes := v; scheduler := scheduler y; timerList := timerList y; waitQueues := waitQueues y; lastMathThread := lastMathThread y; resources := resources y |}.
Definition with_scheduler v y := {| processes := processes y; scheduler := v; timerList := timerList y; waitQueues := waitQueues y; lastMathThread := lastMathThread y; resources := resources y |}.
Definition with_timers v y := {| processes := processes y; scheduler := scheduler y; timerList := v; waitQueues := waitQueues y; lastMathThread := lastMathThread y; resources := resources y |}.
Definition with_queue p v y := {| processes := processes y; scheduler := scheduler y; timerList := timerList y; waitQueues := <[p := v]> (waitQueues y); lastMathThread := lastMathThread y; resources := resources y |}.
Definition with_math v y := {| processes := processes y; scheduler := scheduler y; timerList := timerList y; waitQueues := waitQueues y; lastMathThread := v; resources := resources y |}.
(** The queue of a process; the constructor makes an empty one. *)
Definition queue_of (p : Z) (y : system) : list (Z * Z) := default [] (waitQueues y !! p).

Section Exit.
Context (idleTask : Z).

(** It only compares the address, which may be that of a thread that was
    freed. *)
Definition ThrArchDestroyThread (thread : Z) (y : system) : system :=
  if thread =? lastMathThread y then with_math 0 y else y.

(** The next entry is read before a thread is released. *)
Fixpoint exit_threads (l : list Z) (current : Z) (y : system) : outcome system :=
  match l with
  | [] => Ret y
  | curr :: l =>
      let* t := get_thread curr (scheduler y) in
      if Sched.parent t =? current then
        let y := with_scheduler (put_thread curr (set_state Sched.THR_DYING t) (scheduler y)) y in
        let y := with_timers (TimerThreadExit curr (timerList y)) y in
        let* s := ThrReleaseThread idleTask curr (scheduler y) in
        exit_threads l current (ThrArchDestroyThread curr (with_scheduler s y))
      else exit_threads l current y
  end.

(** WakeUpAll(&current->parent->waitQueue). *)
Definition alert_parent (current : Z) (y : system) : outcome system :=
  let* C := get_process current (processes y) in
  if pparent C =? 0 then Ret y
  else
    let* (q, s) := WakeUpAll (queue_of (pparent C) y) (scheduler y) in
    Ret (with_queue (pparent C) q (with_scheduler s y)).

(** What ThrSchedule does besides is what it is for Sched: the address space
    and whether the stacks are switched. *)
Definition ThrProcessExit (current returnCode : Z) (y : system) : outcome (system * option Z * bool) :=
  let* p := upd_process current (with_exit THR_DYING returnCode) (processes y) in
  let y := with_resources (VirtDestroyMemManager current (LoadReleaseFsContext current (MmapProcessRemove current (resources y)))) (with_processes p y) in
  let* p := ThrRelativeAlert current (processes y) in
  let* y := alert_parent current (with_processes p y) in
  let* s := ThrGetThread (currThread (scheduler y)) (scheduler y) in
  let* y := exit_threads (threadList s) current (with_scheduler s y) in
  let* p := ThrPutProcess current (processes y) in
  let* (s, mm, switched) := ThrSchedule idleTask (scheduler y) in
  Ret (with_scheduler s (with_processes p y), mm, switched).
End Exit.

(** ** The timers of a thread *)

Definition ids (l : list Timer) : list (Z * Z) := map (fun t => (tid t, owner t)) l.

Lemma ids_tids l : map tid l = (ids l).*1.
Proof. unfold ids. rewrite <- list_fmap_compose. done. Qed.
Lemma remove_loop_ids id l : NoDup (ids l).*1 -> ids (remove_loop id l) = filter (fun x => x.1 <> id) (ids l).
Proof.
  induction l as [|t l IH]; intros N; [done|]. cbn [remove_loop ids map fmap list_fmap fst] in *. fold (ids l) in *. apply NoDup_cons in N as [Nt N]. rewrite filter_cons. cbn [fst].
  destruct (Z.eqb_spec (tid t) id) as [<-|E].
  - rewrite decide_False by tauto. rewrite (filter_keeps _ (ids l)) by (intros x Hx E; apply Nt; rewrite <- E; by apply list_elem_of_fmap_2).
    destruct l as [|t2 l]; [done|]. by destruct (0 <? expires t).
  - rewrite decide_True by done. cbn [map]. f_equal. by apply IH.
Qed.
Lemma TimerRemove_ids id l : NoDup (ids l).*1 -> ids (TimerRemove id true l).2 = filter (fun x => x.1 <> id) (ids l).
Proof. intros N. cbn [TimerRemove negb]. rewrite <- (remove_loop_ids id l N). by destruct l. Qed.

Lemma filter_keys {X Y} (P : X * Y -> Prop) `{forall x, Decision (P x)} (l : list (X * Y)) : NoDup l.*1 -> NoDup (filter P l).*1.
Proof.
  induction l as [|x l IH]; intros N; [constructor|]. cbn [fmap list_fmap] in N. apply NoDup_cons in N as [Nx N]. rewrite filter_cons. case_decide; [|by apply IH].
  cbn [fmap list_fmap]. apply NoDup_cons. split; [|by apply IH]. intros (y & E & Hy)%list_elem_of_fmap. apply list_elem_of_filter in Hy as [_ Hy]. apply Nx. rewrite E. by apply list_elem_of_fmap_2.
Qed.
Lemma filter_same {X} (P Q : X -> Prop) `{forall x, Decision (P x)} `{forall x, Decision (Q x)} (l : list X) : (forall x, x ∈ l -> P x <-> Q x) -> filter P l = filter Q l.
Proof.
  induction l as [|x l IH]; intros E; [done|]. rewrite !filter_cons. pose proof (E x ltac:(left)) as Ex. rewrite IH by (intros; apply E; by right).
  destruct (decide (P x)), (decide (Q x)); tauto.
Qed.
Lemma thread_exit_loop_ids thread js : forall l, NoDup (ids l).*1 ->
  ids (thread_exit_loop js thread l) = filter (fun x => x.1 ∉ (filter (fun y => y.2 = thread) js).*1) (ids l).
Proof.
  induction js as [|[i o] js IH]; intros l N; cbn [thread_exit_loop].
  { rewrite filter_keeps; [done|]. intros x _. apply not_elem_of_nil. }
  rewrite (filter_cons _ (i, o)). cbn [snd]. destruct (Z.eqb_spec o thread) as [Eo|Eo]; [rewrite decide_True by done|rewrite decide_False by done; by apply IH].
  rewrite IH, TimerRemove_ids by (rewrite ?TimerRemove_ids by done; by apply filter_keys || done). rewrite list_filter_filter. apply list_filter_iff. intros x. cbn [fmap list_fmap fst]. rewrite not_elem_of_cons. tauto.
Qed.
(** The timers that are left are those of other threads. *)
Lemma TimerThreadExit_ids thread l : NoDup (ids l).*1 -> ids (TimerThreadExit thread l) = filter (fun x => x.2 <> thread) (ids l).
Proof.
  intros N. unfold TimerThreadExit. change (_ <$> l) with (ids l). rewrite thread_exit_loop_ids by done.
  assert (Sub : forall x, x ∈ ids l -> (x.1 ∉ (filter (fun y => y.2 = thread) (ids l)).*1 <-> x.2 <> thread)).
  { intros [i o] Hx. cbn. split.
    - intros Hn Eo. apply Hn. apply list_elem_of_fmap. exists (i, o). split; [done|]. by apply list_elem_of_filter.
    - intros No (y & -> & [Hy1 Hy]%list_elem_of_filter)%list_elem_of_fmap. destruct y as [i o']. cbn in *. apply No. subst thread.
      assert (Some o = Some o') as E; [|congruence]. rewrite <- (elem_of_list_to_map_1 _ _ _ N Hx). by apply elem_of_list_to_map_1. }
  by apply filter_same.
Qed.

(** ** The threads of a process *)

(** What becomes of a thread of the process that exits. *)
Definition ended (v : Thread) : option Thread :=
  if thr_refs v <=? 1 then None else Some (set_refs (thr_refs v - 1) (set_state Sched.THR_DYING v)).
(** The threads of [l] that are of the process. *)
Definition own (current : Z) (l : list Z) (s : sched) (t : Z) : Prop := t ∈ l /\ exists v, threads s !! t = Some v /\ Sched.parent v = current.
Definition known (s : sched) : Prop := forall t, t ∈ threadList s -> is_Some (threads s !! t).
Definition listed (s : sched) (t : Z) : Prop := is_Some (threads s !! t).
#[export] Instance listed_dec s t : Decision (listed s t).
Proof. unfold listed. apply _. Defined.

Section Threads.
Context (idleTask current : Z).

(** One thread. *)
Lemma release_thread t v s : threads s !! t = Some v -> t <> idleTask -> (thr_refs v <= 1 -> t <> currThread s) ->
  exists s', ThrReleaseThread idleTask t (put_thread t (set_state Sched.THR_DYING v) s) = Ret s'
    /\ threads s' !! t = ended v /\ (forall u, u <> t -> threads s' !! u = threads s !! u)
    /\ threadList s' = (if thr_refs v <=? 1 then filter (fun u => u <> t) (threadList s) else threadList s) /\ currThread s' = currThread s.
Proof.
  intros Ev Ni Nc. unfold ThrReleaseThread, get_thread. cbn [put_thread with_threads threads]. rewrite lookup_insert_eq. cbn [of_option bindO set_state thr_refs]. unfold ended.
  destruct (Z.leb_spec (thr_refs v) 1) as [L|L].
  - rewrite (proj2 (Z.leb_le _ _)) by lia. unfold ThrFreeThread. rewrite (proj2 (Z.eqb_neq _ _) Ni). cbn [Sched.with_list with_nr put_thread with_threads currThread]. rewrite (proj2 (Z.eqb_neq t (currThread s))) by auto.
    eexists. split; [done|]. cbn. split_and!; try done; [apply lookup_delete_eq|]. intros u Nu. by rewrite lookup_delete_ne, !lookup_insert_ne.
  - rewrite (proj2 (Z.leb_gt _ _)) by lia. eexists. split; [done|]. cbn. split_and!; try done; [by rewrite lookup_insert_eq|]. intros u Nu. by rewrite !lookup_insert_ne.
Qed.

Lemma exit_threads_spec l : forall y, NoDup l -> (forall t, t ∈ l -> listed (scheduler y) t) -> known (scheduler y) -> idleTask ∉ l ->
  (forall t v, t ∈ l -> threads (scheduler y) !! t = Some v -> Sched.parent v = current -> thr_refs v <= 1 -> t <> currThread (scheduler y)) -> NoDup (ids (timerList y)).*1 ->
  exists y', exit_threads idleTask l current y = Ret y' /\ processes y' = processes y /\ resources y' = resources y /\ currThread (scheduler y') = currThread (scheduler y)
    /\ (forall t, threads (scheduler y') !! t = match threads (scheduler y) !! t with Some v => if decide (t ∈ l /\ Sched.parent v = current) then ended v else Some v | None => None end)
    /\ threadList (scheduler y') = filter (listed (scheduler y')) (threadList (scheduler y))
    /\ (forall x, x ∈ ids (timerList y') <-> x ∈ ids (timerList y) /\ ~ own current l (scheduler y) x.2).
Proof.
  induction l as [|t l IH]; intros y Nl Kl Kn Il Cu Nt; cbn [exit_threads].
  { exists y. split; [done|]. split_and!; [done|done|done| | |].
    - intros t. destruct (threads _ !! t); [|done]. rewrite decide_False; [done|]. intros [H _]. by apply elem_of_nil in H.
    - symmetry. apply filter_keeps. exact Kn.
    - intros x. split; [|tauto]. intros Hx. split; [done|]. intros [H _]. by apply elem_of_nil in H. }
  apply NoDup_cons in Nl as [Nx Nl]. destruct (Kl t ltac:(left)) as [v Ev]. unfold get_thread. rewrite Ev. cbn [of_option bindO]. apply not_elem_of_cons in Il as [It Il].
  destruct (Z.eqb_spec (Sched.parent v) current) as [Ep|Ep].
  - destruct (release_thread t v (scheduler y) Ev) as (s1 & E1 & Tt & To & Ls & Cs); [done|intros L; by apply (Cu t v ltac:(left))|]. cbn [with_timers with_scheduler scheduler timerList]. rewrite E1. cbn [bindO].
    set (y1 := ThrArchDestroyThread t _). assert (S1 : scheduler y1 = s1 /\ processes y1 = processes y /\ resources y1 = resources y /\ timerList y1 = TimerThreadExit t (timerList y)) by (unfold y1, ThrArchDestroyThread; by destruct (_ =? _)).
    destruct S1 as (S1 & P1 & W1 & T1). assert (Nxt : forall u, u ∈ l -> u <> t) by (intros u Hu ->; done).
    assert (I1 : ids (timerList y1) = filter (fun x => x.2 <> t) (ids (timerList y))) by (rewrite T1; by apply TimerThreadExit_ids).
    destruct (IH y1) as (y' & E & P & Rs & C & Th & Li & Ti).
    + done.
    + intros u Hu. unfold listed. rewrite S1, To by auto. apply Kl. by right.
    + rewrite S1. intros u. rewrite Ls. unfold ended in Tt. destruct (Z.leb_spec (thr_refs v) 1).
      * intros [Nu Hu]%list_elem_of_filter. rewrite To by done. by apply Kn.
      * intros Hu. destruct (decide (u = t)) as [->|Nu]; [rewrite Tt; by eexists|]. rewrite To by done. by apply Kn.
    + done.
    + rewrite S1, Cs. intros u w Hu. rewrite To by auto. intros Ew. apply (Cu u w); [by right|done].
    + rewrite I1. by apply filter_keys.
    + exists y'. split; [exact E|]. rewrite S1 in *. split_and!; [congruence|congruence|congruence| | |].
      * intros u. rewrite Th. destruct (decide (u = t)) as [->|Nu].
        -- rewrite Tt, Ev, decide_True by (split; [left|done]). unfold ended. destruct (thr_refs v <=? 1); [done|]. rewrite decide_False; [done|tauto].
        -- rewrite To by done. destruct (threads (scheduler y) !! u) as [w|]; [|done]. rewrite (decide_ext (u ∈ l /\ Sched.parent w = current) (u ∈ t :: l /\ Sched.parent w = current)); [done|]. rewrite elem_of_cons. tauto.
      * rewrite Li, Ls. destruct (Z.leb_spec (thr_refs v) 1) as [L|L]; [|done]. rewrite list_filter_filter. apply list_filter_iff. intros u. split; [tauto|]. intros Hu. split; [done|]. intros ->.
        unfold listed in Hu. rewrite Th, Tt in Hu. unfold ended in Hu. rewrite (proj2 (Z.leb_le _ _) L) in Hu. by destruct Hu.
      * intros x. rewrite Ti, I1, list_elem_of_filter. unfold own. rewrite elem_of_cons. split.
        -- intros [[Nx2 Hx] Ho]. split; [done|]. intros [[?|Hl] Hw]; [done|]. apply Ho. split; [done|]. rewrite To by done. done.
        -- intros [Hx Ho]. split_and!; [intros E2; apply Ho; split; [by left|]; exists v; by rewrite E2|done|]. intros [Hl Hw]. rewrite To in Hw by auto. apply Ho. split; [by right|done].
  - destruct (IH y) as (y' & E & P & Rs & C & Th & Li & Ti); try done; [intros u Hu; apply Kl; by right|intros u w Hu; apply (Cu u w); by right|].
    exists y'. split; [exact E|]. split_and!; [done|done|done| |done|].
    + intros u. rewrite Th. destruct (threads (scheduler y) !! u) as [w|] eqn:Ew; [|done]. rewrite (decide_ext (u ∈ l /\ Sched.parent w = current) (u ∈ t :: l /\ Sched.parent w = current)); [done|].
      rewrite elem_of_cons. split; [tauto|]. intros [[->|Hu] Pw]; [congruence|done].
    + intros x. rewrite Ti. unfold own. rewrite elem_of_cons. split; [|tauto]. intros [Hx Ho]. split; [done|]. intros [[E2|Hl] Hw]; [|tauto]. destruct Hw as (w & Ew & Pw). rewrite E2 in Ew. congruence.
Qed.

(** *** Waking and scheduling *)

(** What does not change when threads are woken. *)
Definition fixed_part (v : Thread) : Z * Z * Z := (Sched.parent v, quantums v, thr_refs v).
Lemma resume_fixed t s s' : ThrResumeThread t s = Ret s' -> threadList s' = threadList s /\ currThread s' = currThread s /\ forall u, fixed_part <$> threads s' !! u = fixed_part <$> threads s !! u.
Proof.
  unfold ThrResumeThread, ThrStartThread, get_thread. destruct (threads s !! t) as [v|] eqn:Ev; [|done]. cbn [of_option bindO]. destruct (Sched.state v =? Sched.THR_RUNNING) eqn:Er; cbn [negb]; [by intros [= <-]|].
  rewrite ?Er. cbn [negb bindO with_nr put_thread with_threads threads currThread]. rewrite lookup_insert_eq. cbn [of_option bindO].
  assert (F : forall u, fixed_part <$> <[t := set_state Sched.THR_RUNNING v]> (threads s) !! u = fixed_part <$> threads s !! u).
  { intros u. destruct (decide (u = t)) as [->|N]; [by rewrite lookup_insert_eq, Ev|by rewrite lookup_insert_ne]. }
  destruct (<[_ := _]> _ !! currThread s); [|done]. cbn [of_option bindO]. destruct (_ <=? _); intros [= <-]; by split_and!.
Qed.
Lemma wake_fixed q : forall n s q' s', WakeUpCommon q n s = Ret (q', s') -> threadList s' = threadList s /\ currThread s' = currThread s /\ forall u, fixed_part <$> threads s' !! u = fixed_part <$> threads s !! u.
Proof.
  induction q as [|[e t] q IH]; intros n s q' s' E; cbn [WakeUpCommon] in E; [by injection E as <- <-|]. destruct (ThrResumeThread t s) as [s1| | |] eqn:E1; try done. cbn [bindO] in E.
  destruct (resume_fixed _ _ _ E1) as (L1 & C1 & F1). destruct (_ =? 0); [injection E as <- <-; by split_and!|]. destruct (IH _ _ _ _ E) as (L & C & F). split_and!; [congruence|congruence|]. intros u. by rewrite F.
Qed.

(** A state from which the scheduler can choose. *)
Record ready (s : sched) : Prop := {
  rd_nodup : NoDup (threadList s);
  rd_known : forall t, t ∈ threadList s -> exists v, threads s !! t = Some v /\ 0 <= quantums v;
  rd_idle : idleTask ∉ threadList s;
  rd_zero : 0 ∉ threadList s;
  rd_task : listed s idleTask;
}.
(** A thread but for its quantums. *)
Definition kept (v : Thread) : Thread := set_quantums 0 v.
Lemma schedule_from s v : ready s -> currThread s ∈ threadList s -> threads s !! currThread s = Some v -> Sched.state v = Sched.THR_DYING ->
  exists s' mm sw, ThrSchedule idleTask s = Ret (s', mm, sw) /\ threadList s' = filter (fun u => u <> currThread s) (threadList s)
    /\ threads s' !! currThread s = None /\ (forall u, u <> currThread s -> kept <$> threads s' !! u = kept <$> threads s !! u)
    /\ (currThread s' = idleTask \/ exists w, currThread s' ∈ threadList s' /\ threads s' !! currThread s' = Some w /\ Sched.state w = Sched.THR_RUNNING).
Proof.
  intros R Hc Ev Dv. assert (C0 : currThread s <> 0) by (intros E; apply (rd_zero _ R); by rewrite <- E). assert (Ci : currThread s <> idleTask) by (intros E; apply (rd_idle _ R); by rewrite <- E).
  unfold ThrSchedule, get_thread. cbn [with_need currThread threads]. rewrite (proj2 (Z.eqb_neq _ _) C0), Ev. cbn [of_option bindO]. rewrite Dv. change (Sched.THR_DYING =? Sched.THR_DYING) with true. cbn match.
  unfold ThrFreeThread. rewrite (proj2 (Z.eqb_neq _ _) Ci). cbn [Sched.with_list with_nr with_need currThread]. rewrite Z.eqb_refl. cbn [bindO].
  set (s1 := with_threads _ _). assert (T1 : threads s1 = delete (currThread s) (threads s)) by done. assert (L1 : threadList s1 = filter (fun u => u <> currThread s) (threadList s)) by done.
  destruct (ThrChooseNewThread_spec idleTask s1) as (t & s2 & E & Q).
  { rewrite L1. apply NoDup_filter, (rd_nodup _ R). }
  { rewrite L1, T1. intros u [Nu Hu]%list_elem_of_filter. rewrite lookup_delete_ne by done. by apply (rd_known _ R). }
  rewrite E. cbn [bindO]. assert (Inv : threadList s2 = threadList s1 /\ (forall u, kept <$> threads s2 !! u = kept <$> threads s1 !! u) /\ (t = idleTask \/ exists w, t ∈ threadList s1 /\ threads s1 !! t = Some w /\ Sched.state w = Sched.THR_RUNNING)).
  { destruct Q as [(-> & -> & _)|(w & Ht & Ew & Sw & _ & Q1 & Q2)]; [split_and!; [done|done|by left]|]. destruct (Z.eq_dec (quantums w) 0) as [Z0|Z0].
    - destruct (Q2 Z0) as (m & -> & Hm). split_and!; [done| |right; by exists w]. intros u. cbn [with_threads threads]. rewrite Hm. case_decide; [|done]. by destruct (threads s1 !! u).
    - assert (s2 = s1) as ->; [|split_and!; [done|done|right; by exists w]]. apply Q1. rewrite L1 in Ht. apply list_elem_of_filter in Ht as [Nt Ht]. destruct (rd_known _ R t Ht) as (w' & Ew' & P).
      rewrite T1, lookup_delete_ne in Ew by done. assert (w' = w) as -> by congruence. lia. }
  destruct Inv as (L2 & K2 & C2). assert (Lt : exists w, threads s2 !! t = Some w /\ (t = idleTask \/ t ∈ threadList s1 /\ Sched.state w = Sched.THR_RUNNING)).
  { specialize (K2 t). destruct C2 as [->|(w & Ht & Ew & Sw)].
    - rewrite T1, lookup_delete_ne in K2 by done. destruct (rd_task _ R) as [w Ew]. rewrite Ew in K2. destruct (threads s2 !! idleTask) as [w2|]; [|done]. exists w2. split; [done|by left].
    - rewrite Ew in K2. destruct (threads s2 !! t) as [w2|]; [|done]. exists w2. split; [done|]. right. split; [done|]. cbn in K2. injection K2 as _ K2 _ _ _ _. congruence. }
  destruct Lt as (w & Ew & Cw). unfold with_curr at 1. cbn [threads]. rewrite Ew. cbn [of_option bindO]. eexists _, _, _. split; [reflexivity|]. cbn [with_curr threadList threads currThread]. split_and!.
  - congruence.
  - specialize (K2 (currThread s)). rewrite T1, lookup_delete_eq in K2. by destruct (threads s2 !! currThread s).
  - intros u Nu. by rewrite K2, T1, lookup_delete_ne.
  - destruct Cw as [->|[Ht Sw]]; [by left|right]. exists w. by rewrite L2.
Qed.
End Threads.

(** ** The exit *)

(** The threads that wait for the process: those of its parent's queue. *)
Definition waiters (a : aproc) (y : system) : list Z := match apar a with Some r => (queue_of r y).*2 | None => [] end.

(** What holds when a process calls exit. *)
Record may_exit (idleTask processSet setObject current : Z) (y : system) (A : list (Z * aproc)) (a : aproc) : Prop := {
  me_prep : prep processSet setObject (counts A) (processes y) A;
  me_settled : settled A;
  me_proc : (current, a) ∈ A /\ astat a = Running;
  me_ready : ready idleTask (scheduler y);
  me_thread : currThread (scheduler y) ∈ threadList (scheduler y) /\ exists c, threads (scheduler y) !! currThread (scheduler y) = Some c /\ Sched.parent c = current /\ 1 <= thr_refs c;
  me_queue : forall t, t ∈ waiters a y -> exists v, threads (scheduler y) !! t = Some v /\ Sched.parent v <> current;
  me_short : Z.of_nat (length (waiters a y)) < 2 ^ 31;
  me_timers : NoDup (map tid (timerList y));
}.

Section Whole.
Context (idleTask processSet setObject : Z) (S0 : processSet <> 0).

Lemma fixed_known s s' : (forall u, fixed_part <$> threads s' !! u = fixed_part <$> threads s !! u) -> forall u v, threads s !! u = Some v -> exists v', threads s' !! u = Some v' /\ fixed_part v' = fixed_part v.
Proof. intros F u v Ev. specialize (F u). rewrite Ev in F. destruct (threads s' !! u) as [v'|]; [|done]. exists v'. split; [done|]. cbn in F. congruence. Qed.
Lemma ready_fixed s s' : ready idleTask s -> threadList s' = threadList s -> (forall u, fixed_part <$> threads s' !! u = fixed_part <$> threads s !! u) -> ready idleTask s'.
Proof.
  intros R L F. destruct R. split; rewrite ?L; try done.
  - intros t Ht. destruct (rd_known0 t Ht) as (v & Ev & Q). destruct (fixed_known _ _ F t v Ev) as (v' & Ev' & Fv). exists v'. split; [done|]. injection Fv. lia.
  - destruct rd_task0 as [v Ev]. destruct (fixed_known _ _ F _ v Ev) as (v' & Ev' & _). by exists v'.
Qed.

(** The parent's threads are woken. *)
Lemma alert_parent_spec current y A a p P : may_exit idleTask processSet setObject current y A a -> table p !! current = Some P -> pparent P = default 0 (apar a) ->
  exists y', alert_parent current (with_processes p y) = Ret y' /\ processes y' = p /\ resources y' = resources y /\ timerList y' = timerList y
    /\ threadList (scheduler y') = threadList (scheduler y) /\ currThread (scheduler y') = currThread (scheduler y)
    /\ (forall u, fixed_part <$> threads (scheduler y') !! u = fixed_part <$> threads (scheduler y) !! u)
    /\ (forall u, Sched.state <$> threads (scheduler y') !! u = if decide (u ∈ waiters a y) then Some Sched.THR_RUNNING else Sched.state <$> threads (scheduler y) !! u).
Proof.
  intros M EP Pp. unfold alert_parent, get_process. cbn [with_processes processes]. rewrite EP. cbn [of_option bindO]. rewrite Pp. pose proof (me_queue _ _ _ _ _ _ _ M) as Mq. pose proof (me_short _ _ _ _ _ _ _ M) as Ms. unfold waiters in *.
  destruct (apar a) as [r|] eqn:Ar.
  - change (default 0 (Some r)) with r. destruct (me_proc _ _ _ _ _ _ _ M) as [Ha _]. destruct (pr_par _ _ _ _ _ (me_prep _ _ _ _ _ _ _ M) current a r Ha Ar) as (b & Hb & _).
    destruct (pr_addr _ _ _ _ _ (me_prep _ _ _ _ _ _ _ M) r (elem_key _ _ _ Hb)). rewrite (proj2 (Z.eqb_neq r 0)) by lia. change (queue_of r (with_processes p y)) with (queue_of r y).
    destruct (me_thread _ _ _ _ _ _ _ M) as (_ & c & Ec & _). destruct (wake_all (queue_of r y) 0 (scheduler y)) as (s' & E & St).
    + intros e He. destruct (Mq e.2) as (v & Ev & _); [by apply list_elem_of_fmap_2|by exists v].
    + by exists c.
    + lia.
    + rewrite length_fmap in Ms. lia.
    + unfold WakeUpAll. cbn [with_processes scheduler]. rewrite E. cbn [bindO]. destruct (wake_fixed _ _ _ _ _ E) as (L & C & F). eexists. split; [done|]. cbn. by split_and!.
  - change (default 0 None =? 0) with true. eexists. split; [done|]. cbn. by split_and!.
Qed.

(** The state before the loop: the running thread has one more reference. *)
Lemma before_loop current y A a y1 : may_exit idleTask processSet setObject current y A a ->
  threadList (scheduler y1) = threadList (scheduler y) -> currThread (scheduler y1) = currThread (scheduler y) ->
  (forall u, fixed_part <$> threads (scheduler y1) !! u = fixed_part <$> threads (scheduler y) !! u) ->
  (forall u, Sched.state <$> threads (scheduler y1) !! u = if decide (u ∈ waiters a y) then Some Sched.THR_RUNNING else Sched.state <$> threads (scheduler y) !! u) ->
  exists s2, ThrGetThread (currThread (scheduler y1)) (scheduler y1) = Ret s2 /\ threadList s2 = threadList (scheduler y) /\ currThread s2 = currThread (scheduler y) /\ ready idleTask s2
    /\ forall t v, threads (scheduler y) !! t = Some v -> exists v2, threads s2 !! t = Some v2 /\ Sched.parent v2 = Sched.parent v
         /\ thr_refs v2 = thr_refs v + (if decide (t = currThread (scheduler y)) then 1 else 0)
         /\ Sched.state v2 = if decide (t ∈ waiters a y) then Sched.THR_RUNNING else Sched.state v.
Proof.
  intros M L C F St. destruct (me_thread _ _ _ _ _ _ _ M) as (Hc & c & Ec & Pc & Rc). destruct (fixed_known _ _ F _ c Ec) as (c1 & Ec1 & Fc).
  set (s2 := put_thread (currThread (scheduler y)) (set_refs (thr_refs c1 + 1) c1) (scheduler y1)). exists s2.
  split; [unfold ThrGetThread, get_thread; rewrite C, Ec1; done|]. split; [done|]. split; [done|]. split.
  - pose proof (ready_fixed _ _ (me_ready _ _ _ _ _ _ _ M) L F) as [Q1 Q2 Q3 Q4 Q5]. split; cbn [s2 put_thread with_threads threadList threads]; try done.
    + intros t Ht. destruct (Q2 t Ht) as (v & Ev & Q). destruct (decide (t = currThread (scheduler y))) as [->|N]; [rewrite lookup_insert_eq; eexists; split; [done|]; cbn; congruence|].
      exists v. by rewrite lookup_insert_ne.
    + unfold listed. cbn [s2 put_thread with_threads threads]. rewrite lookup_insert_ne; [exact Q5|]. intros E. apply Q3. rewrite L, <- E. done.
  - intros t v Ev. destruct (fixed_known _ _ F t v Ev) as (v1 & Ev1 & Fv). injection Fv as Fv1 Fv2 Fv3. pose proof (St t) as Sv. rewrite Ev1, Ev in Sv. cbn [fmap option_fmap option_map] in Sv.
    assert (Sv' : Sched.state v1 = if decide (t ∈ waiters a y) then Sched.THR_RUNNING else Sched.state v) by (destruct (decide (t ∈ waiters a y)); by injection Sv).
    cbn [s2 put_thread with_threads threads]. destruct (decide (t = currThread (scheduler y))) as [->|N].
    + rewrite lookup_insert_eq. eexists. split; [done|]. cbn. assert (c1 = v1) as -> by congruence. split_and!; [done|lia|done].
    + rewrite lookup_insert_ne by done. exists v1. split_and!; [done|done|lia|done].
Qed.

Lemma kept_state (x y : option Thread) : kept <$> x = kept <$> y -> Sched.state <$> x = Sched.state <$> y /\ Sched.parent <$> x = Sched.parent <$> y.
Proof. destruct x as [v|], y as [w|]; cbn; try done. intros [=]. by split; f_equal. Qed.
Lemma ready_after current s s' : ready idleTask s ->
  (forall t, threads s' !! t = match threads s !! t with Some v => if decide (t ∈ threadList s /\ Sched.parent v = current) then ended v else Some v | None => None end) ->
  threadList s' = filter (listed s') (threadList s) -> ready idleTask s'.
Proof.
  intros [Q1 Q2 Q3 Q4 [v Ev]] Th Li. split; rewrite ?Li.
  - by apply NoDup_filter.
  - intros t [[v' Ev'] Ht]%list_elem_of_filter. destruct (Q2 t Ht) as (w & Ew & Q). exists v'. split; [done|]. rewrite Th, Ew in Ev'. unfold ended in Ev'.
    destruct (decide _); [destruct (thr_refs w <=? 1); [done|]|]; injection Ev' as <-; done.
  - by intros [_ ?]%list_elem_of_filter.
  - by intros [_ ?]%list_elem_of_filter.
  - unfold listed. rewrite Th, Ev, decide_False by tauto. by eexists.
Qed.

(** C12: a process that exits takes its threads with it: no timer of theirs
    is left, the running one is gone and so is every other of which nobody
    holds a reference, the rest are dying; the threads of the parent that
    waited run again, those of other processes are as they were, and a
    thread of another process or the idle task is running.  What the process
    owned was given back, once. *)
Theorem ThrProcessExit_ends_threads current code y A a : may_exit idleTask processSet setObject current y A a ->
  exists y' mm switched, ThrProcessExit idleTask current code y = Ret (y', mm, switched)
    /\ prep processSet setObject (counts (exit_spec current code A)) (processes y') (exit_spec current code A)
    /\ resources y' = VirtDestroyMemManager current (LoadReleaseFsContext current (MmapProcessRemove current (resources y)))
    /\ (forall t v, t ∈ threadList (scheduler y) -> threads (scheduler y) !! t = Some v -> Sched.parent v = current ->
          (forall m, m ∈ timerList y' -> owner m <> t)
          /\ if decide (t = currThread (scheduler y) \/ thr_refs v <= 1) then threads (scheduler y') !! t = None /\ t ∉ threadList (scheduler y')
             else Sched.state <$> threads (scheduler y') !! t = Some Sched.THR_DYING)
    /\ (forall t v, threads (scheduler y) !! t = Some v -> Sched.parent v <> current ->
          Sched.state <$> threads (scheduler y') !! t = Some (if decide (t ∈ waiters a y) then Sched.THR_RUNNING else Sched.state v))
    /\ (currThread (scheduler y') = idleTask
        \/ exists w, threads (scheduler y') !! currThread (scheduler y') = Some w /\ Sched.state w = Sched.THR_RUNNING /\ Sched.parent w <> current).
Proof.
  intros M. destruct (me_proc _ _ _ _ _ _ _ M) as [Ha Ra]. destruct (exit_steps processSet setObject S0 (processes y) A current a code (me_prep _ _ _ _ _ _ _ M) (me_settled _ _ _ _ _ _ _ M) Ha Ra)
    as (p0 & p1 & P1 & p2 & E0 & E1 & EP & Pp & E2 & R2 & _).
  set (y0 := with_resources (VirtDestroyMemManager current (LoadReleaseFsContext current (MmapProcessRemove current (resources y)))) y).
  assert (M0 : may_exit idleTask processSet setObject current y0 A a) by (by destruct M; split).
  destruct (alert_parent_spec current y0 A a p1 P1 M0 EP Pp) as (y1 & E3 & Pr1 & Rs1 & Ti1 & L1 & C1 & F1 & St1).
  destruct (before_loop current y0 A a y1 M0 L1 C1 F1 St1) as (s2 & G & L2 & C2 & R3 & V2).
  change (scheduler y0) with (scheduler y) in *. change (waiters a y0) with (waiters a y) in *. change (timerList y0) with (timerList y) in *.
  destruct (me_thread _ _ _ _ _ _ _ M) as (Hc & c & Ec & Pc & Rc). destruct (V2 _ c Ec) as (c2 & Ec2 & Pc2 & Rc2 & _). rewrite decide_True in Rc2 by done.
  destruct (exit_threads_spec idleTask current (threadList s2) (with_scheduler s2 y1)) as (y3 & E4 & P4 & Rs4 & C4 & Th & Li & Ti); cbn [with_scheduler scheduler timerList] in *.
  { apply (rd_nodup _ _ R3). }
  { intros t Ht. destruct (rd_known _ _ R3 t Ht) as (v & Ev & _). by exists v. }
  { intros t Ht. destruct (rd_known _ _ R3 t Ht) as (v & Ev & _). by exists v. }
  { apply (rd_idle _ _ R3). }
  { intros t v Ht Ev Pv Rv ->. rewrite C2 in Ev. assert (v = c2) as -> by congruence. lia. }
  { rewrite Ti1, <- ids_tids. apply (me_timers _ _ _ _ _ _ _ M). }
  assert (Dec : forall t v, threads (scheduler y) !! t = Some v -> Sched.parent v = current -> t ∈ threadList (scheduler y) -> exists v2, threads (scheduler y3) !! t = ended v2
      /\ thr_refs v2 = thr_refs v + (if decide (t = currThread (scheduler y)) then 1 else 0)).
  { intros t v Ev Pv Ht. destruct (V2 t v Ev) as (v2 & Ev2 & Pv2 & Rv2 & _). exists v2. split; [|done]. rewrite Th, Ev2, decide_True; [done|]. by rewrite L2, Pv2. }
  assert (Cur : exists d, threads (scheduler y3) !! currThread (scheduler y3) = Some d /\ Sched.state d = Sched.THR_DYING).
  { rewrite C4, C2. destruct (Dec _ c Ec Pc Hc) as (v2 & -> & Rv). rewrite decide_True in Rv by done. unfold ended. destruct (Z.leb_spec (thr_refs v2) 1); [lia|]. by eexists. }
  destruct Cur as (d & Ed & Sd). destruct (schedule_from idleTask (scheduler y3) d (ready_after _ _ _ R3 Th Li)) as (s4 & mm & sw & E5 & L4 & N4 & K4 & Q4); [|exact Ed|exact Sd|].
  { rewrite Li, C4, C2. apply list_elem_of_filter. split; [|by rewrite L2]. unfold listed. rewrite <- C2, <- C4, Ed. by eexists. }
  exists (with_scheduler s4 (with_processes p2 y3)), mm, sw. split.
  { unfold ThrProcessExit. rewrite E0. cbn [bindO]. cbn [with_resources with_processes processes]. rewrite E1. cbn [bindO]. change (with_processes p1 _) with (with_processes p1 y0). rewrite E3. cbn [bindO]. rewrite G. cbn [bindO]. rewrite E4. cbn [bindO]. rewrite P4. cbn [with_scheduler processes]. rewrite Pr1, E2. cbn [bindO]. by rewrite E5. }
  cbn [with_scheduler with_processes processes scheduler timerList resources]. split; [exact R2|]. split; [rewrite Rs4; exact Rs1|]. rewrite C4, C2 in *. split; [|split].
  - intros t v Ht Ev Pv. destruct (Dec t v Ev Pv Ht) as (v2 & E3t & Rv). split.
    + intros m Hm Om. assert (Hi : (tid m, owner m) ∈ ids (timerList y3)) by (by apply (list_elem_of_fmap_2 (fun t => (tid t, owner t)))). apply Ti in Hi as [_ Hi]. apply Hi. cbn. rewrite Om.
      destruct (V2 t v Ev) as (w & Ew & Pw & _). split; [by rewrite L2|]. exists w. by rewrite Pw.
    + destruct (decide (t = currThread (scheduler y))) as [->|Nt]; [rewrite decide_True by (by left); split; [done|]; rewrite L4; by intros [? _]%list_elem_of_filter|].
      pose proof (K4 t Nt) as Kt. rewrite E3t in Kt. unfold ended in *. destruct (decide (_ \/ _)) as [[?|Lt]|Gt]; [done| |].
      * destruct (Z.leb_spec (thr_refs v2) 1); [|lia]. split; [by destruct (threads s4 !! t)|]. rewrite L4, Li. intros [_ [[w Hw] _]%list_elem_of_filter]%list_elem_of_filter. congruence.
      * destruct (Z.leb_spec (thr_refs v2) 1); [exfalso; apply Gt; right; lia|]. by apply kept_state in Kt as [-> _].
  - intros t v Ev Nv. destruct (V2 t v Ev) as (v2 & Ev2 & Pv2 & _ & Sv2). assert (E3t : threads (scheduler y3) !! t = Some v2) by (rewrite Th, Ev2, decide_False; [done|]; intros [_ ?]; congruence).
    assert (Nt : t <> currThread (scheduler y)) by (intros ->; congruence). pose proof (K4 t Nt) as Kt. rewrite E3t in Kt. apply kept_state in Kt as [-> _]. cbn. by rewrite Sv2.
  - destruct Q4 as [->|(w & Hw & Ew & Sw)]; [by left|right]. exists w. split_and!; [done|done|]. intros Pw. rewrite L4, Li, L2 in Hw. apply list_elem_of_filter in Hw as [Nw [_ Hw]%list_elem_of_filter].
    destruct (rd_known _ _ (me_ready _ _ _ _ _ _ _ M) _ Hw) as (v & Ev & _). destruct (V2 _ v Ev) as (v2 & Ev2 & Pv2 & _). pose proof (K4 _ Nw) as Kt. rewrite Ew in Kt.
    rewrite Th, Ev2 in Kt. destruct (decide (_ /\ _)) as [[_ Po]|No].
    + unfold ended in Kt. destruct (thr_refs v2 <=? 1); [done|]. apply kept_state in Kt as [Kt _]. cbn in Kt. rewrite Sw in Kt. done.
    + apply kept_state in Kt as [_ Kt]. cbn in Kt. apply No. split; [by rewrite L2|congruence].
Qed.
End Whole.

End System.

Module Demo.
Import Process.Demo.

(** The first process and its child, see Process. *)
Definition two : procs := match run_calls root set_ (take 2 demo_calls) st0 with Ret (_, st) => st | _ => st0 end.
Definition family2 : list (Z * aproc) := family (spec_calls (take 2 demo_calls) s0).2.
Lemma two_represents : represents set_ setObject two (spec_calls (take 2 demo_calls) s0).2.
Proof.
  destruct started as [R U]. destruct (run_calls_spec root set_ setObject (take 2 demo_calls) ltac:(done) {[100; 200]} st0 s0 R U) as (st1 & E & R1).
  - cbn [demo_calls take calls_ok call_ok]. split_and!; [demo_create|demo_create|done].
  - unfold two. rewrite E. exact R1.
Qed.

(** The child has three threads: one that runs, one that waits somewhere and
    one that does not run; the parent's waits for the child. *)
Definition thread (par st refs : Z) : Thread := {| Sched.parent := par; Sched.state := st; quantums := 3; priority := 16; thr_id := 0; preemptCount := 0; thr_refs := refs |}.
Definition demo_sched : sched :=
  {| threads := {[1 := thread 0 Sched.THR_RUNNING 1; 51 := thread 2000 Sched.THR_RUNNING 1; 52 := thread 2000 THR_PAUSED 2; 53 := thread 2000 THR_PAUSED 1; 61 := thread 1000 THR_PAUSED 2]};
     threadList := [51; 61; 52; 53]; currThread := 51; nrRunning := 1; thrNeedSchedule := false; cIds := ∅ |}.
(** What was given back, in order. *)
#[local] Instance demo_resources : ProcessResources (list (Z * Z)) :=
  {| MmapProcessRemove p l := l ++ [(1, p)]; LoadReleaseFsContext p l := l ++ [(2, p)]; VirtDestroyMemManager p l := l ++ [(3, p)] |}.
Definition demo_system : system (W := list (Z * Z)) :=
  {| processes := two; scheduler := demo_sched;
     timerList := [{| tid := 71; func := 0; tdata := 0; owner := 51; expires := 10 |}; {| tid := 72; func := 0; tdata := 0; owner := 61; expires := 20 |}];
     waitQueues := {[1000 := [(9, 61)]]}; lastMathThread := 53; resources := [] |}.
Lemma demo_may_exit : may_exit 1 set_ setObject 2000 demo_system family2 {| apid := 1; astat := Running; apar := Some 1000 |}.
Proof.
  destruct two_represents as [R Se _ _]. split; [exact R|exact Se|split; [|done]| | | |done|].
  - apply lookup_p_elem. vm_compute. reflexivity.
  - split.
    + vm_compute. repeat constructor; set_solver.
    + intros t Ht. cbn [demo_system scheduler demo_sched threadList] in Ht. rewrite !elem_of_cons in Ht. destruct Ht as [->|[->|[->|[->|H]]]]; [eexists; split; [reflexivity|done]..|by apply elem_of_nil in H].
    + vm_compute. set_solver.
    + vm_compute. set_solver.
    + by eexists.
  - split; [vm_compute; set_solver|]. eexists. split; [reflexivity|]. by vm_compute.
  - intros t Ht. change (t ∈ [61]) in Ht. apply list_elem_of_singleton in Ht as ->. eexists. split; [reflexivity|]. by vm_compute.
  - vm_compute. repeat constructor; set_solver.
Qed.
Lemma ThrProcessExit_ends_threads_witness : exists y' mm switched, ThrProcessExit 1 2000 7 demo_system = Ret (y', mm, switched)
  /\ resources y' = [(1, 2000); (2, 2000); (3, 2000)] /\ threads (scheduler y') !! 51 = None /\ threads (scheduler y') !! 53 = None /\ Sched.state <$> threads (scheduler y') !! 52 = Some Sched.THR_DYING
  /\ Sched.state <$> threads (scheduler y') !! 61 = Some Sched.THR_RUNNING /\ (forall m, m ∈ timerList y' -> owner m <> 51).
Proof.
  destruct (ThrProcessExit_ends_threads 1 set_ setObject ltac:(done) 2000 7 demo_system family2 _ demo_may_exit) as (y' & mm & sw & E & _ & Rs & Own & Oth & _). exists y', mm, sw. split; [exact E|]. split; [exact Rs|].
  assert (Mem : forall t, In t [51; 61; 52; 53] -> t ∈ threadList (scheduler demo_system)) by (intros t; apply list_elem_of_In).
  destruct (Own 51 (thread 2000 Sched.THR_RUNNING 1) ltac:(apply Mem; cbn; tauto) ltac:(reflexivity) eq_refl) as [Ti O1].
  destruct (Own 53 (thread 2000 THR_PAUSED 1) ltac:(apply Mem; cbn; tauto) ltac:(reflexivity) eq_refl) as [_ O3].
  destruct (Own 52 (thread 2000 THR_PAUSED 2) ltac:(apply Mem; cbn; tauto) ltac:(reflexivity) eq_refl) as [_ O2].
  rewrite decide_True in O1 by (by left). rewrite decide_True in O3 by (right; cbn; lia). rewrite decide_False in O2 by (cbn; lia).
  split_and!; [apply O1|apply O3|exact O2| |exact Ti]. rewrite (Oth 61 (thread 1000 THR_PAUSED 2) ltac:(reflexivity) ltac:(done)). reflexivity.
Defined.

(** A thread that waits when its process exits is started again by the
    next wake-up of its queue. *)
Example dead_thread_runs : exists y' mm switched q s, ThrProcessExit 1 2000 7 demo_system = Ret (y', mm, switched)
  /\ WakeUp [(8, 52)] (scheduler y') = Ret (q, s) /\ Sched.state <$> threads s !! 52 = Some Sched.THR_RUNNING.
Proof. eexists _, _, _, _, _. split_and!; vm_compute; reflexivity. Qed.
End Demo.
