(* ===== verification/Load.v ===== *)
(** * The arguments of a program (fs/vfs/load.c)

    Exec copies the strings of argv, the last one first, and then the name
    of the process to fresh page frames, maps the frames into the new
    address space and pushes the addresses of the strings in the order in
    which they lie there, so that the stack grows down to an array that
    begins with the name.  A script has the name of its interpreter put
    before that.

    [memory] is what the current address space shows, from which the strings
    are read; the frames are in [frames], and PageAlloc takes them from
    [freeFrames] (PageAlloc has the allocator).  A frame that is mapped for a
    moment is written through the window of VirtAllocateTemp (Virt).  The new
    process sees its frames at the addresses of [view]; what is pushed on its
    stack is the list of the words from the stack pointer up. *)

From Stdlib Require Import String Ascii.
From stdpp Require Import list.
From S2P Require Import Prelude CString.

(** ** Model *)

Definition NUM_ARG_PAGES : Z := 32.
Definition ARCH_STACK_TOP : Z := 0xC0000000.

(** The fields of struct ExecArgs that the arguments use. *)
Record ExecArgs := { argPages : list Z; stackPos : Z; argc : Z }.
Record loader := { args : ExecArgs; frames : mem; freeFrames : list Z }.
Definition with_args v st := {| args := v; frames := frames st; freeFrames := freeFrames st |}.
Definition with_frames v st := {| args := args st; frames := v; freeFrames := freeFrames st |}.
Definition with_pages v a := {| argPages := v; stackPos := stackPos a; argc := argc a |}.
Definition with_pos v a := {| argPages := argPages a; stackPos := v; argc := argc a |}.
Definition with_argc v a := {| argPages := argPages a; stackPos := stackPos a; argc := v |}.

Definition zero_frame : list Z := repeat 0 (Z.to_nat PAGE_SIZE).

Definition ExecSetupContext : ExecArgs := {| argPages := repeat 0 (Z.to_nat NUM_ARG_PAGES); stackPos := 0; argc := 0 |}.

Section Load.
(** Whether the window of VirtAllocateTemp has room. *)
Context (memory : mem) (window : bool).

(** [while (strings[i] != NULL) if (++i >= max) return -ENOMEM;] *)
Fixpoint count_args (fuel : nat) (strings i max : Z) : outcome Z :=
  match fuel with
  | O => NoFuel
  | S fuel =>
      let* p := load32 memory (u32 (strings + 4 * i)) in
      if p =? 0 then Ret i
      else if max <=? i + 1 then Ret (- ENOMEM)
      else count_args fuel strings (i + 1) max
  end.
Definition ExecCountArgs (fuel : nat) (strings max : Z) : outcome Z :=
  if strings =? 0 then Ret 0 else count_args fuel strings 0 max.

(** The bytes memcpy reads. *)
Fixpoint fetch (n : nat) (p : Z) : outcome (list Z) :=
  match n with
  | O => Ret []
  | S n => let* c := load memory p in let* l := fetch n (p + 1) in Ret (c :: l)
  end.

(** The page of the position, which is mapped at currVirtPage when the result
    is [Some]; [curr] is the frame that is mapped, 0 for none. *)
Definition arg_page (curr : Z) (st : loader) : outcome (option Z * loader) :=
  let i := Z.shiftr (stackPos (args st)) 12 in
  let* page := of_option (zlookup (argPages (args st)) i) in
  if page =? 0 then
    match freeFrames st with
    | [] => Ret (None, st)
    | p :: ps =>
        let* l := of_option (zupdate (argPages (args st)) i p) in
        let st := {| args := with_pages l (args st); frames := frames st; freeFrames := ps |} in
        if window then Ret (Some p, with_frames (write (frames st) p zero_frame) st) else Ret (None, st)
    end
  else if curr =? 0 then Ret (if window then Some page else None, st)
  else Ret (Some curr, st).

(** The loop over the pages of a string; every round reads it from its
    start.  [None] is an error. *)
Fixpoint copy_string (fuel : nat) (str len : Z) (curr : Z) (st : loader) : outcome (option Z * loader) :=
  if len <=? 0 then Ret (Some curr, st)
  else
    match fuel with
    | O => NoFuel
    | S fuel =>
        let off := stackPos (args st) mod PAGE_SIZE in
        let* (page, st) := arg_page curr st in
        match page with
        | None => Ret (None, st)
        | Some page =>
            let bytesToCopy := Z.min (PAGE_SIZE - off) len in
            let* bs := fetch (Z.to_nat bytesToCopy) str in
            let st := with_frames (write (frames st) (page + off) bs) st in
            let st := with_args (with_pos (u32 (stackPos (args st) + bytesToCopy)) (args st)) st in
            copy_string fuel str (len - bytesToCopy) page st
        end
    end.

(** The strings from number [n] - 1 down to 0. *)
Fixpoint copy_strings (fuel : nat) (strings : Z) (n : nat) (curr : Z) (st : loader) : outcome loader :=
  match n with
  | O => Ret st
  | S n =>
      let* str := load32 memory (u32 (strings + 4 * Z.of_nat n)) in
      let* len := strlen fuel str memory in
      let* (page, st) := copy_string fuel str (s32 (len + 1)) curr st in
      match page with
      | None => Ret st
      | Some curr => copy_strings fuel strings n curr st
      end
  end.
(** 0 is returned on every path. *)
Definition ExecCopyStrings (fuel : nat) (strings count : Z) (st : loader) : outcome loader :=
  copy_strings fuel strings (Z.to_nat count) 0 (with_args (with_argc (s32 (argc (args st) + count)) (args st)) st).

(** The pages the new process sees; [argAddr] is what MMapDo returns. *)
Fixpoint map_args (n : nat) (i : Z) (argAddr : Z) (pages : list Z) : outcome (list (Z * Z)) :=
  match n with
  | O => Ret []
  | S n =>
      let* p := of_option (zlookup pages i) in
      let* l := map_args n (i + 1) argAddr pages in
      Ret ((u32 (argAddr + PAGE_SIZE * i), p) :: l)
  end.
Definition ExecSetupArgs (argAddr : Z) (st : loader) : outcome (Z * list (Z * Z)) :=
  if argAddr =? 0 then Ret (- ENOMEM, [])
  else
    let* l := map_args (Z.to_nat (PAGE_ALIGN_UP (stackPos (args st)) / PAGE_SIZE)) 0 argAddr (argPages (args st)) in
    Ret (0, l).

(** [name] is the address of the name field of the process. *)
Definition ExecCopyArgs (fuel : nat) (argv name argAddr : Z) (st : loader) : outcome (Z * list (Z * Z) * loader) :=
  let* argCount := ExecCountArgs fuel argv (PAGE_SIZE * NUM_ARG_PAGES) in
  if argCount <? 0 then Ret (argCount, [], st)
  else
    let* st := if argv =? 0 then Ret st else ExecCopyStrings fuel argv argCount st in
    let* st := ExecCopyStrings fuel name 1 st in
    let* (err, l) := ExecSetupArgs argAddr st in
    Ret (err, l, st).

(** ExecRemoveFirstArg: the search for the end of the string before.  What
    lies before the page is not mapped. *)
Fixpoint find_nul (fuel : nat) (p page : Z) (m : mem) : outcome Z :=
  match fuel with
  | O => NoFuel
  | S fuel =>
      let* c := load m p in
      if negb (c =? 0) && (page <? p) then find_nul fuel (p - 1) page m else Ret p
  end.
Definition ExecRemoveFirstArg (fuel : nat) (st : loader) : outcome loader :=
  if argc (args st) =? 0 then Ret st
  else if PAGE_OFFSET (stackPos (args st)) <? 2 then Fault
  else
    let* page := of_option (zlookup (argPages (args st)) (Z.shiftr (stackPos (args st)) 12)) in
    let* p := find_nul fuel (page + PAGE_OFFSET (stackPos (args st)) - 2) page (frames st) in
    Ret (with_args (with_argc (s32 (argc (args st) - 1)) (with_pos (p - page) (args st))) st).
End Load.

(** ExecScript: the name of the interpreter, and its argument or 0, in the
    line that begins the file; [m] has the first bytes of the file at
    [buffer]. *)
Definition blank (c : Z) : bool := (c =? 32) || (c =? 9).
Fixpoint trim_back (fuel : nat) (buffer copy : Z) (m : mem) : outcome mem :=
  match fuel with
  | O => NoFuel
  | S fuel =>
      if buffer <? copy then
        let copy := copy - 1 in
        let* c := load m copy in
        if blank c then let* m := store m copy 0 in trim_back fuel buffer copy m else Ret m
      else Ret m
  end.
Fixpoint skip_blanks (fuel : nat) (copy : Z) (m : mem) : outcome Z :=
  match fuel with
  | O => NoFuel
  | S fuel => let* c := load m copy in if blank c then skip_blanks fuel (copy + 1) m else Ret copy
  end.
Fixpoint skip_word (fuel : nat) (copy : Z) (m : mem) : outcome Z :=
  match fuel with
  | O => NoFuel
  | S fuel => let* c := load m copy in if negb (c =? 0) && negb (blank c) then skip_word fuel (copy + 1) m else Ret copy
  end.
(** [while (( *copy == ' ') || ( *copy == '\t')) *copy = '\0';] *)
Fixpoint end_word (fuel : nat) (copy : Z) (m : mem) : outcome mem :=
  match fuel with
  | O => NoFuel
  | S fuel => let* c := load m copy in if blank c then let* m := store m copy 0 in end_word fuel copy m else Ret m
  end.
Inductive script : Type := NotScript (err : Z) | Interp (interpName interpArg : Z).
Definition script_line (fuel : nat) (buffer : Z) (m : mem) : outcome (script * mem) :=
  let* c0 := load m buffer in
  let* c1 := if c0 =? 35 then load m (buffer + 1) else Ret 0 in
  if negb (c0 =? 35) || negb (c1 =? 33) then Ret (NotScript (- EINVAL), m)
  else
    let* m := store m (buffer + 511) 0 in
    let* copy := strchr fuel buffer 10 m in
    let copy := if copy =? 0 then buffer + 511 else copy in
    let* m := store m copy 0 in
    let* m := trim_back fuel buffer copy m in
    let* copy := skip_blanks fuel (buffer + 2) m in
    let* c := load m copy in
    if c =? 0 then Ret (NotScript (- EINVAL), m)
    else
      let interpName := copy in
      let* copy := skip_word fuel copy m in
      let* m := end_word fuel copy m in
      let* c := load m copy in
      Ret (Interp interpName (if c =? 0 then 0 else copy), m).

(** The whole of it up to ExecElf: [buffer] is what MemAlloc returns, [nread]
    what DoReadFile does, [open_err] what ExecOpen of the interpreter does;
    [nameLocal] and [argLocal] are the addresses of the variables. *)
Definition ExecScript (fuel : nat) (window : bool) (buffer nread nameField nameLocal argLocal open_err : Z) (m : mem) (st : loader) : outcome (Z * mem * loader) :=
  if nread =? 0 then Ret (- EIO, m, st)
  else
    let* (r, m) := script_line fuel buffer m in
    match r with
    | NotScript err => Ret (err, m, st)
    | Interp interpName interpArg =>
        let* m := store32 m nameLocal interpName in
        let* m := store32 m argLocal interpArg in
        if negb (open_err =? 0) then Ret (open_err, m, st)
        else
          let* st := ExecRemoveFirstArg fuel st in
          let* st := ExecCopyStrings m window fuel nameField 1 st in
          let* st := if interpArg =? 0 then Ret st else ExecCopyStrings m window fuel argLocal 1 st in
          let* st := ExecCopyStrings m window fuel nameLocal 1 st in
          Ret (0, m, st)
    end.

(** What the new process finds at the addresses of its pages. *)
Definition frame_bytes (m : mem) (p : Z) : list Z := map (fun i => default 0 (m !! (p + Z.of_nat i))) (seq 0 (Z.to_nat PAGE_SIZE)).
Definition view (m : mem) (l : list (Z * Z)) : mem := foldr (fun vp v => write v vp.1 (frame_bytes m vp.2)) ∅ l.

(** STACK_PUSH: the stack pointer and the words from there up. *)
Definition stack : Type := Z * list Z.
Definition STACK_PUSH (item : Z) (s : stack) : stack := (s.1 - 4, item :: s.2).
Definition PUSH_AUX_ENT (id value : Z) (s : stack) : stack := STACK_PUSH id (STACK_PUSH value s).

(** [while (argCount--)]: the strings are where [v] shows them. *)
Fixpoint push_args (fuel : nat) (v : mem) (argCount : nat) (addr : Z) (s : stack) : outcome stack :=
  match argCount with
  | O => Ret s
  | S n =>
      let s := STACK_PUSH addr s in
      let* len := strlen fuel addr v in
      push_args fuel v n (u32 (addr + s32 (len + 1))) s
  end.
Definition ExecSetupStack (fuel : nat) (v : mem) (argsStart count : Z) (s : stack) : outcome stack :=
  let* s := push_args fuel v (Z.to_nat count) argsStart s in
  Ret (STACK_PUSH count (STACK_PUSH s.1 s)).

Definition AT_NULL : Z := 0.
Definition AT_PHDR : Z := 3.
Definition AT_PHENT : Z := 4.
Definition AT_PHNUM : Z := 5.
Definition AT_PAGESZ : Z := 6.
Definition AT_BASE : Z := 7.
Definition AT_FLAGS : Z := 8.
Definition AT_ENTRY : Z := 9.

(** ElfCreateTables; [stack_ok] says whether ExecAllocateStack finds room. *)
Definition ElfCreateTables (fuel : nat) (v : mem) (argsStart count : Z) (stack_ok : bool) (entryPoint loadAddr phdr phEntrySize phEntries : Z) : outcome (Z * stack) :=
  if negb stack_ok then Ret (- EFAULT, (ARCH_STACK_TOP, []))
  else
    let s := (ARCH_STACK_TOP, []) in
    let s := PUSH_AUX_ENT AT_NULL 0 s in
    let s := PUSH_AUX_ENT AT_PAGESZ PAGE_SIZE s in
    let s := PUSH_AUX_ENT AT_BASE loadAddr s in
    let s := PUSH_AUX_ENT AT_ENTRY entryPoint s in
    let s := PUSH_AUX_ENT AT_PHDR phdr s in
    let s := PUSH_AUX_ENT AT_PHENT phEntrySize s in
    let s := PUSH_AUX_ENT AT_PHNUM phEntries s in
    let s := PUSH_AUX_ENT AT_FLAGS 0 s in
    let* s := ExecSetupStack fuel v argsStart count (STACK_PUSH 0 s) in
    Ret (0, s).

(** ** Where the strings lie *)

(** The strings one after the other, and none of them across the end of a page. *)
Definition packed (L : list (list Z)) : list Z := flat_map (fun s => s ++ [0]) L.
Fixpoint fits (pos : Z) (L : list (list Z)) : Prop :=
  match L with
  | [] => True
  | s :: L => pos mod PAGE_SIZE + (zlen s + 1) <= PAGE_SIZE /\ fits (pos + (zlen s + 1)) L
  end.

Definition frame (p : Z) : Prop := p mod PAGE_SIZE = 0 /\ 0 < p /\ p + PAGE_SIZE <= 2 ^ 32.
(** The page of byte number [i]. *)
Definition page_of (i : nat) : nat := i / Z.to_nat PAGE_SIZE.
Definition off_of (i : nat) : Z := Z.of_nat (i mod Z.to_nat PAGE_SIZE).

(** The bytes [B] are in the frames [used]. *)
Record laid (st : loader) (B : list Z) (used : list Z) (curr : Z) : Prop := {
  la_pos : stackPos (args st) = zlen B;
  la_pages : argPages (args st) = used ++ repeat 0 (32 - length used);
  la_used : Z.of_nat (length used) = (zlen B + (PAGE_SIZE - 1)) / PAGE_SIZE;
  la_room : (32 <= length (used ++ freeFrames st))%nat /\ (length used <= 32)%nat;
  la_nodup : NoDup (used ++ freeFrames st);
  la_frames : Forall frame (used ++ freeFrames st);
  la_bytes : forall i b, B !! i = Some b -> exists p, used !! page_of i = Some p /\ frames st !! (p + off_of i) = Some b;
  la_curr : curr = 0 \/ zlen B mod PAGE_SIZE = 0 \/ used !! page_of (length B) = Some curr;
}.

Lemma frames_apart p q o : frame p -> frame q -> p <> q -> 0 <= o < PAGE_SIZE -> p + o < q \/ q + PAGE_SIZE <= p + o.
Proof. unfold frame, PAGE_SIZE. intros (H1 & H2 & _) (H3 & H4 & _) N O. Z.to_euclidean_division_equations. lia. Qed.
Lemma fetch_bytes m l : forall p, bytes_at m p l -> fetch m (length l) p = Ret l.
Proof.
  induction l as [|c l IH]; intros p; cbn [fetch length bytes_at]; [done|]. intros [E H]. unfold load. rewrite E. cbn [of_option bindO]. by rewrite IH.
Qed.
Lemma cstr_bytes m p s : cstr m p s -> bytes_at m p (s ++ [0]).
Proof. by intros [_ H]. Qed.

Lemma page_of_Z i : Z.of_nat (page_of i) = Z.of_nat i / PAGE_SIZE.
Proof. unfold page_of. rewrite Nat2Z.inj_div, Z2Nat.id by (unfold PAGE_SIZE; lia). done. Qed.
Lemma off_of_Z i : off_of i = Z.of_nat i mod PAGE_SIZE.
Proof. unfold off_of. rewrite Nat2Z.inj_mod, Z2Nat.id by (unfold PAGE_SIZE; lia). done. Qed.
Lemma off_of_range i : 0 <= off_of i < PAGE_SIZE.
Proof. rewrite off_of_Z. apply Z.mod_pos_bound. unfold PAGE_SIZE. lia. Qed.
Lemma page_shift z : 0 <= z -> Z.shiftr z 12 = z / PAGE_SIZE.
Proof. intros. rewrite Z.shiftr_div_pow2 by lia. done. Qed.

Lemma laid_frame st B used curr i p : laid st B used curr -> used !! i = Some p -> frame p.
Proof. intros La E. pose proof (la_frames _ _ _ _ La) as F. rewrite Forall_app in F. destruct F as [F _]. by eapply Forall_lookup_1 in F. Qed.

Section Copying.
Context (memory : mem).

(** The page for the next string: a new one at the start of a page, the last
    one otherwise. *)
Definition next_page st B used curr n : Prop :=
  exists page st' used', arg_page true curr st = Ret (Some page, st') /\ used' !! page_of (length B) = Some page
    /\ stackPos (args st') = stackPos (args st) /\ argc (args st') = argc (args st)
    /\ argPages (args st') = used' ++ repeat 0 (32 - length used') /\ Z.of_nat (length used') = (zlen B + (n - 1)) / PAGE_SIZE + 1
    /\ used' ++ freeFrames st' = used ++ freeFrames st /\ (length used' <= 32)%nat
    /\ (forall i b, B !! i = Some b -> exists p, used' !! page_of i = Some p /\ frames st' !! (p + off_of i) = Some b).
Lemma next_new st B used curr n : laid st B used curr -> 0 < n <= PAGE_SIZE -> zlen B mod PAGE_SIZE = 0 -> zlen B + n <= NUM_ARG_PAGES * PAGE_SIZE -> next_page st B used curr n.
Proof.
  intros La N0 M0 Max. pose proof (la_used _ _ _ _ La) as Lu. pose proof (zlen_nonneg B) as Zp. pose proof (la_room _ _ _ _ La) as [Rm Rm2].
  assert (Lq : Z.of_nat (length used) = zlen B / PAGE_SIZE) by (rewrite Lu; unfold PAGE_SIZE in *; Z.to_euclidean_division_equations; lia).
  assert (L32 : (length used < 32)%nat) by (unfold NUM_ARG_PAGES, PAGE_SIZE in *; Z.to_euclidean_division_equations; lia).
  rewrite length_app in Rm. unfold next_page, arg_page. rewrite (la_pos _ _ _ _ La), page_shift, <- Lq, (la_pages _ _ _ _ La) by done. pose proof (la_frames _ _ _ _ La) as Fr. pose proof (la_nodup _ _ _ _ La) as Nd.
  unfold zlookup. rewrite (proj2 (Z.leb_le 0 _)), Nat2Z.id, lookup_app_r by lia. rewrite Nat.sub_diag. replace (32 - length used)%nat with (S (31 - length used)) by lia. cbn [repeat]. change ((0 :: ?l) !! 0%nat) with (Some 0). cbn [of_option bindO].
  change (0 =? 0) with true. cbn match. destruct (freeFrames st) as [|p ps] eqn:Ef; [cbn in Rm; lia|]. rewrite zupdate_lt by (rewrite length_app; cbn; lia). cbn [of_option bindO]. rewrite Nat2Z.id.
  rewrite insert_app_r_alt, Nat.sub_diag by lia. cbn [list_insert insert].
  eexists _, _, (used ++ [p]). split; [reflexivity|]. cbn [with_frames with_pages args stackPos argc argPages frames freeFrames].
  assert (Pq : page_of (length B) = length used) by (apply Nat2Z.inj; rewrite page_of_Z, Lq; done).
  split_and!; [rewrite Pq; by apply list_lookup_middle|by rewrite ?(la_pos _ _ _ _ La)|done| | |by rewrite <- app_assoc|rewrite length_app; cbn; lia|].
  - rewrite length_app, <- app_assoc. cbn. do 3 f_equal. lia.
  - rewrite length_app. cbn. unfold PAGE_SIZE in *. Z.to_euclidean_division_equations; lia.
  - intros i b Hi. destruct (la_bytes _ _ _ _ La i b Hi) as (q & Eq & Ef'). exists q. split; [by apply lookup_app_l_Some|]. rewrite write_other; [done|].
    apply Forall_app in Fr as [Fr1 Fr2]. apply Forall_cons in Fr2 as [Fp _]. pose proof (Forall_lookup_1 _ _ _ _ Fr1 Eq) as Fq.
    assert (q <> p). { intros ->. apply NoDup_app in Nd as (_ & Nd & _). apply (Nd p); [by eapply list_elem_of_lookup_2|left]. }
    pose proof (frames_apart q p (off_of i) Fq Fp ltac:(done) (off_of_range i)). unfold zlen, zero_frame. rewrite repeat_length. unfold PAGE_SIZE in *. lia.
Qed.
Lemma next_same st B used curr n : laid st B used curr -> 0 < n -> zlen B mod PAGE_SIZE + n <= PAGE_SIZE -> zlen B mod PAGE_SIZE <> 0 -> next_page st B used curr n.
Proof.
  intros La N0 Fit M0. pose proof (la_used _ _ _ _ La) as Lu. pose proof (zlen_nonneg B) as Zp. pose proof (la_room _ _ _ _ La) as [Rm Rm2].
  assert (Lq : Z.of_nat (length used) = zlen B / PAGE_SIZE + 1) by (rewrite Lu; unfold PAGE_SIZE in *; Z.to_euclidean_division_equations; lia).
  assert (Pq : Z.of_nat (page_of (length B)) = zlen B / PAGE_SIZE) by apply page_of_Z. destruct (lookup_lt_is_Some_2 used (page_of (length B))) as [c Ec]; [lia|].
  pose proof (laid_frame _ _ _ _ _ _ La Ec) as (_ & C0 & _). exists c, st, used.
  unfold arg_page. rewrite (la_pos _ _ _ _ La), page_shift, (la_pages _ _ _ _ La), <- Pq by done. unfold zlookup. rewrite (proj2 (Z.leb_le 0 _)), Nat2Z.id by lia. rewrite (lookup_app_l_Some _ _ _ _ Ec). cbn [of_option bindO].
  rewrite (proj2 (Z.eqb_neq c 0)) by lia. split; [|split_and!; [exact Ec|by rewrite ?(la_pos _ _ _ _ La)|done|by rewrite ?(la_pages _ _ _ _ La)| |done|done|apply (la_bytes _ _ _ _ La)]].
  - destruct (la_curr _ _ _ _ La) as [->|[?|Ecr]]; [done|done|]. assert (curr = c) as -> by congruence. by rewrite (proj2 (Z.eqb_neq c 0)) by lia.
  - rewrite Lq. unfold PAGE_SIZE in *. Z.to_euclidean_division_equations; lia.
Qed.

(** A string that fits on the page. *)
Lemma copy_string_fits fuel st B used curr p s : laid st B used curr -> cstr memory p s -> zlen B mod PAGE_SIZE + (zlen s + 1) <= PAGE_SIZE ->
  zlen B + (zlen s + 1) <= NUM_ARG_PAGES * PAGE_SIZE ->
  exists st' used' curr', copy_string memory true (S fuel) p (zlen s + 1) curr st = Ret (Some curr', st') /\ laid st' (B ++ s ++ [0]) used' curr'
    /\ argc (args st') = argc (args st) /\ used' ++ freeFrames st' = used ++ freeFrames st.
Proof.
  intros La Cs Fit Max. pose proof (zlen_nonneg s) as Zs. pose proof (zlen_nonneg B) as Zp. set (n := zlen s + 1) in *.
  assert (Nx : next_page st B used curr n).
  { destruct (Z.eq_dec (zlen B mod PAGE_SIZE) 0) as [M0|M0]; [apply next_new|apply next_same]; try done; try lia. }
  destruct Nx as (page & st1 & used' & E & Eu & Ps & Ac & Pg & Lu & Fu & L32 & By). pose proof (cstr_bytes _ _ _ Cs) as Bs.
  assert (Ln : zlen (s ++ [0]) = n) by (rewrite zlen_app; done). cbn [copy_string]. destruct (Z.leb_spec n 0); [lia|]. rewrite E. cbn [bindO]. rewrite (la_pos _ _ _ _ La).
  rewrite Z.min_r by lia. replace (Z.to_nat n) with (length (s ++ [0])) by (unfold zlen in *; lia). rewrite fetch_bytes by done. cbn [bindO]. rewrite Z.sub_diag.
  cbn [with_frames with_args with_pos args stackPos]. rewrite Ps, (la_pos _ _ _ _ La).
  assert (U : u32 (zlen B + n) = zlen B + n) by (apply u32_id; unfold NUM_ARG_PAGES, PAGE_SIZE in Max; lia). rewrite U.
  eexists _, used', page. split; [destruct fuel; reflexivity|]. split; [|by split]. pose proof (la_room _ _ _ _ La) as [Rm Rm2].
  assert (Pq : Z.of_nat (page_of (length B)) = zlen B / PAGE_SIZE) by apply page_of_Z.
  assert (Lb : zlen (B ++ s ++ [0]) = zlen B + n) by (by rewrite zlen_app, Ln). set (bs := s ++ [0]) in *.
  assert (Fr : forall i q, (used' ++ freeFrames st1) !! i = Some q -> frame q) by (rewrite Fu; intros i q; apply Forall_lookup_1, (la_frames _ _ _ _ La)). assert (Fp : frame page) by (apply (Fr (page_of (length B))); by apply lookup_app_l_Some).
  split; cbn [with_args with_frames with_pos args argPages stackPos frames freeFrames]; try rewrite Lb.
  - done.
  - exact Pg.
  - rewrite Lu. unfold PAGE_SIZE in *. Z.to_euclidean_division_equations; lia.
  - by rewrite Fu.
  - rewrite Fu. apply (la_nodup _ _ _ _ La).
  - rewrite Fu. apply (la_frames _ _ _ _ La).
  - intros i b Hi. apply lookup_app_Some in Hi as [Hi|[Li Hi]].
    + destruct (By i b Hi) as (q & Eq & Ef). exists q. split; [done|]. rewrite write_other; [done|]. rewrite Ln. pose proof (off_of_range i) as Oi. pose proof (lookup_lt_Some _ _ _ Hi) as Li.
      destruct (decide (page_of i = page_of (length B))) as [Ep|Np].
      * assert (q = page) as -> by congruence. rewrite off_of_Z in *. apply (f_equal Z.of_nat) in Ep. rewrite !page_of_Z in Ep. unfold zlen, PAGE_SIZE in *. Z.to_euclidean_division_equations. lia.
      * assert (Nq : q <> page). { intros ->. apply Np. pose proof (la_nodup _ _ _ _ La) as Nd. rewrite <- Fu in Nd. apply NoDup_app in Nd as [Nd _]. by eapply NoDup_lookup. }
        pose proof (frames_apart q page (off_of i) (Fr _ _ (lookup_app_l_Some _ _ _ _ Eq)) Fp Nq Oi). pose proof (Z.mod_pos_bound (zlen B) PAGE_SIZE ltac:(done)). lia.
    + pose proof (lookup_lt_Some _ _ _ Hi) as Lj. assert (Hn : Z.of_nat (i - length B) < n) by (unfold zlen in Ln; lia).
      assert (Pi : page_of i = page_of (length B)) by (apply Nat2Z.inj; rewrite !page_of_Z; unfold zlen, PAGE_SIZE in *; Z.to_euclidean_division_equations; lia).
      exists page. rewrite Pi. split; [done|]. pose proof (write_bytes (frames st1) (page + zlen B mod PAGE_SIZE) bs) as W. pose proof (bytes_at_load _ _ _ _ _ W Hi) as Ld.
      unfold load in Ld. replace (page + off_of i) with (page + zlen B mod PAGE_SIZE + Z.of_nat (i - length B)); [by destruct (write _ _ _ !! _) as [x|]; [injection Ld as ->|]|].
      rewrite off_of_Z. unfold zlen, PAGE_SIZE in *. Z.to_euclidean_division_equations; lia.
  - destruct (Z.eq_dec ((zlen B + n) mod PAGE_SIZE) 0) as [M|M]; [by right; left|right; right]. rewrite <- Eu. f_equal. apply Nat2Z.inj. rewrite !page_of_Z. fold (zlen (B ++ bs)) (zlen B). rewrite Lb.
    unfold PAGE_SIZE in *. Z.to_euclidean_division_equations; lia.
Qed.

Lemma packed_app L K : packed (L ++ K) = packed L ++ packed K.
Proof. apply flat_map_app. Qed.
Lemma packed_one s : packed [s] = s ++ [0].
Proof. apply app_nil_r. Qed.
Lemma fits_app pos L K : fits pos (L ++ K) <-> fits pos L /\ fits (pos + zlen (packed L)) K.
Proof.
  revert pos. induction L as [|s L IH]; intros pos; cbn [app fits packed flat_map]; [rewrite Z.add_0_r; tauto|]. fold (packed L). rewrite IH, !zlen_app. change (zlen [0]) with 1. replace (pos + (zlen s + 1 + zlen (packed L))) with (pos + (zlen s + 1) + zlen (packed L)) by lia. tauto.
Qed.

(** The pointers at [strings] are those of the strings [ss]. *)
Definition pointers (strings : Z) (ss : list (list Z)) : Prop :=
  forall i s, ss !! i = Some s -> exists p, load32 memory (u32 (strings + 4 * Z.of_nat i)) = Ret p /\ p <> 0 /\ cstr memory p s.
Definition short (fuel : nat) (ss : list (list Z)) : Prop := Forall (fun s => (length s < fuel)%nat /\ zlen s < 2 ^ 31 - 1) ss.

Lemma copy_strings_spec fuel strings ss : pointers strings ss -> short fuel ss -> forall st B used curr, laid st B used curr -> fits (zlen B) (rev ss) ->
  zlen B + zlen (packed (rev ss)) <= NUM_ARG_PAGES * PAGE_SIZE ->
  exists st' used' curr', copy_strings memory true fuel strings (length ss) curr st = Ret st' /\ laid st' (B ++ packed (rev ss)) used' curr'
    /\ argc (args st') = argc (args st) /\ used' ++ freeFrames st' = used ++ freeFrames st.
Proof.
  induction ss as [|s ss IH] using rev_ind; intros Ptr Sh st B used curr La Fit Max.
  { exists st, used, curr. cbn. by rewrite app_nil_r. }
  rewrite rev_unit in *. change (s :: rev ss) with ([s] ++ rev ss) in *. rewrite packed_app, packed_one, zlen_app in *. apply fits_app in Fit as [[Fit _] Fits]. rewrite packed_one in Fits.
  unfold short in Sh. rewrite Forall_app, Forall_singleton in Sh. destruct Sh as [Sh [Sl1 Sl2]]. rewrite length_app, Nat.add_1_r. cbn [copy_strings].
  destruct (Ptr (length ss) s ltac:(by apply list_lookup_middle)) as (p & -> & P0 & Cs). cbn [bindO]. rewrite (strlen_cstr fuel p s) by (done || lia). cbn [bindO].
  pose proof (zlen_nonneg s). pose proof (zlen_nonneg (packed (rev ss))). rewrite s32_id by lia. assert (L1 : zlen (s ++ [0]) = zlen s + 1) by apply zlen_app.
  destruct fuel as [|fuel]; [lia|]. destruct (copy_string_fits fuel st B used curr p s La Cs Fit) as (st1 & used1 & curr1 & E & La1 & A1 & F1); [lia|]. rewrite E. cbn [bindO].
  destruct (IH ltac:(intros i t Hi; apply Ptr; by apply lookup_app_l_Some) Sh st1 _ used1 curr1 La1) as (st' & used' & curr' & E' & La' & A' & F'); [by rewrite zlen_app|rewrite zlen_app; lia|].
  exists st', used', curr'. split; [exact E'|]. split; [by rewrite (app_assoc B)|]. by rewrite A', F'.
Qed.

Lemma laid_args st B used curr n : laid st B used curr -> laid (with_args (with_argc n (args st)) st) B used 0.
Proof. intros []. split; try done. by left. Qed.
Lemma ExecCopyStrings_spec fuel strings ss st B used curr : pointers strings ss -> short fuel ss -> laid st B used curr -> fits (zlen B) (rev ss) ->
  zlen B + zlen (packed (rev ss)) <= NUM_ARG_PAGES * PAGE_SIZE ->
  exists st' used' curr', ExecCopyStrings memory true fuel strings (zlen ss) st = Ret st' /\ laid st' (B ++ packed (rev ss)) used' curr'
    /\ argc (args st') = s32 (argc (args st) + zlen ss) /\ used' ++ freeFrames st' = used ++ freeFrames st.
Proof.
  intros Ptr Sh La Fit Max. unfold ExecCopyStrings. replace (Z.to_nat (zlen ss)) with (length ss) by (unfold zlen; lia).
  destruct (copy_strings_spec fuel strings ss Ptr Sh (with_args (with_argc (s32 (argc (args st) + zlen ss)) (args st)) st) B used 0) as (st' & used' & curr' & E & La' & A' & F'); [by eapply laid_args|done|done|].
  by exists st', used', curr'.
Qed.

(** argv ends with a null pointer. *)
Lemma count_args_spec fuel strings ss max : pointers strings ss -> load32 memory (u32 (strings + 4 * zlen ss)) = Ret 0 -> zlen ss < max -> forall k, (k <= length ss)%nat -> (k < fuel)%nat ->
  count_args memory fuel strings (zlen ss - Z.of_nat k) max = Ret (zlen ss).
Proof.
  intros Ptr Nul Mx. induction fuel as [|fuel IH]; intros k Hk Hf; [lia|]. cbn [count_args]. destruct k as [|k].
  - rewrite Z.sub_0_r, Nul. done.
  - destruct (lookup_lt_is_Some_2 ss (length ss - S k)%nat) as [s Es]; [lia|]. destruct (Ptr _ s Es) as (p & Ep & P0 & _). unfold zlen at 1. rewrite <- Nat2Z.inj_sub, Ep by lia. cbn [bindO].
    rewrite (proj2 (Z.eqb_neq _ _) P0). unfold zlen in *. destruct (Z.leb_spec max (Z.of_nat (length ss) - Z.of_nat (S k) + 1)); [lia|]. etransitivity; [|exact (IH k ltac:(lia) ltac:(lia))]. f_equal. lia.
Qed.

(** The state before: no page is used. *)
Lemma laid_start f free : (32 <= length free)%nat -> NoDup free -> Forall frame free -> laid {| args := ExecSetupContext; frames := f; freeFrames := free |} [] [] 0.
Proof. intros L N F. split; try done; [split; [done|cbn; lia]|by left]. Qed.

Lemma map_args_spec argAddr used pages n : 0 <= argAddr -> argAddr + PAGE_SIZE * Z.of_nat (length used) <= 2 ^ 32 -> (length used = n)%nat -> (forall i p, used !! i = Some p -> pages !! i = Some p) ->
  map_args n 0 argAddr pages = Ret (imap (fun i p => (argAddr + PAGE_SIZE * Z.of_nat i, p)) used).
Proof.
  intros A0 A1 <- Hp. assert (G : forall u i, (forall j p, u !! j = Some p -> pages !! (i + j)%nat = Some p) -> argAddr + PAGE_SIZE * Z.of_nat (i + length u) <= 2 ^ 32 ->
    map_args (length u) (Z.of_nat i) argAddr pages = Ret (imap (fun j p => (argAddr + PAGE_SIZE * Z.of_nat (i + j), p)) u)).
  { intros u. induction u as [|p u IH]; intros i Hu Hl; cbn [map_args length imap]; [done|]. unfold zlookup. rewrite (proj2 (Z.leb_le 0 _)), Nat2Z.id by lia.
    pose proof (Hu 0%nat p eq_refl) as E. rewrite Nat.add_0_r in *. rewrite E. cbn [of_option bindO]. replace (Z.of_nat i + 1) with (Z.of_nat (S i)) by lia. cbn [length] in Hl. rewrite IH.
    - cbn [bindO]. rewrite u32_id by (unfold PAGE_SIZE in *; lia). do 2 f_equal. apply imap_ext. intros j q _. cbn. do 4 f_equal. lia.
    - intros j q Hj. replace (S i + j)%nat with (i + S j)%nat by lia. by apply Hu.
    - unfold PAGE_SIZE in *. lia. }
  exact (G used 0%nat Hp A1).
Qed.

(** The bytes are where the new process sees them. *)
Lemma frame_bytes_lookup m p i : (i < Z.to_nat PAGE_SIZE)%nat -> frame_bytes m p !! i = Some (default 0 (m !! (p + Z.of_nat i))).
Proof. intros H. unfold frame_bytes. rewrite list_lookup_fmap, lookup_seq_lt by done. done. Qed.
Lemma zlen_frame_bytes m p : zlen (frame_bytes m p) = PAGE_SIZE.
Proof. unfold zlen, frame_bytes. rewrite length_map, length_seq. done. Qed.
Lemma view_lookup m base used : forall i p o, used !! i = Some p -> 0 <= o < PAGE_SIZE ->
  view m (imap (fun j p => (base + PAGE_SIZE * Z.of_nat j, p)) used) !! (base + PAGE_SIZE * Z.of_nat i + o) = Some (default 0 (m !! (p + o))).
Proof.
  revert base. induction used as [|q used IH]; intros base i p o Hi Ho; [done|]. cbn [imap view foldr fst snd]. rewrite Z.mul_0_r, Z.add_0_r. destruct i as [|i].
  - injection Hi as ->. rewrite Z.mul_0_r, Z.add_0_r. pose proof (write_bytes (view m (imap ((fun j p => (base + PAGE_SIZE * Z.of_nat j, p)) ∘ S) used)) base (frame_bytes m p)) as W.
    assert (Lo : (Z.to_nat o < Z.to_nat PAGE_SIZE)%nat) by lia. pose proof (bytes_at_load _ _ _ _ _ W (frame_bytes_lookup m p _ Lo)) as Ld. rewrite Z2Nat.id in Ld by lia.
    unfold load in Ld. fold (view m (imap ((fun j p => (base + PAGE_SIZE * Z.of_nat j, p)) ∘ S) used)). by destruct (write _ _ _ !! _) as [x|]; [injection Ld as ->|].
  - cbn in Hi. rewrite write_other by (rewrite zlen_frame_bytes; unfold PAGE_SIZE in *; lia). specialize (IH (base + PAGE_SIZE) i p o Hi Ho).
    replace (base + PAGE_SIZE * Z.of_nat (S i) + o) with (base + PAGE_SIZE + PAGE_SIZE * Z.of_nat i + o) by lia. rewrite <- IH. f_equal. unfold view. f_equal. apply imap_ext. intros j r _. cbn. f_equal. lia.
Qed.
Lemma view_bytes st B used curr base : laid st B used curr -> bytes_at (view (frames st) (imap (fun j p => (base + PAGE_SIZE * Z.of_nat j, p)) used)) base B.
Proof.
  intros La. assert (G : forall i b, B !! i = Some b -> view (frames st) (imap (fun j p => (base + PAGE_SIZE * Z.of_nat j, p)) used) !! (base + Z.of_nat i) = Some b).
  { intros i b Hi. destruct (la_bytes _ _ _ _ La i b Hi) as (p & Ep & Eb). pose proof (view_lookup (frames st) base used _ p (off_of i) Ep (off_of_range i)) as V. rewrite Eb in V. cbn in V. rewrite <- V. f_equal.
    rewrite page_of_Z, off_of_Z. unfold PAGE_SIZE. Z.to_euclidean_division_equations; lia. }
  revert G. generalize (view (frames st) (imap (fun j p => (base + PAGE_SIZE * Z.of_nat j, p)) used)) as v. clear. revert base. induction B as [|b B IH]; intros base v G; [done|]. split.
  - specialize (G 0%nat b eq_refl). by rewrite Z.add_0_r in G.
  - apply IH. intros i c Hi. rewrite <- (G (S i) c Hi). f_equal. lia.
Qed.
End Copying.

(** ** What the program finds on its stack *)

(** The addresses of strings one after the other. *)
Fixpoint addresses (addr : Z) (L : list (list Z)) : list Z := match L with [] => [] | s :: L => addr :: addresses (addr + (zlen s + 1)) L end.
Lemma addresses_length addr L : length (addresses addr L) = length L.
Proof. revert addr. induction L as [|s L IH]; intros addr; cbn; [done|]. by rewrite IH. Qed.

Lemma addresses_strings v L : forall addr, Forall (Forall (fun c => 0 < c < 256)) L -> bytes_at v addr (packed L) -> Forall2 (cstr v) (addresses addr L) L.
Proof.
  induction L as [|s L IH]; intros addr F B; [constructor|]. apply Forall_cons in F as [Fs F]. cbn [packed flat_map] in B. fold (packed L) in B. apply bytes_at_app in B as [Bs B]. constructor.
  - by split.
  - apply IH; [done|]. by rewrite zlen_app in B.
Qed.
Lemma push_args_spec fuel v L : short fuel L -> forall addr s, Forall (Forall (fun c => 0 < c < 256)) L -> bytes_at v addr (packed L) -> 0 <= addr -> addr + zlen (packed L) < 2 ^ 32 ->
  push_args fuel v (length L) addr s = Ret (s.1 - 4 * zlen L, rev (addresses addr L) ++ s.2).
Proof.
  induction L as [|x L IH]; intros Sh addr s F B A0 A1.
  { destruct s as [p w]. cbn. by rewrite Z.sub_0_r. }
  apply Forall_cons in F as [Fx F]. apply Forall_cons in Sh as [[Sl1 Sl2] Sh]. cbn [packed flat_map] in B, A1. fold (packed L) in B, A1. rewrite !zlen_app in A1. change (zlen [0]) with 1 in A1. apply bytes_at_app in B as [Bx B]. rewrite zlen_app in B.
  pose proof (zlen_nonneg x). pose proof (zlen_nonneg (packed L)). cbn [length push_args]. rewrite (strlen_cstr fuel addr x v) by (lia || (by split)). cbn [bindO]. rewrite s32_id, u32_id by lia.
  rewrite IH by (lia || done). cbn [addresses rev STACK_PUSH fst snd]. rewrite <- app_assoc, zlen_cons. cbn [app]. do 2 f_equal. lia.
Qed.

Lemma Forall2_rev_r {A B} (R : A -> B -> Prop) l k : Forall2 R l k -> Forall2 R (rev l) (rev k).
Proof. induction 1; cbn; [constructor|]. by apply Forall2_app; [|constructor]. Qed.
Lemma pages_up z : 0 <= z < 2 ^ 31 -> PAGE_ALIGN_UP z / PAGE_SIZE = (z + (PAGE_SIZE - 1)) / PAGE_SIZE.
Proof. intros. rewrite PAGE_ALIGN_UP_eq by (unfold PAGE_SIZE; lia). unfold PAGE_SIZE. Z.to_euclidean_division_equations; lia. Qed.

(** The strings of the program, in the order in which they lie. *)
Definition placed (name : list Z) (argv : list (list Z)) : list (list Z) := rev argv ++ [name].

Section Passing.
Context (memory : mem) (fuel : nat) (argv nameField argAddr : Z) (name : list Z) (ss : list (list Z)).
Context (Nonnull : argv <> 0) (Argv : pointers memory argv ss) (Last : load32 memory (u32 (argv + 4 * zlen ss)) = Ret 0) (Count : (length ss < fuel)%nat) (Name : pointers memory nameField [name]).
Context (Short : short fuel (placed name ss)) (Fits : fits 0 (placed name ss)) (Max : zlen (packed (placed name ss)) <= NUM_ARG_PAGES * PAGE_SIZE).
Context (Addr : 0 < argAddr /\ argAddr + NUM_ARG_PAGES * PAGE_SIZE < 2 ^ 32).

Lemma packed_count L : zlen L <= zlen (packed L).
Proof. induction L as [|s L IH]; [done|]. cbn [packed flat_map]. fold (packed L). rewrite zlen_cons, !zlen_app. change (zlen [0]) with 1. pose proof (zlen_nonneg s). lia. Qed.
Lemma strings_few : zlen ss + 1 <= NUM_ARG_PAGES * PAGE_SIZE.
Proof using All. pose proof (packed_count (placed name ss)) as H. unfold placed in H at 1. rewrite zlen_app in H. unfold zlen in *. rewrite length_rev in H. cbn in H. lia. Qed.
Lemma strings_bytes : Forall (Forall (fun c => 0 < c < 256)) (placed name ss).
Proof using Argv Name.
  apply Forall_app. split; [apply Forall_rev, Forall_lookup_2; intros i s Hi; by destruct (Argv i s Hi) as (p & _ & _ & [F _])|].
  apply Forall_singleton. by destruct (Name 0%nat name eq_refl) as (p & _ & _ & [F _]).
Qed.

Lemma ExecCopyArgs_spec f free : (32 <= length free)%nat -> NoDup free -> Forall frame free -> exists l st,
  ExecCopyArgs memory true fuel argv nameField argAddr {| args := ExecSetupContext; frames := f; freeFrames := free |} = Ret (0, l, st)
  /\ argc (args st) = zlen ss + 1 /\ bytes_at (view (frames st) l) argAddr (packed (placed name ss)).
Proof using All.
  intros F32 Nd Fr. pose proof (laid_start f free F32 Nd Fr) as La. pose proof strings_few as Few. pose proof (zlen_nonneg ss) as Zs. unfold placed, short in *. apply fits_app in Fits as [Fit1 Fit2]. rewrite packed_app, zlen_app in Max. apply Forall_app in Short as [Sh1 Sh2].
  pose proof (zlen_nonneg (packed (rev ss))) as Zr. pose proof (zlen_nonneg (packed [name])) as Zn. apply Forall_rev in Sh1. rewrite rev_involutive in Sh1.
  destruct (ExecCopyStrings_spec memory fuel argv ss _ [] [] 0 Argv Sh1 La Fit1) as (st1 & u1 & c1 & E1 & La1 & A1 & F1); [change (@zlen Z []) with 0; lia|]. cbn [app] in La1.
  destruct (ExecCopyStrings_spec memory fuel nameField [name] st1 _ u1 c1 Name Sh2 La1 Fit2) as (st2 & u2 & c2 & E2 & La2 & A2 & F2); [change (rev [name]) with [name]; cbn [app]; lia|]. change (rev [name]) with [name] in La2. cbn [app] in La2.
  pose proof (la_used _ _ _ _ La2) as Lu. rewrite zlen_app in Lu. pose proof (la_room _ _ _ _ La2) as [_ L32].
  eexists _, st2. split; [|split].
  - unfold ExecCopyArgs, ExecCountArgs. rewrite (proj2 (Z.eqb_neq _ _) Nonnull). pose proof (count_args_spec memory fuel argv ss (PAGE_SIZE * NUM_ARG_PAGES) Argv Last) as C. specialize (C ltac:(lia) (length ss) ltac:(lia) Count).
    unfold zlen in C at 1. rewrite Z.sub_diag in C. rewrite C. cbn [bindO]. rewrite (proj2 (Z.ltb_ge _ _) Zs), E1. cbn [bindO]. change 1 with (zlen [name]). rewrite E2. cbn [bindO].
    unfold ExecSetupArgs. rewrite (proj2 (Z.eqb_neq argAddr 0)), (la_pos _ _ _ _ La2), zlen_app, pages_up, <- Lu, Nat2Z.id by (unfold NUM_ARG_PAGES, PAGE_SIZE in *; lia).
    rewrite (map_args_spec argAddr u2) by (done || unfold NUM_ARG_PAGES, PAGE_SIZE in *; lia || intros i p Hi; rewrite (la_pages _ _ _ _ La2); by apply lookup_app_l_Some). reflexivity.
  - rewrite A2, A1. cbn [args argc ExecSetupContext]. change (zlen [name]) with 1. unfold NUM_ARG_PAGES, PAGE_SIZE in Few. rewrite !s32_id; rewrite ?s32_id; lia.
  - rewrite packed_app. exact (view_bytes st2 _ u2 c2 argAddr La2).
Qed.

(** The words of [ElfCreateTables]. *)
Lemma ElfCreateTables_spec v count entryPoint loadAddr phdr phEntrySize phEntries : count = zlen ss + 1 -> bytes_at v argAddr (packed (placed name ss)) ->
  exists sp ptrs, ElfCreateTables fuel v argAddr count true entryPoint loadAddr phdr phEntrySize phEntries
      = Ret (0, (sp, count :: sp + 8 :: ptrs ++ [0; AT_FLAGS; 0; AT_PHNUM; phEntries; AT_PHENT; phEntrySize; AT_PHDR; phdr; AT_ENTRY; entryPoint; AT_BASE; loadAddr; AT_PAGESZ; PAGE_SIZE; AT_NULL; 0]))
    /\ sp = ARCH_STACK_TOP - 4 * (2 + zlen ptrs + 17) /\ Forall2 (cstr v) ptrs (name :: ss).
Proof using All.
  intros -> B. set (L := placed name ss) in *. exists (ARCH_STACK_TOP - 4 * (2 + zlen (rev (addresses argAddr L)) + 17)), (rev (addresses argAddr L)).
  assert (Ll : length L = S (length ss)) by (unfold L, placed; rewrite length_app, length_rev; cbn; lia). split; [|split; [done|]].
  - unfold ElfCreateTables, ExecSetupStack. cbn [negb]. replace (Z.to_nat (zlen ss + 1)) with (length L) by (unfold zlen; lia).
    rewrite (push_args_spec fuel v L Short argAddr _ strings_bytes B) by lia. cbn [bindO STACK_PUSH PUSH_AUX_ENT fst snd].
    assert (Lr : zlen (rev (addresses argAddr L)) = zlen L) by (unfold zlen; by rewrite length_rev, addresses_length). rewrite Lr. generalize ARCH_STACK_TOP (zlen L). intros top n. unfold STACK_PUSH. cbn [fst snd].
    match goal with |- context [?a :: rev _ ++ _] => replace a with (top - 4 * (2 + n + 17) + 8) by lia end. do 3 f_equal. lia.
  - replace (name :: ss) with (rev L) by (unfold L, placed; by rewrite rev_unit, rev_involutive). apply Forall2_rev_r, addresses_strings; [exact strings_bytes|exact B].
Qed.

(** C16: A program finds its arguments.  Exec copies the name of the process
    and the strings of argv, ElfCreateTables builds the table; the words at
    the stack pointer are then the number of strings, the address of the
    array, the array itself, which begins with the name and has the strings
    in their order, and the auxiliary entries.  No string may cross the end
    of a page. *)
Theorem exec_passes_arguments f free entryPoint loadAddr phdr phEntrySize phEntries :
  (32 <= length free)%nat -> NoDup free -> Forall frame free -> exists l st sp ptrs,
  ExecCopyArgs memory true fuel argv nameField argAddr {| args := ExecSetupContext; frames := f; freeFrames := free |} = Ret (0, l, st)
  /\ ElfCreateTables fuel (view (frames st) l) argAddr (argc (args st)) true entryPoint loadAddr phdr phEntrySize phEntries
      = Ret (0, (sp, zlen (name :: ss) :: sp + 8 :: ptrs ++ [0; AT_FLAGS; 0; AT_PHNUM; phEntries; AT_PHENT; phEntrySize; AT_PHDR; phdr; AT_ENTRY; entryPoint; AT_BASE; loadAddr; AT_PAGESZ; PAGE_SIZE; AT_NULL; 0]))
  /\ Forall2 (cstr (view (frames st) l)) ptrs (name :: ss) /\ sp = ARCH_STACK_TOP - 4 * (2 + zlen ptrs + 17).
Proof using All.
  intros F32 Nd Fr. destruct (ExecCopyArgs_spec f free F32 Nd Fr) as (l & st & E & A & B).
  destruct (ElfCreateTables_spec _ _ entryPoint loadAddr phdr phEntrySize phEntries A B) as (sp & ptrs & T & Sp & P).
  exists l, st, sp, ptrs. rewrite T, A, zlen_cons. done.
Qed.
End Passing.

(** ** Scripts *)

Lemma end_word_other fuel copy m m' : end_word fuel copy m = Ret m' -> forall c, load m copy = Ret c -> load m' copy = Ret (if blank c then 0 else c).
Proof.
  destruct fuel as [|[|fuel]]; cbn [end_word]; [done| |].
  - intros E c Ec. rewrite Ec in *. cbn [bindO] in E. destruct (blank c) eqn:Eb; [|by injection E as <-]. by destruct (store m copy 0).
  - intros E c Ec. rewrite Ec in E. cbn [bindO] in E. destruct (blank c) eqn:Eb; [|by injection E as <-]. unfold store in E. unfold load in Ec.
    destruct (m !! copy) as [d|]; [|done]. cbn [bindO] in E. unfold load in E at 1. rewrite lookup_insert_eq in E. cbn [of_option bindO] in E. injection E as <-. unfold load. by rewrite lookup_insert_eq.
Qed.
Lemma skip_word_end fuel copy m r : skip_word fuel copy m = Ret r -> exists c, load m r = Ret c /\ (c = 0 \/ blank c = true).
Proof.
  revert copy. induction fuel as [|fuel IH]; intros copy; cbn [skip_word]; [done|]. destruct (load m copy) as [c| | |] eqn:El; cbn [bindO]; try done.
  destruct (c =? 0) eqn:E0; [|destruct (blank c) eqn:Eb; cbn [negb andb]; [|apply IH]]; intros [= <-]; exists c; split; auto. left. by apply Z.eqb_eq.
Qed.
(** The argument of the interpreter is never found: the loop that ends the
    name stops at the byte it has just written. *)
Lemma script_line_no_argument fuel buffer m n a m' : script_line fuel buffer m = Ret (Interp n a, m') -> a = 0.
Proof.
  unfold script_line. intros E. repeat (match type of E with
    | bindO ?x _ = _ => destruct x eqn:?; cbn [bindO] in E; try done
    | (if ?b then _ else _) = _ => destruct b eqn:?; try done
    end).
  injection E as <- <- <-.
  match goal with Es : skip_word _ _ _ = Ret _ |- _ => apply skip_word_end in Es as (d & Ed & D) end.
  match goal with Ee : end_word _ _ _ = Ret _ |- _ => pose proof (end_word_other _ _ _ _ Ee d Ed) as L end.
  rewrite L in *. assert (a10 = 0) as -> by (destruct D as [->|Db]; [|rewrite Db in *]; cbn in *; congruence). done.
Qed.

(** ** Concrete programs *)

Module Demo.
Definition word (x : Z) : list Z := [x mod 256; x / 256 mod 256; x / 65536 mod 256; x / 16777216].
Definition bytes (t : string) : list Z := map (fun a => Z.of_nat (Ascii.nat_of_ascii a)) (String.list_ascii_of_string t).
Definition free : list Z := map (fun i => 0x200000 + PAGE_SIZE * Z.of_nat i) (seq 0 32).
(** [argv] at 0x1000, the name field at 0x900. *)
Definition prog (name : list Z) (argv : list (list Z)) : mem :=
  let place (p : Z) (s : list Z) m := write m p (s ++ [0]) in
  let ptrs := imap (fun i _ => 0x10000 + 0x2000 * Z.of_nat i) argv in
  let m := foldr (fun ip m => place ip.1 ip.2 m) (place 0xa00 name ∅) (zip ptrs argv) in
  write (write m 0x1000 (flat_map word (ptrs ++ [0]))) 0x900 (word 0xa00).
Definition start : loader := {| args := ExecSetupContext; frames := ∅; freeFrames := free |}.
(** The strings a program finds. *)
Definition got (fuel : nat) (v : mem) (ptrs : list Z) : outcome (list (list Z)) :=
  foldr (fun p r => let* n := strlen fuel p v in let* s := fetch v (Z.to_nat n) p in let* l := r in Ret (s :: l)) (Ret []) ptrs.
Definition run (fuel : nat) (name : list Z) (argv : list (list Z)) : outcome (Z * list (list Z)) :=
  let* (_, l, st) := ExecCopyArgs (prog name argv) true fuel 0x1000 0x900 0x40000000 start in
  let v := view (frames st) l in
  let* (_, s) := ElfCreateTables fuel v 0x40000000 (argc (args st)) true 0x8048000 0 0x8048034 32 2 in
  match s.2 with n :: _ :: ws => let* r := got fuel v (take (Z.to_nat n) ws) in Ret (n, r) | _ => Fault end.
Definition ls : list Z := bytes "/bin/ls".
Definition lsargs : list (list Z) := [bytes "-l"; bytes "/tmp"].
Example run_ls : run 20 ls lsargs = Ret (3, [ls; bytes "-l"; bytes "/tmp"]).
Proof. vm_compute. reflexivity. Qed.
(** A string that lies across the end of a page is copied twice from its
    start: "abc" and its end, of which two bytes fit on the page, become
    "abab", and the name follows without a separator. *)
Definition long : list Z := repeat 120 4093.
Example page_crossed : (let* (n, l) := run 5000 ls [bytes "abc"; long] in Ret (n, take 2 l)) = Ret (3, [[]; bytes "abab/bin/ls"]).
Proof. vm_compute. reflexivity. Qed.

(** A script: the line is read, and the argument of the interpreter is not found. *)
Definition line (t : string) : list Z := let b := bytes t ++ [10] in b ++ repeat 0 (512 - length b).
Definition script_prog (text : string) (name : list Z) (argv : list (list Z)) : mem := write (write (prog name argv) 0x8000 (line text)) 0x900 (word 0xa00 ++ repeat 0 8).
Definition run_script (fuel : nat) (text : string) (name : list Z) (argv : list (list Z)) : outcome (Z * list (list Z)) :=
  let m := script_prog text name argv in
  let* (_, l, st) := ExecCopyArgs m true fuel 0x1000 0x900 0x40000000 start in
  let* (_, _, st) := ExecScript fuel true 0x8000 512 0x900 0x904 0x908 0 m st in
  let v := view (frames st) l in
  let* (_, s) := ElfCreateTables fuel v 0x40000000 (argc (args st)) true 0x8048000 0 0x8048034 32 2 in
  match s.2 with n :: _ :: ws => let* r := got fuel v (take (Z.to_nat n) ws) in Ret (n, r) | _ => Fault end.
Example script_plain : run_script 600 "#! /bin/sh" (bytes "/t/run") [] = Ret (2, [bytes "/bin/sh"; bytes "/t/run"]).
Proof. vm_compute. reflexivity. Qed.
Example script_argument_lost : run_script 600 "#!/bin/sh -x " (bytes "/t/run") [] = Ret (2, [bytes "/bin/sh"; bytes "/t/run"]).
Proof. vm_compute. reflexivity. Qed.
(** ExecRemoveFirstArg takes the end of the string before with the name, so
    that string and the name are one, and as the count stays the array begins
    with the empty string that lies after the last. *)
Example script_arguments_merged : run_script 600 "#!/bin/sh" (bytes "/t/run") [bytes "-v"] = Ret (3, [[]; bytes "/bin/sh"; bytes "-v/t/run"]).
Proof. vm_compute. reflexivity. Qed.
End Demo.

Lemma exec_passes_arguments_witness : exists l st sp ptrs,
  ExecCopyArgs (Demo.prog Demo.ls Demo.lsargs) true 20 0x1000 0x900 0x40000000 Demo.start = Ret (0, l, st)
  /\ ElfCreateTables 20 (view (frames st) l) 0x40000000 (argc (args st)) true 0x8048000 0 0x8048034 32 2
      = Ret (0, (sp, 3 :: sp + 8 :: ptrs ++ [0; AT_FLAGS; 0; AT_PHNUM; 2; AT_PHENT; 32; AT_PHDR; 0x8048034; AT_ENTRY; 0x8048000; AT_BASE; 0; AT_PAGESZ; PAGE_SIZE; AT_NULL; 0]))
  /\ Forall2 (cstr (view (frames st) l)) ptrs (Demo.ls :: Demo.lsargs) /\ sp = ARCH_STACK_TOP - 4 * (2 + zlen ptrs + 17).
Proof.
  pose proof (exec_passes_arguments (Demo.prog Demo.ls Demo.lsargs) 20 0x1000 0x900 0x40000000 Demo.ls Demo.lsargs) as H. apply H; clear H.
  - done.
  - intros [|[|]] s E; try done; injection E as <-; [exists 0x10000|exists 0x12000]; (split; [by vm_compute|split; [done|split; [by repeat constructor|by vm_compute]]]).
  - by vm_compute.
  - cbn. lia.
  - intros [|] s E; [|done]; injection E as <-. exists 0xa00. split; [by vm_compute|split; [done|split; [by repeat constructor|by vm_compute]]].
  - repeat constructor.
  - by vm_compute.
  - by vm_compute.
  - by vm_compute.
  - cbn. lia.
  - by apply (bool_decide_unpack (NoDup Demo.free)); vm_compute.
  - apply (bool_decide_unpack (Forall (fun p => p mod PAGE_SIZE = 0 /\ 0 < p /\ p + PAGE_SIZE <= 2 ^ 32) Demo.free)). by vm_compute.
Defined.
