(* ===== verification/Pipe.v ===== *)
(** * Pipes (fs/vfs/pipe.c, include/fs/pipe.h)

    A pipe is a ring buffer of one page with the position of its first byte
    and the number of bytes in it.  [contents] is the queue of bytes it
    holds: PipeRead takes bytes from its front and PipeWrite appends to its
    end, each in at most two pieces. *)

From S2P Require Import Prelude.

(** ** Model *)

Definition PIPE_BUFFER_SIZE : Z := 4096.
Definition FILE_NONBLOCK : Z := 1.
Definition VFS_ATTR_FILE : Z := 1.
Definition VFS_ATTR_READ : Z := 4.
Definition VFS_ATTR_WRITE : Z := 8.
Definition POLL_IN : Z := 1.
Definition POLL_OUT : Z := 2.

(** struct PipeInfo; [base] holds the bytes of the buffer. *)
Record PipeInfo := {
  base : list Z;
  start : Z;
  lock : Z;
  readers : Z;
  writers : Z;
  psize : Z;
}.

Definition with_data (b : list Z) (s n : Z) (p : PipeInfo) : PipeInfo :=
  {| base := b; start := s; lock := lock p; readers := readers p; writers := writers p; psize := n |}.
Definition with_lock (l : Z) (p : PipeInfo) : PipeInfo :=
  {| base := base p; start := start p; lock := l; readers := readers p; writers := writers p; psize := psize p |}.
Definition with_ends (r w : Z) (p : PipeInfo) : PipeInfo :=
  {| base := base p; start := start p; lock := lock p; readers := r; writers := w; psize := psize p |}.

Definition PIPE_FREE (p : PipeInfo) : Z := u32 (PIPE_BUFFER_SIZE - psize p).
Definition PIPE_END (p : PipeInfo) : Z := Z.land (u32 (start p + psize p)) (PIPE_BUFFER_SIZE - 1).
Definition PIPE_MAX_WCHUNK (p : PipeInfo) : Z := u32 (PIPE_BUFFER_SIZE - PIPE_END p).
Definition PIPE_MAX_RCHUNK (p : PipeInfo) : Z := u32 (PIPE_BUFFER_SIZE - start p).

(** memcpy from and to the buffer; outside of it the access faults. *)
Definition copy_out (b : list Z) (off n : Z) : outcome (list Z) :=
  if off + n <=? Z.of_nat (length b) then Ret (take (Z.to_nat n) (drop (Z.to_nat off) b)) else Fault.
Definition copy_in (b : list Z) (off : Z) (data : list Z) : outcome (list Z) :=
  if off + Z.of_nat (length data) <=? Z.of_nat (length b)
  then Ret (take (Z.to_nat off) b ++ data ++ drop (Z.to_nat off + length data) b) else Fault.

(** The copy loop of PipeRead; [out] are the bytes copied so far. *)
Fixpoint read_loop (fuel : nat) (count : Z) (out : list Z) (p : PipeInfo) : outcome (list Z * PipeInfo) :=
  match fuel with
  | O => NoFuel
  | S fuel =>
      if (0 <? count) && c_true (psize p) then
        let chars := PIPE_MAX_RCHUNK p in
        let chars := if count <? chars then count else chars in
        let chars := if psize p <? chars then psize p else chars in
        let* bytes := copy_out (base p) (start p) chars in
        read_loop fuel (count - chars) (out ++ bytes)
          (with_data (base p) (Z.land (u32 (start p + chars)) (PIPE_BUFFER_SIZE - 1))
                     (u32 (psize p - chars)) p)
      else Ret (out, p)
  end.

(** The result is the return value, the bytes put into [buffer] and the
    pipe.  A pipe that stays locked is waited for without end. *)
Definition PipeRead (fuel : nat) (flags count : Z) (p : PipeInfo) : outcome (Z * list Z * PipeInfo) :=
  if count =? 0 then Ret (0, [], p)
  else
    let run :=
      let* (out, p) := read_loop fuel count [] (with_lock (u32 (lock p + 1)) p) in
      Ret (Z.of_nat (length out), out, with_lock (u32 (lock p - 1)) p) in
    if c_true (Z.land flags FILE_NONBLOCK) then
      if c_true (lock p) then Ret (0, [], p) else run
    else
      if psize p =? 0 then Ret (0, [], p)
      else if c_true (lock p) then NoFuel
      else run.

(** The copy loop of PipeWrite: the bytes left, the number written and the
    pipe. *)
Fixpoint write_loop (fuel : nat) (buffer : list Z) (written : Z) (p : PipeInfo)
  : outcome (list Z * Z * PipeInfo) :=
  match fuel with
  | O => NoFuel
  | S fuel =>
      let size := Z.of_nat (length buffer) in
      let free := PIPE_FREE p in
      if (0 <? size) && c_true free then
        let chars := PIPE_MAX_WCHUNK p in
        let chars := if size <? chars then size else chars in
        let chars := if free <? chars then size else chars in
        let* b := copy_in (base p) (PIPE_END p) (take (Z.to_nat chars) buffer) in
        write_loop fuel (drop (Z.to_nat chars) buffer) (written + chars)
          (with_data b (start p) (u32 (psize p + chars)) p)
      else Ret (buffer, written, p)
  end.

(** The outer loop.  A pipe without room gives -EPIPE while it has readers;
    [NoFuel] is a wait for another thread. *)
Fixpoint write_outer (fuel : nat) (flags free : Z) (buffer : list Z) (written : Z) (p : PipeInfo)
  : outcome (Z * PipeInfo) :=
  match fuel with
  | O => NoFuel
  | S fuel' =>
      let out err := Ret (if 0 <? written then written else err, p) in
      if 0 <? Z.of_nat (length buffer) then
        if (PIPE_FREE p <? free) || c_true (lock p) then
          if negb (readers p =? 0) then out (- EPIPE)
          else if c_true (Z.land flags FILE_NONBLOCK) then out 0
          else NoFuel
        else
          let* (buffer, written, p) := write_loop fuel buffer written (with_lock (u32 (lock p + 1)) p) in
          write_outer fuel' flags 1 buffer written (with_lock (u32 (lock p - 1)) p)
      else out 0
  end.

Definition PipeWrite (fuel : nat) (flags : Z) (buffer : list Z) (p : PipeInfo) : outcome (Z * PipeInfo) :=
  if readers p =? 0 then Ret (- EPIPE, p)
  else
    let size := Z.of_nat (length buffer) in
    let free := if size <=? PIPE_BUFFER_SIZE then size else 1 in
    write_outer fuel flags free buffer 0 p.

(** The poll events of an end of the pipe with the given mode. *)
Definition PipePoll (mode revents : Z) (p : PipeInfo) : Z :=
  let revents := if c_true (Z.land mode VFS_ATTR_READ)
                 then if 0 <? psize p then POLL_IN else revents else revents in
  if c_true (Z.land mode VFS_ATTR_WRITE)
  then if 0 <? PIPE_MAX_WCHUNK p then POLL_OUT else revents else revents.

(** The pipe, or [None] when its memory is freed. *)
Definition PipeClose (mode : Z) (p : PipeInfo) : option PipeInfo :=
  let r := if c_true (Z.land mode VFS_ATTR_READ) then u32 (readers p - 1) else readers p in
  let w := if c_true (Z.land mode VFS_ATTR_WRITE) then u32 (writers p - 1) else writers p in
  if (r =? 0) && (w =? 0) then None else Some (with_ends r w p).

(** ** The queue of a pipe *)

Record pipe_wf (p : PipeInfo) : Prop := {
  po_base : Z.of_nat (length (base p)) = PIPE_BUFFER_SIZE;
  po_start : 0 <= start p < PIPE_BUFFER_SIZE;
  po_size : 0 <= psize p <= PIPE_BUFFER_SIZE;
}.
(** Between calls the pipe is not locked. *)
Definition pipe_ok (p : PipeInfo) : Prop := pipe_wf p /\ lock p = 0.

Definition contents (p : PipeInfo) : list Z :=
  take (Z.to_nat (psize p)) (drop (Z.to_nat (start p)) (base p) ++ take (Z.to_nat (start p)) (base p)).

(** The index in the buffer of byte [i] of the queue. *)
Definition ring_index (s i : Z) : Z := if s + i <? PIPE_BUFFER_SIZE then s + i else s + i - PIPE_BUFFER_SIZE.

Lemma contents_lookup p i : pipe_wf p ->
  contents p !! i = if Z.of_nat i <? psize p
                    then base p !! Z.to_nat (ring_index (start p) (Z.of_nat i)) else None.
Proof.
  intros [L S N]. unfold contents, ring_index, PIPE_BUFFER_SIZE in *.
  destruct (Z.ltb_spec (Z.of_nat i) (psize p)).
  - rewrite lookup_take_lt by lia. destruct (Z.ltb_spec (start p + Z.of_nat i) 4096).
    + rewrite lookup_app_l by (rewrite length_drop; lia). rewrite lookup_drop. f_equal. lia.
    + rewrite lookup_app_r by (rewrite length_drop; lia). rewrite length_drop, lookup_take_lt by lia.
      f_equal. lia.
  - rewrite lookup_take_ge by lia. done.
Qed.

Lemma contents_length p : pipe_wf p -> length (contents p) = Z.to_nat (psize p).
Proof.
  intros [L S N]. unfold contents, PIPE_BUFFER_SIZE in *.
  rewrite length_take, length_app, length_drop, length_take. lia.
Qed.

Lemma ring_index_land s n : 0 <= s < PIPE_BUFFER_SIZE -> 0 <= n <= PIPE_BUFFER_SIZE ->
  Z.land (u32 (s + n)) (PIPE_BUFFER_SIZE - 1) = ring_index s n.
Proof.
  unfold ring_index, PIPE_BUFFER_SIZE. intros Hs Hn. rewrite u32_id by lia.
  rewrite (land_ones_mod _ 12) by done. change (2 ^ 12) with 4096.
  zcases; Z.to_euclidean_division_equations; lia.
Qed.

(** *** Reading *)

(** One piece from the front. *)
Lemma read_piece p n : pipe_wf p -> 0 <= n <= psize p -> start p + n <= PIPE_BUFFER_SIZE ->
  let p' := with_data (base p) (ring_index (start p) n) (psize p - n) p in
  copy_out (base p) (start p) n = Ret (take (Z.to_nat n) (contents p))
  /\ pipe_wf p' /\ contents p' = drop (Z.to_nat n) (contents p).
Proof.
  intros W Hn Hs p'. pose proof W as [L S N]. unfold PIPE_BUFFER_SIZE in *.
  assert (W' : pipe_wf p').
  { split; simpl; unfold ring_index, PIPE_BUFFER_SIZE; [done|zcases; lia|lia]. }
  split_and!; [|done|].
  - unfold copy_out. destruct (Z.leb_spec (start p + n) (Z.of_nat (length (base p)))); [|lia].
    f_equal. unfold contents. rewrite take_take, Nat.min_l by lia.
    rewrite take_app_le by (rewrite length_drop; lia). done.
  - apply list_eq. intros i. rewrite lookup_drop, !contents_lookup by done. simpl.
    unfold ring_index, PIPE_BUFFER_SIZE. zcases; try lia; try done; f_equal; lia.
Qed.

Lemma read_loop_spec : forall fuel count out p, pipe_wf p -> 0 <= count -> (Z.to_nat count < fuel)%nat ->
  let n := Z.to_nat (Z.min count (psize p)) in
  exists p', read_loop fuel count out p = Ret (out ++ take n (contents p), p')
    /\ pipe_wf p' /\ contents p' = drop n (contents p)
    /\ lock p' = lock p /\ readers p' = readers p /\ writers p' = writers p.
Proof.
  induction fuel as [|fuel IH]; intros count out p W Hc Hf n; [lia|]. cbn [read_loop].
  pose proof W as [L S N].
  destruct (Z.ltb_spec 0 count) as [C0|C0]; cbn [andb].
  2: { exists p. subst n. replace (Z.to_nat (Z.min count (psize p))) with 0%nat by lia.
       rewrite take_0, app_nil_r, drop_0. by split_and!. }
  destruct (c_true (psize p)) eqn:Cs.
  2: { apply c_true_false in Cs. exists p. subst n. rewrite Cs.
       replace (Z.to_nat (Z.min count 0)) with 0%nat by lia.
       rewrite take_0, app_nil_r, drop_0. by split_and!. }
  apply c_true_spec in Cs.
  assert (ER : PIPE_MAX_RCHUNK p = PIPE_BUFFER_SIZE - start p)
    by (unfold PIPE_MAX_RCHUNK, PIPE_BUFFER_SIZE in *; rewrite u32_id; lia).
  rewrite ER. set (c1 := if count <? _ then _ else _). set (c := if psize p <? c1 then _ else _).
  assert (Hcc : 0 < c <= psize p /\ c <= count /\ start p + c <= PIPE_BUFFER_SIZE)
    by (unfold c, c1, PIPE_BUFFER_SIZE in *; zcases; lia).
  destruct (read_piece p c W ltac:(lia) ltac:(lia)) as (-> & W' & Ec). cbn [bindO].
  rewrite ring_index_land by lia. rewrite (u32_id (psize p - c)) by (unfold PIPE_BUFFER_SIZE in *; lia).
  destruct (IH (count - c) (out ++ take (Z.to_nat c) (contents p)) _ W' ltac:(lia) ltac:(lia))
    as (p' & -> & Wp & Cp & Lk & Rd & Wr).
  exists p'. simpl in *. split_and!; try done.
  - f_equal. f_equal. rewrite <- app_assoc. f_equal. rewrite Ec. subst n.
    rewrite take_take_drop. f_equal. lia.
  - rewrite Cp, Ec, drop_drop. subst n. f_equal. lia.
Qed.

(** *** Writing *)

(** One piece at the end. *)
Lemma write_piece p data : pipe_wf p -> psize p + Z.of_nat (length data) <= PIPE_BUFFER_SIZE ->
  let e := ring_index (start p) (psize p) in
  e + Z.of_nat (length data) <= PIPE_BUFFER_SIZE ->
  exists b, copy_in (base p) e data = Ret b
    /\ let p' := with_data b (start p) (psize p + Z.of_nat (length data)) p in
       pipe_wf p' /\ contents p' = contents p ++ data.
Proof.
  intros W Hn e He. pose proof W as [L S N]. unfold PIPE_BUFFER_SIZE in *.
  assert (E0 : 0 <= e <= 4096) by (unfold e, ring_index, PIPE_BUFFER_SIZE; zcases; lia).
  unfold copy_in. destruct (Z.leb_spec (e + Z.of_nat (length data)) (Z.of_nat (length (base p)))); [|lia].
  eexists. split; [reflexivity|]. set (b := take _ _ ++ data ++ drop _ _).
  assert (Lb : length b = length (base p)).
  { unfold b. rewrite !length_app, length_take, length_drop. lia. }
  assert (Hb : forall i, b !! i = if (Z.to_nat e <=? i)%nat && (i <? Z.to_nat e + length data)%nat
                                 then data !! (i - Z.to_nat e)%nat else base p !! i).
  { intros i. unfold b. destruct (Nat.leb_spec (Z.to_nat e) i); cbn [andb].
    - rewrite lookup_app_r by (rewrite length_take; lia). rewrite length_take, Nat.min_l by lia.
      destruct (Nat.ltb_spec i (Z.to_nat e + length data)).
      + by rewrite lookup_app_l by lia.
      + rewrite lookup_app_r by lia. rewrite lookup_drop. f_equal. lia.
    - rewrite lookup_app_l by (rewrite length_take; lia). by rewrite lookup_take_lt by lia. }
  set (p' := with_data b (start p) (psize p + Z.of_nat (length data)) p).
  assert (W' : pipe_wf p') by (split; simpl; unfold PIPE_BUFFER_SIZE; lia).
  split; [done|]. apply list_eq. intros i. rewrite contents_lookup by done. simpl.
  destruct (decide (Z.of_nat i < psize p)) as [Hi|Hi].
  - rewrite lookup_app_l by (rewrite contents_length by done; lia).
    rewrite contents_lookup by done. destruct (Z.ltb_spec (Z.of_nat i) (psize p)); [|lia].
    destruct (Z.ltb_spec (Z.of_nat i) (psize p + Z.of_nat (length data))); [|lia].
    rewrite Hb. unfold ring_index, PIPE_BUFFER_SIZE in *. subst e.
    destruct (Nat.leb_spec (Z.to_nat (if start p + psize p <? 4096 then start p + psize p else start p + psize p - 4096))
      (Z.to_nat (if start p + Z.of_nat i <? 4096 then start p + Z.of_nat i else start p + Z.of_nat i - 4096))); [|done].
    cbn [andb]. match goal with |- (if (?x <? ?y)%nat then _ else _) = _ => destruct (Nat.ltb_spec x y) end; [|done].
    exfalso. zcases; lia.
  - rewrite lookup_app_r by (rewrite contents_length by done; lia). rewrite contents_length by done.
    destruct (Z.ltb_spec (Z.of_nat i) (psize p + Z.of_nat (length data))).
    + rewrite Hb. assert (Ei : ring_index (start p) (Z.of_nat i) = e + (Z.of_nat i - psize p)).
      { unfold e, ring_index, PIPE_BUFFER_SIZE in *. zcases; lia. }
      rewrite Ei. destruct (Nat.leb_spec (Z.to_nat e) (Z.to_nat (e + (Z.of_nat i - psize p)))); [|lia].
      destruct (Nat.ltb_spec (Z.to_nat (e + (Z.of_nat i - psize p))) (Z.to_nat e + length data)); [|lia].
      simpl. f_equal. lia.
    + symmetry. apply lookup_ge_None_2. lia.
Qed.

Lemma pipe_end p : pipe_wf p -> PIPE_END p = ring_index (start p) (psize p).
Proof. intros [L S N]. by apply ring_index_land. Qed.

Lemma pipe_free p : pipe_wf p -> PIPE_FREE p = PIPE_BUFFER_SIZE - psize p.
Proof. intros [L S N]. unfold PIPE_FREE, PIPE_BUFFER_SIZE in *. rewrite u32_id; lia. Qed.

Lemma write_loop_spec : forall fuel buffer written p, pipe_wf p ->
  psize p + Z.of_nat (length buffer) <= PIPE_BUFFER_SIZE -> (length buffer < fuel)%nat ->
  exists p', write_loop fuel buffer written p = Ret ([], written + Z.of_nat (length buffer), p')
    /\ pipe_wf p' /\ contents p' = contents p ++ buffer
    /\ lock p' = lock p /\ readers p' = readers p /\ writers p' = writers p.
Proof.
  induction fuel as [|fuel IH]; intros buffer written p W Hn Hf; [lia|]. cbn [write_loop].
  pose proof W as [L S N]. rewrite pipe_free by done.
  destruct (Z.ltb_spec 0 (Z.of_nat (length buffer))) as [B0|B0]; cbn [andb].
  2: { destruct buffer; [|simpl in B0; lia]. exists p. rewrite app_nil_r. simpl. rewrite Z.add_0_r. by split_and!. }
  destruct (c_true (PIPE_BUFFER_SIZE - psize p)) eqn:Cf; [|apply c_true_false in Cf; lia].
  assert (EW : PIPE_MAX_WCHUNK p = PIPE_BUFFER_SIZE - ring_index (start p) (psize p)
    /\ 0 < PIPE_BUFFER_SIZE - ring_index (start p) (psize p)).
  { unfold PIPE_MAX_WCHUNK. rewrite pipe_end by done. unfold ring_index, PIPE_BUFFER_SIZE in *.
    rewrite u32_id by (zcases; lia). zcases; lia. }
  destruct EW as [-> EW]. set (c1 := if Z.of_nat (length buffer) <? _ then _ else _).
  assert (H1 : 0 < c1 <= Z.of_nat (length buffer) /\ ring_index (start p) (psize p) + c1 <= PIPE_BUFFER_SIZE)
    by (unfold c1; zcases; lia).
  destruct (Z.ltb_spec (PIPE_BUFFER_SIZE - psize p) c1); [lia|].
  assert (Lt : length (take (Z.to_nat c1) buffer) = Z.to_nat c1) by (rewrite length_take; lia).
  rewrite pipe_end by done.
  destruct (write_piece p (take (Z.to_nat c1) buffer) W) as (b & -> & W' & Ec); [rewrite Lt; lia|rewrite Lt; lia|].
  cbn [bindO]. rewrite Lt, Z2Nat.id in W', Ec by lia.
  rewrite (u32_id (psize p + c1)) by (unfold PIPE_BUFFER_SIZE in *; lia).
  destruct (IH (drop (Z.to_nat c1) buffer) (written + c1) _ W') as (p' & -> & Wp & Cp & Lk & Rd & Wr);
    [simpl; rewrite length_drop; lia|rewrite length_drop; lia|].
  exists p'. simpl in *. split_and!; try done.
  - f_equal. f_equal. f_equal. rewrite length_drop. lia.
  - by rewrite Cp, Ec, <- app_assoc, take_drop.
Qed.

Lemma with_lock_wf l p : pipe_wf p -> pipe_wf (with_lock l p) /\ contents (with_lock l p) = contents p.
Proof. intros [L S N]. split; [by split|done]. Qed.

(** ** Properties *)

(** C35: PipeRead takes bytes from the front of the queue: as many as asked
    for and available, in the order they were written, and leaves the
    others. *)
Theorem PipeRead_dequeues fuel flags count p :
  pipe_ok p -> 0 <= count -> (Z.to_nat count < fuel)%nat ->
  let n := Z.to_nat (Z.min count (psize p)) in
  exists p', PipeRead fuel flags count p = Ret (Z.of_nat n, take n (contents p), p')
    /\ pipe_ok p' /\ contents p' = drop n (contents p) /\ readers p' = readers p /\ writers p' = writers p.
Proof.
  intros [W Lk] Hc Hf n. pose proof (contents_length p W) as Lc. pose proof W as [L S N]. unfold PipeRead.
  destruct (Z.eqb_spec count 0) as [->|C0].
  { exists p. replace n with 0%nat by (subst n; lia). rewrite take_0, drop_0. by split_and!. }
  assert (Run : exists p', (let* (out, p) := read_loop fuel count [] (with_lock (u32 (lock p + 1)) p) in
      Ret (Z.of_nat (length out), out, with_lock (u32 (lock p - 1)) p)) = Ret (Z.of_nat n, take n (contents p), p')
    /\ pipe_ok p' /\ contents p' = drop n (contents p) /\ readers p' = readers p /\ writers p' = writers p).
  { destruct (with_lock_wf (u32 (lock p + 1)) p W) as [W1 C1].
    destruct (read_loop_spec fuel count [] _ W1 Hc Hf) as (p' & -> & Wp & Cp & Lp & Rp & Wp').
    simpl in Cp, Lp, Rp, Wp'. rewrite C1 in *. cbn [bindO with_lock psize app]. fold n.
    destruct (with_lock_wf (u32 (lock p' - 1)) p' Wp) as [W2 C2].
    eexists. split; [rewrite length_take, Lc; repeat f_equal; subst n; lia|].
    split_and!; try done. split; [done|]. simpl. rewrite Lp, Lk. done. }
  rewrite Lk in *. destruct (c_true (Z.land flags FILE_NONBLOCK)); [exact Run|].
  destruct (Z.eqb_spec (psize p) 0) as [E|]; [|exact Run].
  exists p. replace n with 0%nat by (subst n; lia). rewrite take_0, drop_0. by split_and!.
Qed.

Lemma PipeWrite_fits fuel flags buffer p : pipe_ok p -> readers p <> 0 ->
  psize p + Z.of_nat (length buffer) <= PIPE_BUFFER_SIZE -> (length buffer + 1 < fuel)%nat ->
  exists p', PipeWrite fuel flags buffer p = Ret (Z.of_nat (length buffer), p')
    /\ pipe_ok p' /\ contents p' = contents p ++ buffer
    /\ readers p' = readers p /\ writers p' = writers p.
Proof.
  intros [W Lk] Nr Hr Hf. pose proof W as [L S N]. unfold PipeWrite. destruct (Z.eqb_spec (readers p) 0) as [|_]; [done|].
  destruct (Z.leb_spec (Z.of_nat (length buffer)) PIPE_BUFFER_SIZE); [|lia].
  destruct fuel as [|fuel]; [lia|]. cbn [write_outer]. rewrite pipe_free, Lk by done. cbn [c_true Z.eqb negb]. rewrite orb_false_r.
  destruct (Z.ltb_spec 0 (Z.of_nat (length buffer))) as [B0|B0].
  2: { destruct buffer; [|simpl in B0; lia]. exists p. rewrite app_nil_r. by split_and!. }
  destruct (Z.ltb_spec (PIPE_BUFFER_SIZE - psize p) (Z.of_nat (length buffer))); [lia|].
  destruct (with_lock_wf (u32 (0 + 1)) p W) as [W1 C1].
  destruct (write_loop_spec (Datatypes.S fuel) buffer 0 _ W1 Hr ltac:(lia)) as (p' & E & Wp & Cp & Lp & Rp & Wp').
  rewrite E. cbn [bindO]. rewrite C1 in Cp. simpl in Lp, Rp, Wp'.
  destruct fuel as [|fuel]; [lia|]. cbn [write_outer length].
  destruct (with_lock_wf (u32 (lock p' - 1)) p' Wp) as [W2 C2].
  eexists. split; [destruct (Z.ltb_spec 0 (0 + Z.of_nat (length buffer))); [reflexivity|lia]|].
  split_and!; try done. split; [done|]. simpl. by rewrite Lp.
Qed.


(** A write of up to a page that does not fit is refused with -EPIPE, the
    error of a pipe without readers, although there are readers to wait
    for. *)
Theorem PipeWrite_full_refuses fuel flags buffer p :
  pipe_ok p -> readers p <> 0 -> Z.of_nat (length buffer) <= PIPE_BUFFER_SIZE < psize p + Z.of_nat (length buffer) ->
  (0 < fuel)%nat -> PipeWrite fuel flags buffer p = Ret (- EPIPE, p).
Proof.
  intros [W Lk] Nr Hn Hf. pose proof W as [L S N]. unfold PipeWrite. destruct (Z.eqb_spec (readers p) 0) as [|_]; [done|].
  destruct (Z.leb_spec (Z.of_nat (length buffer)) PIPE_BUFFER_SIZE); [|lia]. destruct fuel as [|fuel]; [lia|]. cbn [write_outer].
  rewrite pipe_free, Lk by done. cbn [c_true Z.eqb negb]. rewrite orb_false_r.
  destruct (Z.ltb_spec 0 (Z.of_nat (length buffer))); [|lia].
  destruct (Z.ltb_spec (PIPE_BUFFER_SIZE - psize p) (Z.of_nat (length buffer))); [|lia].
  by destruct (Z.eqb_spec (readers p) 0).
Qed.

(** A pipe of 4000 bytes that wrap around the end of the buffer. *)
Definition demo_pipe : PipeInfo :=
  {| base := replicate 4096 7; start := 200; lock := 0; readers := 1; writers := 1; psize := 4000 |}.

Lemma demo_pipe_ok : pipe_ok demo_pipe.
Proof. split; [split|]; vm_compute; intuition congruence. Qed.

(** A write of more than a page to a pipe whose bytes wrap around runs
    past the end of the buffer: where a piece must not exceed the free room
    the code takes the whole rest of the request instead. *)
Theorem PipeWrite_overruns : PipeWrite 9 0 (replicate 5000 1) demo_pipe = Fault.
Proof. vm_compute. reflexivity. Qed.

Lemma PipeRead_dequeues_witness : exists p',
  PipeRead 4000 0 3900 demo_pipe = Ret (3900, take 3900 (contents demo_pipe), p').
Proof.
  destruct (PipeRead_dequeues 4000 0 3900 demo_pipe demo_pipe_ok) as (p' & E & _); [lia|lia|].
  exists p'. exact E.
Defined.


Lemma PipeWrite_full_refuses_witness : PipeWrite 1 0 (replicate 97 1) demo_pipe = Ret (- EPIPE, demo_pipe).
Proof. apply (PipeWrite_full_refuses 1 0 (replicate 97 1) demo_pipe demo_pipe_ok); [done|by vm_compute|lia]. Defined.
